(* ===== verification/_CoqProject ===== *)
-Q . S2P
Prelude.v
Dll.v
Rq.v
Pfndb.v
Pmm.v
StringLib.v
WordMem.v
Kheap.v
KheapList.v
KheapInv.v
KheapSlab.v
KheapCreate.v
KheapObj.v
KheapLarge.v
KheapSpec.v
Kprintf.v
Kformat.v
Klog.v
KlogSpec.v
Gdt.v
GdtSpec.v
Smp.v
SmpSpec.v
Time.v
TimeSpec.v
Timer.v
TimerSpec.v
Acpi.v
AcpiSpec.v
Context.v
Debug.v
DebugSpec.v
Paging.v
Vmm.v
PagingInit.v
PagingInitSpec.v
Kenv.v
KheapEnv.v
KheapPages.v
Vfs.v
Tmpfs.v
TmpfsDir.v
TmpfsVfs.v
Initrd.v
InitrdSpec.v
Sdi.v
SdiCalls.v
SdiSpec.v
SdiOps.v
Irq.v
IrqSpec.v
ApicInit.v
SdiHost.v
SdiHostSpec.v
SdiAlloc.v
Ps2.v
Ps2Spec.v
Elf.v
ElfSpec.v
ElfLoops.v
ElfWorld.v
ElfLoad.v
ElfFile.v
ElfFileSpec.v
Sched.v
SchedRep.v
SchedInv.v
SchedOps.v
SchedProc.v
SchedTable.v
SchedReap.v
SchedSpawn.v
SchedThread.v
SchedBoot.v
SchedRun.v
SchedFair.v
SchedDemo.v
Mutex.v
MutexSpec.v
MutexRun.v
