(* ===== verification/Prelude.v ===== *)
(** * Verification of the alix kernel

    alix is a small x86_64 kernel. This library models it as executable Gallina
    functions, a component of the source after the other, and proves what makes
    each part correct. Devices, registers and the structures of the boot loader
    are parameters or fields of the states. This file is the root: the overview
    below, then the vocabulary that all the others share.

    ** How C is modelled

    - Code that may go wrong returns an [outcome]: [Ok], [Panic] (a call of
      [kpanic]), [Fault] (an access through a null or dangling pointer, or
      outside an array), [Timeout] (a loop of the model ran out of fuel).
    - Code with state is in the state monad [ST]; a function of the source is
      one Definition with the same name, its early returns and error codes
      included. The state of a component is a Record.
    - Integers are [Z]. Unsigned arithmetic wraps where the code can overflow
      ([u8], [u32], [u64], [usub], [i32], [i64]); shifts and masks are the
      bitwise operations of [Z].
    - A pointer to an object is a key of the finite map that stores the objects
      of its type; [None] or [0] is the null pointer. Where C overlays two
      structures at one address (a tmpfs node and its vnode, a thread and its
      queue node) both maps have the same key. Pointers to bytes are addresses
      of a byte memory, or an index into the list of the bytes readable there.
    - A loop whose recursion is not structural has fuel. The fuel is computed
      from the state (the number of objects, the size of the range) and is a
      part of the definition; that it is enough is a theorem: the functional
      theorems say that the code returns [Ok] with the stated result, so none
      of them is satisfied by a loop that runs out of fuel.
    - Interrupts and other CPUs take effect between the operations of the
      model: an operation is one step, because it runs with its lock held and
      interrupts off. The scheduler runs any sequence of such steps of any CPU.

    ** The parts and their files

    Memory.
    - [Rq]: the intrusive queues of lib/rq.c on the shared node store of [Dll];
      a run of queue operations refines list operations ([rq_run_refines]).
    - [Pfndb]: the page descriptors of mm/pfndb.c.
    - [Pmm]: the buddy allocator of mm/pmm.c. Its invariant ties free lists,
      descriptors and counters; [pmm_alloc] and [pmm_free] refine a set of
      free frames ([pmm_alloc_spec], [pmm_free_spec]), with every error branch
      ([pmm_free_branches]) and the state after boot ([pmm_boot_spec]).
      Splitting and merging recurse on the order, at most [PMM_MAX_ORDER];
      list walks have the length of the list as fuel.
    - [StringLib]: lib/string.c over a byte memory. The routines that work a
      word at a time are proved equal to the byte-wise reference definitions.
    - [Paging]: four-level page tables, mm/paging.c, over the interface
      [PageSource] which [Pmm] implements. Mapping a page or a range is seen by
      translation and by nothing else; a new table shares the kernel half.
    - [Vmm]: the areas of an address space, mm/vmm.c: sorted disjoint areas,
      search of a free range, cutting out a range, access checks.
    - [PagingInit], [PagingInitSpec]: the kernel's own address space,
      paging_init. The mapped ranges are a list of regions of which the last
      that holds an address decides; [paging_init_spec] reads the protection of
      the image and the direct map off that list, and shows that only a lack of
      frames makes it panic.
    - [Kheap]: the kernel heap, mm/kheap.c, on the buddy allocator and the byte
      memory of [WordMem]: slabs, their free lists inside the free objects,
      large blocks with a header. [KheapInv] is the invariant, with the map of
      the blocks in use; [KheapList], [KheapSlab], [KheapObj], [KheapCreate]
      and [KheapLarge] prove that the parts keep it, [KheapSpec] composes them
      into [kmalloc], [kfree] and [krealloc]. [KheapEnv] states the contract
      (a finite map of disjoint blocks whose contents nobody else touches) and
      implements the interface [Heap] of the clients with it.

    Text.
    - [Kprintf], [Kformat]: the formatter of lib/kprintf.c prints the first
      [bufsz - 1] characters of what the format stands for; numerals read back
      as the number they print.
    - [Klog], [KlogSpec]: the log, log/klog.c: the ring of records holds the last
      512 messages in order, and what is sent out is their lines.
    - [Debug], [DebugSpec]: debug/panic.c and debug/kallsyms.c over the log. The
      report of a panic is printed once, whatever CPU gets there; kpanic itself
      is a list of instructions on the registers; the search for a symbol is
      equal to a linear search.

    File systems.
    - [Kenv]: the interface of the heap and the clock that the clients below
      rely on, with its laws.
    - [Vfs]: fs/vfs.c over the interface [FsTable] of vnode operations: path
      resolution is a fold of lookups over the components, reference counts
      follow open and close.
    - [Tmpfs], [TmpfsDir], [TmpfsVfs]: fs/tmpfs.c. File contents (a write is
      read back), directories (a map from names to nodes, listed by getdents),
      and the implementation of the vnode interface, so that the theorems of
      [Vfs] apply to mounted trees.
    - [Initrd], [InitrdSpec]: fs/initrd.c reads an archive into the file
      system; unpacking an encoded archive performs its entries in order.

    Threads.
    - [Context]: the stack a thread starts with and the context switch of
      sys/sched.c, as instructions on registers and a stack.
    - [Sched]: the whole of sys/sched.c as operations on one state.
    - [SchedRep] relates that state to lists of threads per CPU, [SchedInv]
      states the invariant and the effect of dispatching, [SchedOps] proves
      yield, block, wake and exit, [SchedProc] the process table, [SchedTable]
      its invariant, [SchedReap] the reaping of dead threads, [SchedSpawn] and
      [SchedThread] creation, [SchedBoot] the start of a CPU.
    - [SchedRun] composes them into runs of any sequence of calls;
      [SchedFair] has the named theorems: the invariant holds in every run, a
      ready thread runs within a bounded number of ticks, yielding is
      round-robin, blocking and waking restore the thread. [SchedDemo] applies
      them to a concrete run.

    - [Mutex], [MutexSpec]: lib/mutex.c on the queues of [Rq] and the scheduler;
      a thread that sleeps goes on in a later step. [MutexRun]: in every run of
      the threads at most one owns the mutex, and a waiter whose turn comes is
      woken and owns it.

    Processors and time.
    - [Gdt], [GdtSpec]: the segment tables of cpu/gdt.c, with the loads of the
      segment registers as the processor manual has them; after any calls of any
      CPU each table is typed as its selectors ask.
    - [Smp], [SmpSpec]: cpu/smp.c on top of them: the records of the CPUs, the
      hand-over to the other CPUs through the boot loader's structures, and
      their entry, in any order of their coming up.
    - [Acpi], [AcpiSpec]: sys/acpi.c and acpi/madt.c on the bytes of
      the tables: the walk of the MADT collects the entries of an encoded table
      and never runs past the end of any.
    - [Time], [TimeSpec]: sys/time.c, dev/pit.c and dev/uart.c over any ports and
      time stamp counter (waits for a device take fuel). [Timer], [TimerSpec]:
      sys/timer.c as a step function of each CPU: one CPU calibrates, the others
      wait for its result and get it.

    Interrupts and drivers.
    - [Irq], [IrqSpec]: the handlers and the descriptor table of cpu/idt.c and
      the I/O APIC of sys/apic.c over the class [Mmio] of memory-mapped
      devices: installing and unmasking a line changes one redirection entry
      and one handler. [ApicInit]: the start of the local APIC and of the I/O
      APICs, with the page tables of [Paging].
    - [Sdi]: the driver interface core, sdi/sdi.c: the registry and the
      lifecycle calls, over the class [SdiHost] of the functions in the host
      table; drivers are records of functions on the whole state, so a
      callback may call back. [SdiCalls]: the calls packed into byte
      structures. [SdiSpec], [SdiOps]: the registry is a finite map from handles
      to drivers with distinct names; registration, removal, dispatch, start
      and shutdown follow it.
    - [SdiHost]: the host, sdi/host.c, which implements [SdiHost] with the heap
      of [Kheap], the interrupts of [Irq] and ports (the class [Machine]).
      It logs through the same class. [SdiHostSpec]: ports and interrupt lines
      seen from the driver; [SdiAlloc]: memory for drivers.
    - [Ps2], [Ps2Spec]: the keyboard driver, drivers/ps2/main.c, a client of the
      driver interface: proved against the classes [DriverHost] (the calls it
      makes) and [Controller] (the device), typing a text at the controller
      gives the text to the log of the host.
    - [Elf]: the loader of drivers, sdi/elf.c, on a machine made of the heap and
      the page tables over one allocator ([KheapPages]). [ElfSpec]: the header,
      symbols, relocations and the places of the sections; [ElfLoops]: the loops
      over them; [ElfWorld]: what one allocation, copy and mapping do to the
      machine; [ElfLoad]: loading refines the abstract layout of the sections,
      with every failure. [ElfFile], [ElfFileSpec]: a file of the file system
      read into the heap, and the drivers of a directory loaded in turn.

    ** How the parts interact

    [Paging] and [Vmm] take frames from [Pmm] through [PageSource]. [Initrd]
    calls [Vfs], [Vfs] calls the file system through [FsTable], [Tmpfs]
    implements it and takes memory through [Kenv]. [Sched] uses the queues of
    [Rq], the heap of [Kenv] and an opaque address space, made and destroyed by
    two operations of the memory manager. The clients of [Kenv] assume its laws
    only; [KheapEnv] shows that the heap of [Kheap] has them. [SdiHost] is the
    implementation of the interface that [Sdi] is written against; a bound
    line is followed from the driver's call through the packed structure, the
    host, the I/O APIC and the dispatch of an interrupt to its handler.

    [Smp] builds on [Gdt], [Debug] on [Klog], [Klog] on [Kprintf] and [Mutex] on
    [Sched]; [PagingInit] on [Paging] and [Vmm]. [Ps2] sees the driver interface
    only as a class.

    ** Not modelled

    The order of initialisation in init/main.c; the dump of the interrupt table;
    the TLB, and the text of most log lines, of which the models keep the
    arguments or nothing. An access to a device whose page could not be mapped is
    not a fault. *)
From stdpp Require Export base option list gmap strings.
From Stdlib Require Export ZArith Lia Bool.

#[export] Set Warnings "-clear-no-such-hyp".

Open Scope Z_scope.

(** ** Outcomes of C code

    [Ok] is a normal return, [Panic] a call of [kpanic] (which never
    returns), [Fault] a dereference of a null or dangling pointer (or an
    out-of-range array access), [Timeout] a loop that used up the fuel of
    the model. *)
Inductive outcome (A : Type) : Type :=
| Ok (a : A)
| Panic
| Fault
| Timeout.
Arguments Ok {A} a.
Arguments Panic {A}.
Arguments Fault {A}.
Arguments Timeout {A}.

#[global] Instance outcome_ret : MRet outcome := @Ok.
#[global] Instance outcome_bind : MBind outcome := fun A B f m =>
  match m with
  | Ok a => f a
  | Panic => Panic
  | Fault => Fault
  | Timeout => Timeout
  end.

(** Dereference: a missing object is a fault. *)
Definition deref {A} (o : option A) : outcome A :=
  match o with Some a => Ok a | None => Fault end.

(** ** State monad over outcomes: [ST S A] is C code that reads and writes
    a state of type [S] and returns an [A]. *)
Definition ST (S A : Type) : Type := S -> outcome (A * S).

#[global] Instance st_ret {S} : MRet (ST S) := fun A a s => Ok (a, s).
#[global] Instance st_bind {S} : MBind (ST S) := fun A B f m s =>
  match m s with
  | Ok (a, s') => f a s'
  | Panic => Panic
  | Fault => Fault
  | Timeout => Timeout
  end.

Definition gets {S A} (f : S -> A) : ST S A := fun s => Ok (f s, s).
Definition modify {S} (f : S -> S) : ST S unit := fun s => Ok (tt, f s).
Definition st_panic {S A} : ST S A := fun _ => Panic.
Definition st_fault {S A} : ST S A := fun _ => Fault.
Definition st_timeout {S A} : ST S A := fun _ => Timeout.
Definition st_lift {S A} (o : outcome A) : ST S A := fun s =>
  match o with
  | Ok a => Ok (a, s)
  | Panic => Panic
  | Fault => Fault
  | Timeout => Timeout
  end.

Lemma st_bind_ok {S A B} (m : ST S A) (f : A -> ST S B) s a s' :
  m s = Ok (a, s') -> (m ≫= f) s = f a s'.
Proof. intros H. unfold mbind, st_bind. by rewrite H. Qed.

Lemma st_bind_eq {S A B} (m : ST S A) (f : A -> ST S B) s a s' r :
  m s = Ok (a, s') -> f a s' = r -> (m ≫= f) s = r.
Proof. intros H1 H2. by rewrite (st_bind_ok _ _ _ _ _ H1). Qed.

Lemma lift_bind {S A B} (o : outcome A) (f : A -> ST S B) s a :
  o = Ok a -> (st_lift o ≫= f) s = f a s.
Proof. by intros ->. Qed.

Lemma gets_bind {S A B} (g : S -> A) (f : A -> ST S B) s : (gets g ≫= f) s = f (g s) s.
Proof. done. Qed.

Lemma modify_bind {S B} (g : S -> S) (k : ST S B) s : (modify g ;; k) s = k (g s).
Proof. done. Qed.

Lemma bind_assoc {S A B C} (m : ST S A) (f : A -> ST S B) (g : B -> ST S C) s :
  ((m ≫= f) ≫= g) s = (m ≫= (fun a => f a ≫= g)) s.
Proof. unfold mbind, st_bind. by destruct (m s) as [[]| | |]. Qed.

Lemma then_assoc {S A B C} (m : ST S A) (n : ST S B) (k : ST S C) s :
  ((m ;; n) ;; k) s = (m ;; n ;; k) s.
Proof. apply bind_assoc. Qed.

Lemma bind_ext {S A B} (m m' : ST S A) (f f' : A -> ST S B) s :
  m s = m' s -> (forall a s', f a s' = f' a s') -> (m ≫= f) s = (m' ≫= f') s.
Proof. unfold mbind, st_bind. intros -> Hf. by destruct (m' s) as [[]| | |]. Qed.

Lemma st_bind_inv {S A B} (m : ST S A) (f : A -> ST S B) s b s'' :
  (m ≫= f) s = Ok (b, s'') ->
  exists a s', m s = Ok (a, s') /\ f a s' = Ok (b, s'').
Proof.
  unfold mbind, st_bind. destruct (m s) as [[a s']| | |]; try done. eauto.
Qed.

Lemma st_ret_inv {S A} (x y : A) (s s' : S) :
  mret (M := ST S) x s = Ok (y, s') -> y = x /\ s' = s.
Proof. unfold mret, st_ret. intros. by simplify_eq. Qed.

Lemma outcome_bind_inv {A B} (m : outcome A) (f : A -> outcome B) b :
  (m ≫= f) = Ok b -> exists a, m = Ok a /\ f a = Ok b.
Proof. destruct m; try done. eauto. Qed.

Lemma obind_ok {A B} (m : outcome A) (f : A -> outcome B) a :
  m = Ok a -> (m ≫= f) = f a.
Proof. by intros ->. Qed.

(** ** Relations kept by effectful code

    [preserves R m]: whenever [m] returns, the states before and after are
    related by the preorder [R]. The lemmas on the combinators, and those that
    the components add for their own operations, are in the hint database
    [preserves], which the tactic of the same name applies. *)
Definition preserves {S A} (R : relation S) (m : ST S A) : Prop :=
  forall s a s', m s = Ok (a, s') -> R s s'.

Section preserves.
Context {S : Type} (R : relation S) `{!PreOrder R}.

Lemma preserves_ret {A} (a : A) : preserves R (mret (M := ST S) a).
Proof. by intros s b s' [_ ->]%st_ret_inv. Qed.

Lemma preserves_bind {A B} (m : ST S A) (f : A -> ST S B) :
  preserves R m -> (forall a, preserves R (f a)) -> preserves R (m ≫= f).
Proof.
  intros Hm Hf s b s'' (a & s' & H1 & H2)%st_bind_inv. etrans; [by eapply Hm|by eapply Hf].
Qed.

Lemma preserves_gets {A} (g : S -> A) : preserves R (gets g).
Proof. intros s a s'. unfold gets. intros. by simplify_eq. Qed.

Lemma preserves_lift {A} (o : outcome A) : preserves R (st_lift o).
Proof. intros s a s'. unfold st_lift. destruct o; intros; by simplify_eq. Qed.

Lemma preserves_modify g : (forall s, R s (g s)) -> preserves R (modify g).
Proof. intros Hg s a s'. unfold modify. intros. by simplify_eq. Qed.

Lemma preserves_fault {A} : preserves R (st_fault (A := A)).
Proof. by intros s a s'. Qed.

Lemma preserves_panic {A} : preserves R (st_panic (A := A)).
Proof. by intros s a s'. Qed.

Lemma preserves_timeout {A} : preserves R (st_timeout (A := A)).
Proof. by intros s a s'. Qed.
End preserves.

Lemma preserves_weaken {S A} (R R' : relation S) (m : ST S A) :
  (forall s s', R s s' -> R' s s') -> preserves R m -> preserves R' m.
Proof. intros Hr Hm s a s' Hs. eapply Hr, Hm, Hs. Qed.

Create HintDb preserves.
#[export] Hint Resolve preserves_ret preserves_gets preserves_lift preserves_fault
  preserves_panic preserves_timeout : preserves.

(** Walks through binds, conditionals and matches. *)
Ltac preserves :=
  repeat first
    [ solve [eauto 4 with preserves typeclass_instances]
    | eapply preserves_bind; [typeclasses eauto| |intros ?]
    | case_match ].

(** ** Total correctness

    [hoare P m Q]: from every state of [P] the code [m] returns, with a value
    and a state of [Q]. [gives v Q] is the postcondition of code that returns
    the value [v]. *)
Definition hoare {S A} (P : S -> Prop) (m : ST S A) (Q : A -> S -> Prop) : Prop :=
  forall s, P s -> exists a s', m s = Ok (a, s') /\ Q a s'.
Definition gives {S A} (v : A) (Q : S -> Prop) : A -> S -> Prop := fun a s => a = v /\ Q s.

Section hoare.
Context {S : Type}.

Lemma hoare_bind {A B} (P : S -> Prop) (m : ST S A) (f : A -> ST S B) Q R :
  hoare P m Q -> (forall a, hoare (Q a) (f a) R) -> hoare P (m ≫= f) R.
Proof.
  intros Hm Hf s Hs. destruct (Hm s Hs) as (a & s1 & H1 & Hq). destruct (Hf a s1 Hq) as (b & s2 & H2 & Hr).
  exists b, s2. split; [|done]. by rewrite (st_bind_ok _ _ _ _ _ H1).
Qed.

Lemma hoare_gives {A B} (P : S -> Prop) (m : ST S A) (f : A -> ST S B) v Q R :
  hoare P m (gives v Q) -> hoare Q (f v) R -> hoare P (m ≫= f) R.
Proof. intros Hm Hf. eapply hoare_bind; [exact Hm|]. intros a s [-> Hs]. by apply Hf. Qed.

Lemma hoare_ret {A} (P : S -> Prop) (a : A) (Q : A -> S -> Prop) :
  (forall s, P s -> Q a s) -> hoare P (mret (M := ST S) a) Q.
Proof. intros Hp s Hs. exists a, s. split; [done|by apply Hp]. Qed.

Lemma hoare_ret_gives {A} (P : S -> Prop) (a : A) : hoare P (mret (M := ST S) a) (gives a P).
Proof. by apply hoare_ret. Qed.

Lemma hoare_gets {A B} (P : S -> Prop) (g : S -> A) (f : A -> ST S B) Q v :
  (forall s, P s -> g s = v) -> hoare P (f v) Q -> hoare P (gets g ≫= f) Q.
Proof. intros Hg Hf s Hs. rewrite gets_bind, (Hg s Hs). by apply Hf. Qed.

Lemma hoare_modify (P Q : S -> Prop) (g : S -> S) :
  (forall s, P s -> Q (g s)) -> hoare P (modify g) (gives tt Q).
Proof. intros Hg s Hs. exists tt, (g s). split; [done|]. split; [done|by apply Hg]. Qed.

Lemma hoare_conseq {A} (P P' : S -> Prop) (m : ST S A) Q Q' :
  hoare P' m Q' -> (forall s, P s -> P' s) -> (forall a s, Q' a s -> Q a s) -> hoare P m Q.
Proof. intros Hm Hp Hq s Hs. destruct (Hm s (Hp s Hs)) as (a & s' & ? & ?). eauto. Qed.

Lemma hoare_assoc {A B C} (P : S -> Prop) (m : ST S A) (n : ST S B) (k : ST S C) Q :
  hoare P ((m ;; n) ;; k) Q -> hoare P (m ;; n ;; k) Q.
Proof. intros Hm s Hs. destruct (Hm s Hs) as (a & s' & ? & ?). exists a, s'. by rewrite <- then_assoc. Qed.

Lemma hoare_pre {A} (P : S -> Prop) (X : Prop) (m : ST S A) Q :
  (forall s, P s -> X) -> (X -> hoare P m Q) -> hoare P m Q.
Proof. intros Hx Hm s Hs. exact (Hm (Hx s Hs) s Hs). Qed.
End hoare.

(** ** Machine integers: values of [uint64_t], [uint32_t], [uint16_t],
    [uint8_t] and [int] are integers of [Z], every operation that can
    leave the range is wrapped. *)
Definition u64 (x : Z) : Z := x mod 2 ^ 64.
Definition u32 (x : Z) : Z := x mod 2 ^ 32.
Definition u16 (x : Z) : Z := x mod 2 ^ 16.
Definition u8 (x : Z) : Z := x mod 2 ^ 8.
Definition i32 (x : Z) : Z := (x + 2 ^ 31) mod 2 ^ 32 - 2 ^ 31.
Definition i64 (x : Z) : Z := (x + 2 ^ 63) mod 2 ^ 64 - 2 ^ 63.

Definition is_u64 (x : Z) : Prop := 0 <= x < 2 ^ 64.
Definition is_u32 (x : Z) : Prop := 0 <= x < 2 ^ 32.

Definition u64_max : Z := 2 ^ 64 - 1.

(** Bitwise complement of a 64-bit word. *)
Definition not64 (x : Z) : Z := 2 ^ 64 - 1 - x.

(** The test [x & m] of C as a condition. *)
Definition has_bits (x m : Z) : bool := negb (Z.land x m =? 0).

Lemma u64_small x : 0 <= x < 2 ^ 64 -> u64 x = x.
Proof. apply Z.mod_small. Qed.

Lemma u64_range x : 0 <= u64 x < 2 ^ 64.
Proof. apply Z.mod_pos_bound. lia. Qed.

Lemma u64_add_l x y : u64 (u64 x + y) = u64 (x + y).
Proof. apply Zplus_mod_idemp_l. Qed.

Lemma u64_sub_l x y : u64 (u64 x - y) = u64 (x - y).
Proof. apply Zminus_mod_idemp_l. Qed.

Lemma u32_small x : 0 <= x < 2 ^ 32 -> u32 x = x.
Proof. apply Z.mod_small. Qed.

Lemma i32_small x : - 2 ^ 31 <= x < 2 ^ 31 -> i32 x = x.
Proof. intros Hx. unfold i32. rewrite Z.mod_small by lia. lia. Qed.

Lemma i64_small x : - 2 ^ 63 <= x < 2 ^ 63 -> i64 x = x.
Proof. intros Hx. unfold i64. rewrite Z.mod_small by lia. lia. Qed.

Lemma i32_range x : - 2 ^ 31 <= i32 x < 2 ^ 31.
Proof. unfold i32. pose proof (Z.mod_pos_bound (x + 2 ^ 31) (2 ^ 32)). lia. Qed.

Lemma i64_range x : - 2 ^ 63 <= i64 x < 2 ^ 63.
Proof. unfold i64. pose proof (Z.mod_pos_bound (x + 2 ^ 63) (2 ^ 64)). lia. Qed.

Lemma u32_range x : 0 <= u32 x < 2 ^ 32.
Proof. apply Z.mod_pos_bound. lia. Qed.

(** ** Bits of machine words *)

Lemma not64_ldiff f : 0 <= f < 2 ^ 64 -> not64 f = Z.ldiff (Z.ones 64) f.
Proof.
  intros Hf. unfold not64.
  replace (2 ^ 64 - 1) with (Z.ones 64) by done. apply Z.sub_nocarry_ldiff.
  apply Z.bits_inj'. intros n Hn. rewrite Z.ldiff_spec, Z.bits_0.
  destruct (Z.lt_ge_cases n 64).
  - rewrite Z.ones_spec_low by lia. by rewrite andb_false_r.
  - assert (Z.testbit f n = false) as ->; [|done].
    rewrite <- (Z.mod_small f (2 ^ 64)) by lia. apply Z.mod_pow2_bits_high. lia.
Qed.

Lemma testbit_not64 f n :
  0 <= f < 2 ^ 64 -> 0 <= n < 64 -> Z.testbit (not64 f) n = negb (Z.testbit f n).
Proof.
  intros Hf Hn. rewrite not64_ldiff by done.
  rewrite Z.ldiff_spec, Z.ones_spec_low by lia. done.
Qed.

Lemma has_bits_pow2 x n : 0 <= n -> has_bits x (2 ^ n) = Z.testbit x n.
Proof.
  intros Hn. unfold has_bits. destruct (Z.eqb_spec (Z.land x (2 ^ n)) 0) as [He|He]; simpl.
  - apply (f_equal (fun z => Z.testbit z n)) in He.
    rewrite Z.land_spec, Z.pow2_bits_true, Z.bits_0, andb_true_r in He by done. done.
  - destruct (Z.testbit x n) eqn:E; [done|]. exfalso. apply He, Z.bits_inj'.
    intros m Hm. rewrite Z.land_spec, Z.bits_0, Z.pow2_bits_eqb by done.
    destruct (Z.eqb_spec n m); [subst; by rewrite E|by rewrite andb_false_r].
Qed.

(** Masking with [~(2^k - 1)] rounds down to a multiple of [2^k]. *)
Lemma land_align k x : 0 <= x < 2 ^ 64 -> 0 <= k <= 64 -> Z.land x (not64 (2 ^ k - 1)) = x / 2 ^ k * 2 ^ k.
Proof.
  intros Hx Hk. rewrite <- Z.shiftr_div_pow2, <- Z.shiftl_mul_pow2, <- Z.ldiff_ones_r by lia.
  assert (0 < 2 ^ k <= 2 ^ 64) by (split; [lia|apply Z.pow_le_mono_r; lia]).
  rewrite not64_ldiff by lia. replace (2 ^ k - 1) with (Z.ones k) by (rewrite Z.ones_equiv; lia).
  apply Z.bits_inj'. intros n Hn. rewrite Z.land_spec, !Z.ldiff_spec.
  destruct (Z.lt_ge_cases n 64); [rewrite Z.ones_spec_low by lia; by rewrite andb_true_l|].
  assert (Z.testbit x n = false) as ->; [|done].
  rewrite <- (Z.mod_small x (2 ^ 64)) by lia. by apply Z.mod_pow2_bits_high.
Qed.

(** Rounding up to a multiple of [2^k]. *)
Lemma align_up_pow2 k x : 0 <= k <= 64 -> 0 <= x -> x + 2 ^ k - 1 < 2 ^ 64 ->
  let r := Z.land (u64 (x + 2 ^ k - 1)) (not64 (2 ^ k - 1)) in x <= r < x + 2 ^ k /\ (2 ^ k | r).
Proof.
  intros Hk Hx Hlt r. assert (0 < 2 ^ k) by lia. subst r. rewrite u64_small by lia. rewrite land_align by lia.
  split; [|by exists ((x + 2 ^ k - 1) / 2 ^ k)]. pose proof (Z.div_mod (x + 2 ^ k - 1) (2 ^ k) ltac:(lia)).
  pose proof (Z.mod_pos_bound (x + 2 ^ k - 1) (2 ^ k) ltac:(lia)). lia.
Qed.

(** ** Bounded search *)

Lemma range_all_or_ex (P : Z -> Prop) `{!forall x, Decision (P x)} a n :
  (forall x, a <= x < a + n -> P x) \/ (exists x, a <= x < a + n /\ ~ P x).
Proof.
  assert (forall k : nat, (forall x, a <= x < a + Z.of_nat k -> P x) \/
    (exists x, a <= x < a + Z.of_nat k /\ ~ P x)) as Hk.
  { induction k as [|k [IH|(x & ? & ?)]].
    - left. lia.
    - destruct (decide (P (a + Z.of_nat k))) as [HP|HP].
      + left. intros x Hx. destruct (decide (x = a + Z.of_nat k)) as [->|]; [done|]. apply IH. lia.
      + right. exists (a + Z.of_nat k). split; [lia|done].
    - right. exists x. split; [lia|done]. }
  destruct (Z.lt_ge_cases n 0).
  - left. lia.
  - destruct (Hk (Z.to_nat n)) as [?|?]; rewrite Z2Nat.id in * by lia; auto.
Qed.

(** ** C strings: the bytes before the terminator, out of the bytes that can be
    read from the pointer on. Without a terminator the read leaves them. *)
Definition NUL : Z := 0.
Fixpoint to_nul (b : list Z) : outcome (list Z) :=
  match b with
  | [] => Fault
  | c :: b => if c =? NUL then Ok [] else match to_nul b with Ok l => Ok (c :: l) | o => o end
  end.

Lemma to_nul_app t r : NUL ∉ t -> to_nul (t ++ NUL :: r) = Ok t.
Proof.
  induction t as [|c t IH]; intros Ht; [done|]. apply not_elem_of_cons in Ht as [Hc Ht]. cbn.
  destruct (Z.eqb_spec c NUL) as [|_]; [congruence|]. by rewrite IH.
Qed.

(** ** Pointers: [None] is the null pointer, [Some a] the object at [a]. *)
Definition ptr : Type := option Z.

#[global] Instance outcome_eq_dec {A} `{EqDecision A} : EqDecision (outcome A).
Proof. solve_decision. Defined.

(** ** Automation *)

(** Runs the binds of a monadic goal whose heads are already computed. *)
Ltac run := repeat (progress (unfold mbind, mret, outcome_bind, outcome_ret,
  st_bind, st_ret, deref in *; simpl in *)).

(** Inverts a monadic hypothesis [... = Ok _] into its steps. *)
Ltac inv_ok H :=
  lazymatch type of H with
  | (_ ≫= _) = Ok _ =>
      let a := fresh "a" in let Ha := fresh "Hok" in
      apply outcome_bind_inv in H as (a & Ha & H); inv_ok Ha; inv_ok H
  | Ok _ = Ok _ => simplify_eq H
  | _ => idtac
  end.
