(* ===== verification/Dll.v ===== *)
(** Doubly linked lists threaded through a store of nodes: the shape that
    [rq.c], the free lists of [pmm.c] and the slab lists of [kheap.c] share.
    A component gives the accessors of its node type as a [Links] instance;
    the lemmas state what each pointer manipulation does to the list of
    linked nodes. *)
From S2P Require Import Prelude.

(** Accessors of the [next] and [prev] fields of a node type. *)
Class Links (K N : Type) := {
  lnext : N -> option K;
  lprev : N -> option K;
  set_lnext : option K -> N -> N;
  set_lprev : option K -> N -> N;
}.

Class LinksLaws (K N : Type) `{Links K N} := {
  lnext_set_lnext (p : option K) (n : N) : lnext (set_lnext p n) = p;
  lprev_set_lnext (p : option K) (n : N) : lprev (set_lnext p n) = lprev n;
  lnext_set_lprev (p : option K) (n : N) : lnext (set_lprev p n) = lnext n;
  lprev_set_lprev (p : option K) (n : N) : lprev (set_lprev p n) = p;
}.

(** [store_upd k f h] writes through the pointer [k]; a dangling pointer is
    a fault. *)
Definition store_upd {K N} `{Countable K} (k : K) (f : N -> N) (h : gmap K N)
  : outcome (gmap K N) :=
  match h !! k with
  | Some n => Ok (<[k := f n]> h)
  | None => Fault
  end.

(** A write through a pointer guarded by the test that it is not null. *)
Definition opt_alter {K N} `{Countable K} (p : option K) (f : N -> N)
  (h : gmap K N) : gmap K N :=
  match p with Some k => alter f k h | None => h end.

Definition store_get {K N} `{Countable K} (k : K) (h : gmap K N) : outcome N :=
  deref (h !! k).

(** The element before position [i]. *)
Definition prev_at {K} (l : list K) (i : nat) : option K :=
  match i with O => None | S j => l !! j end.

Section dll.
Context {K N : Type} `{Countable K} `{LinksLaws K N}.
Implicit Types (h : gmap K N) (l : list K) (k : K).

(** The nodes of [l] are linked in the order of [l]. *)
Definition linked h l : Prop :=
  forall i k, l !! i = Some k ->
  exists n, h !! k = Some n /\ lnext n = l !! (S i) /\ lprev n = prev_at l i.

Definition dll h l : Prop := NoDup l /\ linked h l.

Lemma dll_nil h : dll h [].
Proof. split; [constructor|]. intros i k Hi. by rewrite lookup_nil in Hi. Qed.

Lemma store_upd_ok k f h :
  is_Some (h !! k) -> store_upd k f h = Ok (alter f k h).
Proof.
  intros [n Hk]. unfold store_upd. rewrite Hk. f_equal.
  apply map_eq. intros j. rewrite lookup_alter, lookup_insert.
  case_decide; subst; [by rewrite Hk|done].
Qed.

Lemma store_upd_insert k f h n :
  h !! k = Some n -> store_upd k f h = Ok (<[k := f n]> h).
Proof. intros Hk. unfold store_upd. by rewrite Hk. Qed.

Lemma store_get_ok k h n : h !! k = Some n -> store_get k h = Ok n.
Proof. intros Hk. unfold store_get. by rewrite Hk. Qed.

Lemma alter_insert k f h n : h !! k = Some n -> alter f k h = <[k := f n]> h.
Proof.
  intros Hk. apply map_eq. intros j. rewrite lookup_alter, lookup_insert.
  case_decide; subst; [by rewrite Hk|done].
Qed.

Lemma store_upd_inv k f h h' :
  store_upd k f h = Ok h' -> is_Some (h !! k) /\ h' = alter f k h.
Proof.
  intros Hu. assert (is_Some (h !! k)) as Hk.
  { unfold store_upd in Hu. destruct (h !! k); naive_solver. }
  split; [done|]. rewrite (store_upd_ok _ _ _ Hk) in Hu. by inversion Hu.
Qed.

Lemma linked_is_Some h l k : linked h l -> k ∈ l -> is_Some (h !! k).
Proof.
  intros Hl [i Hi]%list_elem_of_lookup. destruct (Hl i k Hi) as (n & Hn & _).
  by exists n.
Qed.

Lemma dll_is_Some h l k : dll h l -> k ∈ l -> is_Some (h !! k).
Proof. intros [_ Hl]. by apply linked_is_Some. Qed.

Lemma dll_lookup_is_Some h l i k : dll h l -> l !! i = Some k -> is_Some (h !! k).
Proof. intros Hd Hi. eapply dll_is_Some; [done|]. apply list_elem_of_lookup; eauto. Qed.

Lemma dll_inj h l i j k :
  dll h l -> l !! i = Some k -> l !! j = Some k -> i = j.
Proof. intros [Hn _]. by apply NoDup_lookup. Qed.

(** A store that agrees on the links of [l] links [l] as well. *)
Lemma dll_frame h h' l :
  (forall k n, k ∈ l -> h !! k = Some n ->
    exists n', h' !! k = Some n' /\ lnext n' = lnext n /\ lprev n' = lprev n) ->
  dll h l -> dll h' l.
Proof.
  intros Hf [Hn Hl]. split; [done|]. intros i k Hi.
  destruct (Hl i k Hi) as (n & Hk & Hnx & Hpv).
  destruct (Hf k n) as (n' & ? & ? & ?); [apply list_elem_of_lookup; eauto|done|].
  exists n'. by rewrite <- Hnx, <- Hpv.
Qed.

Lemma dll_frame_alter h l k f : k ∉ l -> dll h l -> dll (alter f k h) l.
Proof.
  intros Hk. apply dll_frame. intros j n Hj Hn. exists n.
  rewrite lookup_alter_ne by (intros ->; done). done.
Qed.

Lemma dll_frame_insert h l k n : k ∉ l -> dll h l -> dll (<[k := n]> h) l.
Proof.
  intros Hk. apply dll_frame. intros j n' Hj Hn. exists n'.
  rewrite lookup_insert_ne by (intros ->; done). done.
Qed.

Lemma dll_frame_opt_alter h l p f :
  (forall k, p = Some k -> k ∉ l) -> dll h l -> dll (opt_alter p f h) l.
Proof. intros Hp Hd. destruct p; simpl; [apply dll_frame_alter; auto|done]. Qed.

Lemma prev_at_elem l i k : prev_at l i = Some k -> k ∈ l.
Proof. destruct i; [done|]. intros. apply list_elem_of_lookup; eauto. Qed.

(** *** Insertion at the front and at the back, unlinking. *)

Definition link_front h l k n' : gmap K N :=
  opt_alter (head l) (set_lprev (Some k)) (<[k := n']> h).

Definition link_back h l k n' : gmap K N :=
  opt_alter (last l) (set_lnext (Some k)) (<[k := n']> h).

Definition unlink h (p nx : option K) : gmap K N :=
  opt_alter nx (set_lprev p) (opt_alter p (set_lnext nx) h).

Lemma dll_link_front h l k n' :
  dll h l -> k ∉ l -> lnext n' = head l -> lprev n' = None ->
  dll (link_front h l k n') (k :: l).
Proof.
  intros [Hn Hl] Hk Hnx Hpv. split; [by constructor|].
  intros [|i] k' Hi; simpl in Hi.
  - simplify_eq. exists n'. unfold link_front, opt_alter.
    destruct l as [|j l]; simpl in *; simplify_map_eq; [done|].
    rewrite lookup_alter_ne by (intros ->; apply Hk; left).
    by simplify_map_eq.
  - destruct (Hl i k' Hi) as (n & Hk' & Hnx' & Hpv').
    assert (k' <> k) as Hne.
    { intros ->. apply Hk, list_elem_of_lookup. eauto. }
    unfold link_front, opt_alter. destruct l as [|j l]; [done|]. simpl.
    destruct i as [|i]; simpl in Hi.
    + simplify_eq. exists (set_lprev (Some k) n).
      rewrite lookup_alter_eq, lookup_insert_ne, Hk' by done. simpl.
      by rewrite lnext_set_lprev, lprev_set_lprev.
    + assert (k' <> j).
      { intros ->. by assert (S i = 0%nat) by (eapply (NoDup_lookup (j :: l)); eauto). }
      exists n. rewrite lookup_alter_ne, lookup_insert_ne by done. done.
Qed.

Lemma dll_link_back h l k n' :
  dll h l -> k ∉ l -> lnext n' = None -> lprev n' = last l ->
  dll (link_back h l k n') (l ++ [k]).
Proof.
  intros [Hn Hl] Hk Hnx Hpv. split.
  { apply NoDup_app. split; [done|]. split; [|apply NoDup_singleton].
    intros x Hx ->%list_elem_of_singleton. done. }
  assert (forall j, last l = Some j -> j <> k) as Hlk.
  { intros j Hj ->. apply Hk. rewrite last_lookup in Hj.
    apply list_elem_of_lookup; eauto. }
  intros i k' Hi. destruct (decide (i < length l)%nat) as [Hlt|Hge].
  - rewrite lookup_app_l in Hi by done.
    destruct (Hl i k' Hi) as (n & Hk' & Hnx' & Hpv').
    assert (k' <> k) as Hne.
    { intros ->. apply Hk, list_elem_of_lookup. eauto. }
    assert (prev_at (l ++ [k]) i = prev_at l i) as ->.
    { destruct i; [done|]. simpl. by rewrite lookup_app_l by lia. }
    unfold link_back, opt_alter. rewrite last_lookup.
    destruct (decide (S i = length l)) as [He|Hne'].
    + replace (pred (length l)) with i by lia. rewrite Hi.
      exists (set_lnext (Some k) n).
      rewrite lookup_alter_eq, lookup_insert_ne, Hk' by done. simpl.
      rewrite lnext_set_lnext, lprev_set_lnext.
      rewrite lookup_app_r by lia. replace (S i - length l)%nat with 0%nat by lia.
      done.
    + destruct (l !! pred (length l)) as [j|] eqn:Hj.
      * assert (k' <> j).
        { intros ->. assert (i = pred (length l)) by (eapply NoDup_lookup; eauto). lia. }
        exists n. rewrite lookup_alter_ne, lookup_insert_ne by done.
        rewrite lookup_app_l by lia. done.
      * apply lookup_ge_None in Hj. lia.
  - rewrite lookup_app_r in Hi by lia. apply list_lookup_singleton_Some in Hi as [Hi ->].
    exists n'. unfold link_back, opt_alter. split.
    + destruct (last l) as [j|] eqn:Hj.
      * rewrite lookup_alter_ne by (by apply Hlk). by simplify_map_eq.
      * by simplify_map_eq.
    + rewrite Hnx, Hpv. split.
      * symmetry. apply lookup_ge_None. rewrite length_app. simpl. lia.
      * rewrite last_lookup. destruct i as [|i]; simpl.
        { by destruct l; simpl in *; [|lia]. }
        rewrite lookup_app_l by lia. f_equal. lia.
Qed.

Lemma dll_unlink h l i k :
  dll h l -> l !! i = Some k ->
  dll (unlink h (prev_at l i) (l !! S i)) (delete i l).
Proof.
  intros [Hn Hl] Hi. split.
  { eapply sublist_NoDup; [done|apply sublist_delete]. }
  intros j k' Hj.
  assert (exists j0, l !! j0 = Some k' /\ j0 = (if decide (j < i)%nat then j else S j))
    as (j0 & Hj0 & Ej0).
  { rewrite list_lookup_delete in Hj. eauto. }
  destruct (Hl j0 k' Hj0) as (n & Hk' & Hnx & Hpv).
  assert (forall m x, l !! m = Some x -> x = k' -> m = j0) as Huniq.
  { intros m x Hm ->. eapply NoDup_lookup; eauto. }
  unfold unlink.
  set (f1 := fun n0 : N => if decide (S j0 = i) then set_lnext (l !! S i) n0 else n0).
  set (f2 := fun n0 : N => if decide (j0 = S i) then set_lprev (prev_at l i) n0 else n0).
  assert (opt_alter (prev_at l i) (set_lnext (l !! S i)) h !! k' = Some (f1 n)) as Ha.
  { unfold f1. destruct i as [|i]; simpl.
    - done.
    - destruct (l !! i) as [p|] eqn:Hp; simpl.
      + destruct (decide (S j0 = S i)) as [Hd|Hd].
        * assert (j0 = i) as E by lia. rewrite E, Hp in Hj0. simplify_eq. by rewrite lookup_alter_eq, Hk'.
        * rewrite lookup_alter_ne; [done|]. intros ->. apply Hd. f_equal. by eapply eq_sym, Huniq.
      + apply lookup_ge_None in Hp. apply lookup_lt_Some in Hi. lia. }
  assert (opt_alter (l !! S i) (set_lprev (prev_at l i))
    (opt_alter (prev_at l i) (set_lnext (l !! S i)) h) !! k' = Some (f2 (f1 n))) as Hb.
  { unfold f2. destruct (l !! S i) as [p|] eqn:Hp; simpl.
    - destruct (decide (j0 = S i)) as [Hd|Hd].
      + rewrite Hd, Hp in Hj0. simplify_eq. by rewrite lookup_alter_eq, Ha.
      + rewrite lookup_alter_ne; [done|]. intros ->. apply Hd. symmetry. by eapply Huniq.
    - rewrite decide_False; [done|]. intros ->. congruence. }
  exists (f2 (f1 n)). split; [done|]. unfold f1, f2. clear f1 f2 Ha Hb.
  rewrite list_lookup_delete.
  assert (prev_at (delete i l) j = if decide (j <= i)%nat then prev_at l j else l !! j) as ->.
  { destruct j as [|j]; [done|]. simpl.
    rewrite list_lookup_delete. repeat case_decide; try lia; done. }
  destruct (decide (j < i)%nat); subst j0; repeat case_decide; try lia;
    rewrite ?lnext_set_lnext, ?lprev_set_lnext, ?lnext_set_lprev, ?lprev_set_lprev;
    split; try done; subst; try done.
  all: try (assert (j = i) as -> by lia; done).
Qed.

(** The operations touch only the node and its neighbours. *)
Lemma opt_alter_ne p f h j :
  (forall x, p = Some x -> x <> j) -> opt_alter p f h !! j = h !! j.
Proof. destruct p as [x|]; simpl; [|done]. intros Hp. apply lookup_alter_ne. by apply Hp. Qed.

Lemma unlink_ne h l i j : j ∉ l -> unlink h (prev_at l i) (l !! S i) !! j = h !! j.
Proof.
  intros Hj. unfold unlink. rewrite !opt_alter_ne; [done| |]; intros x Hx ->; apply Hj.
  - by eapply prev_at_elem.
  - apply list_elem_of_lookup. eauto.
Qed.

Lemma link_front_ne h l k n' j : j ∉ l -> j <> k -> link_front h l k n' !! j = h !! j.
Proof.
  intros Hj Hk. unfold link_front. rewrite opt_alter_ne.
  - by apply lookup_insert_ne.
  - intros x Hx ->. apply Hj. destruct l; simplify_eq/=. left.
Qed.

Lemma link_back_ne h l k n' j : j ∉ l -> j <> k -> link_back h l k n' !! j = h !! j.
Proof.
  intros Hj Hk. unfold link_back. rewrite opt_alter_ne.
  - by apply lookup_insert_ne.
  - intros x Hx ->. apply Hj. rewrite last_lookup in Hx. apply list_elem_of_lookup. eauto.
Qed.

Lemma elem_of_delete h l i k j :
  dll h l -> l !! i = Some k -> j ∈ delete i l <-> j ∈ l /\ j <> k.
Proof.
  intros Hd Hi. split.
  - intros [m Hm]%list_elem_of_lookup. rewrite list_lookup_delete in Hm. split.
    + apply list_elem_of_lookup. eauto.
    + intros ->. pose proof (dll_inj _ _ _ _ _ Hd Hi Hm). case_decide; lia.
  - intros [[m Hm]%list_elem_of_lookup Hne]. apply list_elem_of_lookup.
    exists (if decide (m < i)%nat then m else pred m).
    assert (m <> i) by naive_solver. rewrite list_lookup_delete.
    destruct (decide (m < i)%nat).
    + by rewrite decide_True.
    + rewrite decide_False by lia. replace (S (pred m)) with m by lia. done.
Qed.

(** A store that agrees with [h] on the nodes of [l] links [l] as [h] does. *)
Lemma dll_frame_eq h h' l : (forall k, k ∈ l -> h' !! k = h !! k) -> dll h l -> dll h' l.
Proof.
  intros Hf. apply dll_frame. intros k n Hk Hn. exists n. by rewrite Hf.
Qed.
End dll.

#[global] Arguments link_front : simpl never.
#[global] Arguments link_back : simpl never.
#[global] Arguments unlink : simpl never.
#[global] Arguments store_get : simpl never.
#[global] Arguments store_upd : simpl never.
