(* ===== verification/Rq.v ===== *)
(** The run-queue list of [kernel/src/lib/rq.c] and [kernel/include/lib/rq.h]:
    an intrusive doubly linked list with head, tail and length. The nodes live
    in a store shared by every queue of the kernel; a queue refines a list of
    node addresses, and every operation leaves the nodes of other queues
    alone. *)
From S2P Require Import Prelude Dll.

Record rq_node := mk_node {
  nd_data : ptr;
  nd_next : ptr;
  nd_prev : ptr;
}.

Record rq := mk_rq {
  rq_head : ptr;
  rq_tail : ptr;
  rq_length : Z;
}.

Abbreviation store := (gmap Z rq_node).

Definition nd_set_next (p : ptr) (n : rq_node) : rq_node :=
  mk_node (nd_data n) p (nd_prev n).
Definition nd_set_prev (p : ptr) (n : rq_node) : rq_node :=
  mk_node (nd_data n) (nd_next n) p.

#[export] Instance rq_links : Links Z rq_node := {
  lnext := nd_next;
  lprev := nd_prev;
  set_lnext := nd_set_next;
  set_lprev := nd_set_prev;
}.
#[export] Instance rq_links_laws : LinksLaws Z rq_node.
Proof. by split. Qed.

(** *** The operations of [rq.c] *)

Definition rq_init : rq := mk_rq None None 0.

Definition rq_node_init (h : store) (node : Z) (data : ptr) : outcome store :=
  store_upd node (fun _ => mk_node data None None) h.

Definition rq_node_is_linked (h : store) (node : Z) : outcome bool :=
  n ← store_get node h;
  Ok (bool_decide (nd_next n <> None) || bool_decide (nd_prev n <> None)).

Definition rq_empty (q : rq) : bool := rq_length q =? 0.

Definition rq_front (q : rq) (h : store) : outcome ptr :=
  match rq_head q with
  | Some k => n ← store_get k h; Ok (nd_data n)
  | None => Ok None
  end.

Definition rq_back (q : rq) (h : store) : outcome ptr :=
  match rq_tail q with
  | Some k => n ← store_get k h; Ok (nd_data n)
  | None => Ok None
  end.

Definition rq_push_front_node (q : rq) (h : store) (node : Z)
  : outcome (rq * store) :=
  h ← store_upd node (fun n => nd_set_next (rq_head q) (nd_set_prev None n)) h;
  match rq_head q with
  | Some hd =>
      h ← store_upd hd (nd_set_prev (Some node)) h;
      Ok (mk_rq (Some node) (rq_tail q) (u64 (rq_length q + 1)), h)
  | None => Ok (mk_rq (Some node) (Some node) (u64 (rq_length q + 1)), h)
  end.

Definition rq_push_back_node (q : rq) (h : store) (node : Z)
  : outcome (rq * store) :=
  h ← store_upd node (fun n => nd_set_prev (rq_tail q) (nd_set_next None n)) h;
  match rq_tail q with
  | Some tl =>
      h ← store_upd tl (nd_set_next (Some node)) h;
      Ok (mk_rq (rq_head q) (Some node) (u64 (rq_length q + 1)), h)
  | None => Ok (mk_rq (Some node) (Some node) (u64 (rq_length q + 1)), h)
  end.

Definition rq_push_front (q : rq) (h : store) (node : Z) (data : ptr)
  : outcome (rq * store) :=
  h ← rq_node_init h node data;
  rq_push_front_node q h node.

Definition rq_push_back (q : rq) (h : store) (node : Z) (data : ptr)
  : outcome (rq * store) :=
  h ← rq_node_init h node data;
  rq_push_back_node q h node.

(** [node->next = NULL; node->prev = NULL;] *)
Definition rq_clear_links (n : rq_node) : rq_node :=
  nd_set_prev None (nd_set_next None n).

Definition rq_pop_front_node (q : rq) (h : store) : outcome (ptr * rq * store) :=
  match rq_head q with
  | None => Ok (None, q, h)
  | Some node =>
      n ← store_get node h;
      match nd_next n with
      | Some hd =>
          h ← store_upd hd (nd_set_prev None) h;
          h ← store_upd node rq_clear_links h;
          Ok (Some node, mk_rq (Some hd) (rq_tail q) (u64 (rq_length q - 1)), h)
      | None =>
          h ← store_upd node rq_clear_links h;
          Ok (Some node, mk_rq None None (u64 (rq_length q - 1)), h)
      end
  end.

Definition rq_pop_back_node (q : rq) (h : store) : outcome (ptr * rq * store) :=
  match rq_tail q with
  | None => Ok (None, q, h)
  | Some node =>
      n ← store_get node h;
      match nd_prev n with
      | Some tl =>
          h ← store_upd tl (nd_set_next None) h;
          h ← store_upd node rq_clear_links h;
          Ok (Some node, mk_rq (rq_head q) (Some tl) (u64 (rq_length q - 1)), h)
      | None =>
          h ← store_upd node rq_clear_links h;
          Ok (Some node, mk_rq None None (u64 (rq_length q - 1)), h)
      end
  end.

(** [return node ? node->data : NULL;] *)
Definition rq_node_data (r : ptr * rq * store) : outcome (ptr * rq * store) :=
  let '(node, q, h) := r in
  match node with
  | Some k => n ← store_get k h; Ok (nd_data n, q, h)
  | None => Ok (None, q, h)
  end.

Definition rq_pop_front (q : rq) (h : store) : outcome (ptr * rq * store) :=
  r ← rq_pop_front_node q h; rq_node_data r.

Definition rq_pop_back (q : rq) (h : store) : outcome (ptr * rq * store) :=
  r ← rq_pop_back_node q h; rq_node_data r.

Definition rq_remove_node (q : rq) (h : store) (node : Z) : outcome (rq * store) :=
  n ← store_get node h;
  r ← match nd_prev n with
      | Some p => h ← store_upd p (nd_set_next (nd_next n)) h; Ok (rq_head q, h)
      | None => Ok (nd_next n, h)
      end;
  let '(hd, h) := (r : ptr * store) in
  n ← store_get node h;
  r ← match nd_next n with
      | Some x => h ← store_upd x (nd_set_prev (nd_prev n)) h; Ok (rq_tail q, h)
      | None => Ok (nd_prev n, h)
      end;
  let '(tl, h) := (r : ptr * store) in
  h ← store_upd node rq_clear_links h;
  Ok (mk_rq hd tl (u64 (rq_length q - 1)), h).

(** [rq_find] walks the [next] pointers; [fuel] bounds the walk. *)
Fixpoint rq_find_from (fuel : nat) (h : store) (node : ptr) (data : ptr)
  : outcome ptr :=
  match node with
  | None => Ok None
  | Some k =>
      match fuel with
      | O => Timeout
      | S fuel =>
          n ← store_get k h;
          if decide (nd_data n = data) then Ok (Some k)
          else rq_find_from fuel h (nd_next n) data
      end
  end.

Definition rq_find (fuel : nat) (q : rq) (h : store) (data : ptr) : outcome ptr :=
  rq_find_from fuel h (rq_head q) data.

Definition rq_contains (fuel : nat) (q : rq) (h : store) (data : ptr)
  : outcome bool :=
  r ← rq_find fuel q h data; Ok (bool_decide (r <> None)).

Definition rq_remove (fuel : nat) (q : rq) (h : store) (data : ptr)
  : outcome (bool * rq * store) :=
  r ← rq_find fuel q h data;
  match r with
  | None => Ok (false, q, h)
  | Some node =>
      r ← rq_remove_node q h node;
      let '(q, h) := (r : rq * store) in Ok (true, q, h)
  end.

Definition rq_rotate (q : rq) (h : store) : outcome (rq * store) :=
  if rq_length q <? 2 then Ok (q, h) else
  r ← rq_pop_front_node q h;
  let '(node, q, h) := (r : ptr * rq * store) in
  match node with
  | Some k => rq_push_back_node q h k
  | None => Fault
  end.

Fixpoint rq_clear_from (fuel : nat) (h : store) (node : ptr) : outcome store :=
  match node with
  | None => Ok h
  | Some k =>
      match fuel with
      | O => Timeout
      | S fuel =>
          n ← store_get k h;
          h ← store_upd k rq_clear_links h;
          rq_clear_from fuel h (nd_next n)
      end
  end.

Definition rq_clear (fuel : nat) (q : rq) (h : store) : outcome (rq * store) :=
  h ← rq_clear_from fuel h (rq_head q);
  Ok (mk_rq None None 0, h).

(** ** Representation of a list of nodes by a queue *)

Definition rq_rep (q : rq) (h : store) (l : list Z) : Prop :=
  dll h l /\ rq_head q = head l /\ rq_tail q = last l /\
  rq_length q = Z.of_nat (length l) /\ Z.of_nat (length l) < 2 ^ 64.

Lemma rq_rep_init h : rq_rep rq_init h [].
Proof. split; [apply dll_nil|]. done. Qed.

Lemma rq_rep_frame q h h' l :
  (forall k, k ∈ l -> h' !! k = h !! k) -> rq_rep q h l -> rq_rep q h' l.
Proof.
  intros Hf (Hd & ? & ? & ? & ?). split; [by eapply dll_frame_eq|done].
Qed.

Lemma u64_pred (n : nat) : Z.of_nat (S n) < 2 ^ 64 -> u64 (Z.of_nat (S n) - 1) = Z.of_nat n.
Proof. intros. rewrite u64_small; lia. Qed.

Lemma rq_push_front_node_rep q h l k n :
  rq_rep q h l -> h !! k = Some n -> k ∉ l -> Z.of_nat (length l) + 1 < 2 ^ 64 ->
  exists q', rq_push_front_node q h k =
      Ok (q', link_front h l k (mk_node (nd_data n) (head l) None)) /\
    rq_rep q' (link_front h l k (mk_node (nd_data n) (head l) None)) (k :: l).
Proof.
  intros (Hd & Hh & Ht & Hlen & Hb) Hk Hnin Hb'.
  assert (dll (link_front h l k (mk_node (nd_data n) (head l) None)) (k :: l)) as Hd'.
  { by apply dll_link_front. }
  exists (mk_rq (Some k) (last (k :: l)) (Z.of_nat (length l) + 1)).
  split; [|split; [done|]; simpl; split_and!; auto; lia].
  unfold rq_push_front_node. rewrite (store_upd_insert _ _ _ _ Hk). run.
  rewrite Hh, Ht, Hlen, u64_small by lia. unfold link_front, opt_alter.
  destruct l as [|j l]; simpl; [done|].
  rewrite store_upd_ok; [done|].
  rewrite lookup_insert_ne by (intros ->; apply Hnin; left).
  eapply dll_is_Some; [done|left].
Qed.

Lemma rq_push_back_node_rep q h l k n :
  rq_rep q h l -> h !! k = Some n -> k ∉ l -> Z.of_nat (length l) + 1 < 2 ^ 64 ->
  exists q', rq_push_back_node q h k =
      Ok (q', link_back h l k (mk_node (nd_data n) None (last l))) /\
    rq_rep q' (link_back h l k (mk_node (nd_data n) None (last l))) (l ++ [k]).
Proof.
  intros (Hd & Hh & Ht & Hlen & Hb) Hk Hnin Hb'.
  assert (dll (link_back h l k (mk_node (nd_data n) None (last l))) (l ++ [k])) as Hd'.
  { by apply dll_link_back. }
  exists (mk_rq (head (l ++ [k])) (Some k) (Z.of_nat (length l) + 1)).
  split; [|split; [done|]; simpl; rewrite last_snoc, length_app; simpl; split_and!; auto; lia].
  unfold rq_push_back_node. rewrite (store_upd_insert _ _ _ _ Hk). run.
  rewrite Hh, Ht, Hlen, u64_small by lia. unfold link_back, opt_alter.
  destruct (last l) as [j|] eqn:Hj; simpl.
  - rewrite store_upd_ok; [by destruct l|].
    assert (j ∈ l) by (rewrite last_lookup in Hj; apply list_elem_of_lookup; eauto).
    rewrite lookup_insert_ne by (intros ->; done). by eapply dll_is_Some.
  - by apply last_None in Hj as ->.
Qed.

(** Unlinking the node at position [i], with its own links cleared. *)
Definition unlinked (h : store) (l : list Z) (i : nat) (k : Z) : store :=
  alter rq_clear_links k (unlink h (prev_at l i) (l !! S i)).

Lemma unlinked_lookup_ne h l i k j :
  j ∉ l -> j <> k -> unlinked h l i k !! j = h !! j.
Proof.
  intros Hj Hk. unfold unlinked. rewrite lookup_alter_ne by done. by apply unlink_ne.
Qed.

Lemma opt_alter_data p f (h : store) j :
  (forall n, nd_data (f n) = nd_data n) ->
  nd_data <$> opt_alter p f h !! j = nd_data <$> h !! j.
Proof.
  intros Hf. destruct p as [x|]; simpl; [|done]. rewrite lookup_alter.
  case_decide; [subst|done]. destruct (h !! j); simpl; by rewrite ?Hf.
Qed.

Lemma unlinked_data h l i k j :
  nd_data <$> unlinked h l i k !! j = nd_data <$> h !! j.
Proof.
  unfold unlinked, unlink.
  etransitivity; [by apply (opt_alter_data (Some k))|]. by rewrite !opt_alter_data.
Qed.

Lemma rq_rep_unlinked q h l i k q' :
  rq_rep q h l -> l !! i = Some k ->
  rq_head q' = head (delete i l) -> rq_tail q' = last (delete i l) ->
  rq_length q' = Z.of_nat (length (delete i l)) ->
  rq_rep q' (unlinked h l i k) (delete i l).
Proof.
  intros (Hd & Hh & Ht & Hlen & Hb) Hi ? ? ?.
  assert (length (delete i l) = pred (length l)) as Hl.
  { rewrite length_delete; [lia|by exists k]. }
  split; [|split_and!; try done; lia].
  apply dll_frame_alter; [|by eapply dll_unlink].
  rewrite (elem_of_delete _ _ _ _ _ Hd Hi). naive_solver.
Qed.

Lemma linked_at h l i k :
  dll h l -> l !! i = Some k ->
  exists d, h !! k = Some (mk_node d (l !! S i) (prev_at l i)).
Proof.
  intros [_ Hl] Hi. destruct (Hl i k Hi) as ([d nx pv] & ? & ? & ?). simpl in *.
  simplify_eq. eauto.
Qed.

Lemma rq_pop_front_node_nil q h :
  rq_rep q h [] -> rq_pop_front_node q h = Ok (None, q, h).
Proof. intros (_ & Hh & _). unfold rq_pop_front_node. by rewrite Hh. Qed.

Lemma rq_pop_front_node_rep q h k l :
  rq_rep q h (k :: l) ->
  exists q', rq_pop_front_node q h = Ok (Some k, q', unlinked h (k :: l) 0 k) /\
    rq_rep q' (unlinked h (k :: l) 0 k) l.
Proof.
  intros Hr. pose proof Hr as (Hd & Hh & Ht & Hlen & Hb).
  destruct (linked_at h (k :: l) 0 k Hd eq_refl) as [d Hk]. simpl in Hk.
  exists (mk_rq (head l) (last l) (Z.of_nat (length l))). split.
  - unfold rq_pop_front_node. rewrite Hh. simpl. rewrite (store_get_ok _ _ _ Hk). run.
    rewrite Ht, Hlen. simpl length in *. rewrite u64_pred by lia.
    unfold unlinked, unlink. simpl. destruct l as [|j l]; simpl.
    + by rewrite store_upd_ok by eauto.
    + rewrite store_upd_ok.
      2:{ eapply dll_is_Some; [done|]. right. left. }
      rewrite store_upd_ok; [done|]. apply lookup_alter_is_Some. eauto.
  - eapply (rq_rep_unlinked _ _ (k :: l) 0); try done.
Qed.

Lemma rq_pop_back_node_nil q h :
  rq_rep q h [] -> rq_pop_back_node q h = Ok (None, q, h).
Proof. intros (_ & _ & Ht & _). unfold rq_pop_back_node. by rewrite Ht. Qed.

Lemma rq_pop_back_node_rep q h k l :
  rq_rep q h (l ++ [k]) ->
  exists q', rq_pop_back_node q h =
      Ok (Some k, q', unlinked h (l ++ [k]) (length l) k) /\
    rq_rep q' (unlinked h (l ++ [k]) (length l) k) l.
Proof.
  intros Hr. pose proof Hr as (Hd & Hh & Ht & Hlen & Hb).
  assert ((l ++ [k]) !! length l = Some k) as Hi by (by apply list_lookup_middle).
  assert ((l ++ [k]) !! S (length l) = None) as Hn.
  { apply lookup_ge_None. rewrite length_app. simpl. lia. }
  assert (prev_at (l ++ [k]) (length l) = last l) as Hp.
  { rewrite last_lookup. destruct (length l) as [|n] eqn:E; simpl.
    - by destruct l.
    - by rewrite lookup_app_l by lia. }
  destruct (linked_at h _ _ k Hd Hi) as [d Hk]. rewrite Hn, Hp in Hk.
  exists (mk_rq (head l) (last l) (Z.of_nat (length l))). split.
  - unfold rq_pop_back_node. rewrite Ht, last_snoc. rewrite (store_get_ok _ _ _ Hk). run.
    rewrite Hh, Hlen. rewrite length_app in *. simpl length in *.
    replace (length l + 1)%nat with (S (length l)) in * by lia. rewrite u64_pred by lia.
    unfold unlinked, unlink. rewrite Hn, Hp. simpl.
    destruct (last l) as [j|] eqn:Hj; simpl.
    + assert (j ∈ l) by (rewrite last_lookup in Hj; apply list_elem_of_lookup; eauto).
      rewrite store_upd_ok.
      2:{ eapply dll_is_Some; [done|]. apply elem_of_app. by left. }
      rewrite store_upd_ok.
      * by destruct l.
      * apply lookup_alter_is_Some. eauto.
    + rewrite store_upd_ok by eauto. by apply last_None in Hj as ->.
  - pose proof (delete_middle l [] k) as Hdel. rewrite app_nil_r in Hdel.
    assert (forall q', rq_rep q' (unlinked h (l ++ [k]) (length l) k)
      (delete (length l) (l ++ [k])) -> rq_rep q' (unlinked h (l ++ [k]) (length l) k) l)
      as Hgo by (by rewrite Hdel).
    apply Hgo. eapply rq_rep_unlinked; try done; rewrite Hdel; done.
Qed.

Lemma rq_remove_node_rep q h l i k :
  rq_rep q h l -> l !! i = Some k ->
  exists q', rq_remove_node q h k = Ok (q', unlinked h l i k) /\
    rq_rep q' (unlinked h l i k) (delete i l).
Proof.
  intros Hr Hi. pose proof Hr as (Hd & Hh & Ht & Hlen & Hb).
  destruct (linked_at h l i k Hd Hi) as [d Hk].
  assert (length (delete i l) = pred (length l)) as Hl.
  { rewrite length_delete; [lia|by exists k]. }
  assert (length l <> 0%nat) by (apply lookup_lt_Some in Hi; lia).
  exists (mk_rq (head (delete i l)) (last (delete i l)) (Z.of_nat (length (delete i l)))).
  split; [|by eapply rq_rep_unlinked].
  unfold rq_remove_node. rewrite (obind_ok _ _ _ (store_get_ok _ _ _ Hk)).
  rewrite Hlen, Hl, Hh, Ht. simpl nd_prev. simpl nd_next.
  replace (Z.of_nat (length l)) with (Z.of_nat (S (pred (length l)))) by lia.
  rewrite u64_pred by lia. unfold unlinked, unlink.
  set (hp := opt_alter (prev_at l i) (nd_set_next (l !! S i)) h).
  assert (hp !! k = h !! k) as Hpk.
  { unfold hp. destruct i as [|i]; simpl; [done|].
    destruct (l !! i) as [p|] eqn:Hp; simpl; [|done]. apply lookup_alter_ne.
    intros ->. pose proof (dll_inj _ _ _ _ _ Hd Hi Hp). lia. }
  assert (forall j, l !! S i = Some j -> is_Some (hp !! j)) as Hpj.
  { intros j Hj. unfold hp. destruct (prev_at l i); simpl; rewrite ?lookup_alter_is_Some;
      by eapply dll_lookup_is_Some. }
  rewrite (obind_ok _ _ (head (delete i l), hp)).
  2:{ unfold hp. destruct (prev_at l i) as [p|] eqn:Hp; simpl.
    - rewrite store_upd_ok by (eapply dll_is_Some; [done|by eapply prev_at_elem]).
      destruct i; [done|]. by destruct l.
    - destruct i as [|i]; [by destruct l as [|? [|]]|]. simpl in Hp.
      apply lookup_ge_None in Hp. apply lookup_lt_Some in Hi. lia. }
  rewrite (obind_ok _ _ _ (store_get_ok _ _ _ (eq_trans Hpk Hk))).
  simpl nd_prev. simpl nd_next.
  rewrite (obind_ok _ _ (last (delete i l), opt_alter (l !! S i) (nd_set_prev (prev_at l i)) hp)).
  2:{ rewrite !last_lookup, Hl, list_lookup_delete.
    destruct (l !! S i) as [j|] eqn:Hj; simpl.
    - rewrite store_upd_ok by eauto. apply lookup_lt_Some in Hj.
      rewrite decide_False by lia. simpl. do 3 f_equal. lia.
    - apply lookup_ge_None in Hj. apply lookup_lt_Some in Hi as Hlt.
      destruct i as [|i]; simpl prev_at.
      + destruct l as [|x [|y l]]; simpl in *; try lia. done.
      + rewrite decide_True by lia. do 3 f_equal. lia. }
  rewrite store_upd_ok; [done|].
  destruct (l !! S i) as [j|]; simpl; rewrite ?lookup_alter_is_Some, Hpk; eauto.
Qed.

Lemma link_front_data h l k n' j :
  nd_data <$> link_front h l k n' !! j =
    if decide (j = k) then Some (nd_data n') else nd_data <$> h !! j.
Proof.
  unfold link_front. rewrite opt_alter_data by done. rewrite lookup_insert.
  repeat case_decide; by simplify_eq.
Qed.

Lemma link_back_data h l k n' j :
  nd_data <$> link_back h l k n' !! j =
    if decide (j = k) then Some (nd_data n') else nd_data <$> h !! j.
Proof.
  unfold link_back. rewrite opt_alter_data by done. rewrite lookup_insert.
  repeat case_decide; by simplify_eq.
Qed.

(** *** The abstract deque: the nodes in order, each with its data pointer *)

Abbreviation entries := (list (Z * ptr)).

Definition holds (q : rq) (h : store) (e : entries) : Prop :=
  rq_rep q h e.*1 /\ Forall (fun x => nd_data <$> h !! x.1 = Some x.2) e.

Inductive rq_op :=
| PushFront (node : Z) (data : ptr)
| PushBack (node : Z) (data : ptr)
| PopFront
| PopBack
| Remove (data : ptr)
| Contains (data : ptr)
| Rotate
| Clear.

Inductive rq_res :=
| RNone
| RPtr (p : ptr)
| RBool (b : bool).

(** What each operation promises on the abstract deque. *)
Definition spec_exec (op : rq_op) (e : entries) : rq_res * entries :=
  match op with
  | PushFront k d => (RNone, (k, d) :: e)
  | PushBack k d => (RNone, e ++ [(k, d)])
  | PopFront => (RPtr (head e ≫= snd), tail e)
  | PopBack => (RPtr (last e ≫= snd), delete (pred (length e)) e)
  | Remove d =>
      match list_find (fun x : Z * ptr => x.2 = d) e with
      | Some (i, _) => (RBool true, delete i e)
      | None => (RBool false, e)
      end
  | Contains d => (RBool (bool_decide (d ∈ e.*2)), e)
  | Rotate =>
      match e with
      | x :: (_ :: _) as e' => (RNone, e' ++ [x])
      | _ => (RNone, e)
      end
  | Clear => (RNone, [])
  end.

(** Dispatch of an operation to the code. *)
Definition rq_exec (fuel : nat) (op : rq_op) (q : rq) (h : store)
  : outcome (rq_res * rq * store) :=
  match op with
  | PushFront k d => r ← rq_push_front q h k d; Ok (RNone, r.1, r.2)
  | PushBack k d => r ← rq_push_back q h k d; Ok (RNone, r.1, r.2)
  | PopFront => r ← rq_pop_front q h; Ok (RPtr r.1.1, r.1.2, r.2)
  | PopBack => r ← rq_pop_back q h; Ok (RPtr r.1.1, r.1.2, r.2)
  | Remove d => r ← rq_remove fuel q h d; Ok (RBool r.1.1, r.1.2, r.2)
  | Contains d => b ← rq_contains fuel q h d; Ok (RBool b, q, h)
  | Rotate => r ← rq_rotate q h; Ok (RNone, r.1, r.2)
  | Clear => r ← rq_clear fuel q h; Ok (RNone, r.1, r.2)
  end.

(** The node an operation inserts. *)
Definition op_node (op : rq_op) : ptr :=
  match op with PushFront k _ | PushBack k _ => Some k | _ => None end.

(** Callers insert only allocated nodes that are not in the queue. *)
Definition op_valid (op : rq_op) (h : store) (e : entries) : Prop :=
  match op_node op with
  | Some k => is_Some (h !! k) /\ (k ∉ e.*1) /\ Z.of_nat (length e) + 1 < 2 ^ 64
  | None => True
  end.

Definition refines_at (op : rq_op) (fuel : nat) (q : rq) (h : store) (e : entries)
  : Prop :=
  exists q' h',
    rq_exec fuel op q h = Ok ((spec_exec op e).1, q', h') /\
    holds q' h' (spec_exec op e).2 /\
    (forall j, j ∉ e.*1 -> op_node op <> Some j -> h' !! j = h !! j).

Lemma holds_lookup q h e i k d :
  holds q h e -> e !! i = Some (k, d) ->
  h !! k = Some (mk_node d (e.*1 !! S i) (prev_at e.*1 i)).
Proof.
  intros [(Hd & _) Hf] Hi.
  assert (e.*1 !! i = Some k) as Hk by (by rewrite list_lookup_fmap, Hi).
  destruct (linked_at h _ _ _ Hd Hk) as [d' Hn].
  rewrite Forall_lookup in Hf. pose proof (Hf _ _ Hi) as Hd'. simpl in Hd'.
  rewrite Hn in Hd'. simpl in Hd'. by simplify_eq.
Qed.

Lemma Forall_data_frame (h h' : store) e :
  (forall k, k ∈ e.*1 -> nd_data <$> h' !! k = nd_data <$> h !! k) ->
  Forall (fun x => nd_data <$> h !! x.1 = Some x.2) e ->
  Forall (fun x => nd_data <$> h' !! x.1 = Some x.2) e.
Proof.
  intros Hf He. apply Forall_forall. intros [k d] Hin.
  rewrite Forall_forall in He. simpl. rewrite Hf; [by apply (He _ Hin)|].
  apply list_elem_of_fmap. exists (k, d). done.
Qed.

Lemma store_node_init h k d :
  is_Some (h !! k) -> rq_node_init h k d = Ok (<[k := mk_node d None None]> h).
Proof. intros [n Hn]. unfold rq_node_init. by rewrite (store_upd_insert _ _ _ _ Hn). Qed.

Lemma rq_rep_insert q h l k n : k ∉ l -> rq_rep q h l -> rq_rep q (<[k := n]> h) l.
Proof.
  intros Hk. apply rq_rep_frame. intros j Hj. apply lookup_insert_ne. by intros ->.
Qed.

Lemma push_front_refines fuel q h e k d :
  holds q h e -> op_valid (PushFront k d) h e -> refines_at (PushFront k d) fuel q h e.
Proof.
  intros [Hr Hf] (Hk & Hnin & Hlt).
  destruct (rq_push_front_node_rep q (<[k := mk_node d None None]> h) e.*1 k (mk_node d None None))
    as (q' & Hq & Hr'); [by apply rq_rep_insert|by simplify_map_eq|done|by rewrite length_fmap|].
  eexists q', _. split_and!; simpl.
  - unfold rq_push_front. rewrite store_node_init by done. simpl. by rewrite Hq.
  - simpl. split; [done|]. constructor; simpl.
    + rewrite link_front_data. by rewrite decide_True.
    + eapply Forall_data_frame; [|done]. intros j Hj. rewrite link_front_data.
      rewrite lookup_insert_ne by (intros ->; done). by rewrite decide_False by (intros ->; done).
  - intros j Hj Hjk. simpl. rewrite link_front_ne by naive_solver.
    apply lookup_insert_ne. naive_solver.
Qed.

Lemma push_back_refines fuel q h e k d :
  holds q h e -> op_valid (PushBack k d) h e -> refines_at (PushBack k d) fuel q h e.
Proof.
  intros [Hr Hf] (Hk & Hnin & Hlt).
  destruct (rq_push_back_node_rep q (<[k := mk_node d None None]> h) e.*1 k (mk_node d None None))
    as (q' & Hq & Hr'); [by apply rq_rep_insert|by simplify_map_eq|done|by rewrite length_fmap|].
  eexists q', _. split_and!; simpl.
  - unfold rq_push_back. rewrite store_node_init by done. simpl. by rewrite Hq.
  - simpl. split; [by rewrite fmap_app|]. apply Forall_app. split.
    + eapply Forall_data_frame; [|done]. intros j Hj. rewrite link_back_data.
      rewrite lookup_insert_ne by (intros ->; done). by rewrite decide_False by (intros ->; done).
    + constructor; [|done]. simpl. rewrite link_back_data. by rewrite decide_True.
  - intros j Hj Hjk. simpl. rewrite link_back_ne by naive_solver.
    apply lookup_insert_ne. naive_solver.
Qed.

Lemma unlinked_refines_data h l i k (e e' : entries) :
  (forall x, x ∈ e' -> x ∈ e) ->
  Forall (fun x => nd_data <$> h !! x.1 = Some x.2) e ->
  Forall (fun x => nd_data <$> unlinked h l i k !! x.1 = Some x.2) e'.
Proof.
  rewrite !Forall_forall. intros Hs Hf x Hx. rewrite unlinked_data. auto.
Qed.

Lemma unlinked_get h l i k d nx pv :
  h !! k = Some (mk_node d nx pv) ->
  exists n, unlinked h l i k !! k = Some n /\ nd_data n = d.
Proof.
  intros Hk. pose proof (unlinked_data h l i k k) as Hu. rewrite Hk in Hu. simpl in Hu.
  destruct (unlinked h l i k !! k) as [n|]; simplify_eq/=. eauto.
Qed.

Lemma pop_front_refines fuel q h e :
  holds q h e -> refines_at PopFront fuel q h e.
Proof.
  intros Hh. pose proof Hh as [Hr Hf]. destruct e as [|[k d] e].
  { exists q, h. csimpl. unfold rq_pop_front. rewrite (rq_pop_front_node_nil _ _ Hr). done. }
  pose proof (holds_lookup _ _ _ 0 _ _ Hh eq_refl) as Hk.
  rewrite fmap_cons in Hr, Hk. simpl fst in *.
  destruct (rq_pop_front_node_rep _ _ _ _ Hr) as (q' & Hq & Hr').
  eexists q', _. split_and!.
  - csimpl. unfold rq_pop_front. rewrite Hq. csimpl.
    destruct (unlinked_get h (k :: e.*1) 0 k _ _ _ Hk) as (n & Hn & Hd).
    rewrite (store_get_ok _ _ _ Hn). csimpl. by rewrite Hd.
  - split; [done|]. eapply unlinked_refines_data; [|done]. by right.
  - intros j Hj _. csimpl. apply unlinked_lookup_ne; [done|]. intros ->. apply Hj. left.
Qed.

Lemma last_pred_delete {A} (l : list A) x : delete (length l) (l ++ [x]) = l.
Proof. pose proof (delete_middle l [] x) as H. by rewrite app_nil_r in H. Qed.

Lemma pop_back_refines fuel q h e :
  holds q h e -> refines_at PopBack fuel q h e.
Proof.
  intros Hh. pose proof Hh as [Hr Hf]. destruct e as [|[k d] e _] using rev_ind.
  { exists q, h. csimpl. unfold rq_pop_back. rewrite (rq_pop_back_node_nil _ _ Hr). done. }
  assert ((e ++ [(k, d)]) !! length e = Some (k, d)) as Hi by (by apply list_lookup_middle).
  pose proof (holds_lookup _ _ _ _ _ _ Hh Hi) as Hk.
  rewrite fmap_app in Hr. csimpl in Hr.
  destruct (rq_pop_back_node_rep _ _ _ _ Hr) as (q' & Hq & Hr').
  eexists q', _. split_and!.
  - csimpl. unfold rq_pop_back. rewrite Hq. csimpl.
    destruct (unlinked_get h (e.*1 ++ [k]) (length e.*1) k _ _ _ Hk) as (n & Hn & Hd).
    rewrite (store_get_ok _ _ _ Hn). csimpl. by rewrite Hd, last_snoc.
  - csimpl. rewrite length_app. csimpl. rewrite Nat.add_1_r. csimpl. rewrite last_pred_delete.
    split; [done|]. eapply unlinked_refines_data; [|done].
    intros x Hx. apply elem_of_app. by left.
  - rewrite fmap_app. intros j Hj _. csimpl. apply unlinked_lookup_ne; [done|].
    intros ->. apply Hj, elem_of_app. right. csimpl. left.
Qed.

Lemma rq_find_from_spec q h d e' : forall fuel e0,
  holds q h (e0 ++ e') -> (length e' < fuel)%nat ->
  rq_find_from fuel h (head e'.*1) d =
    Ok ((fun r : nat * (Z * ptr) => r.2.1) <$> list_find (fun x : Z * ptr => x.2 = d) e').
Proof.
  induction e' as [|[k d'] e' IH]; intros fuel e0 Hh Hf; [by destruct fuel|].
  csimpl in *. destruct fuel as [|fuel]; [lia|]. csimpl.
  assert ((e0 ++ (k, d') :: e') !! length e0 = Some (k, d')) as Hi by (by apply list_lookup_middle).
  rewrite (store_get_ok _ _ _ (holds_lookup _ _ _ _ _ _ Hh Hi)). csimpl.
  destruct (decide (d' = d)) as [->|Hd]; [done|].
  rewrite (cons_middle _ e0 e'), app_assoc in Hh.
  rewrite fmap_app, lookup_app_r, length_fmap by (rewrite length_fmap; lia).
  replace (S (length e0) - length e0)%nat with 1%nat by lia. csimpl.
  rewrite <- head_lookup, (IH fuel (e0 ++ [(k, d')])) by (done || lia).
  by destruct (list_find _ e').
Qed.

Lemma rq_find_spec fuel q h e d :
  holds q h e -> (length e < fuel)%nat ->
  rq_find fuel q h d =
    Ok ((fun r : nat * (Z * ptr) => r.2.1) <$> list_find (fun x : Z * ptr => x.2 = d) e).
Proof.
  intros Hh Hf. unfold rq_find. pose proof Hh as [(_ & -> & _) _].
  by apply (rq_find_from_spec q _ _ _ _ []).
Qed.

Lemma contains_refines fuel q h e d :
  holds q h e -> (length e < fuel)%nat -> refines_at (Contains d) fuel q h e.
Proof.
  intros Hh Hf. exists q, h. split_and!; [|done|done]. csimpl. unfold rq_contains.
  rewrite (rq_find_spec _ _ _ _ _ Hh Hf). csimpl. do 4 f_equal.
  destruct (list_find _ e) as [[i [k d']]|] eqn:He; csimpl.
  - apply list_find_Some in He as (Hi & Hd & _). csimpl in *. subst.
    symmetry. apply bool_decide_eq_true_2, list_elem_of_fmap.
    exists (k, d). split; [done|]. apply list_elem_of_lookup. eauto.
  - symmetry. apply bool_decide_eq_false_2.
    apply list_find_None in He. rewrite Forall_forall in He.
    intros ([k' d'] & -> & Hin)%list_elem_of_fmap. by apply (He _ Hin).
Qed.

Lemma fmap_delete {A B} (f : A -> B) (l : list A) i :
  f <$> delete i l = delete i (f <$> l).
Proof. revert i. induction l; intros [|i]; csimpl; auto. by f_equal. Qed.

Lemma remove_refines fuel q h e d :
  holds q h e -> (length e < fuel)%nat -> refines_at (Remove d) fuel q h e.
Proof.
  intros Hh Hf. unfold refines_at. csimpl. unfold rq_remove.
  rewrite (rq_find_spec _ _ _ _ _ Hh Hf). csimpl.
  destruct (list_find _ e) as [[i [k d']]|] eqn:He; csimpl; [|by exists q, h].
  apply list_find_Some in He as (Hi & Hd & _). csimpl in *. subst.
  destruct Hh as [Hr Hfa].
  assert (e.*1 !! i = Some k) as Hk by (by rewrite list_lookup_fmap, Hi).
  destruct (rq_remove_node_rep _ _ _ _ _ Hr Hk) as (q' & Hq & Hr').
  eexists q', _. rewrite Hq. csimpl. split_and!; [done| |].
  - split; [by rewrite fmap_delete|]. eapply unlinked_refines_data; [|done].
    intros x [j Hj]%list_elem_of_lookup. rewrite list_lookup_delete in Hj.
    apply list_elem_of_lookup. eauto.
  - intros j Hj _. apply unlinked_lookup_ne; [done|]. intros ->.
    apply Hj, list_elem_of_lookup. eauto.
Qed.

Lemma rotate_refines fuel q h e :
  holds q h e -> refines_at Rotate fuel q h e.
Proof.
  intros Hh. pose proof Hh as [Hr Hf]. unfold refines_at. csimpl. unfold rq_rotate.
  pose proof Hr as (Hd & _ & _ & Hlen & Hb). rewrite Hlen, length_fmap in *.
  destruct e as [|[k d] [|x e]]; [by exists q, h|by exists q, h|].
  rewrite (proj2 (Z.ltb_ge _ _)) by (csimpl; lia).
  remember (x :: e) as t. rewrite fmap_cons in Hr, Hd. simpl fst in *.
  destruct (rq_pop_front_node_rep _ _ _ _ Hr) as (q1 & Hq1 & Hr1).
  destruct (unlinked_get h (k :: t.*1) 0 k _ _ _ (holds_lookup _ _ _ 0 _ _ Hh eq_refl))
    as (n & Hn & Hnd).
  assert (k ∉ t.*1) as Hk by (by destruct Hd as [[? _]%NoDup_cons _]).
  simpl length in Hb.
  destruct (rq_push_back_node_rep _ _ _ _ _ Hr1 Hn Hk) as (q2 & Hq2 & Hr2);
    [rewrite length_fmap; lia|].
  rewrite Hq1. csimpl. rewrite Hq2. csimpl. subst t. eexists q2, _.
  split_and!; [done| |].
  - change (holds q2 (link_back (unlinked h (k :: (x :: e).*1) 0 k) (x :: e).*1 k
      (mk_node (nd_data n) None (last (x :: e).*1))) ((x :: e) ++ [(k, d)])).
    split; [by rewrite fmap_app|]. apply Forall_cons in Hf as [Hf1 Hf2].
    csimpl in *. apply (Forall_app _ (x :: e) [(k, d)]). split.
    + apply Forall_forall. intros y Hy. rewrite link_back_data, unlinked_data.
      rewrite decide_False; [by apply (proj1 (Forall_forall _ _) Hf2)|]. intros <-.
      apply Hk. apply (list_elem_of_fmap_2 fst (x :: e)). done.
    + constructor; [|done]. rewrite link_back_data. csimpl. rewrite decide_True by done.
      by rewrite Hnd.
  - intros j Hj _. csimpl in *. apply not_elem_of_cons in Hj as [Hjk Hj].
    rewrite link_back_ne by done. by apply unlinked_lookup_ne; [apply not_elem_of_cons|].
Qed.

Lemma rq_clear_from_spec l : forall fuel h,
  NoDup l ->
  (forall i k, l !! i = Some k -> exists n, h !! k = Some n /\ nd_next n = l !! S i) ->
  (length l < fuel)%nat ->
  exists h', rq_clear_from fuel h (head l) = Ok h' /\
    (forall j, j ∉ l -> h' !! j = h !! j).
Proof.
  induction l as [|k l IH]; intros fuel h Hn Hl Hf; (destruct fuel as [|fuel]; [lia|]).
  { exists h. done. }
  apply NoDup_cons in Hn as [Hk Hn]. csimpl in *.
  destruct (Hl 0%nat k eq_refl) as (n & Hkn & Hnx).
  rewrite (store_get_ok _ _ _ Hkn). csimpl. rewrite (store_upd_insert _ _ _ _ Hkn). csimpl.
  rewrite Hnx. csimpl. rewrite <- head_lookup.
  destruct (IH fuel (<[k:=rq_clear_links n]> h)) as (h' & Hc & Hfr); [done| |lia|].
  - intros i j Hj. destruct (Hl (S i) j Hj) as (n' & ? & ?). exists n'.
    rewrite lookup_insert_ne; [done|]. intros ->. apply Hk, list_elem_of_lookup. eauto.
  - exists h'. split; [done|]. intros j Hj. apply not_elem_of_cons in Hj as [? ?].
    rewrite Hfr by done. by apply lookup_insert_ne.
Qed.

Lemma clear_refines fuel q h e :
  holds q h e -> (length e < fuel)%nat -> refines_at Clear fuel q h e.
Proof.
  intros [(Hd & Hh & _) _] Hf. unfold refines_at. csimpl. unfold rq_clear. rewrite Hh.
  destruct (rq_clear_from_spec e.*1 fuel h) as (h' & -> & Hfr);
    [by destruct Hd| |by rewrite length_fmap|].
  { intros i k Hi. destruct (linked_at _ _ _ _ Hd Hi) as [d ->]. eauto. }
  exists (mk_rq None None 0), h'. split_and!; [done| |auto].
  split; [apply rq_rep_init|constructor].
Qed.

Lemma rq_exec_step op fuel q h e :
  holds q h e -> op_valid op h e -> (length e < fuel)%nat ->
  refines_at op fuel q h e.
Proof.
  intros. destruct op; [apply push_front_refines|apply push_back_refines|apply pop_front_refines
    |apply pop_back_refines|apply remove_refines|apply contains_refines
    |apply rotate_refines|apply clear_refines]; done.
Qed.

(** *** The set of allocated nodes never changes *)

Lemma store_upd_dom k f (h h' : store) : store_upd k f h = Ok h' -> dom h' = dom h.
Proof. intros [_ ->]%store_upd_inv. apply dom_alter_L. Qed.

Ltac dom_step :=
  match goal with
  | H : (_ ≫= _) = Ok _ |- _ =>
      let a := fresh "a" in let Ha := fresh "Ha" in
      apply outcome_bind_inv in H as (a & Ha & H)
  | H : Ok _ = Ok _ |- _ => inversion H; clear H; subst
  | H : store_upd _ _ _ = Ok _ |- _ => apply store_upd_dom in H
  | H : (match ?x with _ => _ end) = Ok _ |- _ => destruct x eqn:?
  | H : (let '(_, _) := ?x in _) = Ok _ |- _ => destruct x eqn:?
  | H : Fault = Ok _ |- _ => discriminate H
  | H : Timeout = Ok _ |- _ => discriminate H
  end.
Ltac dom_solve := repeat (dom_step; simplify_eq/=); try congruence.

Lemma rq_pop_front_node_dom q h r : rq_pop_front_node q h = Ok r -> dom r.2 = dom h.
Proof. unfold rq_pop_front_node. intros. dom_solve. Qed.

Lemma rq_pop_back_node_dom q h r : rq_pop_back_node q h = Ok r -> dom r.2 = dom h.
Proof. unfold rq_pop_back_node. intros. dom_solve. Qed.

Lemma rq_node_data_dom r r' : rq_node_data r = Ok r' -> r'.2 = r.2.
Proof. destruct r as [[node q] h]. unfold rq_node_data. intros. dom_solve. Qed.

Lemma rq_push_front_node_dom q h k r : rq_push_front_node q h k = Ok r -> dom r.2 = dom h.
Proof. unfold rq_push_front_node. intros. dom_solve. Qed.

Lemma rq_push_back_node_dom q h k r : rq_push_back_node q h k = Ok r -> dom r.2 = dom h.
Proof. unfold rq_push_back_node. intros. dom_solve. Qed.

Lemma rq_remove_node_dom q h k r : rq_remove_node q h k = Ok r -> dom r.2 = dom h.
Proof. unfold rq_remove_node. intros. dom_solve. Qed.

Lemma rq_clear_from_dom fuel : forall h p h', rq_clear_from fuel h p = Ok h' -> dom h' = dom h.
Proof.
  induction fuel as [|fuel IH]; intros h [k|] h' H; simpl in H; dom_solve.
  apply IH in H. congruence.
Qed.

Lemma rq_exec_dom fuel op q h r : rq_exec fuel op q h = Ok r -> dom r.2 = dom h.
Proof.
  destruct op; simpl;
    unfold rq_push_front, rq_push_back, rq_node_init, rq_pop_front, rq_pop_back, rq_remove,
      rq_contains, rq_rotate, rq_clear; intros H; repeat (dom_step; simplify_eq/=); try done;
    repeat match goal with
    | H : rq_push_front_node _ _ _ = Ok _ |- _ => apply rq_push_front_node_dom in H
    | H : rq_push_back_node _ _ _ = Ok _ |- _ => apply rq_push_back_node_dom in H
    | H : rq_pop_front_node _ _ = Ok _ |- _ => apply rq_pop_front_node_dom in H
    | H : rq_pop_back_node _ _ = Ok _ |- _ => apply rq_pop_back_node_dom in H
    | H : rq_node_data _ = Ok _ |- _ => apply rq_node_data_dom in H
    | H : rq_remove_node _ _ _ = Ok _ |- _ => apply rq_remove_node_dom in H
    | H : rq_clear_from _ _ _ = Ok _ |- _ => apply rq_clear_from_dom in H
    end; simplify_eq/=; congruence.
Qed.

(** *** Sequences of operations *)

Fixpoint rq_run (fuel : nat) (ops : list rq_op) (q : rq) (h : store)
  : outcome (list rq_res * rq * store) :=
  match ops with
  | [] => Ok ([], q, h)
  | op :: ops =>
      r ← rq_exec fuel op q h;
      rs ← rq_run fuel ops r.1.2 r.2;
      Ok (r.1.1 :: rs.1.1, rs.1.2, rs.2)
  end.

Fixpoint spec_run (ops : list rq_op) (e : entries) : list rq_res * entries :=
  match ops with
  | [] => ([], e)
  | op :: ops =>
      let r := spec_exec op e in
      let rs := spec_run ops r.2 in (r.1 :: rs.1, rs.2)
  end.

(** Every inserted node is allocated, and not in the queue at that point. *)
Fixpoint run_valid (ops : list rq_op) (h : store) (e : entries) : Prop :=
  match ops with
  | [] => True
  | op :: ops => op_valid op h e /\ run_valid ops h (spec_exec op e).2
  end.

Lemma run_valid_dom ops h h' e : dom h' = dom h -> run_valid ops h e -> run_valid ops h' e.
Proof.
  intros Hd. revert e. induction ops as [|op ops IH]; intros e; simpl; [done|].
  intros [Hv Hr]. split; [|auto]. unfold op_valid in *. destruct (op_node op); [|done].
  destruct Hv as [Hs ?]. split; [|done]. apply elem_of_dom. rewrite Hd. by apply elem_of_dom.
Qed.

Lemma spec_exec_length op e :
  (length (spec_exec op e).2 <= length e + match op_node op with Some _ => 1 | None => 0 end)%nat.
Proof.
  assert (forall i, length (delete i e) <= length e)%nat as Hd.
  { intros i. apply sublist_length, sublist_delete. }
  destruct op; simpl; rewrite ?length_app; simpl; try lia.
  - destruct e; simpl; lia.
  - pose proof (Hd (pred (length e))). lia.
  - destruct (list_find _ e) as [[i ?]|]; simpl; [pose proof (Hd i)|]; lia.
  - destruct e as [|x [|y e]]; simpl; rewrite ?length_app; simpl; lia.
Qed.

Lemma elem_of_delete_fst (e : entries) i j : j ∈ (delete i e).*1 -> j ∈ e.*1.
Proof.
  intros Hin. eapply elem_of_submseteq; [done|].
  apply sublist_submseteq. rewrite fmap_delete. apply sublist_delete.
Qed.

Lemma spec_exec_elem op e j :
  j ∈ (spec_exec op e).2.*1 -> j ∈ e.*1 \/ op_node op = Some j.
Proof.
  destruct op; csimpl; auto.
  - rewrite elem_of_cons. naive_solver.
  - rewrite fmap_app, elem_of_app. csimpl. rewrite list_elem_of_singleton. naive_solver.
  - destruct e; csimpl; [by left|]. intros. left. by right.
  - intros. left. by eapply elem_of_delete_fst.
  - destruct (list_find _ e) as [[i0 ?]|]; csimpl; [|by left].
    intros. left. by eapply elem_of_delete_fst.
  - destruct e as [|x [|y e]]; csimpl; try by left. rewrite fmap_app. set_solver.
  - set_solver.
Qed.

(** C1: the run queue implements a double-ended queue. Starting from a queue
    that holds the entries [e], any sequence of [rq.c] operations returns
    without a fault, gives the results of the abstract deque, and ends in a
    queue that holds the abstract result; nodes that are neither in the queue
    nor inserted by the sequence are untouched. *)
Theorem rq_run_refines (ops : list rq_op) (fuel : nat) (q : rq) (h : store) (e : entries)
  (Hh : holds q h e) (Hv : run_valid ops h e) (Hf : (length e + length ops < fuel)%nat) :
  exists q' h',
    rq_run fuel ops q h = Ok ((spec_run ops e).1, q', h') /\
    holds q' h' (spec_run ops e).2 /\
    (forall j, j ∉ e.*1 -> Forall (fun op => op_node op <> Some j) ops -> h' !! j = h !! j).
Proof.
  revert q h e Hh Hv Hf. induction ops as [|op ops IH]; intros q h e Hh Hv Hf.
  { exists q, h. done. }
  destruct Hv as [Hv Hvs]. simpl in Hf.
  destruct (rq_exec_step op fuel q h e) as (q1 & h1 & He & Hh1 & Hfr1); [done..|lia|].
  pose proof (rq_exec_dom _ _ _ _ _ He) as Hd. simpl in Hd.
  pose proof (spec_exec_length op e).
  destruct (IH q1 h1 (spec_exec op e).2) as (q2 & h2 & Hr & Hh2 & Hfr2);
    [done|by eapply run_valid_dom|destruct (op_node op); lia|].
  exists q2, h2. simpl. rewrite He. simpl. rewrite Hr. simpl. split_and!; [done|done|].
  intros j Hj [Hop Hops]%Forall_cons. rewrite Hfr2; [by apply Hfr1| |done].
  by intros [?|?]%spec_exec_elem.
Qed.

(** A concrete run: three nodes, every operation. *)
Definition demo_store : store :=
  {[ 1 := mk_node None None None; 2 := mk_node None None None; 3 := mk_node None None None ]}.

Definition demo_ops : list rq_op :=
  [PushBack 1 (Some 10); PushBack 2 (Some 20); PushFront 3 (Some 30); Rotate;
   Contains (Some 20); Remove (Some 20); PopBack; PushBack 2 (Some 21); PopFront;
   Contains (Some 20); Clear; PopFront].

Lemma rq_run_refines_witness :
  exists q' h',
    rq_run 20 demo_ops rq_init demo_store =
      Ok ([RNone; RNone; RNone; RNone; RBool true; RBool true; RPtr (Some 30); RNone;
           RPtr (Some 10); RBool false; RNone; RPtr None], q', h') /\
    holds q' h' [].
Proof.
  destruct (rq_run_refines demo_ops 20 rq_init demo_store []) as (q' & h' & Hr & Hh & _).
  - split; [apply rq_rep_init|constructor].
  - repeat split; try (vm_compute; set_solver); try (by eexists).
  - simpl. lia.
  - exists q', h'. split; [exact Hr|exact Hh].
Defined.
