(* ===== verification/Pfndb.v ===== *)
(** Page frame database: [kernel/include/mm/page.h] and
    [kernel/src/mm/pfndb.c]. A [page_t *] is an index into [mem_map], the null
    pointer is [None]; the array of page descriptors is a finite map whose
    keys are the page frame numbers. *)
From S2P Require Import Prelude Dll.

(** *** [page.h] *)

Definition PAGE_SIZE : Z := 4096.
Definition PAGE_SHIFT : Z := 12.
Definition PAGE_MASK : Z := not64 (PAGE_SIZE - 1).

Definition PAGE_ALIGN_DOWN (x : Z) : Z := Z.land x PAGE_MASK.
Definition PAGE_ALIGN_UP (x : Z) : Z := Z.land (u64 (u64 (x + PAGE_SIZE) - 1)) PAGE_MASK.

Definition PAGE_FREE : Z := 2 ^ 0.
Definition PAGE_USED : Z := 2 ^ 1.
Definition PAGE_RESERVED : Z := 2 ^ 2.
Definition PAGE_SHARED : Z := 2 ^ 3.
Definition PAGE_COW : Z := 2 ^ 4.
Definition PAGE_POISON : Z := 2 ^ 5.
Definition PAGE_SLAB : Z := 2 ^ 6.
Definition PAGE_LARGE_HEAD : Z := 2 ^ 10.
Definition PAGE_LARGE_BODY : Z := 2 ^ 11.

Definition PFN_PHYS (pfn : Z) : Z := u64 (Z.shiftl pfn PAGE_SHIFT).
Definition PHYS_PFN (phys : Z) : Z := Z.shiftr phys PAGE_SHIFT.

(** [struct page]; [list.next] and [list.prev] are [pg_next] and [pg_prev]. *)
Record page := mk_page {
  pg_next : ptr;
  pg_prev : ptr;
  pg_refcount : Z;
  pg_order : Z;
  pg_flags : Z;
  pg_private : Z;
}.

Definition pg_set_next (p : ptr) (g : page) : page :=
  mk_page p (pg_prev g) (pg_refcount g) (pg_order g) (pg_flags g) (pg_private g).
Definition pg_set_prev (p : ptr) (g : page) : page :=
  mk_page (pg_next g) p (pg_refcount g) (pg_order g) (pg_flags g) (pg_private g).
Definition pg_set_refcount (c : Z) (g : page) : page :=
  mk_page (pg_next g) (pg_prev g) c (pg_order g) (pg_flags g) (pg_private g).
Definition pg_set_order (o : Z) (g : page) : page :=
  mk_page (pg_next g) (pg_prev g) (pg_refcount g) o (pg_flags g) (pg_private g).
Definition pg_set_flags (f : Z) (g : page) : page :=
  mk_page (pg_next g) (pg_prev g) (pg_refcount g) (pg_order g) f (pg_private g).
Definition pg_set_private (x : Z) (g : page) : page :=
  mk_page (pg_next g) (pg_prev g) (pg_refcount g) (pg_order g) (pg_flags g) x.

#[export] Instance page_links : Links Z page := {
  lnext := pg_next;
  lprev := pg_prev;
  set_lnext := pg_set_next;
  set_lprev := pg_set_prev;
}.
#[export] Instance page_links_laws : LinksLaws Z page.
Proof. by split. Qed.

Definition PageFree (g : page) : bool := has_bits (pg_flags g) PAGE_FREE.
Definition PageUsed (g : page) : bool := has_bits (pg_flags g) PAGE_USED.
Definition PageReserved (g : page) : bool := has_bits (pg_flags g) PAGE_RESERVED.
Definition PageCow (g : page) : bool := has_bits (pg_flags g) PAGE_COW.
Definition PagePoisoned (g : page) : bool := has_bits (pg_flags g) PAGE_POISON.
Definition PageSlab (g : page) : bool := has_bits (pg_flags g) PAGE_SLAB.

Definition SetPageFlag (f : Z) (g : page) : page :=
  pg_set_flags (Z.lor (pg_flags g) f) g.
Definition ClearPageFlag (f : Z) (g : page) : page :=
  pg_set_flags (Z.land (pg_flags g) (not64 f)) g.

(** [int] arithmetic of the reference count. *)

Definition page_ref_inc (g : page) : page :=
  pg_set_refcount (i32 (pg_refcount g + 1)) g.

(** The fetched value is the one before the subtraction. *)
Definition page_ref_dec_and_test (g : page) : bool * page :=
  (pg_refcount g =? 1, pg_set_refcount (i32 (pg_refcount g - 1)) g).

Definition page_ref_count (g : page) : Z := pg_refcount g.

(** *** Limine memory map entries *)

Definition LIMINE_MEMMAP_USABLE : Z := 0.

Record memmap_entry := mk_entry {
  me_base : Z;
  me_length : Z;
  me_type : Z;
}.

(** *** The static variables of [pfndb.c] *)

Record pfndb := mk_pfndb {
  mem_map : gmap Z page;
  max_pfn : Z;
  pfndb_phys : Z;
}.

Definition entry_end_pfn (e : memmap_entry) : Z :=
  Z.shiftr (PAGE_ALIGN_UP (u64 (me_base e + me_length e))) PAGE_SHIFT.

Definition calc_max_pfn (memmap : list memmap_entry) : Z :=
  foldl (fun m e =>
    if negb (me_type e =? LIMINE_MEMMAP_USABLE) then m
    else if m <? entry_end_pfn e then entry_end_pfn e else m) 0 memmap.

(** [sizeof(page_t)]: the structure is aligned to 64 bytes. *)
Definition sizeof_page : Z := 64.

Fixpoint reserve_in (size : Z) (memmap : list memmap_entry)
  : outcome (Z * list memmap_entry) :=
  match memmap with
  | [] => Panic
  | e :: memmap =>
      if negb (me_type e =? LIMINE_MEMMAP_USABLE) || (me_length e <? size)
      then r ← reserve_in size memmap; Ok (r.1, e :: r.2)
      else Ok (me_base e,
             mk_entry (u64 (me_base e + size)) (u64 (me_length e - size)) (me_type e) :: memmap)
  end.

Definition reserve_pfndb_storage (max : Z) (memmap : list memmap_entry)
  : outcome (Z * list memmap_entry) :=
  reserve_in (PAGE_ALIGN_UP (u64 ((max + 1) * sizeof_page))) memmap.

Definition state_mask : Z :=
  Z.lor (Z.lor (Z.lor (Z.lor PAGE_FREE PAGE_USED) PAGE_RESERVED) PAGE_POISON) PAGE_SLAB.

Definition mark_flags (new_flags : Z) (g : page) : page :=
  pg_set_flags (Z.lor (Z.land (pg_flags g) (not64 state_mask)) new_flags) g.

(** [for (pfn = start; pfn < end; pfn++) mem_map[pfn].flags = ...] with
    [n] iterations left. *)
Fixpoint mark_loop (n : nat) (pfn new_flags : Z) (m : gmap Z page)
  : outcome (gmap Z page) :=
  match n with
  | O => Ok m
  | S n => m ← store_upd pfn (mark_flags new_flags) m; mark_loop n (pfn + 1) new_flags m
  end.

Definition pfndb_mark_range (base length new_flags : Z) (d : pfndb) : outcome pfndb :=
  let start_pfn := Z.shiftr base PAGE_SHIFT in
  let end_pfn := Z.shiftr (PAGE_ALIGN_UP (u64 (base + length))) PAGE_SHIFT in
  if max_pfn d <? start_pfn then Ok d else
  let end_pfn := if max_pfn d + 1 <? end_pfn then max_pfn d + 1 else end_pfn in
  m ← mark_loop (Z.to_nat (end_pfn - start_pfn)) start_pfn new_flags (mem_map d);
  Ok (mk_pfndb m (max_pfn d) (pfndb_phys d)).

(** The first loop of [pfndb_init]: descriptor [pfn] of the array. *)
Definition init_page (max pfn : Z) : page :=
  mk_page (if pfn <? max then Some (pfn + 1) else None)
          (if 0 <? pfn then Some (pfn - 1) else None) 0 0 PAGE_RESERVED 0.

Fixpoint init_loop (n : nat) (pfn max : Z) (m : gmap Z page) : gmap Z page :=
  match n with
  | O => m
  | S n => init_loop n (pfn + 1) max (<[pfn := init_page max pfn]> m)
  end.

Fixpoint mark_usable (memmap : list memmap_entry) (d : pfndb) : outcome pfndb :=
  match memmap with
  | [] => Ok d
  | e :: memmap =>
      if negb (me_type e =? LIMINE_MEMMAP_USABLE) then mark_usable memmap d
      else d ← pfndb_mark_range (me_base e) (me_length e) PAGE_FREE d;
           mark_usable memmap d
  end.

Definition pfndb_init (memmap : list memmap_entry)
  : outcome (pfndb * list memmap_entry) :=
  let max := calc_max_pfn memmap in
  r ← reserve_pfndb_storage max memmap;
  let m := init_loop (Z.to_nat (max + 1)) 0 max ∅ in
  d ← mark_usable r.2 (mk_pfndb m max r.1);
  Ok (d, r.2).

Definition pfndb_getmax (d : pfndb) : Z := max_pfn d.

Definition pfndb_pfnaddr (d : pfndb) (pfn : Z) : Z :=
  if max_pfn d <? pfn then 0 else PFN_PHYS pfn.

Definition pfndb_getptr (d : pfndb) (pfn : Z) : ptr :=
  if max_pfn d <? pfn then None else Some pfn.

Definition pfndb_getpfn (d : pfndb) (page : ptr) : Z :=
  match page with
  | None => u64_max
  | Some i => if (i <? 0) || (max_pfn d <? i) then u64_max else i
  end.

Definition pfndb_page_to_phys (d : pfndb) (page : ptr) : Z :=
  let pfn := pfndb_getpfn d page in
  if pfn =? u64_max then 0 else PFN_PHYS pfn.

Definition pfndb_phys_to_page (d : pfndb) (phys : Z) : ptr :=
  let pfn := PHYS_PFN phys in
  if max_pfn d <? pfn then None else Some pfn.

(** ** Page rounding *)

Lemma page_mask_land x : 0 <= x < 2 ^ 64 -> Z.land x PAGE_MASK = Z.shiftl (Z.shiftr x 12) 12.
Proof.
  intros Hx. rewrite <- Z.ldiff_ones_r by lia. unfold PAGE_MASK. rewrite not64_ldiff by done.
  apply Z.bits_inj'. intros n Hn. rewrite Z.land_spec, !Z.ldiff_spec.
  change (PAGE_SIZE - 1) with (Z.ones 12).
  destruct (Z.lt_ge_cases n 64).
  - by rewrite (Z.ones_spec_low 64) by lia.
  - rewrite <- (Z.mod_small x (2 ^ 64)) by lia. by rewrite Z.mod_pow2_bits_high by lia.
Qed.

Lemma align_down x : 0 <= x < 2 ^ 64 -> PAGE_ALIGN_DOWN x = x / 4096 * 4096.
Proof.
  intros Hx. unfold PAGE_ALIGN_DOWN. rewrite page_mask_land by done.
  by rewrite Z.shiftl_mul_pow2, Z.shiftr_div_pow2 by lia.
Qed.

Lemma align_up x : 0 <= x <= 2 ^ 64 - 4096 -> PAGE_ALIGN_UP x = (x + 4095) / 4096 * 4096.
Proof.
  intros Hx. unfold PAGE_ALIGN_UP. rewrite u64_sub_l.
  replace (x + PAGE_SIZE - 1) with (x + 4095) by (unfold PAGE_SIZE; lia).
  rewrite u64_small by lia. rewrite page_mask_land by lia.
  by rewrite Z.shiftl_mul_pow2, Z.shiftr_div_pow2 by lia.
Qed.

Lemma align_up_pfn x :
  0 <= x <= 2 ^ 64 - 4096 -> Z.shiftr (PAGE_ALIGN_UP x) PAGE_SHIFT = (x + 4095) / 4096.
Proof.
  intros Hx. rewrite align_up by done. unfold PAGE_SHIFT.
  rewrite Z.shiftr_div_pow2 by lia. by apply Z.div_mul.
Qed.

Lemma PFN_PHYS_small pfn : 0 <= pfn < 2 ^ 52 -> PFN_PHYS pfn = pfn * 4096.
Proof.
  intros H. unfold PFN_PHYS, PAGE_SHIFT. rewrite Z.shiftl_mul_pow2, u64_small by lia. done.
Qed.

(** ** Page numbers, descriptors and addresses *)

Lemma getpfn_getptr d pfn :
  0 <= pfn <= max_pfn d -> pfndb_getpfn d (pfndb_getptr d pfn) = pfn.
Proof.
  intros H. unfold pfndb_getptr, pfndb_getpfn. destruct (Z.ltb_spec (max_pfn d) pfn); [lia|].
  destruct (Z.ltb_spec pfn 0), (Z.ltb_spec (max_pfn d) pfn); try lia. done.
Qed.

(** The page frame database translates between descriptors, frame numbers
    and physical addresses without loss: the address of the descriptor of an
    address is that address rounded down to its page, the descriptor of the
    address of a descriptor is that descriptor, and a number above [max_pfn]
    has neither. *)
Theorem pfndb_translate d a :
  0 <= max_pfn d < 2 ^ 52 -> 0 <= a < 2 ^ 64 ->
  (PHYS_PFN a <= max_pfn d ->
    pfndb_phys_to_page d a = Some (a / 4096) /\
    pfndb_page_to_phys d (pfndb_phys_to_page d a) = PAGE_ALIGN_DOWN a) /\
  (max_pfn d < PHYS_PFN a -> pfndb_phys_to_page d a = None) /\
  (forall pfn, 0 <= pfn <= max_pfn d ->
    pfndb_phys_to_page d (pfndb_page_to_phys d (Some pfn)) = Some pfn /\
    pfndb_page_to_phys d (Some pfn) = pfndb_pfnaddr d pfn /\
    pfndb_getpfn d (pfndb_getptr d pfn) = pfn).
Proof.
  intros Hmax Ha. assert (PHYS_PFN a = a / 4096) as Ea by (unfold PHYS_PFN; by apply Z.shiftr_div_pow2).
  assert (forall pfn, 0 <= pfn <= max_pfn d ->
    pfndb_page_to_phys d (Some pfn) = pfn * 4096) as Hphys.
  { intros pfn Hp. unfold pfndb_page_to_phys, pfndb_getpfn.
    destruct (Z.ltb_spec pfn 0), (Z.ltb_spec (max_pfn d) pfn); try lia. simpl.
    destruct (Z.eqb_spec pfn u64_max); [unfold u64_max in *; lia|]. apply PFN_PHYS_small. lia. }
  unfold pfndb_phys_to_page at 1 2 3. rewrite Ea. split; [|split].
  - intros Hle. destruct (Z.ltb_spec (max_pfn d) (a / 4096)); [lia|]. split; [done|].
    rewrite Hphys, align_down; [done..|]. split; [by apply Z.div_pos; lia|done].
  - intros Hlt. destruct (Z.ltb_spec (max_pfn d) (a / 4096)); [done|lia].
  - intros pfn Hp. rewrite (Hphys _ Hp). split; [|split; [|by apply getpfn_getptr]].
    + unfold pfndb_phys_to_page, PHYS_PFN, PAGE_SHIFT. rewrite Z.shiftr_div_pow2 by lia.
      change (2 ^ 12) with 4096. rewrite Z.div_mul by done.
      destruct (Z.ltb_spec (max_pfn d) pfn); [lia|done].
    + unfold pfndb_pfnaddr. destruct (Z.ltb_spec (max_pfn d) pfn); [lia|].
      symmetry. apply PFN_PHYS_small. lia.
Qed.

(** ** Marking ranges *)

Lemma mark_loop_ok f n : forall k m,
  (forall x, k <= x < k + Z.of_nat n -> is_Some (m !! x)) ->
  exists m', mark_loop n k f m = Ok m' /\
    forall x, m' !! x = if decide (k <= x < k + Z.of_nat n)
      then mark_flags f <$> m !! x else m !! x.
Proof.
  induction n as [|n IH]; intros k m Hdom.
  { exists m. split; [done|]. intros x. by rewrite decide_False by lia. }
  destruct (Hdom k ltac:(lia)) as [g Hg].
  destruct (IH (k + 1) (<[k := mark_flags f g]> m)) as (m' & Hm & Hat).
  { intros x Hx. rewrite lookup_insert_ne by lia. apply Hdom. lia. }
  exists m'. split.
  - simpl. by rewrite (store_upd_insert _ _ _ _ Hg).
  - intros x. rewrite Hat, lookup_insert.
    destruct (decide (k = x)) as [<-|]; [|repeat case_decide; try lia; done].
    rewrite decide_False, decide_True by lia. by rewrite Hg.
Qed.

(** A memory map whose addresses do not wrap around when rounded up. *)
Definition valid_entry (e : memmap_entry) : Prop :=
  0 <= me_base e /\ 0 <= me_length e /\ me_base e + me_length e <= 2 ^ 64 - 4096.

(** The frames an entry touches. *)
Definition entry_frame (e : memmap_entry) (x : Z) : Prop :=
  me_base e / 4096 <= x < (me_base e + me_length e + 4095) / 4096.
#[export] Instance entry_frame_dec e x : Decision (entry_frame e x).
Proof. apply _. Defined.

Lemma entry_end_pfn_eq e :
  valid_entry e -> entry_end_pfn e = (me_base e + me_length e + 4095) / 4096.
Proof.
  intros (? & ? & ?). unfold entry_end_pfn. rewrite (u64_small (_ + _)) by lia.
  apply align_up_pfn. lia.
Qed.

Definition has_frames (d : pfndb) : Prop :=
  forall x, 0 <= x <= max_pfn d <-> is_Some (mem_map d !! x).

Lemma mark_range_ok d e f :
  has_frames d -> valid_entry e ->
  exists d', pfndb_mark_range (me_base e) (me_length e) f d = Ok d' /\
    max_pfn d' = max_pfn d /\ pfndb_phys d' = pfndb_phys d /\
    forall x, mem_map d' !! x =
      if decide (entry_frame e x) then mark_flags f <$> mem_map d !! x else mem_map d !! x.
Proof.
  intros Hdom He. destruct (He) as (Hb & Hl & Hs). unfold pfndb_mark_range.
  rewrite (u64_small (_ + _)), align_up_pfn by lia.
  assert (Z.shiftr (me_base e) PAGE_SHIFT = me_base e / 4096) as -> by (by apply Z.shiftr_div_pow2).
  set (a := me_base e / 4096). set (b := (me_base e + me_length e + 4095) / 4096).
  assert (0 <= a) by (apply Z.div_pos; lia).
  destruct (Z.ltb_spec (max_pfn d) a) as [Hlt|Hge].
  { exists d. do 3 (split; [done|]). intros x. case_decide as Hx; [|done].
    unfold entry_frame in Hx. fold a b in Hx. destruct (mem_map d !! x) eqn:E; [|done].
    destruct (proj2 (Hdom x)); [by rewrite E|lia]. }
  set (b' := if max_pfn d + 1 <? b then max_pfn d + 1 else b).
  destruct (mark_loop_ok f (Z.to_nat (b' - a)) a (mem_map d)) as (m' & Hm & Hat).
  { intros x Hx. apply Hdom. unfold b' in Hx. destruct (Z.ltb_spec (max_pfn d + 1) b); lia. }
  rewrite Hm. eexists. split; [done|]. do 2 (split; [done|]). intros x. simpl. rewrite Hat.
  unfold entry_frame. fold a b. unfold b'.
  destruct (Z.ltb_spec (max_pfn d + 1) b); repeat case_decide; try lia; try done.
  destruct (mem_map d !! x) eqn:E; [|done]. destruct (proj2 (Hdom x)); [by rewrite E|lia].
Qed.

Lemma has_frames_keep d d' (P : Z -> Prop) `{!forall x, Decision (P x)} f :
  has_frames d -> max_pfn d' = max_pfn d ->
  (forall x, mem_map d' !! x =
    if decide (P x) then mark_flags f <$> mem_map d !! x else mem_map d !! x) ->
  has_frames d'.
Proof.
  intros Hd Hm Hat x. rewrite Hm, Hat, (Hd x). case_decide; [by rewrite fmap_is_Some|done].
Qed.

Lemma mark_flags_idem f g : mark_flags f (mark_flags f g) = mark_flags f g.
Proof.
  unfold mark_flags. destruct g as [nx pv rc od fl pr]. unfold pg_set_flags. simpl. f_equal.
  apply Z.bits_inj'. intros n Hn. rewrite !Z.lor_spec, !Z.land_spec, !Z.lor_spec, !Z.land_spec.
  destruct (Z.testbit fl n), (Z.testbit (not64 state_mask) n), (Z.testbit f n); done.
Qed.

Definition usable (e : memmap_entry) : bool := me_type e =? LIMINE_MEMMAP_USABLE.

(** A frame that some usable entry touches. *)
Definition in_usable (memmap : list memmap_entry) (x : Z) : Prop :=
  Exists (fun e => usable e = true /\ entry_frame e x) memmap.
#[export] Instance in_usable_dec memmap x : Decision (in_usable memmap x).
Proof. apply _. Defined.

Lemma mark_usable_ok memmap : forall d,
  has_frames d -> Forall valid_entry memmap ->
  exists d', mark_usable memmap d = Ok d' /\ has_frames d' /\
    max_pfn d' = max_pfn d /\ pfndb_phys d' = pfndb_phys d /\
    forall x, mem_map d' !! x = if decide (in_usable memmap x)
      then mark_flags PAGE_FREE <$> mem_map d !! x else mem_map d !! x.
Proof.
  induction memmap as [|e memmap IH]; intros d Hd Hv.
  { exists d. do 4 (split; [done|]). intros x. rewrite decide_False; [done|]. by intros ?%Exists_nil. }
  apply Forall_cons in Hv as [He Hv]. simpl. fold (usable e).
  destruct (usable e) eqn:Hu; simpl.
  - destruct (mark_range_ok d e PAGE_FREE Hd He) as (d1 & Hd1 & Hm1 & Hp1 & Hat1).
    destruct (IH d1) as (d2 & Hd2 & Hf2 & Hm2 & Hp2 & Hat2); [by eapply has_frames_keep|done|].
    exists d2. rewrite Hd1. simpl. rewrite Hm2, Hp2. do 4 (split; [done|]). intros x.
    rewrite Hat2, Hat1. unfold in_usable.
    assert (Exists (fun e => usable e = true /\ entry_frame e x) (e :: memmap) <->
      entry_frame e x \/ in_usable memmap x) as Hex by (rewrite Exists_cons; unfold in_usable; naive_solver).
    repeat case_decide; try tauto. destruct (mem_map d !! x); [|done]. simpl.
    by rewrite mark_flags_idem.
  - destruct (IH d Hd Hv) as (d2 & Hd2 & Hf2 & Hm2 & Hp2 & Hat2).
    exists d2. do 4 (split; [done|]). intros x. rewrite Hat2.
    assert (in_usable (e :: memmap) x <-> in_usable memmap x) as Hex.
    { unfold in_usable. rewrite Exists_cons, Hu. naive_solver. }
    repeat case_decide; tauto.
Qed.

(** ** [pfndb_init] *)

Definition calc_step (m : Z) (e : memmap_entry) : Z :=
  if negb (usable e) then m else if m <? entry_end_pfn e then entry_end_pfn e else m.

Lemma calc_max_spec memmap : forall m0,
  0 <= m0 <= 2 ^ 52 -> Forall valid_entry memmap ->
  let m := foldl calc_step m0 memmap in
  m0 <= m <= 2 ^ 52 /\ Forall (fun e => usable e = true -> entry_end_pfn e <= m) memmap.
Proof.
  induction memmap as [|e memmap IH]; intros m0 Hm Hv; simpl; [split; [lia|done]|].
  apply Forall_cons in Hv as [He Hv].
  assert (entry_end_pfn e <= 2 ^ 52) as Hend.
  { rewrite entry_end_pfn_eq by done. destruct He as (? & ? & ?).
    change (2 ^ 52) with (2 ^ 64 / 4096). apply Z.div_le_mono; lia. }
  assert (m0 <= calc_step m0 e <= 2 ^ 52 /\ (usable e = true -> entry_end_pfn e <= calc_step m0 e)) as [Hs Hu].
  { unfold calc_step. destruct (usable e); simpl; [|split; [lia|done]].
    destruct (Z.ltb_spec m0 (entry_end_pfn e)); lia. }
  destruct (IH (calc_step m0 e) ltac:(lia) Hv) as [? ?]. split; [lia|].
  constructor; [intros E; specialize (Hu E); lia|done].
Qed.

Lemma calc_max_pfn_eq memmap : calc_max_pfn memmap = foldl calc_step 0 memmap.
Proof. done. Qed.

(** The entry the descriptor array is cut from. *)
Definition cut_front (size : Z) (e : memmap_entry) : memmap_entry :=
  mk_entry (u64 (me_base e + size)) (u64 (me_length e - size)) (me_type e).

Definition fits (size : Z) (e : memmap_entry) : Prop := usable e = true /\ size <= me_length e.

Lemma reserve_in_ok size memmap :
  Exists (fits size) memmap ->
  exists l1 e l2, memmap = l1 ++ e :: l2 /\ fits size e /\ Forall (fun e => ~ fits size e) l1 /\
    reserve_in size memmap = Ok (me_base e, l1 ++ cut_front size e :: l2).
Proof.
  induction memmap as [|e memmap IH]; [by intros ?%Exists_nil|]. intros Hex. simpl. fold (usable e).
  destruct (usable e) eqn:Hu; [destruct (Z.ltb_spec (me_length e) size)|]; simpl.
  2:{ exists [], e, memmap. done. }
  all: apply Exists_cons in Hex as [[? ?]|Hex]; [congruence || lia|].
  all: destruct (IH Hex) as (l1 & e' & l2 & -> & Hf & Hn & Hr); exists (e :: l1), e', l2.
  all: rewrite Hr; split; [done|split; [done|split; [constructor; [|done]|done]]].
  all: unfold fits; intros [? ?]; congruence || lia.
Qed.

Lemma reserve_in_panic size memmap :
  Forall (fun e => ~ fits size e) memmap -> reserve_in size memmap = Panic.
Proof.
  induction memmap as [|e memmap IH]; [done|]. intros [Hn Hf]%Forall_cons. simpl. fold (usable e).
  unfold fits in Hn. destruct (usable e); [destruct (Z.ltb_spec (me_length e) size)|]; simpl;
    rewrite ?IH by done; try done. exfalso. by apply Hn.
Qed.

Lemma init_loop_lookup max n : forall k m x,
  init_loop n k max m !! x =
    if decide (k <= x < k + Z.of_nat n) then Some (init_page max x) else m !! x.
Proof.
  induction n as [|n IH]; intros k m x; simpl.
  { by rewrite decide_False by lia. }
  rewrite IH, lookup_insert. repeat case_decide; try lia; [done|by subst|done].
Qed.

(** The size of the descriptor array, in bytes. *)
Definition storage_size (memmap : list memmap_entry) : Z :=
  PAGE_ALIGN_UP (u64 ((calc_max_pfn memmap + 1) * sizeof_page)).

Lemma storage_size_eq memmap :
  Forall valid_entry memmap ->
  storage_size memmap = ((calc_max_pfn memmap + 1) * 64 + 4095) / 4096 * 4096 /\
  0 <= calc_max_pfn memmap <= 2 ^ 52.
Proof.
  intros Hv. destruct (calc_max_spec memmap 0 ltac:(lia) Hv) as [Hm _].
  rewrite <- calc_max_pfn_eq in Hm. split; [|lia]. unfold storage_size, sizeof_page.
  rewrite u64_small by lia. apply align_up. lia.
Qed.

Lemma cut_front_valid size e :
  valid_entry e -> 0 <= size <= me_length e ->
  cut_front size e = mk_entry (me_base e + size) (me_length e - size) (me_type e) /\
  valid_entry (cut_front size e).
Proof.
  intros (? & ? & ?) Hs. assert (cut_front size e =
    mk_entry (me_base e + size) (me_length e - size) (me_type e)) as ->.
  { unfold cut_front. rewrite !u64_small by lia. done. }
  split; [done|]. unfold valid_entry. simpl. lia.
Qed.

Record pfndb_booted (memmap : list memmap_entry) (d : pfndb) (memmap' : list memmap_entry) : Prop := {
  bo_max : max_pfn d = calc_max_pfn memmap;
  bo_frames : has_frames d;
  bo_flags x g : mem_map d !! x = Some g ->
    pg_flags g = if decide (in_usable memmap' x) then PAGE_FREE else PAGE_RESERVED;
  bo_usable x : in_usable memmap x -> 0 <= x < max_pfn d;
  bo_storage : exists l1 e l2, memmap = l1 ++ e :: l2 /\ fits (storage_size memmap) e /\
    Forall (fun e => ~ fits (storage_size memmap) e) l1 /\ pfndb_phys d = me_base e /\
    memmap' = l1 ++ mk_entry (me_base e + storage_size memmap)
      (me_length e - storage_size memmap) (me_type e) :: l2;
}.

Lemma pfndb_init_ok memmap :
  Forall valid_entry memmap -> Exists (fits (storage_size memmap)) memmap ->
  exists d memmap', pfndb_init memmap = Ok (d, memmap') /\ pfndb_booted memmap d memmap'.
Proof.
  intros Hv Hex. destruct (storage_size_eq _ Hv) as [Hsz Hmax].
  destruct (reserve_in_ok _ _ Hex) as (l1 & e & l2 & E & Hf & Hn & Hr).
  assert (0 <= storage_size memmap) as Hsz0 by (rewrite Hsz; apply Z.mul_nonneg_nonneg; [apply Z.div_pos; lia|done]).
  pose proof Hv as Hv'. rewrite E in Hv'. apply Forall_app in Hv' as [Hv1 Hv2].
  apply Forall_cons in Hv2 as [He Hv2].
  destruct (cut_front_valid (storage_size memmap) e He) as [Hc Hcv]; [destruct Hf; lia|].
  set (memmap' := l1 ++ cut_front (storage_size memmap) e :: l2) in *.
  set (max := calc_max_pfn memmap) in *.
  set (d0 := mk_pfndb (init_loop (Z.to_nat (max + 1)) 0 max ∅) max (me_base e)).
  assert (has_frames d0) as Hd0.
  { intros x. simpl. rewrite init_loop_lookup, lookup_empty. rewrite Z2Nat.id by lia.
    case_decide; split; intros Hx; [done|lia|lia|by destruct Hx]. }
  assert (Forall valid_entry memmap') as Hvm' by (apply Forall_app; split; [done|by constructor]).
  destruct (mark_usable_ok memmap' d0 Hd0 Hvm') as (d & Hd & Hfr & Hm & Hp & Hat).
  exists d, memmap'. split.
  { unfold pfndb_init, reserve_pfndb_storage. 
    change (PAGE_ALIGN_UP (u64 ((calc_max_pfn memmap + 1) * sizeof_page))) with (storage_size memmap).
    rewrite Hr. cbn [mbind outcome_bind fst snd]. cbv zeta. fold max. fold d0. by rewrite Hd. }
  split; [done|done| | |].
  - intros x g. rewrite Hat. simpl. rewrite init_loop_lookup, lookup_empty.
    repeat case_decide; simpl; intros Hx; try done; by injection Hx as <-.
  - intros x (e' & Hin & Hu & Hx)%Exists_exists. rewrite Hm.
    destruct (calc_max_spec memmap 0 ltac:(lia) Hv) as [_ Hall]. rewrite Forall_forall in Hall.
    specialize (Hall _ Hin Hu). rewrite Forall_forall in Hv. rewrite entry_end_pfn_eq in Hall by auto.
    unfold entry_frame in Hx. destruct (Hv _ Hin) as (? & ? & ?).
    assert (0 <= me_base e' / 4096) by (apply Z.div_pos; lia). simpl. fold max in Hall.
    rewrite <- calc_max_pfn_eq in Hall. fold max in Hall. lia.
  - exists l1, e, l2. rewrite <- Hc. done.
Qed.

(** What the boot protocol promises of usable entries: whole pages, and no two
    of them overlap. *)
Record limine_map (memmap : list memmap_entry) : Prop := {
  lm_aligned i e : memmap !! i = Some e -> usable e = true ->
    (4096 | me_base e) /\ (4096 | me_length e);
  lm_disjoint i j e1 e2 : i <> j -> memmap !! i = Some e1 -> memmap !! j = Some e2 ->
    usable e1 = true -> usable e2 = true ->
    me_base e1 + me_length e1 <= me_base e2 \/ me_base e2 + me_length e2 <= me_base e1;
}.

Lemma aligned_frame e x :
  valid_entry e -> (4096 | me_base e) -> (4096 | me_length e) -> entry_frame e x ->
  me_base e <= x * 4096 < me_base e + me_length e.
Proof.
  unfold entry_frame. intros (? & ? & ?) [a ->] [b ->].
  replace (a * 4096 + b * 4096 + 4095) with (4095 + (a + b) * 4096) by lia.
  rewrite Z.div_mul, Z.div_add by done. change (4095 / 4096) with 0. lia.
Qed.

(** With no usable entry large enough for the descriptor array
    [pfndb_init] panics; otherwise it takes the array from the front of the
    first one that is, every frame up to [max_pfn] gets a descriptor, marked
    free exactly when a usable entry of the reduced memory map touches it and
    reserved otherwise, and every usable frame is below [max_pfn]. When usable
    entries are whole pages and disjoint the frames of the array itself are
    reserved. *)
Theorem pfndb_init_spec memmap :
  Forall valid_entry memmap ->
  (Forall (fun e => ~ fits (storage_size memmap) e) memmap -> pfndb_init memmap = Panic) /\
  (Exists (fits (storage_size memmap)) memmap ->
    exists d memmap', pfndb_init memmap = Ok (d, memmap') /\ pfndb_booted memmap d memmap' /\
      (limine_map memmap -> forall x g, mem_map d !! x = Some g ->
        pfndb_phys d <= x * 4096 < pfndb_phys d + storage_size memmap ->
        pg_flags g = PAGE_RESERVED)).
Proof.
  intros Hv. split.
  { intros Hn. unfold pfndb_init, reserve_pfndb_storage. by rewrite reserve_in_panic. }
  intros Hex. destruct (pfndb_init_ok _ Hv Hex) as (d & memmap' & Hr & Hb).
  exists d, memmap'. do 2 (split; [done|]). intros Hlm x g Hg Hx.
  rewrite (bo_flags _ _ _ Hb _ _ Hg), decide_False; [done|].
  destruct (bo_storage _ _ _ Hb) as (l1 & e & l2 & E & [Hu Hsz] & _ & Hp & ->).
  rewrite Hp in Hx. destruct (storage_size_eq _ Hv) as [Hs _].
  assert (memmap !! length l1 = Some e) as Hie by (rewrite E; by apply list_lookup_middle).
  pose proof (lm_aligned _ Hlm _ _ Hie Hu) as [Hab Hal].
  assert ((4096 | storage_size memmap)) as Has by (rewrite Hs; by eexists).
  assert (Forall valid_entry (l1 ++ e :: l2)) as Hv' by (by rewrite <- E).
  apply Forall_app in Hv' as [Hv1 Hv2]. apply Forall_cons in Hv2 as [He Hv2].
  assert (forall j e', memmap !! j = Some e' -> j <> length l1 -> usable e' = true ->
    entry_frame e' x -> False) as Hother.
  { intros j e' Hj Hne Hu' Hf. pose proof (lm_aligned _ Hlm _ _ Hj Hu') as [? ?].
    pose proof (lm_disjoint _ Hlm _ _ _ _ Hne Hj Hie Hu' Hu).
    rewrite Forall_forall in Hv. assert (valid_entry e') as Hve by (apply Hv, list_elem_of_lookup; eauto).
    pose proof (aligned_frame _ _ Hve ltac:(done) ltac:(done) Hf). lia. }
  unfold in_usable. rewrite Exists_app, Exists_cons. intros [Ho|[[Hu' Hf]|Ho]].
  - apply Exists_exists in Ho as (e' & [j Hj]%list_elem_of_lookup & Hu' & Hf).
    pose proof (lookup_lt_Some _ _ _ Hj). apply (Hother j e'); try done; [|lia].
    rewrite E. by apply lookup_app_l_Some.
  - assert (0 <= storage_size memmap) by (rewrite Hs; destruct Has; apply Z.mul_nonneg_nonneg;
      [apply Z.div_pos; [destruct (storage_size_eq _ Hv); lia|done]|done]).
    destruct (cut_front_valid (storage_size memmap) e He) as [Hc Hcv]; [lia|]. rewrite Hc in Hcv.
    apply aligned_frame in Hf; [simpl in Hf; lia|done|simpl; by apply Z.divide_add_r|].
    simpl. by apply Z.divide_sub_r.
  - apply Exists_exists in Ho as (e' & [j Hj]%list_elem_of_lookup & Hu' & Hf).
    apply (Hother (length l1 + S j)%nat e'); try done; [|lia].
    rewrite E, lookup_app_r by lia. by replace (length l1 + S j - length l1)%nat with (S j) by lia.
Qed.

(** A machine with a hole in its memory. *)
Definition demo_memmap : list memmap_entry :=
  [mk_entry 0 4096 1; mk_entry 4096 12288 0; mk_entry 16384 8192 0].

Lemma demo_valid : Forall valid_entry demo_memmap.
Proof. unfold demo_memmap, valid_entry. repeat constructor; simpl; lia. Qed.

Lemma demo_fits : Exists (fits (storage_size demo_memmap)) demo_memmap.
Proof. right. left. split; [done|by vm_compute]. Qed.

Lemma pfndb_translate_witness :
  let d := mk_pfndb ∅ 100 0 in pfndb_page_to_phys d (pfndb_phys_to_page d 8195) = 8192.
Proof. apply (pfndb_translate (mk_pfndb ∅ 100 0) 8195); vm_compute; done. Defined.

Lemma pfndb_init_spec_witness :
  exists d memmap', pfndb_init demo_memmap = Ok (d, memmap') /\ pfndb_booted demo_memmap d memmap'.
Proof.
  destruct (proj2 (pfndb_init_spec demo_memmap demo_valid) demo_fits) as (d & m & Hr & Hb & _).
  by exists d, m.
Defined.
