(* ===== verification/Pmm.v ===== *)
(** The buddy allocator of physical pages, [kernel/src/mm/pmm.c]. *)
From S2P Require Import Prelude Dll Pfndb.

Definition MAX_ORDER : Z := 11.

(** One element of the static array [free_lists]. *)
Record free_list := mk_fl {
  fl_head : ptr;
  fl_count : Z;
}.

(** The statics of [pmm.c] together with the page frame database. *)
Record pmm := mk_pmm {
  pm_map : gmap Z page;
  pm_max : Z;
  pm_lists : gmap Z free_list;
  pm_free : Z;
  pm_total : Z;
}.

Definition pm_set_map (m : gmap Z page) (s : pmm) : pmm :=
  mk_pmm m (pm_max s) (pm_lists s) (pm_free s) (pm_total s).
Definition pm_set_lists (l : gmap Z free_list) (s : pmm) : pmm :=
  mk_pmm (pm_map s) (pm_max s) l (pm_free s) (pm_total s).
Definition pm_set_free (x : Z) (s : pmm) : pmm :=
  mk_pmm (pm_map s) (pm_max s) (pm_lists s) x (pm_total s).
Definition pm_set_total (x : Z) (s : pmm) : pmm :=
  mk_pmm (pm_map s) (pm_max s) (pm_lists s) (pm_free s) x.

Definition get_page (p : Z) : ST pmm page := fun s =>
  match pm_map s !! p with Some g => Ok (g, s) | None => Fault end.
Definition upd_page (p : Z) (f : page -> page) : ST pmm unit := fun s =>
  match store_upd p f (pm_map s) with Ok m => Ok (tt, pm_set_map m s) | _ => Fault end.
Definition get_list (o : Z) : ST pmm free_list := fun s =>
  match pm_lists s !! o with Some l => Ok (l, s) | None => Fault end.
Definition upd_list (o : Z) (f : free_list -> free_list) : ST pmm unit := fun s =>
  match store_upd o f (pm_lists s) with Ok m => Ok (tt, pm_set_lists m s) | _ => Fault end.

(** [pfn_to_page] and [page_to_pfn]. *)
Definition pfn_to_page (pfn : Z) : ST pmm ptr :=
  gets (fun s => pfndb_getptr (mk_pfndb (pm_map s) (pm_max s) 0) pfn).
Definition page_to_pfn (p : ptr) : ST pmm Z :=
  gets (fun s => pfndb_getpfn (mk_pfndb (pm_map s) (pm_max s) 0) p).

Definition free_list_push (order page : Z) : ST pmm unit :=
  upd_page page (pg_set_prev None) ;;
  l ← get_list order;
  upd_page page (pg_set_next (fl_head l)) ;;
  match fl_head l with
  | Some hd => upd_page hd (pg_set_prev (Some page))
  | None => mret tt
  end ;;
  upd_list order (fun l => mk_fl (Some page) (u64 (fl_count l + 1))).

Definition free_list_remove (order page : Z) : ST pmm unit :=
  g ← get_page page;
  match pg_prev g with
  | Some p => upd_page p (pg_set_next (pg_next g))
  | None => upd_list order (fun l => mk_fl (pg_next g) (fl_count l))
  end ;;
  g ← get_page page;
  match pg_next g with
  | Some n => upd_page n (pg_set_prev (pg_prev g))
  | None => mret tt
  end ;;
  upd_page page (fun g => pg_set_prev None (pg_set_next None g)) ;;
  upd_list order (fun l => mk_fl (fl_head l) (u64 (fl_count l - 1))).

Definition buddy_pfn (pfn order : Z) : Z := Z.lxor pfn (u64 (Z.shiftl 1 order)).

(** The coalescing loop of [free_block]; each turn raises the order, so
    [MAX_ORDER] turns of fuel are enough. *)
Fixpoint coalesce (fuel : nat) (pfn page order : Z) : ST pmm (Z * Z * Z) :=
  if negb (order <? MAX_ORDER - 1) then mret (pfn, page, order) else
  match fuel with
  | O => st_timeout
  | S fuel =>
      let buddy := buddy_pfn pfn order in
      max ← gets pm_max;
      if max <? buddy then mret (pfn, page, order) else
      bp ← pfn_to_page buddy;
      match bp with
      | None => st_fault
      | Some buddy_page =>
          g ← get_page buddy_page;
          if negb (PageFree g) || negb (pg_order g =? order)
          then mret (pfn, page, order) else
          free_list_remove order buddy_page ;;
          let pfn' := if buddy <? pfn then buddy else pfn in
          let page' := if buddy <? pfn then buddy_page else page in
          upd_page page' (ClearPageFlag PAGE_LARGE_HEAD) ;;
          upd_page page' (pg_set_order (u8 (order + 1))) ;;
          coalesce fuel pfn' page' (u8 (order + 1))
      end
  end.

Definition free_block (page : Z) : ST pmm unit :=
  pfn ← page_to_pfn (Some page);
  g ← get_page page;
  r ← coalesce (Z.to_nat MAX_ORDER) pfn page (pg_order g);
  let '(pfn, page, order) := (r : Z * Z * Z) in
  upd_page page (SetPageFlag PAGE_FREE) ;;
  upd_page page (ClearPageFlag (Z.lor (Z.lor PAGE_USED PAGE_LARGE_HEAD) PAGE_LARGE_BODY)) ;;
  upd_page page (pg_set_order order) ;;
  (if 0 <? order then upd_page page (SetPageFlag PAGE_LARGE_HEAD) else mret tt) ;;
  free_list_push order page.

(** [pmm_init]: first loop, over the free pages, with [n] frames left. *)
Fixpoint init_mark (n : nat) (pfn : Z) : ST pmm unit :=
  match n with
  | O => mret tt
  | S n =>
      g ← get_page pfn;
      (if PageFree g then
         upd_page pfn (pg_set_order 0) ;;
         upd_page pfn (ClearPageFlag PAGE_FREE) ;;
         upd_page pfn (SetPageFlag PAGE_USED)
       else mret tt) ;;
      init_mark n (pfn + 1)
  end.

(** Second loop: every page marked used and not reserved is released. *)
Fixpoint init_release (n : nat) (pfn : Z) : ST pmm unit :=
  match n with
  | O => mret tt
  | S n =>
      g ← get_page pfn;
      (if negb (PageUsed g) || PageReserved g then mret tt
       else
         free_block pfn ;;
         modify (fun s => pm_set_free (u64 (pm_free s + 1)) s) ;;
         modify (fun s => pm_set_total (u64 (pm_total s + 1)) s)) ;;
      init_release n (pfn + 1)
  end.

Definition empty_lists : gmap Z free_list :=
  list_to_map ((fun o : nat => (Z.of_nat o, mk_fl None 0)) <$> seq 0 11).

Definition pmm_init : ST pmm unit :=
  modify (fun s => mk_pmm (pm_map s) (pm_max s) empty_lists 0 0) ;;
  max ← gets pm_max;
  init_mark (Z.to_nat (max + 1)) 0 ;;
  init_release (Z.to_nat (max + 1)) 0.

(** The inner loop of [pmm_alloc]: split the block at [page] from order
    [o] down to [order], pushing the upper halves. *)
Fixpoint split_loop (fuel : nat) (o order page : Z) : ST pmm unit :=
  if negb (order <? o) then mret tt else
  match fuel with
  | O => st_timeout
  | S fuel =>
      let o := o - 1 in
      pfn ← page_to_pfn (Some page);
      b ← pfn_to_page (u64 (pfn + Z.shiftl 1 o));
      match b with
      | None => st_fault
      | Some buddy =>
          upd_page buddy (pg_set_order o) ;;
          upd_page buddy (pg_set_flags (Z.lor PAGE_FREE PAGE_LARGE_HEAD)) ;;
          free_list_push o buddy ;;
          split_loop fuel o order page
      end
  end.

(** [for (i = 1; i < count; i++)] over the body pages of a block. *)
Fixpoint body_loop (n : nat) (i head : Z) (f : page -> page) : ST pmm unit :=
  match n with
  | O => mret tt
  | S n =>
      pfn ← page_to_pfn (Some head);
      b ← pfn_to_page (u64 (pfn + i));
      match b with
      | None => st_fault
      | Some body => upd_page body f ;; body_loop n (i + 1) head f
      end
  end.

Definition alloc_body (order : Z) (g : page) : page :=
  pg_set_refcount 1 (pg_set_flags (Z.lor PAGE_USED PAGE_LARGE_BODY) (pg_set_order order g)).

(** The descriptors of the block that is handed out. *)
Definition alloc_mark (order page : Z) : ST pmm unit :=
  let count := u64 (Z.shiftl 1 order) in
  upd_page page (pg_set_order order) ;;
  upd_page page (SetPageFlag PAGE_USED) ;;
  upd_page page (ClearPageFlag PAGE_FREE) ;;
  (if 0 <? order then
     upd_page page (SetPageFlag PAGE_LARGE_HEAD) ;;
     body_loop (Z.to_nat (count - 1)) 1 page (alloc_body order)
   else mret tt) ;;
  upd_page page (pg_set_refcount 1).

(** What happens once the free list of order [o] is known not to be empty. *)
Definition alloc_from (o order page : Z) : ST pmm unit :=
  free_list_remove o page ;;
  split_loop (Z.to_nat MAX_ORDER) o order page ;;
  alloc_mark order page ;;
  modify (fun s => pm_set_free (u64 (pm_free s - u64 (Z.shiftl 1 order))) s).

(** [for (o = order; o < MAX_ORDER; o++)] with [n] orders left. *)
Fixpoint alloc_search (n : nat) (o order : Z) : ST pmm ptr :=
  match n with
  | O => mret None
  | S n =>
      l ← get_list o;
      match fl_head l with
      | None => alloc_search n (o + 1) order
      | Some page => alloc_from o order page ;; mret (Some page)
      end
  end.

Definition pmm_alloc (order : Z) : ST pmm ptr :=
  if MAX_ORDER <=? order then mret None
  else alloc_search (Z.to_nat (MAX_ORDER - order)) order order.

Definition pmm_alloc_page : ST pmm ptr := pmm_alloc 0.

Definition free_body (g : page) : page := pg_set_refcount 0 (pg_set_flags 0 g).

Definition pmm_free (page : ptr) : ST pmm unit :=
  match page with
  | None => mret tt
  | Some p =>
      g ← get_page p;
      if PageReserved g || PagePoisoned g then st_panic else
      if PageFree g then st_panic else
      let '(last, g') := page_ref_dec_and_test g in
      upd_page p (fun _ => g') ;;
      if last then
        let count := u64 (Z.shiftl 1 (pg_order g')) in
        (if 0 <? pg_order g' then body_loop (Z.to_nat (count - 1)) 1 p free_body
         else mret tt) ;;
        modify (fun s => pm_set_free (u64 (pm_free s + count)) s) ;;
        free_block p
      else mret tt
  end.

Definition pmm_free_pages (s : pmm) : Z := pm_free s.
Definition pmm_total_pages (s : pmm) : Z := pm_total s.

(** ** Ghost state: the blocks the memory is divided into

    [blk] maps the first frame of a block to its order and to what it is:
    on a free list, allocated, or in the hands of the running operation. *)
Inductive kind := Free | Alloc | Hand.
#[export] Instance kind_eq_dec : EqDecision kind.
Proof. solve_decision. Defined.

Abbreviation blocks := (gmap Z (Z * kind)).

Record geom (max : Z) (blk : blocks) : Prop := {
  geom_blk p o k : blk !! p = Some (o, k) ->
    0 <= o < MAX_ORDER /\ 0 <= p /\ (2 ^ o | p) /\ p + 2 ^ o <= max + 1;
  geom_disj p q o1 k1 o2 k2 : p <> q ->
    blk !! p = Some (o1, k1) -> blk !! q = Some (o2, k2) ->
    p + 2 ^ o1 <= q \/ q + 2 ^ o2 <= p;
}.

(** A frame inside a block that is not allocated. *)
Definition loose (blk : blocks) (x : Z) : Prop :=
  exists p o k, blk !! p = Some (o, k) /\ k <> Alloc /\ p <= x < p + 2 ^ o.

#[export] Instance loose_dec blk x : Decision (loose blk x).
Proof.
  destruct (decide (map_Exists (fun p (b : Z * kind) =>
    b.2 <> Alloc /\ p <= x < p + 2 ^ b.1) blk)) as [H|H].
  - left. destruct H as (p & [o k] & Hp & Hk & Hx). by exists p, o, k.
  - right. intros (p & o & k & Hp & Hk & Hx). apply H. by exists p, (o, k).
Defined.

(** Frames in blocks that are not allocated, counted. *)
Definition weight (b : Z * kind) : Z :=
  if decide (b.2 = Alloc) then 0 else 2 ^ b.1.
Definition avail (blk : blocks) : Z := map_fold (fun _ b n => weight b + n) 0 blk.

Record inv (s : pmm) (fls : Z -> list Z) (blk : blocks) : Prop := {
  inv_max : 0 <= pm_max s < 2 ^ 52;
  inv_geom : geom (pm_max s) blk;
  inv_fls o p : 0 <= o < MAX_ORDER -> p ∈ fls o <-> blk !! p = Some (o, Free);
  inv_dll o : 0 <= o < MAX_ORDER -> dll (pm_map s) (fls o);
  inv_list o : 0 <= o < MAX_ORDER ->
    pm_lists s !! o = Some (mk_fl (head (fls o)) (u64 (Z.of_nat (length (fls o)))));
  inv_dom x : 0 <= x <= pm_max s <-> is_Some (pm_map s !! x);
  inv_order p o k : blk !! p = Some (o, k) -> k <> Hand ->
    exists g, pm_map s !! p = Some g /\ pg_order g = o;
  inv_free p o g : blk !! p = Some (o, Free) -> pm_map s !! p = Some g -> PageFree g = true;
  inv_cover x g : pm_map s !! x = Some g -> PageFree g = true -> loose blk x;
}.

(** *** Arithmetic of aligned blocks *)

Lemma pow2_pos o : 0 <= o -> 0 < 2 ^ o.
Proof. intros. apply Z.pow_pos_nonneg; lia. Qed.

Lemma pow2_split a k : 0 <= a <= k -> 2 ^ k = 2 ^ a * 2 ^ (k - a).
Proof. intros. rewrite <- Z.pow_add_r by lia. f_equal. lia. Qed.

Lemma pow2_succ o : 0 <= o -> 2 ^ (o + 1) = 2 * 2 ^ o.
Proof. intros. rewrite Z.pow_add_r by lia. lia. Qed.

(** An aligned block that meets a larger aligned block lies inside it. *)
Lemma aligned_inside a k x q y :
  0 <= a <= k -> (2 ^ a | x) -> (2 ^ k | q) ->
  q <= y < q + 2 ^ k -> x <= y < x + 2 ^ a -> q <= x /\ x + 2 ^ a <= q + 2 ^ k.
Proof.
  intros Hak [m ->] [n ->] Hq Hx. rewrite (pow2_split a k) in * by lia.
  pose proof (pow2_pos a). pose proof (pow2_pos (k - a)).
  set (A := 2 ^ a) in *. set (C := 2 ^ (k - a)) in *.
  assert (n * C <= m) by nia. assert (m < n * C + C) by nia. nia.
Qed.

Lemma aligned_eq a x q : 0 <= a -> (2 ^ a | x) -> (2 ^ a | q) -> q <= x < q + 2 ^ a -> x = q.
Proof.
  intros Ha Hx Hq H. pose proof (pow2_pos a Ha).
  destruct (aligned_inside a a x q x) as [? ?]; try lia; done.
Qed.

Lemma pow2_divide_le a k x : 0 <= a <= k -> (2 ^ k | x) -> (2 ^ a | x).
Proof.
  intros Hak Hx. etransitivity; [|done]. exists (2 ^ (k - a)). rewrite (pow2_split a k); lia.
Qed.

Lemma lxor_1_r m : 0 <= m -> Z.lxor m 1 = if Z.even m then m + 1 else m - 1.
Proof.
  intros Hm. apply Z.bits_inj'. intros n Hn. rewrite Z.lxor_spec.
  destruct (Z.even m) eqn:E.
  - apply Z.even_spec in E as [j ->]. destruct (decide (n = 0)) as [->|].
    + rewrite Z.testbit_even_0, Z.testbit_odd_0. done.
    + replace n with (Z.succ (n - 1)) by lia.
      rewrite Z.testbit_even_succ, Z.testbit_odd_succ by lia.
      change 1 with (2 * 0 + 1) at 2. rewrite Z.testbit_odd_succ, Z.bits_0 by lia.
      by rewrite xorb_false_r.
  - assert (Z.odd m = true) as O by (rewrite <- Z.negb_even, E; done).
    apply Z.odd_spec in O as [j ->]. replace (2 * j + 1 - 1) with (2 * j) by lia.
    destruct (decide (n = 0)) as [->|].
    + rewrite Z.testbit_even_0, Z.testbit_odd_0. done.
    + replace n with (Z.succ (n - 1)) by lia.
      rewrite Z.testbit_even_succ, Z.testbit_odd_succ by lia.
      change 1 with (2 * 0 + 1) at 2. rewrite Z.testbit_odd_succ, Z.bits_0 by lia.
      by rewrite xorb_false_r.
Qed.

Lemma u64_shiftl1 o : 0 <= o < 64 -> u64 (Z.shiftl 1 o) = 2 ^ o.
Proof.
  intros. rewrite Z.shiftl_1_l. apply u64_small. split; [pose proof (pow2_pos o); lia|].
  apply Z.pow_lt_mono_r; lia.
Qed.

(** The buddy of an aligned block is the other half of its parent. *)
Lemma buddy_cases o p :
  0 <= o < MAX_ORDER -> 0 <= p -> (2 ^ o | p) ->
  (buddy_pfn p o = p + 2 ^ o /\ (2 ^ (o + 1) | p)) \/
  (buddy_pfn p o = p - 2 ^ o /\ 0 <= p - 2 ^ o /\ (2 ^ (o + 1) | p - 2 ^ o)).
Proof.
  unfold MAX_ORDER. intros Ho Hp [m ->]. unfold buddy_pfn. rewrite u64_shiftl1 by lia.
  pose proof (pow2_pos o). assert (0 <= m) by nia.
  replace (m * 2 ^ o) with (Z.shiftl m o) by (rewrite Z.shiftl_mul_pow2; lia).
  replace (2 ^ o) with (Z.shiftl 1 o) at 1 3 by (rewrite Z.shiftl_mul_pow2; lia).
  rewrite <- Z.shiftl_lxor, lxor_1_r by done.
  rewrite pow2_succ, !Z.shiftl_mul_pow2 by lia. destruct (Z.even m) eqn:E.
  - left. apply Z.even_spec in E as [j ->]. split; [lia|]. exists j. lia.
  - right. assert (Z.odd m = true) as O by (rewrite <- Z.negb_even, E; done).
    apply Z.odd_spec in O as [j ->]. split; [lia|]. split; [nia|]. exists j. lia.
Qed.

(** *** Counting the frames that are not allocated *)

Lemma avail_insert_new blk p b :
  blk !! p = None -> avail (<[p := b]> blk) = weight b + avail blk.
Proof. intros Hp. unfold avail.
  apply (map_fold_insert_L (fun _ b n => weight b + n)); [intros; lia|done]. Qed.

Lemma avail_delete blk p b :
  blk !! p = Some b -> avail blk = weight b + avail (delete p blk).
Proof.
  intros Hp. rewrite <- avail_insert_new with (p := p) by apply lookup_delete_eq.
  by rewrite insert_delete_id.
Qed.

Lemma avail_update blk p b b' :
  blk !! p = Some b -> avail (<[p := b']> blk) = weight b' - weight b + avail blk.
Proof.
  intros Hp. rewrite <- insert_delete_eq, avail_insert_new by apply lookup_delete_eq.
  rewrite (avail_delete _ _ _ Hp). lia.
Qed.

(** *** Moves on the blocks *)

Section geometry.
Context (max : Z) (blk : blocks) (Hg : geom max blk).

Lemma geom_key p q o1 k1 o2 k2 :
  blk !! p = Some (o1, k1) -> blk !! q = Some (o2, k2) -> p <= q < p + 2 ^ o1 -> q = p.
Proof.
  intros Hp Hq Hin. destruct (decide (p = q)) as [|Hne]; [done|].
  destruct (geom_blk _ _ Hg _ _ _ Hq) as ([? ?] & _). pose proof (pow2_pos o2).
  destruct (geom_disj _ _ Hg _ _ _ _ _ _ Hne Hp Hq); lia.
Qed.

Lemma geom_retag p o k k' :
  blk !! p = Some (o, k) -> geom max (<[p := (o, k')]> blk).
Proof.
  intros Hp. destruct Hg as [Hb Hd].
  assert (forall q o1 k1, <[p := (o, k')]> blk !! q = Some (o1, k1) ->
    exists k2, blk !! q = Some (o1, k2)) as Hq.
  { intros q o1 k1. rewrite lookup_insert. case_decide; naive_solver. }
  split.
  - intros q o1 k1 [k2 H]%Hq. eauto.
  - intros q1 q2 o1 k1 o2 k2 Hne [? H1]%Hq [? H2]%Hq. eauto.
Qed.

Lemma geom_merge p o :
  blk !! p = Some (o, Hand) -> blk !! (p + 2 ^ o) = Some (o, Hand) ->
  (2 ^ (o + 1) | p) -> o + 1 < MAX_ORDER ->
  geom max (<[p := (o + 1, Hand)]> (delete (p + 2 ^ o) blk)).
Proof.
  intros Hp Hq Hdiv Ho. destruct (geom_blk _ _ Hg _ _ _ Hp) as (Ho1 & Hp0 & _ & _).
  destruct (geom_blk _ _ Hg _ _ _ Hq) as (_ & _ & _ & Hmax).
  pose proof (pow2_pos o). pose proof (pow2_succ o).
  assert (forall x ox kx, x <> p ->
    <[p := (o + 1, Hand)]> (delete (p + 2 ^ o) blk) !! x = Some (ox, kx) ->
    blk !! x = Some (ox, kx) /\ (x + 2 ^ ox <= p \/ p + 2 ^ (o + 1) <= x)) as Hx.
  { intros x ox kx Hne. rewrite lookup_insert_ne by done.
    intros [Hxne Hx]%lookup_delete_Some. split; [done|].
    destruct (geom_blk _ _ Hg _ _ _ Hx) as ([? _] & _). pose proof (pow2_pos ox).
    pose proof (geom_disj _ _ Hg _ _ _ _ _ _ Hne Hx Hp).
    pose proof (geom_disj _ _ Hg _ _ _ _ _ _ (not_eq_sym Hxne) Hx Hq). lia. }
  split.
  - intros x ox kx Hlx. destruct (decide (x = p)) as [->|Hne].
    + rewrite lookup_insert_eq in Hlx. simplify_eq. split_and!; [lia|lia|lia|done|lia].
    + destruct (Hx _ _ _ Hne Hlx) as [Hl _]. by eapply geom_blk.
  - intros x y o1 k1 o2 k2 Hne Hlx Hly.
    destruct (decide (x = p)) as [->|Hxp]; [|destruct (decide (y = p)) as [->|Hyp]].
    + rewrite lookup_insert_eq in Hlx. simplify_eq.
      destruct (Hx _ _ _ (not_eq_sym Hne) Hly) as [_ ?]. lia.
    + rewrite lookup_insert_eq in Hly. simplify_eq. destruct (Hx _ _ _ Hxp Hlx) as [_ ?]. lia.
    + destruct (Hx _ _ _ Hxp Hlx) as [H1 _]. destruct (Hx _ _ _ Hyp Hly) as [H2 _].
      by eapply geom_disj.
Qed.

Lemma geom_split p o :
  blk !! p = Some (o + 1, Hand) -> 0 <= o ->
  geom max (<[p := (o, Hand)]> (<[p + 2 ^ o := (o, Hand)]> blk)) /\ blk !! (p + 2 ^ o) = None.
Proof.
  intros Hp Ho. destruct (geom_blk _ _ Hg _ _ _ Hp) as (Ho1 & Hp0 & Hdiv & Hmax).
  pose proof (pow2_pos o Ho). pose proof (pow2_succ o Ho).
  assert (blk !! (p + 2 ^ o) = None) as Hnone.
  { destruct (blk !! (p + 2 ^ o)) as [[ox kx]|] eqn:E; [|done].
    pose proof (geom_key _ _ _ _ _ _ Hp E). lia. }
  split; [|done].
  assert (forall x ox kx, <[p := (o, Hand)]> (<[p + 2 ^ o := (o, Hand)]> blk) !! x = Some (ox, kx) ->
    (x = p /\ ox = o) \/ (x = p + 2 ^ o /\ ox = o) \/
    (x <> p /\ x <> p + 2 ^ o /\ blk !! x = Some (ox, kx) /\
      (x + 2 ^ ox <= p \/ p + 2 ^ (o + 1) <= x))) as Hx.
  { intros x ox kx. rewrite !lookup_insert. repeat case_decide; try naive_solver.
    intros Hx. right. right. split_and!; try done.
    destruct (geom_blk _ _ Hg _ _ _ Hx) as ([? _] & _). pose proof (pow2_pos ox).
    destruct (geom_disj _ _ Hg x p _ _ _ _ ltac:(done) Hx Hp); lia. }
  split.
  - intros x ox kx [[-> ->]|[[-> ->]|(? & ? & Hl & _)]]%Hx; [| |by eapply geom_blk].
    + split_and!; try lia. eapply pow2_divide_le; [|done]. lia.
    + split_and!; try lia. apply Z.divide_add_r; [|done]. eapply pow2_divide_le; [|done]. lia.
  - intros x y o1 k1 o2 k2 Hne Hlx Hly.
    destruct (Hx _ _ _ Hlx) as [[-> ->]|[[-> ->]|(? & ? & Hl1 & ?)]];
      destruct (Hx _ _ _ Hly) as [[-> ->]|[[-> ->]|(? & ? & Hl2 & ?)]]; try lia.
    by eapply geom_disj.
Qed.
End geometry.

(** *** The list operations on the ghost state *)

Definition set_fls (o : Z) (l : list Z) (fls : Z -> list Z) : Z -> list Z :=
  fun k => if decide (k = o) then l else fls k.

(** The fields a list operation does not touch. *)
Definition pg_core (g : page) : Z * Z * Z * Z :=
  (pg_refcount g, pg_order g, pg_flags g, pg_private g).
Definition same_core (m m' : gmap Z page) : Prop :=
  forall x, pg_core <$> m' !! x = pg_core <$> m !! x.

Lemma same_core_trans m1 m2 m3 : same_core m1 m2 -> same_core m2 m3 -> same_core m1 m3.
Proof. intros H1 H2 x. by rewrite H2. Qed.

Lemma same_core_lookup m m' x g' :
  same_core m m' -> m' !! x = Some g' -> exists g, m !! x = Some g /\ pg_core g' = pg_core g.
Proof.
  intros Hc Hx. specialize (Hc x). rewrite Hx in Hc.
  destruct (m !! x) as [g|]; [|done]. simpl in Hc. exists g.
  split; [done|congruence].
Qed.

Lemma core_free g g' : pg_core g' = pg_core g -> PageFree g' = PageFree g.
Proof. unfold pg_core, PageFree. by intros [= _ _ -> _]. Qed.

Lemma core_order g g' : pg_core g' = pg_core g -> pg_order g' = pg_order g.
Proof. unfold pg_core. by intros [= _ -> _ _]. Qed.

Lemma same_core_alter m k f :
  (forall g, pg_core (f g) = pg_core g) -> same_core m (alter f k m).
Proof.
  intros Hf x. rewrite lookup_alter. case_decide; [subst|done].
  destruct (m !! x); simpl; by rewrite ?Hf.
Qed.

Lemma same_core_opt m p f :
  (forall g, pg_core (f g) = pg_core g) -> same_core m (opt_alter p f m).
Proof. intros Hf. destruct p; simpl; [by apply same_core_alter|]. by intros x. Qed.

Lemma same_core_unlink m p n : same_core m (unlink m p n).
Proof. unfold unlink. eapply same_core_trans; by apply same_core_opt. Qed.

Lemma same_core_link m l k g :
  m !! k = Some g -> same_core m (link_front m l k (mk_page (head l) None (pg_refcount g)
    (pg_order g) (pg_flags g) (pg_private g))).
Proof.
  intros Hk. unfold link_front. eapply same_core_trans; [|by apply same_core_opt].
  intros x. rewrite lookup_insert. case_decide; [subst; by rewrite Hk|done].
Qed.

Lemma upd_page_ok s p f g :
  pm_map s !! p = Some g -> upd_page p f s = Ok (tt, pm_set_map (<[p := f g]> (pm_map s)) s).
Proof. intros Hp. unfold upd_page. by rewrite (store_upd_insert _ _ _ _ Hp). Qed.

Lemma upd_page_alter s p f :
  is_Some (pm_map s !! p) -> upd_page p f s = Ok (tt, pm_set_map (alter f p (pm_map s)) s).
Proof. intros Hp. unfold upd_page. by rewrite store_upd_ok. Qed.

Lemma get_page_ok s p g : pm_map s !! p = Some g -> get_page p s = Ok (g, s).
Proof. intros Hp. unfold get_page. by rewrite Hp. Qed.

Lemma get_list_ok s o l : pm_lists s !! o = Some l -> get_list o s = Ok (l, s).
Proof. intros Ho. unfold get_list. by rewrite Ho. Qed.

Lemma upd_list_ok s o f l :
  pm_lists s !! o = Some l ->
  upd_list o f s = Ok (tt, pm_set_lists (<[o := f l]> (pm_lists s)) s).
Proof. intros Ho. unfold upd_list. by rewrite (store_upd_insert _ _ _ _ Ho). Qed.

#[global] Arguments upd_page : simpl never.
#[global] Arguments get_page : simpl never.
#[global] Arguments get_list : simpl never.
#[global] Arguments upd_list : simpl never.

Lemma free_list_push_eq s o p l c g :
  dll (pm_map s) l -> pm_lists s !! o = Some (mk_fl (head l) c) ->
  pm_map s !! p = Some g -> p ∉ l ->
  free_list_push o p s = Ok (tt, mk_pmm
    (link_front (pm_map s) l p (mk_page (head l) None (pg_refcount g) (pg_order g)
      (pg_flags g) (pg_private g)))
    (pm_max s) (<[o := mk_fl (Some p) (u64 (c + 1))]> (pm_lists s)) (pm_free s) (pm_total s)).
Proof.
  intros Hd Ho Hp Hnin. unfold free_list_push.
  eapply st_bind_eq; [by apply upd_page_ok|].
  eapply st_bind_eq; [by apply get_list_ok|]. simpl.
  eapply st_bind_eq; [apply upd_page_ok; simpl; by rewrite lookup_insert_eq|]. simpl.
  rewrite insert_insert_eq. unfold link_front.
  destruct l as [|j l]; simpl.
  - eapply st_bind_eq; [done|]. by rewrite (upd_list_ok _ _ _ (mk_fl None c)).
  - eapply st_bind_eq.
    { apply upd_page_alter. simpl.
      rewrite lookup_insert_ne by (intros ->; apply Hnin; left).
      eapply dll_is_Some; [done|left]. }
    by rewrite (upd_list_ok _ _ _ (mk_fl (Some j) c)).
Qed.

Lemma free_list_remove_eq s o p l i c :
  dll (pm_map s) l -> pm_lists s !! o = Some (mk_fl (head l) c) -> l !! i = Some p ->
  free_list_remove o p s = Ok (tt, mk_pmm
    (alter (fun g => pg_set_prev None (pg_set_next None g)) p
      (unlink (pm_map s) (prev_at l i) (l !! S i)))
    (pm_max s) (<[o := mk_fl (head (delete i l)) (u64 (c - 1))]> (pm_lists s))
    (pm_free s) (pm_total s)).
Proof.
  intros Hd Ho Hi. destruct (proj2 Hd i p Hi) as (g & Hp & Hnx & Hpv).
  change (lnext g) with (pg_next g) in Hnx. change (lprev g) with (pg_prev g) in Hpv.
  unfold free_list_remove. eapply st_bind_eq; [by apply get_page_ok|].
  rewrite Hpv, Hnx. unfold unlink.
  set (hp := opt_alter (prev_at l i) (set_lnext (l !! S i)) (pm_map s)).
  assert (hp !! p = Some g) as Hpp.
  { unfold hp. destruct i as [|i]; simpl; [done|].
    destruct (l !! i) as [q|] eqn:Hq; simpl; [|done]. rewrite lookup_alter_ne; [done|].
    intros ->. pose proof (dll_inj _ _ _ _ _ Hd Hi Hq). lia. }
  eapply (st_bind_eq _ _ _ _ (mk_pmm hp (pm_max s)
    (<[o := mk_fl (head (delete i l)) c]> (pm_lists s)) (pm_free s) (pm_total s))).
  { unfold hp. destruct (prev_at l i) as [q|] eqn:Hq; simpl.
    - rewrite upd_page_alter by (eapply dll_is_Some; [done|by eapply prev_at_elem]).
      unfold pm_set_map. repeat f_equal.
      rewrite insert_id; [done|]. rewrite Ho. destruct i; [done|]. by destruct l.
    - rewrite (upd_list_ok _ _ _ _ Ho). simpl. unfold pm_set_lists. repeat f_equal.
      destruct i as [|i]; [by destruct l as [|? [|]]|]. simpl in Hq.
      apply lookup_ge_None in Hq. apply lookup_lt_Some in Hi. lia. }
  eapply st_bind_eq; [by apply get_page_ok|]. rewrite Hnx, Hpv.
  eapply (st_bind_eq _ _ _ _ (mk_pmm (opt_alter (l !! S i) (set_lprev (prev_at l i)) hp) (pm_max s)
    (<[o := mk_fl (head (delete i l)) c]> (pm_lists s)) (pm_free s) (pm_total s))).
  { destruct (l !! S i) as [q|] eqn:Hq; simpl; [|done].
    rewrite upd_page_alter; [done|]. simpl. unfold hp.
    destruct (prev_at l i); simpl; rewrite ?lookup_alter_is_Some;
      by eapply dll_lookup_is_Some. }
  eapply st_bind_eq.
  { apply upd_page_alter. simpl. destruct (l !! S i); simpl; rewrite ?lookup_alter_is_Some; eauto. }
  erewrite upd_list_ok by (simpl; by rewrite lookup_insert_eq). simpl.
  unfold pm_set_lists. simpl. by rewrite insert_insert_eq.
Qed.

Lemma pmm_same_core_dom m m' x : same_core m m' -> is_Some (m' !! x) <-> is_Some (m !! x).
Proof.
  intros Hc. specialize (Hc x). destruct (m !! x), (m' !! x); simplify_eq/=; try done;
    split; intros [? ?]; naive_solver.
Qed.

(** What the list operations leave alone. *)
Record moved (s s' : pmm) : Prop := {
  mv_core : same_core (pm_map s) (pm_map s');
  mv_max : pm_max s' = pm_max s;
  mv_free : pm_free s' = pm_free s;
  mv_total : pm_total s' = pm_total s;
}.

Section moves.
Context (s : pmm) (fls : Z -> list Z) (blk : blocks) (Hi : inv s fls blk).

Lemma inv_fls_disjoint o o' x :
  0 <= o < MAX_ORDER -> 0 <= o' < MAX_ORDER -> x ∈ fls o -> x ∈ fls o' -> o = o'.
Proof.
  intros Ho Ho' Hx Hx'. apply (inv_fls _ _ _ Hi o x Ho) in Hx.
  apply (inv_fls _ _ _ Hi o' x Ho') in Hx'. congruence.
Qed.

Lemma inv_head o p : 0 <= o < MAX_ORDER ->
  blk !! p = Some (o, Free) -> exists i, fls o !! i = Some p.
Proof.
  intros Ho Hp. apply list_elem_of_lookup. by apply (inv_fls _ _ _ Hi).
Qed.

(** Clauses of the invariant that only depend on the untouched fields. *)
Lemma inv_transport s' fls' blk' :
  moved s s' ->
  geom (pm_max s) blk' ->
  (forall p o k, blk' !! p = Some (o, k) -> k <> Hand ->
    blk !! p = Some (o, k) \/ exists g, pm_map s !! p = Some g /\ pg_order g = o /\
      (k = Free -> PageFree g = true)) ->
  (forall x, loose blk x -> loose blk' x) ->
  (forall o p, 0 <= o < MAX_ORDER -> p ∈ fls' o <-> blk' !! p = Some (o, Free)) ->
  (forall o, 0 <= o < MAX_ORDER -> dll (pm_map s') (fls' o)) ->
  (forall o, 0 <= o < MAX_ORDER ->
    pm_lists s' !! o = Some (mk_fl (head (fls' o)) (u64 (Z.of_nat (length (fls' o)))))) ->
  inv s' fls' blk'.
Proof.
  intros [Hc Hmax _ _] Hg Hb Hl Hf Hd Hls. split; try done; rewrite ?Hmax.
  - by eapply inv_max.
  - done.
  - intros x. rewrite (pmm_same_core_dom _ _ _ Hc). by eapply inv_dom.
  - intros p o k Hp Hk.
    assert (exists g, pm_map s !! p = Some g /\ pg_order g = o) as (g & Hg1 & Hg2).
    { destruct (Hb _ _ _ Hp Hk) as [?|(g & ? & ? & _)]; [by eapply inv_order|eauto]. }
    pose proof (Hc p) as Hcp. rewrite Hg1 in Hcp.
    destruct (pm_map s' !! p) as [g'|]; [|done]. simpl in Hcp. exists g'.
    split; [done|]. rewrite <- Hg2. apply core_order. congruence.
  - intros p o g' Hp Hg'. destruct (same_core_lookup _ _ _ _ Hc Hg') as (g & Hg1 & Hg2).
    rewrite (core_free _ _ Hg2). destruct (Hb _ _ _ Hp) as [?|(g2 & ? & ? & Hfr)]; [done| |].
    + by eapply inv_free.
    + simplify_eq. by apply Hfr.
  - intros x g' Hx Hfr. destruct (same_core_lookup _ _ _ _ Hc Hx) as (g & Hg1 & Hg2).
    rewrite (core_free _ _ Hg2) in Hfr. apply Hl. by eapply inv_cover.
Qed.

Lemma loose_retag p o k k' x :
  blk !! p = Some (o, k) -> k' <> Alloc -> loose blk x -> loose (<[p := (o, k')]> blk) x.
Proof.
  intros Hp Hk (q & oq & kq & Hq & Hkq & Hin). destruct (decide (q = p)) as [->|Hne].
  - rewrite Hp in Hq. injection Hq as -> ->. exists p, oq, k'. by rewrite lookup_insert_eq.
  - exists q, oq, kq. by rewrite lookup_insert_ne.
Qed.

Lemma remove_inv o b :
  blk !! b = Some (o, Free) ->
  exists s' fls', free_list_remove o b s = Ok (tt, s') /\ moved s s' /\
    inv s' fls' (<[b := (o, Hand)]> blk).
Proof.
  intros Hb. destruct (geom_blk _ _ (inv_geom _ _ _ Hi) _ _ _ Hb) as (Ho & _).
  destruct (inv_head _ _ Ho Hb) as [i Hbi].
  pose proof (inv_dll _ _ _ Hi o Ho) as Hd. pose proof (inv_list _ _ _ Hi o Ho) as Hl.
  rewrite (free_list_remove_eq _ _ _ _ _ _ Hd Hl Hbi).
  assert (forall j, j ∈ delete i (fls o) <-> j ∈ fls o /\ j <> b) as Hdel.
  { intros j. by eapply elem_of_delete. }
  eexists _, (set_fls o (delete i (fls o)) fls). split; [done|].
  match goal with |- moved s ?x /\ _ => assert (moved s x) as Hm end.
  { split; try done. simpl. eapply same_core_trans; [apply same_core_unlink|by apply same_core_alter]. }
  split; [done|]. apply inv_transport; try done.
  - eapply geom_retag; [by eapply inv_geom|done].
  - intros p o' k. rewrite lookup_insert. case_decide; [naive_solver|]. by left.
  - intros x. by eapply loose_retag.
  - intros o' p Ho'. unfold set_fls. rewrite lookup_insert. destruct (decide (o' = o)) as [->|Hne].
    + rewrite Hdel, (inv_fls _ _ _ Hi o p Ho). case_decide; naive_solver.
    + rewrite (inv_fls _ _ _ Hi o' p Ho'). case_decide; naive_solver.
  - intros o' Ho'. unfold set_fls. simpl. destruct (decide (o' = o)) as [->|Hne].
    + apply dll_frame_alter; [rewrite Hdel; naive_solver|]. by eapply dll_unlink.
    + eapply dll_frame_eq; [|by apply (inv_dll _ _ _ Hi o' Ho')]. intros k Hk.
      assert (k ∉ fls o) by (intros Hk'; by pose proof (inv_fls_disjoint _ _ _ Ho Ho' Hk' Hk)).
      rewrite lookup_alter_ne; [by apply unlink_ne|]. intros <-.
      apply H, list_elem_of_lookup. eauto.
  - intros o' Ho'. unfold set_fls. simpl. rewrite lookup_insert. destruct (decide (o' = o)) as [->|Hne].
    + rewrite decide_True by done. do 2 f_equal. rewrite u64_sub_l. f_equal.
      rewrite length_delete by eauto. apply lookup_lt_Some in Hbi. lia.
    + rewrite decide_False by done. by apply (inv_list _ _ _ Hi).
Qed.

Lemma push_inv o p g :
  blk !! p = Some (o, Hand) -> pm_map s !! p = Some g -> pg_order g = o -> PageFree g = true ->
  exists s' fls', free_list_push o p s = Ok (tt, s') /\ moved s s' /\
    inv s' fls' (<[p := (o, Free)]> blk).
Proof.
  intros Hp Hg Hor Hfr. destruct (geom_blk _ _ (inv_geom _ _ _ Hi) _ _ _ Hp) as (Ho & _).
  pose proof (inv_dll _ _ _ Hi o Ho) as Hd. pose proof (inv_list _ _ _ Hi o Ho) as Hl.
  assert (forall o', 0 <= o' < MAX_ORDER -> p ∉ fls o') as Hnin.
  { intros o' Ho' Hin. apply (inv_fls _ _ _ Hi o' p Ho') in Hin. congruence. }
  rewrite (free_list_push_eq _ _ _ _ _ _ Hd Hl Hg) by auto.
  eexists _, (set_fls o (p :: fls o) fls). split; [done|].
  match goal with |- moved s ?x /\ _ => assert (moved s x) as Hm end.
  { split; try done. by apply same_core_link. }
  split; [done|]. apply inv_transport; try done.
  - eapply geom_retag; [by eapply inv_geom|done].
  - intros q o' k. rewrite lookup_insert. case_decide; [|by left]. intros. simplify_eq.
    right. eauto.
  - intros x. by eapply loose_retag.
  - intros o' q Ho'. unfold set_fls. rewrite lookup_insert. destruct (decide (o' = o)) as [->|Hne].
    + rewrite elem_of_cons, (inv_fls _ _ _ Hi o q Ho). case_decide; naive_solver.
    + rewrite (inv_fls _ _ _ Hi o' q Ho'). case_decide; naive_solver.
  - intros o' Ho'. unfold set_fls. simpl. destruct (decide (o' = o)) as [->|Hne].
    + by apply dll_link_front; auto.
    + eapply dll_frame_eq; [|by apply (inv_dll _ _ _ Hi o' Ho')]. intros k Hk.
      apply link_front_ne; [|intros ->; by apply (Hnin o')].
      intros Hk'. by pose proof (inv_fls_disjoint _ _ _ Ho Ho' Hk' Hk).
  - intros o' Ho'. unfold set_fls. simpl. rewrite lookup_insert. destruct (decide (o' = o)) as [->|Hne].
    + rewrite decide_True by done. do 2 f_equal. rewrite u64_add_l. f_equal. simpl. lia.
    + rewrite decide_False by done. by apply (inv_list _ _ _ Hi).
Qed.
End moves.

(** *** Updates of page descriptors *)

Definition same_links (g g' : page) : Prop :=
  pg_next g' = pg_next g /\ pg_prev g' = pg_prev g.

(** What an update of the descriptor [x] must respect. *)
Definition good_update (blk : blocks) (x : Z) (g g' : page) : Prop :=
  same_links g g' /\
  (forall o k, blk !! x = Some (o, k) -> k <> Hand -> pg_order g' = pg_order g) /\
  (forall o, blk !! x = Some (o, Free) -> PageFree g' = true) /\
  (PageFree g' = true -> PageFree g = true \/ loose blk x).

Lemma inv_pages s fls blk m' :
  inv s fls blk ->
  (forall x, is_Some (m' !! x) <-> is_Some (pm_map s !! x)) ->
  (forall x g g', pm_map s !! x = Some g -> m' !! x = Some g' -> good_update blk x g g') ->
  inv (pm_set_map m' s) fls blk.
Proof.
  intros Hi Hdom Hup.
  assert (forall x g', m' !! x = Some g' ->
    exists g, pm_map s !! x = Some g /\ good_update blk x g g') as Hback.
  { intros x g' Hx. destruct (proj1 (Hdom x) ltac:(eauto)) as [g Hg]. eauto. }
  assert (forall x g, pm_map s !! x = Some g ->
    exists g', m' !! x = Some g' /\ good_update blk x g g') as Hfwd.
  { intros x g Hx. destruct (proj2 (Hdom x) ltac:(eauto)) as [g' Hg]. eauto. }
  destruct Hi as [Hmax Hg Hf Hd Hl Hdm Ho Hfr Hc]. split; simpl; try done.
  - intros o Hoo. eapply dll_frame; [|by apply Hd]. intros k n _ Hn.
    destruct (Hfwd _ _ Hn) as (n' & ? & [? ?] & _). eauto.
  - intros x. rewrite Hdom. apply Hdm.
  - intros p o k Hp Hk. destruct (Ho _ _ _ Hp Hk) as (g & Hg1 & Hg2).
    destruct (Hfwd _ _ Hg1) as (g' & ? & _ & Hor & _). exists g'. split; [done|].
    rewrite (Hor _ _ Hp Hk). done.
  - intros p o g' Hp Hg'. destruct (Hback _ _ Hg') as (g & ? & _ & _ & Hu & _). eauto.
  - intros x g' Hx Hfree. destruct (Hback _ _ Hx) as (g & Hg1 & _ & _ & _ & Hu).
    destruct (Hu Hfree); eauto.
Qed.

Lemma good_update_refl blk x g : (forall o, blk !! x = Some (o, Free) -> PageFree g = true) ->
  good_update blk x g g.
Proof. intros. split_and!; auto. done. Qed.

(** A frame of a block in hand can be rewritten freely, its links apart. *)
Lemma inv_hand_update s fls blk p o x g g' :
  inv s fls blk -> blk !! p = Some (o, Hand) -> p <= x < p + 2 ^ o ->
  pm_map s !! x = Some g -> same_links g g' ->
  inv (pm_set_map (<[x := g']> (pm_map s)) s) fls blk.
Proof.
  intros Hi Hp Hx Hg Hl. apply inv_pages; [done| |].
  - intros y. rewrite lookup_insert_is_Some'. split; [intros [<-|?]; eauto|auto].
  - intros y h h' Hy. rewrite lookup_insert. case_decide as E; intros; simplify_eq.
    + split_and!; [done| | |by intros; right; exists p, o, Hand].
      * intros o' k Hy' Hk. exfalso.
        assert (y = p) as -> by (eapply geom_key; [by eapply inv_geom|..]; done). congruence.
      * intros o' Hy'. exfalso.
        assert (y = p) as -> by (eapply geom_key; [by eapply inv_geom|..]; done). congruence.
    + apply good_update_refl. intros o' Hy'. by eapply (inv_free _ _ _ Hi).
Qed.

(** *** Merging and splitting the block in hand *)

Lemma inv_blocks s fls blk blk' :
  inv s fls blk -> geom (pm_max s) blk' ->
  (forall p o k, k <> Hand -> blk' !! p = Some (o, k) <-> blk !! p = Some (o, k)) ->
  (forall x, loose blk x -> loose blk' x) ->
  inv s fls blk'.
Proof.
  intros [Hmax Hg Hf Hd Hl Hdm Ho Hfr Hc] Hg' Hb Hlo. split; try done.
  - intros o p Hoo. rewrite Hb by done. by apply Hf.
  - intros p o k Hp Hk. apply Hb in Hp; [|done]. by eapply Ho.
  - intros p o g Hp. apply Hb in Hp; [|done]. by eapply Hfr.
  - intros x g Hx Hfree. by eapply Hlo, Hc.
Qed.

Lemma merge_inv s fls blk p o :
  inv s fls blk -> blk !! p = Some (o, Hand) -> blk !! (p + 2 ^ o) = Some (o, Hand) ->
  (2 ^ (o + 1) | p) -> o + 1 < MAX_ORDER ->
  inv s fls (<[p := (o + 1, Hand)]> (delete (p + 2 ^ o) blk)).
Proof.
  intros Hi Hp Hq Hdiv Ho. destruct (geom_blk _ _ (inv_geom _ _ _ Hi) _ _ _ Hp) as ([? _] & _).
  pose proof (pow2_pos o). pose proof (pow2_succ o).
  apply (inv_blocks _ _ blk); [done|by apply geom_merge; [eapply inv_geom|..]| |].
  - intros x ox k Hk. rewrite lookup_insert. case_decide; [naive_solver|].
    rewrite lookup_delete. case_decide; naive_solver.
  - intros x (q & oq & kq & Hlq & Hkq & Hin).
    destruct (decide (q = p)) as [->|Hqp]; [|destruct (decide (q = p + 2 ^ o)) as [->|Hqb]].
    + exists p, (o + 1), Hand. rewrite lookup_insert_eq. simplify_eq. split_and!; try done; lia.
    + exists p, (o + 1), Hand. rewrite lookup_insert_eq. simplify_eq. split_and!; try done; lia.
    + exists q, oq, kq. by rewrite lookup_insert_ne, lookup_delete_ne.
Qed.

Lemma split_inv s fls blk p o :
  inv s fls blk -> blk !! p = Some (o + 1, Hand) -> 0 <= o ->
  inv s fls (<[p := (o, Hand)]> (<[p + 2 ^ o := (o, Hand)]> blk)) /\ blk !! (p + 2 ^ o) = None.
Proof.
  intros Hi Hp Ho. pose proof (pow2_pos o Ho). pose proof (pow2_succ o Ho).
  destruct (geom_split _ _ (inv_geom _ _ _ Hi) _ _ Hp Ho) as [Hg Hn]. split; [|done].
  apply (inv_blocks _ _ blk); [done|done| |].
  - intros x ox k Hk. rewrite !lookup_insert. repeat case_decide; subst; [| |done];
      rewrite ?Hp, ?Hn; split; intros; simplify_eq.
  - intros x (q & oq & kq & Hlq & Hkq & Hin). destruct (decide (q = p)) as [->|Hqp].
    + simplify_eq. destruct (decide (x < p + 2 ^ o)).
      * exists p, o, Hand. rewrite lookup_insert_eq. split_and!; try done; lia.
      * exists (p + 2 ^ o), o, Hand. rewrite lookup_insert_ne, lookup_insert_eq by lia.
        split_and!; try done; lia.
    + assert (q <> p + 2 ^ o) by naive_solver.
      exists q, oq, kq. by rewrite !lookup_insert_ne.
Qed.

Lemma avail_merge blk p o :
  0 <= o -> blk !! p = Some (o, Hand) -> blk !! (p + 2 ^ o) = Some (o, Hand) ->
  avail (<[p := (o + 1, Hand)]> (delete (p + 2 ^ o) blk)) = avail blk.
Proof.
  intros Ho Hp Hq. pose proof (pow2_succ o Ho). pose proof (pow2_pos o Ho).
  rewrite avail_update with (b := (o, Hand)) by (rewrite lookup_delete_ne by lia; done).
  rewrite (avail_delete blk _ _ Hq). unfold weight. simpl. lia.
Qed.

Lemma avail_split blk p o :
  0 <= o -> blk !! p = Some (o + 1, Hand) -> blk !! (p + 2 ^ o) = None ->
  avail (<[p := (o, Hand)]> (<[p + 2 ^ o := (o, Hand)]> blk)) = avail blk.
Proof.
  intros Ho Hp Hq. pose proof (pow2_succ o Ho). pose proof (pow2_pos o Ho).
  rewrite avail_update with (b := (o + 1, Hand)) by (rewrite lookup_insert_ne by lia; done).
  rewrite avail_insert_new by done. unfold weight. simpl. lia.
Qed.

(** *** Steps that neither allocate nor release

    They keep the allocated blocks, the set of frames that are not allocated,
    and the descriptors of every other frame. No frame that is not allocated
    becomes reserved, poisoned or a slab. *)
Definition unreserved (g : page) : Prop :=
  PageReserved g = false /\ PagePoisoned g = false.
(** A page that the allocator may take back: not a slab of the heap either. *)
Definition plain (g : page) : Prop := unreserved g /\ PageSlab g = false.

Definition clean (s : pmm) (blk : blocks) : Prop :=
  forall x g, loose blk x -> pm_map s !! x = Some g -> plain g.

Lemma core_plain g g' : pg_core g' = pg_core g -> plain g -> plain g'.
Proof. unfold pg_core, plain, unreserved, PageReserved, PagePoisoned, PageSlab. by intros [= _ _ -> _]. Qed.

Lemma moved_clean s s' blk : moved s s' -> clean s blk -> clean s' blk.
Proof.
  intros Hm Hc x g' Hx Hg'. destruct (same_core_lookup _ _ _ _ (mv_core _ _ Hm) Hg') as (g & ? & ?).
  eapply core_plain; [done|]. by eapply Hc.
Qed.

Record step (s : pmm) (blk : blocks) (s' : pmm) (blk' : blocks) : Prop := {
  st_alloc q k : blk' !! q = Some (k, Alloc) <-> blk !! q = Some (k, Alloc);
  st_loose x : loose blk' x <-> loose blk x;
  st_clean : clean s blk -> clean s' blk';
  st_avail : avail blk' = avail blk;
  st_core x : ~ loose blk x -> pg_core <$> pm_map s' !! x = pg_core <$> pm_map s !! x;
  st_max : pm_max s' = pm_max s;
  st_free : pm_free s' = pm_free s;
  st_total : pm_total s' = pm_total s;
}.

Lemma step_trans s1 b1 s2 b2 s3 b3 :
  step s1 b1 s2 b2 -> step s2 b2 s3 b3 -> step s1 b1 s3 b3.
Proof.
  intros [A1 L1 K1 V1 C1 M1 F1 T1] [A2 L2 K2 V2 C2 M2 F2 T2].
  split; try congruence; auto.
  - intros q k. by rewrite A2.
  - intros x. by rewrite L2.
  - intros x Hx. rewrite C2; [by apply C1|]. by rewrite L1.
Qed.

Lemma step_retag s s' blk p o k k' :
  moved s s' -> blk !! p = Some (o, k) -> k <> Alloc -> k' <> Alloc ->
  step s blk s' (<[p := (o, k')]> blk).
Proof.
  intros Hm Hp Hk Hk'. destruct (Hm) as [Hc ? ? ?].
  assert (forall x, loose (<[p := (o, k')]> blk) x <-> loose blk x) as Hlo.
  { intros x. split; [|by eapply loose_retag].
    intros Hl. apply (loose_retag _ p o k' k) in Hl; [|by rewrite lookup_insert_eq|done].
    rewrite insert_insert_eq, insert_id in Hl by done. done. }
  split; try done.
  - intros q kq. rewrite lookup_insert. case_decide; [subst|done]. rewrite Hp. naive_solver.
  - intros Hcl x g. rewrite Hlo. by eapply moved_clean.
  - rewrite (avail_update _ _ _ _ Hp). unfold weight. simpl. rewrite !decide_False by done. lia.
Qed.

Lemma step_merge s blk p o :
  0 <= o -> blk !! p = Some (o, Hand) -> blk !! (p + 2 ^ o) = Some (o, Hand) ->
  step s blk s (<[p := (o + 1, Hand)]> (delete (p + 2 ^ o) blk)).
Proof.
  intros Ho Hp Hq. pose proof (pow2_succ o Ho). pose proof (pow2_pos o Ho).
  assert (forall x, loose (<[p := (o + 1, Hand)]> (delete (p + 2 ^ o) blk)) x <-> loose blk x) as Hlo.
  { intros x. split.
    + intros (q & oq & kq & Hlq & Hkq & Hin). rewrite lookup_insert in Hlq.
      case_decide as E; simplify_eq.
      * destruct (decide (x < q + 2 ^ o)); [exists q, o, Hand|exists (q + 2 ^ o), o, Hand];
          split_and!; try done; lia.
      * apply lookup_delete_Some in Hlq as [? ?]. by exists q, oq, kq.
    + intros (q & oq & kq & Hlq & Hkq & Hin).
      destruct (decide (q = p)) as [->|]; [|destruct (decide (q = p + 2 ^ o)) as [->|]].
      * simplify_eq. exists p, (o + 1), Hand. rewrite lookup_insert_eq. split_and!; try done; lia.
      * simplify_eq. exists p, (o + 1), Hand. rewrite lookup_insert_eq. split_and!; try done; lia.
      * exists q, oq, kq. by rewrite lookup_insert_ne, lookup_delete_ne. }
  split; try done.
  - intros q kq. rewrite lookup_insert. case_decide; [naive_solver|].
    rewrite lookup_delete. case_decide; naive_solver.
  - intros Hcl x g. rewrite Hlo. apply Hcl.
  - by apply avail_merge.
Qed.

Lemma step_split s blk p o :
  0 <= o -> blk !! p = Some (o + 1, Hand) -> blk !! (p + 2 ^ o) = None ->
  step s blk s (<[p := (o, Hand)]> (<[p + 2 ^ o := (o, Hand)]> blk)).
Proof.
  intros Ho Hp Hq. pose proof (pow2_succ o Ho). pose proof (pow2_pos o Ho).
  set (blk' := <[p := (o, Hand)]> (<[p + 2 ^ o := (o, Hand)]> blk)).
  assert (step s blk' s (<[p := (o + 1, Hand)]> (delete (p + 2 ^ o) blk'))) as Hm.
  { apply step_merge; [done| |]; unfold blk'.
    - by rewrite lookup_insert_eq.
    - by rewrite lookup_insert_ne, lookup_insert_eq by lia. }
  assert (<[p := (o + 1, Hand)]> (delete (p + 2 ^ o) blk') = blk) as E.
  { unfold blk'. rewrite delete_insert_ne, delete_insert_id by (done || lia).
    by rewrite insert_insert_eq, insert_id. }
  rewrite E in Hm. destruct Hm as [A L _ V _ _ _ _]. split; try done.
  intros Hcl x g Hx. apply Hcl. by rewrite L.
Qed.

Lemma step_hand_update s blk p o x g g' :
  blk !! p = Some (o, Hand) -> p <= x < p + 2 ^ o -> pm_map s !! x = Some g ->
  (plain g -> plain g') ->
  step s blk (pm_set_map (<[x := g']> (pm_map s)) s) blk.
Proof.
  intros Hp Hx Hg Hu. assert (loose blk x) as Hlx by (by exists p, o, Hand). split; try done.
  - intros Hcl y h Hy. simpl. rewrite lookup_insert. case_decide; [|by apply Hcl].
    intros [= <-]. subst y. apply Hu. by eapply Hcl.
  - intros y Hy. simpl. rewrite lookup_insert_ne; [done|]. by intros ->.
Qed.

Lemma step_refl s blk : step s blk s blk.
Proof. by split. Qed.

(** *** Coalescing *)

Definition only_hand (blk : blocks) (p : Z) : Prop :=
  forall q o, blk !! q = Some (o, Hand) -> q = p.

(** The buddy of the block in hand, if marked free with the same order, is the
    head of a block on the free list of that order: stale marks inside larger
    free blocks are never mistaken for it. *)
Lemma buddy_on_list s fls blk p o b g :
  inv s fls blk -> blk !! p = Some (o, Hand) -> only_hand blk p ->
  b = buddy_pfn p o -> pm_map s !! b = Some g -> PageFree g = true -> pg_order g = o ->
  blk !! b = Some (o, Free).
Proof.
  intros Hi Hp Hone -> Hg Hfr Hor. pose proof (inv_geom _ _ _ Hi) as Hge.
  destruct (geom_blk _ _ Hge _ _ _ Hp) as (Ho & Hp0 & Hdiv & Hmax).
  pose proof (pow2_pos o). pose proof (pow2_succ o).
  destruct (inv_cover _ _ _ Hi _ _ Hg Hfr) as (q & oq & kq & Hq & Hkq & Hin).
  destruct (geom_blk _ _ Hge _ _ _ Hq) as (Hoq & Hq0 & Hdivq & _).
  assert (kq = Free) as ->.
  { destruct kq; [done|done|]. exfalso. pose proof (Hone _ _ Hq). subst q.
    assert (oq = o) as -> by congruence.
    destruct (buddy_cases o p) as [[E _]|(E & _ & _)]; try done; rewrite E in Hin; lia. }
  assert ((2 ^ o | buddy_pfn p o)) as Hdb.
  { destruct (buddy_cases o p) as [[-> _]|(-> & _ & _)]; try done.
    - by apply Z.divide_add_r. - by apply Z.divide_sub_r. }
  destruct (decide (oq <= o)) as [Hle|Hgt].
  - assert (buddy_pfn p o = q) as E.
    { apply (aligned_eq oq); try lia; try done. eapply pow2_divide_le; [|done]. lia. }
    rewrite E in *. destruct (inv_order _ _ _ Hi _ _ _ Hq) as (g2 & ? & ?); [done|].
    congruence.
  - exfalso. assert (q <= p < q + 2 ^ oq) as Hpq.
    { destruct (buddy_cases o p) as [[E Hd]|(E & ? & Hd)]; try done; rewrite E in Hin.
      - destruct (aligned_inside (o + 1) oq p q (p + 2 ^ o)); try lia; done.
      - destruct (aligned_inside (o + 1) oq (p - 2 ^ o) q (p - 2 ^ o)); try lia; done. }
    pose proof (geom_key _ _ Hge _ _ _ _ _ _ Hq Hp Hpq). congruence.
Qed.

(** *** Flags of page descriptors *)

Lemma PageFree_bit g : PageFree g = Z.testbit (pg_flags g) 0.
Proof. by apply has_bits_pow2. Qed.
Lemma PageReserved_bit g : PageReserved g = Z.testbit (pg_flags g) 2.
Proof. by apply has_bits_pow2. Qed.
Lemma PagePoisoned_bit g : PagePoisoned g = Z.testbit (pg_flags g) 5.
Proof. by apply has_bits_pow2. Qed.
Lemma PageSlab_bit g : PageSlab g = Z.testbit (pg_flags g) 6.
Proof. by apply has_bits_pow2. Qed.

Lemma plain_bits g :
  plain g <-> (Z.testbit (pg_flags g) 2 = false /\ Z.testbit (pg_flags g) 5 = false) /\
    Z.testbit (pg_flags g) 6 = false.
Proof. unfold plain, unreserved. by rewrite PageReserved_bit, PagePoisoned_bit, PageSlab_bit. Qed.

Lemma set_bits f g n :
  Z.testbit (pg_flags (SetPageFlag f g)) n = Z.testbit (pg_flags g) n || Z.testbit f n.
Proof. apply Z.lor_spec. Qed.

Lemma clear_bits f g n :
  Z.testbit (pg_flags (ClearPageFlag f g)) n = Z.testbit (pg_flags g) n && Z.testbit (not64 f) n.
Proof. apply Z.land_spec. Qed.

Lemma clear_bit f g n : Z.testbit (pg_flags g) n = false ->
  Z.testbit (pg_flags (ClearPageFlag f g)) n = false.
Proof. intros H. by rewrite clear_bits, H. Qed.

Lemma clear_plain f g : plain g -> plain (ClearPageFlag f g).
Proof. rewrite !plain_bits. intros [[? ?] ?]. by split_and!; apply clear_bit. Qed.

Lemma set_plain f g :
  Z.testbit f 2 = false -> Z.testbit f 5 = false -> Z.testbit f 6 = false -> plain g -> plain (SetPageFlag f g).
Proof.
  rewrite !plain_bits. intros H2 H5 H6 [[G2 G5] G6]. by rewrite !set_bits, H2, H5, H6, G2, G5, G6.
Qed.

Lemma order_plain o g : plain g -> plain (pg_set_order o g).
Proof. done. Qed.

Lemma flags_free g g' : pg_flags g' = pg_flags g -> PageFree g' = PageFree g.
Proof. unfold PageFree. by intros ->. Qed.

Lemma set_free g : PageFree (SetPageFlag PAGE_FREE g) = true.
Proof. rewrite PageFree_bit, set_bits. apply orb_true_r. Qed.

Lemma set_keeps_free f g : PageFree g = true -> PageFree (SetPageFlag f g) = true.
Proof. rewrite !PageFree_bit, set_bits. by intros ->. Qed.

Lemma clear_keeps_free f g :
  Z.testbit (not64 f) 0 = true -> PageFree g = true -> PageFree (ClearPageFlag f g) = true.
Proof. rewrite !PageFree_bit, clear_bits. by intros -> ->. Qed.

Lemma clear_free g : PageFree (ClearPageFlag PAGE_FREE g) = false.
Proof. rewrite PageFree_bit, clear_bits. apply andb_false_r. Qed.

(** *** Page numbers *)

Lemma pfn_to_page_ok s p : p <= pm_max s -> pfn_to_page p s = Ok (Some p, s).
Proof.
  intros. unfold pfn_to_page, gets, pfndb_getptr. simpl.
  destruct (Z.ltb_spec (pm_max s) p); [lia|done].
Qed.

Lemma page_to_pfn_ok s p : 0 <= p <= pm_max s -> page_to_pfn (Some p) s = Ok (p, s).
Proof.
  intros. unfold page_to_pfn, gets, pfndb_getpfn. simpl.
  destruct (Z.ltb_spec p 0), (Z.ltb_spec (pm_max s) p); try lia. done.
Qed.

Lemma inv_page s fls blk p o k :
  inv s fls blk -> blk !! p = Some (o, k) -> exists g, pm_map s !! p = Some g.
Proof.
  intros Hi Hp. destruct (geom_blk _ _ (inv_geom _ _ _ Hi) _ _ _ Hp) as (Ho & ? & _ & ?).
  pose proof (pow2_pos o). apply (inv_dom _ _ _ Hi). lia.
Qed.

(** An update of the descriptor at the head of the block in hand. *)
Lemma hand_upd s fls blk p o x f :
  inv s fls blk -> blk !! p = Some (o, Hand) -> p <= x < p + 2 ^ o ->
  (forall g, same_links g (f g)) -> (forall g, plain g -> plain (f g)) ->
  exists s' g, pm_map s !! x = Some g /\ upd_page x f s = Ok (tt, s') /\
    pm_map s' !! x = Some (f g) /\ inv s' fls blk /\ step s blk s' blk.
Proof.
  intros Hi Hp Hx Hl Hu. destruct (geom_blk _ _ (inv_geom _ _ _ Hi) _ _ _ Hp) as (Ho & ? & _ & ?).
  destruct (proj1 (inv_dom _ _ _ Hi x) ltac:(lia)) as [g Hg].
  exists (pm_set_map (<[x := f g]> (pm_map s)) s), g. split; [done|].
  split; [by apply upd_page_ok|]. split; [by simpl; rewrite lookup_insert_eq|].
  split; [by eapply inv_hand_update|]. by eapply step_hand_update; eauto.
Qed.

Lemma u8_small x : 0 <= x < 2 ^ 8 -> u8 x = x.
Proof. apply Z.mod_small. Qed.

(** Free blocks of [blk'] were free in [blk]. *)
Definition free_from (blk blk' : blocks) : Prop :=
  forall q k, blk' !! q = Some (k, Free) -> blk !! q = Some (k, Free).

(** One turn of the loop: the buddy leaves its list and the two halves become
    the block at the lower address. *)
Lemma coalesce_turn s fls blk p o b :
  inv s fls blk -> blk !! p = Some (o, Hand) -> only_hand blk p ->
  o < MAX_ORDER - 1 -> b = buddy_pfn p o -> blk !! b = Some (o, Free) ->
  let lo := if b <? p then b else p in
  exists s' fls' blk',
    (free_list_remove o b ;; upd_page lo (ClearPageFlag PAGE_LARGE_HEAD) ;;
     upd_page lo (pg_set_order (u8 (o + 1)))) s = Ok (tt, s') /\
    inv s' fls' blk' /\ blk' !! lo = Some (o + 1, Hand) /\ only_hand blk' lo /\
    step s blk s' blk' /\ free_from blk blk' /\ u8 (o + 1) = o + 1.
Proof.
  intros Hi Hp Hone Ho Eb Hb lo.
  destruct (geom_blk _ _ (inv_geom _ _ _ Hi) _ _ _ Hp) as ([Ho0 Ho1] & Hp0 & Hdiv & _).
  pose proof (pow2_pos o Ho0).
  assert (u8 (o + 1) = o + 1) as -> by (apply u8_small; unfold MAX_ORDER in *; lia).
  destruct (remove_inv _ _ _ Hi _ _ Hb) as (s1 & fls1 & Hr & Hmv & Hi1).
  assert (p <> b) as Hpb by (intros ->; congruence).
  set (blk1 := <[b := (o, Hand)]> blk) in *.
  assert (blk1 !! lo = Some (o, Hand) /\ blk1 !! (lo + 2 ^ o) = Some (o, Hand) /\
    (2 ^ (o + 1) | lo)) as (Hlo & Hhi & Hlodiv).
  { assert (blk1 !! p = Some (o, Hand)) by (unfold blk1; by rewrite lookup_insert_ne).
    assert (blk1 !! b = Some (o, Hand)) by (unfold blk1; by rewrite lookup_insert_eq).
    unfold lo. destruct (buddy_cases o p) as [[E Hd]|(E & ? & Hd)]; try done;
      rewrite <- Eb in E; destruct (Z.ltb_spec b p); try lia.
    - by rewrite <- E.
    - split_and!; [done| |by rewrite E]. by replace (b + 2 ^ o) with p by lia. }
  destruct (hand_upd _ _ _ _ _ lo (ClearPageFlag PAGE_LARGE_HEAD) Hi1 Hlo) as
    (s2 & g1 & Hg1 & Hu1 & Hg2 & Hi2 & Hs2); [lia|done|intros ?; apply clear_plain|].
  destruct (hand_upd _ _ _ _ _ lo (pg_set_order (o + 1)) Hi2 Hlo) as
    (s3 & g2 & Hg3 & Hu2 & Hg4 & Hi3 & Hs3); [lia|done|apply order_plain|].
  exists s3, fls1, (<[lo := (o + 1, Hand)]> (delete (lo + 2 ^ o) blk1)). split.
  { eapply st_bind_eq; [done|]. by eapply st_bind_eq. }
  split; [apply merge_inv; auto; lia|]. split; [apply lookup_insert_eq|]. split_and!; [| | |done].
  - intros q k. rewrite lookup_insert. case_decide; [done|].
    rewrite lookup_delete. case_decide as Hhq; [done|]. unfold blk1. rewrite lookup_insert.
    intros Hq. assert (q = p \/ q = b) as Hqq.
    { case_decide; [by right|]. left. by eapply Hone. }
    exfalso. clear Hq Hi Hi1 Hi2 Hi3. unfold lo in *.
    destruct (buddy_cases o p) as [[E Hd]|(E & ? & Hd)]; try done; rewrite <- Eb in E;
      destruct (Z.ltb_spec b p); lia.
  - eapply step_trans; [by eapply (step_retag s s1 blk b o Free Hand)|].
    eapply step_trans; [done|]. eapply step_trans; [done|]. by apply step_merge.
  - intros q k. rewrite lookup_insert. case_decide; [done|]. rewrite lookup_delete.
    case_decide; [done|]. unfold blk1. rewrite lookup_insert. by case_decide.
Qed.

(** Why the loop stops: no free buddy of the same order is left. *)
Definition no_buddy (blk : blocks) (p o : Z) : Prop :=
  o < MAX_ORDER - 1 -> blk !! buddy_pfn p o <> Some (o, Free).

Lemma coalesce_unfold fuel s fls blk p o :
  inv s fls blk -> blk !! p = Some (o, Hand) -> only_hand blk p -> o < MAX_ORDER - 1 ->
  let b := buddy_pfn p o in let lo := if b <? p then b else p in
  coalesce (S fuel) p p o s =
    if decide (blk !! b = Some (o, Free)) then
      ((free_list_remove o b ;; upd_page lo (ClearPageFlag PAGE_LARGE_HEAD) ;;
        upd_page lo (pg_set_order (u8 (o + 1)))) ;;
       coalesce fuel lo lo (u8 (o + 1))) s
    else Ok (p, p, o, s).
Proof.
  intros Hi Hp Hone Ho b lo. pose proof (inv_geom _ _ _ Hi) as Hge.
  destruct (geom_blk _ _ Hge _ _ _ Hp) as (Hor & Hp0 & Hdiv & _). pose proof (pow2_pos o ltac:(lia)).
  assert (0 <= b) as Hb0.
  { destruct (buddy_cases o p) as [[E _]|(E & ? & _)]; try done; fold b in E; rewrite E; lia. }
  simpl. destruct (Z.ltb_spec o (MAX_ORDER - 1)) as [_|]; [simpl|lia]. fold b.
  eapply st_bind_eq; [done|]. cbv beta.
  destruct (Z.ltb_spec (pm_max s) b) as [Hbm|Hbm].
  { rewrite decide_False; [done|]. intros Hbk.
    destruct (geom_blk _ _ Hge _ _ _ Hbk) as (_ & _ & _ & ?). lia. }
  eapply st_bind_eq; [by apply pfn_to_page_ok|]. cbv beta iota.
  destruct (proj1 (inv_dom _ _ _ Hi b) ltac:(lia)) as [g Hg].
  eapply st_bind_eq; [by apply get_page_ok|]. cbv beta iota.
  destruct (PageFree g) eqn:Hfr; simpl.
  2:{ rewrite decide_False; [done|]. intros Hbk.
      rewrite (inv_free _ _ _ Hi _ _ _ Hbk Hg) in Hfr. done. }
  destruct (Z.eqb_spec (pg_order g) o) as [Ho'|Ho']; simpl.
  2:{ rewrite decide_False; [done|]. intros Hbk.
      destruct (inv_order _ _ _ Hi _ _ _ Hbk) as (? & ? & ?); [done|]. congruence. }
  rewrite decide_True by (by eapply buddy_on_list).
  rewrite then_assoc. apply bind_ext; [done|]. intros [] s'. cbv beta. by rewrite then_assoc.
Qed.

Lemma coalesce_ok fuel : forall s fls blk p o,
  inv s fls blk -> blk !! p = Some (o, Hand) -> only_hand blk p ->
  MAX_ORDER - 1 - o <= Z.of_nat fuel ->
  exists s' fls' blk' p' o', coalesce fuel p p o s = Ok (p', p', o', s') /\
    inv s' fls' blk' /\ blk' !! p' = Some (o', Hand) /\ only_hand blk' p' /\
    step s blk s' blk' /\ free_from blk blk' /\ no_buddy blk' p' o'.
Proof.
  induction fuel as [|fuel IH]; intros s fls blk p o Hi Hp Hone Hfuel;
    (destruct (decide (o < MAX_ORDER - 1)) as [Ho|Ho];
     [|exists s, fls, blk, p, o; split_and!;
       [simpl; by destruct (Z.ltb_spec o (MAX_ORDER - 1))|done|done|done|apply step_refl|by intros ?|by intros ?]]).
  { lia. }
  rewrite (coalesce_unfold _ _ _ _ _ _ Hi Hp Hone Ho). case_decide as Hb.
  - destruct (coalesce_turn _ _ _ _ _ _ Hi Hp Hone Ho eq_refl Hb) as
      (s1 & fls1 & blk1 & Hrun & Hi1 & Hp1 & Hone1 & Hs1 & Hf1 & Eo).
    destruct (IH _ _ _ _ _ Hi1 Hp1 Hone1 ltac:(lia)) as
      (s2 & fls2 & blk2 & p2 & o2 & Hc & Hi2 & Hp2 & Hone2 & Hs2 & Hf2 & Hnb).
    exists s2, fls2, blk2, p2, o2. split; [|split_and!; try done].
    + eapply st_bind_eq; [exact Hrun|]. cbv beta. by rewrite Eo.
    + by eapply step_trans.
    + intros q k Hq. by apply Hf1, Hf2.
  - exists s, fls, blk, p, o. do 4 (split; [done|]). split; [apply step_refl|].
    split; [by intros ? ?|by intros _].
Qed.

(** *** Releasing a block *)

Definition no_hand (blk : blocks) : Prop := forall q o, blk !! q <> Some (o, Hand).

(** Eager coalescing: no two free buddies of an order below the largest. *)
Definition coalesced (blk : blocks) : Prop := forall q o,
  o < MAX_ORDER - 1 -> (2 ^ (o + 1) | q) ->
  blk !! q = Some (o, Free) -> blk !! (q + 2 ^ o) = Some (o, Free) -> False.

Lemma half_not_aligned o q : 0 <= o -> (2 ^ (o + 1) | q) -> (2 ^ (o + 1) | q + 2 ^ o) -> False.
Proof.
  intros Ho [a Ha] [b Hb]. rewrite pow2_succ in * by done. pose proof (pow2_pos o Ho).
  assert (2 ^ o * (2 * (b - a)) = 2 ^ o * 1) as E by lia.
  apply Z.mul_cancel_l in E; lia.
Qed.

Lemma buddy_pair o q : 0 <= o < MAX_ORDER -> 0 <= q -> (2 ^ (o + 1) | q) ->
  buddy_pfn q o = q + 2 ^ o /\ buddy_pfn (q + 2 ^ o) o = q.
Proof.
  intros Ho Hq Hd. pose proof (pow2_pos o ltac:(lia)).
  assert ((2 ^ o | q)) by (eapply pow2_divide_le; [|done]; lia).
  split.
  - destruct (buddy_cases o q) as [[E _]|(E & _ & Hd')]; try done.
    exfalso. apply (half_not_aligned o (q - 2 ^ o)); [lia|done|].
    by replace (q - 2 ^ o + 2 ^ o) with q by lia.
  - assert ((2 ^ o | q + 2 ^ o)) as Hd2 by (by apply Z.divide_add_r).
    destruct (buddy_cases o (q + 2 ^ o) Ho ltac:(lia) Hd2) as [[E Hd']|(E & _)]; [|lia].
    exfalso. by eapply (half_not_aligned o q); [lia|..].
Qed.

Lemma coalesced_free max blk blk' p o :
  geom max blk' -> coalesced blk -> free_from blk blk' -> blk' !! p = Some (o, Hand) ->
  no_buddy blk' p o -> coalesced (<[p := (o, Free)]> blk').
Proof.
  intros Hge Hc Hf Hp Hnb q k Hk Hd Hq1 Hq2. rewrite !lookup_insert in *.
  assert (forall x kx, blk' !! x = Some (kx, Free) -> 0 <= kx < MAX_ORDER /\ 0 <= x) as Hpos.
  { intros x kx Hx. destruct (geom_blk _ _ Hge _ _ _ Hx) as (? & ? & _). done. }
  destruct (geom_blk _ _ Hge _ _ _ Hp) as (Ho & Hp0 & _). pose proof (pow2_pos o).
  repeat case_decide; simplify_eq.
  - lia.
  - destruct (Hpos _ _ Hq1) as [? ?]. destruct (buddy_pair k q) as [_ E]; [lia|lia|done|].
    apply Hnb; [done|]. by rewrite E.
  - destruct (buddy_pair k q) as [E _]; [lia|lia|done|]. apply Hnb; [done|]. by rewrite E.
  - eapply Hc; eauto.
Qed.

Lemma retag_no_hand blk p o k : only_hand blk p -> k <> Hand -> no_hand (<[p := (o, k)]> blk).
Proof.
  intros Hone Hk q oq. rewrite lookup_insert. case_decide; [congruence|]. intros Hq.
  by apply Hone in Hq.
Qed.

Lemma free_block_ok s fls blk p o g :
  inv s fls blk -> blk !! p = Some (o, Hand) -> only_hand blk p ->
  pm_map s !! p = Some g -> pg_order g = o ->
  exists s' fls' blk', free_block p s = Ok (tt, s') /\ inv s' fls' blk' /\ no_hand blk' /\
    step s blk s' blk' /\ (coalesced blk -> coalesced blk').
Proof.
  intros Hi Hp Hone Hg Hor. destruct (geom_blk _ _ (inv_geom _ _ _ Hi) _ _ _ Hp) as (Ho & Hp0 & _ & Hpm).
  pose proof (pow2_pos o ltac:(lia)).
  destruct (coalesce_ok (Z.to_nat MAX_ORDER) _ _ _ _ _ Hi Hp Hone) as
    (s1 & fls1 & blk1 & p1 & o1 & Hc & Hi1 & Hp1 & Hone1 & Hs1 & Hf1 & Hnb).
  { unfold MAX_ORDER in *. lia. }
  destruct (geom_blk _ _ (inv_geom _ _ _ Hi1) _ _ _ Hp1) as (Ho1 & _ & _ & _).
  pose proof (pow2_pos o1 ltac:(lia)).
  destruct (hand_upd _ _ _ _ _ p1 (SetPageFlag PAGE_FREE) Hi1 Hp1) as
    (s2 & g1 & Hg1 & Hu2 & Hg2 & Hi2 & Hs2); [lia|done|intros ?; by apply set_plain|].
  destruct (hand_upd _ _ _ _ _ p1
    (ClearPageFlag (Z.lor (Z.lor PAGE_USED PAGE_LARGE_HEAD) PAGE_LARGE_BODY)) Hi2 Hp1) as
    (s3 & g2 & Hg2' & Hu3 & Hg3 & Hi3 & Hs3); [lia|done|intros ?; apply clear_plain|].
  destruct (hand_upd _ _ _ _ _ p1 (pg_set_order o1) Hi3 Hp1) as
    (s4 & g3 & Hg3' & Hu4 & Hg4 & Hi4 & Hs4); [lia|done|apply order_plain|].
  assert (PageFree (pg_set_order o1 g3) = true) as Hfree.
  { simplify_eq. rewrite (flags_free (ClearPageFlag
      (Z.lor (Z.lor PAGE_USED PAGE_LARGE_HEAD) PAGE_LARGE_BODY) (SetPageFlag PAGE_FREE g1))) by done.
    by apply clear_keeps_free, set_free. }
  assert (exists s5 g5, (if 0 <? o1 then upd_page p1 (SetPageFlag PAGE_LARGE_HEAD) else mret tt) s4
    = Ok (tt, s5) /\ pm_map s5 !! p1 = Some g5 /\ pg_order g5 = o1 /\ PageFree g5 = true /\
    inv s5 fls1 blk1 /\ step s4 blk1 s5 blk1) as (s5 & g5 & Hu5 & Hg5 & Hor5 & Hfr5 & Hi5 & Hs5).
  { destruct (0 <? o1).
    - destruct (hand_upd _ _ _ _ _ p1 (SetPageFlag PAGE_LARGE_HEAD) Hi4 Hp1) as
        (s5 & g4 & Hg4' & Hu5 & Hg5 & Hi5 & Hs5); [lia|done|intros ?; by apply set_plain|].
      exists s5, (SetPageFlag PAGE_LARGE_HEAD g4). simplify_eq. split_and!; try done.
      by apply set_keeps_free.
    - exists s4, (pg_set_order o1 g3). split_and!; try done. }
  destruct (push_inv _ _ _ Hi5 _ _ _ Hp1 Hg5 Hor5 Hfr5) as (s6 & fls6 & Hu6 & Hm6 & Hi6).
  exists s6, fls6, (<[p1 := (o1, Free)]> blk1). split.
  { unfold free_block. eapply st_bind_eq; [apply page_to_pfn_ok; lia|].
    eapply st_bind_eq; [by apply get_page_ok|]. rewrite Hor.
    eapply st_bind_eq; [done|]. cbv beta iota zeta.
    do 4 (eapply st_bind_eq; [done|]). done. }
  split; [done|]. split; [by apply retag_no_hand|]. split.
  - do 5 (eapply step_trans; [done|]). by eapply step_retag.
  - intros Hco. eapply coalesced_free; try done. by eapply inv_geom.
Qed.

(** *** The loop over the body pages *)

Lemma hand_upd_at s fls blk p o x f s' :
  inv s fls blk -> blk !! p = Some (o, Hand) -> p <= x < p + 2 ^ o ->
  upd_page x f s = Ok (tt, s') ->
  forall y, pm_map s' !! y = if decide (y = x) then f <$> pm_map s !! y else pm_map s !! y.
Proof.
  intros Hi Hp Hx. destruct (geom_blk _ _ (inv_geom _ _ _ Hi) _ _ _ Hp) as (Ho & ? & _ & ?).
  destruct (proj1 (inv_dom _ _ _ Hi x) ltac:(lia)) as [g Hg].
  rewrite (upd_page_ok _ _ _ _ Hg). intros [= <-] y. simpl. rewrite lookup_insert.
  repeat case_decide; subst; try done. by rewrite Hg.
Qed.

Lemma body_loop_ok n f : forall i s fls blk p o,
  inv s fls blk -> blk !! p = Some (o, Hand) -> 0 <= i -> i + Z.of_nat n <= 2 ^ o ->
  (forall g, same_links g (f g)) -> (forall g, plain g -> plain (f g)) ->
  exists s', body_loop n i p f s = Ok (tt, s') /\ inv s' fls blk /\ step s blk s' blk /\
    forall y, pm_map s' !! y =
      if decide (p + i <= y < p + i + Z.of_nat n) then f <$> pm_map s !! y else pm_map s !! y.
Proof.
  induction n as [|n IH]; intros i s fls blk p o Hi Hp Hi0 Hn Hl Hu.
  { exists s. split; [done|]. split; [done|]. split; [apply step_refl|].
    intros y. rewrite decide_False by lia. done. }
  destruct (geom_blk _ _ (inv_geom _ _ _ Hi) _ _ _ Hp) as (Ho & Hp0 & _ & Hpm).
  pose proof (inv_max _ _ _ Hi).
  destruct (hand_upd _ _ _ _ _ (p + i) f Hi Hp) as
    (s1 & g & Hg & Hu1 & _ & Hi1 & Hs1); [lia|done|done|].
  destruct (IH (i + 1) _ _ _ _ _ Hi1 Hp) as (s2 & Hr & Hi2 & Hs2 & Hat); [lia|lia|done|done|].
  exists s2. split; [|split; [done|split; [by eapply step_trans|]]].
  - simpl. eapply st_bind_eq; [apply page_to_pfn_ok; lia|].
    rewrite u64_small by lia.
    eapply st_bind_eq; [apply pfn_to_page_ok; lia|]. cbv beta iota.
    by eapply st_bind_eq.
  - intros y. rewrite Hat, (hand_upd_at _ _ _ _ _ (p + i) _ _ Hi Hp ltac:(lia) Hu1).
    repeat case_decide; try lia; done.
Qed.

(** *** Allocated blocks *)

(** The block in hand becomes an allocated block once none of its frames is
    marked free. *)
Lemma hand_alloc s fls blk p o g :
  inv s fls blk -> blk !! p = Some (o, Hand) -> pm_map s !! p = Some g -> pg_order g = o ->
  (forall x h, p <= x < p + 2 ^ o -> pm_map s !! x = Some h -> PageFree h = false) ->
  inv s fls (<[p := (o, Alloc)]> blk).
Proof.
  intros Hi Hp Hg Hor Hnf. split; try apply Hi.
  - eapply geom_retag; [by eapply inv_geom|done].
  - intros o' q Ho'. rewrite (inv_fls _ _ _ Hi o' q Ho'), lookup_insert.
    case_decide; [subst; rewrite Hp; naive_solver|done].
  - intros q o' k. rewrite lookup_insert. case_decide; [naive_solver|]. by apply (inv_order _ _ _ Hi).
  - intros q o' h. rewrite lookup_insert. case_decide; [done|]. by apply (inv_free _ _ _ Hi).
  - intros x h Hx Hfr. destruct (inv_cover _ _ _ Hi _ _ Hx Hfr) as (q & oq & kq & Hq & Hkq & Hin).
    destruct (decide (q = p)) as [->|Hne].
    + rewrite Hp in Hq. simplify_eq. by rewrite (Hnf _ _ Hin Hx) in Hfr.
    + exists q, oq, kq. by rewrite lookup_insert_ne.
Qed.

(** An allocated block is taken in hand to be released. *)
Lemma alloc_hand s fls blk p o :
  inv s fls blk -> blk !! p = Some (o, Alloc) -> inv s fls (<[p := (o, Hand)]> blk).
Proof.
  intros Hi Hp. split; try apply Hi.
  - eapply geom_retag; [by eapply inv_geom|done].
  - intros o' q Ho'. rewrite (inv_fls _ _ _ Hi o' q Ho'), lookup_insert.
    case_decide; [subst; rewrite Hp; naive_solver|done].
  - intros q o' k. rewrite lookup_insert. case_decide; [naive_solver|]. by apply (inv_order _ _ _ Hi).
  - intros q o' h. rewrite lookup_insert. case_decide; [done|]. by apply (inv_free _ _ _ Hi).
  - intros x h Hx Hfr. destruct (inv_cover _ _ _ Hi _ _ Hx Hfr) as (q & oq & kq & Hq & Hkq & Hin).
    exists q, oq, kq. rewrite lookup_insert_ne by congruence. done.
Qed.

(** *** Splitting a block *)

Lemma coalesced_split max blk p o :
  geom max blk -> coalesced blk -> 0 <= o -> blk !! p = Some (o + 1, Hand) ->
  coalesced (<[p + 2 ^ o := (o, Free)]> (<[p := (o, Hand)]> (<[p + 2 ^ o := (o, Hand)]> blk))).
Proof.
  intros Hge Hc Ho Hp q k Hk Hd Hq1 Hq2. pose proof (pow2_pos o Ho).
  destruct (geom_blk _ _ Hge _ _ _ Hp) as (Ho1 & Hp0 & Hdiv & _).
  assert (forall x kx, <[p + 2 ^ o := (o, Free)]>
      (<[p := (o, Hand)]> (<[p + 2 ^ o := (o, Hand)]> blk)) !! x = Some (kx, Free) ->
    (x = p + 2 ^ o /\ kx = o) \/ blk !! x = Some (kx, Free)) as Hx.
  { intros x kx. rewrite !lookup_insert. repeat case_decide; try done; [|by right].
    intros [= ->]. by left. }
  destruct (Hx _ _ Hq1) as [[-> ->]|Hb1]; [by eapply (half_not_aligned o p)|].
  destruct (Hx _ _ Hq2) as [[E ->]|Hb2]; [|by eapply Hc].
  assert (q = p) as -> by lia. congruence.
Qed.

Lemma split_loop_ok fuel : forall o order s fls blk p,
  inv s fls blk -> blk !! p = Some (o, Hand) -> only_hand blk p ->
  0 <= order <= o -> o - order <= Z.of_nat fuel ->
  exists s' fls' blk', split_loop fuel o order p s = Ok (tt, s') /\ inv s' fls' blk' /\
    blk' !! p = Some (order, Hand) /\ only_hand blk' p /\ step s blk s' blk' /\
    (coalesced blk -> coalesced blk').
Proof.
  induction fuel as [|fuel IH]; intros o order s fls blk p Hi Hp Hone Hord Hfuel;
    (destruct (decide (order < o)) as [Hlt|Hge];
     [|assert (o = order) as -> by lia; exists s, fls, blk;
       split; [simpl; destruct (Z.ltb_spec order order); [lia|done]|
       split; [done|split; [done|split; [done|split; [apply step_refl|done]]]]]]).
  { lia. }
  destruct (geom_blk _ _ (inv_geom _ _ _ Hi) _ _ _ Hp) as (Ho & Hp0 & _ & Hpm).
  pose proof (inv_max _ _ _ Hi). assert (exists k, o = k + 1) as [k ->] by (exists (o - 1); lia).
  assert (0 <= k) as Hk by lia. pose proof (pow2_pos k Hk). pose proof (pow2_succ k Hk).
  destruct (split_inv _ _ _ _ _ Hi Hp Hk) as [Hi1 Hnone].
  set (blk1 := <[p := (k, Hand)]> (<[p + 2 ^ k := (k, Hand)]> blk)) in *.
  assert (blk1 !! (p + 2 ^ k) = Some (k, Hand)) as Hb1.
  { unfold blk1. by rewrite lookup_insert_ne, lookup_insert_eq by lia. }
  destruct (hand_upd _ _ _ _ _ (p + 2 ^ k) (pg_set_order k) Hi1 Hb1) as
    (s2 & g1 & Hg1 & Hu2 & Hg2 & Hi2 & Hs2); [lia|done|apply order_plain|].
  destruct (hand_upd _ _ _ _ _ (p + 2 ^ k) (pg_set_flags (Z.lor PAGE_FREE PAGE_LARGE_HEAD)) Hi2 Hb1) as
    (s3 & g2 & Hg2' & Hu3 & Hg3 & Hi3 & Hs3); [lia|done|done|].
  destruct (push_inv _ _ _ Hi3 _ _ _ Hb1 Hg3) as (s4 & fls4 & Hu4 & Hm4 & Hi4); [by simplify_eq|done|].
  destruct (IH k order _ _ _ p Hi4) as (s5 & fls5 & blk5 & Hr & Hi5 & Hp5 & Hone5 & Hs5 & Hc5).
  { rewrite lookup_insert_ne by lia. unfold blk1. by rewrite lookup_insert_eq. }
  { intros q oq. rewrite lookup_insert. case_decide; [done|]. unfold blk1.
    rewrite lookup_insert. case_decide; [done|]. rewrite lookup_insert_ne by done. apply Hone. }
  { lia. }
  { lia. }
  exists s5, fls5, blk5. split; [|split; [done|split; [done|split; [done|split]]]].
  - simpl. destruct (Z.ltb_spec order (k + 1)); [simpl|lia].
    replace (k + 1 - 1) with k by lia.
    eapply st_bind_eq; [apply page_to_pfn_ok; lia|].
    rewrite Z.shiftl_1_l, u64_small by lia.
    eapply st_bind_eq; [apply pfn_to_page_ok; lia|]. cbv beta iota.
    do 3 (eapply st_bind_eq; [done|]). done.
  - eapply (step_trans s blk s blk1); [by apply step_split|]. do 2 (eapply step_trans; [done|]).
    eapply (step_trans s3 blk1 s4 (<[p + 2 ^ k := (k, Free)]> blk1)); [by eapply step_retag|done].
  - intros Hc. apply Hc5. eapply coalesced_split; try done. by eapply inv_geom.
Qed.

(** *** The allocator between two calls *)

Record pmm_ok (s : pmm) (blk : blocks) : Prop := {
  ok_inv : exists fls, inv s fls blk;
  ok_no_hand : no_hand blk;
  ok_clean : clean s blk;
  ok_coalesced : coalesced blk;
  ok_free : pm_free s = u64 (avail blk);
}.

Lemma inv_set_free s fls blk x : inv s fls blk -> inv (pm_set_free x s) fls blk.
Proof. intros Hi. split; apply Hi. Qed.

Lemma coalesced_alloc blk p o : coalesced blk -> coalesced (<[p := (o, Alloc)]> blk).
Proof.
  intros Hc q k Hk Hd Hq1 Hq2. rewrite !lookup_insert in *. repeat case_decide; try done.
  by eapply Hc.
Qed.

Lemma loose_alloc blk p o x : loose (<[p := (o, Alloc)]> blk) x -> loose blk x.
Proof.
  intros (q & k & kd & Hq & ? & ?). rewrite lookup_insert in Hq. case_decide; [by simplify_eq|].
  by exists q, k, kd.
Qed.

Lemma no_hand_only blk p o : no_hand blk -> only_hand (<[p := (o, Hand)]> blk) p.
Proof.
  intros Hn q k. rewrite lookup_insert. case_decide; [done|]. intros Hq. by apply Hn in Hq.
Qed.

(** What the descriptors of an allocated block hold. *)
Definition frame_alloc (order : Z) (g : page) : Prop :=
  pg_refcount g = 1 /\ pg_order g = order /\ PageUsed g = true /\ PageFree g = false /\
  plain g.

Lemma PageUsed_bit g : PageUsed g = Z.testbit (pg_flags g) 1.
Proof. by apply has_bits_pow2. Qed.

Lemma alloc_mark_ok s fls blk p order :
  inv s fls blk -> blk !! p = Some (order, Hand) -> clean s blk ->
  exists s', alloc_mark order p s = Ok (tt, s') /\ inv s' fls blk /\ step s blk s' blk /\
    forall x, p <= x < p + 2 ^ order -> exists g, pm_map s' !! x = Some g /\ frame_alloc order g.
Proof.
  intros Hi Hp Hcl. destruct (geom_blk _ _ (inv_geom _ _ _ Hi) _ _ _ Hp) as (Ho & Hp0 & _ & Hpm).
  pose proof (pow2_pos order ltac:(lia)) as Hpow.
  destruct (hand_upd _ _ _ _ _ p (pg_set_order order) Hi Hp) as
    (s1 & g0 & Hg0 & Hu1 & Hg1 & Hi1 & Hs1); [lia|done|apply order_plain|].
  destruct (hand_upd _ _ _ _ _ p (SetPageFlag PAGE_USED) Hi1 Hp) as
    (s2 & g1 & Hg1' & Hu2 & Hg2 & Hi2 & Hs2); [lia|done|intros ?; by apply set_plain|].
  destruct (hand_upd _ _ _ _ _ p (ClearPageFlag PAGE_FREE) Hi2 Hp) as
    (s3 & g2 & Hg2' & Hu3 & Hg3 & Hi3 & Hs3); [lia|done|intros ?; apply clear_plain|].
  simplify_eq.
  set (h := ClearPageFlag PAGE_FREE (SetPageFlag PAGE_USED (pg_set_order order g0))) in *.
  assert (PageUsed h = true /\ PageFree h = false) as [Hhu Hhf].
  { unfold h. rewrite PageUsed_bit, clear_bits, set_bits, clear_free. split; [|done].
    by rewrite orb_true_r. }
  assert (exists s4 h', (if 0 <? order then
     upd_page p (SetPageFlag PAGE_LARGE_HEAD) ;;
     body_loop (Z.to_nat (u64 (Z.shiftl 1 order) - 1)) 1 p (alloc_body order)
     else mret tt) s3 = Ok (tt, s4) /\ inv s4 fls blk /\ step s3 blk s4 blk /\
     pm_map s4 !! p = Some h' /\ PageUsed h' = true /\ PageFree h' = false /\ pg_order h' = order /\
     forall x, p < x < p + 2 ^ order -> exists g, pm_map s4 !! x = Some (alloc_body order g))
    as (s4 & h' & Hu4 & Hi4 & Hs4 & Hp4 & Hus4 & Hfr4 & Hor4 & Hbody).
  { destruct (Z.ltb_spec 0 order) as [Hpos|Hz].
    - destruct (hand_upd _ _ _ _ _ p (SetPageFlag PAGE_LARGE_HEAD) Hi3 Hp) as
        (s4 & g3 & Hg3' & Hu4 & Hg4 & Hi4 & Hs4); [lia|done|intros ?; by apply set_plain|].
      rewrite u64_shiftl1 by (unfold MAX_ORDER in *; lia).
      destruct (body_loop_ok (Z.to_nat (2 ^ order - 1)) (alloc_body order) 1 _ _ _ _ _ Hi4 Hp) as
        (s5 & Hu5 & Hi5 & Hs5 & Hat); [lia|lia|done|done|].
      exists s5, (SetPageFlag PAGE_LARGE_HEAD h). rewrite Hat, decide_False by lia.
      split; [by eapply st_bind_eq|]. split; [done|]. split; [by eapply step_trans|].
      simplify_eq. split; [done|]. rewrite PageUsed_bit, PageFree_bit, !set_bits.
      rewrite <- PageUsed_bit, <- PageFree_bit, Hhu, Hhf. split_and!; try done.
      intros x Hx. rewrite Hat, decide_True by lia.
      destruct (proj1 (inv_dom _ _ _ Hi4 x)) as [g Hg]; [|rewrite Hg; by exists g].
      rewrite (st_max _ _ _ _ Hs4), (st_max _ _ _ _ Hs3), (st_max _ _ _ _ Hs2),
        (st_max _ _ _ _ Hs1). lia.
    - assert (order = 0) as -> by lia. exists s3, h. do 7 (split; [done || apply step_refl|]).
      intros x Hx. change (2 ^ 0) with 1 in Hx. lia. }
  destruct (hand_upd _ _ _ _ _ p (pg_set_refcount 1) Hi4 Hp) as
    (s5 & g4 & Hg4 & Hu5 & Hg5 & Hi5 & Hs5); [lia|done|done|].
  assert (step s blk s5 blk) as Hst.
  { do 4 (eapply step_trans; [done|]). done. }
  exists s5. split; [|split; [done|split; [done|]]].
  { unfold alloc_mark. do 4 (eapply st_bind_eq; [done|]). done. }
  intros x Hx.
  assert (exists g, pm_map s5 !! x = Some g /\ pg_refcount g = 1 /\ pg_order g = order /\
    PageUsed g = true /\ PageFree g = false) as (g & Hg & ? & ? & ? & ?).
  { assert (g4 = h') as -> by congruence. destruct (decide (x = p)) as [->|Hne]; [by eexists|].
    destruct (Hbody x ltac:(lia)) as [g Hg]. exists (alloc_body order g).
    rewrite (hand_upd_at _ _ _ _ _ p _ _ Hi4 Hp ltac:(lia) Hu5), decide_False by done.
    by split_and!. }
  exists g. split; [done|]. split_and!; try done; eapply (st_clean _ _ _ _ Hst); try done;
    by exists p, order, Hand.
Qed.

(** A successful allocation: the block handed out was made of frames that no
    one held; everything else that was allocated stays so. *)
Record allocated (s : pmm) (blk : blocks) (order p : Z) (s' : pmm) (blk' : blocks) : Prop := {
  al_ok : pmm_ok s' blk';
  al_block : blk' !! p = Some (order, Alloc);
  al_fresh x : p <= x < p + 2 ^ order -> loose blk x;
  al_others q k : q <> p -> blk' !! q = Some (k, Alloc) <-> blk !! q = Some (k, Alloc);
  al_loose x : loose blk' x <-> loose blk x /\ ~ p <= x < p + 2 ^ order;
  al_frames x : p <= x < p + 2 ^ order ->
    exists g, pm_map s' !! x = Some g /\ frame_alloc order g;
  al_core x : ~ loose blk x -> pg_core <$> pm_map s' !! x = pg_core <$> pm_map s !! x;
  al_free : pm_free s' = u64 (pm_free s - 2 ^ order);
  al_max : pm_max s' = pm_max s;
  al_total : pm_total s' = pm_total s;
}.

Lemma loose_alloc_iff max blk p o x :
  geom max blk -> blk !! p = Some (o, Hand) ->
  loose (<[p := (o, Alloc)]> blk) x <-> loose blk x /\ ~ p <= x < p + 2 ^ o.
Proof.
  intros Hge Hp. split.
  - intros Hl. split; [by eapply loose_alloc|]. intros Hin.
    destruct Hl as (q & k & kd & Hq & Hkd & Hx). rewrite lookup_insert in Hq.
    case_decide as E; [by simplify_eq|].
    destruct (geom_disj _ _ Hge _ _ _ _ _ _ E Hp Hq); lia.
  - intros [(q & k & kd & Hq & Hkd & Hx) Hn]. exists q, k, kd.
    rewrite lookup_insert_ne; [done|]. intros ->. by simplify_eq.
Qed.

Lemma alloc_from_ok s blk p o order :
  pmm_ok s blk -> blk !! p = Some (o, Free) -> 0 <= order <= o ->
  exists s' blk', alloc_from o order p s = Ok (tt, s') /\ allocated s blk order p s' blk'.
Proof.
  intros [[fls Hi] Hnh Hcl Hco Hfree] Hp Hord.
  destruct (geom_blk _ _ (inv_geom _ _ _ Hi) _ _ _ Hp) as (Ho & Hp0 & _ & Hpm).
  destruct (remove_inv _ _ _ Hi _ _ Hp) as (s1 & fls1 & Hr & Hm1 & Hi1).
  set (blk1 := <[p := (o, Hand)]> blk) in *.
  assert (blk1 !! p = Some (o, Hand)) as Hp1 by apply lookup_insert_eq.
  destruct (split_loop_ok (Z.to_nat MAX_ORDER) o order _ _ _ _ Hi1 Hp1) as
    (s2 & fls2 & blk2 & Hsp & Hi2 & Hp2 & Hone2 & Hs2 & Hc2);
    [by apply no_hand_only|done|unfold MAX_ORDER in *; lia|].
  assert (step s blk s1 blk1) as Hs1 by (by eapply step_retag).
  assert (step s blk s2 blk2) as Hs02 by (by eapply step_trans).
  destruct (alloc_mark_ok _ _ _ _ _ Hi2 Hp2) as (s3 & Hmk & Hi3 & Hs3 & Hfr).
  { by apply (st_clean _ _ _ _ Hs02). }
  assert (step s blk s3 blk2) as Hst by (by eapply step_trans).
  pose proof (inv_geom _ _ _ Hi3) as Hge. pose proof (pow2_pos order ltac:(lia)).
  exists (pm_set_free (u64 (pm_free s3 - 2 ^ order)) s3), (<[p := (order, Alloc)]> blk2). split.
  { unfold alloc_from. eapply st_bind_eq; [done|]. eapply st_bind_eq; [done|].
    eapply st_bind_eq; [done|]. by rewrite u64_shiftl1 by (unfold MAX_ORDER in *; lia). }
  assert (coalesced blk2) as Hco2.
  { apply Hc2. intros q k Hk Hd Hq1 Hq2. unfold blk1 in *. rewrite !lookup_insert in *.
    repeat case_decide; try done. by eapply Hco. }
  split.
  - split.
    + exists fls2. apply inv_set_free. destruct (Hfr p ltac:(lia)) as (g & Hg & _ & Hor & _).
      eapply hand_alloc; try done. intros x h Hx Hh. destruct (Hfr x Hx) as (g' & Hg' & Hf).
      simplify_eq. apply Hf.
    + by apply retag_no_hand.
    + intros x g Hx. apply (st_clean _ _ _ _ Hst Hcl). by eapply loose_alloc.
    + by apply coalesced_alloc.
    + simpl. rewrite (avail_update _ _ _ _ Hp2), (st_avail _ _ _ _ Hst), (st_free _ _ _ _ Hst), Hfree.
      unfold weight. simpl. rewrite u64_sub_l. f_equal. lia.
  - apply lookup_insert_eq.
  - intros x Hx. apply (st_loose _ _ _ _ Hst). by exists p, order, Hand.
  - intros q k Hq. rewrite lookup_insert_ne by done. apply (st_alloc _ _ _ _ Hst).
  - intros x. rewrite (loose_alloc_iff _ _ _ _ _ Hge Hp2). by rewrite (st_loose _ _ _ _ Hst).
  - done.
  - intros x Hx. apply (st_core _ _ _ _ Hst _ Hx).
  - simpl. by rewrite (st_free _ _ _ _ Hst).
  - apply (st_max _ _ _ _ Hst).
  - apply (st_total _ _ _ _ Hst).
Qed.

(** With eager coalescing a wholly free aligned range lies in one block. *)
Lemma free_region s blk order q :
  pmm_ok s blk -> 0 <= order < MAX_ORDER -> (2 ^ order | q) ->
  (forall x, q <= x < q + 2 ^ order -> loose blk x) ->
  exists p o, order <= o /\ blk !! p = Some (o, Free).
Proof.
  intros [[fls Hi] Hnh _ Hco _] Hord Hq Hall. pose proof (inv_geom _ _ _ Hi) as Hge.
  pose proof (pow2_pos order ltac:(lia)).
  assert (forall x, loose blk x -> exists p o, blk !! p = Some (o, Free) /\ p <= x < p + 2 ^ o /\
    0 <= o < MAX_ORDER /\ 0 <= p /\ (2 ^ o | p)) as Hfree.
  { intros x (p & o & k & Hp & Hk & Hx). destruct (geom_blk _ _ Hge _ _ _ Hp) as (? & ? & ? & _).
    exists p, o. destruct k; [by auto|done|]. by destruct (Hnh p o). }
  destruct (Hfree q) as (p & o & Hp & Hpq & Ho & Hp0 & Hdp); [apply Hall; lia|].
  destruct (decide (order <= o)) as [Hge'|Hlt]; [by exists p, o|]. exfalso.
  assert (forall n k x, 0 <= k < order -> k <= Z.of_nat n -> q <= x < q + 2 ^ order ->
    blk !! x = Some (k, Free) -> False) as Hno.
  { clear p o Hp Hpq Ho Hp0 Hdp Hlt. intros n. induction (lt_wf n) as [n _ IH].
    intros k x Hk Hkn Hx Hb.
    destruct (geom_blk _ _ Hge _ _ _ Hb) as (_ & Hx0 & Hdx & _). pose proof (pow2_pos k ltac:(lia)).
    assert (exists y, (2 ^ k | y) /\ (y = x + 2 ^ k /\ (2 ^ (k + 1) | x) \/
      y = x - 2 ^ k /\ (2 ^ (k + 1) | y))) as (y & Hdy & Hy).
    { destruct (buddy_cases k x ltac:(lia) Hx0 Hdx) as [[_ ?]|(_ & ? & ?)];
        [exists (x + 2 ^ k)|exists (x - 2 ^ k)].
      - split; [by apply Z.divide_add_r|by left].
      - split; [by apply Z.divide_sub_r|by right]. }
    pose proof (pow2_succ k ltac:(lia)).
    assert (q <= y < q + 2 ^ order) as Hyq.
    { destruct Hy as [[-> Hd]|[-> Hd]].
      - destruct (aligned_inside (k + 1) order x q x); try done; lia.
      - destruct (aligned_inside (k + 1) order (x - 2 ^ k) q x); try done; lia. }
    destruct (Hfree y (Hall y Hyq)) as (z & kz & Hz & Hzy & Hkz & Hz0 & Hdz).
    pose proof (pow2_pos kz ltac:(lia)).
    destruct (decide (kz < k)) as [Hlt|Hnlt].
    - apply (IH (Z.to_nat kz) ltac:(lia) kz z); try lia; [|done].
      destruct (aligned_inside kz order z q y); try done; lia.
    - destruct (decide (kz = k)) as [->|Hne].
      + assert (y = z) as -> by (apply (aligned_eq k); [lia|done..]).
        destruct Hy as [[-> Hd]|[-> Hd]].
        * eapply (Hco x k); eauto. lia.
        * eapply (Hco (x - 2 ^ k) k); eauto; [lia|]. by replace (x - 2 ^ k + 2 ^ k) with x by lia.
      + assert (z <= x < z + 2 ^ kz) as Hzx.
        { destruct Hy as [[-> Hd]|[-> Hd]].
          - destruct (aligned_inside (k + 1) kz x z (x + 2 ^ k)); try done; lia.
          - destruct (aligned_inside (k + 1) kz (x - 2 ^ k) z (x - 2 ^ k)); try done; lia. }
        pose proof (geom_key _ _ Hge _ _ _ _ _ _ Hz Hb Hzx) as ->. congruence. }
  assert ((2 ^ o | q)) by (eapply pow2_divide_le; [|done]; lia).
  assert (q = p) as -> by (apply (aligned_eq o); [lia|done..]).
  by apply (Hno (Z.to_nat o) o p); [lia..|].
Qed.

(** *** [pmm_alloc] *)

Definition no_free_block (blk : blocks) (order : Z) : Prop :=
  forall p o, order <= o -> blk !! p <> Some (o, Free).

Lemma alloc_search_ok n : forall o order s blk,
  pmm_ok s blk -> 0 <= order <= o -> o + Z.of_nat n = MAX_ORDER ->
  (forall p k, order <= k < o -> blk !! p <> Some (k, Free)) ->
  exists r s', alloc_search n o order s = Ok (r, s') /\
    match r with
    | Some p => exists blk', allocated s blk order p s' blk'
    | None => s' = s /\ no_free_block blk order
    end.
Proof.
  induction n as [|n IH]; intros o order s blk Hok Hord Hn Hnone.
  - exists None, s. split; [done|]. split; [done|]. intros p k Hk Hp.
    destruct (ok_inv _ _ Hok) as [fls Hi].
    destruct (geom_blk _ _ (inv_geom _ _ _ Hi) _ _ _ Hp) as (? & _).
    apply (Hnone p k); [lia|done].
  - destruct (ok_inv _ _ Hok) as [fls Hi]. assert (0 <= o < MAX_ORDER) as Ho by lia.
    pose proof (inv_list _ _ _ Hi o Ho) as Hl. simpl.
    destruct (fls o) as [|p l] eqn:Hf.
    + destruct (IH (o + 1) order s blk Hok ltac:(lia) ltac:(lia)) as (r & s' & Hr & Hres).
      { intros p k Hk. destruct (decide (k = o)) as [->|]; [|apply Hnone; lia].
        intros Hp. apply (inv_fls _ _ _ Hi o p Ho) in Hp. rewrite Hf in Hp. by apply elem_of_nil in Hp. }
      exists r, s'. split; [|done]. by eapply st_bind_eq; [by apply get_list_ok|].
    + assert (blk !! p = Some (o, Free)) as Hp.
      { apply (inv_fls _ _ _ Hi o p Ho). rewrite Hf. left. }
      destruct (alloc_from_ok _ _ _ _ order Hok Hp ltac:(lia)) as (s' & blk' & Hr & Hal).
      exists (Some p), s'. split; [|by exists blk'].
      eapply st_bind_eq; [by apply get_list_ok|]. simpl. by eapply st_bind_eq.
Qed.

Lemma pmm_alloc_ok s blk order :
  pmm_ok s blk -> 0 <= order < MAX_ORDER ->
  exists r s', pmm_alloc order s = Ok (r, s') /\
    match r with
    | Some p => exists blk', allocated s blk order p s' blk'
    | None => s' = s /\ no_free_block blk order
    end.
Proof.
  intros Hok Hord. unfold pmm_alloc. destruct (Z.leb_spec MAX_ORDER order); [lia|].
  apply alloc_search_ok; [done|lia|lia|]. intros p k. lia.
Qed.

(** C2: [pmm_alloc] always returns, and it refines the abstract allocator. On
    success the frames of the returned block were held by nobody, they are now
    allocated with reference count one, every other allocated block and every
    descriptor of a frame that was allocated or never managed is unchanged, the
    free counter drops by the size of the block, and the invariant (blocks
    aligned and disjoint, lists linked, buddies coalesced) holds again. It
    fails only for an order out of range, or when no aligned range of [2^order]
    free frames exists, and then changes nothing. *)
Theorem pmm_alloc_spec s blk order :
  pmm_ok s blk -> 0 <= order ->
  exists r s', pmm_alloc order s = Ok (r, s') /\
    match r with
    | Some p => order < MAX_ORDER /\ exists blk', allocated s blk order p s' blk'
    | None => s' = s /\ (order < MAX_ORDER -> forall q, (2 ^ order | q) ->
        exists x, q <= x < q + 2 ^ order /\ ~ loose blk x)
    end.
Proof.
  intros Hok Hord. destruct (decide (order < MAX_ORDER)) as [Hlt|Hge].
  - destruct (pmm_alloc_ok _ _ _ Hok (conj Hord Hlt)) as (r & s' & Hr & Hres).
    exists r, s'. split; [done|]. destruct r as [p|]; [done|]. destruct Hres as [-> Hnone].
    split; [done|]. intros _ q Hq.
    destruct (range_all_or_ex (loose blk) q (2 ^ order)) as [Hall|?]; [|done].
    destruct (free_region _ _ _ _ Hok (conj Hord Hlt) Hq Hall) as (p & o & Ho & Hp).
    by destruct (Hnone p o).
  - exists None, s. unfold pmm_alloc. destruct (Z.leb_spec MAX_ORDER order); [|lia].
    split; [done|]. by split.
Qed.

(** *** [pmm_free] *)

(** What releasing an allocated block of order [o] at [p] achieves. *)
Record released (s : pmm) (blk : blocks) (o p : Z) (s' : pmm) (blk' : blocks) : Prop := {
  re_ok : pmm_ok s' blk';
  re_alloc q k : blk' !! q = Some (k, Alloc) <-> q <> p /\ blk !! q = Some (k, Alloc);
  re_loose x : loose blk' x <-> loose blk x \/ p <= x < p + 2 ^ o;
  re_core x : ~ loose blk' x -> pg_core <$> pm_map s' !! x = pg_core <$> pm_map s !! x;
  re_free : pm_free s' = u64 (pm_free s + 2 ^ o);
  re_max : pm_max s' = pm_max s;
  re_total : pm_total s' = pm_total s;
}.

Lemma alloc_not_loose max blk p o x :
  geom max blk -> blk !! p = Some (o, Alloc) -> p <= x < p + 2 ^ o -> ~ loose blk x.
Proof.
  intros Hge Hp Hx (q & k & kd & Hq & Hk & Hin). assert (q <> p) by congruence.
  destruct (geom_disj _ _ Hge _ _ _ _ _ _ H Hq Hp); lia.
Qed.

Lemma loose_hand blk p o x :
  blk !! p = Some (o, Alloc) ->
  loose (<[p := (o, Hand)]> blk) x <-> loose blk x \/ p <= x < p + 2 ^ o.
Proof.
  intros Hp. split.
  - intros (q & k & kd & Hq & Hk & Hx). rewrite lookup_insert in Hq.
    case_decide; [simplify_eq; by right|left; by exists q, k, kd].
  - intros [(q & k & kd & Hq & Hk & Hx)|Hx].
    + exists q, k, kd. rewrite lookup_insert_ne by congruence. done.
    + exists p, o, Hand. by rewrite lookup_insert_eq.
Qed.

(** The descriptors of the block are reset while the block is in hand. *)
Lemma free_mark_ok s fls blk p o g g' :
  inv s fls blk -> blk !! p = Some (o, Hand) -> pm_map s !! p = Some g ->
  same_links g g' -> plain g' -> pg_order g' = o ->
  (forall x h, loose blk x -> ~ p <= x < p + 2 ^ o -> pm_map s !! x = Some h -> plain h) ->
  exists s', (upd_page p (fun _ => g') ;;
     (if 0 <? pg_order g' then
        body_loop (Z.to_nat (u64 (Z.shiftl 1 (pg_order g')) - 1)) 1 p free_body
      else mret tt)) s = Ok (tt, s') /\
    inv s' fls blk /\ clean s' blk /\ pm_map s' !! p = Some g' /\
    (forall x, ~ p <= x < p + 2 ^ o -> pm_map s' !! x = pm_map s !! x) /\
    pm_max s' = pm_max s /\ pm_free s' = pm_free s /\ pm_total s' = pm_total s.
Proof.
  intros Hi Hp Hg Hl Hu -> Hcl. destruct (geom_blk _ _ (inv_geom _ _ _ Hi) _ _ _ Hp) as (Ho & Hp0 & _ & Hpm).
  pose proof (pow2_pos o ltac:(lia)) as Hpow.
  set (s1 := pm_set_map (<[p := g']> (pm_map s)) s).
  assert (inv s1 fls blk) as Hi1 by (eapply inv_hand_update; try done; lia).
  rewrite (st_bind_ok _ _ _ _ _ (upd_page_ok s p (fun _ => g') g Hg)). fold s1.
  rewrite u64_shiftl1 by (unfold MAX_ORDER in *; lia).
  assert (exists s2, (if 0 <? o then body_loop (Z.to_nat (2 ^ o - 1)) 1 p free_body else mret tt) s1
    = Ok (tt, s2) /\ inv s2 fls blk /\ step s1 blk s2 blk /\ forall y, pm_map s2 !! y =
      if decide (p < y < p + 2 ^ o) then free_body <$> pm_map s1 !! y else pm_map s1 !! y)
    as (s2 & Hr & Hi2 & Hs2 & Hat).
  { destruct (Z.ltb_spec 0 o) as [Hpos|Hz].
    - destruct (body_loop_ok (Z.to_nat (2 ^ o - 1)) free_body 1 _ _ _ _ _ Hi1 Hp) as
        (s2 & Hu2 & Hi2 & Hs2 & Hat); [lia|lia|done|done|].
      exists s2. do 3 (split; [done|]). intros y. rewrite Hat. repeat case_decide; try lia; done.
    - exists s1. do 3 (split; [done || apply step_refl|]). intros y. assert (o = 0) as -> by lia.
      change (2 ^ 0) with 1. rewrite decide_False by lia. done. }
  exists s2. split; [done|]. split; [done|]. split_and!.
  - intros x h Hx. rewrite Hat. case_decide as Hb.
    + destruct (pm_map s1 !! x); [|done]. by intros [= <-].
    + simpl. rewrite lookup_insert. case_decide; [by intros [= <-]|]. apply Hcl; [done|lia].
  - rewrite Hat, decide_False by lia. apply lookup_insert_eq.
  - intros x Hx. rewrite Hat, decide_False by lia. simpl. by rewrite lookup_insert_ne by lia.
  - apply (st_max _ _ _ _ Hs2).
  - apply (st_free _ _ _ _ Hs2).
  - apply (st_total _ _ _ _ Hs2).
Qed.

Lemma avail_to_hand blk p o :
  blk !! p = Some (o, Alloc) -> avail (<[p := (o, Hand)]> blk) = 2 ^ o + avail blk.
Proof. intros Hp. rewrite (avail_update _ _ _ _ Hp). unfold weight. simpl. lia. Qed.

Lemma pmm_free_last s blk o p g :
  pmm_ok s blk -> blk !! p = Some (o, Alloc) -> pm_map s !! p = Some g -> plain g ->
  pg_refcount g = 1 ->
  exists s' blk', pmm_free (Some p) s = Ok (tt, s') /\ released s blk o p s' blk'.
Proof.
  intros [[fls Hi] Hnh Hcl Hco Hfree] Hp Hg [[Hres Hpoi] Hslab] Href.
  pose proof (inv_geom _ _ _ Hi) as Hge.
  destruct (geom_blk _ _ Hge _ _ _ Hp) as (Ho & Hp0 & _ & Hpm).
  pose proof (pow2_pos o ltac:(lia)) as Hpow.
  destruct (inv_order _ _ _ Hi _ _ _ Hp) as (g1 & ? & Hor); [done|]. assert (g1 = g) as -> by congruence.
  assert (PageFree g = false) as Hfr.
  { destruct (PageFree g) eqn:E; [|done]. exfalso.
    eapply (alloc_not_loose _ _ _ _ p Hge Hp); [lia|]. by eapply (inv_cover _ _ _ Hi). }
  pose proof (alloc_hand _ _ _ _ _ Hi Hp) as Hi1.
  set (blk1 := <[p := (o, Hand)]> blk) in *.
  assert (blk1 !! p = Some (o, Hand)) as Hp1 by apply lookup_insert_eq.
  set (g' := pg_set_refcount (i32 (pg_refcount g - 1)) g).
  destruct (free_mark_ok _ _ _ _ _ g g' Hi1 Hp1 Hg) as
    (s1 & Hr1 & Hi2 & Hcl2 & Hg2 & Hsame & Hmax2 & Hfree2 & Htot2); [done|done|done| |].
  { intros x h Hx Hn. apply Hcl. apply (loose_hand _ _ _ _ Hp) in Hx as [?|?]; [done|lia]. }
  set (s2 := pm_set_free (u64 (pm_free s1 + 2 ^ o)) s1).
  destruct (free_block_ok s2 _ _ _ _ g' (inv_set_free _ _ _ (u64 (pm_free s1 + 2 ^ o)) Hi2) Hp1) as
    (s3 & fls3 & blk3 & Hr3 & Hi3 & Hnh3 & Hs3 & Hc3); [by apply no_hand_only|done|done|].
  assert (coalesced blk1) as Hco1.
  { intros q k Hk Hd Hq1 Hq2. unfold blk1 in *. rewrite !lookup_insert in *.
    repeat case_decide; try done. by eapply Hco. }
  exists s3, blk3. split.
  { unfold pmm_free. eapply st_bind_eq; [by apply get_page_ok|]. cbv beta.
    rewrite Hres, Hpoi, Hfr. cbn [orb]. unfold page_ref_dec_and_test. cbv beta iota.
    fold g'. rewrite (proj2 (Z.eqb_eq _ _) Href). cbv zeta.
    change (pg_order g') with (pg_order g) in *.
    rewrite <- then_assoc. eapply st_bind_eq; [exact Hr1|]. cbv beta.
    eapply st_bind_eq; [reflexivity|]. cbv beta.
    by rewrite Hor, u64_shiftl1 by (unfold MAX_ORDER in *; lia). }
  split.
  - split; [by exists fls3|done| | |].
    + by apply (st_clean _ _ _ _ Hs3).
    + by apply Hc3.
    + rewrite (st_free _ _ _ _ Hs3), (st_avail _ _ _ _ Hs3). unfold blk1.
      rewrite (avail_to_hand _ _ _ Hp). simpl. rewrite Hfree2, Hfree, u64_add_l. f_equal. lia.
  - intros q k. rewrite (st_alloc _ _ _ _ Hs3). unfold blk1. rewrite lookup_insert.
    case_decide; naive_solver.
  - intros x. rewrite (st_loose _ _ _ _ Hs3). by apply loose_hand.
  - intros x Hx. rewrite (st_loose _ _ _ _ Hs3) in Hx. rewrite (st_core _ _ _ _ Hs3 _ Hx). simpl.
    rewrite Hsame; [done|]. intros Hin. apply Hx. apply loose_hand; [done|by right].
  - rewrite (st_free _ _ _ _ Hs3). simpl. by rewrite Hfree2.
  - rewrite (st_max _ _ _ _ Hs3). done.
  - rewrite (st_total _ _ _ _ Hs3). done.
Qed.

(** C3: Releasing the last reference of an allocated block returns, puts
    exactly its frames back among the free ones, merged with every free buddy,
    raises the free counter by its size and leaves every other allocated block
    and the descriptors of all other frames in use as they were. *)
Theorem pmm_free_spec s blk o p g :
  pmm_ok s blk -> blk !! p = Some (o, Alloc) -> pm_map s !! p = Some g -> plain g ->
  pg_refcount g = 1 ->
  exists s' blk', pmm_free (Some p) s = Ok (tt, s') /\ released s blk o p s' blk'.
Proof. apply pmm_free_last. Qed.

(** The other branches of [pmm_free]: null is ignored; a reserved, a
    poisoned or a free block (its head is on a free list) stops the kernel;
    an earlier reference is dropped by decrementing the count of the head, and
    the allocator still satisfies its invariant for the same blocks. *)
Theorem pmm_free_branches s blk p g :
  pmm_ok s blk -> pm_map s !! p = Some g ->
  pmm_free None s = Ok (tt, s) /\
  (~ unreserved g -> pmm_free (Some p) s = Panic) /\
  (forall o, blk !! p = Some (o, Free) -> pmm_free (Some p) s = Panic) /\
  (forall o, blk !! p = Some (o, Alloc) -> unreserved g -> pg_refcount g <> 1 ->
    exists s', pmm_free (Some p) s = Ok (tt, s') /\ pmm_ok s' blk /\
      s' = pm_set_map (<[p := pg_set_refcount (i32 (pg_refcount g - 1)) g]> (pm_map s)) s).
Proof.
  intros [[fls Hi] Hnh Hcl Hco Hfree] Hg. pose proof (inv_geom _ _ _ Hi) as Hge.
  split; [done|]. unfold pmm_free. setoid_rewrite (st_bind_ok _ _ _ _ _ (get_page_ok _ _ _ Hg)).
  split; [|split].
  - intros Hu. unfold unreserved in Hu. destruct (PageReserved g), (PagePoisoned g); try done.
    by destruct Hu.
  - intros o Hp. rewrite (inv_free _ _ _ Hi _ _ _ Hp Hg). by case_match.
  - intros o Hp [Hr Hpo] Hc. destruct (geom_blk _ _ Hge _ _ _ Hp) as (Ho & _ & _ & _).
    pose proof (pow2_pos o ltac:(lia)). rewrite Hr, Hpo. cbn [orb].
    destruct (PageFree g) eqn:E.
    { exfalso. eapply (alloc_not_loose _ _ _ _ p Hge Hp); [lia|]. by eapply (inv_cover _ _ _ Hi). }
    unfold page_ref_dec_and_test. rewrite (proj2 (Z.eqb_neq _ _) Hc). cbv zeta.
    rewrite (st_bind_ok _ _ _ _ _ (upd_page_ok _ _ _ _ Hg)). eexists. split; [done|].
    split; [|done]. split; try done.
    + exists fls. apply inv_pages; [done| |].
      * intros x. rewrite lookup_insert_is_Some'. split; [intros [<-|?]; eauto|auto].
      * intros x h h' Hx. rewrite lookup_insert. case_decide; intros; simplify_eq.
        { split_and!; try done; [|by left]. intros o' Hx'.
          exact (inv_free _ _ _ Hi _ _ _ Hx' Hg). }
        apply good_update_refl. intros o' Hx'. by eapply (inv_free _ _ _ Hi).
    + intros x h Hx. simpl. rewrite lookup_insert. case_decide; [subst|by apply Hcl].
      exfalso. by eapply (alloc_not_loose _ _ _ _ x Hge Hp); [lia|].
Qed.

(** *** [pmm_init] *)

Lemma empty_lists_lookup o : 0 <= o < MAX_ORDER -> empty_lists !! o = Some (mk_fl None 0).
Proof.
  unfold MAX_ORDER. intros Ho.
  assert (o = 0 \/ o = 1 \/ o = 2 \/ o = 3 \/ o = 4 \/ o = 5 \/ o = 6 \/ o = 7 \/ o = 8 \/
    o = 9 \/ o = 10) as Hc by lia.
  by repeat (destruct Hc as [->|Hc]); subst.
Qed.

Definition mark_used (g : page) : page :=
  SetPageFlag PAGE_USED (ClearPageFlag PAGE_FREE (pg_set_order 0 g)).

Definition init_marked (g : page) : page := if PageFree g then mark_used g else g.

Lemma init_mark_ok n : forall k s,
  (forall x, k <= x < k + Z.of_nat n -> is_Some (pm_map s !! x)) ->
  exists m, init_mark n k s = Ok (tt, pm_set_map m s) /\
    forall x, m !! x = if decide (k <= x < k + Z.of_nat n)
      then init_marked <$> pm_map s !! x else pm_map s !! x.
Proof.
  induction n as [|n IH]; intros k s Hdom.
  { exists (pm_map s). split; [by destruct s|]. intros x. by rewrite decide_False by lia. }
  destruct (Hdom k ltac:(lia)) as [g Hg].
  destruct (IH (k + 1) (pm_set_map (<[k := init_marked g]> (pm_map s)) s)) as (m & Hm & Hat).
  { intros x Hx. simpl. rewrite lookup_insert_ne by lia. apply Hdom. lia. }
  exists m. split.
  - simpl. eapply st_bind_eq; [by apply get_page_ok|]. cbv beta.
    eapply st_bind_eq; [|exact Hm]. unfold init_marked. destruct (PageFree g).
    + eapply st_bind_eq; [by apply upd_page_ok|]. cbv beta.
      eapply st_bind_eq; [apply upd_page_ok; apply lookup_insert_eq|]. cbv beta.
      rewrite (upd_page_ok _ _ _ (ClearPageFlag PAGE_FREE (pg_set_order 0 g))) by apply lookup_insert_eq.
      unfold pm_set_map. simpl. by rewrite !insert_insert_eq.
    + rewrite insert_id by done. by destruct s.
  - intros x. rewrite Hat. simpl. rewrite lookup_insert.
    destruct (decide (k = x)) as [<-|]; [|repeat case_decide; try lia; done].
    rewrite decide_False, decide_True by lia. by rewrite Hg.
Qed.

(** A frame outside every block becomes a block of its own. *)
Lemma fresh_hand s fls blk k :
  inv s fls blk -> 0 <= k <= pm_max s ->
  (forall p o kd, blk !! p = Some (o, kd) -> ~ p <= k < p + 2 ^ o) ->
  inv s fls (<[k := (0, Hand)]> blk) /\ blk !! k = None.
Proof.
  intros Hi Hk Hout. pose proof (inv_geom _ _ _ Hi) as Hge.
  assert (blk !! k = None) as Hnone.
  { destruct (blk !! k) as [[o kd]|] eqn:E; [|done]. exfalso. apply (Hout _ _ _ E).
    destruct (geom_blk _ _ Hge _ _ _ E) as (? & _). pose proof (pow2_pos o). lia. }
  split; [|done]. apply (inv_blocks _ _ blk); [done| | |].
  - split.
    + intros p o kd. rewrite lookup_insert. case_decide; [|by apply (geom_blk _ _ Hge)].
      intros [= <- <-]. subst. change (2 ^ 0) with 1. split_and!; try (unfold MAX_ORDER; lia).
      apply Z.divide_1_l.
    + intros p q o1 k1 o2 k2 Hne. rewrite !lookup_insert. change (2 ^ 0) with 1 in *.
      repeat case_decide; intros Hp Hq; subst; try done; [injection Hp as <- <-|injection Hq as <- <-|].
      * pose proof (Hout _ _ _ Hq). change (2 ^ 0) with 1. lia.
      * pose proof (Hout _ _ _ Hp). change (2 ^ 0) with 1. lia.
      * by eapply (geom_disj _ _ Hge).
  - intros p o kd Hkd. rewrite lookup_insert. case_decide; [|done]. subst. rewrite Hnone. naive_solver.
  - intros x (q & oq & kq & Hq & Hkq & Hx). exists q, oq, kq. by rewrite lookup_insert_ne by congruence.
Qed.

Section release.
Context (m0 : gmap Z page).

(** The frames the second loop of [pmm_init] releases. *)
Definition to_release (g : page) : bool := PageUsed g && negb (PageReserved g).
Definition managed (x : Z) : Prop := exists g, m0 !! x = Some g /\ to_release g = true.

Context (Hm0 : forall x g, m0 !! x = Some g -> to_release g = true ->
  pg_order g = 0 /\ plain g).

Record release_inv (k : Z) (s : pmm) (blk : blocks) : Prop := {
  ri_ok : pmm_ok s blk;
  ri_alloc q o : blk !! q <> Some (o, Alloc);
  ri_loose x : loose blk x <-> x < k /\ managed x;
  ri_core x : k <= x -> pg_core <$> pm_map s !! x = pg_core <$> m0 !! x;
  ri_total : pm_total s = pm_free s;
}.

Lemma core_to_release g g' : pg_core g' = pg_core g -> to_release g' = to_release g.
Proof. unfold pg_core, to_release, PageUsed, PageReserved. by intros [= _ _ -> _]. Qed.

Lemma release_one k s blk g :
  release_inv k s blk -> pm_map s !! k = Some g -> to_release g = true ->
  exists s' blk', free_block k s = Ok (tt, s') /\
    release_inv (k + 1) (pm_set_total (u64 (pm_total s' + 1)) (pm_set_free (u64 (pm_free s' + 1)) s')) blk' /\
    pm_max s' = pm_max s.
Proof.
  intros [[[fls Hi] Hnh Hcl Hco Hfree] Hna Hlo Hcore Htot] Hg Hrel.
  pose proof (Hcore k ltac:(lia)) as Hgk. rewrite Hg in Hgk.
  destruct (m0 !! k) as [g0|] eqn:Hg0; [|done]. simpl in Hgk.
  assert (pg_core g = pg_core g0) as Hc0 by congruence.
  destruct (Hm0 _ _ Hg0) as [Hor0 Hun0]; [by rewrite <- (core_to_release _ _ Hc0)|].
  assert (0 <= k <= pm_max s) as Hk by (by apply (inv_dom _ _ _ Hi); rewrite Hg).
  assert (~ loose blk k) as Hnl by (rewrite Hlo; lia).
  destruct (fresh_hand _ _ _ _ Hi Hk) as [Hi1 Hnone].
  { intros p o kd Hp Hin. apply Hnl. exists p, o, kd. split; [done|]. split; [|done].
    intros ->. by eapply Hna. }
  set (blk1 := <[k := (0, Hand)]> blk) in *.
  assert (blk1 !! k = Some (0, Hand)) as Hp1 by apply lookup_insert_eq.
  assert (forall x, loose blk1 x <-> loose blk x \/ x = k) as Hlo1.
  { intros x. split.
    - intros (q & o & kd & Hq & Hkd & Hx). unfold blk1 in Hq. rewrite lookup_insert in Hq.
      case_decide; [simplify_eq; right; change (2 ^ 0) with 1 in Hx; lia|left; by exists q, o, kd].
    - intros [(q & o & kd & Hq & Hkd & Hx)| ->].
      + exists q, o, kd. unfold blk1. by rewrite lookup_insert_ne by congruence.
      + exists k, 0, Hand. split_and!; try done; lia. }
  destruct (free_block_ok _ _ _ _ _ g Hi1 Hp1) as
    (s' & fls' & blk' & Hr & Hi' & Hnh' & Hst & Hco'); [by apply no_hand_only|done|..].
  { by rewrite (core_order _ _ Hc0). }
  exists s', blk'. split; [done|]. split; [|apply (st_max _ _ _ _ Hst)]. split.
  - split; [exists fls'; split; apply Hi'|done| | |].
    + apply (st_clean _ _ _ _ Hst). intros x h Hx Hh. apply Hlo1 in Hx as [Hx| ->]; [by eapply Hcl|].
      assert (h = g) as -> by congruence. by apply (core_plain _ _ Hc0).
    + apply Hco'. intros q o Ho Hd Hq1 Hq2. unfold blk1 in *. rewrite !lookup_insert in *.
      repeat case_decide; try done. by eapply Hco.
    + simpl. rewrite (st_avail _ _ _ _ Hst), (st_free _ _ _ _ Hst). unfold blk1.
      rewrite avail_insert_new, Hfree, u64_add_l by done. unfold weight. simpl. f_equal. lia.
  - intros q o Hq. apply (st_alloc _ _ _ _ Hst) in Hq. unfold blk1 in Hq.
    rewrite lookup_insert in Hq. case_decide; [done|]. by eapply Hna.
  - intros x. rewrite (st_loose _ _ _ _ Hst), Hlo1, Hlo. unfold managed. split.
    + intros [[? ?]| ->]; [split; [lia|done]|]. split; [lia|]. exists g0.
      by rewrite <- (core_to_release _ _ Hc0).
    + intros [Hx Hm]. destruct (decide (x = k)); [by right|left]. split; [lia|done].
  - intros x Hx. simpl. rewrite (st_core _ _ _ _ Hst); [apply Hcore; lia|]. rewrite Hlo1, Hlo. lia.
  - simpl. by rewrite (st_total _ _ _ _ Hst), (st_free _ _ _ _ Hst), Htot.
Qed.

Lemma release_skip k s blk g :
  release_inv k s blk -> pm_map s !! k = Some g -> to_release g = false ->
  release_inv (k + 1) s blk.
Proof.
  intros [Hok Hna Hlo Hcore Htot] Hg Hrel. split; try done.
  - intros x. rewrite Hlo. split; intros [Hx (h & Hh & Hr)]; (split; [|by exists h]); [lia|].
    destruct (decide (x = k)) as [->|]; [|lia]. exfalso.
    pose proof (Hcore k ltac:(lia)) as Hgk. rewrite Hg, Hh in Hgk. simpl in Hgk.
    rewrite (core_to_release h g) in Hrel by congruence. congruence.
  - intros x Hx. apply Hcore. lia.
Qed.

Lemma init_release_ok n : forall k s blk,
  release_inv k s blk -> 0 <= k -> k + Z.of_nat n = pm_max s + 1 ->
  exists s' blk', init_release n k s = Ok (tt, s') /\ release_inv (k + Z.of_nat n) s' blk' /\
    pm_max s' = pm_max s.
Proof.
  induction n as [|n IH]; intros k s blk Hri Hk Hn.
  { exists s, blk. rewrite Z.add_0_r. done. }
  destruct (ok_inv _ _ (ri_ok _ _ _ Hri)) as [fls Hi].
  destruct (proj1 (inv_dom _ _ _ Hi k) ltac:(lia)) as [g Hg].
  assert (negb (PageUsed g) || PageReserved g = negb (to_release g)) as Hc.
  { unfold to_release. by destruct (PageUsed g), (PageReserved g). }
  simpl. setoid_rewrite (st_bind_ok _ _ _ _ _ (get_page_ok _ _ _ Hg)). cbv beta. rewrite Hc.
  replace (k + Z.of_nat (S n)) with (k + 1 + Z.of_nat n) by lia.
  destruct (to_release g) eqn:Hr; simpl.
  - destruct (release_one _ _ _ _ Hri Hg Hr) as (s1 & blk1 & Hf & Hri1 & Hm1).
    destruct (IH (k + 1) _ _ Hri1) as (s' & blk' & Hs' & Hri' & Hm'); [lia|simpl; lia|].
    exists s', blk'. split; [|split; [done|by rewrite Hm']].
    eapply st_bind_eq; [|exact Hs']. eapply st_bind_eq; [done|]. done.
  - destruct (IH (k + 1) s blk) as (s' & blk' & Hs' & Hri' & Hm'); [by eapply release_skip|lia|lia|].
    exists s', blk'. split; [|done]. by eapply st_bind_eq.
Qed.
End release.

(** What [pmm_init] relies on: [pfndb_init] has given every frame number up to
    [max_pfn] a descriptor, marked free or reserved. *)
Record boot_map (s : pmm) : Prop := {
  bm_max : 0 <= pm_max s < 2 ^ 52;
  bm_dom x : 0 <= x <= pm_max s <-> is_Some (pm_map s !! x);
  bm_flags x g : pm_map s !! x = Some g -> pg_flags g = PAGE_FREE \/ pg_flags g = PAGE_RESERVED;
}.

Lemma release_start m max :
  0 <= max < 2 ^ 52 ->
  (forall x, 0 <= x <= max <-> is_Some (m !! x)) ->
  (forall x g, m !! x = Some g -> PageFree g = false) ->
  release_inv m 0 (mk_pmm m max empty_lists 0 0) ∅.
Proof.
  intros Hmax Hdom Hnf.
  assert (forall x, ~ loose ∅ x) as Hl by (intros x (q & o & k & Hq & _); by rewrite lookup_empty in Hq).
  split; [split| | | |]; try done.
  - exists (fun _ => []). split; simpl; try done.
    + intros o p Ho. rewrite lookup_empty. split; [intros H%elem_of_nil|]; done.
    + intros. apply dll_nil.
    + intros o Ho. by rewrite empty_lists_lookup.
    + intros x g Hx Hfr. by rewrite (Hnf _ _ Hx) in Hfr.
  - intros x g Hx. by destruct (Hl x).
  - intros x. split; [intros H; by destruct (Hl x)|]. intros [Hx (g & Hg & _)]. exfalso.
    destruct (proj2 (Hdom x)); [by rewrite Hg|lia].
Qed.

Lemma pmm_init_ok s :
  boot_map s ->
  exists s' blk, pmm_init s = Ok (tt, s') /\ pmm_ok s' blk /\
    (forall q o, blk !! q <> Some (o, Alloc)) /\
    (forall x, loose blk x <-> exists g, pm_map s !! x = Some g /\ PageFree g = true) /\
    pm_total s' = pm_free s' /\ pm_max s' = pm_max s.
Proof.
  intros [Hmax Hdom Hflags].
  set (s0 := mk_pmm (pm_map s) (pm_max s) empty_lists 0 0).
  destruct (init_mark_ok (Z.to_nat (pm_max s + 1)) 0 s0) as (m & Hm & Hat).
  { intros x Hx. apply Hdom. lia. }
  rewrite Z2Nat.id in Hat by lia.
  assert (forall x, m !! x = init_marked <$> pm_map s !! x) as Hmx.
  { intros x. rewrite Hat. case_decide as Hd; [done|]. simpl.
    destruct (pm_map s !! x) eqn:E; [|done]. exfalso. apply Hd.
    destruct (proj2 (Hdom x)); [by rewrite E|lia]. }
  assert (forall x g, pm_map s !! x = Some g -> PageFree (init_marked g) = false /\
    to_release (init_marked g) = PageFree g /\
    (PageFree g = true -> pg_order (init_marked g) = 0 /\ plain (init_marked g))) as Hin.
  { intros x g Hg. destruct (Hflags _ _ Hg) as [E|E].
    - assert (PageFree g = true) as Hfr by (unfold PageFree; by rewrite E).
      unfold init_marked. rewrite Hfr.
      assert (pg_flags (mark_used g) = PAGE_USED) as E' by (simpl; by rewrite E).
      unfold to_release, plain, unreserved, PageFree, PageUsed, PageReserved, PagePoisoned, PageSlab. by rewrite E'.
    - assert (PageFree g = false) as Hfr by (unfold PageFree; by rewrite E).
      unfold init_marked. rewrite Hfr. split; [done|]. split; [|done].
      unfold to_release, PageUsed. by rewrite E. }
  assert (forall x g, m !! x = Some g -> to_release g = true ->
    pg_order g = 0 /\ plain g) as Hrelease.
  { intros x g. rewrite Hmx. intros (h & Hh & ->)%fmap_Some Hrel.
    destruct (Hin _ _ Hh) as (_ & E & Hun). apply Hun. by rewrite <- E. }
  assert (release_inv m 0 (pm_set_map m s0) ∅) as Hstart.
  { apply release_start; [done| |].
    - intros x. rewrite Hmx, fmap_is_Some. apply Hdom.
    - intros x g. rewrite Hmx. intros (h & Hh & ->)%fmap_Some. by apply (Hin x). }
  destruct (init_release_ok m Hrelease (Z.to_nat (pm_max s + 1)) 0 _ _ Hstart) as
    (s' & blk & Hr & Hri & Hm'); [done|simpl; lia|].
  rewrite Z2Nat.id in Hri by lia.
  exists s', blk. split; [|split; [apply Hri|split; [apply Hri|split; [|split; [apply Hri|done]]]]].
  - unfold pmm_init. eapply st_bind_eq; [done|]. eapply st_bind_eq; [done|]. cbv beta.
    eapply st_bind_eq; [exact Hm|exact Hr].
  - intros x. rewrite (ri_loose _ _ _ _ Hri). unfold managed. split.
    + intros [_ (g & Hg & Hrel)]. rewrite Hmx in Hg. apply fmap_Some in Hg as (h & Hh & ->).
      exists h. split; [done|]. by rewrite <- (proj1 (proj2 (Hin _ _ Hh))).
    + intros (g & Hg & Hfr). split.
      * destruct (proj2 (Hdom x)); [by rewrite Hg|lia].
      * exists (init_marked g). rewrite Hmx, Hg. split; [done|]. by rewrite (proj1 (proj2 (Hin _ _ Hg))).
Qed.

Lemma booted_map memmap d memmap' l f t :
  Forall valid_entry memmap -> max_pfn d < 2 ^ 52 -> pfndb_booted memmap d memmap' ->
  boot_map (mk_pmm (mem_map d) (max_pfn d) l f t).
Proof.
  intros Hv Hlt Hb. destruct (storage_size_eq _ Hv) as [_ Hmax]. split; simpl.
  - rewrite (bo_max _ _ _ Hb) in *. lia.
  - apply (bo_frames _ _ _ Hb).
  - intros x g Hx. rewrite (bo_flags _ _ _ Hb _ _ Hx). case_decide; auto.
Qed.

(** C4: Booting: [pmm_init], run on the page frame database [pfndb_init]
    builds, returns with the allocator's invariant established, no block
    allocated, the frames it manages exactly those a usable entry of the
    reduced memory map touches, and both page counters equal to their number. *)
Theorem pmm_boot_spec memmap d memmap' l f t :
  Forall valid_entry memmap -> calc_max_pfn memmap < 2 ^ 52 ->
  pfndb_init memmap = Ok (d, memmap') ->
  exists s' blk, pmm_init (mk_pmm (mem_map d) (max_pfn d) l f t) = Ok (tt, s') /\
    pmm_ok s' blk /\ (forall q o, blk !! q <> Some (o, Alloc)) /\
    (forall x, loose blk x <-> 0 <= x <= max_pfn d /\ in_usable memmap' x) /\
    pm_total s' = pm_free s' /\ pm_free s' = u64 (avail blk).
Proof.
  intros Hv Hlt Hr.
  assert (Exists (fits (storage_size memmap)) memmap) as Hex.
  { destruct (decide (Exists (fits (storage_size memmap)) memmap)) as [?|Hn]; [done|].
    apply not_Exists_Forall in Hn; [|apply _]. exfalso. revert Hr.
    unfold pfndb_init, reserve_pfndb_storage. by rewrite reserve_in_panic. }
  destruct (pfndb_init_ok _ Hv Hex) as (d1 & m1 & Hr1 & Hb). rewrite Hr in Hr1.
  injection Hr1 as <- <-.
  destruct (pmm_init_ok (mk_pmm (mem_map d) (max_pfn d) l f t)) as
    (s' & blk & Hi & Hok & Hna & Hl & Ht & _).
  { apply (booted_map memmap d memmap'); [done|by rewrite (bo_max _ _ _ Hb)|done]. }
  exists s', blk. do 3 (split; [done|]). split; [|split; [done|apply (ok_free _ _ Hok)]].
  intros x. rewrite Hl. simpl. split.
  - intros (g & Hg & Hfr). split; [apply (bo_frames _ _ _ Hb); by rewrite Hg|].
    unfold PageFree in Hfr. rewrite (bo_flags _ _ _ Hb _ _ Hg) in Hfr. by case_decide.
  - intros [Hx Hu]. destruct (proj1 (bo_frames _ _ _ Hb x) Hx) as [g Hg]. exists g. split; [done|].
    unfold PageFree. by rewrite (bo_flags _ _ _ Hb _ _ Hg), decide_True.
Qed.

(** ** Witnesses: a machine of five usable frames *)

Definition demo_db : pfndb :=
  match pfndb_init demo_memmap with Ok (d, _) => d | _ => mk_pfndb ∅ 0 0 end.
Definition demo_boot : pmm := mk_pmm (mem_map demo_db) (max_pfn demo_db) ∅ 0 0.
Definition demo_pmm : pmm :=
  match pmm_init demo_boot with Ok (_, s) => s | _ => demo_boot end.

Lemma demo_ok : exists blk, pmm_ok demo_pmm blk.
Proof.
  destruct (pfndb_init_ok _ demo_valid demo_fits) as (d & m & Hr & Hb).
  assert (demo_db = d) as Hd by (unfold demo_db; by rewrite Hr).
  destruct (pmm_init_ok demo_boot) as (s' & blk & Hi & Hok & _).
  { unfold demo_boot. rewrite Hd. apply (booted_map demo_memmap d m); [apply demo_valid| |done].
    by rewrite (bo_max _ _ _ Hb). }
  exists blk. unfold demo_pmm. by rewrite Hi.
Qed.

Lemma pmm_boot_spec_witness :
  exists s' blk, pmm_init demo_boot = Ok (tt, s') /\ pmm_ok s' blk.
Proof.
  destruct (pmm_boot_spec demo_memmap demo_db
    [mk_entry 0 4096 1; mk_entry 8192 8192 0; mk_entry 16384 8192 0] ∅ 0 0) as (s & blk & Hi & Hok & _).
  - apply demo_valid.
  - by vm_compute.
  - by vm_compute.
  - exists s, blk. split; [exact Hi|exact Hok].
Defined.

Lemma pmm_alloc_spec_witness :
  exists p s', pmm_alloc 1 demo_pmm = Ok (Some p, s') /\ pm_free s' = 2.
Proof.
  destruct demo_ok as [blk Hok].
  destruct (pmm_alloc_spec demo_pmm blk 1 Hok ltac:(lia)) as (r & s' & Hr & Hres).
  exists 4, s'. assert (r = Some 4) as ->.
  { apply (f_equal (fun o => match o with Ok (r, _) => r | _ => None end)) in Hr.
    rewrite <- Hr. by vm_compute. }
  split; [done|]. destruct Hres as (_ & blk' & Hal). rewrite (al_free _ _ _ _ _ _ Hal). by vm_compute.
Defined.

Definition demo_alloc : pmm :=
  match pmm_alloc 1 demo_pmm with Ok (_, s) => s | _ => demo_pmm end.

Lemma demo_alloc_ok : exists blk g, pmm_ok demo_alloc blk /\ blk !! 4 = Some (1, Alloc) /\
  pm_map demo_alloc !! 4 = Some g /\ plain g /\ pg_refcount g = 1.
Proof.
  destruct demo_ok as [blk Hok].
  destruct (pmm_alloc_ok demo_pmm blk 1 Hok) as (r & s' & Hr & Hres); [by vm_compute|].
  assert (r = Some 4) as ->.
  { apply (f_equal (fun o => match o with Ok (r, _) => r | _ => None end)) in Hr.
    rewrite <- Hr. by vm_compute. }
  destruct Hres as [blk' Hal]. assert (demo_alloc = s') as -> by (unfold demo_alloc; by rewrite Hr).
  pose proof (al_ok _ _ _ _ _ _ Hal) as Hok'. pose proof (al_block _ _ _ _ _ _ Hal) as Hb.
  destruct (al_frames _ _ _ _ _ _ Hal 4 ltac:(lia)) as (g & Hg & Href & _ & _ & _ & Hu).
  clear Hr Hal Hok. by exists blk', g.
Qed.

Lemma pmm_free_spec_witness :
  exists s' blk', pmm_free (Some 4) demo_alloc = Ok (tt, s') /\ pmm_ok s' blk' /\ pm_free s' = 4.
Proof.
  destruct demo_alloc_ok as (blk & g & Hok & Hp & Hg & Hu & Href).
  destruct (pmm_free_spec demo_alloc blk 1 4 g Hok Hp Hg Hu Href) as (s' & blk' & Hr & Hre).
  exists s', blk'. split; [exact Hr|]. split; [apply (re_ok _ _ _ _ _ _ Hre)|].
  rewrite (re_free _ _ _ _ _ _ Hre). by vm_compute.
Defined.

Lemma pmm_free_branches_witness :
  exists s, pmm_free (Some 0) s = Panic.
Proof.
  destruct demo_ok as [blk Hok]. exists demo_pmm.
  assert (exists g, pm_map demo_pmm !! 0 = Some g /\ PageReserved g = true) as (g & Hg & Hr).
  { eexists. split; [by vm_compute|by vm_compute]. }
  apply (pmm_free_branches demo_pmm blk 0 g Hok Hg). intros [Hc _]. congruence.
Defined.
