(* ===== verification/StringLib.v ===== *)
(** Byte strings and memory blocks, [kernel/src/lib/string.c]: the routines
    that work a machine word at a time, over a byte-addressed memory. Pointers
    are addresses, [0] is null; an access to an address that is not mapped is a
    fault. *)
From S2P Require Import Prelude.

Abbreviation mem := (gmap Z Z).

Definition load8 (m : mem) (a : Z) : outcome Z := deref (m !! a).
Definition store8 (a v : Z) (m : mem) : outcome mem :=
  match m !! a with Some _ => Ok (<[a := v]> m) | None => Fault end.

(** Little-endian access to [k] bytes. *)
Fixpoint load_le (k : nat) (m : mem) (a : Z) : outcome Z :=
  match k with
  | O => Ok 0
  | S k => b ← load8 m a; r ← load_le k m (a + 1); Ok (b + 256 * r)
  end.
Fixpoint store_le (k : nat) (a w : Z) (m : mem) : outcome mem :=
  match k with
  | O => Ok m
  | S k => m ← store8 a (w mod 256) m; store_le k (a + 1) (w / 256) m
  end.

Definition WORD_BYTES : Z := 8.
Definition load_word (m : mem) (a : Z) : outcome Z := load_le 8 m a.
Definition store_word (a w : Z) (m : mem) : outcome mem := store_le 8 a w m.

(** [((uintptr_t)p & (WORD_BYTES - 1)) != 0]. *)
Definition unaligned (p : Z) : bool := has_bits p (WORD_BYTES - 1).

(** [for (i = 8; i < 64; i <<= 1) out |= out << i;] with fuel. *)
Fixpoint repeat_loop (fuel : nat) (i out : Z) : Z :=
  match fuel with
  | O => out
  | S fuel => if i <? WORD_BYTES * 8
      then repeat_loop fuel (u64 (Z.shiftl i 1)) (Z.lor out (u64 (Z.shiftl out i)))
      else out
  end.
Definition repeat_byte (c : Z) : Z := repeat_loop 64 8 c.

Definition has_zero_byte (x : Z) : bool :=
  let ones := repeat_byte 1 in
  let highs := repeat_byte 128 in
  negb (Z.land (Z.land (u64 (x - ones)) (not64 x)) highs =? 0).

(** [strlen]: the loop up to the first aligned byte; [Some r] is a return. *)
Fixpoint strlen_head (fuel : nat) (m : mem) (start s : Z) : outcome (option Z * Z) :=
  if negb (unaligned s) then Ok (None, s) else
  match fuel with
  | O => Timeout
  | S fuel =>
      c ← load8 m s;
      if c =? 0 then Ok (Some (s - start), s) else strlen_head fuel m start (s + 1)
  end.

Fixpoint strlen_words (fuel : nat) (m : mem) (s : Z) : outcome Z :=
  match fuel with
  | O => Timeout
  | S fuel =>
      chunk ← load_word m s;
      if has_zero_byte chunk then Ok s else strlen_words fuel m (s + WORD_BYTES)
  end.

Fixpoint strlen_tail (fuel : nat) (m : mem) (s : Z) : outcome Z :=
  match fuel with
  | O => Timeout
  | S fuel => c ← load8 m s; if negb (c =? 0) then strlen_tail fuel m (s + 1) else Ok s
  end.

Definition strlen (fuel : nat) (m : mem) (s : Z) : outcome Z :=
  if s =? 0 then Ok 0 else
  r ← strlen_head fuel m s s;
  match r.1 with
  | Some len => Ok len
  | None =>
      p ← strlen_words fuel m r.2;
      p ← strlen_tail fuel m p;
      Ok (p - s)
  end.

(** One state of the copying loops: destination, source, bytes left. *)
Record cursor := mk_cur { cu_d : Z; cu_s : Z; cu_n : Z }.

(** [*d++ = *s++; n--;] while [n != 0] and, when [al] is set, a pointer is
    not aligned. *)
Fixpoint copy_bytes (fuel : nat) (al : bool) (c : cursor) (m : mem) : outcome (cursor * mem) :=
  if negb (negb (cu_n c =? 0) && (negb al || unaligned (Z.lor (cu_d c) (cu_s c)))) then Ok (c, m) else
  match fuel with
  | O => Timeout
  | S fuel =>
      b ← load8 m (cu_s c);
      m ← store8 (cu_d c) b m;
      copy_bytes fuel al (mk_cur (cu_d c + 1) (cu_s c + 1) (cu_n c - 1)) m
  end.

Fixpoint copy_words (fuel : nat) (c : cursor) (m : mem) : outcome (cursor * mem) :=
  if negb (WORD_BYTES <=? cu_n c) then Ok (c, m) else
  match fuel with
  | O => Timeout
  | S fuel =>
      w ← load_word m (cu_s c);
      m ← store_word (cu_d c) w m;
      copy_words fuel
        (mk_cur (cu_d c + WORD_BYTES) (cu_s c + WORD_BYTES) (cu_n c - WORD_BYTES)) m
  end.

Definition memcpy (dest src n : Z) (m : mem) : outcome mem :=
  let fuel := Z.to_nat n in
  r ← copy_bytes fuel true (mk_cur dest src n) m;
  r ← copy_words fuel r.1 r.2;
  r ← copy_bytes fuel false r.1 r.2;
  Ok r.2.

(** The loops of [memmove] that copy downwards. *)
Fixpoint back_bytes (fuel : nat) (al : bool) (c : cursor) (m : mem) : outcome (cursor * mem) :=
  if negb (negb (cu_n c =? 0) && (negb al || unaligned (Z.lor (cu_d c) (cu_s c)))) then Ok (c, m) else
  match fuel with
  | O => Timeout
  | S fuel =>
      let c := mk_cur (cu_d c - 1) (cu_s c - 1) (cu_n c - 1) in
      b ← load8 m (cu_s c);
      m ← store8 (cu_d c) b m;
      back_bytes fuel al c m
  end.

Fixpoint back_words (fuel : nat) (c : cursor) (m : mem) : outcome (cursor * mem) :=
  if negb (WORD_BYTES <=? cu_n c) then Ok (c, m) else
  match fuel with
  | O => Timeout
  | S fuel =>
      let c := mk_cur (cu_d c - WORD_BYTES) (cu_s c - WORD_BYTES) (cu_n c - WORD_BYTES) in
      w ← load_word m (cu_s c);
      m ← store_word (cu_d c) w m;
      back_words fuel c m
  end.

Definition memmove (dest src n : Z) (m : mem) : outcome mem :=
  if (dest =? src) || (n =? 0) then Ok m else
  if (dest <? src) || (src + n <=? dest) then memcpy dest src n m else
  let fuel := Z.to_nat n in
  r ← back_bytes fuel true (mk_cur (dest + n) (src + n) n) m;
  r ← back_words fuel r.1 r.2;
  r ← back_bytes fuel false r.1 r.2;
  Ok r.2.

(** [memset]: the byte loops and the word loop. *)
Fixpoint set_bytes (fuel : nat) (al : bool) (c p n : Z) (m : mem) : outcome (Z * Z * mem) :=
  if negb (negb (n =? 0) && (negb al || unaligned p)) then Ok (p, n, m) else
  match fuel with
  | O => Timeout
  | S fuel => m ← store8 p (u8 c) m; set_bytes fuel al c (p + 1) (n - 1) m
  end.

Fixpoint set_words (fuel : nat) (fill p n : Z) (m : mem) : outcome (Z * Z * mem) :=
  if negb (WORD_BYTES <=? n) then Ok (p, n, m) else
  match fuel with
  | O => Timeout
  | S fuel => m ← store_word p fill m; set_words fuel fill (p + WORD_BYTES) (n - WORD_BYTES) m
  end.

Definition memset (s c n : Z) (m : mem) : outcome mem :=
  let fuel := Z.to_nat n in
  let fill := repeat_byte (u8 c) in
  '(p, n, m) ← set_bytes fuel true c s n m;
  '(p, n, m) ← set_words fuel fill p n m;
  '(p, n, m) ← set_bytes fuel false c p n m;
  Ok m.

(** [memcmp]: [Some r] is a return from inside a loop. *)
Fixpoint cmp_bytes (fuel : nat) (al : bool) (c : cursor) (m : mem) : outcome (option Z * cursor) :=
  if negb (negb (cu_n c =? 0) && (negb al || unaligned (Z.lor (cu_d c) (cu_s c)))) then Ok (None, c) else
  match fuel with
  | O => Timeout
  | S fuel =>
      a ← load8 m (cu_d c);
      b ← load8 m (cu_s c);
      if negb (a =? b) then Ok (Some (if a <? b then -1 else 1), c) else
      cmp_bytes fuel al (mk_cur (cu_d c + 1) (cu_s c + 1) (cu_n c - 1)) m
  end.

Fixpoint cmp_in_word (k : nat) (p1 p2 : Z) (m : mem) : outcome (option Z) :=
  match k with
  | O => Ok None
  | S k =>
      a ← load8 m p1;
      b ← load8 m p2;
      if negb (a =? b) then Ok (Some (if a <? b then -1 else 1))
      else cmp_in_word k (p1 + 1) (p2 + 1) m
  end.

Fixpoint cmp_words (fuel : nat) (c : cursor) (m : mem) : outcome (option Z * cursor) :=
  if negb (WORD_BYTES <=? cu_n c) then Ok (None, c) else
  match fuel with
  | O => Timeout
  | S fuel =>
      a ← load_word m (cu_d c);
      b ← load_word m (cu_s c);
      r ← (if negb (a =? b) then cmp_in_word 8 (cu_d c) (cu_s c) m else Ok None);
      match r with
      | Some v => Ok (Some v, c)
      | None => cmp_words fuel
          (mk_cur (cu_d c + WORD_BYTES) (cu_s c + WORD_BYTES) (cu_n c - WORD_BYTES)) m
      end
  end.

Definition memcmp (s1 s2 n : Z) (m : mem) : outcome Z :=
  let fuel := Z.to_nat n in
  '(r, c) ← cmp_bytes fuel true (mk_cur s1 s2 n) m;
  match r with Some v => Ok v | None =>
  '(r, c) ← cmp_words fuel c m;
  match r with Some v => Ok v | None =>
  '(r, c) ← cmp_bytes fuel false c m;
  match r with Some v => Ok v | None => Ok 0 end end end.

(** A null source is the empty string. *)
Definition strlcpy (fuel : nat) (dst src dstsz : Z) (m : mem) : outcome (Z * mem) :=
  len ← (if src =? 0 then Ok 0 else strlen fuel m src);
  if dstsz =? 0 then Ok (len, m) else
  let copy := if dstsz <=? len then dstsz - 1 else len in
  m ← (if negb (copy =? 0) then memcpy dst src copy m else Ok m);
  m ← store8 (dst + copy) 0 m;
  Ok (len, m).

(** ** Words as bytes *)

Definition le_word (bs : list Z) : Z := foldr (fun b r => b + 256 * r) 0 bs.
Definition is_byte (b : Z) : Prop := 0 <= b < 256.

Lemma byte_testbit a A n :
  is_byte a -> 0 <= n ->
  Z.testbit (a + 256 * A) n = if n <? 8 then Z.testbit a n else Z.testbit A (n - 8).
Proof.
  intros Ha Hn. destruct (Z.ltb_spec n 8).
  - rewrite <- (Z.mod_pow2_bits_low _ 8) by lia. f_equal. change (2 ^ 8) with 256.
    rewrite Z.mul_comm, Z_mod_plus_full. by apply Z.mod_small.
  - replace (Z.testbit A (n - 8)) with (Z.testbit (Z.shiftr (a + 256 * A) 8) (n - 8)).
    + rewrite Z.shiftr_spec by lia. f_equal. lia.
    + f_equal. rewrite Z.shiftr_div_pow2 by lia. change (2 ^ 8) with 256.
      rewrite Z.mul_comm, Z.div_add by done. rewrite Z.div_small by done. done.
Qed.

Lemma land_byte a b : is_byte a -> is_byte b -> is_byte (Z.land a b).
Proof.
  unfold is_byte. intros Ha Hb. assert (0 <= Z.land a b) by (apply Z.land_nonneg; lia).
  split; [done|]. destruct (Z.eq_dec (Z.land a b) 0) as [->|Hne]; [lia|].
  apply Z.log2_lt_cancel. eapply Z.le_lt_trans; [apply Z.log2_land; lia|].
  eapply Z.le_lt_trans; [apply Z.le_min_l|].
  assert (Z.log2 a < 8); [|done]. destruct (Z.eq_dec a 0) as [->|]; [done|].
  apply Z.log2_lt_pow2; lia.
Qed.

Lemma byte_land a A b B :
  is_byte a -> is_byte b ->
  Z.land (a + 256 * A) (b + 256 * B) = Z.land a b + 256 * Z.land A B.
Proof.
  intros Ha Hb. pose proof (land_byte _ _ Ha Hb).
  apply Z.bits_inj'. intros n Hn. rewrite Z.land_spec, !byte_testbit by done.
  destruct (n <? 8); by rewrite Z.land_spec.
Qed.

Lemma le_word_range bs : Forall is_byte bs -> 0 <= le_word bs < 256 ^ Z.of_nat (length bs).
Proof.
  induction 1 as [|b bs Hb Hbs IH]; cbn [le_word foldr length]; [lia|].
  fold (le_word bs). rewrite Nat2Z.inj_succ, Z.pow_succ_r by lia. unfold is_byte in Hb. lia.
Qed.

Definition zero_test (k : nat) (x : Z) : Z :=
  Z.land (Z.land ((x - le_word (replicate k 1)) mod 256 ^ Z.of_nat k)
    (256 ^ Z.of_nat k - 1 - x)) (le_word (replicate k 128)).

Lemma zero_test_nonneg k x : 0 <= zero_test k x.
Proof.
  unfold zero_test. apply Z.land_nonneg. right.
  assert (0 <= le_word (replicate k 128) < 256 ^ Z.of_nat (length (replicate k 128))); [|lia].
  apply le_word_range, Forall_replicate. done.
Qed.

Lemma nonzero_byte_test b : 1 <= b < 256 -> Z.land (Z.land (b - 1) (255 - b)) 128 = 0.
Proof.
  intros Hb. assert (forall n : nat, (n < 255)%nat ->
    Z.land (Z.land (Z.of_nat n) (254 - Z.of_nat n)) 128 = 0) as Hn.
  { assert (forallb (fun n : nat => Z.land (Z.land (Z.of_nat n) (254 - Z.of_nat n)) 128 =? 0)
      (seq 0 255) = true) as Hall by (by vm_compute).
    intros n Hn. rewrite forallb_forall in Hall. apply Z.eqb_eq, Hall, in_seq. lia. }
  specialize (Hn (Z.to_nat (b - 1))). rewrite Z2Nat.id in Hn by lia.
  replace (254 - (b - 1)) with (255 - b) in Hn by lia. apply Hn. lia.
Qed.

Lemma zero_test_cons k b bs :
  is_byte b -> length bs = k -> Forall is_byte bs ->
  exists t, 0 <= t /\ (b = 0 -> zero_test (S k) (b + 256 * le_word bs) = 128 + 256 * t) /\
    (b <> 0 -> zero_test (S k) (b + 256 * le_word bs) = 256 * zero_test k (le_word bs)).
Proof.
  intros Hb Hk Hbs. pose proof (le_word_range _ Hbs) as Hr. rewrite Hk in Hr.
  set (x := le_word bs) in *. set (M := 256 ^ Z.of_nat k) in *.
  set (o := le_word (replicate k 1)). set (h := le_word (replicate k 128)).
  assert (0 < M) by (unfold M; apply Z.pow_pos_nonneg; lia).
  assert (256 ^ Z.of_nat (S k) = 256 * M) as EM by (rewrite Nat2Z.inj_succ, Z.pow_succ_r by lia; done).
  assert (zero_test (S k) (b + 256 * x) =
    Z.land (Z.land ((b - 1 + 256 * (x - o)) mod (256 * M)) (255 - b + 256 * (M - 1 - x))) (128 + 256 * h)) as ET.
  { unfold zero_test. rewrite EM. cbn [replicate le_word foldr]. fold (le_word (replicate k 1)).
    fold (le_word (replicate k 128)). fold o h. do 2 f_equal; [f_equal|]; lia. }
  assert (forall l y, is_byte l -> (l + 256 * y) mod (256 * M) = l + 256 * (y mod M)) as Hmod.
  { intros l y Hl. unfold is_byte in Hl. symmetry. apply (Z.mod_unique_pos _ _ (y / M)).
    - pose proof (Z.mod_pos_bound y M). lia.
    - pose proof (Z.div_mod y M). lia. }
  unfold is_byte in *.
  exists (Z.land (Z.land ((x - o - 1) mod M) (M - 1 - x)) h). split; [|split].
  - apply Z.land_nonneg. left. apply Z.land_nonneg. right. lia.
  - intros ->. rewrite ET. replace (0 - 1 + 256 * (x - o)) with (255 + 256 * (x - o - 1)) by lia.
    rewrite Hmod by lia. rewrite !byte_land by (unfold is_byte; done || lia). done.
  - intros Hne. rewrite ET, Hmod by lia. rewrite byte_land by (unfold is_byte; lia).
    rewrite byte_land; [|by apply land_byte; unfold is_byte; lia|done].
    by rewrite nonzero_byte_test by lia.
Qed.

Lemma zero_test_spec bs :
  Forall is_byte bs -> zero_test (length bs) (le_word bs) = 0 <-> Forall (fun b => b <> 0) bs.
Proof.
  induction 1 as [|b bs Hb Hbs IH]; [by split|]. rewrite Forall_cons, <- IH. cbn [length].
  change (le_word (b :: bs)) with (b + 256 * le_word bs).
  destruct (zero_test_cons _ _ _ Hb eq_refl Hbs) as (t & Ht & H0 & H1).
  destruct (Z.eq_dec b 0) as [->|Hne].
  - rewrite H0 by done. split; [lia|]. by intros [? _].
  - rewrite H1 by done. pose proof (zero_test_nonneg (length bs) (le_word bs)). split; [|lia].
    intros E. split; [done|lia].
Qed.

Lemma has_zero_byte_test x : has_zero_byte x = negb (zero_test 8 x =? 0).
Proof. done. Qed.

(** The word test of [strlen]: [(x - ones) & ~x & highs] is not zero
    exactly when one of the eight bytes of the word is zero. *)
Theorem has_zero_byte_spec bs :
  Forall is_byte bs -> length bs = 8%nat ->
  has_zero_byte (le_word bs) = existsb (fun b => b =? 0) bs.
Proof.
  intros Hbs Hl. rewrite has_zero_byte_test, <- Hl. pose proof (zero_test_spec _ Hbs) as Hz.
  destruct (Z.eqb_spec (zero_test (length bs) (le_word bs)) 0) as [E|E]; simpl.
  - symmetry. apply not_true_iff_false. intros (b & Hin & Hb)%existsb_exists.
    apply Z.eqb_eq in Hb. apply Hz in E. rewrite Forall_forall in E.
    apply (E b); [by apply list_elem_of_In|done].
  - symmetry. apply existsb_exists. destruct (decide (Exists (fun b => b = 0) bs)) as [Hex|Hn].
    + apply Exists_exists in Hex as (b & Hin & ->). exists 0. split; [by apply list_elem_of_In|done].
    + exfalso. apply E, Hz. apply not_Exists_Forall in Hn; [done|apply _].
Qed.

(** ** Memory *)

Definition mem_ok (m : mem) : Prop := forall a b, m !! a = Some b -> is_byte b.
Definition mapped (m : mem) (a n : Z) : Prop := forall x, a <= x < a + n -> is_Some (m !! x).

Lemma load8_ok m a b : m !! a = Some b -> load8 m a = Ok b.
Proof. unfold load8. by intros ->. Qed.

Lemma load_le_ok m k : forall a,
  mapped m a (Z.of_nat k) ->
  exists bs, length bs = k /\ load_le k m a = Ok (le_word bs) /\
    forall i b, bs !! i = Some b -> m !! (a + Z.of_nat i) = Some b.
Proof.
  induction k as [|k IH]; intros a Hm.
  { exists []. split; [done|]. split; [done|]. intros i b. by rewrite lookup_nil. }
  destruct (Hm a ltac:(lia)) as [b Hb].
  destruct (IH (a + 1)) as (bs & Hl & Hr & Hat); [intros x Hx; apply Hm; lia|].
  exists (b :: bs). split; [simpl; lia|]. split.
  - simpl. rewrite (load8_ok _ _ _ Hb). simpl. rewrite Hr. done.
  - intros [|i] c Hc; simpl in Hc.
    + simplify_eq. by rewrite Z.add_0_r.
    + apply Hat in Hc. by replace (a + Z.of_nat (S i)) with (a + 1 + Z.of_nat i) by lia.
Qed.

Lemma store8_ok a v m : is_Some (m !! a) -> store8 a v m = Ok (<[a := v]> m).
Proof. intros [b Hb]. unfold store8. by rewrite Hb. Qed.

Lemma store_le_ok bs : forall a m,
  Forall is_byte bs -> mapped m a (Z.of_nat (length bs)) ->
  exists m', store_le (length bs) a (le_word bs) m = Ok m' /\
    forall x, m' !! x = if decide (a <= x < a + Z.of_nat (length bs))
      then bs !! Z.to_nat (x - a) else m !! x.
Proof.
  induction bs as [|b bs IH]; intros a m Hbs Hm.
  { exists m. split; [done|]. intros x. by rewrite decide_False by (simpl; lia). }
  apply Forall_cons in Hbs as [Hb Hbs]. cbn [length] in *.
  destruct (IH (a + 1) (<[a := b]> m) Hbs) as (m' & Hr & Hat).
  { intros x Hx. rewrite lookup_insert_ne by lia. apply Hm. lia. }
  exists m'. split.
  - cbn [store_le]. change (le_word (b :: bs)) with (b + 256 * le_word bs).
    rewrite Z.mul_comm, Z_mod_plus_full, Z.div_add by done. unfold is_byte in Hb.
    rewrite Z.mod_small, (Z.div_small b) by lia. rewrite store8_ok by (apply Hm; lia). exact Hr.
  - intros x. rewrite Hat, lookup_insert. destruct (decide (a = x)) as [<-|].
    + rewrite decide_False, decide_True by lia. by rewrite Z.sub_diag.
    + repeat case_decide; try lia; [|done].
      replace (Z.to_nat (x - a)) with (S (Z.to_nat (x - (a + 1)))) by lia. done.
Qed.

(** Bytes [i .. i+k) of the source have been copied. *)
Definition copied (m : mem) (d s lo hi : Z) (m' : mem) : Prop :=
  forall x, m' !! x = if decide (d + lo <= x < d + hi) then m !! (s + (x - d)) else m !! x.

Lemma copied_refl m d s i : copied m d s i i m.
Proof. intros x. by rewrite decide_False by lia. Qed.

Lemma copied_mapped m d s lo hi m' a n :
  copied m d s lo hi m' -> mapped m a n -> mapped m (s + lo) (hi - lo) -> mapped m' a n.
Proof.
  intros Hc Hm Hs x Hx. rewrite Hc. case_decide; [|by apply Hm]. apply Hs. lia.
Qed.

(** Reading [k] bytes that are not overwritten yet and writing them. *)
Lemma copy_chunk m d s lo hi m' o (k : nat) :
  mem_ok m -> copied m d s lo hi m' -> lo <= hi ->
  mapped m (s + o) (Z.of_nat k) -> mapped m (d + o) (Z.of_nat k) -> mapped m (s + lo) (hi - lo) ->
  (forall x, s + o <= x < s + o + Z.of_nat k -> ~ d + lo <= x < d + hi) ->
  exists w m2, load_le k m' (s + o) = Ok w /\ store_le k (d + o) w m' = Ok m2 /\
    forall x, m2 !! x = if decide (d + o <= x < d + o + Z.of_nat k)
      then m !! (s + (x - d)) else m' !! x.
Proof.
  intros Hok Hc Hle Hms Hmd Hmc Hdis.
  destruct (load_le_ok m' k (s + o)) as (bs & Hl & Hld & Hat); [by eapply copied_mapped|].
  assert (forall i b, bs !! i = Some b -> m !! (s + o + Z.of_nat i) = Some b) as Hbs.
  { intros i b Hi. pose proof (lookup_lt_Some _ _ _ Hi). apply Hat in Hi. rewrite Hc in Hi.
    rewrite decide_False in Hi; [done|]. apply Hdis. lia. }
  assert (Forall is_byte bs) as Hby.
  { apply Forall_forall. intros b [i Hi]%list_elem_of_lookup. eapply Hok. by apply Hbs. }
  destruct (store_le_ok bs (d + o) m' Hby) as (m2 & Hst & Hat2).
  { rewrite Hl. by eapply copied_mapped. }
  rewrite Hl in *. exists (le_word bs), m2. do 2 (split; [done|]). intros x. rewrite Hat2.
  case_decide as Hx; [|done].
  destruct (lookup_lt_is_Some_2 bs (Z.to_nat (x - (d + o)))) as [b Hb]; [lia|].
  rewrite Hb. symmetry. apply Hbs in Hb. rewrite <- Hb. f_equal. lia.
Qed.

Lemma copied_extend m d s lo hi m1 o k m2 :
  copied m d s lo hi m1 ->
  (forall x, m2 !! x = if decide (d + o <= x < d + o + k) then m !! (s + (x - d)) else m1 !! x) ->
  (o = hi /\ lo <= hi /\ 0 <= k -> copied m d s lo (hi + k) m2) /\
  (o + k = lo /\ lo <= hi /\ 0 <= k -> copied m d s o hi m2).
Proof.
  intros Hc Hat. split; intros (? & ? & ?) x; rewrite Hat, Hc; repeat case_decide; try lia; done.
Qed.

Lemma copy_byte m d s lo hi m' o :
  mem_ok m -> copied m d s lo hi m' -> lo <= hi ->
  is_Some (m !! (s + o)) -> is_Some (m !! (d + o)) -> mapped m (s + lo) (hi - lo) ->
  ~ d + lo <= s + o < d + hi ->
  exists w m2, load8 m' (s + o) = Ok w /\ store8 (d + o) w m' = Ok m2 /\
    forall x, m2 !! x = if decide (d + o <= x < d + o + 1) then m !! (s + (x - d)) else m' !! x.
Proof.
  intros Hok Hc Hle [w Hw] Hd Hm Hdis.
  assert (m' !! (s + o) = Some w) as Hw' by (by rewrite Hc, decide_False).
  assert (is_Some (m' !! (d + o))) as Hd'.
  { apply (copied_mapped _ _ _ _ _ _ (d + o) 1 Hc); [|done|lia].
    intros x Hx. by replace x with (d + o) by lia. }
  exists w, (<[d + o := w]> m'). split; [by apply load8_ok|]. split; [by apply store8_ok|].
  intros x. rewrite lookup_insert. repeat case_decide; try lia; [|done].
  subst x. rewrite <- Hw. f_equal. lia.
Qed.

Section copying.
Context (m : mem) (d s n : Z).
Context (Hok : mem_ok m) (Hn : 0 <= n) (Hms : mapped m s n) (Hmd : mapped m d n).

Section forward.
Context (Hdir : d <= s \/ s + n <= d).

Lemma copy_bytes_ok al fuel : forall i m1,
  copied m d s 0 i m1 -> 0 <= i <= n -> n - i <= Z.of_nat fuel ->
  exists j m2, copy_bytes fuel al (mk_cur (d + i) (s + i) (n - i)) m1 =
      Ok (mk_cur (d + j) (s + j) (n - j), m2) /\
    i <= j <= n /\ copied m d s 0 j m2 /\ (al = false -> j = n).
Proof.
  induction fuel as [|fuel IH]; intros i m1 Hc Hi Hf; cbn [copy_bytes cu_n cu_d cu_s];
    (destruct (negb (n - i =? 0) && (negb al || unaligned (Z.lor (d + i) (s + i)))) eqn:E; cbn [negb];
     [|exists i, m1; split; [done|split; [lia|split; [done|]]]; intros ->;
       rewrite andb_true_r in E; destruct (Z.eqb_spec (n - i) 0); [lia|done]]).
  - exfalso. apply andb_true_iff in E as [E _]. destruct (Z.eqb_spec (n - i) 0); [done|lia].
  - apply andb_true_iff in E as [E _]. assert (i < n) by (destruct (Z.eqb_spec (n - i) 0); [done|lia]).
    destruct (copy_byte m d s 0 i m1 i Hok Hc) as (w & m2 & Hl & Hs & Hat);
      [lia|apply Hms; lia|apply Hmd; lia|intros x Hx; apply Hms; lia|lia|].
    destruct (copied_extend _ _ _ _ _ _ _ _ _ Hc Hat) as [Hc2 _].
    destruct (IH (i + 1) m2) as (j & m3 & Hr & Hj & Hcj & Hal); [apply Hc2; lia|lia|lia|].
    exists j, m3. rewrite Hl. cbn [mbind outcome_bind]. rewrite Hs. cbn [mbind outcome_bind].
    rewrite <- !Z.add_assoc, <- Z.sub_add_distr. split; [done|]. split; [lia|done].
Qed.

Lemma copy_words_ok fuel : forall i m1,
  copied m d s 0 i m1 -> 0 <= i <= n -> n - i <= Z.of_nat fuel ->
  exists j m2, copy_words fuel (mk_cur (d + i) (s + i) (n - i)) m1 =
      Ok (mk_cur (d + j) (s + j) (n - j), m2) /\ i <= j <= n /\ copied m d s 0 j m2.
Proof.
  induction fuel as [|fuel IH]; intros i m1 Hc Hi Hf; cbn [copy_words cu_n cu_d cu_s];
    unfold WORD_BYTES; (destruct (Z.leb_spec 8 (n - i)); cbn [negb];
      [|exists i, m1; split; [done|split; [lia|done]]]).
  - lia.
  - destruct (copy_chunk m d s 0 i m1 i 8 Hok Hc) as (w & m2 & Hl & Hs & Hat);
      [lia|intros x Hx; apply Hms; lia|intros x Hx; apply Hmd; lia|intros x Hx; apply Hms; lia|lia|].
    destruct (copied_extend _ _ _ _ _ _ _ _ _ Hc Hat) as [Hc2 _].
    destruct (IH (i + 8) m2) as (j & m3 & Hr & Hj & Hcj); [apply Hc2; lia|lia|lia|].
    exists j, m3. unfold load_word, store_word. rewrite Hl. cbn [mbind outcome_bind]. rewrite Hs.
    cbn [mbind outcome_bind]. rewrite <- !Z.add_assoc, <- Z.sub_add_distr.
    split; [exact Hr|]. split; [lia|done].
Qed.

Lemma memcpy_ok : exists m', memcpy d s n m = Ok m' /\ copied m d s 0 n m'.
Proof.
  destruct (copy_bytes_ok true (Z.to_nat n) 0 m) as (i & m1 & H1 & Hi & Hc1 & _);
    [apply copied_refl|lia|lia|].
  destruct (copy_words_ok (Z.to_nat n) i m1) as (j & m2 & H2 & Hj & Hc2); [done|lia|lia|].
  destruct (copy_bytes_ok false (Z.to_nat n) j m2) as (k & m3 & H3 & Hk & Hc3 & E); [done|lia|lia|].
  rewrite (E eq_refl) in *. rewrite !Z.add_0_r, Z.sub_0_r in H1.
  exists m3. split; [|done]. unfold memcpy. rewrite H1. cbn. rewrite H2. cbn. by rewrite H3.
Qed.
End forward.

Section backward.
Context (Hdir : s <= d).

Lemma back_bytes_ok al fuel : forall i m1,
  copied m d s i n m1 -> 0 <= i <= n -> i <= Z.of_nat fuel ->
  exists j m2, back_bytes fuel al (mk_cur (d + i) (s + i) i) m1 =
      Ok (mk_cur (d + j) (s + j) j, m2) /\
    0 <= j <= i /\ copied m d s j n m2 /\ (al = false -> j = 0).
Proof.
  induction fuel as [|fuel IH]; intros i m1 Hc Hi Hf; cbn [back_bytes cu_n cu_d cu_s];
    (destruct (negb (i =? 0) && (negb al || unaligned (Z.lor (d + i) (s + i)))) eqn:E; cbn [negb];
     [|exists i, m1; split; [done|split; [lia|split; [done|]]]; intros ->;
       rewrite andb_true_r in E; destruct (Z.eqb_spec i 0); [lia|done]]).
  - exfalso. apply andb_true_iff in E as [E _]. destruct (Z.eqb_spec i 0); [done|lia].
  - apply andb_true_iff in E as [E _]. assert (0 < i) by (destruct (Z.eqb_spec i 0); [done|lia]).
    destruct (copy_byte m d s i n m1 (i - 1) Hok Hc) as (w & m2 & Hl & Hs & Hat);
      [lia|apply Hms; lia|apply Hmd; lia|intros x Hx; apply Hms; lia|lia|].
    destruct (copied_extend _ _ _ _ _ _ _ _ _ Hc Hat) as [_ Hc2].
    destruct (IH (i - 1) m2) as (j & m3 & Hr & Hj & Hcj & Hal); [apply Hc2; lia|lia|lia|].
    exists j, m3. rewrite <- !Z.add_sub_assoc. rewrite Hl. cbn [mbind outcome_bind]. rewrite Hs.
    cbn [mbind outcome_bind]. split; [done|]. split; [lia|done].
Qed.

Lemma back_words_ok fuel : forall i m1,
  copied m d s i n m1 -> 0 <= i <= n -> i <= Z.of_nat fuel ->
  exists j m2, back_words fuel (mk_cur (d + i) (s + i) i) m1 =
      Ok (mk_cur (d + j) (s + j) j, m2) /\ 0 <= j <= i /\ copied m d s j n m2.
Proof.
  induction fuel as [|fuel IH]; intros i m1 Hc Hi Hf; cbn [back_words cu_n cu_d cu_s];
    unfold WORD_BYTES; (destruct (Z.leb_spec 8 i); cbn [negb];
      [|exists i, m1; split; [done|split; [lia|done]]]).
  - lia.
  - destruct (copy_chunk m d s i n m1 (i - 8) 8 Hok Hc) as (w & m2 & Hl & Hs & Hat);
      [lia|intros x Hx; apply Hms; lia|intros x Hx; apply Hmd; lia|intros x Hx; apply Hms; lia|lia|].
    destruct (copied_extend _ _ _ _ _ _ _ _ _ Hc Hat) as [_ Hc2].
    destruct (IH (i - 8) m2) as (j & m3 & Hr & Hj & Hcj); [apply Hc2; lia|lia|lia|].
    exists j, m3. unfold load_word, store_word. rewrite <- !Z.add_sub_assoc. rewrite Hl.
    cbn [mbind outcome_bind]. rewrite Hs. cbn [mbind outcome_bind].
    split; [exact Hr|]. split; [lia|done].
Qed.
End backward.

Lemma memmove_ok : exists m', memmove d s n m = Ok m' /\ copied m d s 0 n m'.
Proof.
  unfold memmove. destruct (Z.eqb_spec d s) as [E|Hne]; [|destruct (Z.eqb_spec n 0) as [E|Hn0]]; cbn [orb].
  - exists m. split; [done|]. intros x. case_decide; [|done]. f_equal. lia.
  - exists m. split; [done|]. intros x. by rewrite decide_False by lia.
  - destruct ((d <? s) || (s + n <=? d)) eqn:Hdir.
    + apply memcpy_ok. apply orb_true_iff in Hdir as [?%Z.ltb_lt| ?%Z.leb_le]; lia.
    + apply orb_false_iff in Hdir as [?%Z.ltb_ge ?%Z.leb_gt].
      destruct (back_bytes_ok ltac:(lia) true (Z.to_nat n) n m) as (i & m1 & H1 & Hi & Hc1 & _);
        [apply copied_refl|lia|lia|].
      destruct (back_words_ok ltac:(lia) (Z.to_nat n) i m1) as (j & m2 & H2 & Hj & Hc2); [done|lia|lia|].
      destruct (back_bytes_ok ltac:(lia) false (Z.to_nat n) j m2) as (k & m3 & H3 & Hk & Hc3 & E);
        [done|lia|lia|].
      rewrite (E eq_refl) in *. exists m3. split; [|done]. rewrite H1. cbn. rewrite H2. cbn. by rewrite H3.
Qed.
End copying.

(** [memmove] always returns and leaves at the destination the bytes the
    source held before the call, whether the two blocks overlap or not, and
    every other byte as it was; so does [memcpy] when the blocks do not overlap
    or the destination is the lower one. *)
Theorem memmove_spec m d s n :
  mem_ok m -> 0 <= n -> mapped m s n -> mapped m d n ->
  exists m', memmove d s n m = Ok m' /\
    (forall x, m' !! x = if decide (d <= x < d + n) then m !! (s + (x - d)) else m !! x) /\
    (d <= s \/ s + n <= d -> memcpy d s n m = Ok m').
Proof.
  intros Hok Hn Hs Hd. destruct (memmove_ok m d s n Hok Hn Hs Hd) as (m' & Hr & Hc).
  exists m'. split; [done|]. unfold copied in Hc. rewrite Z.add_0_r in Hc. split; [done|].
  intros Hdir. destruct (memcpy_ok m d s n Hok Hn Hs Hd Hdir) as (m2 & Hr2 & Hc2).
  rewrite Hr2. f_equal. apply map_eq. intros x. rewrite Hc. unfold copied in Hc2.
  rewrite Z.add_0_r in Hc2. by rewrite Hc2.
Qed.

(** *** [memset] *)

Lemma repeat_byte_fill c : is_byte c -> repeat_byte c = le_word (replicate 8 c).
Proof.
  intros Hc. assert (forall n : nat, (n < 256)%nat ->
    repeat_byte (Z.of_nat n) = le_word (replicate 8 (Z.of_nat n))) as Hn.
  { assert (forallb (fun n : nat => repeat_byte (Z.of_nat n) =? le_word (replicate 8 (Z.of_nat n)))
      (seq 0 256) = true) as Hall by (by vm_compute).
    intros n Hn. rewrite forallb_forall in Hall. apply Z.eqb_eq, Hall, in_seq. lia. }
  unfold is_byte in Hc. specialize (Hn (Z.to_nat c)). rewrite Z2Nat.id in Hn by lia. apply Hn. lia.
Qed.

Section filling.
Context (m : mem) (p c n : Z).
Context (Hn : 0 <= n) (Hm : mapped m p n).

Definition filled (hi : Z) (m' : mem) : Prop :=
  forall x, m' !! x = if decide (p <= x < p + hi) then Some (u8 c) else m !! x.

Lemma filled_mapped hi m' a k : filled hi m' -> mapped m a k -> mapped m' a k.
Proof. intros Hf Hk x Hx. rewrite Hf. case_decide; [done|by apply Hk]. Qed.

Lemma set_bytes_ok al fuel : forall i m1,
  filled i m1 -> 0 <= i <= n -> n - i <= Z.of_nat fuel ->
  exists j m2, set_bytes fuel al c (p + i) (n - i) m1 = Ok (p + j, n - j, m2) /\
    i <= j <= n /\ filled j m2 /\ (al = false -> j = n).
Proof.
  induction fuel as [|fuel IH]; intros i m1 Hc Hi Hf; cbn [set_bytes];
    (destruct (negb (n - i =? 0) && (negb al || unaligned (p + i))) eqn:E; cbn [negb];
     [|exists i, m1; split; [done|split; [lia|split; [done|]]]; intros ->;
       rewrite andb_true_r in E; destruct (Z.eqb_spec (n - i) 0); [lia|done]]).
  - exfalso. apply andb_true_iff in E as [E _]. destruct (Z.eqb_spec (n - i) 0); [done|lia].
  - apply andb_true_iff in E as [E _]. assert (i < n) by (destruct (Z.eqb_spec (n - i) 0); [done|lia]).
    rewrite store8_ok by (apply (filled_mapped _ _ p n Hc Hm); lia). cbn [mbind outcome_bind].
    destruct (IH (i + 1) (<[p + i := u8 c]> m1)) as (j & m3 & Hr & Hj & Hcj & Hal); [|lia|lia|].
    { intros x. rewrite lookup_insert, Hc. repeat case_decide; try lia; done. }
    exists j, m3. rewrite <- Z.add_assoc, <- Z.sub_add_distr. split; [done|]. split; [lia|done].
Qed.

Lemma set_words_ok fuel : forall i m1,
  filled i m1 -> 0 <= i <= n -> n - i <= Z.of_nat fuel ->
  exists j m2, set_words fuel (repeat_byte (u8 c)) (p + i) (n - i) m1 = Ok (p + j, n - j, m2) /\
    i <= j <= n /\ filled j m2.
Proof.
  assert (is_byte (u8 c)) as Hby by (apply Z.mod_pos_bound; done).
  induction fuel as [|fuel IH]; intros i m1 Hc Hi Hf; cbn [set_words];
    unfold WORD_BYTES; (destruct (Z.leb_spec 8 (n - i)); cbn [negb];
      [|exists i, m1; split; [done|split; [lia|done]]]).
  - lia.
  - destruct (store_le_ok (replicate 8 (u8 c)) (p + i) m1) as (m2 & Hs & Hat).
    { apply Forall_replicate. done. }
    { apply (filled_mapped _ _ _ _ Hc). intros x Hx. apply Hm. rewrite length_replicate in Hx. lia. }
    rewrite length_replicate in *. rewrite repeat_byte_fill in * by done.
    destruct (IH (i + 8) m2) as (j & m3 & Hr & Hj & Hcj); [|lia|lia|].
    { intros x. rewrite Hat, Hc. repeat case_decide; try lia; try done.
      apply lookup_replicate_2. lia. }
    exists j, m3. unfold store_word. rewrite Hs. cbn [mbind outcome_bind].
    rewrite <- Z.add_assoc, <- Z.sub_add_distr. split; [exact Hr|]. split; [lia|done].
Qed.

Lemma memset_ok : exists m', memset p c n m = Ok m' /\ filled n m'.
Proof.
  destruct (set_bytes_ok true (Z.to_nat n) 0 m) as (i & m1 & H1 & Hi & Hc1 & _); [|lia|lia|].
  { intros x. by rewrite decide_False by lia. }
  destruct (set_words_ok (Z.to_nat n) i m1) as (j & m2 & H2 & Hj & Hc2); [done|lia|lia|].
  destruct (set_bytes_ok false (Z.to_nat n) j m2) as (k & m3 & H3 & Hk & Hc3 & E); [done|lia|lia|].
  rewrite (E eq_refl) in *. rewrite Z.add_0_r, Z.sub_0_r in H1.
  exists m3. split; [|done]. unfold memset. rewrite H1. cbn [mbind outcome_bind].
  rewrite H2. cbn [mbind outcome_bind]. by rewrite H3.
Qed.
End filling.

(** [memset] always returns and writes the low byte of its argument to
    the whole block and nowhere else. *)
Theorem memset_spec m p c n :
  0 <= n -> mapped m p n ->
  exists m', memset p c n m = Ok m' /\
    forall x, m' !! x = if decide (p <= x < p + n) then Some (u8 c) else m !! x.
Proof. apply memset_ok. Qed.

(** *** [strlen] *)

(** Memory is mapped by whole machine words, as pages are. *)
Definition word_mapped (m : mem) : Prop :=
  forall a x, is_Some (m !! a) -> x / 8 = a / 8 -> is_Some (m !! x).

(** The bytes of [l], none of them zero, then a zero byte. *)
Definition cstring (m : mem) (s : Z) (l : list Z) : Prop :=
  Forall (fun b => b <> 0) l /\
  (forall i b, l !! i = Some b -> m !! (s + Z.of_nat i) = Some b) /\
  m !! (s + Z.of_nat (length l)) = Some 0.

Lemma unaligned_mod p : unaligned p = negb (p mod 8 =? 0).
Proof. unfold unaligned, has_bits. change (WORD_BYTES - 1) with (Z.ones 3). by rewrite Z.land_ones. Qed.

Section strlen.
Context (m : mem) (s : Z) (l : list Z).
Context (Hok : mem_ok m) (Hw : word_mapped m) (Hl : cstring m s l).
Let n := Z.of_nat (length l).

Lemma cstring_at p : s <= p < s + n -> exists b, m !! p = Some b /\ b <> 0.
Proof.
  intros Hp. destruct Hl as (Hnz & Hat & _).
  destruct (lookup_lt_is_Some_2 l (Z.to_nat (p - s))) as [b Hb]; [lia|].
  exists b. rewrite Forall_forall in Hnz. split.
  - rewrite <- (Hat _ _ Hb). f_equal. lia.
  - apply Hnz, list_elem_of_lookup. eauto.
Qed.

Lemma cstring_end : m !! (s + n) = Some 0.
Proof. apply Hl. Qed.

Lemma strlen_head_ok fuel : forall p,
  s <= p <= s + n -> n < p - s + Z.of_nat fuel ->
  strlen_head fuel m s p = Ok (Some n, s + n) \/
  exists q, strlen_head fuel m s p = Ok (None, q) /\ p <= q <= s + n /\ q mod 8 = 0.
Proof.
  induction fuel as [|fuel IH]; intros p Hp Hf; [lia|]. cbn [strlen_head].
  rewrite unaligned_mod. destruct (Z.eqb_spec (p mod 8) 0) as [E|E]; cbn [negb].
  { right. exists p. split; [done|]. split; [lia|done]. }
  destruct (decide (p = s + n)) as [->|Hne].
  - left. rewrite (load8_ok _ _ _ cstring_end). simpl. by replace (s + n - s) with n by lia.
  - destruct (cstring_at p) as (b & Hb & Hnz); [lia|]. rewrite (load8_ok _ _ _ Hb).
    cbn [mbind outcome_bind]. destruct (Z.eqb_spec b 0); [done|].
    destruct (IH (p + 1)) as [Hr|(q & Hr & Hq)]; [lia|lia|by left|]. right. exists q.
    split; [done|]. split; [lia|apply Hq].
Qed.

Lemma strlen_words_ok fuel : forall p,
  s <= p <= s + n -> p mod 8 = 0 -> n < p - s + Z.of_nat fuel ->
  exists q, strlen_words fuel m p = Ok q /\ p <= q <= s + n.
Proof.
  induction fuel as [|fuel IH]; intros p Hp Ha Hf; [lia|]. cbn [strlen_words]. unfold load_word.
  assert (is_Some (m !! p)) as Hpm.
  { destruct (decide (p = s + n)) as [->|]; [rewrite cstring_end; eauto|].
    destruct (cstring_at p) as (b & Hb & _); [lia|eauto]. }
  destruct (load_le_ok m 8 p) as (bs & Hlen & Hld & Hat).
  { intros x Hx. apply (Hw p x Hpm). pose proof (Z.div_mod p 8 ltac:(lia)) as E.
    rewrite Ha in E. symmetry. apply (Z.div_unique _ _ _ (x - p)); lia. }
  rewrite Hld. cbn [mbind outcome_bind]. rewrite has_zero_byte_test.
  assert (Forall is_byte bs) as Hby.
  { apply Forall_forall. intros b [i Hi]%list_elem_of_lookup. eapply Hok. by apply Hat. }
  pose proof (zero_test_spec _ Hby) as Hz. rewrite Hlen in Hz.
  destruct (Z.eqb_spec (zero_test 8 (le_word bs)) 0) as [E|E]; cbn [negb].
  2:{ exists p. split; [done|lia]. }
  apply Hz in E. rewrite Forall_forall in E.
  assert (p + 8 <= s + n) as H8.
  { apply Z.nlt_ge. intros Hlt.
    destruct (lookup_lt_is_Some_2 bs (Z.to_nat (s + n - p))) as [b Hb]; [lia|].
    apply (E b); [apply list_elem_of_lookup; eauto|]. apply Hat in Hb.
    replace (p + Z.of_nat (Z.to_nat (s + n - p))) with (s + n) in Hb by lia.
    rewrite cstring_end in Hb. congruence. }
  destruct (IH (p + 8)) as (q & Hr & Hq); [lia| |lia|].
  { rewrite <- (Z_mod_plus_full p 1 8) in Ha. by rewrite Z.mul_1_l in Ha. }
  exists q. split; [exact Hr|lia].
Qed.

Lemma strlen_tail_ok fuel : forall p,
  s <= p <= s + n -> n < p - s + Z.of_nat fuel -> strlen_tail fuel m p = Ok (s + n).
Proof.
  induction fuel as [|fuel IH]; intros p Hp Hf; [lia|]. cbn [strlen_tail].
  destruct (decide (p = s + n)) as [->|Hne].
  - by rewrite (load8_ok _ _ _ cstring_end).
  - destruct (cstring_at p) as (b & Hb & Hnz); [lia|]. rewrite (load8_ok _ _ _ Hb).
    cbn [mbind outcome_bind]. destruct (Z.eqb_spec b 0); [done|]. apply IH; lia.
Qed.

Lemma strlen_ok fuel : s <> 0 -> n < Z.of_nat fuel -> strlen fuel m s = Ok n.
Proof.
  intros Hs Hf. unfold strlen. destruct (Z.eqb_spec s 0); [done|].
  destruct (strlen_head_ok fuel s) as [Hr|(q & Hr & Hq & Ha)]; [lia|lia|by rewrite Hr|].
  rewrite Hr. cbn [mbind outcome_bind fst snd].
  destruct (strlen_words_ok fuel q) as (q2 & Hr2 & Hq2); [lia|done|lia|].
  rewrite Hr2. cbn [mbind outcome_bind]. rewrite strlen_tail_ok by lia.
  cbn [mbind outcome_bind]. f_equal. lia.
Qed.
End strlen.

(** [strlen] of a terminated string is its length, for every alignment of
    the string, although it reads whole words past the terminator: they lie in
    a word the string touches. The null pointer has length zero. *)
Theorem strlen_spec m s l fuel :
  mem_ok m -> word_mapped m -> cstring m s l -> s <> 0 -> (length l < fuel)%nat ->
  strlen fuel m s = Ok (Z.of_nat (length l)) /\ strlen fuel m 0 = Ok 0.
Proof. intros ? ? ? ? ?. split; [|done]. apply strlen_ok; try done. lia. Qed.

(** *** [memcmp] *)

Section comparing.
Context (m : mem) (p q n : Z).
Context (Hok : mem_ok m) (Hn : 0 <= n) (Hmp : mapped m p n) (Hmq : mapped m q n).

Definition equal_upto (i : Z) : Prop := forall k, 0 <= k < i -> m !! (p + k) = m !! (q + k).

(** The first difference is at [i] and [r] is its sign. *)
Definition differ_at (i r : Z) : Prop :=
  exists a b, 0 <= i < n /\ m !! (p + i) = Some a /\ m !! (q + i) = Some b /\ a <> b /\
    equal_upto i /\ r = if a <? b then -1 else 1.

Lemma equal_snoc i : equal_upto i -> m !! (p + i) = m !! (q + i) -> equal_upto (i + 1).
Proof. intros He E k Hk. destruct (decide (k = i)) as [->|]; [done|]. apply He. lia. Qed.

Lemma cmp_step i :
  0 <= i < n -> equal_upto i ->
  exists a b, load8 m (p + i) = Ok a /\ load8 m (q + i) = Ok b /\
    (a = b -> equal_upto (i + 1)) /\ (a <> b -> differ_at i (if a <? b then -1 else 1)).
Proof.
  intros Hi He. destruct (Hmp (p + i) ltac:(lia)) as [a Ha]. destruct (Hmq (q + i) ltac:(lia)) as [b Hb].
  exists a, b. split; [by apply load8_ok|]. split; [by apply load8_ok|]. split.
  - intros ->. apply equal_snoc; [done|congruence].
  - intros Hne. by exists a, b.
Qed.

Lemma cmp_bytes_ok al fuel : forall i,
  equal_upto i -> 0 <= i <= n -> n - i <= Z.of_nat fuel ->
  (exists j, cmp_bytes fuel al (mk_cur (p + i) (q + i) (n - i)) m =
      Ok (None, mk_cur (p + j) (q + j) (n - j)) /\ i <= j <= n /\ equal_upto j /\ (al = false -> j = n)) \/
  (exists k r c, cmp_bytes fuel al (mk_cur (p + i) (q + i) (n - i)) m = Ok (Some r, c) /\ differ_at k r).
Proof.
  induction fuel as [|fuel IH]; intros i He Hi Hf; cbn [cmp_bytes cu_n cu_d cu_s];
    (destruct (negb (n - i =? 0) && (negb al || unaligned (Z.lor (p + i) (q + i)))) eqn:E; cbn [negb];
     [|left; exists i; split; [done|split; [lia|split; [done|]]]; intros ->;
       rewrite andb_true_r in E; destruct (Z.eqb_spec (n - i) 0); [lia|done]]).
  - exfalso. apply andb_true_iff in E as [E _]. destruct (Z.eqb_spec (n - i) 0); [done|lia].
  - apply andb_true_iff in E as [E _]. assert (i < n) by (destruct (Z.eqb_spec (n - i) 0); [done|lia]).
    destruct (cmp_step i ltac:(lia) He) as (a & b & Ha & Hb & Heq & Hne).
    rewrite Ha. cbn [mbind outcome_bind]. rewrite Hb. cbn [mbind outcome_bind].
    destruct (Z.eqb_spec a b) as [Eab|Nab]; cbn [negb]; [|right; eauto 6].
    rewrite <- !Z.add_assoc, <- Z.sub_add_distr.
    destruct (IH (i + 1) (Heq Eab)) as [(j & Hr & Hj & Hrest)|?]; [lia|lia| |by right].
    left. exists j. split; [done|]. split; [lia|done].
Qed.

Lemma cmp_in_word_ok k : forall i,
  equal_upto i -> 0 <= i -> i + Z.of_nat k <= n ->
  (cmp_in_word k (p + i) (q + i) m = Ok None /\ equal_upto (i + Z.of_nat k)) \/
  (exists j r, cmp_in_word k (p + i) (q + i) m = Ok (Some r) /\ differ_at j r).
Proof.
  induction k as [|k IH]; intros i He Hi Hk; cbn [cmp_in_word].
  { left. by rewrite Z.add_0_r. }
  destruct (cmp_step i ltac:(lia) He) as (a & b & Ha & Hb & Heq & Hne).
  rewrite Ha. cbn [mbind outcome_bind]. rewrite Hb. cbn [mbind outcome_bind].
  destruct (Z.eqb_spec a b) as [Eab|Nab]; cbn [negb]; [|right; eauto 6].
  rewrite <- !Z.add_assoc. replace (i + Z.of_nat (S k)) with (i + 1 + Z.of_nat k) by lia.
  apply IH; [by apply Heq|lia|lia].
Qed.

Lemma le_word_inj bs : forall bs', Forall is_byte bs -> Forall is_byte bs' ->
  length bs = length bs' -> le_word bs = le_word bs' -> bs = bs'.
Proof.
  induction bs as [|b bs IH]; intros [|b' bs'] H1 H2 Hl E; try done.
  apply Forall_cons in H1 as [Hb H1]. apply Forall_cons in H2 as [Hb' H2].
  change (b + 256 * le_word bs = b' + 256 * le_word bs') in E. unfold is_byte in *.
  assert (b = b' /\ le_word bs = le_word bs') as [-> E'] by lia. f_equal. apply IH; auto.
Qed.

Lemma cmp_words_ok fuel : forall i,
  equal_upto i -> 0 <= i <= n -> n - i <= Z.of_nat fuel ->
  (exists j, cmp_words fuel (mk_cur (p + i) (q + i) (n - i)) m =
      Ok (None, mk_cur (p + j) (q + j) (n - j)) /\ i <= j <= n /\ equal_upto j) \/
  (exists k r c, cmp_words fuel (mk_cur (p + i) (q + i) (n - i)) m = Ok (Some r, c) /\ differ_at k r).
Proof.
  induction fuel as [|fuel IH]; intros i He Hi Hf; cbn [cmp_words cu_n cu_d cu_s];
    unfold WORD_BYTES; (destruct (Z.leb_spec 8 (n - i)); cbn [negb];
      [|left; exists i; split; [done|split; [lia|done]]]).
  { lia. }
  unfold load_word.
  destruct (load_le_ok m 8 (p + i)) as (bs & Hl & Hr & Hat); [intros x Hx; apply Hmp; lia|].
  destruct (load_le_ok m 8 (q + i)) as (bs' & Hl' & Hr' & Hat'); [intros x Hx; apply Hmq; lia|].
  rewrite Hr. cbn [mbind outcome_bind]. rewrite Hr'. cbn [mbind outcome_bind].
  assert ((exists j r, cmp_in_word 8 (p + i) (q + i) m = Ok (Some r) /\ differ_at j r /\
      le_word bs <> le_word bs') \/
    ((if negb (le_word bs =? le_word bs') then cmp_in_word 8 (p + i) (q + i) m else Ok None) = Ok None /\
      equal_upto (i + 8))) as [(j & r & Hc & Hd & Hne)|[Hc He8]].
  { assert (le_word bs = le_word bs' -> equal_upto (i + 8)) as Heq.
    { intros E. apply le_word_inj in E; [| | |lia].
      - intros k Hk. destruct (decide (k < i)); [apply He; lia|].
        destruct (lookup_lt_is_Some_2 bs (Z.to_nat (k - i))) as [b Hb]; [lia|].
        pose proof (Hat _ _ Hb) as H1. rewrite E in Hb. pose proof (Hat' _ _ Hb) as H2.
        replace (p + i + Z.of_nat (Z.to_nat (k - i))) with (p + k) in H1 by lia.
        replace (q + i + Z.of_nat (Z.to_nat (k - i))) with (q + k) in H2 by lia. congruence.
      - apply Forall_forall. intros b [k Hk]%list_elem_of_lookup. eapply Hok. by apply Hat.
      - apply Forall_forall. intros b [k Hk]%list_elem_of_lookup. eapply Hok. by apply Hat'. }
    destruct (Z.eqb_spec (le_word bs) (le_word bs')) as [E|E]; cbn [negb]; [right; auto|].
    destruct (cmp_in_word_ok 8 i He) as [[Hc He8]|(j & r & Hc & Hd)]; [lia|lia|by right|left; eauto]. }
  - right. exists j, r, (mk_cur (p + i) (q + i) (n - i)).
    destruct (Z.eqb_spec (le_word bs) (le_word bs')); [done|]. cbn [negb]. rewrite Hc. done.
  - rewrite Hc. cbn [mbind outcome_bind]. rewrite <- !Z.add_assoc, <- Z.sub_add_distr.
    destruct (IH (i + 8) He8) as [(j & Hrr & Hj & Hrest)|?]; [lia|lia| |by right].
    left. exists j. split; [exact Hrr|]. split; [lia|done].
Qed.

Lemma memcmp_ok :
  (memcmp p q n m = Ok 0 /\ equal_upto n) \/
  (exists i r, memcmp p q n m = Ok r /\ differ_at i r).
Proof.
  unfold memcmp.
  destruct (cmp_bytes_ok true (Z.to_nat n) 0) as [(i & H1 & Hi & He1 & _)|(k & r & c & H1 & Hd)];
    [intros k; lia|lia|lia| |];
    rewrite !Z.add_0_r, Z.sub_0_r in H1; rewrite H1; cbn [mbind outcome_bind]; [|right; eauto].
  destruct (cmp_words_ok (Z.to_nat n) i) as [(j & H2 & Hj & He2)|(k & r & c & H2 & Hd)];
    [done|lia|lia| |]; rewrite H2; cbn [mbind outcome_bind]; [|right; eauto].
  destruct (cmp_bytes_ok false (Z.to_nat n) j) as [(k & H3 & Hk & He3 & E)|(k & r & c & H3 & Hd)];
    [done|lia|lia| |]; rewrite H3; cbn [mbind outcome_bind]; [left|right; eauto].
  split; [done|]. by rewrite <- (E eq_refl).
Qed.
End comparing.

(** [memcmp] always returns: 0 exactly when the blocks are equal, and
    otherwise the order of the first bytes that differ, taken as unsigned. *)
Theorem memcmp_spec m p q n :
  mem_ok m -> 0 <= n -> mapped m p n -> mapped m q n ->
  (memcmp p q n m = Ok 0 /\ forall k, 0 <= k < n -> m !! (p + k) = m !! (q + k)) \/
  (exists i a b, 0 <= i < n /\ m !! (p + i) = Some a /\ m !! (q + i) = Some b /\ a <> b /\
    (forall k, 0 <= k < i -> m !! (p + k) = m !! (q + k)) /\
    memcmp p q n m = Ok (if a <? b then -1 else 1)).
Proof.
  intros Hok Hn Hp Hq. destruct (memcmp_ok m p q n Hok Hn Hp Hq) as [?|(i & r & Hr & a & b & Hd)]; [by left|].
  right. exists i, a, b. destruct Hd as (? & ? & ? & ? & ? & ->). done.
Qed.

(** *** [strlcpy] *)

(** [strlcpy] copies at most [dstsz - 1] bytes of the string, always
    terminates the copy, writes nothing past the buffer, and returns the length
    of the source. *)
Theorem strlcpy_spec m dst src dstsz l fuel :
  mem_ok m -> word_mapped m -> cstring m src l -> src <> 0 -> (length l < fuel)%nat ->
  0 <= dstsz -> mapped m dst dstsz ->
  (dst <= src \/ src + Z.of_nat (length l) <= dst) ->
  exists m', strlcpy fuel dst src dstsz m = Ok (Z.of_nat (length l), m') /\
    (dstsz = 0 -> m' = m) /\
    (0 < dstsz -> forall x, m' !! x =
      if decide (dst <= x < dst + Z.min (Z.of_nat (length l)) (dstsz - 1))
      then m !! (src + (x - dst))
      else if decide (x = dst + Z.min (Z.of_nat (length l)) (dstsz - 1)) then Some 0 else m !! x).
Proof.
  intros Hok Hw Hl Hs Hf Hd Hm Hdir. unfold strlcpy. destruct (Z.eqb_spec src 0) as [?|_]; [done|].
  rewrite (strlen_ok m src l Hok Hw Hl fuel) by (done || lia). cbn [mbind outcome_bind].
  set (n := Z.of_nat (length l)) in *. destruct (Z.eqb_spec dstsz 0) as [->|Hnz].
  { exists m. split; [done|]. split; [done|lia]. }
  assert ((if dstsz <=? n then dstsz - 1 else n) = Z.min n (dstsz - 1)) as ->.
  { destruct (Z.leb_spec dstsz n); lia. }
  set (c := Z.min n (dstsz - 1)).
  assert (mapped m src n) as Hms.
  { intros x Hx. destruct (cstring_at m src l Hl x) as (b & Hb & _); [fold n; lia|eauto]. }
  assert (exists m1, (if negb (c =? 0) then memcpy dst src c m else Ok m) = Ok m1 /\
    copied m dst src 0 c m1) as (m1 & Hr & Hc).
  { destruct (Z.eqb_spec c 0) as [E|E]; cbn [negb].
    - exists m. split; [done|]. rewrite E. apply copied_refl.
    - apply memcpy_ok; try done; [unfold c; lia| | |unfold c; lia].
      + intros x Hx. apply Hms. unfold c in Hx. lia.
      + intros x Hx. apply Hm. unfold c in Hx. lia. }
  rewrite Hr. cbn [mbind outcome_bind].
  assert (is_Some (m1 !! (dst + c))) as Hsome.
  { rewrite Hc. rewrite decide_False by lia. apply Hm. unfold c. lia. }
  rewrite store8_ok by done. cbn [mbind outcome_bind]. eexists. split; [done|]. split; [lia|].
  intros _ x. rewrite lookup_insert, Hc, Z.add_0_r. fold c. repeat case_decide; try lia; done.
Qed.

(** ** Witnesses: a block of sixteen mapped bytes *)

Definition demo_mem : mem := list_to_map (zip (seqZ 8 16) [104; 105; 0; 7; 7; 7; 7; 7; 0; 0; 0; 0; 1; 2; 3; 4]).

Lemma demo_mem_check :
  map_fold (fun a b r => (8 <=? a) && (a <? 24) && (0 <=? b) && (b <? 256) && r) true demo_mem = true /\
  forallb (fun a => bool_decide (is_Some (demo_mem !! a))) (seqZ 8 16) = true.
Proof. by vm_compute. Qed.

Lemma demo_mem_dom a : is_Some (demo_mem !! a) <-> 8 <= a < 24.
Proof.
  split.
  - intros [b Hb]. unfold demo_mem in Hb. apply elem_of_list_to_map_2 in Hb.
    apply elem_of_zip_l in Hb. apply elem_of_seqZ in Hb. lia.
  - intros Ha. destruct demo_mem_check as [_ H]. rewrite forallb_forall in H.
    specialize (H a). apply bool_decide_eq_true in H; [done|].
    apply list_elem_of_In, elem_of_seqZ. lia.
Qed.

Lemma demo_mem_ok : mem_ok demo_mem.
Proof.
  intros a b Hb. assert (8 <= a < 24) as Ha by (apply demo_mem_dom; eauto).
  assert (forallb (fun a => match demo_mem !! a with Some b => (0 <=? b) && (b <? 256) | None => false end)
    (seqZ 8 16) = true) as H by (by vm_compute).
  rewrite forallb_forall in H. specialize (H a). rewrite Hb in H.
  unfold is_byte. assert ((0 <=? b) && (b <? 256) = true); [|lia].
  apply H, list_elem_of_In, elem_of_seqZ. lia.
Qed.

Lemma demo_mapped a n : 8 <= a -> a + n <= 24 -> mapped demo_mem a n.
Proof. intros ? ? x Hx. apply demo_mem_dom. lia. Qed.

Lemma demo_word_mapped : word_mapped demo_mem.
Proof.
  intros a x Ha%demo_mem_dom E. apply demo_mem_dom.
  pose proof (Z.div_mod x 8 ltac:(lia)). pose proof (Z.div_mod a 8 ltac:(lia)).
  pose proof (Z.mod_pos_bound x 8 ltac:(lia)). pose proof (Z.mod_pos_bound a 8 ltac:(lia)). lia.
Qed.

Lemma demo_cstring : cstring demo_mem 8 [104; 105].
Proof.
  split; [repeat constructor; done|]. split; [|by vm_compute].
  intros [|[|i]] b Hb; simplify_eq/=; by vm_compute.
Qed.

Lemma has_zero_byte_spec_witness : has_zero_byte (le_word [1; 2; 3; 128; 0; 255; 7; 8]) = true.
Proof.
  rewrite (has_zero_byte_spec [1; 2; 3; 128; 0; 255; 7; 8]); [done| |done].
  repeat constructor; done.
Defined.

Lemma memmove_spec_witness :
  exists m', memmove 10 8 14 demo_mem = Ok m' /\ m' !! 10 = Some 104 /\ m' !! 23 = Some 2.
Proof.
  destruct (memmove_spec demo_mem 10 8 14) as (m' & Hr & Hat & _);
    [apply demo_mem_ok|lia|apply demo_mapped; lia|apply demo_mapped; lia|].
  exists m'. split; [exact Hr|]. split; [transitivity (demo_mem !! 8)|transitivity (demo_mem !! 21)];
    try (rewrite Hat; reflexivity); vm_compute; reflexivity.
Defined.

Lemma memset_spec_witness :
  exists m', memset 9 511 12 demo_mem = Ok m' /\ m' !! 20 = Some 255 /\ m' !! 21 = Some 2.
Proof.
  destruct (memset_spec demo_mem 9 511 12) as (m' & Hr & Hat); [lia|apply demo_mapped; lia|].
  exists m'. split; [exact Hr|]. rewrite !Hat. by vm_compute.
Defined.

Lemma strlen_spec_witness : strlen 3 demo_mem 8 = Ok 2.
Proof.
  apply (strlen_spec demo_mem 8 [104; 105] 3);
    [apply demo_mem_ok|apply demo_word_mapped|apply demo_cstring|done|simpl; lia].
Defined.

Lemma memcmp_spec_witness : memcmp 16 8 8 demo_mem = Ok (-1).
Proof.
  destruct (memcmp_spec demo_mem 16 8 8) as [[_ He]|(i & a & b & Hi & Ha & Hb & Hne & Heq & Hr)];
    [apply demo_mem_ok|lia|apply demo_mapped; lia|apply demo_mapped; lia| |].
  - specialize (He 0 ltac:(lia)). by vm_compute in He.
  - rewrite Hr. destruct (decide (i = 0)) as [->|].
    + vm_compute in Ha, Hb. by simplify_eq.
    + specialize (Heq 0 ltac:(lia)). by vm_compute in Heq.
Defined.

Lemma strlcpy_spec_witness :
  exists m', strlcpy 3 20 8 2 demo_mem = Ok (2, m') /\ m' !! 20 = Some 104 /\ m' !! 21 = Some 0.
Proof.
  destruct (strlcpy_spec demo_mem 20 8 2 [104; 105] 3) as (m' & Hr & _ & Hat);
    [apply demo_mem_ok|apply demo_word_mapped|apply demo_cstring|done|simpl; lia|lia
    |apply demo_mapped; lia|right; simpl; lia|].
  exists m'. split; [exact Hr|]. rewrite !Hat by lia. by vm_compute.
Defined.
