(* ===== verification/WordMem.v ===== *)
(** Words in the byte memory of [StringLib]: what writing a little-endian word
    does, and which writes a later read does not see. The kernel heap and the
    driver loader keep their headers and patches in such words. *)
From S2P Require Import Prelude StringLib.

Fixpoint le_bytes (k : nat) (w : Z) : list Z :=
  match k with O => [] | S k => w mod 256 :: le_bytes k (w / 256) end.

Lemma le_bytes_length k : forall w, length (le_bytes k w) = k.
Proof. induction k as [|k IH]; intros w; simpl; [done|]. by rewrite IH. Qed.

Lemma le_bytes_byte k : forall w, Forall is_byte (le_bytes k w).
Proof.
  induction k as [|k IH]; intros w; simpl; constructor; [|apply IH].
  unfold is_byte. apply Z.mod_pos_bound. lia.
Qed.

Lemma le_word_bytes k : forall w, 0 <= w < 256 ^ Z.of_nat k -> le_word (le_bytes k w) = w.
Proof.
  induction k as [|k IH]; intros w Hw.
  - change (256 ^ Z.of_nat 0) with 1 in Hw. simpl. lia.
  - cbn [le_bytes]. change (le_word (?b :: ?bs)) with (b + 256 * le_word bs).
    rewrite Nat2Z.inj_succ, Z.pow_succ_r in Hw by lia.
    rewrite IH by (split; [apply Z.div_pos; lia|apply Z.div_lt_upper_bound; lia]).
    rewrite (Z.div_mod w 256) at 3 by lia. lia.
Qed.

(** Equal bytes read as equal words. *)
Lemma load_le_frame k m m' : forall a,
  (forall x, a <= x < a + Z.of_nat k -> m' !! x = m !! x) -> load_le k m' a = load_le k m a.
Proof.
  induction k as [|k IH]; intros a He; simpl; [done|].
  unfold load8. rewrite He by lia. destruct (m !! a); [|done]. simpl. rewrite IH; [done|].
  intros x Hx. apply He. lia.
Qed.

Lemma load_le_bytes bs : forall m a, (forall i b, bs !! i = Some b -> m !! (a + Z.of_nat i) = Some b) ->
  load_le (length bs) m a = Ok (le_word bs).
Proof.
  induction bs as [|b bs IH]; intros m a Hat; simpl; [done|].
  rewrite (load8_ok m a b) by (rewrite <- (Z.add_0_r a); by apply (Hat 0%nat)). simpl.
  rewrite IH; [done|]. intros i c Hi.
  replace (a + 1 + Z.of_nat i) with (a + Z.of_nat (S i)) by lia. by apply Hat.
Qed.

(** [m'] is [m] with the word [w] of [k] bytes written at [a]. *)
Record wrote (m : mem) (a : Z) (k : nat) (w : Z) (m' : mem) : Prop := {
  wr_load : load_le k m' a = Ok w;
  wr_frame x : ~ a <= x < a + Z.of_nat k -> m' !! x = m !! x;
  wr_ok : mem_ok m';
  wr_dom x : is_Some (m' !! x) <-> is_Some (m !! x);
}.

Lemma store_le_wrote k m a w : mem_ok m -> mapped m a (Z.of_nat k) -> 0 <= w < 256 ^ Z.of_nat k ->
  exists m', store_le k a w m = Ok m' /\ wrote m a k w m'.
Proof.
  intros Hok Hm Hw. destruct (store_le_ok (le_bytes k w) a m (le_bytes_byte k w)) as (m' & Hr & Hat);
    rewrite le_bytes_length in *; [done|]. rewrite le_word_bytes in Hr by done.
  exists m'. split; [done|].
  assert (forall x, a <= x < a + Z.of_nat k -> exists b, m' !! x = Some b /\ is_byte b) as Hin.
  { intros x Hx. rewrite Hat, decide_True by done.
    destruct (lookup_lt_is_Some_2 (le_bytes k w) (Z.to_nat (x - a))) as [b Hb]; [rewrite le_bytes_length; lia|].
    exists b. split; [done|]. pose proof (le_bytes_byte k w) as Hf. rewrite Forall_forall in Hf.
    apply Hf, list_elem_of_lookup. eauto. }
  split.
  - rewrite <- (le_bytes_length k w) at 1. rewrite <- (le_word_bytes k w) at 2 by done.
    apply load_le_bytes. intros i b Hi. pose proof (lookup_lt_Some _ _ _ Hi) as Hlt.
    rewrite le_bytes_length in Hlt. rewrite Hat, decide_True by lia. rewrite <- Hi. f_equal. lia.
  - intros x Hx. by rewrite Hat, decide_False.
  - intros x b Hx. destruct (decide (a <= x < a + Z.of_nat k)) as [H|H].
    + destruct (Hin x H) as (b' & Hb' & ?). congruence.
    + rewrite Hat, decide_False in Hx by done. by apply (Hok x).
  - intros x. destruct (decide (a <= x < a + Z.of_nat k)) as [H|H].
    + destruct (Hin x H) as (b' & Hb' & ?). split; [intros; by apply Hm|rewrite Hb'; eauto].
    + by rewrite Hat, decide_False.
Qed.

Lemma wrote_mapped m a k w m' b n : wrote m a k w m' -> mapped m b n -> mapped m' b n.
Proof. intros Hw Hm x Hx. apply (wr_dom _ _ _ _ _ Hw). by apply Hm. Qed.

Lemma mapped_sub m a n b k : mapped m a n -> a <= b -> b + k <= a + n -> mapped m b k.
Proof. intros Hm H1 H2 x Hx. apply Hm. lia. Qed.
