(* ===== verification/Kheap.v ===== *)
(** The kernel heap, [kernel/src/mm/kheap.c] and [mm/kheap.h]: slab caches for
    small sizes and whole blocks of the buddy allocator for large ones.

    Memory is the byte memory of the string routines at the addresses of the
    direct map; the free objects of a slab are linked through their first word
    and a large block starts with a header, both in that memory. [slab_t] and
    [slab_cache_t] objects are stores by address. [hhdm_offset] is the start of
    the direct map and [caches_at] the address of the static array [caches]. *)
From S2P Require Import Prelude Dll Pfndb Pmm StringLib.

Definition LARGE_MAGIC : Z := 0x4B484541504C4741.
Definition LARGE_PAGE_TAG : Z := 0x4B48454150000000.
Definition LARGE_PAGE_TAG_MASK : Z := 0xffffffffffffff00.

Definition size_classes : list Z := [8; 16; 32; 64; 128; 256; 512; 1024; 2048].

Record slab := mk_slab {
  sl_next : ptr;
  sl_prev : ptr;
  sl_freelist : Z;
  sl_inuse : Z;
  sl_total : Z;
  sl_page : ptr;
}.
Definition sl_set_next (p : ptr) (s : slab) : slab :=
  mk_slab p (sl_prev s) (sl_freelist s) (sl_inuse s) (sl_total s) (sl_page s).
Definition sl_set_prev (p : ptr) (s : slab) : slab :=
  mk_slab (sl_next s) p (sl_freelist s) (sl_inuse s) (sl_total s) (sl_page s).
Definition sl_set_freelist (a : Z) (s : slab) : slab :=
  mk_slab (sl_next s) (sl_prev s) a (sl_inuse s) (sl_total s) (sl_page s).
Definition sl_set_inuse (n : Z) (s : slab) : slab :=
  mk_slab (sl_next s) (sl_prev s) (sl_freelist s) n (sl_total s) (sl_page s).

#[export] Instance slab_links : Links Z slab := {
  lnext := sl_next;
  lprev := sl_prev;
  set_lnext := sl_set_next;
  set_lprev := sl_set_prev;
}.
#[export] Instance slab_links_laws : LinksLaws Z slab.
Proof. by split. Qed.

Record slab_cache := mk_cache {
  sc_size : Z;      (* obj_size; the name, only printed, is left out *)
  sc_align : Z;     (* obj_align *)
  sc_partial : ptr;
  sc_full : ptr;
  sc_allocs : Z;
  sc_frees : Z;
}.

(** The two lists of a cache, for the [slab_t **head] arguments. *)
Inductive which := Partial | Full.
#[export] Instance which_eq_dec : EqDecision which.
Proof. solve_decision. Defined.
Definition sc_head (w : which) (c : slab_cache) : ptr :=
  match w with Partial => sc_partial c | Full => sc_full c end.
Definition sc_set_head (w : which) (p : ptr) (c : slab_cache) : slab_cache :=
  match w with
  | Partial => mk_cache (sc_size c) (sc_align c) p (sc_full c) (sc_allocs c) (sc_frees c)
  | Full => mk_cache (sc_size c) (sc_align c) (sc_partial c) p (sc_allocs c) (sc_frees c)
  end.
Definition sc_count_alloc (c : slab_cache) : slab_cache :=
  mk_cache (sc_size c) (sc_align c) (sc_partial c) (sc_full c) (u64 (sc_allocs c + 1)) (sc_frees c).
Definition sc_count_free (c : slab_cache) : slab_cache :=
  mk_cache (sc_size c) (sc_align c) (sc_partial c) (sc_full c) (sc_allocs c) (u64 (sc_frees c + 1)).

Record kheap := mk_kheap {
  kh_pmm : pmm;
  kh_mem : mem;
  kh_slabs : gmap Z slab;
  kh_caches : gmap Z slab_cache;
  kh_allocs : Z;    (* total_alloc_count *)
  kh_frees : Z;     (* total_free_count *)
}.
Definition set_pmm (p : pmm) (s : kheap) : kheap :=
  mk_kheap p (kh_mem s) (kh_slabs s) (kh_caches s) (kh_allocs s) (kh_frees s).
Definition set_mem (m : mem) (s : kheap) : kheap :=
  mk_kheap (kh_pmm s) m (kh_slabs s) (kh_caches s) (kh_allocs s) (kh_frees s).
Definition set_slabs (m : gmap Z slab) (s : kheap) : kheap :=
  mk_kheap (kh_pmm s) (kh_mem s) m (kh_caches s) (kh_allocs s) (kh_frees s).
Definition set_caches (m : gmap Z slab_cache) (s : kheap) : kheap :=
  mk_kheap (kh_pmm s) (kh_mem s) (kh_slabs s) m (kh_allocs s) (kh_frees s).
Definition set_counts (a f : Z) (s : kheap) : kheap :=
  mk_kheap (kh_pmm s) (kh_mem s) (kh_slabs s) (kh_caches s) a f.

#[local] Abbreviation H := kheap.

Definition on_pmm {A} (f : ST pmm A) : ST H A := fun s =>
  match f (kh_pmm s) with
  | Ok (a, p) => Ok (a, set_pmm p s)
  | Panic => Panic | Fault => Fault | Timeout => Timeout
  end.
Definition on_mem (f : mem -> outcome mem) : ST H unit := fun s =>
  match f (kh_mem s) with
  | Ok m => Ok (tt, set_mem m s)
  | Panic => Panic | Fault => Fault | Timeout => Timeout
  end.
Definition read_word (a : Z) : ST H Z := fun s =>
  match load_word (kh_mem s) a with Ok w => Ok (w, s) | _ => Fault end.
Definition get_slab (a : Z) : ST H slab := fun s =>
  match kh_slabs s !! a with Some x => Ok (x, s) | None => Fault end.
Definition upd_slab (a : Z) (f : slab -> slab) : ST H unit := fun s =>
  match store_upd a f (kh_slabs s) with Ok m => Ok (tt, set_slabs m s) | _ => Fault end.
Definition get_cache (a : Z) : ST H slab_cache := fun s =>
  match kh_caches s !! a with Some x => Ok (x, s) | None => Fault end.
Definition upd_cache (a : Z) (f : slab_cache -> slab_cache) : ST H unit := fun s =>
  match store_upd a f (kh_caches s) with Ok m => Ok (tt, set_caches m s) | _ => Fault end.

Section kheap.
Context (hhdm_offset caches_at : Z).

Definition PHYS_TO_VIRT (p : Z) : Z := u64 (p + hhdm_offset).
Definition VIRT_TO_PHYS (v : Z) : Z := u64 (v - hhdm_offset).

Definition heap_db (s : H) : pfndb := mk_pfndb (pm_map (kh_pmm s)) (pm_max (kh_pmm s)) 0.

Definition page_from_alloc_ptr (virt : Z) : ST H ptr :=
  if virt <? hhdm_offset then mret None else
  gets (fun s => pfndb_phys_to_page (heap_db s) (VIRT_TO_PHYS (PAGE_ALIGN_DOWN virt))).

Definition page_is_large_alloc (g : page) : bool :=
  negb (PageSlab g) && (Z.land (pg_private g) LARGE_PAGE_TAG_MASK =? LARGE_PAGE_TAG).

Definition page_virt (p : ptr) : ST H Z :=
  gets (fun s => PHYS_TO_VIRT (pfndb_page_to_phys (heap_db s) p)).
Definition slab_from_page (p : ptr) : ST H Z := page_virt p.

Definition sizeof_slab : Z := 40.
Definition sizeof_slab_cache : Z := 48.

(** [~x] of a 32-bit operand. *)
Definition not32 (x : Z) : Z := 2 ^ 32 - 1 - x.

(** Where the objects of a slab start, and how many there are. *)
Definition slab_hdr (align : Z) : Z :=
  u32 (Z.land (u64 (sizeof_slab + align - 1)) (not32 (u32 (align - 1)))).
Definition slab_objs (align size : Z) : Z := u32 (PAGE_SIZE - slab_hdr align) / size.

(** The loop that links the objects, with [n] of them left. *)
Fixpoint link_slots (n : nat) (i total base size : Z) : ST H unit :=
  match n with
  | O => mret tt
  | S n =>
      on_mem (store_word (u64 (base + u32 (i * size)))
        (if i + 1 <? total then u64 (base + u32 ((i + 1) * size)) else 0)) ;;
      link_slots n (i + 1) total base size
  end.

Definition slab_create (c : Z) : ST H ptr :=
  page ← on_pmm pmm_alloc_page;
  match page with
  | None => mret None
  | Some p =>
      on_pmm (upd_page p (SetPageFlag PAGE_SLAB)) ;;
      on_pmm (upd_page p (pg_set_private c)) ;;
      slab ← slab_from_page page;
      cache ← get_cache c;
      let hdr := slab_hdr (sc_align cache) in
      if sc_size cache =? 0 then st_fault else
      let total := slab_objs (sc_align cache) (sc_size cache) in
      let base := u64 (slab + hdr) in
      modify (fun s => set_slabs (<[slab := mk_slab None None base 0 total page]> (kh_slabs s)) s) ;;
      link_slots (Z.to_nat total) 0 total base (sc_size cache) ;;
      mret (Some slab)
  end.

Definition slab_destroy (slab : Z) : ST H unit :=
  sl ← get_slab slab;
  match sl_page sl with
  | None => st_fault
  | Some p =>
      on_pmm (upd_page p (ClearPageFlag PAGE_SLAB)) ;;
      on_pmm (upd_page p (pg_set_private u64_max)) ;;
      modify (fun s => set_slabs (delete slab (kh_slabs s)) s) ;;
      on_pmm (pmm_free (Some p))
  end.

Definition slab_list_push (w : which) (c slab : Z) : ST H unit :=
  upd_slab slab (sl_set_prev None) ;;
  cache ← get_cache c;
  upd_slab slab (sl_set_next (sc_head w cache)) ;;
  match sc_head w cache with
  | Some hd => upd_slab hd (sl_set_prev (Some slab))
  | None => mret tt
  end ;;
  upd_cache c (sc_set_head w (Some slab)).

Definition slab_list_remove (w : which) (c slab : Z) : ST H unit :=
  sl ← get_slab slab;
  match sl_prev sl with
  | Some p => upd_slab p (sl_set_next (sl_next sl))
  | None => upd_cache c (sc_set_head w (sl_next sl))
  end ;;
  sl ← get_slab slab;
  match sl_next sl with
  | Some n => upd_slab n (sl_set_prev (sl_prev sl))
  | None => mret tt
  end ;;
  upd_slab slab (fun sl => sl_set_prev None (sl_set_next None sl)).

(** The first test of [slab_alloc]: whether there is a partial slab now. *)
Definition slab_refill (c : Z) : ST H bool :=
  cache ← get_cache c;
  match sc_partial cache with
  | Some _ => mret true
  | None =>
      slab ← slab_create c;
      match slab with
      | None => mret false
      | Some s => slab_list_push Partial c s ;; mret true
      end
  end.

Definition slab_alloc (c : Z) : ST H ptr :=
  ok ← slab_refill c;
  if negb ok then mret None else
  cache ← get_cache c;
  match sc_partial cache with
  | None => st_fault
  | Some slab =>
      sl ← get_slab slab;
      let obj := sl_freelist sl in
      next ← read_word obj;
      upd_slab slab (sl_set_freelist next) ;;
      upd_slab slab (sl_set_inuse (u32 (sl_inuse sl + 1))) ;;
      upd_cache c sc_count_alloc ;;
      (if next =? 0 then slab_list_remove Partial c slab ;; slab_list_push Full c slab
       else mret tt) ;;
      mret (Some obj)
  end.

Definition slab_free (c a : Z) : ST H unit :=
  page ← gets (fun s => pfndb_phys_to_page (heap_db s) (VIRT_TO_PHYS (PAGE_ALIGN_DOWN a)));
  slab ← slab_from_page page;
  sl ← get_slab slab;
  (if (sl_freelist sl =? 0) && (sl_inuse sl =? sl_total sl)
   then slab_list_remove Full c slab ;; slab_list_push Partial c slab
   else mret tt) ;;
  on_mem (store_word a (sl_freelist sl)) ;;
  upd_slab slab (sl_set_freelist a) ;;
  upd_slab slab (sl_set_inuse (u32 (sl_inuse sl - 1))) ;;
  upd_cache c sc_count_free.

(** [&caches[i]]. *)
Definition cache_addr (i : Z) : Z := u64 (caches_at + i * sizeof_slab_cache).

Fixpoint class_loop (l : list Z) (i size : Z) : ptr :=
  match l with
  | [] => None
  | k :: l => if size <=? k then Some (cache_addr i) else class_loop l (i + 1) size
  end.
Definition cache_for_size (size : Z) : ptr := class_loop size_classes 0 size.

Definition sizeof_large_hdr : Z := 24.

Fixpoint init_caches (l : list Z) (i : Z) (m : gmap Z slab_cache) : gmap Z slab_cache :=
  match l with
  | [] => m
  | sz :: l =>
      init_caches l (i + 1)
        (<[cache_addr i := mk_cache sz (if sz <? 16 then sz else 16) None None 0 0]> m)
  end.
Definition kheap_init : ST H unit :=
  modify (fun s => set_counts 0 0 (set_caches (init_caches size_classes 0 (kh_caches s)) s)).

(** The order of a large block. [PAGE_SIZE] is a 32-bit constant: the shift
    loses the bits past the width, and a shift by 32 or more is undefined. *)
Fixpoint large_order (fuel : nat) (order total : Z) : outcome Z :=
  match fuel with
  | O => Timeout
  | S fuel =>
      if 32 <=? order then Fault else
      if u32 (Z.shiftl PAGE_SIZE order) <? total
      then large_order fuel (u8 (order + 1)) total
      else Ok order
  end.

Definition write_large_hdr (a size order : Z) : ST H unit :=
  on_mem (store_word a LARGE_MAGIC) ;;
  on_mem (store_word (a + 8) size) ;;
  on_mem (store8 (a + 16) order).

Definition kmalloc_large (size : Z) : ST H ptr :=
  order ← st_lift (large_order 33 0 (u64 (size + sizeof_large_hdr)));
  if MAX_ORDER <=? order then mret None else
  page ← on_pmm (pmm_alloc order);
  match page with
  | None => mret None
  | Some p =>
      hdr ← page_virt page;
      write_large_hdr hdr size order ;;
      on_pmm (upd_page p (pg_set_private (Z.lor LARGE_PAGE_TAG order))) ;;
      mret (Some (u64 (hdr + sizeof_large_hdr)))
  end.

Definition kmalloc (size : Z) : ST H ptr :=
  if size =? 0 then mret None else
  r ← match cache_for_size size with
      | Some c => slab_alloc c
      | None => kmalloc_large size
      end;
  match r with
  | Some _ => modify (fun s => set_counts (u64 (kh_allocs s + 1)) (kh_frees s) s)
  | None => mret tt
  end ;;
  mret r.

Definition kzalloc (size : Z) : ST H ptr :=
  r ← kmalloc size;
  match r with Some a => on_mem (memset a 0 size) | None => mret tt end ;;
  mret r.

(** The header of a large allocation is below the pointer. *)
Definition large_hdr_at (a : Z) : Z := u64 (a - sizeof_large_hdr).

Definition kfree (a : ptr) : ST H unit :=
  match a with
  | None => mret tt
  | Some a =>
      page ← page_from_alloc_ptr a;
      match page with
      | None => st_panic
      | Some p =>
          g ← on_pmm (get_page p);
          (if PageSlab g then
             if pg_private g =? 0 then st_panic else slab_free (pg_private g) a
           else if page_is_large_alloc g then
             let hdr := large_hdr_at a in
             magic ← read_word hdr;
             if negb (magic =? LARGE_MAGIC) then st_panic else
             on_mem (store_word hdr 0) ;;
             on_pmm (upd_page p (pg_set_private 0)) ;;
             on_pmm (pmm_free (Some p))
           else st_panic) ;;
          modify (fun s => set_counts (kh_allocs s) (u64 (kh_frees s + 1)) s)
      end
  end.

(** The size of the block at [a], as [krealloc] finds it. *)
Definition old_block_size (a : Z) : ST H Z :=
  page ← page_from_alloc_ptr a;
  match page with
  | None => st_panic
  | Some p =>
      g ← on_pmm (get_page p);
      if PageSlab g then
        if pg_private g =? 0 then st_panic else
        cache ← get_cache (pg_private g);
        mret (sc_size cache)
      else if page_is_large_alloc g then
        let hdr := large_hdr_at a in
        magic ← read_word hdr;
        if negb (magic =? LARGE_MAGIC) then st_panic else read_word (hdr + 8)
      else st_panic
  end.

Definition krealloc (a : ptr) (new_size : Z) : ST H ptr :=
  match a with
  | None => kmalloc new_size
  | Some a0 =>
      if new_size =? 0 then kfree a ;; mret None else
      r ← kmalloc new_size;
      match r with
      | None => mret None
      | Some new =>
          old_size ← old_block_size a0;
          on_mem (memcpy new a0 (if old_size <? new_size then old_size else new_size)) ;;
          kfree a ;;
          mret (Some new)
      end
  end.

Definition slab_cache_create (size align : Z) : ST H ptr :=
  if (align =? 0) || negb (Z.land align (u32 (align - 1)) =? 0) then st_panic else
  r ← kmalloc sizeof_slab_cache;
  match r with
  | None => mret None
  | Some c =>
      let rounded := Z.land (u32 (u32 (size + align) - 1)) (not32 (u32 (align - 1))) in
      modify (fun s => set_caches (<[c := mk_cache rounded align None None 0 0]> (kh_caches s)) s) ;;
      mret (Some c)
  end.

(** Destroys the slabs of a list. *)
Fixpoint destroy_loop (fuel : nat) (s : ptr) : ST H unit :=
  match s with
  | None => mret tt
  | Some slab =>
      match fuel with
      | O => st_timeout
      | S fuel =>
          sl ← get_slab slab;
          slab_destroy slab ;;
          destroy_loop fuel (sl_next sl)
      end
  end.
Definition slab_cache_destroy (c : Z) : ST H unit :=
  cache ← get_cache c;
  n ← gets (fun s => size (kh_slabs s));
  destroy_loop n (sc_partial cache) ;;
  cache ← get_cache c;
  destroy_loop n (sc_full cache) ;;
  modify (fun s => set_caches (delete c (kh_caches s)) s) ;;
  kfree (Some c).

Definition kheap_alloc_count (s : H) : Z := kh_allocs s.
Definition kheap_free_count (s : H) : Z := kh_frees s.
End kheap.
