(* ===== verification/KheapList.v ===== *)
(** The slab lists of the kernel heap, [kernel/src/mm/kheap.c]: every slab is
    in the list of its cache that its free objects call for, and moving a slab
    from one list to the other keeps the lists linked. *)
From S2P Require Import Prelude Dll Pfndb Pmm StringLib Kheap.

(** The fields that list operations leave alone. *)
Definition sl_core (s : slab) : Z * Z * Z * ptr :=
  (sl_freelist s, sl_inuse s, sl_total s, sl_page s).
Definition sc_core (c : slab_cache) : Z * Z := (sc_size c, sc_align c).

Record relinked (s s' : kheap) : Prop := {
  rl_pmm : kh_pmm s' = kh_pmm s;
  rl_mem : kh_mem s' = kh_mem s;
  rl_slabs a : sl_core <$> kh_slabs s' !! a = sl_core <$> kh_slabs s !! a;
  rl_caches c : sc_core <$> kh_caches s' !! c = sc_core <$> kh_caches s !! c;
}.

#[export] Instance relinked_preorder : PreOrder relinked.
Proof.
  split; [by split|]. intros s1 s2 s3 [P1 M1 S1 C1] [P2 M2 S2 C2]. split; congruence.
Qed.

(** Ghost state: the cache and the free objects of every slab. *)
Abbreviation slabs_of := (gmap Z (Z * list Z)).

Definition list_of (l : list Z) : which := match l with [] => Full | _ => Partial end.

Record lists_ok (s : kheap) (gs : slabs_of) (ls : which -> Z -> list Z) : Prop := {
  lo_head c cc w : kh_caches s !! c = Some cc -> sc_head w cc = head (ls w c);
  lo_dll c w : is_Some (kh_caches s !! c) -> dll (kh_slabs s) (ls w c);
  lo_mem w c a : a ∈ ls w c <-> exists l, gs !! a = Some (c, l) /\ list_of l = w;
}.

Lemma lists_disjoint s gs ls w w' c c' a : lists_ok s gs ls -> a ∈ ls w c -> a ∈ ls w' c' -> w = w' /\ c = c'.
Proof.
  intros Hl (l & H1 & <-)%(lo_mem _ _ _ Hl) (l' & H2 & <-)%(lo_mem _ _ _ Hl). by simplify_eq.
Qed.

(** *** The primitive operations *)

Lemma get_slab_ok s a x : kh_slabs s !! a = Some x -> get_slab a s = Ok (x, s).
Proof. unfold get_slab. by intros ->. Qed.

Lemma get_cache_ok s c x : kh_caches s !! c = Some x -> get_cache c s = Ok (x, s).
Proof. unfold get_cache. by intros ->. Qed.

Lemma upd_slab_ok s a f : is_Some (kh_slabs s !! a) ->
  upd_slab a f s = Ok (tt, set_slabs (alter f a (kh_slabs s)) s).
Proof. intros Ha. unfold upd_slab. by rewrite store_upd_ok. Qed.

Lemma upd_cache_ok s c f : is_Some (kh_caches s !! c) ->
  upd_cache c f s = Ok (tt, set_caches (alter f c (kh_caches s)) s).
Proof. intros Ha. unfold upd_cache. by rewrite store_upd_ok. Qed.

#[global] Arguments upd_slab : simpl never.
#[global] Arguments upd_cache : simpl never.
#[global] Arguments get_slab : simpl never.
#[global] Arguments get_cache : simpl never.

Lemma slab_list_push_eq s w c cc a x l :
  kh_caches s !! c = Some cc -> sc_head w cc = head l -> dll (kh_slabs s) l ->
  kh_slabs s !! a = Some x -> a ∉ l ->
  slab_list_push w c a s = Ok (tt, set_caches (alter (sc_set_head w (Some a)) c (kh_caches s))
    (set_slabs (link_front (kh_slabs s) l a (sl_set_next (head l) (sl_set_prev None x))) s)).
Proof.
  intros Hc Hh Hd Ha Hn. unfold slab_list_push.
  eapply st_bind_eq; [by apply upd_slab_ok; rewrite Ha|].
  eapply st_bind_eq; [by apply get_cache_ok|]. cbv beta. rewrite Hh.
  eapply st_bind_eq; [apply upd_slab_ok; simpl; rewrite lookup_alter_eq, Ha; by eexists|].
  assert (alter (sl_set_next (head l)) a (alter (sl_set_prev None) a (kh_slabs s)) =
    <[a := sl_set_next (head l) (sl_set_prev None x)]> (kh_slabs s)) as E.
  { rewrite (alter_insert a (sl_set_prev None) _ x) by done.
    rewrite (alter_insert a _ _ (sl_set_prev None x)) by apply lookup_insert_eq.
    by rewrite insert_insert_eq. }
  cbn [kh_slabs set_slabs]. rewrite E. unfold link_front.
  destruct l as [|hd l]; simpl head; cbn [opt_alter].
  - eapply st_bind_eq; [done|]. by rewrite upd_cache_ok by (simpl; rewrite Hc; by eexists).
  - eapply st_bind_eq.
    { apply upd_slab_ok. simpl. rewrite lookup_insert_ne by (intros ->; apply Hn; left).
      eapply dll_is_Some; [done|left]. }
    by rewrite upd_cache_ok by (simpl; rewrite Hc; by eexists).
Qed.

Lemma slab_list_remove_eq s w c cc a l i :
  kh_caches s !! c = Some cc -> sc_head w cc = head l -> dll (kh_slabs s) l -> l !! i = Some a ->
  slab_list_remove w c a s = Ok (tt, set_caches (alter (sc_set_head w (head (delete i l))) c (kh_caches s))
    (set_slabs (alter (fun x => sl_set_prev None (sl_set_next None x)) a
      (unlink (kh_slabs s) (prev_at l i) (l !! S i))) s)).
Proof.
  intros Hc Hh Hd Hi. destruct (proj2 Hd i a Hi) as (x & Ha & Hnx & Hpv).
  change (lnext x) with (sl_next x) in Hnx. change (lprev x) with (sl_prev x) in Hpv.
  unfold slab_list_remove. eapply st_bind_eq; [by apply get_slab_ok|]. cbv beta.
  rewrite Hpv, Hnx. unfold unlink.
  set (hp := opt_alter (prev_at l i) (set_lnext (l !! S i)) (kh_slabs s)).
  assert (hp !! a = Some x) as Hpa.
  { unfold hp. destruct i as [|i]; simpl; [done|].
    destruct (l !! i) as [q|] eqn:Hq; simpl; [|done]. rewrite lookup_alter_ne; [done|].
    intros ->. pose proof (dll_inj _ _ _ _ _ Hd Hi Hq). lia. }
  set (cs := alter (sc_set_head w (head (delete i l))) c (kh_caches s)).
  eapply (st_bind_eq _ _ _ _ (set_caches cs (set_slabs hp s))).
  { unfold hp, cs. destruct (prev_at l i) as [q|] eqn:Hq; simpl.
    - rewrite upd_slab_ok by (eapply dll_is_Some; [done|by eapply prev_at_elem]).
      unfold set_caches, set_slabs. simpl. repeat f_equal. symmetry.
      rewrite (alter_insert _ _ _ _ Hc). apply insert_id. rewrite Hc. f_equal.
      destruct i as [|i]; [done|]. destruct l as [|h l]; [done|]. simpl. simpl in Hh.
      destruct w, cc; simpl in *; by rewrite Hh.
    - rewrite upd_cache_ok by (rewrite Hc; by eexists). repeat f_equal; [|by destruct s].
      destruct i as [|i]; [by destruct l as [|? [|]]|]. simpl in Hq.
      apply lookup_ge_None in Hq. apply lookup_lt_Some in Hi. lia. }
  eapply st_bind_eq; [by apply get_slab_ok|]. cbv beta. rewrite Hnx, Hpv.
  eapply (st_bind_eq _ _ _ _ (set_caches cs (set_slabs (opt_alter (l !! S i) (set_lprev (prev_at l i)) hp) s))).
  { destruct (l !! S i) as [q|] eqn:Hq; simpl; [|done].
    rewrite upd_slab_ok; [done|]. simpl. unfold hp.
    destruct (prev_at l i); simpl; rewrite ?lookup_alter_is_Some; by eapply dll_lookup_is_Some. }
  rewrite upd_slab_ok; [done|].
  simpl. destruct (l !! S i); simpl; rewrite ?lookup_alter_is_Some; eauto.
Qed.

(** *** Moving a slab *)

Lemma alter_core {A B} (g : A -> B) (f : A -> A) (m : gmap Z A) k j :
  (forall x, g (f x) = g x) -> g <$> alter f k m !! j = g <$> m !! j.
Proof. intros Hf. rewrite lookup_alter. case_decide; [subst|done]. destruct (m !! _); simpl; by rewrite ?Hf. Qed.

Lemma opt_alter_core {B} (g : slab -> B) (f : slab -> slab) p (m : gmap Z slab) j :
  (forall x, g (f x) = g x) -> g <$> opt_alter p f m !! j = g <$> m !! j.
Proof. destruct p; [apply alter_core|done]. Qed.

Lemma set_head_core w p c : sc_core (sc_set_head w p c) = sc_core c.
Proof. by destruct w. Qed.

Definition set_list (w : which) (c : Z) (l : list Z) (ls : which -> Z -> list Z) : which -> Z -> list Z :=
  fun w' c' => if decide (w' = w /\ c' = c) then l else ls w' c'.

Lemma set_head_ne w w' p c : w' <> w -> sc_head w' (sc_set_head w p c) = sc_head w' c.
Proof. by destruct w, w'. Qed.
Lemma set_head_eq w p c : sc_head w (sc_set_head w p c) = p.
Proof. by destruct w. Qed.

(** A list without its members' ghost state: what the two list operations
    need. *)
Record linked_ok (s : kheap) (ls : which -> Z -> list Z) : Prop := {
  lk_head c cc w : kh_caches s !! c = Some cc -> sc_head w cc = head (ls w c);
  lk_dll c w : is_Some (kh_caches s !! c) -> dll (kh_slabs s) (ls w c);
}.

Definition apart (ls : which -> Z -> list Z) : Prop := forall w w' c c' a,
  a ∈ ls w c -> a ∈ ls w' c' -> w = w' /\ c = c'.

Lemma alter_some {A} (f : A -> A) (m : gmap Z A) k j x : alter f k m !! j = Some x ->
  exists y, m !! j = Some y /\ x = if decide (j = k) then f y else y.
Proof.
  rewrite lookup_alter. repeat case_decide; subst; try done.
  - intros (y & -> & ->)%fmap_Some. by exists y.
  - intros ->. by exists x.
Qed.

Lemma slab_list_push_ok s ls w c cc a x :
  linked_ok s ls -> kh_caches s !! c = Some cc -> kh_slabs s !! a = Some x -> (forall w c, a ∉ ls w c) ->
  apart ls ->
  exists s', slab_list_push w c a s = Ok (tt, s') /\ relinked s s' /\
    linked_ok s' (set_list w c (a :: ls w c) ls).
Proof.
  intros [Hh Hd] Hc Ha Hn Hap.
  rewrite (slab_list_push_eq _ _ _ _ _ _ (ls w c) Hc (Hh _ _ w Hc)) by eauto.
  eexists. split; [done|]. split.
  - split; try done.
    + intros b. cbn. unfold link_front. rewrite opt_alter_core by done.
      rewrite lookup_insert. case_decide; [subst; by rewrite Ha|done].
    + intros c'. cbn. apply alter_core. intros. apply set_head_core.
  - split.
    + intros c' cc' w' (cc0 & Hc' & ->)%alter_some. unfold set_list. repeat case_decide; subst.
      * destruct H0 as [-> _]. by rewrite set_head_eq.
      * rewrite set_head_ne by naive_solver. by apply Hh.
      * naive_solver.
      * by apply Hh.
    + intros c' w'. cbn. rewrite lookup_alter_is_Some. intros Hc'. unfold set_list. case_decide as E.
      * destruct E as [-> ->]. apply dll_link_front; [by apply Hd|apply Hn|done..].
      * eapply dll_frame_eq; [|by apply Hd]. intros k Hk. apply link_front_ne.
        -- intros Hk'. apply E. by destruct (Hap _ _ _ _ _ Hk Hk').
        -- intros ->. by apply (Hn w' c').
Qed.

Lemma slab_list_remove_ok s ls w c cc a :
  linked_ok s ls -> kh_caches s !! c = Some cc -> a ∈ ls w c -> apart ls ->
  exists s' l, slab_list_remove w c a s = Ok (tt, s') /\ relinked s s' /\
    linked_ok s' (set_list w c l ls) /\ forall b, b ∈ l <-> b ∈ ls w c /\ b <> a.
Proof.
  intros [Hh Hd] Hc [i Hi]%list_elem_of_lookup Hap.
  assert (dll (kh_slabs s) (ls w c)) as Hdl by eauto.
  rewrite (slab_list_remove_eq _ _ _ _ _ (ls w c) _ Hc (Hh _ _ w Hc) Hdl Hi).
  assert (forall b, b ∈ delete i (ls w c) <-> b ∈ ls w c /\ b <> a) as Hdel by (intros; by eapply elem_of_delete).
  eexists _, (delete i (ls w c)). split; [done|]. split; [|split; [|done]].
  - split; try done.
    + intros b. cbn. rewrite alter_core by done. unfold unlink. by rewrite !opt_alter_core.
    + intros c'. cbn. apply alter_core. intros. apply set_head_core.
  - split.
    + intros c' cc' w' (cc0 & Hc' & ->)%alter_some. unfold set_list. repeat case_decide; subst.
      * destruct H0 as [-> _]. by rewrite set_head_eq.
      * rewrite set_head_ne by naive_solver. by apply Hh.
      * naive_solver.
      * by apply Hh.
    + intros c' w'. cbn. rewrite lookup_alter_is_Some. intros Hc'. unfold set_list. case_decide as E.
      * destruct E as [-> ->]. apply dll_frame_alter; [rewrite Hdel; naive_solver|]. by apply dll_unlink with a.
      * eapply dll_frame_eq; [|by apply Hd]. intros k Hk.
        assert (k ∉ ls w c) as Hk' by (intros Hk'; apply E; by destruct (Hap _ _ _ _ _ Hk Hk')).
        rewrite lookup_alter_ne; [by apply unlink_ne|]. intros <-. apply Hk', list_elem_of_lookup. eauto.
Qed.

Lemma lists_linked s gs ls : lists_ok s gs ls -> linked_ok s ls /\ apart ls.
Proof. intros Hl. split; [split; apply Hl|]. intros ?????. by eapply lists_disjoint. Qed.

(** A slab whose list of free objects becomes empty or ceases to be empty
    changes sides. *)
Lemma slab_move_ok s gs ls c cc a l l' :
  lists_ok s gs ls -> kh_caches s !! c = Some cc -> gs !! a = Some (c, l) -> list_of l <> list_of l' ->
  exists s' ls', (slab_list_remove (list_of l) c a ;; slab_list_push (list_of l') c a) s = Ok (tt, s') /\
    relinked s s' /\ lists_ok s' (<[a := (c, l')]> gs) ls'.
Proof.
  intros Hl Hc Ha Hne. destruct (lists_linked _ _ _ Hl) as [Hlk Hap].
  assert (a ∈ ls (list_of l) c) as Hin by (apply (lo_mem _ _ _ Hl); eauto).
  destruct (slab_list_remove_ok _ _ _ _ _ _ Hlk Hc Hin Hap) as (s1 & l1 & Hr1 & Hrl1 & Hlk1 & Hl1).
  set (ls1 := set_list (list_of l) c l1 ls) in *.
  assert (forall w c' b, b ∈ ls1 w c' <-> b ∈ ls w c' /\ b <> a) as Hls1.
  { intros w c' b. unfold ls1, set_list. case_decide as E; [destruct E as [-> ->]; apply Hl1|].
    split; [|naive_solver]. intros Hb. split; [done|]. intros ->. apply E.
    by destruct (Hap _ _ _ _ _ Hb Hin). }
  assert (apart ls1) as Hap1.
  { intros w w' c1 c2 b [H1 _]%Hls1 [H2 _]%Hls1. by eapply Hap. }
  assert (exists cc1, kh_caches s1 !! c = Some cc1) as [cc1 Hc1].
  { pose proof (rl_caches _ _ Hrl1 c) as E. rewrite Hc in E. destruct (kh_caches s1 !! c); [eauto|done]. }
  assert (exists x, kh_slabs s1 !! a = Some x) as [x Hx].
  { pose proof (rl_slabs _ _ Hrl1 a) as E.
    destruct (dll_is_Some _ _ _ (lo_dll _ _ _ Hl c (list_of l) ltac:(eauto)) Hin) as [y Hy].
    rewrite Hy in E. destruct (kh_slabs s1 !! a); [eauto|done]. }
  destruct (slab_list_push_ok s1 ls1 (list_of l') c cc1 a x Hlk1 Hc1 Hx) as (s2 & Hr2 & Hrl2 & Hlk2).
  { intros w c' Hb. by apply Hls1 in Hb as [_ ?]. }
  { done. }
  exists s2, (set_list (list_of l') c (a :: ls1 (list_of l') c) ls1). split; [by eapply st_bind_eq|].
  split; [by etrans|]. split; [apply Hlk2|apply Hlk2|].
  intros w c' b. unfold set_list. rewrite lookup_insert. case_decide as E.
  - destruct E as [-> ->]. rewrite elem_of_cons, Hls1, (lo_mem _ _ _ Hl).
    case_decide; [subst; split; [naive_solver|by left]|]. naive_solver.
  - rewrite Hls1, (lo_mem _ _ _ Hl). case_decide; [|naive_solver]. subst.
    split; [naive_solver|]. intros (? & [= -> ->] & <-). by destruct E.
Qed.
