(* ===== verification/KheapInv.v ===== *)
(** The invariant of the kernel heap, [kernel/src/mm/kheap.c]: slabs and large
    blocks are allocated blocks of the buddy allocator, the free objects of a
    slab are chained through memory, and every address that the heap has handed
    out is an object not on such a chain, or the body of a large block. *)
From S2P Require Import Prelude Dll Pfndb Pmm StringLib WordMem Kheap KheapList.

(** The page allocator does not depend on the slab flag and the [private] word
    of a page in use. *)
Lemma pmm_touch (s : pmm) blk p g g' :
  pmm_ok s blk -> ~ loose blk p -> pm_map s !! p = Some g ->
  same_links g g' -> pg_order g' = pg_order g -> PageFree g' = PageFree g ->
  pmm_ok (pm_set_map (<[p := g']> (pm_map s)) s) blk.
Proof.
  intros [[fls Hi] Hnh Hcl Hco Hfree] Hp Hg Hl Ho Hf. split; try done.
  - exists fls. apply inv_pages; [done| |].
    + intros x. rewrite lookup_insert_is_Some'. split; [intros [<-|?]; eauto|auto].
    + intros x h h' Hx. rewrite lookup_insert. case_decide; intros; simplify_eq.
      * split_and!; try done; [|by rewrite Hf; left]. intros o Hx'. rewrite Hf.
        exact (inv_free _ _ _ Hi _ _ _ Hx' Hg).
      * apply good_update_refl. intros o Hx'. by eapply (inv_free _ _ _ Hi).
  - intros x h Hx. simpl. rewrite lookup_insert. case_decide; [by subst|by apply Hcl].
Qed.

(** ** Addresses *)

Section addresses.
Context (hhdm_offset : Z).

(** The direct map covers every frame. *)
Record direct_map (s : pmm) : Prop := {
  dm_pos : 0 < hhdm_offset;
  dm_page : (4096 | hhdm_offset);
  dm_end : hhdm_offset + (pm_max s + 1) * 4096 <= 2 ^ 64;
}.

Definition virt (p : Z) : Z := hhdm_offset + p * 4096.

Context (s : kheap) (Hd : direct_map (kh_pmm s)) (p : Z) (Hp : 0 <= p <= pm_max (kh_pmm s)).

Lemma virt_range : 0 < virt p /\ virt p + 4096 <= 2 ^ 64 /\ (8 | virt p).
Proof.
  destruct Hd as [H1 [k Hk] H2]. unfold virt. split; [lia|split; [lia|]]. exists (k * 512 + p * 512). lia.
Qed.

Lemma page_virt_ok : page_virt hhdm_offset (Some p) s = Ok (virt p, s).
Proof.
  destruct Hd as [H1 [k Hk] H2]. unfold page_virt, gets. do 2 f_equal.
  unfold pfndb_page_to_phys, pfndb_getpfn, heap_db, PHYS_TO_VIRT. cbn [max_pfn].
  destruct (Z.ltb_spec p 0), (Z.ltb_spec (pm_max (kh_pmm s)) p); try lia. cbn [orb].
  destruct (Z.eqb_spec p u64_max); [unfold u64_max in *; lia|].
  rewrite PFN_PHYS_small by lia. unfold virt. rewrite u64_small by lia. lia.
Qed.

(** Any address in the frame leads back to its descriptor. *)
Lemma frame_of_addr a : virt p <= a < virt p + 4096 ->
  pfndb_phys_to_page (heap_db s) (VIRT_TO_PHYS hhdm_offset (PAGE_ALIGN_DOWN a)) = Some p.
Proof.
  intros Ha. destruct Hd as [H1 [k Hk] H2]. unfold virt in Ha.
  assert (a / 4096 = k + p) as Hdiv by (symmetry; apply (Z.div_unique _ _ _ (a - (k + p) * 4096)); lia).
  rewrite align_down by lia. unfold pfndb_phys_to_page, heap_db, VIRT_TO_PHYS, PHYS_PFN, PAGE_SHIFT. cbn [max_pfn].
  rewrite Hdiv, u64_small, Z.shiftr_div_pow2 by lia. change (2 ^ 12) with 4096.
  replace ((k + p) * 4096 - hhdm_offset) with (p * 4096) by lia. rewrite Z.div_mul by lia.
  destruct (Z.ltb_spec (pm_max (kh_pmm s)) p); [lia|done].
Qed.

Lemma page_from_alloc_ptr_ok a : virt p <= a < virt p + 4096 ->
  page_from_alloc_ptr hhdm_offset a s = Ok (Some p, s).
Proof.
  intros Ha. unfold page_from_alloc_ptr. destruct (Z.ltb_spec a hhdm_offset); [unfold virt in *; lia|].
  unfold gets. by rewrite frame_of_addr.
Qed.
End addresses.

(** ** The objects of a slab *)

Definition objs (cc : slab_cache) : Z := slab_objs (sc_align cc) (sc_size cc).
Definition slot (a : Z) (cc : slab_cache) (i : Z) : Z := a + slab_hdr (sc_align cc) + i * sc_size cc.
Definition is_slot (a : Z) (cc : slab_cache) (x : Z) : Prop := exists i, 0 <= i < objs cc /\ x = slot a cc i.

(** A cache whose objects hold a pointer and fit a page. *)
Record cache_ok (cc : slab_cache) : Prop := {
  ca_size : 8 <= sc_size cc;
  ca_words : (8 | sc_size cc);
  ca_hdr : 40 <= slab_hdr (sc_align cc);
  ca_hdr_words : (8 | slab_hdr (sc_align cc));
  ca_fits : slab_hdr (sc_align cc) + sc_size cc <= 4096;
}.

Lemma objs_bounds cc : cache_ok cc ->
  1 <= objs cc <= 512 /\ slab_hdr (sc_align cc) + objs cc * sc_size cc <= 4096.
Proof.
  intros [H1 _ H2 _ H3]. unfold objs, slab_objs, PAGE_SIZE, u32.
  rewrite Z.mod_small by lia. set (n := 4096 - slab_hdr (sc_align cc)) in *. assert (sc_size cc <= n <= 4056) by lia.
  pose proof (Z.div_mod n (sc_size cc) ltac:(lia)). pose proof (Z.mod_pos_bound n (sc_size cc) ltac:(lia)).
  nia.
Qed.

Lemma slot_range a cc x : cache_ok cc -> is_slot a cc x -> a + 40 <= x /\ x + sc_size cc <= a + 4096.
Proof.
  intros Hc (i & Hi & ->). destruct (objs_bounds _ Hc) as [_ Hb]. destruct Hc as [H1 _ H2 _ _].
  unfold slot. nia.
Qed.

Lemma slot_word a cc x : cache_ok cc -> (8 | a) -> is_slot a cc x -> (8 | x).
Proof.
  intros Hc [k Hk] (i & _ & ->). destruct (ca_words _ Hc) as [j Hj]. destruct (ca_hdr_words _ Hc) as [h Hh].
  exists (k + h + i * j). unfold slot. lia.
Qed.

Lemma slot_disjoint a cc x y : cache_ok cc -> is_slot a cc x -> is_slot a cc y -> x <> y ->
  x + sc_size cc <= y \/ y + sc_size cc <= x.
Proof.
  intros Hc (i & Hi & ->) (j & Hj & ->) Hne. unfold slot in *. destruct Hc as [H1 _ _ _ _].
  assert (i <> j) by (intros ->; done). destruct (Z.lt_ge_cases i j); [left|right]; nia.
Qed.

(** The free objects, linked through their first words. *)
Fixpoint chain (m : mem) (a : Z) (l : list Z) : Prop :=
  match l with
  | [] => a = 0
  | x :: l => a = x /\ exists w, load_word m x = Ok w /\ chain m w l
  end.

Lemma chain_frame m m' l : forall a,
  (forall x, x ∈ l -> forall y, x <= y < x + 8 -> m' !! y = m !! y) -> chain m a l -> chain m' a l.
Proof.
  induction l as [|x l IH]; intros a He; simpl; [done|]. intros (-> & w & Hw & Hc). split; [done|].
  exists w. split; [|apply IH; [intros y Hy; apply He; by right|done]].
  rewrite <- Hw. apply load_le_frame. apply He. left.
Qed.

(** ** The invariant *)

Section invariant.
Context (hhdm_offset caches_at : Z).
Abbreviation virt := (virt hhdm_offset).

Record slab_ok (s : kheap) (blk : blocks) (a c : Z) (l : list Z) (sl : slab) (cc : slab_cache) (p : Z) : Prop := {
  so_addr : a = virt p;
  so_block : blk !! p = Some (0, Alloc);
  so_page : exists g, pm_map (kh_pmm s) !! p = Some g /\ PageSlab g = true /\ pg_private g = c;
  so_desc : sl_page sl = Some p;
  so_total : sl_total sl = objs cc;
  so_inuse : sl_inuse sl = objs cc - Z.of_nat (length l);
  so_nodup : NoDup l;
  so_slots x : x ∈ l -> is_slot a cc x;
  so_chain : chain (kh_mem s) (sl_freelist sl) l;
}.

(** A large block of order [o] at frame [p] for [n] bytes. *)
Record large_ok (s : kheap) (blk : blocks) (p o n : Z) : Prop := {
  la_block : blk !! p = Some (o, Alloc);
  la_page : exists g, pm_map (kh_pmm s) !! p = Some g /\ plain g /\ pg_refcount g = 1 /\
    pg_private g = Z.lor LARGE_PAGE_TAG o;
  la_magic : load_word (kh_mem s) (virt p) = Ok LARGE_MAGIC;
  la_size : load_word (kh_mem s) (virt p + 8) = Ok n;
  la_fits : 0 < n /\ 24 + n <= 2 ^ o * 4096;
}.

(** Ghost state: the cache and the free objects of the slabs, the order and the
    size of the large blocks. *)
Abbreviation larges := (gmap Z (Z * Z)).

Definition slab_object (s : kheap) (gs : slabs_of) (a n : Z) : Prop :=
  exists sa c l cc, gs !! sa = Some (c, l) /\ kh_caches s !! c = Some cc /\ is_slot sa cc a /\
    (a ∉ l) /\ n = sc_size cc.

Record heap_core (s : kheap) (blk : blocks) (gs : slabs_of) (gl : larges) (live : gmap Z Z) : Prop := {
  hc_pmm : pmm_ok (kh_pmm s) blk;
  hc_map : direct_map hhdm_offset (kh_pmm s);
  hc_bytes : mem_ok (kh_mem s);
  hc_mapped : mapped (kh_mem s) hhdm_offset ((pm_max (kh_pmm s) + 1) * 4096);
  hc_caches c cc : kh_caches s !! c = Some cc -> 0 < c < 2 ^ 64 /\ cache_ok cc;
  hc_dom a : is_Some (kh_slabs s !! a) -> is_Some (gs !! a);
  hc_slab a c l : gs !! a = Some (c, l) -> exists sl cc p, kh_slabs s !! a = Some sl /\
    kh_caches s !! c = Some cc /\ slab_ok s blk a c l sl cc p;
  hc_large p o n : gl !! p = Some (o, n) -> large_ok s blk p o n;
  hc_live a n : live !! a = Some n <->
    slab_object s gs a n \/ exists p o, a = virt p + 24 /\ gl !! p = Some (o, n);
}.

(** The static caches are those that [kheap_init] makes. *)
Definition statics_ok (s : kheap) : Prop := forall i k, size_classes !! i = Some k ->
  exists cc, kh_caches s !! cache_addr caches_at (Z.of_nat i) = Some cc /\
    sc_core cc = (k, if k <? 16 then k else 16).

(** The heap has handed out exactly the blocks of [live], a map from addresses
    to the number of usable bytes. *)
Definition heap_inv (s : kheap) (blk : blocks) (live : gmap Z Z) : Prop :=
  exists gs gl ls, heap_core s blk gs gl live /\ lists_ok s gs ls /\ statics_ok s.
End invariant.
