(* ===== verification/KheapSlab.v ===== *)
(** The slab layer of [kernel/src/mm/kheap.c]: which changes of the heap keep
    its invariant, and what making a slab, [slab_alloc] and [slab_free] do. *)
From S2P Require Import Prelude Dll Pfndb Pmm StringLib WordMem Kheap KheapList KheapInv.

Lemma core_page_fields (g g' : page) : pg_core g' = pg_core g ->
  PageSlab g' = PageSlab g /\ pg_private g' = pg_private g /\ pg_refcount g' = pg_refcount g.
Proof. unfold pg_core, PageSlab. by intros [= -> _ -> ->]. Qed.

Lemma core_some {A B} (f : A -> B) (o o' : option A) x : f <$> o' = f <$> o -> o = Some x ->
  exists x', o' = Some x' /\ f x' = f x.
Proof. intros E ->. destruct o' as [x'|]; [|done]. exists x'. split; [done|]. by injection E. Qed.

Section slabs.
Context (hhdm_offset caches_at : Z).
Abbreviation virt := (virt hhdm_offset).
Abbreviation heap_core := (heap_core hhdm_offset).
Abbreviation slab_ok := (slab_ok hhdm_offset).
Abbreviation large_ok := (large_ok hhdm_offset).

(** Page [p] has kept its descriptor and its bytes. *)
Definition page_kept (s s' : kheap) (p : Z) : Prop :=
  pg_core <$> pm_map (kh_pmm s') !! p = pg_core <$> pm_map (kh_pmm s) !! p /\
  forall x, virt p <= x < virt p + 4096 -> kh_mem s' !! x = kh_mem s !! x.

Lemma slab_ok_kept s s' blk blk' a c l sl sl' cc cc' p :
  slab_ok s blk a c l sl cc p -> cache_ok cc -> page_kept s s' p -> blk' !! p = Some (0, Alloc) ->
  sl_core sl' = sl_core sl -> sc_core cc' = sc_core cc -> slab_ok s' blk' a c l sl' cc' p.
Proof.
  intros [Ha Hb (g & Hg & Hs & Hp) Hd Ht Hi Hn Hsl Hch] Hc [Hk Hm] Hb' [= Ef Ei Et Ep] [= Es Eal].
  destruct (core_some _ _ _ _ Hk Hg) as (g' & Hg' & (E1 & E2 & _)%core_page_fields).
  assert (objs cc' = objs cc) as Eo by (unfold objs; by rewrite Es, Eal).
  assert (forall x, is_slot a cc' x <-> is_slot a cc x) as Esl.
  { intros x. unfold is_slot, slot. by rewrite Eo, Es, Eal. }
  split; try congruence.
  - exists g'. split; [done|split; congruence].
  - intros x Hx. apply Esl. by apply Hsl.
  - rewrite Ef. eapply chain_frame; [|done]. intros x Hx y Hy. apply Hm.
    destruct (slot_range _ _ _ Hc (Hsl x Hx)). pose proof (ca_size _ Hc). subst a. lia.
Qed.

Lemma large_ok_kept s s' blk blk' p o n :
  large_ok s blk p o n -> page_kept s s' p -> blk' !! p = Some (o, Alloc) -> large_ok s' blk' p o n.
Proof.
  intros [Hb (g & Hg & Hp & Hr & Hv) Hm Hs Hf] [Hk He] Hb'.
  destruct (core_some _ _ _ _ Hk Hg) as (g' & Hg' & E).
  pose proof (core_plain _ _ E Hp). apply core_page_fields in E as (_ & E2 & E3).
  split; try done.
  - exists g'. split; [done|split; [done|split; congruence]].
  - rewrite <- Hm. apply load_le_frame. intros x Hx. apply He. lia.
  - rewrite <- Hs. apply load_le_frame. intros x Hx. apply He. lia.
Qed.

Lemma page_kept_refl s s' p : kh_pmm s' = kh_pmm s -> kh_mem s' = kh_mem s -> page_kept s s' p.
Proof. intros E1 E2. unfold page_kept. by rewrite E1, E2. Qed.

(** *** Relinking *)

Lemma relinked_cache s s' c cc : relinked s s' -> kh_caches s !! c = Some cc ->
  exists cc', kh_caches s' !! c = Some cc' /\ sc_core cc' = sc_core cc.
Proof. intros Hr Hc. eapply core_some; [apply (rl_caches _ _ Hr c)|done]. Qed.
Lemma relinked_slab s s' a x : relinked s s' -> kh_slabs s !! a = Some x ->
  exists x', kh_slabs s' !! a = Some x' /\ sl_core x' = sl_core x.
Proof. intros Hr Hc. eapply core_some; [apply (rl_slabs _ _ Hr a)|done]. Qed.

Lemma relinked_sym s s' : relinked s s' -> relinked s' s.
Proof. intros [? ? ? ?]. by split. Qed.

Lemma cache_ok_core cc cc' : sc_core cc' = sc_core cc -> cache_ok cc -> cache_ok cc'.
Proof. intros [= E1 E2] [? ? ? ? ?]. split; by rewrite ?E1, ?E2. Qed.

Lemma is_slot_core a cc cc' x : sc_core cc' = sc_core cc -> is_slot a cc' x <-> is_slot a cc x.
Proof. intros [= E1 E2]. unfold is_slot, slot, objs. by rewrite E1, E2. Qed.

Lemma slab_object_caches s s' gs a n : (forall c, sc_core <$> kh_caches s' !! c = sc_core <$> kh_caches s !! c) ->
  slab_object s gs a n -> slab_object s' gs a n.
Proof.
  intros Hc (sa & c & l & cc & Hg & Hcc & Hs & Hn & ->).
  destruct (core_some _ _ _ _ (Hc c) Hcc) as (cc' & Hcc' & E). exists sa, c, l, cc'.
  split; [done|split; [done|]]. rewrite (is_slot_core _ _ _ _ E). injection E as -> _. done.
Qed.

Lemma core_relinked s s' blk gs gl live : heap_core s blk gs gl live -> relinked s s' -> heap_core s' blk gs gl live.
Proof.
  intros [Hpm Hma Hby Hmp Hca Hdo Hsl Hla Hli] Hr. pose proof (relinked_sym _ _ Hr) as Hr'.
  split; rewrite ?(rl_pmm _ _ Hr), ?(rl_mem _ _ Hr); try done.
  - intros c cc' Hc. destruct (relinked_cache _ _ _ _ Hr' Hc) as (cc & Hcc & E). apply Hca in Hcc as [? ?].
    split; [done|]. by eapply cache_ok_core.
  - intros a [x Hx]. destruct (relinked_slab _ _ _ _ Hr' Hx) as (x' & Hx' & _). eauto.
  - intros a c l Ha. destruct (Hsl a c l Ha) as (sl & cc & p & Hs & Hc & Hok).
    destruct (relinked_cache _ _ _ _ Hr Hc) as (cc' & Hc' & Ec). destruct (relinked_slab _ _ _ _ Hr Hs) as (sl' & Hs' & Es).
    exists sl', cc', p. split; [done|split; [done|]]. eapply slab_ok_kept; try done.
    + by apply (Hca c).
    + apply page_kept_refl; apply Hr.
    + apply Hok.
  - intros p o n Hp. specialize (Hla p o n Hp). eapply large_ok_kept; [done|apply page_kept_refl; apply Hr|apply Hla].
  - intros a n. rewrite Hli. split; (intros [Ho|?]; [left|by right]).
    + eapply slab_object_caches; [apply Hr|done].
    + eapply slab_object_caches; [apply Hr'|done].
Qed.

Lemma statics_caches s s' : (forall c, sc_core <$> kh_caches s' !! c = sc_core <$> kh_caches s !! c) ->
  statics_ok caches_at s -> statics_ok caches_at s'.
Proof.
  intros Hc Hs i k Hi. destruct (Hs i k Hi) as (cc & Hcc & E).
  destruct (core_some _ _ _ _ (Hc _) Hcc) as (cc' & ? & E'). exists cc'. split; [done|congruence].
Qed.

(** *** Facts of the invariant *)

Section facts.
Context (s : kheap) (blk : blocks) (gs : slabs_of) (gl : gmap Z (Z * Z)) (live : gmap Z Z).
Context (Hcore : heap_core s blk gs gl live).

Lemma alloc_frames p o k : blk !! p = Some (o, k) -> 0 <= o < MAX_ORDER /\ 0 <= p /\ p + 2 ^ o <= pm_max (kh_pmm s) + 1.
Proof.
  intros Hp. destruct (ok_inv _ _ (hc_pmm _ _ _ _ _ _ Hcore)) as [fls Hi].
  by destruct (geom_blk _ _ (inv_geom _ _ _ Hi) _ _ _ Hp) as (? & ? & _ & ?).
Qed.

Lemma alloc_page p o k : blk !! p = Some (o, k) -> 0 <= p <= pm_max (kh_pmm s).
Proof. intros Hp. destruct (alloc_frames _ _ _ Hp) as (Ho & ? & ?). pose proof (pow2_pos o ltac:(lia)). lia. Qed.

Lemma alloc_held p o x : blk !! p = Some (o, Alloc) -> p <= x < p + 2 ^ o -> ~ loose blk x.
Proof.
  intros Hp. destruct (ok_inv _ _ (hc_pmm _ _ _ _ _ _ Hcore)) as [fls Hi].
  apply (alloc_not_loose _ _ _ _ _ (inv_geom _ _ _ Hi) Hp).
Qed.

Lemma alloc_apart p q o1 o2 : blk !! p = Some (o1, Alloc) -> blk !! q = Some (o2, Alloc) -> p <> q ->
  p + 2 ^ o1 <= q \/ q + 2 ^ o2 <= p.
Proof.
  intros Hp Hq Hne. destruct (ok_inv _ _ (hc_pmm _ _ _ _ _ _ Hcore)) as [fls Hi].
  by apply (geom_disj _ _ (inv_geom _ _ _ Hi) _ _ _ _ _ _ Hne Hp Hq).
Qed.

Lemma frame_mapped p : 0 <= p <= pm_max (kh_pmm s) -> mapped (kh_mem s) (virt p) 4096.
Proof.
  intros Hp. eapply mapped_sub; [apply (hc_mapped _ _ _ _ _ _ Hcore)|..]; unfold KheapInv.virt; lia.
Qed.

(** An object belongs to one slab. *)
Lemma slot_slab a a' c c' l l' cc cc' x :
  gs !! a = Some (c, l) -> kh_caches s !! c = Some cc -> is_slot a cc x ->
  gs !! a' = Some (c', l') -> kh_caches s !! c' = Some cc' -> is_slot a' cc' x -> a = a'.
Proof.
  intros Ha Hc Hx Ha' Hc' Hx'.
  destruct (hc_slab _ _ _ _ _ _ Hcore _ _ _ Ha) as (sl1 & cc1 & p & _ & E1 & Hok).
  destruct (hc_slab _ _ _ _ _ _ Hcore _ _ _ Ha') as (sl2 & cc2 & p' & _ & E2 & Hok').
  simplify_eq. destruct (slot_range _ _ _ (proj2 (hc_caches _ _ _ _ _ _ Hcore _ _ Hc)) Hx).
  destruct (slot_range _ _ _ (proj2 (hc_caches _ _ _ _ _ _ Hcore _ _ Hc')) Hx').
  pose proof (ca_size _ (proj2 (hc_caches _ _ _ _ _ _ Hcore _ _ Hc))).
  pose proof (ca_size _ (proj2 (hc_caches _ _ _ _ _ _ Hcore _ _ Hc'))).
  rewrite (so_addr _ _ _ _ _ _ _ _ _ Hok), (so_addr _ _ _ _ _ _ _ _ _ Hok') in *.
  unfold KheapInv.virt in *. f_equal. lia.
Qed.

(** A large block and a slab are on different pages. *)
Lemma slab_not_large a c l sl cc p q o n : slab_ok s blk a c l sl cc p -> gl !! q = Some (o, n) -> p <> q.
Proof.
  intros Hok Hq ->. destruct (la_page _ _ _ _ _ _ (hc_large _ _ _ _ _ _ Hcore _ _ _ Hq)) as (g & Hg & [_ Hp] & _).
  destruct (so_page _ _ _ _ _ _ _ _ _ Hok) as (g' & Hg' & Hs & _). congruence.
Qed.

Lemma slot_not_body a c l cc x p o n : gs !! a = Some (c, l) -> kh_caches s !! c = Some cc -> is_slot a cc x ->
  gl !! p = Some (o, n) -> x <> virt p + 24.
Proof.
  intros Ha Hc Hx Hp ->. destruct (hc_slab _ _ _ _ _ _ Hcore _ _ _ Ha) as (sl & cc1 & q & _ & E1 & Hok).
  simplify_eq. apply (slab_not_large _ _ _ _ _ _ _ _ _ Hok Hp).
  destruct (slot_range _ _ _ (proj2 (hc_caches _ _ _ _ _ _ Hcore _ _ Hc)) Hx).
  pose proof (ca_size _ (proj2 (hc_caches _ _ _ _ _ _ Hcore _ _ Hc))).
  rewrite (so_addr _ _ _ _ _ _ _ _ _ Hok) in *. unfold KheapInv.virt in *. lia.
Qed.
End facts.

(** *** Taking an object from a slab and putting it back

    The slab [a] has the free objects [l] before and [l'] after; they differ by
    the object [y], and memory changes inside [y] only. *)
Lemma core_slab s s' blk gs gl live live' a c l l' cc p y :
  heap_core s blk gs gl live -> gs !! a = Some (c, l) -> kh_caches s !! c = Some cc ->
  slab_ok s' blk a c l' (default (mk_slab None None 0 0 0 None) (kh_slabs s' !! a)) cc p ->
  is_Some (kh_slabs s' !! a) -> is_slot a cc y -> kh_pmm s' = kh_pmm s ->
  (forall c, sc_core <$> kh_caches s' !! c = sc_core <$> kh_caches s !! c) ->
  (forall b, b <> a -> kh_slabs s' !! b = kh_slabs s !! b) ->
  mem_ok (kh_mem s') -> (forall x, is_Some (kh_mem s' !! x) <-> is_Some (kh_mem s !! x)) ->
  (forall x, ~ y <= x < y + 8 -> kh_mem s' !! x = kh_mem s !! x) ->
  (forall x, x <> y -> x ∈ l' <-> x ∈ l) ->
  (forall b n, live' !! b = Some n <-> (b <> y /\ live !! b = Some n) \/ (b = y /\ (y ∉ l') /\ n = sc_size cc)) ->
  heap_core s' blk (<[a := (c, l')]> gs) gl live'.
Proof.
  intros Hcore Ha Hc Hok [sl Hsl] Hy Epm Ecs Esl Hby Hdom Hmem Hl Hlive. rewrite Hsl in Hok. cbn in Hok.
  destruct (hc_caches _ _ _ _ _ _ Hcore _ _ Hc) as [_ Hcok]. pose proof (slot_range _ _ _ Hcok Hy) as Hyr.
  pose proof (ca_size _ Hcok) as Hsz. pose proof (so_addr _ _ _ _ _ _ _ _ _ Hok) as Ea.
  pose proof (so_block _ _ _ _ _ _ _ _ _ Hok) as Hblk.
  assert (forall q o, blk !! q = Some (o, Alloc) -> q <> p -> page_kept s s' q) as Hkept.
  { intros q o Hq Hne. split; [by rewrite Epm|]. intros x Hx. apply Hmem.
    unfold KheapInv.virt in *. lia. }
  split; rewrite ?Epm.
  - apply Hcore.
  - apply Hcore.
  - done.
  - intros x Hx. apply Hdom. by apply (hc_mapped _ _ _ _ _ _ Hcore).
  - intros c' cc' Hc'. pose proof (Ecs c') as E. rewrite Hc' in E.
    destruct (kh_caches s !! c') as [cc0|] eqn:E0; [|done]. injection E as E1 E2.
    apply (hc_caches _ _ _ _ _ _ Hcore) in E0 as [? ?]. split; [done|].
    eapply cache_ok_core; [|done]. unfold sc_core. congruence.
  - intros b. rewrite lookup_insert. case_decide; [by eexists|]. rewrite Esl by done. apply Hcore.
  - intros b c' l''. rewrite lookup_insert. case_decide as E.
    + intros [= <- <-]. subst b. destruct (core_some _ _ _ _ (Ecs c) Hc) as (cc' & Hc' & Ec).
      exists sl, cc', p. split; [done|split; [done|]].
      eapply slab_ok_kept; [exact Hok|done|by apply page_kept_refl|done..].
    + intros Hb. destruct (hc_slab _ _ _ _ _ _ Hcore _ _ _ Hb) as (sl' & cc' & q & Hs' & Hc' & Hok').
      destruct (core_some _ _ _ _ (Ecs c') Hc') as (cc2 & Hc2 & Ec).
      exists sl', cc2, q. rewrite Esl by done. split; [done|split; [done|]].
      eapply slab_ok_kept; [exact Hok'|by apply (hc_caches _ _ _ _ _ _ Hcore c')| |apply Hok'|done|done].
      apply (Hkept q 0); [apply Hok'|]. intros ->. apply E.
      by rewrite Ea, (so_addr _ _ _ _ _ _ _ _ _ Hok').
  - intros q o n Hq. pose proof (hc_large _ _ _ _ _ _ Hcore _ _ _ Hq) as Hla.
    destruct (hc_slab _ _ _ _ _ _ Hcore _ _ _ Ha) as (sl0 & cc0 & p0 & _ & _ & Hok0).
    eapply large_ok_kept; [exact Hla| |apply Hla]. apply (Hkept q o); [apply Hla|].
    intros ->. apply (slab_not_large _ _ _ _ _ Hcore _ _ _ _ _ _ _ _ _ Hok0 Hq).
    pose proof (so_addr _ _ _ _ _ _ _ _ _ Hok0). unfold KheapInv.virt in *. lia.
  - intros b n. rewrite Hlive, (hc_live _ _ _ _ _ _ Hcore).
    assert (slab_object s' (<[a := (c, l')]> gs) b n <->
      (b <> y /\ slab_object s gs b n) \/ (b = y /\ (y ∉ l') /\ n = sc_size cc)) as ->.
    { split.
      - intros (sa & c' & l'' & cc' & Hg & Hc' & Hs & Hn & ->).
        pose proof (Ecs c') as E. rewrite Hc' in E. destruct (kh_caches s !! c') as [cc0|] eqn:E0; [|done].
        injection E as Es Eal. assert (sc_core cc' = sc_core cc0) as Ec by (unfold sc_core; congruence).
        apply (is_slot_core _ _ _ _ Ec) in Hs. rewrite lookup_insert in Hg. case_decide as Esa.
        + injection Hg as <- <-. subst sa. assert (cc0 = cc) as -> by congruence.
          destruct (decide (b = y)) as [->|Hne]; [by right|]. left. split; [done|].
          exists a, c, l, cc. rewrite <- Hl by done. done.
        + left. split; [|exists sa, c', l'', cc0; done]. intros ->. apply Esa.
          symmetry. by eapply (slot_slab s).
      - intros [[Hne (sa & c' & l'' & cc' & Hg & Hc' & Hs & Hn & ->)]|(-> & Hn & ->)].
        + destruct (core_some _ _ _ _ (Ecs c') Hc') as (cc2 & Hc2 & Ec).
          exists sa, c', (if decide (sa = a) then l' else l''), cc2. rewrite lookup_insert.
          rewrite (is_slot_core _ _ _ _ Ec). injection Ec as -> _.
          destruct (decide (a = sa)) as [<-|]; [|by rewrite decide_False].
          rewrite decide_True by done. simplify_eq. rewrite Hl by done. done.
        + destruct (core_some _ _ _ _ (Ecs c) Hc) as (cc2 & Hc2 & Ec).
          exists a, c, l', cc2. rewrite lookup_insert_eq, (is_slot_core _ _ _ _ Ec). by injection Ec as -> _. }
    assert (forall q o, b = virt q + 24 -> gl !! q = Some (o, n) -> b <> y) as Hny.
    { intros q o -> Hq E. by eapply (slot_not_body _ _ _ _ _ Hcore _ _ _ _ _ _ _ _ Ha Hc Hy Hq). }
    naive_solver.
Qed.
End slabs.
