(* ===== verification/KheapCreate.v ===== *)
(** Making a slab, [slab_create] of [kernel/src/mm/kheap.c]: a page of the buddy
    allocator is cut into objects, all of them free and chained in order. *)
From S2P Require Import Prelude Dll Pfndb Pmm StringLib WordMem Kheap KheapList KheapInv KheapSlab.

Lemma on_mem_ok s (f : mem -> outcome mem) m : f (kh_mem s) = Ok m -> on_mem f s = Ok (tt, set_mem m s).
Proof. intros E. unfold on_mem. by rewrite E. Qed.

Lemma on_pmm_ok {A} s (f : ST pmm A) a p : f (kh_pmm s) = Ok (a, p) -> on_pmm f s = Ok (a, set_pmm p s).
Proof. intros E. unfold on_pmm. by rewrite E. Qed.

Lemma read_word_ok s a w : load_word (kh_mem s) a = Ok w -> read_word a s = Ok (w, s).
Proof. intros E. unfold read_word. by rewrite E. Qed.

Lemma set_pmm_id s : set_pmm (kh_pmm s) s = s.
Proof. by destruct s. Qed.

(** *** Linking the objects *)

Section link.
Context (base size total : Z).
Context (Hb : 0 <= base) (Hs : 8 <= size) (Ht : 1 <= total) (Hend : base + total * size <= 2 ^ 64)
  (Hsmall : total * size <= 4096).

Lemma slot_addr i : 0 <= i < total -> u64 (base + u32 (i * size)) = base + i * size.
Proof. intros Hi. unfold u32. rewrite Z.mod_small by nia. apply u64_small. nia. Qed.

Definition next_slot (i : Z) : Z := if i + 1 <? total then base + (i + 1) * size else 0.

Lemma link_slots_ok n : forall i s,
  0 <= i -> i + Z.of_nat n = total -> mem_ok (kh_mem s) -> mapped (kh_mem s) base (total * size) ->
  exists m', link_slots n i total base size s = Ok (tt, set_mem m' s) /\ mem_ok m' /\
    (forall x, is_Some (m' !! x) <-> is_Some (kh_mem s !! x)) /\
    (forall x, ~ base + i * size <= x < base + total * size -> m' !! x = kh_mem s !! x) /\
    (forall j, i <= j < total -> load_word m' (base + j * size) = Ok (next_slot j)).
Proof.
  induction n as [|n IH]; intros i s Hi Hn Hok Hm.
  - exists (kh_mem s). split; [by destruct s|]. do 3 (split; [done|]). lia.
  - assert (0 <= next_slot i < 2 ^ 64) as Hw by (unfold next_slot; destruct (Z.ltb_spec (i + 1) total); nia).
    destruct (store_le_wrote 8 (kh_mem s) (base + i * size) (next_slot i) Hok) as (m1 & Hst & Hwr).
    { eapply mapped_sub; [done|nia|nia]. }
    { done. }
    destruct (IH (i + 1) (set_mem m1 s)) as (m' & Hr & Hok' & Hdom & Hfr & Hld); [lia|lia|apply Hwr| |].
    { by eapply wrote_mapped. }
    exists m'. split; [|split; [done|split; [|split]]].
    + cbn [link_slots]. eapply st_bind_eq; [|exact Hr]. apply on_mem_ok.
      rewrite slot_addr by lia. unfold store_word.
      replace (if i + 1 <? total then u64 (base + u32 ((i + 1) * size)) else 0) with (next_slot i); [done|].
      unfold next_slot. destruct (Z.ltb_spec (i + 1) total); [|done]. by rewrite slot_addr by lia.
    + intros x. rewrite Hdom. cbn. apply (wr_dom _ _ _ _ _ Hwr).
    + intros x Hx. rewrite Hfr by nia. cbn. apply (wr_frame _ _ _ _ _ Hwr). nia.
    + intros j Hj. destruct (decide (j = i)) as [->|Hne]; [|apply Hld; lia].
      rewrite <- (wr_load _ _ _ _ _ Hwr). apply load_le_frame. intros x Hx. apply Hfr. nia.
Qed.

Lemma chain_slots m : (forall j, 0 <= j < total -> load_word m (base + j * size) = Ok (next_slot j)) ->
  forall n i, 0 <= i -> i + Z.of_nat n = total ->
  chain m (if i <? total then base + i * size else 0) ((fun j => base + j * size) <$> seqZ i (Z.of_nat n)).
Proof.
  intros Hld n. induction n as [|n IH]; intros i Hi Hn.
  - destruct (Z.ltb_spec i total); [lia|done].
  - destruct (Z.ltb_spec i total); [|lia]. rewrite seqZ_cons by lia. cbn. split; [done|].
    exists (next_slot i). split; [apply Hld; lia|]. unfold next_slot.
    replace (Z.pred (Z.of_nat (Datatypes.S n))) with (Z.of_nat n) by lia. apply IH; lia.
Qed.
End link.

(** *** [slab_create] *)

Section create.
Context (hhdm_offset caches_at : Z).
Abbreviation virt := (virt hhdm_offset).
Abbreviation heap_core := (heap_core hhdm_offset).
Abbreviation slab_ok := (slab_ok hhdm_offset).

(** Only frames that nobody held have been written. *)
Definition only_fresh (s : kheap) (blk : blocks) (s' : kheap) : Prop :=
  forall x, ~ loose blk ((x - hhdm_offset) / 4096) -> kh_mem s' !! x = kh_mem s !! x.

Definition keeps_blocks (blk blk' : blocks) : Prop :=
  forall q k, blk !! q = Some (k, Alloc) -> blk' !! q = Some (k, Alloc).

Lemma virt_frame p x : virt p <= x < virt p + 4096 -> (x - hhdm_offset) / 4096 = p.
Proof. unfold KheapInv.virt. intros Hx. symmetry. apply (Z.div_unique _ _ _ (x - hhdm_offset - p * 4096)); lia. Qed.

(** The state after a block has been taken from the page allocator and its first
    descriptor and its bytes have been filled in. *)
Lemma page_kept_fresh s blk s' o p pm blk' q o' g :
  pmm_ok (kh_pmm s) blk -> allocated (kh_pmm s) blk o p pm blk' -> blk !! q = Some (o', Alloc) ->
  pm_map (kh_pmm s') = <[p := g]> (pm_map pm) -> only_fresh s blk s' -> page_kept hhdm_offset s s' q.
Proof.
  intros Hok Hal Hq Em Hf. destruct (ok_inv _ _ Hok) as [fls Hi].
  destruct (geom_blk _ _ (inv_geom _ _ _ Hi) _ _ _ Hq) as (Ho' & _).
  assert (~ loose blk q) as Hnl.
  { eapply (alloc_not_loose _ _ _ _ _ (inv_geom _ _ _ Hi) Hq). pose proof (pow2_pos o' ltac:(lia)). lia. }
  assert (q <> p) as Hne.
  { intros ->. apply Hnl, (al_fresh _ _ _ _ _ _ Hal).
    pose proof (al_block _ _ _ _ _ _ Hal) as Hb. destruct (ok_inv _ _ (al_ok _ _ _ _ _ _ Hal)) as [fls' Hi'].
    destruct (geom_blk _ _ (inv_geom _ _ _ Hi') _ _ _ Hb) as (Ho & _). pose proof (pow2_pos o ltac:(lia)). lia. }
  split.
  - rewrite Em, lookup_insert_ne by done. by apply (al_core _ _ _ _ _ _ Hal).
  - intros x Hx. apply Hf. by rewrite (virt_frame _ _ Hx).
Qed.

Lemma allocated_keeps s blk o p pm blk' : pmm_ok s blk -> allocated s blk o p pm blk' -> keeps_blocks blk blk'.
Proof.
  intros Hok Hal q k Hq. destruct (decide (q = p)) as [->|Hne]; [|by apply (al_others _ _ _ _ _ _ Hal)].
  exfalso. destruct (ok_inv _ _ Hok) as [fls Hi]. destruct (geom_blk _ _ (inv_geom _ _ _ Hi) _ _ _ Hq) as (Ho' & _).
  apply (alloc_not_loose _ _ _ _ p (inv_geom _ _ _ Hi) Hq); [pose proof (pow2_pos k ltac:(lia)); lia|].
  apply (al_fresh _ _ _ _ _ _ Hal). destruct (ok_inv _ _ (al_ok _ _ _ _ _ _ Hal)) as [fls' Hi'].
  destruct (geom_blk _ _ (inv_geom _ _ _ Hi') _ _ _ (al_block _ _ _ _ _ _ Hal)) as (Ho & _).
  pose proof (pow2_pos o ltac:(lia)). lia.
Qed.

(** Growing or shrinking the heap by whole blocks: the blocks it goes on using
    have kept their descriptors and their bytes. *)
Lemma core_blocks s s' blk blk' gs gs' gl gl' live live' :
  heap_core s blk gs gl live ->
  pmm_ok (kh_pmm s') blk' -> pm_max (kh_pmm s') = pm_max (kh_pmm s) -> kh_caches s' = kh_caches s ->
  mem_ok (kh_mem s') -> (forall x, is_Some (kh_mem s' !! x) <-> is_Some (kh_mem s !! x)) ->
  (forall q o, blk !! q = Some (o, Alloc) -> is_Some (gs' !! virt q) \/ is_Some (gl' !! q) ->
    page_kept hhdm_offset s s' q /\ blk' !! q = Some (o, Alloc)) ->
  (forall a, is_Some (kh_slabs s' !! a) -> is_Some (gs' !! a)) ->
  (forall a c l, gs' !! a = Some (c, l) ->
    (gs !! a = Some (c, l) /\ kh_slabs s' !! a = kh_slabs s !! a) \/
    exists sl cc p, kh_slabs s' !! a = Some sl /\ kh_caches s' !! c = Some cc /\ slab_ok s' blk' a c l sl cc p) ->
  (forall p o n, gl' !! p = Some (o, n) -> gl !! p = Some (o, n) \/ large_ok hhdm_offset s' blk' p o n) ->
  (forall a n, live' !! a = Some n <->
    slab_object s' gs' a n \/ exists p o, a = virt p + 24 /\ gl' !! p = Some (o, n)) ->
  heap_core s' blk' gs' gl' live'.
Proof.
  intros Hcore Hpm Emax Ec Hok Hdom Hkept Hd Hsl Hla Hli. split; try done.
  - destruct (hc_map _ _ _ _ _ _ Hcore). split; by rewrite ?Emax.
  - rewrite Emax. intros x Hx. apply Hdom. by apply (hc_mapped _ _ _ _ _ _ Hcore).
  - rewrite Ec. apply Hcore.
  - intros a c l Ha. destruct (Hsl a c l Ha) as [[Hg Es]|?]; [|done].
    destruct (hc_slab _ _ _ _ _ _ Hcore _ _ _ Hg) as (sl & cc & p & Hs & Hc & Hs').
    exists sl, cc, p. rewrite Es, Ec. split; [done|split; [done|]].
    destruct (Hkept p 0) as [Hk Hb]; [apply Hs'|left; rewrite <- (so_addr _ _ _ _ _ _ _ _ _ Hs'), Ha; by eexists|].
    eapply slab_ok_kept; [exact Hs'|by apply (hc_caches _ _ _ _ _ _ Hcore c)|done..].
  - intros p o n Hp. destruct (Hla p o n Hp) as [Hg|?]; [|done].
    pose proof (hc_large _ _ _ _ _ _ Hcore _ _ _ Hg) as Hl.
    destruct (Hkept p o) as [Hk Hb]; [apply Hl|right; rewrite Hp; by eexists|]. by eapply large_ok_kept.
Qed.

Lemma pmm_set_map_twice s p g g' :
  pm_set_map (<[p := g']> (pm_map (pm_set_map (<[p := g]> (pm_map s)) s))) (pm_set_map (<[p := g]> (pm_map s)) s) =
  pm_set_map (<[p := g']> (pm_map s)) s.
Proof. unfold pm_set_map. cbn. by rewrite insert_insert_eq. Qed.

Definition slots_of (a : Z) (cc : slab_cache) : list Z := (fun i => slot a cc i) <$> seqZ 0 (objs cc).

Lemma slots_of_elem a cc x : x ∈ slots_of a cc <-> is_slot a cc x.
Proof.
  unfold slots_of, is_slot. rewrite list_elem_of_fmap. split; intros (i & H1 & H2); exists i.
  - apply elem_of_seqZ in H2. split; [lia|done].
  - split; [done|]. apply elem_of_seqZ. lia.
Qed.

Lemma slots_of_nodup a cc : cache_ok cc -> NoDup (slots_of a cc).
Proof.
  intros Hc. apply NoDup_fmap_2_strong; [|apply NoDup_seqZ]. intros i j _ _ E. unfold slot in E.
  pose proof (ca_size _ Hc). nia.
Qed.

Lemma slots_of_length a cc : cache_ok cc -> Z.of_nat (length (slots_of a cc)) = objs cc.
Proof. intros Hc. unfold slots_of. rewrite length_fmap, length_seqZ. destruct (objs_bounds _ Hc). lia. Qed.

(** The page a slab is made of. *)
Lemma slab_page_ok (s : pmm) blk p pm blk' c :
  pmm_ok s blk -> allocated s blk 0 p pm blk' ->
  exists g, upd_page p (SetPageFlag PAGE_SLAB) pm = Ok (tt, pm_set_map (<[p := SetPageFlag PAGE_SLAB g]> (pm_map pm)) pm) /\
    upd_page p (pg_set_private c) (pm_set_map (<[p := SetPageFlag PAGE_SLAB g]> (pm_map pm)) pm) =
      Ok (tt, pm_set_map (<[p := pg_set_private c (SetPageFlag PAGE_SLAB g)]> (pm_map pm)) pm) /\
    pmm_ok (pm_set_map (<[p := pg_set_private c (SetPageFlag PAGE_SLAB g)]> (pm_map pm)) pm) blk' /\
    PageSlab (pg_set_private c (SetPageFlag PAGE_SLAB g)) = true.
Proof.
  intros Hok Hal. destruct (al_frames _ _ _ _ _ _ Hal p) as (g & Hg & _); [change (2 ^ 0) with 1; lia|].
  exists g. split; [by apply upd_page_ok|]. split.
  { rewrite (upd_page_ok _ _ _ (SetPageFlag PAGE_SLAB g)) by apply lookup_insert_eq.
    by rewrite pmm_set_map_twice. }
  assert (PageSlab (SetPageFlag PAGE_SLAB g) = true) as Hs by (rewrite PageSlab_bit, set_bits; apply orb_true_r).
  split; [|done]. apply (pmm_touch _ _ _ g); try done.
  - apply Hal.
  - intros Hl. apply (al_loose _ _ _ _ _ _ Hal) in Hl as [_ Hn]. apply Hn. change (2 ^ 0) with 1. lia.
  - change (PageFree (pg_set_private c (SetPageFlag PAGE_SLAB g))) with (PageFree (SetPageFlag PAGE_SLAB g)).
    rewrite !PageFree_bit, set_bits. apply orb_false_r.
Qed.

(** The new slab, all of its objects free. *)
Definition new_slab (a : Z) (cc : slab_cache) (p : Z) : slab :=
  mk_slab None None (slot a cc 0) 0 (objs cc) (Some p).

Lemma new_slab_ok s blk a c cc p g :
  cache_ok cc -> a = virt p -> blk !! p = Some (0, Alloc) ->
  pm_map (kh_pmm s) !! p = Some g -> PageSlab g = true -> pg_private g = c ->
  (forall j, 0 <= j < objs cc -> load_word (kh_mem s) (a + slab_hdr (sc_align cc) + j * sc_size cc) =
    Ok (next_slot (a + slab_hdr (sc_align cc)) (sc_size cc) (objs cc) j)) ->
  slab_ok s blk a c (slots_of a cc) (new_slab a cc p) cc p.
Proof.
  intros Hc Ha Hb Hg Hs Hp Hld. destruct (objs_bounds _ Hc) as [Hn _]. split; try done.
  - by exists g.
  - cbn. rewrite slots_of_length by done. lia.
  - by apply slots_of_nodup.
  - intros x. apply slots_of_elem.
  - pose proof (chain_slots _ _ _ (ca_size _ Hc) _ Hld (Z.to_nat (objs cc)) 0 ltac:(lia) ltac:(lia)) as Hch.
    rewrite Z2Nat.id in Hch by lia. destruct (Z.ltb_spec 0 (objs cc)); [|lia]. exact Hch.
Qed.

Lemma slots_of_nonempty a cc : cache_ok cc -> slots_of a cc <> [].
Proof.
  intros Hc E. pose proof (slots_of_length a _ Hc) as Hl. rewrite E in Hl. destruct (objs_bounds _ Hc). simpl in Hl. lia.
Qed.

(** A page of its own for the slab: nothing else is there yet. *)
Lemma fresh_not_slab s blk gs gl live p pm blk' : heap_core s blk gs gl live ->
  allocated (kh_pmm s) blk 0 p pm blk' -> gs !! virt p = None.
Proof.
  intros Hcore Hal. destruct (gs !! virt p) as [[c l]|] eqn:E; [|done]. exfalso.
  destruct (hc_slab _ _ _ _ _ _ Hcore _ _ _ E) as (sl & cc & q & _ & _ & Hok).
  pose proof (so_addr _ _ _ _ _ _ _ _ _ Hok). assert (q = p) as -> by (unfold KheapInv.virt in *; lia).
  apply (alloc_held _ _ _ _ _ _ Hcore p 0 p); [apply Hok|change (2 ^ 0) with 1; lia|].
  apply (al_fresh _ _ _ _ _ _ Hal). change (2 ^ 0) with 1. lia.
Qed.

Lemma slab_object_new s s' gs a c cc p x n : kh_caches s' = kh_caches s -> kh_caches s !! c = Some cc ->
  gs !! a = None -> a = virt p ->
  slab_object s' (<[a := (c, slots_of a cc)]> gs) x n <-> slab_object s gs x n.
Proof.
  intros Ec Hc Ha _. split; intros (sa & c' & l & cc' & Hg & Hcc & Hs & Hn & E).
  - rewrite Ec in Hcc. rewrite lookup_insert in Hg. case_decide; [|by exists sa, c', l, cc'].
    exfalso. simplify_eq. apply Hn. by apply slots_of_elem.
  - exists sa, c', l, cc'. rewrite Ec, lookup_insert_ne by congruence. done.
Qed.

Lemma slab_create_ok s blk gs gl live c cc :
  heap_core s blk gs gl live -> kh_caches s !! c = Some cc ->
  exists r s', slab_create hhdm_offset c s = Ok (r, s') /\
    match r with
    | None => s' = s /\ no_free_block blk 0
    | Some a => exists blk' p, heap_core s' blk' (<[a := (c, slots_of a cc)]> gs) gl live /\ gs !! a = None /\
        kh_slabs s' = <[a := new_slab a cc p]> (kh_slabs s) /\ kh_caches s' = kh_caches s /\
        only_fresh s blk s' /\ keeps_blocks blk blk'
    end.
Proof.
  intros Hcore Hc. destruct (hc_caches _ _ _ _ _ _ Hcore _ _ Hc) as [_ Hcok].
  pose proof (hc_pmm _ _ _ _ _ _ Hcore) as Hpm. destruct (objs_bounds _ Hcok) as [Hobj Hend].
  destruct (pmm_alloc_ok _ _ 0 Hpm ltac:(unfold MAX_ORDER; lia)) as (r & pm & Hr & Hres).
  unfold slab_create. rewrite (st_bind_ok _ _ _ _ _ (on_pmm_ok s pmm_alloc_page _ _ Hr)).
  destruct r as [p|].
  2:{ destruct Hres as [-> Hno]. exists None, s. split; [by rewrite set_pmm_id|done]. }
  destruct Hres as [blk' Hal]. destruct (slab_page_ok _ _ _ _ _ c Hpm Hal) as (g & Hu1 & Hu2 & Hpm' & Hslab).
  set (pm3 := pm_set_map (<[p := pg_set_private c (SetPageFlag PAGE_SLAB g)]> (pm_map pm)) pm) in Hu2, Hpm'. set (s3 := set_pmm pm3 s).
  pose proof (al_max _ _ _ _ _ _ Hal) as Emax. pose proof (fresh_not_slab _ _ _ _ _ _ _ _ Hcore Hal) as Hnew.
  assert (direct_map hhdm_offset (kh_pmm s3)) as Hmap.
  { destruct (hc_map _ _ _ _ _ _ Hcore). split; try done. cbn. by rewrite Emax. }
  assert (0 <= p <= pm_max (kh_pmm s3)) as Hp.
  { cbn. destruct (ok_inv _ _ (al_ok _ _ _ _ _ _ Hal)) as [fls Hi].
    destruct (geom_blk _ _ (inv_geom _ _ _ Hi) _ _ _ (al_block _ _ _ _ _ _ Hal)) as (_ & ? & _ & ?).
    change (2 ^ 0) with 1 in *. lia. }
  pose proof (page_virt_ok _ _ Hmap _ Hp) as Hv. destruct (virt_range _ _ Hmap _ Hp) as (Hv1 & Hv2 & _).
  set (a := virt p) in *. pose proof Hcok as [Hc1 Hc2 Hc3 Hc4 Hc5].
  set (base := a + slab_hdr (sc_align cc)) in *.
  set (s4 := set_slabs (<[a := new_slab a cc p]> (kh_slabs s)) s3).
  assert (mapped (kh_mem s) a 4096) as Hma.
  { apply (frame_mapped _ _ _ _ _ _ Hcore). cbn in Hp. by rewrite Emax in Hp. }
  destruct (link_slots_ok base (sc_size cc) (objs cc) ltac:(lia) Hc1 ltac:(lia) ltac:(lia) ltac:(lia)
    (Z.to_nat (objs cc)) 0 s4) as (m' & Hlk & Hby & Hdom & Hfr & Hld); [lia|lia|apply Hcore| |].
  { eapply mapped_sub; [exact Hma|lia|lia]. }
  exists (Some a), (set_mem m' s4). split.
  { eapply st_bind_eq; [by apply on_pmm_ok, Hu1|]. eapply st_bind_eq; [by apply on_pmm_ok, Hu2|].
    eapply st_bind_eq; [exact Hv|]. cbv beta. eapply st_bind_eq; [apply get_cache_ok, Hc|]. cbv beta zeta.
    destruct (Z.eqb_spec (sc_size cc) 0); [lia|].
    assert (u64 (a + slab_hdr (sc_align cc)) = base) as -> by (apply u64_small; lia).
    eapply st_bind_eq; [unfold modify; reflexivity|].
    assert (slot a cc 0 = base) as Es0 by (unfold slot, base; lia).
    unfold s4, new_slab in Hlk. rewrite Es0 in Hlk. eapply st_bind_eq; [exact Hlk|].
    unfold s4, new_slab. rewrite Es0. done. }
  assert (only_fresh s blk (set_mem m' s4)) as Hof.
  { intros x Hx. cbn. rewrite Hfr; [done|]. intros Hin. apply Hx.
    rewrite (virt_frame p x) by (fold a; lia). apply (al_fresh _ _ _ _ _ _ Hal). change (2 ^ 0) with 1. lia. }
  exists blk', p. split; [|split; [done|split; [done|split; [done|split; [done|by eapply allocated_keeps]]]]].
  eapply core_blocks; try done.
  - intros q o Hq _. split; [|by eapply (allocated_keeps _ _ _ _ _ _ Hpm Hal)].
    by eapply (page_kept_fresh s blk _ 0 p pm).
  - intros b. cbn. rewrite !lookup_insert. case_decide; [by eexists|]. apply Hcore.
  - intros b c' l. rewrite lookup_insert. case_decide as E; [|intros; left; cbn; by rewrite lookup_insert_ne].
    intros [= <- <-]. subst b. right. exists (new_slab a cc p), cc, p. split; [apply lookup_insert_eq|split; [done|]].
    eapply (new_slab_ok _ _ _ _ _ _ _ Hcok eq_refl (al_block _ _ _ _ _ _ Hal) (lookup_insert_eq _ _ _) Hslab); [done|].
    intros j Hj. fold base. apply Hld. lia.
  - intros q o n Hq. by left.
  - intros b n. rewrite (hc_live _ _ _ _ _ _ Hcore), (slab_object_new s _ _ _ _ _ p); done.
Qed.
End create.
