(* ===== verification/KheapObj.v ===== *)
(** [slab_alloc] and [slab_free] of [kernel/src/mm/kheap.c]: one object is taken
    from a slab of the cache, or put back, and the slab changes lists when it
    becomes full or ceases to be full. *)
From S2P Require Import Prelude Dll Pfndb Pmm StringLib WordMem Kheap KheapList KheapInv KheapSlab KheapCreate.

(** *** Lists under updates of the other fields *)

Definition sl_links (s : slab) : ptr * ptr := (sl_next s, sl_prev s).
Definition sc_heads (c : slab_cache) : ptr * ptr := (sc_partial c, sc_full c).

Lemma lists_links s s' gs ls : lists_ok s gs ls ->
  (forall a, sl_links <$> kh_slabs s' !! a = sl_links <$> kh_slabs s !! a) ->
  (forall c, sc_heads <$> kh_caches s' !! c = sc_heads <$> kh_caches s !! c) -> lists_ok s' gs ls.
Proof.
  intros [Hh Hd Hm] Hl Hc. split; [| |done].
  - intros c cc w Hcc. pose proof (Hc c) as E. rewrite Hcc in E. symmetry in E.
    destruct (kh_caches s !! c) as [cc0|] eqn:E0; [|done]. injection E as E1 E2.
    rewrite <- (Hh _ _ w E0). destruct w; simpl; congruence.
  - intros c w [cc Hcc]. assert (is_Some (kh_caches s !! c)) as Hs.
    { pose proof (Hc c) as E. rewrite Hcc in E. destruct (kh_caches s !! c); [by eexists|done]. }
    eapply dll_frame; [|by apply Hd]. intros k x _ Hk.
    destruct (core_some _ _ _ _ (Hl k) Hk) as (x' & Hx' & [= E1 E2]). by exists x'.
Qed.

Lemma lists_same_side s gs ls a c l l' : lists_ok s gs ls -> gs !! a = Some (c, l) -> list_of l = list_of l' ->
  lists_ok s (<[a := (c, l')]> gs) ls.
Proof.
  intros [Hh Hd Hm] Ha E. split; [done..|]. intros w c' b. rewrite Hm, lookup_insert.
  case_decide; [subst|done]. split; [intros (l0 & Hl0 & <-)|intros (l0 & Hl0 & <-)]; simplify_eq; eauto.
Qed.

Section objects.
Context (hhdm_offset caches_at : Z).
Abbreviation virt := (virt hhdm_offset).
Abbreviation heap_core := (heap_core hhdm_offset).
Abbreviation slab_ok := (slab_ok hhdm_offset).

(** *** [slab_refill] *)

Lemma lists_new s s1 gs ls a x : lists_ok s gs ls -> gs !! a = None -> kh_slabs s1 = <[a := x]> (kh_slabs s) ->
  kh_caches s1 = kh_caches s -> linked_ok s1 ls /\ forall w c, a ∉ ls w c.
Proof.
  intros Hl Ha Es Ec. assert (forall w c, a ∉ ls w c) as Hn.
  { intros w c' (l & Hl' & _)%(lo_mem _ _ _ Hl). congruence. }
  split; [|done]. split; rewrite ?Ec, ?Es; [apply Hl|]. intros c' w Hc.
  apply dll_frame_insert; [done|by apply (lo_dll _ _ _ Hl)].
Qed.

Lemma slab_refill_ok s blk gs gl live ls c cc :
  heap_core s blk gs gl live -> lists_ok s gs ls -> kh_caches s !! c = Some cc ->
  exists b s', slab_refill hhdm_offset c s = Ok (b, s') /\
    if b : bool then exists blk' gs' ls' a, heap_core s' blk' gs' gl live /\ lists_ok s' gs' ls' /\
        head (ls' Partial c) = Some a /\
        (forall c, sc_core <$> kh_caches s' !! c = sc_core <$> kh_caches s !! c) /\
        only_fresh hhdm_offset s blk s' /\ keeps_blocks blk blk'
    else s' = s /\ no_free_block blk 0.
Proof.
  intros Hcore Hl Hc. unfold slab_refill. rewrite (st_bind_ok _ _ _ _ _ (get_cache_ok _ _ _ Hc)).
  pose proof (lo_head _ _ _ Hl _ _ Partial Hc) as Hh. cbn in Hh. destruct (sc_partial cc) as [a|] eqn:Ep.
  { exists true, s. split; [done|]. exists blk, gs, ls, a. split_and!; try done; by intros ???. }
  destruct (slab_create_ok hhdm_offset s blk gs gl live c cc Hcore Hc) as ([a|] & s1 & Hr & Hres).
  2:{ exists false, s1. split; [by eapply st_bind_eq|done]. }
  destruct Hres as (blk' & p & Hcore1 & Hnew & Es & Ec & Hof & Hkb).
  destruct (lists_new _ _ _ _ _ _ Hl Hnew Es Ec) as [Hlk Hn].
  destruct (slab_list_push_ok s1 ls Partial c cc a (new_slab a cc p) Hlk) as (s2 & Hr2 & Hrl & Hlk2).
  { by rewrite Ec. }
  { by rewrite Es, lookup_insert_eq. }
  { done. }
  { by apply (lists_linked _ _ _ Hl). }
  exists true, s2. split; [eapply st_bind_eq; [done|]; by eapply st_bind_eq|].
  eexists blk', (<[a := (c, slots_of a cc)]> gs), _, a. split; [by eapply core_relinked|]. split.
  - split; [apply Hlk2|apply Hlk2|]. intros w c' b. unfold set_list. rewrite lookup_insert.
    assert (list_of (slots_of a cc) = Partial) as Elo.
    { pose proof (slots_of_nonempty a cc (proj2 (hc_caches _ _ _ _ _ _ Hcore _ _ Hc))). by destruct (slots_of a cc). }
    destruct (decide (a = b)) as [<-|Hne].
    + case_decide as E.
      * destruct E as [-> ->]. split; [eauto|by left].
      * split; [intros Hb; by destruct (Hn w c')|]. intros (l0 & [= <- <-] & <-). by destruct E.
    + rewrite <- (lo_mem _ _ _ Hl). case_decide as E; [destruct E as [-> ->]|done].
      rewrite elem_of_cons. naive_solver.
  - unfold set_list. rewrite decide_True by done. split; [done|]. split.
    + intros c'. by rewrite (rl_caches _ _ Hrl), Ec.
    + split; [|done]. intros x Hx. rewrite (rl_mem _ _ Hrl). by apply Hof.
Qed.

(** *** [slab_alloc] *)

(** The state after an object has been taken: [w] is the next free object. *)
Definition taken (s : kheap) (a c w n : Z) : kheap :=
  set_caches (alter sc_count_alloc c (kh_caches s))
    (set_slabs (alter (sl_set_inuse n) a (alter (sl_set_freelist w) a (kh_slabs s))) s).

Lemma taken_links s a c w n gs ls : lists_ok s gs ls -> lists_ok (taken s a c w n) gs ls.
Proof.
  intros Hl. eapply lists_links; [done| |]; intros b; cbn; rewrite !alter_core; done.
Qed.

Lemma chain_head m a x l : chain m a (x :: l) -> a = x /\ exists w, load_word m x = Ok w /\ chain m w l.
Proof. done. Qed.

Lemma chain_end s blk gs gl live a c l cc w : heap_core s blk gs gl live -> gs !! a = Some (c, l) ->
  kh_caches s !! c = Some cc -> forall l', (forall x, x ∈ l' -> is_slot a cc x) -> chain (kh_mem s) w l' ->
  w = 0 <-> l' = [].
Proof.
  intros Hcore Ha Hc l' Hsl Hch. destruct l' as [|x l']; [done|]. destruct Hch as [-> _].
  split; [|done]. intros ->. exfalso.
  destruct (hc_slab _ _ _ _ _ _ Hcore _ _ _ Ha) as (sl & cc1 & p & _ & E & Hok). simplify_eq.
  destruct (slot_range _ _ _ (proj2 (hc_caches _ _ _ _ _ _ Hcore _ _ Hc)) (Hsl 0 ltac:(left))) as [H1 _].
  rewrite (so_addr _ _ _ _ _ _ _ _ _ Hok) in H1.
  pose proof (dm_pos _ _ (hc_map _ _ _ _ _ _ Hcore)).
  pose proof (alloc_page _ _ _ _ _ _ Hcore _ _ _ (so_block _ _ _ _ _ _ _ _ _ Hok)).
  unfold KheapInv.virt in *. lia.
Qed.

Lemma slab_inuse_range s blk a c l sl cc p : slab_ok s blk a c l sl cc p -> cache_ok cc -> 0 <= sl_inuse sl <= objs cc.
Proof.
  intros Hok Hc. rewrite (so_inuse _ _ _ _ _ _ _ _ _ Hok).
  assert (length l <= length (slots_of a cc))%nat as Hle.
  { apply submseteq_length, NoDup_submseteq; [apply Hok|]. intros x Hx. apply slots_of_elem.
    by apply (so_slots _ _ _ _ _ _ _ _ _ Hok). }
  pose proof (slots_of_length a cc Hc). lia.
Qed.

Lemma taken_core s blk gs gl live a c x l cc sl p w :
  heap_core s blk gs gl live -> gs !! a = Some (c, x :: l) -> kh_caches s !! c = Some cc ->
  kh_slabs s !! a = Some sl -> slab_ok s blk a c (x :: l) sl cc p ->
  load_word (kh_mem s) x = Ok w -> chain (kh_mem s) w l ->
  heap_core (taken s a c w (u32 (sl_inuse sl + 1))) blk (<[a := (c, l)]> gs) gl (<[x := sc_size cc]> live).
Proof.
  intros Hcore Ha Hc Hs Hok Hld Hch. pose proof (proj2 (hc_caches _ _ _ _ _ _ Hcore _ _ Hc)) as Hcok.
  pose proof (so_nodup _ _ _ _ _ _ _ _ _ Hok) as Hnd. apply NoDup_cons in Hnd as [Hnin Hnd].
  pose proof (slab_inuse_range _ _ _ _ _ _ _ _ Hok Hcok) as Hr. destruct (objs_bounds _ Hcok) as [Hob _].
  eapply (core_slab hhdm_offset s _ blk gs gl live _ a c (x :: l) l cc p x); try done.
  - cbn. rewrite !lookup_alter_eq, Hs. cbn. destruct Hok. split; try done.
    + cbn. rewrite so_inuse, u32_small; cbn [length] in *; lia.
    + intros y Hy. apply so_slots. by right.
  - cbn. rewrite !lookup_alter_eq, Hs. by eexists.
  - apply (so_slots _ _ _ _ _ _ _ _ _ Hok). left.
  - intros c'. cbn. by apply alter_core.
  - intros b Hb. cbn. by rewrite !lookup_alter_ne.
  - apply Hcore.
  - intros y Hy. rewrite elem_of_cons. naive_solver.
  - intros b n. rewrite lookup_insert. case_decide; [subst; naive_solver|]. naive_solver.
Qed.

(** A free object is not in use, and it is aligned. *)
Lemma free_not_live s blk gs gl live a c l cc x : heap_core s blk gs gl live -> gs !! a = Some (c, l) ->
  kh_caches s !! c = Some cc -> is_slot a cc x -> x ∈ l -> live !! x = None.
Proof.
  intros Hcore Ha Hc Hxs Hx. destruct (live !! x) as [n|] eqn:E; [|done]. exfalso.
  apply (hc_live _ _ _ _ _ _ Hcore) in E as [(sa & c' & l' & cc' & Hg & Hcc' & Hsx & Hnx & _)|(q & o & Eq & Hq)].
  - assert (a = sa) as <- by (by eapply (slot_slab _ _ _ _ _ _ Hcore)). by simplify_eq.
  - by eapply (slot_not_body _ _ _ _ _ _ Hcore).
Qed.

Lemma slot_aligned s blk gs gl live a c l sl cc p x : heap_core s blk gs gl live ->
  slab_ok s blk a c l sl cc p -> cache_ok cc -> is_slot a cc x -> (8 | x).
Proof.
  intros Hcore Hok Hc Hx. eapply slot_word; [done| |done]. rewrite (so_addr _ _ _ _ _ _ _ _ _ Hok).
  apply (virt_range _ s (hc_map _ _ _ _ _ _ Hcore)).
  apply (alloc_page _ _ _ _ _ _ Hcore _ _ _ (so_block _ _ _ _ _ _ _ _ _ Hok)).
Qed.

(** A slab that has become full moves to the other list. *)
Lemma taken_move s s2 blk gs gl live live' ls a c x l cc w n :
  heap_core s blk gs gl live -> lists_ok s gs ls -> gs !! a = Some (c, x :: l) -> kh_caches s !! c = Some cc ->
  (forall y, y ∈ l -> is_slot a cc y) -> chain (kh_mem s) w l -> s2 = taken s a c w n ->
  heap_core s2 blk (<[a := (c, l)]> gs) gl live' ->
  exists s3 gs3 ls3, (if w =? 0 then slab_list_remove Partial c a ;; slab_list_push Full c a else mret tt) s2 =
    Ok (tt, s3) /\ heap_core s3 blk gs3 gl live' /\ lists_ok s3 gs3 ls3 /\ relinked s2 s3.
Proof.
  intros Hcore Hl Ha Hc Hsl Hch -> Hcore2. pose proof (taken_links _ a c w n _ _ Hl) as Hl2.
  pose proof (chain_end _ _ _ _ _ _ _ _ _ _ Hcore Ha Hc l Hsl Hch) as Hw0.
  destruct (Z.eqb_spec w 0) as [Ew|Ew].
  - apply Hw0 in Ew as ->.
    assert (exists cc3, kh_caches (taken s a c w n) !! c = Some cc3) as [cc3 Hc3]
      by (cbn; rewrite lookup_alter_eq, Hc; by eexists).
    destruct (slab_move_ok _ gs ls c cc3 a [x] [] Hl2 Hc3 Ha) as (s3 & ls3 & Hr3 & Hrl & Hl3); [done|].
    exists s3, (<[a := (c, [])]> gs), ls3. split; [done|]. split; [by eapply core_relinked|done].
  - exists (taken s a c w n), (<[a := (c, l)]> gs), ls. split; [done|]. split; [done|]. split; [|done].
    eapply lists_same_side; [done|done|]. destruct l; [by destruct Ew; apply Hw0|done].
Qed.

Lemma slab_alloc_ok s blk gs gl live ls c cc :
  heap_core s blk gs gl live -> lists_ok s gs ls -> kh_caches s !! c = Some cc ->
  exists r s', slab_alloc hhdm_offset c s = Ok (r, s') /\
    match r with
    | None => s' = s /\ no_free_block blk 0
    | Some x => exists blk' gs' ls', heap_core s' blk' gs' gl (<[x := sc_size cc]> live) /\ lists_ok s' gs' ls' /\
        (forall c, sc_core <$> kh_caches s' !! c = sc_core <$> kh_caches s !! c) /\
        live !! x = None /\ (8 | x) /\ only_fresh hhdm_offset s blk s' /\ keeps_blocks blk blk'
    end.
Proof.
  intros Hcore0 Hl0 Hc0. destruct (slab_refill_ok s blk gs gl live ls c cc Hcore0 Hl0 Hc0) as (b & s1 & Hr & Hres).
  unfold slab_alloc. rewrite (st_bind_ok _ _ _ _ _ Hr). destruct b; cbn [negb].
  2:{ destruct Hres as [-> Hno]. by exists None, s. }
  destruct Hres as (blk1 & gs1 & ls1 & a & Hcore & Hl & Hhd & Hcc & Hof & Hkb).
  destruct (core_some _ _ _ _ (Hcc c) Hc0) as (cc1 & Hc & Ecc). assert (sc_size cc1 = sc_size cc) as Esz by (by injection Ecc).
  rewrite (st_bind_ok _ _ _ _ _ (get_cache_ok _ _ _ Hc)).
  pose proof (lo_head _ _ _ Hl _ _ Partial Hc) as Hp. cbn in Hp. rewrite Hhd in Hp. rewrite Hp.
  assert (a ∈ ls1 Partial c) as Hin by (destruct (ls1 Partial c); [done|]; simplify_eq/=; left).
  apply (lo_mem _ _ _ Hl) in Hin as (lf & Ha & Elf). destruct lf as [|x l]; [done|].
  destruct (hc_slab _ _ _ _ _ _ Hcore _ _ _ Ha) as (sl & cc2 & p & Hs & Hc2 & Hok).
  assert (cc2 = cc1) as -> by congruence. clear Hc2.
  destruct (chain_head _ _ _ _ (so_chain _ _ _ _ _ _ _ _ _ Hok)) as (Ex & w & Hld & Hch).
  pose proof (taken_core _ _ _ _ _ _ _ _ _ _ _ _ _ Hcore Ha Hc Hs Hok Hld Hch) as Hcore2.
  set (s2 := taken s1 a c w (u32 (sl_inuse sl + 1))) in *. rewrite Esz in Hcore2.
  assert (is_slot a cc1 x) as Hxs by (apply (so_slots _ _ _ _ _ _ _ _ _ Hok); left).
  destruct (taken_move s1 s2 blk1 gs1 gl live _ ls1 a c x l cc1 w _ Hcore Hl Ha Hc
    (fun y Hy => so_slots _ _ _ _ _ _ _ _ _ Hok y (list_elem_of_further _ _ _ Hy)) Hch eq_refl Hcore2)
    as (s3 & gs3 & ls3 & Hmv & Hcore3 & Hl3 & Hrl).
  exists (Some x), s3. split.
  { eapply st_bind_eq; [by apply get_slab_ok|]. cbv beta zeta. rewrite Ex.
    eapply st_bind_eq; [by apply read_word_ok|]. cbv beta.
    eapply st_bind_eq; [apply upd_slab_ok; rewrite Hs; by eexists|].
    eapply st_bind_eq; [apply upd_slab_ok; cbn; rewrite lookup_alter_eq, Hs; by eexists|].
    eapply st_bind_eq; [apply upd_cache_ok; cbn; rewrite Hc; by eexists|].
    eapply st_bind_eq; [exact Hmv|]. done. }
  exists blk1, gs3, ls3. split; [done|split; [done|]]. split; [|split; [|split; [|split; [|done]]]].
  - intros c'. rewrite (rl_caches _ _ Hrl). cbn. rewrite alter_core by done. apply Hcc.
  - eapply (free_not_live _ _ _ _ _ _ _ _ _ _ Hcore Ha Hc Hxs). left.
  - by eapply (slot_aligned _ _ _ _ _ _ _ _ _ _ _ _ Hcore Hok (proj2 (hc_caches _ _ _ _ _ _ Hcore _ _ Hc))).
  - intros y Hy. rewrite (rl_mem _ _ Hrl). by apply Hof.
Qed.

(** *** [slab_free] *)

(** The state after an object has been chained in front of the free ones. *)
Definition returned (s : kheap) (a c x n : Z) (m : mem) : kheap :=
  set_caches (alter sc_count_free c (kh_caches s))
    (set_slabs (alter (sl_set_inuse n) a (alter (sl_set_freelist x) a (kh_slabs s))) (set_mem m s)).

Lemma returned_core s blk gs gl live a c x l cc sl p m' :
  heap_core s blk gs gl live -> gs !! a = Some (c, l) -> kh_caches s !! c = Some cc ->
  kh_slabs s !! a = Some sl -> slab_ok s blk a c l sl cc p -> is_slot a cc x -> (x ∉ l) ->
  wrote (kh_mem s) x 8 (sl_freelist sl) m' ->
  heap_core (returned s a c x (u32 (sl_inuse sl - 1)) m') blk (<[a := (c, x :: l)]> gs) gl (delete x live).
Proof.
  intros Hcore Ha Hc Hs Hok Hx Hnin Hw. pose proof (proj2 (hc_caches _ _ _ _ _ _ Hcore _ _ Hc)) as Hcok.
  assert (NoDup (x :: l)) as Hnd by (constructor; [done|apply Hok]).
  assert (forall y, y ∈ x :: l -> is_slot a cc y) as Hsl.
  { intros y [->|Hy]%elem_of_cons; [done|]. by apply (so_slots _ _ _ _ _ _ _ _ _ Hok). }
  assert (Z.of_nat (length (x :: l)) <= objs cc) as Hlen.
  { rewrite <- (slots_of_length a cc Hcok). apply inj_le, submseteq_length, NoDup_submseteq; [done|].
    intros y Hy. apply slots_of_elem. by apply Hsl. }
  destruct (objs_bounds _ Hcok) as [Hob _].
  eapply (core_slab hhdm_offset s _ blk gs gl live _ a c l (x :: l) cc p x); try done.
  - cbn. rewrite !lookup_alter_eq, Hs. cbn. destruct Hok. split; try done.
    + cbn. rewrite so_inuse, u32_small; cbn [length] in *; lia.
    + cbn. split; [done|]. exists (sl_freelist sl). split; [apply Hw|].
      eapply chain_frame; [|exact so_chain]. intros y Hy z Hz. apply (wr_frame _ _ _ _ _ Hw).
      assert (y <> x) by (by intros ->). pose proof (ca_size _ Hcok).
      destruct (slot_disjoint a cc x y Hcok Hx (so_slots y Hy)); [done|lia|lia].
  - cbn. rewrite !lookup_alter_eq, Hs. by eexists.
  - intros c'. cbn. by apply alter_core.
  - intros b Hb. cbn. by rewrite !lookup_alter_ne.
  - apply Hw.
  - apply Hw.
  - intros y Hy. apply (wr_frame _ _ _ _ _ Hw). lia.
  - intros y Hy. rewrite elem_of_cons. naive_solver.
  - intros b n. rewrite lookup_delete. case_decide as E; [subst|naive_solver].
    split; [done|]. intros [[? _]|(_ & Hn & _)]; [done|]. destruct Hn. left.
Qed.

(** The test for a full slab, and its move. *)
Lemma full_test s blk gs gl live a c l sl cc p : heap_core s blk gs gl live -> gs !! a = Some (c, l) ->
  kh_caches s !! c = Some cc -> slab_ok s blk a c l sl cc p ->
  (sl_freelist sl =? 0) && (sl_inuse sl =? sl_total sl) = bool_decide (l = []).
Proof.
  intros Hcore Ha Hc Hok.
  pose proof (chain_end _ _ _ _ _ _ _ _ _ _ Hcore Ha Hc l (so_slots _ _ _ _ _ _ _ _ _ Hok)
    (so_chain _ _ _ _ _ _ _ _ _ Hok)) as Hz.
  rewrite (so_inuse _ _ _ _ _ _ _ _ _ Hok), (so_total _ _ _ _ _ _ _ _ _ Hok).
  destruct l as [|y l]; cbn [length].
  - rewrite (proj2 Hz eq_refl). rewrite bool_decide_eq_true_2 by done. apply andb_true_iff. split; apply Z.eqb_eq; lia.
  - rewrite bool_decide_eq_false_2 by done. apply andb_false_iff. right. apply Z.eqb_neq. lia.
Qed.

Lemma unfull_move s blk gs gl live ls a c x l cc : heap_core s blk gs gl live -> lists_ok s gs ls ->
  gs !! a = Some (c, l) -> kh_caches s !! c = Some cc ->
  exists s1 ls1, (if bool_decide (l = []) then slab_list_remove Full c a ;; slab_list_push Partial c a else mret tt) s =
    Ok (tt, s1) /\ heap_core s1 blk gs gl live /\ relinked s s1 /\ lists_ok s1 (<[a := (c, x :: l)]> gs) ls1.
Proof.
  intros Hcore Hl Ha Hc. case_bool_decide as El.
  - subst l. destruct (slab_move_ok s gs ls c cc a [] [x] Hl Hc Ha) as (s1 & ls1 & Hr & Hrl & Hl1); [done|].
    exists s1, ls1. split; [exact Hr|]. split; [by eapply core_relinked|done].
  - exists s, ls. split; [done|]. split; [done|]. split; [done|]. eapply lists_same_side; [done|done|].
    by destruct l.
Qed.

Lemma slab_free_ok s blk gs gl live ls a c l cc x :
  heap_core s blk gs gl live -> lists_ok s gs ls -> gs !! a = Some (c, l) -> kh_caches s !! c = Some cc ->
  is_slot a cc x -> (x ∉ l) ->
  exists s' gs' ls', slab_free hhdm_offset c x s = Ok (tt, s') /\
    heap_core s' blk gs' gl (delete x live) /\ lists_ok s' gs' ls' /\ kh_pmm s' = kh_pmm s /\
    (forall c, sc_core <$> kh_caches s' !! c = sc_core <$> kh_caches s !! c) /\
    (forall y, ~ x <= y < x + 8 -> kh_mem s' !! y = kh_mem s !! y).
Proof.
  intros Hcore Hl Ha Hc Hx Hnin.
  destruct (hc_slab _ _ _ _ _ _ Hcore _ _ _ Ha) as (sl & cc0 & p & Hs & Hc0 & Hok).
  assert (cc0 = cc) as -> by congruence. clear Hc0.
  pose proof (proj2 (hc_caches _ _ _ _ _ _ Hcore _ _ Hc)) as Hcok. pose proof (slot_range _ _ _ Hcok Hx) as Hxr.
  pose proof (ca_size _ Hcok) as Hsz. pose proof (hc_map _ _ _ _ _ _ Hcore) as Hmap.
  pose proof (alloc_page _ _ _ _ _ _ Hcore _ _ _ (so_block _ _ _ _ _ _ _ _ _ Hok)) as Hp.
  pose proof (so_addr _ _ _ _ _ _ _ _ _ Hok) as Ea.
  destruct (unfull_move _ _ _ _ _ _ a c x l cc Hcore Hl Ha Hc) as (s1 & ls1 & Hr1 & Hcore1 & Hrl & Hl1).
  destruct (relinked_slab _ _ _ _ Hrl Hs) as (sl1 & Hs1 & Esl). destruct (relinked_cache _ _ _ _ Hrl Hc) as (cc1 & Hc1 & Ecc).
  destruct (hc_slab _ _ _ _ _ _ Hcore1 _ _ _ Ha) as (sl2 & cc2 & p2 & Hs2 & Hc2 & Hok1).
  assert (sl2 = sl1) as -> by congruence. assert (cc2 = cc1) as -> by congruence. clear Hs2 Hc2. subst a.
  assert (p2 = p) as -> by (pose proof (so_addr _ _ _ _ _ _ _ _ _ Hok1); unfold KheapInv.virt in *; lia).
  assert (0 <= sl_freelist sl1 < 2 ^ 64) as Hfr.
  { pose proof (so_chain _ _ _ _ _ _ _ _ _ Hok1) as Hch. destruct l as [|y l]; [simpl in Hch; lia|].
    destruct Hch as [-> _]. pose proof (proj2 (hc_caches _ _ _ _ _ _ Hcore1 _ _ Hc1)) as Hcok1.
    pose proof (slot_range _ _ _ Hcok1 (so_slots _ _ _ _ _ _ _ _ _ Hok1 y ltac:(left))).
    pose proof (virt_range _ _ Hmap _ Hp). pose proof (ca_size _ Hcok1). lia. }
  destruct (store_le_wrote 8 (kh_mem s1) x (sl_freelist sl1)) as (m' & Hst & Hwr); [apply Hcore1| |done|].
  { rewrite (rl_mem _ _ Hrl). eapply mapped_sub; [apply (frame_mapped _ _ _ _ _ _ Hcore p Hp)|lia|lia]. }
  assert (sl_inuse sl1 = sl_inuse sl /\ sl_freelist sl1 = sl_freelist sl) as [Ei Ef] by (by injection Esl).
  exists (returned s1 (virt p) c x (u32 (sl_inuse sl - 1)) m'), (<[virt p := (c, x :: l)]> gs), ls1. split.
  { unfold slab_free. eapply st_bind_eq; [unfold gets; reflexivity|]. cbv beta.
    rewrite (frame_of_addr _ _ Hmap _ Hp) by lia.
    eapply st_bind_eq; [apply (page_virt_ok _ _ Hmap _ Hp)|]. cbv beta.
    eapply st_bind_eq; [by apply get_slab_ok|]. cbv beta.
    rewrite (full_test _ _ _ _ _ _ _ _ _ _ _ Hcore Ha Hc Hok).
    eapply st_bind_eq; [exact Hr1|]. rewrite <- Ef. eapply st_bind_eq; [by apply on_mem_ok|].
    eapply st_bind_eq; [apply upd_slab_ok; cbn; rewrite Hs1; by eexists|].
    eapply st_bind_eq; [apply upd_slab_ok; cbn; rewrite lookup_alter_eq, Hs1; by eexists|].
    rewrite upd_cache_ok; [done|]. cbn. rewrite Hc1. by eexists. }
  split; [|split; [|split; [apply (rl_pmm _ _ Hrl)|split]]].
  - rewrite <- Ei. eapply returned_core; try done. by apply (is_slot_core _ _ _ _ Ecc).
  - eapply lists_links; [exact Hl1| |]; intros b; cbn; rewrite !alter_core; done.
  - intros c'. cbn. rewrite alter_core by done. apply (rl_caches _ _ Hrl).
  - intros y Hy. cbn. rewrite (wr_frame _ _ _ _ _ Hwr) by lia. by rewrite (rl_mem _ _ Hrl).
Qed.
End objects.
