(* ===== verification/KheapLarge.v ===== *)
(** Large allocations of [kernel/src/mm/kheap.c]: a block of the buddy allocator
    with a header, its order the smallest that fits; and what a client may do
    with the blocks it has been handed out. *)
From S2P Require Import Prelude Dll Pfndb Pmm StringLib WordMem Kheap KheapList KheapInv KheapSlab KheapCreate KheapObj.

(** *** The order *)

Lemma page_shift o : 0 <= o <= 19 -> u32 (Z.shiftl PAGE_SIZE o) = 4096 * 2 ^ o.
Proof.
  intros Ho. unfold PAGE_SIZE, u32. rewrite Z.shiftl_mul_pow2 by lia. apply Z.mod_small.
  pose proof (Z.pow_pos_nonneg 2 o ltac:(lia) ltac:(lia)).
  pose proof (Z.pow_le_mono_r 2 o 19 ltac:(lia) ltac:(lia)). change (2 ^ 19) with 524288 in *. lia.
Qed.

Lemma large_order_ok fuel : forall o total, 0 <= o <= 19 -> 20 <= o + Z.of_nat fuel -> total <= 2 ^ 31 ->
  exists r, large_order fuel o total = Ok r /\ o <= r <= 19 /\ total <= 4096 * 2 ^ r /\
    (r = o \/ 4096 * 2 ^ (r - 1) < total).
Proof.
  induction fuel as [|fuel IH]; intros o total Ho Hf Ht; [lia|]. cbn [large_order].
  destruct (Z.leb_spec 32 o); [lia|]. rewrite page_shift by lia.
  destruct (Z.ltb_spec (4096 * 2 ^ o) total) as [Hlt|Hge]; [|exists o; split; [done|lia]].
  assert (o <> 19) by (intros ->; change (2 ^ 19) with 524288 in *; lia).
  unfold u8. rewrite Z.mod_small by lia.
  destruct (IH (o + 1) total) as (r & Hr & Hr1 & Hr2 & Hr3); [lia|lia|done|].
  exists r. split; [done|]. split; [lia|]. split; [done|]. right. destruct Hr3 as [-> |]; [|done].
  by replace (o + 1 - 1) with o by lia.
Qed.

Lemma tag_private o : 0 <= o < MAX_ORDER ->
  Z.land (Z.lor LARGE_PAGE_TAG o) LARGE_PAGE_TAG_MASK = LARGE_PAGE_TAG.
Proof.
  unfold MAX_ORDER. intros Ho.
  assert (o = 0 \/ o = 1 \/ o = 2 \/ o = 3 \/ o = 4 \/ o = 5 \/ o = 6 \/ o = 7 \/ o = 8 \/ o = 9 \/ o = 10) as Hc by lia.
  by repeat (destruct Hc as [->|Hc]); subst.
Qed.

Section large.
Context (hhdm_offset caches_at : Z).
Abbreviation virt := (virt hhdm_offset).
Abbreviation heap_core := (heap_core hhdm_offset).
Abbreviation slab_ok := (slab_ok hhdm_offset).
Abbreviation large_ok := (large_ok hhdm_offset).

(** *** Where the blocks in use are *)

(** The block lies in an allocated run of frames, past the first 24 bytes. *)
Lemma live_extent s blk gs gl live b k : heap_core s blk gs gl live -> live !! b = Some k ->
  exists q o, blk !! q = Some (o, Alloc) /\ virt q + 24 <= b /\ b + k <= virt q + 2 ^ o * 4096 /\ 0 < k.
Proof.
  intros Hcore [(a & c & l & cc & Hg & Hc & Hs & _ & ->)|(p & o & -> & Hp)]%(hc_live _ _ _ _ _ _ Hcore).
  - destruct (hc_slab _ _ _ _ _ _ Hcore _ _ _ Hg) as (sl & cc' & p & _ & E & Hok).
    pose proof (proj2 (hc_caches _ _ _ _ _ _ Hcore _ _ Hc)) as Hcok. pose proof (slot_range _ _ _ Hcok Hs).
    pose proof (ca_size _ Hcok). exists p, 0. split; [apply Hok|]. rewrite (so_addr _ _ _ _ _ _ _ _ _ Hok) in *.
    change (2 ^ 0) with 1. lia.
  - destruct (hc_large _ _ _ _ _ _ Hcore _ _ _ Hp) as [Hb _ _ _ Hf]. exists p, o. split; [done|]. lia.
Qed.

Lemma live_frame s blk gs gl live b k x : heap_core s blk gs gl live -> live !! b = Some k -> b <= x < b + k ->
  ~ loose blk ((x - hhdm_offset) / 4096).
Proof.
  intros Hcore Hb Hx. destruct (live_extent _ _ _ _ _ _ _ Hcore Hb) as (q & o & Hq & H1 & H2 & _).
  apply (alloc_held _ _ _ _ _ _ Hcore q o _ Hq). unfold KheapInv.virt in *.
  split; [apply Z.div_le_lower_bound; lia|apply Z.div_lt_upper_bound; lia].
Qed.

Lemma fresh_bytes s s' blk gs gl live b k x : heap_core s blk gs gl live -> only_fresh hhdm_offset s blk s' ->
  live !! b = Some k -> b <= x < b + k -> kh_mem s' !! x = kh_mem s !! x.
Proof. intros Hcore Hf Hb Hx. apply Hf. by eapply live_frame. Qed.

Lemma runs_apart s blk gs gl live p q o1 o2 : heap_core s blk gs gl live ->
  blk !! p = Some (o1, Alloc) -> blk !! q = Some (o2, Alloc) -> p <> q ->
  virt p + 2 ^ o1 * 4096 <= virt q \/ virt q + 2 ^ o2 * 4096 <= virt p.
Proof.
  intros Hcore Hp Hq Hne. destruct (alloc_apart _ _ _ _ _ _ Hcore _ _ _ _ Hp Hq Hne); unfold KheapInv.virt; lia.
Qed.

Lemma slot_large_apart s blk gs gl live a c l cc x p o n : heap_core s blk gs gl live ->
  gs !! a = Some (c, l) -> kh_caches s !! c = Some cc -> is_slot a cc x -> gl !! p = Some (o, n) ->
  x + sc_size cc <= virt p \/ virt p + 24 + n <= x.
Proof.
  intros Hcore Hg Hc Hs Hp. destruct (hc_slab _ _ _ _ _ _ Hcore _ _ _ Hg) as (sl & cc1 & q & _ & _ & Hok).
  pose proof (slab_not_large _ _ _ _ _ _ Hcore _ _ _ _ _ _ _ _ _ Hok Hp) as Hpp.
  pose proof (hc_large _ _ _ _ _ _ Hcore _ _ _ Hp) as Hla. pose proof (la_fits _ _ _ _ _ _ Hla).
  pose proof (slot_range _ _ _ (proj2 (hc_caches _ _ _ _ _ _ Hcore _ _ Hc)) Hs) as R1.
  rewrite (so_addr _ _ _ _ _ _ _ _ _ Hok) in R1.
  destruct (runs_apart _ _ _ _ _ _ _ _ _ Hcore (so_block _ _ _ _ _ _ _ _ _ Hok) (la_block _ _ _ _ _ _ Hla) Hpp) as [E1|E1];
    change (2 ^ 0) with 1 in E1; lia.
Qed.

Lemma slots_apart s blk gs gl live a a' c c' l l' cc cc' x y : heap_core s blk gs gl live ->
  gs !! a = Some (c, l) -> kh_caches s !! c = Some cc -> is_slot a cc x ->
  gs !! a' = Some (c', l') -> kh_caches s !! c' = Some cc' -> is_slot a' cc' y -> x <> y ->
  x + sc_size cc <= y \/ y + sc_size cc' <= x.
Proof.
  intros Hcore Hg Hc Hs Hg' Hc' Hs' Hne. destruct (decide (a = a')) as [<-|Ha].
  { assert (c' = c) as -> by congruence. simplify_eq. eapply slot_disjoint; try done.
    by apply (hc_caches _ _ _ _ _ _ Hcore c). }
  destruct (hc_slab _ _ _ _ _ _ Hcore _ _ _ Hg) as (sl & cc1 & p & _ & _ & Hok).
  destruct (hc_slab _ _ _ _ _ _ Hcore _ _ _ Hg') as (sl' & cc1' & p' & _ & _ & Hok').
  pose proof (slot_range _ _ _ (proj2 (hc_caches _ _ _ _ _ _ Hcore _ _ Hc)) Hs) as R1.
  pose proof (slot_range _ _ _ (proj2 (hc_caches _ _ _ _ _ _ Hcore _ _ Hc')) Hs') as R2.
  rewrite (so_addr _ _ _ _ _ _ _ _ _ Hok) in *. rewrite (so_addr _ _ _ _ _ _ _ _ _ Hok') in *.
  assert (p <> p') as Hp by (by intros ->).
  destruct (runs_apart _ _ _ _ _ _ _ _ _ Hcore (so_block _ _ _ _ _ _ _ _ _ Hok) (so_block _ _ _ _ _ _ _ _ _ Hok') Hp) as [E1|E1];
    change (2 ^ 0) with 1 in E1; lia.
Qed.

(** Blocks in use do not overlap. *)
Lemma live_disjoint s blk gs gl live b b' k k' : heap_core s blk gs gl live ->
  live !! b = Some k -> live !! b' = Some k' -> b <> b' -> b + k <= b' \/ b' + k' <= b.
Proof.
  intros Hcore Hb Hb' Hne.
  apply (hc_live _ _ _ _ _ _ Hcore) in Hb as [(a & c & l & cc & Hg & Hc & Hs & _ & ->)|(p & o & -> & Hp)];
  apply (hc_live _ _ _ _ _ _ Hcore) in Hb' as [(a' & c' & l' & cc' & Hg' & Hc' & Hs' & _ & ->)|(p' & o' & -> & Hp')].
  - eapply (slots_apart s blk gs gl live a a' c c' l l' cc cc'); done.
  - destruct (slot_large_apart _ _ _ _ _ _ _ _ _ _ _ _ _ Hcore Hg Hc Hs Hp'); lia.
  - destruct (slot_large_apart _ _ _ _ _ _ _ _ _ _ _ _ _ Hcore Hg' Hc' Hs' Hp); lia.
  - assert (p <> p') as Hpp by (intros ->; congruence).
    pose proof (hc_large _ _ _ _ _ _ Hcore _ _ _ Hp) as Hla. pose proof (hc_large _ _ _ _ _ _ Hcore _ _ _ Hp') as Hla'.
    pose proof (la_fits _ _ _ _ _ _ Hla). pose proof (la_fits _ _ _ _ _ _ Hla').
    destruct (runs_apart _ _ _ _ _ _ _ _ _ Hcore (la_block _ _ _ _ _ _ Hla) (la_block _ _ _ _ _ _ Hla') Hpp); lia.
Qed.

(** *** What clients write

    A client may write anything into the blocks it holds: the lists of free
    objects and the headers are elsewhere. *)
Lemma core_client s blk gs gl live b k m' : heap_core s blk gs gl live -> live !! b = Some k ->
  mem_ok m' -> (forall x, is_Some (m' !! x) <-> is_Some (kh_mem s !! x)) ->
  (forall x, ~ b <= x < b + k -> m' !! x = kh_mem s !! x) -> heap_core (set_mem m' s) blk gs gl live.
Proof.
  intros Hcore Hb Hok Hdom Hfr. pose proof Hb as Hcase.
  apply (hc_live _ _ _ _ _ _ Hcore) in Hcase.
  split; try (apply Hcore); try done; [intros x Hx; apply Hdom; by apply (hc_mapped _ _ _ _ _ _ Hcore)| |].
  - intros a c l Ha. destruct (hc_slab _ _ _ _ _ _ Hcore _ _ _ Ha) as (sl & cc & p & Hs & Hc & Hsl).
    exists sl, cc, p. split; [done|split; [done|]]. destruct Hsl. split; try done. cbn.
    eapply chain_frame; [|exact so_chain]. intros x Hx y Hy. apply Hfr.
    pose proof (ca_size _ (proj2 (hc_caches _ _ _ _ _ _ Hcore _ _ Hc))).
    destruct Hcase as [(a' & c' & l' & cc' & Hg' & Hc' & Hs' & Hn' & ->)|(q & o & -> & Hq)].
    + assert (x <> b) as Hne.
      { intros ->. apply Hn'. assert (a = a') as <- by (eapply (slot_slab _ _ _ _ _ _ Hcore); eauto). by simplify_eq. }
      destruct (slots_apart _ _ _ _ _ _ _ _ _ _ _ _ _ _ _ Hcore Ha Hc (so_slots x Hx) Hg' Hc' Hs' Hne); lia.
    + destruct (slot_large_apart _ _ _ _ _ _ _ _ _ _ _ _ _ Hcore Ha Hc (so_slots x Hx) Hq); lia.
  - intros p o n Hp. pose proof (hc_large _ _ _ _ _ _ Hcore _ _ _ Hp) as Hla.
    pose proof (la_fits _ _ _ _ _ _ Hla) as Hf.
    assert (b + k <= virt p \/ virt p + 24 <= b) as Hsep.
    { destruct Hcase as [(a' & c' & l' & cc' & Hg' & Hc' & Hs' & Hn' & ->)|(q & o' & -> & Hq)].
      + destruct (slot_large_apart _ _ _ _ _ _ _ _ _ _ _ _ _ Hcore Hg' Hc' Hs' Hp); lia.
      + destruct (decide (p = q)) as [->|Hne]; [lia|].
        pose proof (hc_large _ _ _ _ _ _ Hcore _ _ _ Hq) as Hla'. pose proof (la_fits _ _ _ _ _ _ Hla').
        destruct (runs_apart _ _ _ _ _ _ _ _ _ Hcore (la_block _ _ _ _ _ _ Hla) (la_block _ _ _ _ _ _ Hla') Hne); lia. }
    destruct Hla. split; try done; cbn [kh_mem set_mem].
    + rewrite <- la_magic. apply load_le_frame. intros x Hx. apply Hfr. lia.
    + rewrite <- la_size. apply load_le_frame. intros x Hx. apply Hfr. lia.
Qed.

(** *** Allocation *)

(** The header of a large block. *)
Lemma write_large_hdr_ok s a size order :
  mem_ok (kh_mem s) -> mapped (kh_mem s) a 24 -> 0 <= size < 2 ^ 64 -> 0 <= order < 256 ->
  exists m', write_large_hdr a size order s = Ok (tt, set_mem m' s) /\ mem_ok m' /\
    (forall x, is_Some (m' !! x) <-> is_Some (kh_mem s !! x)) /\
    (forall x, ~ a <= x < a + 24 -> m' !! x = kh_mem s !! x) /\
    load_word m' a = Ok LARGE_MAGIC /\ load_word m' (a + 8) = Ok size.
Proof.
  intros Hok Hm Hs Ho.
  destruct (store_le_wrote 8 (kh_mem s) a LARGE_MAGIC Hok) as (m1 & S1 & W1); [eapply mapped_sub; [done|lia|lia]|done|].
  destruct (store_le_wrote 8 m1 (a + 8) size) as (m2 & S2 & W2); [apply W1| |done|].
  { eapply wrote_mapped; [done|]. eapply mapped_sub; [done|lia|lia]. }
  destruct (store_le_wrote 1 m2 (a + 16) order) as (m3 & S3 & W3); [apply W2| |done|].
  { eapply wrote_mapped; [done|]. eapply wrote_mapped; [done|]. eapply mapped_sub; [done|lia|lia]. }
  assert (store8 (a + 16) order m2 = Ok m3) as S3'.
  { rewrite <- S3. cbn [store_le]. rewrite Z.mod_small by lia. by destruct (store8 (a + 16) order m2). }
  exists m3. split; [|split; [apply W3|split; [|split; [|split]]]].
  - unfold write_large_hdr. eapply st_bind_eq; [by apply on_mem_ok|].
    eapply st_bind_eq; [by apply on_mem_ok|]. exact (on_mem_ok (set_mem m2 s) _ m3 S3').
  - intros x. by rewrite (wr_dom _ _ _ _ _ W3), (wr_dom _ _ _ _ _ W2), (wr_dom _ _ _ _ _ W1).
  - intros x Hx. rewrite (wr_frame _ _ _ _ _ W3), (wr_frame _ _ _ _ _ W2), (wr_frame _ _ _ _ _ W1); [done|lia..].
  - rewrite <- (wr_load _ _ _ _ _ W1). apply load_le_frame. intros x Hx.
    rewrite (wr_frame _ _ _ _ _ W3), (wr_frame _ _ _ _ _ W2); [done|lia..].
  - rewrite <- (wr_load _ _ _ _ _ W2). apply load_le_frame. intros x Hx.
    rewrite (wr_frame _ _ _ _ _ W3); [done|lia].
Qed.

(** The first frame of a block that has just been handed out. *)
Lemma allocated_page s o p pm blk blk' : pmm_ok s blk -> 0 <= o -> allocated s blk o p pm blk' ->
  0 <= p /\ p + 2 ^ o <= pm_max s + 1 /\ p <= p < p + 2 ^ o /\
  exists g, pm_map pm !! p = Some g /\ pg_refcount g = 1 /\ pg_order g = o /\ PageFree g = false /\ plain g.
Proof.
  intros Hok Ho Hal. destruct (ok_inv _ _ (al_ok _ _ _ _ _ _ Hal)) as [fls Hi].
  destruct (geom_blk _ _ (inv_geom _ _ _ Hi) _ _ _ (al_block _ _ _ _ _ _ Hal)) as (_ & H1 & _ & H2).
  rewrite (al_max _ _ _ _ _ _ Hal) in H2. pose proof (pow2_pos o Ho).
  destruct (al_frames _ _ _ _ _ _ Hal p ltac:(lia)) as (g & Hg & G1 & G2 & _ & G3 & G4).
  split; [done|split; [done|split; [lia|by exists g]]].
Qed.

Lemma fresh_not_large s blk gs gl live o p pm blk' : heap_core s blk gs gl live -> 0 <= o ->
  allocated (kh_pmm s) blk o p pm blk' -> gl !! p = None.
Proof.
  intros Hcore Ho Hal. destruct (gl !! p) as [[o' n]|] eqn:E; [|done]. exfalso.
  pose proof (la_block _ _ _ _ _ _ (hc_large _ _ _ _ _ _ Hcore _ _ _ E)) as Hb.
  destruct (allocated_page _ _ _ _ _ _ (hc_pmm _ _ _ _ _ _ Hcore) Ho Hal) as (_ & _ & Hp & _).
  destruct (alloc_frames _ _ _ _ _ _ Hcore _ _ _ Hb) as (Ho' & _). pose proof (pow2_pos o' ltac:(lia)).
  apply (alloc_held _ _ _ _ _ _ Hcore p o' p Hb); [lia|]. by apply (al_fresh _ _ _ _ _ _ Hal).
Qed.

(** Why a large allocation fails. *)
Definition no_large_block (blk : blocks) (size : Z) : Prop :=
  exists o, size + 24 <= 4096 * 2 ^ o /\ (o = 0 \/ 4096 * 2 ^ (o - 1) < size + 24) /\
    (MAX_ORDER <= o \/ no_free_block blk o).

Lemma kmalloc_large_ok s blk gs gl live size :
  heap_core s blk gs gl live -> 0 < size -> size + 24 <= 2 ^ 31 ->
  exists r s', kmalloc_large hhdm_offset size s = Ok (r, s') /\
    match r with
    | None => s' = s /\ no_large_block blk size
    | Some a => exists blk' gl', heap_core s' blk' gs gl' (<[a := size]> live) /\
        kh_slabs s' = kh_slabs s /\ kh_caches s' = kh_caches s /\ live !! a = None /\ (8 | a) /\
        only_fresh hhdm_offset s blk s' /\ keeps_blocks blk blk'
    end.
Proof.
  intros Hcore Hpos Hsz. pose proof (hc_pmm _ _ _ _ _ _ Hcore) as Hpm.
  assert (u64 (size + sizeof_large_hdr) = size + 24) as Et by (unfold sizeof_large_hdr; apply u64_small; lia).
  destruct (large_order_ok 33 0 (size + 24) ltac:(lia) ltac:(lia) Hsz) as (o & Hord & Ho & Hfit & Hleast).
  unfold kmalloc_large. rewrite Et, (lift_bind _ _ _ _ Hord).
  assert (no_large_block blk size \/ o < MAX_ORDER) as Hcase.
  { destruct (Z.lt_ge_cases o MAX_ORDER); [by right|left]. exists o. split; [done|]. split; [lia|by left]. }
  destruct (Z.leb_spec MAX_ORDER o) as [Hbig|Hsmall].
  { exists None, s. split; [done|]. split; [done|]. exists o. split; [done|]. split; [lia|by left]. }
  destruct (pmm_alloc_ok _ _ o Hpm ltac:(lia)) as (r & pm & Hr & Hres).
  rewrite (st_bind_ok _ _ _ _ _ (on_pmm_ok s _ _ _ Hr)). destruct r as [p|].
  2:{ destruct Hres as [-> Hno]. exists None, s. split; [by rewrite set_pmm_id|]. split; [done|].
      exists o. split; [done|]. split; [lia|by right]. }
  destruct Hres as [blk' Hal].
  destruct (allocated_page _ _ _ _ _ _ Hpm (proj1 Ho) Hal) as (Hp0 & Hpm1 & Hpin & g & Hg & G1 & G2 & G3 & G4).
  pose proof (al_max _ _ _ _ _ _ Hal) as Emax. set (s1 := set_pmm pm s).
  assert (direct_map hhdm_offset (kh_pmm s1)) as Hmap.
  { destruct (hc_map _ _ _ _ _ _ Hcore). split; try done. cbn. by rewrite Emax. }
  pose proof (pow2_pos o ltac:(lia)) as Hpow.
  assert (0 <= p <= pm_max (kh_pmm s1)) as Hp by (cbn; lia).
  pose proof (page_virt_ok _ _ Hmap _ Hp) as Hv. destruct (virt_range _ _ Hmap _ Hp) as (Hv1 & Hv2 & [v8 Hv8]).
  assert (mapped (kh_mem s1) (virt p) 4096) as Hma by (apply (frame_mapped _ _ _ _ _ _ Hcore); lia).
  destruct (write_large_hdr_ok s1 (virt p) size o) as (m' & Hw & Hby & Hdom & Hfr & Hl1 & Hl2);
    [apply Hcore|eapply mapped_sub; [done|lia|lia]|lia|lia|].
  set (g' := pg_set_private (Z.lor LARGE_PAGE_TAG o) g).
  set (s2 := set_pmm (pm_set_map (<[p := g']> (pm_map pm)) pm) (set_mem m' s1)).
  assert (u64 (virt p + sizeof_large_hdr) = virt p + 24) as Ea by (apply u64_small; unfold sizeof_large_hdr; lia).
  exists (Some (virt p + 24)), s2. split.
  { eapply st_bind_eq; [exact Hv|]. eapply st_bind_eq; [exact Hw|].
    eapply st_bind_eq; [by apply on_pmm_ok, upd_page_ok|]. by rewrite Ea. }
  assert (only_fresh hhdm_offset s blk s2) as Hof.
  { intros x Hx. cbn. rewrite Hfr; [done|]. intros Hin. apply Hx.
    rewrite (virt_frame hhdm_offset p x) by lia. by apply (al_fresh _ _ _ _ _ _ Hal). }
  exists blk', (<[p := (o, size)]> gl).
  assert (live !! (virt p + 24) = None) as Hnl.
  { destruct (live !! (virt p + 24)) as [n|] eqn:E; [|done]. exfalso.
    destruct (live_extent _ _ _ _ _ _ _ Hcore E) as (_ & _ & _ & _ & _ & Hn).
    eapply (live_frame _ _ _ _ _ _ _ (virt p + 24) Hcore E); [lia|].
    rewrite (virt_frame hhdm_offset p) by lia. by apply (al_fresh _ _ _ _ _ _ Hal). }
  split; [|split; [done|split; [done|split; [done|split; [exists (v8 + 3); lia|split; [done|by eapply allocated_keeps]]]]]].
  eapply core_blocks; try done.
  - apply (pmm_touch _ _ _ g); try done; [apply Hal|]. intros Hl.
    apply (al_loose _ _ _ _ _ _ Hal) in Hl as [_ Hn]. by apply Hn.
  - intros q o' Hq _. split; [|by eapply (allocated_keeps _ _ _ _ _ _ Hpm Hal)].
    by eapply (page_kept_fresh _ s blk s2 o p pm).
  - intros b. apply Hcore.
  - intros b c l Hb. by left.
  - intros q o' n. rewrite lookup_insert. case_decide; [|by left]. intros [= <- <-]. subst q. right. split; try done.
    + apply Hal.
    + exists g'. cbn. rewrite lookup_insert_eq. by split_and!.
    + lia.
  - intros b n. rewrite lookup_insert. assert (slab_object s2 gs b n <-> slab_object s gs b n) as -> by done.
    pose proof (hc_live _ _ _ _ _ _ Hcore b n) as Hli.
    pose proof (fresh_not_large _ _ _ _ _ _ _ _ _ Hcore (proj1 Ho) Hal) as Hnp.
    case_decide as E.
    + subst b. rewrite Hnl in Hli. split.
      * intros [= ->]. right. exists p, o. by rewrite lookup_insert_eq.
      * intros [Hso|(q & o' & Eq & Hq)]; [discriminate (proj2 Hli (or_introl Hso))|].
        assert (q = p) as -> by (unfold KheapInv.virt in Eq; lia). rewrite lookup_insert_eq in Hq. by simplify_eq.
    + rewrite Hli. split; (intros [?|(q & o' & Eq & Hq)]; [by left|right; exists q, o']).
      * rewrite lookup_insert_ne; [done|]. by intros ->.
      * rewrite lookup_insert_ne in Hq; [done|]. intros ->. congruence.
Qed.
End large.
