(* ===== verification/KheapSpec.v ===== *)
(** The contract of the kernel heap of [kernel/src/mm/kheap.c]: [kmalloc],
    [kzalloc], [krealloc] and [kfree] refine a map from the addresses in use to
    their sizes, and never touch the contents of another block. *)
From S2P Require Import Prelude Dll Pfndb Pmm StringLib WordMem Kheap KheapList KheapInv KheapSlab KheapCreate KheapObj KheapLarge.

Section spec.
Context (hhdm_offset caches_at : Z).
Abbreviation virt := (virt hhdm_offset).
Abbreviation heap_core := (heap_core hhdm_offset).
Abbreviation heap_inv := (heap_inv hhdm_offset caches_at).

(** The bytes of the blocks of [live] are the same. *)
Definition keeps_bytes (live : gmap Z Z) (s s' : kheap) : Prop :=
  forall b k x, live !! b = Some k -> b <= x < b + k -> kh_mem s' !! x = kh_mem s !! x.

(** *** Releasing a large block *)

Lemma large_page_test g o : 0 <= o < MAX_ORDER -> plain g -> pg_private g = Z.lor LARGE_PAGE_TAG o ->
  page_is_large_alloc g = true.
Proof.
  intros Ho [_ Hp] E. unfold page_is_large_alloc. rewrite Hp, E. cbn [negb andb]. apply Z.eqb_eq. by apply tag_private.
Qed.

Lemma large_hdr_at_ok p : 0 <= virt p -> virt p + 4096 <= 2 ^ 64 -> large_hdr_at (virt p + 24) = virt p.
Proof. intros H1 H2. unfold large_hdr_at, sizeof_large_hdr. rewrite u64_small by lia. lia. Qed.

(** What [kfree] does for a large block, up to the counter. *)
Definition free_large (p : Z) : ST kheap unit :=
  on_mem (store_word (virt p) 0) ;;
  on_pmm (upd_page p (pg_set_private 0)) ;;
  on_pmm (pmm_free (Some p)).

Lemma free_large_ok s blk gs gl live p o n :
  heap_core s blk gs gl live -> gl !! p = Some (o, n) ->
  exists s' blk', free_large p s = Ok (tt, s') /\
    heap_core s' blk' gs (delete p gl) (delete (virt p + 24) live) /\
    kh_slabs s' = kh_slabs s /\ kh_caches s' = kh_caches s /\ keeps_bytes (delete (virt p + 24) live) s s' /\
    (forall q k, q <> p -> blk !! q = Some (k, Alloc) -> blk' !! q = Some (k, Alloc)).
Proof.
  intros Hcore Hp. pose proof (hc_pmm _ _ _ _ _ _ Hcore) as Hpm.
  destruct (hc_large _ _ _ _ _ _ Hcore _ _ _ Hp) as [Hb (g & Hg & Hpl & Href & Hpr) Hmg Hsz Hfit].
  pose proof (alloc_page _ _ _ _ _ _ Hcore _ _ _ Hb) as Hpp. destruct (alloc_frames _ _ _ _ _ _ Hcore _ _ _ Hb) as (Ho & _).
  pose proof (pow2_pos o ltac:(lia)) as Hpow.
  destruct (store_le_wrote 8 (kh_mem s) (virt p) 0) as (m' & Hst & Hw);
    [apply Hcore|eapply mapped_sub; [apply (frame_mapped _ _ _ _ _ _ Hcore p Hpp)|lia|lia]|done|].
  assert (~ loose blk p) as Hnl by (eapply (alloc_held _ _ _ _ _ _ Hcore p o p Hb); lia).
  set (g' := pg_set_private 0 g). set (pm1 := pm_set_map (<[p := g']> (pm_map (kh_pmm s))) (kh_pmm s)).
  assert (pmm_ok pm1 blk) as Hpm1 by (by apply (pmm_touch _ _ _ g)).
  destruct (pmm_free_last pm1 blk o p g' Hpm1 Hb) as (pm2 & blk' & Hfr & Hre); [apply lookup_insert_eq|done|done|].
  set (s' := set_pmm pm2 (set_mem m' s)).
  assert (forall q k, q <> p -> blk !! q = Some (k, Alloc) -> blk' !! q = Some (k, Alloc)) as Hoth.
  { intros q k Hne Hq. by apply (re_alloc _ _ _ _ _ _ Hre). }
  exists s', blk'. split; [|split; [|split; [done|split; [done|split; [|done]]]]].
  - unfold free_large. eapply st_bind_eq; [by apply on_mem_ok|].
    eapply st_bind_eq; [by apply on_pmm_ok, upd_page_ok|].
    exact (on_pmm_ok (set_pmm pm1 (set_mem m' s)) _ _ _ Hfr).
  - assert (pm_max pm2 = pm_max (kh_pmm s)) as Emax by apply (re_max _ _ _ _ _ _ Hre).
    eapply core_blocks; try done; [apply Hre|apply Hw|apply Hw| | | | |].
    + intros q k Hq Hused. assert (q <> p) as Hne.
      { intros ->. destruct Hused as [[[c l] Hu]|[? Hu]]; [|by rewrite lookup_delete_eq in Hu].
        destruct (hc_slab _ _ _ _ _ _ Hcore _ _ _ Hu) as (sl & cc & q & _ & _ & Hok).
        pose proof (so_addr _ _ _ _ _ _ _ _ _ Hok). assert (q = p) as -> by (unfold KheapInv.virt in *; lia).
        by apply (slab_not_large _ _ _ _ _ _ Hcore _ _ _ _ _ _ _ _ _ Hok Hp). }
      split; [|by apply Hoth]. pose proof (Hoth q k Hne Hq) as Hq'.
      destruct (alloc_frames _ _ _ _ _ _ Hcore _ _ _ Hq) as (Hk & _). pose proof (pow2_pos k ltac:(lia)).
      destruct (ok_inv _ _ (re_ok _ _ _ _ _ _ Hre)) as [fls Hi].
      split.
      * cbn. rewrite (re_core _ _ _ _ _ _ Hre); [cbn; by rewrite lookup_insert_ne|].
        apply (alloc_not_loose _ _ _ _ q (inv_geom _ _ _ Hi) Hq'). lia.
      * intros x Hx. apply (wr_frame _ _ _ _ _ Hw). unfold KheapInv.virt in *. lia.
    + apply Hcore.
    + intros a c l Ha. by left.
    + intros q k m. rewrite lookup_delete. case_decide; [done|by left].
    + intros a k. rewrite lookup_delete. assert (slab_object s' gs a k <-> slab_object s gs a k) as -> by done.
      case_decide as E.
      * split; [done|]. intros [(sa & c & l & cc & Hga & Hc & Hs & _)|(q & k' & Eq & Hq)].
        -- subst a. by destruct (slot_not_body _ _ _ _ _ _ Hcore _ _ _ _ _ _ _ _ Hga Hc Hs Hp).
        -- assert (q = p) as -> by (unfold KheapInv.virt in *; lia). by rewrite lookup_delete_eq in Hq.
      * rewrite (hc_live _ _ _ _ _ _ Hcore). split; (intros [?|(q & k' & Eq & Hq)]; [by left|right; exists q, k']).
        -- rewrite lookup_delete_ne; [done|]. by intros ->.
        -- rewrite lookup_delete_ne in Hq; [done|]. by intros ->.
  - intros b k x Hbk Hx. apply lookup_delete_Some in Hbk as [Hne Hbk]. apply (wr_frame _ _ _ _ _ Hw).
    destruct (live_extent _ _ _ _ _ _ _ _ Hcore Hbk) as (q & k' & Hq & L & U & _).
    destruct (decide (q = p)) as [->|Hqp]; [lia|].
    destruct (runs_apart _ _ _ _ _ _ _ _ _ _ Hcore Hq Hb Hqp); lia.
Qed.

(** *** Allocation *)

(** The bytes a request of [size] is given. *)
Fixpoint fit (l : list Z) (size : Z) : Z :=
  match l with [] => size | k :: l => if size <=? k then k else fit l size end.
Definition usable (size : Z) : Z := fit size_classes size.

Lemma class_loop_ok l : forall i size,
  match class_loop caches_at l i size with
  | Some c => exists j k, l !! j = Some k /\ c = cache_addr caches_at (i + Z.of_nat j) /\ fit l size = k /\ size <= k
  | None => fit l size = size /\ Forall (fun k => k < size) l
  end.
Proof.
  induction l as [|k l IH]; intros i size; cbn [class_loop fit]; [done|].
  destruct (Z.leb_spec size k).
  - exists 0%nat, k. split; [done|]. by rewrite Z.add_0_r.
  - specialize (IH (i + 1) size). destruct (class_loop caches_at l (i + 1) size) as [c|].
    + destruct IH as (j & k' & Hj & -> & Hf & Hle). exists (S j), k'. split; [done|]. split; [|done]. f_equal. lia.
    + destruct IH as [? ?]. split; [done|]. by constructor.
Qed.

Lemma usable_fits size : size <= usable size.
Proof.
  unfold usable. pose proof (class_loop_ok size_classes 0 size) as Hc.
  destruct (class_loop caches_at size_classes 0 size); [|lia]. destruct Hc as (j & k & _ & _ & -> & ?). done.
Qed.

Lemma inv_relinked s s' blk live : heap_inv s blk live -> relinked s s' ->
  kh_slabs s' = kh_slabs s -> kh_caches s' = kh_caches s -> heap_inv s' blk live.
Proof.
  intros (gs & gl & ls & Hcore & Hl & Hst) Hr Es Ec. exists gs, gl, ls. split; [by eapply core_relinked|]. split.
  - eapply lists_links; [done|by rewrite Es|by rewrite Ec].
  - eapply statics_caches; [apply Hr|done].
Qed.

Lemma counts_inv s blk live a f : heap_inv s blk live -> heap_inv (set_counts a f s) blk live.
Proof. intros Hi. by eapply inv_relinked. Qed.

(** Why an allocation fails. *)
Definition no_memory (blk : blocks) (size : Z) : Prop :=
  size = 0 \/ (size <= 2048 /\ no_free_block blk 0) \/ (2048 < size /\ no_large_block blk size).

Lemma static_cache s i k : statics_ok caches_at s -> size_classes !! i = Some k ->
  exists cc, kh_caches s !! cache_addr caches_at (Z.of_nat i) = Some cc /\ sc_size cc = k.
Proof. intros Hs Hi. destruct (Hs _ _ Hi) as (cc & Hc & E). exists cc. split; [done|]. by injection E. Qed.

Lemma kmalloc_ok s blk live size : heap_inv s blk live -> 0 <= size -> size + 24 <= 2 ^ 31 ->
  exists r s', kmalloc hhdm_offset caches_at size s = Ok (r, s') /\
    match r with
    | None => s' = s /\ no_memory blk size
    | Some a => 0 < size /\ exists blk', heap_inv s' blk' (<[a := usable size]> live) /\ live !! a = None /\ (8 | a) /\
        only_fresh hhdm_offset s blk s' /\ keeps_blocks blk blk'
    end.
Proof.
  intros Hi Hsz Hmax. destruct Hi as (gs & gl & ls & Hcore & Hl & Hst). unfold kmalloc.
  destruct (Z.eqb_spec size 0) as [->|Hnz]; [exists None, s; split; [done|]; split; [done|by left]|].
  unfold cache_for_size, usable. pose proof (class_loop_ok size_classes 0 size) as Hc.
  destruct (class_loop caches_at size_classes 0 size) as [c|].
  - destruct Hc as (j & k & Hj & -> & Hf & Hle). rewrite Hf. destruct (static_cache _ _ _ Hst Hj) as (cc & Hcc & Ek).
    destruct (slab_alloc_ok hhdm_offset s blk gs gl live ls _ cc Hcore Hl Hcc) as ([a|] & s' & Hr & Hres).
    + destruct Hres as (blk' & gs' & ls' & Hcore' & Hl' & Hcs & Hn & H8 & Hof & Hkb).
      eexists (Some a), _. split; [eapply st_bind_eq; [exact Hr|]; by eapply st_bind_eq|]. split; [lia|].
      exists blk'. rewrite Ek in Hcore'. split; [|done]. apply counts_inv.
      exists gs', gl, ls'. split; [done|split; [done|]]. by eapply statics_caches.
    + destruct Hres as [-> Hno]. exists None, s. split; [by eapply st_bind_eq|]. split; [done|]. right. left. split; [|done].
      apply list_elem_of_lookup_2 in Hj. assert (Forall (fun k => k <= 2048) size_classes) as Hall by (repeat constructor; lia).
      rewrite Forall_forall in Hall. specialize (Hall k Hj). lia.
  - destruct Hc as [-> Hbig]. assert (2048 < size) as Hb by (rewrite Forall_forall in Hbig; apply Hbig; by apply (bool_decide_unpack (2048 ∈ size_classes))).
    destruct (kmalloc_large_ok hhdm_offset s blk gs gl live size Hcore ltac:(lia) Hmax) as ([a|] & s' & Hr & Hres).
    + destruct Hres as (blk' & gl' & Hcore' & Es & Ec & Hn & H8 & Hof & Hkb).
      eexists (Some a), _. split; [eapply st_bind_eq; [exact Hr|]; by eapply st_bind_eq|]. split; [lia|].
      exists blk'. split; [|done]. apply counts_inv.
      exists gs, gl', ls. split; [done|split].
      * eapply lists_links; [done|by rewrite Es|by rewrite Ec].
      * eapply statics_caches; [|done]. by rewrite Ec.
    + destruct Hres as [-> Hno]. exists None, s. split; [by eapply st_bind_eq|]. split; [done|]. by right; right.
Qed.

(** *** Release *)

Lemma kfree_large_run s blk gs gl live p o n g : heap_core s blk gs gl live -> gl !! p = Some (o, n) ->
  pm_map (kh_pmm s) !! p = Some g -> plain g -> pg_private g = Z.lor LARGE_PAGE_TAG o ->
  kfree hhdm_offset (Some (virt p + 24)) s =
    (free_large p ;; modify (fun s => set_counts (kh_allocs s) (u64 (kh_frees s + 1)) s)) s.
Proof.
  intros Hcore Hp Hg Hpl Hpr. pose proof (hc_map _ _ _ _ _ _ Hcore) as Hmap.
  pose proof (hc_large _ _ _ _ _ _ Hcore _ _ _ Hp) as Hla.
  pose proof (alloc_page _ _ _ _ _ _ Hcore _ _ _ (la_block _ _ _ _ _ _ Hla)) as Hpp.
  destruct (alloc_frames _ _ _ _ _ _ Hcore _ _ _ (la_block _ _ _ _ _ _ Hla)) as (Ho & _).
  destruct (virt_range _ _ Hmap _ Hpp) as (V1 & V2 & _).
  unfold kfree. rewrite (st_bind_ok _ _ _ _ _ (page_from_alloc_ptr_ok _ _ Hmap _ Hpp (virt p + 24) ltac:(lia))).
  rewrite (st_bind_ok _ _ _ _ _ (on_pmm_ok s _ _ _ (get_page_ok _ _ _ Hg))).
  rewrite (proj2 Hpl), (large_page_test g o Ho Hpl Hpr). cbv zeta. rewrite large_hdr_at_ok by lia.
  rewrite set_pmm_id. apply bind_ext; [|done].
  rewrite (st_bind_ok _ _ _ _ _ (read_word_ok _ _ _ (la_magic _ _ _ _ _ _ Hla))).
  by rewrite Z.eqb_refl.
Qed.

Lemma kfree_ok s blk live a n : heap_inv s blk live -> live !! a = Some n ->
  exists s' blk', kfree hhdm_offset (Some a) s = Ok (tt, s') /\ heap_inv s' blk' (delete a live) /\
    keeps_bytes (delete a live) s s'.
Proof.
  intros (gs & gl & ls & Hcore & Hl & Hst) Ha. pose proof (hc_map _ _ _ _ _ _ Hcore) as Hmap.
  pose proof Ha as Hcase.
  apply (hc_live _ _ _ _ _ _ Hcore) in Hcase as [(sa & c & l & cc & Hg & Hc & Hs & Hn & ->)|(p & o & -> & Hp)].
  - destruct (slab_free_ok hhdm_offset s blk gs gl live ls sa c l cc a Hcore Hl Hg Hc Hs Hn) as
      (s1 & gs1 & ls1 & Hr & Hcore1 & Hl1 & Epm & Hcs & Hfr).
    destruct (hc_slab _ _ _ _ _ _ Hcore _ _ _ Hg) as (sl & cc1 & p & _ & E1 & Hok).
    assert (cc1 = cc) as -> by congruence. clear E1.
    destruct (so_page _ _ _ _ _ _ _ _ _ Hok) as (g & Hpg & Hsl & Hpr).
    pose proof (alloc_page _ _ _ _ _ _ Hcore _ _ _ (so_block _ _ _ _ _ _ _ _ _ Hok)) as Hpp.
    destruct (hc_caches _ _ _ _ _ _ Hcore _ _ Hc) as [Hc0 Hcok]. pose proof (slot_range _ _ _ Hcok Hs) as Hrg.
    pose proof (ca_size _ Hcok). rewrite (so_addr _ _ _ _ _ _ _ _ _ Hok) in Hrg.
    eexists _, blk. split.
    { unfold kfree. rewrite (st_bind_ok _ _ _ _ _ (page_from_alloc_ptr_ok _ _ Hmap _ Hpp a ltac:(lia))).
      rewrite (st_bind_ok _ _ _ _ _ (on_pmm_ok s _ _ _ (get_page_ok _ _ _ Hpg))).
      rewrite Hsl, Hpr. destruct (Z.eqb_spec c 0); [lia|]. rewrite set_pmm_id. eapply st_bind_eq; [exact Hr|done]. }
    split.
    + apply counts_inv. exists gs1, gl, ls1. split; [done|split; [done|]]. by eapply statics_caches.
    + intros b k x Hb Hx. cbn. apply lookup_delete_Some in Hb as [Hne Hb]. apply Hfr.
      destruct (live_disjoint _ _ _ _ _ _ _ _ _ _ Hcore Ha Hb Hne); lia.
  - destruct (hc_large _ _ _ _ _ _ Hcore _ _ _ Hp) as [_ (g & Hg & Hpl & _ & Hpr) _ _ _].
    destruct (free_large_ok s blk gs gl live p o n Hcore Hp) as (s1 & blk1 & Hr & Hcore1 & Es & Ec & Hkb & _).
    eexists _, blk1. split.
    { rewrite (kfree_large_run _ _ _ _ _ _ _ _ _ Hcore Hp Hg Hpl Hpr). eapply st_bind_eq; [exact Hr|done]. }
    split; [|done]. apply counts_inv. exists gs, (delete p gl), ls. split; [done|]. split.
    + eapply lists_links; [done|by rewrite Es|by rewrite Ec].
    + eapply statics_caches; [|done]. by rewrite Ec.
Qed.

(** *** Clients *)

Lemma live_mapped s blk live b k : heap_inv s blk live -> live !! b = Some k -> mapped (kh_mem s) b k.
Proof.
  intros (gs & gl & ls & Hcore & _) Hb. destruct (live_extent _ _ _ _ _ _ _ _ Hcore Hb) as (q & o & Hq & L & U & _).
  destruct (alloc_frames _ _ _ _ _ _ Hcore _ _ _ Hq) as (_ & ? & ?).
  eapply mapped_sub; [apply (hc_mapped _ _ _ _ _ _ Hcore)|..]; unfold KheapInv.virt in *; lia.
Qed.

Lemma inv_client s blk live b k m' : heap_inv s blk live -> live !! b = Some k ->
  mem_ok m' -> (forall x, is_Some (m' !! x) <-> is_Some (kh_mem s !! x)) ->
  (forall x, ~ b <= x < b + k -> m' !! x = kh_mem s !! x) ->
  heap_inv (set_mem m' s) blk live /\ keeps_bytes (delete b live) s (set_mem m' s).
Proof.
  intros (gs & gl & ls & Hcore & Hl & Hst) Hb Hok Hdom Hfr. split.
  - exists gs, gl, ls. split; [by eapply core_client|]. split; [by eapply lists_links|by eapply statics_caches].
  - intros b' k' x Hb' Hx. apply lookup_delete_Some in Hb' as [Hne Hb']. apply Hfr.
    destruct (live_disjoint _ _ _ _ _ _ _ _ _ _ Hcore Hb Hb' Hne); lia.
Qed.

Lemma inv_bytes s blk live : heap_inv s blk live -> mem_ok (kh_mem s).
Proof. intros (gs & gl & ls & Hcore & _). apply Hcore. Qed.

Lemma inv_disjoint s blk live b b' k k' : heap_inv s blk live -> live !! b = Some k -> live !! b' = Some k' -> b <> b' ->
  b + k <= b' \/ b' + k' <= b.
Proof. intros (gs & gl & ls & Hcore & _). by apply (live_disjoint _ _ _ _ _ _ _ _ _ _ Hcore). Qed.

Lemma inv_fresh s s' blk live : heap_inv s blk live -> only_fresh hhdm_offset s blk s' -> keeps_bytes live s s'.
Proof. intros (gs & gl & ls & Hcore & _) Hf b k x Hb Hx. by eapply (fresh_bytes hhdm_offset). Qed.

Lemma copied_client (m m' : mem) d a n : mem_ok m -> 0 <= n -> mapped m a n -> mapped m d n ->
  copied m d a 0 n m' -> mem_ok m' /\ (forall x, is_Some (m' !! x) <-> is_Some (m !! x)) /\
  (forall x, ~ d <= x < d + n -> m' !! x = m !! x) /\ forall i, 0 <= i < n -> m' !! (d + i) = m !! (a + i).
Proof.
  intros Hok Hn Ha Hd Hc. unfold copied in Hc. split; [|split; [|split]].
  - intros x b. rewrite Hc. case_decide; apply Hok.
  - intros x. rewrite Hc. case_decide as E; [|done]. split; intros _; [apply Hd|apply Ha]; lia.
  - intros x Hx. by rewrite Hc, decide_False by lia.
  - intros i Hi. rewrite Hc, decide_True by lia. f_equal. lia.
Qed.

Lemma kzalloc_ok s blk live size : heap_inv s blk live -> 0 <= size -> size + 24 <= 2 ^ 31 ->
  exists r s', kzalloc hhdm_offset caches_at size s = Ok (r, s') /\
    match r with
    | None => s' = s /\ no_memory blk size
    | Some a => exists blk', heap_inv s' blk' (<[a := usable size]> live) /\ live !! a = None /\ (8 | a) /\
        keeps_bytes live s s' /\ forall x, a <= x < a + size -> kh_mem s' !! x = Some 0
    end.
Proof.
  intros Hi Hsz Hmax. destruct (kmalloc_ok s blk live size Hi Hsz Hmax) as ([a|] & s1 & Hr & Hres).
  2:{ exists None, s1. split; [|done]. unfold kzalloc. by eapply st_bind_eq; [exact Hr|]. }
  destruct Hres as (Hpos & blk' & Hi1 & Hn & H8 & Hof & _).
  assert (<[a := usable size]> live !! a = Some (usable size)) as Ha by apply lookup_insert_eq.
  pose proof (usable_fits size) as Hu. pose proof (live_mapped _ _ _ _ _ Hi1 Ha) as Hm.
  destruct (memset_ok (kh_mem s1) a 0 size Hsz) as (m' & Hset & Hf); [eapply mapped_sub; [done|lia|lia]|].
  unfold filled in Hf. change (u8 0) with 0 in Hf.
  destruct (inv_client s1 blk' _ a _ m' Hi1 Ha) as [Hi2 Hk2].
  { intros x b. rewrite Hf. case_decide; [intros [= <-]; by unfold is_byte|by apply (inv_bytes _ _ _ Hi1)]. }
  { intros x. rewrite Hf. case_decide; [|done]. split; [|by eexists]. intros _. apply Hm. lia. }
  { intros x Hx. rewrite Hf, decide_False; [done|lia]. }
  exists (Some a), (set_mem m' s1). split.
  { unfold kzalloc. eapply st_bind_eq; [exact Hr|]. eapply st_bind_eq; [by apply on_mem_ok|done]. }
  exists blk'. split; [done|split; [done|split; [done|split]]].
  - intros b k x Hb Hx. assert (b <> a) by (intros ->; congruence).
    rewrite (Hk2 b k x); [|by rewrite delete_insert_id|done]. by eapply (inv_fresh s s1).
  - intros x Hx. cbn. by rewrite Hf, decide_True.
Qed.

(** *** Resizing *)

Lemma old_block_size_ok s blk live a n : heap_inv s blk live -> live !! a = Some n ->
  old_block_size hhdm_offset a s = Ok (n, s).
Proof.
  intros (gs & gl & ls & Hcore & Hl & Hst) Ha. pose proof (hc_map _ _ _ _ _ _ Hcore) as Hmap. unfold old_block_size.
  apply (hc_live _ _ _ _ _ _ Hcore) in Ha as [(sa & c & l & cc & Hg & Hc & Hs & Hn & ->)|(p & o & -> & Hp)].
  - destruct (hc_slab _ _ _ _ _ _ Hcore _ _ _ Hg) as (sl & cc1 & p & _ & E1 & Hok).
    destruct (so_page _ _ _ _ _ _ _ _ _ Hok) as (g & Hpg & Hsl & Hpr).
    pose proof (alloc_page _ _ _ _ _ _ Hcore _ _ _ (so_block _ _ _ _ _ _ _ _ _ Hok)) as Hpp.
    destruct (hc_caches _ _ _ _ _ _ Hcore _ _ Hc) as [Hc0 Hcok]. pose proof (slot_range _ _ _ Hcok Hs) as Hrg.
    pose proof (ca_size _ Hcok). rewrite (so_addr _ _ _ _ _ _ _ _ _ Hok) in Hrg.
    rewrite (st_bind_ok _ _ _ _ _ (page_from_alloc_ptr_ok _ _ Hmap _ Hpp a ltac:(lia))).
    rewrite (st_bind_ok _ _ _ _ _ (on_pmm_ok s _ _ _ (get_page_ok _ _ _ Hpg))), set_pmm_id, Hsl, Hpr.
    destruct (Z.eqb_spec c 0); [lia|]. eapply st_bind_eq; [exact (get_cache_ok _ _ _ Hc)|done].
  - destruct (hc_large _ _ _ _ _ _ Hcore _ _ _ Hp) as [Hb (g & Hg & Hpl & _ & Hpr) Hmg Hsz Hfit].
    pose proof (alloc_page _ _ _ _ _ _ Hcore _ _ _ Hb) as Hpp.
    destruct (alloc_frames _ _ _ _ _ _ Hcore _ _ _ Hb) as (Ho & _). destruct (virt_range _ _ Hmap _ Hpp) as (V1 & V2 & _).
    rewrite (st_bind_ok _ _ _ _ _ (page_from_alloc_ptr_ok _ _ Hmap _ Hpp (virt p + 24) ltac:(lia))).
    rewrite (st_bind_ok _ _ _ _ _ (on_pmm_ok s _ _ _ (get_page_ok _ _ _ Hg))), set_pmm_id.
    rewrite (proj2 Hpl), (large_page_test g o Ho Hpl Hpr). cbv zeta. rewrite large_hdr_at_ok by lia.
    rewrite (st_bind_ok _ _ _ _ _ (read_word_ok _ _ _ Hmg)), Z.eqb_refl. by apply read_word_ok.
Qed.

Lemma krealloc_ok s blk live a k size : heap_inv s blk live -> live !! a = Some k -> 0 < size -> size + 24 <= 2 ^ 31 ->
  exists r s', krealloc hhdm_offset caches_at (Some a) size s = Ok (r, s') /\
    match r with
    | None => s' = s /\ no_memory blk size
    | Some b => exists blk', heap_inv s' blk' (<[b := usable size]> (delete a live)) /\ live !! b = None /\ (8 | b) /\
        keeps_bytes (delete a live) s s' /\
        forall i, 0 <= i < Z.min k size -> kh_mem s' !! (b + i) = kh_mem s !! (a + i)
    end.
Proof.
  intros Hi Ha Hpos Hmax. unfold krealloc. destruct (Z.eqb_spec size 0); [lia|].
  destruct (kmalloc_ok s blk live size Hi ltac:(lia) Hmax) as ([b|] & s1 & Hr & Hres); rewrite (st_bind_ok _ _ _ _ _ Hr).
  2:{ by exists None, s1. }
  destruct Hres as (_ & blk1 & Hi1 & Hnb & H8 & Hof & _). set (live1 := <[b := usable size]> live) in *.
  assert (b <> a) as Hne by (intros ->; congruence). pose proof (usable_fits size) as Hu.
  assert (live1 !! a = Some k) as Ha1 by (by unfold live1; rewrite lookup_insert_ne).
  assert (live1 !! b = Some (usable size)) as Hb1 by apply lookup_insert_eq.
  rewrite (st_bind_ok _ _ _ _ _ (old_block_size_ok _ _ _ _ _ Hi1 Ha1)).
  assert ((if k <? size then k else size) = Z.min k size) as -> by (destruct (Z.ltb_spec k size); lia).
  assert (0 < k) as Hk.
  { destruct Hi as (gs & gl & ls & Hcore & _). by destruct (live_extent _ _ _ _ _ _ _ _ Hcore Ha) as (q & o & _ & _ & _ & ?). }
  assert (mapped (kh_mem s1) a (Z.min k size)) as Hma by (eapply mapped_sub; [exact (live_mapped _ _ _ _ _ Hi1 Ha1)|lia|lia]).
  assert (mapped (kh_mem s1) b (Z.min k size)) as Hmb by (eapply mapped_sub; [exact (live_mapped _ _ _ _ _ Hi1 Hb1)|lia|lia]).
  pose proof (inv_bytes _ _ _ Hi1) as Hby.
  destruct (memcpy_ok (kh_mem s1) b a (Z.min k size) Hby ltac:(lia) Hma Hmb) as (m' & Hcp & Hco).
  { destruct (inv_disjoint _ _ _ _ _ _ _ Hi1 Hb1 Ha1 Hne); lia. }
  destruct (copied_client _ _ _ _ (Z.min k size) Hby ltac:(lia) Hma Hmb Hco) as (Hok' & Hdom' & Hfr' & Hcopy).
  destruct (inv_client s1 blk1 live1 b _ m' Hi1 Hb1 Hok' Hdom') as [Hi2 Hk2]; [intros x Hx; apply Hfr'; lia|].
  destruct (kfree_ok _ _ _ a k Hi2 Ha1) as (s3 & blk3 & Hfree & Hi3 & Hk3).
  assert (delete a live1 = <[b := usable size]> (delete a live)) as Ed by (unfold live1; by rewrite delete_insert_ne).
  exists (Some b), s3. split.
  { eapply st_bind_eq; [by apply on_mem_ok|]. eapply st_bind_eq; [exact Hfree|done]. }
  exists blk3. rewrite <- Ed. split; [done|split; [done|split; [done|split]]].
  - intros c n' x Hc Hx. assert (b <> c) by (intros ->; apply lookup_delete_Some in Hc; naive_solver).
    rewrite (Hk3 c n' x); [|by rewrite Ed, lookup_insert_ne|done].
    apply lookup_delete_Some in Hc as [_ Hc].
    rewrite (Hk2 c n' x); [|by unfold live1; rewrite delete_insert_id|done]. by eapply (inv_fresh s s1).
  - intros i Hin. rewrite (Hk3 b (usable size) (b + i)); [|by rewrite Ed, lookup_insert_eq|lia]. cbn.
    rewrite Hcopy by lia. eapply (inv_fresh s s1); [done|done|exact Ha|lia].
Qed.

(** *** [kheap_init] *)

Lemma init_caches_other l : forall i m c, (forall j k, l !! j = Some k -> c <> cache_addr caches_at (i + Z.of_nat j)) ->
  init_caches caches_at l i m !! c = m !! c.
Proof.
  induction l as [|k l IH]; intros i m c Hc; simpl; [done|].
  rewrite IH; [rewrite lookup_insert_ne; [done|]|].
  - intros <-. by apply (Hc 0%nat k); [|rewrite Z.add_0_r].
  - intros j k' Hj ->. apply (Hc (S j) k'); [done|]. f_equal. lia.
Qed.

Definition class_cache (k : Z) : slab_cache := mk_cache k (if k <? 16 then k else 16) None None 0 0.

Context (Hat : 0 < caches_at) (Hat' : caches_at + 9 * sizeof_slab_cache <= 2 ^ 64).

Lemma cache_addr_small i : 0 <= i < 9 -> cache_addr caches_at i = caches_at + i * 48.
Proof. intros Hi. unfold cache_addr, sizeof_slab_cache in *. apply u64_small. lia. Qed.

Lemma init_caches_at l : forall i m j k, 0 <= i -> i + Z.of_nat (length l) <= 9 -> l !! j = Some k ->
  init_caches caches_at l i m !! cache_addr caches_at (i + Z.of_nat j) = Some (class_cache k).
Proof.
  induction l as [|k0 l IH]; intros i m j k Hi Hlen Hj; [done|]. cbn [length] in Hlen. destruct j as [|j]; simpl.
  - simpl in Hj. simplify_eq. rewrite Z.add_0_r, init_caches_other; [by rewrite lookup_insert_eq|].
    intros j k' Hj'. apply lookup_lt_Some in Hj'. rewrite !cache_addr_small by lia. lia.
  - replace (i + Z.of_nat (S j)) with (i + 1 + Z.of_nat j) by lia. by apply IH; [lia|lia|].
Qed.

Lemma class_caches_ok : Forall (fun k => cache_ok (class_cache k)) size_classes.
Proof.
  repeat constructor; cbn [sc_size sc_align class_cache]; try (by vm_compute);
    try (match goal with |- (8 | ?x) => let v := eval vm_compute in (x / 8) in by exists v end).
Qed.

Lemma kheap_init_ok s blk : pmm_ok (kh_pmm s) blk -> direct_map hhdm_offset (kh_pmm s) -> mem_ok (kh_mem s) ->
  mapped (kh_mem s) hhdm_offset ((pm_max (kh_pmm s) + 1) * 4096) -> kh_slabs s = ∅ -> kh_caches s = ∅ ->
  exists s', kheap_init caches_at s = Ok (tt, s') /\ heap_inv s' blk ∅.
Proof.
  intros Hpm Hmap Hok Hm Es Ec. eexists. split; [unfold kheap_init, modify; reflexivity|]. rewrite Ec.
  set (cs := init_caches caches_at size_classes 0 ∅).
  assert (forall c cc, cs !! c = Some cc -> exists i k, size_classes !! i = Some k /\
    c = cache_addr caches_at (Z.of_nat i) /\ cc = class_cache k) as Hcs.
  { intros c cc Hc. destruct (decide (Exists (fun i => c = cache_addr caches_at i) (seqZ 0 9))) as [Hex|Hno].
    - apply Exists_exists in Hex as (i & Hi & ->). apply elem_of_seqZ in Hi.
      destruct (lookup_lt_is_Some_2 size_classes (Z.to_nat i)) as [k Hk]; [simpl; lia|].
      exists (Z.to_nat i), k. split; [done|]. split; [f_equal; lia|].
      pose proof (init_caches_at size_classes 0 ∅ (Z.to_nat i) k ltac:(lia) ltac:(simpl; lia) Hk) as E.
      fold cs in E. rewrite Z.add_0_l, Z2Nat.id in E by lia. congruence.
    - exfalso. unfold cs in Hc. rewrite init_caches_other, lookup_empty in Hc; [done|].
      intros j k Hj ->. apply Hno, Exists_exists. exists (0 + Z.of_nat j). split; [|done].
      apply elem_of_seqZ. apply lookup_lt_Some in Hj. simpl in Hj. lia. }
  exists ∅, ∅, (fun _ _ => []). split; [|split].
  - split; try done.
    + intros c cc (i & k & Hi & -> & ->)%Hcs. pose proof (lookup_lt_Some _ _ _ Hi) as Hlt. simpl in Hlt.
      split; [rewrite cache_addr_small by lia; unfold sizeof_slab_cache in *; lia|].
      pose proof class_caches_ok as Hall. rewrite Forall_forall in Hall. apply Hall, list_elem_of_lookup. eauto.
    + intros a. cbn. rewrite Es, lookup_empty. by intros [? ?].
    + intros a n. rewrite lookup_empty. split; [done|].
      intros [(sa & c & l & cc & Hg & _)|(p & o & _ & Hp)]; by rewrite lookup_empty in *.
  - split.
    + intros c cc w (i & k & Hi & -> & ->)%Hcs. by destruct w.
    + intros c w _. apply dll_nil.
    + intros w c a. split; [by intros H%elem_of_nil|]. intros (l & Hl & _). by rewrite lookup_empty in Hl.
  - intros i k Hi. exists (class_cache k). split; [|done].
    pose proof (init_caches_at size_classes 0 ∅ i k ltac:(lia) ltac:(simpl; lia) Hi) as E. by rewrite Z.add_0_l in E.
Qed.
End spec.
