(* ===== verification/Kprintf.v ===== *)
(** The formatter of [kernel/src/lib/kprintf.c]: [kvsnprintf] and the helpers
    it writes digits, padding and strings with.

    The destination is the array of bytes at [buf], of which [bufsz] may be
    written; a write outside the array is a fault. C strings are the bytes
    readable from the pointer on, so a missing terminator is a fault of the
    read that passes the end. A variadic argument is a 64-bit word or a pointer
    to readable bytes; [va_arg] past the last argument is a fault. *)
From S2P Require Import Prelude.

(** *** The buffer and the cursor [*pos] *)

Record out := mk_out { o_buf : list Z; o_pos : Z }.

Definition M : Type -> Type := ST out.

Definition buf_putc (bufsz c : Z) : M unit :=
  pos ← gets o_pos;
  b ← gets o_buf;
  (if u64 (pos + 1) <? bufsz then
     if pos <? Z.of_nat (length b) then modify (fun o => mk_out (<[Z.to_nat pos := c]> b) pos) else st_fault
   else mret tt) ;;
  modify (fun o => mk_out (o_buf o) (u64 (o_pos o + 1))).

Fixpoint put_repeat (n : nat) (bufsz c : Z) : M unit :=
  match n with
  | O => mret tt
  | S n => buf_putc bufsz c ;; put_repeat n bufsz c
  end.
Definition buf_put_repeat (bufsz c count : Z) : M unit := put_repeat (Z.to_nat count) bufsz c.

(** Characters *)
Definition ch_space : Z := 32.
Definition ch_percent : Z := 37.
Definition ch_star : Z := 42.
Definition ch_minus : Z := 45.
Definition ch_dot : Z := 46.
Definition ch_0 : Z := 48.
Definition ch_9 : Z := 57.
Definition ch_A : Z := 65.
Definition ch_a : Z := 97.
Definition null_text : list Z := [40; 110; 117; 108; 108; 41].
Definition hex_prefix : list Z := [48; 120].

(** [s] is a string literal or the readable bytes; [None] is the null pointer. *)
Fixpoint puts_loop (bufsz : Z) (s : list Z) : M unit :=
  match s with
  | [] => st_fault
  | c :: s => if c =? NUL then mret tt else buf_putc bufsz c ;; puts_loop bufsz s
  end.
Definition buf_puts (bufsz : Z) (s : option (list Z)) : M unit :=
  puts_loop bufsz (default (null_text ++ [NUL]) s).

Fixpoint strlen_loop (s : list Z) (len : Z) : outcome Z :=
  match s with
  | [] => Fault
  | c :: s => if c =? NUL then Ok len else strlen_loop s (u64 (len + 1))
  end.
Definition buf_strlen (s : option (list Z)) : outcome Z :=
  match s with
  | None => Ok 6
  | Some s => strlen_loop s 0
  end.

(** *** Numbers *)

Definition digit_char (upper : bool) (d : Z) : Z :=
  if d <? 10 then ch_0 + d else (if upper then ch_A else ch_a) + (d - 10).

(** The array [tmp] up to [n], least significant digit first. *)
Fixpoint u64_loop (room : nat) (val base : Z) (upper : bool) : list Z :=
  match room with
  | O => []
  | S room => if val =? 0 then [] else digit_char upper (val mod base) :: u64_loop room (val / base) base upper
  end.
Definition buf_u64_to_tmp (tmpsz val base : Z) (upper : bool) : list Z :=
  if (base <? 2) || (16 <? base) || (tmpsz =? 0) then []
  else if val =? 0 then [ch_0] else u64_loop (Z.to_nat tmpsz) val base upper.

Definition TMP_SIZE : Z := 32.

Definition buf_put_width (bufsz width len pad : Z) : M unit :=
  if len <? width then buf_put_repeat bufsz pad (width - len) else mret tt.

(** [while (n > 0) buf_putc(buf, bufsz, pos, tmp[--n])] *)
Fixpoint put_digits (bufsz : Z) (l : list Z) : M unit :=
  match l with
  | [] => mret tt
  | c :: l => put_digits bufsz l ;; buf_putc bufsz c
  end.

Definition buf_putu_base (bufsz val base : Z) (upper : bool) (width : Z) (zero_pad left_align : bool) : M unit :=
  let tmp := buf_u64_to_tmp TMP_SIZE val base upper in
  let len := Z.of_nat (length tmp) in
  let pad := if zero_pad then ch_0 else ch_space in
  if len =? 0 then mret tt else
  (if left_align then mret tt else buf_put_width bufsz width len pad) ;;
  put_digits bufsz tmp ;;
  (if left_align then buf_put_width bufsz width len ch_space else mret tt).

Definition buf_puti (bufsz val width : Z) (zero_pad left_align : bool) : M unit :=
  let negative := val <? 0 in
  let uval := if negative then u64 (- (val + 1) + 1) else u64 val in
  let tmp := buf_u64_to_tmp TMP_SIZE uval 10 false in
  let digits := Z.of_nat (length tmp) in
  if digits =? 0 then mret tt else
  let len := digits + (if negative then 1 else 0) in
  if left_align then
    (if negative then buf_putc bufsz ch_minus else mret tt) ;;
    put_digits bufsz tmp ;;
    (if len <? width then buf_put_repeat bufsz ch_space (width - len) else mret tt)
  else
    (if zero_pad then
       if negative then
         buf_putc bufsz ch_minus ;;
         (if len <? width then buf_put_repeat bufsz ch_0 (width - len) else mret tt)
       else if digits <? width then buf_put_repeat bufsz ch_0 (width - digits)
       else mret tt
     else
       (if len <? width then buf_put_repeat bufsz ch_space (width - len) else mret tt) ;;
       (if negative then buf_putc bufsz ch_minus else mret tt)) ;;
    put_digits bufsz tmp.

(** *** Variadic arguments *)

Inductive arg := AWord (w : Z) | ABytes (addr : Z) (bytes : list Z).

Definition arg_word (a : arg) : Z := match a with AWord w => w | ABytes p _ => p end.
Definition va_arg (ap : list arg) : outcome (arg * list arg) :=
  match ap with a :: ap => Ok (a, ap) | [] => Fault end.
(** The argument of %s: a word that is not null is no pointer to bytes. *)
Definition arg_string (a : arg) : outcome (option (list Z)) :=
  match a with
  | AWord w => if w =? 0 then Ok None else Fault
  | ABytes _ b => Ok (Some b)
  end.

(** *** Parsing a directive *)

Definition peek (fmt : list Z) : outcome Z := match fmt with c :: _ => Ok c | [] => Fault end.
Definition is_digit (c : Z) : bool := (ch_0 <=? c) && (c <=? ch_9).

Fixpoint flags_loop (fmt : list Z) (zero_pad left_align : bool) (width : Z) : outcome (list Z * bool * bool) :=
  match fmt with
  | [] => Fault
  | c :: r =>
      if c =? ch_minus then flags_loop r false true width
      else if (c =? ch_0) && (width =? 0) && negb left_align then flags_loop r true left_align width
      else Ok (fmt, zero_pad, left_align)
  end.

Fixpoint digits_loop (fmt : list Z) (width : Z) : outcome (list Z * Z) :=
  match fmt with
  | [] => Fault
  | c :: r => if is_digit c then digits_loop r (u64 (width * 10 + (c - ch_0))) else Ok (fmt, width)
  end.

(** The precision: whether there is one, its value, the rest of both inputs. *)
Definition precision_of (fmt : list Z) (ap : list arg) : outcome (bool * Z * list Z * list arg) :=
  c ← peek fmt;
  if negb (c =? ch_dot) then Ok (false, 0, fmt, ap) else
  let fmt := tail fmt in
  c ← peek fmt;
  if c =? ch_star then
    r ← va_arg ap;
    let p := i32 (arg_word r.1) in
    Ok (true, (if p <? 0 then 0 else p), tail fmt, r.2)
  else
    r ← digits_loop fmt 0;
    Ok (true, r.2, r.1, ap).

(** [long_long], [size_type] and the rest of the format. *)
Definition length_of (fmt : list Z) : outcome (bool * bool * list Z) :=
  c ← peek fmt;
  if c =? 108 then
    d ← peek (tail fmt);
    if d =? 108 then Ok (true, false, tail (tail fmt)) else Ok (false, false, fmt)
  else if c =? 122 then Ok (false, true, tail fmt)
  else Ok (false, false, fmt).

Record conv := mk_conv {
  long_long : bool; size_type : bool; zero_pad : bool; left_align : bool;
  width : Z; has_precision : bool; precision : Z }.

(** The integer conversions read [long long], [size_t] or [int]. *)
Definition int_arg (v : conv) (w : Z) : Z :=
  if long_long v then i64 w else if size_type v then i64 (u64 w) else i32 w.
Definition uint_arg (v : conv) (w : Z) : Z :=
  if long_long v then u64 w else if size_type v then u64 w else u32 w.

Fixpoint put_chars (bufsz : Z) (n : nat) (s : list Z) : M unit :=
  match n, s with
  | O, _ => mret tt
  | S n, [] => st_fault
  | S n, c :: s => buf_putc bufsz c ;; put_chars bufsz n s
  end.

Definition conv_s (bufsz : Z) (v : conv) (s : option (list Z)) : M unit :=
  len ← st_lift (buf_strlen s);
  let len := if has_precision v && (precision v <? len) then precision v else len in
  (if left_align v then mret tt else buf_put_width bufsz (width v) len ch_space) ;;
  match s with
  | None => buf_puts bufsz (Some (null_text ++ [NUL]))
  | Some s => put_chars bufsz (Z.to_nat len) s
  end ;;
  (if left_align v then buf_put_width bufsz (width v) len ch_space else mret tt).

Definition conv_c (bufsz : Z) (v : conv) (w : Z) : M unit :=
  (if left_align v then mret tt else buf_put_width bufsz (width v) 1 ch_space) ;;
  buf_putc bufsz (u8 w) ;;
  (if left_align v then buf_put_width bufsz (width v) 1 ch_space else mret tt).

Definition conv_p (bufsz : Z) (v : conv) (w : Z) : M unit :=
  (if left_align v then mret tt else buf_put_width bufsz (width v) 2 ch_space) ;;
  buf_puts bufsz (Some (hex_prefix ++ [NUL])) ;;
  buf_putu_base bufsz (u64 w) 16 false 0 false (left_align v) ;;
  (if left_align v then buf_put_width bufsz (width v) 2 ch_space else mret tt).

Definition conv_u (bufsz : Z) (v : conv) (base : Z) (upper : bool) (w : Z) : M unit :=
  buf_putu_base bufsz (uint_arg v w) base upper (width v) (zero_pad v) (left_align v).

(** The conversion characters. *)
Definition ch_s : Z := 115.
Definition ch_c : Z := 99.
Definition ch_d : Z := 100.
Definition ch_i : Z := 105.
Definition ch_u : Z := 117.
Definition ch_x : Z := 120.
Definition ch_X : Z := 88.
Definition ch_p : Z := 112.
Definition ch_o : Z := 111.

(** [switch ( *fmt)]: the rest of the arguments. *)
Definition convert (bufsz : Z) (v : conv) (c : Z) (ap : list arg) : M (list arg) :=
  let with_arg (k : arg -> M unit) := r ← st_lift (va_arg ap); k r.1 ;; mret r.2 in
  let word (k : Z -> M unit) := with_arg (fun a => k (arg_word a)) in
  if c =? ch_s then with_arg (fun a => s ← st_lift (arg_string a); conv_s bufsz v s)
  else if c =? ch_c then word (conv_c bufsz v)
  else if (c =? ch_d) || (c =? ch_i) then
    word (fun w => buf_puti bufsz (int_arg v w) (width v) (zero_pad v) (left_align v))
  else if c =? ch_u then word (conv_u bufsz v 10 false)
  else if c =? ch_x then word (conv_u bufsz v 16 false)
  else if c =? ch_X then word (conv_u bufsz v 16 true)
  else if c =? ch_p then word (conv_p bufsz v)
  else if c =? ch_o then word (conv_u bufsz v 8 false)
  else
    buf_putc bufsz ch_percent ;;
    (if c =? NUL then mret tt else buf_putc bufsz c) ;;
    mret ap.

(** The part of a directive after the percent sign, up to its character. *)
Definition directive (fmt : list Z) (ap : list arg) : outcome (conv * list Z * list arg) :=
  f ← flags_loop fmt false false 0;
  let '(fmt, zero_pad, left_align) := (f : list Z * bool * bool) in
  w ← digits_loop fmt 0;
  let '(fmt, width) := (w : list Z * Z) in
  p ← precision_of fmt ap;
  let '(has_precision, precision, fmt, ap) := (p : bool * Z * list Z * list arg) in
  l ← length_of fmt;
  let '(long_long, size_type, fmt) := (l : bool * bool * list Z) in
  Ok (mk_conv long_long size_type zero_pad left_align width has_precision precision, fmt, ap).

Fixpoint format_loop (fuel : nat) (bufsz : Z) (fmt : list Z) (ap : list arg) : M unit :=
  match fuel with
  | O => st_timeout
  | S fuel =>
      c ← st_lift (peek fmt);
      if c =? NUL then mret tt else
      if negb (c =? ch_percent) then buf_putc bufsz c ;; format_loop fuel bufsz (tail fmt) ap else
      let fmt := tail fmt in
      c ← st_lift (peek fmt);
      if c =? ch_percent then buf_putc bufsz ch_percent ;; format_loop fuel bufsz (tail fmt) ap else
      r ← st_lift (directive fmt ap);
      let '(v, fmt, ap) := (r : conv * list Z * list arg) in
      c ← st_lift (peek fmt);
      ap ← convert bufsz v c ap;
      format_loop fuel bufsz (if c =? NUL then fmt else tail fmt) ap
  end.

Definition store_byte (i c : Z) (b : list Z) : outcome (list Z) :=
  if (0 <=? i) && (i <? Z.of_nat (length b)) then Ok (<[Z.to_nat i := c]> b) else Fault.

(** The return value and the buffer. *)
Definition kvsnprintf (buf : list Z) (bufsz : Z) (fmt : option (list Z)) (ap : list arg) : outcome (Z * list Z) :=
  if bufsz =? 0 then Ok (0, buf) else
  let fmt := default [NUL] fmt in
  r ← format_loop (S (length fmt)) bufsz fmt ap (mk_out buf 0);
  let o := (r : unit * out).2 in
  b ← store_byte (if bufsz <=? o_pos o then bufsz - 1 else o_pos o) NUL (o_buf o);
  Ok (i32 (o_pos o), b).

Definition ksnprintf (buf : list Z) (bufsz : Z) (fmt : option (list Z)) (args : list arg) : outcome (Z * list Z) :=
  kvsnprintf buf bufsz fmt args.

(** What [vkprintf] hands to the serial line and to the terminal; [stack] is
    what its buffer holds before the call. *)
Definition VKPRINTF_SIZE : Z := 256.
Definition vkprintf (stack : list Z) (fmt : option (list Z)) (ap : list arg) : outcome (list Z) :=
  r ← kvsnprintf stack VKPRINTF_SIZE fmt ap;
  to_nul r.2.
Definition kprintf (stack : list Z) (fmt : option (list Z)) (args : list arg) : outcome (list Z) :=
  vkprintf stack fmt args.

(** ** Numerals *)

(** The digits of [v] in base [base], least significant first, and back. *)
Fixpoint to_digits (fuel : nat) (base v : Z) : list Z :=
  match fuel with
  | O => []
  | S fuel => if v <? base then [v] else v mod base :: to_digits fuel base (v / base)
  end.
Definition of_digits (base : Z) (ds : list Z) : Z := foldr (fun d v => d + base * v) 0 ds.
Definition numeral (base : Z) (upper : bool) (v : Z) : list Z :=
  digit_char upper <$> rev (to_digits 64 base v).

Section digits.
Context (base : Z) (Hbase : 2 <= base <= 16).

Lemma of_to_digits fuel v : 0 <= v < base ^ Z.of_nat fuel -> of_digits base (to_digits fuel base v) = v.
Proof.
  revert v. induction fuel as [|fuel IH]; intros v Hv; cbn [to_digits]; [simpl; lia|].
  destruct (Z.ltb_spec v base) as [Hlt|Hge]; [simpl; lia|].
  rewrite Nat2Z.inj_succ, Z.pow_succ_r in Hv by lia.
  cbn. fold (of_digits base (to_digits fuel base (v / base))). rewrite IH.
  - rewrite (Z.div_mod v base) at 3 by lia. lia.
  - split; [apply Z.div_pos; lia|]. apply Z.div_lt_upper_bound; lia.
Qed.

Lemma to_digits_range fuel v : 0 <= v -> Forall (fun d => 0 <= d < base) (to_digits fuel base v).
Proof.
  revert v. induction fuel as [|fuel IH]; intros v Hv; cbn [to_digits]; [constructor|].
  destruct (Z.ltb_spec v base) as [Hlt|Hge]; [repeat constructor; lia|].
  constructor; [apply Z.mod_pos_bound; lia|]. apply IH, Z.div_pos; lia.
Qed.

Lemma to_digits_length fuel v n : 0 <= v < base ^ Z.of_nat (S n) -> (length (to_digits fuel base v) <= S n)%nat.
Proof.
  revert v n. induction fuel as [|fuel IH]; intros v n Hv; cbn [to_digits]; [simpl; lia|].
  destruct (Z.ltb_spec v base) as [Hlt|Hge]; [simpl; lia|].
  destruct n as [|n]; [change (Z.of_nat 1) with 1 in Hv; lia|]. cbn. apply le_n_S, IH.
  rewrite Nat2Z.inj_succ, Z.pow_succ_r in Hv by lia.
  split; [apply Z.div_pos; lia|]. apply Z.div_lt_upper_bound; lia.
Qed.

Lemma to_digits_lead fuel v d : 0 < v < base ^ Z.of_nat fuel -> last (to_digits fuel base v) = Some d -> d <> 0.
Proof.
  revert v. induction fuel as [|fuel IH]; intros v Hv; cbn [to_digits]; [done|].
  destruct (Z.ltb_spec v base) as [Hlt|Hge]; [intros [= <-]; lia|].
  rewrite Nat2Z.inj_succ, Z.pow_succ_r in Hv by lia.
  assert (0 < v / base) by (apply Z.div_str_pos; lia).
  assert (v / base < base ^ Z.of_nat fuel) by (apply Z.div_lt_upper_bound; lia).
  rewrite last_cons. destruct (last (to_digits fuel base (v / base))) eqn:E; [intros [= <-]; by apply (IH (v / base))|].
  apply last_None in E. destruct fuel; cbn in E; [simpl in *; lia|]. by destruct (v / base <? base).
Qed.

Lemma u64_loop_digits room fuel v upper :
  0 < v < base ^ Z.of_nat room -> v < base ^ Z.of_nat fuel ->
  u64_loop room v base upper = digit_char upper <$> to_digits fuel base v.
Proof.
  revert fuel v. induction room as [|room IH]; intros fuel v Hr Hf; [simpl in Hr; lia|].
  destruct fuel as [|fuel]; [simpl in Hf; lia|]. cbn [u64_loop to_digits].
  destruct (Z.eqb_spec v 0) as [|_]; [lia|]. rewrite Nat2Z.inj_succ, Z.pow_succ_r in Hr, Hf by lia.
  destruct (Z.ltb_spec v base) as [Hlt|Hge].
  - rewrite Z.mod_small, Z.div_small by lia. by destruct room.
  - cbn. f_equal. apply IH; [split; [apply Z.div_str_pos; lia|]|]; apply Z.div_lt_upper_bound; lia.
Qed.

Lemma below_pow v k n : is_u64 v -> 0 < k -> 2 ^ k <= base -> 64 <= k * Z.of_nat n -> v < base ^ Z.of_nat n.
Proof.
  intros [_ Hv] Hk Hb Hn. eapply Z.lt_le_trans; [exact Hv|].
  transitivity ((2 ^ k) ^ Z.of_nat n); [|apply Z.pow_le_mono_l; lia].
  rewrite <- Z.pow_mul_r by lia. apply Z.pow_le_mono_r; lia.
Qed.

(** The 32 places of [tmp] are enough for a 64-bit value in base 4 and up. *)
Lemma u64_to_tmp_numeral v upper : 4 <= base -> is_u64 v ->
  rev (buf_u64_to_tmp TMP_SIZE v base upper) = numeral base upper v.
Proof.
  intros H4 Hv. unfold buf_u64_to_tmp, numeral.
  destruct (Z.ltb_spec base 2), (Z.ltb_spec 16 base); try lia. cbn [orb].
  change (TMP_SIZE =? 0) with false. cbn [orb].
  destruct (Z.eqb_spec v 0) as [->|Hne]; [by destruct base|].
  rewrite (u64_loop_digits (Z.to_nat TMP_SIZE) 64 v upper).
  - symmetry. apply (map_rev (digit_char upper)).
  - split; [destruct Hv; lia|]. apply (below_pow v 2); [done|lia|simpl; lia|]. change (Z.of_nat (Z.to_nat TMP_SIZE)) with 32. lia.
  - apply (below_pow v 1); [done|lia|simpl; lia|change (Z.of_nat 64) with 64; lia].
Qed.

Lemma to_digits_some fuel v : (1 <= length (to_digits (S fuel) base v))%nat.
Proof. cbn [to_digits]. destruct (v <? base); simpl; lia. Qed.

Lemma numeral_length v upper : is_u64 v -> (1 <= length (numeral base upper v) <= 64)%nat.
Proof.
  intros Hv. unfold numeral. rewrite length_fmap, length_rev. split.
  - apply (to_digits_some 63).
  - apply to_digits_length. split; [apply Hv|]. apply (below_pow v 1); [done|lia|simpl; lia|change (Z.of_nat 64) with 64; lia].
Qed.
End digits.

(** Reading a numeral back. *)
Definition digit_value (c : Z) : Z :=
  if c <? 58 then c - ch_0 else if c <? 71 then c - ch_A + 10 else c - ch_a + 10.
Definition read_numeral (base : Z) (l : list Z) : Z := foldl (fun v c => base * v + digit_value c) 0 l.

Lemma digit_value_char upper d : 0 <= d < 16 -> digit_value (digit_char upper d) = d.
Proof.
  intros Hd. unfold digit_value, digit_char, ch_0, ch_A, ch_a.
  destruct (Z.ltb_spec d 10).
  - destruct (Z.ltb_spec (48 + d) 58); lia.
  - destruct upper.
    + destruct (Z.ltb_spec (65 + (d - 10)) 58), (Z.ltb_spec (65 + (d - 10)) 71); lia.
    + destruct (Z.ltb_spec (97 + (d - 10)) 58), (Z.ltb_spec (97 + (d - 10)) 71); lia.
Qed.

Lemma read_numeral_digits base upper ds : Forall (fun d => 0 <= d < 16) ds ->
  read_numeral base (digit_char upper <$> rev ds) = of_digits base ds.
Proof.
  unfold read_numeral. induction 1 as [|d ds Hd _ IH]; [done|]. cbn [rev].
  rewrite fmap_app, foldl_app, IH. cbn. rewrite digit_value_char by done.
  fold (of_digits base ds). lia.
Qed.

Lemma read_numeral_ok base upper v : 2 <= base <= 16 -> is_u64 v -> read_numeral base (numeral base upper v) = v.
Proof.
  intros Hb Hv. unfold numeral. rewrite read_numeral_digits.
  - apply of_to_digits; [lia|]. split; [apply Hv|]. apply (below_pow base v 1); [done|lia|simpl; lia|change (Z.of_nat 64) with 64; lia].
  - eapply Forall_impl; [apply to_digits_range; [lia|apply Hv]|]. simpl. lia.
Qed.
