(* ===== verification/Kformat.v ===== *)
(** The contract of [kvsnprintf]: an abstract syntax of format strings, the
    text that each directive stands for, and the theorem that the formatter
    prints exactly the first [bufsz - 1] characters of that text. *)
From S2P Require Import Prelude Kprintf.

(** ** Printing into the buffer *)

Section output.
Context (bufsz : Z) (buf : list Z) (Hsz : 0 < bufsz < 2 ^ 64) (Hbuf : bufsz <= Z.of_nat (length buf)).

Definition kept (text : list Z) : nat := Nat.min (length text) (Z.to_nat (bufsz - 1)).

(** The buffer and the cursor after [text] was printed to it. *)
Definition shown (text : list Z) : out :=
  mk_out (take (kept text) text ++ drop (kept text) buf) (Z.of_nat (length text)).

(** [m] prints [text] and nothing else. *)
Definition prints (m : M unit) (text : list Z) : Prop :=
  forall before, Z.of_nat (length (before ++ text)) < 2 ^ 64 -> m (shown before) = Ok (tt, shown (before ++ text)).

Lemma prints_nothing : prints (mret tt) [].
Proof. intros l _. by rewrite app_nil_r. Qed.

Lemma prints_then m n s t : prints m s -> prints n t -> prints (m ;; n) (s ++ t).
Proof.
  intros Hm Hn l Hl. rewrite app_assoc in *. rewrite (st_bind_ok _ _ _ _ _ (Hm l ltac:(rewrite !length_app in *; lia))).
  by apply Hn.
Qed.

Lemma prints_bind {A} (o : outcome A) (f : A -> M unit) a text :
  o = Ok a -> prints (f a) text -> prints (st_lift o ≫= f) text.
Proof. intros -> Hf. exact Hf. Qed.

Lemma prints_char c : prints (buf_putc bufsz c) [c].
Proof.
  intros l Hl. rewrite length_app in Hl. simpl in Hl. unfold buf_putc. rewrite !gets_bind. cbn [o_pos o_buf shown].
  rewrite u64_small by lia. set (n := length l) in *.
  assert (length (take (kept l) l ++ drop (kept l) buf) = length buf) as Hlen.
  { rewrite length_app, length_take, length_drop. unfold kept. lia. }
  rewrite Hlen. unfold mbind, st_bind, modify, shown. destruct (Z.ltb_spec (Z.of_nat n + 1) bufsz) as [Hlt|Hge].
  - destruct (Z.ltb_spec (Z.of_nat n) (Z.of_nat (length buf))) as [_|]; [|lia]. cbn [o_pos o_buf].
    rewrite u64_small by lia. do 3 f_equal; [|rewrite length_app; simpl; lia].
    assert (kept l = n) as -> by (unfold kept; lia). assert (kept (l ++ [c]) = S n) as ->.
    { unfold kept. rewrite length_app. simpl. lia. }
    rewrite (take_ge l), (take_ge (l ++ [c])) by (rewrite ?length_app; simpl; lia). rewrite Nat2Z.id.
    rewrite insert_app_r_alt, Nat.sub_diag by lia. rewrite <- app_assoc. f_equal. cbn [app].
    destruct (drop n buf) as [|x r] eqn:E; [apply (f_equal length) in E; rewrite length_drop in E; simpl in E; lia|].
    cbn. f_equal. change r with (drop 1 (x :: r)). rewrite <- E, drop_drop. f_equal. lia.
  - cbn [o_pos o_buf mret st_ret]. unfold mret, st_ret. cbn [o_pos o_buf]. rewrite u64_small by lia.
    do 3 f_equal; [|rewrite length_app; simpl; lia].
    assert (kept (l ++ [c]) = kept l) as -> by (unfold kept; rewrite length_app; simpl; lia).
    rewrite take_app_le by (unfold kept; lia). done.
Qed.

Lemma prints_repeat n c : prints (put_repeat n bufsz c) (replicate n c).
Proof.
  induction n as [|n IH]; [apply prints_nothing|]. apply (prints_then _ _ [c] (replicate n c)); [apply prints_char|done].
Qed.

Lemma prints_puts s r : NUL ∉ s -> prints (puts_loop bufsz (s ++ NUL :: r)) s.
Proof.
  induction s as [|c s IH]; intros Hs; [apply prints_nothing|].
  apply not_elem_of_cons in Hs as [Hc Hs]. cbn. destruct (Z.eqb_spec c NUL) as [|_]; [congruence|].
  apply (prints_then _ _ [c] s); [apply prints_char|by apply IH].
Qed.

Lemma prints_digits l : prints (put_digits bufsz l) (rev l).
Proof.
  induction l as [|c l IH]; [apply prints_nothing|]. apply prints_then; [done|apply prints_char].
Qed.

Lemma prints_chars n s : (n <= length s)%nat -> prints (put_chars bufsz n s) (take n s).
Proof.
  revert s. induction n as [|n IH]; intros s Hn; [destruct s; apply prints_nothing|].
  destruct s as [|c s]; [simpl in Hn; lia|]. cbn. apply (prints_then _ _ [c]); [apply prints_char|apply IH; simpl in Hn; lia].
Qed.

Lemma prints_width w len pad : prints (buf_put_width bufsz w len pad) (replicate (Z.to_nat (w - len)) pad).
Proof.
  unfold buf_put_width. destruct (Z.ltb_spec len w) as [_|Hge]; [apply prints_repeat|].
  rewrite Z2Nat.nonpos by lia. apply prints_nothing.
Qed.

Lemma prints_if (b : bool) m n s t : prints m s -> prints n t -> prints (if b then m else n) (if b then s else t).
Proof. by destruct b. Qed.
End output.

Create HintDb prints.
#[export] Hint Resolve prints_nothing prints_char prints_repeat prints_puts prints_digits prints_width : prints.

(** ** The text of a conversion *)

(** [text] in a field of [w] columns, taken to fill [len] of them. *)
Definition field (left : bool) (pad w len : Z) (text : list Z) : list Z :=
  let fill := replicate (Z.to_nat (w - len)) in
  if left then text ++ fill ch_space else fill pad ++ text.

Definition unsigned_text (base : Z) (upper zero left : bool) (w v : Z) : list Z :=
  let num := numeral base upper v in
  field left (if zero then ch_0 else ch_space) w (Z.of_nat (length num)) num.

Definition signed_text (zero left : bool) (w v : Z) : list Z :=
  let num := numeral 10 false (Z.abs v) in
  let sign := if v <? 0 then [ch_minus] else [] in
  let len := Z.of_nat (length (sign ++ num)) in
  if zero && negb left then sign ++ field false ch_0 w len num
  else field left ch_space w len (sign ++ num).

(** The bytes before the terminator. *)
Fixpoint c_string (b : list Z) : option (list Z) :=
  match b with
  | [] => None
  | c :: b => if c =? NUL then Some [] else cons c <$> c_string b
  end.

Inductive kind := Ks | Kc | Kd | Ki | Ku | Kx | KX | Kp | Ko | Kother (c : Z).
Inductive lenmod := Lint | Llong | Lsize.
Inductive prec := NoPrec | Prec (n : Z) | PrecArg.

Record dir := mk_dir { d_zeros : nat; d_minus : nat; d_width : Z; d_prec : prec; d_len : lenmod; d_kind : kind }.

Definition d_left (d : dir) : bool := negb (Nat.eqb (d_minus d) 0).
Definition d_zero (d : dir) : bool := negb (d_left d) && negb (Nat.eqb (d_zeros d) 0).
Definition dint (l : lenmod) (w : Z) : Z := match l with Lint => i32 w | _ => i64 w end.
Definition duint (l : lenmod) (w : Z) : Z := match l with Lint => u32 w | _ => u64 w end.

(** What a directive prints of its argument; [p] is the precision. A null
    string is printed whole whatever the precision, and only the prefix of a
    pointer counts against the width. *)
Definition arg_text (d : dir) (p : option Z) (a : arg) : option (list Z) :=
  let cut (n : Z) := match p with Some p => Z.min p n | None => n end in
  let word (f : Z -> list Z) := Some (f (arg_word a)) in
  let unsigned base upper := word (fun w => unsigned_text base upper (d_zero d) (d_left d) (d_width d) (duint (d_len d) w)) in
  match d_kind d with
  | Ks => match a with
          | AWord w => if w =? 0 then Some (field (d_left d) ch_space (d_width d) (cut 6) null_text) else None
          | ABytes _ b => s ← c_string b;
              let n := cut (Z.of_nat (length s)) in
              Some (field (d_left d) ch_space (d_width d) n (take (Z.to_nat n) s))
          end
  | Kc => word (fun w => field (d_left d) ch_space (d_width d) 1 [u8 w])
  | Kd | Ki => word (fun w => signed_text (d_zero d) (d_left d) (d_width d) (dint (d_len d) w))
  | Ku => unsigned 10 false
  | Kx => unsigned 16 false
  | KX => unsigned 16 true
  | Ko => unsigned 8 false
  | Kp => word (fun w => field (d_left d) ch_space (d_width d) 2 (hex_prefix ++ numeral 16 false (u64 w)))
  | Kother c => None
  end.

Definition dir_text (d : dir) (ap : list arg) : option (list Z * list arg) :=
  '(p, ap) ← match d_prec d with
             | NoPrec => Some (None, ap)
             | Prec n => Some (Some n, ap)
             | PrecArg => match ap with [] => None | a :: ap => Some (Some (Z.max 0 (i32 (arg_word a))), ap) end
             end;
  match d_kind d, ap with
  | Kother c, ap => Some ([ch_percent; c], ap)
  | _, [] => None
  | _, a :: ap => t ← arg_text d p a; Some (t, ap)
  end.

(** ** Format strings *)

Inductive item := Lit (c : Z) | Pct | Dir (d : dir).

Definition show_num (n : Z) : list Z := if n =? 0 then [] else numeral 10 false n.
Definition kind_char (k : kind) : Z :=
  match k with
  | Ks => ch_s | Kc => ch_c | Kd => ch_d | Ki => ch_i | Ku => ch_u | Kx => ch_x | KX => ch_X
  | Kp => ch_p | Ko => ch_o | Kother c => c
  end.
Definition show_prec (p : prec) : list Z :=
  match p with NoPrec => [] | Prec n => ch_dot :: show_num n | PrecArg => [ch_dot; ch_star] end.
Definition show_len (l : lenmod) : list Z := match l with Lint => [] | Llong => [108; 108] | Lsize => [122] end.
Definition show_dir (d : dir) : list Z :=
  replicate (d_zeros d) ch_0 ++ replicate (d_minus d) ch_minus ++ show_num (d_width d) ++
  show_prec (d_prec d) ++ show_len (d_len d) ++ [kind_char (d_kind d)].
Definition show_item (i : item) : list Z :=
  match i with Lit c => [c] | Pct => [ch_percent; ch_percent] | Dir d => ch_percent :: show_dir d end.

(** The text of a whole format; [None] when an argument is missing or is no
    string where one is read. *)
Fixpoint render (l : list item) (ap : list arg) : option (list Z) :=
  match l with
  | [] => Some []
  | Lit c :: l => cons c <$> render l ap
  | Pct :: l => cons ch_percent <$> render l ap
  | Dir d :: l => '(t, ap) ← dir_text d ap; app t <$> render l ap
  end.

(** Literals are neither the terminator nor a percent sign, numbers fit
    [size_t], and an unknown conversion character starts nothing else. *)
Definition reserved : list Z :=
  [NUL; ch_percent; ch_minus; ch_dot; ch_star; 108; 122; ch_s; ch_c; ch_d; ch_i; ch_u; ch_x; ch_X; ch_p; ch_o].
Definition item_ok (i : item) : Prop :=
  match i with
  | Lit c => c <> NUL /\ c <> ch_percent
  | Pct => True
  | Dir d => is_u64 (d_width d) /\ (match d_prec d with Prec n => is_u64 n | _ => True end) /\
      (match d_kind d with Kother c => is_digit c = false /\ (c ∉ reserved) | _ => True end)
  end.

(** ** The conversions print their text *)

Section conversions.
Context (bufsz : Z) (buf : list Z) (Hsz : 0 < bufsz < 2 ^ 64) (Hbuf : bufsz <= Z.of_nat (length buf)).
Abbreviation prints := (prints bufsz buf).

Lemma prints_field (left : bool) pad w len m text : prints m text ->
  prints ((if left then mret tt else buf_put_width bufsz w len pad) ;; m ;;
    (if left then buf_put_width bufsz w len ch_space else mret tt)) (field left pad w len text).
Proof.
  intros Hm. unfold field. destruct left.
  - apply (prints_then _ _ _ _ [] (text ++ _)); [apply prints_nothing|].
    apply prints_then; [done|by apply prints_width].
  - apply prints_then; [by apply prints_width|]. rewrite <- (app_nil_r text) at 1.
    apply prints_then; [done|apply prints_nothing].
Qed.

Lemma tmp_numeral base upper v : 4 <= base <= 16 -> is_u64 v ->
  rev (buf_u64_to_tmp TMP_SIZE v base upper) = numeral base upper v /\
  length (buf_u64_to_tmp TMP_SIZE v base upper) = length (numeral base upper v) /\
  (Z.of_nat (length (buf_u64_to_tmp TMP_SIZE v base upper)) =? 0) = false.
Proof.
  intros Hb Hv. pose proof (u64_to_tmp_numeral base ltac:(lia) v upper ltac:(lia) Hv) as E.
  pose proof (numeral_length base ltac:(lia) v upper Hv) as Hl. rewrite <- E in *. rewrite length_rev in *.
  split_and!; [done|done|]. lia.
Qed.

Lemma prints_unsigned base upper zero left w v : 4 <= base <= 16 -> is_u64 v ->
  prints (buf_putu_base bufsz v base upper w zero left) (unsigned_text base upper zero left w v).
Proof.
  intros Hb Hv. destruct (tmp_numeral base upper v Hb Hv) as (E & Hl & Hz).
  unfold buf_putu_base, unsigned_text. rewrite Hz, Hl, <- E. apply prints_field. by apply prints_digits.
Qed.

Lemma magnitude v : - 2 ^ 63 <= v < 2 ^ 63 -> (if v <? 0 then u64 (- (v + 1) + 1) else u64 v) = Z.abs v.
Proof. intros Hv. destruct (Z.ltb_spec v 0); rewrite u64_small by lia; lia. Qed.

Lemma prints_signed zero left w v : - 2 ^ 63 <= v < 2 ^ 63 ->
  prints (buf_puti bufsz v w zero left) (signed_text zero left w v).
Proof.
  intros Hv. destruct (tmp_numeral 10 false (Z.abs v)) as (E & Hl & Hz); [lia|unfold is_u64; lia|].
  unfold buf_puti, signed_text. rewrite magnitude by done. rewrite Hz, Hl, <- E.
  set (tmp := buf_u64_to_tmp TMP_SIZE (Z.abs v) 10 false) in *. rewrite length_app, !length_rev.
  pose proof (prints_width bufsz buf Hsz Hbuf w) as Hw. unfold buf_put_width in Hw.
  pose proof (prints_digits bufsz buf Hsz Hbuf tmp) as Hd.
  pose proof (prints_char bufsz buf Hsz Hbuf ch_minus) as Hm.
  pose proof (prints_nothing bufsz buf) as H0.
  assert (Z.of_nat (length (if v <? 0 then [ch_minus] else []) + length tmp) =
    Z.of_nat (length tmp) + (if v <? 0 then 1 else 0)) as -> by (destruct (v <? 0); simpl; lia).
  unfold field. destruct left; cbn [negb andb].
  - rewrite andb_false_r, <- app_assoc. repeat apply prints_then; try assumption; [|apply Hw].
    destruct (v <? 0); assumption.
  - rewrite andb_true_r. destruct zero, (v <? 0); rewrite ?Z.add_0_r.
    + rewrite app_assoc. repeat apply prints_then; try assumption. apply Hw.
    + apply (prints_then _ _ _ _ (replicate _ _)); [apply Hw|done].
    + rewrite app_assoc. repeat apply prints_then; try assumption. apply Hw.
    + cbn [app]. apply prints_then; [|done]. rewrite <- (app_nil_r (replicate _ _)). apply prints_then; [apply Hw|done].
Qed.

Lemma c_string_strlen b s k : c_string b = Some s -> 0 <= k -> k + Z.of_nat (length s) < 2 ^ 64 ->
  strlen_loop b k = Ok (k + Z.of_nat (length s)).
Proof.
  revert s k. induction b as [|c b IH]; intros s k Hs Hk Hl; cbn in *; [done|].
  destruct (c =? NUL); [simplify_eq; simpl; f_equal; lia|].
  apply fmap_Some in Hs as (s' & Hs & ->). simpl in Hl. rewrite (u64_small (k + 1)) by lia.
  rewrite (IH s') by (try done; lia). f_equal. simpl. lia.
Qed.

Lemma c_string_prefix b s : c_string b = Some s -> take (length s) b = s.
Proof.
  revert s. induction b as [|c b IH]; intros s Hs; cbn in *; [done|].
  destruct (c =? NUL); [by simplify_eq|]. apply fmap_Some in Hs as (s' & Hs & ->). cbn. by rewrite IH.
Qed.

Lemma c_string_length b s : c_string b = Some s -> (length s <= length b)%nat.
Proof. intros Hs. rewrite <- (c_string_prefix b s Hs), length_take. lia. Qed.


(** The record that [kvsnprintf] has parsed at the conversion character. *)
Definition conv_of (d : dir) (p : option Z) : conv :=
  mk_conv (match d_len d with Llong => true | _ => false end) (match d_len d with Lsize => true | _ => false end)
    (d_zero d) (d_left d) (d_width d) (match p with Some _ => true | None => false end) (default 0 p).

Lemma int_arg_of d p w : int_arg (conv_of d p) w = dint (d_len d) w.
Proof.
  unfold int_arg, conv_of. destruct (d_len d); cbn; try done.
  unfold i64, u64. f_equal. by rewrite Zplus_mod_idemp_l.
Qed.

Lemma uint_arg_of d p w : uint_arg (conv_of d p) w = duint (d_len d) w /\ is_u64 (duint (d_len d) w).
Proof.
  unfold uint_arg, conv_of. destruct (d_len d); cbn; (split; [done|]); try apply u64_range.
  pose proof (u32_range w). unfold is_u64. lia.
Qed.

Lemma dint_range l w : - 2 ^ 63 <= dint l w < 2 ^ 63.
Proof. pose proof (i32_range w). pose proof (i64_range w). destruct l; cbn; lia. Qed.

Definition arg_ok (a : arg) : Prop := match a with AWord _ => True | ABytes _ b => Z.of_nat (length b) < 2 ^ 64 end.

Lemma prints_null d p : prints (conv_s bufsz (conv_of d p) None)
  (field (d_left d) ch_space (d_width d) (match p with Some p => Z.min p 6 | None => 6 end) null_text).
Proof.
  unfold conv_s. eapply prints_bind; [done|]. cbn [left_align width conv_of has_precision precision].
  replace (if _ && _ then _ else 6) with (match p with Some p => Z.min p 6 | None => 6 end).
  - apply prints_field. apply (prints_puts bufsz buf Hsz Hbuf null_text []). by apply (bool_decide_unpack (NUL ∉ null_text)).
  - destruct p as [p|]; cbn; [|done]. destruct (Z.ltb_spec p 6); lia.
Qed.

Lemma prints_string d p b s : c_string b = Some s -> Z.of_nat (length b) < 2 ^ 64 ->
  match p with Some p => 0 <= p | None => True end ->
  let n := match p with Some p => Z.min p (Z.of_nat (length s)) | None => Z.of_nat (length s) end in
  prints (conv_s bufsz (conv_of d p) (Some b)) (field (d_left d) ch_space (d_width d) n (take (Z.to_nat n) s)).
Proof.
  intros Hs Hb Hp n. pose proof (c_string_length b s Hs) as Hl. unfold conv_s.
  eapply prints_bind; [apply (c_string_strlen b s 0 Hs); lia|].
  cbn [left_align width conv_of has_precision precision]. rewrite Z.add_0_l.
  replace (if _ && _ then _ else Z.of_nat (length s)) with n.
  - apply prints_field. replace (take (Z.to_nat n) s) with (take (Z.to_nat n) b).
    + apply prints_chars; [done|done|]. subst n. destruct p; lia.
    + rewrite <- (c_string_prefix b s Hs), take_take. f_equal. subst n. destruct p; lia.
  - subst n. destruct p as [p|]; cbn; [|done]. destruct (Z.ltb_spec p (Z.of_nat (length s))); lia.
Qed.

Lemma prints_pointer d p w : prints (conv_p bufsz (conv_of d p) w)
  (field (d_left d) ch_space (d_width d) 2 (hex_prefix ++ numeral 16 false (u64 w))).
Proof.
  pose proof (prints_unsigned 16 false false (d_left d) 0 (u64 w) ltac:(lia) (u64_range w)) as Hu.
  unfold unsigned_text, field in Hu. rewrite Z2Nat.nonpos in Hu by lia.
  assert (prints (buf_putu_base bufsz (u64 w) 16 false 0 false (d_left d)) (numeral 16 false (u64 w))) as Hn.
  { destruct (d_left d); [by rewrite app_nil_r in Hu|done]. }
  assert (prints (buf_puts bufsz (Some (hex_prefix ++ [NUL]))) hex_prefix) as H0x.
  { apply (prints_puts bufsz buf Hsz Hbuf hex_prefix []). by apply (bool_decide_unpack (NUL ∉ hex_prefix)). }
  unfold conv_p. cbn [left_align width conv_of].
  pose proof (prints_field (d_left d) ch_space (d_width d) 2
    (buf_puts bufsz (Some (hex_prefix ++ [NUL])) ;; buf_putu_base bufsz (u64 w) 16 false 0 false (d_left d))
    (hex_prefix ++ numeral 16 false (u64 w))) as Hf.
  intros l Hl. rewrite <- Hf; [|apply prints_then; [exact H0x|done]|done].
  apply bind_ext; [done|]. intros _ o. symmetry. apply then_assoc.
Qed.

Lemma with_arg_ok (f : arg -> M unit) a ap t before : prints (f a) t ->
  Z.of_nat (length (before ++ t)) < 2 ^ 64 ->
  (r ← st_lift (va_arg (a :: ap)); f r.1 ;; mret r.2) (shown bufsz buf before) = Ok (ap, shown bufsz buf (before ++ t)).
Proof. intros Hf Hl. cbn. unfold mbind, st_bind. cbn. by rewrite (Hf before Hl). Qed.

(** Every conversion of a known character prints its text and uses one argument. *)
Lemma convert_known d p a ap t before : arg_ok a -> match p with Some p => 0 <= p | None => True end ->
  arg_text d p a = Some t -> Z.of_nat (length (before ++ t)) < 2 ^ 64 ->
  convert bufsz (conv_of d p) (kind_char (d_kind d)) (a :: ap) (shown bufsz buf before) =
    Ok (ap, shown bufsz buf (before ++ t)).
Proof.
  intros Ha Hp Ht Hl. unfold arg_text in Ht.
  assert (forall base upper, 4 <= base <= 16 -> prints (conv_u bufsz (conv_of d p) base upper (arg_word a))
    (unsigned_text base upper (d_zero d) (d_left d) (d_width d) (duint (d_len d) (arg_word a)))) as Hu.
  { intros base upper Hb. destruct (uint_arg_of d p (arg_word a)) as [E Hr]. unfold conv_u. rewrite E.
    by apply prints_unsigned. }
  assert (prints (buf_puti bufsz (int_arg (conv_of d p) (arg_word a)) (d_width d) (d_zero d) (d_left d))
    (signed_text (d_zero d) (d_left d) (d_width d) (dint (d_len d) (arg_word a)))) as Hd.
  { rewrite int_arg_of. apply prints_signed, dint_range. }
  destruct (d_kind d) eqn:Hk; try discriminate; try (injection Ht as <-).
  - apply with_arg_ok; [|done]. destruct a as [w|q b]; cbn in Ht |- *.
    + destruct (Z.eqb_spec w 0) as [->|]; [|done]. injection Ht as <-. apply prints_null.
    + apply bind_Some in Ht as (s & Hs & Ht). injection Ht as <-. by apply prints_string.
  - apply (with_arg_ok (fun a => conv_c bufsz (conv_of d p) (arg_word a))); [|done].
    apply prints_field. by apply prints_char.
  - by apply (with_arg_ok (fun a => buf_puti bufsz (int_arg (conv_of d p) (arg_word a)) (d_width d) (d_zero d) (d_left d))).
  - by apply (with_arg_ok (fun a => buf_puti bufsz (int_arg (conv_of d p) (arg_word a)) (d_width d) (d_zero d) (d_left d))).
  - exact (with_arg_ok (fun a => conv_u bufsz (conv_of d p) 10 false (arg_word a)) a ap _ before (Hu 10 false ltac:(lia)) Hl).
  - exact (with_arg_ok (fun a => conv_u bufsz (conv_of d p) 16 false (arg_word a)) a ap _ before (Hu 16 false ltac:(lia)) Hl).
  - exact (with_arg_ok (fun a => conv_u bufsz (conv_of d p) 16 true (arg_word a)) a ap _ before (Hu 16 true ltac:(lia)) Hl).
  - apply (with_arg_ok (fun a => conv_p bufsz (conv_of d p) (arg_word a))); [|done]. apply prints_pointer.
  - exact (with_arg_ok (fun a => conv_u bufsz (conv_of d p) 8 false (arg_word a)) a ap _ before (Hu 8 false ltac:(lia)) Hl).
Qed.

Lemma convert_other v c ap before : c ∉ reserved -> Z.of_nat (length (before ++ [ch_percent; c])) < 2 ^ 64 ->
  convert bufsz v c ap (shown bufsz buf before) = Ok (ap, shown bufsz buf (before ++ [ch_percent; c])).
Proof.
  intros Hc Hl. unfold reserved in Hc. rewrite !not_elem_of_cons in Hc. unfold convert.
  repeat (rewrite (proj2 (Z.eqb_neq c _)) by tauto). cbn [orb].
  pose proof (prints_then bufsz buf _ _ [ch_percent] [c] (prints_char bufsz buf Hsz Hbuf ch_percent)
    (prints_char bufsz buf Hsz Hbuf c) before Hl) as E.
  etrans; [symmetry; apply then_assoc|]. exact (st_bind_ok _ _ _ _ _ E).
Qed.
End conversions.

(** ** Parsing a directive *)

(** The next character of the format is [c] and [P c] holds. *)
Definition next_is (P : Z -> Prop) (l : list Z) : Prop := exists c r, l = c :: r /\ P c.

Lemma flags_minus k rest zero w : next_is (fun c => c <> ch_minus) rest ->
  flags_loop (replicate (S k) ch_minus ++ rest) zero false w = Ok (rest, false, true).
Proof.
  intros (c & r & -> & Hc). change (replicate (S k) ch_minus) with (ch_minus :: replicate k ch_minus).
  cbn [app flags_loop]. change (ch_minus =? ch_minus) with true. cbn match.
  induction k as [|k IH]; [|exact IH]. cbn [replicate app flags_loop].
  destruct (Z.eqb_spec c ch_minus); [done|]. cbn [negb]. by rewrite andb_false_r.
Qed.

Lemma flags_ok zeros minus rest : next_is (fun c => c <> ch_minus /\ (c = ch_0 -> minus <> 0%nat)) rest ->
  flags_loop (replicate zeros ch_0 ++ replicate minus ch_minus ++ rest) false false 0 =
    Ok (rest, negb (negb (Nat.eqb minus 0)) && negb (Nat.eqb zeros 0), negb (Nat.eqb minus 0)).
Proof.
  intros Hn. assert (forall z0, flags_loop (replicate zeros ch_0 ++ replicate minus ch_minus ++ rest) z0 false 0 =
    Ok (rest, negb (negb (Nat.eqb minus 0)) && (z0 || negb (Nat.eqb zeros 0)), negb (Nat.eqb minus 0))) as Hz;
    [|by rewrite Hz].
  induction zeros as [|zeros IH]; intros z0.
  - cbn [replicate app Nat.eqb negb]. rewrite orb_false_r. destruct minus as [|minus].
    + destruct Hn as (c & r & -> & Hc & H0). cbn [replicate app flags_loop Nat.eqb negb].
      destruct (Z.eqb_spec c ch_minus); [done|]. destruct (Z.eqb_spec c ch_0) as [->|]; [by destruct H0|]. done.
    + rewrite flags_minus; [done|]. destruct Hn as (c & r & -> & Hc & _). by exists c, r.
  - cbn [replicate app flags_loop]. change (ch_0 =? ch_minus) with false. change (ch_0 =? ch_0) with true.
    cbn match. change (0 =? 0) with true. cbn [andb negb]. rewrite IH. cbn. by rewrite orb_true_r.
Qed.

Definition scan (v c : Z) : Z := u64 (v * 10 + (c - ch_0)).

Lemma digits_loop_scan l rest v : Forall (fun c => is_digit c = true) l -> next_is (fun c => is_digit c = false) rest ->
  digits_loop (l ++ rest) v = Ok (rest, foldl scan v l).
Proof.
  intros Hl (c & r & -> & Hc). revert v. induction Hl as [|d l Hd Hl IH]; intros v; cbn [app digits_loop foldl].
  - by rewrite Hc.
  - rewrite Hd. apply IH.
Qed.

Lemma digit_char_digit d : 0 <= d < 10 -> is_digit (digit_char false d) = true /\ digit_char false d - ch_0 = d.
Proof.
  intros Hd. unfold is_digit, digit_char, ch_0, ch_9. destruct (Z.ltb_spec d 10); [|lia]. lia.
Qed.

Lemma scan_digits ds : Forall (fun d => 0 <= d < 10) ds ->
  foldl scan 0 (digit_char false <$> rev ds) = u64 (of_digits 10 ds).
Proof.
  induction 1 as [|d ds Hd _ IH]; [done|]. cbn [rev]. rewrite fmap_app, foldl_app, IH. cbn.
  destruct (digit_char_digit d Hd) as [_ E]. unfold scan. rewrite E. fold (of_digits 10 ds).
  unfold u64. rewrite <- Z.add_mod_idemp_l, Z.mul_mod_idemp_l, Z.add_mod_idemp_l by lia. f_equal. lia.
Qed.

(** A printed number is read back, whatever follows. *)
Lemma digits_loop_num n rest : is_u64 n -> next_is (fun c => is_digit c = false) rest ->
  digits_loop (show_num n ++ rest) 0 = Ok (rest, n).
Proof.
  intros Hn Hr. unfold show_num. destruct (Z.eqb_spec n 0) as [->|Hne].
  - destruct Hr as (c & r & -> & Hc). cbn. by rewrite Hc.
  - assert (Forall (fun d => 0 <= d < 10) (to_digits 64 10 n)) as Hd by (apply to_digits_range; [lia|apply Hn]).
    unfold numeral. rewrite digits_loop_scan; [|apply Forall_fmap, Forall_rev; eapply Forall_impl; [exact Hd|]|done].
    + rewrite scan_digits by done. rewrite of_to_digits; [|lia|].
      * by rewrite u64_small.
      * split; [apply Hn|]. apply (below_pow 10 n 1); [done|lia|lia|change (Z.of_nat 64) with 64; lia].
    + intros d Hd'. by apply digit_char_digit.
Qed.

Definition plain (c : Z) : Prop :=
  is_digit c = false /\ c ∉ [NUL; ch_percent; ch_minus; ch_dot; ch_star; 108; 122].

Lemma kind_plain d : item_ok (Dir d) -> plain (kind_char (d_kind d)).
Proof.
  intros (_ & _ & Hk). unfold plain. destruct (d_kind d); try (split; [done|by apply (bool_decide_unpack _)]).
  destruct Hk as [Hd Hr]. split; [done|]. unfold reserved in Hr. cbn [kind_char].
  rewrite !not_elem_of_cons in Hr |- *. pose proof (not_elem_of_nil c). tauto.
Qed.

Lemma next_is_cons P c r : P c -> next_is P (c :: r).
Proof. intros Hc. by exists c, r. Qed.

Lemma numeral_head n : is_u64 n -> n <> 0 -> exists c r, numeral 10 false n = c :: r /\ is_digit c = true /\ c <> ch_0.
Proof.
  intros Hn Hne. unfold numeral.
  assert (n < 10 ^ Z.of_nat 64) as Hlt.
  { apply (below_pow 10 n 1); [done|lia|lia|change (Z.of_nat 64) with 64; lia]. }
  pose proof (to_digits_range 10 ltac:(lia) 64 n (proj1 Hn)) as Hr.
  pose proof (to_digits_some 10 63 n) as Hl.
  destruct (last (to_digits 64 10 n)) as [d|] eqn:Hd; [|apply last_None in Hd; rewrite Hd in Hl; simpl in Hl; lia].
  pose proof (to_digits_lead 10 ltac:(lia) 64 n d ltac:(unfold is_u64 in Hn; lia) Hd) as Hlead.
  apply last_Some in Hd as [l Hd]. rewrite Hd in Hr |- *. rewrite rev_app_distr.
  exists (digit_char false d), (digit_char false <$> rev l). split; [done|].
  apply Forall_app in Hr as [_ Hr]. inversion Hr as [|? ? Hd' _]; subst.
  destruct (digit_char_digit d Hd') as [E1 E2]. split; [done|]. unfold ch_0 in *. lia.
Qed.

Lemma show_num_next (P : Z -> Prop) n rest : is_u64 n -> next_is P rest ->
  (forall c, is_digit c = true -> c <> ch_0 -> P c) -> next_is P (show_num n ++ rest).
Proof.
  intros Hn Hr HP. unfold show_num. destruct (Z.eqb_spec n 0); [done|].
  destruct (numeral_head n Hn ltac:(done)) as (c & r & -> & Hd & H0). apply next_is_cons. by apply HP.
Qed.

Lemma show_len_next (P : Z -> Prop) l k rest : P k -> P 108 -> P 122 -> next_is P (show_len l ++ k :: rest).
Proof. intros. destruct l; by apply next_is_cons. Qed.

Lemma show_prec_next (P : Z -> Prop) p rest : next_is P rest -> P ch_dot -> next_is P (show_prec p ++ rest).
Proof. intros. destruct p; [done| |]; by apply next_is_cons. Qed.

(** The precision of a directive and the arguments left. *)
Definition prec_arg (p : prec) (ap : list arg) : option (option Z * list arg) :=
  match p with
  | NoPrec => Some (None, ap)
  | Prec n => Some (Some n, ap)
  | PrecArg => match ap with [] => None | a :: ap => Some (Some (Z.max 0 (i32 (arg_word a))), ap) end
  end.

Lemma precision_of_ok pr ap p ap' rest : prec_arg pr ap = Some (p, ap') ->
  (match pr with Prec n => is_u64 n | _ => True end) ->
  next_is (fun c => is_digit c = false /\ c <> ch_dot /\ c <> ch_star) rest ->
  precision_of (show_prec pr ++ rest) ap = Ok (match p with Some _ => true | None => false end, default 0 p, rest, ap').
Proof.
  intros Hp Hn Hr. destruct pr as [|n|]; cbn in Hp.
  - injection Hp as <- <-. destruct Hr as (c & r & -> & _ & Hc & _). unfold precision_of. cbn.
    by destruct (Z.eqb_spec c ch_dot).
  - injection Hp as <- <-. unfold precision_of. cbn [show_prec app peek tail].
    assert (next_is (fun c => c <> ch_star) (show_num n ++ rest)) as (c & r & E & Hc).
    { apply show_num_next; [done| |]; [destruct Hr as (c & r & -> & _ & _ & ?); by apply next_is_cons|].
      intros c Hc _ ->. discriminate. }
    cbn -[digits_loop]. rewrite E. cbn -[digits_loop]. destruct (Z.eqb_spec c ch_star) as [|_]; [done|]. rewrite <- E.
    rewrite digits_loop_num; [done|done|]. destruct Hr as (c' & r' & -> & ? & _). by apply next_is_cons.
  - destruct ap as [|a ap]; [done|]. injection Hp as <- <-. unfold precision_of. cbn.
    do 3 f_equal. destruct (Z.ltb_spec (i32 (arg_word a)) 0); cbn; f_equal; lia.
Qed.

Lemma length_of_ok l k rest : plain k ->
  length_of (show_len l ++ k :: rest) =
    Ok (match l with Llong => true | _ => false end, match l with Lsize => true | _ => false end, k :: rest).
Proof.
  intros [_ Hk]. rewrite !not_elem_of_cons in Hk. destruct l; cbn; [|done|done]. unfold length_of. cbn.
  by rewrite (proj2 (Z.eqb_neq k 108)), (proj2 (Z.eqb_neq k 122)) by tauto.
Qed.

Lemma directive_ok d ap p ap' rest : item_ok (Dir d) -> prec_arg (d_prec d) ap = Some (p, ap') ->
  directive (show_dir d ++ rest) ap = Ok (conv_of d p, kind_char (d_kind d) :: rest, ap').
Proof.
  intros Hok Hp. pose proof (kind_plain d Hok) as Hk. destruct Hok as (Hw & Hpr & _).
  pose proof Hk as [Hkd Hkr]. rewrite !not_elem_of_cons in Hkr.
  unfold directive, show_dir. rewrite <- !app_assoc. cbn [app].
  assert (next_is (fun c => is_digit c = false /\ c <> ch_dot /\ c <> ch_star /\ c <> ch_minus)
    (show_len (d_len d) ++ kind_char (d_kind d) :: rest)) as Hl by (apply show_len_next; [tauto|done|done]).
  assert (next_is (fun c => is_digit c = false /\ c <> ch_minus)
    (show_prec (d_prec d) ++ show_len (d_len d) ++ kind_char (d_kind d) :: rest)) as Hpn.
  { apply show_prec_next; [|done]. destruct Hl as (c & r & -> & ?). apply next_is_cons. tauto. }
  erewrite obind_ok; [|apply flags_ok]. 2:{ apply show_num_next; [done| |].
    - destruct Hpn as (c & r & -> & Hd & ?). apply next_is_cons. split; [done|]. intros ->. discriminate.
    - intros c Hd H0. split; [|done]. intros ->. discriminate. }
  cbv beta iota. erewrite obind_ok; [|apply digits_loop_num; [done|]]. 2:{ destruct Hpn as (c & r & -> & Hd & _). by apply next_is_cons. }
  cbv beta iota. erewrite obind_ok; [|apply precision_of_ok; [exact Hp|done|]].
  2:{ destruct Hl as (c & r & -> & ?). apply next_is_cons. tauto. }
  cbv beta iota. by erewrite obind_ok; [|by apply length_of_ok].
Qed.

(** ** The whole format *)

Section format.
Context (bufsz : Z) (buf : list Z) (Hsz : 0 < bufsz < 2 ^ 64) (Hbuf : bufsz <= Z.of_nat (length buf)).

Lemma dir_text_prec d ap t ap' : dir_text d ap = Some (t, ap') ->
  exists p ap1, prec_arg (d_prec d) ap = Some (p, ap1) /\
    ((exists a, ap1 = a :: ap' /\ arg_text d p a = Some t) \/
     exists c, d_kind d = Kother c /\ ap' = ap1 /\ t = [ch_percent; c]).
Proof.
  unfold dir_text. fold (prec_arg (d_prec d) ap). intros H. apply bind_Some in H as ([p ap1] & Hp & H).
  exists p, ap1. split; [done|]. destruct (d_kind d) eqn:Hk;
    try (destruct ap1 as [|a ap1]; [done|]; apply bind_Some in H as (x & Hx & H); injection H as <- <-; left; by eexists).
  injection H as <- <-. right. by eexists.
Qed.

Lemma prec_arg_nonneg pr ap p ap' : prec_arg pr ap = Some (p, ap') -> (match pr with Prec n => is_u64 n | _ => True end) ->
  match p with Some p => 0 <= p | None => True end.
Proof.
  destruct pr as [| |]; cbn; intros H Hn; [by simplify_eq|simplify_eq; apply Hn|].
  destruct ap; simplify_eq. lia.
Qed.

Lemma prec_arg_ok pr ap p ap' : prec_arg pr ap = Some (p, ap') -> Forall arg_ok ap -> Forall arg_ok ap'.
Proof. destruct pr as [| |]; cbn; intros H Ha; [by simplify_eq|by simplify_eq|]. destruct ap; simplify_eq. by inversion Ha. Qed.

Lemma convert_ok d ap t ap' before : item_ok (Dir d) -> Forall arg_ok ap -> dir_text d ap = Some (t, ap') ->
  Z.of_nat (length (before ++ t)) < 2 ^ 64 ->
  exists p ap1, prec_arg (d_prec d) ap = Some (p, ap1) /\ Forall arg_ok ap' /\
    convert bufsz (conv_of d p) (kind_char (d_kind d)) ap1 (shown bufsz buf before) = Ok (ap', shown bufsz buf (before ++ t)).
Proof.
  intros Hok Ha Ht Hl. destruct (dir_text_prec _ _ _ _ Ht) as (p & ap1 & Hp & Hcase). exists p, ap1.
  pose proof (prec_arg_ok _ _ _ _ Hp Ha) as Ha1. destruct Hok as (_ & Hpr & Hk).
  pose proof (prec_arg_nonneg _ _ _ _ Hp Hpr). split; [done|].
  destruct Hcase as [(a & -> & Hta)|(c & Hc & -> & ->)].
  - inversion Ha1; subst. split; [done|]. by apply convert_known.
  - split; [done|]. rewrite Hc in Hk |- *. apply convert_other; [done|done|apply Hk|done].
Qed.

Lemma show_dir_next d rest : item_ok (Dir d) -> next_is (fun c => c <> ch_percent) (show_dir d ++ rest).
Proof.
  intros Hok. pose proof (kind_plain d Hok) as [_ Hk]. rewrite !not_elem_of_cons in Hk.
  unfold show_dir. rewrite <- !app_assoc. destruct (d_zeros d); [|by apply next_is_cons].
  destruct (d_minus d); [|by apply next_is_cons]. cbn [replicate app].
  apply show_num_next; [apply Hok| |intros c Hc _ ->; discriminate].
  apply show_prec_next; [|done]. apply show_len_next; [tauto|done|done].
Qed.

Lemma format_char fuel c fmt ap before : c <> NUL -> c <> ch_percent -> Z.of_nat (length (before ++ [c])) < 2 ^ 64 ->
  format_loop (S fuel) bufsz (c :: fmt) ap (shown bufsz buf before) =
    format_loop fuel bufsz fmt ap (shown bufsz buf (before ++ [c])).
Proof.
  intros Hn Hp Hl. cbn [format_loop]. unfold mbind, st_bind. cbn [peek st_lift tail].
  rewrite (proj2 (Z.eqb_neq c NUL)), (proj2 (Z.eqb_neq c ch_percent)) by done. cbn [negb].
  by rewrite (prints_char bufsz buf Hsz Hbuf c before).
Qed.

Lemma format_percent fuel fmt ap before : Z.of_nat (length (before ++ [ch_percent])) < 2 ^ 64 ->
  format_loop (S fuel) bufsz (ch_percent :: ch_percent :: fmt) ap (shown bufsz buf before) =
    format_loop fuel bufsz fmt ap (shown bufsz buf (before ++ [ch_percent])).
Proof.
  intros Hl. cbn [format_loop]. unfold mbind, st_bind. cbn [peek st_lift tail].
  change (ch_percent =? NUL) with false. change (ch_percent =? ch_percent) with true. cbn [negb].
  by rewrite (prints_char bufsz buf Hsz Hbuf ch_percent before).
Qed.

Lemma format_dir fuel d fmt ap t ap' before : item_ok (Dir d) -> Forall arg_ok ap -> dir_text d ap = Some (t, ap') ->
  Z.of_nat (length (before ++ t)) < 2 ^ 64 ->
  Forall arg_ok ap' /\
  format_loop (S fuel) bufsz (ch_percent :: show_dir d ++ fmt) ap (shown bufsz buf before) =
    format_loop fuel bufsz fmt ap' (shown bufsz buf (before ++ t)).
Proof.
  intros Hok Ha Ht Hl. destruct (convert_ok d ap t ap' before Hok Ha Ht Hl) as (p & ap1 & Hp & Ha' & Hc).
  split; [done|]. pose proof (kind_plain d Hok) as [_ Hk]. rewrite !not_elem_of_cons in Hk.
  pose proof (directive_ok d ap p ap1 fmt Hok Hp) as Hdir.
  destruct (show_dir_next d fmt Hok) as (c & r & E & Hne). rewrite E in Hdir |- *.
  cbn [format_loop]. unfold mbind, st_bind. cbn [peek st_lift tail].
  change (ch_percent =? NUL) with false. change (ch_percent =? ch_percent) with true. cbn [negb].
  rewrite (proj2 (Z.eqb_neq c ch_percent)) by done. rewrite Hdir. cbn [st_lift peek tail]. rewrite Hc.
  by rewrite (proj2 (Z.eqb_neq (kind_char (d_kind d)) NUL)) by tauto.
Qed.

Lemma format_loop_ok l : forall fuel ap text before rest,
  Forall item_ok l -> Forall arg_ok ap -> render l ap = Some text ->
  Z.of_nat (length (before ++ text)) < 2 ^ 64 ->
  (length (concat (show_item <$> l)) < fuel)%nat ->
  format_loop fuel bufsz (concat (show_item <$> l) ++ NUL :: rest) ap (shown bufsz buf before) =
    Ok (tt, shown bufsz buf (before ++ text)).
Proof.
  induction l as [|i l IH]; intros fuel ap text before rest Hok Ha Ht Hl Hf; destruct fuel as [|fuel]; try lia.
  - cbn in Ht. simplify_eq. by rewrite app_nil_r.
  - inversion Hok as [|? ? Hi Hok']; subst. rewrite fmap_cons in Hf |- *. cbn [concat] in Hf |- *.
    rewrite length_app in Hf. rewrite <- app_assoc.
    assert (forall t text' ap', text = t ++ text' -> render l ap' = Some text' -> Forall arg_ok ap' ->
      (0 < length (show_item i))%nat ->
      format_loop fuel bufsz (concat (show_item <$> l) ++ NUL :: rest) ap' (shown bufsz buf (before ++ t)) =
        Ok (tt, shown bufsz buf (before ++ text)) /\ Z.of_nat (length (before ++ t)) < 2 ^ 64) as Hgo.
    { intros t text' ap' -> Ht' Ha' Hi'. rewrite app_assoc in Hl |- *. split; [apply IH; try done; lia|].
      rewrite length_app in Hl. lia. }
    destruct i as [c| |d].
    + destruct Hi as [Hn Hp]. apply fmap_Some in Ht as (text' & Ht & ->).
      destruct (Hgo [c] text' ap) as [<- Hb]; [done..|simpl; lia|]. by apply format_char.
    + apply fmap_Some in Ht as (text' & Ht & ->).
      destruct (Hgo [ch_percent] text' ap) as [<- Hb]; [done..|simpl; lia|]. by apply format_percent.
    + cbn [render] in Ht. apply bind_Some in Ht as ([t ap'] & Hd & Ht). apply fmap_Some in Ht as (text' & Ht & ->).
      assert (Z.of_nat (length (before ++ t)) < 2 ^ 64) as Hb by (rewrite !length_app in *; lia).
      destruct (format_dir fuel d (concat (show_item <$> l) ++ NUL :: rest) ap t ap' before Hi Ha Hd Hb) as [Ha' E].
      cbn [show_item app]. rewrite E. by apply (Hgo t text' ap'); [..|simpl; lia].
Qed.

Lemma kvsnprintf_ok l ap text rest : Forall item_ok l -> Forall arg_ok ap -> render l ap = Some text ->
  Z.of_nat (length text) < 2 ^ 64 ->
  let shown := take (Z.to_nat (bufsz - 1)) text in
  kvsnprintf buf bufsz (Some (concat (show_item <$> l) ++ NUL :: rest)) ap =
    Ok (i32 (Z.of_nat (length text)), shown ++ NUL :: drop (S (length shown)) buf).
Proof.
  intros Hok Ha Ht Hl sh. unfold kvsnprintf. destruct (Z.eqb_spec bufsz 0) as [|_]; [lia|]. cbn [default].
  assert (shown bufsz buf [] = mk_out buf 0) as E by (unfold shown, kept; by rewrite Nat.min_0_l).
  rewrite <- E, (format_loop_ok l _ ap text [] rest Hok Ha Ht Hl);
    [|unfold id; rewrite length_app; simpl; lia].
  cbn [app]. unfold mbind, outcome_bind. cbn [snd o_pos o_buf shown]. unfold store_byte.
  assert ((if bufsz <=? Z.of_nat (length text) then bufsz - 1 else Z.of_nat (length text)) = Z.of_nat (kept bufsz text)) as ->.
  { unfold kept. destruct (Z.leb_spec bufsz (Z.of_nat (length text))); lia. }
  assert (take (kept bufsz text) text = sh) as Hsh.
  { subst sh. unfold kept. destruct (Nat.min_spec (length text) (Z.to_nat (bufsz - 1))) as [[? ->]|[? ->]]; [|done].
    by rewrite !take_ge by lia. }
  assert (length sh = kept bufsz text) as Hlen by (rewrite <- Hsh, length_take; unfold kept; lia).
  assert (kept bufsz text < length buf)%nat by (unfold kept; lia).
  rewrite Hsh, length_app, length_drop, Hlen.
  destruct (Z.leb_spec 0 (Z.of_nat (kept bufsz text))); [|lia].
  destruct (Z.ltb_spec (Z.of_nat (kept bufsz text)) (Z.of_nat (kept bufsz text + (length buf - kept bufsz text)))); [|lia].
  cbn [andb]. do 2 f_equal. rewrite Nat2Z.id, insert_app_r_alt by lia. rewrite Hlen, Nat.sub_diag. f_equal.
  destruct (drop (kept bufsz text) buf) as [|x r] eqn:Ed; [apply (f_equal length) in Ed; rewrite length_drop in Ed; simpl in Ed; lia|].
  cbn. f_equal. change r with (drop 1 (x :: r)). rewrite <- Ed, drop_drop. f_equal. lia.
Qed.
End format.

(** ** The claims *)

(** C22: [kvsnprintf] prints what its format stands for, cut to the buffer. For
    every format of literals, escaped percent signs and directives (flags,
    width, precision, length modifier, conversion) followed by a terminator, and
    for arguments that [render] accepts, it returns the length of the whole text
    as an [int], the buffer holds the first [bufsz - 1] characters and a
    terminator, and the bytes after that are unchanged. *)
Theorem kvsnprintf_spec l ap text rest bufsz buf :
  0 < bufsz < 2 ^ 64 -> bufsz <= Z.of_nat (length buf) ->
  Forall item_ok l -> Forall arg_ok ap -> render l ap = Some text -> Z.of_nat (length text) < 2 ^ 64 ->
  let shown := take (Z.to_nat (bufsz - 1)) text in
  kvsnprintf buf bufsz (Some (concat (show_item <$> l) ++ NUL :: rest)) ap =
    Ok (i32 (Z.of_nat (length text)), shown ++ NUL :: drop (S (length shown)) buf).
Proof. intros. by apply kvsnprintf_ok. Qed.

(** The digits that the number conversions print are the numeral of the
    value: read back in the same base they give the value, there is no leading
    zero except in the numeral of zero, and the 32 places of [tmp] suffice for
    every 64-bit value in octal, decimal and hexadecimal. *)
Theorem buf_u64_to_tmp_spec base upper v : 4 <= base <= 16 -> is_u64 v ->
  let num := rev (buf_u64_to_tmp TMP_SIZE v base upper) in
  read_numeral base num = v /\ (length num <= 32)%nat /\
  (v <> 0 -> forall c, head num = Some c -> digit_value c <> 0) /\ (v = 0 -> num = [ch_0]).
Proof.
  intros Hb Hv. cbv zeta. rewrite u64_to_tmp_numeral by (try done; lia).
  pose proof (below_pow base v 2 64 Hv ltac:(lia) ltac:(lia) ltac:(lia)) as Hlt. change (Z.of_nat 64) with 64 in Hlt.
  pose proof (to_digits_range base ltac:(lia) 64 v (proj1 Hv)) as Hr. split_and!.
  - apply read_numeral_ok; [lia|done].
  - unfold numeral. rewrite length_fmap, length_rev. apply to_digits_length; [lia|]. split; [apply Hv|].
    apply (below_pow base v 2); [done|lia|lia|lia].
  - intros Hne c Hc. unfold numeral in Hc. pose proof (to_digits_some base 63 v) as Hl.
    destruct (last (to_digits 64 base v)) as [d|] eqn:Hd; [|apply last_None in Hd; rewrite Hd in Hl; simpl in Hl; lia].
    pose proof (to_digits_lead base ltac:(lia) 64 v d ltac:(unfold is_u64 in Hv; lia) Hd) as Hlead.
    apply last_Some in Hd as [ds Hd]. rewrite Hd in Hr, Hc. rewrite rev_app_distr in Hc. injection Hc as <-.
    apply Forall_app in Hr as [_ Hr]. inversion Hr; subst. by rewrite digit_value_char by lia.
  - intros ->. unfold numeral. change 64%nat with (S 63). cbn [to_digits]. by destruct (Z.ltb_spec 0 base); [|lia].
Qed.

(** Only the prefix of a pointer counts against the width of its field. *)
Lemma pointer_width w p : 2 <= w ->
  exists text, arg_text (mk_dir 0 0 w NoPrec Lint Kp) None (AWord p) = Some text /\
    Z.of_nat (length text) = w + Z.of_nat (length (numeral 16 false (u64 p))).
Proof.
  intros Hw. eexists. split; [done|]. unfold field. cbn [d_left d_minus Nat.eqb negb d_width].
  rewrite !length_app, length_replicate. simpl length. lia.
Qed.

(** [kprintf] sends the first 255 characters of the text to both consoles. *)
Lemma vkprintf_ok l ap text rest stack : length stack = Z.to_nat VKPRINTF_SIZE ->
  Forall item_ok l -> Forall arg_ok ap -> render l ap = Some text -> Z.of_nat (length text) < 2 ^ 64 -> NUL ∉ text ->
  vkprintf stack (Some (concat (show_item <$> l) ++ NUL :: rest)) ap = Ok (take 255 text).
Proof.
  intros Hs Hl Ha Ht Hlen Hn. unfold vkprintf.
  rewrite (kvsnprintf_ok VKPRINTF_SIZE stack) with (text := text); try done; [|unfold VKPRINTF_SIZE in *; lia].
  cbn. apply to_nul_app. intros Hin. apply Hn. rewrite <- (take_drop 255 text). apply elem_of_app. by left.
Qed.

(** ** Examples: ["%-5s|%06llu %x%%"] in a buffer of 16 bytes. *)
Definition demo_items : list item :=
  [Dir (mk_dir 0 1 5 NoPrec Lint Ks); Lit 124; Dir (mk_dir 1 0 6 NoPrec Llong Ku); Lit ch_space;
   Dir (mk_dir 0 0 0 NoPrec Lint Kx); Pct].
Definition demo_args : list arg := [ABytes 4096 [97; 98; NUL]; AWord 1234; AWord 0xbeef].

Lemma kvsnprintf_spec_witness :
  render demo_items demo_args = Some [97; 98; 32; 32; 32; 124; 48; 48; 49; 50; 51; 52; 32; 98; 101; 101; 102; 37] /\
  kvsnprintf (replicate 20 7) 16 (Some (concat (show_item <$> demo_items) ++ [NUL])) demo_args =
    Ok (18, [97; 98; 32; 32; 32; 124; 48; 48; 49; 50; 51; 52; 32; 98; 101; 0; 7; 7; 7; 7]).
Proof.
  split; [reflexivity|].
  rewrite (kvsnprintf_spec demo_items demo_args [97; 98; 32; 32; 32; 124; 48; 48; 49; 50; 51; 52; 32; 98; 101; 101; 102; 37] []).
  - reflexivity.
  - lia.
  - vm_compute. discriminate.
  - repeat constructor; vm_compute; try discriminate; try reflexivity.
  - repeat constructor.
  - reflexivity.
  - vm_compute. reflexivity.
Defined.

Lemma buf_u64_to_tmp_spec_witness :
  rev (buf_u64_to_tmp TMP_SIZE (2 ^ 64 - 1) 10 false) = [49; 56; 52; 52; 54; 55; 52; 52; 48; 55; 51; 55; 48; 57; 53; 53; 49; 54; 49; 53] /\
  read_numeral 10 (rev (buf_u64_to_tmp TMP_SIZE (2 ^ 64 - 1) 10 false)) = 2 ^ 64 - 1.
Proof.
  split; [reflexivity|]. apply (buf_u64_to_tmp_spec 10 false (2 ^ 64 - 1)); [lia|split; lia].
Defined.
