(* ===== verification/Klog.v ===== *)
(** The kernel log, [kernel/src/log/klog.c] and [log/klog.h]: a message is
    formatted into a record, pushed to the ring of the last records, and
    written as one line to the serial port and to the terminal.

    Arrays of characters are lists of bytes; what the stack holds before a call
    is a parameter. The bytes sent to the serial port and to the terminal are
    kept in the state, in order; [term] is [None] while there is no terminal. *)
From S2P Require Import Prelude Kprintf.

Definition KLOG_RING_SIZE : Z := 512.
Definition KLOG_NS_MAX : Z := 32.
Definition KLOG_MSG_MAX : Z := 192.
Definition LINE_SIZE : Z := 512.
Definition CONFIG_KLOG_TRACE : bool := false.

Record klog_record := mk_record { rec_seq : Z; rec_time_us : Z; rec_ns : list Z; rec_msg : list Z }.

Record klog := mk_klog {
  klog_ring : list klog_record; klog_head : Z; klog_count : Z; klog_next_seq : Z;
  klog_ready : bool; klog_lock : bool; uart : list Z; term : option (list Z) }.

Definition set_ring (r : list klog_record) (head count next : Z) (k : klog) : klog :=
  mk_klog r head count next (klog_ready k) (klog_lock k) (uart k) (term k).
Definition set_lock (b : bool) (k : klog) : klog :=
  mk_klog (klog_ring k) (klog_head k) (klog_count k) (klog_next_seq k) (klog_ready k) b (uart k) (term k).
Definition set_output (u : list Z) (t : option (list Z)) (k : klog) : klog :=
  mk_klog (klog_ring k) (klog_head k) (klog_count k) (klog_next_seq k) (klog_ready k) (klog_lock k) u t.

Definition klog_init : ST klog unit :=
  modify (fun k => mk_klog (klog_ring k) 0 0 0 true (klog_lock k) (uart k) (term k)).

(** [strlcpy] into an array, all of it. *)
Definition strlcpy_array (dst src : list Z) : outcome (list Z) :=
  s ← to_nul src;
  match dst with
  | [] => Ok []
  | _ => let t := take (length dst - 1) s in Ok (t ++ NUL :: drop (S (length t)) dst)
  end.

Definition spinlock_lock : ST klog unit :=
  b ← gets klog_lock; if b : bool then st_timeout else modify (set_lock true).
Definition spinlock_unlock : ST klog unit := modify (set_lock false).

Definition klog_ring_push (time_us : Z) (ns msg : list Z) : ST klog unit :=
  slot ← gets klog_head;
  ring ← gets klog_ring;
  old ← st_lift (deref (ring !! Z.to_nat slot));
  seq ← gets klog_next_seq;
  ns ← st_lift (strlcpy_array (rec_ns old) ns);
  msg ← st_lift (strlcpy_array (rec_msg old) msg);
  count ← gets klog_count;
  modify (set_ring (<[Z.to_nat slot := mk_record seq time_us ns msg]> ring) (u64 (slot + 1) mod KLOG_RING_SIZE)
    (if count <? KLOG_RING_SIZE then count + 1 else count) (u64 (seq + 1))).

(** *** The line of a record *)

Definition klog_buf_putc (bufsz c : Z) : ST out unit :=
  pos ← gets o_pos;
  b ← gets o_buf;
  (if u64 (pos + 1) <? bufsz then
     if pos <? Z.of_nat (length b) then modify (fun o => mk_out (<[Z.to_nat pos := c]> b) pos) else st_fault
   else mret tt) ;;
  modify (fun o => mk_out (o_buf o) (u64 (o_pos o + 1))).

Definition ch_lf : Z := 10.
Definition ch_cr : Z := 13.

Fixpoint crlf_loop (bufsz : Z) (s : list Z) (prev_was_cr : bool) : ST out unit :=
  match s with
  | [] => st_fault
  | c :: s =>
      if c =? NUL then mret tt else
      (if (c =? ch_lf) && negb prev_was_cr then klog_buf_putc bufsz ch_cr else mret tt) ;;
      klog_buf_putc bufsz c ;;
      crlf_loop bufsz s (c =? ch_cr)
  end.
Definition klog_buf_puts_crlf (bufsz : Z) (s : option (list Z)) : ST out unit :=
  crlf_loop bufsz (default (null_text ++ [NUL]) s) false.

(** "[%5llu.%03llu] %s: " *)
Definition line_format : list Z :=
  [91; 37; 53; 108; 108; 117; 46; 37; 48; 51; 108; 108; 117; 93; 32; 37; 115; 58; 32; NUL].
Definition newline : list Z := [ch_cr; ch_lf; NUL].

(** The text before its terminator goes to the serial port and the terminal. *)
Definition uart_wstr (l : list Z) : ST klog unit :=
  s ← st_lift (to_nul l); modify (fun k => set_output (uart k ++ s) (term k) k).
Definition flanterm_write (l : list Z) (n : nat) : ST klog unit :=
  modify (fun k => set_output (uart k) (match term k with Some t => Some (t ++ take n l) | None => None end) k).

(** [line] is the array on the stack, [ns_at] the address of [rec->ns]. *)
Definition klog_emit (line : list Z) (ns_at : Z) (rec : klog_record) : ST klog unit :=
  r ← st_lift (ksnprintf line LINE_SIZE (Some line_format)
    [AWord (rec_time_us rec / 1000000); AWord ((rec_time_us rec / 1000) mod 1000); ABytes ns_at (rec_ns rec)]);
  s ← st_lift (to_nul r.2);
  o ← st_lift ((klog_buf_puts_crlf LINE_SIZE (Some (rec_msg rec)) ;; klog_buf_puts_crlf LINE_SIZE (Some newline))
    (mk_out r.2 (Z.of_nat (length s))));
  line ← st_lift (store_byte (if LINE_SIZE <=? o_pos o.2 then LINE_SIZE - 1 else o_pos o.2) NUL (o_buf o.2));
  uart_wstr line ;;
  t ← gets term;
  match t with
  | Some _ => s ← st_lift (to_nul line); flanterm_write line (length s)
  | None => mret tt
  end.

Definition kernel_ns : list Z := [107; 101; 114; 110; 101; 108; NUL].

(** [rec] and [line] are what the stack holds; [now] is [time_uptime_us()]. *)
Definition kvlog_write_impl (rec : klog_record) (line : list Z) (ns_at now : Z) (ns : option (list Z))
    (fmt : option (list Z)) (ap : list arg) : ST klog unit :=
  ns ← match ns with
       | None => mret kernel_ns
       | Some b => c ← st_lift (peek b); mret (if c =? NUL then kernel_ns else b)
       end;
  nsbuf ← st_lift (strlcpy_array (rec_ns rec) ns);
  r ← st_lift (kvsnprintf (rec_msg rec) KLOG_MSG_MAX fmt ap);
  spinlock_lock ;;
  seq ← gets klog_next_seq;
  let rec := mk_record seq now nsbuf r.2 in
  ready ← gets klog_ready;
  (if ready : bool then klog_ring_push now nsbuf r.2 else mret tt) ;;
  klog_emit line ns_at rec ;;
  spinlock_unlock.

Definition kvlog_force_write := kvlog_write_impl.
Definition kvlog_write := kvlog_write_impl.
Definition kvlog_trace_write (rec : klog_record) (line : list Z) (ns_at now : Z) (ns fmt : option (list Z))
    (ap : list arg) : ST klog unit :=
  if CONFIG_KLOG_TRACE then kvlog_write_impl rec line ns_at now ns fmt ap else mret tt.

(** The variadic functions pass their arguments on. *)
Definition klog_force_write := kvlog_force_write.
Definition klog_write := kvlog_write.
Definition klog_trace_write := kvlog_trace_write.
