(* ===== verification/KlogSpec.v ===== *)
(** The log of [kernel/src/log/klog.c]: the ring holds the last records in
    order, and the line of a record always fits its buffer. *)
From S2P Require Import Prelude Kprintf Kformat Klog.

(** ** Terminated arrays *)

(** The bytes before the first terminator. *)
Fixpoint before_nul (l : list Z) : list Z :=
  match l with [] => [] | c :: l => if c =? NUL then [] else c :: before_nul l end.

Lemma before_nul_free l : NUL ∉ before_nul l.
Proof.
  induction l as [|c l IH]; cbn; [apply not_elem_of_nil|]. destruct (Z.eqb_spec c NUL); [apply not_elem_of_nil|].
  apply not_elem_of_cons. split; [congruence|done].
Qed.

Lemma before_nul_id l : NUL ∉ l -> before_nul l = l.
Proof.
  induction l as [|c l IH]; [done|]. intros [Hc Hl]%not_elem_of_cons. cbn. destruct (Z.eqb_spec c NUL); [congruence|].
  by rewrite IH.
Qed.

Lemma before_nul_le l : (length (before_nul l) <= length l)%nat.
Proof. induction l as [|c l IH]; cbn; [lia|]. destruct (c =? NUL); cbn; lia. Qed.

Lemma to_nul_before l r : to_nul (l ++ NUL :: r) = Ok (before_nul l).
Proof. induction l as [|c l IH]; [done|]. cbn. destruct (c =? NUL); [done|]. by rewrite IH. Qed.

Lemma to_nul_inv b s : to_nul b = Ok s -> exists r, b = s ++ NUL :: r /\ NUL ∉ s.
Proof.
  revert s. induction b as [|c b IH]; intros s; cbn; [done|]. destruct (Z.eqb_spec c NUL) as [->|Hc].
  - intros [= <-]. exists b. split; [done|apply not_elem_of_nil].
  - destruct (to_nul b) as [l| | |]; try done. intros [= <-]. destruct (IH l eq_refl) as (r & -> & Hn).
    exists r. split; [done|]. apply not_elem_of_cons. split; [congruence|done].
Qed.

Lemma to_nul_c_string b s : to_nul b = Ok s -> c_string b = Some s.
Proof.
  intros (r & -> & Hn)%to_nul_inv. induction s as [|c s IH]; [done|]. apply not_elem_of_cons in Hn as [Hc Hn].
  cbn. destruct (Z.eqb_spec c NUL); [congruence|]. by rewrite IH.
Qed.

Lemma to_nul_length b s : to_nul b = Ok s -> (length s < length b)%nat.
Proof. intros (r & -> & _)%to_nul_inv. rewrite length_app. cbn. lia. Qed.

Lemma strlcpy_array_ok dst src s : to_nul src = Ok s -> (0 < length dst)%nat ->
  exists d, strlcpy_array dst src = Ok d /\ length d = length dst /\ to_nul d = Ok (take (length dst - 1) s).
Proof.
  intros Hs Hd. pose proof (to_nul_inv _ _ Hs) as (r & _ & Hn). unfold strlcpy_array. rewrite Hs.
  destruct dst as [|x dst]; [cbn in Hd; lia|]. set (n := length (x :: dst)) in *. cbn [mbind outcome_bind].
  eexists. split; [reflexivity|]. split.
  - rewrite length_app, length_cons, length_drop, !length_take. fold n. lia.
  - apply to_nul_app. intros Hin. apply Hn. rewrite <- (take_drop (n - 1) s). apply elem_of_app. by left.
Qed.

(** ** The ring *)

Record entry := mk_entry { e_seq : Z; e_time : Z; e_ns : list Z; e_msg : list Z }.
Definition shows (r : klog_record) (e : entry) : Prop :=
  rec_seq r = e_seq e /\ rec_time_us r = e_time e /\ to_nul (rec_ns r) = Ok (e_ns e) /\ to_nul (rec_msg r) = Ok (e_msg e).
Definition sized (r : klog_record) : Prop := length (rec_ns r) = 32%nat /\ length (rec_msg r) = 192%nat.

(** The slot of the record number [i], the oldest one being number 0. *)
Definition slot_of (k : klog) (i : nat) : nat := Z.to_nat ((klog_head k - klog_count k + Z.of_nat i) mod KLOG_RING_SIZE).

(** The ring holds the records [l], oldest first. *)
Record ring_rep (k : klog) (l : list entry) : Prop := {
  rr_size : length (klog_ring k) = 512%nat /\ Forall sized (klog_ring k);
  rr_head : 0 <= klog_head k < KLOG_RING_SIZE;
  rr_count : klog_count k = Z.of_nat (length l) /\ (length l <= 512)%nat;
  rr_entries i e : l !! i = Some e -> exists r, klog_ring k !! slot_of k i = Some r /\ shows r e;
}.

(** The last records of a list, as many as the ring has places. *)
Definition last_records (l : list entry) : list entry := drop (length l - 512) l.

Lemma slot_push k i d : 0 <= klog_head k < KLOG_RING_SIZE -> forall r s,
  slot_of (set_ring r ((klog_head k + 1) mod KLOG_RING_SIZE) (klog_count k + 1 - Z.of_nat d) s k) i = slot_of k (i + d).
Proof.
  intros Hh r s. unfold slot_of. cbn [set_ring klog_head klog_count]. f_equal. unfold KLOG_RING_SIZE in *.
  replace ((klog_head k + 1) mod 512 - (klog_count k + 1 - Z.of_nat d) + Z.of_nat i) with
    ((klog_head k + 1) mod 512 + (Z.of_nat i + Z.of_nat d - klog_count k - 1)) by lia.
  rewrite Zplus_mod_idemp_l. f_equal. lia.
Qed.

Lemma slot_fresh k j n : 0 <= klog_head k < KLOG_RING_SIZE -> klog_count k = Z.of_nat n -> (j < n)%nat -> (n < j + 512)%nat ->
  slot_of k j <> Z.to_nat (klog_head k).
Proof.
  intros Hh Hc Hj Hn E. unfold slot_of, KLOG_RING_SIZE in *. rewrite Hc in E.
  pose proof (Z.mod_pos_bound (klog_head k - Z.of_nat n + Z.of_nat j) 512 ltac:(lia)).
  pose proof (Z.div_mod (klog_head k - Z.of_nat n + Z.of_nat j) 512 ltac:(lia)). lia.
Qed.

Lemma slot_next k n : 0 <= klog_head k < KLOG_RING_SIZE -> klog_count k = Z.of_nat n -> slot_of k n = Z.to_nat (klog_head k).
Proof. intros Hh Hc. unfold slot_of. rewrite Hc. f_equal. unfold KLOG_RING_SIZE in *. rewrite Z.mod_small; lia. Qed.

Lemma ring_push_ok k l now ns msg n m : ring_rep k l -> to_nul ns = Ok n -> to_nul msg = Ok m ->
  (length n < 32)%nat -> (length m < 192)%nat ->
  exists ring head count, klog_ring_push now ns msg k = Ok (tt, set_ring ring head count (u64 (klog_next_seq k + 1)) k) /\
    ring_rep (set_ring ring head count (u64 (klog_next_seq k + 1)) k)
      (last_records (l ++ [mk_entry (klog_next_seq k) now n m])).
Proof.
  intros [[Hlen Hsz] Hh [Hc Hcl] He] Hn Hm Ln Lm. set (e := mk_entry _ _ _ _). set (h := Z.to_nat (klog_head k)).
  assert (h < 512)%nat as Hh' by (unfold h, KLOG_RING_SIZE in *; lia).
  destruct (lookup_lt_is_Some_2 (klog_ring k) h) as [old Hold]; [lia|].
  destruct (Forall_lookup_1 _ _ _ _ Hsz Hold) as [So1 So2].
  destruct (strlcpy_array_ok (rec_ns old) ns n Hn ltac:(lia)) as (ns' & E1 & L1 & N1).
  destruct (strlcpy_array_ok (rec_msg old) msg m Hm ltac:(lia)) as (msg' & E2 & L2 & N2).
  rewrite take_ge in N1, N2 by lia. set (r := mk_record (klog_next_seq k) now ns' msg').
  set (d := (length l + 1 - 512)%nat). set (count := klog_count k + 1 - Z.of_nat d).
  exists (<[h := r]> (klog_ring k)), ((klog_head k + 1) mod KLOG_RING_SIZE), count. split.
  { unfold klog_ring_push. rewrite !gets_bind. fold h. rewrite Hold. cbn [deref]. erewrite lift_bind; [|reflexivity].
    rewrite gets_bind, (lift_bind _ _ _ _ E1), (lift_bind _ _ _ _ E2), gets_bind. unfold modify. do 3 f_equal.
    - rewrite u64_small; [done|unfold KLOG_RING_SIZE in Hh; lia].
    - unfold count, KLOG_RING_SIZE. destruct (Z.ltb_spec (klog_count k) 512); lia. }
  assert (last_records (l ++ [e]) = drop d (l ++ [e])) as -> by (unfold last_records; rewrite length_app; done).
  unfold count. split.
  - cbn [set_ring klog_ring]. rewrite length_insert. split; [done|]. apply Forall_insert; [done|]. split; [by rewrite <- So1|by rewrite <- So2].
  - apply Z.mod_pos_bound. done.
  - rewrite length_drop, length_app. cbn [length set_ring klog_count]. lia.
  - intros i e' Hi. rewrite lookup_drop in Hi. rewrite (slot_push k i d Hh). cbn [set_ring klog_ring].
    replace (i + d)%nat with (d + i)%nat by lia. apply lookup_app_Some in Hi as [Hi|[Hge Hi]].
    + destruct (He _ _ Hi) as (r' & Hr' & Hs). exists r'. split; [|done]. rewrite list_lookup_insert_ne; [done|].
      apply not_eq_sym, (slot_fresh k _ (length l)); try done; apply lookup_lt_Some in Hi; unfold d in *; lia.
    + apply list_lookup_singleton_Some in Hi as [Hz <-]. assert (d + i = length l)%nat as -> by lia.
      rewrite (slot_next k (length l)) by done. exists r. rewrite list_lookup_insert_eq by lia. done.
Qed.

(** ** The line *)

(** A carriage return before every line feed that has none. *)
Fixpoint crlf_text (prev : bool) (s : list Z) : list Z :=
  match s with
  | [] => []
  | c :: s => (if (c =? ch_lf) && negb prev then [ch_cr; c] else [c]) ++ crlf_text (c =? ch_cr) s
  end.

Lemma crlf_length s : forall prev, (length (crlf_text prev s) <= 2 * length s)%nat.
Proof. induction s as [|c s IH]; intros prev; cbn; [lia|]. rewrite length_app. specialize (IH (c =? ch_cr)). destruct (_ && _); cbn; lia. Qed.

Lemma crlf_free s : forall prev, NUL ∉ s -> NUL ∉ crlf_text prev s.
Proof.
  induction s as [|c s IH]; intros prev; cbn; [done|]. intros [Hc Hs]%not_elem_of_cons. apply not_elem_of_app.
  split; [|by apply IH]. destruct (_ && _); rewrite ?not_elem_of_cons; unfold ch_cr, NUL in *; split_and?; try done;
    apply not_elem_of_nil.
Qed.

Lemma prints_crlf bufsz buf (Hsz : 0 < bufsz < 2 ^ 64) (Hbuf : bufsz <= Z.of_nat (length buf)) s r :
  NUL ∉ s -> forall prev, prints bufsz buf (crlf_loop bufsz (s ++ NUL :: r) prev) (crlf_text prev s).
Proof.
  induction s as [|c s IH]; intros Hn prev; cbn [app crlf_loop]; [apply prints_nothing|].
  apply not_elem_of_cons in Hn as [Hc Hn]. destruct (Z.eqb_spec c NUL); [congruence|]. cbn [crlf_text].
  pose proof (prints_char bufsz buf Hsz Hbuf) as Hch. destruct ((c =? ch_lf) && negb prev).
  - change ([ch_cr; c] ++ crlf_text (c =? ch_cr) s) with ([ch_cr] ++ [c] ++ crlf_text (c =? ch_cr) s).
    apply prints_then; [apply (Hch ch_cr)|]. apply prints_then; [apply (Hch c)|]. by apply IH.
  - change ([c] ++ crlf_text (c =? ch_cr) s) with ([] ++ [c] ++ crlf_text (c =? ch_cr) s).
    apply prints_then; [apply prints_nothing|]. apply prints_then; [apply (Hch c)|]. by apply IH.
Qed.

(** "[seconds.milliseconds] name: " *)
Definition header (now : Z) (ns : list Z) : list Z :=
  [91] ++ unsigned_text 10 false false false 5 (now / 1000000) ++ [46] ++
  unsigned_text 10 false true false 3 ((now / 1000) mod 1000) ++ [93; 32] ++ ns ++ [58; 32].

Definition header_items : list item :=
  [Lit 91; Dir (mk_dir 0 0 5 NoPrec Llong Ku); Lit 46; Dir (mk_dir 1 0 3 NoPrec Llong Ku); Lit 93; Lit 32;
   Dir (mk_dir 0 0 0 NoPrec Lint Ks); Lit 58; Lit 32].

Lemma header_render now at_ b ns : is_u64 now -> to_nul b = Ok ns ->
  render header_items [AWord (now / 1000000); AWord ((now / 1000) mod 1000); ABytes at_ b] = Some (header now ns).
Proof.
  intros Hnow Hb. pose proof (to_nul_c_string _ _ Hb) as Hcs. unfold is_u64 in Hnow.
  assert (0 <= now / 1000000 < 2 ^ 64) as H1 by (split; [apply Z.div_pos; lia|apply Z.div_lt_upper_bound; lia]).
  pose proof (Z.mod_pos_bound (now / 1000) 1000 ltac:(lia)) as H2.
  cbn [header_items render dir_text d_prec d_kind arg_text arg_word d_len duint d_width d_zero d_left d_minus d_zeros negb andb Nat.eqb mbind option_bind].
  rewrite Hcs. cbn [mbind option_bind fmap option_fmap option_map]. rewrite !u64_small by lia.
  unfold header, field. cbn [app]. do 2 f_equal. rewrite <- !app_assoc. cbn [app]. do 4 f_equal.
  replace (Z.to_nat (0 - Z.of_nat (length ns))) with 0%nat by lia. cbn [replicate app].
  rewrite take_ge by lia. do 2 f_equal.
Qed.

Lemma numeral_short v n : 0 <= v < 10 ^ Z.of_nat (S n) -> (length (numeral 10 false v) <= S n)%nat.
Proof. intros Hv. unfold numeral. rewrite length_fmap, length_rev. apply to_digits_length; [lia|done]. Qed.

Lemma numeral_free v : 0 <= v -> NUL ∉ numeral 10 false v.
Proof.
  intros Hv Hin. unfold numeral in Hin. apply list_elem_of_fmap in Hin as (d & E & Hd). apply list_elem_of_In, in_rev, list_elem_of_In in Hd.
  pose proof (to_digits_range 10 ltac:(lia) 64 v Hv) as Hr. rewrite Forall_forall in Hr. specialize (Hr d Hd). cbn beta in Hr.
  unfold digit_char, NUL, ch_0, ch_a in E. destruct (Z.ltb_spec d 10); lia.
Qed.

Lemma unsigned_short zero w v n : 0 <= v < 10 ^ Z.of_nat (S n) -> w <= Z.of_nat (S n) ->
  (length (unsigned_text 10 false zero false w v) <= S n)%nat /\ NUL ∉ unsigned_text 10 false zero false w v.
Proof.
  intros Hv Hw. pose proof (numeral_short v n Hv). unfold unsigned_text, field. rewrite length_app, length_replicate. split; [lia|].
  apply not_elem_of_app. split; [|apply numeral_free; lia]. intros [E _]%elem_of_replicate. by destruct zero.
Qed.

Lemma header_short now ns : is_u64 now -> (length ns < 32)%nat -> NUL ∉ ns ->
  (length (header now ns) <= 54)%nat /\ NUL ∉ header now ns.
Proof.
  intros Hnow Hl Hn. unfold is_u64 in Hnow.
  assert (0 <= now / 1000000 < 10 ^ Z.of_nat 14) as H1.
  { split; [apply Z.div_pos; lia|]. change (10 ^ Z.of_nat 14) with 100000000000000. apply Z.div_lt_upper_bound; lia. }
  pose proof (Z.mod_pos_bound (now / 1000) 1000 ltac:(lia)) as H2.
  destruct (unsigned_short false 5 _ 13 H1 ltac:(lia)) as [L1 F1].
  destruct (unsigned_short true 3 ((now / 1000) mod 1000) 2 ltac:(lia) ltac:(lia)) as [L2 F2].
  unfold header. rewrite !length_app. cbn [length]. split; [lia|].
  rewrite !not_elem_of_app, !not_elem_of_cons. pose proof (not_elem_of_nil (A := Z) NUL). unfold NUL in *. split_and!; done || lia.
Qed.

Definition line_text (now : Z) (ns msg : list Z) : list Z := header now ns ++ crlf_text false msg ++ [ch_cr; ch_lf].

Lemma line_fits now ns msg : is_u64 now -> (length ns < 32)%nat -> (length msg < 192)%nat -> NUL ∉ ns -> NUL ∉ msg ->
  (length (line_text now ns msg) <= 438)%nat /\ NUL ∉ line_text now ns msg.
Proof.
  intros Hnow Hl Hm Hn Hmn. destruct (header_short now ns Hnow Hl Hn) as [L F]. pose proof (crlf_length msg false).
  unfold line_text. rewrite !length_app. cbn [length]. split; [lia|].
  pose proof (crlf_free msg false Hmn). rewrite !not_elem_of_app, !not_elem_of_cons. pose proof (not_elem_of_nil (A := Z) NUL).
  unfold NUL, ch_cr, ch_lf in *. split_and!; done || lia.
Qed.

(** The two copies of a line: to the serial port and to the terminal. *)
Definition wrote_line (k : klog) (l : list Z) : klog :=
  set_output (uart k ++ l) (match term k with Some t => Some (t ++ l) | None => None end) k.

Lemma store_end txt buf : (length txt < length buf)%nat ->
  store_byte (Z.of_nat (length txt)) NUL (txt ++ drop (length txt) buf) = Ok (txt ++ NUL :: drop (S (length txt)) buf).
Proof.
  intros Hl. unfold store_byte. rewrite length_app, length_drop. destruct (Z.leb_spec 0 (Z.of_nat (length txt))); [|lia].
  destruct (Z.ltb_spec (Z.of_nat (length txt)) (Z.of_nat (length txt + (length buf - length txt)))); [|lia]. cbn [andb].
  rewrite Nat2Z.id, insert_app_r_alt, Nat.sub_diag by lia. destruct (drop (length txt) buf) as [|x r] eqn:Ed.
  - apply (f_equal length) in Ed. rewrite length_drop in Ed. cbn in Ed. lia.
  - cbn. do 3 f_equal. change r with (drop 1 (x :: r)). rewrite <- Ed, drop_drop. f_equal. lia.
Qed.

Lemma uart_wstr_ok l s k : to_nul l = Ok s -> uart_wstr l k = Ok (tt, set_output (uart k ++ s) (term k) k).
Proof. intros Hs. unfold uart_wstr. by rewrite Hs. Qed.

Lemma emit_ok line at_ rec ns msg k : length line = 512%nat -> is_u64 (rec_time_us rec) -> sized rec ->
  to_nul (rec_ns rec) = Ok ns -> to_nul (rec_msg rec) = Ok msg ->
  klog_emit line at_ rec k = Ok (tt, wrote_line k (line_text (rec_time_us rec) ns msg)).
Proof.
  intros Hline Hnow [S1 S2] Hns Hmsg. pose proof (to_nul_length _ _ Hns) as L1. pose proof (to_nul_length _ _ Hmsg) as L2.
  destruct (to_nul_inv _ _ Hns) as (rn & _ & Fn). destruct (to_nul_inv _ _ Hmsg) as (rm & Em & Fm).
  destruct (header_short (rec_time_us rec) ns Hnow ltac:(lia) Fn) as [Lh Fh].
  destruct (line_fits (rec_time_us rec) ns msg Hnow ltac:(lia) ltac:(lia) Fn Fm) as [Ll Fl].
  set (hd := header (rec_time_us rec) ns) in *. unfold klog_emit, ksnprintf.
  pose proof (kvsnprintf_ok LINE_SIZE line ltac:(unfold LINE_SIZE; lia) ltac:(unfold LINE_SIZE; lia) header_items
    [AWord (rec_time_us rec / 1000000); AWord ((rec_time_us rec / 1000) mod 1000); ABytes at_ (rec_ns rec)] hd []
    ltac:(repeat constructor; done) ltac:(repeat constructor; cbn; lia) (header_render _ at_ _ _ Hnow Hns) ltac:(lia)) as Hk.
  cbv zeta in Hk. rewrite (take_ge hd) in Hk by (unfold LINE_SIZE; lia).
  change (concat (show_item <$> header_items) ++ [NUL]) with line_format in Hk.
  rewrite (lift_bind _ _ _ _ Hk). cbn [snd]. rewrite (lift_bind _ _ _ _ (to_nul_app hd _ Fh)).
  set (buf := hd ++ NUL :: drop (S (length hd)) line).
  assert (length buf = 512%nat) as Lb by (unfold buf; rewrite length_app, length_cons, length_drop; lia).
  assert (0 < LINE_SIZE < 2 ^ 64) as Hs1 by (unfold LINE_SIZE; lia).
  assert (LINE_SIZE <= Z.of_nat (length buf)) as Hs2 by (unfold LINE_SIZE; lia).
  assert (mk_out buf (Z.of_nat (length hd)) = shown LINE_SIZE buf hd) as ->.
  { unfold shown. assert (kept LINE_SIZE hd = length hd) as -> by (unfold kept, LINE_SIZE; lia).
    rewrite (take_ge hd) by done. unfold buf at 2. by rewrite drop_app_length. }
  assert (prints LINE_SIZE buf (klog_buf_puts_crlf LINE_SIZE (Some (rec_msg rec)) ;; klog_buf_puts_crlf LINE_SIZE (Some newline))
    (crlf_text false msg ++ [ch_cr; ch_lf])) as Hp.
  { apply prints_then; unfold klog_buf_puts_crlf; cbn [default]; [rewrite Em; by apply prints_crlf|].
    apply (prints_crlf _ _ Hs1 Hs2 [ch_cr; ch_lf] []).
    rewrite !not_elem_of_cons; unfold NUL, ch_cr, ch_lf; split_and!; try lia; apply not_elem_of_nil. }
  fold (line_text (rec_time_us rec) ns msg) in *. set (txt := line_text (rec_time_us rec) ns msg) in *.
  assert (hd ++ crlf_text false msg ++ [ch_cr; ch_lf] = txt) as Et by done.
  pose proof (Hp hd ltac:(rewrite Et; lia)) as Hrun. rewrite Et in Hrun. rewrite (lift_bind _ _ _ _ Hrun). cbn [snd].
  assert (kept LINE_SIZE txt = length txt) as Ek by (unfold kept, LINE_SIZE; lia).
  unfold shown. rewrite Ek. cbn [o_pos o_buf]. rewrite (take_ge txt) by lia.
  destruct (Z.leb_spec LINE_SIZE (Z.of_nat (length txt))) as [|_]; [unfold LINE_SIZE in *; lia|].
  assert (store_byte (Z.of_nat (length txt)) NUL (txt ++ drop (length txt) buf) = Ok (txt ++ NUL :: drop (S (length txt)) buf)) as Hst
    by (apply store_end; lia).
  rewrite (lift_bind _ _ _ _ Hst). pose proof (to_nul_app txt (drop (S (length txt)) buf) Fl) as Hend.
  rewrite (st_bind_ok _ _ _ _ _ (uart_wstr_ok _ _ _ Hend)), gets_bind. unfold wrote_line. cbn [term set_output].
  destruct (term k) as [t|] eqn:Etm; [|done]. rewrite (lift_bind _ _ _ _ Hend).
  unfold flanterm_write, modify. cbn [term uart set_output]. rewrite take_app_length. done.
Qed.

(** ** Writing a message *)

Definition kernel_name : list Z := [107; 101; 114; 110; 101; 108].

(** The name of the writer that a message is recorded under. *)
Definition names (ns : option (list Z)) (n : list Z) : Prop :=
  match ns with
  | None => n = kernel_name
  | Some b => exists s, to_nul b = Ok s /\ n = match s with [] => kernel_name | _ => s end
  end.

Lemma names_ok ns n (k : klog) : names ns n ->
  exists b, match ns with
       | None => mret kernel_ns
       | Some b => c ← st_lift (peek b); mret (if c =? NUL then kernel_ns else b)
       end k = Ok (b, k) /\ to_nul b = Ok n.
Proof.
  destruct ns as [b|]; cbn [names]; [|intros ->; by exists kernel_ns].
  intros (s & Hs & ->). destruct (to_nul_inv _ _ Hs) as (r & -> & Hn). destruct s as [|c s]; [by exists kernel_ns|].
  apply not_elem_of_cons in Hn as [Hc _]. exists ((c :: s) ++ NUL :: r). split; [|done]. cbn [app peek].
  erewrite lift_bind; [|reflexivity]. destruct (Z.eqb_spec c NUL); [congruence|done].
Qed.

Lemma write_ok rec line at_ now ns fmt ap k l n text :
  ring_rep k l -> klog_lock k = false -> sized rec -> length line = 512%nat -> is_u64 now -> names ns n ->
  (forall buf, length buf = 192%nat -> exists j, kvsnprintf buf KLOG_MSG_MAX fmt ap =
     Ok (j, take 191 text ++ NUL :: drop (S (length (take 191 text))) buf)) ->
  let e := mk_entry (klog_next_seq k) now (take 31 n) (before_nul (take 191 text)) in
  exists k', kvlog_write rec line at_ now ns fmt ap k = Ok (tt, k') /\ klog_lock k' = false /\
    uart k' = uart k ++ line_text now (e_ns e) (e_msg e) /\
    term k' = match term k with Some t => Some (t ++ line_text now (e_ns e) (e_msg e)) | None => None end /\
    klog_ready k' = klog_ready k /\
    if klog_ready k then ring_rep k' (last_records (l ++ [e])) /\ klog_next_seq k' = u64 (klog_next_seq k + 1)
    else ring_rep k' l /\ klog_next_seq k' = klog_next_seq k.
Proof.
  intros Hr Hlk [S1 S2] Hline Hnow Hns Hfmt e. destruct (names_ok ns n k Hns) as (b & Hb & Hbn).
  destruct (strlcpy_array_ok (rec_ns rec) b n Hbn ltac:(lia)) as (nb & Hnb & Lnb & Tnb). rewrite S1 in Tnb.
  destruct (Hfmt (rec_msg rec) S2) as (j & Hj). set (mb := take 191 text ++ NUL :: _) in *.
  assert (to_nul mb = Ok (e_msg e)) as Tmb by apply to_nul_before.
  assert (length mb = 192%nat) as Lmb by (unfold mb; rewrite length_app, length_cons, length_drop, length_take; lia).
  pose proof (to_nul_length _ _ Tnb) as L1. pose proof (to_nul_length _ _ Tmb) as L2.
  assert (sized (mk_record (klog_next_seq k) now nb mb)) as Hsz by (split; cbn; lia).
  pose proof (fun k => emit_ok line at_ (mk_record (klog_next_seq k) now nb mb) (take 31 n) (e_msg e)) as Hemit.
  unfold kvlog_write, kvlog_write_impl. rewrite (st_bind_ok _ _ _ _ _ Hb), (lift_bind _ _ _ _ Hnb), (lift_bind _ _ _ _ Hj).
  unfold spinlock_lock, spinlock_unlock. rewrite bind_assoc, gets_bind, Hlk, modify_bind, gets_bind. cbv zeta. rewrite gets_bind.
  cbn [snd klog_ready klog_next_seq set_lock].
  assert (ring_rep (set_lock true k) l) as Hr1 by (by destruct Hr).
  destruct (klog_ready k) eqn:Hready.
  - destruct (ring_push_ok (set_lock true k) l now nb mb _ _ Hr1 Tnb Tmb ltac:(lia) ltac:(lia)) as (ring & head & count & Hp & Hr2).
    rewrite (st_bind_ok _ _ _ _ _ Hp). set (k2 := set_ring _ _ _ _ _) in *.
    rewrite (st_bind_ok _ _ _ _ _ (Hemit k k2 Hline Hnow Hsz Tnb Tmb)). eexists. split; [reflexivity|].
    do 3 (split; [done|]). split; [exact Hready|]. split; [|done]. by destruct Hr2.
  - rewrite (st_bind_ok _ _ _ _ _ (eq_refl (Ok (tt, set_lock true k)))).
    rewrite (st_bind_ok _ _ _ _ _ (Hemit k (set_lock true k) Hline Hnow Hsz Tnb Tmb)). eexists. split; [reflexivity|].
    do 3 (split; [done|]). split; [exact Hready|]. split; [|done]. by destruct Hr.
Qed.

(** A line of the log is never cut. For every record whose arrays are
    terminated and every time, [klog_emit] runs without a fault and sends the
    whole line, that is the time, the name, the message with a carriage return
    before every line feed that has none, and the end of the line, to the serial
    port and to the terminal; the line has at most 438 of the 511 characters
    that its buffer can hold. *)
Theorem klog_emit_spec line at_ rec ns msg k :
  length line = Z.to_nat LINE_SIZE -> is_u64 (rec_time_us rec) ->
  length (rec_ns rec) = Z.to_nat KLOG_NS_MAX -> length (rec_msg rec) = Z.to_nat KLOG_MSG_MAX ->
  to_nul (rec_ns rec) = Ok ns -> to_nul (rec_msg rec) = Ok msg ->
  let text := line_text (rec_time_us rec) ns msg in
  klog_emit line at_ rec k = Ok (tt, wrote_line k text) /\ (length text <= 438)%nat /\ 438 < LINE_SIZE - 1.
Proof.
  intros Hl Ht H1 H2 Hn Hm. cbv zeta. split; [by apply emit_ok|]. split; [|done].
  pose proof (to_nul_length _ _ Hn). pose proof (to_nul_length _ _ Hm).
  destruct (to_nul_inv _ _ Hn) as (? & _ & ?). destruct (to_nul_inv _ _ Hm) as (? & _ & ?).
  change (Z.to_nat KLOG_NS_MAX) with 32%nat in H1. change (Z.to_nat KLOG_MSG_MAX) with 192%nat in H2.
  apply line_fits; done || lia.
Qed.

(** C28: writing a message. For every format the formatter accepts and any writer
    name, [kvlog_write] records the time, the name cut to 31 characters and the
    text cut to 191 under the next sequence number, as the newest of the last
    512 records, in order (before [klog_init] nothing is recorded), and sends
    the record's line to the serial port and the terminal. *)
Theorem klog_write_spec rec line at_ now ns items rest ap k l n text :
  ring_rep k l -> klog_lock k = false -> sized rec -> length line = 512%nat -> is_u64 now -> names ns n ->
  Forall item_ok items -> Forall arg_ok ap -> render items ap = Some text -> Z.of_nat (length text) < 2 ^ 64 ->
  let e := mk_entry (klog_next_seq k) now (take 31 n) (before_nul (take 191 text)) in
  exists k', kvlog_write rec line at_ now ns (Some (concat (show_item <$> items) ++ NUL :: rest)) ap k = Ok (tt, k') /\
    klog_lock k' = false /\
    uart k' = uart k ++ line_text now (e_ns e) (e_msg e) /\
    term k' = match term k with Some t => Some (t ++ line_text now (e_ns e) (e_msg e)) | None => None end /\
    klog_ready k' = klog_ready k /\
    if klog_ready k then ring_rep k' (last_records (l ++ [e])) /\ klog_next_seq k' = u64 (klog_next_seq k + 1)
    else ring_rep k' l /\ klog_next_seq k' = klog_next_seq k.
Proof.
  intros Hr Hlk Hsz Hline Hnow Hns Hi Ha Ht Hlen. apply write_ok; try done. intros buf Hbuf. eexists.
  apply (kvsnprintf_ok KLOG_MSG_MAX buf); unfold KLOG_MSG_MAX; done || lia.
Qed.

Lemma klog_init_ok k : length (klog_ring k) = 512%nat -> Forall sized (klog_ring k) ->
  exists k', klog_init k = Ok (tt, k') /\ ring_rep k' [] /\ klog_ready k' = true /\ klog_next_seq k' = 0.
Proof.
  intros Hl Hs. eexists. split; [reflexivity|]. split; [|done].
  split; [done|cbn; unfold KLOG_RING_SIZE; lia|split; [done|cbn; lia]|intros i e [=]].
Qed.

(** ** Examples *)

Definition demo_record : klog_record := mk_record 0 0 (replicate 32 0) (replicate 192 0).
Definition demo_klog : klog := mk_klog (replicate 512 demo_record) 511 0 7 true false [] (Some []).
Definition demo_items : list item := [Lit 97; Lit 10; Dir (mk_dir 0 0 0 NoPrec Lint Kd)].

Lemma demo_ring : ring_rep demo_klog [].
Proof.
  split; [split; [reflexivity|by apply Forall_replicate]|split; [discriminate|reflexivity]|split; [done|cbn; lia]|intros i e [=]].
Qed.

Lemma klog_emit_spec_witness :
  let rec := mk_record 0 2000123456 (110 :: replicate 31 0) ([104; 10] ++ replicate 190 0) in
  klog_emit (replicate 512 7) 4096 rec demo_klog = Ok (tt, wrote_line demo_klog (line_text 2000123456 [110] [104; 10])).
Proof.
  refine (proj1 (klog_emit_spec (replicate 512 7) 4096 _ [110] [104; 10] demo_klog _ _ _ _ _ _)); try reflexivity.
  split; vm_compute; [discriminate|reflexivity].
Defined.

Lemma klog_write_spec_witness : exists k',
  kvlog_write demo_record (replicate 512 7) 4096 5000 None (Some [97; 10; 37; 100; 0]) [AWord 42] demo_klog = Ok (tt, k') /\
  ring_rep k' [mk_entry 7 5000 kernel_name [97; 10; 52; 50]] /\ klog_next_seq k' = 8.
Proof.
  destruct (klog_write_spec demo_record (replicate 512 7) 4096 5000 None demo_items [] [AWord 42] demo_klog [] kernel_name
    [97; 10; 52; 50] demo_ring) as (k' & Hr & _ & _ & _ & _ & Hk); try reflexivity.
  - split; reflexivity.
  - split; lia.
  - repeat constructor; vm_compute; try discriminate; try reflexivity.
  - repeat constructor.
  - exists k'. split; [exact Hr|]. exact Hk.
Defined.
