(* ===== verification/Gdt.v ===== *)
(** Segment tables, [kernel/src/cpu/gdt.c] and [cpu/gdt.h]: the descriptor
    table of each CPU, its task state segment, and the loading of both.

    The loads ([lgdt], the far return, the moves to the segment registers,
    [ltr]) are those of the processor manual: a load reads the descriptor from
    the table the [gdtr] holds and faults when it does not fit the register.
    Addresses of the two static arrays are parameters. *)
From S2P Require Import Prelude Klog.

Definition MAX_CPUS : Z := 256.

Definition GDT_P : Z := 0x80.
Definition GDT_DPL0 : Z := 0.
Definition GDT_DPL3 : Z := 0x60.
Definition GDT_S : Z := 0x10.
Definition GDT_CODE : Z := 0x08.
Definition GDT_DATA : Z := 0.
Definition GDT_RW : Z := 0x02.
Definition GDT_A : Z := 0x01.
Definition any_of (l : list Z) : Z := foldl Z.lor 0 l.
Definition GDT_KERNEL_CODE : Z := any_of [GDT_P; GDT_DPL0; GDT_S; GDT_CODE; GDT_RW].
Definition GDT_KERNEL_DATA : Z := any_of [GDT_P; GDT_DPL0; GDT_S; GDT_DATA; GDT_RW].
Definition GDT_USER_CODE : Z := any_of [GDT_P; GDT_DPL3; GDT_S; GDT_CODE; GDT_RW].
Definition GDT_USER_DATA : Z := any_of [GDT_P; GDT_DPL3; GDT_S; GDT_DATA; GDT_RW].
Definition GDT_FLAG_GRAN_4K : Z := 0x80.
Definition GDT_FLAG_64BIT : Z := 0x20.
Definition GDT_KERNEL_CODE_SELECTOR : Z := 0x08.
Definition GDT_KERNEL_DATA_SELECTOR : Z := 0x10.
Definition GDT_USER_CODE_SELECTOR : Z := 0x1b.
Definition GDT_USER_DATA_SELECTOR : Z := 0x23.
Definition GDT_TSS_SELECTOR : Z := 0x28.

Record gdt_descriptor := mk_desc {
  limit_low : Z; base_low : Z; base_mid : Z; access : Z; limit_flags : Z; base_high : Z }.
Record gdtr := mk_gdtr { gdtr_limit : Z; gdtr_base : Z }.
Abbreviation gdt := (list gdt_descriptor).

Record tss := mk_tss {
  tss_reserved0 : Z; rsp : list Z; tss_reserved1 : Z; tss_ist : list Z; tss_reserved2 : Z;
  tss_reserved3 : Z; iopb : Z }.
Definition sizeof_tss : Z := 104.
Definition sizeof_gdt : Z := 56.

Definition ENTRY (base limit access flags : Z) : gdt_descriptor :=
  mk_desc (u16 (Z.land limit 0xffff)) (u16 (Z.land base 0xffff)) (u8 (Z.land (Z.shiftr base 16) 0xff)) (u8 access)
    (u8 (Z.lor (Z.land (Z.shiftr limit 16) 0x0f) (Z.land flags 0xf0))) (u8 (Z.land (Z.shiftr base 24) 0xff)).

Definition gdt_template : gdt :=
  [ENTRY 0 0 0 0;
   ENTRY 0 0xfffff GDT_KERNEL_CODE (Z.lor GDT_FLAG_GRAN_4K GDT_FLAG_64BIT);
   ENTRY 0 0xfffff GDT_KERNEL_DATA GDT_FLAG_GRAN_4K;
   ENTRY 0 0xfffff GDT_USER_CODE (Z.lor GDT_FLAG_GRAN_4K GDT_FLAG_64BIT);
   ENTRY 0 0xfffff GDT_USER_DATA GDT_FLAG_GRAN_4K;
   ENTRY 0 0 0 0;
   ENTRY 0 0 0 0].

(** The eight bytes of a descriptor as one little-endian word, and back. *)
Definition desc_raw (d : gdt_descriptor) : Z :=
  limit_low d + 2 ^ 16 * (base_low d + 2 ^ 16 * (base_mid d + 2 ^ 8 * (access d + 2 ^ 8 * (limit_flags d + 2 ^ 8 * base_high d)))).
Definition raw_desc (w : Z) : gdt_descriptor :=
  mk_desc (u16 w) (u16 (w / 2 ^ 16)) (u8 (w / 2 ^ 32)) (u8 (w / 2 ^ 40)) (u8 (w / 2 ^ 48)) (u8 (w / 2 ^ 56)).

Definition gdt_desc_base (d : gdt_descriptor) : Z :=
  Z.lor (Z.lor (base_low d) (Z.shiftl (base_mid d) 16)) (Z.shiftl (base_high d) 24).
Definition gdt_desc_limit (d : gdt_descriptor) : Z :=
  Z.lor (limit_low d) (Z.shiftl (Z.land (limit_flags d) 0x0f) 16).
Definition gdt_desc_flags (d : gdt_descriptor) : Z := Z.land (limit_flags d) 0xf0.

Inductive entry_name := n_null | n_kcode | n_kdata | n_ucode | n_udata | n_tsslo | n_tsshi | n_unk.
Definition gdt_entry_name (index : Z) : entry_name :=
  default n_unk ([n_null; n_kcode; n_kdata; n_ucode; n_udata; n_tsslo; n_tsshi] !! Z.to_nat index).

(** What is logged, one constructor per format. *)
Inductive gdt_msg :=
| GdtrIs (cpu base limit : Z)
| DescIs (cpu index : Z) (name : entry_name) (raw base limit : Z) (p : bool) (dpl : Z) (s : bool) (type : Z) (l db g : bool)
| RawIs (cpu index : Z) (name : entry_name) (raw : Z)
| TssIs (cpu base limit iopb : Z)
| TssRsps (cpu rsp0 rsp1 rsp2 : Z)
| TssDesc (cpu rawlo rawhi : Z)
| Loaded (cpu : Z)
| TssLoaded (cpu rsp0 : Z)
| Rsp0Is (cpu rsp0 : Z).

(** The segmentation registers of the CPU that runs. *)
Record seg_regs := mk_regs { r_gdtr : gdtr; r_cs : Z; r_data : list Z; r_tr : Z; r_fs_base : Z }.

Record segs := mk_segs {
  cpu_gdt : list gdt; cpu_gdtr : list gdtr; cpu_tss : list tss; seg_log : list gdt_msg; sregs : seg_regs }.

Definition set_gdts (g : list gdt) (s : segs) : segs := mk_segs g (cpu_gdtr s) (cpu_tss s) (seg_log s) (sregs s).
Definition set_gdtrs (r : list gdtr) (s : segs) : segs := mk_segs (cpu_gdt s) r (cpu_tss s) (seg_log s) (sregs s).
Definition set_tsss (t : list tss) (s : segs) : segs := mk_segs (cpu_gdt s) (cpu_gdtr s) t (seg_log s) (sregs s).
Definition set_log (l : list gdt_msg) (s : segs) : segs := mk_segs (cpu_gdt s) (cpu_gdtr s) (cpu_tss s) l (sregs s).
Definition set_sregs (r : seg_regs) (s : segs) : segs := mk_segs (cpu_gdt s) (cpu_gdtr s) (cpu_tss s) (seg_log s) r.

Definition at_cpu {A} (i : Z) (l : list A) : outcome A := deref (l !! Z.to_nat i).

Definition klog_msg (m : gdt_msg) : ST segs unit := modify (fun s => set_log (seg_log s ++ [m]) s).
Definition ktrace (m : gdt_msg) : ST segs unit := if CONFIG_KLOG_TRACE then klog_msg m else mret tt.

(** ** What the processor does *)

Section Gdt.
Context (gdt_at tss_at : Z).

Definition gdt_addr (i : Z) : Z := gdt_at + sizeof_gdt * i.
Definition tss_addr (i : Z) : Z := tss_at + sizeof_tss * i.

(** The descriptor in memory at an address of [cpu_gdt]. *)
Definition read_desc (s : segs) (a : Z) : outcome gdt_descriptor :=
  let off := a - gdt_at in
  if off <? 0 then Fault else
  g ← at_cpu (off / sizeof_gdt) (cpu_gdt s);
  deref (g !! Z.to_nat (off mod sizeof_gdt / 8)).

(** [n] is the number of bytes of the descriptor. *)
Definition fetch (n sel : Z) : ST segs gdt_descriptor := fun s =>
  let r := r_gdtr (sregs s) in
  let off := sel / 8 * 8 in
  if gdtr_limit r <? off + n - 1 then Fault else d ← read_desc s (gdtr_base r + off); Ok (d, s).

Definition desc_dpl (d : gdt_descriptor) : Z := Z.land (Z.shiftr (access d) 5) 3.
Definition desc_present (d : gdt_descriptor) : bool := has_bits (access d) GDT_P.
(** A present segment of code or data. *)
Definition desc_user (d : gdt_descriptor) : bool := desc_present d && has_bits (access d) GDT_S.
Definition desc_is_code (d : gdt_descriptor) : bool := desc_user d && has_bits (access d) GDT_CODE.
Definition desc_long (d : gdt_descriptor) : bool := Z.land (gdt_desc_flags d) 0x60 =? 0x20.
Definition desc_writable (d : gdt_descriptor) : bool :=
  desc_user d && negb (has_bits (access d) GDT_CODE) && has_bits (access d) GDT_RW.
Definition desc_conforming (d : gdt_descriptor) : bool := has_bits (access d) 0x04.

Definition st_check (b : bool) : ST segs unit := if b then mret tt else st_fault.

Definition lgdt (r : gdtr) : ST segs unit :=
  modify (fun s => let q := sregs s in set_sregs (mk_regs r (r_cs q) (r_data q) (r_tr q) (r_fs_base q)) s).

(** The far return to [sel], at privilege 0. *)
Definition lretq (sel : Z) : ST segs unit :=
  d ← fetch 8 sel;
  st_check (desc_is_code d && negb (desc_conforming d) && desc_long d && (desc_dpl d =? 0) && (sel mod 4 =? 0)) ;;
  modify (fun s => let q := sregs s in set_sregs (mk_regs (r_gdtr q) sel (r_data q) (r_tr q) (r_fs_base q)) s).

(** [mov %ax] to [%ds], [%es], [%ss], [%fs] and [%gs]: the stack segment asks
    for writable data of privilege 0, which fits the others too; a load of
    [%fs] sets its base from the descriptor. *)
Definition load_data (sel : Z) : ST segs unit :=
  d ← fetch 8 sel;
  st_check (desc_writable d && (desc_dpl d =? 0) && (sel mod 4 =? 0)) ;;
  modify (fun s => let q := sregs s in
    set_sregs (mk_regs (r_gdtr q) (r_cs q) [sel; sel; sel; sel; sel] (r_tr q) (gdt_desc_base d)) s).

(** [ltr] asks for a free task state segment of 64 bits and marks it busy. *)
Definition ltr (sel : Z) : ST segs unit :=
  d ← fetch 16 sel;
  st_check (access d =? 0x89) ;;
  r ← gets (fun s => r_gdtr (sregs s));
  gs ← gets cpu_gdt;
  let off := gdtr_base r + sel / 8 * 8 - gdt_at in
  g ← st_lift (at_cpu (off / sizeof_gdt) gs);
  let busy := mk_desc (limit_low d) (base_low d) (base_mid d) 0x8b (limit_flags d) (base_high d) in
  modify (set_gdts (<[Z.to_nat (off / sizeof_gdt) := <[Z.to_nat (off mod sizeof_gdt / 8) := busy]> g]> gs)) ;;
  modify (fun s => let q := sregs s in set_sregs (mk_regs (r_gdtr q) (r_cs q) (r_data q) sel (r_fs_base q)) s).

(** ** The functions of the file *)

Definition gdt_dump_desc (cpu_index index : Z) : ST segs unit :=
  gs ← gets cpu_gdt;
  g ← st_lift (at_cpu cpu_index gs);
  d ← st_lift (deref (g !! Z.to_nat index));
  let flags := gdt_desc_flags d in
  ktrace (DescIs cpu_index index (gdt_entry_name index) (desc_raw d) (gdt_desc_base d) (gdt_desc_limit d)
    (has_bits (access d) 0x80) (Z.land (Z.shiftr (access d) 5) 0x3) (has_bits (access d) 0x10) (Z.land (access d) 0xf)
    (has_bits flags 0x20) (has_bits flags 0x40) (has_bits flags 0x80)).

Definition gdt_raw (cpu_index index : Z) : ST segs Z :=
  gs ← gets cpu_gdt;
  g ← st_lift (at_cpu cpu_index gs);
  d ← st_lift (deref (g !! Z.to_nat index));
  mret (desc_raw d).

Fixpoint dump_loop (n : nat) (cpu_index i : Z) : ST segs unit :=
  match n with
  | O => mret tt
  | S n =>
      (if i =? 6 then w ← gdt_raw cpu_index i; ktrace (RawIs cpu_index i (gdt_entry_name i) w)
       else gdt_dump_desc cpu_index i) ;;
      dump_loop n cpu_index (i + 1)
  end.
Definition gdt_dump_cpu (cpu_index : Z) : ST segs unit :=
  rs ← gets cpu_gdtr;
  r ← st_lift (at_cpu cpu_index rs);
  ktrace (GdtrIs cpu_index (gdtr_base r) (gdtr_limit r)) ;;
  dump_loop 7 cpu_index 0.

Definition gdt_dump_tss (cpu_index : Z) : ST segs unit :=
  ts ← gets cpu_tss;
  t ← st_lift (at_cpu cpu_index ts);
  ktrace (TssIs cpu_index (tss_addr cpu_index) (sizeof_tss - 1) (iopb t)) ;;
  rsp0 ← st_lift (deref (rsp t !! 0%nat));
  rsp1 ← st_lift (deref (rsp t !! 1%nat));
  rsp2 ← st_lift (deref (rsp t !! 2%nat));
  ktrace (TssRsps cpu_index rsp0 rsp1 rsp2) ;;
  lo ← gdt_raw cpu_index 5;
  hi ← gdt_raw cpu_index 6;
  ktrace (TssDesc cpu_index lo hi).

Definition clamp (cpu_index : Z) : Z := if MAX_CPUS <=? cpu_index then 0 else cpu_index.

Definition tss_low (base limit : Z) : Z :=
  let low := Z.lor 0 (Z.land limit 0xffff) in
  let low := Z.lor low (u64 (Z.shiftl (Z.land base 0xffff) 16)) in
  let low := Z.lor low (u64 (Z.shiftl (Z.land (Z.shiftr base 16) 0xff) 32)) in
  let low := Z.lor low (Z.shiftl 0x89 40) in
  let low := Z.lor low (u64 (Z.shiftl (Z.land (Z.shiftr limit 16) 0x0f) 48)) in
  Z.lor low (u64 (Z.shiftl (Z.land (Z.shiftr base 24) 0xff) 56)).
Definition gdt_set_tss_descriptor (cpu_index tss : Z) : ST segs unit :=
  let cpu_index := clamp cpu_index in
  let limit := sizeof_tss - 1 in
  gs ← gets cpu_gdt;
  g ← st_lift (at_cpu cpu_index gs);
  modify (set_gdts (<[Z.to_nat cpu_index :=
    <[6%nat := raw_desc (Z.shiftr tss 32)]> (<[5%nat := raw_desc (tss_low tss limit)]> g)]> gs)).

Definition gdt_init_cpu (cpu_index : Z) : ST segs unit :=
  let cpu_index := clamp cpu_index in
  gs ← gets cpu_gdt;
  modify (set_gdts (<[Z.to_nat cpu_index := gdt_template]> gs)) ;;
  rs ← gets cpu_gdtr;
  let r := mk_gdtr (sizeof_gdt - 1) (gdt_addr cpu_index) in
  modify (set_gdtrs (<[Z.to_nat cpu_index := r]> rs)) ;;
  gdt_dump_cpu cpu_index ;;
  rs ← gets cpu_gdtr;
  r ← st_lift (at_cpu cpu_index rs);
  lgdt r ;;
  lretq 0x08 ;;
  load_data 0x10 ;;
  klog_msg (Loaded cpu_index).
Definition gdt_init : ST segs unit := gdt_init_cpu 0.

Definition zero_tss : tss := mk_tss 0 [0; 0; 0] 0 [0; 0; 0; 0; 0; 0; 0] 0 0 0.
Definition set_rsp0 (v : Z) (t : tss) : tss :=
  mk_tss (tss_reserved0 t) (<[0%nat := v]> (rsp t)) (tss_reserved1 t) (tss_ist t) (tss_reserved2 t) (tss_reserved3 t) (iopb t).
Definition set_iopb (v : Z) (t : tss) : tss :=
  mk_tss (tss_reserved0 t) (rsp t) (tss_reserved1 t) (tss_ist t) (tss_reserved2 t) (tss_reserved3 t) (u16 v).

Definition gdt_tss_init_cpu (cpu_index rsp0 : Z) : ST segs unit :=
  let cpu_index := clamp cpu_index in
  ts ← gets cpu_tss;
  modify (set_tsss (<[Z.to_nat cpu_index := set_iopb sizeof_tss (set_rsp0 rsp0 zero_tss)]> ts)) ;;
  gdt_set_tss_descriptor cpu_index (tss_addr cpu_index) ;;
  gdt_dump_tss cpu_index ;;
  ltr 0x28 ;;
  klog_msg (TssLoaded cpu_index rsp0).
Definition gdt_tss_init (rsp0 : Z) : ST segs unit := gdt_tss_init_cpu 0 rsp0.

Definition gdt_set_kernel_stack (rsp0 : Z) : ST segs unit :=
  let index := clamp 0 in
  ts ← gets cpu_tss;
  t ← st_lift (at_cpu index ts);
  modify (set_tsss (<[Z.to_nat index := set_rsp0 rsp0 t]> ts)) ;;
  ktrace (Rsp0Is index rsp0).

End Gdt.
