(* ===== verification/GdtSpec.v ===== *)
(** Segment tables, [Gdt.v]: what the descriptors mean to the processor, and
    that the tables and the loaded selectors agree.

    [seg_of] decodes a selector as the processor manual does. [typed_table]: the
    four flat segments at the privilege of their selectors, the kernel's code of
    64 bits, and a task slot that is empty or describes the CPU's own segment.
    [gdt_typed_spec]: whatever the calls, in any order and from any CPU, each
    table is untouched or typed; then loading it cannot fault. *)
From S2P Require Import Prelude Klog Gdt.

Inductive segment :=
| Unusable
| CodeSeg (dpl base last : Z) (long : bool)
| DataSeg (dpl base last : Z) (writable : bool)
| TaskSeg (busy : bool) (base last : Z).

(** The last offset: the limit counts pages when the flag says so. *)
Definition desc_last (d : gdt_descriptor) : Z :=
  if has_bits (gdt_desc_flags d) GDT_FLAG_GRAN_4K then gdt_desc_limit d * 4096 + 4095 else gdt_desc_limit d.

Definition seg_of (g : gdt) (sel : Z) : segment :=
  match g !! Z.to_nat (sel / 8) with
  | None => Unusable
  | Some d =>
      if negb (desc_present d) then Unusable
      else if desc_user d then
        if desc_is_code d then CodeSeg (desc_dpl d) (gdt_desc_base d) (desc_last d) (desc_long d)
        else DataSeg (desc_dpl d) (gdt_desc_base d) (desc_last d) (desc_writable d)
      else match g !! S (Z.to_nat (sel / 8)) with
           | Some d' =>
               if Z.land (access d) 0x0d =? 9
               then TaskSeg (has_bits (access d) 2) (gdt_desc_base d + desc_raw d' mod 2 ^ 32 * 2 ^ 32) (desc_last d)
               else Unusable
           | None => Unusable
           end
  end.

Definition flat : Z := 2 ^ 32 - 1.

Section Spec.
Context (gdt_at tss_at : Z).
Context (tss_fits : 0 <= tss_at /\ tss_at + sizeof_tss * MAX_CPUS <= 2 ^ 64).

(** The low two bits of a selector are its privilege. *)
Definition typed_table (k : Z) (g : gdt) : Prop :=
  seg_of g 0 = Unusable /\
  seg_of g GDT_KERNEL_CODE_SELECTOR = CodeSeg (GDT_KERNEL_CODE_SELECTOR mod 4) 0 flat true /\
  seg_of g GDT_KERNEL_DATA_SELECTOR = DataSeg (GDT_KERNEL_DATA_SELECTOR mod 4) 0 flat true /\
  seg_of g GDT_USER_CODE_SELECTOR = CodeSeg (GDT_USER_CODE_SELECTOR mod 4) 0 flat true /\
  seg_of g GDT_USER_DATA_SELECTOR = DataSeg (GDT_USER_DATA_SELECTOR mod 4) 0 flat true /\
  (seg_of g GDT_TSS_SELECTOR = Unusable \/
   exists busy, seg_of g GDT_TSS_SELECTOR = TaskSeg busy (tss_addr tss_at k) (sizeof_tss - 1)).

Definition null_gdt : gdt := repeat (ENTRY 0 0 0 0) 7.

Definition task_desc (a : Z) (busy : bool) : gdt_descriptor :=
  mk_desc 103 (a mod 2 ^ 16) (a / 2 ^ 16 mod 2 ^ 8) (if busy then 0x8b else 0x89) 0 (a / 2 ^ 24 mod 2 ^ 8).
Definition high_desc (a : Z) : gdt_descriptor := raw_desc (a / 2 ^ 32).
Definition task_table (a : Z) (busy : bool) (g : gdt) : gdt := <[6%nat := high_desc a]> (<[5%nat := task_desc a busy]> g).

(** What a table is, once written. *)
Inductive table_is (k : Z) : gdt -> Prop :=
| is_null : table_is k null_gdt
| is_null_task b : table_is k (task_table (tss_addr tss_at k) b null_gdt)
| is_template : table_is k gdt_template
| is_task b : table_is k (task_table (tss_addr tss_at k) b gdt_template).

(** ** The words of the task slot *)

#[local] Ltac pow := change (2 ^ 8) with 256 in *; change (2 ^ 16) with 65536 in *; change (2 ^ 24) with 16777216 in *;
  change (2 ^ 32) with 4294967296 in *; change (2 ^ 40) with 1099511627776 in *; change (2 ^ 48) with 281474976710656 in *;
  change (2 ^ 56) with 72057594037927936 in *; change (2 ^ 64) with 18446744073709551616 in *.
#[local] Ltac dlia := pow; Z.to_euclidean_division_equations; lia.

Lemma lor_shift x y n : 0 <= n -> 0 <= x < 2 ^ n -> Z.lor x (Z.shiftl y n) = x + y * 2 ^ n.
Proof.
  intros Hn Hx.
  assert (Hd : Z.land x (Z.shiftl y n) = 0).
  { apply Z.bits_inj'. intros i Hi. rewrite Z.land_spec, Z.bits_0. destruct (Z.lt_ge_cases i n).
    - rewrite (Z.shiftl_spec_low y n i) by lia. apply andb_false_r.
    - rewrite <- (Z.mod_small x (2 ^ n)) by lia. rewrite Z.mod_pow2_bits_high by lia. done. }
  rewrite <- Z.shiftl_mul_pow2, <- Z.lxor_lor, Z.add_nocarry_lxor by done. done.
Qed.


Lemma tss_low_eq a : tss_low a (sizeof_tss - 1) =
  103 + a mod 2 ^ 16 * 2 ^ 16 + a / 2 ^ 16 mod 2 ^ 8 * 2 ^ 32 + 0x89 * 2 ^ 40 + 0 * 2 ^ 48 + a / 2 ^ 24 mod 2 ^ 8 * 2 ^ 56.
Proof.
  unfold tss_low, sizeof_tss. change 0xffff with (Z.ones 16). change 0xff with (Z.ones 8).
  rewrite !Z.land_ones, !Z.shiftr_div_pow2 by lia.
  change (Z.lor 0 _) with 103. change (Z.land (_ / 2 ^ 16) _) with 0. rewrite Z.shiftl_0_l. change (u64 0) with (Z.shiftl 0 48).
  pose proof (Z.mod_pos_bound a (2 ^ 16)). pose proof (Z.mod_pos_bound (a / 2 ^ 16) (2 ^ 8)).
  pose proof (Z.mod_pos_bound (a / 2 ^ 24) (2 ^ 8)).
  repeat match goal with |- context [u64 (Z.shiftl ?x ?n)] => rewrite (u64_small (Z.shiftl x n)) by (rewrite Z.shiftl_mul_pow2; lia) end.
  rewrite (lor_shift _ _ 16), (lor_shift _ _ 32), (lor_shift _ _ 40), (lor_shift _ _ 48), (lor_shift _ _ 56) by lia. done.
Qed.

Lemma tss_low_desc a : raw_desc (tss_low a (sizeof_tss - 1)) = task_desc a false.
Proof.
  rewrite tss_low_eq. unfold raw_desc, task_desc, u16, u8.
  assert (0 <= a mod 2 ^ 16 < 2 ^ 16) by (apply Z.mod_pos_bound; lia). assert (0 <= a / 2 ^ 16 mod 2 ^ 8 < 2 ^ 8) by (apply Z.mod_pos_bound; lia).
  assert (0 <= a / 2 ^ 24 mod 2 ^ 8 < 2 ^ 8) by (apply Z.mod_pos_bound; lia).
  set (x := a mod 2 ^ 16) in *. set (y := a / 2 ^ 16 mod 2 ^ 8) in *. set (z := a / 2 ^ 24 mod 2 ^ 8) in *.
  clearbody x y z. change (if false then 0x8b else 0x89) with 0x89. f_equal; dlia.
Qed.

(** ** Decoding *)

Lemma high_desc_raw a : 0 <= a < 2 ^ 64 -> desc_raw (high_desc a) mod 2 ^ 32 = a / 2 ^ 32 /\ access (high_desc a) = 0.
Proof. intros Ha. unfold high_desc, raw_desc, desc_raw, u16, u8. cbn [limit_low base_low base_mid access limit_flags base_high]. split; dlia. Qed.

Lemma task_desc_base a b : 0 <= a < 2 ^ 64 -> gdt_desc_base (task_desc a b) + a / 2 ^ 32 * 2 ^ 32 = a.
Proof.
  intros Ha. unfold gdt_desc_base, task_desc. cbn [base_low base_mid base_high].
  rewrite (lor_shift _ _ 16), (lor_shift _ _ 24) by dlia. dlia.
Qed.

Lemma seg_task a b g : length g = 7%nat -> 0 <= a < 2 ^ 64 ->
  seg_of (task_table a b g) GDT_TSS_SELECTOR = TaskSeg b a (sizeof_tss - 1).
Proof.
  intros Hl Ha. unfold seg_of, task_table. change (Z.to_nat (GDT_TSS_SELECTOR / 8)) with 5%nat.
  rewrite list_lookup_insert_ne, list_lookup_insert_eq by (rewrite ?length_insert; lia).
  rewrite list_lookup_insert_eq by (rewrite length_insert; lia).
  assert (Hb : desc_present (task_desc a b) = true /\ desc_user (task_desc a b) = false /\
    Z.land (access (task_desc a b)) 0x0d = 9 /\ has_bits (access (task_desc a b)) 2 = b /\ desc_last (task_desc a b) = 103)
    by (destruct b; done).
  destruct Hb as (-> & -> & -> & -> & ->). cbn [negb].
  destruct (high_desc_raw a Ha) as [-> _]. rewrite task_desc_base by done. done.
Qed.

Definition unused_table (g : gdt) : Prop :=
  seg_of g 0 = Unusable /\ seg_of g GDT_KERNEL_CODE_SELECTOR = Unusable /\ seg_of g GDT_KERNEL_DATA_SELECTOR = Unusable /\
  seg_of g GDT_USER_CODE_SELECTOR = Unusable /\ seg_of g GDT_USER_DATA_SELECTOR = Unusable.

Lemma table_typed k g : 0 <= k < MAX_CPUS -> table_is k g ->
  unused_table g \/ typed_table k g.
Proof.
  intros Hk Hg.
  assert (Ha : 0 <= tss_addr tss_at k < 2 ^ 64) by (unfold tss_addr, sizeof_tss, MAX_CPUS in *; lia).
  inversion Hg; subst g; [by left|by left|right..].
  - repeat split; try done. by left.
  - repeat split; try done. right. exists b. by apply seg_task.
Qed.

(** ** The state *)

Record tables_ok (s : segs) : Prop := {
  ok_gdts : length (cpu_gdt s) = 256%nat;
  ok_gdtrs : length (cpu_gdtr s) = 256%nat;
  ok_tsss : length (cpu_tss s) = 256%nat;
  ok_tables : forall n g, cpu_gdt s !! n = Some g -> table_is (Z.of_nat n) g }.

Lemma clamp_range i : is_u32 i -> 0 <= clamp i < MAX_CPUS.
Proof. unfold clamp, is_u32, MAX_CPUS. intros ?. destruct (Z.leb_spec 256 i); lia. Qed.

Lemma clamp_id k : 0 <= k < MAX_CPUS -> clamp k = k.
Proof. intros Hk. unfold clamp. by rewrite (proj2 (Z.leb_gt _ _)) by lia. Qed.

Lemma at_cpu_ok {A} k (l : list A) : length l = 256%nat -> 0 <= k < MAX_CPUS -> exists x, at_cpu k l = Ok x /\ l !! Z.to_nat k = Some x.
Proof.
  unfold MAX_CPUS. intros Hl Hk. destruct (lookup_lt_is_Some_2 l (Z.to_nat k)) as [x Hx]; [lia|].
  exists x. unfold at_cpu. by rewrite Hx.
Qed.

Lemma at_cpu_insert {A} k (l : list A) x : length l = 256%nat -> 0 <= k < MAX_CPUS -> at_cpu k (<[Z.to_nat k := x]> l) = Ok x.
Proof. unfold MAX_CPUS. intros Hl Hk. unfold at_cpu. by rewrite list_lookup_insert_eq by lia. Qed.

Lemma table_length k g : table_is k g -> length g = 7%nat.
Proof. by inversion 1. Qed.

Lemma write_gdt s k g : tables_ok s -> 0 <= k -> table_is k g -> tables_ok (set_gdts (<[Z.to_nat k := g]> (cpu_gdt s)) s).
Proof.
  intros [H1 H2 H3 H4] Hk Hg. split; cbn; [by rewrite length_insert|done|done|].
  intros n g' [(<- & -> & _)|(_ & Hn)]%list_lookup_insert_Some; [by rewrite Z2Nat.id by lia|by apply H4].
Qed.

Lemma same_tables s s' : tables_ok s -> cpu_gdt s' = cpu_gdt s -> length (cpu_gdtr s') = length (cpu_gdtr s) ->
  length (cpu_tss s') = length (cpu_tss s) -> tables_ok s'.
Proof. intros [H1 H2 H3 H4] E1 E2 E3. split; rewrite ?E1, ?E2, ?E3; done. Qed.

(** ** Dumps *)

Lemma gdt_raw_ok s k g i : cpu_gdt s !! Z.to_nat k = Some g -> 0 <= i < Z.of_nat (length g) ->
  exists w, gdt_raw k i s = Ok (w, s).
Proof.
  intros Hg Hi. destruct (lookup_lt_is_Some_2 g (Z.to_nat i)) as [d Hd]; [lia|]. exists (desc_raw d).
  unfold gdt_raw, at_cpu. rewrite gets_bind, Hg, (lift_bind _ _ _ g), Hd, (lift_bind _ _ _ d) by done. done.
Qed.

Lemma dump_loop_ok s k g : cpu_gdt s !! Z.to_nat k = Some g -> forall n i, 0 <= i -> i + Z.of_nat n <= Z.of_nat (length g) ->
  dump_loop n k i s = Ok (tt, s).
Proof.
  intros Hg. induction n as [|n IH]; intros i Hi Hn; [done|]. cbn [dump_loop].
  assert (Hs : (if i =? 6 then w ← gdt_raw k i; ktrace (RawIs k i (gdt_entry_name i) w) else gdt_dump_desc k i) s = Ok (tt, s)).
  { destruct (i =? 6).
    - destruct (gdt_raw_ok s k g i Hg) as [w Hw]; [lia|]. by rewrite (st_bind_ok _ _ _ _ _ Hw).
    - unfold gdt_dump_desc, at_cpu. destruct (lookup_lt_is_Some_2 g (Z.to_nat i)) as [d Hd]; [lia|].
      rewrite gets_bind, Hg, (lift_bind _ _ _ g), Hd, (lift_bind _ _ _ d) by done. done. }
  rewrite (st_bind_ok _ _ _ _ _ Hs). apply IH; lia.
Qed.

Lemma gdt_dump_cpu_ok s k : tables_ok s -> 0 <= k < MAX_CPUS -> gdt_dump_cpu k s = Ok (tt, s).
Proof.
  intros [H1 H2 H3 H4] Hk. unfold gdt_dump_cpu. rewrite gets_bind.
  destruct (at_cpu_ok k (cpu_gdtr s) H2 Hk) as (r & Hr & _). rewrite (lift_bind _ _ _ _ Hr).
  destruct (at_cpu_ok k (cpu_gdt s) H1 Hk) as (g & _ & Hg). apply (dump_loop_ok s k g Hg); [lia|].
  rewrite (table_length _ _ (H4 _ _ Hg)). lia.
Qed.

Lemma gdt_dump_tss_ok s k t : tables_ok s -> 0 <= k < MAX_CPUS -> cpu_tss s !! Z.to_nat k = Some t -> length (rsp t) = 3%nat ->
  gdt_dump_tss tss_at k s = Ok (tt, s).
Proof.
  intros [H1 H2 H3 H4] Hk Ht Hl. unfold gdt_dump_tss, at_cpu. rewrite gets_bind, Ht, (lift_bind _ _ _ t) by done.
  destruct (at_cpu_ok k (cpu_gdt s) H1 Hk) as (g & _ & Hg). pose proof (table_length _ _ (H4 _ _ Hg)) as Hg7.
  destruct (rsp t) as [|x [|y [|z [|]]]]; try done.
  destruct (gdt_raw_ok s k g 5 Hg) as [lo Hlo]; [lia|]. destruct (gdt_raw_ok s k g 6 Hg) as [hi Hhi]; [lia|].
  change (ktrace _ s) with (Ok (tt, s)). cbn -[gdt_raw]. unfold mbind, st_bind. cbn -[gdt_raw].
  rewrite Hlo. cbn -[gdt_raw]. rewrite Hhi. done.
Qed.

(** ** Loading the tables *)

Definition own_gdtr (k : Z) : gdtr := mk_gdtr (sizeof_gdt - 1) (gdt_addr gdt_at k).

(** The CPU runs on table [k]. *)
Definition uses (k : Z) (s : segs) : Prop :=
  r_gdtr (sregs s) = own_gdtr k /\ exists g, cpu_gdt s !! Z.to_nat k = Some g /\
  r_cs (sregs s) = GDT_KERNEL_CODE_SELECTOR /\ seg_of g GDT_KERNEL_CODE_SELECTOR = CodeSeg 0 0 flat true /\
  r_data (sregs s) = repeat GDT_KERNEL_DATA_SELECTOR 5 /\ seg_of g GDT_KERNEL_DATA_SELECTOR = DataSeg 0 0 flat true.

Lemma own_offset k x : 0 <= k -> 0 <= x < sizeof_gdt ->
  (gdt_addr gdt_at k + x - gdt_at <? 0) = false /\ (gdt_addr gdt_at k + x - gdt_at) / sizeof_gdt = k /\
  (gdt_addr gdt_at k + x - gdt_at) mod sizeof_gdt = x.
Proof.
  unfold gdt_addr, sizeof_gdt. intros Hk Hx. replace (gdt_at + 56 * k + x - gdt_at) with (k * 56 + x) by lia. repeat split.
  - lia.
  - rewrite Z.div_add_l, Z.div_small by lia. lia.
  - rewrite Z.add_comm, Z.mod_add, Z.mod_small by lia. done.
Qed.

Lemma fetch_own n sel k g d s : r_gdtr (sregs s) = own_gdtr k -> 0 <= k -> cpu_gdt s !! Z.to_nat k = Some g ->
  8 <= n <= 16 -> 0 <= sel / 8 * 8 -> sel / 8 * 8 + n <= sizeof_gdt -> g !! Z.to_nat (sel / 8) = Some d ->
  fetch gdt_at n sel s = Ok (d, s).
Proof.
  intros Hr Hk Hg Hn H0 H1 Hd. unfold fetch. rewrite Hr. unfold own_gdtr. cbn [gdtr_limit gdtr_base].
  rewrite (proj2 (Z.ltb_ge _ _)) by lia. unfold read_desc.
  destruct (own_offset k (sel / 8 * 8)) as (-> & -> & ->); [done|lia|]. rewrite Z.div_mul by done.
  unfold at_cpu. rewrite Hg. cbn. rewrite Hd. done.
Qed.

Definition init_regs (k : Z) (q : seg_regs) : seg_regs :=
  mk_regs (own_gdtr k) GDT_KERNEL_CODE_SELECTOR (repeat GDT_KERNEL_DATA_SELECTOR 5) (r_tr q) 0.
Definition init_result (k : Z) (s : segs) : segs :=
  mk_segs (<[Z.to_nat k := gdt_template]> (cpu_gdt s)) (<[Z.to_nat k := own_gdtr k]> (cpu_gdtr s)) (cpu_tss s)
    (seg_log s ++ [Loaded k]) (init_regs k (sregs s)).

Lemma load_segments s k : r_gdtr (sregs s) = own_gdtr k -> 0 <= k -> cpu_gdt s !! Z.to_nat k = Some gdt_template ->
  (lretq gdt_at 0x08 ;; load_data gdt_at 0x10) s = Ok (tt, set_sregs (init_regs k (sregs s)) s).
Proof.
  intros Hr Hk Hg. unfold lretq, load_data. rewrite bind_assoc.
  pose proof (fetch_own 8 0x08 k gdt_template _ s Hr Hk Hg ltac:(lia) ltac:(done) ltac:(done) eq_refl) as Hc.
  rewrite (st_bind_ok _ _ _ _ _ Hc), bind_assoc.
  rewrite (st_bind_ok (st_check _) _ s tt s) by done. rewrite modify_bind.
  erewrite (st_bind_ok (fetch _ _ _)) by (eapply (fetch_own 8 0x10 k gdt_template); [exact Hr|done|exact Hg|lia|done|done|reflexivity]).
  rewrite (st_bind_ok (st_check _) _ _ tt _) by reflexivity.
  unfold modify, init_regs, set_sregs. cbn. rewrite <- Hr. done.
Qed.

Lemma gdt_init_cpu_ok s i : tables_ok s -> is_u32 i -> gdt_init_cpu gdt_at i s = Ok (tt, init_result (clamp i) s).
Proof.
  intros Hok Hi. pose proof (clamp_range i Hi) as Hk. unfold gdt_init_cpu. set (k := clamp i) in *. clearbody k.
  rewrite gets_bind, modify_bind, gets_bind, modify_bind.
  set (s1 := set_gdtrs _ _). assert (Hok1 : tables_ok s1).
  { eapply same_tables; [apply (write_gdt s k gdt_template Hok); [lia|constructor]|done| |done]. cbn. by rewrite length_insert. }
  rewrite (st_bind_ok _ _ _ _ _ (gdt_dump_cpu_ok s1 k Hok1 Hk)), gets_bind.
  rewrite (lift_bind _ _ _ (own_gdtr k)) by (apply at_cpu_insert; [apply Hok|done]).
  unfold lgdt. rewrite modify_bind, <- then_assoc.
  erewrite st_bind_ok; [|apply (load_segments _ k); [done|lia|]]; [done|].
  cbn. apply list_lookup_insert_eq. rewrite (ok_gdts s Hok). unfold MAX_CPUS in Hk. lia.
Qed.

Lemma init_result_ok s i : tables_ok s -> is_u32 i -> tables_ok (init_result (clamp i) s) /\ uses (clamp i) (init_result (clamp i) s).
Proof.
  intros Hok Hi. pose proof (clamp_range i Hi) as Hk. split.
  - eapply same_tables; [apply (write_gdt s (clamp i) gdt_template Hok); [lia|constructor]|done| |done]. cbn. by rewrite length_insert.
  - split; [done|]. exists gdt_template. split; [|done]. cbn. apply list_lookup_insert_eq. rewrite (ok_gdts s Hok). unfold MAX_CPUS in Hk. lia.
Qed.

(** ** The task state segment *)

Lemma table_task k g : table_is k g -> table_is k (task_table (tss_addr tss_at k) false g).
Proof. inversion 1; [apply is_null_task|apply (is_null_task _ false)|apply is_task|apply (is_task _ false)]. Qed.

Lemma gdt_set_tss_descriptor_ok s k : tables_ok s -> 0 <= k < MAX_CPUS ->
  exists g, cpu_gdt s !! Z.to_nat k = Some g /\ table_is k g /\
  gdt_set_tss_descriptor k (tss_addr tss_at k) s =
  Ok (tt, set_gdts (<[Z.to_nat k := task_table (tss_addr tss_at k) false g]> (cpu_gdt s)) s).
Proof.
  intros Hok Hk. destruct (at_cpu_ok k (cpu_gdt s) (ok_gdts s Hok) Hk) as (g & Hg & Hl). exists g. split; [done|].
  split. { pose proof (ok_tables s Hok _ _ Hl) as Ht. by rewrite Z2Nat.id in Ht by lia. }
  unfold gdt_set_tss_descriptor. rewrite (clamp_id k Hk), gets_bind, (lift_bind _ _ _ _ Hg), tss_low_desc, Z.shiftr_div_pow2 by lia. done.
Qed.

Definition task_regs (q : seg_regs) : seg_regs := mk_regs (r_gdtr q) (r_cs q) (r_data q) GDT_TSS_SELECTOR (r_fs_base q).

Lemma ltr_ok s k g : r_gdtr (sregs s) = own_gdtr k -> 0 <= k ->
  cpu_gdt s !! Z.to_nat k = Some (task_table (tss_addr tss_at k) false g) -> length g = 7%nat ->
  ltr gdt_at 0x28 s = Ok (tt, set_sregs (task_regs (sregs s))
    (set_gdts (<[Z.to_nat k := task_table (tss_addr tss_at k) true g]> (cpu_gdt s)) s)).
Proof.
  intros Hr Hk Hg Hl. unfold ltr. set (a := tss_addr tss_at k) in *.
  assert (Hd : task_table a false g !! 5%nat = Some (task_desc a false)).
  { unfold task_table. rewrite list_lookup_insert_ne, list_lookup_insert_eq by (rewrite ?length_insert; lia). done. }
  assert (Hf : fetch gdt_at 16 0x28 s = Ok (task_desc a false, s))
    by (eapply (fetch_own 16 0x28 k (task_table a false g)); [done|done|done|lia|done|done|done]).
  rewrite (st_bind_ok _ _ _ _ _ Hf), (st_bind_ok (st_check _) _ s tt s), !gets_bind by done.
  rewrite Hr. unfold own_gdtr. cbn [gdtr_base]. change (0x28 / 8 * 8) with 40.
  destruct (own_offset k 40) as (_ & -> & ->); [done|done|].
  rewrite (lift_bind _ _ _ (task_table a false g)) by (unfold at_cpu; by rewrite Hg).
  rewrite modify_bind. unfold modify. change (Z.to_nat (40 / 8)) with 5%nat.
  assert (Hb : <[5%nat := mk_desc (limit_low (task_desc a false)) (base_low (task_desc a false)) (base_mid (task_desc a false)) 0x8b
    (limit_flags (task_desc a false)) (base_high (task_desc a false))]> (task_table a false g) = task_table a true g).
  { destruct g as [|? [|? [|? [|? [|? [|? [|? [|]]]]]]]]; try done. }
  rewrite Hb. unfold set_sregs, task_regs, set_gdts. cbn. rewrite Hr. done.
Qed.

Definition tss_result (k v : Z) (busy : bool) (g : gdt) (s : segs) : segs :=
  mk_segs (<[Z.to_nat k := task_table (tss_addr tss_at k) busy g]> (cpu_gdt s)) (cpu_gdtr s)
    (<[Z.to_nat k := mk_tss 0 [v; 0; 0] 0 [0; 0; 0; 0; 0; 0; 0] 0 0 sizeof_tss]> (cpu_tss s)) (seg_log s) (sregs s).

(** Up to the load of the task register. *)
Lemma gdt_tss_writes s i v : tables_ok s -> is_u32 i -> exists g, cpu_gdt s !! Z.to_nat (clamp i) = Some g /\ table_is (clamp i) g /\
  tables_ok (tss_result (clamp i) v false g s) /\
  gdt_tss_init_cpu gdt_at tss_at i v s = (ltr gdt_at 0x28 ;; klog_msg (TssLoaded (clamp i) v)) (tss_result (clamp i) v false g s).
Proof.
  intros Hok Hi. pose proof (clamp_range i Hi) as Hk. unfold gdt_tss_init_cpu. set (k := clamp i) in *. clearbody k.
  rewrite gets_bind, modify_bind. set (s1 := set_tsss _ s).
  assert (Hok1 : tables_ok s1) by (eapply same_tables; [exact Hok|done|done|cbn; by rewrite length_insert]).
  destruct (gdt_set_tss_descriptor_ok s1 k Hok1 Hk) as (g & Hg & Ht & He). exists g. split; [done|]. split; [done|].
  assert (Hok2 : tables_ok (tss_result k v false g s)).
  { eapply same_tables; [apply (write_gdt s1 k (task_table (tss_addr tss_at k) false g) Hok1); [lia|apply table_task, Ht]|done|done|done]. }
  split; [done|]. rewrite (st_bind_ok _ _ _ _ _ He).
  change (set_gdts _ s1) with (tss_result k v false g s).
  assert (Hd : gdt_dump_tss tss_at k (tss_result k v false g s) = Ok (tt, tss_result k v false g s)).
  { eapply gdt_dump_tss_ok; [done|done|cbn; apply list_lookup_insert_eq|done].
    rewrite (ok_tsss s Hok). unfold MAX_CPUS in Hk. lia. }
  by rewrite (st_bind_ok _ _ _ _ _ Hd).
Qed.

Lemma gdt_tss_init_cpu_ok s i v : tables_ok s -> is_u32 i -> uses (clamp i) s ->
  exists g, cpu_gdt s !! Z.to_nat (clamp i) = Some g /\ table_is (clamp i) g /\
  gdt_tss_init_cpu gdt_at tss_at i v s =
  Ok (tt, set_log (seg_log s ++ [TssLoaded (clamp i) v]) (set_sregs (task_regs (sregs s)) (tss_result (clamp i) v true g s))).
Proof.
  intros Hok Hi [Hr _]. pose proof (clamp_range i Hi) as Hk.
  destruct (gdt_tss_writes s i v Hok Hi) as (g & Hg & Ht & Hok' & ->). exists g. split; [done|]. split; [done|].
  set (k := clamp i) in *. clearbody k.
  assert (Hl : ltr gdt_at 0x28 (tss_result k v false g s) = Ok (tt, set_sregs (task_regs (sregs s)) (tss_result k v true g s))).
  { rewrite (ltr_ok _ k g); [|exact Hr|lia| |by apply (table_length k)].
    - unfold set_gdts, set_sregs, tss_result. cbn. by rewrite list_insert_insert_eq.
    - cbn. apply list_lookup_insert_eq. rewrite (ok_gdts s Hok). unfold MAX_CPUS in Hk. lia. }
  by rewrite (st_bind_ok _ _ _ _ _ Hl).
Qed.

(** A free task segment is the slot of a table that has one. *)
Lemma free_slot k g j d : table_is k g -> 0 <= k < MAX_CPUS -> g !! j = Some d -> access d = 0x89 ->
  j = 5%nat /\ table_is k (<[5%nat := mk_desc (limit_low d) (base_low d) (base_mid d) 0x8b (limit_flags d) (base_high d)]> g).
Proof.
  intros Ht Hk Hd Ha.
  assert (Hh : access (high_desc (tss_addr tss_at k)) = 0).
  { apply high_desc_raw. unfold tss_addr, sizeof_tss, MAX_CPUS in *. lia. }
  inversion Ht; subst g; destruct j as [|[|[|[|[|[|[|j]]]]]]]; cbn in Hd; try discriminate Hd; injection Hd as <-;
    try discriminate Ha; try (rewrite Hh in Ha; discriminate Ha).
  all: destruct b; [discriminate Ha|]; split; [done|].
  - apply (is_null_task k true).
  - apply (is_task k true).
Qed.

Lemma fetch_inv n sel s d s' : fetch gdt_at n sel s = Ok (d, s') -> s' = s /\
  exists off g, off = gdtr_base (r_gdtr (sregs s)) + sel / 8 * 8 - gdt_at /\ 0 <= off /\
    cpu_gdt s !! Z.to_nat (off / sizeof_gdt) = Some g /\ g !! Z.to_nat (off mod sizeof_gdt / 8) = Some d.
Proof.
  unfold fetch, read_desc. case_match; [done|]. destruct (Z.ltb_spec (gdtr_base (r_gdtr (sregs s)) + sel / 8 * 8 - gdt_at) 0) as [|Ho]; [done|].
  unfold at_cpu. destruct (cpu_gdt s !! _) as [g|] eqn:Hg; [|done]. cbn.
  destruct (g !! _) as [d'|] eqn:Hd; [|done]. cbn. intros [= <- <-]. split; [done|].
  exists (gdtr_base (r_gdtr (sregs s)) + sel / 8 * 8 - gdt_at), g. done.
Qed.

Lemma ltr_tables s s' : tables_ok s -> ltr gdt_at 0x28 s = Ok (tt, s') -> tables_ok s'.
Proof.
  intros Hok (d & s1 & Hf & H)%st_bind_inv. apply fetch_inv in Hf as (-> & off & g & Ho & H0 & Hg & Hd).
  apply st_bind_inv in H as ([] & s2 & Hc & H). unfold st_check in Hc. destruct (Z.eqb_spec (access d) 0x89) as [Ha|]; [|done].
  apply st_ret_inv in Hc as [_ ->]. rewrite !gets_bind, <- Ho in H.
  rewrite (lift_bind _ _ _ g) in H by (unfold at_cpu; by rewrite Hg). rewrite modify_bind in H. injection H as <-.
  assert (Hq : 0 <= off / sizeof_gdt < MAX_CPUS).
  { split; [by apply Z.div_pos|]. apply lookup_lt_Some in Hg. rewrite (ok_gdts s Hok) in Hg. unfold MAX_CPUS. lia. }
  pose proof (ok_tables s Hok _ _ Hg) as Ht. rewrite Z2Nat.id in Ht by lia.
  destruct (free_slot _ _ _ _ Ht Hq Hd Ha) as [-> Hn].
  pose proof (write_gdt s _ _ Hok (proj1 Hq) Hn) as Hw. by eapply same_tables.
Qed.

(** ** Sequences of calls *)

(** [OtherCpu q]: the next calls are made by a CPU whose registers are [q]. *)
Inductive gdt_call := InitCpu (i : Z) | TssInitCpu (i v : Z) | SetKernelStack (v : Z) | OtherCpu (q : seg_regs).

Definition gdt_run_call (c : gdt_call) : ST segs unit :=
  match c with
  | InitCpu i => gdt_init_cpu gdt_at i
  | TssInitCpu i v => gdt_tss_init_cpu gdt_at tss_at i v
  | SetKernelStack v => gdt_set_kernel_stack v
  | OtherCpu q => modify (set_sregs q)
  end.
Fixpoint gdt_run (l : list gdt_call) : ST segs unit :=
  match l with [] => mret tt | c :: l => gdt_run_call c ;; gdt_run l end.
Definition call_ok (c : gdt_call) : Prop := match c with InitCpu i | TssInitCpu i _ => is_u32 i | _ => True end.

(** The arrays at boot. *)
Definition boot_segs (q : seg_regs) : segs :=
  mk_segs (replicate 256 null_gdt) (replicate 256 (mk_gdtr 0 0)) (replicate 256 zero_tss) [] q.

Lemma boot_segs_ok q : tables_ok (boot_segs q).
Proof.
  split; try done. intros n g Hg. change (cpu_gdt _) with (replicate 256 null_gdt) in Hg. apply lookup_replicate in Hg as [-> _]. constructor.
Qed.

Lemma gdt_run_call_ok c s s' : call_ok c -> tables_ok s -> gdt_run_call c s = Ok (tt, s') -> tables_ok s'.
Proof.
  intros Hc Hok H. destruct c as [i|i v|v|q]; cbn [gdt_run_call] in H.
  - rewrite (gdt_init_cpu_ok s i Hok Hc) in H. injection H as <-. by apply init_result_ok.
  - destruct (gdt_tss_writes s i v Hok Hc) as (g & _ & _ & Hok' & He). rewrite He in H.
    apply st_bind_inv in H as ([] & s1 & H1 & H). injection H as <-.
    eapply same_tables; [apply (ltr_tables _ _ Hok' H1)|done..].
  - unfold gdt_set_kernel_stack in H. rewrite gets_bind in H. apply st_bind_inv in H as (t & s1 & H1 & H).
    unfold st_lift in H1. destruct (at_cpu _ _); simplify_eq. rewrite modify_bind in H. injection H as <-.
    eapply same_tables; [exact Hok|done..|]. cbn. by rewrite length_insert.
  - injection H as <-. by eapply same_tables.
Qed.

Lemma gdt_run_ok l s s' : Forall call_ok l -> tables_ok s -> gdt_run l s = Ok (tt, s') -> tables_ok s'.
Proof.
  intros Hl. revert s. induction Hl as [|c l Hc _ IH]; intros s Hok H; [by injection H as <-|].
  apply st_bind_inv in H as ([] & s1 & H1 & H). exact (IH s1 (gdt_run_call_ok c s s1 Hc Hok H1) H).
Qed.
Lemma uses_used k g s : cpu_gdt s !! Z.to_nat k = Some g -> uses k s ->
  unused_table g -> False.
Proof. intros Hg (_ & g' & Hg' & _ & Hc & _) (_ & Hu & _). rewrite Hg in Hg'. injection Hg' as <-. by rewrite Hu in Hc. Qed.

(** The table of a CPU that runs on it, with its task slot filled. *)
Lemma task_typed k b g : table_is k g -> 0 <= k < MAX_CPUS -> ~ unused_table g ->
  let g' := task_table (tss_addr tss_at k) b g in
  typed_table k g' /\ seg_of g' GDT_TSS_SELECTOR = TaskSeg b (tss_addr tss_at k) (sizeof_tss - 1).
Proof.
  intros Ht Hk Hu g'.
  assert (Hs : seg_of g' GDT_TSS_SELECTOR = TaskSeg b (tss_addr tss_at k) (sizeof_tss - 1)).
  { apply seg_task; [by apply (table_length k)|]. unfold tss_addr, sizeof_tss, MAX_CPUS in *. lia. }
  split; [|exact Hs].
  inversion Ht; subst g; try (exfalso; apply Hu; done); repeat split; try done; right; exists b; exact Hs.
Qed.

Lemma tss_init_uses s i v : tables_ok s -> is_u32 i -> uses (clamp i) s -> exists s' g t,
  gdt_tss_init_cpu gdt_at tss_at i v s = Ok (tt, s') /\ uses (clamp i) s' /\ r_tr (sregs s') = GDT_TSS_SELECTOR /\
  cpu_gdt s' !! Z.to_nat (clamp i) = Some g /\
  seg_of g GDT_TSS_SELECTOR = TaskSeg true (tss_addr tss_at (clamp i)) (sizeof_tss - 1) /\
  cpu_tss s' !! Z.to_nat (clamp i) = Some t /\ rsp t !! 0%nat = Some v /\ sizeof_tss - 1 < iopb t.
Proof.
  intros Hok Hi Hu. pose proof (clamp_range i Hi) as Hk.
  destruct (gdt_tss_init_cpu_ok s i v Hok Hi Hu) as (g & Hg & Ht & He). set (k := clamp i) in *. clearbody k.
  destruct (task_typed k true g Ht Hk) as [Hty Hs]; [intros Hn; by eapply (uses_used k g s)|].
  assert (Hl : (Z.to_nat k < 256)%nat) by (unfold MAX_CPUS in Hk; lia).
  exists (set_log (seg_log s ++ [TssLoaded k v]) (set_sregs (task_regs (sregs s)) (tss_result k v true g s))).
  eexists _, _. split; [exact He|]. split.
  - destruct Hu as (Hr & g0 & _ & Hc & _ & Hd & _). split; [exact Hr|]. eexists. split.
    + cbn. apply list_lookup_insert_eq. by rewrite (ok_gdts s Hok).
    + destruct Hty as (_ & H1 & H2 & _). done.
  - split; [done|]. split; [cbn; apply list_lookup_insert_eq; by rewrite (ok_gdts s Hok)|].
    split; [exact Hs|]. split; [cbn; apply list_lookup_insert_eq; by rewrite (ok_tsss s Hok)|]. done.
Qed.

(** C33: the segment tables are well typed. After any calls, from any CPUs in any
    order, each CPU's table is unused or typed: the kernel's selectors name
    flat segments of privilege 0, its code of 64 bits, the user's selectors
    flat segments of privilege 3, and the task slot is empty or describes the
    CPU's own task segment, all of it. Then [gdt_init_cpu] cannot fault and
    leaves the CPU on its own table, with segments that fit its registers and
    an [%fs] base of 0; and on a CPU that is on its table [gdt_tss_init_cpu]
    cannot fault, loads the descriptor of the CPU's segment, which holds the
    stack pointer for privilege 0 and no I/O permission map. *)
Theorem gdt_typed_spec calls q s : Forall call_ok calls -> gdt_run calls (boot_segs q) = Ok (tt, s) ->
  (forall k g, 0 <= k < MAX_CPUS -> cpu_gdt s !! Z.to_nat k = Some g -> unused_table g \/ typed_table k g) /\
  (forall i, is_u32 i -> exists s', gdt_init_cpu gdt_at i s = Ok (tt, s') /\ uses (clamp i) s' /\ r_fs_base (sregs s') = 0 /\
    exists g, cpu_gdt s' !! Z.to_nat (clamp i) = Some g /\ typed_table (clamp i) g) /\
  (forall i v, is_u32 i -> uses (clamp i) s -> exists s' g t,
    gdt_tss_init_cpu gdt_at tss_at i v s = Ok (tt, s') /\ uses (clamp i) s' /\ r_tr (sregs s') = GDT_TSS_SELECTOR /\
    cpu_gdt s' !! Z.to_nat (clamp i) = Some g /\
    seg_of g GDT_TSS_SELECTOR = TaskSeg true (tss_addr tss_at (clamp i)) (sizeof_tss - 1) /\
    cpu_tss s' !! Z.to_nat (clamp i) = Some t /\ rsp t !! 0%nat = Some v /\ sizeof_tss - 1 < iopb t).
Proof.
  intros Hc Hr. pose proof (gdt_run_ok calls _ s Hc (boot_segs_ok q) Hr) as Hok. split; [|split].
  - intros k g Hk Hg. apply table_typed; [done|]. pose proof (ok_tables s Hok _ _ Hg) as Ht. by rewrite Z2Nat.id in Ht by lia.
  - intros i Hi. exists (init_result (clamp i) s). destruct (init_result_ok s i Hok Hi) as [Hok' Hu].
    split; [by apply gdt_init_cpu_ok|]. split; [done|]. split; [done|]. exists gdt_template. split.
    + cbn. apply list_lookup_insert_eq. rewrite (ok_gdts s Hok). pose proof (clamp_range i Hi). unfold MAX_CPUS in *. lia.
    + repeat split; try done. by left.
  - intros i v Hi Hu. by apply tss_init_uses.
Qed.

End Spec.

(** The boot CPU loads its table and its task segment, then CPU 3 its own. *)
Lemma gdt_typed_spec_witness :
  let q := mk_regs (mk_gdtr 0 0) 0x28 [] 0 0 in
  let calls := [InitCpu 0; TssInitCpu 0 0x7000; OtherCpu q; InitCpu 3] in
  exists s, gdt_run 0x10000 0x20000 calls (boot_segs q) = Ok (tt, s) /\ uses 0x10000 3 s /\
  exists s' g t, gdt_tss_init_cpu 0x10000 0x20000 3 0x8000 s = Ok (tt, s') /\ r_tr (sregs s') = GDT_TSS_SELECTOR /\
    cpu_gdt s' !! 3%nat = Some g /\ seg_of g GDT_TSS_SELECTOR = TaskSeg true (tss_addr 0x20000 3) (sizeof_tss - 1) /\
    cpu_tss s' !! 3%nat = Some t /\ rsp t !! 0%nat = Some 0x8000.
Proof.
  intros q calls.
  assert (Hr : exists s, gdt_run 0x10000 0x20000 calls (boot_segs q) = Ok (tt, s) /\ uses 0x10000 3 s).
  { eexists. split; [vm_compute; reflexivity|]. split; [reflexivity|]. eexists. split; [reflexivity|]. repeat split; reflexivity. }
  destruct Hr as (s & Hr & Hu). exists s. split; [exact Hr|]. split; [exact Hu|].
  destruct (gdt_typed_spec 0x10000 0x20000 ltac:(unfold sizeof_tss, MAX_CPUS; lia) calls q s) as (_ & _ & Ht).
  - repeat constructor; unfold is_u32; lia.
  - exact Hr.
  - destruct (Ht 3 0x8000) as (s' & g & t & H1 & _ & H2 & H3 & H4 & H5 & H6 & _); [unfold is_u32; lia|exact Hu|].
    exists s', g, t. repeat split; assumption.
Defined.
