(* ===== verification/Smp.v ===== *)
(** The start of the processors, [kernel/src/cpu/smp.c]: the records of the
    CPUs, the hand-over to the entry of the other processors, and that entry.

    The structures of the boot loader are a map from addresses. The current CPU
    is found by the base of [%fs], one of the registers of [Gdt.v], which
    loading a segment table resets. The fields of the scheduler in [cpu_info]
    are those of [Sched.v]. The other calls of the entry act on the rest of the
    kernel, of any type [X], and are arguments here. *)
From S2P Require Import Prelude Klog Gdt.

(** [struct limine_mp_info], and [struct limine_mp_response]. *)
Record mp_info := mk_mp { mp_processor_id : Z; mp_lapic_id : Z; goto_address : ptr; extra_argument : Z }.
Record mp_response := mk_response { mr_bsp_lapic_id : Z; mr_cpu_count : Z; mr_cpus : list Z }.

Record cpu_info := mk_info {
  ci_index : Z; ci_processor_id : Z; ci_lapic_id : Z; ci_is_bsp : bool; ci_online : Z; ci_mp_info : Z }.

Inductive smp_state_name := bsp_online | ap_online.
Inductive smp_msg := Clamping (n : Z) | CpuState (index lapic acpi : Z) (st : smp_state_name) | AllOnline (n : Z).

Record smp (X : Type) := mk_smp {
  cpu_infos : list cpu_info;
  smp_cpu_count : Z;
  smp_log_lock : bool;
  mp_infos : gmap Z mp_info;
  smp_log : list smp_msg;
  smp_segs : segs;
  smp_rest : X }.
Arguments mk_smp {X}.
Arguments cpu_infos {X}.
Arguments smp_cpu_count {X}.
Arguments smp_log_lock {X}.
Arguments mp_infos {X}.
Arguments smp_log {X}.
Arguments smp_segs {X}.
Arguments smp_rest {X}.

Section smp.
Context {X : Type}.
(** The addresses of the static arrays, of the entry, and the size of a record. *)
Context (infos_at sizeof_cpu_info gdt_at smp_ap_entry_fn : Z).
Abbreviation S := (smp X).

Definition set_infos (l : list cpu_info) (s : S) : S :=
  mk_smp l (smp_cpu_count s) (smp_log_lock s) (mp_infos s) (smp_log s) (smp_segs s) (smp_rest s).
Definition set_cpu_count (n : Z) (s : S) : S :=
  mk_smp (cpu_infos s) n (smp_log_lock s) (mp_infos s) (smp_log s) (smp_segs s) (smp_rest s).
Definition set_log_lock (b : bool) (s : S) : S :=
  mk_smp (cpu_infos s) (smp_cpu_count s) b (mp_infos s) (smp_log s) (smp_segs s) (smp_rest s).
Definition set_mp (m : gmap Z mp_info) (s : S) : S :=
  mk_smp (cpu_infos s) (smp_cpu_count s) (smp_log_lock s) m (smp_log s) (smp_segs s) (smp_rest s).
Definition say (e : smp_msg) (s : S) : S :=
  mk_smp (cpu_infos s) (smp_cpu_count s) (smp_log_lock s) (mp_infos s) (smp_log s ++ [e]) (smp_segs s) (smp_rest s).
Definition set_segs (g : segs) (s : S) : S :=
  mk_smp (cpu_infos s) (smp_cpu_count s) (smp_log_lock s) (mp_infos s) (smp_log s) g (smp_rest s).
Definition set_rest (x : X) (s : S) : S :=
  mk_smp (cpu_infos s) (smp_cpu_count s) (smp_log_lock s) (mp_infos s) (smp_log s) (smp_segs s) x.

Definition on_segs {A} (f : ST segs A) : ST S A := fun s =>
  match f (smp_segs s) with Ok (a, g) => Ok (a, set_segs g s) | Panic => Panic | Fault => Fault | Timeout => Timeout end.
Definition on_rest {A} (f : ST X A) : ST S A := fun s =>
  match f (smp_rest s) with Ok (a, x) => Ok (a, set_rest x s) | Panic => Panic | Fault => Fault | Timeout => Timeout end.

(** [&cpu_infos[i]], and the record at an address. *)
Definition info_addr (i : Z) : Z := infos_at + sizeof_cpu_info * i.
Definition info_index (a : Z) : nat := Z.to_nat ((a - infos_at) / sizeof_cpu_info).
Definition get_info (a : Z) : ST S cpu_info := fun s =>
  c ← deref (if decide (a = info_addr (Z.of_nat (info_index a))) then cpu_infos s !! info_index a else None); Ok (c, s).
Definition put_info (i : Z) (c : cpu_info) : ST S unit := fun s =>
  match cpu_infos s !! Z.to_nat i with Some _ => Ok (tt, set_infos (<[Z.to_nat i := c]> (cpu_infos s)) s) | None => Fault end.
Definition get_mp (a : Z) : ST S mp_info := fun s => m ← deref (mp_infos s !! a); Ok (m, s).
Definition put_mp (a : Z) (m : mp_info) : ST S unit := modify (fun s => set_mp (<[a := m]> (mp_infos s)) s).

Definition write_fs_base (v : Z) : ST segs unit :=
  modify (fun g => let q := sregs g in set_sregs (mk_regs (r_gdtr q) (r_cs q) (r_data q) (r_tr q) v) g).
Definition cpu_set_current (cpu : Z) : ST S unit := on_segs (write_fs_base cpu).

Definition log_lock : ST S unit := b ← gets smp_log_lock; if b : bool then st_timeout else modify (set_log_lock true).
Definition log_unlock : ST S unit := modify (set_log_lock false).
Definition smp_log_cpu (cpu : Z) (st : smp_state_name) : ST S unit :=
  log_lock ;;
  c ← get_info cpu;
  modify (say (CpuState (ci_index c) (ci_lapic_id c) (ci_processor_id c) st)) ;;
  log_unlock.

Definition cpu_current (s : S) : ptr := let fs_base := r_fs_base (sregs (smp_segs s)) in if fs_base =? 0 then None else Some fs_base.
Definition cpu_get (index : Z) (s : S) : ptr := if smp_cpu_count s <=? index then None else Some (info_addr index).
Definition cpu_count (s : S) : Z := smp_cpu_count s.

(** [while (atomic_load(&cpu->online) == 0);] reads what another CPU stores: a
    CPU that is not online yet keeps the model waiting for ever. *)
Fixpoint wait_loop (n : nat) (i : Z) : ST S unit :=
  match n with
  | O => mret tt
  | Datatypes.S n =>
      c ← get_info (info_addr i);
      if ci_online c =? 0 then st_timeout else wait_loop n (i + 1)
  end.
Definition smp_wait_all_online : ST S unit :=
  n ← gets smp_cpu_count;
  wait_loop (Z.to_nat n) 0 ;;
  modify (say (AllOnline n)).

Definition b2z (b : bool) : Z := if b then 1 else 0.

Fixpoint fill_loop (n : nat) (i : Z) (r : mp_response) : ST S unit :=
  match n with
  | O => mret tt
  | Datatypes.S n =>
      p ← st_lift (deref (mr_cpus r !! Z.to_nat i));
      m ← get_mp p;
      let bsp := mp_lapic_id m =? mr_bsp_lapic_id r in
      put_info i (mk_info i (mp_processor_id m) (mp_lapic_id m) bsp (b2z bsp) p) ;;
      put_mp p (mk_mp (mp_processor_id m) (mp_lapic_id m) (goto_address m) (info_addr i)) ;;
      fill_loop n (i + 1) r
  end.

Fixpoint start_loop (n : nat) (i : Z) : ST S unit :=
  match n with
  | O => mret tt
  | Datatypes.S n =>
      c ← get_info (info_addr i);
      (if ci_is_bsp c then
         cpu_set_current (info_addr i) ;;
         smp_log_cpu (info_addr i) bsp_online
       else
         m ← get_mp (ci_mp_info c);
         put_mp (ci_mp_info c) (mk_mp (mp_processor_id m) (mp_lapic_id m) (Some smp_ap_entry_fn) (extra_argument m))) ;;
      start_loop n (i + 1)
  end.

Definition smp_init (r : mp_response) : ST S unit :=
  let limine_cpu_count := mr_cpu_count r in
  (if MAX_CPUS <? limine_cpu_count then modify (say (Clamping limine_cpu_count)) else mret tt) ;;
  let limine_cpu_count := if MAX_CPUS <? limine_cpu_count then MAX_CPUS else limine_cpu_count in
  modify (set_cpu_count (u32 limine_cpu_count)) ;;
  n ← gets smp_cpu_count;
  fill_loop (Z.to_nat n) 0 r ;;
  start_loop (Z.to_nat n) 0.

(** [atomic_store(&cpu->online, 1)]. *)
Definition set_online (cpu : Z) : ST S unit :=
  c ← get_info cpu;
  put_info (Z.of_nat (info_index cpu)) (mk_info (ci_index c) (ci_processor_id c) (ci_lapic_id c) (ci_is_bsp c) 1 (ci_mp_info c)).

(** The entry, up to the halt: [cli] and [sti] are among the calls. *)
Definition smp_ap_entry (cli vas_switch_kernel idt_init sched_init sti : ST X unit) (apic_cpu_init timer_init : Z -> ST X unit)
    (mp : Z) : ST S unit :=
  m ← get_mp mp;
  let cpu := extra_argument m in
  on_rest cli ;;
  on_rest vas_switch_kernel ;;
  c ← get_info cpu;
  on_segs (gdt_init_cpu gdt_at (ci_index c)) ;;
  cpu_set_current cpu ;;
  on_rest idt_init ;;
  on_rest (apic_cpu_init (u8 (ci_index c))) ;;
  on_rest sched_init ;;
  on_rest (timer_init 100) ;;
  smp_log_cpu cpu ap_online ;;
  set_online cpu ;;
  on_rest sti.
End smp.
