(* ===== verification/SmpSpec.v ===== *)
(** The start of the processors, [Smp.v].

    [Phase j k don]: the first [j] records are filled, the first [k] CPUs are
    handed over, and the CPUs of [don] have run their entry. [smp_init] reaches
    [Phase n n []] for the [n] CPUs it keeps; each run of an entry adds its CPU.
    The boot loader starts a CPU at the address found in its structure, with
    registers of the CPU's own: [ap_boot]. *)
From S2P Require Import Prelude Klog Gdt GdtSpec Smp.

Section Spec.
Context {X : Type} (infos_at sizeof_cpu_info gdt_at tss_at entry : Z).
Context (Hsize : 0 < sizeof_cpu_info) (Hinfos : 0 < infos_at).
(** What the boot loader reports: the address and the contents of a structure
    per CPU, and the local APIC of the CPU that runs. *)
Context (cpus : list (Z * mp_info)) (r : mp_response).
Context (Hcpus : mr_cpus r = cpus.*1) (Hcount : mr_cpu_count r = Z.of_nat (length cpus)) (Hdistinct : NoDup cpus.*1).

(** The other calls of the entry. *)
Context (cli vas_switch_kernel idt_init sched_init sti : ST X unit) (apic_cpu_init timer_init : Z -> ST X unit).
Definition returns (f : ST X unit) : Prop := forall x, exists x', f x = Ok (tt, x').
Context (Hcli : returns cli) (Hvas : returns vas_switch_kernel) (Hidt : returns idt_init) (Hsched : returns sched_init)
  (Hsti : returns sti) (Hapic : forall i, returns (apic_cpu_init i)) (Htimer : forall hz, returns (timer_init hz)).

Abbreviation addr_of := (info_addr infos_at sizeof_cpu_info).

(** The CPUs the kernel keeps. *)
Definition kept : nat := Nat.min (length cpus) 256.
Definition is_bsp_of (m : mp_info) : bool := mp_lapic_id m =? mr_bsp_lapic_id r.

Definition mp_at (j k i : nat) (m : mp_info) : mp_info :=
  mk_mp (mp_processor_id m) (mp_lapic_id m)
    (if bool_decide (i < k)%nat && negb (is_bsp_of m) then Some entry else goto_address m)
    (if bool_decide (i < j)%nat then addr_of (Z.of_nat i) else extra_argument m).
Definition info_at (don : list nat) (i : nat) (p : Z) (m : mp_info) : cpu_info :=
  mk_info (Z.of_nat i) (mp_processor_id m) (mp_lapic_id m) (is_bsp_of m) (b2z (is_bsp_of m || bool_decide (i ∈ don))) p.

Record Phase (j k : nat) (don : list nat) (s : smp X) : Prop := {
  ph_length : length (cpu_infos s) = 256%nat;
  ph_count : smp_cpu_count s = Z.of_nat kept;
  ph_lock : smp_log_lock s = false;
  ph_tables : tables_ok tss_at (smp_segs s);
  ph_info : forall i p m, cpus !! i = Some (p, m) -> (i < j)%nat -> cpu_infos s !! i = Some (info_at don i p m);
  ph_mp : forall i p m, cpus !! i = Some (p, m) -> mp_infos s !! p = Some (mp_at j k i m) }.

(** ** Addresses *)

Lemma info_index_addr i : info_index infos_at sizeof_cpu_info (addr_of (Z.of_nat i)) = i.
Proof. unfold info_index, info_addr. replace (_ - infos_at) with (Z.of_nat i * sizeof_cpu_info) by lia. rewrite Z.div_mul by lia. lia. Qed.

Lemma get_info_ok s i c : cpu_infos s !! i = Some c ->
  get_info (X := X) infos_at sizeof_cpu_info (addr_of (Z.of_nat i)) s = Ok (c, s).
Proof. intros Hc. unfold get_info. rewrite info_index_addr, decide_True, Hc by done. done. Qed.

Lemma put_info_ok (s : smp X) i c c' : cpu_infos s !! i = Some c -> put_info (Z.of_nat i) c' s = Ok (tt, set_infos (<[i := c']> (cpu_infos s)) s).
Proof. intros Hc. unfold put_info. by rewrite Nat2Z.id, Hc. Qed.

Lemma get_mp_ok (s : smp X) p m : mp_infos s !! p = Some m -> get_mp p s = Ok (m, s).
Proof. intros Hm. unfold get_mp. by rewrite Hm. Qed.

Lemma same_cpu i i' p m m' : cpus !! i = Some (p, m) -> cpus !! i' = Some (p, m') -> i' = i /\ m' = m.
Proof.
  intros H H'. assert (i' = i) as ->.
  { eapply NoDup_lookup; [exact Hdistinct|rewrite list_lookup_fmap, H'; done|rewrite list_lookup_fmap, H; done]. }
  rewrite H in H'. injection H' as <-. done.
Qed.

(** ** The two loops of smp_init *)

Lemma fill_one s i p m : Phase i 0 [] s -> cpus !! i = Some (p, m) -> (i < kept)%nat ->
  Phase (S i) 0 [] (set_mp (<[p := mk_mp (mp_processor_id m) (mp_lapic_id m) (goto_address m) (addr_of (Z.of_nat i))]> (mp_infos s))
    (set_infos (<[i := info_at [] i p m]> (cpu_infos s)) s)).
Proof.
  intros [H1 H2 H3 H4 H5 H6] Hi Hk. assert (i < 256)%nat by (unfold kept in Hk; lia). split; cbn; try done.
  - by rewrite length_insert.
  - intros i' p' m' Hi' Hl. destruct (decide (i' = i)) as [->|Hn].
    + rewrite Hi in Hi'. injection Hi' as <- <-. apply list_lookup_insert_eq. lia.
    + rewrite list_lookup_insert_ne by done. apply H5; [done|lia].
  - intros i' p' m' Hi'. destruct (decide (p' = p)) as [->|Hn].
    + destruct (same_cpu i i' p m m' Hi Hi') as [-> ->]. rewrite lookup_insert_eq. unfold mp_at. rewrite (bool_decide_eq_true_2 (i < S i)%nat) by lia. done.
    + rewrite lookup_insert_ne, (H6 i' p' m' Hi') by done. f_equal. unfold mp_at. f_equal.
      assert (i' <> i) by (intros ->; rewrite Hi in Hi'; simplify_eq).
      rewrite (bool_decide_ext (i' < S i)%nat (i' < i)%nat) by lia. done.
Qed.

Lemma fill_loop_ok n : forall i s, (i + n = kept)%nat -> Phase i 0 [] s ->
  exists s', fill_loop infos_at sizeof_cpu_info n (Z.of_nat i) r s = Ok (tt, s') /\ Phase kept 0 [] s' /\ smp_segs s' = smp_segs s.
Proof.
  induction n as [|n IH]; intros i s Hn Hp; [exists s; by replace kept with i by lia|].
  destruct (lookup_lt_is_Some_2 cpus i) as [[p m] Hi]; [unfold kept in Hn; lia|].
  destruct (lookup_lt_is_Some_2 (cpu_infos s) i) as [c Hc]; [rewrite (ph_length _ _ _ _ Hp); unfold kept in Hn; lia|].
  cbn [fill_loop]. rewrite Nat2Z.id, Hcpus, (lift_bind _ _ _ p) by (rewrite list_lookup_fmap, Hi; done).
  pose proof (ph_mp _ _ _ _ Hp i p m Hi) as Hm. rewrite (st_bind_ok _ _ _ _ _ (get_mp_ok s p _ Hm)).
  rewrite (st_bind_ok _ _ _ _ _ (put_info_ok s i c _ Hc)). unfold put_mp. rewrite modify_bind.
  replace (Z.of_nat i + 1) with (Z.of_nat (S i)) by lia.
  destruct (IH (S i) _ ltac:(lia) (fill_one s i p m Hp Hi ltac:(lia))) as (s' & He & Hp' & Hs).
  exists s'. split; [|done]. rewrite <- He. f_equal. unfold info_at. rewrite bool_decide_eq_false_2 by apply not_elem_of_nil.
  by rewrite orb_false_r.
Qed.

Lemma Phase_same j k don s s' : Phase j k don s -> cpu_infos s' = cpu_infos s -> smp_cpu_count s' = smp_cpu_count s ->
  smp_log_lock s' = smp_log_lock s -> mp_infos s' = mp_infos s -> tables_ok tss_at (smp_segs s') -> Phase j k don s'.
Proof. intros [H1 H2 H3 H4 H5 H6] E1 E2 E3 E4 Ht. split; rewrite ?E1, ?E2, ?E3, ?E4; done. Qed.

Lemma smp_log_cpu_ok (s : smp X) i c st : smp_log_lock s = false -> cpu_infos s !! i = Some c ->
  smp_log_cpu infos_at sizeof_cpu_info (addr_of (Z.of_nat i)) st s =
  Ok (tt, set_log_lock false (say (CpuState (ci_index c) (ci_lapic_id c) (ci_processor_id c) st) s)).
Proof.
  intros Hl Hc. unfold smp_log_cpu, log_lock. rewrite bind_assoc, gets_bind, Hl, modify_bind.
  rewrite (st_bind_ok _ _ _ _ _ (get_info_ok (set_log_lock true s) i c Hc)). done.
Qed.

Definition hand_over (m : mp_info) (i : nat) : mp_info :=
  mk_mp (mp_processor_id m) (mp_lapic_id m) (Some entry) (addr_of (Z.of_nat i)).
Definition on_cpu (i : nat) (s : smp X) : smp X :=
  let q := sregs (smp_segs s) in
  set_segs (set_sregs (mk_regs (r_gdtr q) (r_cs q) (r_data q) (r_tr q) (addr_of (Z.of_nat i))) (smp_segs s)) s.

Lemma mp_at_start k i m : (i < kept)%nat -> i <> k -> mp_at kept (S k) i m = mp_at kept k i m.
Proof. intros Hi Hn. unfold mp_at. by rewrite (bool_decide_ext (i < S k)%nat (i < k)%nat) by lia. Qed.

Lemma mp_at_late k i m : (kept <= i)%nat -> (k < kept)%nat -> mp_at kept (S k) i m = mp_at kept k i m.
Proof. intros Hi Hn. unfold mp_at. by rewrite (bool_decide_ext (i < S k)%nat (i < k)%nat) by lia. Qed.

Lemma start_bsp s k p m st : Phase kept k [] s -> cpus !! k = Some (p, m) -> (k < kept)%nat -> is_bsp_of m = true ->
  let c := info_at [] k p m in
  Phase kept (S k) [] (set_log_lock false (say (CpuState (ci_index c) (ci_lapic_id c) (ci_processor_id c) st) (on_cpu k s))).
Proof.
  intros [H1 H2 H3 H4 H5 H6] Hi Hk Hb c. split; cbn; try done; [by eapply same_tables|].
  intros i' p' m' Hi'. rewrite (H6 i' p' m' Hi'). f_equal. destruct (decide (i' = k)) as [->|Hn].
  - rewrite Hi in Hi'. injection Hi' as <- <-. unfold mp_at. by rewrite Hb, !andb_false_r.
  - destruct (decide (i' < kept)%nat); [rewrite mp_at_start by lia; done|rewrite mp_at_late by lia; done].
Qed.

Lemma start_ap s k p m : Phase kept k [] s -> cpus !! k = Some (p, m) -> (k < kept)%nat -> is_bsp_of m = false ->
  Phase kept (S k) [] (set_mp (<[p := hand_over m k]> (mp_infos s)) s).
Proof.
  intros [H1 H2 H3 H4 H5 H6] Hi Hk Hb. split; cbn; try done.
  intros i' p' m' Hi'. destruct (decide (p' = p)) as [->|Hn].
  - destruct (same_cpu k i' p m m' Hi Hi') as [-> ->]. rewrite lookup_insert_eq. unfold mp_at, hand_over.
    by rewrite Hb, (bool_decide_eq_true_2 (k < S k)%nat), bool_decide_eq_true_2 by lia.
  - rewrite lookup_insert_ne, (H6 i' p' m' Hi') by done. f_equal.
    assert (i' <> k) by (intros ->; rewrite Hi in Hi'; simplify_eq).
    destruct (decide (i' < kept)%nat); [rewrite mp_at_start by lia; done|rewrite mp_at_late by lia; done].
Qed.

(** The last BSP's record is the current one. *)
Definition fs_is (k : nat) (s : smp X) : Prop := forall i p m, cpus !! i = Some (p, m) -> (i < k)%nat -> is_bsp_of m = true ->
  r_fs_base (sregs (smp_segs s)) = addr_of (Z.of_nat i).
Definition one_bsp : Prop := forall i p m i' p' m', cpus !! i = Some (p, m) -> cpus !! i' = Some (p', m') ->
  is_bsp_of m = true -> is_bsp_of m' = true -> i = i'.

Lemma start_loop_ok : one_bsp -> forall n k s, (k + n = kept)%nat -> Phase kept k [] s -> fs_is k s ->
  exists s', start_loop infos_at sizeof_cpu_info entry n (Z.of_nat k) s = Ok (tt, s') /\ Phase kept kept [] s' /\ fs_is kept s'.
Proof.
  intros H1. induction n as [|n IH]; intros k s Hn Hp Hf; [assert (k = kept) as -> by lia; by exists s|].
  destruct (lookup_lt_is_Some_2 cpus k) as [[p m] Hi]; [unfold kept in Hn; lia|].
  pose proof (ph_info _ _ _ _ Hp k p m Hi ltac:(lia)) as Hc. pose proof (ph_mp _ _ _ _ Hp k p m Hi) as Hm.
  cbn [start_loop]. rewrite (st_bind_ok _ _ _ _ _ (get_info_ok s k _ Hc)).
  replace (Z.of_nat k + 1) with (Z.of_nat (S k)) by lia. cbn [info_at ci_is_bsp ci_mp_info].
  destruct (is_bsp_of m) eqn:Hb.
  - rewrite bind_assoc. rewrite (st_bind_ok (cpu_set_current _) _ s tt (on_cpu k s)) by done.
    erewrite st_bind_ok; [|apply (smp_log_cpu_ok (on_cpu k s) k (info_at [] k p m)); [apply Hp|exact Hc]].
    apply IH; [lia|eapply start_bsp; [exact Hp|exact Hi|lia|exact Hb]|].
    intros i' p' m' Hi' _ Hb'. cbn. by rewrite (H1 i' p' m' k p m Hi' Hi Hb' Hb).
  - rewrite bind_assoc, (st_bind_ok _ _ _ _ _ (get_mp_ok s p _ Hm)). unfold put_mp. rewrite modify_bind.
    apply IH; [lia| |].
    + replace (mk_mp _ _ _ _) with (hand_over m k); [apply start_ap; [exact Hp|exact Hi|lia|exact Hb]|].
      unfold mp_at, hand_over. cbn. by rewrite bool_decide_eq_true_2 by lia.
    + intros i' p' m' Hi' Hl Hb'. apply (Hf i' p' m' Hi'); [|done].
      assert (i' <> k) by (intros ->; rewrite Hi in Hi'; simplify_eq; congruence). lia.
Qed.

(** ** The entry *)

Abbreviation ap_entry := (smp_ap_entry infos_at sizeof_cpu_info gdt_at cli vas_switch_kernel idt_init sched_init sti apic_cpu_init timer_init).

Lemma rest_step (f : ST X unit) (k : ST (smp X) unit) don s : returns f -> Phase kept kept don s ->
  exists s', (on_rest f ;; k) s = k s' /\ Phase kept kept don s' /\ smp_segs s' = smp_segs s.
Proof.
  intros Hf Hp. destruct (Hf (smp_rest s)) as [x Hx]. exists (set_rest x s).
  split; [unfold mbind, st_bind, on_rest; by rewrite Hx|]. split; [|done]. eapply Phase_same; [exact Hp|done..|apply Hp].
Qed.
Ltac rest H s1 Hp1 Hs1 := match goal with
  | Hp : Phase _ _ ?don ?s |- context [(on_rest ?f ;; ?k) ?s] => destruct (rest_step f k don s H Hp) as (s1 & -> & Hp1 & Hs1); clear Hp
  end.

(** Up to the registers of the CPU. *)
Lemma entry_segments (k : ST (smp X) unit) s don i : Phase kept kept don s -> (i < kept)%nat ->
  exists s', (on_segs (gdt_init_cpu gdt_at (Z.of_nat i)) ;; cpu_set_current (addr_of (Z.of_nat i)) ;; k) s = k s' /\
  Phase kept kept don s' /\ uses gdt_at (Z.of_nat i) (smp_segs s') /\ r_fs_base (sregs (smp_segs s')) = addr_of (Z.of_nat i).
Proof.
  intros Hp Hi. assert (Hu : is_u32 (Z.of_nat i)) by (unfold is_u32, kept in *; lia).
  assert (Hc : clamp (Z.of_nat i) = Z.of_nat i) by (apply clamp_id; unfold MAX_CPUS, kept in *; lia).
  pose proof (gdt_init_cpu_ok gdt_at tss_at _ _ (ph_tables _ _ _ _ Hp) Hu) as Hg.
  destruct (init_result_ok gdt_at tss_at _ _ (ph_tables _ _ _ _ Hp) Hu) as [Ht Huse]. rewrite Hc in *.
  set (g := init_result gdt_at (Z.of_nat i) (smp_segs s)) in *.
  exists (on_cpu i (set_segs g s)). split; [|split; [|split]].
  - rewrite (st_bind_ok _ _ s tt (set_segs g s)) by (unfold on_segs; by rewrite Hg). done.
  - eapply Phase_same; [exact Hp|done..|]. by eapply same_tables.
  - destruct Huse as (H1 & gd & H2 & H3 & H4 & H5 & H6). split; [exact H1|]. by exists gd.
  - done.
Qed.

Lemma set_online_ok s don i p m : Phase kept kept don s -> cpus !! i = Some (p, m) -> (i < kept)%nat ->
  exists s', set_online infos_at sizeof_cpu_info (addr_of (Z.of_nat i)) s = Ok (tt, s') /\ Phase kept kept (i :: don) s' /\
  smp_segs s' = smp_segs s.
Proof.
  intros Hp Hi Hk. pose proof (ph_info _ _ _ _ Hp i p m Hi Hk) as Hc.
  unfold set_online. rewrite (st_bind_ok _ _ _ _ _ (get_info_ok s i _ Hc)), info_index_addr.
  rewrite (put_info_ok s i _ _ Hc). eexists. split; [reflexivity|]. split; [|done].
  destruct Hp as [H1 H2 H3 H4 H5 H6]. split; cbn; try done; [by rewrite length_insert|].
  intros i' p' m' Hi' Hl. destruct (decide (i' = i)) as [->|Hn].
  - rewrite Hi in Hi'. injection Hi' as <- <-. rewrite list_lookup_insert_eq by (apply lookup_lt_Some in Hc; lia).
    unfold info_at. rewrite (bool_decide_eq_true_2 (i ∈ i :: don)) by apply list_elem_of_here. by rewrite orb_true_r.
  - rewrite list_lookup_insert_ne, (H5 i' p' m' Hi' Hl) by done. unfold info_at.
    by rewrite (bool_decide_ext (i' ∈ i :: don) (i' ∈ don)) by set_solver.
Qed.

Lemma smp_ap_entry_ok s don i p m : Phase kept kept don s -> cpus !! i = Some (p, m) -> (i < kept)%nat ->
  exists s', ap_entry p s = Ok (tt, s') /\ Phase kept kept (i :: don) s' /\
  uses gdt_at (Z.of_nat i) (smp_segs s') /\ r_fs_base (sregs (smp_segs s')) = addr_of (Z.of_nat i).
Proof.
  intros Hp Hi Hk. unfold smp_ap_entry.
  rewrite (st_bind_ok _ _ _ _ _ (get_mp_ok s p _ (ph_mp _ _ _ _ Hp i p m Hi))). cbn [mp_at extra_argument].
  rewrite (bool_decide_eq_true_2 (i < kept)%nat) by done.
  rest Hcli s1 Hp1 Hs1. rest Hvas s2 Hp2 Hs2.
  rewrite (st_bind_ok _ _ _ _ _ (get_info_ok s2 i _ (ph_info _ _ _ _ Hp2 i p m Hi Hk))). cbn [info_at ci_index].
  match goal with |- context [(_ ;; cpu_set_current _ ;; ?k) s2] => destruct (entry_segments k s2 don i Hp2 Hk) as (s3 & -> & Hp3 & Hu & Hf); clear Hp2 end.
  rest Hidt s4 Hp4 Hs4. rest (Hapic (u8 (Z.of_nat i))) s5 Hp5 Hs5. rest Hsched s6 Hp6 Hs6. rest (Htimer 100) s7 Hp7 Hs7.
  pose proof (ph_info _ _ _ _ Hp7 i p m Hi Hk) as Hc7. rewrite (st_bind_ok _ _ _ _ _ (smp_log_cpu_ok s7 i _ ap_online (ph_lock _ _ _ _ Hp7) Hc7)).
  set (s8 := set_log_lock _ _). assert (Hp8 : Phase kept kept don s8) by (eapply Phase_same; [exact Hp7|done|done| |done|apply Hp7]; symmetry; apply Hp7).
  destruct (set_online_ok s8 don i p m Hp8 Hi Hk) as (s9 & He & Hp9 & Hs9). rewrite (st_bind_ok _ _ _ _ _ He).
  destruct (Hsti (smp_rest s9)) as [x Hx]. exists (set_rest x s9). split; [unfold on_rest; by rewrite Hx|].
  split; [eapply Phase_same; [exact Hp9|done..|apply Hp9]|]. change (smp_segs (set_rest x s9)) with (smp_segs s9).
  rewrite Hs9. change (smp_segs s8) with (smp_segs s7). by rewrite Hs7, Hs6, Hs5, Hs4.
Qed.

(** ** Starting the CPUs *)

(** CPU [i] starts with the registers [q]: it waits in the boot loader for an
    address to go to. *)
Definition ap_boot (i : nat) (q : seg_regs) : ST (smp X) unit :=
  p ← st_lift (deref (mr_cpus r !! i));
  m ← get_mp p;
  match goto_address m with
  | None => st_timeout
  | Some f => if f =? entry then modify (fun s => set_segs (set_sregs q (smp_segs s)) s) ;; ap_entry p else st_fault
  end.
Fixpoint ap_boots (l : list (nat * seg_regs)) : ST (smp X) unit :=
  match l with [] => mret tt | (i, q) :: l => ap_boot i q ;; ap_boots l end.

Definition is_ap (i : nat) : Prop := exists p m, cpus !! i = Some (p, m) /\ (i < kept)%nat /\ is_bsp_of m = false.

Lemma ap_boot_ok s don i q : Phase kept kept don s -> is_ap i -> exists s', ap_boot i q s = Ok (tt, s') /\
  Phase kept kept (i :: don) s' /\ uses gdt_at (Z.of_nat i) (smp_segs s') /\ r_fs_base (sregs (smp_segs s')) = addr_of (Z.of_nat i).
Proof.
  intros Hp (p & m & Hi & Hk & Hb). unfold ap_boot.
  rewrite Hcpus, (lift_bind _ _ _ p) by (rewrite list_lookup_fmap, Hi; done).
  rewrite (st_bind_ok _ _ _ _ _ (get_mp_ok s p _ (ph_mp _ _ _ _ Hp i p m Hi))). cbn [mp_at goto_address].
  rewrite Hb, bool_decide_eq_true_2 by done. cbn [negb andb]. rewrite Z.eqb_refl, modify_bind.
  apply (smp_ap_entry_ok _ don i p m); [|done..]. eapply Phase_same; [exact Hp|done..|]. by eapply same_tables; [apply Hp|..].
Qed.

Lemma ap_boots_ok l : forall s don, Phase kept kept don s -> Forall is_ap l.*1 -> exists s', ap_boots l s = Ok (tt, s') /\
  Phase kept kept (reverse l.*1 ++ don) s' /\
  (forall i q, last l = Some (i, q) ->
    uses gdt_at (Z.of_nat i) (smp_segs s') /\ r_fs_base (sregs (smp_segs s')) = addr_of (Z.of_nat i)).
Proof.
  induction l as [|[i q] l IH]; intros s don Hp Hl; [by exists s|]. apply Forall_cons in Hl as [Hi Hl].
  destruct (ap_boot_ok s don i q Hp Hi) as (s1 & H1 & Hp1 & Hu1 & Hf1).
  destruct (IH s1 _ Hp1 Hl) as (s' & H2 & Hp2 & Hu2). exists s'. cbn [ap_boots]. rewrite (st_bind_ok _ _ _ _ _ H1).
  split; [exact H2|]. split; [rewrite fmap_cons, reverse_cons, <- (assoc_L (++)); exact Hp2|]. intros i' q' Hlast.
  destruct l as [|y l]; [|by apply (Hu2 i' q')]. injection Hlast as <- <-. injection H2 as <-. done.
Qed.

Lemma wait_online_ok don s n : forall i, (i + n = kept)%nat -> Phase kept kept don s ->
  wait_loop infos_at sizeof_cpu_info n (Z.of_nat i) s =
  if forallb (fun i => match cpu_infos s !! i with Some c => negb (ci_online c =? 0) | None => true end) (seq i n) then Ok (tt, s) else Timeout.
Proof.
  induction n as [|n IH]; intros i Hn Hp; [done|].
  destruct (lookup_lt_is_Some_2 cpus i) as [[p m] Hi]; [unfold kept in Hn; lia|].
  pose proof (ph_info _ _ _ _ Hp i p m Hi ltac:(lia)) as Hc. cbn [wait_loop seq forallb]. rewrite (st_bind_ok _ _ _ _ _ (get_info_ok s i _ Hc)), Hc.
  destruct (ci_online _ =? 0); [done|]. replace (Z.of_nat i + 1) with (Z.of_nat (S i)) by lia. apply IH; [lia|done].
Qed.

Lemma smp_init_ok s b pb mb : one_bsp -> cpus !! b = Some (pb, mb) -> is_bsp_of mb = true -> (b < kept)%nat ->
  length (cpu_infos s) = 256%nat -> smp_log_lock s = false -> tables_ok tss_at (smp_segs s) ->
  (forall i p m, cpus !! i = Some (p, m) -> mp_infos s !! p = Some m) ->
  exists s', smp_init infos_at sizeof_cpu_info entry r s = Ok (tt, s') /\ Phase kept kept [] s' /\
    r_fs_base (sregs (smp_segs s')) = addr_of (Z.of_nat b).
Proof.
  intros H1 Hb Hbb Hk Hlen Hlock Ht Hm. unfold smp_init. rewrite Hcount.
  set (s1 := if MAX_CPUS <? Z.of_nat (length cpus) then say (Clamping (Z.of_nat (length cpus))) s else s).
  rewrite (st_bind_ok _ _ s tt s1) by (unfold s1; by destruct (_ <? _)). rewrite modify_bind, gets_bind.
  assert (Hn : u32 (if MAX_CPUS <? Z.of_nat (length cpus) then MAX_CPUS else Z.of_nat (length cpus)) = Z.of_nat kept).
  { unfold kept, MAX_CPUS. destruct (Z.ltb_spec 256 (Z.of_nat (length cpus))); rewrite u32_small; lia. }
  rewrite Hn. set (s2 := set_cpu_count _ s1). cbn [smp_cpu_count s2 set_cpu_count]. rewrite Nat2Z.id.
  assert (Hp : Phase 0 0 [] s2).
  { unfold s2, s1. destruct (_ <? _); split; try done; try lia; intros i p m Hi; cbn; rewrite (Hm i p m Hi); f_equal; unfold mp_at; cbn; by destruct m. }
  destruct (fill_loop_ok kept 0 s2 eq_refl Hp) as (s3 & H3 & Hp3 & _). rewrite (st_bind_ok _ _ _ _ _ H3).
  destruct (start_loop_ok H1 kept 0 s3 eq_refl Hp3) as (s4 & H4 & Hp4 & Hf4); [intros ? ? ? _ ?; lia|].
  exists s4. split; [exact H4|]. split; [done|]. by apply (Hf4 b pb mb).
Qed.

Lemma online_eq (don : list nat) i p m b pb mb : one_bsp -> cpus !! b = Some (pb, mb) -> is_bsp_of mb = true -> cpus !! i = Some (p, m) ->
  is_bsp_of m || bool_decide (i ∈ don) = bool_decide (i = b \/ i ∈ don).
Proof.
  intros H1 Hb Hbb Hi. apply eq_bool_prop_intro. rewrite orb_True, !bool_decide_spec, Is_true_true. split; intros [H|H]; auto.
  - left. exact (H1 _ _ _ _ _ _ Hi Hb H Hbb).
  - subst i. rewrite Hb in Hi. injection Hi as <- <-. by left.
Qed.

Lemma current_of (i : nat) (s : smp X) : r_fs_base (sregs (smp_segs s)) = addr_of (Z.of_nat i) -> cpu_current s = Some (addr_of (Z.of_nat i)).
Proof. unfold cpu_current. intros ->. rewrite (proj2 (Z.eqb_neq _ _)); [done|]. unfold info_addr. nia. Qed.

Lemma wait_all_ok don s b pb mb : one_bsp -> cpus !! b = Some (pb, mb) -> is_bsp_of mb = true -> Phase kept kept don s ->
  ((forall i, (i < kept)%nat -> i = b \/ i ∈ don) -> exists s', smp_wait_all_online infos_at sizeof_cpu_info s = Ok (tt, s')) /\
  (forall i, (i < kept)%nat -> i <> b -> i ∉ don -> smp_wait_all_online infos_at sizeof_cpu_info s = Timeout).
Proof.
  intros H1 Hb Hbb Hp. unfold smp_wait_all_online. rewrite gets_bind, (ph_count _ _ _ _ Hp), Nat2Z.id.
  pose proof (wait_online_ok don s kept 0 eq_refl Hp) as Hw. change (Z.of_nat 0) with 0 in Hw.
  assert (Ho : forall i, (i < kept)%nat -> (match cpu_infos s !! i with Some c => negb (ci_online c =? 0) | None => true end) = bool_decide (i = b \/ i ∈ don)).
  { intros i Hi. destruct (lookup_lt_is_Some_2 cpus i) as [[p m] Hc]; [unfold kept in Hi; lia|].
    rewrite (ph_info _ _ _ _ Hp i p m Hc Hi). cbn [info_at ci_online]. rewrite (online_eq don i p m b pb mb H1 Hb Hbb Hc).
    by destruct (bool_decide _). }
  split.
  - intros Hall. eexists. rewrite (st_bind_ok _ _ s tt s); [reflexivity|]. rewrite Hw.
    rewrite (proj2 (forallb_forall _ _)); [done|]. intros i Hi%in_seq. rewrite Ho, bool_decide_eq_true_2 by (apply Hall || idtac; lia). done.
  - intros i Hi Hn Hd. unfold mbind, st_bind. rewrite Hw. destruct (forallb _ _) eqn:Hf; [|done]. exfalso.
    assert (Hs : In i (seq 0 kept)) by (apply in_seq; lia).
    pose proof (proj1 (forallb_forall _ _) Hf i Hs) as Hx. cbn beta in Hx. rewrite (Ho i Hi) in Hx.
    apply bool_decide_eq_true in Hx as [?|?]; done.
Qed.

(** C40: the processors start. For any report of the boot loader with one
    boot CPU among the first 256, [smp_init] succeeds: it counts the CPUs, at
    most 256, [cpu_get] and [cpu_current] give their records, and each other
    kept CPU is handed the entry and its record, the rest untouched. Then, in
    whatever order and with whatever registers the others come up, each runs
    through its entry and ends on its own segment table, its own record
    current; the records of exactly these and of the boot CPU are online, and
    [smp_wait_all_online] returns when that is all of them and waits otherwise. *)
Theorem smp_start_spec s b pb mb : one_bsp -> cpus !! b = Some (pb, mb) -> is_bsp_of mb = true -> (b < kept)%nat ->
  length (cpu_infos s) = 256%nat -> smp_log_lock s = false -> tables_ok tss_at (smp_segs s) ->
  (forall i p m, cpus !! i = Some (p, m) -> mp_infos s !! p = Some m) ->
  exists s1, smp_init infos_at sizeof_cpu_info entry r s = Ok (tt, s1) /\
  cpu_count s1 = Z.of_nat kept /\ cpu_current s1 = Some (addr_of (Z.of_nat b)) /\
  (forall i, cpu_get infos_at sizeof_cpu_info i s1 = if i <? Z.of_nat kept then Some (addr_of i) else None) /\
  (forall i p m, cpus !! i = Some (p, m) -> mp_infos s1 !! p = Some (if decide (i < kept)%nat
    then mk_mp (mp_processor_id m) (mp_lapic_id m) (if is_bsp_of m then goto_address m else Some entry) (addr_of (Z.of_nat i)) else m)) /\
  forall l, Forall is_ap l.*1 -> exists s2, ap_boots l s1 = Ok (tt, s2) /\
    (forall i p m, cpus !! i = Some (p, m) -> (i < kept)%nat -> cpu_infos s2 !! i = Some (mk_info (Z.of_nat i)
      (mp_processor_id m) (mp_lapic_id m) (bool_decide (i = b)) (b2z (bool_decide (i = b \/ i ∈ l.*1))) p)) /\
    (forall i q, last l = Some (i, q) -> uses gdt_at (Z.of_nat i) (smp_segs s2) /\ cpu_current s2 = Some (addr_of (Z.of_nat i))) /\
    ((forall i, (i < kept)%nat -> i = b \/ i ∈ l.*1) -> exists s3, smp_wait_all_online infos_at sizeof_cpu_info s2 = Ok (tt, s3)) /\
    (forall i, (i < kept)%nat -> i <> b -> i ∉ l.*1 -> smp_wait_all_online infos_at sizeof_cpu_info s2 = Timeout).
Proof.
  intros H1 Hb Hbb Hk Hlen Hlock Ht Hm.
  destruct (smp_init_ok s b pb mb H1 Hb Hbb Hk Hlen Hlock Ht Hm) as (s1 & He & Hp & Hf). exists s1. split; [exact He|].
  split; [apply Hp|]. split; [by apply current_of|]. split; [|split].
  - intros i. unfold cpu_get. rewrite (ph_count _ _ _ _ Hp), Z.leb_antisym. by destruct (i <? _).
  - intros i p m Hi. rewrite (ph_mp _ _ _ _ Hp i p m Hi). f_equal. unfold mp_at. destruct (decide (i < kept)%nat) as [Hl|Hl].
    + rewrite bool_decide_eq_true_2 by done. by destruct (is_bsp_of m).
    + rewrite bool_decide_eq_false_2 by done. by destruct m.
  - intros l Hl. destruct (ap_boots_ok l s1 [] Hp Hl) as (s2 & H2 & Hp2 & Hlast). rewrite app_nil_r in Hp2. exists s2. split; [exact H2|].
    split; [|split].
    + intros i p m Hi Hik. rewrite (ph_info _ _ _ _ Hp2 i p m Hi Hik). unfold info_at.
      rewrite (online_eq _ i p m b pb mb H1 Hb Hbb Hi), (bool_decide_ext (i = b \/ i ∈ reverse l.*1) (i = b \/ i ∈ l.*1)) by (by rewrite elem_of_reverse).
      pose proof (online_eq [] i p m b pb mb H1 Hb Hbb Hi) as Hn. rewrite (bool_decide_eq_false_2 (i ∈ [])), orb_false_r in Hn by set_solver.
      rewrite Hn. by rewrite (bool_decide_ext (i = b \/ i ∈ []) (i = b)) by set_solver.
    + intros i q Hi. destruct (Hlast i q Hi) as [Hu Hfs]. split; [done|by apply current_of].
    + destruct (wait_all_ok _ s2 b pb mb H1 Hb Hbb Hp2) as [W1 W2]. split.
      * intros Hall. apply W1. intros i Hi. rewrite elem_of_reverse. by apply Hall.
      * intros i Hi Hn Hd. apply (W2 i Hi Hn). by rewrite elem_of_reverse.
Qed.
End Spec.

(** Three CPUs, the second boots; the third comes up before the first. *)
Section Witness.
Definition demo_cpus : list (Z * mp_info) := [(0x100, mk_mp 7 0 None 0); (0x140, mk_mp 8 4 None 0); (0x180, mk_mp 9 2 None 0)].
Definition demo_report : mp_response := mk_response 4 3 [0x100; 0x140; 0x180].
Definition demo_regs : seg_regs := mk_regs (mk_gdtr 0 0) 0x28 [] 0 0.
Definition demo_call : ST nat unit := modify Datatypes.S.
Definition demo_smp : smp nat :=
  mk_smp (replicate 256 (mk_info 0 0 0 false 0 0)) 0 false (list_to_map demo_cpus) [] (boot_segs demo_regs) 0%nat.
Definition demo_boots : list (nat * seg_regs) -> ST (smp nat) unit :=
  ap_boots 0x5000 64 0x10000 0xabc demo_report demo_call demo_call demo_call demo_call demo_call (fun _ => demo_call) (fun _ => demo_call).

Lemma smp_start_spec_witness : exists s1 s2 s3,
  smp_init 0x5000 64 0xabc demo_report demo_smp = Ok (tt, s1) /\
  demo_boots [(2%nat, demo_regs); (0%nat, demo_regs)] s1 = Ok (tt, s2) /\
  cpu_current s2 = Some 0x5000 /\ uses 0x10000 0 (smp_segs s2) /\ cpu_infos s2 !! 2%nat = Some (mk_info 2 9 2 false 1 0x180) /\
  smp_wait_all_online 0x5000 64 s2 = Ok (tt, s3).
Proof.
  assert (Hr : returns demo_call) by (intros x; eexists; reflexivity).
  assert (Hb : demo_cpus !! 1%nat = Some (0x140, mk_mp 8 4 None 0)) by reflexivity.
  assert (Hone : one_bsp demo_cpus demo_report).
  { intros [|[|[|i]]] p m [|[|[|i']]] p' m' H H' B B'; try done;
      try (injection H as <- <-; discriminate B); injection H' as <- <-; discriminate B'. }
  assert (Hm : forall i p m, demo_cpus !! i = Some (p, m) -> mp_infos demo_smp !! p = Some m).
  { intros [|[|[|i]]] p m H; [injection H as <- <-; reflexivity..|discriminate H]. }
  destruct (smp_start_spec 0x5000 64 0x10000 0x20000 0xabc ltac:(lia) ltac:(lia) demo_cpus demo_report eq_refl eq_refl
    ltac:(repeat constructor; set_solver) demo_call demo_call demo_call demo_call demo_call (fun _ => demo_call) (fun _ => demo_call)
    Hr Hr Hr Hr Hr (fun _ => Hr) (fun _ => Hr) demo_smp 1%nat _ _ Hone Hb eq_refl ltac:(unfold kept; cbn; lia) eq_refl eq_refl
    (boot_segs_ok _ _) Hm) as (s1 & H1 & _ & _ & _ & _ & Hl).
  destruct (Hl [(2%nat, demo_regs); (0%nat, demo_regs)]) as (s2 & H2 & Hi & Hlast & Hall & _).
  { repeat constructor; [exists 0x180, (mk_mp 9 2 None 0)|exists 0x100, (mk_mp 7 0 None 0)]; repeat split; unfold kept; cbn; lia. }
  destruct Hall as [s3 H3].
  { intros [|[|[|i]]] Hk; [right; set_solver|by left|right; set_solver|unfold kept in Hk; cbn in Hk; lia]. }
  exists s1, s2, s3. destruct (Hlast 0%nat demo_regs eq_refl) as [Hu Hc].
  split; [exact H1|]. split; [exact H2|]. split; [exact Hc|]. split; [exact Hu|]. split; [|exact H3].
  rewrite (Hi 2%nat 0x180 (mk_mp 9 2 None 0) eq_refl ltac:(unfold kept; cbn; lia)). reflexivity.
Defined.
End Witness.
