(* ===== verification/Time.v ===== *)
(** Time: the source of time of [kernel/src/sys/time.c], the time stamp counter
    calibrated by the interval timer, [kernel/src/dev/pit.c], and the serial
    port, [kernel/src/dev/uart.c].

    Ports and the time stamp counter are a parameter, the class [Ports]. The
    waits for a device are loops without a bound in the code; they take fuel
    here, and running out of it is [Timeout]. *)
From S2P Require Import Prelude.

Class Ports (W : Type) := {
  inb : Z -> W -> Z * W;          (* port *)
  outb : Z -> Z -> W -> W;        (* port, value *)
  rdtsc : W -> Z * W;
}.

(** ** [sys/time.c] *)

(** A source over a state [P]; the functions are pointers that may be null. *)
Record time_source (P : Type) := mk_source {
  ts_name : option (list Z);
  ts_read_us : option (ST P Z);
  ts_read_hz : option (ST P Z);
  ts_stable : bool }.
Arguments mk_source {P}.
Arguments ts_name {P}.
Arguments ts_read_us {P}.
Arguments ts_read_hz {P}.
Arguments ts_stable {P}.

Record timekeeping (P : Type) := mk_time { active_time_source : option (time_source P); below : P }.
Arguments mk_time {P}.
Arguments active_time_source {P}.
Arguments below {P}.

Section time.
Context {P : Type}.
Abbreviation S := (timekeeping P).

Definition set_source (x : option (time_source P)) (s : S) : S := mk_time x (below s).
Definition on_below {A} (f : ST P A) : ST S A := fun s =>
  match f (below s) with
  | Ok (a, p) => Ok (a, mk_time (active_time_source s) p)
  | Panic => Panic | Fault => Fault | Timeout => Timeout
  end.

Definition time_init : ST S unit := modify (set_source None).

Definition time_register_source (source : option (time_source P)) : ST S unit :=
  match source with
  | None => mret tt
  | Some x => match ts_read_us x with None => mret tt | Some _ => modify (set_source source) end
  end.

Definition time_uptime_us : ST S Z :=
  a ← gets active_time_source;
  match a with
  | None => mret 0
  | Some x => match ts_read_us x with Some f => on_below f | None => st_fault end
  end.

Definition time_source_hz : ST S Z :=
  a ← gets active_time_source;
  match a with
  | None => mret 0
  | Some x => match ts_read_hz x with Some f => on_below f | None => mret 0 end
  end.

(** "none" and "unknown" *)
Definition none_name : list Z := [110; 111; 110; 101; NUL].
Definition unknown_name : list Z := [117; 110; 107; 110; 111; 119; 110; NUL].
Definition time_source_name (s : S) : list Z :=
  match active_time_source s with
  | None => none_name
  | Some x => default unknown_name (ts_name x)
  end.
Definition time_source_is_stable (s : S) : bool :=
  match active_time_source s with None => false | Some x => ts_stable x end.
End time.

(** ** [dev/pit.c] *)

Definition PIT_HZ : Z := 1193182.
Definition PIT_CALIBRATE_MS : Z := 50.
Definition PIT_CALIBRATE_COUNT : Z := PIT_HZ * PIT_CALIBRATE_MS / 1000.

Record pit (W : Type) := mk_pit { pit_tsc_hz : Z; boot_tsc : Z; hw : W }.
Arguments mk_pit {W}.
Arguments pit_tsc_hz {W}.
Arguments boot_tsc {W}.
Arguments hw {W}.

Section pit.
Context {W : Type} `{!Ports W}.

Definition set_hw (w : W) (p : pit W) : pit W := mk_pit (pit_tsc_hz p) (boot_tsc p) w.
Definition set_hz (hz : Z) (p : pit W) : pit W := mk_pit hz (boot_tsc p) (hw p).
Definition do_inb (port : Z) : ST (pit W) Z := fun p => let r := inb port (hw p) in Ok (r.1, set_hw r.2 p).
Definition do_outb (port v : Z) : ST (pit W) unit := modify (fun p => set_hw (outb port v (hw p)) p).
Definition do_rdtsc : ST (pit W) Z := fun p => let r := rdtsc (hw p) in Ok (r.1, set_hw r.2 p).

Definition pit_tsc_delta_to_us (delta : Z) (p : pit W) : Z :=
  if pit_tsc_hz p =? 0 then 0 else
  u64 (u64 (delta / pit_tsc_hz p * 1000000) + u64 (delta mod pit_tsc_hz p * 1000000) / pit_tsc_hz p).

Definition pit_time_read_us : ST (pit W) Z :=
  b ← gets boot_tsc;
  if b =? 0 then mret 0 else
  now ← do_rdtsc;
  if now <? b then mret 0 else gets (pit_tsc_delta_to_us (now - b)).

Definition pit_time_read_hz : ST (pit W) Z := gets pit_tsc_hz.

(** "pit-tsc" *)
Definition pit_tsc_time_source : time_source (pit W) :=
  mk_source (Some [112; 105; 116; 45; 116; 115; 99; NUL]) (Some pit_time_read_us) (Some pit_time_read_hz) true.

(** [while ((inb(0x61) & 0x20) == 0);] *)
Fixpoint pit_wait (fuel : nat) : ST (pit W) unit :=
  match fuel with
  | O => st_timeout
  | S fuel => v ← do_inb 0x61; if Z.land v 0x20 =? 0 then pit_wait fuel else mret tt
  end.

Definition clear_bits (v m : Z) : Z := Z.land v (255 - m).

Definition pit_calibrate_tsc (fuel : nat) : ST (pit W) Z :=
  let count := u16 PIT_CALIBRATE_COUNT in
  do_outb 0x43 0xB0 ;;
  do_outb 0x42 (Z.land count 0xff) ;;
  do_outb 0x42 (Z.shiftr count 8) ;;
  port61 ← do_inb 0x61;
  let port61 := clear_bits (clear_bits port61 0x02) 0x01 in
  do_outb 0x61 port61 ;;
  do_outb 0x61 (Z.lor port61 0x01) ;;
  start ← do_rdtsc;
  pit_wait fuel ;;
  end_ ← do_rdtsc;
  mret (u64 (u64 (end_ - start) * PIT_HZ) / count).

Definition pit_init (fuel : nat) : ST (timekeeping (pit W)) unit :=
  hz ← on_below (pit_calibrate_tsc fuel);
  on_below (modify (set_hz hz)) ;;
  hz ← gets (fun s => pit_tsc_hz (below s));
  if negb (hz =? 0) then time_register_source (Some pit_tsc_time_source) else mret tt.
End pit.

(** ** [dev/uart.c] *)

Definition DEFAULT_UART_PORT : Z := 0x3F8.
Definition DEFAULT_UART_BAUD_RATE : Z := 115200.
Definition UART_REG_RBR : Z := 0.
Definition UART_REG_THR : Z := 0.
Definition UART_REG_IER : Z := 1.
Definition UART_REG_DLL : Z := 0.
Definition UART_REG_DLM : Z := 1.
Definition UART_REG_FCR : Z := 2.
Definition UART_REG_LCR : Z := 3.
Definition UART_REG_MCR : Z := 4.
Definition UART_REG_LSR : Z := 5.
Definition UART_DATA_BITS_8 : Z := 3.
Definition UART_STOP_BITS_1 : Z := 0.
Definition UART_PARITY_NONE : Z := 0.
Definition UART_FCR_TRIGGER_LEVEL_14 : Z := 0xC0.

(** The registers from their bit fields, the first field lowest. *)
Definition bits (fields : list (Z * Z)) : Z := foldr (fun f r => f.2 mod 2 ^ f.1 + 2 ^ f.1 * r) 0 fields.
Definition uart_lcr (db sb pb be dlab : Z) : Z := bits [(2, db); (1, sb); (3, pb); (1, be); (1, dlab)].
Definition uart_ier (data thr line modem : Z) : Z := bits [(1, data); (1, thr); (1, line); (1, modem); (4, 0)].
Definition uart_fcr (enable clear_rx clear_tx dma : Z) : Z := bits [(1, enable); (1, clear_rx); (1, clear_tx); (1, dma); (4, 0)].
Definition uart_mcr (dtr rts out1 out2 loop : Z) : Z := bits [(1, dtr); (1, rts); (1, out1); (1, out2); (1, loop); (3, 0)].
Definition lsr_data_ready (raw : Z) : bool := Z.testbit raw 0.
Definition lsr_thr_empty (raw : Z) : bool := Z.testbit raw 5.

Section uart.
Context {W : Type} `{!Ports W}.

Definition uart_write_reg (port offset value : Z) : ST W unit := modify (outb (u16 (port + offset)) value).
Definition uart_read_reg (port offset : Z) : ST W Z := fun w => Ok (inb (u16 (port + offset)) w).

Definition uart_transmitter_empty (port : Z) : ST W bool :=
  raw ← uart_read_reg port UART_REG_LSR; mret (lsr_thr_empty raw).
Definition uart_data_ready (port : Z) : ST W bool :=
  raw ← uart_read_reg port UART_REG_LSR; mret (lsr_data_ready raw).

Definition uart_init : ST W Z :=
  let port := DEFAULT_UART_PORT in
  let divisor := u16 (115200 / DEFAULT_UART_BAUD_RATE) in
  uart_write_reg port UART_REG_IER (uart_ier 0 0 0 0) ;;
  uart_write_reg port UART_REG_LCR (uart_lcr 0 0 0 0 1) ;;
  uart_write_reg port UART_REG_DLL (Z.land divisor 0xFF) ;;
  uart_write_reg port UART_REG_DLM (Z.land (Z.shiftr divisor 8) 0xFF) ;;
  uart_write_reg port UART_REG_LCR (uart_lcr UART_DATA_BITS_8 UART_STOP_BITS_1 UART_PARITY_NONE 0 0) ;;
  uart_write_reg port UART_REG_FCR (Z.lor (uart_fcr 1 1 1 0) UART_FCR_TRIGGER_LEVEL_14) ;;
  uart_write_reg port UART_REG_IER (uart_ier 1 1 0 0) ;;
  uart_write_reg port UART_REG_MCR (uart_mcr 0 0 0 1 1) ;;
  uart_write_reg port UART_REG_THR 0xAE ;;
  v ← uart_read_reg port UART_REG_RBR;
  if negb (v =? 0xAE) then mret (-1) else
  uart_write_reg port UART_REG_MCR (uart_mcr 0 0 0 1 0) ;;
  mret 0.

Fixpoint uart_wait (fuel : nat) (port : Z) : ST W unit :=
  match fuel with
  | O => st_timeout
  | S fuel => e ← uart_transmitter_empty port; if e : bool then mret tt else uart_wait fuel port
  end.

(** [fuel] bounds the polls before each byte. *)
Fixpoint uart_loop (fuel n : nat) (port : Z) (buf : list Z) : ST W unit :=
  match n with
  | O => mret tt
  | S n =>
      match buf with
      | [] => st_fault
      | c :: buf =>
          uart_wait fuel port ;;
          uart_write_reg port UART_REG_THR (u8 c) ;;
          uart_loop fuel n port buf
      end
  end.
Definition uart_wbuf (fuel : nat) (buf : option (list Z)) (len : Z) : ST W unit :=
  match buf with
  | None => mret tt
  | Some b => if len =? 0 then mret tt else uart_loop fuel (Z.to_nat len) DEFAULT_UART_PORT b
  end.
Definition uart_wstr (fuel : nat) (str : option (list Z)) : ST W unit :=
  match str with
  | None => mret tt
  | Some b => s ← st_lift (to_nul b); uart_wbuf fuel str (Z.of_nat (length s))
  end.
Definition uart_wch (fuel : nat) (c : Z) : ST W unit := uart_wbuf fuel (Some [c]) 1.
End uart.
