(* ===== verification/TimeSpec.v ===== *)
(** Time, [Time.v]: what the calibrated clock shows, and what goes out of the
    serial port.

    [pit_time_spec]: the registers written to start the interval timer, the
    frequency computed, and then the exact number of microseconds. The device
    ends its count within the fuel; what it answers otherwise is free.
    [uart_wstr_spec]: the bytes of a text go out in order, each after the
    transmitter was seen empty. *)
From S2P Require Import Prelude Time.

(** ** The clock *)

Section clock.
Context {W : Type} `{!Ports W}.

(** The port after [n] reads, and what the next read gives. *)
Fixpoint reads (port : Z) (n : nat) (w : W) : W := match n with O => w | S n => reads port n (inb port w).2 end.
Definition read_after (port : Z) (n : nat) (w : W) : Z := (inb port (reads port n w)).1.

(** Channel 2 in mode 0 with the count 59659, low byte first; the gate is
    lowered and raised with the speaker off, the other bits kept. *)
Definition armed (w : W) : W :=
  let r := inb 0x61 (outb 0x42 0xE9 (outb 0x42 0x0B (outb 0x43 0xB0 w))) in
  let port61 := Z.land r.1 0xFC in
  outb 0x61 (Z.lor port61 1) (outb 0x61 port61 r.2).

Lemma clear_low v : clear_bits (clear_bits v 0x02) 0x01 = Z.land v 0xFC.
Proof. unfold clear_bits. by rewrite <- Z.land_assoc. Qed.

Lemma pit_wait_ok n : forall fuel p, (n < fuel)%nat -> (forall k, (k < n)%nat -> Z.land (read_after 0x61 k (hw p)) 0x20 = 0) ->
  Z.land (read_after 0x61 n (hw p)) 0x20 <> 0 -> pit_wait fuel p = Ok (tt, set_hw (reads 0x61 (S n) (hw p)) p).
Proof.
  induction n as [|n IH]; intros [|fuel] p Hf Hl Hn; try lia; cbn [pit_wait].
  - rewrite (st_bind_ok _ _ p (inb 0x61 (hw p)).1 (set_hw (inb 0x61 (hw p)).2 p)) by done. by rewrite (proj2 (Z.eqb_neq _ _)).
  - rewrite (st_bind_ok _ _ p (inb 0x61 (hw p)).1 (set_hw (inb 0x61 (hw p)).2 p)) by done.
    rewrite (proj2 (Z.eqb_eq _ _)) by (apply (Hl 0%nat); lia).
    rewrite IH; [done|lia| |exact Hn]. intros k Hk. apply (Hl (S k)). lia.
Qed.

(** The frequency, from the counter at the start and at the end. *)
Definition calibrated (start end_ : Z) : Z := u64 (u64 (end_ - start) * 1193182) / 59659.

Lemma pit_calibrate_ok n fuel p : (n < fuel)%nat ->
  let w := (rdtsc (armed (hw p))).2 in
  (forall k, (k < n)%nat -> Z.land (read_after 0x61 k w) 0x20 = 0) -> Z.land (read_after 0x61 n w) 0x20 <> 0 ->
  let r := rdtsc (reads 0x61 (S n) w) in
  pit_calibrate_tsc fuel p = Ok (calibrated (rdtsc (armed (hw p))).1 r.1, set_hw r.2 p).
Proof.
  intros Hf w Hl Hn r. unfold pit_calibrate_tsc. change (u16 PIT_CALIBRATE_COUNT) with 59659.
  change (Z.land 59659 0xff) with 0x0B. change (Z.shiftr 59659 8) with 0xE9. unfold do_outb. rewrite !modify_bind.
  match goal with |- (do_inb _ ≫= _) ?p0 = _ => set (q := p0) end.
  rewrite (st_bind_ok (do_inb 0x61) _ q (inb 0x61 (hw q)).1 (set_hw (inb 0x61 (hw q)).2 q)) by done.
  rewrite clear_low, !modify_bind.
  match goal with |- (do_rdtsc ≫= _) ?p0 = _ => change p0 with (set_hw (armed (hw p)) p) end.
  rewrite (st_bind_ok do_rdtsc _ _ (rdtsc (armed (hw p))).1 (set_hw w p)) by done.
  rewrite (st_bind_ok _ _ _ _ _ (pit_wait_ok n fuel (set_hw w p) Hf Hl Hn)). done.
Qed.

Lemma below_ok {A} (f : ST (pit W) A) (s : timekeeping (pit W)) a p : f (below s) = Ok (a, p) ->
  on_below f s = Ok (a, mk_time (active_time_source s) p).
Proof. intros Hf. unfold on_below. by rewrite Hf. Qed.

(** The two products cannot overflow while the frequency is below 18 THz. *)
Lemma delta_exact hz (p : pit W) d : pit_tsc_hz p = hz -> 0 < hz -> hz * 1000000 <= 2 ^ 64 -> 0 <= d ->
  pit_tsc_delta_to_us d p = u64 (d * 1000000 / hz).
Proof.
  intros Hz H0 H1 Hd. unfold pit_tsc_delta_to_us. rewrite Hz, (proj2 (Z.eqb_neq _ _)) by lia.
  pose proof (Z.mod_pos_bound d hz H0). rewrite (u64_small (d mod hz * 1000000)) by nia. rewrite u64_add_l. f_equal.
  rewrite (Z.div_mod d hz) at 3 by lia. replace ((hz * (d / hz) + d mod hz) * 1000000) with (d / hz * 1000000 * hz + d mod hz * 1000000) by ring.
  by rewrite Z.div_add_l by lia.
Qed.

(** The time that a clock of frequency [hz] shows, [b] the counter at boot. *)
Definition clock_us (hz b now : Z) : Z := if decide (b = 0 \/ now < b) then 0 else u64 ((now - b) * 1000000 / hz).

Lemma uptime_ok (s : timekeeping (pit W)) hz b : active_time_source s = Some pit_tsc_time_source -> pit_tsc_hz (below s) = hz -> boot_tsc (below s) = b ->
  0 < hz -> hz * 1000000 <= 2 ^ 64 ->
  exists w, time_uptime_us s = Ok (clock_us hz b (rdtsc (hw (below s))).1, mk_time (active_time_source s) (set_hw w (below s))) /\
    (b = 0 \/ w = (rdtsc (hw (below s))).2).
Proof.
  intros Ha Hz Hb H0 H1. set (r := rdtsc (hw (below s))). unfold time_uptime_us. rewrite gets_bind, Ha. cbn [ts_read_us pit_tsc_time_source].
  unfold clock_us. destruct (decide (b = 0)) as [->|Hb0].
  - exists (hw (below s)). split; [|by left]. rewrite decide_True by auto. rewrite <- Ha. apply below_ok. unfold pit_time_read_us.
    rewrite gets_bind, Hb. cbn. by destruct (below s).
  - exists r.2. split; [|by right]. rewrite <- Ha. apply below_ok. unfold pit_time_read_us. rewrite gets_bind, Hb, (proj2 (Z.eqb_neq _ _)) by done.
    rewrite (st_bind_ok do_rdtsc _ _ r.1 (set_hw r.2 (below s))) by done. destruct (Z.ltb_spec r.1 b).
    + by rewrite decide_True by auto.
    + rewrite decide_False by lia. unfold gets. rewrite (delta_exact hz) by (done || lia). done.
Qed.

(** The clock. [time_init] and [pit_init] end when the timer ends its count,
    having armed channel 2 with 59659, 50 ms; the frequency is what the counter
    advanced between the two reads, times 1193182, over 59659. When it is 0 no
    source is registered and the time is 0. Otherwise, up to 18 THz, the time
    is from then on 0 until [boot_tsc] is set, and exactly the microseconds
    since then, rounded down, without an overflow in between; it does not go
    back while the counter does not, up to the wrap at [2 ^ 64]. *)
Theorem pit_time_spec n fuel s : (n < fuel)%nat ->
  let w := (rdtsc (armed (hw (below s)))).2 in
  (forall k, (k < n)%nat -> Z.land (read_after 0x61 k w) 0x20 = 0) -> Z.land (read_after 0x61 n w) 0x20 <> 0 ->
  let hz := calibrated (rdtsc (armed (hw (below s)))).1 (rdtsc (reads 0x61 (S n) w)).1 in
  exists s1, (time_init ;; pit_init fuel) s = Ok (tt, s1) /\ pit_tsc_hz (below s1) = hz /\ boot_tsc (below s1) = boot_tsc (below s) /\
  (hz = 0 -> time_uptime_us s1 = Ok (0, s1) /\ time_source_name s1 = none_name) /\
  (0 < hz -> hz * 1000000 <= 2 ^ 64 -> forall b w,
    let s2 := mk_time (active_time_source s1) (mk_pit hz b w) in
    (exists w', time_uptime_us s2 = Ok (clock_us hz b (rdtsc w).1, mk_time (active_time_source s1) (mk_pit hz b w'))) /\
    time_source_hz s2 = Ok (hz, s2) /\ time_source_is_stable s2 = true) /\
  (forall b t t', 0 < hz -> 0 <= b -> t <= t' -> (t' - b) * 1000000 / hz < 2 ^ 64 -> clock_us hz b t <= clock_us hz b t').
Proof.
  intros Hf w Hl Hn hz. set (p1 := set_hz hz (set_hw (rdtsc (reads 0x61 (S n) w)).2 (below s))).
  exists (mk_time (if hz =? 0 then None else Some pit_tsc_time_source) p1).
  assert (Hinit : (time_init ;; pit_init fuel) s = Ok (tt, mk_time (if hz =? 0 then None else Some pit_tsc_time_source) p1)).
  { unfold time_init, pit_init. rewrite modify_bind.
    rewrite (st_bind_ok _ _ _ _ _ (below_ok _ (set_source None s) _ _ (pit_calibrate_ok n fuel (below s) Hf Hl Hn))).
    fold w hz. rewrite (st_bind_ok _ _ _ tt (mk_time None p1)) by done. rewrite gets_bind. cbn [below pit_tsc_hz p1 set_hz].
    destruct (hz =? 0); done. }
  split; [exact Hinit|]. split; [done|]. split; [done|]. split; [|split].
  - intros ->. done.
  - intros H0 H1 b w2. cbn [active_time_source]. rewrite (proj2 (Z.eqb_neq hz 0)) by lia.
    destruct (uptime_ok (mk_time (Some pit_tsc_time_source) (mk_pit hz b w2)) hz b eq_refl eq_refl eq_refl H0 H1) as (w' & Hu & _). split; [exists w'; exact Hu|done].
  - intros b t t' H0 Hb Ht Hw. unfold clock_us. destruct (decide (b = 0 \/ t < b)) as [Hd|Hd].
    + case_decide; [done|]. apply u64_range.
    + rewrite decide_False by lia. assert ((t - b) * 1000000 / hz <= (t' - b) * 1000000 / hz) by (apply Z.div_le_mono; lia).
      assert (0 <= (t - b) * 1000000 / hz) by (apply Z.div_pos; lia). rewrite !u64_small by lia. done.
Qed.
End clock.

(** ** The serial port *)

(** What the transmitter has been given; reading the status changes nothing of
    it, and a write to the data register appends a byte. *)
Class SerialPort (W : Type) `{Ports W} := {
  sent : W -> list Z;
  status_keeps w : sent (inb 0x3FD w).2 = sent w;
  data_sends c w : sent (outb 0x3F8 c w) = sent w ++ [c];
}.

Section serial.
Context {W : Type} `{SerialPort W} (fuel : nat).
(** The transmitter is empty within [fuel] polls, whatever was sent. *)
Context (drains : forall w, exists n, (n < fuel)%nat /\ lsr_thr_empty (read_after 0x3FD n w) = true).

Lemma mret_bind {A B} (a : A) (f : A -> ST W B) w : (mret (M := ST W) a ≫= f) w = f a w.
Proof. done. Qed.

Lemma uart_wait_ok n : forall fuel (w : W), (n < fuel)%nat -> lsr_thr_empty (read_after 0x3FD n w) = true ->
  exists w', uart_wait fuel DEFAULT_UART_PORT w = Ok (tt, w') /\ sent w' = sent w.
Proof.
  induction n as [|n IH]; intros [|f] w Hf Hn; try lia; cbn [uart_wait]; unfold uart_transmitter_empty, uart_read_reg;
    change (u16 (DEFAULT_UART_PORT + UART_REG_LSR)) with 0x3FD; rewrite bind_assoc;
    rewrite (st_bind_ok _ _ w (inb 0x3FD w).1 (inb 0x3FD w).2) by (by destruct (inb 0x3FD w)).
  - exists (inb 0x3FD w).2. split; [|apply status_keeps]. change (read_after 0x3FD 0 w) with (inb 0x3FD w).1 in Hn.
    by rewrite mret_bind, Hn.
  - rewrite mret_bind. destruct (lsr_thr_empty (inb 0x3FD w).1).
    + exists (inb 0x3FD w).2. split; [done|apply status_keeps].
    + destruct (IH f (inb 0x3FD w).2) as (w' & H1 & H2); [lia|exact Hn|]. exists w'. split; [exact H1|]. by rewrite H2, status_keeps.
Qed.

Lemma uart_loop_ok t rest : forall (w : W), Forall (fun c => 0 <= c < 256) t ->
  exists w', uart_loop fuel (length t) DEFAULT_UART_PORT (t ++ rest) w = Ok (tt, w') /\ sent w' = sent w ++ t.
Proof.
  induction t as [|c t IH]; intros w Ht; [exists w; by rewrite app_nil_r|]. apply Forall_cons in Ht as [Hc Ht].
  cbn [length app uart_loop]. destruct (drains w) as (n & Hn & He). destruct (uart_wait_ok n fuel w Hn He) as (w1 & H1 & Hs1).
  rewrite (st_bind_ok _ _ _ _ _ H1). unfold uart_write_reg at 1. rewrite modify_bind.
  change (u16 (DEFAULT_UART_PORT + UART_REG_THR)) with 0x3F8. unfold u8. rewrite Z.mod_small by done.
  destruct (IH (outb 0x3F8 c w1) Ht) as (w2 & H2 & Hs2). exists w2. split; [exact H2|]. by rewrite Hs2, data_sends, Hs1, <- app_assoc.
Qed.

Definition writes (l : list (Z * Z)) (w : W) : W := foldl (fun w e => outb e.1 e.2 w) w l.

(** The serial port. [uart_init] sets 115200 baud, 8 data bits, no parity,
    one stop bit and the FIFOs, then sends 0xAE to itself in loopback: it
    returns 0, out of loopback, exactly when that byte comes back. [uart_wstr]
    gives the transmitter the bytes of the text before its terminator, in
    order and once each, and always ends while the transmitter drains;
    [uart_wbuf] does so with the first [len] bytes, whatever they are. *)
Theorem uart_spec (w : W) :
  (let w1 := writes [(0x3F9, 0); (0x3FB, 0x80); (0x3F8, 1); (0x3F9, 0); (0x3FB, 3); (0x3FA, 0xC7); (0x3F9, 3); (0x3FC, 0x18); (0x3F8, 0xAE)] w in
   let r := inb 0x3F8 w1 in
   uart_init w = if decide (r.1 = 0xAE) then Ok (0, outb 0x3FC 8 r.2) else Ok (-1, r.2)) /\
  (forall t rest, Forall (fun c => 0 <= c < 256) t -> NUL ∉ t ->
    exists w', uart_wstr fuel (Some (t ++ NUL :: rest)) w = Ok (tt, w') /\ sent w' = sent w ++ t) /\
  (forall t rest, Forall (fun c => 0 <= c < 256) t ->
    exists w', uart_wbuf fuel (Some (t ++ rest)) (Z.of_nat (length t)) w = Ok (tt, w') /\ sent w' = sent w ++ t).
Proof.
  assert (Hb : forall t rest, Forall (fun c => 0 <= c < 256) t ->
    exists w', uart_wbuf fuel (Some (t ++ rest)) (Z.of_nat (length t)) w = Ok (tt, w') /\ sent w' = sent w ++ t).
  { intros t rest Ht. unfold uart_wbuf. destruct (Z.eqb_spec (Z.of_nat (length t)) 0) as [Hz|Hz].
    - destruct t; [|cbn in Hz; lia]. exists w. by rewrite app_nil_r.
    - rewrite Nat2Z.id. by apply uart_loop_ok. }
  split; [|split; [|exact Hb]].
  - intros w1 r. unfold uart_init, uart_write_reg. cbv zeta. rewrite !modify_bind. unfold uart_read_reg.
    match goal with |- (_ ≫= _) ?x = _ => change x with w1 end.
    rewrite (st_bind_ok _ _ w1 r.1 r.2) by (cbn beta; change (inb _ w1) with r; by destruct r).
    destruct (Z.eqb_spec r.1 0xAE); [rewrite decide_True by done|rewrite decide_False by done]; done.
  - intros t rest Ht Hn. unfold uart_wstr. rewrite (lift_bind _ _ _ t) by (by apply to_nul_app). by apply Hb.
Qed.
End serial.

(** ** Witnesses *)

(** A machine whose timer is done at the second poll and whose counter shows
    twice 100 million ticks more at each read. *)
Record demo_hw := mk_demo { d_tsc : Z; d_polls : nat; d_sent : list Z }.
#[local] Instance demo_hw_ports : Ports demo_hw := {|
  inb := fun port w => if port =? 0x61 then (if decide (d_polls w = 3%nat) then 0x20 else 0, mk_demo (d_tsc w) (S (d_polls w)) (d_sent w))
                       else (0x20, w);
  outb := fun port v w => if port =? 0x3F8 then mk_demo (d_tsc w) (d_polls w) (d_sent w ++ [v]) else w;
  rdtsc := fun w => (d_tsc w, mk_demo (d_tsc w + 100000000) (d_polls w) (d_sent w));
|}.
#[local] Instance demo_serial : SerialPort demo_hw.
Proof. refine {| sent := d_sent |}; done. Defined.

Definition demo_time : timekeeping (pit demo_hw) := mk_time None (mk_pit 0 0 (mk_demo 5000 0 [])).

Lemma pit_time_spec_witness : exists s1, (time_init ;; pit_init 5) demo_time = Ok (tt, s1) /\ pit_tsc_hz (below s1) = 2000003352 /\
  time_source_hz s1 = Ok (2000003352, s1) /\ clock_us 2000003352 7 2000003359 = 1000000.
Proof.
  destruct (pit_time_spec 2 5 demo_time) as (s1 & H1 & H2 & H3 & _ & Ht & _).
  - lia.
  - intros [|[|k]] Hk; try lia; vm_compute; reflexivity.
  - vm_compute. discriminate.
  - exists s1. split; [exact H1|]. assert (Hz : pit_tsc_hz (below s1) = 2000003352) by (rewrite H2; vm_compute; reflexivity).
    split; [exact Hz|]. rewrite <- H2, Hz in Ht.
    destruct (Ht ltac:(lia) ltac:(lia) (boot_tsc (below s1)) (hw (below s1))) as (_ & Hh & _).
    split; [|vm_compute; reflexivity]. destruct s1 as [a [hz b w]]. cbn in *. subst hz. exact Hh.
Defined.

Lemma uart_spec_witness : exists w', uart_wstr 1 (Some [72; 105; 0]) (mk_demo 0 0 []) = Ok (tt, w') /\ d_sent w' = [72; 105].
Proof.
  destruct (uart_spec (W := demo_hw) 1) with (w := mk_demo 0 0 []) as (_ & Hs & _).
  - intros w. exists 0%nat. split; [lia|reflexivity].
  - apply (Hs [72; 105] []); [repeat constructor; lia|]. unfold NUL. rewrite !not_elem_of_cons. repeat split; [lia|lia|apply not_elem_of_nil].
Defined.
