(* ===== verification/Timer.v ===== *)
(** The timer of each CPU, [kernel/src/sys/timer.c]: the programming of the
    local APIC, its calibration against the interval timer, the initialisation
    that the CPUs run at the same time, and the interrupt.

    [timer_init] is a step function of one CPU over the variables that all
    share: a step is one atomic operation of the code, or code between two that
    touches nothing shared. The calibration is one step: the interval timer is
    shared too, and [TimerSpec.v] proves that no two CPUs are there at once.
    The registers of the local timer belong to their CPU; its current count is
    a parameter, as the ports are. *)
From S2P Require Import Prelude Time.

Definition MAX_CPUS : Z := 256.
Definition TIMER_VECTOR : Z := 0xF0.
Definition APIC_LVT_TIMER_PERIODIC : Z := 2 ^ 17.
Definition TIMER_CAL_MS : Z := 10.
Definition TIMER_DIVIDE : Z := 3.
Definition TIMER_CALIBRATE_COUNT : Z := PIT_HZ * TIMER_CAL_MS / 1000.
Definition TIMER_APIC_MAX : Z := 0xFFFFFFFF.

Class CurrentCount (W : Type) := { lapic_current : W -> Z * W }.

(** The registers of a local timer that are written. *)
Record timer_regs := mk_regs { t_divide : Z; t_lvt : Z; t_initcnt : Z }.

Section lapic.
Context {W : Type} `{!Ports W, !CurrentCount W}.
Abbreviation M := (timer_regs * W)%type.

Definition write_divide (v : Z) : ST M unit := modify (fun m => (mk_regs v (t_lvt m.1) (t_initcnt m.1), m.2)).
Definition write_lvt (v : Z) : ST M unit := modify (fun m => (mk_regs (t_divide m.1) v (t_initcnt m.1), m.2)).
Definition write_initcnt (v : Z) : ST M unit := modify (fun m => (mk_regs (t_divide m.1) (t_lvt m.1) v, m.2)).
Definition read_currcnt : ST M Z := fun m => let r := lapic_current m.2 in Ok (r.1, (m.1, r.2)).
Definition m_inb (port : Z) : ST M Z := fun m => let r := inb port m.2 in Ok (r.1, (m.1, r.2)).
Definition m_outb (port v : Z) : ST M unit := modify (fun m => (m.1, outb port v m.2)).

Definition timer_program_apic (reload : Z) : ST M Z :=
  let reload := if reload =? 0 then 1 else reload in
  write_divide TIMER_DIVIDE ;;
  write_lvt (Z.lor TIMER_VECTOR APIC_LVT_TIMER_PERIODIC) ;;
  write_initcnt reload ;;
  mret reload.

(** [while ((inb(0x61) & 0x20) == 0);] *)
Fixpoint timer_wait (fuel : nat) : ST M unit :=
  match fuel with
  | O => st_timeout
  | S fuel => v ← m_inb 0x61; if Z.land v 0x20 =? 0 then timer_wait fuel else mret tt
  end.

Definition timer_calibrate_reload (fuel : nat) (hz : Z) : ST M Z :=
  let pit_count := u16 TIMER_CALIBRATE_COUNT in
  port61 ← m_inb 0x61;
  if hz =? 0 then mret 0 else
  write_divide TIMER_DIVIDE ;;
  write_lvt (Z.lor TIMER_VECTOR APIC_LVT_TIMER_PERIODIC) ;;
  write_initcnt TIMER_APIC_MAX ;;
  m_outb 0x43 0xB0 ;;
  m_outb 0x42 (u8 (Z.land pit_count 0xff)) ;;
  m_outb 0x42 (u8 (Z.shiftr pit_count 8)) ;;
  let port61 := clear_bits (clear_bits port61 0x02) 0x01 in
  m_outb 0x61 port61 ;;
  let port61 := Z.lor port61 0x01 in
  m_outb 0x61 port61 ;;
  timer_wait fuel ;;
  current ← read_currcnt;
  let elapsed := u32 (TIMER_APIC_MAX - current) in
  let reload := u64 (elapsed * 100) / hz in
  m_outb 0x61 port61 ;;
  let reload := if reload =? 0 then 1 else reload in
  mret (u32 reload).
End lapic.

(** ** [timer_init] *)

(** Where a CPU is in [timer_init(hz)]; [r] is its local [reload]. *)
Inductive pc :=
| Enter (hz : Z)                (* cpu_current() *)
| CasVector (hz : Z)            (* compare and exchange of timer_vector_installed *)
| InstallVector (hz : Z)        (* irq_install_vector *)
| LoadReload (hz : Z)           (* the load of timer_reload *)
| CasCalibrating (hz : Z)       (* compare and exchange of timer_calibrating *)
| Calibrate (hz : Z)
| StoreReload (r : Z)
| StoreCalibrating (r : Z)
| Wait                          (* the loop that loads timer_reload *)
| Program (r : Z)
| Returned.

Record cpu_timer := mk_cpu { c_pc : pc; c_regs : timer_regs; c_known : bool (* cpu_current() is not null *); c_lapic : Z }.

Record timer (W : Type) := mk_timer {
  timer_reload : Z;
  timer_calibrating : Z;
  timer_vector_installed : Z;
  vector_calls : list Z;        (* the local APICs that irq_install_vector was called with *)
  cpus : list cpu_timer;
  hw : W }.
Arguments mk_timer {W}.
Arguments timer_reload {W}.
Arguments timer_calibrating {W}.
Arguments timer_vector_installed {W}.
Arguments vector_calls {W}.
Arguments cpus {W}.
Arguments hw {W}.

Section init.
Context {W : Type} `{!Ports W, !CurrentCount W} (fuel : nat).
Abbreviation T := (timer W).

Definition set_cpu (i : nat) (c : cpu_timer) (s : T) : T :=
  mk_timer (timer_reload s) (timer_calibrating s) (timer_vector_installed s) (vector_calls s) (<[i := c]> (cpus s)) (hw s).
Definition goto (i : nat) (c : cpu_timer) (p : pc) (s : T) : T := set_cpu i (mk_cpu p (c_regs c) (c_known c) (c_lapic c)) s.
Definition set_reload (v : Z) (s : T) : T :=
  mk_timer v (timer_calibrating s) (timer_vector_installed s) (vector_calls s) (cpus s) (hw s).
Definition set_calibrating (v : Z) (s : T) : T :=
  mk_timer (timer_reload s) v (timer_vector_installed s) (vector_calls s) (cpus s) (hw s).
Definition set_installed (v : Z) (s : T) : T :=
  mk_timer (timer_reload s) (timer_calibrating s) v (vector_calls s) (cpus s) (hw s).
Definition call_install (lapic : Z) (s : T) : T :=
  mk_timer (timer_reload s) (timer_calibrating s) (timer_vector_installed s) (vector_calls s ++ [lapic]) (cpus s) (hw s).
(** Runs code on the registers of CPU [i] and the machine, and goes to [p]. *)
Definition on_lapic {A} (i : nat) (c : cpu_timer) (f : ST (timer_regs * W) A) (p : A -> pc) (s : T) : outcome T :=
  '(a, (r, w)) ← f (c_regs c, hw s);
  Ok (mk_timer (timer_reload s) (timer_calibrating s) (timer_vector_installed s) (vector_calls s)
        (<[i := mk_cpu (p a) r (c_known c) (c_lapic c)]> (cpus s)) w).

(** The next step of CPU [i]; a CPU that has returned, or is no CPU, stays. *)
Definition timer_step (i : nat) (s : T) : outcome T :=
  match cpus s !! i with
  | None => Ok s
  | Some c =>
      match c_pc c with
      | Enter hz => Ok (goto i c (if c_known c then CasVector hz else Returned) s)
      | CasVector hz =>
          if timer_vector_installed s =? 0 then Ok (set_installed 1 (goto i c (InstallVector hz) s)) else Ok (goto i c (LoadReload hz) s)
      | InstallVector hz => Ok (call_install (c_lapic c) (goto i c (LoadReload hz) s))
      | LoadReload hz => Ok (goto i c (if timer_reload s =? 0 then CasCalibrating hz else Program (timer_reload s)) s)
      | CasCalibrating hz =>
          if timer_calibrating s =? 0 then Ok (set_calibrating 1 (goto i c (Calibrate hz) s)) else Ok (goto i c Wait s)
      | Calibrate hz => on_lapic i c (timer_calibrate_reload fuel hz) (fun r => StoreReload (if r =? 0 then 1 else r)) s
      | StoreReload r => Ok (set_reload r (goto i c (StoreCalibrating r) s))
      | StoreCalibrating r => Ok (set_calibrating 0 (goto i c (Program r) s))
      | Wait => Ok (if timer_reload s =? 0 then s else goto i c (Program (timer_reload s)) s)
      | Program r => on_lapic i c (timer_program_apic r) (fun _ => Returned) s
      | Returned => Ok s
      end
  end.

(** The steps of the CPUs in the order given. *)
Fixpoint timer_run (order : list nat) (s : T) : outcome T :=
  match order with [] => Ok s | i :: order => s ← timer_step i s; timer_run order s end.
End init.

(** ** The interrupt *)

(** A CPU by its index and the number of its local APIC. *)
Record cpu_ids := mk_ids { i_index : Z; i_lapic : Z }.

Fixpoint current_loop (l : list cpu_ids) (lapic_id : Z) : option cpu_ids :=
  match l with
  | [] => None
  | c :: l => if i_lapic c =? lapic_id then Some c else current_loop l lapic_id
  end.
(** [apic_id] is the register; [current] is [cpu_current()]. *)
Definition timer_current_cpu (infos : list cpu_ids) (apic_id : Z) (current : option cpu_ids) : option cpu_ids :=
  match current_loop infos (Z.shiftr apic_id 24) with Some c => Some c | None => current end.

Section irq.
(** [send_eoi] is [apic_send_eoi], [tick] is [sched_tick]. *)
Context {S : Type} (get_ticks : S -> list Z) (set_ticks : list Z -> S -> S) (send_eoi tick : ST S unit).

Definition timer_irq (infos : list cpu_ids) (apic_id : Z) (current : option cpu_ids) (frame : Z) : ST S Z :=
  let cpu := timer_current_cpu infos apic_id current in
  let index := match cpu with Some c => i_index c | None => 0 end in
  ticks ← gets get_ticks;
  (if index <? MAX_CPUS then
     old ← st_lift (deref (ticks !! Z.to_nat index));
     modify (set_ticks (<[Z.to_nat index := u64 (old + 1)]> ticks))
   else mret tt) ;;
  send_eoi ;;
  tick ;;
  mret frame.

Definition timer_cpu_ticks (cpu_index : Z) : ST S Z :=
  if MAX_CPUS <=? cpu_index then mret 0 else
  ticks ← gets get_ticks; st_lift (deref (ticks !! Z.to_nat cpu_index)).
End irq.
