(* ===== verification/TimerSpec.v ===== *)
(** The timer of each CPU, [Timer.v]: CPUs that run [timer_init] at the same
    time.

    [timer_inv] is the invariant of every interleaving. [timer_init_safe]: the
    calibration is exclusive, the handler is installed once, and a CPU returns
    with its timer running. [timer_init_returns]: if every CPU keeps running,
    every one of them returns. What is not guaranteed, that all of them run at
    the rate they asked for, is shown at the end. *)
From S2P Require Import Prelude Time TimeSpec Timer.

(** ** Lists of CPUs *)

Lemma sum_insert (f : cpu_timer -> nat) l i c c' : l !! i = Some c ->
  (sum_list (f <$> <[i := c']> l) + f c = sum_list (f <$> l) + f c')%nat.
Proof.
  revert i. induction l as [|x l IH]; intros [|i] Hi; try done.
  - injection Hi as ->. simpl. lia.
  - specialize (IH i Hi). simpl. unfold fmap, insert in *. lia.
Qed.

(** How many CPUs are at a place. *)
Definition at_place (p : pc -> bool) (c : cpu_timer) : nat := if p (c_pc c) then 1 else 0.
Definition how_many {W} (p : pc -> bool) (s : timer W) : nat := sum_list (at_place p <$> cpus s).

Lemma sum_pos (f : cpu_timer -> nat) l : sum_list (f <$> l) <> 0%nat -> exists i c, l !! i = Some c /\ f c <> 0%nat.
Proof.
  induction l as [|x l IH]; cbn; [done|]. intros H. destruct (decide (f x = 0%nat)) as [Hx|Hx].
  - destruct IH as (i & c & Hi & Hc); [lia|]. by exists (S i), c.
  - by exists 0%nat, x.
Qed.

Lemma sum_at (f : cpu_timer -> nat) l i c : l !! i = Some c -> (f c <= sum_list (f <$> l))%nat.
Proof. revert i. induction l as [|x l IH]; intros [|i] Hi; cbn in *; [done|done|simplify_eq; lia|]. specialize (IH i Hi). lia. Qed.

Lemma sum_two (f : cpu_timer -> nat) l i j c d : l !! i = Some c -> l !! j = Some d -> i <> j -> (f c + f d <= sum_list (f <$> l))%nat.
Proof.
  revert i j. induction l as [|x l IH]; intros [|i] [|j] Hi Hj Hne; cbn in *; try done; simplify_eq.
  - pose proof (sum_at f l j d Hj). lia.
  - pose proof (sum_at f l i c Hi). lia.
  - specialize (IH i j Hi Hj ltac:(congruence)). lia.
Qed.

(** ** The invariant *)

Definition calibrating (p : pc) : bool := match p with Calibrate _ | StoreReload _ | StoreCalibrating _ => true | _ => false end.
Definition installing (p : pc) : bool := match p with InstallVector _ => true | _ => false end.
Definition is_reload (r : Z) : Prop := 0 < r < 2 ^ 32.
Definition lvt_value : Z := Z.lor TIMER_VECTOR APIC_LVT_TIMER_PERIODIC.

(** What is known of a CPU by where it is. *)
Definition place_ok {W} (s : timer W) (c : cpu_timer) : Prop :=
  match c_pc c with
  | Enter _ => True
  | StoreReload r | Program r => is_reload r
  | StoreCalibrating r => is_reload r /\ is_reload (timer_reload s)
  | Wait => timer_reload s = 0 -> timer_calibrating s = 1
  | Returned => c_known c = true -> t_divide (c_regs c) = TIMER_DIVIDE /\ t_lvt (c_regs c) = lvt_value /\ is_reload (t_initcnt (c_regs c))
  | _ => True
  end.
Definition past_vector (p : pc) : bool := match p with Enter _ | CasVector _ => false | _ => true end.

Record timer_inv {W} (s : timer W) : Prop := {
  ti_calibrating : timer_calibrating s = Z.of_nat (how_many calibrating s);
  ti_one : (how_many calibrating s <= 1)%nat;
  ti_installed : timer_vector_installed s = Z.of_nat (how_many installing s + length (vector_calls s));
  ti_once : (how_many installing s + length (vector_calls s) <= 1)%nat;
  ti_past i c : cpus s !! i = Some c -> c_known c = true -> past_vector (c_pc c) = true -> timer_vector_installed s = 1;
  ti_reload : timer_reload s = 0 \/ is_reload (timer_reload s);
  ti_places i c : cpus s !! i = Some c -> place_ok s c }.

(** *** Calibration ends *)

Section spec.
Context {W : Type} `{!Ports W, !CurrentCount W} (fuel : nat).
(** The interval timer ends its count within [fuel] polls. *)
Context (ends : forall w, exists n, (n < fuel)%nat /\ Z.land (read_after 0x61 n w) 0x20 <> 0).
Abbreviation T := (timer W).

Lemma timer_wait_ok n : forall f (m : timer_regs * W), (n < f)%nat -> Z.land (read_after 0x61 n m.2) 0x20 <> 0 ->
  exists w, timer_wait f m = Ok (tt, (m.1, w)).
Proof.
  induction n as [|n IH]; intros [|f] m Hf Hn; try lia; cbn [timer_wait];
    rewrite (st_bind_ok _ _ m (inb 0x61 m.2).1 (m.1, (inb 0x61 m.2).2)) by done.
  - rewrite (proj2 (Z.eqb_neq _ _)) by done. by eexists.
  - destruct (Z.eqb_spec (Z.land (inb 0x61 m.2).1 0x20) 0); [|by eexists].
    apply (IH f (m.1, (inb 0x61 m.2).2)); [lia|exact Hn].
Qed.

(** It leaves the timer counting, and gives a 32-bit value. *)
Lemma calibrate_ok hz m : exists r m', timer_calibrate_reload fuel hz m = Ok (r, m') /\ 0 <= r < 2 ^ 32.
Proof.
  unfold timer_calibrate_reload. rewrite (st_bind_ok _ _ m (inb 0x61 m.2).1 (m.1, (inb 0x61 m.2).2)) by done.
  destruct (hz =? 0); [by exists 0, (m.1, (inb 0x61 m.2).2)|].
  unfold write_divide, write_lvt, write_initcnt, m_outb. cbv zeta. rewrite !modify_bind.
  match goal with |- context [(timer_wait _ ≫= _) ?m0] => set (m1 := m0) end.
  destruct (ends m1.2) as (n & Hn & He). destruct (timer_wait_ok n fuel m1 Hn He) as (w & Hw). rewrite (st_bind_ok _ _ _ _ _ Hw).
  rewrite (st_bind_ok _ _ _ (lapic_current w).1 (m1.1, (lapic_current w).2)) by done. rewrite modify_bind.
  eexists _, _. split; [reflexivity|]. apply u32_range.
Qed.

Lemma program_ok r (m : timer_regs * W) : is_reload r -> timer_program_apic r m = Ok (r, (mk_regs TIMER_DIVIDE lvt_value r, m.2)).
Proof. intros Hr. unfold timer_program_apic. rewrite (proj2 (Z.eqb_neq r 0)) by (unfold is_reload in Hr; lia). done. Qed.

(** ** Steps *)

(** [s'] is [s] after a step of CPU [i] from [c] to [c']. *)
Record moved (i : nat) (c c' : cpu_timer) (s s' : T) : Prop := {
  mv_cpus : cpus s' = <[i := c']> (cpus s);
  mv_known : c_known c' = c_known c;
  mv_calibrating : timer_calibrating s' + Z.of_nat (at_place calibrating c) = timer_calibrating s + Z.of_nat (at_place calibrating c');
  mv_one : timer_calibrating s' <= 1;
  mv_installed : timer_vector_installed s' + Z.of_nat (at_place installing c) + Z.of_nat (length (vector_calls s)) =
    timer_vector_installed s + Z.of_nat (at_place installing c') + Z.of_nat (length (vector_calls s'));
  mv_once : timer_vector_installed s <= timer_vector_installed s' <= 1;
  mv_past : c_known c' = true -> past_vector (c_pc c') = true -> timer_vector_installed s' = 1;
  mv_reload : timer_reload s' = timer_reload s \/ is_reload (timer_reload s');
  mv_wait : timer_reload s' = 0 -> timer_calibrating s = 1 -> timer_calibrating s' = 1;
  mv_place : place_ok s' c' }.

Lemma how_many_moved p i c c' (s s' : T) : cpus s !! i = Some c -> cpus s' = <[i := c']> (cpus s) ->
  (how_many p s' + at_place p c = how_many p s + at_place p c')%nat.
Proof. intros Hc He. unfold how_many. rewrite He. by apply sum_insert. Qed.

Lemma moved_inv i c c' s s' : timer_inv s -> cpus s !! i = Some c -> moved i c c' s s' -> timer_inv s'.
Proof.
  intros [H1 H2 H3 H4 H5 H6 H7] Hc [M1 M2 M3 M4 M5 M6 M7 M8 M9 M10].
  pose proof (how_many_moved calibrating i c c' s s' Hc M1). pose proof (how_many_moved installing i c c' s s' Hc M1).
  assert (Hr : timer_reload s' = 0 \/ is_reload (timer_reload s')) by (destruct M8 as [->|]; auto).
  split; try lia; try done.
  - intros j d Hd Hk Hp. rewrite M1 in Hd. apply list_lookup_insert_Some in Hd as [(-> & -> & _)|(_ & Hd)]; [by apply M7|].
    specialize (H5 j d Hd Hk Hp). lia.
  - intros j d Hd. rewrite M1 in Hd. apply list_lookup_insert_Some in Hd as [(-> & -> & _)|(_ & Hd)]; [done|].
    specialize (H7 j d Hd). unfold place_ok in *. destruct (c_pc d); try done.
    + destruct H7 as [Ha Hb]. split; [done|]. destruct M8 as [->|]; done.
    + intros Hz. destruct M8 as [He|Hx]; [|unfold is_reload in Hx; lia]. apply M9; [done|]. apply H7. by rewrite <- He.
Qed.

Definition rank (p : pc) : nat :=
  match p with
  | Enter _ => 9 | CasVector _ => 8 | InstallVector _ => 7 | LoadReload _ => 6 | CasCalibrating _ => 5
  | Calibrate _ => 4 | StoreReload _ => 3 | StoreCalibrating _ => 2 | Wait => 2 | Program _ => 1 | Returned => 0
  end.
Definition enabled (s : T) (p : pc) : bool :=
  match p with Returned => false | Wait => negb (timer_reload s =? 0) | _ => true end.

#[local] Ltac move_to p rg :=
  match goal with |- context [mk_cpu _ _ ?kn ?la] => exists (mk_cpu p rg kn la) end;
  eexists; split; [reflexivity|]; split; [|cbn; lia];
  constructor; unfold at_place, place_ok, is_reload in *; cbn in *; try done; try (intros; lia); try tauto;
  rewrite ?length_app; cbn; try lia; intuition (auto; lia).

(** Every step of a CPU that is not waiting in vain moves it forward. *)
Lemma timer_step_moves i c s : timer_inv s -> cpus s !! i = Some c ->
  (enabled s (c_pc c) = false /\ timer_step fuel i s = Ok s) \/
  (enabled s (c_pc c) = true /\ exists c' s', timer_step fuel i s = Ok s' /\ moved i c c' s s' /\ (rank (c_pc c') < rank (c_pc c))%nat).
Proof.
  intros Hinv Hc. unfold timer_step. rewrite Hc. pose proof (ti_places s Hinv i c Hc) as Hp. pose proof (ti_past s Hinv i c Hc) as Hpast.
  pose proof (ti_installed s Hinv) as Hin. pose proof (ti_once s Hinv) as Hon. pose proof (ti_calibrating s Hinv) as Hca. pose proof (ti_one s Hinv) as Hone.
  pose proof (sum_at (at_place calibrating) (cpus s) i c Hc) as Hcc. pose proof (sum_at (at_place installing) (cpus s) i c Hc) as Hci.
  change (sum_list (at_place calibrating <$> cpus s)) with (how_many calibrating s) in Hcc.
  change (sum_list (at_place installing <$> cpus s)) with (how_many installing s) in Hci.
  pose proof (ti_reload s Hinv) as Hrl.
  destruct c as [p rg kn la]. unfold at_place in Hcc, Hci. cbn [c_pc] in *. unfold place_ok in Hp. cbn [c_pc] in Hp.
  destruct p; cbn [enabled calibrating installing past_vector] in *.

  - (* Enter *) right. split; [done|]. destruct kn; [move_to (CasVector hz) rg|move_to Returned rg].
  - (* CasVector *) right. split; [done|].
    destruct (Z.eqb_spec (timer_vector_installed s) 0) as [Hz|Hz]; [move_to (InstallVector hz) rg|move_to (LoadReload hz) rg].
  - (* InstallVector *) right. split; [done|]. move_to (LoadReload hz) rg.
  - (* LoadReload *) right. split; [done|].
    destruct (Z.eqb_spec (timer_reload s) 0) as [Hz|Hz]; [move_to (CasCalibrating hz) rg|move_to (Program (timer_reload s)) rg].
  - (* CasCalibrating *) right. split; [done|].
    destruct (Z.eqb_spec (timer_calibrating s) 0) as [Hz|Hz]; [move_to (Calibrate hz) rg|move_to Wait rg].
  - (* Calibrate *) right. split; [done|]. destruct (calibrate_ok hz (rg, hw s)) as (r & [rg' w'] & Hr & Hrange).
    unfold on_lapic. cbn [c_regs]. rewrite Hr. cbn [mbind outcome_bind].
    destruct (Z.eqb_spec r 0); [move_to (StoreReload 1) rg'|move_to (StoreReload r) rg'].
  - (* StoreReload *) right. split; [done|]. move_to (StoreCalibrating r) rg.
  - (* StoreCalibrating *) right. split; [done|]. move_to (Program r) rg.
  - (* Wait *) destruct (Z.eqb_spec (timer_reload s) 0) as [Hz|Hz]; [by left|right]. split; [done|]. move_to (Program (timer_reload s)) rg.
  - (* Program *) right. split; [done|]. unfold on_lapic. cbn [c_regs]. rewrite (program_ok r (rg, hw s) Hp). cbn [mbind outcome_bind].
    move_to Returned (mk_regs TIMER_DIVIDE lvt_value r).
  - (* Returned *) by left.
Qed.

(** ** Interleavings *)

Definition total (s : T) : nat := sum_list ((fun c => rank (c_pc c)) <$> cpus s).

Lemma timer_step_ok i s : timer_inv s -> exists s', timer_step fuel i s = Ok s' /\ timer_inv s' /\
  length (cpus s') = length (cpus s) /\ (total s' <= total s)%nat /\
  (forall c, cpus s !! i = Some c -> enabled s (c_pc c) = true -> (total s' < total s)%nat) /\
  (forall j c, j <> i -> cpus s !! j = Some c -> enabled s (c_pc c) = true -> cpus s' !! j = Some c /\ enabled s' (c_pc c) = true).
Proof.
  intros Hinv. destruct (cpus s !! i) as [c|] eqn:Hc.
  2: { exists s. unfold timer_step. rewrite Hc. done. }
  destruct (timer_step_moves i c s Hinv Hc) as [[He Hs]|(He & c' & s' & Hs & Hm & Hr)].
  { exists s. split; [done|]. split; [done|]. split; [done|]. split; [done|]. split; [|done]. intros d [= <-] He'. congruence. }
  exists s'. split; [done|]. split; [by eapply moved_inv|]. split; [by rewrite (mv_cpus _ _ _ _ _ Hm), length_insert|].
  pose proof (sum_insert (fun c => rank (c_pc c)) (cpus s) i c c' Hc) as Hsum. rewrite <- (mv_cpus _ _ _ _ _ Hm) in Hsum. fold (total s') (total s) in Hsum.
  split; [lia|]. split; [lia|]. intros j d Hj Hd Hed. rewrite (mv_cpus _ _ _ _ _ Hm), list_lookup_insert_ne by done. split; [done|].
  destruct (c_pc d); try done. cbn in *. destruct (mv_reload _ _ _ _ _ Hm) as [->|Hx]; [done|]. rewrite (proj2 (Z.eqb_neq _ _)); [done|].
  unfold is_reload in Hx. lia.
Qed.

Lemma timer_run_ok order : forall s, timer_inv s -> exists s', timer_run fuel order s = Ok s' /\ timer_inv s' /\
  length (cpus s') = length (cpus s) /\ (total s' <= total s)%nat.
Proof.
  induction order as [|i order IH]; intros s Hinv; [by exists s|]. destruct (timer_step_ok i s Hinv) as (s1 & H1 & Hi1 & Hl1 & Ht1 & _).
  destruct (IH s1 Hi1) as (s2 & H2 & Hi2 & Hl2 & Ht2). exists s2. cbn [timer_run]. rewrite (obind_ok _ _ _ H1).
  split; [exact H2|]. split; [done|]. split; [congruence|lia].
Qed.

(** A CPU that can move does so in a round that it takes part in. *)
Lemma round_moves order : forall s i c, timer_inv s -> i ∈ order -> cpus s !! i = Some c -> enabled s (c_pc c) = true ->
  exists s', timer_run fuel order s = Ok s' /\ timer_inv s' /\ length (cpus s') = length (cpus s) /\ (total s' < total s)%nat.
Proof.
  induction order as [|j order IH]; intros s i c Hinv Hin Hc He; [by apply not_elem_of_nil in Hin|].
  destruct (timer_step_ok j s Hinv) as (s1 & H1 & Hi1 & Hl1 & Ht1 & Hmv & Hoth). cbn [timer_run]. rewrite (obind_ok _ _ _ H1).
  destruct (decide (i = j)) as [->|Hne].
  - destruct (timer_run_ok order s1 Hi1) as (s2 & H2 & Hi2 & Hl2 & Ht2). exists s2. specialize (Hmv c Hc He).
    split; [exact H2|]. split; [done|]. split; [congruence|lia].
  - destruct (Hoth i c Hne Hc He) as [Hc1 He1]. apply elem_of_cons in Hin as [->|Hin]; [done|].
    destruct (IH s1 i c Hi1 Hin Hc1 He1) as (s2 & H2 & Hi2 & Hl2 & Ht2). exists s2. split; [exact H2|]. split; [done|]. split; [congruence|lia].
Qed.

(** No deadlock: a CPU that waits in vain waits for one that calibrates. *)
Lemma some_enabled s i c : timer_inv s -> cpus s !! i = Some c -> c_pc c <> Returned ->
  exists j d, cpus s !! j = Some d /\ enabled s (c_pc d) = true.
Proof.
  intros Hinv Hc Hr. destruct (enabled s (c_pc c)) eqn:He; [by exists i, c|].
  pose proof (ti_places s Hinv i c Hc) as Hp. destruct c as [[] rg kn la]; cbn in *; try done.
  apply negb_false_iff, Z.eqb_eq in He. specialize (Hp He). rewrite (ti_calibrating s Hinv) in Hp.
  destruct (sum_pos (at_place calibrating) (cpus s)) as (j & d & Hd & Ha).
  { unfold how_many in Hp. lia. }
  exists j, d. split; [done|]. unfold at_place in Ha. destruct (c_pc d); done.
Qed.

Lemma total_returned s : total s = 0%nat -> forall i c, cpus s !! i = Some c -> c_pc c = Returned.
Proof.
  intros Ht i c Hc. pose proof (sum_at (fun c => rank (c_pc c)) (cpus s) i c Hc) as Hs. fold (total s) in Hs. cbn beta in Hs.
  rewrite Ht in Hs. destruct (c_pc c); cbn in Hs; (done || lia).
Qed.

Lemma rounds_ok rounds : forall s, timer_inv s -> (total s <= length rounds)%nat ->
  Forall (fun r => forall i, (i < length (cpus s))%nat -> i ∈ r) rounds ->
  exists s', timer_run fuel (concat rounds) s = Ok s' /\ timer_inv s' /\ forall i c, cpus s' !! i = Some c -> c_pc c = Returned.
Proof.
  induction rounds as [|r rounds IH]; intros s Hinv Ht Hr.
  { exists s. split; [done|]. split; [done|]. apply total_returned. cbn in Ht. lia. }
  apply Forall_cons in Hr as [Hr Hrs]. cbn [concat length] in *.
  assert (H1 : exists s1, timer_run fuel r s = Ok s1 /\ timer_inv s1 /\ length (cpus s1) = length (cpus s) /\ (total s1 <= length rounds)%nat).
  { destruct (decide (total s = 0%nat)) as [Hz|Hnz].
    - destruct (timer_run_ok r s Hinv) as (s1 & H1 & Hi1 & Hl1 & Ht1). exists s1. split; [done|]. split; [done|]. split; [done|lia].
    - destruct (sum_pos (fun c => rank (c_pc c)) (cpus s) Hnz) as (i & c & Hi & Hc).
      destruct (some_enabled s i c Hinv Hi) as (j & d & Hd & He); [intros Hx; by rewrite Hx in Hc|].
      destruct (round_moves r s j d Hinv (Hr j (lookup_lt_Some _ _ _ Hd)) Hd He) as (s1 & H1 & Hi1 & Hl1 & Ht1).
      exists s1. split; [done|]. split; [done|]. split; [done|lia]. }
  destruct H1 as (s1 & H1 & Hi1 & Hl1 & Ht1). rewrite <- Hl1 in Hrs.
  destruct (IH s1 Hi1 Ht1 Hrs) as (s2 & H2 & Hi2 & Hret). exists s2. split; [|done].
  clear -H1 H2. revert s H1. induction r as [|i r IH]; intros s H1; [by injection H1 as ->|]. cbn [timer_run app] in *.
  destruct (timer_step fuel i s) as [s'| | |]; try done. apply IH. exact H1.
Qed.

(** ** From the start *)

(** Every CPU is about to call [timer_init], with a rate of its own. *)
Record booting (s : T) : Prop := {
  bo_shared : timer_reload s = 0 /\ timer_calibrating s = 0 /\ timer_vector_installed s = 0 /\ vector_calls s = [];
  bo_cpus : Forall (fun c => match c_pc c with Enter _ => True | _ => False end) (cpus s) }.

Lemma booting_inv s : booting s -> timer_inv s /\ total s = (9 * length (cpus s))%nat.
Proof.
  intros [(H1 & H2 & H3 & H4) Hc].
  assert (Hn : forall p, (forall hz, p (Enter hz) = false) -> how_many p s = 0%nat).
  { intros p Hp. unfold how_many. induction Hc as [|c l Hx _ IH]; [done|]. cbn. unfold at_place at 1. destruct (c_pc c); try done. by rewrite Hp. }
  split.
  - split; rewrite ?H1, ?H2, ?H3, ?H4, ?Hn by done; cbn; try lia; auto.
    + intros i c Hi _ Hp. rewrite Forall_lookup in Hc. specialize (Hc i c Hi). destruct (c_pc c); done.
    + intros i c Hi. rewrite Forall_lookup in Hc. specialize (Hc i c Hi). unfold place_ok. destruct (c_pc c); done.
  - unfold total. induction Hc as [|c l Hx _ IH]; [done|]. simpl. destruct (c_pc c); try done. simpl. simpl in IH. unfold fmap in *. lia.
Qed.

(** C37: CPUs that initialise their timers together. In every interleaving from
    the start, whatever rates they ask for: no two CPUs are in the calibration,
    which uses the one interval timer, at once; [irq_install_vector] is called
    at most once, and no CPU is past that point before it is called or about to
    be; and a CPU that has returned has its timer set to the timer vector,
    periodic, dividing by 16, with an initial count from 1 to 2^32-1. *)
Theorem timer_init_safe order s : booting s -> exists s', timer_run fuel order s = Ok s' /\
  (forall i j c d, i <> j -> cpus s' !! i = Some c -> cpus s' !! j = Some d ->
    calibrating (c_pc c) = true -> calibrating (c_pc d) = true -> False) /\
  (length (vector_calls s') <= 1)%nat /\
  (forall i c, cpus s' !! i = Some c -> c_known c = true -> past_vector (c_pc c) = true ->
    (length (vector_calls s') + how_many installing s' = 1)%nat) /\
  (forall i c, cpus s' !! i = Some c -> c_known c = true -> c_pc c = Returned ->
    t_divide (c_regs c) = 3 /\ t_lvt (c_regs c) = 0x200F0 /\ 0 < t_initcnt (c_regs c) < 2 ^ 32).
Proof.
  intros Hb. destruct (booting_inv s Hb) as [Hinv _]. destruct (timer_run_ok order s Hinv) as (s' & Hr & Hinv' & _).
  exists s'. split; [done|]. split; [|split; [|split]].
  - intros i j c d Hne Hc Hd Hpc Hpd. pose proof (sum_two (at_place calibrating) (cpus s') i j c d Hc Hd Hne) as Ht.
    unfold at_place in Ht at 1 2. rewrite Hpc, Hpd in Ht. pose proof (ti_one s' Hinv') as H1. unfold how_many in H1. lia.
  - pose proof (ti_once s' Hinv'). lia.
  - intros i c Hc Hk Hp. pose proof (ti_past s' Hinv' i c Hc Hk Hp). pose proof (ti_installed s' Hinv'). lia.
  - intros i c Hc Hk Hp. pose proof (ti_places s' Hinv' i c Hc) as Hpl. unfold place_ok in Hpl. rewrite Hp in Hpl. by apply Hpl.
Qed.

(** C38: every CPU returns. When the CPUs run in rounds that each CPU takes part
    in, in any order and any number of times within a round, nine rounds for
    each CPU are enough for all of them to have returned, whatever the
    interleaving: a CPU only waits for a count that another is about to store. *)
Theorem timer_init_returns rounds s : booting s -> (9 * length (cpus s) <= length rounds)%nat ->
  Forall (fun r => forall i, (i < length (cpus s))%nat -> i ∈ r) rounds ->
  exists s', timer_run fuel (concat rounds) s = Ok s' /\ forall i c, cpus s' !! i = Some c -> c_pc c = Returned.
Proof.
  intros Hb Hl Hr. destruct (booting_inv s Hb) as [Hinv Ht].
  destruct (rounds_ok rounds s Hinv ltac:(lia) Hr) as (s' & Hs & _ & Hret). by exists s'.
Qed.
End spec.

(** ** Two CPUs *)

(** A timer whose count falls by 15625 in 10 ms. *)
#[local] Instance demo_ports : Ports Z := {| inb := fun _ w => (0x20, w); outb := fun _ _ w => w; rdtsc := fun w => (w, w) |}.
#[local] Instance demo_count : CurrentCount Z := {| lapic_current := fun w => (TIMER_APIC_MAX - 15625, w) |}.

Definition demo_cpu (hz lapic : Z) : cpu_timer := mk_cpu (Enter hz) (mk_regs 0 0 0) true lapic.
Definition demo_timer : timer Z := mk_timer 0 0 0 [] [demo_cpu 1000 0; demo_cpu 100 1] 0.
Definition counts (s : timer Z) : list Z := (fun c => t_initcnt (c_regs c)) <$> cpus s.

Lemma demo_booting : booting demo_timer.
Proof. split; [done|]. repeat constructor. Qed.
Lemma demo_ends (w : Z) : exists n, (n < 1)%nat /\ Z.land (read_after 0x61 n w) 0x20 <> 0.
Proof. exists 0%nat. split; [lia|]. vm_compute. discriminate. Qed.

Lemma timer_init_safe_witness : exists s', timer_run 1 [0; 1; 1; 0; 1; 0; 1]%nat demo_timer = Ok s' /\ (length (vector_calls s') <= 1)%nat.
Proof. destruct (timer_init_safe 1 demo_ends [0; 1; 1; 0; 1; 0; 1]%nat demo_timer demo_booting) as (s' & H1 & _ & H2 & _). exists s'. split; [exact H1|exact H2]. Defined.

Lemma timer_init_returns_witness : exists s', timer_run 1 (concat (replicate 18 [1; 0]%nat)) demo_timer = Ok s' /\
  forall i c, cpus s' !! i = Some c -> c_pc c = Returned.
Proof.
  apply (timer_init_returns 1 demo_ends); [exact demo_booting|cbn; lia|].
  apply Forall_replicate. intros i Hi. cbn in Hi. assert (i = 0 \/ i = 1)%nat as [->| ->] by lia; set_solver.
Defined.

(** The rate that a CPU asks for is not the one it gets when another was first,
    *)
Example first_rate_wins : exists s', timer_run 1 (replicate 10 1%nat ++ replicate 10 0%nat) demo_timer = Ok s' /\ counts s' = [15625; 15625].
Proof. eexists. split; vm_compute; reflexivity. Qed.

(** and one that read [timer_reload] before the other stored it, and gets to the
    exchange after the other has cleared [timer_calibrating], calibrates again:
    the CPUs tick at different rates. *)
Example calibrated_twice : exists s', timer_run 1 (replicate 4 0%nat ++ replicate 10 1%nat ++ replicate 10 0%nat) demo_timer = Ok s' /\
  counts s' = [1562; 15625] /\ timer_reload s' = 1562.
Proof. eexists. split; [vm_compute; reflexivity|]. split; vm_compute; reflexivity. Qed.
