(* ===== verification/Acpi.v ===== *)
(** ACPI tables: the root table of [kernel/src/sys/acpi.c] and the walk of the
    interrupt controllers in [kernel/src/acpi/madt.c].

    The tables are bytes of a memory that is only read; a read of an address
    that is not mapped is a fault. What is logged and what is written to the
    ports is kept in the state, in order. *)
From S2P Require Import Prelude StringLib Gdt.

(** *** Layouts: the offset and the size of each field that is read *)

Abbreviation field := (Z * nat)%type.
Definition rsdp_revision : field := (15, 1%nat).
Definition rsdp_rsdt_addr : field := (16, 4%nat).
Definition xsdp_xsdt_addr : field := (24, 8%nat).
Definition sdt_length : field := (4, 4%nat).
Definition sizeof_sdt_header : Z := 36.
Definition madt_lapic_addr : field := (36, 4%nat).
Definition madt_flags : field := (40, 4%nat).
Definition madt_structures : Z := 44.
Definition hdr_type : field := (0, 1%nat).
Definition hdr_len : field := (1, 1%nat).
Definition sizeof_madt_header : Z := 2.
Definition lapic_uid : field := (2, 1%nat).
Definition lapic_id : field := (3, 1%nat).
Definition lapic_flags : field := (4, 4%nat).
Definition ioapic_id : field := (2, 1%nat).
Definition ioapic_addr : field := (4, 4%nat).
Definition ioapic_gsi_base : field := (8, 4%nat).
Definition iso_bus : field := (2, 1%nat).
Definition iso_source : field := (3, 1%nat).
Definition iso_gsi : field := (4, 4%nat).
Definition iso_flags : field := (8, 2%nat).
Definition nmi_acpi_uid : field := (2, 1%nat).
Definition nmi_flags : field := (3, 2%nat).
Definition nmi_LINTn : field := (5, 1%nat).
Definition override_addr : field := (4, 8%nat).

Definition MADT_LAPIC : Z := 0x00.
Definition MADT_IOAPIC : Z := 0x01.
Definition MADT_ISO : Z := 0x02.
Definition MADT_NMI_SRC : Z := 0x03.
Definition MADT_LAPIC_NMI : Z := 0x04.
Definition MADT_LAPIC_OVERRIDE : Z := 0x05.

Inductive type_name :=
| s_apic | s_ioapic | s_iso | s_nmi_src | s_nmi | s_override | s_x2apic | s_x2apic_nmi
| s_gicc | s_gicd | s_gic_msi_frame | s_gicr | s_gic_its | s_unknown.
Definition madt_type_to_str (type : Z) : type_name :=
  match type with
  | 0x00 => s_apic | 0x01 => s_ioapic | 0x02 => s_iso | 0x03 => s_nmi_src | 0x04 => s_nmi | 0x05 => s_override
  | 0x09 => s_x2apic | 0x0a => s_x2apic_nmi | 0x0b => s_gicc | 0x0c => s_gicd | 0x0d => s_gic_msi_frame
  | 0x0e => s_gicr | 0x0f => s_gic_its | _ => s_unknown
  end.

(** The arrays that the entries are collected in. *)
Inductive kind := KLapic | KIoapic | KIso | KNmi.
#[export] Instance kind_eq : EqDecision kind.
Proof. solve_decision. Defined.
Record array := mk_array { items : list ptr; count : Z }.
Definition ARRAY_LEN (k : kind) : nat :=
  match k with KLapic | KIoapic => Z.to_nat MAX_CPUS | KIso => 16 | KNmi => 224 end.

(** What is logged, one constructor per format. *)
Inductive acpi_msg :=
| RsdpInvalid | XsdtAt (p : ptr) | RsdtAt (p : ptr) | RootMissing | TablesFollow | RootLength (n : Z)
| NullTable | TableAt (sig : list Z) (p : Z)
| MaskingPic | Malformed (type : Z) (name : type_name) (len : Z) | Unhandled (type : Z) (name : type_name)
| Reached (k : kind) (arg : Z) | Registered (k : kind) (args : list Z) | Overridden (addr : Z) | Summary (counts : list Z).

Record acpi := mk_acpi {
  xsdt : bool; root_sdt : ptr; madt : ptr; lapic_base : Z;
  lapics : array; ioapics : array; isos : array; nmis : array;
  ports : list (Z * Z); acpi_log : list acpi_msg }.

Definition set_root (x : bool) (r : ptr) (s : acpi) : acpi :=
  mk_acpi x r (madt s) (lapic_base s) (lapics s) (ioapics s) (isos s) (nmis s) (ports s) (acpi_log s).
Definition set_madt (p : ptr) (s : acpi) : acpi :=
  mk_acpi (xsdt s) (root_sdt s) p (lapic_base s) (lapics s) (ioapics s) (isos s) (nmis s) (ports s) (acpi_log s).
Definition set_lapic_base (a : Z) (s : acpi) : acpi :=
  mk_acpi (xsdt s) (root_sdt s) (madt s) a (lapics s) (ioapics s) (isos s) (nmis s) (ports s) (acpi_log s).
Definition set_io (p : list (Z * Z)) (l : list acpi_msg) (s : acpi) : acpi :=
  mk_acpi (xsdt s) (root_sdt s) (madt s) (lapic_base s) (lapics s) (ioapics s) (isos s) (nmis s) p l.
Definition get_array (k : kind) (s : acpi) : array :=
  match k with KLapic => lapics s | KIoapic => ioapics s | KIso => isos s | KNmi => nmis s end.
Definition set_array (k : kind) (a : array) (s : acpi) : acpi :=
  let pick j := if decide (k = j) then a else get_array j s in
  mk_acpi (xsdt s) (root_sdt s) (madt s) (lapic_base s) (pick KLapic) (pick KIoapic) (pick KIso) (pick KNmi) (ports s) (acpi_log s).

Definition klog (e : acpi_msg) : ST acpi unit := modify (fun s => set_io (ports s) (acpi_log s ++ [e]) s).
Definition outb (port v : Z) : ST acpi unit := modify (fun s => set_io (ports s ++ [(port, v)]) (acpi_log s) s).

Section Acpi.
Context (m : mem) (hhdm_offset : Z).

Definition PHYS_TO_VIRT (p : Z) : Z := u64 (p + hhdm_offset).
Definition load (a : Z) (f : field) : outcome Z := load_le f.2 m (a + f.1).
Definition rd (a : Z) (f : field) : ST acpi Z := st_lift (load a f).

Definition acpi_map_sdt (phys : Z) : ptr := if phys =? 0 then None else Some (PHYS_TO_VIRT phys).

Definition entry_size (x : bool) : nat := if x then 8 else 4.

(** The loop over the pointers of the root table, [n] of them from [a] on;
    the literals [sig] are in the memory too. *)
Fixpoint get_table_loop (n : nat) (x : bool) (a sig : Z) : ST acpi ptr :=
  match n with
  | O => mret None
  | S n =>
      phys ← rd a (0, entry_size x);
      match acpi_map_sdt phys with
      | None => get_table_loop n x (a + Z.of_nat (entry_size x)) sig
      | Some h =>
          r ← st_lift (memcmp h sig 4 m);
          if r =? 0 then mret (Some h) else get_table_loop n x (a + Z.of_nat (entry_size x)) sig
      end
  end.

Definition acpi_get_table (sig : Z) : ST acpi ptr :=
  r ← gets root_sdt;
  match r with
  | None => mret None
  | Some root =>
      x ← gets xsdt;
      length ← rd root sdt_length;
      if length <? sizeof_sdt_header then klog (RootLength length) ;; mret None else
      let entry_count := (length - sizeof_sdt_header) / Z.of_nat (entry_size x) in
      get_table_loop (Z.to_nat entry_count) x (root + sizeof_sdt_header) sig
  end.

(** What "%.*s" prints with a precision of 4: the formatter looks for the end
    of the string first, however far it is. The memory bounds the search. *)
Fixpoint string_at (fuel : nat) (a : Z) : outcome (list Z) :=
  match fuel with
  | O => Timeout
  | S fuel => c ← load8 m a; if c =? 0 then Ok [] else r ← string_at fuel (a + 1); Ok (c :: r)
  end.
Definition text4_at (a : Z) : outcome (list Z) := t ← string_at (S (size m)) a; Ok (take 4 t).

Fixpoint list_tables (n : nat) (x : bool) (a : Z) : ST acpi unit :=
  match n with
  | O => mret tt
  | S n =>
      phys ← rd a (0, entry_size x);
      match acpi_map_sdt phys with
      | None => klog NullTable
      | Some h => t ← st_lift (text4_at h); klog (TableAt t h)
      end ;;
      list_tables n x (a + Z.of_nat (entry_size x))
  end.

(** [response] is null or holds the address of the RSDP, which may be null. *)
Definition acpi_init (rsdp_sig : Z) (response : option ptr) : ST acpi unit :=
  match response with
  | None | Some None => mret tt
  | Some (Some rsdp) =>
      r ← st_lift (memcmp rsdp rsdp_sig 8 m);
      if negb (r =? 0) then klog RsdpInvalid else
      revision ← rd rsdp rsdp_revision;
      (if 2 <=? revision then
         a ← rd rsdp xsdp_xsdt_addr;
         modify (set_root true (acpi_map_sdt a)) ;;
         klog (XsdtAt (acpi_map_sdt a))
       else
         a ← rd rsdp rsdp_rsdt_addr;
         x ← gets xsdt;
         modify (set_root x (acpi_map_sdt a)) ;;
         klog (RsdtAt (acpi_map_sdt a))) ;;
      r ← gets root_sdt;
      match r with
      | None => klog RootMissing
      | Some root =>
          klog TablesFollow ;;
          x ← gets xsdt;
          length ← rd root sdt_length;
          if length <? sizeof_sdt_header then klog (RootLength length) else
          list_tables (Z.to_nat ((length - sizeof_sdt_header) / Z.of_nat (entry_size x))) x (root + sizeof_sdt_header)
      end
  end.

(** ** The MADT *)

Definition MADT_BOUNDED_APPEND (k : kind) (item : Z) : ST acpi bool :=
  a ← gets (get_array k);
  if count a <? Z.of_nat (ARRAY_LEN k) then
    modify (set_array k (mk_array (<[Z.to_nat (count a) := Some item]> (items a)) (u64 (count a + 1)))) ;; mret true
  else mret false.

(** The fields in the message for an array that is full, and for an item. *)
Definition overflow_arg (k : kind) : field :=
  match k with KLapic => lapic_id | KIoapic => ioapic_id | KIso => iso_bus | KNmi => nmi_acpi_uid end.
Definition success_args (k : kind) : list field :=
  match k with
  | KLapic => [lapic_id; lapic_uid; lapic_flags]
  | KIoapic => [ioapic_id; ioapic_addr; ioapic_gsi_base]
  | KIso => [iso_bus; iso_source; iso_gsi; iso_flags]
  | KNmi => [nmi_LINTn; nmi_acpi_uid; nmi_flags]
  end.
Fixpoint rd_all (a : Z) (fs : list field) : ST acpi (list Z) :=
  match fs with [] => mret [] | f :: fs => v ← rd a f; r ← rd_all a fs; mret (v :: r) end.

Definition MADT_HANDLE_STRUCT (k : kind) (entry : Z) : ST acpi unit :=
  ok ← MADT_BOUNDED_APPEND k entry;
  if negb ok then v ← rd entry (overflow_arg k); klog (Reached k v)
  else vs ← rd_all entry (success_args k); klog (Registered k vs).

Definition madt_entry (type entry : Z) : ST acpi unit :=
  if type =? MADT_LAPIC then MADT_HANDLE_STRUCT KLapic entry else
  if type =? MADT_IOAPIC then MADT_HANDLE_STRUCT KIoapic entry else
  if type =? MADT_ISO then MADT_HANDLE_STRUCT KIso entry else
  if type =? MADT_LAPIC_NMI then MADT_HANDLE_STRUCT KNmi entry else
  if type =? MADT_LAPIC_OVERRIDE then
    a ← rd entry override_addr;
    modify (set_lapic_base a) ;;
    klog (Overridden a)
  else klog (Unhandled type (madt_type_to_str type)).

Fixpoint madt_loop (fuel : nat) (entry end_ : Z) : ST acpi unit :=
  if negb (entry + sizeof_madt_header <=? end_) then mret tt else
  match fuel with
  | O => st_timeout
  | S fuel =>
      len ← rd entry hdr_len;
      type ← rd entry hdr_type;
      if (len <? sizeof_madt_header) || (end_ <? entry + len) then
        klog (Malformed type (madt_type_to_str type) len)
      else
        madt_entry type entry ;;
        madt_loop fuel (entry + len) end_
  end.

Definition madt_init (apic_sig : Z) : ST acpi unit :=
  p ← acpi_get_table apic_sig;
  modify (set_madt p) ;;
  match p with
  | None => st_panic
  | Some t =>
      flags ← rd t madt_flags;
      (if has_bits flags 1 then klog MaskingPic ;; outb 0x21 0xff ;; outb 0xa1 0xff else mret tt) ;;
      a ← rd t madt_lapic_addr;
      modify (set_lapic_base a) ;;
      length ← rd t sdt_length;
      madt_loop (Z.to_nat length) (t + madt_structures) (t + length) ;;
      s ← gets (fun s => [count (lapics s); count (ioapics s); count (isos s); count (nmis s)]);
      klog (Summary s)
  end.

End Acpi.

(** The state at boot. *)
Definition empty_array (k : kind) : array := mk_array (replicate (ARRAY_LEN k) None) 0.
Definition boot_acpi : acpi :=
  mk_acpi false None None 0 (empty_array KLapic) (empty_array KIoapic) (empty_array KIso) (empty_array KNmi) [] [].
