(* ===== verification/AcpiSpec.v ===== *)
(** ACPI tables, [Acpi.v]: which table is found, what the walk of the MADT
    collects from a well-formed table, and that it ends within its bounds on
    any bytes.

    [acpi_get_table_spec]: after [acpi_init], a table is the first non-null one
    of the root table with the signature. [madt_init_collects]: entries encoded
    one after the other are found in order, each with its fields, as many as
    the arrays hold. [madt_init_total]: whatever the bytes of the table are. *)
From S2P Require Import Prelude StringLib WordMem Gdt Acpi.

Definition block (m : mem) (a : Z) (bs : list Z) : Prop :=
  forall i b, bs !! i = Some b -> m !! (a + Z.of_nat i) = Some b.

Lemma block_app m a xs ys : block m a (xs ++ ys) -> block m a xs /\ block m (a + Z.of_nat (length xs)) ys.
Proof.
  intros Hb. split; intros i b Hi.
  - apply Hb. by apply lookup_app_l_Some.
  - replace (a + Z.of_nat (length xs) + Z.of_nat i) with (a + Z.of_nat (length xs + i)) by lia.
    apply Hb. rewrite lookup_app_r by lia. rewrite <- Hi. f_equal. lia.
Qed.

Lemma block_mapped m a bs : block m a bs -> mapped m a (Z.of_nat (length bs)).
Proof.
  intros Hb x Hx. destruct (lookup_lt_is_Some_2 bs (Z.to_nat (x - a))) as [b Hi]; [lia|].
  exists b. rewrite <- (Hb _ _ Hi). f_equal. lia.
Qed.

(** ** Structures as lists of fields *)

Abbreviation layout := (list (nat * Z)).
Definition encode (l : layout) : list Z := concat ((fun f => le_bytes f.1 f.2) <$> l).
Definition width (l : layout) : nat := sum_list (fst <$> l).
Definition layout_ok (l : layout) : Prop := Forall (fun f => 0 <= f.2 < 256 ^ Z.of_nat f.1) l.

Lemma encode_width l : length (encode l) = width l.
Proof.
  unfold encode, width. induction l as [|[k v] l IH]; [done|]. cbn [fmap list_fmap concat]. rewrite length_app, le_bytes_length, IH. done.
Qed.

(** The field at position [i] reads back. *)
Lemma load_field m a l i k v off : block m a (encode l) -> layout_ok l -> l !! i = Some (k, v) -> off = Z.of_nat (width (take i l)) ->
  load m a (off, k) = Ok v.
Proof.
  intros Hb Hl Hi ->. pose proof (take_drop_middle l i (k, v) Hi) as Hs.
  assert (Hv : 0 <= v < 256 ^ Z.of_nat k) by (unfold layout_ok in Hl; rewrite Forall_lookup in Hl; apply (Hl _ _ Hi)).
  assert (He : encode l = encode (take i l) ++ le_bytes k v ++ encode (drop (S i) l)).
  { rewrite <- Hs at 1. unfold encode. rewrite fmap_app, concat_app. done. }
  rewrite He in Hb. apply block_app in Hb as [_ Hb]. apply block_app in Hb as [Hb _]. rewrite encode_width in Hb.
  unfold load. cbn [fst snd]. rewrite <- (le_bytes_length k v) at 1. rewrite load_le_bytes by exact Hb. by rewrite le_word_bytes.
Qed.

(** The entries of a MADT; [EOther] is any type the walk does not use. *)
Inductive entry :=
| ELapic (uid id flags : Z)
| EIoapic (id reserved addr gsi_base : Z)
| EIso (bus src gsi flags : Z)
| ENmi (uid flags lint : Z)
| EOverride (reserved addr : Z)
| EOther (type : Z) (body : list Z).

Definition fields_of (e : entry) : layout :=
  match e with
  | ELapic uid id flags => [(1%nat, MADT_LAPIC); (1%nat, 8); (1%nat, uid); (1%nat, id); (4%nat, flags)]
  | EIoapic id res addr gsi => [(1%nat, MADT_IOAPIC); (1%nat, 12); (1%nat, id); (1%nat, res); (4%nat, addr); (4%nat, gsi)]
  | EIso bus src gsi flags => [(1%nat, MADT_ISO); (1%nat, 10); (1%nat, bus); (1%nat, src); (4%nat, gsi); (2%nat, flags)]
  | ENmi uid flags lint => [(1%nat, MADT_LAPIC_NMI); (1%nat, 6); (1%nat, uid); (2%nat, flags); (1%nat, lint)]
  | EOverride res addr => [(1%nat, MADT_LAPIC_OVERRIDE); (1%nat, 12); (2%nat, res); (8%nat, addr)]
  | EOther type body => (1%nat, type) :: (1%nat, 2 + Z.of_nat (length body)) :: ((fun b => (1%nat, b)) <$> body)
  end.
Definition kind_of (e : entry) : option kind :=
  match e with ELapic _ _ _ => Some KLapic | EIoapic _ _ _ _ => Some KIoapic | EIso _ _ _ _ => Some KIso | ENmi _ _ _ => Some KNmi
  | _ => None end.
Definition entry_ok (e : entry) : Prop :=
  layout_ok (fields_of e) /\
  match e with EOther type _ => type ∉ [MADT_LAPIC; MADT_IOAPIC; MADT_ISO; MADT_LAPIC_NMI; MADT_LAPIC_OVERRIDE] | _ => True end.
Definition size_of (e : entry) : Z := Z.of_nat (width (fields_of e)).
Definition type_of (e : entry) : Z :=
  match e with ELapic _ _ _ => MADT_LAPIC | EIoapic _ _ _ _ => MADT_IOAPIC | EIso _ _ _ _ => MADT_ISO | ENmi _ _ _ => MADT_LAPIC_NMI
  | EOverride _ _ => MADT_LAPIC_OVERRIDE | EOther type _ => type end.

(** Reading the structure at [p] gives the fields of [e]. *)
Definition reads_as (m : mem) (p : Z) (e : entry) : Prop :=
  match e with
  | ELapic uid id flags => load m p lapic_uid = Ok uid /\ load m p lapic_id = Ok id /\ load m p lapic_flags = Ok flags
  | EIoapic id _ addr gsi => load m p ioapic_id = Ok id /\ load m p ioapic_addr = Ok addr /\ load m p ioapic_gsi_base = Ok gsi
  | EIso bus src gsi flags => load m p iso_bus = Ok bus /\ load m p iso_source = Ok src /\ load m p iso_gsi = Ok gsi /\ load m p iso_flags = Ok flags
  | ENmi uid flags lint => load m p nmi_acpi_uid = Ok uid /\ load m p nmi_flags = Ok flags /\ load m p nmi_LINTn = Ok lint
  | EOverride _ addr => load m p override_addr = Ok addr
  | EOther _ _ => True
  end.

Lemma entry_reads m p e : block m p (encode (fields_of e)) -> entry_ok e ->
  load m p hdr_type = Ok (type_of e) /\ load m p hdr_len = Ok (size_of e) /\ reads_as m p e.
Proof.
  intros Hb [Hl _].
  assert (Hf : forall i k v off, fields_of e !! i = Some (k, v) -> off = Z.of_nat (width (take i (fields_of e))) -> load m p (off, k) = Ok v)
    by (intros; by eapply load_field).
  split; [apply (Hf 0%nat); by destruct e|]. split.
  - apply (Hf 1%nat); [|by destruct e]. destruct e as [| | | | |t body]; try done. cbn. unfold size_of, width. cbn.
    do 2 f_equal. enough (sum_list (fst <$> ((fun b : Z => (1%nat, b)) <$> body)) = length body) by lia.
    clear. induction body as [|b body IH]; [done|]. cbn. by rewrite IH.
  - destruct e; cbn [reads_as]; repeat match goal with |- _ /\ _ => split end; try done;
      first [by apply (Hf 2%nat)|by apply (Hf 3%nat)|by apply (Hf 4%nat)|by apply (Hf 5%nat)].
Qed.

(** The entries with their addresses, the first at [a]. *)
Fixpoint located (a : Z) (es : list entry) : list (Z * entry) :=
  match es with [] => [] | e :: es => (a, e) :: located (a + size_of e) es end.
Definition of_kind (k : kind) (l : list (Z * entry)) : list (Z * entry) := filter (fun pe => kind_of pe.2 = Some k) l.
Definition table_size (es : list entry) : Z := Z.of_nat (length (encode (es ≫= fields_of))).

(** ** Collecting *)

(** The first addresses of [ps], as many as the array holds. *)
Definition array_rep (k : kind) (ps : list Z) (a : array) : Prop :=
  items a = (Some <$> take (ARRAY_LEN k) ps) ++ replicate (ARRAY_LEN k - length ps) None /\
  count a = Z.of_nat (ARRAY_LEN k `min` length ps).
Definition rep (P : kind -> list Z) (s : acpi) : Prop := forall k, array_rep k (P k) (get_array k s).
Definition push (k : kind) (p : Z) (P : kind -> list Z) : kind -> list Z := fun j => if decide (k = j) then P j ++ [p] else P j.

(** All but the arrays and the log. *)
Definition same_rest (s s' : acpi) : Prop :=
  xsdt s' = xsdt s /\ root_sdt s' = root_sdt s /\ madt s' = madt s /\ lapic_base s' = lapic_base s /\ ports s' = ports s.
#[export] Instance same_rest_po : PreOrder same_rest.
Proof. split; [done|]. intros s1 s2 s3. unfold same_rest. intuition congruence. Qed.

Lemma get_set_array k j a s : get_array j (set_array k a s) = if decide (k = j) then a else get_array j s.
Proof. destruct j; reflexivity. Qed.

Lemma array_append k ps a p : array_rep k ps a -> count a < Z.of_nat (ARRAY_LEN k) ->
  array_rep k (ps ++ [p]) (mk_array (<[Z.to_nat (count a) := Some p]> (items a)) (u64 (count a + 1))).
Proof.
  intros [Hi Hc] Hlt. rewrite Hc in *. assert (length ps < ARRAY_LEN k)%nat as Hl by lia.
  assert (ARRAY_LEN k <= 256)%nat by (destruct k; cbv; lia).
  split; cbn [items count].
  - rewrite Hi, !take_ge by (rewrite ?length_app; cbn; lia). rewrite length_app, Nat.min_r by lia. cbn [length].
    rewrite Nat2Z.id, insert_app_r_alt by (rewrite length_fmap; lia). rewrite length_fmap, Nat.sub_diag.
    destruct (ARRAY_LEN k - length ps)%nat as [|n] eqn:Hn; [lia|]. cbn [replicate insert list_insert].
    rewrite fmap_app, <- app_assoc. cbn. repeat f_equal. lia.
  - rewrite length_app, u64_small by lia. cbn [length]. lia.
Qed.

Lemma array_full k ps a p : array_rep k ps a -> ~ count a < Z.of_nat (ARRAY_LEN k) -> array_rep k (ps ++ [p]) a.
Proof.
  intros [Hi Hc] Hge. assert (ARRAY_LEN k <= length ps)%nat by lia. split.
  - rewrite Hi, take_app_le by lia. rewrite length_app. do 2 f_equal. lia.
  - rewrite Hc, length_app. lia.
Qed.

Lemma ret_bind {S A B} (a : A) (f : A -> ST S B) s : (mret (M := ST S) a ≫= f) s = f a s.
Proof. done. Qed.

Section walk.
Context (m : mem).

Lemma rd_load a f v s : load m a f = Ok v -> rd m a f s = Ok (v, s).
Proof. intros Hl. unfold rd, st_lift. by rewrite Hl. Qed.

Lemma rd_all_ok a fs s : Forall (fun f => exists v, load m a f = Ok v) fs -> exists vs, rd_all m a fs s = Ok (vs, s).
Proof.
  induction 1 as [|f fs [v Hv] _ [vs IH]]; [by exists []|]. exists (v :: vs). cbn [rd_all].
  rewrite (st_bind_ok _ _ _ _ _ (rd_load _ _ _ s Hv)), (st_bind_ok _ _ _ _ _ IH). done.
Qed.

Definition readable (p : Z) (k : kind) : Prop := Forall (fun f => exists v, load m p f = Ok v) (overflow_arg k :: success_args k).

Lemma handle_struct_ok k p P s : rep P s -> readable p k ->
  exists s', MADT_HANDLE_STRUCT m k p s = Ok (tt, s') /\ rep (push k p P) s' /\ same_rest s s'.
Proof.
  intros Hr [Hov Hsu]%Forall_cons. destruct Hov as [v Hv]. unfold MADT_HANDLE_STRUCT, MADT_BOUNDED_APPEND.
  rewrite bind_assoc, gets_bind. destruct (Z.ltb_spec (count (get_array k s)) (Z.of_nat (ARRAY_LEN k))) as [Hc|Hc].
  - rewrite bind_assoc, modify_bind. cbn [negb]. set (s1 := set_array _ _ s).
    destruct (rd_all_ok p (success_args k) s1 Hsu) as [vs Hvs].
    rewrite ret_bind. cbn [negb].
    rewrite (st_bind_ok _ _ _ _ _ Hvs). eexists. split; [reflexivity|]. split; [|done].
    intros j. unfold push. change (array_rep j (if decide (k = j) then P j ++ [p] else P j) (get_array j s1)).
    unfold s1. rewrite get_set_array. case_decide as Hj; [subst j; by apply array_append|done].
  - rewrite ret_bind. cbn [negb].
    rewrite (st_bind_ok _ _ _ _ _ (rd_load _ _ _ s Hv)). eexists. split; [reflexivity|]. split; [|done].
    intros j. unfold push. change (array_rep j (if decide (k = j) then P j ++ [p] else P j) (get_array j s)).
    case_decide as Hj; [subst j; apply array_full; [done|lia]|done].
Qed.

Definition base_after (b : Z) (es : list entry) : Z := foldl (fun b e => match e with EOverride _ a => a | _ => b end) b es.

(** The walk changes the arrays, the base of the local controller and the log. *)
Definition kept (s s' : acpi) : Prop :=
  xsdt s' = xsdt s /\ root_sdt s' = root_sdt s /\ madt s' = madt s /\ ports s' = ports s.
#[local] Instance kept_po : PreOrder kept.
Proof. split; [done|]. intros s1 s2 s3. unfold kept. intuition congruence. Qed.

Lemma rep_ext P Q s : (forall k, P k = Q k) -> rep P s -> rep Q s.
Proof. intros He Hr k. rewrite <- He. apply Hr. Qed.

Lemma readable_entry p e k : reads_as m p e -> kind_of e = Some k -> readable p k.
Proof.
  intros Hr Hk. destruct e; cbn in Hk; simplify_eq; cbn in Hr; destruct_and!; unfold readable; cbn;
    repeat constructor; eauto.
Qed.

Lemma madt_entry_ok e p P s : entry_ok e -> reads_as m p e -> rep P s ->
  exists s', madt_entry m (type_of e) p s = Ok (tt, s') /\ rep (fun k => P k ++ (of_kind k [(p, e)]).*1) s' /\ kept s s' /\
    lapic_base s' = base_after (lapic_base s) [e].
Proof.
  intros [_ He] Hr HP.
  assert (Hother : kind_of e = None -> forall k, P k = P k ++ (of_kind k [(p, e)]).*1).
  { intros Hn k. unfold of_kind. rewrite filter_cons_False by (cbn; by rewrite Hn). by rewrite app_nil_r. }
  assert (Hk : forall k, kind_of e = Some k -> exists s', MADT_HANDLE_STRUCT m k p s = Ok (tt, s') /\
    rep (fun k => P k ++ (of_kind k [(p, e)]).*1) s' /\ kept s s' /\ lapic_base s' = lapic_base s).
  { intros k Hk. destruct (handle_struct_ok k p P s HP (readable_entry p e k Hr Hk)) as (s' & H1 & H2 & H3 & H4 & H5 & H6 & H7).
    exists s'. split; [done|]. split; [|done]. apply (rep_ext (push k p P)); [|done]. intros j. unfold push, of_kind.
    destruct (decide (k = j)) as [->|Hj]; [by rewrite filter_cons_True|]. rewrite filter_cons_False by (cbn; congruence). by rewrite app_nil_r. }
  destruct e as [| | | |res a|t body]; try (by apply Hk); unfold madt_entry; cbn [type_of].
  - unfold MADT_LAPIC, MADT_IOAPIC, MADT_ISO, MADT_LAPIC_NMI, MADT_LAPIC_OVERRIDE. cbn [Z.eqb Pos.eqb].
    rewrite (st_bind_ok _ _ _ _ _ (rd_load _ _ _ s Hr)), modify_bind. eexists. split; [reflexivity|].
    split; [|done]. apply (rep_ext P); [by apply Hother|]. exact HP.
  - assert (forall x, x ∈ [MADT_LAPIC; MADT_IOAPIC; MADT_ISO; MADT_LAPIC_NMI; MADT_LAPIC_OVERRIDE] -> (t =? x) = false) as Hx.
    { intros x Hx. apply Z.eqb_neq. intros ->. done. }
    rewrite !Hx by set_solver. eexists. split; [reflexivity|]. split; [|done].
    apply (rep_ext P); [by apply Hother|]. exact HP.
Qed.

Lemma size_of_pos e : 2 <= size_of e.
Proof. destruct e; unfold size_of, width; cbn; lia. Qed.

Lemma encode_app l1 l2 : encode (l1 ++ l2) = encode l1 ++ encode l2.
Proof. unfold encode. by rewrite fmap_app, concat_app. Qed.

Lemma table_size_cons e es : table_size (e :: es) = size_of e + table_size es.
Proof. unfold table_size, size_of. cbn [mbind list_bind]. rewrite encode_app, length_app, encode_width. lia. Qed.

Lemma madt_loop_ok es : forall fuel a P s, block m a (encode (es ≫= fields_of)) -> Forall entry_ok es -> rep P s ->
  (length es <= fuel)%nat ->
  exists s', madt_loop m fuel a (a + table_size es) s = Ok (tt, s') /\
    rep (fun k => P k ++ (of_kind k (located a es)).*1) s' /\ kept s s' /\ lapic_base s' = base_after (lapic_base s) es.
Proof.
  induction es as [|e es IH]; intros fuel a P s Hb Hes HP Hf.
  - exists s. split.
    + replace (a + table_size []) with a by (unfold table_size; cbn; lia).
      assert (negb (a + sizeof_madt_header <=? a) = true) as Hn by (rewrite (proj2 (Z.leb_gt _ _)); [done|unfold sizeof_madt_header; lia]).
      destruct fuel; cbn [madt_loop]; by rewrite Hn.
    + split; [|done]. apply (rep_ext P); [|done]. intros k. cbn. by rewrite app_nil_r.
  - destruct fuel as [|fuel]; [cbn in Hf; lia|]. apply Forall_cons in Hes as [He Hes].
    cbn [mbind list_bind] in Hb. rewrite encode_app in Hb. apply block_app in Hb as [Hbe Hb]. rewrite encode_width in Hb.
    fold (size_of e) in Hb. destruct (entry_reads m a e Hbe He) as (Ht & Hl & Hr).
    pose proof (size_of_pos e) as Hp. assert (0 <= table_size es) as Hz by (unfold table_size; lia).
    rewrite table_size_cons. cbn [madt_loop].
    rewrite (proj2 (Z.leb_le _ _)) by (unfold sizeof_madt_header; lia). cbn [negb].
    rewrite (st_bind_ok _ _ _ _ _ (rd_load _ _ _ s Hl)), (st_bind_ok _ _ _ _ _ (rd_load _ _ _ s Ht)).
    rewrite (proj2 (Z.ltb_ge _ _)) by (unfold sizeof_madt_header; lia). rewrite (proj2 (Z.ltb_ge _ _)) by lia. cbn [orb].
    destruct (madt_entry_ok e a P s He Hr HP) as (s1 & H1 & HP1 & Hk1 & Hb1). rewrite (st_bind_ok _ _ _ _ _ H1).
    replace (a + (size_of e + table_size es)) with (a + size_of e + table_size es) by lia.
    destruct (IH fuel (a + size_of e) _ s1 Hb Hes HP1 ltac:(cbn in Hf; lia)) as (s2 & H2 & HP2 & Hk2 & Hb2).
    exists s2. split; [exact H2|]. split; [|split; [by etrans|]].
    + eapply rep_ext; [|exact HP2]. intros k. cbn beta. rewrite <- app_assoc, <- fmap_app. f_equal. f_equal.
      unfold of_kind. cbn [located]. rewrite !filter_cons. by destruct (decide _).
    + rewrite Hb2, Hb1. done.
Qed.

(** *** On any bytes *)

Lemma load_mapped a f : mapped m (a + f.1) (Z.of_nat f.2) -> exists v, load m a f = Ok v.
Proof. intros Hm. destruct (load_le_ok m f.2 (a + f.1) Hm) as (bs & _ & Hl & _). eauto. Qed.

Lemma load_within a n (f : field) : mapped m a n -> 0 <= f.1 -> f.1 + Z.of_nat f.2 <= n -> exists v, load m a f = Ok v.
Proof. intros Hm H0 H1. apply load_mapped. eapply mapped_sub; [exact Hm|lia|lia]. Qed.

Lemma readable_within a k : mapped m a 12 -> readable a k.
Proof. intros Hm. unfold readable. rewrite Forall_forall. intros f Hf. apply (load_within a 12); [done|..]; destruct k; set_unfold in Hf; naive_solver lia. Qed.

Lemma madt_entry_total type p P s : mapped m p 12 -> rep P s -> exists s' Q, madt_entry m type p s = Ok (tt, s') /\ rep Q s' /\ kept s s' /\
  forall k x, x ∈ Q k -> x ∈ P k \/ x = p.
Proof.
  intros Hm HP. unfold madt_entry.
  assert (Hh : forall k, exists s' Q, MADT_HANDLE_STRUCT m k p s = Ok (tt, s') /\ rep Q s' /\ kept s s' /\
    forall j x, x ∈ Q j -> x ∈ P j \/ x = p).
  { intros k. destruct (handle_struct_ok k p P s HP (readable_within p k Hm)) as (s' & H1 & H2 & H3 & H4 & H5 & _ & H6).
    exists s', (push k p P). split; [done|]. split; [done|]. split; [done|]. intros j x. unfold push. case_decide; [|auto].
    intros [|]%elem_of_app; [auto|]. right. set_solver. }
  repeat case_match; try apply Hh.
  - destruct (load_within p 12 override_addr Hm) as [v Hv]; [done|done|].
    rewrite (st_bind_ok _ _ _ _ _ (rd_load _ _ _ s Hv)), modify_bind. eexists _, P. split; [reflexivity|]. split; [exact HP|]. split; [done|auto].
  - eexists _, P. split; [reflexivity|]. split; [exact HP|]. split; [done|auto].
Qed.

Lemma madt_loop_total t end_ : forall fuel a P s, mapped m t (end_ + 10 - t) -> t <= a -> end_ - a <= 2 * Z.of_nat fuel -> rep P s ->
  (forall k x, x ∈ P k -> t <= x /\ x + 2 <= end_) ->
  exists s' Q, madt_loop m fuel a end_ s = Ok (tt, s') /\ rep Q s' /\ kept s s' /\ forall k x, x ∈ Q k -> t <= x /\ x + 2 <= end_.
Proof.
  induction fuel as [|fuel IH]; intros a P s Hm Ht Hf HP Hx; cbn [madt_loop]; unfold sizeof_madt_header;
    (destruct (Z.leb_spec (a + 2) end_) as [Ha|Ha]; cbn [negb]; [|by exists s, P]).
  { lia. }
  destruct (load_within a 2 hdr_len) as [len Hl]; [eapply mapped_sub; [exact Hm|lia|lia]|done|done|].
  destruct (load_within a 2 hdr_type) as [type Hty]; [eapply mapped_sub; [exact Hm|lia|lia]|done|done|].
  rewrite (st_bind_ok _ _ _ _ _ (rd_load _ _ _ s Hl)), (st_bind_ok _ _ _ _ _ (rd_load _ _ _ s Hty)).
  destruct (Z.ltb_spec len 2); cbn [orb]; [by eexists _, P|].
  destruct (Z.ltb_spec end_ (a + len)); [by eexists _, P|].
  destruct (madt_entry_total type a P s) as (s1 & Q & H1 & HQ & Hk & Hq); [eapply mapped_sub; [exact Hm|lia|lia]|done|].
  rewrite (st_bind_ok _ _ _ _ _ H1).
  destruct (IH (a + len) Q s1 Hm ltac:(lia) ltac:(lia) HQ) as (s2 & Q2 & H2 & HQ2 & Hk2 & Hq2).
  { intros k x [Hin| ->]%Hq; [by apply (Hx k)|lia]. }
  exists s2, Q2. split; [exact H2|]. split; [exact HQ2|]. split; [by etrans|done].
Qed.
End walk.

(** ** Finding a table *)

Section tables.
Context (m : mem) (hhdm_offset : Z) (Hok : mem_ok m).
Abbreviation virt := (PHYS_TO_VIRT hhdm_offset).

Definition same_sig (h sig : Z) : Prop := Forall (fun k => m !! (h + k) = m !! (sig + k)) [0; 1; 2; 3].
#[export] Instance same_sig_dec h sig : Decision (same_sig h sig).
Proof. unfold same_sig. apply _. Defined.

(** The first non-null pointer to a table with the signature. *)
Definition find_table (ps : list Z) (sig : Z) : ptr :=
  head (filter (fun h => same_sig h sig) (omap (acpi_map_sdt hhdm_offset) ps)).

(** The root table at [r] holds the pointers [ps]; its length may leave less
    than one pointer over. *)
Definition root_holds (x : bool) (r : Z) (ps : list Z) : Prop :=
  (exists rest, 0 <= rest < Z.of_nat (entry_size x) /\
    load m r sdt_length = Ok (sizeof_sdt_header + (Z.of_nat (entry_size x) * Z.of_nat (length ps) + rest))) /\
  forall i p, ps !! i = Some p -> load m (r + sizeof_sdt_header + Z.of_nat (entry_size x) * Z.of_nat i) (0, entry_size x) = Ok p.

(** A table is readable and the fourth byte of its length is 0. *)
Definition table_at (h : Z) : Prop := mapped m h 8 /\ m !! (h + 7) = Some 0.
Definition tables_at (ps : list Z) : Prop := Forall table_at (omap (acpi_map_sdt hhdm_offset) ps).

Lemma memcmp_sig h sig : mapped m h 4 -> mapped m sig 4 ->
  exists r, memcmp h sig 4 m = Ok r /\ (r =? 0) = bool_decide (same_sig h sig).
Proof.
  intros H1 H2. destruct (memcmp_ok m h sig 4 Hok ltac:(lia) H1 H2) as [[Hc He]|(i & r & Hc & x & y & Hi & Hx & Hy & Hne & _ & ->)].
  - exists 0. split; [done|]. rewrite bool_decide_true; [done|]. unfold same_sig. repeat constructor; apply He; lia.
  - exists (if x <? y then -1 else 1). split; [done|]. rewrite bool_decide_false; [by destruct (x <? y)|].
    intros Hs. unfold same_sig in Hs. rewrite Forall_forall in Hs.
    assert (m !! (h + i) = m !! (sig + i)) as He by (apply Hs; assert (i = 0 \/ i = 1 \/ i = 2 \/ i = 3) by lia; set_solver).
    congruence.
Qed.

Lemma table_mapped h : table_at h -> mapped m h 4.
Proof. intros [Hm _]. eapply mapped_sub; [exact Hm|lia|lia]. Qed.

Lemma nth_ptr x r p ps : (forall i q, (p :: ps) !! i = Some q -> load m (r + Z.of_nat (entry_size x) * Z.of_nat i) (0, entry_size x) = Ok q) ->
  load m r (0, entry_size x) = Ok p /\
  forall i q, ps !! i = Some q -> load m (r + Z.of_nat (entry_size x) + Z.of_nat (entry_size x) * Z.of_nat i) (0, entry_size x) = Ok q.
Proof.
  intros Hp. split.
  - rewrite <- (Hp 0%nat p) by done. f_equal. lia.
  - intros i q Hq. rewrite <- (Hp (S i) q) by done. f_equal. lia.
Qed.

Lemma get_table_loop_ok x sig s : mapped m sig 4 -> forall ps a,
  (forall i p, ps !! i = Some p -> load m (a + Z.of_nat (entry_size x) * Z.of_nat i) (0, entry_size x) = Ok p) ->
  tables_at ps -> get_table_loop m hhdm_offset (length ps) x a sig s = Ok (find_table ps sig, s).
Proof.
  intros Hs. induction ps as [|p ps IH]; intros a Hp Ht; [done|]. apply nth_ptr in Hp as [Hp0 Hp].
  cbn [length get_table_loop]. rewrite (st_bind_ok _ _ _ _ _ (rd_load _ _ _ _ s Hp0)).
  unfold tables_at, find_table in *. cbn [omap list_omap] in *. destruct (acpi_map_sdt hhdm_offset p) as [h|]; [|by apply IH].
  apply Forall_cons in Ht as [Hh Ht]. destruct (memcmp_sig h sig (table_mapped h Hh) Hs) as (r & Hr & Hb).
  rewrite (lift_bind _ _ _ _ Hr), Hb, filter_cons. case_bool_decide; rewrite ?decide_True, ?decide_False by done; [done|by apply IH].
Qed.

Lemma root_count x r ps : root_holds x r ps -> exists len, load m r sdt_length = Ok len /\ (len <? sizeof_sdt_header) = false /\
  Z.to_nat ((len - sizeof_sdt_header) / Z.of_nat (entry_size x)) = length ps.
Proof.
  intros [(rest & Hr & Hl) _]. eexists. split; [exact Hl|]. split; [apply Z.ltb_ge; nia|].
  assert (0 < Z.of_nat (entry_size x)) by (by destruct x).
  replace (_ - sizeof_sdt_header) with (Z.of_nat (length ps) * Z.of_nat (entry_size x) + rest) by lia.
  rewrite Z.div_add_l, Z.div_small by lia. lia.
Qed.

Lemma acpi_get_table_ok s r ps sig : root_sdt s = Some r -> root_holds (xsdt s) r ps -> tables_at ps -> mapped m sig 4 ->
  acpi_get_table m hhdm_offset sig s = Ok (find_table ps sig, s).
Proof.
  intros Hs Hr Ht Hsig. unfold acpi_get_table. rewrite gets_bind, Hs, gets_bind.
  destruct (root_count _ _ _ Hr) as (len & Hl & Hlt & Hn). rewrite (st_bind_ok _ _ _ _ _ (rd_load _ _ _ _ s Hl)), Hlt, Hn.
  apply get_table_loop_ok; [done| |done]. apply Hr.
Qed.

(** *** [acpi_init] *)

Lemma string_at_ok n : forall fuel a, (n < fuel)%nat -> mapped m a (Z.of_nat n + 1) -> m !! (a + Z.of_nat n) = Some 0 ->
  exists t, string_at m fuel a = Ok t.
Proof.
  induction n as [|n IH]; intros [|fuel] a Hf Hm Hz; try lia; cbn [string_at].
  - rewrite (load8_ok m a 0) by (by rewrite Z.add_0_r in Hz). by exists [].
  - destruct (Hm a) as [c Hc]; [lia|]. rewrite (load8_ok m a c Hc). cbn [mbind outcome_bind]. destruct (c =? 0); [by exists []|].
    destruct (IH fuel (a + 1)) as [t Ht]; [lia|eapply mapped_sub; [exact Hm|lia|lia]|rewrite <- Hz; f_equal; lia|].
    rewrite Ht. by eexists.
Qed.

Lemma mapped_size a n : mapped m a (Z.of_nat n) -> (n <= size m)%nat.
Proof.
  intros Hm. rewrite <- size_dom.
  assert (list_to_set (seqZ a (Z.of_nat n)) ⊆@{gset Z} dom m) as Hs.
  { intros x Hx%elem_of_list_to_set%elem_of_seqZ. apply elem_of_dom, Hm. lia. }
  apply subseteq_size in Hs. rewrite size_list_to_set in Hs by apply NoDup_seqZ. rewrite length_seqZ in Hs. lia.
Qed.

Lemma text4_ok h : table_at h -> exists t, text4_at m h = Ok t.
Proof.
  intros [Hm Hz]. pose proof (mapped_size h 8 Hm). unfold text4_at.
  destruct (string_at_ok 7 (S (size m)) h) as [t ->]; [lia|exact Hm|exact Hz|]. by eexists.
Qed.

Definition same_root (s s' : acpi) : Prop :=
  root_sdt s' = root_sdt s /\ xsdt s' = xsdt s /\ madt s' = madt s /\ ports s' = ports s /\ forall k, get_array k s' = get_array k s.
#[local] Instance same_root_po : PreOrder same_root.
Proof.
  split; [done|]. intros s1 s2 s3 (A & B & C & D & E) (A' & B' & C' & D' & E'). unfold same_root. repeat split; congruence.
Qed.

Lemma klog_ok e s : exists s', klog e s = Ok (tt, s') /\ same_root s s'.
Proof. eexists. split; [reflexivity|]. done. Qed.

Lemma list_tables_ok x : forall ps a s,
  (forall i p, ps !! i = Some p -> load m (a + Z.of_nat (entry_size x) * Z.of_nat i) (0, entry_size x) = Ok p) ->
  tables_at ps -> exists s', list_tables m hhdm_offset (length ps) x a s = Ok (tt, s') /\ same_root s s'.
Proof.
  induction ps as [|p ps IH]; intros a s Hp Ht; [by exists s|]. apply nth_ptr in Hp as [Hp0 Hp]. cbn [length list_tables].
  rewrite (st_bind_ok _ _ _ _ _ (rd_load _ _ _ _ s Hp0)).
  assert (Hl : exists s1, match acpi_map_sdt hhdm_offset p with None => klog NullTable | Some h => t ← st_lift (text4_at m h); klog (TableAt t h) end s
    = Ok (tt, s1) /\ same_root s s1 /\ tables_at ps).
  { unfold tables_at in *. cbn [omap list_omap] in Ht. destruct (acpi_map_sdt hhdm_offset p) as [h|].
    - apply Forall_cons in Ht as [Hh Ht]. destruct (text4_ok h Hh) as [t Htx]. rewrite (lift_bind _ _ _ _ Htx).
      destruct (klog_ok (TableAt t h) s) as (s1 & ? & ?). eauto.
    - destruct (klog_ok NullTable s) as (s1 & ? & ?). eauto. }
  destruct Hl as (s1 & H1 & Hk1 & Ht1). rewrite (st_bind_ok _ _ _ _ _ H1).
  destruct (IH (a + Z.of_nat (entry_size x)) s1 Hp Ht1) as (s2 & H2 & Hk2). exists s2. split; [exact H2|by etrans].
Qed.

(** The pointer of the RSDP: that of the XSDT from revision 2 on. *)
Definition rsdp_holds (rsdp rsdp_sig : Z) (x : bool) (phys : Z) : Prop :=
  mapped m rsdp 8 /\ mapped m rsdp_sig 8 /\ (forall k, 0 <= k < 8 -> m !! (rsdp + k) = m !! (rsdp_sig + k)) /\
  exists revision, load m rsdp rsdp_revision = Ok revision /\ (2 <=? revision) = x /\
    load m rsdp (if x then xsdp_xsdt_addr else rsdp_rsdt_addr) = Ok phys.

Lemma acpi_init_ok rsdp rsdp_sig x phys ps : rsdp_holds rsdp rsdp_sig x phys -> phys <> 0 ->
  root_holds x (virt phys) ps -> tables_at ps ->
  exists s, acpi_init m hhdm_offset rsdp_sig (Some (Some rsdp)) boot_acpi = Ok (tt, s) /\
    root_sdt s = Some (virt phys) /\ xsdt s = x /\ madt s = None /\ ports s = [] /\ forall k, get_array k s = empty_array k.
Proof.
  intros (Hm1 & Hm2 & He & rev & Hrev & Hx & Hp) Hp0 Hr Ht. unfold acpi_init.
  destruct (memcmp_ok m rsdp rsdp_sig 8 Hok ltac:(lia) Hm1 Hm2) as [[Hc _]|(i & r & Hc & a & b & Hi & Ha & Hb & Hne & _)].
  2: { pose proof (He i Hi). congruence. }
  rewrite (lift_bind _ _ _ _ Hc). cbn [Z.eqb negb]. rewrite (st_bind_ok _ _ _ _ _ (rd_load _ _ _ _ _ Hrev)), Hx.
  assert (Hmap : acpi_map_sdt hhdm_offset phys = Some (virt phys)) by (unfold acpi_map_sdt; by rewrite (proj2 (Z.eqb_neq _ _))).
  match goal with |- exists s, (?c ;; _) _ = _ /\ _ => assert (Hc1 : exists s1, c boot_acpi = Ok (tt, s1) /\
    same_root (set_root x (Some (virt phys)) boot_acpi) s1) end.
  { destruct x; rewrite (st_bind_ok _ _ _ _ _ (rd_load _ _ _ _ _ Hp)), ?gets_bind, modify_bind, Hmap; apply klog_ok. }
  destruct Hc1 as (s1 & H1 & Hs1). rewrite (st_bind_ok _ _ _ _ _ H1), gets_bind. destruct Hs1 as (R1 & X1 & M1 & P1 & A1).
  cbn in R1, X1, M1, P1. rewrite R1. destruct (klog_ok TablesFollow s1) as (s2 & H2 & R2 & X2 & M2 & P2 & A2).
  rewrite (st_bind_ok _ _ _ _ _ H2), gets_bind, X2, X1.
  destruct (root_count _ _ _ Hr) as (len & Hl & Hlt & Hn). rewrite (st_bind_ok _ _ _ _ _ (rd_load _ _ _ _ s2 Hl)), Hlt, Hn.
  destruct (list_tables_ok x ps (virt phys + sizeof_sdt_header) s2) as (s3 & H3 & R3 & X3 & M3 & P3 & A3); [apply Hr|done|].
  exists s3. split; [exact H3|]. repeat split; [congruence..|]. intros k. rewrite A3, A2, A1. by destruct k.
Qed.

(** After [acpi_init] has found a valid RSDP whose root table is readable,
    [acpi_get_table] returns the first non-null pointer of the root table, in
    the direct map, to a table whose first four bytes are the signature, and
    null when there is none; the pointers are those of the XSDT, of 8 bytes,
    from revision 2 on, and of the RSDT, of 4 bytes, before it. The search
    changes nothing, and a length that is not a whole number of pointers
    leaves the rest out. *)
Theorem acpi_get_table_spec rsdp rsdp_sig x phys ps : rsdp_holds rsdp rsdp_sig x phys -> phys <> 0 ->
  root_holds x (virt phys) ps -> tables_at ps ->
  exists s, acpi_init m hhdm_offset rsdp_sig (Some (Some rsdp)) boot_acpi = Ok (tt, s) /\
    forall sig, mapped m sig 4 -> acpi_get_table m hhdm_offset sig s = Ok (find_table ps sig, s).
Proof.
  intros Hrs Hp Hr Ht. destruct (acpi_init_ok rsdp rsdp_sig x phys ps Hrs Hp Hr Ht) as (s & Hi & Hroot & Hx & _).
  exists s. split; [exact Hi|]. intros sig Hs. apply (acpi_get_table_ok s (virt phys)); [done|by rewrite Hx|done|done].
Qed.

(** ** The MADT *)

(** A table at [t] with the fields and the entries given. *)
Definition madt_holds (t addr flags : Z) (es : list entry) : Prop :=
  load m t madt_flags = Ok flags /\ load m t madt_lapic_addr = Ok addr /\
  load m t sdt_length = Ok (madt_structures + table_size es) /\
  block m (t + madt_structures) (encode (es ≫= fields_of)) /\ Forall entry_ok es.

Definition pic_masked (flags : Z) : list (Z * Z) := if has_bits flags 1 then [(0x21, 0xff); (0xa1, 0xff)] else [].

(** Up to the walk. *)
Lemma madt_init_head t addr flags len sig s : acpi_get_table m hhdm_offset sig s = Ok (Some t, s) ->
  load m t madt_flags = Ok flags -> load m t madt_lapic_addr = Ok addr -> load m t sdt_length = Ok len ->
  exists s1, madt_init m hhdm_offset sig s =
    (madt_loop m (Z.to_nat len) (t + madt_structures) (t + len) ;;
     c ← gets (fun s => [count (lapics s); count (ioapics s); count (isos s); count (nmis s)]);
     klog (Summary c)) s1 /\
    madt s1 = Some t /\ lapic_base s1 = addr /\ ports s1 = ports s ++ pic_masked flags /\ forall k, get_array k s1 = get_array k s.
Proof.
  intros Hg Hf Ha Hl. unfold madt_init. rewrite (st_bind_ok _ _ _ _ _ Hg), modify_bind.
  rewrite (st_bind_ok _ _ _ _ _ (rd_load _ _ _ _ _ Hf)).
  match goal with |- exists s1, (?c ;; _) ?s0 = _ /\ _ => assert (Hc : exists s1, c s0 = Ok (tt, s1) /\ madt s1 = Some t /\
    ports s1 = ports s ++ pic_masked flags /\ forall k, get_array k s1 = get_array k s) end.
  { unfold pic_masked. destruct (has_bits flags 1).
    - eexists. split; [reflexivity|]. split; [done|]. split; [cbn; by rewrite <- app_assoc|done].
    - eexists. split; [reflexivity|]. split; [done|]. split; [cbn; by rewrite app_nil_r|done]. }
  destruct Hc as (s1 & H1 & Hm & Hp & Har). rewrite (st_bind_ok _ _ _ _ _ H1), (st_bind_ok _ _ _ _ _ (rd_load _ _ _ _ _ Ha)), modify_bind.
  rewrite (st_bind_ok _ _ _ _ _ (rd_load _ _ _ _ _ Hl)). by eexists.
Qed.

Lemma rep_empty s : (forall k, get_array k s = empty_array k) -> rep (fun _ => []) s.
Proof. intros He k. rewrite He. split; [|cbn; by rewrite Nat.min_0_r]. cbn. rewrite take_nil, Nat.sub_0_r. done. Qed.

Lemma located_reads es a : block m a (encode (es ≫= fields_of)) -> Forall entry_ok es ->
  Forall (fun pe => reads_as m pe.1 pe.2) (located a es).
Proof.
  revert a. induction es as [|e es IH]; intros a Hb Hes; [done|]. apply Forall_cons in Hes as [He Hes].
  cbn [mbind list_bind] in Hb. rewrite encode_app in Hb. apply block_app in Hb as [Hbe Hb]. rewrite encode_width in Hb.
  cbn [located]. constructor; [by apply entry_reads|]. by apply IH.
Qed.

Lemma length_located a es : length (located a es) = length es.
Proof. revert a. induction es as [|e es IH]; intros a; [done|]. cbn. by rewrite IH. Qed.

Lemma table_size_length es : Z.of_nat (length es) <= table_size es.
Proof. induction es as [|e es IH]; [done|]. rewrite table_size_cons. pose proof (size_of_pos e). cbn [length]. lia. Qed.

(** The items of an array that represents [ps]. *)
Lemma array_items k ps a : array_rep k ps a -> forall i, (i < ARRAY_LEN k `min` length ps)%nat -> items a !! i = Some (ps !! i).
Proof.
  intros [Hi _] i Hlt. rewrite Hi. rewrite lookup_app_l by (rewrite length_fmap, length_take; lia).
  rewrite list_lookup_fmap, lookup_take_lt by lia. destruct (lookup_lt_is_Some_2 ps i) as [p ->]; [lia|done].
Qed.

(** C34: [madt_init] reads back the entries that a table encodes. The pointers
    in each array are the addresses of the entries of its kind, in order, up to
    the size of the array, and reading a structure through its pointer gives
    the fields that were encoded; entries of other types are stepped over by
    their length. The base of the local controller is that of the last
    override, else the table's, and the old controller is masked exactly when
    the table says that there is one. *)
Theorem madt_init_collects s t addr flags es sig : acpi_get_table m hhdm_offset sig s = Ok (Some t, s) ->
  (forall k, get_array k s = empty_array k) -> madt_holds t addr flags es ->
  let found := located (t + madt_structures) es in
  exists s', madt_init m hhdm_offset sig s = Ok (tt, s') /\ madt s' = Some t /\
    lapic_base s' = base_after addr es /\ ports s' = ports s ++ pic_masked flags /\
    Forall (fun pe => reads_as m pe.1 pe.2) found /\
    forall k, let n := (ARRAY_LEN k `min` length (of_kind k found))%nat in
      count (get_array k s') = Z.of_nat n /\
      forall i, (i < n)%nat -> items (get_array k s') !! i = Some ((of_kind k found).*1 !! i).
Proof.
  intros Hg He (Hf & Ha & Hl & Hb & Hes) found.
  destruct (madt_init_head t addr flags _ sig s Hg Hf Ha Hl) as (s1 & -> & Hm & Hla & Hp & Har).
  destruct (madt_loop_ok m es (Z.to_nat (madt_structures + table_size es)) (t + madt_structures) (fun _ => []) s1 Hb Hes)
    as (s2 & H2 & Hrep & (_ & _ & Hm2 & Hp2) & Hb2).
  { apply rep_empty. intros k. by rewrite Har. }
  { pose proof (table_size_length es). unfold madt_structures. lia. }
  rewrite Z.add_assoc. rewrite (st_bind_ok _ _ _ _ _ H2), gets_bind. eexists. split; [reflexivity|].
  split; [cbn; congruence|]. split; [cbn; congruence|]. split; [cbn; congruence|]. split; [by apply located_reads|].
  intros k n. specialize (Hrep k). change (get_array k _) with (get_array k s2). cbn in Hrep. fold found in Hrep. split.
  - rewrite (proj2 Hrep), length_fmap. done.
  - intros i Hi. apply (array_items k _ _ Hrep). by rewrite length_fmap.
Qed.

(** C35: whatever bytes a table holds, [madt_init] returns: every entry that is
    not reported as malformed is at least two bytes long, so the walk ends; the
    arrays never hold more than their size and every pointer in them is to an
    entry whose header is inside the table. The fields of an entry are only
    inside the ten bytes that follow the table. *)
Theorem madt_init_total s t len sig : acpi_get_table m hhdm_offset sig s = Ok (Some t, s) ->
  (forall k, get_array k s = empty_array k) -> load m t sdt_length = Ok len -> mapped m t (Z.max madt_structures len + 10) ->
  exists s', madt_init m hhdm_offset sig s = Ok (tt, s') /\
    forall k, length (items (get_array k s')) = ARRAY_LEN k /\ 0 <= count (get_array k s') <= Z.of_nat (ARRAY_LEN k) /\
      forall i, (Z.of_nat i < count (get_array k s')) -> exists p, items (get_array k s') !! i = Some (Some p) /\
        t + madt_structures <= p /\ p + sizeof_madt_header <= t + len.
Proof.
  intros Hg He Hl Hm. unfold madt_structures, sizeof_madt_header in *.
  destruct (load_within m t 44 madt_flags) as [flags Hf]; [eapply mapped_sub; [exact Hm|lia|lia]|done|done|].
  destruct (load_within m t 44 madt_lapic_addr) as [addr Ha]; [eapply mapped_sub; [exact Hm|lia|lia]|done|done|].
  destruct (madt_init_head t addr flags _ sig s Hg Hf Ha Hl) as (s1 & -> & _ & _ & _ & Har).
  destruct (madt_loop_total m (t + 44) (t + len) (Z.to_nat len) (t + 44) (fun _ => []) s1) as (s2 & Q & H2 & HQ & _ & Hq).
  { eapply mapped_sub; [exact Hm|lia|lia]. }
  { lia. }
  { lia. }
  { apply rep_empty. intros k. by rewrite Har. }
  { intros k x Hx. by apply not_elem_of_nil in Hx. }
  rewrite (st_bind_ok _ _ _ _ _ H2), gets_bind. eexists. split; [reflexivity|].
  intros k. change (get_array k _) with (get_array k s2). destruct (HQ k) as [Hi Hc]. split; [|split].
  - rewrite Hi, length_app, length_fmap, length_take, length_replicate. lia.
  - rewrite Hc. lia.
  - intros i Hlt. rewrite Hc in Hlt. destruct (lookup_lt_is_Some_2 (Q k) i) as [p Hp]; [lia|].
    exists p. rewrite (array_items k _ _ (HQ k)) by lia. rewrite Hp. split; [done|]. apply (Hq k). by apply list_elem_of_lookup_2 in Hp.
Qed.
End tables.

(** ** A concrete machine

    An RSDP of revision 0, a root table with a null pointer, another table and a
    MADT. *)

Definition at_address (a : Z) (bs : list Z) : mem := list_to_map (zip (seqZ a (Z.of_nat (length bs))) bs).

Definition mapped_b (m : mem) (a n : Z) : bool := forallb (fun x => match m !! x with Some _ => true | None => false end) (seqZ a n).
Lemma mapped_check m a n : mapped_b m a n = true -> mapped m a n.
Proof.
  unfold mapped_b. rewrite forallb_forall. intros Hb x Hx. specialize (Hb x). destruct (m !! x); [by eexists|].
  discriminate Hb. apply list_elem_of_In, elem_of_seqZ. lia.
Qed.

Lemma mem_ok_check m : bool_decide (map_Forall (fun _ b => 0 <= b < 256) m) = true -> mem_ok m.
Proof. intros Hb%bool_decide_eq_true. intros a b Hab. exact (Hb a b Hab). Qed.

Lemma block_check m a bs : (fun i => m !! (a + i)) <$> seqZ 0 (Z.of_nat (length bs)) = Some <$> bs -> block m a bs.
Proof.
  intros He i b Hi. assert ((Some <$> bs) !! i = Some (Some b)) as Hs by (rewrite list_lookup_fmap, Hi; done).
  rewrite <- He, list_lookup_fmap, lookup_seqZ_lt in Hs by (apply lookup_lt_Some in Hi; lia). cbn in Hs. by injection Hs.
Qed.

Definition hhdm : Z := 0x1000.
Definition rsdp_text : list Z := [82; 83; 68; 32; 80; 84; 82; 32].
Definition apic_text : list Z := [65; 80; 73; 67].
Definition facp_text : list Z := [70; 65; 67; 80].
Definition sdt (sig : list Z) (body : list Z) : list Z :=
  sig ++ le_bytes 4 (36 + Z.of_nat (length body)) ++ replicate 28 0 ++ body.

Definition demo_entries : list entry :=
  [ELapic 0 0 1; EOther 3 [0; 0; 2; 0; 0; 0]; EIoapic 2 0 0xfec00000 0; EIso 0 0 2 0; EOverride 0 0xfee01000; ELapic 1 1 1; ENmi 255 0 1].
Definition demo_madt : list Z := sdt apic_text (le_bytes 4 0xfee00000 ++ le_bytes 4 1 ++ encode (demo_entries ≫= fields_of)).

Definition tables_mem : mem :=
  at_address 0x100 (rsdp_text ++ replicate 7 0 ++ [0] ++ le_bytes 4 0x200) ∪ at_address 0x180 rsdp_text ∪ at_address 0x190 apic_text ∪
  at_address (hhdm + 0x200) (sdt [82; 83; 68; 84] (le_bytes 4 0 ++ le_bytes 4 0x300 ++ le_bytes 4 0x400)) ∪
  at_address (hhdm + 0x300) (sdt facp_text []) ∪ at_address (hhdm + 0x400) (demo_madt ++ replicate 10 0).

Definition demo_acpi : acpi := set_root false (Some (hhdm + 0x200)) boot_acpi.

Lemma tables_mem_ok : mem_ok tables_mem.
Proof. apply mem_ok_check. vm_compute. reflexivity. Qed.

Lemma demo_get_table : acpi_get_table tables_mem hhdm 0x190 demo_acpi = Ok (Some (hhdm + 0x400), demo_acpi).
Proof. vm_compute. reflexivity. Qed.

Lemma demo_arrays k : get_array k demo_acpi = empty_array k.
Proof. by destruct k. Qed.

Lemma acpi_get_table_spec_witness : exists s,
  acpi_init tables_mem hhdm 0x180 (Some (Some 0x100)) boot_acpi = Ok (tt, s) /\
  acpi_get_table tables_mem hhdm 0x190 s = Ok (Some (hhdm + 0x400), s).
Proof.
  destruct (acpi_get_table_spec tables_mem hhdm tables_mem_ok 0x100 0x180 false 0x200 [0; 0x300; 0x400]) as (s & Hi & Hg).
  - split; [apply mapped_check; vm_compute; reflexivity|]. split; [apply mapped_check; vm_compute; reflexivity|]. split.
    + intros k Hk. assert (k = 0 \/ k = 1 \/ k = 2 \/ k = 3 \/ k = 4 \/ k = 5 \/ k = 6 \/ k = 7) as Hc by lia.
      destruct Hc as [->|[->|[->|[->|[->|[->|[->| ->]]]]]]]; vm_compute; reflexivity.
    + exists 0. repeat split; vm_compute; reflexivity.
  - lia.
  - split.
    + exists 0. split; [vm_compute; split; [intros Hf; discriminate Hf|reflexivity]|vm_compute; reflexivity].
    + intros [|[|[|i]]] p Hp; try (injection Hp as <-; vm_compute; reflexivity). destruct i; discriminate Hp.
  - repeat constructor; try (apply mapped_check); vm_compute; reflexivity.
  - exists s. split; [exact Hi|]. rewrite (Hg 0x190); [vm_compute; reflexivity|apply mapped_check; vm_compute; reflexivity].
Defined.

Lemma demo_madt_holds : madt_holds tables_mem (hhdm + 0x400) 0xfee00000 1 demo_entries.
Proof.
  split; [vm_compute; reflexivity|]. split; [vm_compute; reflexivity|]. split; [vm_compute; reflexivity|].
  split; [apply block_check; vm_compute; reflexivity|].
  repeat constructor; cbn; try lia; try done; set_solver by lia.
Qed.

Lemma madt_init_collects_witness : exists s', madt_init tables_mem hhdm 0x190 demo_acpi = Ok (tt, s') /\
  lapic_base s' = 0xfee01000 /\ ports s' = [(0x21, 0xff); (0xa1, 0xff)] /\ count (get_array KLapic s') = 2.
Proof.
  destruct (madt_init_collects tables_mem hhdm demo_acpi (hhdm + 0x400) 0xfee00000 1 demo_entries 0x190 demo_get_table demo_arrays demo_madt_holds)
    as (s' & Hi & _ & Hb & Hp & _ & Hk).
  exists s'. split; [exact Hi|]. split; [exact Hb|]. split; [exact Hp|]. exact (proj1 (Hk KLapic)).
Defined.

Lemma madt_init_total_witness : exists s', madt_init tables_mem hhdm 0x190 demo_acpi = Ok (tt, s') /\
  0 <= count (get_array KIso s') <= 16.
Proof.
  destruct (madt_init_total tables_mem hhdm demo_acpi (hhdm + 0x400) (Z.of_nat (length demo_madt)) 0x190 demo_get_table demo_arrays)
    as (s' & Hi & Hk); [vm_compute; reflexivity|apply mapped_check; vm_compute; reflexivity|].
  exists s'. split; [exact Hi|]. exact (proj1 (proj2 (Hk KIso))).
Defined.
