(* ===== verification/Context.v ===== *)
(** The context switch and the initial stack of a thread, from
    [kernel/src/sys/sched.c]: registers, a stack pointer and a memory of 64-bit
    words. *)
From S2P Require Import Prelude.

Inductive reg := RAX | RBX | RCX | RDX | RBP | RDI | RSI | R8 | R9 | R10 | R11 | R12 | R13 | R14 | R15.
#[export] Instance reg_eq : EqDecision reg.
Proof. solve_decision. Defined.

Abbreviation words := (gmap Z Z).
Definition word_at (m : words) (a : Z) : Z := default 0 (m !! a).

Record cpu_state := mk_cs { cs_regs : reg -> Z; cs_sp : Z }.

Definition set_reg (r : reg -> Z) (x : reg) (v : Z) : reg -> Z := fun y => if decide (y = x) then v else r y.

(** [pushq] and [popq] of a list of registers. *)
Fixpoint push_all (order : list reg) (c : cpu_state) (m : words) : cpu_state * words :=
  match order with
  | [] => (c, m)
  | x :: order =>
      let sp := u64 (cs_sp c - 8) in
      push_all order (mk_cs (cs_regs c) sp) (<[sp := cs_regs c x]> m)
  end.
Fixpoint pop_all (order : list reg) (c : cpu_state) (m : words) : cpu_state :=
  match order with
  | [] => c
  | x :: order =>
      pop_all order (mk_cs (set_reg (cs_regs c) x (word_at m (cs_sp c))) (u64 (cs_sp c + 8))) m
  end.

Definition push_order : list reg :=
  [R15; R14; R13; R12; R11; R10; R9; R8; RSI; RDI; RBP; RDX; RCX; RBX; RAX].
Definition pop_order : list reg :=
  [RAX; RBX; RCX; RDX; RBP; RDI; RSI; R8; R9; R10; R11; R12; R13; R14; R15].

(** What runs after the [retq]: the registers, the return address and the
    stack pointer past it. *)
Record resumed := mk_resumed { re_regs : reg -> Z; re_rip : Z; re_sp : Z }.

(** The first half of [context_switch]: the stack pointer to store in
    [prev->rsp], and the memory. *)
Definition context_save (c : cpu_state) (m : words) : Z * words :=
  let '(c, m) := push_all push_order c m in (cs_sp c, m).
(** The second half, from [next->rsp]. *)
Definition context_load (c : cpu_state) (rsp : Z) (m : words) : resumed :=
  let c := pop_all pop_order (mk_cs (cs_regs c) rsp) m in
  mk_resumed (cs_regs c) (word_at m (cs_sp c)) (u64 (cs_sp c + 8)).

Definition SCHED_CONTEXT_QWORDS : Z := 16.
Definition SCHED_CONTEXT_THREAD_ARG_SLOT : Z := 5.
Definition SCHED_IDLE_STACK_QWORDS : Z := 512.

(** [for (i = 0; i < n; i++) *--sp = 0;] *)
Fixpoint push_zeros (n : nat) (sp : Z) (m : words) : Z * words :=
  match n with
  | O => (sp, m)
  | S n => push_zeros n (u64 (sp - 8)) (<[u64 (sp - 8) := 0]> m)
  end.

Definition sched_make_stack (entry thread stack qwords : Z) (m : words) : Z * words :=
  let sp := u64 (u64 (stack + 8 * qwords) - 8) in
  let m := <[sp := entry]> m in
  let '(sp, m) := push_zeros (Z.to_nat (SCHED_CONTEXT_QWORDS - 1)) sp m in
  (sp, <[u64 (sp + 8 * SCHED_CONTEXT_THREAD_ARG_SLOT) := thread]> m).

(** ** Properties *)

(** The frame of a list of registers in memory, lowest address first. *)
Definition framed (order : list reg) (r : reg -> Z) (a : Z) (m : words) : Prop :=
  forall i x, order !! i = Some x -> word_at m (a + 8 * Z.of_nat i) = r x.

Lemma word_at_eq m a v : word_at (<[a := v]> m) a = v.
Proof. unfold word_at. by rewrite lookup_insert_eq. Qed.
Lemma word_at_ne m a b v : a <> b -> word_at (<[a := v]> m) b = word_at m b.
Proof. intros Hn. unfold word_at. by rewrite lookup_insert_ne. Qed.

Lemma push_all_spec order c m : 8 * Z.of_nat (length order) <= cs_sp c < 2 ^ 64 ->
  let n := Z.of_nat (length order) in
  exists m', push_all order c m = (mk_cs (cs_regs c) (cs_sp c - 8 * n), m') /\
    framed (rev order) (cs_regs c) (cs_sp c - 8 * n) m' /\
    forall a, a < cs_sp c - 8 * n \/ cs_sp c <= a -> word_at m' a = word_at m a.
Proof.
  revert c m. induction order as [|x order IH]; intros [r sp] m Hsp n; cbn [push_all cs_regs cs_sp] in *.
  - exists m. assert (sp - 8 * n = sp) as -> by (unfold n; simpl; lia). split; [done|]. split; [|done].
    intros i y Hi. by destruct i.
  - rewrite u64_small by (simpl in Hsp; lia).
    destruct (IH (mk_cs r (sp - 8)) (<[sp - 8 := r x]> m)) as (m' & Hr & Hf & Ho); [simpl in *; lia|].
    exists m'. cbn [cs_regs cs_sp] in *. rewrite Hr. unfold n. cbn [length].
    replace (sp - 8 * Z.of_nat (S (length order))) with (sp - 8 - 8 * Z.of_nat (length order)) by lia.
    split; [done|]. split.
    + intros i y Hi. cbn [rev] in Hi. apply lookup_app_Some in Hi as [Hi|[Hlen Hi]]; [by apply Hf|].
      apply list_lookup_singleton_Some in Hi as [Hi ->]. rewrite length_rev in Hi, Hlen.
      replace (sp - 8 - 8 * Z.of_nat (length order) + 8 * Z.of_nat i) with (sp - 8) by lia.
      rewrite Ho by lia. apply word_at_eq.
    + intros a Ha. rewrite Ho by lia. apply word_at_ne. lia.
Qed.

Lemma pop_all_spec order c m r : NoDup order -> framed order r (cs_sp c) m ->
  0 <= cs_sp c -> cs_sp c + 8 * Z.of_nat (length order) < 2 ^ 64 ->
  cs_sp (pop_all order c m) = cs_sp c + 8 * Z.of_nat (length order) /\
  (forall x, x ∈ order -> cs_regs (pop_all order c m) x = r x) /\
  (forall x, x ∉ order -> cs_regs (pop_all order c m) x = cs_regs c x).
Proof.
  revert c. induction order as [|x order IH]; intros c Hnd Hf H0 Hlt; cbn [pop_all].
  - split; [simpl; lia|]. split; [by intros x ?%elem_of_nil|done].
  - apply NoDup_cons in Hnd as [Hx Hnd]. cbn [length] in Hlt.
    rewrite u64_small by lia.
    destruct (IH (mk_cs (set_reg (cs_regs c) x (word_at m (cs_sp c))) (cs_sp c + 8))) as (Hs & Hin & Hout); try done.
    { intros i y Hi. cbn [cs_sp]. rewrite <- (Hf (S i) y Hi). f_equal. lia. }
    { simpl. lia. }
    { simpl. lia. }
    cbn [cs_sp cs_regs] in *. split; [rewrite Hs; simpl; lia|]. split.
    + intros y [->|Hy]%elem_of_cons; [|by apply Hin]. rewrite Hout by done. unfold set_reg.
      rewrite decide_True by done. rewrite <- (Hf 0%nat x eq_refl). f_equal. lia.
    + intros y Hy. apply not_elem_of_cons in Hy as [Hyx Hy]. rewrite Hout by done. unfold set_reg.
      by rewrite decide_False by done.
Qed.

Lemma pop_order_all x : x ∈ pop_order.
Proof. destruct x; apply (bool_decide_unpack _); exact I. Qed.
Lemma pop_order_nodup : NoDup pop_order.
Proof. apply (bool_decide_unpack _). exact I. Qed.
Lemma pop_is_reverse : rev push_order = pop_order.
Proof. reflexivity. Qed.

(** The addresses of a saved context: fifteen registers and the return address. *)
Definition in_frame (rsp a : Z) : Prop := rsp <= a < rsp + 128.

(** C21: a context switch is undone by switching back. What [context_switch]
    saves for a thread on its stack is exactly what a later switch to that
    thread loads, if nobody has written to the sixteen words of the frame in
    between: every register, the return address of the call and the stack
    pointer after it; and saving writes nothing outside the frame. *)
Theorem context_switch_roundtrip c m rsp m' c2 m2 :
  128 <= cs_sp c < 2 ^ 64 - 8 -> context_save c m = (rsp, m') ->
  (forall a, in_frame rsp a -> word_at m2 a = word_at m' a) ->
  (forall x, re_regs (context_load c2 rsp m2) x = cs_regs c x) /\
  re_rip (context_load c2 rsp m2) = word_at m (cs_sp c) /\
  re_sp (context_load c2 rsp m2) = cs_sp c + 8 /\
  (forall a, a < rsp \/ cs_sp c <= a -> word_at m' a = word_at m a).
Proof.
  intros Hsp Hsave Hsame. unfold context_save in Hsave.
  destruct (push_all_spec push_order c m) as (m1 & Hp & Hf & Ho); [simpl; lia|].
  rewrite Hp in Hsave. cbn [cs_sp] in Hsave. rewrite pop_is_reverse in Hf.
  assert (m1 = m') as -> by congruence.
  assert (cs_sp c - 8 * Z.of_nat (length push_order) = rsp) as Er0 by congruence.
  rewrite Er0 in Hf, Ho. assert (rsp = cs_sp c - 120) as Er by (rewrite <- Er0; simpl; lia). clear Hp Hsave Er0.
  assert (framed pop_order (cs_regs c) rsp m2) as Hf2.
  { intros i x Hi. rewrite Hsame; [by apply Hf|]. apply lookup_lt_Some in Hi. simpl in Hi. unfold in_frame. lia. }
  destruct (pop_all_spec pop_order (mk_cs (cs_regs c2) rsp) m2 (cs_regs c)) as (Hs & Hin & _);
    [apply pop_order_nodup|done|simpl; lia|simpl; lia|].
  assert (cs_sp (pop_all pop_order (mk_cs (cs_regs c2) rsp) m2) = cs_sp c) as Hs'.
  { rewrite Hs. cbn [cs_sp]. change (length pop_order) with 15%nat. lia. }
  set (c3 := pop_all _ _ _) in *. change (context_load c2 rsp m2) with
    (mk_resumed (cs_regs c3) (word_at m2 (cs_sp c3)) (u64 (cs_sp c3 + 8))).
  cbn [re_regs re_rip re_sp]. rewrite Hs'. split_and!.
  - intros x. apply Hin, pop_order_all.
  - rewrite Hsame by (unfold in_frame; lia). apply Ho. lia.
  - apply u64_small. lia.
  - done.
Qed.

Lemma push_zeros_spec n sp m : 8 * Z.of_nat n <= sp < 2 ^ 64 ->
  exists m', push_zeros n sp m = (sp - 8 * Z.of_nat n, m') /\
    (forall i, (i < n)%nat -> word_at m' (sp - 8 * Z.of_nat n + 8 * Z.of_nat i) = 0) /\
    forall a, a < sp - 8 * Z.of_nat n \/ sp <= a -> word_at m' a = word_at m a.
Proof.
  revert sp m. induction n as [|n IH]; intros sp m Hsp; cbn [push_zeros].
  - exists m. replace (sp - 8 * Z.of_nat 0) with sp by lia. split; [done|]. split; [lia|done].
  - rewrite u64_small by lia. destruct (IH (sp - 8) (<[sp - 8 := 0]> m)) as (m' & Hr & Hz & Ho); [lia|].
    exists m'. rewrite Hr. replace (sp - 8 * Z.of_nat (S n)) with (sp - 8 - 8 * Z.of_nat n) by lia.
    split; [done|]. split.
    + intros i Hi. destruct (decide (i = n)) as [->|]; [|apply Hz; lia].
      replace (sp - 8 - 8 * Z.of_nat n + 8 * Z.of_nat n) with (sp - 8) by lia.
      rewrite Ho by lia. apply word_at_eq.
    + intros a Ha. rewrite Ho by lia. apply word_at_ne. lia.
Qed.

Lemma sched_make_stack_sp entry thread stack qwords m :
  0 < stack -> SCHED_CONTEXT_QWORDS <= qwords -> stack + 8 * qwords < 2 ^ 64 - 8 ->
  (sched_make_stack entry thread stack qwords m).1 = stack + 8 * qwords - 128.
Proof.
  unfold SCHED_CONTEXT_QWORDS. intros Hst Hq Hlt. unfold sched_make_stack.
  rewrite !u64_small by (rewrite ?u64_small; lia). set (top := stack + 8 * qwords) in *.
  destruct (push_zeros_spec 15 (top - 8) (<[top - 8 := entry]> m)) as (m1 & Hp & _); [lia|].
  change (Z.to_nat (SCHED_CONTEXT_QWORDS - 1)) with 15%nat. rewrite Hp. cbn [fst]. lia.
Qed.

(** The registers of a thread at its first instruction. *)
Definition first_regs (thread : Z) (x : reg) : Z := if decide (x = RDI) then thread else 0.

(** a new thread starts in its entry function with itself as the argument.
    [sched_make_stack] writes only the last sixteen words of the stack, and the
    first switch to the stack pointer it returns, if those words are still
    there, goes to [entry] with the thread in the first argument register,
    zero in the others and the whole stack free. *)
Theorem sched_make_stack_starts entry thread stack qwords m sp m' c m2 :
  0 < stack -> SCHED_CONTEXT_QWORDS <= qwords -> stack + 8 * qwords < 2 ^ 64 - 8 ->
  sched_make_stack entry thread stack qwords m = (sp, m') ->
  (forall a, in_frame sp a -> word_at m2 a = word_at m' a) ->
  stack <= sp /\ sp = stack + 8 * qwords - 128 /\
  (forall a, ~ in_frame sp a -> word_at m' a = word_at m a) /\
  (forall x, re_regs (context_load c sp m2) x = first_regs thread x) /\
  re_rip (context_load c sp m2) = entry /\ re_sp (context_load c sp m2) = stack + 8 * qwords.
Proof.
  unfold SCHED_CONTEXT_QWORDS. intros Hst Hq Hlt Hmake Hsame. unfold sched_make_stack in Hmake.
  rewrite !u64_small in Hmake by (rewrite ?u64_small; lia).
  set (top := stack + 8 * qwords) in *.
  destruct (push_zeros_spec 15 (top - 8) (<[top - 8 := entry]> m)) as (m1 & Hp & Hz & Ho); [lia|].
  change (Z.to_nat (SCHED_CONTEXT_QWORDS - 1)) with 15%nat in Hmake. rewrite Hp in Hmake.
  assert (sp = top - 128) as Hspv by (injection Hmake as <- _; lia).
  assert (m' = <[sp + 40 := thread]> m1) as Hm'.
  { injection Hmake as H1 H2. rewrite <- H2. rewrite u64_small by (unfold SCHED_CONTEXT_THREAD_ARG_SLOT; lia).
    f_equal. unfold SCHED_CONTEXT_THREAD_ARG_SLOT. lia. }
  clear Hmake Hp. replace (top - 8 - 8 * Z.of_nat 15) with sp in * by lia. 
  assert (framed pop_order (first_regs thread) sp m2) as Hf.
  { intros i x Hi. pose proof (lookup_lt_Some _ _ _ Hi) as Hil. simpl in Hil.
    rewrite Hsame by (unfold in_frame; lia). rewrite Hm'.
    destruct (decide (i = 5%nat)) as [->|Hi5].
    - rewrite word_at_eq. simpl in Hi. by simplify_eq.
    - rewrite word_at_ne by lia. rewrite Hz by lia. unfold first_regs. rewrite decide_False; [done|].
      intros ->. apply Hi5. by apply (NoDup_lookup pop_order i 5 RDI pop_order_nodup). }
  destruct (pop_all_spec pop_order (mk_cs (cs_regs c) sp) m2 (first_regs thread)) as (Hs & Hin & _);
    [apply pop_order_nodup|done|simpl; lia|simpl; lia|].
  assert (cs_sp (pop_all pop_order (mk_cs (cs_regs c) sp) m2) = top - 8) as Hs'.
  { rewrite Hs. cbn [cs_sp]. change (length pop_order) with 15%nat. lia. }
  set (c3 := pop_all _ _ _) in *. change (context_load c sp m2) with
    (mk_resumed (cs_regs c3) (word_at m2 (cs_sp c3)) (u64 (cs_sp c3 + 8))).
  cbn [re_regs re_rip re_sp]. rewrite Hs'. split_and!.
  - lia.
  - done.
  - intros a Ha. unfold in_frame in Ha. rewrite Hm', word_at_ne by lia. rewrite Ho by lia. apply word_at_ne. lia.
  - intros x. apply Hin, pop_order_all.
  - rewrite Hsame by (unfold in_frame; lia). rewrite Hm', word_at_ne by lia. rewrite Ho by lia. apply word_at_eq.
  - rewrite u64_small; lia.
Qed.

(** ** Concrete instances *)

Definition demo_cpu : cpu_state := mk_cs (fun x => if decide (x = RBX) then 7 else 0) 4096.

Lemma context_switch_roundtrip_witness :
  re_regs (context_load demo_cpu (4096 - 120) (context_save demo_cpu ∅).2) RBX = 7.
Proof.
  destruct (context_switch_roundtrip demo_cpu ∅ (4096 - 120) (context_save demo_cpu ∅).2 demo_cpu
    (context_save demo_cpu ∅).2) as (Hr & _); [simpl; lia|vm_compute; reflexivity|reflexivity|].
  exact (Hr RBX).
Defined.

Lemma sched_make_stack_starts_witness :
  re_rip (context_load demo_cpu (8192 - 128) (sched_make_stack 5000 600 4096 512 ∅).2) = 5000.
Proof.
  destruct (sched_make_stack_starts 5000 600 4096 512 ∅ (8192 - 128) (sched_make_stack 5000 600 4096 512 ∅).2
    demo_cpu (sched_make_stack 5000 600 4096 512 ∅).2) as (_ & _ & _ & _ & Hr & _);
    [lia|unfold SCHED_CONTEXT_QWORDS; lia|lia|vm_compute; reflexivity|reflexivity|exact Hr].
Defined.
