(* ===== verification/Debug.v ===== *)
(** The panic report, [kernel/src/debug/panic.c], and the symbol table of the
    kernel, [kernel/src/debug/kallsyms.c].

    The table of symbols, the memory that a backtrace reads and the current CPU
    are parameters; what the stack holds and what the clock shows when a message
    is written are functions of the log, which every message extends. Reading
    unmapped memory is a fault. The processor halts at the end of the report:
    the result of [vkpanic] is the state it halts in. *)
From S2P Require Import Prelude Kprintf Klog Context.
From stdpp Require Import strings.
#[local] Open Scope Z_scope.

(** The bytes of a string literal. *)
Definition chars (s : string) : list Z := (fun a => Z.of_N (Ascii.N_of_ascii a)) <$> String.list_ascii_of_string s.
Definition literal (s : string) : list Z := chars s ++ [NUL].

(** ** [kallsyms_lookup] *)

(** A name is an address and the bytes that are readable there. *)
Record kallsyms_entry := mk_sym { sym_addr : Z; sym_size : Z; sym_name : option (Z * list Z) }.

Definition lookup_fuel (lo hi : Z) : nat := S (Z.to_nat (hi - lo)).

Fixpoint lookup_loop (fuel : nat) (kallsyms : list kallsyms_entry) (addr lo hi : Z) (best : option kallsyms_entry) :
    outcome (option kallsyms_entry) :=
  match fuel with
  | O => Timeout
  | S fuel =>
      if lo <? hi then
        let mid := u64 (lo + (hi - lo) / 2) in
        sym ← deref (kallsyms !! Z.to_nat mid);
        if sym_addr sym <=? addr then lookup_loop fuel kallsyms addr (u64 (mid + 1)) hi (Some sym)
        else lookup_loop fuel kallsyms addr lo mid best
      else Ok best
  end.

(** [offset] is the variable that the pointer leads to, if there is a pointer. *)
Definition kallsyms_lookup (kallsyms : list kallsyms_entry) (kallsyms_count addr : Z) (offset : option Z) :
    outcome (option kallsyms_entry * option Z) :=
  best ← lookup_loop (lookup_fuel 0 kallsyms_count) kallsyms addr 0 kallsyms_count None;
  match best with
  | None => Ok (None, offset)
  | Some sym => Ok (Some sym, match offset with Some _ => Some (u64 (addr - sym_addr sym)) | None => None end)
  end.

(** ** [interrupt_frame_t] and [struct cpu_info] *)

Record interrupt_frame := mk_frame {
  f_es : Z; f_ds : Z; f_cr0 : Z; f_cr2 : Z; f_cr3 : Z; f_cr4 : Z; f_rax : Z; f_rbx : Z; f_rcx : Z; f_rdx : Z;
  f_rbp : Z; f_rdi : Z; f_rsi : Z; f_r8 : Z; f_r9 : Z; f_r10 : Z; f_r11 : Z; f_r12 : Z; f_r13 : Z; f_r14 : Z;
  f_r15 : Z; f_vector : Z; f_err : Z; f_rip : Z; f_cs : Z; f_rflags : Z; f_rsp : Z; f_ss : Z }.

Record cpu_info := mk_cpu_info { ci_index : Z; ci_processor_id : Z; ci_lapic_id : Z; ci_is_bsp : bool }.

(** ** The report *)

Definition panic_backtrace_limit : Z := 16.

Section report.
Context (kallsyms : list kallsyms_entry) (kallsyms_count : Z).
Context (mem : Z -> option Z) (cpu_current : option cpu_info).
Context (clock : klog -> Z) (stack : klog -> klog_record * list Z * Z) (text_at : Z).

Definition panic_ns : list Z := literal "panic".

Definition klog_ns_force (fmt : list Z) (args : list arg) : ST klog unit := fun k =>
  let '(rec, line, ns_at) := stack k in
  klog_force_write rec line ns_at (clock k) (Some panic_ns) (Some fmt) args k.

(** [label] is a string literal, at [text_at]. *)
Definition panic_log_addr (label : list Z) (addr : Z) : ST klog unit :=
  r ← st_lift (kallsyms_lookup kallsyms kallsyms_count addr (Some 0));
  let offset := default 0 r.2 in
  match r.1 ≫= (fun sym => n ← sym_name sym; Some (sym, n)) with
  | Some (sym, (at_, name)) =>
      if negb (sym_size sym =? 0) then
        klog_ns_force (literal "%s[<%016llx>] %s+0x%llx/0x%llx")
          [ABytes text_at label; AWord addr; ABytes at_ name; AWord offset; AWord (sym_size sym)]
      else
        klog_ns_force (literal "%s[<%016llx>] %s+0x%llx") [ABytes text_at label; AWord addr; ABytes at_ name; AWord offset]
  | None => klog_ns_force (literal "%s[<%016llx>]") [ABytes text_at label; AWord addr]
  end.

Definition panic_log_trace (depth addr : Z) : ST klog unit :=
  r ← st_lift (kallsyms_lookup kallsyms kallsyms_count addr (Some 0));
  let offset := default 0 r.2 in
  match r.1 ≫= (fun sym => n ← sym_name sym; Some (sym, n)) with
  | Some (sym, (at_, name)) =>
      if negb (sym_size sym =? 0) then
        klog_ns_force (literal "  #%zu [<%016llx>] %s+0x%llx/0x%llx")
          [AWord depth; AWord addr; ABytes at_ name; AWord offset; AWord (sym_size sym)]
      else
        klog_ns_force (literal "  #%zu [<%016llx>] %s+0x%llx") [AWord depth; AWord addr; ABytes at_ name; AWord offset]
  | None => klog_ns_force (literal "  #%zu [<%016llx>]") [AWord depth; AWord addr]
  end.

(** [msg] is what the array of the message holds. *)
Definition panic_log_message (msg : list Z) (fmt : option (list Z)) (ap : list arg) : ST klog unit :=
  r ← st_lift (kvsnprintf msg KLOG_MSG_MAX fmt ap);
  klog_ns_force (literal "Kernel panic: %s") [ABytes text_at r.2].

Definition load64 (a : Z) : ST klog Z := st_lift (deref (mem a)).

Definition panic_frame_is_sane (frame prev : Z) : ST klog bool :=
  next ← load64 frame;
  if frame =? 0 then mret false else
  if negb (Z.land frame 15 =? 0) then mret false else
  if next <=? frame then mret false else
  if negb (prev =? 0) && (next <=? prev) then mret false else
  if (next =? 0) || negb (Z.land next 15 =? 0) then mret false else
  mret true.

Fixpoint backtrace_loop (fuel : nat) (depth frame prev : Z) : ST klog unit :=
  match fuel with
  | O => st_timeout
  | S fuel =>
      if negb (frame =? 0) && (depth <? panic_backtrace_limit) then
        sane ← panic_frame_is_sane frame prev;
        if negb (sane : bool) then mret tt else
        ret_addr ← load64 (frame + 8);
        if ret_addr =? 0 then mret tt else
        panic_log_trace depth ret_addr ;;
        next ← load64 frame;
        backtrace_loop fuel (depth + 1) next frame
      else mret tt
  end.

Definition panic_dump_backtrace (regs : option interrupt_frame) : ST klog unit :=
  klog_ns_force (literal "Call Trace:") [] ;;
  match regs with
  | None => mret tt
  | Some regs =>
      panic_log_trace 0 (f_rip regs) ;;
      backtrace_loop (Z.to_nat panic_backtrace_limit) 1 (f_rbp regs) 0
  end.

Definition panic_dump_regs (regs : option interrupt_frame) : ST klog unit :=
  match regs with
  | None => mret tt
  | Some r =>
      klog_ns_force (literal "RAX: %016llx  RBX: %016llx  RCX: %016llx  RDX: %016llx")
        [AWord (f_rax r); AWord (f_rbx r); AWord (f_rcx r); AWord (f_rdx r)] ;;
      klog_ns_force (literal "RSI: %016llx  RDI: %016llx  RBP: %016llx  RSP: %016llx")
        [AWord (f_rsi r); AWord (f_rdi r); AWord (f_rbp r); AWord (f_rsp r)] ;;
      klog_ns_force (literal "R8:  %016llx  R9:  %016llx  R10: %016llx  R11: %016llx")
        [AWord (f_r8 r); AWord (f_r9 r); AWord (f_r10 r); AWord (f_r11 r)] ;;
      klog_ns_force (literal "R12: %016llx  R13: %016llx  R14: %016llx  R15: %016llx")
        [AWord (f_r12 r); AWord (f_r13 r); AWord (f_r14 r); AWord (f_r15 r)] ;;
      klog_ns_force (literal "CS:  %016llx  SS:  %016llx  DS:  %016llx  ES:  %016llx")
        [AWord (f_cs r); AWord (f_ss r); AWord (f_ds r); AWord (f_es r)] ;;
      klog_ns_force (literal "CR0: %016llx  CR2: %016llx  CR3: %016llx  CR4: %016llx")
        [AWord (f_cr0 r); AWord (f_cr2 r); AWord (f_cr3 r); AWord (f_cr4 r)] ;;
      klog_ns_force (literal "RFLAGS: %016llx  ERR: %016llx  VEC: %llu")
        [AWord (f_rflags r); AWord (f_err r); AWord (f_vector r)] ;;
      panic_log_addr (literal "RIP: ") (f_rip r)
  end.

Definition panic_dump_cpu : ST klog unit :=
  match cpu_current with
  | None => klog_ns_force (literal "CPU: unknown") []
  | Some cpu =>
      klog_ns_force (literal "CPU: cpu%u lapic=%u acpi=%u%s")
        [AWord (ci_index cpu); AWord (ci_lapic_id cpu); AWord (ci_processor_id cpu);
         ABytes text_at (if ci_is_bsp cpu then literal " (bsp)" else [NUL])]
  end.

(** [panic_lock] is never released. *)
Record panic_state := mk_panic { panic_lock : bool; p_log : klog }.
Definition on_log (m : ST klog unit) : ST panic_state unit := fun s =>
  r ← m (p_log s); Ok (tt, mk_panic (panic_lock s) r.2).

Definition vkpanic (msg : list Z) (regs : option interrupt_frame) (fmt : option (list Z)) (ap : list arg) :
    ST panic_state unit :=
  b ← gets panic_lock;
  if b : bool then st_timeout else
  modify (fun s => mk_panic true (p_log s)) ;;
  on_log (panic_log_message msg fmt ap) ;;
  on_log panic_dump_cpu ;;
  on_log (panic_dump_regs regs) ;;
  on_log (panic_dump_backtrace regs) ;;
  on_log (klog_ns_force (literal "---[ end Kernel panic ]---") []).

Definition kpanic_with_regs := vkpanic.
End report.

(** ** The trampoline [kpanic] *)

Inductive special := SS | CS | DS | ES | CR0 | CR2 | CR3 | CR4.

(** The instructions of the path without registers. *)
Inductive instr :=
  | PUSHQ (r : reg)
  | PUSHQ0
  | PUSHFQ
  | XORQ_RAX
  | MOVW_AX (s : special)
  | MOVQ_RAX (s : special)
  | MOVQ_RSP (offset : Z)
  | LEAQ_RSP (offset : Z).

Definition kpanic_code : list instr :=
  [PUSHQ RAX;
   XORQ_RAX; MOVW_AX SS; PUSHQ RAX;
   LEAQ_RSP 24; PUSHQ RAX;
   PUSHFQ;
   XORQ_RAX; MOVW_AX CS; PUSHQ RAX;
   MOVQ_RSP 40; PUSHQ RAX;
   PUSHQ0; PUSHQ0;
   PUSHQ R15; PUSHQ R14; PUSHQ R13; PUSHQ R12; PUSHQ R11; PUSHQ R10; PUSHQ R9; PUSHQ R8;
   PUSHQ RSI; PUSHQ RDI; PUSHQ RBP; PUSHQ RDX; PUSHQ RCX; PUSHQ RBX;
   MOVQ_RSP 168; PUSHQ RAX;
   MOVQ_RAX CR4; PUSHQ RAX; MOVQ_RAX CR3; PUSHQ RAX; MOVQ_RAX CR2; PUSHQ RAX; MOVQ_RAX CR0; PUSHQ RAX;
   XORQ_RAX; MOVW_AX DS; PUSHQ RAX; XORQ_RAX; MOVW_AX ES; PUSHQ RAX].

Record machine := mk_machine { m_cpu : cpu_state; m_mem : words; m_flags : Z }.

Section trampoline.
Context (special_reg : special -> Z).
(** The flags after a logical instruction whose result is zero. *)
Context (zero_flags : Z -> Z).

Definition set_rax (v : Z) (s : machine) : machine :=
  mk_machine (mk_cs (set_reg (cs_regs (m_cpu s)) RAX v) (cs_sp (m_cpu s))) (m_mem s) (m_flags s).
Definition push (v : Z) (s : machine) : machine :=
  let sp := u64 (cs_sp (m_cpu s) - 8) in
  mk_machine (mk_cs (cs_regs (m_cpu s)) sp) (<[sp := v]> (m_mem s)) (m_flags s).

Definition exec (s : machine) (i : instr) : machine :=
  let rax := cs_regs (m_cpu s) RAX in
  match i with
  | PUSHQ r => push (cs_regs (m_cpu s) r) s
  | PUSHQ0 => push 0 s
  | PUSHFQ => push (m_flags s) s
  | XORQ_RAX => let s := set_rax 0 s in mk_machine (m_cpu s) (m_mem s) (zero_flags (m_flags s))
  | MOVW_AX x => set_rax (rax - rax mod 2 ^ 16 + u16 (special_reg x)) s
  | MOVQ_RAX x => set_rax (special_reg x) s
  | MOVQ_RSP o => set_rax (word_at (m_mem s) (u64 (cs_sp (m_cpu s) + o))) s
  | LEAQ_RSP o => set_rax (u64 (cs_sp (m_cpu s) + o)) s
  end.

(** The words of an [interrupt_frame_t] at an address. *)
Definition frame_at (m : words) (a : Z) : interrupt_frame :=
  let w i := word_at m (a + 8 * i) in
  mk_frame (w 0) (w 1) (w 2) (w 3) (w 4) (w 5) (w 6) (w 7) (w 8) (w 9) (w 10) (w 11) (w 12) (w 13) (w 14) (w 15)
    (w 16) (w 17) (w 18) (w 19) (w 20) (w 21) (w 22) (w 23) (w 24) (w 25) (w 26) (w 27).

(** The frame that [kpanic_with_regs] gets from [kpanic]: [None] stands for the
    one of the caller, whose address is in [RDI]. *)
Definition kpanic (s : machine) : option interrupt_frame :=
  if negb (cs_regs (m_cpu s) RDI =? 0) then None else
  let s := mk_machine (m_cpu s) (m_mem s) (zero_flags (m_flags s)) in
  let s := foldl exec s kpanic_code in
  Some (frame_at (m_mem s) (cs_sp (m_cpu s))).
End trampoline.
