(* ===== verification/DebugSpec.v ===== *)
(** The symbol lookup and the panic report. [kallsyms_lookup] finds the last
    symbol that starts at or below an address. The report is a list of messages
    of the log: the reason, the CPU, the registers and the return addresses of
    the chain of frames that [RBP] leads to. *)
From S2P Require Import Prelude Kprintf Kformat Klog KlogSpec Context Debug.
From stdpp Require Import strings.
#[local] Open Scope Z_scope.

(** ** The symbol table *)

Definition sorted_by_addr (l : list kallsyms_entry) : Prop :=
  forall i j a b, (i < j)%nat -> l !! i = Some a -> l !! j = Some b -> sym_addr a <= sym_addr b.

(** The symbol that an address belongs to. *)
Definition symbol_of (l : list kallsyms_entry) (addr : Z) : option kallsyms_entry :=
  last (filter (fun e => sym_addr e <= addr) l).

Definition split_at (l : list kallsyms_entry) (addr : Z) (n : nat) : Prop :=
  (forall i e, (i < n)%nat -> l !! i = Some e -> sym_addr e <= addr) /\
  (forall i e, (n <= i)%nat -> l !! i = Some e -> addr < sym_addr e).

Lemma split_filter l addr n : split_at l addr n -> filter (fun e => sym_addr e <= addr) l = take n l.
Proof.
  revert n. induction l as [|a l IH]; intros n [H1 H2]; [by rewrite take_nil|].
  destruct n as [|n].
  - rewrite filter_cons_False by (specialize (H2 0%nat a (le_n _) eq_refl); lia). rewrite take_0.
    rewrite (IH 0%nat); [done|]. split; [lia|]. intros i e _ He. apply (H2 (S i) e ltac:(lia) He).
  - rewrite filter_cons_True by (apply (H1 0%nat); [lia|done]). cbn [take]. f_equal. apply IH.
    split; intros i e Hi He; [apply (H1 (S i) e)|apply (H2 (S i) e)]; done || lia.
Qed.

Lemma lookup_loop_ok l addr : sorted_by_addr l -> Z.of_nat (length l) < 2 ^ 64 ->
  forall fuel lo hi, (lo <= hi <= length l)%nat -> (hi - lo < fuel)%nat ->
  (forall i e, (i < lo)%nat -> l !! i = Some e -> sym_addr e <= addr) ->
  (forall i e, (hi <= i)%nat -> l !! i = Some e -> addr < sym_addr e) ->
  lookup_loop fuel l addr (Z.of_nat lo) (Z.of_nat hi) (last (take lo l)) = Ok (symbol_of l addr).
Proof.
  intros Hs Hn. induction fuel as [|fuel IH]; intros lo hi Hb Hf H1 H2; [lia|]. cbn [lookup_loop].
  destruct (Z.ltb_spec (Z.of_nat lo) (Z.of_nat hi)) as [Hlt|Hge].
  - set (mid := (lo + (hi - lo) / 2)%nat).
    assert (lo <= mid < hi)%nat as Hmid.
    { unfold mid. pose proof (Nat.div_lt (hi - lo) 2 ltac:(lia) ltac:(lia)). lia. }
    assert (u64 (Z.of_nat lo + (Z.of_nat hi - Z.of_nat lo) / 2) = Z.of_nat mid) as ->.
    { unfold mid. rewrite Nat2Z.inj_add, Nat2Z.inj_div, Nat2Z.inj_sub by lia. apply u64_small.
      pose proof (Z.div_lt (Z.of_nat hi - Z.of_nat lo) 2 ltac:(lia) ltac:(lia)).
      pose proof (Z.div_pos (Z.of_nat hi - Z.of_nat lo) 2 ltac:(lia) ltac:(lia)). lia. }
    cbv zeta. rewrite Nat2Z.id. destruct (lookup_lt_is_Some_2 l mid ltac:(lia)) as [e He].
    rewrite He. cbn [deref]. rewrite (obind_ok (Ok e) _ e eq_refl).
    destruct (Z.leb_spec (sym_addr e) addr) as [Hle|Hgt].
    + rewrite u64_small by lia. replace (Z.of_nat mid + 1) with (Z.of_nat (S mid)) by lia.
      replace (Some e) with (last (take (S mid) l)) by (by rewrite (take_S_r _ _ _ He), last_snoc).
      apply IH; [lia|lia| |done]. intros i a Hi Ha. destruct (decide (i = mid)) as [->|]; [congruence|].
      pose proof (Hs i mid a e ltac:(lia) Ha He). lia.
    + apply IH; [lia|lia|done|]. intros i a Hi Ha. destruct (decide (i = mid)) as [->|]; [congruence|].
      pose proof (Hs mid i e a ltac:(lia) He Ha). lia.
  - assert (hi = lo) as -> by lia. unfold symbol_of. by rewrite (split_filter l addr lo).
Qed.

Lemma kallsyms_ok l addr off : sorted_by_addr l -> Z.of_nat (length l) < 2 ^ 64 ->
  kallsyms_lookup l (Z.of_nat (length l)) addr off = Ok (symbol_of l addr,
    match symbol_of l addr, off with Some s, Some _ => Some (u64 (addr - sym_addr s)) | _, _ => off end).
Proof.
  intros Hs Hn. unfold kallsyms_lookup, lookup_fuel. rewrite Z.sub_0_r, Nat2Z.id.
  pose proof (lookup_loop_ok l addr Hs Hn (S (length l)) 0 (length l) ltac:(lia) ltac:(lia) ltac:(lia)
    ltac:(intros i e Hi He; apply lookup_lt_Some in He; lia)) as Hl.
  change (last (take 0 l)) with (None (A := kallsyms_entry)) in Hl. change (Z.of_nat 0) with 0 in Hl.
  rewrite (obind_ok _ _ _ Hl). destruct (symbol_of l addr), off; done.
Qed.

(** C30: the binary search is the lookup it stands for. In a table sorted by
    address [kallsyms_lookup] returns, for every address, the last of the symbols
    that start at or below it and the distance from its start, and no symbol
    exactly when all start above; it reads only entries of the table. *)
Theorem kallsyms_lookup_spec l addr off : sorted_by_addr l -> Z.of_nat (length l) < 2 ^ 64 ->
  kallsyms_lookup l (Z.of_nat (length l)) addr off = Ok (symbol_of l addr,
    match symbol_of l addr, off with Some s, Some _ => Some (u64 (addr - sym_addr s)) | _, _ => off end) /\
  (symbol_of l addr = None <-> forall e, e ∈ l -> addr < sym_addr e).
Proof.
  intros Hs Hn. split; [by apply kallsyms_ok|]. unfold symbol_of. rewrite last_None. split.
  - intros Hf e He. assert (e ∉ filter (fun e => sym_addr e <= addr) l) as Hne by (rewrite Hf; apply not_elem_of_nil).
    rewrite list_elem_of_filter in Hne. destruct (Z.le_gt_cases (sym_addr e) addr); [tauto|lia].
  - intros Ha. destruct (filter _ l) as [|e r] eqn:Ef; [done|].
    assert (e ∈ filter (fun e => sym_addr e <= addr) l) as He by (rewrite Ef; left).
    apply list_elem_of_filter in He as [? He]. specialize (Ha e He). lia.
Qed.

(** ** Messages of the log *)

Definition panic_name : list Z := chars "panic".
Definition lines (es : list entry) : list Z := concat ((fun e => line_text (e_time e) (e_ns e) (e_msg e)) <$> es).

(** The log got these messages, in this order. *)
Definition said (ms : list (list Z)) (k : klog) (l : list entry) (k' : klog) (l' : list entry) : Prop :=
  exists es, e_msg <$> es = ms /\ Forall (fun e => e_ns e = panic_name) es /\
    l' = (if klog_ready k then last_records (l ++ es) else l) /\ ring_rep k' l' /\ klog_lock k' = false /\
    klog_ready k' = klog_ready k /\ uart k' = uart k ++ lines es /\
    term k' = match term k with Some t => Some (t ++ lines es) | None => None end.

Definition says (m : ST klog unit) (ms : list (list Z)) : Prop :=
  forall k l, ring_rep k l -> klog_lock k = false -> exists k' l', m k = Ok (tt, k') /\ said ms k l k' l'.

Lemma last_records_app l es : last_records (last_records l ++ es) = last_records (l ++ es).
Proof.
  unfold last_records. rewrite !length_app, length_drop.
  rewrite <- (drop_app_le l es (length l - 512)) by lia. rewrite drop_drop. f_equal. lia.
Qed.
Lemma last_records_all k l : ring_rep k l -> last_records l = l.
Proof. intros [_ _ [_ Hl] _]. unfold last_records. by replace (length l - 512)%nat with 0%nat by lia. Qed.

Lemma said_nothing k l : ring_rep k l -> klog_lock k = false -> said [] k l k l.
Proof.
  intros Hr Hk. exists []. split; [done|]. split; [constructor|]. rewrite !app_nil_r.
  split; [by destruct (klog_ready k); [rewrite (last_records_all k)|]|]. do 4 (split; [done|]).
  by destruct (term k); rewrite ?app_nil_r.
Qed.

Lemma said_then m n k0 l0 k1 l1 k2 l2 : said m k0 l0 k1 l1 -> said n k1 l1 k2 l2 -> said (m ++ n) k0 l0 k2 l2.
Proof.
  intros (a & <- & Fa & La & Ra & Ka & Ya & Ua & Ta) (b & <- & Fb & Lb & Rb & Kb & Yb & Ub & Tb). exists (a ++ b).
  split; [by rewrite fmap_app|]. split; [by apply Forall_app|].
  assert (lines (a ++ b) = lines a ++ lines b) as -> by (unfold lines; by rewrite fmap_app, concat_app).
  split; [rewrite Lb, La, Ya; destruct (klog_ready k0); [by rewrite last_records_app, app_assoc|done]|].
  do 2 (split; [done|]). split; [congruence|]. split; [by rewrite Ub, Ua, app_assoc|].
  rewrite Tb, Ta. by destruct (term k0); rewrite ?app_assoc.
Qed.

Lemma says_nothing : says (mret tt) [].
Proof. intros k l Hr Hk. exists k, l. split; [done|]. by apply said_nothing. Qed.
Lemma says_then m n a b : says m a -> says n b -> says (m ;; n) (a ++ b).
Proof.
  intros Hm Hn k l Hr Hk. destruct (Hm k l Hr Hk) as (k1 & l1 & E1 & S1).
  assert (ring_rep k1 l1 /\ klog_lock k1 = false) as [Hr1 Hk1] by (destruct S1 as (? & S1); tauto).
  destruct (Hn k1 l1 Hr1 Hk1) as (k2 & l2 & E2 & S2). exists k2, l2. rewrite (st_bind_ok _ _ _ _ _ E1).
  split; [done|]. by apply (said_then _ _ _ _ k1 l1).
Qed.
Lemma says_lift {A} (o : outcome A) (f : A -> ST klog unit) a ms : o = Ok a -> says (f a) ms -> says (st_lift o ≫= f) ms.
Proof. intros Ho Hf k l Hr Hk. rewrite (lift_bind _ _ _ _ Ho). by apply Hf. Qed.

(** ** Texts *)

Definition dec (n : Z) : list Z := numeral 10 false (u64 n).
Definition dec32 (n : Z) : list Z := numeral 10 false (u32 n).
Definition hex (n : Z) : list Z := numeral 16 false (u64 n).
Definition hex16 (n : Z) : list Z := replicate (16 - length (hex n)) ch_0 ++ hex n.

(** A record keeps at most 191 characters of a message. *)
Definition record_text (t : list Z) : list Z := before_nul (take 191 t).

Definition name_of (e : kallsyms_entry) : option (list Z) := '(_, b) ← sym_name e; c_string b.
Definition symbol_text (l : list kallsyms_entry) (addr : Z) : list Z :=
  match (e ← symbol_of l addr; n ← name_of e; Some (e, n)) with
  | Some (e, n) => chars " " ++ n ++ chars "+0x" ++ hex (addr - sym_addr e) ++
      (if sym_size e =? 0 then [] else chars "/0x" ++ hex (sym_size e))
  | None => []
  end.
Definition address_text (l : list kallsyms_entry) (addr : Z) : list Z :=
  chars "[<" ++ hex16 addr ++ chars ">]" ++ symbol_text l addr.
Definition trace_text (l : list kallsyms_entry) (depth addr : Z) : list Z :=
  chars "  #" ++ dec depth ++ chars " " ++ address_text l addr.

(** *** Directives *)

Definition lits (s : string) : list item := Lit <$> chars s.
Definition h16_dir : item := Dir (mk_dir 1 0 16 NoPrec Llong Kx).
Definition hex_dir : item := Dir (mk_dir 0 0 0 NoPrec Llong Kx).
Definition num_dir (m : lenmod) : item := Dir (mk_dir 0 0 0 NoPrec m Ku).
Definition str_dir : item := Dir (mk_dir 0 0 0 NoPrec Lint Ks).

Lemma render_app_lits s l ap t : render l ap = Some t -> render (lits s ++ l) ap = Some (chars s ++ t).
Proof.
  intros Hr. unfold lits. induction (chars s) as [|c cs IH]; [done|]. cbn [fmap list_fmap app render]. by rewrite IH.
Qed.
Lemma render_lits s ap : render (lits s) ap = Some (chars s).
Proof. rewrite <- (app_nil_r (lits s)), (render_app_lits s [] ap []), app_nil_r; done. Qed.
Lemma render_h16 w l ap t : render l ap = Some t -> render (h16_dir :: l) (AWord w :: ap) = Some (hex16 w ++ t).
Proof.
  intros Hr. cbn [render h16_dir dir_text d_prec d_kind mbind option_bind arg_text]. rewrite Hr.
  cbn -[numeral u64 chars]. do 2 f_equal. unfold unsigned_text, field, hex16. fold (hex w).
  change (d_zero _) with true. change (d_left _) with false. cbn -[numeral u64 replicate]. f_equal. f_equal.
  unfold hex. lia.
Qed.
Lemma field_exact left pad text : field left pad 0 (Z.of_nat (length text)) text = text.
Proof.
  unfold field. replace (Z.to_nat (0 - Z.of_nat (length text))) with 0%nat by lia. destruct left; by rewrite ?app_nil_r.
Qed.
Lemma render_hex w l ap t : render l ap = Some t -> render (hex_dir :: l) (AWord w :: ap) = Some (hex w ++ t).
Proof.
  intros Hr. cbn [render hex_dir dir_text d_prec d_kind mbind option_bind arg_text]. rewrite Hr.
  cbn [arg_word d_len duint d_width d_zero d_left d_minus d_zeros negb andb Nat.eqb mbind option_bind].
  unfold unsigned_text. by rewrite field_exact.
Qed.
Lemma render_num m w l ap t : render l ap = Some t ->
  render (num_dir m :: l) (AWord w :: ap) = Some (numeral 10 false (duint m w) ++ t).
Proof.
  intros Hr. cbn [render num_dir dir_text d_prec d_kind mbind option_bind arg_text]. rewrite Hr.
  cbn [arg_word d_len duint d_width d_zero d_left d_minus d_zeros negb andb Nat.eqb mbind option_bind].
  unfold unsigned_text. by rewrite field_exact.
Qed.
Lemma render_dec32 w l ap t : render l ap = Some t -> render (num_dir Lint :: l) (AWord w :: ap) = Some (dec32 w ++ t).
Proof. exact (render_num Lint w l ap t). Qed.
Lemma render_str at_ b s l ap t : c_string b = Some s -> render l ap = Some t ->
  render (str_dir :: l) (ABytes at_ b :: ap) = Some (s ++ t).
Proof.
  intros Hs Hr. cbn [render str_dir dir_text d_prec d_kind mbind option_bind arg_text]. rewrite Hs.
  cbn [arg_word d_len duint d_width d_zero d_left d_minus d_zeros negb andb Nat.eqb mbind option_bind]. rewrite Hr.
  by rewrite Nat2Z.id, take_ge, field_exact.
Qed.

(** Which formats are meant, and that the formatter takes them. *)
Definition formats (fmt : list Z) (items : list item) : Prop :=
  fmt = concat (show_item <$> items) ++ [NUL] /\ Forall item_ok items.

#[export] Instance item_ok_dec i : Decision (item_ok i).
Proof.
  destruct i as [c| |d]; cbn [item_ok]; [apply _|apply _|]. unfold is_u64.
  destruct (d_prec d); destruct (d_kind d); apply _.
Defined.

Lemma chars_c_string s : NUL ∉ chars s -> c_string (literal s) = Some (chars s).
Proof.
  unfold literal. induction (chars s) as [|c cs IH]; [done|]. intros [Hc Hn]%not_elem_of_cons. cbn [app c_string].
  destruct (Z.eqb_spec c NUL); [congruence|]. by rewrite (IH Hn).
Qed.
Lemma item_lits s : Forall (fun c => c <> NUL /\ c <> ch_percent) (chars s) -> Forall item_ok (lits s).
Proof. intros Hs. by apply Forall_fmap. Qed.

(** *** One message *)

Section report.
Context (kallsyms : list kallsyms_entry) (mem : Z -> option Z) (cpu_current : option cpu_info).
Context (clock : klog -> Z) (stack : klog -> klog_record * list Z * Z) (text_at : Z).
Context (Hclock : forall k, is_u64 (clock k)).
Context (Hstack : forall k, sized (stack k).1.1 /\ length (stack k).1.2 = 512%nat).
Abbreviation say := (klog_ns_force clock stack).

Lemma say_ok fmt items args text : formats fmt items -> Forall arg_ok args -> render items args = Some text ->
  Z.of_nat (length text) < 2 ^ 64 -> says (say fmt args) [record_text text].
Proof.
  intros [-> Hi] Ha Hr Hlen k l Hk Hlk. unfold klog_ns_force. pose proof (Hstack k) as [Hs Hl]. pose proof (Hclock k) as Hc.
  destruct (stack k) as [[rec line] at_]. cbn [fst snd] in *.
  assert (names (Some panic_ns) panic_name) as Hn by (exists panic_name; by split).
  destruct (write_ok rec line at_ (clock k) (Some panic_ns) (Some (concat (show_item <$> items) ++ [NUL])) args k l panic_name text
    Hk Hlk Hs Hl Hc Hn) as (k' & Hw & L' & U' & T' & Y' & R').
  { intros buf Hbuf. eexists. apply (kvsnprintf_ok KLOG_MSG_MAX buf); unfold KLOG_MSG_MAX; done || lia. }
  set (e := mk_entry _ _ _ _) in R'. cbn [e_ns e_msg] in U', T'. change (take 31 panic_name) with panic_name in *.
  exists k', (if klog_ready k then last_records (l ++ [e]) else l). split; [exact Hw|]. exists [e].
  assert (lines [e] = line_text (clock k) panic_name (before_nul (take 191 text))) as El by apply app_nil_r.
  rewrite El. split; [done|]. split; [by constructor|]. split; [done|]. split; [by destruct (klog_ready k); destruct R'|].
  split; [done|]. split; [by destruct (klog_ready k)|]. split; [exact U'|exact T'].
Qed.

(** *** Addresses *)

Definition names_short : Prop := forall e at_ b, e ∈ kallsyms -> sym_name e = Some (at_, b) ->
  exists n, c_string b = Some n /\ Z.of_nat (length b) < 2 ^ 32.
Context (Hsorted : sorted_by_addr kallsyms) (Hcount : Z.of_nat (length kallsyms) < 2 ^ 64) (Hnames : names_short).

Lemma symbol_of_in addr e : symbol_of kallsyms addr = Some e -> e ∈ kallsyms /\ sym_addr e <= addr.
Proof.
  intros He. apply last_Some_elem_of in He. apply list_elem_of_filter in He. tauto.
Qed.

Lemma hex_short w : (length (hex w) <= 64)%nat.
Proof. apply (numeral_length 16 ltac:(lia)), u64_range. Qed.

Lemma symbol_cases addr :
  (symbol_text kallsyms addr = [] /\ (symbol_of kallsyms addr ≫= (fun sym => n ← sym_name sym; Some (sym, n))) = None) \/
  exists e at_ b n, symbol_of kallsyms addr = Some e /\ sym_name e = Some (at_, b) /\ c_string b = Some n /\
    Z.of_nat (length b) < 2 ^ 32 /\
    symbol_text kallsyms addr = chars " " ++ n ++ chars "+0x" ++ hex (addr - sym_addr e) ++
      (if sym_size e =? 0 then [] else chars "/0x" ++ hex (sym_size e)).
Proof.
  unfold symbol_text. destruct (symbol_of kallsyms addr) as [e|] eqn:Es; [|by left].
  destruct (sym_name e) as [[at_ b]|] eqn:En; [|left; unfold name_of; cbn; by rewrite En].
  right. destruct (symbol_of_in addr e Es) as [Hin _]. destruct (Hnames e at_ b Hin En) as (n & Hn & Hb).
  exists e, at_, b, n. do 4 (split; [done|]). unfold name_of. cbn [mbind option_bind]. rewrite En. cbn [mbind option_bind]. by rewrite Hn.
Qed.

Lemma dec_hex_short (n : Z) : (length (dec n) <= 64)%nat.
Proof. apply (numeral_length 10 ltac:(lia)), u64_range. Qed.
Lemma hex16_short w : (length (hex16 w) <= 80)%nat.
Proof. unfold hex16. rewrite length_app, length_replicate. pose proof (hex_short w). lia. Qed.

(** The texts are far shorter than the address space. *)
Lemma symbol_text_short addr : Z.of_nat (length (symbol_text kallsyms addr)) < 2 ^ 33.
Proof.
  destruct (symbol_cases addr) as [[-> _]|(e & at_ & b & n & _ & _ & Hn & Hb & ->)]; [done|].
  assert (length n <= length b)%nat by (by eapply c_string_length). rewrite !length_app.
  pose proof (hex_short (addr - sym_addr e)). pose proof (hex_short (sym_size e)).
  change (length (chars " ")) with 1%nat. change (length (chars "+0x")) with 3%nat.
  destruct (sym_size e =? 0); [cbn [length]; lia|rewrite length_app; change (length (chars "/0x")) with 3%nat; lia].
Qed.

Lemma address_text_short addr : Z.of_nat (length (address_text kallsyms addr)) < 2 ^ 34.
Proof.
  pose proof (symbol_text_short addr). pose proof (hex16_short addr). unfold address_text. rewrite !length_app.
  change (length (chars "[<")) with 2%nat. change (length (chars ">]")) with 2%nat. lia.
Qed.

(** The formats that end with an address: with the name and the size of its
    symbol, with the name, and alone. *)
Definition alone_items : list item := lits "[<" ++ h16_dir :: lits ">]".
Definition named_items : list item := lits "[<" ++ h16_dir :: lits ">] " ++ str_dir :: lits "+0x" ++ [hex_dir].
Definition sized_items : list item :=
  lits "[<" ++ h16_dir :: lits ">] " ++ str_dir :: lits "+0x" ++ hex_dir :: lits "/0x" ++ [hex_dir].

Lemma log_symbol P A T sized named alone addr :
  formats sized (P ++ sized_items) -> formats named (P ++ named_items) -> formats alone (P ++ alone_items) ->
  Forall arg_ok A -> (forall l ap t, render l ap = Some t -> render (P ++ l) (A ++ ap) = Some (T ++ t)) ->
  Z.of_nat (length T) < 2 ^ 40 ->
  says (r ← st_lift (kallsyms_lookup kallsyms (Z.of_nat (length kallsyms)) addr (Some 0));
        let offset := default 0 r.2 in
        match r.1 ≫= (fun sym => n ← sym_name sym; Some (sym, n)) with
        | Some (sym, (at_, name)) =>
            if negb (sym_size sym =? 0) then
              say sized (A ++ [AWord addr; ABytes at_ name; AWord offset; AWord (sym_size sym)])
            else say named (A ++ [AWord addr; ABytes at_ name; AWord offset])
        | None => say alone (A ++ [AWord addr])
        end) [record_text (T ++ address_text kallsyms addr)].
Proof.
  intros F1 F2 F3 HA HP HT. pose proof (address_text_short addr) as Hshort.
  eapply says_lift; [by apply kallsyms_ok|]. cbn [fst snd].
  destruct (symbol_cases addr) as [[Et En]|(e & at_ & b & n & Es & En & Hn & Hb & Et)].
  - rewrite En. eapply (say_ok _ _ _ _ F3); [by repeat (apply Forall_app; split); repeat constructor| |rewrite length_app; lia].
    apply HP. unfold address_text. rewrite Et. by apply (render_app_lits "[<"), render_h16, render_lits.
  - rewrite Es. cbn [mbind option_bind]. rewrite En. cbn [mbind option_bind default].
    assert (hex (u64 (addr - sym_addr e)) = hex (addr - sym_addr e)) as Eh.
    { unfold hex. rewrite (u64_small (u64 _)); [done|apply u64_range]. }
    unfold address_text in *. rewrite Et in *. destruct (Z.eqb_spec (sym_size e) 0) as [Hz|Hz]; cbn [negb].
    + eapply (say_ok _ _ _ _ F2); [apply Forall_app; split; [done|]; repeat constructor; cbn; lia| |rewrite length_app; lia].
      apply HP. unfold named_items. apply (render_app_lits "[<"), render_h16.
      apply (render_app_lits ">] "). apply render_str; [done|]. apply (render_app_lits "+0x"). rewrite <- Eh.
      by apply render_hex.
    + eapply (say_ok _ _ _ _ F1); [apply Forall_app; split; [done|]; repeat constructor; cbn; lia| |rewrite length_app; lia].
      apply HP. unfold sized_items. apply (render_app_lits "[<"), render_h16.
      apply (render_app_lits ">] "). apply render_str; [done|]. apply (render_app_lits "+0x"). rewrite <- Eh.
      apply render_hex. apply (render_app_lits "/0x"). rewrite <- (app_nil_r (hex (sym_size e))). by apply render_hex.
Qed.

Ltac format := split; [reflexivity|apply (bool_decide_unpack _); vm_compute; exact I].

Lemma log_addr_ok label addr : c_string (literal label) = Some (chars label) -> Z.of_nat (length (chars label)) < 2 ^ 39 ->
  says (panic_log_addr kallsyms (Z.of_nat (length kallsyms)) clock stack text_at (literal label) addr)
    [record_text (chars label ++ address_text kallsyms addr)].
Proof.
  intros Hc Hl. apply (log_symbol [str_dir] [ABytes text_at (literal label)]); [format..| | |lia].
  - repeat constructor. cbn [arg_ok]. unfold literal. rewrite length_app. cbn [length]. lia.
  - intros l ap t Hr. by apply render_str.
Qed.

Lemma log_trace_ok depth addr :
  says (panic_log_trace kallsyms (Z.of_nat (length kallsyms)) clock stack depth addr)
    [record_text (trace_text kallsyms depth addr)].
Proof.
  pose proof (dec_hex_short depth) as Hd.
  assert (trace_text kallsyms depth addr = (chars "  #" ++ dec depth ++ chars " ") ++ address_text kallsyms addr) as ->
    by (unfold trace_text; by rewrite <- !app_assoc).
  apply (log_symbol (lits "  #" ++ num_dir Lsize :: lits " ") [AWord depth]); [format..|by repeat constructor| |].
  - intros l ap t Hr. rewrite <- !app_assoc. cbn [app]. apply (render_app_lits "  #").
    apply (render_num Lsize depth (lits " " ++ l) ap). by apply render_app_lits.
  - rewrite !length_app. change (length (chars "  #")) with 3%nat. change (length (chars " ")) with 1%nat. lia.
Qed.

(** *** The registers *)

Fixpoint hex_items (labels : list string) : list item :=
  match labels with [] => [] | s :: labels => lits s ++ h16_dir :: hex_items labels end.
Fixpoint hex_text (labels : list string) (ws : list Z) : list Z :=
  match labels, ws with s :: labels, w :: ws => chars s ++ hex16 w ++ hex_text labels ws | _, _ => [] end.

Lemma render_hex_items labels ws : length labels = length ws ->
  render (hex_items labels) (AWord <$> ws) = Some (hex_text labels ws).
Proof.
  revert ws. induction labels as [|s labels IH]; intros [|w ws] Hl; try done. cbn [hex_items fmap list_fmap hex_text].
  apply render_app_lits, render_h16, IH. by injection Hl.
Qed.

Lemma hex_text_short labels ws : Forall (fun s => (length (chars s) <= 16)%nat) labels ->
  (length (hex_text labels ws) <= 96 * length labels)%nat.
Proof.
  intros Hl. revert ws. induction Hl as [|s labels Hs Hl IH]; intros [|w ws]; cbn [hex_text length]; try lia.
  rewrite !length_app. specialize (IH ws). pose proof (hex16_short w). lia.
Qed.

Lemma say_hex fmt labels ws : formats fmt (hex_items labels) -> length labels = length ws ->
  Forall (fun s => (length (chars s) <= 16)%nat) labels -> (length labels <= 4)%nat ->
  says (say fmt (AWord <$> ws)) [record_text (hex_text labels ws)].
Proof.
  intros Hf Hl Hs Hn. pose proof (hex_text_short labels ws Hs).
  apply (say_ok _ _ _ _ Hf); [apply Forall_fmap, Forall_true; done|by apply render_hex_items|lia].
Qed.

Lemma say_text s : formats (literal s) (lits s) -> (length (chars s) <= 100)%nat ->
  says (say (literal s) []) [record_text (chars s)].
Proof. intros Hf Hl. apply (say_ok _ _ _ _ Hf); [constructor|apply render_lits|lia]. Qed.

Definition flags_text (r : interrupt_frame) : list Z :=
  chars "RFLAGS: " ++ hex16 (f_rflags r) ++ chars "  ERR: " ++ hex16 (f_err r) ++ chars "  VEC: " ++ dec (f_vector r).

(** The lines about the registers. *)
Definition regs_texts (r : interrupt_frame) : list (list Z) :=
  [hex_text ["RAX: "; "  RBX: "; "  RCX: "; "  RDX: "]%string [f_rax r; f_rbx r; f_rcx r; f_rdx r];
   hex_text ["RSI: "; "  RDI: "; "  RBP: "; "  RSP: "]%string [f_rsi r; f_rdi r; f_rbp r; f_rsp r];
   hex_text ["R8:  "; "  R9:  "; "  R10: "; "  R11: "]%string [f_r8 r; f_r9 r; f_r10 r; f_r11 r];
   hex_text ["R12: "; "  R13: "; "  R14: "; "  R15: "]%string [f_r12 r; f_r13 r; f_r14 r; f_r15 r];
   hex_text ["CS:  "; "  SS:  "; "  DS:  "; "  ES:  "]%string [f_cs r; f_ss r; f_ds r; f_es r];
   hex_text ["CR0: "; "  CR2: "; "  CR3: "; "  CR4: "]%string [f_cr0 r; f_cr2 r; f_cr3 r; f_cr4 r];
   flags_text r;
   chars "RIP: " ++ address_text kallsyms (f_rip r)].

Lemma regs_flags_ok r : says (say (literal "RFLAGS: %016llx  ERR: %016llx  VEC: %llu")
  [AWord (f_rflags r); AWord (f_err r); AWord (f_vector r)]) [record_text (flags_text r)].
Proof.
  eapply (say_ok _ (lits "RFLAGS: " ++ h16_dir :: lits "  ERR: " ++ h16_dir :: lits "  VEC: " ++ [num_dir Llong]));
    [format|by repeat constructor| |].
  - unfold flags_text. apply (render_app_lits "RFLAGS: "), render_h16, (render_app_lits "  ERR: "), render_h16.
    apply (render_app_lits "  VEC: "). rewrite <- (app_nil_r (dec _)). by apply render_num.
  - unfold flags_text. rewrite !length_app. pose proof (hex16_short (f_rflags r)). pose proof (hex16_short (f_err r)).
    pose proof (dec_hex_short (f_vector r)). change (length (chars "RFLAGS: ")) with 8%nat.
    change (length (chars "  ERR: ")) with 7%nat. change (length (chars "  VEC: ")) with 7%nat. lia.
Qed.

Ltac hex_line labels ws :=
  refine (says_then _ _ [record_text (hex_text labels%string ws)] _ (say_hex _ labels%string ws _ _ _ _) _);
    [format|reflexivity|repeat constructor|cbn; lia|].

Lemma dump_regs_ok regs :
  says (panic_dump_regs kallsyms (Z.of_nat (length kallsyms)) clock stack text_at regs)
    (record_text <$> match regs with Some r => regs_texts r | None => [] end).
Proof.
  destruct regs as [r|]; [|apply says_nothing]. unfold panic_dump_regs. cbn [regs_texts fmap list_fmap].
  hex_line ["RAX: "; "  RBX: "; "  RCX: "; "  RDX: "] [f_rax r; f_rbx r; f_rcx r; f_rdx r].
  hex_line ["RSI: "; "  RDI: "; "  RBP: "; "  RSP: "] [f_rsi r; f_rdi r; f_rbp r; f_rsp r].
  hex_line ["R8:  "; "  R9:  "; "  R10: "; "  R11: "] [f_r8 r; f_r9 r; f_r10 r; f_r11 r].
  hex_line ["R12: "; "  R13: "; "  R14: "; "  R15: "] [f_r12 r; f_r13 r; f_r14 r; f_r15 r].
  hex_line ["CS:  "; "  SS:  "; "  DS:  "; "  ES:  "] [f_cs r; f_ss r; f_ds r; f_es r].
  hex_line ["CR0: "; "  CR2: "; "  CR3: "; "  CR4: "] [f_cr0 r; f_cr2 r; f_cr3 r; f_cr4 r].
  refine (says_then _ _ [record_text (flags_text r)] _ (regs_flags_ok r) _). by apply (log_addr_ok "RIP: ").
Qed.

Definition cpu_text : list Z :=
  match cpu_current with
  | None => chars "CPU: unknown"
  | Some c => chars "CPU: cpu" ++ dec32 (ci_index c) ++ chars " lapic=" ++ dec32 (ci_lapic_id c) ++
      chars " acpi=" ++ dec32 (ci_processor_id c) ++ (if ci_is_bsp c then chars " (bsp)" else [])
  end.

Lemma dec32_short n : (length (dec32 n) <= 64)%nat.
Proof. apply (numeral_length 10 ltac:(lia)). pose proof (u32_range n). unfold is_u64. lia. Qed.

Lemma dump_cpu_ok : says (panic_dump_cpu cpu_current clock stack text_at) [record_text cpu_text].
Proof.
  unfold panic_dump_cpu, cpu_text. destruct cpu_current as [c|]; [|apply say_text; [format|cbn; lia]].
  eapply (say_ok _ (lits "CPU: cpu" ++ num_dir Lint :: lits " lapic=" ++ num_dir Lint :: lits " acpi=" ++ num_dir Lint :: [str_dir]));
    [format|destruct (ci_is_bsp c); repeat constructor| |].
  - apply (render_app_lits "CPU: cpu"). apply render_dec32. apply (render_app_lits " lapic="). apply render_dec32.
    apply (render_app_lits " acpi="). apply render_dec32. destruct (ci_is_bsp c).
    + exact (render_str text_at (literal " (bsp)") (chars " (bsp)") [] [] [] eq_refl eq_refl).
    + exact (render_str text_at [NUL] [] [] [] [] eq_refl eq_refl).
  - rewrite !length_app. pose proof (dec32_short (ci_index c)). pose proof (dec32_short (ci_lapic_id c)).
    pose proof (dec32_short (ci_processor_id c)). change (length (chars "CPU: cpu")) with 8%nat.
    change (length (chars " lapic=")) with 7%nat. change (length (chars " acpi=")) with 6%nat.
    assert (length (if ci_is_bsp c then chars " (bsp)" else []) <= 6)%nat by (destruct (ci_is_bsp c); cbn; lia). lia.
Qed.

Lemma log_message_ok msg items args text rest : length msg = Z.to_nat KLOG_MSG_MAX -> Forall item_ok items -> Forall arg_ok args ->
  render items args = Some text -> Z.of_nat (length text) < 2 ^ 64 ->
  says (panic_log_message clock stack text_at msg (Some (concat (show_item <$> items) ++ NUL :: rest)) args)
    [record_text (chars "Kernel panic: " ++ record_text text)].
Proof.
  intros Hmsg Hi Ha Hr Hlen. change (Z.to_nat KLOG_MSG_MAX) with 192%nat in Hmsg. unfold panic_log_message.
  eapply says_lift. { apply (kvsnprintf_ok KLOG_MSG_MAX msg); unfold KLOG_MSG_MAX; done || lia. }
  cbn [snd]. set (buf := _ ++ NUL :: _).
  assert (to_nul buf = Ok (record_text text)) as Hn by apply to_nul_before.
  pose proof (to_nul_length _ _ Hn) as Hl. assert (length buf = 192%nat) as Lb.
  { unfold buf. rewrite length_app, length_cons, length_drop, length_take. change (Z.to_nat (KLOG_MSG_MAX - 1)) with 191%nat. lia. }
  eapply (say_ok _ (lits "Kernel panic: " ++ [str_dir])); [format|repeat constructor; cbn [arg_ok]; lia| |].
  - apply (render_app_lits "Kernel panic: "). rewrite <- (app_nil_r (record_text text)).
    apply (render_str text_at buf); [by apply to_nul_c_string|done].
  - rewrite length_app. change (length (chars "Kernel panic: ")) with 14%nat. lia.
Qed.

(** *** The chain of frames *)

Definition aligned16 (a : Z) : Prop := Z.land a 15 = 0.

(** From a frame pointer, the return addresses of the frames whose link to the
    frame above is sound: an aligned higher address. Every word read is mapped. *)
Inductive chain : Z -> list Z -> Prop :=
  | chain_null : chain 0 []
  | chain_broken a next : a <> 0 -> mem a = Some next ->
      ~ (aligned16 a /\ a < next /\ aligned16 next) -> chain a []
  | chain_stop a next : a <> 0 -> mem a = Some next -> aligned16 a -> a < next -> aligned16 next ->
      mem (a + 8) = Some 0 -> chain a []
  | chain_link a next ret rets : a <> 0 -> mem a = Some next -> aligned16 a -> a < next -> aligned16 next ->
      mem (a + 8) = Some ret -> ret <> 0 -> chain next rets -> chain a (ret :: rets).

Lemma sane_ok a prev next k : a <> 0 -> 0 <= a -> mem a = Some next -> prev < a ->
  panic_frame_is_sane mem a prev k = Ok (bool_decide (aligned16 a /\ a < next /\ aligned16 next), k).
Proof.
  intros Ha H0 Hm Hp. unfold panic_frame_is_sane, load64. rewrite Hm. cbn [deref].
  rewrite (lift_bind (Ok next) _ k next eq_refl). unfold aligned16.
  destruct (Z.eqb_spec a 0); [lia|]. destruct (Z.eqb_spec (Z.land a 15) 0); cbn [negb].
  2: { by rewrite bool_decide_eq_false_2 by tauto. }
  destruct (Z.leb_spec next a); [by rewrite bool_decide_eq_false_2 by lia|].
  destruct (Z.leb_spec next prev); [lia|]. rewrite andb_false_r.
  destruct (Z.eqb_spec next 0); [lia|]. cbn [orb]. destruct (Z.eqb_spec (Z.land next 15) 0); cbn [negb].
  - by rewrite bool_decide_eq_true_2 by done.
  - by rewrite bool_decide_eq_false_2 by tauto.
Qed.

Definition traces (from : Z) (rets : list Z) : list (list Z) :=
  imap (fun i ret => trace_text kallsyms (from + Z.of_nat i) ret) rets.

Lemma traces_cons d r rets : traces d (r :: rets) = trace_text kallsyms d r :: traces (d + 1) rets.
Proof.
  unfold traces. rewrite imap_cons. f_equal; [f_equal; lia|]. apply imap_ext. intros i x _. unfold compose. f_equal. lia.
Qed.

Lemma says_ext m m' ms : (forall k, m k = m' k) -> says m' ms -> says m ms.
Proof. intros He Hm k l Hr Hk. rewrite He. by apply Hm. Qed.

Lemma backtrace_ok fuel : forall depth a prev rets, chain a rets -> 0 <= a -> prev < a \/ a = 0 ->
  0 <= depth <= 16 -> Z.to_nat (16 - depth) = fuel -> 
  says (backtrace_loop kallsyms (Z.of_nat (length kallsyms)) mem clock stack (S fuel) depth a prev)
    (record_text <$> traces depth (take fuel rets)).
Proof.
  induction fuel as [|fuel IH]; intros depth a prev rets Hc H0 Hp Hd Hf.
  { assert (depth = 16) as -> by lia. cbn [backtrace_loop take]. unfold panic_backtrace_limit. rewrite andb_false_r.
    apply says_nothing. }
  set (n := S fuel) in *. cbn [backtrace_loop].
  destruct (Z.eqb_spec a 0) as [->|Ha]; cbn [negb andb].
  { inversion Hc; try done. rewrite take_nil. apply says_nothing. }
  unfold panic_backtrace_limit. destruct (Z.ltb_spec depth 16) as [_|]; [|lia].
  assert (prev < a) as Hpa by lia.
  assert (exists next, mem a = Some next) as [next Hm] by (inversion Hc; by eauto).
  eapply says_ext. { intros k. by rewrite (st_bind_ok _ _ _ _ _ (sane_ok a prev next k Ha H0 Hm Hpa)). }
  inversion Hc as [|? n1 _ M1 Hb|? n1 _ M1 A1 L1 A2 M2|? n1 ret rs _ M1 A1 L1 A2 M2 Hne Hch]; subst; try done.
  - assert (n1 = next) as -> by congruence. rewrite bool_decide_eq_false_2 by done. rewrite take_nil. apply says_nothing.
  - assert (n1 = next) as -> by congruence. rewrite bool_decide_eq_true_2 by done. cbn [negb]. rewrite take_nil.
    apply (says_lift (deref (mem (a + 8))) _ 0); [by rewrite M2|]. apply says_nothing.
  - assert (n1 = next) as -> by congruence. rewrite bool_decide_eq_true_2 by done. cbn [negb].
    apply (says_lift (deref (mem (a + 8))) _ ret); [by rewrite M2|].
    destruct (Z.eqb_spec ret 0); [done|]. unfold n. cbn [take]. rewrite traces_cons, fmap_cons.
    refine (says_then _ _ [_] _ (log_trace_ok depth ret) _).
    apply (says_lift (deref (mem a)) _ next); [by rewrite Hm|]. apply IH; try done; lia.
Qed.

Lemma dump_backtrace_ok regs rets :
  match regs with Some r => 0 <= f_rbp r /\ chain (f_rbp r) rets | None => True end ->
  says (panic_dump_backtrace kallsyms (Z.of_nat (length kallsyms)) mem clock stack regs)
    (record_text <$> chars "Call Trace:" ::
      match regs with Some r => trace_text kallsyms 0 (f_rip r) :: traces 1 (take 15 rets) | None => [] end).
Proof.
  intros Hr. unfold panic_dump_backtrace. rewrite fmap_cons.
  refine (says_then _ _ [_] _ (say_text "Call Trace:" _ _) _); [format|cbn; lia|].
  destruct regs as [r|]; [|apply says_nothing]. rewrite fmap_cons. refine (says_then _ _ [_] _ (log_trace_ok 0 (f_rip r)) _).
  destruct Hr as [H0 Hr]. apply (backtrace_ok 15 1); done || lia.
Qed.

(** *** The report *)

Definition panic_report (text : list Z) (regs : option interrupt_frame) (rets : list Z) : list (list Z) :=
  [chars "Kernel panic: " ++ record_text text; cpu_text] ++
  match regs with Some r => regs_texts r | None => [] end ++
  [chars "Call Trace:"] ++
  match regs with Some r => trace_text kallsyms 0 (f_rip r) :: traces 1 (take 15 rets) | None => [] end ++
  [chars "---[ end Kernel panic ]---"].

Lemma on_log_seq a b m s : (forall s, m s = on_log b s) -> (on_log a ;; m) s = on_log (a ;; b) s.
Proof.
  intros Hm. unfold on_log at 1. unfold mbind at 1, st_bind. unfold on_log, mbind, st_bind, outcome_bind.
  destruct (a (p_log s)) as [[[] k]| | |]; done.
Qed.

Lemma vkpanic_ok msg items args text rest regs rets s l :
  panic_lock s = false -> ring_rep (p_log s) l -> klog_lock (p_log s) = false ->
  length msg = Z.to_nat KLOG_MSG_MAX -> Forall item_ok items -> Forall arg_ok args ->
  render items args = Some text -> Z.of_nat (length text) < 2 ^ 64 ->
  match regs with Some r => 0 <= f_rbp r /\ chain (f_rbp r) rets | None => True end ->
  exists k' l', vkpanic kallsyms (Z.of_nat (length kallsyms)) mem cpu_current clock stack text_at msg regs
      (Some (concat (show_item <$> items) ++ NUL :: rest)) args s = Ok (tt, mk_panic true k') /\
    said (record_text <$> panic_report text regs rets) (p_log s) l k' l'.
Proof.
  intros Hp Hk Hl Hmsg Hi Ha Hr Hlen Hc.
  assert (says (panic_log_message clock stack text_at msg (Some (concat (show_item <$> items) ++ NUL :: rest)) args ;;
    panic_dump_cpu cpu_current clock stack text_at ;;
    panic_dump_regs kallsyms (Z.of_nat (length kallsyms)) clock stack text_at regs ;;
    panic_dump_backtrace kallsyms (Z.of_nat (length kallsyms)) mem clock stack regs ;;
    say (literal "---[ end Kernel panic ]---") []) (record_text <$> panic_report text regs rets)) as Hsay.
  { unfold panic_report. rewrite !fmap_app.
    refine (says_then _ _ [_] _ (log_message_ok msg items args text rest Hmsg Hi Ha Hr Hlen) _).
    refine (says_then _ _ [_] _ dump_cpu_ok _). refine (says_then _ _ _ _ (dump_regs_ok regs) _).
    rewrite app_assoc. refine (says_then _ _ (_ :: _) _ (dump_backtrace_ok regs rets Hc) _).
    apply say_text; [format|cbn; lia]. }
  destruct (Hsay (p_log s) l Hk Hl) as (k' & l' & Hrun & Hsaid). exists k', l'. split; [|exact Hsaid].
  unfold vkpanic. rewrite gets_bind, Hp, modify_bind.
  rewrite (on_log_seq _ (panic_dump_cpu cpu_current clock stack text_at ;;
    panic_dump_regs kallsyms (Z.of_nat (length kallsyms)) clock stack text_at regs ;;
    panic_dump_backtrace kallsyms (Z.of_nat (length kallsyms)) mem clock stack regs ;;
    say (literal "---[ end Kernel panic ]---") [])).
  2: { intros t. apply on_log_seq. intros t1. apply on_log_seq. intros t2. by apply on_log_seq. }
  unfold on_log. cbn [p_log panic_lock]. rewrite (obind_ok _ _ _ Hrun). done.
Qed.
End report.

(** ** The trampoline *)

Section trampoline.
Context (special_reg : special -> Z) (zero_flags : Z -> Z) (sp : Z) (m : words).
Context (Hsp : 8 * 64 <= sp < 2 ^ 64 - 8).
Abbreviation exec := (exec special_reg zero_flags).

(** The memory after these words were pushed, the last one first. *)
Fixpoint stacked (vals : list Z) : words :=
  match vals with [] => m | v :: vals => <[sp - 8 * Z.of_nat (S (length vals)) := v]> (stacked vals) end.

Lemma stacked_above vals a : sp <= a -> word_at (stacked vals) a = word_at m a.
Proof. intros Ha. induction vals as [|v vals IH]; [done|]. cbn [stacked]. rewrite word_at_ne by lia. apply IH. Qed.
Lemma stacked_at vals i v : vals !! i = Some v ->
  word_at (stacked vals) (sp - 8 * Z.of_nat (length vals) + 8 * Z.of_nat i) = v.
Proof.
  revert i. induction vals as [|x vals IH]; intros i Hi; [done|]. cbn [stacked length]. destruct i as [|i].
  - injection Hi as ->. replace (_ + 8 * Z.of_nat 0) with (sp - 8 * Z.of_nat (S (length vals))) by lia. apply word_at_eq.
  - rewrite word_at_ne by lia. rewrite <- (IH i Hi). f_equal. lia.
Qed.

(** The same instructions on registers, pushed words and flags. *)
Definition sym : Type := (reg -> Z) * list Z * Z.
Definition concrete (s : sym) : machine :=
  mk_machine (mk_cs s.1.1 (sp - 8 * Z.of_nat (length s.1.2))) (stacked s.1.2) s.2.

Definition read_sym (vals : list Z) (o : Z) : Z :=
  match vals !! Z.to_nat (o / 8) with Some v => v | None => word_at m (sp - 8 * Z.of_nat (length vals) + o) end.
Definition sym_exec (s : sym) (i : instr) : sym :=
  let '(r, vals, fl) := s in
  match i with
  | PUSHQ x => (r, r x :: vals, fl)
  | PUSHQ0 => (r, 0 :: vals, fl)
  | PUSHFQ => (r, fl :: vals, fl)
  | XORQ_RAX => (set_reg r RAX 0, vals, zero_flags fl)
  | MOVW_AX x => (set_reg r RAX (r RAX - r RAX mod 2 ^ 16 + u16 (special_reg x)), vals, fl)
  | MOVQ_RAX x => (set_reg r RAX (special_reg x), vals, fl)
  | MOVQ_RSP o => (set_reg r RAX (read_sym vals o), vals, fl)
  | LEAQ_RSP o => (set_reg r RAX (sp - 8 * Z.of_nat (length vals) + o), vals, fl)
  end.

(** Room for one more word, and offsets that are words of the stack. *)
Definition fits (n : nat) (i : instr) : bool :=
  (n <? 60)%nat && match i with
  | MOVQ_RSP o | LEAQ_RSP o => (0 <=? o) && (o mod 8 =? 0) && (o <=? 8 * Z.of_nat n + 8)
  | _ => true end.

Lemma exec_sym s i : fits (length s.1.2) i = true -> exec (concrete s) i = concrete (sym_exec s i).
Proof.
  destruct s as [[r vals] fl]. cbn [fst snd]. unfold fits. rewrite andb_true_iff, Nat.ltb_lt. intros [Hn Ho].
  assert (forall v, push v (concrete (r, vals, fl)) = concrete (r, v :: vals, fl)) as Hpush.
  { intros v. unfold push, concrete. cbn [m_cpu m_mem m_flags cs_regs cs_sp fst snd length stacked].
    rewrite u64_small by lia.
    by replace (sp - 8 * Z.of_nat (length vals) - 8) with (sp - 8 * Z.of_nat (S (length vals))) by lia. }
  destruct i as [x| | | |x|x|o|o]; cbn [exec sym_exec]; try apply Hpush; try done;
    rewrite !andb_true_iff, Z.leb_le, Z.eqb_eq, Z.leb_le in Ho; destruct Ho as [[O1 O2] O3];
    unfold concrete, set_rax; cbn [m_cpu m_mem m_flags cs_regs cs_sp fst snd]; rewrite u64_small by lia; [|done].
  unfold read_sym. pose proof (Z.div_mod o 8 ltac:(lia)) as Hd. pose proof (Z.div_pos o 8 O1 ltac:(lia)) as Hp.
  destruct (vals !! Z.to_nat (o / 8)) as [v|] eqn:Ev.
  - do 3 f_equal. rewrite <- (stacked_at vals _ v Ev). f_equal. lia.
  - apply lookup_ge_None_1 in Ev. rewrite stacked_above by lia. done.
Qed.

(** The number of words pushed by a piece of code. *)
Definition pushes (i : instr) : bool := match i with PUSHQ _ | PUSHQ0 | PUSHFQ => true | _ => false end.
Fixpoint fits_all (n : nat) (code : list instr) : bool :=
  match code with [] => true | i :: code => fits n i && fits_all (if pushes i then S n else n) code end.

Lemma exec_all code s : fits_all (length s.1.2) code = true -> foldl exec (concrete s) code = concrete (foldl sym_exec s code).
Proof.
  revert s. induction code as [|i code IH]; intros s Hf; [done|]. cbn [fits_all] in Hf. apply andb_prop in Hf as [Hf Hr].
  cbn [foldl]. rewrite exec_sym by done. apply IH. rewrite <- Hr. f_equal. by destruct s as [[r vals] fl], i.
Qed.

Lemma frame_of_vals s a : sp - 8 * Z.of_nat (length s.1.2) = a -> (28 <= length s.1.2)%nat -> forall i, (i < 28)%nat ->
  word_at (m_mem (concrete s)) (a + 8 * Z.of_nat i) = s.1.2 !!! i.
Proof.
  intros <- Hl i Hi. cbn [concrete m_mem]. destruct (lookup_lt_is_Some_2 s.1.2 i ltac:(lia)) as [v Hv].
  rewrite (stacked_at _ _ _ Hv). by rewrite (list_lookup_total_correct _ _ _ Hv).
Qed.
End trampoline.

Definition frame_of (w : nat -> Z) : interrupt_frame :=
  mk_frame (w 0%nat) (w 1%nat) (w 2%nat) (w 3%nat) (w 4%nat) (w 5%nat) (w 6%nat) (w 7%nat) (w 8%nat) (w 9%nat) (w 10%nat)
    (w 11%nat) (w 12%nat) (w 13%nat) (w 14%nat) (w 15%nat) (w 16%nat) (w 17%nat) (w 18%nat) (w 19%nat) (w 20%nat)
    (w 21%nat) (w 22%nat) (w 23%nat) (w 24%nat) (w 25%nat) (w 26%nat) (w 27%nat).
Lemma frame_at_vals m a w : (forall i, (i < 28)%nat -> word_at m (a + 8 * Z.of_nat i) = w i) -> frame_at m a = frame_of w.
Proof. intros Hw. unfold frame_of. rewrite <- !Hw by lia. reflexivity. Qed.

Definition same_frame (c : cpu_state) (special_reg : special -> Z) (rip flags : Z) : interrupt_frame :=
  let r := cs_regs c in
  mk_frame (u16 (special_reg ES)) (u16 (special_reg DS)) (special_reg CR0) (special_reg CR2) (special_reg CR3) (special_reg CR4)
    (r RAX) (r RBX) (r RCX) (r RDX) (r RBP) (r RDI) (r RSI) (r R8) (r R9) (r R10) (r R11) (r R12) (r R13) (r R14) (r R15)
    0 0 rip (u16 (special_reg CS)) flags (cs_sp c + 8) (u16 (special_reg SS)).

(** [kpanic] without registers captures those of its caller. The frame it
    builds on the stack and passes to [kpanic_with_regs] has, field by field, the
    general registers at the call ([RAX] too, which the code overwrites), the
    segment and control registers, the return address as [rip] and the stack
    pointer after the return as [rsp]; only the flags are those that the code's
    own tests leave. With registers nothing is captured. *)
Theorem kpanic_spec c m flags special_reg zero_flags : 8 * 64 <= cs_sp c < 2 ^ 64 - 8 ->
  kpanic special_reg zero_flags (mk_machine c m flags) =
    if cs_regs c RDI =? 0 then
      Some (same_frame c special_reg (word_at m (cs_sp c)) (zero_flags (zero_flags flags)))
    else None.
Proof.
  intros Hsp. unfold kpanic. cbn [m_cpu m_mem m_flags]. destruct (Z.eqb_spec (cs_regs c RDI) 0) as [Hr|]; [|done]. cbn [negb].
  cbv zeta. f_equal.
  set (s0 := (cs_regs c, [], zero_flags flags) : sym).
  assert (mk_machine c m (zero_flags flags) = concrete (cs_sp c) m s0) as ->.
  { unfold concrete. cbn. rewrite Z.sub_0_r. by destruct c. }
  rewrite (exec_all special_reg zero_flags (cs_sp c) m Hsp kpanic_code s0) by reflexivity.
  set (s := foldl _ s0 kpanic_code).
  pose proof (frame_of_vals (cs_sp c) m s _ eq_refl) as Hw. cbn [concrete m_cpu cs_sp] in *.
  assert (length s.1.2 = 29%nat) as Hl by reflexivity. specialize (Hw ltac:(lia)).
  change (m_mem (concrete (cs_sp c) m s)) with (stacked (cs_sp c) m s.1.2) in *. rewrite (frame_at_vals _ _ _ Hw).
  unfold same_frame, frame_of. cbv zeta. f_equal; try reflexivity.
  - transitivity (word_at m (cs_sp c - 8 * Z.of_nat 5 + 40)); [reflexivity|f_equal; lia].
  - transitivity (cs_sp c - 8 * Z.of_nat 2 + 24); [reflexivity|lia].
Qed.

(** C29: the panic report. Whatever the log holds, for a sorted symbol table, a
    format the formatter accepts and registers whose frame pointer starts a
    readable chain of frames, [vkpanic] ends, holding the panic lock, and has
    logged exactly: the reason, the CPU, the registers with the symbol of the
    instruction, the return address of each sound frame in order, up to the
    sixteenth line of the trace, with its symbol and the offset in it, and the
    end mark; each message is cut to the 191 characters of a record. *)
Theorem vkpanic_spec kallsyms mem cpu clock stack text_at msg items args text rest regs rets s l :
  sorted_by_addr kallsyms -> Z.of_nat (length kallsyms) < 2 ^ 64 -> names_short kallsyms ->
  (forall k, is_u64 (clock k)) -> (forall k, sized (stack k).1.1 /\ length (stack k).1.2 = 512%nat) ->
  panic_lock s = false -> ring_rep (p_log s) l -> klog_lock (p_log s) = false ->
  length msg = Z.to_nat KLOG_MSG_MAX -> Forall item_ok items -> Forall arg_ok args ->
  render items args = Some text -> Z.of_nat (length text) < 2 ^ 64 ->
  match regs with Some r => 0 <= f_rbp r /\ chain mem (f_rbp r) rets | None => True end ->
  exists k' l', vkpanic kallsyms (Z.of_nat (length kallsyms)) mem cpu clock stack text_at msg regs
      (Some (concat (show_item <$> items) ++ NUL :: rest)) args s = Ok (tt, mk_panic true k') /\
    said (record_text <$> panic_report kallsyms cpu text regs rets) (p_log s) l k' l'.
Proof. intros. by eapply vkpanic_ok. Qed.

(** ** Examples *)

Definition demo_symbols : list kallsyms_entry :=
  [mk_sym 0x1000 0x40 (Some (1, literal "start")); mk_sym 0x2000 0 (Some (2, literal "work"))].
(** Two sound frames, then the outermost one. *)
Definition demo_stack : gmap Z Z :=
  {[0x8000 := 0x8040; 0x8008 := 0x1010; 0x8040 := 0x8080; 0x8048 := 0x2004; 0x8080 := 0; 0x8088 := 0x1004]}.
Definition demo_regs : interrupt_frame :=
  mk_frame 16 16 1 2 3 4 5 6 7 8 0x8000 9 10 11 12 13 14 15 16 17 18 14 0 0x2010 8 2 0x7ff0 16.
Definition demo_cpu : option cpu_info := Some (mk_cpu_info 0 0 0 true).

Lemma demo_sorted : sorted_by_addr demo_symbols.
Proof.
  intros [|[|i]] [|[|j]] a b Hij Ha Hb; try lia; cbn in Ha, Hb; try done.
  injection Ha as <-. injection Hb as <-. by vm_compute.
Qed.

Lemma demo_chain : chain (fun a => demo_stack !! a) 0x8000 [0x1010; 0x2004].
Proof.
  apply (chain_link _ _ 0x8040); [lia|reflexivity..|lia|reflexivity|reflexivity|lia|].
  apply (chain_link _ _ 0x8080); [lia|reflexivity..|lia|reflexivity|reflexivity|lia|].
  apply (chain_broken _ _ 0); [lia|reflexivity|lia].
Qed.

Lemma kallsyms_lookup_spec_witness :
  kallsyms_lookup demo_symbols 2 0x2004 (Some 0) = Ok (Some (mk_sym 0x2000 0 (Some (2, literal "work"))), Some 4).
Proof. exact (proj1 (kallsyms_lookup_spec demo_symbols 0x2004 (Some 0) demo_sorted ltac:(cbn; lia))). Defined.

Lemma vkpanic_spec_witness : exists k' l',
  vkpanic demo_symbols 2 (fun a => demo_stack !! a) demo_cpu (fun _ => 5000) (fun _ => (demo_record, replicate 512 7, 4096))
    77 (replicate 192 0) (Some demo_regs) (Some (concat (show_item <$> lits "bad") ++ [NUL])) [] (mk_panic false demo_klog) =
    Ok (tt, mk_panic true k') /\
  said (record_text <$> panic_report demo_symbols demo_cpu (chars "bad") (Some demo_regs) [0x1010; 0x2004]) demo_klog [] k' l'.
Proof.
  apply (vkpanic_spec demo_symbols (fun a => demo_stack !! a) demo_cpu (fun _ => 5000)
    (fun _ => (demo_record, replicate 512 7, 4096)) 77 (replicate 192 0) (lits "bad") [] (chars "bad") []
    (Some demo_regs) [0x1010; 0x2004] (mk_panic false demo_klog) []).
  - exact demo_sorted.
  - reflexivity.
  - intros e at_ b [->|[->|[]%not_elem_of_nil]%elem_of_cons]%elem_of_cons [= <- <-];
      eexists; (split; [reflexivity|reflexivity]).
  - intros _. split; [discriminate|reflexivity].
  - intros _. split; [split|]; reflexivity.
  - reflexivity.
  - exact demo_ring.
  - reflexivity.
  - reflexivity.
  - apply (bool_decide_unpack _). vm_compute. exact I.
  - constructor.
  - apply render_lits.
  - reflexivity.
  - split; [discriminate|]. exact demo_chain.
Defined.

Example demo_report : traces demo_symbols 1 [0x1010; 0x2004] =
  [chars "  #1 [<0000000000001010>] start+0x10/0x40"; chars "  #2 [<0000000000002004>] work+0x4"].
Proof. reflexivity. Qed.

Lemma kpanic_spec_witness :
  let c := mk_cs (fun r => match r with RDI => 0 | RAX => 7 | _ => 1 end) 4096 in
  kpanic (fun _ => 8) (fun f => f - 1) (mk_machine c {[4096 := 99]} 70) =
    Some (same_frame c (fun _ => 8) 99 68).
Proof.
  exact (kpanic_spec (mk_cs (fun r => match r with RDI => 0 | RAX => 7 | _ => 1 end) 4096) {[4096 := 99]} 70 (fun _ => 8)
    (fun f => f - 1) ltac:(cbn; lia)).
Defined.
