(* ===== verification/Paging.v ===== *)
(** Four-level page tables, [kernel/src/mm/paging.c] and [mm/paging.h]. A
    [ptable_t *] is the physical address of the table (the code adds
    [hhdm_offset], which maps all of physical memory); the contents of physical
    memory are pages of 512 words. The TLB ([invlpg]) is not modelled. Page
    frames come from an interface, [PageSource], that the buddy allocator
    implements. *)
From S2P Require Import Prelude Dll Pfndb Pmm.

Module Pte.
Definition PAGE_PRESENT : Z := 2 ^ 0.
Definition PAGE_WRITE : Z := 2 ^ 1.
Definition PAGE_USER : Z := 2 ^ 2.
Definition PAGE_GLOBAL : Z := 2 ^ 8.
Definition PAGE_NX : Z := 2 ^ 63.
Definition PAGE_ADDR_MASK : Z := 0x000ffffffffff000.
End Pte.
Import Pte.

(** [vad_t] and [vas_t] of [mm/vmm.h]; the singly linked list of areas is the
    list of its nodes. *)
Record vad := mk_vad {
  vad_start : Z;
  vad_end : Z;
  vad_flags : Z;
}.
Record vas := mk_vas {
  vas_pml4 : ptr;
  vas_list : list vad;
  vas_user_start : Z;
}.

(** What the memory manager above needs of the page allocator: [ps_alloc] is
    [pmm_alloc_page] followed by [page_to_phys], [ps_release] gives back the
    frame at a physical address unless it is reserved or not managed. *)
Class PageSource (S : Type) := {
  ps_alloc : ST S ptr;
  ps_release : Z -> ST S unit;
}.

(** [ps_ok s held]: the allocator is in a good state and the frames at the
    addresses [held] are not its to give. *)
Class PageSourceLaws (S : Type) `{PageSource S} := {
  ps_ok : S -> (Z -> Prop) -> Prop;
  ps_alloc_ok (s : S) (held : Z -> Prop) : ps_ok s held ->
    exists r s', ps_alloc s = Ok (r, s') /\
      match r with
      | None => ps_ok s' held
      | Some p => ~ held p /\ 0 <= p < 2 ^ 52 /\ (4096 | p) /\
          ps_ok s' (fun x => held x \/ x = p)
      end;
}.

(** Physical memory by pages: an absent word reads as zero. *)
Abbreviation ram := (gmap Z (gmap Z Z)).
Definition page_words (r : ram) (p : Z) : gmap Z Z := default ∅ (r !! p).
Definition word_at (r : ram) (p i : Z) : Z := default 0 (page_words r p !! i).
Definition set_word (p i w : Z) (r : ram) : ram := <[p := <[i := w]> (page_words r p)]> r.

Section paging.
Context {S : Type} `{PageSource S}.

Record machine := mk_mach {
  m_ram : ram;
  m_tables : Z;    (* page_table_count *)
  m_cr3 : Z;
  m_src : S;
}.

Definition upd_ram (f : ram -> ram) : ST machine unit :=
  modify (fun s => mk_mach (f (m_ram s)) (m_tables s) (m_cr3 s) (m_src s)).
Definition get_word (p i : Z) : ST machine Z := gets (fun s => word_at (m_ram s) p i).
Definition on_src {A} (f : ST S A) : ST machine A := fun s =>
  match f (m_src s) with
  | Ok (a, src) => Ok (a, mk_mach (m_ram s) (m_tables s) (m_cr3 s) src)
  | Panic => Panic | Fault => Fault | Timeout => Timeout
  end.

Definition pml4_index (virt : Z) : Z := Z.land (Z.shiftr virt 39) 511.
Definition pdpt_index (virt : Z) : Z := Z.land (Z.shiftr virt 30) 511.
Definition pd_index (virt : Z) : Z := Z.land (Z.shiftr virt 21) 511.
Definition pt_index (virt : Z) : Z := Z.land (Z.shiftr virt 12) 511.

(** The physical address of a table entry's target. *)
Definition table_virt (phys : Z) : Z := Z.land phys PAGE_ADDR_MASK.

Definition flags_to_pte (flags : Z) : Z :=
  let entry := PAGE_PRESENT in
  let entry := if has_bits flags PAGE_WRITE then Z.lor entry PAGE_WRITE else entry in
  let entry := if has_bits flags PAGE_USER then Z.lor entry PAGE_USER else entry in
  let entry := if has_bits flags PAGE_GLOBAL then Z.lor entry PAGE_GLOBAL else entry in
  if has_bits flags PAGE_NX then Z.lor entry PAGE_NX else entry.

(** Zero stands for failure. *)
Definition alloc_table : ST machine Z :=
  p ← on_src ps_alloc;
  match p with
  | None => mret 0
  | Some phys =>
      upd_ram (fun r => <[phys := ∅]> r) ;;
      modify (fun s => mk_mach (m_ram s) (u64 (m_tables s + 1)) (m_cr3 s) (m_src s)) ;;
      mret phys
  end.

Definition next_table (table index flags : Z) (create : bool) : ST machine ptr :=
  entry ← get_word table index;
  if has_bits entry PAGE_PRESENT then mret (Some (table_virt entry)) else
  if negb create then mret None else
  phys ← alloc_table;
  if phys =? 0 then mret None else
  upd_ram (set_word table index (Z.lor (Z.lor phys PAGE_PRESENT) PAGE_WRITE)) ;;
  (if has_bits flags PAGE_USER then
     e ← get_word table index;
     upd_ram (set_word table index (Z.lor e PAGE_USER))
   else mret tt) ;;
  mret (Some (table_virt phys)).

Definition lookup_pt (pml4 virt : Z) (create : bool) (flags : Z) : ST machine ptr :=
  pdpt ← next_table pml4 (pml4_index virt) flags create;
  match pdpt with
  | None => mret None
  | Some pdpt =>
      pd ← next_table pdpt (pdpt_index virt) flags create;
      match pd with
      | None => mret None
      | Some pd => next_table pd (pd_index virt) flags create
      end
  end.

(** The address of an entry: its table and its index. *)
Definition lookup_leaf (pml4 virt : Z) (create : bool) (flags : Z) : ST machine (option (Z * Z)) :=
  pt ← lookup_pt pml4 virt create flags;
  match pt with
  | None => mret None
  | Some pt => mret (Some (pt, pt_index virt))
  end.

(** [!vas || !vas->pml4] is [None]. *)
Definition vas_root (v : option vas) : ptr := v ≫= vas_pml4.

Definition paging_map_page (v : option vas) (virt phys flags : Z) : ST machine Z :=
  match vas_root v with
  | None => mret (-1)
  | Some pml4 =>
      if has_bits virt (PAGE_SIZE - 1) || has_bits phys (PAGE_SIZE - 1) then mret (-1) else
      leaf ← lookup_leaf pml4 virt true flags;
      match leaf with
      | None => mret (-1)
      | Some (pt, i) =>
          upd_ram (set_word pt i (Z.lor (Z.land phys PAGE_ADDR_MASK) (flags_to_pte flags))) ;;
          mret 0
      end
  end.

(** The inner loop of [paging_map_range], over one table. *)
Fixpoint map_run (n : nat) (pt i virt phys pte_flags : Z) : ST machine (Z * Z) :=
  match n with
  | O => mret (virt, phys)
  | Datatypes.S n =>
      upd_ram (set_word pt i (Z.lor (Z.land phys PAGE_ADDR_MASK) pte_flags)) ;;
      map_run n pt (i + 1) (u64 (virt + PAGE_SIZE)) (u64 (phys + PAGE_SIZE)) pte_flags
  end.

Fixpoint map_range_loop (fuel : nat) (pml4 pages virt phys flags pte_flags : Z) : ST machine Z :=
  if negb (0 <? pages) then mret 0 else
  match fuel with
  | O => st_timeout
  | Datatypes.S fuel =>
      pt ← lookup_pt pml4 virt true flags;
      match pt with
      | None => mret (-1)
      | Some pt =>
          let index := pt_index virt in
          let run := 512 - index in
          let run := if pages <? run then pages else run in
          vp ← map_run (Z.to_nat run) pt index virt phys pte_flags;
          map_range_loop fuel pml4 (pages - run) vp.1 vp.2 flags pte_flags
      end
  end.

Definition paging_map_range (v : option vas) (virt phys size flags : Z) : ST machine Z :=
  let pages := Z.shiftr (PAGE_ALIGN_UP size) PAGE_SHIFT in
  if size =? 0 then mret 0 else
  match vas_root v with
  | None => mret (-1)
  | Some pml4 =>
      if has_bits virt (PAGE_SIZE - 1) || has_bits phys (PAGE_SIZE - 1) then mret (-1) else
      map_range_loop (Z.to_nat pages) pml4 pages virt phys flags (flags_to_pte flags)
  end.

Definition paging_unmap_page (v : option vas) (virt : Z) : ST machine unit :=
  match vas_root v with
  | None => mret tt
  | Some pml4 =>
      if has_bits virt (PAGE_SIZE - 1) then mret tt else
      leaf ← lookup_leaf pml4 virt false 0;
      match leaf with
      | None => mret tt
      | Some (pt, i) => upd_ram (set_word pt i 0)
      end
  end.

Definition paging_virt_to_phys (v : option vas) (virt : Z) : ST machine Z :=
  match vas_root v with
  | None => mret 0
  | Some pml4 =>
      leaf ← lookup_leaf pml4 virt false 0;
      match leaf with
      | None => mret 0
      | Some (pt, i) =>
          e ← get_word pt i;
          if negb (has_bits e PAGE_PRESENT) then mret 0
          else mret (Z.lor (Z.land e PAGE_ADDR_MASK) (Z.land virt (PAGE_SIZE - 1)))
      end
  end.

Definition prot_bits : Z :=
  Z.lor (Z.lor (Z.lor (Z.lor PAGE_PRESENT PAGE_WRITE) PAGE_USER) PAGE_GLOBAL) PAGE_NX.

Definition paging_get_flags (v : option vas) (virt : Z) : ST machine Z :=
  match vas_root v with
  | None => mret 0
  | Some pml4 =>
      leaf ← lookup_leaf pml4 virt false 0;
      match leaf with
      | None => mret 0
      | Some (pt, i) =>
          e ← get_word pt i;
          if negb (has_bits e PAGE_PRESENT) then mret 0 else mret (Z.land e prot_bits)
      end
  end.

(** [for (i = 256; i < 512; i++) pt[i] = kernel_vas->pml4[i];] *)
Fixpoint copy_upper (n : nat) (i pt kpml4 : Z) : ST machine unit :=
  match n with
  | O => mret tt
  | Datatypes.S n =>
      e ← get_word kpml4 i;
      upd_ram (set_word pt i e) ;;
      copy_upper n (i + 1) pt kpml4
  end.

Definition ptable_create (kernel_pml4 : ptr) : ST machine ptr :=
  phys ← alloc_table;
  if phys =? 0 then mret None else
  let pt := table_virt phys in
  match kernel_pml4 with
  | Some k => copy_upper 256 256 pt k
  | None => mret tt
  end ;;
  mret (Some pt).

(** [destroy_level]: the tables below [table], which is of level [level]. *)
Fixpoint destroy_entries (visit : Z -> ST machine unit) (n : nat) (i table : Z) : ST machine unit :=
  match n with
  | O => mret tt
  | Datatypes.S n =>
      entry ← get_word table i;
      (if negb (has_bits entry PAGE_PRESENT) then mret tt else
         visit (table_virt entry) ;;
         on_src (ps_release (Z.land entry PAGE_ADDR_MASK))) ;;
      destroy_entries visit n (i + 1) table
  end.

Fixpoint destroy_level (level : nat) (table : Z) : ST machine unit :=
  match level with
  | O => mret tt
  | Datatypes.S O => mret tt
  | Datatypes.S level' => destroy_entries (destroy_level level') 512 0 table
  end.

Definition ptable_destroy (pt : ptr) : ST machine unit :=
  match pt with
  | None => mret tt
  | Some pt =>
      destroy_entries (destroy_level 3) 256 0 pt ;;
      on_src (ps_release pt)
  end.

(** [vas_switch]: loads the root of a valid address space. *)
Definition vas_switch (v : option vas) : ST machine unit :=
  match vas_root v with
  | None => st_panic
  | Some pml4 => modify (fun s => mk_mach (m_ram s) (m_tables s) pml4 (m_src s))
  end.
End paging.
Arguments machine S : clear implicits.

(** ** Words of physical memory *)

Lemma word_at_set r p i w q j :
  word_at (set_word p i w r) q j = if decide (q = p /\ j = i) then w else word_at r q j.
Proof.
  unfold word_at, set_word, page_words. rewrite lookup_insert. case_decide as E1; simpl.
  - subst q. rewrite lookup_insert. case_decide as E2; case_decide as E3; try naive_solver.
  - rewrite decide_False by naive_solver. done.
Qed.

Lemma word_at_zero r p q j :
  word_at (<[p := ∅]> r) q j = if decide (q = p) then 0 else word_at r q j.
Proof.
  unfold word_at, page_words. rewrite lookup_insert. repeat case_decide; subst; try done.
Qed.

(** ** Page table entries *)

Lemma addr_mask_spec p : 0 <= p -> Z.land p PAGE_ADDR_MASK = p mod 2 ^ 52 / 4096 * 4096.
Proof.
  intros Hp. assert (PAGE_ADDR_MASK = Z.ldiff (Z.ones 52) (Z.ones 12)) as -> by done.
  assert (Z.land p (Z.ldiff (Z.ones 52) (Z.ones 12)) = Z.ldiff (Z.land p (Z.ones 52)) (Z.ones 12)) as ->.
  { apply Z.bits_inj'. intros n _. rewrite !Z.land_spec, !Z.ldiff_spec, Z.land_spec. by rewrite andb_assoc. }
  rewrite Z.land_ones, Z.ldiff_ones_r, Z.shiftl_mul_pow2, Z.shiftr_div_pow2 by lia. done.
Qed.

Lemma addr_mask_id p : 0 <= p < 2 ^ 52 -> (4096 | p) -> Z.land p PAGE_ADDR_MASK = p.
Proof.
  intros Hp [a ->]. rewrite addr_mask_spec by lia. rewrite Z.mod_small by lia.
  by rewrite Z.div_mul.
Qed.

Lemma addr_mask_range e : 0 <= Z.land e PAGE_ADDR_MASK.
Proof. apply Z.land_nonneg. by right. Qed.

Lemma pte_addr p f :
  0 <= p < 2 ^ 52 -> (4096 | p) -> Z.land f PAGE_ADDR_MASK = 0 ->
  Z.land (Z.lor p f) PAGE_ADDR_MASK = p.
Proof. intros Hp Ha Hf. rewrite Z.land_lor_distr_l, Hf, Z.lor_0_r. by apply addr_mask_id. Qed.

Lemma present_bit e : has_bits e PAGE_PRESENT = Z.testbit e 0.
Proof. by apply has_bits_pow2. Qed.

(** The bits [flags_to_pte] computes: present, and the four protection bits it
    is given. *)
Lemma flags_to_pte_eq f : flags_to_pte f = Z.lor PAGE_PRESENT (Z.land f prot_bits).
Proof.
  assert (forall n, 0 <= n -> Z.testbit (flags_to_pte f) n =
    (n =? 0) || (Z.testbit f 1 && (n =? 1)) || (Z.testbit f 2 && (n =? 2)) ||
    (Z.testbit f 8 && (n =? 8)) || (Z.testbit f 63 && (n =? 63))) as Hb.
  { intros n Hn. unfold flags_to_pte, PAGE_WRITE, PAGE_USER, PAGE_GLOBAL, PAGE_NX, PAGE_PRESENT.
    rewrite !has_bits_pow2 by done.
    destruct (Z.testbit f 1), (Z.testbit f 2), (Z.testbit f 8), (Z.testbit f 63);
      rewrite ?Z.lor_spec, !Z.pow2_bits_eqb by done; rewrite ?(Z.eqb_sym n); cbn [andb];
      rewrite ?orb_false_r; done. }
  apply Z.bits_inj'. intros n Hn. rewrite Hb by done. rewrite Z.lor_spec, Z.land_spec.
  unfold prot_bits, PAGE_WRITE, PAGE_USER, PAGE_GLOBAL, PAGE_NX, PAGE_PRESENT.
  rewrite !Z.lor_spec, !Z.pow2_bits_eqb by done. rewrite !(Z.eqb_sym _ n).
  destruct (Z.eqb_spec n 0), (Z.eqb_spec n 1), (Z.eqb_spec n 2), (Z.eqb_spec n 8), (Z.eqb_spec n 63);
    subst; try lia; cbn [orb andb]; rewrite ?andb_false_r, ?orb_false_r, ?andb_true_r; done.
Qed.

Lemma flags_to_pte_present f : has_bits (flags_to_pte f) PAGE_PRESENT = true.
Proof. rewrite present_bit, flags_to_pte_eq, Z.lor_spec. done. Qed.

Lemma flags_to_pte_addr f : Z.land (flags_to_pte f) PAGE_ADDR_MASK = 0.
Proof.
  rewrite flags_to_pte_eq, Z.land_lor_distr_l, <- Z.land_assoc.
  change (Z.land prot_bits PAGE_ADDR_MASK) with 0. by rewrite Z.land_0_r.
Qed.

Lemma flags_to_pte_prot f : Z.land (flags_to_pte f) prot_bits = flags_to_pte f.
Proof.
  rewrite flags_to_pte_eq, Z.land_lor_distr_l, <- Z.land_assoc, Z.land_diag. done.
Qed.

(** ** Translation as a function of memory *)

Definition walk_step (r : ram) (t i : Z) : ptr :=
  let e := word_at r t i in
  if has_bits e PAGE_PRESENT then Some (table_virt e) else None.

Definition walk_pt (r : ram) (root virt : Z) : ptr :=
  pdpt ← walk_step r root (pml4_index virt);
  pd ← walk_step r pdpt (pdpt_index virt);
  walk_step r pd (pd_index virt).

(** The last-level entry of an address, 0 when a table is missing. *)
Definition leaf_entry (r : ram) (root virt : Z) : Z :=
  match walk_pt r root virt with
  | Some pt => word_at r pt (pt_index virt)
  | None => 0
  end.

Definition virt_indices (virt : Z) : list Z := [pml4_index virt; pdpt_index virt; pd_index virt].

Lemma index_range v k : 0 <= Z.land (Z.shiftr v k) 511 < 512.
Proof. change 511 with (Z.ones 9). rewrite Z.land_ones by lia. apply Z.mod_pos_bound. done. Qed.

(** The page number of an address, as the four indices see it. *)
Definition vpage (virt : Z) : Z := Z.shiftr virt 12 mod 2 ^ 36.

Lemma index_eq v k : 12 <= k -> k + 9 <= 48 ->
  Z.land (Z.shiftr v k) 511 = vpage v / 2 ^ (k - 12) mod 512.
Proof.
  intros Hk Hk2. change 511 with (Z.ones 9). rewrite Z.land_ones by lia. unfold vpage.
  apply Z.bits_inj'. intros n Hn. change 512 with (2 ^ 9).
  destruct (Z.lt_ge_cases n 9).
  - rewrite !Z.mod_pow2_bits_low by lia. rewrite Z.div_pow2_bits by lia.
    rewrite Z.mod_pow2_bits_low by lia. rewrite !Z.shiftr_spec by lia. f_equal. lia.
  - by rewrite !Z.mod_pow2_bits_high by lia.
Qed.

Lemma vpage_range v : 0 <= vpage v < 2 ^ 36.
Proof. apply Z.mod_pos_bound. done. Qed.

(** Two addresses have the same indices exactly when they are on one page. *)
Lemma vpage_indices v w :
  virt_indices v = virt_indices w /\ pt_index v = pt_index w <-> vpage v = vpage w.
Proof.
  pose proof (vpage_range v). pose proof (vpage_range w).
  unfold virt_indices, pml4_index, pdpt_index, pd_index, pt_index.
  rewrite !index_eq by lia. cbn -[Z.pow Z.div Z.modulo].
  change (2 ^ (39 - 12)) with (512 * 512 * 512). change (2 ^ (30 - 12)) with (512 * 512).
  change (2 ^ (21 - 12)) with 512. change (2 ^ (12 - 12)) with 1. rewrite !Z.div_1_r.
  rewrite <- !Z.div_div by done. change (2 ^ 36) with (512 * 512 * 512 * 512) in *.
  set (a := vpage v) in *. set (b := vpage w) in *. split; [|by intros ->].
  intros [[= E3 E2 E1] E0].
  pose proof (Z.div_mod a 512 ltac:(lia)). pose proof (Z.div_mod b 512 ltac:(lia)).
  pose proof (Z.div_mod (a / 512) 512 ltac:(lia)). pose proof (Z.div_mod (b / 512) 512 ltac:(lia)).
  pose proof (Z.div_mod (a / 512 / 512) 512 ltac:(lia)).
  pose proof (Z.div_mod (b / 512 / 512) 512 ltac:(lia)).
  assert (0 <= a / 512 / 512 / 512 < 512) by (rewrite !Z.div_div by done; split;
    [apply Z.div_pos; lia|apply Z.div_lt_upper_bound; lia]).
  assert (0 <= b / 512 / 512 / 512 < 512) by (rewrite !Z.div_div by done; split;
    [apply Z.div_pos; lia|apply Z.div_lt_upper_bound; lia]).
  rewrite (Z.mod_small (a / 512 / 512 / 512)), (Z.mod_small (b / 512 / 512 / 512)) in E3 by lia.
  lia.
Qed.

(** ** The tree of tables

    [lab] gives every page table its place: the root it belongs to and the
    indices that lead to it. Tables under the upper half (index 256 and more of
    the root) are shared by all roots. *)
Abbreviation labels := (gmap Z (Z * list Z)).

Definition shared_root : Z := -1.
Definition owner (o : Z) (path : list Z) : Z :=
  match path with i :: _ => if 256 <=? i then shared_root else o | [] => o end.

Section tree.
Context {S : Type} `{PageSourceLaws S}.

Record tree (s : machine S) (lab : labels) (held : Z -> Prop) : Prop := {
  tr_src : ps_ok (m_src s) held;
  tr_held t : is_Some (lab !! t) -> held t;
  tr_addr t o path : lab !! t = Some (o, path) -> 0 <= t < 2 ^ 52 /\ (4096 | t);
  tr_root t o : lab !! t = Some (o, []) -> o = t;
  tr_step t o path i c : lab !! t = Some (o, path) -> (length path < 3)%nat -> 0 <= i < 512 ->
    walk_step (m_ram s) t i = Some c ->
    lab !! c = Some (owner o (path ++ [i]), path ++ [i]);
}.

(** From [r] to [r'] no table lost an entry and new tables are empty. *)
Definition grows (lab : labels) (r r' : ram) : Prop := forall t o path i,
  lab !! t = Some (o, path) -> 0 <= i < 512 ->
  (length path = 3%nat -> word_at r' t i = word_at r t i) /\
  ((length path < 3)%nat -> walk_step r' t i = walk_step r t i \/
    walk_step r t i = None /\ exists p, walk_step r' t i = Some p /\ forall j, word_at r' p j = 0).

Lemma empty_step r p i : (forall j, word_at r p j = 0) -> walk_step r p i = None.
Proof. intros Hz. unfold walk_step. by rewrite Hz. Qed.

Lemma grows_leaf s lab held r' root virt :
  tree s lab held -> grows lab (m_ram s) r' -> lab !! root = Some (root, []) ->
  leaf_entry r' root virt = leaf_entry (m_ram s) root virt.
Proof.
  intros Ht Hg Hroot. unfold leaf_entry, walk_pt.
  destruct (Hg _ _ _ (pml4_index virt) Hroot (index_range _ _)) as [_ H1].
  destruct (H1 ltac:(simpl; lia)) as [E1|(E1 & p & E1' & Hz)]; rewrite E1; [|rewrite E1'].
  2:{ simpl. by rewrite (empty_step _ _ _ Hz). }
  destruct (walk_step (m_ram s) root (pml4_index virt)) as [t1|] eqn:W1; [|done]. simpl.
  pose proof (tr_step _ _ _ Ht _ _ _ _ _ Hroot ltac:(simpl; lia) (index_range _ _) W1) as L1.
  destruct (Hg _ _ _ (pdpt_index virt) L1 (index_range _ _)) as [_ H2].
  destruct (H2 ltac:(simpl; lia)) as [E2|(E2 & p & E2' & Hz)]; rewrite E2; [|rewrite E2'].
  2:{ simpl. by rewrite (empty_step _ _ _ Hz). }
  destruct (walk_step (m_ram s) t1 (pdpt_index virt)) as [t2|] eqn:W2; [|done]. simpl.
  pose proof (tr_step _ _ _ Ht _ _ _ _ _ L1 ltac:(simpl; lia) (index_range _ _) W2) as L2.
  destruct (Hg _ _ _ (pd_index virt) L2 (index_range _ _)) as [_ H3].
  destruct (H3 ltac:(simpl; lia)) as [E3|(E3 & p & E3' & Hz)]; rewrite E3; [|rewrite E3'].
  2:{ by rewrite Hz. }
  destruct (walk_step (m_ram s) t2 (pd_index virt)) as [t3|] eqn:W3; [|done].
  pose proof (tr_step _ _ _ Ht _ _ _ _ _ L2 ltac:(simpl; lia) (index_range _ _) W3) as L3.
  by destruct (Hg _ _ _ (pt_index virt) L3 (index_range _ _)) as [-> _].
Qed.

Lemma alloc_table_ok s lab held :
  tree s lab held ->
  exists p s', alloc_table s = Ok (p, s') /\ m_cr3 s' = m_cr3 s /\
    ((p = 0 /\ (exists held', tree s' lab held' /\ forall x, held x -> held' x) /\ grows lab (m_ram s) (m_ram s')) \/
     (p <> 0 /\ 0 <= p < 2 ^ 52 /\ (4096 | p) /\ ~ held p /\ ps_ok (m_src s') (fun x => held x \/ x = p) /\
      m_ram s' = <[p := ∅]> (m_ram s))).
Proof.
  intros Ht. destruct (ps_alloc_ok _ _ (tr_src _ _ _ Ht)) as (r & src & Hr & Hres).
  unfold alloc_table, on_src, upd_ram, modify, mbind, st_bind, mret, st_ret. rewrite Hr.
  destruct r as [p|]; simpl.
  - destruct Hres as (Hnh & Hp & Ha & Hok). eexists _, _. split; [done|]. split; [done|].
    destruct (decide (p = 0)) as [->|Hne]; [left|right; auto 10].
    split; [done|].
    assert (forall t o path i, lab !! t = Some (o, path) ->
      word_at (<[0 := ∅]> (m_ram s)) t i = word_at (m_ram s) t i) as Hw.
    { intros t o path i Hl. rewrite word_at_zero, decide_False; [done|]. intros ->.
      apply Hnh, (tr_held _ _ _ Ht). eauto. }
    split.
    + exists (fun x => held x \/ x = 0). split; [|by left]. destruct Ht as [T1 T2 T3 T4 T5].
      split; simpl; try done; [by left; apply T2|].
      intros t o path i c Hl Hlen Hi. unfold walk_step. rewrite (Hw _ _ _ _ Hl). by apply T5.
    + intros t o path i Hl Hi. simpl. split; [by intros _; rewrite (Hw _ _ _ _ Hl)|].
      intros _. left. unfold walk_step. by rewrite (Hw _ _ _ _ Hl).
  - eexists _, _. split; [done|]. split; [done|]. left. split; [done|]. simpl. split.
    + exists held. split; [|done]. by destruct Ht.
    + intros t o path i _ _. split; [done|by left].
Qed.
End tree.

Section growth.
Context {S : Type} `{PageSourceLaws S}.

(** A fresh zeroed page [p] becomes the table below entry [i] of [t]. *)
Lemma grow_tree (s s' : machine S) lab held t o path i p w :
  tree s lab held -> lab !! t = Some (o, path) -> (length path < 3)%nat -> 0 <= i < 512 ->
  walk_step (m_ram s) t i = None ->
  0 <= p < 2 ^ 52 -> (4096 | p) -> ~ held p -> ps_ok (m_src s') (fun x => held x \/ x = p) ->
  has_bits w PAGE_PRESENT = true -> table_virt w = p ->
  (forall q j, word_at (m_ram s') q j =
    if decide (q = t /\ j = i) then w else if decide (q = p) then 0 else word_at (m_ram s) q j) ->
  tree s' (<[p := (owner o (path ++ [i]), path ++ [i])]> lab) (fun x => held x \/ x = p) /\
  grows lab (m_ram s) (m_ram s') /\ walk_step (m_ram s') t i = Some p /\ lab !! p = None.
Proof.
  intros Ht Hl Hlen Hi Hnone Hp Ha Hnh Hok Hpres Haddr Hw.
  assert (lab !! p = None) as Hlp.
  { destruct (lab !! p) eqn:E; [|done]. exfalso. apply Hnh, (tr_held _ _ _ Ht). eauto. }
  assert (t <> p) as Htp by (intros ->; congruence).
  assert (forall q oq pq j, lab !! q = Some (oq, pq) -> ~ (q = t /\ j = i) ->
    word_at (m_ram s') q j = word_at (m_ram s) q j) as Hsame.
  { intros q oq pq j Hq Hn. rewrite Hw, !decide_False; [done| |done]. intros ->. congruence. }
  assert (walk_step (m_ram s') t i = Some p) as Hstep.
  { unfold walk_step. rewrite Hw, decide_True by done. by rewrite Hpres, Haddr. }
  assert (forall j, word_at (m_ram s') p j = 0) as Hzero.
  { intros j. rewrite Hw, decide_False, decide_True by naive_solver. done. }
  split; [|split; [|done]].
  - split.
    + done.
    + intros q. rewrite lookup_insert. case_decide; [by right|]. left. by apply (tr_held _ _ _ Ht).
    + intros q oq pq. rewrite lookup_insert. case_decide; [by intros; subst|apply (tr_addr _ _ _ Ht)].
    + intros q oq. rewrite lookup_insert. case_decide; [|apply (tr_root _ _ _ Ht)].
      intros [= _ E]. by destruct path.
    + intros q oq pq j c. rewrite lookup_insert. case_decide as E.
      * intros _ _ _. subst q. rewrite empty_step; done.
      * intros Hq Hlq Hj Hc. destruct (decide (q = t /\ j = i)) as [[-> ->]|Hn].
        { rewrite Hl in Hq. injection Hq as <- <-. rewrite Hstep in Hc. injection Hc as <-.
          by rewrite lookup_insert_eq. }
        rewrite lookup_insert_ne; [apply (tr_step _ _ _ Ht _ _ _ _ _ Hq Hlq Hj)|].
        { unfold walk_step in *. by rewrite (Hsame _ _ _ _ Hq Hn) in Hc. }
        intros <-. unfold walk_step in Hc. rewrite (Hsame _ _ _ _ Hq Hn) in Hc.
        assert (lab !! p = Some (owner oq (pq ++ [j]), pq ++ [j])) as Hbad.
        { apply (tr_step _ _ _ Ht _ _ _ _ _ Hq Hlq Hj). exact Hc. }
        congruence.
  - intros q oq pq j Hq Hj. destruct (decide (q = t /\ j = i)) as [[-> ->]|Hn].
    + rewrite Hl in Hq. injection Hq as <- <-. split; [lia|]. intros _. right.
      split; [done|]. by exists p.
    + split; [intros _; by eapply Hsame|]. intros _. left. unfold walk_step.
      by rewrite (Hsame _ _ _ _ Hq Hn).
Qed.

(** What every step of a lookup that may create tables guarantees. *)
Record extends (s : machine S) (lab : labels) (held : Z -> Prop)
  (s' : machine S) (lab' : labels) (held' : Z -> Prop) : Prop := {
  ex_tree : tree s' lab' held';
  ex_lab : lab ⊆ lab';
  ex_held x : held x -> held' x;
  ex_cr3 : m_cr3 s' = m_cr3 s;
  ex_leaf root virt : lab !! root = Some (root, []) ->
    leaf_entry (m_ram s') root virt = leaf_entry (m_ram s) root virt;
  ex_step t o path i c : lab !! t = Some (o, path) -> (length path < 3)%nat -> 0 <= i < 512 ->
    walk_step (m_ram s) t i = Some c -> walk_step (m_ram s') t i = Some c;
}.

Lemma extends_refl s lab held : tree s lab held -> extends s lab held s lab held.
Proof. by split. Qed.

Lemma extends_trans s1 l1 h1 s2 l2 h2 s3 l3 h3 :
  extends s1 l1 h1 s2 l2 h2 -> extends s2 l2 h2 s3 l3 h3 -> extends s1 l1 h1 s3 l3 h3.
Proof.
  intros [T1 L1 H1' C1 F1 S1] [T2 L2 H2' C2 F2 S2]. split; try done.
  - by etransitivity.
  - auto.
  - congruence.
  - intros root virt Hr. rewrite F2; [by apply F1|]. by eapply lookup_weaken.
  - intros t o path i c Ht Hlen Hi Hc. eapply S2; eauto. by eapply lookup_weaken.
Qed.

Lemma grows_extends s lab held s' lab' held' :
  tree s lab held -> tree s' lab' held' -> lab ⊆ lab' -> (forall x, held x -> held' x) ->
  m_cr3 s' = m_cr3 s -> grows lab (m_ram s) (m_ram s') -> extends s lab held s' lab' held'.
Proof.
  intros Ht Ht' Hl Hh Hc Hg. split; try done.
  - intros root virt Hr. by eapply grows_leaf.
  - intros t o path i c Hlt Hlen Hi Hs. destruct (Hg _ _ _ i Hlt Hi) as [_ Hw].
    destruct (Hw Hlen) as [->|[Hn _]]; [done|]. congruence.
Qed.

Lemma next_table_ok s lab held t o path i fl :
  tree s lab held -> lab !! t = Some (o, path) -> (length path < 3)%nat -> 0 <= i < 512 ->
  exists r s' lab' held', next_table t i fl true s = Ok (r, s') /\
    extends s lab held s' lab' held' /\
    match r with
    | None => True
    | Some c => walk_step (m_ram s') t i = Some c /\ lab' !! c = Some (owner o (path ++ [i]), path ++ [i])
    end.
Proof.
  intros Ht Hl Hlen Hi. unfold next_table.
  change (get_word t i s) with (Ok (word_at (m_ram s) t i, s)).
  destruct (has_bits (word_at (m_ram s) t i) PAGE_PRESENT) eqn:Hp.
  { assert (walk_step (m_ram s) t i = Some (table_virt (word_at (m_ram s) t i))) as Hw
      by (unfold walk_step; by rewrite Hp).
    exists (Some (table_virt (word_at (m_ram s) t i))), s, lab, held. split.
    - eapply st_bind_eq; [reflexivity|]. cbv beta. by rewrite Hp.
    - split; [by apply extends_refl|]. split; [done|]. by eapply (tr_step _ _ _ Ht). }
  assert (walk_step (m_ram s) t i = None) as Hnone by (unfold walk_step; by rewrite Hp).
  destruct (alloc_table_ok s lab held Ht) as (p & s1 & Ha & Hc & Hres).
  destruct Hres as [(-> & (held' & Ht' & Hh') & Hg)|(Hp0 & Hpr & Hal & Hnh & Hok & Hram)].
  { exists None, s1, lab, held'. split; [|split; [by apply grows_extends|done]].
    eapply st_bind_eq; [reflexivity|]. cbv beta. rewrite Hp. cbn [negb].
    by eapply st_bind_eq. }
  set (w1 := Z.lor (Z.lor p PAGE_PRESENT) PAGE_WRITE).
  set (w := if has_bits fl PAGE_USER then Z.lor w1 PAGE_USER else w1).
  assert (has_bits w PAGE_PRESENT = true /\ table_virt w = p) as [Hwp Hwa].
  { unfold w, w1, table_virt. rewrite present_bit.
    destruct (has_bits fl PAGE_USER); rewrite !Z.lor_spec; (split; [by rewrite ?orb_true_r|]);
      rewrite <- !Z.lor_assoc; by apply pte_addr. }
  assert (t <> p) as Htp by (intros ->; apply Hnh, (tr_held _ _ _ Ht); eauto).
  set (s2 := mk_mach (set_word t i w1 (m_ram s1)) (m_tables s1) (m_cr3 s1) (m_src s1)).
  assert (exists s3, (if has_bits fl PAGE_USER then
     e ← get_word t i; upd_ram (set_word t i (Z.lor e PAGE_USER)) else mret tt) s2 = Ok (tt, s3) /\
     m_cr3 s3 = m_cr3 s1 /\ m_src s3 = m_src s1 /\
     forall q j, word_at (m_ram s3) q j = if decide (q = t /\ j = i) then w
       else if decide (q = p) then 0 else word_at (m_ram s) q j) as (s3 & Hr3 & Hc3 & Hs3 & Hw3).
  { unfold w. destruct (has_bits fl PAGE_USER).
    - eexists. split; [done|]. do 2 (split; [done|]). intros q j. simpl. unfold s2. simpl.
      rewrite !word_at_set. case_decide; [|by rewrite Hram, word_at_zero].
      by rewrite decide_True by done.
    - exists s2. do 3 (split; [done|]). intros q j. unfold s2. simpl.
      by rewrite word_at_set, Hram, word_at_zero. }
  destruct (grow_tree s s3 lab held t o path i p w) as (Ht3 & Hg3 & Hstep3 & Hlp); try done.
  { by rewrite Hs3. }
  exists (Some p), s3, (<[p := (owner o (path ++ [i]), path ++ [i])]> lab), (fun x => held x \/ x = p).
  split; [|split].
  - eapply st_bind_eq; [reflexivity|]. cbv beta. rewrite Hp. cbn [negb].
    eapply st_bind_eq; [exact Ha|]. cbv beta. destruct (Z.eqb_spec p 0); [done|].
    eapply st_bind_eq; [reflexivity|]. cbv beta. fold s2.
    eapply st_bind_eq; [exact Hr3|]. cbv beta. unfold table_virt. by rewrite addr_mask_id.
  - apply grows_extends; try done; [by apply insert_subseteq|by left|congruence].
  - split; [done|apply lookup_insert_eq].
Qed.
End growth.

Section lookup.
Context {S : Type} `{PageSourceLaws S}.

Lemma next_table_pure (s : machine S) t i fl :
  next_table t i fl false s = Ok (walk_step (m_ram s) t i, s).
Proof.
  unfold next_table. eapply st_bind_eq; [reflexivity|]. cbv beta. unfold walk_step.
  by destruct (has_bits (word_at (m_ram s) t i) PAGE_PRESENT).
Qed.

Lemma lookup_pt_pure (s : machine S) root virt fl :
  lookup_pt root virt false fl s = Ok (walk_pt (m_ram s) root virt, s).
Proof.
  unfold lookup_pt, walk_pt. eapply st_bind_eq; [apply next_table_pure|]. cbv beta.
  destruct (walk_step (m_ram s) root (pml4_index virt)); [|done]. simpl.
  eapply st_bind_eq; [apply next_table_pure|]. cbv beta.
  destruct (walk_step (m_ram s) z (pdpt_index virt)); [|done]. simpl. apply next_table_pure.
Qed.

Lemma lookup_leaf_pure (s : machine S) root virt fl :
  lookup_leaf root virt false fl s =
    Ok ((fun pt => (pt, pt_index virt)) <$> walk_pt (m_ram s) root virt, s).
Proof.
  unfold lookup_leaf. eapply st_bind_eq; [apply lookup_pt_pure|]. cbv beta.
  by destruct (walk_pt (m_ram s) root virt).
Qed.

Lemma owner_owner o i l l' : owner (owner o (i :: l)) (i :: l') = owner o (i :: l').
Proof. unfold owner. by destruct (256 <=? i). Qed.

Lemma lookup_pt_ok (s : machine S) lab held root virt fl :
  tree s lab held -> lab !! root = Some (root, []) ->
  exists r s' lab' held', lookup_pt root virt true fl s = Ok (r, s') /\
    extends s lab held s' lab' held' /\
    match r with
    | None => True
    | Some pt => walk_pt (m_ram s') root virt = Some pt /\
        lab' !! pt = Some (owner root (virt_indices virt), virt_indices virt)
    end.
Proof.
  intros Ht Hroot. unfold lookup_pt.
  destruct (next_table_ok s lab held root root [] (pml4_index virt) fl Ht Hroot) as
    (r1 & s1 & lab1 & held1 & R1 & X1 & Q1); [simpl; lia|apply index_range|].
  destruct r1 as [t1|].
  2:{ exists None, s1, lab1, held1. split; [by eapply st_bind_eq|done]. }
  destruct Q1 as [W1 L1]. cbn [app] in L1.
  destruct (next_table_ok s1 lab1 held1 t1 _ _ (pdpt_index virt) fl (ex_tree _ _ _ _ _ _ X1) L1) as
    (r2 & s2 & lab2 & held2 & R2 & X2 & Q2); [simpl; lia|apply index_range|].
  assert (extends s lab held s2 lab2 held2) as X12 by (by eapply extends_trans).
  destruct r2 as [t2|].
  2:{ exists None, s2, lab2, held2. split; [|done]. eapply st_bind_eq; [exact R1|]. by eapply st_bind_eq. }
  destruct Q2 as [W2 L2]. cbn [app] in L2. rewrite owner_owner in L2.
  destruct (next_table_ok s2 lab2 held2 t2 _ _ (pd_index virt) fl (ex_tree _ _ _ _ _ _ X2) L2) as
    (r3 & s3 & lab3 & held3 & R3 & X3 & Q3); [simpl; lia|apply index_range|].
  assert (extends s lab held s3 lab3 held3) as X13 by (by eapply extends_trans).
  exists r3, s3, lab3, held3. split; [|split; [done|]].
  { eapply st_bind_eq; [exact R1|]. by eapply st_bind_eq. }
  destruct r3 as [t3|]; [|done]. destruct Q3 as [W3 L3]. cbn [app] in L3. rewrite owner_owner in L3.
  split; [|done]. unfold walk_pt.
  assert (walk_step (m_ram s3) root (pml4_index virt) = Some t1) as ->.
  { apply (ex_step _ _ _ _ _ _ X3 root root []); [|simpl; lia|apply index_range|].
    - eapply lookup_weaken; [|apply (ex_lab _ _ _ _ _ _ X12)]. done.
    - apply (ex_step _ _ _ _ _ _ X2 root root []); [|simpl; lia|apply index_range|done].
      eapply lookup_weaken; [|apply (ex_lab _ _ _ _ _ _ X1)]. done. }
  simpl. assert (walk_step (m_ram s3) t1 (pdpt_index virt) = Some t2) as ->; [|done].
  eapply (ex_step _ _ _ _ _ _ X3 t1 _ [pml4_index virt]); [|simpl; lia|apply index_range|done].
  eapply lookup_weaken; [|apply (ex_lab _ _ _ _ _ _ X2)]. exact L1.
Qed.

(** ** Writing a last-level entry *)

(** The table the walk ends in is labelled with the indices of the address. *)
Lemma walk_pt_label (s : machine S) lab held root virt pt :
  tree s lab held -> lab !! root = Some (root, []) -> walk_pt (m_ram s) root virt = Some pt ->
  lab !! pt = Some (owner root (virt_indices virt), virt_indices virt).
Proof.
  intros Ht Hroot Hw. unfold walk_pt in Hw.
  destruct (walk_step (m_ram s) root (pml4_index virt)) as [t1|] eqn:W1; [|done].
  pose proof (tr_step _ _ _ Ht _ _ _ _ _ Hroot ltac:(simpl; lia) (index_range _ _) W1) as L1.
  simpl in Hw. destruct (walk_step (m_ram s) t1 (pdpt_index virt)) as [t2|] eqn:W2; [|done].
  pose proof (tr_step _ _ _ Ht _ _ _ _ _ L1 ltac:(simpl; lia) (index_range _ _) W2) as L2.
  simpl in Hw. pose proof (tr_step _ _ _ Ht _ _ _ _ _ L2 ltac:(simpl; lia) (index_range _ _) Hw) as L3.
  cbn [app] in L1, L2, L3. by rewrite !owner_owner in L3.
Qed.

Definition with_ram (r : ram) (s : machine S) : machine S :=
  mk_mach r (m_tables s) (m_cr3 s) (m_src s).

(** Setting a word of a last-level table keeps the tree. *)
Lemma set_leaf_tree (s : machine S) lab held pt o path i w :
  tree s lab held -> lab !! pt = Some (o, path) -> length path = 3%nat ->
  tree (with_ram (set_word pt i w (m_ram s)) s) lab held /\
  forall t j, walk_pt (set_word pt i w (m_ram s)) t j = walk_pt (m_ram s) t j \/ lab !! t <> Some (t, []).
Proof.
  intros Ht Hl Hlen.
  assert (forall t ot pth j, lab !! t = Some (ot, pth) -> (length pth < 3)%nat ->
    walk_step (set_word pt i w (m_ram s)) t j = walk_step (m_ram s) t j) as Hw.
  { intros t ot pth j Htl Hlt. unfold walk_step. rewrite word_at_set, decide_False; [done|].
    intros [-> _]. rewrite Hl in Htl. injection Htl as <- <-. lia. }
  split.
  - split; simpl; try apply Ht. intros t ot pth j c Htl Hlt Hj. rewrite (Hw _ _ _ _ Htl Hlt).
    by apply (tr_step _ _ _ Ht).
  - intros t v. destruct (decide (lab !! t = Some (t, []))) as [Hroot|]; [left|by right].
    unfold walk_pt. rewrite (Hw _ _ _ _ Hroot) by (simpl; lia).
    destruct (walk_step (m_ram s) t (pml4_index v)) as [t1|] eqn:W1; [|done]. simpl.
    pose proof (tr_step _ _ _ Ht _ _ _ _ _ Hroot ltac:(simpl; lia) (index_range _ _) W1) as L1.
    rewrite (Hw _ _ _ _ L1) by (simpl; lia).
    destruct (walk_step (m_ram s) t1 (pdpt_index v)) as [t2|] eqn:W2; [|done]. simpl.
    pose proof (tr_step _ _ _ Ht _ _ _ _ _ L1 ltac:(simpl; lia) (index_range _ _) W2) as L2.
    by rewrite (Hw _ _ _ _ L2) by (simpl; lia).
Qed.

(** The entry of every address after writing the entry of [virt] under
    [root]. *)
Lemma set_leaf_entry (s : machine S) lab held pt root virt w :
  tree s lab held -> lab !! root = Some (root, []) -> walk_pt (m_ram s) root virt = Some pt ->
  let r' := set_word pt (pt_index virt) w (m_ram s) in
  tree (with_ram r' s) lab held /\
  (forall v, leaf_entry r' root v = if decide (vpage v = vpage virt) then w else leaf_entry (m_ram s) root v) /\
  (forall root' v, lab !! root' = Some (root', []) -> root' <> root -> pml4_index virt < 256 ->
    leaf_entry r' root' v = leaf_entry (m_ram s) root' v).
Proof.
  intros Ht Hroot Hpt r'. pose proof (walk_pt_label _ _ _ _ _ _ Ht Hroot Hpt) as Hl.
  destruct (set_leaf_tree s lab held pt _ _ (pt_index virt) w Ht Hl) as [Ht' Hwalk]; [done|].
  split; [done|].
  assert (forall root' v, lab !! root' = Some (root', []) -> walk_pt r' root' v = walk_pt (m_ram s) root' v) as Hw.
  { intros root' v Hr. destruct (Hwalk root' v); [done|contradiction]. }
  split.
  - intros v. unfold leaf_entry. rewrite Hw by done. case_decide as Hv.
    + apply vpage_indices in Hv as [Ei Ep]. injection Ei as E1 E2 E3.
      assert (walk_pt (m_ram s) root v = walk_pt (m_ram s) root virt) as ->.
      { unfold walk_pt. by rewrite E1, E2, E3. }
      rewrite Hpt. unfold r'. rewrite word_at_set, decide_True; [done|]. by rewrite Ep.
    + destruct (walk_pt (m_ram s) root v) as [pt'|] eqn:E; [|done].
      unfold r'. rewrite word_at_set, decide_False; [done|]. intros [-> Ep]. apply Hv.
      apply vpage_indices. split; [|done].
      pose proof (walk_pt_label _ _ _ _ _ _ Ht Hroot E) as Hl'. congruence.
  - intros root' v Hr Hne Hlow. unfold leaf_entry. rewrite Hw by done.
    destruct (walk_pt (m_ram s) root' v) as [pt'|] eqn:E; [|done].
    unfold r'. rewrite word_at_set, decide_False; [done|]. intros [-> Ep].
    pose proof (walk_pt_label _ _ _ _ _ _ Ht Hr E) as Hl'. rewrite Hl in Hl'.
    assert (owner root (virt_indices virt) = owner root' (virt_indices v) /\
      virt_indices virt = virt_indices v) as [Eo Ei] by (split; congruence).
    rewrite <- Ei in Eo. unfold owner, virt_indices in Eo.
    destruct (Z.leb_spec 256 (pml4_index virt)); [lia|]. by apply Hne.
Qed.
End lookup.

Section operations.
Context {S : Type} `{PageSourceLaws S}.

Lemma low_bits_aligned a : (4096 | a) -> has_bits a (PAGE_SIZE - 1) = false.
Proof.
  intros [k ->]. unfold has_bits. change (PAGE_SIZE - 1) with (Z.ones 12).
  rewrite Z.land_ones by lia. change (2 ^ 12) with 4096. by rewrite Z.mod_mul.
Qed.

Lemma low_bits_mod a : Z.land a (PAGE_SIZE - 1) = a mod 4096.
Proof. change (PAGE_SIZE - 1) with (Z.ones 12). by rewrite Z.land_ones. Qed.

(** What the two queries answer for an address. *)
Definition answers (v : option vas) (s : machine S) (virt phys flags : Z) : Prop :=
  paging_virt_to_phys v virt s = Ok (phys, s) /\ paging_get_flags v virt s = Ok (flags, s).

Definition entry_phys (e virt : Z) : Z :=
  if has_bits e PAGE_PRESENT then Z.lor (Z.land e PAGE_ADDR_MASK) (Z.land virt (PAGE_SIZE - 1)) else 0.
Definition entry_prot (e : Z) : Z := if has_bits e PAGE_PRESENT then Z.land e prot_bits else 0.

Lemma answers_eq v root s virt :
  vas_root v = Some root ->
  answers v s virt (entry_phys (leaf_entry (m_ram s) root virt) virt)
    (entry_prot (leaf_entry (m_ram s) root virt)).
Proof.
  intros Hv. unfold answers, paging_virt_to_phys, paging_get_flags. rewrite Hv.
  rewrite !(st_bind_ok _ _ _ _ _ (lookup_leaf_pure s root virt 0)).
  unfold leaf_entry, entry_phys, entry_prot.
  destruct (walk_pt (m_ram s) root virt) as [pt|]; [|done]. simpl.
  rewrite !(st_bind_ok (get_word pt (pt_index virt)) _ s (word_at (m_ram s) pt (pt_index virt)) s) by done.
  by destruct (has_bits (word_at (m_ram s) pt (pt_index virt)) PAGE_PRESENT).
Qed.

Lemma answers_iff v root s virt p f :
  vas_root v = Some root ->
  answers v s virt p f <->
    p = entry_phys (leaf_entry (m_ram s) root virt) virt /\ f = entry_prot (leaf_entry (m_ram s) root virt).
Proof.
  intros Hv. destruct (answers_eq v root s virt Hv) as [E1 E2]. unfold answers. rewrite E1, E2.
  split; [by intros [[= ->] [= ->]]|by intros [-> ->]].
Qed.

Lemma mapped_entry phys flags virt :
  0 <= phys < 2 ^ 52 -> (4096 | phys) ->
  entry_phys (Z.lor (Z.land phys PAGE_ADDR_MASK) (flags_to_pte flags)) virt = phys + virt mod 4096 /\
  entry_prot (Z.lor (Z.land phys PAGE_ADDR_MASK) (flags_to_pte flags)) = flags_to_pte flags.
Proof.
  intros Hp Ha. rewrite (addr_mask_id phys) by done.
  assert (has_bits (Z.lor phys (flags_to_pte flags)) PAGE_PRESENT = true) as Hpres.
  { rewrite present_bit, Z.lor_spec, <- (present_bit (flags_to_pte flags)), flags_to_pte_present.
    apply orb_true_r. }
  unfold entry_phys, entry_prot. rewrite Hpres, pte_addr by (try apply flags_to_pte_addr; done).
  split.
  - rewrite low_bits_mod. destruct Ha as [k ->].
    rewrite <- Z.add_lor_land. replace (Z.land (k * 4096) (virt mod 4096)) with 0; [lia|].
    symmetry. apply Z.bits_inj'. intros n Hn. rewrite Z.land_spec, Z.bits_0.
    change 4096 with (2 ^ 12) at 1 2. destruct (Z.lt_ge_cases n 12).
    + by rewrite Z.mul_pow2_bits_low.
    + rewrite Z.mod_pow2_bits_high by lia. apply andb_false_r.
  - rewrite Z.land_lor_distr_l, flags_to_pte_prot.
    assert (Z.land phys prot_bits = 0) as ->; [|done].
    rewrite <- (addr_mask_id phys Hp Ha), <- Z.land_assoc. apply Z.land_0_r.
Qed.


(** Unmapping a page makes it answer 0 to both queries, keeps the answers
    of every other page, and allocates nothing. *)
Theorem paging_unmap_page_spec v root (s : machine S) lab held virt :
  tree s lab held -> vas_root v = Some root -> lab !! root = Some (root, []) -> (4096 | virt) ->
  exists s', paging_unmap_page v virt s = Ok (tt, s') /\ tree s' lab held /\ m_src s' = m_src s /\
    (forall w, vpage w = vpage virt -> answers v s' w 0 0) /\
    (forall w p f, vpage w <> vpage virt -> answers v s w p f -> answers v s' w p f).
Proof.
  intros Ht Hv Hroot Hva. unfold paging_unmap_page. rewrite Hv, low_bits_aligned by done.
  rewrite (st_bind_ok _ _ _ _ _ (lookup_leaf_pure s root virt 0)).
  destruct (walk_pt (m_ram s) root virt) as [pt|] eqn:Hw; simpl.
  - destruct (set_leaf_entry s lab held pt root virt 0 Ht Hroot Hw) as (Ht2 & Hself & _).
    exists (with_ram (set_word pt (pt_index virt) 0 (m_ram s)) s). do 3 (split; [done|]). split.
    + intros w Hw'. apply (answers_iff _ root); [done|]. simpl. by rewrite Hself, decide_True by done.
    + intros w p f Hne. rewrite !(answers_iff _ root) by done. simpl.
      by rewrite Hself, decide_False by done.
  - exists s. do 3 (split; [done|]). split; [|done]. intros w Hw'.
    apply (answers_iff _ root); [done|]. unfold leaf_entry.
    assert (walk_pt (m_ram s) root w = walk_pt (m_ram s) root virt) as ->; [|by rewrite Hw].
    apply vpage_indices in Hw' as [Ei _]. injection Ei as E1 E2 E3.
    unfold walk_pt. by rewrite E1, E2, E3.
Qed.
End operations.

(** ** Creating an address space root *)

Section create.
Context {S : Type} `{PageSourceLaws S}.

Lemma copy_upper_ok n : forall i pt k (s : machine S), pt <> k ->
  exists s', copy_upper n i pt k s = Ok (tt, s') /\ m_src s' = m_src s /\ m_cr3 s' = m_cr3 s /\
    forall q j, word_at (m_ram s') q j =
      if decide (q = pt /\ i <= j < i + Z.of_nat n) then word_at (m_ram s) k j else word_at (m_ram s) q j.
Proof.
  induction n as [|n IH]; intros i pt k s Hne.
  { exists s. do 3 (split; [done|]). intros q j. by rewrite decide_False by lia. }
  destruct (IH (i + 1) pt k (with_ram (set_word pt i (word_at (m_ram s) k i) (m_ram s)) s) Hne) as
    (s' & Hr & Hs & Hc & Hw).
  exists s'. split; [exact Hr|]. do 2 (split; [done|]). intros q j. rewrite Hw. simpl.
  rewrite !word_at_set. rewrite (decide_False (P := k = pt /\ j = i)) by naive_solver.
  destruct (decide (q = pt)) as [->|].
  - destruct (decide (j = i)) as [->|].
    + rewrite decide_False, decide_True, decide_True by lia. done.
    + rewrite (decide_False (P := pt = pt /\ j = i)) by lia. repeat case_decide; try lia; done.
  - rewrite !decide_False by naive_solver. done.
Qed.

Lemma ptable_create_ok (s : machine S) lab held k :
  tree s lab held -> (forall kr, k = Some kr -> lab !! kr = Some (kr, [])) ->
  exists r s' lab' held', ptable_create k s = Ok (r, s') /\ tree s' lab' held' /\ lab ⊆ lab' /\
    (forall root v, lab !! root = Some (root, []) ->
      leaf_entry (m_ram s') root v = leaf_entry (m_ram s) root v) /\
    match r with
    | None => True
    | Some p => lab !! p = None /\ lab' !! p = Some (p, []) /\
        forall v, leaf_entry (m_ram s') p v =
          match k with
          | Some kr => if 256 <=? pml4_index v then leaf_entry (m_ram s) kr v else 0
          | None => 0
          end
    end.
Proof.
  intros Ht Hk. unfold ptable_create.
  destruct (alloc_table_ok s lab held Ht) as (p & s1 & Ha & Hc & Hres).
  destruct Hres as [(-> & (held' & Ht' & Hh') & Hg)|(Hp0 & Hpr & Hal & Hnh & Hok & Hram)].
  { exists None, s1, lab, held'. split; [by eapply st_bind_eq|]. split; [done|]. split; [done|].
    split; [|done]. intros root v Hr. by eapply grows_leaf. }
  assert (lab !! p = None) as Hlp.
  { destruct (lab !! p) eqn:E; [|done]. exfalso. apply Hnh, (tr_held _ _ _ Ht). eauto. }
  assert (exists s2, (match k with Some k => copy_upper 256 256 p k | None => mret tt end) s1 = Ok (tt, s2) /\
    m_src s2 = m_src s1 /\ forall q j, word_at (m_ram s2) q j =
      if decide (q = p) then match k with
        | Some kr => if decide (256 <= j < 512) then word_at (m_ram s) kr j else 0 | None => 0 end
      else word_at (m_ram s) q j) as (s2 & Hr2 & Hs2 & Hw).
  { destruct k as [kr|].
    - assert (p <> kr) as Hne by (intros ->; rewrite (Hk kr eq_refl) in Hlp; done).
      destruct (copy_upper_ok 256 256 p kr s1 Hne) as (s2 & Hr & Hs & _ & Hw).
      exists s2. split; [done|]. split; [done|]. intros q j. rewrite Hw, Hram, !word_at_zero.
      rewrite (decide_False (P := kr = p)) by done. repeat case_decide; try lia; naive_solver.
    - exists s1. split; [done|]. split; [done|]. intros q j. by rewrite Hram, word_at_zero. }
  assert (forall t o path i, lab !! t = Some (o, path) ->
    word_at (m_ram s2) t i = word_at (m_ram s) t i) as Hold.
  { intros t o path i Hl. rewrite Hw, decide_False by congruence. done. }
  assert (forall i c, 0 <= i < 512 -> walk_step (m_ram s2) p i = Some c ->
    exists kr, k = Some kr /\ 256 <= i /\ walk_step (m_ram s) kr i = Some c) as Hps.
  { intros i c Hi. unfold walk_step. rewrite Hw, decide_True by done.
    destruct k as [kr|]; [|done]. case_decide; [|done]. intros E. exists kr. split; [done|]. split; [lia|done]. }
  assert (tree s2 (<[p := (p, [])]> lab) (fun x => held x \/ x = p)) as Ht2.
  { split.
    - by rewrite Hs2.
    - intros t. rewrite lookup_insert. case_decide; [by right|]. left. by apply (tr_held _ _ _ Ht).
    - intros t o path. rewrite lookup_insert. case_decide; [by intros; subst|apply (tr_addr _ _ _ Ht)].
    - intros t o. rewrite lookup_insert. case_decide; [by intros [= ->]|apply (tr_root _ _ _ Ht)].
    - intros t o path i c. rewrite lookup_insert. case_decide as E.
      + intros [= <- <-] _ Hi Hc2. subst t. apply Hps in Hc2 as (kr & Ek & Hi2 & Hc2); [|done].
        pose proof (tr_step _ _ _ Ht _ _ _ _ _ (Hk _ Ek) ltac:(simpl; lia) Hi Hc2) as Hl2.
        rewrite lookup_insert_ne by congruence. rewrite Hl2. simpl.
        destruct (Z.leb_spec 256 i); [done|lia].
      + intros Hl Hlen Hi. unfold walk_step. rewrite (Hold _ _ _ _ Hl). intros Hc2.
        pose proof (tr_step _ _ _ Ht _ _ _ _ _ Hl Hlen Hi Hc2) as Hl2.
        rewrite lookup_insert_ne by congruence. done. }
  assert (grows lab (m_ram s) (m_ram s2)) as Hg.
  { intros t o path i Hl Hi. split; [intros _; by eapply Hold|]. intros _. left.
    unfold walk_step. by rewrite (Hold _ _ _ _ Hl). }
  exists (Some p), s2, (<[p := (p, [])]> lab), (fun x => held x \/ x = p). split.
  { eapply st_bind_eq; [exact Ha|]. cbv beta. destruct (Z.eqb_spec p 0); [done|]. cbv zeta.
    unfold table_virt. rewrite addr_mask_id by done. by eapply st_bind_eq. }
  split; [done|]. split; [by apply insert_subseteq|]. split; [intros root v Hr; by eapply grows_leaf|].
  split; [done|]. split; [apply lookup_insert_eq|]. intros v.
  assert (walk_step (m_ram s2) p (pml4_index v) = match k with
    | Some kr => if 256 <=? pml4_index v then walk_step (m_ram s) kr (pml4_index v) else None
    | None => None end) as Hstep.
  { unfold walk_step. rewrite Hw, decide_True by done. destruct k as [kr|]; [|done].
    pose proof (index_range v 39) as Hi. change (Z.land (v ≫ 39) 511) with (pml4_index v) in Hi.
    destruct (Z.leb_spec 256 (pml4_index v)); case_decide; try lia; done. }
  unfold leaf_entry at 1. unfold walk_pt. rewrite Hstep. destruct k as [kr|]; [|done].
  destruct (256 <=? pml4_index v); [|done].
  rewrite <- (grows_leaf s lab held (m_ram s2) kr v Ht Hg (Hk _ eq_refl)).
  unfold leaf_entry, walk_pt.
  assert (walk_step (m_ram s2) kr (pml4_index v) = walk_step (m_ram s) kr (pml4_index v)) as ->; [|done].
  unfold walk_step. by rewrite (Hold _ _ _ _ (Hk _ eq_refl)).
Qed.

(** A new root translates nothing in the lower half and shares the upper
    half of the kernel's; no existing address space changes. *)
Theorem ptable_create_spec (s : machine S) lab held k :
  tree s lab held -> (forall kr, k = Some kr -> lab !! kr = Some (kr, [])) ->
  exists r s' lab' held', ptable_create k s = Ok (r, s') /\ tree s' lab' held' /\ lab ⊆ lab' /\
    (forall root v, lab !! root = Some (root, []) ->
      leaf_entry (m_ram s') root v = leaf_entry (m_ram s) root v) /\
    match r with
    | None => True
    | Some p => lab !! p = None /\ lab' !! p = Some (p, []) /\
        forall v, leaf_entry (m_ram s') p v =
          match k with
          | Some kr => if 256 <=? pml4_index v then leaf_entry (m_ram s) kr v else 0
          | None => 0
          end
    end.
Proof. apply ptable_create_ok. Qed.

Lemma tree_empty r n c (src : S) held : ps_ok src held -> tree (mk_mach r n c src) ∅ held.
Proof. intros Hok. split; simpl; try done. by intros t [? ?]. Qed.
End create.

(** ** The buddy allocator as a page source *)

Definition pmm_db (s : pmm) : pfndb := mk_pfndb (pm_map s) (pm_max s) 0.

Definition pmm_alloc_phys : ST pmm ptr :=
  page ← pmm_alloc_page;
  match page with
  | None => mret None
  | Some p => phys ← gets (fun s => pfndb_page_to_phys (pmm_db s) (Some p)); mret (Some phys)
  end.

Definition pmm_release (phys : Z) : ST pmm unit :=
  page ← gets (fun s => pfndb_phys_to_page (pmm_db s) phys);
  match page with
  | None => mret tt
  | Some p => g ← get_page p; if PageReserved g then mret tt else pmm_free (Some p)
  end.

#[export] Instance pmm_source : PageSource pmm := {
  ps_alloc := pmm_alloc_phys;
  ps_release := pmm_release;
}.

Lemma pmm_alloc_phys_ok s blk : pmm_ok s blk -> pm_max s < 2 ^ 40 ->
  exists r s', pmm_alloc_phys s = Ok (r, s') /\
    match r with
    | None => s' = s
    | Some a => exists p blk', a = p * 4096 /\ 0 <= p <= pm_max s /\ loose blk p /\ allocated s blk 0 p s' blk'
    end.
Proof.
  intros Hok Hmax. destruct (pmm_alloc_ok s blk 0 Hok) as (r & s' & Hr & Hres); [done|].
  unfold pmm_alloc_phys, pmm_alloc_page. destruct r as [p|].
  2:{ destruct Hres as [-> _]. exists None, s. split; [by eapply st_bind_eq|done]. }
  destruct Hres as [blk' Hal].
  assert (0 <= p <= pm_max s) as Hp.
  { destruct (al_frames _ _ _ _ _ _ Hal p) as (g & Hg & _); [change (2 ^ 0) with 1; lia|].
    destruct (ok_inv _ _ (al_ok _ _ _ _ _ _ Hal)) as [fls' Hi'].
    rewrite <- (al_max _ _ _ _ _ _ Hal). apply (inv_dom _ _ _ Hi'). eauto. }
  assert (loose blk p) as Hlp by (apply (al_fresh _ _ _ _ _ _ Hal); change (2 ^ 0) with 1; lia).
  exists (Some (p * 4096)), s'. split; [|by exists p, blk'].
  eapply st_bind_eq; [exact Hr|]. cbv beta. unfold gets. eapply st_bind_eq; [reflexivity|].
  unfold mret, st_ret. do 3 f_equal.
  assert (pfndb_page_to_phys (pmm_db s') (Some p) = PFN_PHYS p) as ->.
  { unfold pfndb_page_to_phys, pfndb_getpfn, pmm_db. simpl. rewrite (al_max _ _ _ _ _ _ Hal).
    destruct (Z.ltb_spec p 0), (Z.ltb_spec (pm_max s) p); try lia. simpl.
    destruct (Z.eqb_spec p u64_max); [unfold u64_max in *; lia|done]. }
  rewrite PFN_PHYS_small by lia. done.
Qed.

Definition pmm_source_ok (s : pmm) (held : Z -> Prop) : Prop :=
  pm_max s < 2 ^ 40 /\ exists blk, pmm_ok s blk /\ forall x, held x -> ~ loose blk (x / 4096).

#[export] Instance pmm_source_laws : PageSourceLaws pmm.
Proof.
  refine {| ps_ok := pmm_source_ok |}.
  intros s held (Hmax & blk & Hok & Hheld).
  destruct (pmm_alloc_phys_ok s blk Hok Hmax) as (r & s' & Hr & Hres). exists r, s'. split; [exact Hr|].
  destruct r as [a|]; [|subst s'; split; [done|by exists blk]].
  destruct Hres as (p & blk' & -> & Hp & Hlp & Hal). split; [|split; [lia|split; [by exists p|]]].
  - intros Hh. apply (Hheld _ Hh). by rewrite Z.div_mul.
  - split; [by rewrite (al_max _ _ _ _ _ _ Hal)|]. exists blk'.
    split; [apply (al_ok _ _ _ _ _ _ Hal)|]. intros x Hx Hlo.
    apply (al_loose _ _ _ _ _ _ Hal) in Hlo as [Hlo Hn]. destruct Hx as [Hx| ->].
    + by apply (Hheld x).
    + rewrite Z.div_mul in Hn by done. change (2 ^ 0) with 1 in Hn. lia.
Defined.

(** ** Mapping ranges *)

Section ranges.
Context {S : Type} `{PageSourceLaws S}.

(** The entry of [w] once [n] pages from [virt] are mapped to [phys] on. *)
Definition range_entry (virt phys n f w old : Z) : Z :=
  let d := (vpage w - vpage virt) mod 2 ^ 36 in
  if d <? n then Z.lor (Z.land (phys + 4096 * d) PAGE_ADDR_MASK) f else old.

Lemma vpage_shift virt k : vpage (virt + 4096 * k) = (vpage virt + k) mod 2 ^ 36.
Proof.
  unfold vpage. rewrite !Z.shiftr_div_pow2 by lia. change (2 ^ 12) with 4096.
  rewrite (Z.mul_comm 4096), Z.div_add by done. by rewrite Zplus_mod_idemp_l.
Qed.

Lemma range_entry_compose virt phys a b f w old :
  0 <= a -> 0 <= b -> a + b <= 2 ^ 36 ->
  range_entry (virt + 4096 * a) (phys + 4096 * a) b f w (range_entry virt phys a f w old) =
  range_entry virt phys (a + b) f w old.
Proof.
  intros Ha Hb Hab. unfold range_entry. rewrite vpage_shift, Zminus_mod_idemp_r.
  set (D := vpage w - vpage virt). replace (vpage w - (vpage virt + a)) with (D - a) by lia.
  pose proof (Z.mod_pos_bound D (2 ^ 36) ltac:(done)) as Hd. set (d := D mod 2 ^ 36) in *.
  pose proof (Z.div_mod D (2 ^ 36) ltac:(done)) as E. fold d in E.
  destruct (Z.le_gt_cases a d).
  - assert ((D - a) mod 2 ^ 36 = d - a) as ->.
    { symmetry. apply (Z.mod_unique_pos _ _ (D / 2 ^ 36)); lia. }
    destruct (Z.ltb_spec (d - a) b), (Z.ltb_spec d (a + b)), (Z.ltb_spec d a); try lia.
    do 2 f_equal. lia.
  - assert ((D - a) mod 2 ^ 36 = d - a + 2 ^ 36) as ->.
    { symmetry. apply (Z.mod_unique_pos _ _ (D / 2 ^ 36 - 1)); lia. }
    destruct (Z.ltb_spec (d - a + 2 ^ 36) b), (Z.ltb_spec d (a + b)), (Z.ltb_spec d a); lia.
Qed.

Lemma range_entry_one virt phys f w old :
  range_entry virt phys 1 f w old =
    if decide (vpage w = vpage virt) then Z.lor (Z.land phys PAGE_ADDR_MASK) f else old.
Proof.
  unfold range_entry. pose proof (vpage_range w). pose proof (vpage_range virt).
  case_decide as E.
  - rewrite E, Z.sub_diag. change (0 mod 2 ^ 36) with 0. cbn [Z.ltb Z.compare]. by rewrite Z.mul_0_r, Z.add_0_r.
  - destruct (Z.ltb_spec ((vpage w - vpage virt) mod 2 ^ 36) 1) as [Hlt|]; [|done]. exfalso.
    pose proof (Z.mod_pos_bound (vpage w - vpage virt) (2 ^ 36) ltac:(done)).
    assert ((vpage w - vpage virt) mod 2 ^ 36 = 0) as E0 by lia.
    apply Z.mod_divide in E0 as [q Hq]; [|done]. nia.
Qed.

Lemma next_page_walk r root virt :
  pt_index virt < 511 ->
  walk_pt r root (virt + 4096) = walk_pt r root virt /\ pt_index (virt + 4096) = pt_index virt + 1.
Proof.
  intros Hi. pose proof (vpage_range virt) as Hr.
  assert (vpage (virt + 4096) = vpage virt + 1) as E.
  { pose proof (vpage_shift virt 1) as E. rewrite Z.mul_1_r in E. rewrite E.
    unfold pt_index in Hi. rewrite index_eq in Hi by lia. change (2 ^ (12 - 12)) with 1 in Hi.
    rewrite Z.div_1_r in Hi. apply Z.mod_small. split; [lia|].
    destruct (decide (vpage virt + 1 = 2 ^ 36)) as [E2|]; [|lia].
    replace (vpage virt) with (2 ^ 36 - 1) in Hi by lia. by vm_compute in Hi. }
  unfold pt_index in *. rewrite !index_eq in * by lia. change (2 ^ (12 - 12)) with 1 in *.
  rewrite !Z.div_1_r in *. rewrite E.
  pose proof (Z.div_mod (vpage virt) 512 ltac:(done)) as Ed.
  assert ((vpage virt + 1) mod 512 = vpage virt mod 512 + 1 /\ (vpage virt + 1) / 512 = vpage virt / 512) as [Em Eq].
  { pose proof (Z.mod_pos_bound (vpage virt) 512 ltac:(done)). split.
    - symmetry. apply (Z.mod_unique_pos _ _ (vpage virt / 512)); lia.
    - symmetry. apply (Z.div_unique_pos _ _ _ (vpage virt mod 512 + 1)); lia. }
  split; [|done]. unfold walk_pt, pml4_index, pdpt_index, pd_index. rewrite !index_eq by lia.
  rewrite E. change (2 ^ (39 - 12)) with (512 * (512 * 512)). change (2 ^ (30 - 12)) with (512 * 512).
  change (2 ^ (21 - 12)) with 512. rewrite <- !(Z.div_div _ 512) by done. by rewrite Eq.
Qed.

Lemma map_run_S n pt i virt phys f : map_run (S := S) (Datatypes.S n) pt i virt phys f =
  (upd_ram (set_word pt i (Z.lor (Z.land phys PAGE_ADDR_MASK) f)) ;;
   map_run n pt (i + 1) (u64 (virt + PAGE_SIZE)) (u64 (phys + PAGE_SIZE)) f).
Proof. done. Qed.

Lemma map_run_ok n : forall pt root virt phys f (s : machine S) lab held,
  tree s lab held -> lab !! root = Some (root, []) -> walk_pt (m_ram s) root virt = Some pt ->
  pt_index virt + Z.of_nat n <= 512 ->
  0 <= virt -> virt + 4096 * Z.of_nat n < 2 ^ 64 -> 0 <= phys -> phys + 4096 * Z.of_nat n < 2 ^ 64 ->
  exists s', map_run n pt (pt_index virt) virt phys f s =
      Ok ((virt + 4096 * Z.of_nat n, phys + 4096 * Z.of_nat n), s') /\ tree s' lab held /\
    forall w, leaf_entry (m_ram s') root w =
      range_entry virt phys (Z.of_nat n) f w (leaf_entry (m_ram s) root w).
Proof.
  induction n as [|n IH]; intros pt root virt phys f s lab held Ht Hroot Hpt Hi Hv Hv2 Hp Hp2.
  { exists s. rewrite !Z.mul_0_r, !Z.add_0_r. split; [done|]. split; [done|]. intros w.
    unfold range_entry. pose proof (Z.mod_pos_bound (vpage w - vpage virt) (2 ^ 36) ltac:(done)).
    destruct (Z.ltb_spec ((vpage w - vpage virt) mod 2 ^ 36) (Z.of_nat 0)); [lia|done]. }
  destruct (set_leaf_entry s lab held pt root virt (Z.lor (Z.land phys PAGE_ADDR_MASK) f) Ht Hroot Hpt) as
    (Ht1 & Hself & _).
  set (s1 := with_ram (set_word pt (pt_index virt) (Z.lor (Z.land phys PAGE_ADDR_MASK) f) (m_ram s)) s) in *.
  destruct (set_leaf_tree s lab held pt _ _ (pt_index virt) (Z.lor (Z.land phys PAGE_ADDR_MASK) f) Ht
    (walk_pt_label _ _ _ _ _ _ Ht Hroot Hpt)) as [_ Hwalk]; [done|].
  assert (walk_pt (m_ram s1) root virt = Some pt) as Hpt1.
  { destruct (Hwalk root virt) as [E|?]; [by rewrite <- Hpt|done]. }
  destruct n as [|n'].
  { exists s1. split; [|split; [done|]].
    - change (Ok ((u64 (virt + PAGE_SIZE), u64 (phys + PAGE_SIZE)), s1) =
        Ok ((virt + 4096 * Z.of_nat 1, phys + 4096 * Z.of_nat 1), s1)).
      unfold PAGE_SIZE. rewrite !u64_small by lia. do 3 f_equal; lia.
    - intros w. change (Z.of_nat 1) with 1. rewrite range_entry_one. apply Hself. }
  destruct (next_page_walk (m_ram s1) root virt ltac:(lia)) as [Hnw Hni].
  destruct (IH pt root (virt + 4096) (phys + 4096) f s1 lab held Ht1 Hroot) as (s' & Hr & Ht' & Hleaf);
    [by rewrite Hnw|lia..|].
  exists s'. split; [|split; [done|]].
  - rewrite map_run_S. eapply st_bind_eq; [reflexivity|]. cbv beta. unfold PAGE_SIZE.
    rewrite !u64_small by lia. rewrite Hni in Hr. etransitivity; [exact Hr|]. do 3 f_equal; lia.
  - intros w. rewrite Hleaf. simpl. rewrite Hself.
    change (if decide (vpage w = vpage virt) then Z.lor (Z.land phys PAGE_ADDR_MASK) f
      else leaf_entry (m_ram s) root w) with
      (if decide (vpage w = vpage virt) then Z.lor (Z.land phys PAGE_ADDR_MASK) f
      else leaf_entry (m_ram s) root w).
    rewrite <- range_entry_one.
    rewrite <- (Z.mul_1_r 4096) at 1 2. rewrite range_entry_compose; [f_equal; lia|lia|lia|].
    pose proof (index_range virt 12) as Hx. change (Z.land (virt ≫ 12) 511) with (pt_index virt) in Hx. lia.
Qed.
End ranges.

Section range.
Context {S : Type} `{PageSourceLaws S}.

Lemma map_range_loop_ok fuel : forall root pages virt phys fl f (s : machine S) lab held,
  tree s lab held -> lab !! root = Some (root, []) ->
  0 <= pages <= Z.of_nat fuel -> pages <= 2 ^ 36 ->
  0 <= virt -> virt + 4096 * pages < 2 ^ 64 -> 0 <= phys -> phys + 4096 * pages < 2 ^ 64 ->
  exists r s' lab' held' n, map_range_loop fuel root pages virt phys fl f s = Ok (r, s') /\
    tree s' lab' held' /\ lab ⊆ lab' /\ 0 <= n <= pages /\
    (r = 0 /\ n = pages \/ r = -1 /\ n < pages) /\
    forall w, leaf_entry (m_ram s') root w = range_entry virt phys n f w (leaf_entry (m_ram s) root w).
Proof.
  assert (forall virt phys f w old, range_entry virt phys 0 f w old = old) as Hz.
  { intros virt phys f w old. unfold range_entry.
    pose proof (Z.mod_pos_bound (vpage w - vpage virt) (2 ^ 36) ltac:(done)).
    destruct (Z.ltb_spec ((vpage w - vpage virt) mod 2 ^ 36) 0); [lia|done]. }
  induction fuel as [|fuel IH]; intros root pages virt phys fl f s lab held Ht Hroot Hpg Hmax Hv Hv2 Hp Hp2;
    cbn [map_range_loop]; (destruct (Z.ltb_spec 0 pages) as [Hpos|Hnp]; cbn [negb];
    [|exists 0, s, lab, held, 0; split; [done|]; split; [done|]; split; [done|]; split; [lia|];
      split; [left; split; [done|lia]|]; intros w; by rewrite Hz]).
  { lia. }
  destruct (lookup_pt_ok s lab held root virt fl Ht Hroot) as (r & s1 & lab1 & held1 & Hr & Hx & Hres).
  destruct r as [pt|].
  2:{ exists (-1), s1, lab1, held1, 0. split; [eapply st_bind_eq; [exact Hr|done]|].
      split; [apply Hx|]. split; [apply Hx|]. split; [lia|]. split; [right; split; [done|lia]|].
      intros w. rewrite Hz. by apply (ex_leaf _ _ _ _ _ _ Hx). }
  destruct Hres as [Hw Hl].
  assert (lab1 !! root = Some (root, [])) as Hroot1 by (eapply lookup_weaken; [done|apply Hx]).
  pose proof (index_range virt 12) as Hi. change (Z.land (virt ≫ 12) 511) with (pt_index virt) in Hi.
  set (run := if pages <? 512 - pt_index virt then pages else 512 - pt_index virt).
  assert (0 < run <= pages /\ pt_index virt + run <= 512) as [Hrun Hri].
  { unfold run. destruct (Z.ltb_spec pages (512 - pt_index virt)); lia. }
  destruct (map_run_ok (Z.to_nat run) pt root virt phys f s1 lab1 held1 (ex_tree _ _ _ _ _ _ Hx) Hroot1 Hw) as
    (s2 & Hr2 & Ht2 & Hleaf2); [lia..|].
  rewrite !Z2Nat.id in * by lia.
  destruct (IH root (pages - run) (virt + 4096 * run) (phys + 4096 * run) fl f s2 lab1 held1 Ht2 Hroot1) as
    (r & s3 & lab3 & held3 & n & Hr3 & Ht3 & Hl3 & Hn & Hres3 & Hleaf3); [lia..|].
  exists r, s3, lab3, held3, (run + n). split.
  { eapply st_bind_eq; [exact Hr|]. cbv beta zeta iota. eapply st_bind_eq; [exact Hr2|]. exact Hr3. }
  split; [done|]. split; [etransitivity; [apply Hx|done]|]. split; [lia|]. split.
  { destruct Hres3 as [[-> ->]|[-> ?]]; [left|right]; (split; [done|lia]). }
  intros w. rewrite Hleaf3, Hleaf2, range_entry_compose by lia. f_equal.
  by apply (ex_leaf _ _ _ _ _ _ Hx).
Qed.

Lemma paging_map_range_ok v root (s : machine S) lab held virt phys size flags :
  tree s lab held -> vas_root v = Some root -> lab !! root = Some (root, []) ->
  (4096 | virt) -> (4096 | phys) -> 0 <= virt -> 0 <= phys -> 0 < size <= 2 ^ 48 ->
  virt + size <= 2 ^ 64 - 8192 -> phys + size <= 2 ^ 52 - 4096 ->
  exists r s' lab' held' n, paging_map_range v virt phys size flags s = Ok (r, s') /\
    tree s' lab' held' /\ lab ⊆ lab' /\
    (r = 0 /\ n = (size + 4095) / 4096 \/ r = -1 /\ 0 <= n < (size + 4095) / 4096) /\
    (forall k w, 0 <= k < n -> vpage w = vpage (virt + 4096 * k) ->
      answers v s' w (phys + 4096 * k + w mod 4096) (flags_to_pte flags)) /\
    (forall w p f, (forall k, 0 <= k < n -> vpage w <> vpage (virt + 4096 * k)) ->
      answers v s w p f -> answers v s' w p f).
Proof.
  intros Ht Hv Hroot Hva Hpa Hv0 Hp0 Hsz Hv2 Hp2. unfold paging_map_range.
  rewrite align_up_pfn by lia. set (pages := (size + 4095) / 4096).
  pose proof (Z.div_mod (size + 4095) 4096 ltac:(done)) as Ed. fold pages in Ed.
  pose proof (Z.mod_pos_bound (size + 4095) 4096 ltac:(done)).
  destruct (Z.eqb_spec size 0) as [|_]; [lia|].
  rewrite Hv, !low_bits_aligned by done. cbn [orb].
  destruct (map_range_loop_ok (Z.to_nat pages) root pages virt phys flags (flags_to_pte flags) s lab held
    Ht Hroot) as (r & s' & lab' & held' & n & Hr & Ht' & Hl & Hn & Hres & Hleaf); [lia..|].
  exists r, s', lab', held', n. split; [exact Hr|]. split; [done|]. split; [done|]. split.
  { destruct Hres as [?|[? ?]]; [by left|right; split; [done|lia]]. }
  split.
  - intros k w Hk Hw. apply (answers_iff _ root); [done|]. rewrite Hleaf. unfold range_entry.
    assert ((vpage w - vpage virt) mod 2 ^ 36 = k) as ->.
    { rewrite Hw, vpage_shift, Zminus_mod_idemp_l. replace (vpage virt + k - vpage virt) with k by lia.
      apply Z.mod_small. lia. }
    destruct (Z.ltb_spec k n); [|lia].
    destruct (mapped_entry (phys + 4096 * k) flags w) as [-> ->]; [lia| |done].
    apply Z.divide_add_r; [done|]. by exists k; lia.
  - intros w p f Hout. rewrite !(answers_iff _ root) by done. rewrite Hleaf. unfold range_entry.
    destruct (Z.ltb_spec ((vpage w - vpage virt) mod 2 ^ 36) n) as [Hlt|]; [|done]. exfalso.
    pose proof (Z.mod_pos_bound (vpage w - vpage virt) (2 ^ 36) ltac:(done)).
    apply (Hout ((vpage w - vpage virt) mod 2 ^ 36)); [lia|].
    rewrite vpage_shift, Zplus_mod_idemp_r. replace (vpage virt + (vpage w - vpage virt)) with (vpage w) by lia.
    symmetry. apply Z.mod_small, vpage_range.
Qed.

(** [paging_map_range] always returns. After 0 the pages of the range are
    mapped, in order, to consecutive frames with the flags given; after -1 (no
    memory for a table) a prefix of them is. All other pages keep their
    translation and flags. *)
Theorem paging_map_range_spec v root (s : machine S) lab held virt phys size flags :
  tree s lab held -> vas_root v = Some root -> lab !! root = Some (root, []) ->
  (4096 | virt) -> (4096 | phys) -> 0 <= virt -> 0 <= phys -> 0 < size <= 2 ^ 48 ->
  virt + size <= 2 ^ 64 - 8192 -> phys + size <= 2 ^ 52 - 4096 ->
  exists r s' lab' held' n, paging_map_range v virt phys size flags s = Ok (r, s') /\
    tree s' lab' held' /\ lab ⊆ lab' /\
    (r = 0 /\ n = (size + 4095) / 4096 \/ r = -1 /\ 0 <= n < (size + 4095) / 4096) /\
    (forall k w, 0 <= k < n -> vpage w = vpage (virt + 4096 * k) ->
      answers v s' w (phys + 4096 * k + w mod 4096) (flags_to_pte flags)) /\
    (forall w p f, (forall k, 0 <= k < n -> vpage w <> vpage (virt + 4096 * k)) ->
      answers v s w p f -> answers v s' w p f).
Proof. apply paging_map_range_ok. Qed.
End range.

(** ** Witnesses: an address space over the buddy allocator *)

Definition demo_machine : machine pmm := mk_mach ∅ 0 0 demo_pmm.
Definition demo_space : machine pmm :=
  match ptable_create None demo_machine with Ok (_, s) => s | _ => demo_machine end.
Definition demo_vas : option vas := Some (mk_vas (Some 16384) [] 4096).

Lemma demo_tree : tree demo_machine ∅ (fun _ => False).
Proof.
  apply tree_empty. split; [by vm_compute|]. destruct demo_ok as [blk Hok]. exists blk.
  split; [exact Hok|done].
Qed.

Lemma ptable_create_spec_witness :
  exists s', ptable_create None demo_machine = Ok (Some 16384, s') /\
    leaf_entry (m_ram s') 16384 4096 = 0.
Proof.
  destruct (ptable_create_spec demo_machine ∅ _ None demo_tree ltac:(done)) as
    (r & s' & lab' & held' & Hr & _ & _ & _ & Hres).
  assert (r = Some 16384) as ->.
  { apply (f_equal (fun o => match o with Ok (r, _) => r | _ => None end)) in Hr.
    rewrite <- Hr. by vm_compute. }
  exists s'. split; [exact Hr|]. destruct Hres as (_ & _ & Hv). apply Hv.
Defined.

Lemma demo_space_tree :
  exists lab held, tree demo_space lab held /\ lab !! 16384 = Some (16384, []).
Proof.
  destruct (ptable_create_ok demo_machine ∅ _ None demo_tree ltac:(done)) as
    (r & s' & lab' & held' & Hr & Ht & _ & _ & Hres).
  assert (r = Some 16384) as ->.
  { apply (f_equal (fun o => match o with Ok (r, _) => r | _ => None end)) in Hr.
    rewrite <- Hr. by vm_compute. }
  assert (demo_space = s') as -> by (unfold demo_space; by rewrite Hr).
  exists lab', held'. split; [exact Ht|apply Hres].
Qed.


Lemma paging_unmap_page_spec_witness :
  exists s', paging_unmap_page demo_vas 8192 demo_space = Ok (tt, s') /\
    paging_virt_to_phys demo_vas 8192 s' = Ok (0, s').
Proof.
  destruct demo_space_tree as (lab & held & Ht & Hroot).
  destruct (paging_unmap_page_spec demo_vas 16384 demo_space lab held 8192 Ht eq_refl Hroot) as
    (s' & Hr & _ & _ & Hun & _); [by exists 2|].
  exists s'. split; [exact Hr|]. apply (Hun 8192 eq_refl).
Defined.

Lemma paging_map_range_spec_witness :
  exists s', paging_map_range demo_vas 8192 0 8192 3 demo_space = Ok (0, s') /\
    paging_virt_to_phys demo_vas 12289 s' = Ok (4097, s').
Proof.
  destruct demo_space_tree as (lab & held & Ht & Hroot).
  destruct (paging_map_range_spec demo_vas 16384 demo_space lab held 8192 0 8192 3 Ht eq_refl Hroot) as
    (r & s' & lab' & held' & n & Hr & _ & _ & Hres & Hmap & _); [by exists 2|by exists 0|lia..|].
  assert (r = 0) as ->.
  { apply (f_equal (fun o => match o with Ok (r, _) => r | _ => 1 end)) in Hr.
    rewrite <- Hr. by vm_compute. }
  exists s'. split; [exact Hr|]. destruct Hres as [[_ ->]|[Hbad _]]; [|clear -Hbad; lia].
  apply (Hmap 1 12289); [vm_compute; split; [intros E; discriminate|reflexivity]|by vm_compute].
Defined.
