(* ===== verification/Vmm.v ===== *)
(** Address spaces and their areas, [kernel/src/mm/vmm.c] and [mm/vmm.h]. The
    state is the machine of the page tables over the buddy allocator; an area
    list is the list of its nodes in order. The kernel heap is a parameter:
    [kzalloc size] says whether an object of that size could be had. *)
From S2P Require Import Prelude Dll Pfndb Pmm Paging.
Import Pte.

Definition VAD_PROT_MASK : Z := prot_bits.
Definition VAD_ANONYMOUS : Z := 2 ^ 12.
Definition VAD_FIXED : Z := 2 ^ 13.
Definition VAD_MAPPED : Z := 2 ^ 14.
Definition VAD_SHARED : Z := 2 ^ 15.
Definition VAS_USER_START : Z := 0x1000.
Definition VAS_USER_END : Z := 0x00007FFFFFFFFFFF.
Definition sizeof_vad : Z := 32.
Definition sizeof_vas : Z := 24.

Definition set_list (l : list vad) (v : vas) : vas := mk_vas (vas_pml4 v) l (vas_user_start v).
Definition set_user_start (a : Z) (v : vas) : vas := mk_vas (vas_pml4 v) (vas_list v) a.
Definition set_vad_flags (f : Z) (a : vad) : vad := mk_vad (vad_start a) (vad_end a) f.

(** ** The area list *)

Fixpoint vad_insert_list (l : list vad) (a : vad) : list vad :=
  match l with
  | [] => [a]
  | c :: l' => if vad_start c <? vad_start a then c :: vad_insert_list l' a else a :: l
  end.
Definition vad_insert (v : vas) (a : vad) : vas := set_list (vad_insert_list (vas_list v) a) v.

Fixpoint find_free_loop (l : list vad) (length base : Z) : Z * Z :=
  let end_ := u64 (base + length) in
  match l with
  | [] => (base, end_)
  | a :: l =>
      if end_ <=? vad_start a then (base, end_)
      else if base <? vad_end a then find_free_loop l length (PAGE_ALIGN_UP (vad_end a))
      else find_free_loop l length base
  end.

Definition vas_find_free (v : vas) (hint length : Z) : Z :=
  let '(base, end_) := find_free_loop (vas_list v) length (PAGE_ALIGN_UP hint) in
  if (VAS_USER_END <? end_) || (end_ <? base) then 0 else base.

Fixpoint overlaps_loop (l : list vad) (start end_ : Z) : bool :=
  match l with
  | [] => false
  | a :: l => if end_ <=? vad_start a then false
      else if start <? vad_end a then true else overlaps_loop l start end_
  end.
Definition vas_overlaps (v : vas) (start end_ : Z) : bool := overlaps_loop (vas_list v) start end_.

Fixpoint find_loop (l : list vad) (addr : Z) : option vad :=
  match l with
  | [] => None
  | a :: l => if (vad_start a <=? addr) && (addr <? vad_end a) then Some a else find_loop l addr
  end.
Definition vas_find (v : option vas) (addr : Z) : option vad :=
  v ≫= fun v => find_loop (vas_list v) addr.

Fixpoint range_mapped_loop (l : list vad) (pos end_ : Z) : option Z :=
  match l with
  | [] => Some pos
  | a :: l =>
      if negb (pos <? end_) then Some pos
      else if vad_end a <=? pos then range_mapped_loop l pos end_
      else if pos <? vad_start a then None
      else range_mapped_loop l (if pos <? vad_end a then vad_end a else pos) end_
  end.

Definition vas_range_mapped (v : option vas) (start length : Z) : bool :=
  match v with
  | None => false
  | Some v =>
      if length =? 0 then false else
      let start := PAGE_ALIGN_DOWN start in
      let length := PAGE_ALIGN_UP length in
      let end_ := u64 (start + length) in
      if end_ <? start then false else
      match range_mapped_loop (vas_list v) start end_ with
      | None => false
      | Some pos => end_ <=? pos
      end
  end.

Definition vas_add (v : vas) (a : vad) : Z * vas :=
  if vad_end a <=? vad_start a then (-1, v) else
  if has_bits (vad_start a) (PAGE_SIZE - 1) || has_bits (vad_end a) (PAGE_SIZE - 1) then (-1, v) else
  if vas_overlaps v (vad_start a) (vad_end a) then (-1, v) else
  (0, vad_insert v a).

Section vmm.
Context (kzalloc : Z -> ST (machine pmm) bool) (kfree : ST (machine pmm) unit).
Abbreviation M := (ST (machine pmm)).

Definition vad_alloc (start end_ flags : Z) : M (option vad) :=
  ok ← kzalloc sizeof_vad;
  mret (if ok : bool then Some (mk_vad start end_ flags) else None).

Definition vad_clone_segment (a : vad) (start end_ : Z) : M (option vad) :=
  vad_alloc start end_ (vad_flags a).

(** The loop of [vad_remove_range]: the new list. *)
Fixpoint remove_loop (old : list vad) (start end_ : Z) : M (list vad) :=
  match old with
  | [] => mret []
  | a :: next =>
      if (vad_end a <=? start) || (end_ <=? vad_start a)
      then rest ← remove_loop next start end_; mret (a :: rest)
      else
        left ← (if vad_start a <? start then
                  l ← vad_clone_segment a (vad_start a) start;
                  match l with Some l => mret [l] | None => st_panic end
                else mret []);
        right ← (if end_ <? vad_end a then
                  r ← vad_clone_segment a end_ (vad_end a);
                  match r with Some r => mret [r] | None => st_panic end
                else mret []);
        kfree ;;
        rest ← remove_loop next start end_;
        mret (left ++ right ++ rest)
  end.
Definition vad_remove_range (v : vas) (start end_ : Z) : M vas :=
  l ← remove_loop (vas_list v) start end_; mret (set_list l v).

(** Page descriptors, through the allocator's state. *)
Definition phys_to_page (phys : Z) : M ptr := on_src (gets (fun s => pfndb_phys_to_page (pmm_db s) phys)).
Definition page_of (p : Z) : M page := on_src (get_page p).
Definition page_upd (p : Z) (f : page -> page) : M unit := on_src (upd_page p f).

(** [!page || PageReserved(page) || PagePoisoned(page)]. *)
Definition page_foreign (p : ptr) : M bool :=
  match p with
  | None => mret true
  | Some p => g ← page_of p; mret (PageReserved g || PagePoisoned g)
  end.

(** The iterations of [for (va = start; va < end; va += PAGE_SIZE)]. *)
Definition page_steps (start end_ : Z) : nat := Z.to_nat ((end_ - start + 4095) / 4096).

Fixpoint uncommit_loop (n : nat) (v : option vas) (va end_ : Z) : M unit :=
  if negb (va <? end_) then mret tt else
  match n with
  | O => st_timeout
  | S n =>
      phys ← paging_virt_to_phys v va;
      (if phys =? 0 then paging_unmap_page v va else
         page ← phys_to_page (PAGE_ALIGN_DOWN phys);
         paging_unmap_page v va ;;
         foreign ← page_foreign page;
         if foreign : bool then mret tt else on_src (pmm_free page)) ;;
      uncommit_loop n v (u64 (va + PAGE_SIZE)) end_
  end.
Definition uncommit_range (v : option vas) (start end_ : Z) : M unit :=
  uncommit_loop (page_steps start end_) v start end_.

Fixpoint commit_loop (n : nat) (v : option vas) (va end_ flags : Z) : M Z :=
  if negb (va <? end_) then mret 0 else
  match n with
  | O => st_timeout
  | S n =>
      page ← on_src pmm_alloc_page;
      match page with
      | None => mret (-1)
      | Some p =>
          phys ← on_src (gets (fun s => pfndb_page_to_phys (pmm_db s) (Some p)));
          upd_ram (fun r => <[phys := ∅]> r) ;;
          r ← paging_map_page v va phys flags;
          if negb (r =? 0) then on_src (pmm_free (Some p)) ;; mret (-1)
          else commit_loop n v (u64 (va + PAGE_SIZE)) end_ flags
      end
  end.
Definition commit_anon (v : option vas) (a : vad) : M Z :=
  commit_loop (page_steps (vad_start a) (vad_end a)) v (vad_start a) (vad_end a)
    (Z.land (vad_flags a) VAD_PROT_MASK).

Definition remap_page_flags (v : option vas) (va new_flags : Z) : M Z :=
  phys ← paging_virt_to_phys v va;
  if phys =? 0 then mret 0 else
  paging_unmap_page v va ;;
  paging_map_page v va (PAGE_ALIGN_DOWN phys) new_flags.

Definition vas_create (kernel_pml4 : ptr) (pt : ptr) : M (option vas) :=
  ok ← kzalloc sizeof_vas;
  if negb ok then mret None else
  pml4 ← match pt with Some p => mret (Some p) | None => ptable_create kernel_pml4 end;
  match pml4 with
  | None => kfree ;; mret None
  | Some p => mret (Some (mk_vas (Some p) [] VAS_USER_START))
  end.

Definition vas_adopt (existing_pml4 : ptr) : M (option vas) :=
  match existing_pml4 with
  | None => mret None
  | Some p =>
      ok ← kzalloc sizeof_vas;
      if negb ok then mret None else mret (Some (mk_vas (Some p) [] VAS_USER_START))
  end.

Fixpoint destroy_vads (l : list vad) (v : vas) : M unit :=
  match l with
  | [] => mret tt
  | a :: l => uncommit_range (Some v) (vad_start a) (vad_end a) ;; kfree ;; destroy_vads l v
  end.

(** [is_kernel] is [vas == kernel_vas]. *)
Definition vas_destroy (is_kernel : bool) (v : option vas) : M unit :=
  match v with
  | None => mret tt
  | Some v =>
      if is_kernel then mret tt else
      destroy_vads (vas_list v) v ;;
      ptable_destroy (vas_pml4 v) ;;
      kfree
  end.

(** The choice of a base, shared by [vas_map_anon] and [vas_map_phys]; [None]
    is a return of 0. [length] is already rounded. *)
Definition choose_base (v : vas) (hint length flags : Z) : option Z :=
  if has_bits flags VAD_FIXED then
    let base := PAGE_ALIGN_DOWN hint in
    let end_ := u64 (base + length) in
    if (VAS_USER_END <? end_) || (end_ <? base) then None
    else if vas_overlaps v base end_ then None else Some base
  else
    let base := vas_find_free v (if hint =? 0 then vas_user_start v else hint) length in
    if base =? 0 then None else Some base.

Definition vas_map_anon (v : option vas) (hint length flags : Z) : M (Z * option vas) :=
  match v with
  | None => mret (0, v)
  | Some w =>
      if length =? 0 then mret (0, v) else
      let length := PAGE_ALIGN_UP length in
      match choose_base w hint length flags with
      | None => mret (0, v)
      | Some base =>
          vad ← vad_alloc base (u64 (base + length)) (Z.lor (Z.lor flags VAD_ANONYMOUS) VAD_MAPPED);
          match vad with
          | None => mret (0, v)
          | Some vad =>
              r ← commit_anon v vad;
              if negb (r =? 0) then
                uncommit_range v base (u64 (base + length)) ;; kfree ;; mret (0, v)
              else mret (base, Some (set_user_start (u64 (base + length)) (vad_insert w vad)))
          end
      end
  end.

(** The mapping loop of [vas_map_phys]. *)
Fixpoint map_phys_loop (n : nat) (v : option vas) (base phys off length flags : Z) : M bool :=
  if negb (off <? length) then mret true else
  match n with
  | O => st_timeout
  | S n =>
      let map_phys := u64 (phys + off) in
      page ← phys_to_page map_phys;
      foreign ← page_foreign page;
      (match page with
       | Some p => if foreign : bool then mret tt else page_upd p page_ref_inc
       | None => mret tt
       end) ;;
      r ← paging_map_page v (u64 (base + off)) map_phys (Z.land flags VAD_PROT_MASK);
      if negb (r =? 0) then uncommit_range v base (u64 (base + off)) ;; mret false
      else map_phys_loop n v base phys (u64 (off + PAGE_SIZE)) length flags
  end.

Definition vas_map_phys (v : option vas) (hint phys length flags : Z) : M (Z * option vas) :=
  match v with
  | None => mret (0, v)
  | Some w =>
      if length =? 0 then mret (0, v) else
      let length := PAGE_ALIGN_UP length in
      let phys := PAGE_ALIGN_DOWN phys in
      match choose_base w hint length flags with
      | None => mret (0, v)
      | Some base =>
          ok ← map_phys_loop (page_steps 0 length) v base phys 0 length flags;
          if negb ok then mret (0, v) else
          vad ← vad_alloc base (u64 (base + length)) (Z.lor (Z.land flags (not64 VAD_ANONYMOUS)) VAD_MAPPED);
          match vad with
          | None => uncommit_range v base (u64 (base + length)) ;; mret (0, v)
          | Some vad => mret (base, Some (vad_insert w vad))
          end
      end
  end.

(** The areas that meet a range, clipped to it: the loops of [vas_unmap] and
    [vas_protect] over the list. *)
Fixpoint unmap_loop (l : list vad) (v : option vas) (start end_ : Z) : M unit :=
  match l with
  | [] => mret tt
  | a :: l =>
      if negb (vad_start a <? end_) then mret tt else
      (if vad_end a <=? start then mret tt else
         let lo := if start <? vad_start a then vad_start a else start in
         let hi := if vad_end a <? end_ then vad_end a else end_ in
         uncommit_range v lo hi) ;;
      unmap_loop l v start end_
  end.

Definition vas_unmap (v : option vas) (start length : Z) : M (Z * option vas) :=
  match v with
  | None => mret (0, v)
  | Some w =>
      if length =? 0 then mret (0, v) else
      let start := PAGE_ALIGN_DOWN start in
      let length := PAGE_ALIGN_UP length in
      let end_ := u64 (start + length) in
      unmap_loop (vas_list w) v start end_ ;;
      w ← vad_remove_range w start end_;
      mret (0, Some w)
  end.

Fixpoint remap_loop (n : nat) (v : option vas) (va hi new_flags : Z) : M Z :=
  if negb (va <? hi) then mret 0 else
  match n with
  | O => st_timeout
  | S n =>
      r ← remap_page_flags v va new_flags;
      if negb (r =? 0) then mret (-1) else remap_loop n v (u64 (va + PAGE_SIZE)) hi new_flags
  end.

(** The result is the value returned and the areas, some with new flags. *)
Fixpoint protect_loop (l : list vad) (v : option vas) (start end_ new_flags : Z) : M (Z * list vad) :=
  match l with
  | [] => mret (0, [])
  | a :: l' =>
      if negb (vad_start a <? end_) then mret (0, l) else
      if vad_end a <=? start
      then r ← protect_loop l' v start end_ new_flags; mret (r.1, a :: r.2)
      else
        let lo := if start <? vad_start a then vad_start a else start in
        let hi := if vad_end a <? end_ then vad_end a else end_ in
        r ← remap_loop (page_steps lo hi) v lo hi new_flags;
        if negb (r =? 0) then mret (-1, l) else
        let a := set_vad_flags (Z.lor (Z.land (vad_flags a) (not64 VAD_PROT_MASK)) new_flags) a in
        r ← protect_loop l' v start end_ new_flags;
        mret (r.1, a :: r.2)
  end.

Definition vas_protect (v : option vas) (start length new_flags : Z) : M (Z * option vas) :=
  match v with
  | None => mret (0, v)
  | Some w =>
      if length =? 0 then mret (0, v) else
      let start := PAGE_ALIGN_DOWN start in
      let length := PAGE_ALIGN_UP length in
      let end_ := u64 (start + length) in
      r ← protect_loop (vas_list w) v start end_ (Z.land new_flags VAD_PROT_MASK);
      mret (r.1, Some (set_list r.2 w))
  end.

Definition vas_handle_page_fault (v : option vas) (addr err : Z) : M Z :=
  match v with
  | None => mret (-1)
  | Some _ =>
      let va := PAGE_ALIGN_DOWN addr in
      match vas_find v va with
      | None => mret (-1)
      | Some vad =>
          if negb (has_bits err 2) || negb (has_bits err 1) then mret (-1) else
          if negb (has_bits (vad_flags vad) PAGE_WRITE) || has_bits (vad_flags vad) VAD_SHARED
          then mret (-1) else
          phys ← paging_virt_to_phys v va;
          if phys =? 0 then mret (-1) else
          old_page ← phys_to_page (PAGE_ALIGN_DOWN phys);
          match old_page with
          | None => mret (-1)
          | Some old =>
              g ← page_of old;
              if negb (PageCow g) then mret (-1) else
              let flags := Z.land (vad_flags vad) VAD_PROT_MASK in
              if page_ref_count g <=? 1 then
                page_upd old (ClearPageFlag Pfndb.PAGE_COW) ;;
                remap_page_flags v va flags
              else
                new_page ← on_src pmm_alloc_page;
                match new_page with
                | None => mret (-1)
                | Some new =>
                    new_phys ← on_src (gets (fun s => pfndb_page_to_phys (pmm_db s) (Some new)));
                    upd_ram (fun r => <[new_phys := page_words r (PAGE_ALIGN_DOWN phys)]> r) ;;
                    paging_unmap_page v va ;;
                    on_src (pmm_free old_page) ;;
                    r ← paging_map_page v va new_phys flags;
                    if negb (r =? 0) then on_src (pmm_free (Some new)) ;; mret (-1) else mret 0
                end
          end
      end
  end.

Fixpoint access_loop (n : nat) (v : option vas) (va end_ : Z) (write : bool) : M Z :=
  if negb (va <? end_) then mret 0 else
  match n with
  | O => st_timeout
  | S n =>
      flags ← paging_get_flags v va;
      if negb (has_bits flags PAGE_PRESENT) then mret (-1) else
      ok ← (if write && negb (has_bits flags PAGE_WRITE) then
              r ← vas_handle_page_fault v va 3;
              if negb (r =? 0) then mret false else
              flags ← paging_get_flags v va;
              mret (has_bits flags PAGE_PRESENT && has_bits flags PAGE_WRITE)
            else mret true);
      if negb ok then mret (-1) else access_loop n v (u64 (va + PAGE_SIZE)) end_ write
  end.

Definition vas_user_access_ok (v : option vas) (addr len : Z) (write : bool) : M Z :=
  match v with
  | None => mret (-1)
  | Some _ =>
      if (addr <? VAS_USER_START) || (VAS_USER_END <=? addr) then mret (-1) else
      if VAS_USER_END - addr <? len then mret (-1) else
      if len =? 0 then mret 0 else
      let start := PAGE_ALIGN_DOWN addr in
      let end_ := PAGE_ALIGN_UP (u64 (addr + len)) in
      access_loop (page_steps start end_) v start end_ write
  end.

(** [vas_clone]: one page of an area; [false] is a failure that has already
    dropped the reference it took. *)
Definition clone_page (src dst : option vas) (va prot : Z) (shared : bool) : M bool :=
  src_phys ← paging_virt_to_phys src va;
  if src_phys =? 0 then mret true else
  page ← phys_to_page (PAGE_ALIGN_DOWN src_phys);
  foreign ← page_foreign page;
  match page with
  | Some p =>
      if foreign : bool then
        r ← paging_map_page dst va (PAGE_ALIGN_DOWN src_phys) prot; mret (r =? 0)
      else
        page_upd p page_ref_inc ;;
        (if has_bits prot PAGE_WRITE && negb shared then
           let cow_flags := Z.land prot (not64 PAGE_WRITE) in
           page_upd p (SetPageFlag Pfndb.PAGE_COW) ;;
           r1 ← remap_page_flags src va cow_flags;
           ok ← (if negb (r1 =? 0) then mret false else
                   r2 ← paging_map_page dst va (PAGE_ALIGN_DOWN src_phys) cow_flags; mret (r2 =? 0));
           if negb ok then on_src (pmm_free page) ;; mret false else mret true
         else
           r ← paging_map_page dst va (PAGE_ALIGN_DOWN src_phys) prot;
           if negb (r =? 0) then on_src (pmm_free page) ;; mret false else mret true)
  | None => r ← paging_map_page dst va (PAGE_ALIGN_DOWN src_phys) prot; mret (r =? 0)
  end.

Fixpoint clone_pages (n : nat) (src dst : option vas) (va end_ prot : Z) (shared : bool) : M bool :=
  if negb (va <? end_) then mret true else
  match n with
  | O => st_timeout
  | S n =>
      ok ← clone_page src dst va prot shared;
      if negb ok then mret false else clone_pages n src dst (u64 (va + PAGE_SIZE)) end_ prot shared
  end.

Fixpoint clone_vads (l : list vad) (src : vas) (dst : vas) : M (option vas) :=
  match l with
  | [] => mret (Some dst)
  | a :: l =>
      copy ← vad_alloc (vad_start a) (vad_end a) (vad_flags a);
      match copy with
      | None => vas_destroy false (Some dst) ;; mret None
      | Some copy =>
          let dst := vad_insert dst copy in
          ok ← clone_pages (page_steps (vad_start a) (vad_end a)) (Some src) (Some dst)
                 (vad_start a) (vad_end a) (Z.land (vad_flags a) VAD_PROT_MASK)
                 (has_bits (vad_flags a) VAD_SHARED);
          if negb ok then vas_destroy false (Some dst) ;; mret None
          else clone_vads l src dst
      end
  end.

Definition vas_clone (kernel_pml4 : ptr) (src : option vas) : M (option vas) :=
  match src with
  | None => mret None
  | Some src =>
      dst ← vas_create kernel_pml4 None;
      match dst with
      | None => mret None
      | Some dst => clone_vads (vas_list src) src (set_user_start (vas_user_start src) dst)
      end
  end.
End vmm.

(** ** Well-formed area lists: page-aligned, not empty, in order, disjoint *)

Definition vad_ok (a : vad) : Prop :=
  0 <= vad_start a < vad_end a /\ vad_end a < 2 ^ 64 /\ (4096 | vad_start a) /\ (4096 | vad_end a).

Fixpoint vads_ok (lo : Z) (l : list vad) : Prop :=
  match l with
  | [] => True
  | a :: l => vad_ok a /\ lo <= vad_start a /\ vads_ok (vad_end a) l
  end.

Definition inside (a : vad) (x : Z) : Prop := vad_start a <= x < vad_end a.
Definition covers (l : list vad) (x : Z) : Prop := exists a, a ∈ l /\ inside a x.

Lemma covers_nil x : ~ covers [] x.
Proof. intros (a & Ha & _). by apply elem_of_nil in Ha. Qed.

Lemma covers_cons a l x : covers (a :: l) x <-> inside a x \/ covers l x.
Proof.
  unfold covers. setoid_rewrite elem_of_cons. split.
  - intros (b & [->|Hb] & Hx); eauto.
  - intros [Hx|(b & Hb & Hx)]; eauto.
Qed.

Lemma covers_app l1 l2 x : covers (l1 ++ l2) x <-> covers l1 x \/ covers l2 x.
Proof.
  unfold covers. setoid_rewrite elem_of_app. split.
  - intros (b & [Hb|Hb] & Hx); eauto.
  - intros [(b & Hb & Hx)|(b & Hb & Hx)]; eauto.
Qed.

Lemma vads_ok_weaken lo lo' l : lo' <= lo -> vads_ok lo l -> vads_ok lo' l.
Proof. destruct l; simpl; [done|]. intros ? (? & ? & ?). split; [done|]. split; [lia|done]. Qed.

Lemma covers_above lo l x : vads_ok lo l -> covers l x -> lo <= x.
Proof.
  revert lo. induction l as [|a l IH]; intros lo Hok; [intros H; by apply covers_nil in H|].
  destruct Hok as (Ha & Hlo & Hl). rewrite covers_cons. unfold inside. intros [?|Hx]; [lia|].
  specialize (IH _ Hl Hx). destruct Ha as (? & _). lia.
Qed.

Lemma vads_ok_ok lo l a : vads_ok lo l -> a ∈ l -> vad_ok a /\ lo <= vad_start a.
Proof.
  revert lo. induction l as [|b l IH]; intros lo Hok Ha; [by apply elem_of_nil in Ha|].
  destruct Hok as (Hb & Hlo & Hl). apply elem_of_cons in Ha as [->|Ha]; [done|].
  destruct (IH _ Hl Ha) as [? ?]. split; [done|]. destruct Hb as (? & _). lia.
Qed.

(** *** Insertion *)

Lemma insert_ok a l : forall lo,
  vads_ok lo l -> vad_ok a -> lo <= vad_start a -> (forall x, inside a x -> ~ covers l x) ->
  vads_ok lo (vad_insert_list l a).
Proof.
  induction l as [|c l IH]; intros lo Hok Ha Hlo Hd; simpl; [done|].
  destruct Hok as (Hc & Hlc & Hl). destruct (Hc) as (Hc1 & _). destruct (Ha) as (Ha1 & _).
  assert (forall x, inside a x -> ~ inside c x /\ ~ covers l x) as Hdd.
  { intros x Hx. specialize (Hd x Hx). rewrite covers_cons in Hd. tauto. }
  destruct (Z.ltb_spec (vad_start c) (vad_start a)) as [Hlt|Hge]; simpl.
  - split; [done|]. split; [done|]. apply IH; try done; [|intros x Hx; by apply Hdd].
    apply Z.nlt_ge. intros Hlt2. apply (proj1 (Hdd (vad_start a) ltac:(unfold inside; lia))).
    unfold inside. lia.
  - split; [done|]. split; [done|]. split; [done|]. split; [|done].
    apply Z.nlt_ge. intros Hlt2. apply (proj1 (Hdd (vad_start c) ltac:(unfold inside; lia))).
    unfold inside. lia.
Qed.

Lemma insert_covers a l x : covers (vad_insert_list l a) x <-> inside a x \/ covers l x.
Proof.
  induction l as [|c l IH]; simpl; [by rewrite covers_cons|].
  destruct (vad_start c <? vad_start a); rewrite ?covers_cons, ?IH; rewrite ?covers_cons; tauto.
Qed.

Lemma overlaps_spec l : forall lo start end_,
  vads_ok lo l -> start < end_ ->
  overlaps_loop l start end_ = true <-> exists x, start <= x < end_ /\ covers l x.
Proof.
  induction l as [|a l IH]; intros lo start end_ Hok Hlt; simpl.
  { split; [done|]. intros (x & _ & Hx). by apply covers_nil in Hx. }
  destruct Hok as (Ha & Hlo & Hl). destruct (Ha) as (Ha1 & _).
  destruct (Z.leb_spec end_ (vad_start a)) as [Hle|Hgt].
  { split; [done|]. intros (x & Hx & Hc). apply covers_cons in Hc as [Hc|Hc].
    - unfold inside in Hc. lia.
    - pose proof (covers_above _ _ _ Hl Hc). lia. }
  destruct (Z.ltb_spec start (vad_end a)) as [Hlt2|Hge2].
  { split; [|done]. intros _. exists (Z.max start (vad_start a)). split; [lia|].
    rewrite covers_cons. left. unfold inside. lia. }
  rewrite (IH _ _ _ Hl Hlt). split; intros (x & Hx & Hc); exists x; (split; [done|]).
  - rewrite covers_cons. by right.
  - apply covers_cons in Hc as [Hc|Hc]; [unfold inside in Hc; lia|done].
Qed.

(** [vas_add] accepts an area exactly when it is not empty, page-aligned
    and clear of every area of the list; it then adds exactly the addresses of
    that area and keeps the list in order and disjoint. Otherwise it returns -1
    and changes nothing. *)
Theorem vas_add_spec v a :
  vads_ok 0 (vas_list v) -> 0 <= vad_start a -> 0 <= vad_end a < 2 ^ 64 ->
  exists r v', vas_add v a = (r, v') /\
  (r = 0 \/ r = -1) /\
  (r = 0 <-> vad_ok a /\ forall x, inside a x -> ~ covers (vas_list v) x) /\
  vads_ok 0 (vas_list v') /\
  (r = 0 -> forall x, covers (vas_list v') x <-> inside a x \/ covers (vas_list v) x) /\
  (r = -1 -> v' = v).
Proof.
  intros Hok H0 He. unfold vas_add.
  destruct (Z.leb_spec (vad_end a) (vad_start a)) as [Hle|Hlt].
  { exists (-1), v. split; [done|]. split; [by right|]. split; [|done]. split; [done|].
    intros [[? _] _]. lia. }
  assert (forall z, has_bits z (PAGE_SIZE - 1) = negb (z mod 4096 =? 0)) as Hb.
  { intros z. unfold has_bits. by rewrite low_bits_mod. }
  assert (forall z, z mod 4096 = 0 <-> (4096 | z)) as Hm by (intros z; by apply Z.mod_divide).
  rewrite !Hb.
  destruct (Z.eqb_spec (vad_start a mod 4096) 0) as [E1|N1]; cbn [negb orb].
  2:{ exists (-1), v. split; [done|]. split; [by right|]. split; [|done]. split; [done|]. intros [(_ & _ & Hd & _) _].
      exfalso. by apply N1, Hm. }
  destruct (Z.eqb_spec (vad_end a mod 4096) 0) as [E2|N2]; cbn [negb].
  2:{ exists (-1), v. split; [done|]. split; [by right|]. split; [|done]. split; [done|]. intros [(_ & _ & _ & Hd) _].
      exfalso. by apply N2, Hm. }
  assert (vad_ok a) as Ha by (split; [lia|split; [lia|split; by apply Hm]]).
  pose proof (overlaps_spec _ 0 (vad_start a) (vad_end a) Hok Hlt) as Ho. unfold vas_overlaps.
  destruct (overlaps_loop (vas_list v) (vad_start a) (vad_end a)).
  { exists (-1), v. split; [done|]. split; [by right|]. split; [|done]. split; [done|]. intros [_ Hn].
    destruct (proj1 Ho eq_refl) as (x & Hx & Hc). by destruct (Hn x). }
  assert (forall x, inside a x -> ~ covers (vas_list v) x) as Hn.
  { intros x Hx Hc. assert (false = true) as E; [|done]. apply Ho. by exists x. }
  exists 0, (vad_insert v a). split; [done|].
  split; [by left|]. split; [by split|]. split; [by apply insert_ok|]. split; [|done].
  intros _ x. apply insert_covers.
Qed.

(** *** Searching *)

(** The addresses the search may choose: a page-aligned [c] whose whole range
    is clear. *)
Definition clear (l : list vad) (c len : Z) : Prop := forall x, c <= x < c + len -> ~ covers l x.

Lemma align_up_id a : 0 <= a <= 2 ^ 64 - 4096 -> (4096 | a) -> PAGE_ALIGN_UP a = a.
Proof.
  intros Ha [k ->]. rewrite align_up by done. replace (k * 4096 + 4095) with (4095 + k * 4096) by lia.
  rewrite Z.div_add by done. change (4095 / 4096) with 0. lia.
Qed.

Lemma find_free_loop_ok l : forall lo len base,
  vads_ok lo l -> Forall (fun a => vad_end a <= 2 ^ 62) l -> 0 < len <= 2 ^ 62 ->
  0 <= base <= 2 ^ 62 -> (4096 | base) ->
  exists b, find_free_loop l len base = (b, b + len) /\ base <= b <= 2 ^ 62 /\ (4096 | b) /\
    clear l b len /\ forall c, base <= c -> clear l c len -> b <= c.
Proof.
  induction l as [|a l IH]; intros lo len base Hok Hb62 Hlen Hb Hal; simpl; rewrite u64_small by lia.
  { exists base. split; [done|]. split; [lia|]. split; [done|]. split; [intros x _; apply covers_nil|]. lia. }
  destruct Hok as (Ha & Hlo & Hl). destruct (Ha) as (Ha1 & _ & _ & Hae).
  apply Forall_cons in Hb62 as [Ha62 Hl62].
  destruct (Z.leb_spec (base + len) (vad_start a)) as [Hle|Hgt].
  { exists base. split; [done|]. split; [lia|]. split; [done|]. split; [|intros; lia].
    intros x Hx Hc. apply covers_cons in Hc as [Hc|Hc]; [unfold inside in Hc; lia|].
    pose proof (covers_above _ _ _ Hl Hc). lia. }
  assert (forall c, clear (a :: l) c len -> clear l c len) as Hcl.
  { intros c Hc x Hx Hx2. apply (Hc x Hx), covers_cons. by right. }
  destruct (Z.ltb_spec base (vad_end a)) as [Hlt|Hge].
  - rewrite align_up_id by (done || lia).
    destruct (IH _ len (vad_end a) Hl Hl62 Hlen ltac:(lia) Hae) as (b & Hr & Hbb & Hba & Hfree & Hmin).
    exists b. split; [done|]. split; [lia|]. split; [done|]. split.
    + intros x Hx Hc. apply covers_cons in Hc as [Hc|Hc]; [unfold inside in Hc; lia|]. by apply (Hfree x).
    + intros c Hc Hfc. apply Hmin; [|by apply Hcl]. apply Z.nlt_ge. intros Hlt2.
      apply (Hfc (Z.max c (vad_start a))); [lia|]. apply covers_cons. left. unfold inside. lia.
  - destruct (IH _ len base Hl Hl62 Hlen Hb Hal) as (b & Hr & Hbb & Hba & Hfree & Hmin).
    exists b. split; [done|]. split; [lia|]. split; [done|]. split.
    + intros x Hx Hc. apply covers_cons in Hc as [Hc|Hc]; [unfold inside in Hc; lia|]. by apply (Hfree x).
    + intros c Hc Hfc. apply Hmin; [done|by apply Hcl].
Qed.

(** [vas_find_free] is first fit: what it returns is page-aligned, not
    below the hint, inside the user half and clear of every area, and no lower
    page-aligned address at or above the hint is; with a hint it returns 0
    only when there is no such address. *)
Theorem vas_find_free_spec v hint len :
  vads_ok 0 (vas_list v) -> Forall (fun a => vad_end a <= 2 ^ 62) (vas_list v) ->
  0 <= hint <= 2 ^ 61 -> 0 < len <= 2 ^ 62 ->
  let b := vas_find_free v hint len in
  (b <> 0 -> (4096 | b) /\ hint <= b /\ b + len <= VAS_USER_END /\ clear (vas_list v) b len) /\
  (forall c, (4096 | c) -> hint <= c -> 0 < c -> c + len <= VAS_USER_END ->
    clear (vas_list v) c len -> b <= c /\ (0 < hint -> b <> 0)).
Proof.
  intros Hok H62 Hh Hl b.
  assert (PAGE_ALIGN_UP hint = (hint + 4095) / 4096 * 4096) as Ea by (apply align_up; lia).
  pose proof (Z.div_mod (hint + 4095) 4096 ltac:(done)) as Ed.
  pose proof (Z.mod_pos_bound (hint + 4095) 4096 ltac:(done)) as Em.
  destruct (find_free_loop_ok (vas_list v) 0 len (PAGE_ALIGN_UP hint) Hok H62 Hl) as
    (b0 & Hr & Hb & Hba & Hfree & Hmin); [lia|by rewrite Ea; eexists|].
  unfold b, vas_find_free. rewrite Hr. unfold VAS_USER_END.
  assert (forall c, (4096 | c) -> hint <= c -> PAGE_ALIGN_UP hint <= c) as Hup.
  { intros c [k ->] Hc. rewrite Ea. apply Z.mul_le_mono_nonneg_r; [done|].
    apply Z.lt_succ_r, Z.div_lt_upper_bound; lia. }
  destruct (Z.ltb_spec 0x7FFFFFFFFFFF (b0 + len)) as [Hbig|Hfit]; cbn [orb].
  - split; [done|]. intros c Hca Hhc Hc0 Hcl Hcc.
    pose proof (Hmin c (Hup c Hca Hhc) Hcc). lia.
  - destruct (Z.ltb_spec (b0 + len) b0) as [?|_]; [lia|]. split.
    + intros _. split; [done|]. split; [lia|]. split; [lia|done].
    + intros c Hca Hhc Hc0 Hcl Hcc. split; [by apply Hmin; [apply Hup|]|].
      intros Hpos. assert (0 < (hint + 4095) / 4096) by (apply Z.div_str_pos; lia). lia.
Qed.

(** *** Coverage *)

Lemma range_mapped_loop_ok l : forall lo pos end_,
  vads_ok lo l ->
  (exists p, range_mapped_loop l pos end_ = Some p /\ end_ <= p) <->
  forall x, pos <= x < end_ -> covers l x.
Proof.
  induction l as [|a l IH]; intros lo pos end_ Hok; simpl.
  { split.
    - intros (p & [= ->] & Hp) x Hx. lia.
    - intros Hall. exists pos. split; [done|]. apply Z.nlt_ge. intros Hlt.
      by destruct (covers_nil pos (Hall pos ltac:(lia))). }
  destruct Hok as (Ha & Hlo & Hl). destruct (Ha) as (Ha1 & _).
  destruct (Z.ltb_spec pos end_) as [Hlt|Hge]; cbn [negb].
  2:{ split; [intros _ x Hx; lia|]. intros _. by exists pos. }
  destruct (Z.leb_spec (vad_end a) pos) as [Hle|Hgt].
  { rewrite (IH _ pos end_ Hl). split; intros Hall x Hx; specialize (Hall x Hx).
    - rewrite covers_cons. by right.
    - apply covers_cons in Hall as [Hi|?]; [unfold inside in Hi; lia|done]. }
  destruct (Z.ltb_spec pos (vad_start a)) as [Hlt2|Hge2].
  { split; [by intros (p & ? & _)|]. intros Hall. exfalso.
    specialize (Hall pos ltac:(lia)). apply covers_cons in Hall as [Hi|Hc]; [unfold inside in Hi; lia|].
    pose proof (covers_above _ _ _ Hl Hc). lia. }
  destruct (Z.ltb_spec pos (vad_end a)) as [_|?]; [|lia].
  rewrite (IH _ (vad_end a) end_ Hl). split; intros Hall x Hx.
  - rewrite covers_cons. destruct (decide (x < vad_end a)); [left; unfold inside; lia|].
    right. apply Hall. lia.
  - specialize (Hall x ltac:(lia)). apply covers_cons in Hall as [Hi|?]; [unfold inside in Hi; lia|done].
Qed.

Lemma find_loop_ok l : forall lo addr, vads_ok lo l ->
  match find_loop l addr with
  | Some a => a ∈ l /\ inside a addr
  | None => ~ covers l addr
  end.
Proof.
  induction l as [|a l IH]; intros lo addr Hok; simpl; [apply covers_nil|].
  destruct Hok as (Ha & Hlo & Hl). specialize (IH _ addr Hl). unfold inside in *.
  destruct (Z.leb_spec (vad_start a) addr); cbn [andb].
  - destruct (Z.ltb_spec addr (vad_end a)).
    + split; [left|lia].
    + destruct (find_loop l addr); [split; [right|]; apply IH|].
      intros [Hi|Hc]%covers_cons; [unfold inside in Hi; lia|done].
  - destruct (find_loop l addr); [split; [right|]; apply IH|].
    intros [Hi|Hc]%covers_cons; [unfold inside in Hi; lia|done].
Qed.

(** [vas_find] returns the area that holds the address, and
    [vas_range_mapped] is true exactly when every address of the pages the
    range touches lies in some area. *)
Theorem vas_queries_spec v addr start len :
  vads_ok 0 (vas_list v) -> 0 <= start < 2 ^ 62 -> 0 < len < 2 ^ 62 ->
  match vas_find (Some v) addr with
  | Some a => a ∈ vas_list v /\ inside a addr
  | None => ~ covers (vas_list v) addr
  end /\
  (vas_range_mapped (Some v) start len = true <->
    forall x, PAGE_ALIGN_DOWN start <= x < PAGE_ALIGN_DOWN start + PAGE_ALIGN_UP len ->
      covers (vas_list v) x).
Proof.
  intros Hok Hs Hl. split; [by apply (find_loop_ok _ 0)|].
  unfold vas_range_mapped. destruct (Z.eqb_spec len 0) as [?|_]; [lia|].
  rewrite align_down, align_up by lia.
  pose proof (Z.div_mod (len + 4095) 4096 ltac:(done)). pose proof (Z.mod_pos_bound (len + 4095) 4096 ltac:(done)).
  pose proof (Z.div_mod start 4096 ltac:(done)). pose proof (Z.mod_pos_bound start 4096 ltac:(done)).
  assert (0 <= start / 4096) by (apply Z.div_pos; lia).
  rewrite u64_small by lia.
  destruct (Z.ltb_spec (start / 4096 * 4096 + (len + 4095) / 4096 * 4096) (start / 4096 * 4096)) as [?|_]; [lia|].
  rewrite <- (range_mapped_loop_ok _ 0 _ _ Hok).
  destruct (range_mapped_loop (vas_list v) (start / 4096 * 4096)
    (start / 4096 * 4096 + (len + 4095) / 4096 * 4096)) as [p|].
  - destruct (Z.leb_spec (start / 4096 * 4096 + (len + 4095) / 4096 * 4096) p).
    + split; [eauto|done].
    + split; [done|]. intros (q & [= <-] & ?). lia.
  - split; [done|]. by intros (q & ? & _).
Qed.

(** *** Removing a range *)

Section heap.
Context (kzalloc : Z -> ST (machine pmm) bool) (kfree : ST (machine pmm) unit).

(** What [vad_remove_range] makes of one area. *)
Definition cut_vad (a : vad) (start end_ : Z) : list vad :=
  if (vad_end a <=? start) || (end_ <=? vad_start a) then [a] else
  (if vad_start a <? start then [mk_vad (vad_start a) start (vad_flags a)] else []) ++
  (if end_ <? vad_end a then [mk_vad end_ (vad_end a) (vad_flags a)] else []).

Definition cut_list (l : list vad) (start end_ : Z) : list vad :=
  l ≫= fun a => cut_vad a start end_.

Lemma remove_loop_ok l start end_ : forall s,
  (forall n s, exists s', kzalloc n s = Ok (true, s')) -> (forall s, exists s', kfree s = Ok (tt, s')) ->
  exists s', remove_loop kzalloc kfree l start end_ s = Ok (cut_list l start end_, s').
Proof.
  intros s Hk Hf. revert s. induction l as [|a l IH]; intros s; [by exists s|].
  cbn [remove_loop]. change (cut_list (a :: l) start end_) with (cut_vad a start end_ ++ cut_list l start end_).
  unfold cut_vad. destruct ((vad_end a <=? start) || (end_ <=? vad_start a)).
  { destruct (IH s) as [s' Hr]. exists s'. by eapply st_bind_eq. }
  assert (forall x y s, exists s', (l0 ← vad_clone_segment kzalloc a x y;
    match l0 with Some l1 => mret [l1] | None => st_panic end) s = Ok ([mk_vad x y (vad_flags a)], s')) as Hseg.
  { intros x y s0. destruct (Hk sizeof_vad s0) as [s1 Hs1]. exists s1.
    unfold vad_clone_segment, vad_alloc. eapply st_bind_eq; [by eapply st_bind_eq|done]. }
  assert (forall (b : bool) x y s, exists s', (if b then (l0 ← vad_clone_segment kzalloc a x y;
    match l0 with Some l1 => mret [l1] | None => st_panic end) else mret []) s =
    Ok (if b then [mk_vad x y (vad_flags a)] else [], s')) as Hopt.
  { intros [] x y s0; [apply Hseg|by exists s0]. }
  destruct (Hopt (vad_start a <? start) (vad_start a) start s) as [s1 H1].
  destruct (Hopt (end_ <? vad_end a) end_ (vad_end a) s1) as [s2 H2].
  destruct (Hf s2) as [s3 H3]. destruct (IH s3) as [s4 H4]. exists s4.
  eapply st_bind_eq; [exact H1|]. cbv beta. eapply st_bind_eq; [exact H2|]. cbv beta.
  eapply st_bind_eq; [exact H3|]. cbv beta. eapply st_bind_eq; [exact H4|]. by rewrite <- app_assoc.
Qed.

Lemma cut_vad_covers a start end_ x :
  start <= end_ -> covers (cut_vad a start end_) x <-> inside a x /\ ~ start <= x < end_.
Proof.
  intros Hse. unfold cut_vad, inside.
  destruct (Z.leb_spec (vad_end a) start); cbn [orb].
  { rewrite covers_cons. unfold inside. split; [intros [?|Hc]; [lia|by apply covers_nil in Hc]|left; lia]. }
  destruct (Z.leb_spec end_ (vad_start a)); cbn [orb].
  { rewrite covers_cons. unfold inside. split; [intros [?|Hc]; [lia|by apply covers_nil in Hc]|left; lia]. }
  rewrite covers_app.
  assert (forall b y z, covers (if b : bool then [mk_vad y z (vad_flags a)] else []) x <->
    b = true /\ y <= x < z) as Hopt.
  { intros [] y z; [rewrite covers_cons; unfold inside; simpl|]; split.
    - intros [?|Hc]; [done|by apply covers_nil in Hc].
    - intros [_ ?]. by left.
    - intros Hc. by apply covers_nil in Hc.
    - by intros [? _]. }
  rewrite !Hopt, !Z.ltb_lt. lia.
Qed.

Lemma cut_list_covers l start end_ x :
  start <= end_ -> covers (cut_list l start end_) x <-> covers l x /\ ~ start <= x < end_.
Proof.
  intros Hse. induction l as [|a l IH].
  - split; [intros Hc|intros [Hc _]]; by apply covers_nil in Hc.
  - change (cut_list (a :: l) start end_) with (cut_vad a start end_ ++ cut_list l start end_).
    rewrite covers_app, covers_cons, IH, cut_vad_covers by done. tauto.
Qed.

Lemma vads_ok_app l1 l2 lo hi :
  vads_ok lo l1 -> Forall (fun a => vad_end a <= hi) l1 -> lo <= hi -> vads_ok hi l2 -> vads_ok lo (l1 ++ l2).
Proof.
  revert lo. induction l1 as [|a l1 IH]; intros lo H1 Hf Hlh H2; simpl.
  - by eapply vads_ok_weaken.
  - destruct H1 as (Ha & Hl & H1). apply Forall_cons in Hf as [Hae Hf].
    split; [done|]. split; [done|]. by apply IH.
Qed.

Lemma cut_list_ok l start end_ : forall lo,
  vads_ok lo l -> start <= end_ -> (4096 | start) -> (4096 | end_) -> vads_ok lo (cut_list l start end_).
Proof.
  induction l as [|a l IH]; intros lo Hok Hse Hs He; [done|].
  destruct Hok as (Ha & Hlo & Hl).
  change (cut_list (a :: l) start end_) with (cut_vad a start end_ ++ cut_list l start end_).
  destruct (Ha) as (Ha1 & Ha2 & Ha3 & Ha4).
  apply (vads_ok_app _ _ _ (vad_end a)); [| |lia|by apply IH].
  - unfold cut_vad. destruct (Z.leb_spec (vad_end a) start); cbn [orb]; [done|].
    destruct (Z.leb_spec end_ (vad_start a)); cbn [orb]; [done|].
    destruct (Z.ltb_spec (vad_start a) start), (Z.ltb_spec end_ (vad_end a)); simpl; unfold vad_ok; simpl;
      repeat split; (done || lia).
  - unfold cut_vad. destruct (Z.leb_spec (vad_end a) start); cbn [orb]; [by constructor|].
    destruct (Z.leb_spec end_ (vad_start a)); cbn [orb]; [by constructor|].
    destruct (Z.ltb_spec (vad_start a) start), (Z.ltb_spec end_ (vad_end a)); simpl;
      rewrite ?Forall_cons, ?Forall_nil; simpl; repeat split; (done || lia).
Qed.


(** *** User pointers *)

Lemma access_loop_ok n v root s end_ : forall va,
  vas_root v = Some root -> 0 <= va -> end_ <= 2 ^ 62 -> end_ - va <= 4096 * Z.of_nat n -> (4096 | va) ->
  exists r, access_loop n v va end_ false s = Ok (r, s) /\ (r = 0 \/ r = -1) /\
    (r = 0 <-> forall k, 0 <= k -> va + 4096 * k < end_ ->
      has_bits (entry_prot (leaf_entry (m_ram s) root (va + 4096 * k))) PAGE_PRESENT = true).
Proof.
  induction n as [|n IH]; intros va Hv Hva Hend Hn Hal; cbn [access_loop];
    (destruct (Z.ltb_spec va end_) as [Hlt|Hge]; cbn [negb];
     [|exists 0; split; [done|]; split; [by left|]; split; [intros _ k; lia|done]]).
  { lia. }
  destruct (answers_eq v root s va Hv) as [_ Hfl].
  rewrite (st_bind_ok _ _ _ _ _ Hfl). cbv beta.
  destruct (has_bits (entry_prot (leaf_entry (m_ram s) root va)) PAGE_PRESENT) eqn:Hp; cbn [negb].
  2:{ exists (-1). split; [done|]. split; [by right|]. split; [done|]. intros Hall.
      specialize (Hall 0 ltac:(lia) ltac:(lia)). rewrite Z.mul_0_r, Z.add_0_r in Hall. congruence. }
  cbn [andb]. rewrite (st_bind_ok _ _ _ true s) by done. cbn [negb].
  unfold PAGE_SIZE. rewrite u64_small by lia.
  destruct (IH (va + 4096) Hv) as (r & Hr & Hrr & Hiff); [lia|lia|lia|by apply Z.divide_add_r; [|exists 1]|].
  exists r. split; [exact Hr|]. split; [done|]. rewrite Hiff. split.
  - intros Hall k Hk Hke. destruct (decide (k = 0)) as [->|]; [by rewrite Z.mul_0_r, Z.add_0_r|].
    specialize (Hall (k - 1) ltac:(lia) ltac:(lia)).
    by replace (va + 4096 + 4096 * (k - 1)) with (va + 4096 * k) in Hall by lia.
  - intros Hall k Hk Hke. specialize (Hall (k + 1) ltac:(lia) ltac:(lia)).
    by replace (va + 4096 * (k + 1)) with (va + 4096 + 4096 * k) in Hall by lia.
Qed.

(** [vas_user_access_ok] for reading always returns, never changes the
    machine, and returns 0 exactly when the range lies in the user half without
    wrapping and (when it is not empty) every page it touches is present in the
    page tables. *)
Theorem vas_user_access_ok_spec w root addr len s :
  vas_pml4 w = Some root -> 0 <= addr < 2 ^ 64 -> 0 <= len < 2 ^ 64 ->
  exists r, vas_user_access_ok (Some w) addr len false s = Ok (r, s) /\ (r = 0 \/ r = -1) /\
    (r = 0 <-> VAS_USER_START <= addr < VAS_USER_END /\ addr + len <= VAS_USER_END /\
      (0 < len -> forall p, (4096 | p) -> p < addr + len -> addr < p + 4096 ->
        has_bits (entry_prot (leaf_entry (m_ram s) root p)) PAGE_PRESENT = true)).
Proof.
  intros Hw Ha Hl. unfold vas_user_access_ok, VAS_USER_START, VAS_USER_END.
  destruct (Z.ltb_spec addr 0x1000); cbn [orb].
  { exists (-1). split; [done|]. split; [by right|]. split; [done|lia]. }
  destruct (Z.leb_spec 0x7FFFFFFFFFFF addr); cbn [orb].
  { exists (-1). split; [done|]. split; [by right|]. split; [done|lia]. }
  destruct (Z.ltb_spec (0x7FFFFFFFFFFF - addr) len).
  { exists (-1). split; [done|]. split; [by right|]. split; [done|lia]. }
  destruct (Z.eqb_spec len 0) as [->|Hnz].
  { exists 0. split; [done|]. split; [by left|]. split; [intros _|done]. split; [lia|]. split; [lia|lia]. }
  rewrite align_down, u64_small, align_up by lia.
  set (start := addr / 4096 * 4096). set (end_ := (addr + len + 4095) / 4096 * 4096).
  pose proof (Z.div_mod addr 4096 ltac:(done)) as E1. pose proof (Z.mod_pos_bound addr 4096 ltac:(done)).
  pose proof (Z.div_mod (addr + len + 4095) 4096 ltac:(done)) as E2.
  pose proof (Z.mod_pos_bound (addr + len + 4095) 4096 ltac:(done)).
  pose proof (Z.div_mod (end_ - start + 4095) 4096 ltac:(done)).
  pose proof (Z.mod_pos_bound (end_ - start + 4095) 4096 ltac:(done)).
  assert (0 <= addr / 4096) by (apply Z.div_pos; lia).
  destruct (access_loop_ok (page_steps start end_) (Some w) root s end_ start) as (r & Hr & Hrr & Hiff);
    [done|lia|lia|unfold page_steps; lia|by eexists|].
  exists r. split; [exact Hr|]. split; [done|]. rewrite Hiff. split.
  - intros Hall. split; [lia|]. split; [lia|]. intros _ p [q ->] Hp1 Hp2.
    specialize (Hall (q - addr / 4096)). replace (start + 4096 * (q - addr / 4096)) with (q * 4096) in Hall by lia.
    apply Hall; lia.
  - intros (_ & _ & Hall) k Hk Hke. apply Hall; [lia| |lia|lia].
    exists (addr / 4096 + k). lia.
Qed.
End heap.

(** *** A request that wraps around *)

Lemma overlaps_empty l b : ~ covers l b -> overlaps_loop l b b = false.
Proof.
  induction l as [|a l IH]; intros Hn; simpl; [done|]. rewrite covers_cons in Hn.
  destruct (Z.leb_spec b (vad_start a)); [done|].
  destruct (Z.ltb_spec b (vad_end a)); [exfalso; apply Hn; left; unfold inside; lia|].
  apply IH. tauto.
Qed.

(** A fixed anonymous mapping of more than [2^64 - 4096] bytes is not
    refused: the length rounds up to 0, so the call maps nothing, records an
    empty area at the hint and returns its address as a success. *)
Theorem vas_map_anon_wraps kzalloc kfree w hint len flags s s' :
  kzalloc sizeof_vad s = Ok (true, s') -> has_bits flags VAD_FIXED = true ->
  2 ^ 64 - 4096 < len < 2 ^ 64 -> VAS_USER_START <= hint <= VAS_USER_END ->
  let base := PAGE_ALIGN_DOWN hint in
  ~ covers (vas_list w) base ->
  vas_map_anon kzalloc kfree (Some w) hint len flags s =
    Ok ((base, Some (set_user_start base (vad_insert w
      (mk_vad base base (Z.lor (Z.lor flags VAD_ANONYMOUS) VAD_MAPPED))))), s') /\ base <> 0.
Proof.
  intros Hk Hfl Hlen Hh base Hn. unfold VAS_USER_START, VAS_USER_END in *.
  assert (base = hint / 4096 * 4096) as Eb by (apply align_down; lia).
  pose proof (Z.div_mod hint 4096 ltac:(done)). pose proof (Z.mod_pos_bound hint 4096 ltac:(done)).
  assert (1 <= hint / 4096) by (apply Z.div_le_lower_bound; lia).
  assert (PAGE_ALIGN_UP len = 0) as El.
  { unfold PAGE_ALIGN_UP. rewrite u64_sub_l. unfold PAGE_SIZE.
    assert (u64 (len + 4096 - 1) = len + 4095 - 2 ^ 64) as ->.
    { symmetry. apply (Z.mod_unique_pos _ _ 1); lia. }
    rewrite page_mask_land by lia. rewrite Z.shiftl_mul_pow2, Z.shiftr_div_pow2 by lia.
    change (2 ^ 12) with 4096. rewrite Z.div_small; lia. }
  split; [|lia]. unfold vas_map_anon. destruct (Z.eqb_spec len 0); [lia|]. rewrite El.
  unfold choose_base. rewrite Hfl, !Z.add_0_r. fold base. rewrite !u64_small by lia.
  unfold VAS_USER_END. destruct (Z.ltb_spec 0x7FFFFFFFFFFF base); [lia|]. rewrite Z.ltb_irrefl. cbn [orb].
  unfold vas_overlaps. rewrite overlaps_empty by done.
  rewrite Z.add_0_r, (u64_small base) by lia.
  eapply st_bind_eq; [unfold vad_alloc; by eapply st_bind_eq|]. cbv beta iota.
  eapply (st_bind_eq _ _ _ 0 s'); [|reflexivity]. unfold commit_anon, page_steps. simpl. rewrite Z.sub_diag.
  change (Z.to_nat ((0 + 4095) / 4096)) with 0%nat. cbn [commit_loop]. by rewrite Z.ltb_irrefl.
Qed.

(** ** Witnesses *)

Definition demo_heap : Z -> ST (machine pmm) bool := fun _ s => Ok (true, s).
Definition demo_kfree : ST (machine pmm) unit := fun s => Ok (tt, s).
Definition demo_areas : vas := mk_vas (Some 16384) [mk_vad 4096 8192 7; mk_vad 16384 24576 5] 4096.

Lemma demo_areas_ok : vads_ok 0 (vas_list demo_areas).
Proof.
  assert (forall k, (4096 | 4096 * k)) as Hd by (intros k; exists k; lia).
  repeat split; simpl; try lia;
    [apply (Hd 1)|apply (Hd 2)|apply (Hd 4)|apply (Hd 6)].
Qed.

Lemma vas_add_spec_witness :
  exists v', vas_add demo_areas (mk_vad 8192 12288 3) = (0, v') /\ vads_ok 0 (vas_list v').
Proof.
  destruct (vas_add_spec demo_areas (mk_vad 8192 12288 3) demo_areas_ok) as (r & v' & Hr & _ & _ & Hok & _);
    [simpl; lia|simpl; lia|].
  assert (r = 0) as -> by (clear -Hr; vm_compute in Hr; congruence).
  exists v'. split; [exact Hr|exact Hok].
Defined.

Lemma vas_find_free_spec_witness :
  vas_find_free demo_areas 100 8192 = 8192 /\ clear (vas_list demo_areas) 8192 8192.
Proof.
  destruct (vas_find_free_spec demo_areas 100 8192 demo_areas_ok) as [Hs _].
  - unfold demo_areas. simpl. repeat constructor; simpl; lia.
  - lia.
  - lia.
  - assert (vas_find_free demo_areas 100 8192 = 8192) as E by (by vm_compute).
    rewrite E in Hs. split; [exact E|]. apply Hs. lia.
Defined.

Lemma vas_queries_spec_witness : vas_range_mapped (Some demo_areas) 17000 5000 = true.
Proof.
  destruct (vas_queries_spec demo_areas 17000 17000 5000 demo_areas_ok) as [_ Hm]; [lia|lia|].
  apply Hm. intros x Hx. exists (mk_vad 16384 24576 5). split; [right; left|].
  change (PAGE_ALIGN_DOWN 17000) with 16384 in Hx. change (PAGE_ALIGN_UP 5000) with 8192 in Hx.
  unfold inside. simpl. lia.
Defined.


Lemma vas_user_access_ok_spec_witness :
  vas_user_access_ok (Some demo_areas) 8191 2 false demo_space = Ok (-1, demo_space).
Proof.
  destruct (vas_user_access_ok_spec demo_areas 16384 8191 2 demo_space eq_refl) as (r & Hr & Hrr & Hiff);
    [lia|lia|].
  destruct Hrr as [-> | ->]; [|exact Hr]. exfalso.
  destruct (proj1 Hiff eq_refl) as (_ & _ & Hp).
  specialize (Hp ltac:(lia) 8192 ltac:(by exists 2) ltac:(lia) ltac:(lia)). vm_compute in Hp. discriminate.
Defined.

Lemma vas_map_anon_wraps_witness :
  exists w', vas_map_anon demo_heap demo_kfree (Some demo_areas) 8192 (2 ^ 64 - 1) VAD_FIXED demo_space =
    Ok ((8192, Some w'), demo_space).
Proof.
  destruct (vas_map_anon_wraps demo_heap demo_kfree demo_areas 8192 (2 ^ 64 - 1) VAD_FIXED demo_space demo_space
    eq_refl eq_refl) as [Hr _].
  - lia.
  - unfold VAS_USER_START, VAS_USER_END. lia.
  - change (PAGE_ALIGN_DOWN 8192) with 8192. unfold demo_areas. simpl. rewrite !covers_cons.
    unfold inside. simpl. intros [?|[?|Hc]]; [lia|lia|]. by apply covers_nil in Hc.
  - eexists. exact Hr.
Defined.
