(* ===== verification/PagingInit.v ===== *)
(** The kernel's own address space, [paging_init] of [kernel/src/mm/paging.c],
    over the page tables of [Paging.v] and the areas of [Vmm.v].

    The symbols of the linker script, the offset of the direct map and the
    database of page frames are parameters; the structures of the boot loader
    are arguments, [None] for a null pointer. The control register 4 is a field
    of the state. *)
From S2P Require Import Prelude Dll Pfndb Pmm Paging Vmm.
Import Pte.

Definition X86_CR4_PGE : Z := 2 ^ 7.
Definition VAD_KERNEL : Z := 2 ^ 16.
Definition VAD_HHDM : Z := 2 ^ 17.
Definition VAD_DEVICE : Z := 2 ^ 18.

(** [limine_framebuffer] and [limine_executable_address_response]: the members
    that are read. The memory map is that of [Pfndb.v]. *)
Record framebuffer := mk_fb { fb_address : ptr; fb_pitch : Z; fb_height : Z }.
Record kernel_address := mk_ka { ka_physical_base : Z; ka_virtual_base : Z }.

(** The symbols of the linker script. *)
Record image := mk_image {
  kernel_start : Z; text_start : Z; text_end : Z; rodata_start : Z; rodata_end : Z; data_start : Z; kernel_end : Z }.

Definition KERNEL_RW : Z := Z.lor (Z.lor (Z.lor PAGE_PRESENT PAGE_WRITE) PAGE_GLOBAL) PAGE_NX.

Section init.
Context {S : Type} `{PageSource S}.
Context (hhdm_offset pfndb_db pfndb_max : Z) (img : image).

Record boot := mk_boot { bt_mach : machine S; bt_kvas : vas; bt_cr4 : Z }.

Definition on_mach {A} (f : ST (machine S) A) : ST boot A := fun s =>
  match f (bt_mach s) with
  | Ok (a, m) => Ok (a, mk_boot m (bt_kvas s) (bt_cr4 s))
  | Panic => Panic | Fault => Fault | Timeout => Timeout
  end.
Definition set_kvas (v : vas) (s : boot) : boot := mk_boot (bt_mach s) v (bt_cr4 s).
Definition VIRT_TO_PHYS (v : Z) : Z := u64 (v - hhdm_offset).
(** [if (...) kpanic(...)]. *)
Definition panic_if (b : bool) : ST boot unit := if b then st_panic else mret tt.

Definition kernel_map (virt phys size flags : Z) : ST boot Z :=
  v ← gets bt_kvas; on_mach (paging_map_range (Some v) virt phys size flags).

Definition map_kernel_segment (virt_start virt_end kernel_phys_base kernel_virt_base flags : Z) : ST boot Z :=
  let start := PAGE_ALIGN_DOWN virt_start in
  let end_ := PAGE_ALIGN_UP virt_end in
  if end_ <=? start then mret 0 else
  let phys := u64 (kernel_phys_base + u64 (start - kernel_virt_base)) in
  kernel_map start phys (u64 (end_ - start)) flags.

Fixpoint top_loop (l : list memmap_entry) (top : Z) : Z :=
  match l with
  | [] => top
  | e :: l => let end_ := u64 (me_base e + me_length e) in top_loop l (if top <? end_ then end_ else top)
  end.
Definition memmap_top (memmap : list memmap_entry) : Z := PAGE_ALIGN_UP (top_loop memmap 0).

Fixpoint map_hhdm (memmap : list memmap_entry) : ST boot Z :=
  match memmap with
  | [] => mret 0
  | e :: memmap =>
      let start := PAGE_ALIGN_DOWN (me_base e) in
      let end_ := PAGE_ALIGN_UP (u64 (me_base e + me_length e)) in
      if end_ <=? start then map_hhdm memmap else
      r ← kernel_map (u64 (hhdm_offset + start)) start (u64 (end_ - start)) KERNEL_RW;
      if negb (r =? 0) then mret (-1) else map_hhdm memmap
  end.

Definition map_pfndb : ST boot Z :=
  let phys := VIRT_TO_PHYS pfndb_db in
  let start := PAGE_ALIGN_DOWN phys in
  let end_ := PAGE_ALIGN_UP (u64 (phys + u64 (u64 (pfndb_max + 1) * sizeof_page))) in
  kernel_map (u64 (hhdm_offset + start)) start (u64 (end_ - start)) KERNEL_RW.

Definition fb_size (fb : framebuffer) : Z := u64 (fb_pitch fb * fb_height fb).
(** [!framebuffer || !framebuffer->address] is [None]. *)
Definition fb_virt (fb : option framebuffer) : option (framebuffer * Z) :=
  f ← fb; a ← fb_address f; Some (f, a).

Definition map_framebuffer (fb : option framebuffer) : ST boot Z :=
  match fb_virt fb with
  | None => mret 0
  | Some (f, virt) =>
      let start := PAGE_ALIGN_DOWN virt in
      let end_ := PAGE_ALIGN_UP (u64 (virt + fb_size f)) in
      let phys := if hhdm_offset <=? virt then VIRT_TO_PHYS start else start in
      kernel_map start phys (u64 (end_ - start)) KERNEL_RW
  end.

Definition add_static_vad (start end_ flags : Z) : ST boot unit :=
  v ← gets bt_kvas;
  let '(r, v') := vas_add v (mk_vad start end_ flags) in
  if negb (r =? 0) then st_panic else modify (set_kvas v').

Definition fb_vad (fb : option framebuffer) : ST boot unit :=
  match fb_virt fb with
  | None => mret tt
  | Some (f, a) =>
      let start := PAGE_ALIGN_DOWN a in
      let end_ := PAGE_ALIGN_UP (u64 (a + fb_size f)) in
      v ← gets bt_kvas;
      match vas_find (Some v) start with
      | Some _ => mret tt
      | None => add_static_vad start end_ (Z.lor (Z.lor KERNEL_RW VAD_DEVICE) VAD_KERNEL)
      end
  end.

Definition must (f : ST boot Z) : ST boot unit := r ← f; panic_if (negb (r =? 0)).

Definition paging_init (memmap : option (list memmap_entry)) (fb : option framebuffer) (kernel_addr : option kernel_address) : ST boot unit :=
  match memmap, kernel_addr with
  | Some memmap, Some ka =>
      panic_if (negb (ka_virtual_base ka =? kernel_start img)) ;;
      modify (fun s => mk_boot (bt_mach s) (bt_kvas s) (Z.lor (bt_cr4 s) X86_CR4_PGE)) ;;
      modify (set_kvas (mk_vas None [] 0)) ;;
      on_mach (modify (fun m => mk_mach (m_ram m) 0 (m_cr3 m) (m_src m))) ;;
      pml4_phys ← on_mach alloc_table;
      panic_if (pml4_phys =? 0) ;;
      modify (fun s => set_kvas (mk_vas (Some (table_virt pml4_phys)) (vas_list (bt_kvas s)) VAS_USER_START) s) ;;
      must (map_hhdm memmap) ;;
      must map_pfndb ;;
      let seg s e flags := map_kernel_segment s e (ka_physical_base ka) (ka_virtual_base ka) flags in
      must (seg (kernel_start img) (text_start img) (Z.lor (Z.lor PAGE_PRESENT PAGE_WRITE) PAGE_GLOBAL)) ;;
      must (seg (text_start img) (text_end img) (Z.lor PAGE_PRESENT PAGE_GLOBAL)) ;;
      must (seg (rodata_start img) (rodata_end img) (Z.lor (Z.lor PAGE_PRESENT PAGE_GLOBAL) PAGE_NX)) ;;
      must (seg (data_start img) (kernel_end img) KERNEL_RW) ;;
      must (map_framebuffer fb) ;;
      add_static_vad hhdm_offset (u64 (hhdm_offset + memmap_top memmap)) (Z.lor (Z.lor KERNEL_RW VAD_HHDM) VAD_KERNEL) ;;
      add_static_vad (kernel_start img) (kernel_end img)
        (Z.lor (Z.lor (Z.lor PAGE_PRESENT PAGE_WRITE) PAGE_GLOBAL) VAD_KERNEL) ;;
      fb_vad fb ;;
      v ← gets bt_kvas;
      on_mach (vas_switch (Some v))
  | _, _ => st_panic
  end.
End init.
Arguments boot S : clear implicits.
