(* ===== verification/PagingInitSpec.v ===== *)
(** The kernel's own address space, [PagingInit.v].

    [paging_init] maps a list of regions; the last-level entry of an address is
    the fold of the regions that hold it ([Mapped]), so a later region replaces
    an earlier one. [needs] counts the frames an operation takes for tables:
    the only failure is that the allocator has fewer. *)
From S2P Require Import Prelude Dll Pfndb Pmm Paging Vmm PagingInit.
Import Pte.

(** ** Running out of frames *)

Section memory.
Context {S : Type} `{PageSource S}.

(** [n] frames, one after the other. *)
Fixpoint supplies (n : nat) (s : S) : bool :=
  match n with
  | O => true
  | Datatypes.S n => match ps_alloc s with Ok (Some p, s') => negb (p =? 0) && supplies n s' | _ => false end
  end.

Lemma supplies_le n : forall m s, (n <= m)%nat -> supplies m s = true -> supplies n s = true.
Proof.
  induction n as [|n IH]; intros m s Hm Hs; [done|]. destruct m as [|m]; [lia|]. cbn [supplies] in *.
  destruct (ps_alloc s) as [[[p|] s1]| | |]; try done. apply andb_true_iff in Hs as [-> Hs]. by apply (IH m); [lia|].
Qed.
Lemma supplies_short n m s : (n <= m)%nat -> supplies n s = false -> supplies m s = false.
Proof. intros Hn Hs. destruct (supplies m s) eqn:E; [|done]. by rewrite (supplies_le n m s Hn E) in Hs. Qed.

(** An operation takes at most [n] frames, and fails only if it does not get
    them. *)
Definition needs {A} (n : nat) (ok : A -> bool) (f : ST (machine S) A) : Prop := forall s a s' k,
  f s = Ok (a, s') -> supplies (n + k) (m_src s) = true -> ok a = true /\ supplies k (m_src s') = true.
Abbreviation always := (fun _ => true).

Lemma needs_bind {A B} n1 n2 (okA : A -> bool) (okB : B -> bool) f (g : A -> ST (machine S) B) : needs n1 okA f ->
  (forall a, okA a = true -> needs n2 okB (g a)) -> needs (n1 + n2) okB (f ≫= g).
Proof.
  intros Hf Hg s b s' k (a & s1 & H1 & H2)%st_bind_inv Hs. rewrite <- Nat.add_assoc in Hs.
  destruct (Hf _ _ _ _ H1 Hs) as [Ha Hs1]. by apply (Hg a Ha _ _ _ _ H2).
Qed.

Lemma needs_then {A B} n (okB : B -> bool) (f : ST (machine S) A) (g : A -> ST (machine S) B) :
  needs 0 always f -> (forall a, needs n okB (g a)) -> needs n okB (f ≫= g).
Proof. intros Hf Hg. by apply (needs_bind 0 n always). Qed.

Lemma needs_more {A} n m (okA : A -> bool) (f : ST (machine S) A) : (n <= m)%nat -> needs n okA f -> needs m okA f.
Proof.
  intros Hn Hf s a s' k H1 Hs. destruct (Hf s a s' (m - n + k)%nat H1) as [Ha Hk].
  - by replace (n + (m - n + k))%nat with (m + k)%nat by lia.
  - split; [done|]. by eapply supplies_le; [|exact Hk]; lia.
Qed.

Lemma needs_same {A} (okA : A -> bool) (f : ST (machine S) A) :
  (forall s a s', f s = Ok (a, s') -> okA a = true /\ m_src s' = m_src s) -> needs 0 okA f.
Proof. intros Hs s a s' k Hf. by destruct (Hs _ _ _ Hf) as [-> ->]. Qed.

Lemma needs_ret {A} (okA : A -> bool) a : okA a = true -> needs 0 okA (mret a).
Proof. intros Ha. apply needs_same. by intros s ? s' [= <- <-]. Qed.
Lemma needs_word p i : needs 0 always (get_word (S := S) p i).
Proof. apply needs_same. by intros s ? s' [= <- <-]. Qed.
Lemma needs_ram g : needs 0 always (upd_ram (S := S) g).
Proof. apply needs_same. by intros s ? s' [= <- <-]. Qed.

Definition nonzero (p : Z) : bool := negb (p =? 0).
Definition found {A} (o : option A) : bool := match o with Some _ => true | None => false end.

Lemma alloc_table_needs : needs 1 nonzero (alloc_table (S := S)).
Proof.
  intros s a s' k (r & s1 & H1 & H2)%st_bind_inv Hs. unfold on_src in H1. cbn [supplies Nat.add] in Hs.
  destruct (ps_alloc (m_src s)) as [[r' src]| | |]; try done. injection H1 as <- <-. destruct r' as [p|]; [|done].
  injection H2 as <- <-. by apply andb_true_iff in Hs.
Qed.

Lemma next_table_needs t i fl : needs 1 found (next_table (S := S) t i fl true).
Proof.
  apply needs_then; [apply needs_word|]. intros e.
  destruct (has_bits e PAGE_PRESENT); [by eapply needs_more; [|apply needs_ret]; [lia|]|]. cbn [negb].
  apply (needs_bind 1 0 nonzero); [apply alloc_table_needs|]. unfold nonzero. intros p Hp.
  destruct (p =? 0); [done|]. apply needs_then; [apply needs_ram|]. intros _. apply needs_then; [|intros _; by apply needs_ret].
  destruct (has_bits fl PAGE_USER); [|by apply needs_ret]. apply needs_then; [apply needs_word|intros ?; apply needs_ram].
Qed.

Lemma lookup_pt_needs root virt fl : needs 3 found (lookup_pt (S := S) root virt true fl).
Proof.
  apply (needs_bind 1 2 found); [apply next_table_needs|]. intros [p|] Hp; [|done].
  apply (needs_bind 1 1 found); [apply next_table_needs|]. intros [q|] Hq; [|done]. apply next_table_needs.
Qed.

Lemma map_run_needs n : forall pt i virt phys f, needs 0 always (map_run (S := S) n pt i virt phys f).
Proof. induction n as [|n IH]; intros; [by apply needs_ret|]. apply needs_then; [apply needs_ram|]. intros _. apply IH. Qed.

Lemma pt_index_step v : pt_index (u64 (v + PAGE_SIZE)) = (pt_index v + 1) mod 512.
Proof.
  unfold pt_index, u64. change 511 with (Z.ones 9). rewrite !Z.land_ones, !Z.shiftr_div_pow2 by done.
  change PAGE_SIZE with 4096. change (2 ^ 12) with 4096. change (2 ^ 9) with 512. Z.to_euclidean_division_equations. lia.
Qed.

Lemma map_run_index n : forall pt i virt phys f (s : machine S) vp s', map_run n pt i virt phys f s = Ok (vp, s') ->
  pt_index vp.1 = (pt_index virt + Z.of_nat n) mod 512.
Proof.
  induction n as [|n IH]; intros pt i virt phys f s vp s' Hr.
  - injection Hr as <- <-. cbn. rewrite Z.add_0_r. unfold pt_index. change 511 with (Z.ones 9). by rewrite Z.land_ones, Z.mod_mod.
  - cbn [map_run] in Hr. apply st_bind_inv in Hr as (? & s1 & _ & Hr). rewrite (IH _ _ _ _ _ _ _ _ Hr), pt_index_step.
    rewrite Zplus_mod_idemp_l. f_equal. lia.
Qed.

Definition succeeds (r : Z) : bool := r =? 0.
(** Frames for the tables of a range of pages: three for every page table. *)
Definition table_frames (pages virt : Z) : nat := (3 * Z.to_nat ((pages + pt_index virt + 511) / 512))%nat.

Lemma map_range_none fuel root pages virt phys fl f : pages <= 0 -> needs 0 succeeds (map_range_loop (S := S) fuel root pages virt phys fl f).
Proof. intros Hp. destruct fuel; cbn [map_range_loop]; rewrite (proj2 (Z.ltb_ge 0 pages)) by done; by apply needs_ret. Qed.

Lemma map_range_loop_needs fuel : forall root pages virt phys fl f,
  needs (table_frames pages virt) succeeds (map_range_loop (S := S) fuel root pages virt phys fl f).
Proof.
  induction fuel as [|fuel IH]; intros; cbn [map_range_loop];
    (destruct (Z.ltb_spec 0 pages) as [Hp|Hp]; cbn [negb]; [|by eapply needs_more; [|apply needs_ret]; [lia|]]); [by intros ? ? ? ?|].
  pose proof (index_range virt 12) as Hi. change (Z.land (Z.shiftr virt 12) 511) with (pt_index virt) in Hi.
  set (k := Z.to_nat ((pages + pt_index virt - 1) / 512)). assert (Hk : table_frames pages virt = (3 + 3 * k)%nat).
  { unfold table_frames, k. replace (pages + pt_index virt + 511) with (pages + pt_index virt - 1 + 1 * 512) by lia. rewrite Z.div_add by done.
    assert (0 <= (pages + pt_index virt - 1) / 512) by (apply Z.div_pos; lia). lia. }
  rewrite Hk. apply (needs_bind 3 _ found); [apply lookup_pt_needs|]. intros [pt|] Hf; [|done]. cbv zeta.
  set (run := if _ : bool then _ else _). intros s a s' j (vp & s1 & H1 & H2)%st_bind_inv Hs.
  pose proof (map_run_index _ _ _ _ _ _ _ _ _ H1) as Hv. destruct (map_run_needs _ _ _ _ _ _ _ _ _ _ H1 Hs) as [_ Hs1].
  unfold run in *. destruct (Z.ltb_spec pages (512 - pt_index virt)).
  - refine (needs_more 0 (3 * k) _ _ _ (map_range_none _ _ _ _ _ _ _ _) _ _ _ _ H2 Hs1); lia.
  - refine (needs_more _ (3 * k) _ _ _ (IH _ _ _ _ _ _) _ _ _ _ H2 Hs1). unfold table_frames, k. rewrite Hv, Z2Nat.id by lia.
    replace (pt_index virt + (512 - pt_index virt)) with 512 by lia. change (512 mod 512) with 0.
    replace (pages - (512 - pt_index virt) + 0 + 511) with (pages + pt_index virt - 1) by lia. lia.
Qed.

(** The root is there and the call is well formed. *)
Lemma map_range_needs v root virt phys size fl : vas_root v = Some root -> (4096 | virt) -> (4096 | phys) ->
  needs (table_frames (Z.shiftr (PAGE_ALIGN_UP size) PAGE_SHIFT) virt) succeeds (paging_map_range (S := S) v virt phys size fl).
Proof.
  intros Hr Hv Hp. unfold paging_map_range. destruct (size =? 0); [by eapply needs_more; [|apply needs_ret]; [lia|]|].
  rewrite Hr, !low_bits_aligned by done. apply map_range_loop_needs.
Qed.
End memory.

(** ** Regions *)

Record region := mk_region { rg_virt : Z; rg_phys : Z; rg_pages : Z; rg_flags : Z }.

Definition region_entry (w e : Z) (g : region) : Z :=
  range_entry (rg_virt g) (rg_phys g) (rg_pages g) (flags_to_pte (rg_flags g)) w e.
Definition entries (l : list region) (w : Z) : Z := foldl (region_entry w) 0 l.
Lemma entries_app l g w : entries (l ++ [g]) w = region_entry w (entries l w) g.
Proof. apply foldl_snoc. Qed.

(** The upper half of the canonical addresses, and the lower half. *)
Definition upper (w : Z) : Prop := 2 ^ 64 - 2 ^ 47 <= w < 2 ^ 64.
Definition lower (w : Z) : Prop := 0 <= w < 2 ^ 47.

Record region_ok (g : region) : Prop := {
  rg_upper : 2 ^ 64 - 2 ^ 47 <= rg_virt g;
  rg_virt_end : rg_virt g + 4096 * rg_pages g < 2 ^ 64;
  rg_some : 0 < rg_pages g;
  rg_virt_page : (4096 | rg_virt g);
  rg_phys_page : (4096 | rg_phys g);
  rg_phys_0 : 0 <= rg_phys g;
  rg_phys_end : rg_phys g + 4096 * rg_pages g <= 2 ^ 52 }.

Definition holds (g : region) (w : Z) : Prop := rg_virt g <= w < rg_virt g + 4096 * rg_pages g.
Definition region_word (g : region) (w : Z) : Z :=
  Z.lor (Z.land (rg_phys g + (w / 4096 * 4096 - rg_virt g)) PAGE_ADDR_MASK) (flags_to_pte (rg_flags g)).

Lemma vpage_eq w : vpage w = w / 4096 mod 2 ^ 36.
Proof. unfold vpage. by rewrite Z.shiftr_div_pow2. Qed.

Lemma vpage_upper w : upper w -> vpage w = w / 4096 - (2 ^ 52 - 2 ^ 36).
Proof.
  intros Hw. rewrite vpage_eq. unfold upper in Hw. symmetry. apply (Z.mod_unique_pos _ _ (2 ^ 16 - 1)); [|lia].
  assert (2 ^ 52 - 2 ^ 35 <= w / 4096 < 2 ^ 52) by (split; [apply Z.div_le_lower_bound|apply Z.div_lt_upper_bound]; lia). lia.
Qed.

Lemma vpage_lower w : lower w -> vpage w = w / 4096 /\ 0 <= w / 4096 < 2 ^ 35.
Proof.
  intros Hw. unfold lower in Hw. assert (0 <= w / 4096 < 2 ^ 35) by (split; [apply Z.div_pos|apply Z.div_lt_upper_bound]; lia).
  split; [|done]. rewrite vpage_eq. apply Z.mod_small. lia.
Qed.

Lemma region_entry_upper g w e : region_ok g -> upper w ->
  (holds g w /\ region_entry w e g = region_word g w) \/ (~ holds g w /\ region_entry w e g = e).
Proof.
  intros [H1 H2 H3 [k Hk] _ _ _] Hw. unfold region_entry, range_entry, holds, region_word.
  rewrite (vpage_upper w Hw), (vpage_upper (rg_virt g)) by (unfold upper; lia). rewrite Hk, Z.div_mul in * by done.
  set (q := w / 4096). pose proof (Z.div_mod w 4096 ltac:(done)) as Ew. pose proof (Z.mod_pos_bound w 4096 ltac:(done)). fold q in Ew.
  unfold upper in Hw. destruct (Z.lt_ge_cases q k) as [Hl|Hl].
  - right. split; [lia|]. rewrite <- (Z.mod_unique_pos _ _ (-1) (q - k + 2 ^ 36)) by lia.
    by rewrite (proj2 (Z.ltb_ge _ _)) by lia.
  - rewrite Z.mod_small by lia. replace (q - (2 ^ 52 - 2 ^ 36) - (k - (2 ^ 52 - 2 ^ 36))) with (q - k) by lia.
    destruct (Z.ltb_spec (q - k) (rg_pages g)); [left|right]; (split; [lia|]); [|done].
    by replace (4096 * (q - k)) with (q * 4096 - k * 4096) by lia.
Qed.

Lemma region_entry_lower g w e : region_ok g -> lower w -> region_entry w e g = e.
Proof.
  intros [H1 H2 H3 [k Hk] _ _ _] Hw. destruct (vpage_lower w Hw) as [Ew Hr]. unfold region_entry, range_entry.
  rewrite Ew, (vpage_upper (rg_virt g)) by (unfold upper; lia). rewrite Hk, Z.div_mul in * by done.
  rewrite <- (Z.mod_unique_pos _ _ (-1) (w / 4096 - (k - (2 ^ 52 - 2 ^ 36)) + 2 ^ 36)) by lia.
  by rewrite (proj2 (Z.ltb_ge _ _)) by lia.
Qed.

Lemma entries_lower l w : Forall region_ok l -> lower w -> entries l w = 0.
Proof.
  intros Hl Hw. induction l as [|g l IH] using rev_ind; [done|]. apply Forall_app in Hl as [Hl Hg]. rewrite Forall_singleton in Hg.
  rewrite entries_app, region_entry_lower by done. by apply IH.
Qed.

(** The last region that holds an address decides. *)
Lemma entries_upper l w : Forall region_ok l -> upper w ->
  (exists g, g ∈ l /\ holds g w /\ entries l w = region_word g w) \/
  ((forall g, g ∈ l -> ~ holds g w) /\ entries l w = 0).
Proof.
  intros Hl Hw. induction l as [|g l IH] using rev_ind; [right; split; [|done]; intros g Hg; by apply elem_of_nil in Hg|].
  apply Forall_app in Hl as [Hl Hg]. rewrite Forall_singleton in Hg. specialize (IH Hl). rewrite entries_app.
  destruct (region_entry_upper g w (entries l w) Hg Hw) as [[Hh ->]|[Hn ->]].
  - left. exists g. split; [set_solver|done].
  - destruct IH as [(g' & Hg' & Hh & He)|[Hno He]]; [left; exists g'; split; [set_solver|done]|right]. split; [|done].
    intros g' [Hg'|Hg']%elem_of_app; [by apply Hno|]. apply list_elem_of_singleton in Hg' as ->. done.
Qed.

Lemma region_word_reads g w : region_ok g -> holds g w ->
  entry_phys (region_word g w) w = rg_phys g + (w - rg_virt g) /\ entry_prot (region_word g w) = flags_to_pte (rg_flags g).
Proof.
  intros [H1 H2 H3 [k Hk] [j Hj] H6 H7] Hh. unfold holds in Hh. unfold region_word.
  pose proof (Z.div_mod w 4096 ltac:(done)). pose proof (Z.mod_pos_bound w 4096 ltac:(done)).
  assert (0 <= w / 4096 * 4096 - rg_virt g) by (rewrite Hk in *; lia).
  destruct (mapped_entry (rg_phys g + (w / 4096 * 4096 - rg_virt g)) (rg_flags g) w) as [-> ->].
  - lia.
  - exists (j + (w / 4096 - k)). lia.
  - split; [lia|done].
Qed.

(** ** The parts of paging_init *)

Section parts.
Context {S : Type} `{PageSourceLaws S}.

(** The frames for the root and the tables of some regions. *)
Definition region_tables (g : region) : nat := table_frames (rg_pages g) (rg_virt g).
Definition cost (l : list region) : nat := (1 + sum_list (region_tables <$> l))%nat.
Lemma cost_app l l' : cost (l ++ l') = (cost l + sum_list (region_tables <$> l'))%nat.
Proof. unfold cost. induction l as [|g l IH]; cbn in *; lia. Qed.

Record Mapped (root : Z) (src0 : S) (v : vas) (l : list region) (s : boot S) : Prop := {
  mp_vas : bt_kvas s = v;
  mp_root : vas_pml4 v = Some root;
  mp_tree : exists lab held, tree (bt_mach s) lab held /\ lab !! root = Some (root, []);
  mp_leaf : forall w, leaf_entry (m_ram (bt_mach s)) root w = entries l w;
  mp_drawn k : supplies (cost l + k) src0 = true -> supplies k (m_src (bt_mach s)) = true }.

(** [f] maps the regions [new] after those that are there, or runs out of
    frames. *)
Definition maps (f : ST (boot S) Z) (new : list region) : Prop := forall root src0 v l s, Mapped root src0 v l s ->
  exists r s', f s = Ok (r, s') /\ bt_cr4 s' = bt_cr4 s /\
  (r = 0 /\ Mapped root src0 v (l ++ new) s' \/ r <> 0 /\ supplies (cost (l ++ new)) src0 = false).

Lemma maps_none f : (forall s, f s = Ok (0, s)) -> maps f [].
Proof. intros Hf root src0 v l s Hm. exists 0, s. split; [done|]. split; [done|]. left. by rewrite app_nil_r. Qed.

Lemma kernel_map_ok virt phys n flags : region_ok (mk_region virt phys n flags) ->
  maps (kernel_map virt phys (4096 * n) flags) [mk_region virt phys n flags].
Proof.
  intros [H1 H2 H3 H4 H5 H6 H7] root src0 v l s [Hv Hr (lab & held & Ht & Hroot) Hl Hd]. cbn [rg_virt rg_phys rg_pages rg_flags] in *.
  assert (Hpg : Z.shiftr (PAGE_ALIGN_UP (4096 * n)) PAGE_SHIFT = n).
  { rewrite align_up_pfn by lia. replace (4096 * n + 4095) with (4095 + n * 4096) by lia. rewrite Z.div_add by done.
    change (4095 / 4096) with 0. lia. }
  destruct (map_range_loop_ok (Z.to_nat n) root n virt phys flags (flags_to_pte flags) (bt_mach s) lab held Ht Hroot)
    as (r & m & lab' & held' & k & He & Ht' & Hlab & Hk & Hres & Hleaf); [lia..|].
  assert (Hf : paging_map_range (Some v) virt phys (4096 * n) flags (bt_mach s) = Ok (r, m)).
  { unfold paging_map_range. rewrite Hpg, (proj2 (Z.eqb_neq _ _)) by lia. unfold vas_root. cbn. rewrite Hr, !low_bits_aligned by done. exact He. }
  exists r, (mk_boot m v (bt_cr4 s)). split; [|split; [done|]].
  - unfold kernel_map, on_mach. rewrite gets_bind, Hv, Hf. done.
  - pose proof (map_range_needs (Some v) root virt phys (4096 * n) flags Hr H4 H5) as Hn. rewrite Hpg in Hn.
    assert (Hc : forall j, supplies (cost (l ++ [mk_region virt phys n flags]) + j) src0 = true -> succeeds r = true /\ supplies j (m_src m) = true).
    { intros j Hs. apply (Hn _ _ _ j Hf), Hd. rewrite cost_app in Hs. cbn [fmap list_fmap sum_list] in Hs.
      by rewrite Nat.add_0_r, <- Nat.add_assoc in Hs. }
    destruct Hres as [[-> ->]|[-> _]]; [left|right]; (split; [done|]).
    + split; try done; cbn.
      * exists lab', held'. split; [done|by eapply lookup_weaken].
      * intros w. by rewrite entries_app, Hleaf, Hl.
      * intros j Hs. by apply Hc.
    + destruct (supplies _ src0) eqn:Hs; [|done]. rewrite <- (Nat.add_0_r (cost _)) in Hs. by destruct (Hc _ Hs).
Qed.

Lemma maps_then f g new new' : maps f new -> maps g new' -> maps (r ← f; if negb (r =? 0) then mret (-1) else g) (new ++ new').
Proof.
  intros Hf Hg root src0 v l s Hm. destruct (Hf _ _ _ _ _ Hm) as (r & s1 & H1 & C1 & [[-> Hm1]|[Hr Hex]]).
  - destruct (Hg _ _ _ _ _ Hm1) as (r2 & s2 & H2 & C2 & Hres). exists r2, s2. rewrite (st_bind_ok _ _ _ _ _ H1). cbn.
    split; [exact H2|]. split; [congruence|]. by rewrite (assoc_L (++)).
  - exists (-1), s1. rewrite (st_bind_ok _ _ _ _ _ H1), (proj2 (Z.eqb_neq r 0)) by done. split; [done|]. split; [done|]. right. split; [done|].
    eapply supplies_short; [|exact Hex]. rewrite (assoc_L (++)), (cost_app (l ++ new)). lia.
Qed.

(** [if (f() != 0) kpanic(...)], before the rest. *)
Lemma must_ok {B} f new (k : ST (boot S) B) root src0 v l s : maps f new -> Mapped root src0 v l s ->
  (exists s', (must f ;; k) s = k s' /\ Mapped root src0 v (l ++ new) s' /\ bt_cr4 s' = bt_cr4 s) \/ ((must f ;; k) s = Panic /\ supplies (cost (l ++ new)) src0 = false).
Proof.
  intros Hf Hm. destruct (Hf _ _ _ _ _ Hm) as (r & s1 & H1 & C1 & [[-> Hm1]|[Hr Hex]]); unfold must, panic_if.
  - left. exists s1. split; [|done]. unfold mbind, st_bind. by rewrite H1.
  - right. split; [|done]. unfold mbind, st_bind. rewrite H1, (proj2 (Z.eqb_neq r 0)) by done. done.
Qed.
End parts.

(** ** The layout *)

Definition page_down (x : Z) : Z := x / 4096 * 4096.
Definition page_up (x : Z) : Z := (x + 4095) / 4096 * 4096.

Lemma page_bounds x : page_down x <= x < page_down x + 4096 /\ x <= page_up x < x + 4096.
Proof.
  unfold page_down, page_up. pose proof (Z.div_mod x 4096 ltac:(done)). pose proof (Z.mod_pos_bound x 4096 ltac:(done)).
  pose proof (Z.div_mod (x + 4095) 4096 ltac:(done)). pose proof (Z.mod_pos_bound (x + 4095) 4096 ltac:(done)). lia.
Qed.
Lemma page_down_le x y : x <= y -> page_down x <= page_down y.
Proof. intros Hx. unfold page_down. pose proof (Z.div_le_mono x y 4096). lia. Qed.
Lemma page_up_le x y : x <= y -> (4096 | y) -> page_up x <= y.
Proof.
  intros Hx [k ->]. unfold page_up. pose proof (Z.div_le_mono (x + 4095) (k * 4096 + 4095) 4096 ltac:(lia) ltac:(lia)) as Hd.
  replace (k * 4096 + 4095) with (4095 + k * 4096) in Hd by lia. rewrite Z.div_add in Hd by done. change (4095 / 4096) with 0 in Hd. lia.
Qed.
Lemma page_down_id x : (4096 | x) -> page_down x = x.
Proof. intros [k ->]. unfold page_down. by rewrite Z.div_mul. Qed.
Lemma page_div a b : (4096 | a) -> (4096 | b) -> 4096 * ((b - a) / 4096) = b - a.
Proof. intros [k ->] [j ->]. replace (j * 4096 - k * 4096) with ((j - k) * 4096) by lia. rewrite Z.div_mul by done. lia. Qed.
Lemma page_down_div x : (4096 | page_down x).
Proof. by exists (x / 4096). Qed.
Lemma page_up_div x : (4096 | page_up x).
Proof. by exists ((x + 4095) / 4096). Qed.

Section layout.
Context (hhdm pfndb_db pfndb_max : Z) (img : image) (memmap : list memmap_entry) (fb : option framebuffer) (ka : kernel_address).

(** [P] bounds physical memory: its direct map lies below the kernel. *)
Record layout_ok (P : Z) : Prop := {
  ly_hhdm : 2 ^ 64 - 2 ^ 47 <= hhdm;
  ly_hhdm_page : (4096 | hhdm);
  ly_P : (4096 | P);
  ly_below : hhdm + P <= kernel_start img;
  ly_entries : forall e, e ∈ memmap -> 0 <= me_base e /\ 0 <= me_length e /\ me_base e + me_length e <= P;
  ly_some : exists e, e ∈ memmap /\ 0 < me_base e + me_length e;
  ly_pfndb : hhdm <= pfndb_db /\ 0 <= pfndb_max /\ pfndb_db + (pfndb_max + 1) * sizeof_page <= hhdm + P;
  ly_pages : (4096 | kernel_start img) /\ (4096 | text_start img) /\ (4096 | rodata_start img) /\ (4096 | data_start img) /\ (4096 | kernel_end img);
  ly_order : kernel_start img <= text_start img <= text_end img /\ text_end img <= rodata_start img <= rodata_end img /\
    rodata_end img <= data_start img <= kernel_end img;
  ly_image : kernel_start img < kernel_end img < 2 ^ 64 - 4096;
  ly_virtual : ka_virtual_base ka = kernel_start img;
  ly_physical : 0 <= ka_physical_base ka /\ (4096 | ka_physical_base ka) /\ ka_physical_base ka + (kernel_end img - kernel_start img) <= 2 ^ 52;
  ly_fb : forall f a, fb_virt fb = Some (f, a) -> hhdm <= a /\ 0 < fb_pitch f * fb_height f /\ a + fb_pitch f * fb_height f <= hhdm + P }.

(** The direct map of the frames from [a] to [b]. *)
Definition direct (a b : Z) : list region :=
  let a := page_down a in let b := page_up b in
  if b <=? a then [] else [mk_region (hhdm + a) a ((b - a) / 4096) KERNEL_RW].
Definition segment (a b flags : Z) : list region :=
  let a := page_down a in let b := page_up b in
  if b <=? a then [] else [mk_region a (ka_physical_base ka + (a - kernel_start img)) ((b - a) / 4096) flags].

Definition hhdm_regions (l : list memmap_entry) : list region := l ≫= fun e => direct (me_base e) (me_base e + me_length e).
Definition fb_regions : list region := match fb_virt fb with None => [] | Some (f, a) => direct (a - hhdm) (a - hhdm + fb_pitch f * fb_height f) end.
Definition direct_regions : list region :=
  hhdm_regions memmap ++ direct (pfndb_db - hhdm) (pfndb_db - hhdm + (pfndb_max + 1) * sizeof_page).
Definition FLAGS_REQUESTS : Z := Z.lor (Z.lor PAGE_PRESENT PAGE_WRITE) PAGE_GLOBAL.
Definition FLAGS_TEXT : Z := Z.lor PAGE_PRESENT PAGE_GLOBAL.
Definition FLAGS_RODATA : Z := Z.lor (Z.lor PAGE_PRESENT PAGE_GLOBAL) PAGE_NX.
Definition image_regions : list region :=
  segment (kernel_start img) (text_start img) FLAGS_REQUESTS ++ segment (text_start img) (text_end img) FLAGS_TEXT ++
  segment (rodata_start img) (rodata_end img) FLAGS_RODATA ++ segment (data_start img) (kernel_end img) KERNEL_RW.
Definition all_regions : list region := direct_regions ++ image_regions ++ fb_regions.

Context (P : Z) (L : layout_ok P).

Lemma P_range : 0 <= P <= 2 ^ 47 - 4096.
Proof.
  destruct (ly_some P L) as (e & He & He0). destruct (ly_entries P L e He) as (? & ? & ?).
  pose proof (ly_hhdm P L). pose proof (ly_below P L). pose proof (ly_image P L).
  destruct (ly_P P L) as [k Hk]. destruct (ly_hhdm_page P L) as [j Hj]. lia.
Qed.
Lemma hhdm_range : 0 <= hhdm /\ hhdm + P < 2 ^ 64 - 4096.
Proof. pose proof (ly_hhdm P L). pose proof (ly_below P L). pose proof (ly_image P L). lia. Qed.

(** Where the regions are, and what they say of an address they hold. *)
Lemma direct_ok a b g : 0 <= a -> b <= P -> g ∈ direct a b -> region_ok g /\
  (forall w, holds g w -> hhdm <= w < hhdm + P /\ rg_phys g + (w - rg_virt g) = w - hhdm) /\ rg_flags g = KERNEL_RW.
Proof.
  intros Ha Hb. unfold direct. destruct (Z.leb_spec (page_up b) (page_down a)) as [|Hlt]; [intros Hg; by apply elem_of_nil in Hg|].
  intros ->%list_elem_of_singleton. pose proof (page_up_le b P Hb (ly_P P L)). pose proof (page_down_div a) as Hda. pose proof (page_up_div b) as Hdb.
  pose proof (page_bounds a). assert (0 <= page_down a) by (unfold page_down; pose proof (Z.div_pos a 4096); lia).
  pose proof (page_div _ _ Hda Hdb) as Hd. pose proof hhdm_range. pose proof P_range. pose proof (ly_hhdm P L).
  split; [|split; [|done]].
  - split; cbn; try lia; [|done]. apply Z.divide_add_r; [apply (ly_hhdm_page P L)|done].
  - unfold holds. cbn. intros w Hw. lia.
Qed.

Lemma direct_covers a b w : 0 <= a -> b <= P -> hhdm + a <= w < hhdm + b -> exists g, g ∈ direct a b /\ holds g w.
Proof.
  intros Ha Hb Hw. unfold direct. pose proof (page_bounds a). pose proof (page_bounds b).
  rewrite (proj2 (Z.leb_gt _ _)) by lia. eexists. split; [by apply list_elem_of_singleton|]. unfold holds. cbn.
  rewrite page_div by (apply page_down_div || apply page_up_div). lia.
Qed.

Lemma segment_ok a b f g : (4096 | a) -> (4096 | b) -> kernel_start img <= a -> b <= kernel_end img -> forall b', b' <= b -> g ∈ segment a b' f ->
  region_ok g /\ (forall w, holds g w -> a <= w < b /\ w < page_up b' /\ rg_phys g + (w - rg_virt g) = ka_physical_base ka + (w - kernel_start img)) /\ rg_flags g = f.
Proof.
  intros Hpa Hpb Ha Hb b' Hb'. unfold segment. rewrite (page_down_id a) by done. pose proof (page_up_le b' b Hb' Hpb).
  destruct (Z.leb_spec (page_up b') a) as [|Hlt]; [intros Hg; by apply elem_of_nil in Hg|]. intros ->%list_elem_of_singleton.
  pose proof (page_div _ _ Hpa (page_up_div b')) as Hd. pose proof (ly_physical P L) as (? & Hpp & ?). destruct (ly_pages P L) as (Hk & _).
  pose proof (ly_image P L). pose proof (ly_below P L). pose proof (ly_hhdm P L). pose proof P_range. split; [|split; [|done]].
  - split; cbn; try lia; [done|]. apply Z.divide_add_r; [done|]. by apply Z.divide_sub_r.
  - unfold holds. cbn. intros w Hw. lia.
Qed.

Lemma segment_covers a b f w : (4096 | a) -> a <= w < b -> exists g, g ∈ segment a b f /\ holds g w.
Proof.
  intros Ha Hw. unfold segment. rewrite (page_down_id a) by done. pose proof (page_bounds b).
  rewrite (proj2 (Z.leb_gt _ _)) by lia. eexists. split; [by apply list_elem_of_singleton|]. unfold holds. cbn.
  rewrite page_div by (done || apply page_up_div). lia.
Qed.

Lemma direct_maps {S} `{PageSourceLaws S} a b : 0 <= a -> b <= P -> page_down a < page_up b ->
  maps (S := S) (kernel_map (u64 (hhdm + page_down a)) (page_down a) (u64 (page_up b - page_down a)) KERNEL_RW) (direct a b).
Proof.
  intros Ha Hb Hlt. pose proof (page_up_le b P Hb (ly_P P L)). pose proof (page_bounds a). pose proof hhdm_range. pose proof P_range.
  assert (0 <= page_down a) by (unfold page_down; pose proof (Z.div_pos a 4096); lia). rewrite !u64_small by lia.
  pose proof (direct_ok a b) as Hok. unfold direct in *. rewrite (proj2 (Z.leb_gt _ _)) in * by lia.
  rewrite <- (page_div (page_down a) (page_up b)) at 1 by (apply page_down_div || apply page_up_div).
  apply kernel_map_ok. by apply Hok; [..|apply list_elem_of_singleton].
Qed.

Lemma aligned_down x : 0 <= x <= P -> PAGE_ALIGN_DOWN x = page_down x.
Proof. intros Hx. pose proof P_range. apply align_down. lia. Qed.
Lemma aligned_up x : 0 <= x <= P -> PAGE_ALIGN_UP x = page_up x.
Proof. intros Hx. pose proof P_range. apply align_up. lia. Qed.

Lemma map_hhdm_ok {S} `{PageSourceLaws S} l : (forall e, e ∈ l -> e ∈ memmap) -> maps (S := S) (map_hhdm hhdm l) (hhdm_regions l).
Proof.
  induction l as [|e l IH]; intros Hl; [by apply maps_none|]. destruct (ly_entries P L e) as (H1 & H2 & H3); [apply Hl; set_solver|].
  specialize (IH ltac:(intros e' He'; apply Hl; set_solver)). pose proof P_range.
  cbn [map_hhdm]. rewrite (u64_small (_ + _)) by lia. rewrite aligned_down, aligned_up by lia.
  change (hhdm_regions (e :: l)) with (direct (me_base e) (me_base e + me_length e) ++ hhdm_regions l).
  destruct (Z.leb_spec (page_up (me_base e + me_length e)) (page_down (me_base e))) as [Hle|Hlt].
  - unfold direct. by rewrite (proj2 (Z.leb_le _ _)).
  - apply maps_then; [by apply direct_maps; try lia|done].
Qed.

Lemma map_pfndb_ok {S} `{PageSourceLaws S} : maps (S := S) (map_pfndb hhdm pfndb_db pfndb_max)
  (direct (pfndb_db - hhdm) (pfndb_db - hhdm + (pfndb_max + 1) * sizeof_page)).
Proof.
  destruct (ly_pfndb P L) as (H1 & H2 & H3). unfold sizeof_page in *. pose proof P_range. pose proof hhdm_range.
  unfold map_pfndb, VIRT_TO_PHYS, sizeof_page. rewrite (u64_small (pfndb_max + 1)), (u64_small (_ * _)), (u64_small (pfndb_db - hhdm)), (u64_small (_ + _ * _)) by lia.
  rewrite aligned_down, aligned_up by lia. pose proof (page_bounds (pfndb_db - hhdm)). pose proof (page_bounds (pfndb_db - hhdm + (pfndb_max + 1) * 64)).
  apply direct_maps; lia.
Qed.

Lemma page_down_shift a k : (4096 | k) -> page_down (k + a) = k + page_down a /\ page_up (k + a) = k + page_up a.
Proof.
  intros [j ->]. unfold page_down, page_up. replace (j * 4096 + a + 4095) with (a + 4095 + j * 4096) by lia.
  rewrite (Z.add_comm (j * 4096) a), !Z.div_add by done. lia.
Qed.

Lemma map_framebuffer_ok {S} `{PageSourceLaws S} : maps (S := S) (map_framebuffer hhdm fb) fb_regions.
Proof.
  unfold map_framebuffer, fb_regions. destruct (fb_virt fb) as [[f a]|] eqn:Hf; [|by apply maps_none].
  destruct (ly_fb P L f a Hf) as (H1 & H2 & H3). pose proof P_range. pose proof hhdm_range. unfold fb_size, VIRT_TO_PHYS.
  rewrite (u64_small (_ * _)), (u64_small (a + _)) by lia. rewrite (proj2 (Z.leb_le hhdm a)) by done.
  rewrite align_down, align_up by lia. fold (page_down a) (page_up (a + fb_pitch f * fb_height f)).
  destruct (page_down_shift (a - hhdm) hhdm (ly_hhdm_page P L)) as [Ed _]. destruct (page_down_shift (a - hhdm + fb_pitch f * fb_height f) hhdm (ly_hhdm_page P L)) as [_ Eu].
  replace (hhdm + (a - hhdm)) with a in Ed by lia. replace (hhdm + (a - hhdm + fb_pitch f * fb_height f)) with (a + fb_pitch f * fb_height f) in Eu by lia.
  pose proof (page_bounds (a - hhdm)). pose proof (page_bounds (a - hhdm + fb_pitch f * fb_height f)).
  assert (0 <= page_down (a - hhdm)) by (unfold page_down; pose proof (Z.div_pos (a - hhdm) 4096); lia).
  rewrite Ed, Eu. replace (hhdm + page_down (a - hhdm) - hhdm) with (page_down (a - hhdm)) by lia. rewrite (u64_small (page_down _)) by lia.
  replace (hhdm + page_up (a - hhdm + fb_pitch f * fb_height f) - (hhdm + page_down (a - hhdm))) with
    (page_up (a - hhdm + fb_pitch f * fb_height f) - page_down (a - hhdm)) by lia.
  rewrite <- (u64_small (hhdm + page_down (a - hhdm))) by lia. apply direct_maps; lia.
Qed.

Lemma segment_maps {S} `{PageSourceLaws S} a b b' f : (4096 | a) -> (4096 | b) -> kernel_start img <= a -> a <= b <= kernel_end img -> b' <= b -> 0 <= b' ->
  maps (S := S) (map_kernel_segment a b' (ka_physical_base ka) (ka_virtual_base ka) f) (segment a b' f).
Proof.
  intros Hpa Hpb Ha Hb Hb' Hb0. pose proof (segment_ok a b f) as Hok. unfold map_kernel_segment, segment in *.
  pose proof (ly_image P L). pose proof (ly_physical P L) as (? & Hpp & ?). pose proof (ly_below P L). pose proof hhdm_range. pose proof P_range.
  pose proof (page_up_le b' b Hb' Hpb). rewrite align_down, align_up by lia. fold (page_down a) (page_up b').
  destruct (Z.leb_spec (page_up b') (page_down a)) as [|Hlt]; [by apply maps_none|]. rewrite (page_down_id a) in * by done.
  rewrite (ly_virtual P L), (u64_small (a - _)), (u64_small (ka_physical_base ka + _)), (u64_small (page_up b' - a)) by lia. rewrite <- (page_div a (page_up b')) at 1 by (done || apply page_up_div).
  apply kernel_map_ok. eapply (Hok _); [done|done|done|lia|exact Hb'|]. rewrite (proj2 (Z.leb_gt _ _)) by lia. by apply list_elem_of_singleton.
Qed.
End layout.

(** ** The root, and the areas *)

Section areas.
Context {S : Type} `{PageSourceLaws S}.

Lemma root_ok (s : machine S) held : ps_ok (m_src s) held ->
  (exists s', alloc_table s = Ok (0, s') /\ supplies 1 (m_src s) = false) \/
  exists p s', alloc_table s = Ok (p, s') /\ p <> 0 /\ (forall k, supplies (1 + k) (m_src s) = true -> supplies k (m_src s') = true) /\
    (exists lab held', tree s' lab held' /\ lab !! table_virt p = Some (table_virt p, [])) /\
    forall w, leaf_entry (m_ram s') (table_virt p) w = 0.
Proof.
  intros Hok. assert (Ht : tree s ∅ held) by (destruct s; by apply tree_empty).
  destruct (alloc_table_ok s ∅ held Ht) as (p & s1 & Ha & _). pose proof (fun k => alloc_table_needs _ _ _ k Ha) as Hn. unfold nonzero in Hn.
  destruct (Z.eqb_spec p 0) as [->|Hp]; [left|right].
  { exists s1. split; [done|]. destruct (supplies 1 (m_src s)) eqn:Hs; [|done]. by destruct (Hn 0%nat Hs). }
  destruct (ptable_create_ok s ∅ held None Ht ltac:(done)) as (r & s2 & lab & held' & Hr & Ht2 & _ & _ & Hres).
  unfold ptable_create in Hr. rewrite (st_bind_ok _ _ _ _ _ Ha), (proj2 (Z.eqb_neq p 0)) in Hr by done. injection Hr as <- <-.
  destruct Hres as (_ & Hlab & Hleaf). exists p, s1. do 2 (split; [done|]). split; [intros k Hs; by apply Hn|]. split; [by exists lab, held'|exact Hleaf].
Qed.

Lemma add_static_vad_ok (s : boot S) start end_ flags (Q : Z -> Prop) :
  vads_ok 0 (vas_list (bt_kvas s)) -> (forall x, covers (vas_list (bt_kvas s)) x <-> Q x) ->
  vad_ok (mk_vad start end_ flags) -> (forall x, start <= x < end_ -> ~ Q x) ->
  exists v, add_static_vad start end_ flags s = Ok (tt, set_kvas v s) /\ vas_pml4 v = vas_pml4 (bt_kvas s) /\
  vads_ok 0 (vas_list v) /\ forall x, covers (vas_list v) x <-> start <= x < end_ \/ Q x.
Proof.
  intros Hok Hc Ha Hd. set (a := mk_vad start end_ flags). destruct (Ha) as (H1 & H2 & H3 & H4). cbn in H1, H2, H3, H4.
  exists (vad_insert (bt_kvas s) a). split; [|split; [done|split]].
  - unfold add_static_vad. rewrite gets_bind. unfold vas_add. cbn [vad_start vad_end].
    rewrite (proj2 (Z.leb_gt _ _)), !low_bits_aligned by (done || lia). cbn [orb].
    destruct (vas_overlaps _ _ _) eqn:Ho; [|done]. exfalso. unfold vas_overlaps in Ho.
    apply (overlaps_spec _ 0) in Ho as (x & Hx & Hcx); [|done|lia]. apply (Hd x Hx). by apply Hc.
  - apply insert_ok; [done|done|cbn; lia|]. intros x Hx Hcx. apply (Hd x Hx). by apply Hc.
  - intros x. cbn [vas_list vad_insert set_list]. rewrite insert_covers, Hc. done.
Qed.
End areas.

Section tops.
Context (hhdm pfndb_db pfndb_max : Z) (img : image) (memmap : list memmap_entry) (fb : option framebuffer) (ka : kernel_address).
Context (P : Z) (L : layout_ok hhdm pfndb_db pfndb_max img memmap fb ka P).

Lemma top_loop_ok l : forall top, (forall e, e ∈ l -> e ∈ memmap) -> 0 <= top <= P ->
  top <= top_loop l top <= P /\ forall e, e ∈ l -> me_base e + me_length e <= top_loop l top.
Proof.
  pose proof (P_range _ _ _ _ _ _ _ P L). induction l as [|e l IH]; intros top Hl Ht; cbn [top_loop]; [split; [lia|intros e He; by apply elem_of_nil in He]|].
  destruct (ly_entries _ _ _ _ _ _ _ P L e) as (H1 & H2 & H3); [apply Hl; set_solver|]. rewrite u64_small by lia.
  set (t := if top <? me_base e + me_length e then me_base e + me_length e else top).
  assert (top <= t <= P /\ me_base e + me_length e <= t) by (unfold t; destruct (Z.ltb_spec top (me_base e + me_length e)); lia).
  destruct (IH t) as [I1 I2]; [intros e' He'; apply Hl; set_solver|lia|]. split; [lia|].
  intros e' [->|He']%elem_of_cons; [lia|by apply I2].
Qed.

Lemma memmap_top_ok : 0 < memmap_top memmap <= P /\ (4096 | memmap_top memmap) /\ forall e, e ∈ memmap -> me_base e + me_length e <= memmap_top memmap.
Proof.
  pose proof (P_range _ _ _ _ _ _ _ P L). destruct (top_loop_ok memmap 0 ltac:(done) ltac:(lia)) as [H1 H2].
  unfold memmap_top. rewrite align_up by lia. fold (page_up (top_loop memmap 0)). pose proof (page_bounds (top_loop memmap 0)).
  pose proof (page_up_le (top_loop memmap 0) P ltac:(lia) (ly_P _ _ _ _ _ _ _ P L)). destruct (ly_some _ _ _ _ _ _ _ P L) as (e & He & He0).
  pose proof (H2 e He). split; [lia|]. split; [apply page_up_div|]. intros e' He'. pose proof (H2 e' He'). lia.
Qed.

(** The areas: the direct map, the image, and the pages of a framebuffer that
    lies above the direct map. *)
Definition fb_area (x : Z) : Prop := exists f a, fb_virt fb = Some (f, a) /\
  hhdm + memmap_top memmap <= page_down a /\ page_down a <= x < page_up (a + fb_pitch f * fb_height f).
Definition area (x : Z) : Prop :=
  hhdm <= x < hhdm + memmap_top memmap \/ kernel_start img <= x < kernel_end img \/ fb_area x.

Context {S : Type} `{PageSourceLaws S}.

Lemma fb_vad_ok (s : boot S) : vads_ok 0 (vas_list (bt_kvas s)) ->
  (forall x, covers (vas_list (bt_kvas s)) x <-> kernel_start img <= x < kernel_end img \/ hhdm <= x < hhdm + memmap_top memmap) ->
  exists v, fb_vad fb s = Ok (tt, set_kvas v s) /\ vas_pml4 v = vas_pml4 (bt_kvas s) /\
  vads_ok 0 (vas_list v) /\ forall x, covers (vas_list v) x <-> area x.
Proof.
  intros Hok Hc. assert (Hsame : set_kvas (bt_kvas s) s = s) by (by destruct s). unfold fb_vad, area, fb_area.
  destruct (fb_virt fb) as [[f a]|] eqn:Hf; [|exists (bt_kvas s); rewrite Hsame; do 3 (split; [done|]); intros x; rewrite Hc; naive_solver].
  destruct (ly_fb _ _ _ _ _ _ _ P L f a Hf) as (H1 & H2 & H3). pose proof (P_range _ _ _ _ _ _ _ P L). pose proof (hhdm_range _ _ _ _ _ _ _ P L).
  pose proof (ly_below _ _ _ _ _ _ _ P L) as Hb. destruct memmap_top_ok as (Ht & _). unfold fb_size.
  rewrite (u64_small (_ * _)), (u64_small (a + _)) by lia. rewrite align_down, align_up by lia.
  fold (page_down a) (page_up (a + fb_pitch f * fb_height f)). rewrite gets_bind.
  pose proof (page_down_le hhdm a H1) as Hda. rewrite (page_down_id hhdm) in Hda by apply (ly_hhdm_page _ _ _ _ _ _ _ P L).
  pose proof (page_bounds a). pose proof (page_bounds (a + fb_pitch f * fb_height f)).
  assert (Hup : page_up (a + fb_pitch f * fb_height f) <= hhdm + P).
  { apply page_up_le; [lia|]. apply Z.divide_add_r; [apply (ly_hhdm_page _ _ _ _ _ _ _ P L)|apply (ly_P _ _ _ _ _ _ _ P L)]. }
  pose proof (find_loop_ok (vas_list (bt_kvas s)) 0 (page_down a) Hok) as Hfind. unfold vas_find. cbn [mbind option_bind].
  destruct (find_loop _ _) as [b|].
  - exists (bt_kvas s). rewrite Hsame. do 3 (split; [done|]). intros x. rewrite Hc.
    assert (Hin : covers (vas_list (bt_kvas s)) (page_down a)) by (exists b; done). rewrite Hc in Hin.
    split; [intros [?|?]; auto|]. intros [?|[?|(f' & a' & E & ? & ?)]]; auto. injection E as <- <-. lia.
  - rewrite Hc in Hfind. edestruct (add_static_vad_ok s (page_down a) (page_up (a + fb_pitch f * fb_height f))) as (v & Hv & Hp & Hvo & Hvc);
      [exact Hok|exact Hc| | |exists v; split; [exact Hv|split; [exact Hp|split; [exact Hvo|]]]].
    + split; [cbn; lia|]. split; [cbn; lia|]. split; [apply page_down_div|apply page_up_div].
    + intros x Hx. cbn beta. lia.
    + intros x. rewrite Hvc. split; [|intros [?|[?|(f' & a' & E & ? & ?)]]; auto; injection E as <- <-; auto].
      intros [?|[?|?]]; auto. right. right. exists f, a. split; [done|]. lia.
Qed.
End tops.

(** ** The whole of paging_init *)

Section whole.
Context (hhdm pfndb_db pfndb_max : Z) (img : image) (memmap : list memmap_entry) (fb : option framebuffer) (ka : kernel_address).
Context (P : Z) (L : layout_ok hhdm pfndb_db pfndb_max img memmap fb ka P).
Context {S : Type} `{PageSourceLaws S}.

Abbreviation regions := (all_regions hhdm pfndb_db pfndb_max img memmap fb ka).
Abbreviation run_init := (paging_init (S := S) hhdm pfndb_db pfndb_max img (Some memmap) fb (Some ka)).

#[local] Ltac map_step Hm l s1 Hm1 C1 := match goal with |- context [(must ?f ;; ?k) ?s] =>
  let Hf := fresh in assert (Hf : maps f l);
  [|destruct (must_ok f l k _ _ _ _ s Hf Hm) as [(s1 & -> & Hm1 & C1)|[-> ?]]; [clear Hf Hm|left; split; [done|eapply supplies_short; [|eassumption]; rewrite ?(assoc_L (++)), !cost_app; change (cost []) with 1%nat; unfold cost; lia]]] end.

(** The five calls that map, in order. *)
Lemma map_all_ok {B} (k : ST (boot S) B) root src0 v s : Mapped root src0 v [] s ->
  let seg s e flags := map_kernel_segment s e (ka_physical_base ka) (ka_virtual_base ka) flags in
  let all := (must (map_hhdm hhdm memmap) ;; must (map_pfndb hhdm pfndb_db pfndb_max) ;;
    must (seg (kernel_start img) (text_start img) FLAGS_REQUESTS) ;; must (seg (text_start img) (text_end img) FLAGS_TEXT) ;;
    must (seg (rodata_start img) (rodata_end img) FLAGS_RODATA) ;; must (seg (data_start img) (kernel_end img) KERNEL_RW) ;;
    must (map_framebuffer hhdm fb) ;; k) in
  (all s = Panic /\ supplies (cost regions) src0 = false) \/ exists s', all s = k s' /\ Mapped root src0 v regions s' /\ bt_cr4 s' = bt_cr4 s.
Proof.
  intros Hm seg all. unfold all, seg, all_regions, direct_regions, image_regions.
  destruct (ly_pages _ _ _ _ _ _ _ P L) as (Hk & Ht & Hr & Hd & He). destruct (ly_order _ _ _ _ _ _ _ P L) as (O1 & O2 & O3).
  pose proof (ly_image _ _ _ _ _ _ _ P L). pose proof (ly_below _ _ _ _ _ _ _ P L). pose proof (hhdm_range _ _ _ _ _ _ _ P L). pose proof (P_range _ _ _ _ _ _ _ P L).
  pose proof (fun a b b' f => segment_maps hhdm pfndb_db pfndb_max img memmap fb ka P L (S := S) a b b' f) as Hs.
  map_step Hm (hhdm_regions hhdm memmap) s1 Hm1 C1; [by apply (map_hhdm_ok _ _ _ _ _ _ _ P L)|].
  map_step Hm1 (direct hhdm (pfndb_db - hhdm) (pfndb_db - hhdm + (pfndb_max + 1) * sizeof_page)) s2 Hm2 C2; [by apply (map_pfndb_ok _ _ _ _ _ _ _ P L)|].
  map_step Hm2 (segment img ka (kernel_start img) (text_start img) FLAGS_REQUESTS) s3 Hm3 C3; [apply (Hs _ (text_start img)); done || lia|].
  map_step Hm3 (segment img ka (text_start img) (text_end img) FLAGS_TEXT) s4 Hm4 C4; [apply (Hs _ (rodata_start img)); done || lia|].
  map_step Hm4 (segment img ka (rodata_start img) (rodata_end img) FLAGS_RODATA) s5 Hm5 C5; [apply (Hs _ (data_start img)); done || lia|].
  map_step Hm5 (segment img ka (data_start img) (kernel_end img) KERNEL_RW) s6 Hm6 C6; [apply (Hs _ (kernel_end img)); done || lia|].
  map_step Hm6 (fb_regions hhdm fb) s7 Hm7 C7; [by apply (map_framebuffer_ok _ _ _ _ _ _ _ P L)|].
  right. exists s7. split; [done|]. split; [|congruence]. by rewrite <- !(assoc_L (++)) in *.
Qed.

Lemma areas_ok {B} (k : ST (boot S) B) root src0 s : Mapped root src0 (mk_vas (Some root) [] VAS_USER_START) regions s ->
  exists v, (add_static_vad hhdm (u64 (hhdm + memmap_top memmap)) (Z.lor (Z.lor KERNEL_RW VAD_HHDM) VAD_KERNEL) ;;
    add_static_vad (kernel_start img) (kernel_end img) (Z.lor (Z.lor (Z.lor PAGE_PRESENT PAGE_WRITE) PAGE_GLOBAL) VAD_KERNEL) ;;
    fb_vad fb ;; k) s = k (set_kvas v s) /\
  Mapped root src0 v regions (set_kvas v s) /\ vads_ok 0 (vas_list v) /\ forall x, covers (vas_list v) x <-> area hhdm img memmap fb x.
Proof.
  intros [Hv Hr Ht Hl Hd]. destruct (memmap_top_ok _ _ _ _ _ _ _ P L) as (Htop & Htp & _).
  pose proof (ly_image _ _ _ _ _ _ _ P L). pose proof (ly_below _ _ _ _ _ _ _ P L). pose proof (hhdm_range _ _ _ _ _ _ _ P L).
  destruct (ly_pages _ _ _ _ _ _ _ P L) as (Hk & _ & _ & _ & He). pose proof (ly_hhdm_page _ _ _ _ _ _ _ P L) as Hh.
  rewrite u64_small by lia.
  destruct (add_static_vad_ok s hhdm (hhdm + memmap_top memmap) (Z.lor (Z.lor KERNEL_RW VAD_HHDM) VAD_KERNEL) (fun _ => False)) as (v1 & A1 & P1 & O1 & V1).
  { by rewrite Hv. } { intros x. rewrite Hv. split; [apply covers_nil|done]. }
  { split; [cbn; lia|]. split; [cbn; lia|]. split; [done|by apply Z.divide_add_r]. } { tauto. }
  destruct (add_static_vad_ok (set_kvas v1 s) (kernel_start img) (kernel_end img)
    (Z.lor (Z.lor (Z.lor PAGE_PRESENT PAGE_WRITE) PAGE_GLOBAL) VAD_KERNEL) _ O1 V1) as (v2 & A2 & P2 & O2 & V2).
  { split; [cbn; lia|]. split; [cbn; lia|]. by split. } { intros x Hx. cbn beta. lia. }
  destruct (fb_vad_ok _ _ _ _ _ _ _ P L (set_kvas v2 (set_kvas v1 s)) O2) as (v3 & A3 & P3 & O3 & V3).
  { intros x. cbn [set_kvas bt_kvas]. rewrite V2. tauto. }
  exists v3. rewrite (st_bind_ok _ _ _ _ _ A1), (st_bind_ok _ _ _ _ _ A2), (st_bind_ok _ _ _ _ _ A3). split; [done|].
  split; [|done]. split; cbn [set_kvas bt_kvas bt_mach] in *; try done. by rewrite P3, P2, P1, Hv.
Qed.

Lemma paging_init_ok (s : boot S) held : ps_ok (m_src (bt_mach s)) held ->
  (run_init s = Panic /\ supplies (cost regions) (m_src (bt_mach s)) = false) \/
  exists s' root, run_init s = Ok (tt, s') /\ m_cr3 (bt_mach s') = root /\ bt_cr4 s' = Z.lor (bt_cr4 s) X86_CR4_PGE /\
    Mapped root (m_src (bt_mach s)) (bt_kvas s') regions s' /\
    vads_ok 0 (vas_list (bt_kvas s')) /\ forall x, covers (vas_list (bt_kvas s')) x <-> area hhdm img memmap fb x.
Proof.
  intros Hok. unfold paging_init. rewrite (proj2 (Z.eqb_eq _ _) (ly_virtual _ _ _ _ _ _ _ P L)). cbn [negb panic_if].
  rewrite (st_bind_ok (mret tt) _ s tt s) by done. rewrite !modify_bind.
  set (m0 := mk_mach (m_ram (bt_mach s)) 0 (m_cr3 (bt_mach s)) (m_src (bt_mach s))).
  set (s1 := mk_boot m0 (mk_vas None [] 0) (Z.lor (bt_cr4 s) X86_CR4_PGE)).
  rewrite (st_bind_ok (on_mach (modify _)) _ _ tt s1) by done.
  destruct (root_ok m0 held Hok) as [(m1 & Ha & Hex)|(p & m1 & Ha & Hp & Hd & Ht & Hl)].
  { left. split; [|eapply supplies_short; [|exact Hex]; unfold cost; lia]. unfold mbind, st_bind. unfold on_mach at 1. cbn [bt_mach s1]. by rewrite Ha. }
  rewrite (st_bind_ok (on_mach alloc_table) _ s1 p (mk_boot m1 (bt_kvas s1) (bt_cr4 s1))) by (unfold on_mach; cbn [bt_mach s1]; by rewrite Ha).
  rewrite (proj2 (Z.eqb_neq p 0)) by done. cbn [panic_if]. rewrite (st_bind_ok (mret tt) _ _ tt _ eq_refl), modify_bind.
  set (root := table_virt p) in *. set (v := mk_vas _ _ _). set (s2 := set_kvas v _).
  assert (Hm : Mapped root (m_src (bt_mach s)) v [] s2) by (by split).
  match goal with |- context [(must (map_framebuffer _ _) ;; ?k)] => destruct (map_all_ok k root _ v s2 Hm) as [[Hpanic Hex]|(s3 & He & Hm3 & C3)] end;
    [left; split; [exact Hpanic|exact Hex]|right].
  match type of He with _ = (_ ;; _ ;; _ ;; ?k) s3 => destruct (areas_ok k root _ s3 Hm3) as (v' & Ev & Hm4 & Hvo & Hvc) end.
  exists (mk_boot (mk_mach (m_ram (bt_mach s3)) (m_tables (bt_mach s3)) root (m_src (bt_mach s3))) v' (bt_cr4 s3)), root.
  split.
  { etransitivity; [exact He|]. etransitivity; [exact Ev|]. rewrite gets_bind. unfold on_mach, vas_switch, vas_root.
    cbn [set_kvas bt_kvas bt_mach mbind option_bind]. rewrite (mp_root _ _ _ _ _ Hm4). done. }
  split; [done|]. split; [exact C3|]. split; [|done]. destruct Hm4 as [_ H1 (lab & held' & Ht4 & Hroot) H3 H4]. split; try done.
  exists lab, held'. split; [|done]. by destruct Ht4.
Qed.

(** *** What an address reads as *)

Definition in_direct (g : region) : Prop := region_ok g /\
  (forall w, holds g w -> hhdm <= w < hhdm + P /\ rg_phys g + (w - rg_virt g) = w - hhdm) /\ rg_flags g = KERNEL_RW.
Definition in_segment (a b f : Z) (g : region) : Prop := region_ok g /\
  (forall w, holds g w -> a <= w < b /\ rg_phys g + (w - rg_virt g) = ka_physical_base ka + (w - kernel_start img)) /\ rg_flags g = f.

Lemma direct_in a b g : 0 <= a -> b <= P -> g ∈ direct hhdm a b -> in_direct g.
Proof. apply (direct_ok _ _ _ _ _ _ _ P L). Qed.

Lemma segment_in a b b' f g : (4096 | a) -> (4096 | b) -> kernel_start img <= a -> b <= kernel_end img -> b' <= b -> g ∈ segment img ka a b' f -> in_segment a b f g.
Proof.
  intros Ha Hb H1 H2 H3 Hg. destruct (segment_ok _ _ _ _ _ _ _ P L a b f g Ha Hb H1 H2 b' H3 Hg) as (Ho & Hh & Hf).
  split; [done|]. split; [|done]. intros w Hw. destruct (Hh w Hw) as (? & _ & ?). done.
Qed.

Lemma region_cases g : g ∈ regions -> in_direct g \/ in_segment (kernel_start img) (text_start img) FLAGS_REQUESTS g \/
  in_segment (text_start img) (rodata_start img) FLAGS_TEXT g \/ in_segment (rodata_start img) (data_start img) FLAGS_RODATA g \/
  in_segment (data_start img) (kernel_end img) KERNEL_RW g.
Proof.
  destruct (ly_pages _ _ _ _ _ _ _ P L) as (Hk & Ht & Hr & Hd & He). destruct (ly_order _ _ _ _ _ _ _ P L) as (O1 & O2 & O3).
  destruct (ly_pfndb _ _ _ _ _ _ _ P L) as (F1 & F2 & F3).
  unfold all_regions, direct_regions, image_regions, fb_regions, hhdm_regions. rewrite !elem_of_app.
  intros [[(e & Hg & Hm)%list_elem_of_bind|Hg]|[[Hg|[Hg|[Hg|Hg]]]|Hg]].
  - left. destruct (ly_entries _ _ _ _ _ _ _ P L e Hm) as (E1 & E2 & E3). by apply direct_in in Hg.
  - left. apply direct_in in Hg; [done|lia|lia].
  - right; left. apply (segment_in _ (text_start img)) in Hg; [done|done|done|lia..].
  - right; right; left. apply (segment_in _ (rodata_start img)) in Hg; [done|done|done|lia..].
  - right; right; right; left. apply (segment_in _ (data_start img)) in Hg; [done|done|done|lia..].
  - right; right; right; right. apply (segment_in _ (kernel_end img)) in Hg; [done|done|done|lia..].
  - left. destruct (fb_virt fb) as [[f a]|] eqn:Hf; [|by apply elem_of_nil in Hg].
    destruct (ly_fb _ _ _ _ _ _ _ P L f a Hf) as (? & ? & ?). apply direct_in in Hg; [done|lia|lia].
Qed.

Lemma regions_ok : Forall region_ok regions.
Proof. apply Forall_forall. intros g [(? & _)|[(? & _)|[(? & _)|[(? & _)|(? & _)]]]]%region_cases; done. Qed.

(** The window an address lies in says what it reads as. *)
Definition reads_as (w p f : Z) : Prop :=
  (hhdm <= w < hhdm + P /\ p = w - hhdm /\ f = KERNEL_RW) \/
  (kernel_start img <= w < kernel_end img /\ p = ka_physical_base ka + (w - kernel_start img) /\
   f = (if w <? text_start img then FLAGS_REQUESTS else if w <? rodata_start img then FLAGS_TEXT
        else if w <? data_start img then FLAGS_RODATA else KERNEL_RW)).

Lemma region_reads g w : g ∈ regions -> holds g w ->
  reads_as w (entry_phys (region_word g w) w) (entry_prot (region_word g w)).
Proof.
  intros Hg Hw. destruct (ly_order _ _ _ _ _ _ _ P L) as (O1 & O2 & O3).
  pose proof (region_cases g Hg) as Hc. assert (Hok : region_ok g) by (by eapply Forall_forall in Hg; [|apply regions_ok]).
  destruct (region_word_reads g w Hok Hw) as [-> ->].
  destruct Hc as [(_ & Hh & ->)|[(_ & Hh & ->)|[(_ & Hh & ->)|[(_ & Hh & ->)|(_ & Hh & ->)]]]]; destruct (Hh w Hw) as [Hr ->]; [by left|right..];
    (split; [lia|]); (split; [done|]);
    repeat match goal with |- context [w <? ?b] => destruct (Z.ltb_spec w b); [try lia|try lia] end; done.
Qed.

Lemma reads_eq w p f p' f' : reads_as w p f -> reads_as w p' f' -> p' = p /\ f' = f.
Proof. pose proof (ly_below _ _ _ _ _ _ _ P L). intros [(? & -> & ->)|(? & -> & ->)] [(? & -> & ->)|(? & -> & ->)]; try done; lia. Qed.

Lemma reads_upper w p f : reads_as w p f -> upper w.
Proof.
  pose proof (ly_below _ _ _ _ _ _ _ P L). pose proof (ly_hhdm _ _ _ _ _ _ _ P L). pose proof (ly_image _ _ _ _ _ _ _ P L).
  pose proof (P_range _ _ _ _ _ _ _ P L). unfold upper. intros [(? & _)|(? & _)]; lia.
Qed.

Section reading.
Context (root : Z) (src0 : S) (s : boot S) (Hm : Mapped root src0 (bt_kvas s) regions s).
Abbreviation ans := (answers (Some (bt_kvas s)) (bt_mach s)).

Lemma ans_entry w p f : ans w p f <-> p = entry_phys (entries regions w) w /\ f = entry_prot (entries regions w).
Proof. rewrite (answers_iff _ root) by (unfold vas_root; cbn; apply (mp_root _ _ _ _ _ Hm)). by rewrite (mp_leaf _ _ _ _ _ Hm). Qed.

Lemma ans_held w g p f : g ∈ regions -> holds g w -> reads_as w p f -> ans w p f.
Proof.
  intros Hg Hw Hr. apply ans_entry. destruct (entries_upper regions w regions_ok (reads_upper _ _ _ Hr)) as [(g' & Hg' & Hw' & ->)|[Hn _]]; [|by destruct (Hn g)].
  destruct (reads_eq w _ _ _ _ (region_reads g' w Hg' Hw') Hr) as [-> ->]. done.
Qed.

Lemma ans_cases w p f : upper w \/ lower w -> ans w p f -> reads_as w p f \/ (p = 0 /\ f = 0).
Proof.
  intros Hw [-> ->]%ans_entry. destruct Hw as [Hw|Hw]; [|right; by rewrite entries_lower by (done || apply regions_ok)].
  destruct (entries_upper regions w regions_ok Hw) as [(g & Hg & Hh & ->)|[_ ->]]; [left|by right]. by apply region_reads.
Qed.

Lemma ans_lower w : lower w -> ans w 0 0.
Proof. intros Hw. apply ans_entry. by rewrite entries_lower by (done || apply regions_ok). Qed.

Lemma ans_direct a b w : 0 <= a -> b <= P -> (forall g, g ∈ direct hhdm a b -> g ∈ regions) -> hhdm + a <= w < hhdm + b -> ans w (w - hhdm) KERNEL_RW.
Proof.
  intros Ha Hb Hin Hw. destruct (direct_covers hhdm P a b w Ha Hb Hw) as (g & Hg & Hh).
  apply (ans_held w g); [by apply Hin|done|]. left. lia.
Qed.

Lemma ans_segment a b f w : (4096 | a) -> (forall g, g ∈ segment img ka a b f -> g ∈ regions) -> a <= w < b ->
  reads_as w (ka_physical_base ka + (w - kernel_start img)) f -> ans w (ka_physical_base ka + (w - kernel_start img)) f.
Proof. intros Ha Hin Hw Hr. destruct (segment_covers img ka a b f w Ha Hw) as (g & Hg & Hh). by apply (ans_held w g); [apply Hin|..]. Qed.

(** The parts of the image. *)
Lemma ans_image : 
  (forall w, kernel_start img <= w < text_start img -> ans w (ka_physical_base ka + (w - kernel_start img)) FLAGS_REQUESTS) /\
  (forall w, text_start img <= w < text_end img -> ans w (ka_physical_base ka + (w - kernel_start img)) FLAGS_TEXT) /\
  (forall w, rodata_start img <= w < rodata_end img -> ans w (ka_physical_base ka + (w - kernel_start img)) FLAGS_RODATA) /\
  (forall w, data_start img <= w < kernel_end img -> ans w (ka_physical_base ka + (w - kernel_start img)) KERNEL_RW).
Proof.
  destruct (ly_pages _ _ _ _ _ _ _ P L) as (Hk & Ht & Hr & Hd & He). destruct (ly_order _ _ _ _ _ _ _ P L) as (O1 & O2 & O3).
  assert (Hin : forall l g, (l = segment img ka (kernel_start img) (text_start img) FLAGS_REQUESTS \/ l = segment img ka (text_start img) (text_end img) FLAGS_TEXT \/
    l = segment img ka (rodata_start img) (rodata_end img) FLAGS_RODATA \/ l = segment img ka (data_start img) (kernel_end img) KERNEL_RW) -> g ∈ l -> g ∈ regions).
  { intros l g Hl Hg. unfold all_regions, image_regions. rewrite !elem_of_app. naive_solver. }
  split; [|split; [|split]]; intros w Hw;
    (eapply ans_segment; [|intros g Hg; eapply Hin; [|exact Hg]; tauto|exact Hw|right; split; [lia|split; [done|]]]); [done| |done| |done| |done|].
  all: repeat match goal with |- context [?x <? ?b] => destruct (Z.ltb_spec x b); [try lia|try lia] end; done.
Qed.

Lemma ans_directs :
  (forall e p, e ∈ memmap -> me_base e <= p < me_base e + me_length e -> ans (hhdm + p) p KERNEL_RW) /\
  (forall w, pfndb_db <= w < pfndb_db + (pfndb_max + 1) * sizeof_page -> ans w (w - hhdm) KERNEL_RW) /\
  (forall f a w, fb_virt fb = Some (f, a) -> a <= w < a + fb_pitch f * fb_height f -> ans w (w - hhdm) KERNEL_RW).
Proof.
  split; [|split].
  - intros e p He Hp. destruct (ly_entries _ _ _ _ _ _ _ P L e He) as (E1 & E2 & E3). replace p with (hhdm + p - hhdm) at 2 by lia.
    apply (ans_direct (me_base e) (me_base e + me_length e)); [done|done| |lia].
    intros g Hg. unfold all_regions, direct_regions, hhdm_regions. rewrite !elem_of_app. left. left. apply list_elem_of_bind. by exists e.
  - intros w Hw. destruct (ly_pfndb _ _ _ _ _ _ _ P L) as (F1 & F2 & F3).
    eapply (ans_direct (pfndb_db - hhdm)); [lia| | |split; [|]]; [|intros g Hg; unfold all_regions, direct_regions; rewrite !elem_of_app; left; right; exact Hg|lia|lia]. lia.
  - intros f a w Hf Hw. destruct (ly_fb _ _ _ _ _ _ _ P L f a Hf) as (? & ? & ?).
    apply (ans_direct (a - hhdm) (a - hhdm + fb_pitch f * fb_height f)); [lia|lia| |lia].
    intros g Hg. unfold all_regions, fb_regions. rewrite Hf, !elem_of_app. by right; right.
Qed.

Lemma write_exec w p f : upper w \/ lower w -> ans w p f -> has_bits f PAGE_WRITE = true -> has_bits f PAGE_NX = false ->
  kernel_start img <= w < text_start img.
Proof.
  intros Hw Ha H1 H2. destruct (ans_cases w p f Hw Ha) as [[(_ & _ & ->)|(Hr & _ & ->)]|[_ ->]]; [done| |done].
  destruct (Z.ltb_spec w (text_start img)); [lia|]. destruct (w <? rodata_start img); [done|]. by destruct (w <? data_start img).
Qed.
End reading.

(** C9: [paging_init] builds the kernel's address space. It panics only when the
    allocator cannot give a frame for the root and three for every page table.
    Otherwise every byte of the memory map and of the page database, and the
    framebuffer, is mapped at its place in the direct map, writable and not
    executable; the image is mapped to its
    frames, its text not writable, its constants neither writable nor
    executable, its data not executable. No page but those of the requests to
    the boot loader is both writable and executable, no address of the lower
    half is mapped, the areas are disjoint and hold exactly the direct map, the
    image and a framebuffer beyond them, and the root is loaded. *)
Theorem paging_init_spec (s : boot S) held : ps_ok (m_src (bt_mach s)) held ->
  (run_init s = Panic /\ supplies (cost regions) (m_src (bt_mach s)) = false) \/
  exists s', run_init s = Ok (tt, s') /\ vas_pml4 (bt_kvas s') = Some (m_cr3 (bt_mach s')) /\
  let ans := answers (Some (bt_kvas s')) (bt_mach s') in
  let phys w := ka_physical_base ka + (w - kernel_start img) in
  (forall e p, e ∈ memmap -> me_base e <= p < me_base e + me_length e -> ans (hhdm + p) p KERNEL_RW) /\
  (forall w, pfndb_db <= w < pfndb_db + (pfndb_max + 1) * sizeof_page -> ans w (w - hhdm) KERNEL_RW) /\
  (forall f a w, fb_virt fb = Some (f, a) -> a <= w < a + fb_pitch f * fb_height f -> ans w (w - hhdm) KERNEL_RW) /\
  (forall w, kernel_start img <= w < text_start img -> ans w (phys w) FLAGS_REQUESTS) /\
  (forall w, text_start img <= w < text_end img -> ans w (phys w) FLAGS_TEXT) /\
  (forall w, rodata_start img <= w < rodata_end img -> ans w (phys w) FLAGS_RODATA) /\
  (forall w, data_start img <= w < kernel_end img -> ans w (phys w) KERNEL_RW) /\
  (forall w p f, upper w \/ lower w -> ans w p f -> has_bits f PAGE_WRITE = true -> has_bits f PAGE_NX = false ->
    kernel_start img <= w < text_start img) /\
  (forall w, lower w -> ans w 0 0) /\
  vads_ok 0 (vas_list (bt_kvas s')) /\ (forall x, covers (vas_list (bt_kvas s')) x <-> area hhdm img memmap fb x).
Proof.
  intros Hok. destruct (paging_init_ok s held Hok) as [?|(s' & root & He & Hc & _ & Hm & Hvo & Hvc)]; [by left|right].
  exists s'. split; [exact He|]. split; [rewrite Hc; apply (mp_root _ _ _ _ _ Hm)|]. cbv zeta.
  destruct (ans_directs root _ s' Hm) as (D1 & D2 & D3). destruct (ans_image root _ s' Hm) as (I1 & I2 & I3 & I4).
  do 7 (split; [done|]). split; [intros w p f; by apply (write_exec root _ s' Hm)|]. split; [|done].
  intros w Hw. by apply (ans_lower root _ s' Hm).
Qed.
End whole.

(** A machine of sixteen frames, with the buddy allocator. *)
Section Witness.
Definition small_memmap : list memmap_entry := [mk_entry 0 4096 1; mk_entry 4096 61440 0].
Definition small_db : pfndb := match pfndb_init small_memmap with Ok (d, _) => d | _ => mk_pfndb ∅ 0 0 end.
Definition small_boot : pmm := mk_pmm (mem_map small_db) (max_pfn small_db) ∅ 0 0.
Definition small_pmm : pmm := match pmm_init small_boot with Ok (_, s) => s | _ => small_boot end.

Lemma small_ok : exists blk, pmm_ok small_pmm blk.
Proof.
  assert (Hv : Forall valid_entry small_memmap) by (unfold small_memmap, valid_entry; repeat constructor; simpl; lia).
  destruct (pfndb_init_ok small_memmap Hv) as (d & m & Hr & Hb); [right; left; split; [done|by vm_compute]|].
  assert (small_db = d) as Hd by (unfold small_db; by rewrite Hr).
  destruct (pmm_init_ok small_boot) as (s' & blk & Hi & Hok & _).
  { unfold small_boot. rewrite Hd. apply (booted_map small_memmap d m); [exact Hv| |done]. by rewrite (bo_max _ _ _ Hb). }
  exists blk. unfold small_pmm. by rewrite Hi.
Qed.

Definition small_hhdm : Z := 0xffff800000000000.
Definition small_image : image :=
  let k := 0xffffffff80000000 in mk_image k (k + 4096) (k + 8000) (k + 8192) (k + 12000) (k + 12288) (k + 20480).
Definition small_fb : option framebuffer := Some (mk_fb (Some (small_hhdm + 0x80000)) 4096 2).
Definition small_ka : kernel_address := mk_ka 0x100000 (kernel_start small_image).
Definition small_state : PagingInit.boot pmm := mk_boot (mk_mach ∅ 0 0 small_pmm) (mk_vas None [] 0) 0.
Definition small_init : ST (PagingInit.boot pmm) unit :=
  paging_init small_hhdm (small_hhdm + 4096) 15 small_image (Some small_memmap) small_fb (Some small_ka).

Lemma small_layout : layout_ok small_hhdm (small_hhdm + 4096) 15 small_image small_memmap small_fb small_ka 0x100000.
Proof.
  split; cbn [kernel_start text_start text_end rodata_start rodata_end data_start kernel_end small_image ka_virtual_base ka_physical_base small_ka];
    unfold small_hhdm, sizeof_page.
  - lia.
  - by exists (0xffff800000000000 / 4096).
  - by exists 256.
  - lia.
  - intros e [->|[->|He]%elem_of_cons]%elem_of_cons; cbn; [lia|lia|by apply elem_of_nil in He].
  - exists (mk_entry 0 4096 1). split; [left|cbn; lia].
  - lia.
  - repeat split; match goal with |- (4096 | ?x) => exists (x / 4096); reflexivity end.
  - lia.
  - lia.
  - done.
  - split; [lia|]. split; [by exists 256|lia].
  - intros f a Hf. vm_compute in Hf. injection Hf as <- <-. cbn. lia.
Qed.

Lemma paging_init_spec_witness : exists s', small_init small_state = Ok (tt, s') /\
  paging_virt_to_phys (Some (bt_kvas s')) (0xffffffff80000000 + 5000) (bt_mach s') = Ok (0x100000 + 5000, bt_mach s') /\
  paging_get_flags (Some (bt_kvas s')) (0xffffffff80000000 + 5000) (bt_mach s') = Ok (FLAGS_TEXT, bt_mach s') /\
  paging_virt_to_phys (Some (bt_kvas s')) (small_hhdm + 0x80010) (bt_mach s') = Ok (0x80010, bt_mach s').
Proof.
  destruct small_ok as [blk Hok].
  destruct (paging_init_spec small_hhdm (small_hhdm + 4096) 15 small_image small_memmap small_fb small_ka 0x100000 small_layout
    small_state (fun _ => False)) as [[Hp _]|(s' & He & _ & _ & _ & Hfb & _ & Ht & _)].
  - split; [by vm_compute|]. exists blk. split; [exact Hok|done].
  - exfalso. apply (f_equal (fun o => match o with Ok _ => true | _ => false end)) in Hp. vm_compute in Hp. discriminate Hp.
  - exists s'. split; [exact He|]. split; [|split].
    + apply (Ht (0xffffffff80000000 + 5000)). unfold small_image. cbn. lia.
    + apply (Ht (0xffffffff80000000 + 5000)). unfold small_image. cbn. lia.
    + apply (Hfb (mk_fb (Some (small_hhdm + 0x80000)) 4096 2) (small_hhdm + 0x80000) (small_hhdm + 0x80010) eq_refl). cbn. lia.
Defined.
End Witness.
