(* ===== verification/Kenv.v ===== *)
(** What the file systems and the scheduler rely on of the rest of the kernel,
    as interfaces with their laws: the heap ([kmalloc], [kzalloc], [kfree]),
    which [KheapEnv] implements with the heap of mm/kheap.c, and for the file
    systems byte buffers ([krealloc]) and the clock ([time_uptime_us]) besides.
    Object addresses are integers, the live ones are the set [env_live];
    [env_fresh e i] is the byte that memory handed out by [e] happens to hold at
    index [i]. *)
From S2P Require Import Prelude.
From stdpp Require Export gmap sets.
Open Scope Z_scope.

Class Heap (E : Type) := {
  env_live : E -> gset Z;
  env_alloc : Z -> E -> ptr * E;
  env_free : Z -> E -> E;
}.

(** An allocation returns a fresh address or fails and changes no live object. *)
Class HeapLaws (E : Type) `{Heap E} := {
  env_alloc_some n e a e' : env_alloc n e = (Some a, e') ->
    (a ∉ env_live e) /\ env_live e' = {[a]} ∪ env_live e;
  env_alloc_none n e e' : env_alloc n e = (None, e') -> env_live e' = env_live e;
  env_free_live a e : env_live (env_free a e) = (env_live e) ∖ {[a]};
}.

Class Kenv (E : Type) := {
  kenv_heap :: Heap E;
  env_buffer : Z -> E -> bool * E;
  env_fresh : E -> Z -> Z;
  env_uptime : E -> Z * E;
}.

(** A byte buffer is a value of its owner, only its success is observed; the
    clock and a buffer change no live object. *)
Class KenvLaws (E : Type) `{Kenv E} := {
  kenv_heap_laws :: HeapLaws E;
  env_buffer_live n e b e' : env_buffer n e = (b, e') -> env_live e' = env_live e;
  env_uptime_live e t e' : env_uptime e = (t, e') -> env_live e' = env_live e;
}.

(** A concrete environment: a bump allocator with a budget of allocations and
    a clock that advances by one microsecond per reading. *)
Record bump := mk_bump { bp_next : Z; bp_left : Z; bp_live : gset Z; bp_time : Z }.

#[export] Instance bump_heap : Heap bump := {|
  env_live := bp_live;
  env_alloc := fun n e =>
    if (0 <? bp_left e) && bool_decide (bp_next e ∉ bp_live e)
    then (Some (bp_next e),
          mk_bump (bp_next e + 1) (bp_left e - 1) ({[bp_next e]} ∪ bp_live e) (bp_time e))
    else (None, e);
  env_free := fun a e => mk_bump (bp_next e) (bp_left e) (bp_live e ∖ {[a]}) (bp_time e);
|}.

#[export] Instance bump_env : Kenv bump := {|
  env_buffer := fun n e => (n <=? 1048576, e);
  env_fresh := fun e i => i mod 256;
  env_uptime := fun e => (bp_time e, mk_bump (bp_next e) (bp_left e) (bp_live e) (bp_time e + 1));
|}.

#[export] Instance bump_heap_laws : HeapLaws bump.
Proof.
  split; simpl.
  - intros n e a e'. destruct ((0 <? bp_left e) && _) eqn:Hc; intros; simplify_eq; simpl.
    apply andb_true_iff in Hc as [_ Hc]. by apply bool_decide_eq_true in Hc.
  - intros n e e'. destruct ((0 <? bp_left e) && _); intros; by simplify_eq.
  - done.
Qed.

#[export] Instance bump_laws : KenvLaws bump.
Proof. split; [apply _|simpl; intros; by simplify_eq..]. Qed.
