(* ===== verification/KheapEnv.v ===== *)
(** The named theorems of the kernel heap, [kernel/src/mm/kheap.c], and the
    heap as an implementation of the interface [Heap] that the file systems and
    the scheduler are proved against. *)
From S2P Require Import Prelude Dll Pfndb Pmm StringLib WordMem Kheap KheapList KheapInv KheapSlab KheapCreate KheapObj KheapLarge KheapSpec Kenv.

(** ** Requests past the largest block *)

(** Past [2^31] bytes no shift of the 32-bit page size reaches the request, and
    the shift count grows to the width. *)
Lemma large_order_fault n : forall o total, 0 <= o -> 2 ^ 31 < total -> Z.of_nat n = 32 - o ->
  large_order (Datatypes.S n) o total = Fault.
Proof.
  induction n as [|n IH]; intros o total Ho Ht Hn.
  - assert (o = 32) as -> by lia. done.
  - assert (0 <= o < 32) as Hr by lia. change (large_order (Datatypes.S (Datatypes.S n)) o total) with
      (if 32 <=? o then Fault else if u32 (Z.shiftl PAGE_SIZE o) <? total
       then large_order (Datatypes.S n) (u8 (o + 1)) total else Ok o).
    destruct (Z.leb_spec 32 o); [lia|]. destruct (Z.ltb_spec (u32 (Z.shiftl PAGE_SIZE o)) total) as [_|Hge].
    + assert (u8 (o + 1) = o + 1) as -> by (apply Z.mod_small; lia). apply IH; lia.
    + exfalso. destruct (Z.le_gt_cases o 19) as [Hle|Hgt].
      * rewrite page_shift in Hge by lia. assert (2 ^ o <= 2 ^ 19) by (apply Z.pow_le_mono_r; lia).
        change (2 ^ 19) with 524288 in *. change (2 ^ 31) with 2147483648 in *. lia.
      * assert (u32 (Z.shiftl PAGE_SIZE o) = 0) as E; [|change (2 ^ 31) with 2147483648 in *; lia].
        unfold u32, PAGE_SIZE. rewrite Z.shiftl_mul_pow2 by lia.
        replace o with (20 + (o - 20)) by lia. rewrite Z.pow_add_r, Z.mul_assoc by lia.
        replace (4096 * 2 ^ 20 * 2 ^ (o - 20)) with (2 ^ (o - 20) * 2 ^ 32) by lia. by apply Z.mod_mul.
Qed.

Lemma no_class caches_at size : 2048 < size -> cache_for_size caches_at size = None.
Proof.
  intros Hs. unfold cache_for_size. cbn [class_loop size_classes].
  repeat (match goal with |- context [?a <=? ?b] => destruct (Z.leb_spec a b); [lia|] end). done.
Qed.

Section claims.
Context (hhdm_offset caches_at : Z).
Abbreviation heap_inv := (heap_inv hhdm_offset caches_at).
Abbreviation virt := (virt hhdm_offset).

(** Where the blocks of [live] are, a block of [n] bytes at [a] does not reach. *)
Definition apart (live : gmap Z Z) (a n : Z) : Prop := forall b k, live !! b = Some k -> a + n <= b \/ b + k <= a.

Lemma inv_apart s blk live a n : heap_inv s blk (<[a := n]> live) -> live !! a = None -> apart live a n.
Proof.
  intros Hi Hn b k Hb. assert (a <> b) by (intros ->; congruence).
  apply (inv_disjoint _ _ _ _ _ a b n k Hi); [apply lookup_insert_eq|by rewrite lookup_insert_ne|done].
Qed.

Lemma alloc_inv s blk live n a s' : heap_inv s blk live -> 0 <= n <= 2 ^ 31 - 24 ->
  kmalloc hhdm_offset caches_at n s = Ok (Some a, s') -> exists blk', heap_inv s' blk' (<[a := usable n]> live).
Proof.
  intros Hi Hn Hr. destruct (kmalloc_ok _ _ _ _ _ n Hi ltac:(lia) ltac:(lia)) as (r & s1 & Hr' & Hres).
  rewrite Hr in Hr'. injection Hr' as <- <-. destruct Hres as (_ & blk' & Hi' & _). by exists blk'.
Qed.

(** A request whose size and header wrap around gets a single page. *)
Lemma kmalloc_wrapped s blk live size : heap_inv s blk live -> 2 ^ 64 - 24 <= size < 2 ^ 64 ->
  exists r s', kmalloc hhdm_offset caches_at size s = Ok (r, s') /\
    match r with
    | None => s' = s /\ no_free_block blk 0
    | Some a => exists p pm blk', a = virt p + 24 /\ allocated (kh_pmm s) blk 0 p pm blk'
    end.
Proof.
  intros (gs & gl & ls & Hcore & _) Hs. pose proof (hc_pmm _ _ _ _ _ _ Hcore) as Hpm.
  assert (u64 (size + 24) = size + 24 - 2 ^ 64) as Et.
  { unfold u64. symmetry. apply (Z.mod_unique _ _ 1); lia. }
  unfold kmalloc. destruct (Z.eqb_spec size 0); [lia|]. rewrite no_class by lia.
  assert (large_order 33 0 (u64 (size + sizeof_large_hdr)) = Ok 0) as Hord.
  { unfold sizeof_large_hdr. rewrite Et. cbn [large_order]. destruct (Z.leb_spec 32 0); [lia|].
    rewrite page_shift by lia. destruct (Z.ltb_spec (4096 * 2 ^ 0) (size + 24 - 2 ^ 64)); [lia|done]. }
  destruct (pmm_alloc_ok _ _ 0 Hpm ltac:(by vm_compute)) as (r & pm & Hr & Hres). destruct r as [p|].
  2:{ destruct Hres as [-> Hno]. exists None, s. split; [|done].
      unfold kmalloc_large. rewrite bind_assoc, (lift_bind _ _ _ _ Hord). cbn [Z.leb].
      eapply st_bind_eq; [eapply st_bind_eq; [exact (on_pmm_ok s _ _ _ Hr)|rewrite set_pmm_id; done]|done]. }
  destruct Hres as [blk' Hal].
  destruct (allocated_page _ _ _ _ _ _ Hpm (Z.le_refl 0) Hal) as (Hp0 & Hpm1 & Hpin & g & Hg & _).
  pose proof (al_max _ _ _ _ _ _ Hal) as Emax. set (s1 := set_pmm pm s).
  assert (direct_map hhdm_offset (kh_pmm s1)) as Hmap.
  { destruct (hc_map _ _ _ _ _ _ Hcore). split; try done. cbn. by rewrite Emax. }
  assert (0 <= p <= pm_max (kh_pmm s1)) as Hp by (cbn; rewrite Emax; lia).
  pose proof (page_virt_ok _ _ Hmap _ Hp) as Hv. destruct (virt_range _ _ Hmap _ Hp) as (Hv1 & Hv2 & _).
  assert (mapped (kh_mem s1) (virt p) 4096) as Hma by (apply (frame_mapped _ _ _ _ _ _ Hcore); lia).
  destruct (write_large_hdr_ok s1 (virt p) size 0) as (m' & Hw & _);
    [apply Hcore|eapply mapped_sub; [done|lia|lia]|lia|lia|].
  set (s2 := set_pmm (pm_set_map (<[p := pg_set_private (Z.lor LARGE_PAGE_TAG 0) g]> (pm_map pm)) pm) (set_mem m' s1)).
  assert (kmalloc_large hhdm_offset size s = Ok (Some (u64 (virt p + sizeof_large_hdr)), s2)) as Hl.
  { unfold kmalloc_large. rewrite (lift_bind _ _ _ _ Hord). cbn [Z.leb].
    eapply st_bind_eq; [exact (on_pmm_ok s _ _ _ Hr)|]. eapply st_bind_eq; [exact Hv|].
    eapply st_bind_eq; [exact Hw|]. eapply st_bind_eq; [|done].
    exact (on_pmm_ok (set_mem m' s1) _ _ _ (upd_page_ok pm p _ g Hg)). }
  eexists (Some (u64 (virt p + sizeof_large_hdr))), _. split.
  - eapply st_bind_eq; [exact Hl|]. by eapply st_bind_eq.
  - exists p, pm, blk'. split; [|done]. unfold sizeof_large_hdr. apply u64_small. lia.
Qed.

(** What an allocation of [size] bytes owes its caller. *)
Definition allocates (s : kheap) (blk : blocks) (live : gmap Z Z) (size : Z) (r : ptr) (s' : kheap) : Prop :=
  match r with
  | None => s' = s /\ no_memory blk size
  | Some a => live !! a = None /\ size <= usable size /\ (8 | a) /\ apart live a (usable size) /\ keeps_bytes live s s' /\
      exists blk', heap_inv s' blk' (<[a := usable size]> live)
  end.

(** C5: allocation. A request of at most [2^31 - 24] bytes returns. It fails
    only for size 0 or when the page allocator has no block of the size needed,
    and then nothing has changed; otherwise it hands out an aligned address
    with at least the bytes asked for, apart from every block in use, whose
    contents stay as they were, and the heap's invariant holds with the new
    block added to those in use. [kzalloc] does the same and the bytes asked
    for are zero. *)
Theorem kmalloc_spec s blk live size : heap_inv s blk live -> 0 <= size <= 2 ^ 31 - 24 ->
  (exists r s', kmalloc hhdm_offset caches_at size s = Ok (r, s') /\ allocates s blk live size r s') /\
  (exists r s', kzalloc hhdm_offset caches_at size s = Ok (r, s') /\ allocates s blk live size r s' /\
    forall a x, r = Some a -> a <= x < a + size -> kh_mem s' !! x = Some 0).
Proof.
  intros Hi Hs. pose proof (usable_fits size) as Hu. split.
  - destruct (kmalloc_ok _ _ s blk live size Hi ltac:(lia) ltac:(lia)) as ([a|] & s' & Hr & Hres);
      [|by exists None, s']. exists (Some a), s'. split; [done|].
    destruct Hres as (_ & blk' & Hi' & Hn & H8 & Hof & _). split; [done|split; [done|split; [done|split]]].
    + by eapply inv_apart.
    + split; [by eapply inv_fresh|by exists blk'].
  - destruct (kzalloc_ok _ _ s blk live size Hi ltac:(lia) ltac:(lia)) as ([a|] & s' & Hr & Hres);
      [|by exists None, s']. exists (Some a), s'. split; [done|].
    destruct Hres as (blk' & Hi' & Hn & H8 & Hk & Hz). split; [|intros b x [= <-]; by apply Hz].
    split; [done|split; [done|split; [done|split; [by eapply inv_apart|split; [done|by exists blk']]]]].
Qed.

(** C6: release. [kfree] of an address in use returns, takes exactly that block
    out of use, and leaves the contents of every other block as they were;
    [kfree] of the null pointer does nothing, and an address below the direct
    map panics. *)
Theorem kfree_spec s blk live a n : heap_inv s blk live -> live !! a = Some n ->
  (exists s' blk', kfree hhdm_offset (Some a) s = Ok (tt, s') /\ heap_inv s' blk' (delete a live) /\
    keeps_bytes (delete a live) s s') /\
  kfree hhdm_offset None s = Ok (tt, s) /\
  forall b, b < hhdm_offset -> kfree hhdm_offset (Some b) s = Panic.
Proof.
  intros Hi Ha. split; [by eapply kfree_ok|]. split; [done|]. intros b Hb. unfold kfree, page_from_alloc_ptr.
  by destruct (Z.ltb_spec b hhdm_offset); [|lia].
Qed.

(** C7: resizing. [krealloc] of a block in use moves it: the result is apart
    from every other block, holds the first bytes of the old block (as many as
    both sizes have), the old address is free again and no other block has
    changed; when it fails the old block is as it was. With the null pointer it
    is [kmalloc], with size 0 it is [kfree]. *)
Theorem krealloc_spec s blk live a k size : heap_inv s blk live -> live !! a = Some k -> 0 < size <= 2 ^ 31 - 24 ->
  (exists r s', krealloc hhdm_offset caches_at (Some a) size s = Ok (r, s') /\
    match r with
    | None => s' = s /\ no_memory blk size
    | Some b => live !! b = None /\ size <= usable size /\ (8 | b) /\ apart (delete a live) b (usable size) /\
        keeps_bytes (delete a live) s s' /\
        (forall i, 0 <= i < Z.min k size -> kh_mem s' !! (b + i) = kh_mem s !! (a + i)) /\
        exists blk', heap_inv s' blk' (<[b := usable size]> (delete a live))
    end) /\
  krealloc hhdm_offset caches_at None size s = kmalloc hhdm_offset caches_at size s /\
  exists s' blk', krealloc hhdm_offset caches_at (Some a) 0 s = Ok (None, s') /\ heap_inv s' blk' (delete a live).
Proof.
  intros Hi Ha Hs. split; [|split; [done|]].
  - destruct (krealloc_ok _ _ s blk live a k size Hi Ha ltac:(lia) ltac:(lia)) as ([b|] & s' & Hr & Hres);
      [|by exists None, s']. exists (Some b), s'. split; [done|].
    destruct Hres as (blk' & Hi' & Hn & H8 & Hk & Hc). pose proof (usable_fits size) as Hu.
    split; [done|split; [done|split; [done|split; [|split; [done|split; [done|by exists blk']]]]]].
    eapply inv_apart; [exact Hi'|]. rewrite lookup_delete. by case_decide.
  - destruct (kfree_ok _ _ _ _ _ _ _ Hi Ha) as (s' & blk' & Hr & Hi' & _). exists s', blk'. split; [|done].
    unfold krealloc. cbn [Z.eqb]. by eapply st_bind_eq.
Qed.

(** Requests past the limit. Between [2^31] and [2^64] bytes, the header
    included, [kmalloc] has no answer: no page size that the 32-bit shift can
    produce is enough, and the shift count reaches the width of the operand,
    which is undefined. When the size and the header wrap past [2^64] the
    request is granted with one page. *)
Theorem kmalloc_oversize s blk live size : heap_inv s blk live -> size < 2 ^ 64 ->
  (2 ^ 31 < size + 24 < 2 ^ 64 -> kmalloc hhdm_offset caches_at size s = Fault) /\
  (2 ^ 64 <= size + 24 -> exists r s', kmalloc hhdm_offset caches_at size s = Ok (r, s') /\
    match r with
    | None => s' = s /\ no_free_block blk 0
    | Some a => exists p pm blk', a = virt p + 24 /\ allocated (kh_pmm s) blk 0 p pm blk'
    end).
Proof.
  intros Hi Hlt. split; [|intros Hs; apply (kmalloc_wrapped _ _ live); [done|lia]].
  intros Hs. unfold kmalloc. destruct (Z.eqb_spec size 0); [lia|]. rewrite no_class by lia.
  unfold kmalloc_large, sizeof_large_hdr. rewrite u64_small by lia. rewrite (large_order_fault 32); [done|lia..].
Qed.
End claims.

(** ** The heap behind the interface [Heap]

    A client sees the addresses in use. Requests past the limit are outside the
    interface: [kmalloc] does not return from them. *)
Section interface.
Context (hhdm_offset caches_at : Z).
Abbreviation heap_inv := (heap_inv hhdm_offset caches_at).

Record heap_env := mk_heap_env {
  he_heap : kheap;
  he_live : gmap Z Z;
  he_ok : exists blk, heap_inv he_heap blk he_live;
}.

Lemma env_alloc_ok n e a s' : 0 <= n <= 2 ^ 31 - 24 ->
  kmalloc hhdm_offset caches_at n (he_heap e) = Ok (Some a, s') ->
  exists blk, heap_inv s' blk (<[a := usable n]> (he_live e)).
Proof. intros Hn Hr. destruct (he_ok e) as [blk Hi]. by eapply alloc_inv. Qed.

Lemma env_free_ok a e s' : is_Some (he_live e !! a) -> kfree hhdm_offset (Some a) (he_heap e) = Ok (tt, s') ->
  exists blk, heap_inv s' blk (delete a (he_live e)).
Proof.
  intros [n Ha] Hr. destruct (he_ok e) as [blk Hi].
  destruct (kfree_ok _ _ _ _ _ _ _ Hi Ha) as (s & blk' & Hr' & Hi' & _).
  rewrite Hr in Hr'. injection Hr' as <-. by exists blk'.
Qed.

Definition heap_alloc (n : Z) (e : heap_env) : ptr * heap_env :=
  match decide (0 <= n <= 2 ^ 31 - 24) with
  | left Hn =>
      match kmalloc hhdm_offset caches_at n (he_heap e) as o
        return kmalloc hhdm_offset caches_at n (he_heap e) = o -> ptr * heap_env with
      | Ok (Some a, s') => fun E => (Some a, mk_heap_env s' (<[a := usable n]> (he_live e)) (env_alloc_ok n e a s' Hn E))
      | _ => fun _ => (None, e)
      end eq_refl
  | right _ => (None, e)
  end.

Definition heap_free (a : Z) (e : heap_env) : heap_env :=
  match decide (is_Some (he_live e !! a)) with
  | left Ha =>
      match kfree hhdm_offset (Some a) (he_heap e) as o
        return kfree hhdm_offset (Some a) (he_heap e) = o -> heap_env with
      | Ok (tt, s') => fun E => mk_heap_env s' (delete a (he_live e)) (env_free_ok a e s' Ha E)
      | _ => fun _ => e
      end eq_refl
  | right _ => e
  end.

#[export] Instance kheap_heap : Heap heap_env := {|
  env_live e := dom (he_live e);
  env_alloc := heap_alloc;
  env_free := heap_free;
|}.

(** What [heap_alloc] returns, without its proofs. *)
Lemma heap_alloc_cases n e : let '(r, e') := heap_alloc n e in
  match r with
  | None => e' = e
  | Some a => 0 <= n <= 2 ^ 31 - 24 /\ kmalloc hhdm_offset caches_at n (he_heap e) = Ok (Some a, he_heap e') /\
      he_live e' = <[a := usable n]> (he_live e)
  end.
Proof.
  unfold heap_alloc. destruct (decide _) as [Hn|]; [|done]. generalize (env_alloc_ok n e).
  destruct (kmalloc hhdm_offset caches_at n (he_heap e)) as [[[a|] s']| | |]; intros H; done.
Qed.

Lemma heap_free_cases a e n : he_live e !! a = Some n ->
  kfree hhdm_offset (Some a) (he_heap e) = Ok (tt, he_heap (heap_free a e)) /\ he_live (heap_free a e) = delete a (he_live e).
Proof.
  intros Ha. unfold heap_free. destruct (decide _) as [Hn|Hno]; [|by destruct Hno].
  destruct (he_ok e) as [blk Hi]. destruct (kfree_ok _ _ _ _ _ _ _ Hi Ha) as (s & blk' & Hr' & _).
  generalize (env_free_ok a e). rewrite Hr'. done.
Qed.

#[export] Instance kheap_laws : HeapLaws heap_env.
Proof.
  split; cbn [env_alloc env_free env_live kheap_heap].
  - intros n e a e' Hr. pose proof (heap_alloc_cases n e) as Hc. rewrite Hr in Hc. destruct Hc as (Hn & Hk & ->).
    destruct (he_ok e) as [blk Hi]. destruct (kmalloc_ok _ _ _ _ _ n Hi ltac:(lia) ltac:(lia)) as (r & s & Hr' & Hres).
    rewrite Hk in Hr'. injection Hr' as <- <-. destruct Hres as (_ & _ & _ & Hnone & _).
    split; [by apply not_elem_of_dom|]. by rewrite dom_insert_L.
  - intros n e e' Hr. pose proof (heap_alloc_cases n e) as Hc. rewrite Hr in Hc. by subst e'.
  - intros a e. destruct (he_live e !! a) as [n|] eqn:Ha.
    + destruct (heap_free_cases a e n Ha) as [_ ->]. apply dom_delete_L.
    + unfold heap_free. destruct (decide _) as [[n Hn]|_]; [congruence|].
      apply not_elem_of_dom in Ha. set_solver.
Qed.
End interface.

(** ** Witnesses: the heap of a machine of seven frames *)

Definition demo_hhdm : Z := 0xffff800000000000.
Definition demo_caches : Z := 0xffffffff80100000.
Fixpoint zeros (n : nat) (a : Z) : mem := match n with O => ∅ | S n => <[a := 0]> (zeros n (a + 1)) end.
Definition demo_bytes : mem := zeros (Z.to_nat 28672) demo_hhdm.
Definition demo_cold : kheap := mk_kheap demo_pmm demo_bytes ∅ ∅ 0 0.
Definition demo_heap : kheap := match kheap_init demo_caches demo_cold with Ok (_, s) => s | _ => demo_cold end.

Lemma zeros_at n : forall a x b, zeros n a !! x = Some b <-> a <= x < a + Z.of_nat n /\ b = 0.
Proof.
  induction n as [|n IH]; intros a x b; cbn [zeros]; [rewrite lookup_empty; split; [done|lia]|].
  rewrite lookup_insert. case_decide; [split; [intros [= <-]; lia|intros [_ ->]; done]|rewrite IH; lia].
Qed.

Lemma demo_bytes_at x b : demo_bytes !! x = Some b <-> demo_hhdm <= x < demo_hhdm + 28672 /\ b = 0.
Proof. apply zeros_at. Qed.

#[local] Opaque demo_bytes.

Lemma demo_heap_inv : exists blk, heap_inv demo_hhdm demo_caches demo_heap blk ∅.
Proof.
  destruct demo_ok as [blk Hok]. exists blk. assert (pm_max demo_pmm = 6) as Hmax by (by vm_compute).
  destruct (kheap_init_ok demo_hhdm demo_caches ltac:(done) ltac:(done) demo_cold blk) as (s' & Hr & Hi).
  - done.
  - cbn [kh_pmm demo_cold]. split; rewrite ?Hmax; [done|by exists (demo_hhdm / 4096)|done].
  - cbn [kh_mem demo_cold]. intros x b Hx. apply demo_bytes_at in Hx as [_ ->]. unfold is_byte. lia.
  - cbn [kh_pmm kh_mem demo_cold]. rewrite Hmax. intros x Hx. exists 0. apply demo_bytes_at. lia.
  - done.
  - done.
  - assert (demo_heap = s') as -> by (unfold demo_heap; by rewrite Hr). done.
Qed.

(** After one allocation of 100 bytes. *)
Definition after {A} (o : outcome (A * kheap)) : kheap := match o with Ok (_, s) => s | _ => demo_cold end.
Definition demo_next : kheap := after (kmalloc demo_hhdm demo_caches 100 demo_heap).
Definition demo_block : Z := demo_hhdm + 4 * 4096 + 48.

Definition result {A} (o : outcome (A * kheap)) : option A := match o with Ok (r, _) => Some r | _ => None end.

Lemma result_after {A} (o : outcome (A * kheap)) r : result o = Some r -> o = Ok (r, after o).
Proof. destruct o as [[]| | |]; simpl; congruence. Qed.

Lemma demo_next_eq : kmalloc demo_hhdm demo_caches 100 demo_heap = Ok (Some demo_block, demo_next).
Proof. unfold demo_next. apply result_after. vm_compute. reflexivity. Qed.

Lemma demo_next_inv : exists blk, heap_inv demo_hhdm demo_caches demo_next blk (<[demo_block := usable 100]> ∅).
Proof. destruct demo_heap_inv as [blk Hi]. exact (alloc_inv _ _ _ _ _ 100 _ _ Hi ltac:(lia) demo_next_eq). Qed.

Lemma same_result {A} (o : outcome (A * kheap)) r r' s : o = Ok (r, s) -> result o = Some r' -> r = r'.
Proof. intros ->. simpl. congruence. Qed.

Lemma kmalloc_spec_witness : exists blk s', kmalloc demo_hhdm demo_caches 100 demo_heap = Ok (Some demo_block, s') /\
  allocates demo_hhdm demo_caches demo_heap blk ∅ 100 (Some demo_block) s'.
Proof.
  destruct demo_heap_inv as [blk Hi].
  destruct (kmalloc_spec demo_hhdm demo_caches demo_heap blk ∅ 100 Hi ltac:(lia)) as [(r & s' & Hr & Ha) _].
  assert (r = Some demo_block) as -> by (apply (same_result _ _ _ _ Hr); vm_compute; reflexivity).
  exists blk, s'. split; [exact Hr|exact Ha].
Defined.

Lemma kfree_spec_witness : exists s', kfree demo_hhdm (Some demo_block) demo_next = Ok (tt, s') /\
  exists blk, heap_inv demo_hhdm demo_caches s' blk ∅.
Proof.
  destruct demo_next_inv as [blk Hi].
  destruct (kfree_spec demo_hhdm demo_caches demo_next blk _ demo_block 128 Hi) as [(s' & blk' & Hr & Hi' & _) _];
    [apply lookup_insert_eq|].
  exists s'. split; [exact Hr|]. exists blk'. rewrite delete_insert_id in Hi' by reflexivity. exact Hi'.
Defined.

(** A block of 128 bytes moves to a page of its own. *)
Lemma krealloc_spec_witness : exists b s', krealloc demo_hhdm demo_caches (Some demo_block) 3000 demo_next = Ok (Some b, s') /\
  b <> demo_block /\ forall i, 0 <= i < 128 -> kh_mem s' !! (b + i) = kh_mem demo_next !! (demo_block + i).
Proof.
  destruct demo_next_inv as [blk Hi].
  destruct (krealloc_spec demo_hhdm demo_caches demo_next blk _ demo_block 128 3000 Hi) as [(r & s' & Hr & Hres) _];
    [apply lookup_insert_eq|lia|].
  assert (r = Some (demo_hhdm + 20504)) as -> by (apply (same_result _ _ _ _ Hr); vm_compute; reflexivity).
  destruct Hres as (Hn & _ & _ & _ & _ & Hc & _). exists (demo_hhdm + 20504), s'.
  split; [exact Hr|]. split; [discriminate|]. exact Hc.
Defined.

Lemma kmalloc_oversize_witness : kmalloc demo_hhdm demo_caches (2 ^ 31) demo_heap = Fault.
Proof.
  destruct demo_heap_inv as [blk Hi].
  apply (kmalloc_oversize demo_hhdm demo_caches demo_heap blk ∅ (2 ^ 31) Hi); lia.
Defined.
