(* ===== verification/KheapPages.v ===== *)
(** Page tables over the heap's page allocator: the page tables of mm/paging.c
    and the heap of mm/kheap.c take their frames from one buddy allocator. The
    heap is a [PageSource]; taking a frame for a table leaves the heap's blocks
    and their contents as they are, and an allocation leaves the frames of the
    tables alone. *)
From S2P Require Import Prelude Dll Pfndb Pmm StringLib WordMem Kheap KheapList KheapInv KheapSlab KheapCreate KheapObj KheapLarge KheapSpec Paging.

#[export] Instance heap_source : PageSource kheap := {
  ps_alloc := on_pmm ps_alloc;
  ps_release := fun p => on_pmm (ps_release p);
}.

(** ** The number of frames does not change *)

Definition pmax_same (s s' : pmm) : Prop := pm_max s' = pm_max s.
Definition hmax_same (s s' : kheap) : Prop := pmax_same (kh_pmm s) (kh_pmm s').

#[local] Instance pmax_same_preorder : PreOrder pmax_same.
Proof. split; [done|]. intros x y z H1 H2. unfold pmax_same in *. congruence. Qed.
#[local] Instance hmax_same_preorder : PreOrder hmax_same.
Proof. split; [done|]. intros x y z H1 H2. unfold hmax_same, pmax_same in *. congruence. Qed.

Section pmm.
Lemma max_get_page p : preserves pmax_same (get_page p).
Proof. intros s g s'. unfold get_page. destruct (pm_map s !! p); intros; by simplify_eq. Qed.
Lemma max_upd_page p f : preserves pmax_same (upd_page p f).
Proof. intros s g s'. unfold upd_page. destruct (store_upd _ _ _); intros; by simplify_eq. Qed.
Lemma max_get_list o : preserves pmax_same (get_list o).
Proof. intros s g s'. unfold get_list. destruct (pm_lists s !! o); intros; by simplify_eq. Qed.
Lemma max_upd_list o f : preserves pmax_same (upd_list o f).
Proof. intros s g s'. unfold upd_list. destruct (store_upd _ _ _); intros; by simplify_eq. Qed.
Lemma max_pfn_to_page pfn : preserves pmax_same (pfn_to_page pfn).
Proof. apply preserves_gets, _. Qed.
Lemma max_page_to_pfn p : preserves pmax_same (page_to_pfn p).
Proof. apply preserves_gets, _. Qed.
#[local] Hint Resolve max_get_page max_upd_page max_get_list max_upd_list max_pfn_to_page max_page_to_pfn : preserves.

Lemma max_free_list_push o p : preserves pmax_same (free_list_push o p).
Proof. unfold free_list_push. preserves. Qed.
Lemma max_free_list_remove o p : preserves pmax_same (free_list_remove o p).
Proof. unfold free_list_remove. preserves. Qed.
#[local] Hint Resolve max_free_list_push max_free_list_remove : preserves.

Lemma max_split_loop fuel : forall o order p, preserves pmax_same (split_loop fuel o order p).
Proof. induction fuel; intros; cbn [split_loop]; preserves. Qed.
Lemma max_body_loop n : forall i p f, preserves pmax_same (body_loop n i p f).
Proof. induction n; intros; cbn [body_loop]; preserves. Qed.
#[local] Hint Resolve max_split_loop max_body_loop : preserves.

Lemma max_set_free f : preserves pmax_same (modify (fun s => pm_set_free (f s) s)).
Proof. by apply preserves_modify. Qed.
#[local] Hint Resolve max_set_free : preserves.

Lemma max_alloc_from o order p : preserves pmax_same (alloc_from o order p).
Proof. unfold alloc_from, alloc_mark. preserves. Qed.
#[local] Hint Resolve max_alloc_from : preserves.

Lemma max_pmm_alloc order : preserves pmax_same (pmm_alloc order).
Proof.
  unfold pmm_alloc. case_match; [preserves|].
  assert (forall n o, preserves pmax_same (alloc_search n o order)) as Hs; [|apply Hs].
  induction n; intros; cbn [alloc_search]; preserves.
Qed.
End pmm.
#[local] Hint Resolve max_upd_page max_pmm_alloc : preserves.

Section heap.
Context (hhdm_offset caches_at : Z).

Lemma max_on_pmm {A} (f : ST pmm A) : preserves pmax_same f -> preserves hmax_same (on_pmm f).
Proof. intros Hf s a s'. unfold on_pmm. destruct (f (kh_pmm s)) as [[x p]| | |] eqn:E; intros; simplify_eq. by apply Hf in E. Qed.
Lemma max_on_mem f : preserves hmax_same (on_mem f).
Proof. intros s a s'. unfold on_mem. destruct (f _); intros; by simplify_eq. Qed.
Lemma max_read_word a : preserves hmax_same (read_word a).
Proof. intros s w s'. unfold read_word. destruct (load_word _ _); intros; by simplify_eq. Qed.
Lemma max_get_slab a : preserves hmax_same (get_slab a).
Proof. intros s w s'. unfold get_slab. destruct (_ !! _); intros; by simplify_eq. Qed.
Lemma max_upd_slab a f : preserves hmax_same (upd_slab a f).
Proof. intros s w s'. unfold upd_slab. destruct (store_upd _ _ _); intros; by simplify_eq. Qed.
Lemma max_get_cache a : preserves hmax_same (get_cache a).
Proof. intros s w s'. unfold get_cache. destruct (_ !! _); intros; by simplify_eq. Qed.
Lemma max_upd_cache a f : preserves hmax_same (upd_cache a f).
Proof. intros s w s'. unfold upd_cache. destruct (store_upd _ _ _); intros; by simplify_eq. Qed.
Lemma max_set_slabs f : preserves hmax_same (modify (fun s => set_slabs (f s) s)).
Proof. by apply preserves_modify. Qed.
Lemma max_set_counts f g : preserves hmax_same (modify (fun s => set_counts (f s) (g s) s)).
Proof. by apply preserves_modify. Qed.
#[local] Hint Resolve max_on_pmm max_on_mem max_read_word max_get_slab max_upd_slab max_get_cache max_upd_cache max_set_slabs max_set_counts : preserves.

Lemma max_page_virt p : preserves hmax_same (page_virt hhdm_offset p).
Proof. apply preserves_gets, _. Qed.
#[local] Hint Resolve max_page_virt : preserves.
Lemma max_slab_list_push w c a : preserves hmax_same (slab_list_push w c a).
Proof. unfold slab_list_push. preserves. Qed.
Lemma max_slab_list_remove w c a : preserves hmax_same (slab_list_remove w c a).
Proof. unfold slab_list_remove. preserves. Qed.
Lemma max_link_slots n : forall i total base size, preserves hmax_same (link_slots n i total base size).
Proof. induction n; intros; cbn [link_slots]; preserves. Qed.
#[local] Hint Resolve max_slab_list_push max_slab_list_remove max_link_slots : preserves.
Lemma max_slab_create c : preserves hmax_same (slab_create hhdm_offset c).
Proof. unfold slab_create, slab_from_page, pmm_alloc_page. preserves. Qed.
#[local] Hint Resolve max_slab_create : preserves.
Lemma max_slab_alloc c : preserves hmax_same (slab_alloc hhdm_offset c).
Proof. unfold slab_alloc, slab_refill. preserves. Qed.
Lemma max_kmalloc_large n : preserves hmax_same (kmalloc_large hhdm_offset n).
Proof. unfold kmalloc_large, write_large_hdr. preserves. Qed.
#[local] Hint Resolve max_slab_alloc max_kmalloc_large : preserves.

Lemma kmalloc_max n : preserves hmax_same (kmalloc hhdm_offset caches_at n).
Proof. unfold kmalloc. preserves. Qed.
End heap.

(** ** The heap as a source of frames *)

(** The frame [p] is in a block that is in use. *)
Definition owned (blk : blocks) (p : Z) : Prop := exists q o, blk !! q = Some (o, Alloc) /\ q <= p < q + 2 ^ o.

Lemma owned_keeps blk blk' p : keeps_blocks blk blk' -> owned blk p -> owned blk' p.
Proof. intros Hk (q & o & Hq & Hp). exists q, o. split; [by apply Hk|done]. Qed.

Section source.
Context (hhdm_offset caches_at : Z).
Abbreviation heap_inv := (heap_inv hhdm_offset caches_at).

(** A frame taken by somebody else leaves the heap as it is. *)
Lemma inv_take_page s blk live p pm blk' : heap_inv s blk live -> allocated (kh_pmm s) blk 0 p pm blk' ->
  heap_inv (set_pmm pm s) blk' live.
Proof.
  intros (gs & gl & ls & Hcore & Hl & Hst) Hal. pose proof (hc_pmm _ _ _ _ _ _ Hcore) as Hpm.
  pose proof (allocated_keeps _ _ _ _ _ _ Hpm Hal) as Hkb.
  destruct (al_frames _ _ _ _ _ _ Hal p) as (g & Hg & _); [change (2 ^ 0) with 1; lia|].
  exists gs, gl, ls. split; [|split; [by eapply lists_links|by eapply statics_caches]].
  eapply core_blocks; try done.
  - apply Hal.
  - apply (al_max _ _ _ _ _ _ Hal).
  - apply (hc_bytes _ _ _ _ _ _ Hcore).
  - intros q o Hq _. split; [|by apply Hkb]. apply (page_kept_fresh hhdm_offset s blk _ 0 p pm blk' q o g); try done.
    cbn [kh_pmm set_pmm]. by rewrite insert_id.
  - intros a Ha. by apply (hc_dom _ _ _ _ _ _ Hcore).
  - intros a c l Ha. by left.
  - intros q o n Hq. by left.
  - apply (hc_live _ _ _ _ _ _ Hcore).
Qed.

Lemma owned_held s blk live p : heap_inv s blk live -> owned blk p -> ~ loose blk p.
Proof. intros (gs & gl & ls & Hcore & _) (q & o & Hq & Hp). by eapply (alloc_held hhdm_offset). Qed.

(** The blocks of the heap and the bytes of memory that the source keeps. *)
Context (live : gmap Z Z) (m : mem) (max : Z) (Hmax : max < 2 ^ 40).

Definition heap_source_ok (h : kheap) (held : Z -> Prop) : Prop :=
  kh_mem h = m /\ pm_max (kh_pmm h) = max /\ exists blk, heap_inv h blk live /\ forall x, held x -> owned blk (x / 4096).

Lemma heap_source_alloc h held : heap_source_ok h held ->
  exists r h', ps_alloc h = Ok (r, h') /\
    match r with
    | None => heap_source_ok h' held
    | Some p => ~ held p /\ 0 <= p < 2 ^ 52 /\ (4096 | p) /\ heap_source_ok h' (fun x => held x \/ x = p)
    end.
Proof.
  intros (Hm & Emax & blk & Hi & Hheld). pose proof Hi as (gs & gl & ls & Hcore & _).
  pose proof (hc_pmm _ _ _ _ _ _ Hcore) as Hpm.
  destruct (pmm_alloc_phys_ok (kh_pmm h) blk Hpm ltac:(lia)) as (r & pm & Hr & Hres).
  exists r, (set_pmm pm h). split; [exact (on_pmm_ok h _ _ _ Hr)|]. destruct r as [a|].
  2:{ subst pm. rewrite set_pmm_id. split; [done|]. split; [done|]. by exists blk. }
  destruct Hres as (p & blk' & -> & Hp & Hlp & Hal). split; [|split; [lia|split; [by exists p|]]].
  - intros Hh. apply (owned_held _ _ _ _ Hi (Hheld _ Hh)). by rewrite Z.div_mul.
  - split; [done|]. split; [cbn; by rewrite (al_max _ _ _ _ _ _ Hal)|]. exists blk'.
    split; [by eapply inv_take_page|]. intros x [Hx| ->].
    + eapply owned_keeps; [by eapply allocated_keeps|by apply Hheld].
    + rewrite Z.div_mul by done. exists p, 0. split; [apply (al_block _ _ _ _ _ _ Hal)|]. change (2 ^ 0) with 1. lia.
Qed.

Definition heap_source_laws : PageSourceLaws kheap := {|
  ps_ok := heap_source_ok;
  ps_alloc_ok := heap_source_alloc;
|}.
End source.
