(* ===== verification/Vfs.v ===== *)
(** The virtual file system, [kernel/src/fs/vfs.c] and [fs/vfs.h]: vnodes and
    mounted file systems in one store, the table of operations of a vnode as an
    interface ([FsTable]) that the file systems implement, the type registry,
    path resolution and the reference counts.

    A C string is the list of its bytes up to the terminator. Locks are the set
    of the mutexes held: taking one that is held never returns. *)
From S2P Require Import Prelude Kenv.

Definition O_RDONLY : Z := 0x0000.
Definition O_WRONLY : Z := 0x0001.
Definition O_RDWR : Z := 0x0002.
Definition O_ACCMODE : Z := 0x0003.
Definition O_TRUNC : Z := 0x0800.
Definition O_APPEND : Z := 0x1000.
Definition O_DIRECTORY : Z := 0x4000.
Definition NAME_MAX : Z := 255.
Definition VFS_LOOKUP_PARENT : Z := 0x20000000.
Definition slash : Z := 47.
Definition dot : Z := 46.

Abbreviation cstr := (list Z).


Record timespec := mk_ts { ts_s : Z; ts_ns : Z }.
Record vattr := mk_vattr { va_mode : Z }.

Record vnode := mk_vnode {
  vn_ops : ptr; vn_refcount : Z; vn_flags : Z; vn_type : Z; vn_vfs : ptr;
  vn_mounted : ptr; vn_private : ptr; vn_advlock : ptr }.
Record vfs := mk_vfs { v_ops : ptr; v_covered : ptr; v_root : ptr; v_flags : Z }.
Record advlock := mk_adv { adv_type : Z; adv_refcount : Z; adv_shared : Z }.
Record vfs_type := mk_type { ty_ops : Z; ty_name : cstr }.
Record dirent := mk_dirent { d_ino : Z; d_off : Z; d_reclen : Z; d_type : Z; d_name : cstr }.
Record fsattr := mk_fsattr {
  fa_io_size : Z; fa_block_size : Z; fa_block_count : Z; fa_inode_count : Z; fa_max_name_size : Z }.

Inductive lock_id := LRegistry | LNode (a : Z) | LSize (a : Z).
#[export] Instance lock_id_eq : EqDecision lock_id.
Proof. solve_decision. Defined.

(** The operations of a vnode ([struct vops]) and of a mounted file system
    ([struct vfsops]); a null function pointer is [None]. An operation returns
    its code and what it stores through its pointers. *)
Record vops (W : Type) := mk_vops {
  op_open : option (Z -> Z -> ST W (Z * ptr));
  op_close : option (Z -> Z -> ST W Z);
  op_read : option (Z -> option (list Z) -> Z -> Z -> Z -> ST W (Z * (option (list Z) * option Z)));
  op_write : option (Z -> option (list Z) -> Z -> Z -> Z -> ST W (Z * option Z));
  op_lookup : option (Z -> cstr -> ST W (Z * ptr));
  op_create : option (Z -> cstr -> option vattr -> Z -> ST W (Z * ptr));
  op_getdents : option (Z -> bool -> Z -> Z -> ST W (Z * (list dirent * option Z)));
  op_inactive : option (Z -> ST W unit);
  op_sync : option (Z -> ST W Z) }.
Record vfsops (W : Type) := mk_vfsops {
  vo_mount : option (ptr -> ptr -> ST W (Z * ptr));
  vo_unmount : option (Z -> ST W Z);
  vo_sync : option (Z -> ST W Z);
  vo_root : option (Z -> ST W (Z * ptr));
  vo_statfs : option (Z -> ST W (Z * option fsattr)) }.
Arguments op_open {W}. Arguments op_close {W}. Arguments op_read {W}. Arguments op_write {W}.
Arguments op_lookup {W}. Arguments op_create {W}. Arguments op_getdents {W}.
Arguments op_inactive {W}. Arguments op_sync {W}.
Arguments vo_mount {W}. Arguments vo_unmount {W}. Arguments vo_sync {W}.
Arguments vo_root {W}. Arguments vo_statfs {W}.
Arguments mk_vops {W}. Arguments mk_vfsops {W}.

(** The state: the environment [E], the objects, the registry with its newest
    entry first, and the private state [F] of the file systems. *)
Record world (E F : Type) := mk_world {
  k_env : E;
  k_vnodes : gmap Z vnode;
  k_vfss : gmap Z vfs;
  k_advlocks : gmap Z advlock;
  k_registry : list vfs_type;
  k_vfsroot : ptr;
  k_locks : list lock_id;
  k_fs : F }.
Arguments mk_world {E F}. Arguments k_env {E F}. Arguments k_vnodes {E F}.
Arguments k_vfss {E F}. Arguments k_advlocks {E F}. Arguments k_registry {E F}.
Arguments k_vfsroot {E F}. Arguments k_locks {E F}. Arguments k_fs {E F}.

(** What the tables at an address hold. *)
Class FsTable (E F : Type) := {
  vops_of : Z -> vops (world E F);
  vfsops_of : Z -> vfsops (world E F) }.

Section fields.
Context {E F : Type}.
Abbreviation W := (world E F).

Definition set_env (e : E) (w : W) : W := mk_world e (k_vnodes w) (k_vfss w) (k_advlocks w)
  (k_registry w) (k_vfsroot w) (k_locks w) (k_fs w).
Definition set_vnodes (x : gmap Z vnode) (w : W) : W := mk_world (k_env w) x (k_vfss w) (k_advlocks w)
  (k_registry w) (k_vfsroot w) (k_locks w) (k_fs w).
Definition set_vfss (x : gmap Z vfs) (w : W) : W := mk_world (k_env w) (k_vnodes w) x (k_advlocks w)
  (k_registry w) (k_vfsroot w) (k_locks w) (k_fs w).
Definition set_advlocks (x : gmap Z advlock) (w : W) : W := mk_world (k_env w) (k_vnodes w) (k_vfss w) x
  (k_registry w) (k_vfsroot w) (k_locks w) (k_fs w).
Definition set_registry (x : list vfs_type) (w : W) : W := mk_world (k_env w) (k_vnodes w) (k_vfss w)
  (k_advlocks w) x (k_vfsroot w) (k_locks w) (k_fs w).
Definition set_vfsroot (x : ptr) (w : W) : W := mk_world (k_env w) (k_vnodes w) (k_vfss w)
  (k_advlocks w) (k_registry w) x (k_locks w) (k_fs w).
Definition set_locks (x : list lock_id) (w : W) : W := mk_world (k_env w) (k_vnodes w) (k_vfss w)
  (k_advlocks w) (k_registry w) (k_vfsroot w) x (k_fs w).
Definition set_fs (x : F) (w : W) : W := mk_world (k_env w) (k_vnodes w) (k_vfss w)
  (k_advlocks w) (k_registry w) (k_vfsroot w) (k_locks w) x.

Definition get_vnode (a : Z) : ST W vnode := fun w =>
  match k_vnodes w !! a with Some v => Ok (v, w) | None => Fault end.
Definition upd_vnode (a : Z) (f : vnode -> vnode) : ST W unit := fun w =>
  match k_vnodes w !! a with
  | Some v => Ok (tt, set_vnodes (<[a := f v]> (k_vnodes w)) w)
  | None => Fault
  end.
Definition get_vfs (a : Z) : ST W vfs := fun w =>
  match k_vfss w !! a with Some v => Ok (v, w) | None => Fault end.
Definition upd_vfs (a : Z) (f : vfs -> vfs) : ST W unit := fun w =>
  match k_vfss w !! a with
  | Some v => Ok (tt, set_vfss (<[a := f v]> (k_vfss w)) w)
  | None => Fault
  end.

Definition mutex_lock (l : lock_id) : ST W unit := fun w =>
  if decide (l ∈ k_locks w) then Timeout else Ok (tt, set_locks (l :: k_locks w) w).
Definition mutex_unlock (l : lock_id) : ST W unit := fun w =>
  Ok (tt, set_locks (filter (fun x => x <> l) (k_locks w)) w).
End fields.

Section heap.
Context {E F : Type} `{Kenv E}.
Abbreviation W := (world E F).

Definition alloc (n : Z) : ST W ptr := fun w =>
  let '(p, e) := env_alloc n (k_env w) in Ok (p, set_env e w).
Definition buffer (n : Z) : ST W bool := fun w =>
  let '(b, e) := env_buffer n (k_env w) in Ok (b, set_env e w).
Definition release (a : Z) : ST W unit := fun w => Ok (tt, set_env (env_free a (k_env w)) w).
Definition uptime_us : ST W Z := fun w =>
  let '(t, e) := env_uptime (k_env w) in Ok (t, set_env e w).

Lemma alloc_bind {A} n (f : ptr -> ST W A) w p e :
  env_alloc n (k_env w) = (p, e) -> (alloc n ≫= f) w = f p (set_env e w).
Proof. intros He. unfold mbind, st_bind, alloc. by rewrite He. Qed.

Lemma buffer_bind {A} n (f : bool -> ST W A) w b e :
  env_buffer n (k_env w) = (b, e) -> (buffer n ≫= f) w = f b (set_env e w).
Proof. intros He. unfold mbind, st_bind, buffer. by rewrite He. Qed.
End heap.

Definition vn_set_refcount (r : Z) (v : vnode) : vnode :=
  mk_vnode (vn_ops v) r (vn_flags v) (vn_type v) (vn_vfs v) (vn_mounted v) (vn_private v) (vn_advlock v).
Definition vn_set_mounted (m : ptr) (v : vnode) : vnode :=
  mk_vnode (vn_ops v) (vn_refcount v) (vn_flags v) (vn_type v) (vn_vfs v) m (vn_private v) (vn_advlock v).
Definition vn_set_private (p : ptr) (v : vnode) : vnode :=
  mk_vnode (vn_ops v) (vn_refcount v) (vn_flags v) (vn_type v) (vn_vfs v) (vn_mounted v) p (vn_advlock v).
Definition vn_set_advlock (l : ptr) (v : vnode) : vnode :=
  mk_vnode (vn_ops v) (vn_refcount v) (vn_flags v) (vn_type v) (vn_vfs v) (vn_mounted v) (vn_private v) l.
Definition v_set_root (r : ptr) (v : vfs) : vfs := mk_vfs (v_ops v) (v_covered v) r (v_flags v).
Definition v_set_covered (c : ptr) (v : vfs) : vfs := mk_vfs (v_ops v) c (v_root v) (v_flags v).

(** [vfs_struct_init] and [vnode_init]: the values stored. *)
Definition vfs_struct_init (ops : ptr) (flags : Z) : vfs := mk_vfs ops None None flags.
Definition vnode_init (ops : ptr) (flags type : Z) (v : ptr) : vnode :=
  mk_vnode ops 1 flags type v None None None.

(** ** Strings *)

Fixpoint vfs_component_length (path : cstr) : Z :=
  match path with
  | [] => 0
  | c :: path => if c =? slash then 0 else 1 + vfs_component_length path
  end.
Fixpoint vfs_skip_slashes (path : cstr) : cstr :=
  match path with
  | [] => []
  | c :: rest => if c =? slash then vfs_skip_slashes rest else path
  end.

(** The byte of a string at an index, the terminator included. *)
Definition byte_at (s : cstr) (i : Z) : outcome Z := deref ((s ++ [0]) !! Z.to_nat i).
(** [memcmp(lhs, rhs, len) == 0] on strings of at least [len] bytes. *)
Definition bytes_equal (lhs rhs : cstr) (len : Z) : bool :=
  bool_decide (take (Z.to_nat len) (lhs ++ [0]) = take (Z.to_nat len) (rhs ++ [0])).

Definition vfs_component_equal (lhs rhs : cstr) (len : Z) : outcome bool :=
  c ← byte_at rhs len;
  Ok ((c =? 0) && bytes_equal lhs rhs len).

Definition vfs_string_equal (lhs rhs : option cstr) : bool :=
  match lhs, rhs with
  | Some lhs, Some rhs =>
      (Z.of_nat (length lhs) =? Z.of_nat (length rhs)) && bytes_equal lhs rhs (Z.of_nat (length lhs))
  | _, _ => false
  end.

Definition vfs_is_absolute_path (path : cstr) : bool :=
  match path with c :: _ => c =? slash | [] => false end.

Fixpoint vfs_find_type (l : list vfs_type) (name : cstr) : option vfs_type :=
  match l with
  | [] => None
  | entry :: l => if vfs_string_equal (Some name) (Some (ty_name entry)) then Some entry else vfs_find_type l name
  end.

(** What [vfs_lookup] gives: the code, [*result] and [*lastcomp] when they are
    stored. *)
Abbreviation looked := (Z * (ptr * option cstr))%type.
Definition failed : looked := (-1, (None, None)).

Section core.
Context {E F : Type} `{Kenv E} `{FsTable E F}.
Abbreviation W := (world E F).

Definition vfs_strdup (src : cstr) : ST W (option cstr) :=
  b ← buffer (Z.of_nat (length src) + 1);
  mret (if b : bool then Some src else None).

(** [while (node && node->mounted_vfs && node->mounted_vfs->root)]. *)
Fixpoint follow_loop (fuel : nat) (node : ptr) : ST W ptr :=
  match node with
  | None => mret None
  | Some n =>
      v ← get_vnode n;
      match vn_mounted v with
      | None => mret node
      | Some m =>
          fs ← get_vfs m;
          match v_root fs with
          | None => mret node
          | Some _ => match fuel with O => st_timeout | S fuel => follow_loop fuel (v_root fs) end
          end
      end
  end.
(** A chain of mounts with no repetition has at most one step per vnode. *)
Definition vfs_follow_mounts (node : ptr) : ST W ptr := fun w =>
  follow_loop (size (k_vnodes w)) node w.

Definition advlock_allocate : ST W ptr :=
  p ← alloc 12;
  match p with
  | None => mret None
  | Some a => modify (fun w => set_advlocks (<[a := mk_adv 0 1 0]> (k_advlocks w)) w) ;; mret p
  end.
Definition advlock_free (p : ptr) : ST W unit :=
  match p with
  | None => mret tt
  | Some a => modify (fun w => set_advlocks (delete a (k_advlocks w)) w) ;; release a
  end.
Definition ADVLOCK_UNREF (a : Z) : ST W unit := fun w =>
  match k_advlocks w !! a with
  | None => Fault
  | Some l =>
      let r := i32 (adv_refcount l - 1) in
      let w := set_advlocks (<[a := mk_adv (adv_type l) r (adv_shared l)]> (k_advlocks w)) w in
      if r =? 0 then advlock_free (Some a) w else Ok (tt, w)
  end.

Definition vnode_hold (node : ptr) : ST W unit :=
  match node with
  | None => mret tt
  | Some a => upd_vnode a (fun v => vn_set_refcount (i32 (vn_refcount v + 1)) v)
  end.

Definition vfs_inactive (node : ptr) : ST W unit :=
  match node with
  | None => mret tt
  | Some a =>
      v ← get_vnode a;
      (match vn_ops v with
       | Some o => match op_inactive (vops_of o) with Some f => f a | None => mret tt end
       | None => mret tt
       end) ;;
      v ← get_vnode a;
      match vn_advlock v with
      | None => mret tt
      | Some l => ADVLOCK_UNREF l ;; upd_vnode a (vn_set_advlock None)
      end
  end.

(** The caller's handle is null afterwards. *)
Definition vnode_release (node : ptr) : ST W unit :=
  match node with
  | None => mret tt
  | Some a =>
      upd_vnode a (fun v => vn_set_refcount (i32 (vn_refcount v - 1)) v) ;;
      v ← get_vnode a;
      if vn_refcount v =? 0 then vfs_inactive node else mret tt
  end.

Definition vfs_init : ST W unit :=
  modify (set_vfsroot None) ;; modify (set_registry []).

Definition vfs_register (ops : ptr) (name : option cstr) : ST W Z :=
  match ops, name with
  | Some ops, Some (c :: rest) =>
      let name := c :: rest in
      mutex_lock LRegistry ;;
      found ← gets (fun w => vfs_find_type (k_registry w) name);
      match found with
      | Some _ => mutex_unlock LRegistry ;; mret (-1)
      | None =>
          entry ← alloc 24;
          match entry with
          | None => mutex_unlock LRegistry ;; mret (-1)
          | Some a =>
              dup ← vfs_strdup name;
              match dup with
              | None => mutex_unlock LRegistry ;; release a ;; mret (-1)
              | Some dup =>
                  modify (fun w => set_registry (mk_type ops dup :: k_registry w) w) ;;
                  mutex_unlock LRegistry ;; mret 0
              end
          end
      end
  | _, _ => mret (-1)
  end.

(** The loop of [vfs_lookup]; every round consumes a byte of the path. *)
Fixpoint lookup_loop (fuel : nat) (current : Z) (cursor : cstr) (lastcomp : bool) (flags : Z) : ST W looked :=
  match fuel with
  | O => st_timeout
  | S fuel =>
      let component_len := vfs_component_length cursor in
      if (component_len =? 0) || (256 <=? component_len) then mret failed else
      let component := take (Z.to_nat component_len) cursor in
      let cursor := vfs_skip_slashes (drop (Z.to_nat component_len) cursor) in
      let last := match cursor with [] => true | _ => false end in
      if has_bits flags VFS_LOOKUP_PARENT && last then
        vnode_hold (Some current) ;;
        mret (0, (Some current, if lastcomp then Some component else None))
      else
        is_dot ← st_lift (vfs_component_equal component [dot] 1);
        if is_dot : bool then lookup_loop fuel current cursor lastcomp flags else
        is_dotdot ← st_lift (vfs_component_equal component [dot; dot] 2);
        if is_dotdot : bool then mret failed else
        v ← get_vnode current;
        match vn_ops v ≫= fun o => op_lookup (vops_of o) with
        | None => mret failed
        | Some lookup =>
            r ← lookup current component;
            if negb (r.1 =? 0) then mret (r.1, (None, None)) else
            next ← vfs_follow_mounts r.2;
            match next with
            | None => mret failed
            | Some next =>
                if last then vnode_hold (Some next) ;; mret (0, (Some next, None))
                else lookup_loop fuel next cursor lastcomp flags
            end
        end
  end.

(** [result] and [lastcomp] say whether the pointers are not null. *)
Definition vfs_lookup (result : bool) (start : ptr) (path : option cstr) (lastcomp : bool) (flags : Z) : ST W looked :=
  match path with
  | None => mret failed
  | Some path =>
      if negb result then mret failed else
      current ← (if vfs_is_absolute_path path then gets k_vfsroot else mret start);
      current ← vfs_follow_mounts current;
      match current with
      | None => mret failed
      | Some current =>
          let cursor := vfs_skip_slashes path in
          match cursor with
          | [] => vnode_hold (Some current) ;; mret (0, (Some current, None))
          | _ => lookup_loop (S (length cursor)) current cursor lastcomp flags
          end
      end
  end.

Definition vfs_mount (backing pathref : ptr) (path name : option cstr) : ST W Z :=
  match name with
  | None => mret (-1)
  | Some name =>
      mutex_lock LRegistry ;;
      type ← gets (fun w => vfs_find_type (k_registry w) name);
      mutex_unlock LRegistry ;;
      match type ≫= fun t => vo_mount (vfsops_of (ty_ops t)) with
      | None => mret (-1)
      | Some mount =>
          where_ ← (match path with
                    | Some _ => r ← vfs_lookup true pathref path false 0; mret (r.1, r.2.1)
                    | None => mret (0, pathref)
                    end);
          if negb (where_.1 =? 0) then mret where_.1 else
          let mountpoint := where_.2 in
          r ← mount mountpoint backing;
          if negb (r.1 =? 0) then mret r.1 else
          match r.2 with
          | None => mret (-1)
          | Some mounted =>
              m ← get_vfs mounted;
              rc ← (match v_root m, v_ops m ≫= fun o => vo_root (vfsops_of o) with
                    | None, Some root =>
                        r ← root mounted;
                        upd_vfs mounted (v_set_root r.2) ;;
                        mret r.1
                    | _, _ => mret 0
                    end);
              if negb (rc =? 0) then mret rc else
              m ← get_vfs mounted;
              match v_root m with
              | None => mret (-1)
              | Some root =>
                  upd_vfs mounted (v_set_covered mountpoint) ;;
                  (match mountpoint with
                   | Some a => upd_vnode a (vn_set_mounted (Some mounted))
                   | None => modify (set_vfsroot (Some root))
                   end) ;;
                  mret 0
              end
          end
      end
  end.

(** [result] says whether there is storage for the vnode. *)
Definition vfs_open (ref : ptr) (path : option cstr) (flags : Z) (result : bool) : ST W (Z * ptr) :=
  if negb result then mret (-1, None) else
  found ← (match path with
           | Some _ => r ← vfs_lookup true ref path false 0; mret (r.1, r.2.1)
           | None => match ref with
               | None => mret (-1, None)
               | Some _ => vnode_hold ref ;; mret (0, ref)
               end
           end);
  if negb (found.1 =? 0) then mret (found.1, None) else
  match found.2 with
  | None => st_fault
  | Some node =>
      v ← get_vnode node;
      match vn_ops v ≫= fun o => op_open (vops_of o) with
      | None => mret (0, Some node)
      | Some open =>
          r ← open node flags;
          if negb (r.1 =? 0) then vnode_release r.2 ;; mret (r.1, None)
          else mret (0, r.2)
      end
  end.

Definition vfs_close (node : ptr) (flags : Z) : ST W Z :=
  match node with
  | None => mret (-1)
  | Some a =>
      v ← get_vnode a;
      rc ← (match vn_ops v ≫= fun o => op_close (vops_of o) with
            | Some close => close a flags
            | None => mret 0
            end);
      vnode_release node ;;
      mret rc
  end.

Definition vfs_write (node : ptr) (buf : option (list Z)) (size offset flags : Z) : ST W (Z * option Z) :=
  match node with
  | None => mret (-1, None)
  | Some a =>
      v ← get_vnode a;
      match vn_ops v ≫= fun o => op_write (vops_of o) with
      | None => mret (-1, None)
      | Some write => write a buf size offset flags
      end
  end.

Definition vfs_read (node : ptr) (buf : option (list Z)) (size offset flags : Z) :
    ST W (Z * (option (list Z) * option Z)) :=
  match node with
  | None => mret (-1, (buf, None))
  | Some a =>
      v ← get_vnode a;
      match vn_ops v ≫= fun o => op_read (vops_of o) with
      | None => mret (-1, (buf, None))
      | Some read => read a buf size offset flags
      end
  end.

Definition vfs_getdents (node : ptr) (buf : bool) (size offset : Z) : ST W (Z * (list dirent * option Z)) :=
  match node with
  | None => mret (-1, ([], None))
  | Some a =>
      v ← get_vnode a;
      match vn_ops v ≫= fun o => op_getdents (vops_of o) with
      | None => mret (-1, ([], None))
      | Some getdents => getdents a buf size offset
      end
  end.

(** [node] says whether there is storage for the new vnode. *)
Definition vfs_create (ref : ptr) (path : option cstr) (attr : option vattr) (type : Z) (node : bool) :
    ST W (Z * ptr) :=
  match ref, path with
  | Some _, Some _ =>
      if negb node then mret (-1, None) else
      r ← vfs_lookup true ref path true VFS_LOOKUP_PARENT;
      if negb (r.1 =? 0) then mret (r.1, None) else
      match r.2.1, r.2.2 with
      | None, _ => st_fault
      | parent, None | parent, Some [] => vnode_release parent ;; mret (-1, None)
      | Some parent, Some lastcomp =>
          v ← get_vnode parent;
          match vn_ops v ≫= fun o => op_create (vops_of o) with
          | None => vnode_release (Some parent) ;; mret (-1, None)
          | Some create =>
              c ← create parent lastcomp attr type;
              vnode_release (Some parent) ;;
              mret c
          end
      end
  | _, _ => mret (-1, None)
  end.
End core.

(** ** Path resolution over the list of components *)

Fixpoint split_path (p : cstr) : list cstr :=
  match p with
  | [] => [[]]
  | c :: p =>
      if c =? slash then [] :: split_path p
      else match split_path p with [] => [[c]] | h :: t => (c :: h) :: t end
  end.

(** The non-empty pieces between slashes. *)
Definition path_components (p : cstr) : list cstr := filter (fun c => c <> []) (split_path p).

Definition starts_with_dot (c : cstr) : bool :=
  match c with x :: _ => x =? dot | [] => false end.

Section walk.
Context {E F : Type} `{Kenv E} `{FsTable E F}.
Abbreviation W := (world E F).

(** Resolution of a component list from a vnode. *)
Fixpoint walk (cs : list cstr) (current : Z) (lastcomp parent : bool) : ST W looked :=
  match cs with
  | [] => mret failed
  | c :: cs =>
      let last := match cs with [] => true | _ => false end in
      if 256 <=? Z.of_nat (length c) then mret failed
      else if parent && last then
        vnode_hold (Some current) ;; mret (0, (Some current, if lastcomp then Some c else None))
      else if starts_with_dot c then walk cs current lastcomp parent
      else
        v ← get_vnode current;
        match vn_ops v ≫= fun o => op_lookup (vops_of o) with
        | None => mret failed
        | Some lookup =>
            r ← lookup current c;
            if negb (r.1 =? 0) then mret (r.1, (None, None)) else
            next ← vfs_follow_mounts r.2;
            match next with
            | None => mret failed
            | Some next =>
                if last then vnode_hold (Some next) ;; mret (0, (Some next, None))
                else walk cs next lastcomp parent
            end
        end
  end.

Definition resolve (start : ptr) (path : cstr) (lastcomp : bool) (flags : Z) : ST W looked :=
  current ← (if vfs_is_absolute_path path then gets k_vfsroot else mret start);
  current ← vfs_follow_mounts current;
  match current with
  | None => mret failed
  | Some current =>
      match path_components path with
      | [] => vnode_hold (Some current) ;; mret (0, (Some current, None))
      | cs => walk cs current lastcomp (has_bits flags VFS_LOOKUP_PARENT)
      end
  end.
End walk.

Lemma split_path_ne p : split_path p <> [].
Proof. destruct p as [|c p]; simpl; [done|]. destruct (c =? slash); [done|]. by destruct (split_path p). Qed.

Lemma components_nil : path_components [] = [].
Proof. reflexivity. Qed.

Lemma components_slash p : path_components (slash :: p) = path_components p.
Proof. reflexivity. Qed.

Lemma components_skip p : path_components (vfs_skip_slashes p) = path_components p.
Proof.
  induction p as [|c p IH]; simpl; [done|]. destruct (Z.eqb_spec c slash) as [->|]; [|done].
  by rewrite components_slash.
Qed.

Lemma skip_head p c r : vfs_skip_slashes p = c :: r -> c <> slash.
Proof.
  induction p as [|x p IH]; simpl; [done|]. destruct (Z.eqb_spec x slash); [done|congruence].
Qed.

Lemma skip_length p : (length (vfs_skip_slashes p) <= length p)%nat.
Proof. induction p as [|x p IH]; simpl; [done|]. destruct (x =? slash); simpl; lia. Qed.

Lemma component_length_bounds p : 0 <= vfs_component_length p <= Z.of_nat (length p).
Proof. induction p as [|x p IH]; simpl; [lia|]. destruct (x =? slash); lia. Qed.

(** The first piece of the split is the component, the rest starts after it. *)
Lemma split_path_cut p :
  split_path p = take (Z.to_nat (vfs_component_length p)) p ::
    match drop (Z.to_nat (vfs_component_length p)) p with [] => [] | _ :: r => split_path r end.
Proof.
  induction p as [|x p IH]; simpl; [done|]. destruct (Z.eqb_spec x slash) as [->|Hx]; [done|].
  pose proof (component_length_bounds p).
  replace (Z.to_nat (1 + vfs_component_length p)) with (S (Z.to_nat (vfs_component_length p))) by lia.
  simpl. by rewrite IH.
Qed.

Lemma component_length_pos c p : c <> slash -> 0 < vfs_component_length (c :: p).
Proof. intros Hc. simpl. destruct (Z.eqb_spec c slash); [done|]. pose proof (component_length_bounds p). lia. Qed.

Lemma drop_component_head p x r :
  drop (Z.to_nat (vfs_component_length p)) p = x :: r -> x = slash.
Proof.
  induction p as [|y p IH]; simpl; [done|]. destruct (Z.eqb_spec y slash) as [->|Hy]; simpl; [congruence|].
  pose proof (component_length_bounds p).
  replace (Z.to_nat (1 + vfs_component_length p)) with (S (Z.to_nat (vfs_component_length p))) by lia.
  done.
Qed.

Lemma components_cut c p : c <> slash ->
  path_components (c :: p) =
    take (Z.to_nat (vfs_component_length (c :: p))) (c :: p)
    :: path_components (vfs_skip_slashes (drop (Z.to_nat (vfs_component_length (c :: p))) (c :: p))).
Proof.
  intros Hc. rewrite components_skip. unfold path_components at 1.
  rewrite split_path_cut. pose proof (component_length_pos c p Hc) as Hpos.
  rewrite filter_cons_True.
  2:{ destruct (Z.to_nat (vfs_component_length (c :: p))) eqn:E1; [lia|done]. }
  f_equal. destruct (drop _ _) as [|x r] eqn:E1; [done|].
  by rewrite (drop_component_head _ _ _ E1), components_slash.
Qed.

Lemma dot_test c r : vfs_component_equal (c :: r) [dot] 1 = Ok (c =? dot).
Proof.
  unfold vfs_component_equal, byte_at, bytes_equal. simpl. unfold mbind, outcome_bind. simpl.
  f_equal. destruct (Z.eqb_spec c dot) as [->|]; [by apply bool_decide_eq_true|].
  apply bool_decide_eq_false. unfold dot in *. congruence.
Qed.

Lemma dotdot_test c r : c <> dot -> vfs_component_equal (c :: r) [dot; dot] 2 = Ok false.
Proof.
  intros Hc. unfold vfs_component_equal, byte_at, bytes_equal. simpl. unfold mbind, outcome_bind. simpl.
  f_equal. apply bool_decide_eq_false. unfold dot in *. destruct r; simpl; congruence.
Qed.

Section walk_lemmas.
Context {E F : Type} `{Kenv E} `{FsTable E F}.
Abbreviation W := (world E F).

Lemma lookup_loop_walk fuel current cursor lastcomp flags (w : W) :
  (length cursor < fuel)%nat -> (forall c r, cursor = c :: r -> c <> slash) ->
  lookup_loop fuel current cursor lastcomp flags w =
  walk (path_components cursor) current lastcomp (has_bits flags VFS_LOOKUP_PARENT) w.
Proof.
  revert current cursor w. induction fuel as [|fuel IH]; intros current cursor w Hf Hc; [lia|].
  cbn [lookup_loop]. destruct cursor as [|c r]; [done|].
  specialize (Hc _ _ eq_refl). rewrite (components_cut c r Hc).
  pose proof (component_length_pos c r Hc) as Hpos. pose proof (component_length_bounds (c :: r)) as Hlen.
  set (n := vfs_component_length (c :: r)) in *. set (rest := vfs_skip_slashes _).
  assert (forall cur s, lookup_loop fuel cur rest lastcomp flags s =
    walk (path_components rest) cur lastcomp (has_bits flags VFS_LOOKUP_PARENT) s) as IHr.
  { intros cur s. apply IH; [|apply skip_head].
    unfold rest. eapply Nat.le_lt_trans; [apply skip_length|]. rewrite length_drop. simpl in Hf |- *. lia. }
  cbn [walk]. rewrite length_take_le by lia. rewrite Z2Nat.id by lia.
  assert ((n =? 0) = false) as -> by (by apply Z.eqb_neq; lia). simpl orb.
  destruct (256 <=? n); [done|].
  assert (match path_components rest with [] => true | _ => false end =
          match rest with [] => true | _ => false end) as ->.
  { destruct rest as [|x y] eqn:Er; [done|]. unfold rest in Er.
    by rewrite (components_cut x y (skip_head _ _ _ Er)). }
  destruct (has_bits flags VFS_LOOKUP_PARENT && _); [done|]. cbn iota.
  destruct (take (Z.to_nat n) (c :: r)) as [|c' r'] eqn:Et.
  { apply (f_equal length) in Et. rewrite length_take_le in Et by lia. simpl in Et. lia. }
  rewrite dot_test. cbn [starts_with_dot].
  cbv beta iota delta [orb].
  rewrite (st_bind_ok (st_lift (Ok (c' =? dot))) _ w (c' =? dot) w eq_refl).
  destruct (Z.eqb_spec c' dot); [apply IHr|].
  rewrite dotdot_test by done. rewrite (st_bind_ok (st_lift (Ok false)) _ w false w eq_refl).
  apply bind_ext; [done|]. intros v s.
  destruct (vn_ops v ≫= _); [|done]. apply bind_ext; [done|]. intros x s'.
  destruct (negb (x.1 =? 0)); [done|]. apply bind_ext; [done|]. intros nx s''.
  destruct nx; [|done]. destruct rest eqn:Er; [done|]. apply IHr.
Qed.

Lemma vfs_lookup_walks start path lastcomp flags (w : W) :
  vfs_lookup true start (Some path) lastcomp flags w = resolve start path lastcomp flags w.
Proof.
  unfold vfs_lookup, resolve. cbn [negb].
  apply bind_ext; [done|]. intros c s. apply bind_ext; [done|]. intros c' s'.
  destruct c' as [cur|]; [|done]. rewrite <- (components_skip path).
  destruct (vfs_skip_slashes path) as [|x y] eqn:Es; [done|].
  pose proof (skip_head _ _ _ Es) as Hx. rewrite lookup_loop_walk.
  - by rewrite (components_cut x y Hx).
  - simpl. lia.
  - by intros ? ? [= <- <-].
Qed.

(** [vfs_lookup] resolves the path component by component: the byte
    cursor of the code, with its slash skipping and its 256-byte buffer, gives
    for every path, flag and state exactly the resolution of the list of the
    non-empty pieces between slashes, absolute paths from the root vnode and
    others from [start], mounts followed at every step, the parent and the last
    component with [VFS_LOOKUP_PARENT]; the scan never runs out of its fuel. *)
Theorem vfs_lookup_resolves start path lastcomp flags (w : W) :
  vfs_lookup true start (Some path) lastcomp flags w = resolve start path lastcomp flags w.
Proof. apply vfs_lookup_walks. Qed.
End walk_lemmas.

(** ** Reference counts *)

(** Splits a run [(m ≫= f) w = Ok _] into the run of [m] and the rest. *)
Ltac step H := let a := fresh "a" in let w := fresh "w" in let Ha := fresh "Ha" in
  apply st_bind_inv in H as (a & w & Ha & H).

Section refs.
Context {E F : Type} `{Kenv E} `{FsTable E F}.
Abbreviation W := (world E F).

Definition refs (w : W) (a : Z) : option Z := vn_refcount <$> k_vnodes w !! a.

(** Every vnode is a live object of the heap. *)
Definition heap_ok (w : W) : Prop := dom (k_vnodes w) ⊆ env_live (k_env w).

(** The counts are the same, vnodes that are new hold one reference. *)
Definition keeps (w w' : W) : Prop :=
  (heap_ok w -> heap_ok w') /\
  forall a, refs w' a = refs w a \/ (refs w a = None /\ refs w' a = Some 1).

(** The same but for one more reference to [n]. *)
Definition taken (n : Z) (w w' : W) : Prop :=
  (heap_ok w -> heap_ok w') /\
  (exists r, (refs w n = Some r \/ refs w n = None /\ r = 1) /\ refs w' n = Some (r + 1)) /\
  forall a, a <> n -> refs w' a = refs w a \/ (refs w a = None /\ refs w' a = Some 1).

Definition refs_ok (w : W) : Prop :=
  heap_ok w /\ forall a r, refs w a = Some r -> 1 <= r < 2 ^ 31 - 1.

(** What a file system promises about reference counts: its operations leave
    them alone and give back the vnode they were asked to open. *)
Class FsLaws : Prop := {
  law_open o f n fl w r w' : op_open (vops_of o) = Some f -> heap_ok w -> f n fl w = Ok (r, w') ->
    r.2 = Some n /\ keeps w w';
  law_close o f n fl w r w' : op_close (vops_of o) = Some f -> heap_ok w ->
    f n fl w = Ok (r, w') -> keeps w w';
  law_lookup o f n c w r w' : op_lookup (vops_of o) = Some f -> heap_ok w ->
    f n c w = Ok (r, w') -> keeps w w';
  law_create o f n c at_ ty w r w' : op_create (vops_of o) = Some f -> heap_ok w ->
    f n c at_ ty w = Ok (r, w') -> keeps w w' }.

Lemma keeps_refl w : keeps w w.
Proof. split; [done|]. by left. Qed.

Lemma keeps_trans w1 w2 w3 : keeps w1 w2 -> keeps w2 w3 -> keeps w1 w3.
Proof.
  intros [O1 H1] [O2 H2]. split; [auto|].
  intros a. destruct (H1 a) as [E1|[E1 E2]], (H2 a) as [E3|[E3 E4]]; rewrite ?E3, ?E1 in *; auto.
Qed.

Lemma refs_ok_keeps w w' : keeps w w' -> refs_ok w -> refs_ok w'.
Proof.
  intros [O1 Hk] [O2 Ho]. split; [auto|]. intros a r Hr.
  destruct (Hk a) as [E1|[_ E1]]; rewrite E1 in Hr; [eauto|simplify_eq; lia].
Qed.

Lemma taken_keeps n w w1 w' : keeps w w1 -> taken n w1 w' -> taken n w w'.
Proof.
  intros [O1 Hk] (O2 & (r & Hr & Hr') & Hne). split; [auto|]. split.
  - exists r. split; [|done]. destruct (Hk n) as [E1|[E1 E2]]; destruct Hr as [Hr|[Hr ->]]; rewrite ?E1 in *; auto.
    right. split; congruence.
  - intros a Ha. destruct (Hk a) as [E1|[E1 E2]], (Hne a Ha) as [E3|[E3 E4]]; rewrite ?E3, ?E1 in *; auto.
Qed.

Lemma taken_after n w w1 w' : taken n w w1 -> keeps w1 w' -> taken n w w'.
Proof.
  intros (O2 & (r & Hr & Hr') & Hne) [O1 Hk]. split; [auto|]. split.
  - exists r. split; [done|]. destruct (Hk n) as [E1|[E1 E2]]; congruence.
  - intros a Ha. destruct (Hk a) as [E1|[E1 E2]], (Hne a Ha) as [E3|[E3 E4]]; rewrite ?E3, ?E1 in *; auto.
Qed.

Lemma heap_ok_upd (w : W) n f v : k_vnodes w !! n = Some v ->
  heap_ok w -> heap_ok (set_vnodes (<[n := f]> (k_vnodes w)) w).
Proof.
  unfold heap_ok. simpl. intros Hv Ho. apply elem_of_dom_2 in Hv.
  rewrite dom_insert_L, subseteq_union_1_L by set_solver. done.
Qed.


Lemma upd_vnode_inv a f w r w' : upd_vnode (E := E) (F := F) a f w = Ok (r, w') ->
  exists v, k_vnodes w !! a = Some v /\ w' = set_vnodes (<[a := f v]> (k_vnodes w)) w.
Proof. unfold upd_vnode. destruct (k_vnodes w !! a) as [v|]; [|done]. intros. simplify_eq. eauto. Qed.

Lemma get_vnode_inv a w v w' : get_vnode (E := E) (F := F) a w = Ok (v, w') ->
  k_vnodes w !! a = Some v /\ w' = w.
Proof. unfold get_vnode. destruct (k_vnodes w !! a); [|done]. intros. by simplify_eq. Qed.

Lemma follow_loop_state fuel p w q w' : follow_loop (E := E) (F := F) fuel p w = Ok (q, w') -> w' = w.
Proof.
  revert p. induction fuel as [|fuel IH]; intros [n|]; simpl; unfold mret, st_ret; intros Hr;
    try (by simplify_eq); step Hr; apply get_vnode_inv in Ha as [_ ->];
    (destruct (vn_mounted a); [|by simplify_eq]); step Hr;
    (assert (w0 = w) as -> by (unfold get_vfs in Ha; destruct (k_vfss w !! z); by simplify_eq));
    (destruct (v_root a0); [|by simplify_eq]); [done|by eapply IH].
Qed.

Lemma follow_state p w q w' : vfs_follow_mounts (E := E) (F := F) p w = Ok (q, w') -> w' = w.
Proof. apply follow_loop_state. Qed.

Lemma hold_taken n w w' r : refs_ok w -> vnode_hold (Some n) w = Ok (r, w') -> taken n w w'.
Proof.
  intros Ho Hh. apply upd_vnode_inv in Hh as (v & Hv & ->).
  assert (refs w n = Some (vn_refcount v)) as Hr by (unfold refs; by rewrite Hv).
  split; [by eapply heap_ok_upd|]. split.
  - exists (vn_refcount v). split; [by left|].
    unfold refs; simpl. rewrite lookup_insert_eq. simpl. f_equal. apply i32_small.
    pose proof (proj2 Ho _ _ Hr). lia.
  - intros a Ha. left. unfold refs; simpl. by rewrite lookup_insert_ne by done.
Qed.

(** Dropping a reference just taken. *)
Lemma release_taken n w w' w'' r : refs_ok w -> taken n w w' ->
  vnode_release (Some n) w' = Ok (r, w'') -> keeps w w''.
Proof.
  intros [Hh Ho] (Hh' & (c & Hc & Hc') & Hne) Hr. unfold vnode_release in Hr.
  step Hr. apply upd_vnode_inv in Ha as (v & Hv & ->). step Hr. apply get_vnode_inv in Ha as [Hg ->].
  assert (vn_refcount v = c + 1) as Hcv.
  { unfold refs in Hc'. rewrite Hv in Hc'. simpl in Hc'. congruence. }
  assert (1 <= c < 2 ^ 31 - 1) as Hb.
  { destruct Hc as [Hc|[_ ->]]; [by eapply Ho|lia]. }
  simpl in Hg. rewrite lookup_insert_eq in Hg. simplify_eq/=.
  rewrite Hcv, Z.add_simpl_r, i32_small in Hr by lia.
  destruct (Z.eqb_spec c 0); [lia|]. unfold mret, st_ret in Hr. simplify_eq.
  assert (forall f b, refs (set_vnodes (<[n:=f]> (k_vnodes w')) w') b =
    if decide (b = n) then Some (vn_refcount f) else refs w' b) as Hup.
  { intros f b. unfold refs; simpl. destruct (decide (b = n)) as [->|Hn].
    - by rewrite lookup_insert_eq.
    - by rewrite lookup_insert_ne by done. }
  split; [intros _; eapply heap_ok_upd; eauto|]. intros b. rewrite Hup. destruct (decide (b = n)) as [->|Hn]; [|by apply Hne]. simpl.
  destruct Hc as [->|[-> ->]]; auto.
Qed.

Lemma walk_refs `{!FsLaws} cs cur lc pf w r w' : refs_ok w -> walk cs cur lc pf w = Ok (r, w') ->
  (r.1 = 0 -> exists n, r.2.1 = Some n /\ taken n w w') /\ (r.1 <> 0 -> keeps w w').
Proof.
  revert cur w. induction cs as [|c cs IH]; intros cur w Ho Hw; cbn [walk] in Hw.
  { unfold mret, st_ret in Hw. simplify_eq/=. split; [done|]. intros _. apply keeps_refl. }
  assert (forall s, mret (M := ST W) failed s = Ok (r, w') -> s = w' /\ r = failed) as Hfail.
  { intros s. unfold mret, st_ret. intros. by simplify_eq. }
  destruct (256 <=? _).
  { apply Hfail in Hw as [-> ->]. split; [done|]. intros _. apply keeps_refl. }
  destruct (pf && _).
  { step Hw. unfold mret, st_ret in Hw. simplify_eq/=. split; [|done]. intros _.
    exists cur. split; [done|]. by eapply hold_taken. }
  destruct (starts_with_dot c); [by eapply IH|].
  step Hw. apply get_vnode_inv in Ha as [_ ->].
  destruct (vn_ops a) as [o|]; simpl in Hw.
  2:{ apply Hfail in Hw as [-> ->]. split; [done|]. intros _. apply keeps_refl. }
  destruct (op_lookup (vops_of o)) as [f|] eqn:Hf.
  2:{ apply Hfail in Hw as [-> ->]. split; [done|]. intros _. apply keeps_refl. }
  step Hw. pose proof (law_lookup _ _ _ _ _ _ _ Hf (proj1 Ho) Ha) as Hk.
  destruct (Z.eqb_spec a0.1 0) as [E0|E0]; cbn [negb] in Hw.
  2:{ unfold mret, st_ret in Hw. by simplify_eq. }
  step Hw. apply follow_state in Ha0 as ->. destruct a1 as [nx|].
  2:{ apply Hfail in Hw as [-> ->]. by split. }
  pose proof (refs_ok_keeps _ _ Hk Ho) as Ho'.
  destruct cs as [|c' cs].
  - step Hw. unfold mret, st_ret in Hw. simplify_eq/=. split; [|done]. intros _.
    exists nx. split; [done|]. eapply taken_keeps; [exact Hk|]. by eapply hold_taken.
  - destruct (IH _ _ Ho' Hw) as [IH1 IH2]. split.
    + intros E1. destruct (IH1 E1) as (n & ? & ?). exists n. split; [done|]. by eapply taken_keeps.
    + intros E1. eapply keeps_trans; eauto.
Qed.

Lemma vfs_lookup_refs `{!FsLaws} start path lc flags w r w' : refs_ok w ->
  vfs_lookup true start (Some path) lc flags w = Ok (r, w') ->
  (r.1 = 0 -> exists n, r.2.1 = Some n /\ taken n w w') /\ (r.1 <> 0 -> keeps w w').
Proof.
  intros Ho Hl. unfold vfs_lookup in Hl. cbn [negb] in Hl. step Hl.
  assert (w0 = w) as -> by (destruct (vfs_is_absolute_path path);
    unfold gets, mret, st_ret in Ha; by simplify_eq).
  step Hl. apply follow_state in Ha0 as ->. destruct a0 as [cur|].
  2:{ unfold mret, st_ret in Hl. simplify_eq/=. split; [done|]. intros _. apply keeps_refl. }
  pose proof (skip_head path) as Hs.
  destruct (vfs_skip_slashes path) as [|x y] eqn:Es.
  - step Hl. unfold mret, st_ret in Hl. simplify_eq/=. split; [|done]. intros _. exists cur.
    split; [done|]. by eapply hold_taken.
  - rewrite lookup_loop_walk in Hl; [|lia|intros ? ? [= <- <-]; by eapply Hs]. by eapply walk_refs.
Qed.

Lemma vfs_open_ok `{!FsLaws} ref path flags w rc p w' : refs_ok w ->
  vfs_open ref path flags true w = Ok ((rc, p), w') ->
  (rc = 0 -> exists n, p = Some n /\ taken n w w') /\ (rc <> 0 -> p = None /\ keeps w w').
Proof.
  intros Ho Hr. unfold vfs_open in Hr. cbn [negb] in Hr. step Hr.
  assert ((a.1 = 0 -> exists n, a.2 = Some n /\ taken n w w0) /\
          (a.1 <> 0 -> keeps w w0)) as [Hfound Hmiss].
  { destruct path as [path|].
    - step Ha. apply st_ret_inv in Ha as [-> ->]. cbn [fst snd]. exact (vfs_lookup_refs _ _ _ _ _ _ _ Ho Ha0).
    - destruct ref as [n|].
      + step Ha. apply st_ret_inv in Ha as [Heq ->]; simplify_eq/=. split; [|done]. intros _.
        exists n. split; [done|]. by eapply hold_taken.
      + apply st_ret_inv in Ha as [Heq ->]; simplify_eq/=. split; [done|]. intros _. apply keeps_refl. }
  destruct (Z.eqb_spec a.1 0) as [E0|E0]; cbn [negb] in Hr.
  2:{ apply st_ret_inv in Hr as [Heq ->]; simplify_eq. split; [done|auto]. }
  destruct (Hfound E0) as (n & E1 & Ht). rewrite E1 in Hr.
  step Hr. apply get_vnode_inv in Ha0 as [_ ->].
  destruct (vn_ops a0) as [o|]; simpl in Hr.
  2:{ apply st_ret_inv in Hr as [Heq ->]; simplify_eq. split; [|done]. eauto. }
  destruct (op_open (vops_of o)) as [f|] eqn:Hf.
  2:{ apply st_ret_inv in Hr as [Heq ->]; simplify_eq. split; [|done]. eauto. }
  step Hr. destruct (law_open _ _ _ _ _ _ _ Hf (proj1 Ht (proj1 Ho)) Ha0) as [E2 Hk]. rewrite E2 in Hr.
  pose proof (taken_after _ _ _ _ Ht Hk) as Ht'.
  destruct (Z.eqb_spec a1.1 0) as [E3|E3]; cbn [negb] in Hr.
  - apply st_ret_inv in Hr as [Heq ->]; simplify_eq. split; [|done]. eauto.
  - step Hr. apply st_ret_inv in Hr as [Heq ->]; simplify_eq. split; [done|]. intros _.
    split; [done|]. by eapply release_taken.
Qed.

Lemma vfs_close_ok `{!FsLaws} n flags w0 w rc w' : refs_ok w0 -> taken n w0 w ->
  vfs_close (Some n) flags w = Ok (rc, w') -> keeps w0 w'.
Proof.
  intros Ho Ht Hr. unfold vfs_close in Hr. step Hr. apply get_vnode_inv in Ha as [_ ->].
  step Hr. assert (keeps w w1) as Hk.
  { destruct (vn_ops a) as [o|]; simpl in Ha.
    - destruct (op_close (vops_of o)) as [f|] eqn:Hf; [exact (law_close _ _ _ _ _ _ _ Hf (proj1 Ht (proj1 Ho)) Ha)|].
      apply st_ret_inv in Ha as [Heq ->]; simplify_eq. apply keeps_refl.
    - apply st_ret_inv in Ha as [Heq ->]; simplify_eq. apply keeps_refl. }
  step Hr. apply st_ret_inv in Hr as [Heq ->]; simplify_eq.
  eapply release_taken; [done| |done]. by eapply taken_after.
Qed.

(** C15: opening and closing balance the references over every file system that
    leaves the counts alone: a successful [vfs_open] takes exactly one
    reference to the vnode it returns, an unsuccessful one, wherever it failed,
    takes none and returns no vnode, and closing the vnode later gives the
    reference back. *)
Theorem vfs_open_close_refs `{!FsLaws} ref path flags w rc p w' : refs_ok w ->
  vfs_open ref path flags true w = Ok ((rc, p), w') ->
  (rc <> 0 -> p = None /\ keeps w w') /\
  (rc = 0 -> exists n, p = Some n /\ taken n w w' /\
    forall flags' w1 rc' w'', keeps w' w1 -> vfs_close p flags' w1 = Ok (rc', w'') -> keeps w w'').
Proof.
  intros Ho Hr. destruct (vfs_open_ok _ _ _ _ _ _ _ Ho Hr) as [Hs Hf]. split; [done|].
  intros E0. destruct (Hs E0) as (n & -> & Ht). exists n. split; [done|]. split; [done|].
  intros fl w1 rc' w'' Hk Hc. eapply vfs_close_ok; [exact Ho| |exact Hc]. by eapply taken_after.
Qed.

(** [vfs_create] keeps no reference to the parent directory it resolved:
    over every law-abiding file system it returns, on success and on every
    failure after the lookup, with the counts of the existing vnodes as they
    were, and a vnode that is new holds the single reference of its creator. *)
Theorem vfs_create_refs `{!FsLaws} ref path attr type w rc p w' : refs_ok w ->
  vfs_create ref path attr type true w = Ok ((rc, p), w') -> keeps w w'.
Proof.
  intros Ho Hr. unfold vfs_create in Hr.
  destruct ref as [ref|]; [|unfold mret, st_ret in Hr; simplify_eq; apply keeps_refl].
  destruct path as [path|]; [|unfold mret, st_ret in Hr; simplify_eq; apply keeps_refl].
  cbn [negb] in Hr. step Hr. destruct (vfs_lookup_refs _ _ _ _ _ _ _ Ho Ha) as [Hs Hm].
  destruct a as [c0 [p0 l0]]. cbn [fst snd] in *.
  destruct (Z.eqb_spec c0 0) as [E0|E0]; cbn [negb] in Hr.
  2:{ apply st_ret_inv in Hr as [Heq ->]; simplify_eq. auto. }
  destruct (Hs E0) as (n & E1 & Ht). subst p0.
  assert (forall x, (vnode_release (Some n) ;; mret x) w0 = Ok ((rc, p), w') -> keeps w w') as Hrel.
  { intros x Hx. step Hx. apply st_ret_inv in Hx as [Heq ->]; simplify_eq. by eapply release_taken. }
  destruct l0 as [[|c cs]|]; [by eapply Hrel| |by eapply Hrel].
  step Hr. apply get_vnode_inv in Ha0 as [_ ->].
  destruct (vn_ops a) as [o|]; simpl in Hr; [|by eapply Hrel].
  destruct (op_create (vops_of o)) as [f|] eqn:Hf; [|by eapply Hrel].
  step Hr. pose proof (law_create _ _ _ _ _ _ _ _ _ Hf (proj1 Ht (proj1 Ho)) Ha0) as Hk.
  step Hr. apply st_ret_inv in Hr as [Heq ->]; simplify_eq.
  eapply release_taken; [done| |done]. by eapply taken_after.
Qed.
End refs.

(** ** Strings and the registry *)

Lemma bytes_equal_full (a b : cstr) : length a = length b ->
  bytes_equal a b (Z.of_nat (length a)) = bool_decide (a = b).
Proof.
  intros Hl. unfold bytes_equal. rewrite Nat2Z.id. rewrite take_app_length.
  rewrite Hl. by rewrite take_app_length.
Qed.

Lemma vfs_string_equal_eq (a b : cstr) : vfs_string_equal (Some a) (Some b) = bool_decide (a = b).
Proof.
  simpl. destruct (Z.eqb_spec (Z.of_nat (length a)) (Z.of_nat (length b))) as [E1|E1]; simpl.
  - apply bytes_equal_full. lia.
  - symmetry. apply bool_decide_eq_false. congruence.
Qed.

(** The registry as a lookup by name. *)
Lemma find_type_none l n : vfs_find_type l n = None <-> n ∉ ty_name <$> l.
Proof.
  induction l as [|t l IH]; cbn [vfs_find_type fmap list_fmap].
  - split; [intros _; apply not_elem_of_nil|done].
  - rewrite vfs_string_equal_eq, not_elem_of_cons. case_bool_decide; [|rewrite IH]; naive_solver.
Qed.

Section mutex.
Context {E F : Type}.
Abbreviation W := (world E F).

Lemma mutex_lock_ok l (w : W) : l ∉ k_locks w -> mutex_lock l w = Ok (tt, set_locks (l :: k_locks w) w).
Proof. intros Hl. unfold mutex_lock. by rewrite decide_False by done. Qed.

(** Releasing the mutex taken last, whatever else has changed since. *)
Lemma mutex_unlock_ok l (w : W) ls : k_locks w = l :: ls -> l ∉ ls ->
  mutex_unlock l w = Ok (tt, set_locks ls w).
Proof.
  intros He Hl. unfold mutex_unlock. rewrite He, filter_cons_False by tauto.
  repeat f_equal. clear He. induction ls as [|x ls IH]; [done|]. apply not_elem_of_cons in Hl as [Hx Hl].
  rewrite filter_cons_True by congruence. f_equal. by apply IH.
Qed.
End mutex.

Section registry.
Context {E F : Type} `{Kenv E} `{FsTable E F}.
Abbreviation W := (world E F).

(** What is left alone by an operation on the registry. *)
Definition same_but_registry (w w' : W) : Prop :=
  k_vnodes w' = k_vnodes w /\ k_vfss w' = k_vfss w /\ k_advlocks w' = k_advlocks w /\
  k_vfsroot w' = k_vfsroot w /\ k_locks w' = k_locks w /\ k_fs w' = k_fs w.

Definition registered (w : W) : list cstr := ty_name <$> k_registry w.

(** [vfs_register] keeps the registry a function of the name. With the
    registry mutex free it always returns, with the mutex free again on each of
    its five exits; it gives 0 exactly when the arguments are there, the name is
    new and the two allocations succeed, and then the name is found with its
    operations and every other name as before; otherwise it gives -1 and the
    registry is untouched. Names stay distinct. *)
Theorem vfs_register_spec (w : W) ops name : LRegistry ∉ k_locks w -> NoDup (registered w) ->
  exists rc w', vfs_register ops name w = Ok (rc, w') /\ same_but_registry w w' /\
    NoDup (registered w') /\
    ((rc = 0 /\ exists o n, ops = Some o /\ name = Some n /\ n <> [] /\ (n ∉ registered w) /\
        forall m, vfs_find_type (k_registry w') m =
          if decide (m = n) then Some (mk_type o n) else vfs_find_type (k_registry w) m)
     \/ (rc = -1 /\ k_registry w' = k_registry w /\
        (ops = None \/ name = None \/ name = Some [] \/ (exists n, name = Some n /\ n ∈ registered w) \/
         (exists e, env_alloc 24 (k_env w) = (None, e)) \/
         (exists p e e' n, name = Some n /\ env_alloc 24 (k_env w) = (Some p, e) /\
            env_buffer (Z.of_nat (length n) + 1) e = (false, e'))))).
Proof.
  intros Hl Hnd. unfold vfs_register.
  destruct ops as [o|]; [|exists (-1), w; split_and!; try done; right; tauto].
  destruct name as [[|c rest]|]; [exists (-1), w; split_and!; try done; right; tauto| |
    exists (-1), w; split_and!; try done; right; tauto].
  set (n := c :: rest). rewrite (st_bind_ok _ _ _ _ _ (mutex_lock_ok _ _ Hl)).
  rewrite (st_bind_ok _ _ _ _ _ (eq_refl : gets (fun w => vfs_find_type (k_registry w) n) _ = Ok _)).
  assert (forall B (k : ST W B) (w1 : W), k_locks w1 = LRegistry :: k_locks w ->
    (mutex_unlock LRegistry ;; k) w1 = k (set_locks (k_locks w) w1)) as Hun.
  { intros B k w1 He. by rewrite (st_bind_ok _ _ _ _ _ (mutex_unlock_ok _ _ _ He Hl)). }
  cbn [k_registry set_locks]. destruct (vfs_find_type (k_registry w) n) as [t|] eqn:Hfind.
  { rewrite Hun by done. eexists _, _. split; [done|]. split_and!; try done. right.
    split_and!; try done. do 3 right. left. exists n. split; [done|].
    destruct (decide (n ∈ registered w)) as [|Hn]; [done|].
    apply find_type_none in Hn. congruence. }
  unfold alloc at 1. unfold mbind at 1, st_bind at 1. cbn [k_env set_locks].
  destruct (env_alloc 24 (k_env w)) as [[a|] e] eqn:Ha.
  2:{ rewrite Hun by done. eexists _, _. split; [done|]. split_and!; try done. right.
      split_and!; try done. do 4 right. left. eauto. }
  unfold vfs_strdup, buffer. rewrite bind_assoc. unfold mbind at 1, st_bind at 1. cbn [k_env set_env].
  destruct (env_buffer _ e) as [[|] e'] eqn:Hb; cbn [mret st_ret].
  2:{ unfold mbind at 1, st_bind at 1. cbn [mret st_ret]. rewrite Hun by done.
      eexists _, _. split; [done|]. split_and!; try done. right. split_and!; try done.
      do 5 right. eauto 10. }
  unfold mbind at 1, st_bind at 1. cbn [mret st_ret].
  unfold modify. unfold mbind at 1, st_bind at 1. rewrite Hun by done.
  apply find_type_none in Hfind.
  eexists _, _. split; [done|]. split_and!; try done.
  - unfold registered. simpl. constructor; done.
  - left. split; [done|]. exists o, n. split_and!; try done. intros m.
    cbn [k_registry set_locks set_registry vfs_find_type]. rewrite vfs_string_equal_eq. simpl.
    case_bool_decide; [by rewrite decide_True by done|by rewrite decide_False by done].
Qed.
End registry.

(** ** Mounts *)

Section mounts.
Context {E F : Type} `{Kenv E} `{FsTable E F}.
Abbreviation W := (world E F).

(** [b] is the root of the file system mounted on [a]. *)
Definition mounts_to (w : W) (a b : Z) : Prop := exists va m fs,
  k_vnodes w !! a = Some va /\ vn_mounted va = Some m /\ k_vfss w !! m = Some fs /\ v_root fs = Some b.

(** No dangling pointers along the mounts. *)
Definition mounts_valid (w : W) : Prop :=
  (forall a va m, k_vnodes w !! a = Some va -> vn_mounted va = Some m -> is_Some (k_vfss w !! m)) /\
  (forall a b, mounts_to w a b -> is_Some (k_vnodes w !! b)).

Lemma follow_loop_step fuel (w : W) a b : mounts_to w a b ->
  follow_loop (S fuel) (Some a) w = follow_loop fuel (Some b) w.
Proof.
  intros (va & m & fs & Ha & Hm & Hf & Hr). cbn [follow_loop].
  unfold get_vnode, mbind, st_bind. rewrite Ha, Hm. unfold get_vfs. by rewrite Hf, Hr.
Qed.

Lemma follow_loop_stop fuel (w : W) a : mounts_valid w -> is_Some (k_vnodes w !! a) ->
  (forall b, ~ mounts_to w a b) -> follow_loop fuel (Some a) w = Ok (Some a, w).
Proof.
  intros [Hv _] [va Ha] Hn.
  assert (forall m fs, vn_mounted va = Some m -> k_vfss w !! m = Some fs -> v_root fs = None) as Hroot.
  { intros m fs Hm Hf. destruct (v_root fs) as [b|] eqn:Hr; [|done]. destruct (Hn b). by exists va, m, fs. }
  destruct fuel; cbn [follow_loop]; unfold get_vnode, mbind, st_bind; rewrite Ha;
    (destruct (vn_mounted va) as [m|] eqn:Hm; [|done]);
    destruct (Hv _ _ _ Ha Hm) as [fs Hf]; unfold get_vfs; by rewrite Hf, (Hroot m fs).
Qed.

Definition below (w : W) (rank : Z -> nat) (a : Z) : gset Z :=
  filter (fun b => (rank b < rank a)%nat) (dom (k_vnodes w)).

Lemma mounts_to_dec (w : W) a : {b | mounts_to w a b} + {forall b, ~ mounts_to w a b}.
Proof.
  destruct (k_vnodes w !! a) as [va|] eqn:Ha.
  2:{ right. intros b (va & m & fs & Hx & _). congruence. }
  destruct (vn_mounted va) as [m|] eqn:Hm.
  2:{ right. intros b (va' & m & fs & Hx & Hy & _). congruence. }
  destruct (k_vfss w !! m) as [fs|] eqn:Hf.
  2:{ right. intros b (va' & m' & fs & Hx & Hy & Hz & _). congruence. }
  destruct (v_root fs) as [b|] eqn:Hr.
  - left. exists b. by exists va, m, fs.
  - right. intros b (va' & m' & fs' & Hx & Hy & Hz & Hk). congruence.
Qed.

Lemma follow_loop_total rank (w : W) fuel a : mounts_valid w ->
  (forall a b, mounts_to w a b -> (rank b < rank a)%nat) -> is_Some (k_vnodes w !! a) ->
  (size (below w rank a) <= fuel)%nat ->
  exists b, follow_loop fuel (Some a) w = Ok (Some b, w) /\ rtc (mounts_to w) a b /\
    forall c, ~ mounts_to w b c.
Proof.
  intros Hv Hrank. revert a. induction fuel as [|fuel IH]; intros a Ha Hs.
  - destruct (mounts_to_dec w a) as [[b Hb]|Hn].
    + exfalso. assert (b ∈ below w rank a) as Hin.
      { apply elem_of_filter. split; [by apply Hrank|]. apply elem_of_dom. by eapply Hv. }
      assert (size (below w rank a) = 0%nat) as Hz by lia. apply size_empty_inv in Hz. set_solver.
    + exists a. split_and!; [by apply follow_loop_stop|done|done].
  - destruct (mounts_to_dec w a) as [[b Hb]|Hn].
    + rewrite (follow_loop_step _ _ _ _ Hb).
      pose proof (proj2 Hv _ _ Hb) as Hbd. destruct (IH b Hbd) as (c & Hc & Hr & Hn).
      { enough (size (below w rank b) < size (below w rank a))%nat by lia. apply subset_size.
        pose proof (Hrank _ _ Hb). split.
        - intros x [Hx1 Hx2]%elem_of_filter. apply elem_of_filter. split; [lia|done].
        - intros Hsub. assert (b ∈ below w rank b) as Hbb; [|apply elem_of_filter in Hbb; lia].
          apply Hsub, elem_of_filter. split; [done|]. by apply elem_of_dom. }
      exists c. split_and!; [done| |done]. by eapply rtc_l.
    + exists a. split_and!; [by apply follow_loop_stop|done|done].
Qed.

(** following mounts terminates when mounts do not form a cycle: if some
    rank decreases from every covered vnode to the root mounted on it and no
    pointer dangles, [vfs_follow_mounts] returns, without changing the state,
    the vnode at the end of the chain of mounts, which nothing is mounted on. *)
Theorem vfs_follow_mounts_total rank (w : W) a : mounts_valid w ->
  (forall a b, mounts_to w a b -> (rank b < rank a)%nat) -> is_Some (k_vnodes w !! a) ->
  exists b, vfs_follow_mounts (Some a) w = Ok (Some b, w) /\ rtc (mounts_to w) a b /\
    forall c, ~ mounts_to w b c.
Proof.
  intros Hv Hr Ha. apply (follow_loop_total rank); try done.
  rewrite <- size_dom. apply subseteq_size. unfold below. set_solver.
Qed.

Lemma upd_vfs_inv a f w r w' : upd_vfs (E := E) (F := F) a f w = Ok (r, w') ->
  exists v, k_vfss w !! a = Some v /\ w' = set_vfss (<[a := f v]> (k_vfss w)) w.
Proof. unfold upd_vfs. destruct (k_vfss w !! a) as [v|]; [|done]. intros. simplify_eq. eauto. Qed.

Lemma get_vfs_inv a w v w' : get_vfs (E := E) (F := F) a w = Ok (v, w') ->
  k_vfss w !! a = Some v /\ w' = w.
Proof. unfold get_vfs. destruct (k_vfss w !! a); [|done]. intros. by simplify_eq. Qed.

(** What a successful mount sets up: the file system given by the driver
    has a root; without a mount point that root is the global root; with one,
    given directly or found by path, the vnode is covered by the file system,
    each points to the other, and resolution through the mount point continues
    at the new root (the root itself not being covered). *)
Theorem vfs_mount_covers backing pathref path name (w w' : W) :
  vfs_mount backing pathref path name w = Ok (0, w') ->
  exists m fs root, k_vfss w' !! m = Some fs /\ v_root fs = Some root /\
    (path = None -> v_covered fs = pathref) /\
    match v_covered fs with
    | None => k_vfsroot w' = Some root
    | Some a => mounts_to w' a root /\
        (forall vr, k_vnodes w' !! root = Some vr -> vn_mounted vr = None ->
          vfs_follow_mounts (Some a) w' = Ok (Some root, w'))
    end.
Proof.
  unfold vfs_mount. destruct name as [name|]; [|intros Hr; by apply st_ret_inv in Hr as [? _]].
  intros Hr. step Hr. step Hr. step Hr. clear Ha Ha0 Ha1.
  destruct (a0 ≫= _) as [mount|]; [|by apply st_ret_inv in Hr as [? _]].
  step Hr. destruct a2 as [rc mp]. cbn [fst snd] in Hr.
  assert (path = None -> mp = pathref) as Hmp.
  { intros ->. apply st_ret_inv in Ha as [? _]. congruence. }
  destruct (Z.eqb_spec rc 0) as [->|]; cbn [negb] in Hr; [|apply st_ret_inv in Hr as [? _]; congruence].
  step Hr. destruct a2 as [rc [m|]]; cbn [fst snd] in Hr.
  2:{ destruct (Z.eqb_spec rc 0); cbn [negb] in Hr; apply st_ret_inv in Hr as [? _]; congruence. }
  destruct (Z.eqb_spec rc 0) as [->|]; cbn [negb] in Hr; [|apply st_ret_inv in Hr as [? _]; congruence].
  step Hr. step Hr. clear Ha1 Ha2.
  destruct (Z.eqb_spec a3 0) as [->|]; cbn [negb] in Hr; [|apply st_ret_inv in Hr as [? _]; congruence].
  step Hr. apply get_vfs_inv in Ha1 as [Hm ->].
  destruct (v_root a3) as [root|] eqn:Hroot; [|by apply st_ret_inv in Hr as [? _]].
  step Hr. apply upd_vfs_inv in Ha1 as (fs & Hfs & ->).
  assert (fs = a3) as -> by congruence.
  step Hr. apply st_ret_inv in Hr as [_ ->].
  exists m, (v_set_covered mp a3), root. destruct mp as [a'|]; cbn [v_covered v_set_covered].
  - apply upd_vnode_inv in Ha1 as (va & Hva & ->).
    cbn [k_vfss set_vnodes set_vfss k_vnodes] in *.
    assert (mounts_to (set_vnodes (<[a':=vn_set_mounted (Some m) va]> (k_vnodes w6))
      (set_vfss (<[m:=v_set_covered (Some a') a3]> (k_vfss w6)) w6)) a' root) as Hmt.
    { exists (vn_set_mounted (Some m) va), m, (v_set_covered (Some a') a3).
      cbn [k_vfss set_vnodes set_vfss k_vnodes]. by rewrite !lookup_insert_eq. }
    rewrite lookup_insert_eq. split_and!; try done. intros vr Hvr Hn.
    unfold vfs_follow_mounts. cbn [k_vnodes set_vnodes set_vfss] in *.
    destruct (size (<[a':=vn_set_mounted (Some m) va]> (k_vnodes w6))) as [|n] eqn:Hs.
    { apply map_size_empty_inv in Hs. by apply insert_non_empty in Hs. }
    rewrite (follow_loop_step _ _ _ _ Hmt).
    destruct n; cbn [follow_loop]; unfold get_vnode, mbind, st_bind;
      cbn [k_vnodes set_vnodes set_vfss]; by rewrite Hvr, Hn.
  - unfold modify in Ha1. simplify_eq/=. rewrite lookup_insert_eq. by split_and!.
Qed.
End mounts.

(** ** Components that start with a dot *)

Section dots.
Context {E F : Type} `{Kenv E} `{FsTable E F}.
Abbreviation W := (world E F).

Lemma walk_dot_last cs c cur lc (w w' : W) r : starts_with_dot c = true ->
  walk (cs ++ [c]) cur lc false w = Ok (r, w') -> r.1 <> 0.
Proof.
  intros Hc. revert cur w. induction cs as [|d cs IH]; intros cur w Hr; cbn [walk app andb] in Hr.
  - destruct (256 <=? _); [by apply st_ret_inv in Hr as [-> _]|]. rewrite Hc in Hr.
    by apply st_ret_inv in Hr as [-> _].
  - destruct (256 <=? _); [by apply st_ret_inv in Hr as [-> _]|].
    destruct (starts_with_dot d); [by eapply IH|].
    step Hr. destruct (vn_ops a ≫= _) as [f|]; [|by apply st_ret_inv in Hr as [-> _]].
    step Hr. destruct (Z.eqb_spec a0.1 0) as [E0|E0]; cbn [negb] in Hr.
    2:{ apply st_ret_inv in Hr as [-> _]. exact E0. }
    step Hr. destruct a1 as [nx|]; [|by apply st_ret_inv in Hr as [-> _]].
    destruct (cs ++ [c]) as [|x y] eqn:Hx; [by destruct cs|]. by eapply IH.
Qed.

(** Over every file system, a path whose last component starts with a dot
    is never resolved: such a component is taken for [.] (the comparison looks
    at the first byte only), and a final [.] ends in an error. A file named
    [.profile], or a path that ends in [/..] or [/.], cannot be looked up,
    opened or mounted on. *)
Theorem vfs_lookup_dot_last start path cs c lc flags (w w' : W) r :
  path_components path = cs ++ [c] -> starts_with_dot c = true ->
  has_bits flags VFS_LOOKUP_PARENT = false ->
  vfs_lookup true start (Some path) lc flags w = Ok (r, w') -> r.1 <> 0.
Proof.
  intros Hp Hc Hf Hr. rewrite vfs_lookup_walks in Hr. unfold resolve in Hr. rewrite Hp, Hf in Hr.
  step Hr. step Hr. destruct a0 as [cur|]; [|by apply st_ret_inv in Hr as [-> _]].
  destruct (cs ++ [c]) as [|x y] eqn:Hx; [by destruct cs|]. rewrite <- Hx in Hr. by eapply walk_dot_last.
Qed.
End dots.
