(* ===== verification/Tmpfs.v ===== *)
(** The in-memory file system, [kernel/src/fs/tmpfs.c]. A node embeds its vnode
    as its first field, so both have one address: the vnode part is in the
    store of the virtual file system, the rest here. [data] is the list of the
    [capacity] bytes of the buffer, empty for a null pointer. *)
From S2P Require Import Prelude Kenv Vfs.

Definition S_IFMT : Z := 0xF000.
Definition S_IFSOCK : Z := 0xC000.
Definition S_IFLNK : Z := 0xA000.
Definition S_IFREG : Z := 0x8000.
Definition S_IFBLK : Z := 0x6000.
Definition S_IFDIR : Z := 0x4000.
Definition S_IFCHR : Z := 0x2000.
Definition S_IFIFO : Z := 0x1000.
Definition ALLPERMS : Z := 0xFFF.
Definition DEFFILEMODE : Z := 0x1B6.
Definition is_type (t mode : Z) : bool := Z.land mode S_IFMT =? t.
Definition S_ISREG : Z -> bool := is_type S_IFREG.
Definition S_ISDIR : Z -> bool := is_type S_IFDIR.
Definition sizeof_dirent : Z := 280.
Definition sizeof_tmpfs_node : Z := 256.
Definition sizeof_tmpfs_vfs : Z := 72.

Record tnode := mk_tnode {
  n_parent : ptr; n_next_sibling : ptr; n_first_child : ptr; n_name : cstr;
  n_data : list Z; n_capacity : Z; n_size : Z; n_mode : Z; n_inode : Z;
  n_atime : timespec; n_mtime : timespec; n_ctime : timespec }.
Record tfs := mk_tfs { fs_root : ptr; fs_next_inode : Z; fs_node_count : Z; fs_byte_count : Z }.
Record tmpfs := mk_tmpfs { t_nodes : gmap Z tnode; t_fss : gmap Z tfs }.

Definition set_next (p : ptr) (n : tnode) : tnode := mk_tnode (n_parent n) p (n_first_child n) (n_name n)
  (n_data n) (n_capacity n) (n_size n) (n_mode n) (n_inode n) (n_atime n) (n_mtime n) (n_ctime n).
Definition set_first (p : ptr) (n : tnode) : tnode := mk_tnode (n_parent n) (n_next_sibling n) p (n_name n)
  (n_data n) (n_capacity n) (n_size n) (n_mode n) (n_inode n) (n_atime n) (n_mtime n) (n_ctime n).
Definition set_contents (d : list Z) (cap size : Z) (n : tnode) : tnode :=
  mk_tnode (n_parent n) (n_next_sibling n) (n_first_child n) (n_name n)
  d cap size (n_mode n) (n_inode n) (n_atime n) (n_mtime n) (n_ctime n).
Definition set_data (d : list Z) (n : tnode) : tnode := set_contents d (n_capacity n) (n_size n) n.
Definition set_size (s : Z) (n : tnode) : tnode := set_contents (n_data n) (n_capacity n) s n.
Definition set_times (a m c : timespec) (n : tnode) : tnode :=
  mk_tnode (n_parent n) (n_next_sibling n) (n_first_child n) (n_name n)
  (n_data n) (n_capacity n) (n_size n) (n_mode n) (n_inode n) a m c.
Definition touch (t : timespec) (n : tnode) : tnode := set_times (n_atime n) t t n.
Definition set_atime (t : timespec) (n : tnode) : tnode := set_times t (n_mtime n) (n_ctime n) n.

Definition tmpfs_vops_addr : Z := 1.
Definition tmpfs_vfsops_addr : Z := 2.

Definition tmpfs_open_flags_valid (flags : Z) : bool :=
  let m := Z.land flags O_ACCMODE in
  (m =? O_RDONLY) || (m =? O_WRONLY) || (m =? O_RDWR).

Definition tmpfs_name_equal (lhs rhs : cstr) : bool :=
  (Z.of_nat (length lhs) =? Z.of_nat (length rhs)) && bytes_equal lhs rhs (Z.of_nat (length lhs)).

Definition tmpfs_min_size (a b : Z) : Z := if a <? b then a else b.

Definition tmpfs_dirent_type (mode : Z) : Z :=
  if S_ISDIR mode then 4 else if S_ISREG mode then 8
  else if is_type S_IFCHR mode then 2 else if is_type S_IFBLK mode then 6
  else if is_type S_IFIFO mode then 1 else if is_type S_IFLNK mode then 10
  else if is_type S_IFSOCK mode then 12 else 0.

(** [memset] and [memcpy] into a buffer, at a byte offset. *)
Definition put_bytes (off : Z) (l d : list Z) : outcome (list Z) :=
  if (length l =? 0)%nat then Ok d
  else if (0 <=? off) && (off + Z.of_nat (length l) <=? Z.of_nat (length d))
  then Ok (take (Z.to_nat off) d ++ l ++ drop (Z.to_nat off + length l) d)
  else Fault.
(** The bytes read by a [memcpy] of [n] bytes at an offset. *)
Definition get_bytes (off n : Z) (d : list Z) : outcome (list Z) :=
  if n =? 0 then Ok []
  else if (0 <=? off) && (off + n <=? Z.of_nat (length d))
  then Ok (take (Z.to_nat n) (drop (Z.to_nat off) d))
  else Fault.
Definition zeros (n : Z) : list Z := replicate (Z.to_nat n) 0.

Definition tmpfs_fill_dirent (node : option tnode) (name : cstr) (next_offset : Z) : dirent :=
  mk_dirent (match node with Some n => n_inode n | None => 0 end) next_offset sizeof_dirent
    (tmpfs_dirent_type (match node with Some n => n_mode n | None => 0 end))
    (take (Z.to_nat NAME_MAX) name).

(** [while (new_capacity < size) new_capacity <<= 1;] *)
Fixpoint grow_loop (fuel : nat) (new_capacity size : Z) : outcome Z :=
  if negb (new_capacity <? size) then Ok new_capacity else
  match fuel with
  | O => Timeout
  | S fuel => grow_loop fuel (u64 (Z.shiftl new_capacity 1)) size
  end.

Section tmpfs.
Context {E : Type} `{Kenv E}.
Abbreviation W := (world E tmpfs).
Abbreviation M := (ST (world E tmpfs)).

Definition get_node (a : Z) : M tnode := fun w =>
  match t_nodes (k_fs w) !! a with Some n => Ok (n, w) | None => Fault end.
Definition put_node (a : Z) (n : tnode) : M unit :=
  modify (fun w => set_fs (mk_tmpfs (<[a := n]> (t_nodes (k_fs w))) (t_fss (k_fs w))) w).
Definition upd_node (a : Z) (f : tnode -> tnode) : M unit :=
  n ← get_node a; put_node a (f n).
Definition get_fs (a : Z) : M tfs := fun w =>
  match t_fss (k_fs w) !! a with Some n => Ok (n, w) | None => Fault end.
Definition put_fs (a : Z) (f : tfs) : M unit :=
  modify (fun w => set_fs (mk_tmpfs (t_nodes (k_fs w)) (<[a := f]> (t_fss (k_fs w)))) w).
Definition upd_fs (a : Z) (f : tfs -> tfs) : M unit :=
  n ← get_fs a; put_fs a (f n).
(** A pointer that the code dereferences. *)
Definition need (p : ptr) : M Z := st_lift (deref p).

Definition tmpfs_now : M timespec :=
  uptime ← uptime_us;
  mret (mk_ts (uptime / 1000000) ((uptime mod 1000000) * 1000)).

Definition tmpfs_strdup (src : cstr) : M (option cstr) :=
  b ← buffer (Z.of_nat (length src) + 1);
  mret (if b : bool then Some src else None).

Definition tmpfs_from_vnode (node : Z) : M ptr := v ← get_vnode node; mret (vn_private v).

(** The sibling list has no repetition: at most one step per node. *)
Definition node_fuel : M nat := gets (fun w => S (size (t_nodes (k_fs w)))).

Fixpoint find_child_loop (fuel : nat) (child : ptr) (name : cstr) : M ptr :=
  match child with
  | None => mret None
  | Some c =>
      n ← get_node c;
      if tmpfs_name_equal (n_name n) name then mret child else
      match fuel with
      | O => st_timeout
      | S fuel => find_child_loop fuel (n_next_sibling n) name
      end
  end.
Definition tmpfs_find_child (parent : Z) (name : cstr) : M ptr :=
  p ← get_node parent; fuel ← node_fuel; find_child_loop fuel (n_first_child p) name.

Fixpoint child_at_loop (fuel : nat) (child : ptr) (index : Z) : M ptr :=
  match child with
  | None => mret None
  | Some c =>
      if index =? 0 then mret child else
      n ← get_node c;
      match fuel with
      | O => st_timeout
      | S fuel => child_at_loop fuel (n_next_sibling n) (index - 1)
      end
  end.
Definition tmpfs_child_at (parent : Z) (index : Z) : M ptr :=
  p ← get_node parent; fuel ← node_fuel; child_at_loop fuel (n_first_child p) index.

Definition account (fs : Z) (delta : Z) : M unit :=
  upd_fs fs (fun f => mk_tfs (fs_root f) (fs_next_inode f) (fs_node_count f) (u64 (fs_byte_count f + delta))).

Definition tmpfs_resize_node (fs node size : Z) : M Z :=
  n ← get_node node;
  if size <=? n_capacity n then
    d ← st_lift (if n_size n <? size then put_bytes (n_size n) (zeros (size - n_size n)) (n_data n)
                 else Ok (n_data n));
    account fs (size - n_size n) ;;
    upd_node node (fun n => set_size size (set_data d n)) ;;
    mret 0
  else
    new_capacity ← st_lift (grow_loop 64 (if n_capacity n =? 0 then 64 else n_capacity n) size);
    ok ← buffer new_capacity;
    if negb ok then mret (-1) else
    fresh ← gets (fun w => env_fresh (k_env w));
    let new_data := n_data n ++ (fresh <$> seqZ (n_capacity n) (new_capacity - n_capacity n)) in
    new_data ← st_lift (if n_capacity n <? new_capacity
                        then put_bytes (n_capacity n) (zeros (new_capacity - n_capacity n)) new_data
                        else Ok new_data);
    new_data ← st_lift (if n_size n <? size
                        then put_bytes (n_size n) (zeros (size - n_size n)) new_data
                        else Ok new_data);
    account fs (size - n_size n) ;;
    upd_node node (set_contents new_data new_capacity size) ;;
    mret 0.

Definition tmpfs_alloc_node (fs : Z) (parent : ptr) (name : cstr) (type mode : Z) : M ptr :=
  node ← alloc sizeof_tmpfs_node;
  match node with
  | None => mret None
  | Some a =>
      dup ← tmpfs_strdup name;
      match dup with
      | None => release a ;; mret None
      | Some name =>
          modify (fun w => set_vnodes (<[a := vn_set_private (Some a)
            (vnode_init (Some tmpfs_vops_addr) 0 (Z.land type S_IFMT) (Some fs))]> (k_vnodes w)) w) ;;
          f ← get_fs fs;
          put_fs fs (mk_tfs (fs_root f) (u64 (fs_next_inode f + 1)) (fs_node_count f) (fs_byte_count f)) ;;
          now ← tmpfs_now;
          put_node a (mk_tnode parent None None name [] 0 0
            (Z.lor (Z.ldiff mode S_IFMT) (Z.land type S_IFMT)) (fs_next_inode f) now now now) ;;
          upd_fs fs (fun f => mk_tfs (fs_root f) (fs_next_inode f) (u64 (fs_node_count f + 1)) (fs_byte_count f)) ;;
          mret (Some a)
      end
  end.

Definition tmpfs_link_child (parent child : Z) : M unit :=
  p ← get_node parent;
  upd_node child (set_next (n_first_child p)) ;;
  upd_node parent (set_first (Some child)) ;;
  now ← tmpfs_now;
  upd_node parent (touch now).

(** [kfree] of the file system object: both of its parts are gone. *)
Definition free_fs (a : Z) : M unit :=
  modify (fun w => set_vfss (delete a (k_vfss w))
    (set_fs (mk_tmpfs (t_nodes (k_fs w)) (delete a (t_fss (k_fs w)))) w)) ;;
  release a.

(** [data] is not used. *)
Definition tmpfs_mount (mountpoint backing : ptr) : M (Z * ptr) :=
  fs ← alloc sizeof_tmpfs_vfs;
  match fs with
  | None => mret (-1, None)
  | Some a =>
      modify (fun w => set_vfss (<[a := vfs_struct_init (Some tmpfs_vfsops_addr) 0]> (k_vfss w)) w) ;;
      put_fs a (mk_tfs None 1 0 0) ;;
      root ← tmpfs_alloc_node a None [] S_IFDIR 0x1ED;
      match root with
      | None => free_fs a ;; mret (-1, None)
      | Some r =>
          upd_fs a (fun f => mk_tfs (Some r) (fs_next_inode f) (fs_node_count f) (fs_byte_count f)) ;;
          upd_vfs a (v_set_root (Some r)) ;;
          mret (0, Some a)
      end
  end.

Definition tmpfs_unmount (vfs : Z) : M Z := mret (-1).
Definition tmpfs_sync_fs (vfs : Z) : M Z := mret 0.

Definition tmpfs_root (vfs : Z) : M (Z * ptr) :=
  f ← get_fs vfs;
  vnode_hold (fs_root f) ;;
  mret (0, fs_root f).

Definition tmpfs_statfs (vfs : Z) : M (Z * option fsattr) :=
  f ← get_fs vfs;
  mret (0, Some (mk_fsattr 4096 4096 (u64 (fs_byte_count f + 4095) / 4096) (fs_node_count f) 255)).

Definition tmpfs_open (node flags : Z) : M (Z * ptr) :=
  if negb (tmpfs_open_flags_valid flags) then mret (-1, Some node) else
  v ← get_vnode node;
  if has_bits flags O_DIRECTORY && negb (S_ISDIR (vn_type v)) then mret (-1, Some node) else
  if S_ISDIR (vn_type v) && negb (Z.land flags O_ACCMODE =? O_RDONLY) then mret (-1, Some node) else
  (if has_bits flags O_TRUNC && S_ISREG (vn_type v) && negb (Z.land flags O_ACCMODE =? O_RDONLY) then
     t ← need (vn_private v);
     fs ← need (vn_vfs v);
     mutex_lock (LSize node) ;;
     n ← get_node t;
     account fs (- n_size n) ;;
     upd_node t (set_size 0) ;;
     now ← tmpfs_now;
     upd_node t (touch now) ;;
     mutex_unlock (LSize node)
   else mret tt) ;;
  mret (0, Some node).

Definition tmpfs_close (node flags : Z) : M Z := mret 0.

Definition tmpfs_read (node : Z) (buf : option (list Z)) (size offset flags : Z) :
    M (Z * (option (list Z) * option Z)) :=
  match buf with
  | None => mret (-1, (None, None))
  | Some b =>
      t ← tmpfs_from_vnode node;
      v ← get_vnode node;
      match t with
      | None => mret (-1, (buf, None))
      | Some t =>
          if negb (S_ISREG (vn_type v)) then mret (-1, (buf, None)) else
          mutex_lock (LSize node) ;;
          n ← get_node t;
          r ← (if n_size n <=? offset then mret (0, b) else
                 let available := n_size n - offset in
                 let count := tmpfs_min_size size available in
                 l ← st_lift (get_bytes offset count (n_data n));
                 b' ← st_lift (put_bytes 0 l b);
                 mret (count, b'));
          now ← tmpfs_now;
          upd_node t (set_atime now) ;;
          mutex_unlock (LSize node) ;;
          mret (0, (Some r.2, Some r.1))
      end
  end.

Definition tmpfs_write (node : Z) (buf : option (list Z)) (size offset flags : Z) : M (Z * option Z) :=
  if (match buf with None => negb (size =? 0) | Some _ => false end) then mret (-1, None) else
  t ← tmpfs_from_vnode node;
  v ← get_vnode node;
  match t with
  | None => mret (-1, None)
  | Some t =>
      if negb (S_ISREG (vn_type v)) then mret (-1, None) else
      fs ← need (vn_vfs v);
      offset ← (if has_bits flags O_APPEND then n ← get_node t; mret (n_size n) else mret offset);
      let end_ := u64 (offset + size) in
      mutex_lock (LSize node) ;;
      rc ← tmpfs_resize_node fs t end_;
      (if (rc =? 0) && negb (size =? 0) then
         l ← st_lift (get_bytes 0 size (default [] buf));
         n ← get_node t;
         d ← st_lift (put_bytes offset l (n_data n));
         upd_node t (set_data d)
       else mret tt) ;;
      (if rc =? 0 then now ← tmpfs_now; upd_node t (touch now) else mret tt) ;;
      mutex_unlock (LSize node) ;;
      if negb (rc =? 0) then mret (rc, None) else mret (0, Some size)
  end.

Definition tmpfs_lookup (node : Z) (name : cstr) : M (Z * ptr) :=
  let found (child : ptr) : M (Z * ptr) :=
    match child with None => mret (-1, None) | Some c => mret (0, Some c) end in
  parent ← tmpfs_from_vnode node;
  if tmpfs_name_equal name [dot] then found parent
  else if tmpfs_name_equal name [dot; dot] then
    match parent with
    | None => found None
    | Some p => n ← get_node p; found (match n_parent n with Some q => Some q | None => parent end)
    end
  else
    v ← get_vnode node;
    match parent with
    | None => mret (-1, None)
    | Some p =>
        if negb (S_ISDIR (vn_type v)) then mret (-1, None) else
        mutex_lock (LNode node) ;;
        child ← tmpfs_find_child p name;
        mutex_unlock (LNode node) ;;
        found child
    end.

Definition tmpfs_create (parent_vnode : Z) (name : cstr) (attr : option vattr) (type : Z) : M (Z * ptr) :=
  match name with
  | [] => mret (-1, None)
  | _ =>
      let type := Z.land type S_IFMT in
      if negb (type =? S_IFREG) && negb (type =? S_IFDIR) then mret (-1, None) else
      parent ← tmpfs_from_vnode parent_vnode;
      v ← get_vnode parent_vnode;
      match parent with
      | None => mret (-1, None)
      | Some p =>
          if negb (S_ISDIR (vn_type v)) then mret (-1, None) else
          let mode := match attr with Some a => Z.land (va_mode a) ALLPERMS | None => DEFFILEMODE end in
          let mode := match attr with
                      | None => if type =? S_IFDIR then 0x1FF else mode
                      | Some _ => mode
                      end in
          if NAME_MAX <? Z.of_nat (length name) then mret (-1, None) else
          mutex_lock (LNode parent_vnode) ;;
          found ← tmpfs_find_child p name;
          match found with
          | Some _ => mutex_unlock (LNode parent_vnode) ;; mret (-1, None)
          | None =>
              fs ← need (vn_vfs v);
              child ← tmpfs_alloc_node fs parent name type mode;
              match child with
              | None => mutex_unlock (LNode parent_vnode) ;; mret (-1, None)
              | Some c =>
                  tmpfs_link_child p c ;;
                  mutex_unlock (LNode parent_vnode) ;;
                  mret (0, Some c)
              end
          end
      end
  end.

(** The entry at an index, [None] at the end of the directory. *)
Definition dirent_at (dir : Z) (index : Z) : M (option dirent) :=
  d ← get_node dir;
  if index =? 0 then mret (Some (tmpfs_fill_dirent (Some d) [dot] (index + 1)))
  else if index =? 1 then
    p ← get_node (default dir (n_parent d));
    mret (Some (tmpfs_fill_dirent (Some p) [dot; dot] (index + 1)))
  else
    child ← tmpfs_child_at dir (index - 2);
    match child with
    | None => mret None
    | Some c => n ← get_node c; mret (Some (tmpfs_fill_dirent (Some n) (n_name n) (index + 1)))
    end.

(** The entries from an index on, at most [fuel]. *)
Fixpoint getdents_loop (fuel : nat) (dir : Z) (index : Z) : M (list dirent) :=
  match fuel with
  | O => mret []
  | S fuel =>
      e ← dirent_at dir index;
      match e with
      | None => mret []
      | Some e => rest ← getdents_loop fuel dir (u64 (index + 1)); mret (e :: rest)
      end
  end.

(** [buf] says whether there is a buffer; the entries are those stored. *)
Definition tmpfs_getdents (node : Z) (buf : bool) (size offset : Z) : M (Z * (list dirent * option Z)) :=
  if negb buf then mret (-1, ([], None)) else
  dir ← tmpfs_from_vnode node;
  v ← get_vnode node;
  match dir with
  | None => mret (-1, ([], None))
  | Some d =>
      if negb (S_ISDIR (vn_type v)) then mret (-1, ([], None)) else
      let capacity := size / sizeof_dirent in
      if capacity =? 0 then mret (0, ([], Some 0)) else
      mutex_lock (LNode node) ;;
      l ← getdents_loop (Z.to_nat capacity) d offset;
      mutex_unlock (LNode node) ;;
      mret (0, (l, Some (Z.of_nat (length l) * sizeof_dirent)))
  end.

Definition tmpfs_inactive (node : Z) : M unit := mret tt.
Definition tmpfs_sync_node (node : Z) : M Z := mret 0.

Definition tmpfs_vops : vops (world E tmpfs) := mk_vops (Some tmpfs_open) (Some tmpfs_close)
  (Some tmpfs_read) (Some tmpfs_write) (Some tmpfs_lookup) (Some tmpfs_create)
  (Some tmpfs_getdents) (Some tmpfs_inactive) (Some tmpfs_sync_node).
End tmpfs.

Section tables.
Context {E : Type} `{Kenv E}.

Definition tmpfs_vfsops : vfsops (world E tmpfs) := mk_vfsops (Some tmpfs_mount) (Some tmpfs_unmount)
  (Some tmpfs_sync_fs) (Some tmpfs_root) (Some tmpfs_statfs).
Definition no_vops : vops (world E tmpfs) := mk_vops None None None None None None None None None.
Definition no_vfsops : vfsops (world E tmpfs) := mk_vfsops None None None None None.

#[export] Instance tmpfs_table : FsTable E tmpfs := {|
  vops_of := fun o => if o =? tmpfs_vops_addr then tmpfs_vops else no_vops;
  vfsops_of := fun o => if o =? tmpfs_vfsops_addr then tmpfs_vfsops else no_vfsops |}.

(** The bytes of the name are ["tmpfs"]. *)
Definition tmpfs_name : cstr := [116; 109; 112; 102; 115].
Definition tmpfs_init : ST (world E tmpfs) Z :=
  vfs_register (Some tmpfs_vfsops_addr) (Some tmpfs_name).
End tables.

(** ** Files: the bytes of a node *)

(** What a reader sees. *)
Definition contents (n : tnode) : list Z := take (Z.to_nat (n_size n)) (n_data n).

Definition data_ok (n : tnode) : Prop :=
  0 <= n_size n <= n_capacity n /\ n_capacity n < 2 ^ 64 /\ Z.of_nat (length (n_data n)) = n_capacity n.

(** A byte list cut or filled with zeros to a length. *)
Definition resized (size : Z) (l : list Z) : list Z :=
  take (Z.to_nat size) l ++ zeros (size - Z.of_nat (length l)).

Lemma contents_length n : data_ok n -> Z.of_nat (length (contents n)) = n_size n.
Proof. intros (? & ? & ?). unfold contents. rewrite length_take. lia. Qed.

Lemma put_bytes_ok off l d : 0 <= off -> off + Z.of_nat (length l) <= Z.of_nat (length d) ->
  put_bytes off l d = Ok (take (Z.to_nat off) d ++ l ++ drop (Z.to_nat off + length l) d).
Proof.
  intros H1 H2. unfold put_bytes. destruct (Nat.eqb_spec (length l) 0) as [E1|E1].
  - apply nil_length_inv in E1 as ->. simpl. rewrite Nat.add_0_r. by rewrite take_drop.
  - rewrite (proj2 (Z.leb_le 0 off)) by lia. by rewrite (proj2 (Z.leb_le _ _)) by lia.
Qed.

Lemma put_bytes_length off l d d' : put_bytes off l d = Ok d' -> length d' = length d.
Proof.
  unfold put_bytes. destruct (Nat.eqb_spec (length l) 0); [by intros; simplify_eq|].
  destruct (Z.leb_spec 0 off); [|done]. destruct (Z.leb_spec (off + Z.of_nat (length l)) (Z.of_nat (length d))); [|done].
  simpl. intros ?. simplify_eq. rewrite !length_app, length_take, length_drop. lia.
Qed.

Lemma get_bytes_ok off n d : 0 <= off -> 0 <= n -> off + n <= Z.of_nat (length d) ->
  get_bytes off n d = Ok (take (Z.to_nat n) (drop (Z.to_nat off) d)).
Proof.
  intros H1 H2 H3. unfold get_bytes. destruct (Z.eqb_spec n 0) as [->|]; [done|].
  rewrite (proj2 (Z.leb_le 0 off)) by lia. by rewrite (proj2 (Z.leb_le _ _)) by lia.
Qed.

Lemma zeros_length n : length (zeros n) = Z.to_nat n.
Proof. apply length_replicate. Qed.

(** Clearing the bytes between the old and the new size. *)
Lemma clear_tail (size cap : Z) (old d : list Z) (osize : Z) :
  0 <= osize -> 0 <= size <= cap -> Z.of_nat (length d) = cap -> osize <= Z.of_nat (length old) <= cap ->
  take (length old) d = old ->
  exists d', (if osize <? size then put_bytes osize (zeros (size - osize)) d else Ok d) = Ok d' /\
    Z.of_nat (length d') = cap /\
    take (Z.to_nat size) d' = resized size (take (Z.to_nat osize) old).
Proof.
  intros Ho Hs Hd Hl Hold. destruct (Z.ltb_spec osize size) as [Hlt|Hge].
  - rewrite put_bytes_ok by (rewrite ?zeros_length; lia). eexists. split; [done|]. split.
    + rewrite !length_app, length_take, length_drop, zeros_length. lia.
    + rewrite app_assoc. unfold resized.
      rewrite (take_ge (take _ old)) by (rewrite length_take; lia).
      rewrite length_take. replace (Z.of_nat (Z.to_nat osize `min` length old)) with osize by lia.
      assert (take (Z.to_nat osize) d = take (Z.to_nat osize) old) as ->.
      { rewrite <- Hold, take_take. f_equal. lia. }
      apply take_app_length'. rewrite length_app, length_take, zeros_length. lia.
  - exists d. split; [done|]. split; [done|]. unfold resized.
    rewrite length_take. rewrite take_take.
    replace (Z.to_nat (size - Z.of_nat (Z.to_nat osize `min` length old))) with 0%nat by lia.
    unfold zeros. replace (Z.to_nat (size - _)) with 0%nat by lia. simpl. rewrite app_nil_r.
    rewrite <- Hold, take_take. f_equal. lia.
Qed.

Lemma grow_loop_ok fuel c size : 0 < c < 2 ^ 64 -> size <= 2 ^ 63 -> size <= c * 2 ^ Z.of_nat fuel ->
  exists c', grow_loop fuel c size = Ok c' /\ size <= c' /\ c <= c' < 2 ^ 64.
Proof.
  revert c. induction fuel as [|fuel IH]; intros c Hc Hs Hf; simpl; destruct (Z.ltb_spec c size) as [Hlt|Hge]; simpl.
  - simpl in Hf. lia.
  - exists c. split; [done|lia].
  - assert (u64 (Z.shiftl c 1) = 2 * c) as ->.
    { rewrite Z.shiftl_mul_pow2 by lia. change (2 ^ 1) with 2. rewrite u64_small; lia. }
    destruct (IH (2 * c)) as (c' & Hc' & ? & ?); [lia|done| |].
    { replace (Z.of_nat (S fuel)) with (1 + Z.of_nat fuel) in Hf by lia.
      rewrite Z.pow_add_r in Hf by lia. lia. }
    exists c'. split; [done|lia].
  - exists c. split; [done|lia].
Qed.

(** Past 2^63 the capacity doubles to 0 and the loop never ends. *)
Lemma grow_loop_zero fuel size : 0 < size -> grow_loop fuel 0 size = Timeout.
Proof.
  intros Hs. induction fuel as [|fuel IH]; simpl; rewrite (proj2 (Z.ltb_lt 0 size)) by lia; simpl; [done|].
  exact IH.
Qed.

Lemma grow_loop_diverges fuel k size : (k <= 63)%nat -> 2 ^ 63 < size ->
  grow_loop fuel (2 ^ Z.of_nat k) size = Timeout.
Proof.
  revert k. induction fuel as [|fuel IH]; intros k Hk Hs; simpl.
  - assert (2 ^ Z.of_nat k <= 2 ^ 63) by (apply Z.pow_le_mono_r; lia).
    by rewrite (proj2 (Z.ltb_lt _ _)) by lia.
  - assert (2 ^ Z.of_nat k <= 2 ^ 63) by (apply Z.pow_le_mono_r; lia).
    rewrite (proj2 (Z.ltb_lt _ _)) by lia. simpl.
    rewrite Z.shiftl_mul_pow2 by lia. rewrite <- Z.pow_add_r by lia.
    destruct (decide (k = 63%nat)) as [->|].
    + change (u64 (2 ^ (Z.of_nat 63 + 1))) with 0. by apply grow_loop_zero; lia.
    + replace (Z.of_nat k + 1) with (Z.of_nat (S k)) by lia. rewrite u64_small; [apply IH; lia|].
      split; [apply Z.pow_nonneg; lia|]. apply Z.pow_lt_mono_r; lia.
Qed.

Lemma take_resized off size l : 0 <= off <= size -> take (Z.to_nat off) (resized size l) = resized off l.
Proof.
  intros Hs. unfold resized. destruct (Z.le_gt_cases size (Z.of_nat (length l))) as [Hc|Hc].
  - unfold zeros. replace (Z.to_nat (size - _)) with 0%nat by lia.
    replace (Z.to_nat (off - _)) with 0%nat by lia. simpl. rewrite !app_nil_r, take_take. f_equal. lia.
  - rewrite (take_ge l (Z.to_nat size)) by lia. rewrite take_app. f_equal. unfold zeros.
    rewrite take_replicate. f_equal. lia.
Qed.

Lemma resized_length size l : 0 <= size -> Z.of_nat (length (resized size l)) = size.
Proof. intros Hs. unfold resized. rewrite length_app, length_take, zeros_length. lia. Qed.

Section files.
Context {E : Type} `{Kenv E}.
Abbreviation W := (world E tmpfs).

(** The world with other nodes and file system records, and another heap. *)
Definition with_files (nodes : gmap Z tnode) (fss : gmap Z tfs) (e : E) (w : W) : W :=
  set_fs (mk_tmpfs nodes fss) (set_env e w).

Lemma get_node_ok a n (w : W) : t_nodes (k_fs w) !! a = Some n -> get_node a w = Ok (n, w).
Proof. unfold get_node. by intros ->. Qed.

Lemma upd_node_ok a n g (w : W) : t_nodes (k_fs w) !! a = Some n ->
  upd_node a g w = Ok (tt, set_fs (mk_tmpfs (<[a := g n]> (t_nodes (k_fs w))) (t_fss (k_fs w))) w).
Proof. intros Hn. unfold upd_node. by rewrite (st_bind_ok _ _ _ _ _ (get_node_ok _ _ _ Hn)). Qed.

Lemma upd_fs_ok a f g (w : W) : t_fss (k_fs w) !! a = Some f ->
  upd_fs a g w = Ok (tt, set_fs (mk_tmpfs (t_nodes (k_fs w)) (<[a := g f]> (t_fss (k_fs w)))) w).
Proof. intros Hn. unfold upd_fs, get_fs, mbind, st_bind. by rewrite Hn. Qed.

Definition counted (delta : Z) (f : tfs) : tfs :=
  mk_tfs (fs_root f) (fs_next_inode f) (fs_node_count f) (u64 (fs_byte_count f + delta)).

Lemma account_upd_ok {A} fs node f n g delta (w : W) (k : ST W A) :
  t_nodes (k_fs w) !! node = Some n -> t_fss (k_fs w) !! fs = Some f ->
  (account fs delta ;; upd_node node g ;; k) w =
  k (with_files (<[node := g n]> (t_nodes (k_fs w))) (<[fs := counted delta f]> (t_fss (k_fs w))) (k_env w) w).
Proof.
  intros Hn Hf. unfold account. rewrite (st_bind_ok _ _ _ _ _ (upd_fs_ok _ _ _ _ Hf)).
  set (w1 := set_fs _ w). assert (t_nodes (k_fs w1) !! node = Some n) as Hn1 by done.
  by rewrite (st_bind_ok _ _ _ _ _ (upd_node_ok _ n _ w1 Hn1)).
Qed.

Lemma tmpfs_now_ok (w : W) : exists t e, tmpfs_now w = Ok (t, set_env e w) /\
  env_uptime (k_env w) = (ts_s t * 1000000 + ts_ns t / 1000, e).
Proof.
  unfold tmpfs_now, uptime_us, mbind, st_bind. destruct (env_uptime (k_env w)) as [u e].
  eexists _, e. split; [done|]. simpl. f_equal. rewrite Z.div_mul by lia.
  pose proof (Z.div_mod u 1000000). lia.
Qed.

(** Resizing gives a file of the size asked, or fails without a change when the
    buffer cannot grow. *)
Lemma resize_grown fs node size n f (w : W) :
  t_nodes (k_fs w) !! node = Some n -> t_fss (k_fs w) !! fs = Some f -> data_ok n -> 0 <= size ->
  (size <= n_capacity n \/
   exists c, grow_loop 64 (if n_capacity n =? 0 then 64 else n_capacity n) size = Ok c /\ 
     size <= c < 2 ^ 64 /\ n_capacity n <= c) ->
  exists e, (e = k_env w \/ exists c b, env_buffer c (k_env w) = (b, e)) /\
    ((exists d cap, data_ok (set_contents d cap size n) /\
      take (Z.to_nat size) d = resized size (contents n) /\
      tmpfs_resize_node fs node size w = Ok (0, with_files
        (<[node := set_contents d cap size n]> (t_nodes (k_fs w)))
        (<[fs := counted (size - n_size n) f]> (t_fss (k_fs w))) e w)) \/
    (n_capacity n < size /\ (exists c, env_buffer c (k_env w) = (false, e)) /\
     tmpfs_resize_node fs node size w = Ok (-1, set_env e w))).
Proof.
  intros Hn Hf (Hs & Hc & Hl) Hsize Hgrow. unfold tmpfs_resize_node.
  rewrite (st_bind_ok _ _ _ _ _ (get_node_ok _ _ _ Hn)).
  destruct (Z.leb_spec size (n_capacity n)) as [Hle|Hgt].
  - exists (k_env w). split; [by left|]. left.
    destruct (clear_tail size (n_capacity n) (n_data n) (n_data n) (n_size n)) as (d & Hd & Hdl & Hdt);
      [lia|lia|done|lia|by rewrite firstn_all|].
    exists d, (n_capacity n). split; [by repeat split; simpl; lia|]. split; [done|].
    rewrite (lift_bind _ _ _ _ Hd).
    by rewrite (account_upd_ok _ _ f n).
  - destruct Hgrow as [?|(c & Hgl & Hc1 & Hc2)]; [lia|].
    rewrite (lift_bind _ _ _ _ Hgl).
    destruct (env_buffer c (k_env w)) as [b e] eqn:Hb. rewrite (buffer_bind _ _ _ _ _ Hb).
    exists e. split; [right; by eauto|]. destruct b; [left|right; split_and!; [lia|by eauto|done]].
    cbn [negb]. set (fresh := env_fresh e <$> seqZ (n_capacity n) (c - n_capacity n)).
    assert (length fresh = Z.to_nat (c - n_capacity n)) as Hfl by (unfold fresh; by rewrite length_fmap, length_seqZ).
    assert (n_capacity n < c) as Hlt by lia.
    assert (put_bytes (n_capacity n) (zeros (c - n_capacity n)) (n_data n ++ fresh) =
      Ok (n_data n ++ zeros (c - n_capacity n))) as Hput.
    { rewrite put_bytes_ok by (rewrite ?length_app, ?zeros_length; lia). f_equal.
      rewrite take_app_length' by lia. f_equal. rewrite drop_ge; [by rewrite app_nil_r|].
      rewrite length_app, zeros_length. lia. }
    destruct (clear_tail size c (n_data n) (n_data n ++ zeros (c - n_capacity n)) (n_size n))
      as (d & Hd & Hdl & Hdt); [lia|lia|rewrite length_app, zeros_length; lia|lia|by rewrite take_app_length|].
    exists d, c. split; [by repeat split; simpl; lia|]. split; [done|].
    rewrite gets_bind. cbn [k_env set_env]. fold fresh.
    rewrite (proj2 (Z.ltb_lt _ _) Hlt), (lift_bind _ _ _ _ Hput).
    rewrite (lift_bind _ _ _ _ Hd).
    by rewrite (account_upd_ok _ _ f n).
Qed.

Lemma resize_ok fs node size n f (w : W) :
  t_nodes (k_fs w) !! node = Some n -> t_fss (k_fs w) !! fs = Some f -> data_ok n -> 0 <= size <= 2 ^ 63 ->
  exists e,
    (exists d cap, data_ok (set_contents d cap size n) /\
      take (Z.to_nat size) d = resized size (contents n) /\
      tmpfs_resize_node fs node size w = Ok (0, with_files
        (<[node := set_contents d cap size n]> (t_nodes (k_fs w)))
        (<[fs := counted (size - n_size n) f]> (t_fss (k_fs w))) e w)) \/
    (n_capacity n < size /\ (exists c, env_buffer c (k_env w) = (false, e)) /\
     tmpfs_resize_node fs node size w = Ok (-1, set_env e w)).
Proof.
  intros Hn Hf Hok Hsize.
  destruct (resize_grown fs node size n f w Hn Hf Hok) as (e & _ & He); [lia| |by exists e].
  right. destruct Hok as (? & ? & ?).
  destruct (grow_loop_ok 64 (if n_capacity n =? 0 then 64 else n_capacity n) size) as (c & Hgl & Hc1 & Hc2).
  - destruct (Z.eqb_spec (n_capacity n) 0); lia.
  - lia.
  - change (2 ^ Z.of_nat 64) with (2 * 2 ^ 63). destruct (Z.eqb_spec (n_capacity n) 0); lia.
  - exists c. split; [done|]. destruct (Z.eqb_spec (n_capacity n) 0); lia.
Qed.

(** A regular file: its vnode [a], its node [t] and its file system [fs]. *)
Definition is_file (w : W) (a t fs : Z) (n : tnode) (f : tfs) : Prop :=
  (exists v, k_vnodes w !! a = Some v /\ vn_private v = Some t /\ vn_vfs v = Some fs /\
     S_ISREG (vn_type v) = true) /\
  t_nodes (k_fs w) !! t = Some n /\ t_fss (k_fs w) !! fs = Some f /\ data_ok n /\
  LSize a ∉ k_locks w.

(** Everything but the bytes, the size and the times. *)
Definition same_meta (n n' : tnode) : Prop :=
  n_parent n' = n_parent n /\ n_next_sibling n' = n_next_sibling n /\
  n_first_child n' = n_first_child n /\ n_name n' = n_name n /\
  n_mode n' = n_mode n /\ n_inode n' = n_inode n.

Lemma put_resized (off size : Z) (b l d : list Z) :
  0 <= off -> 0 <= size <= Z.of_nat (length b) -> off + size <= Z.of_nat (length d) ->
  take (Z.to_nat (off + size)) d = resized (off + size) l ->
  exists d', put_bytes off (take (Z.to_nat size) b) d = Ok d' /\ length d' = length d /\
    take (Z.to_nat (off + size)) d' = resized off l ++ take (Z.to_nat size) b.
Proof.
  intros Ho Hs Hd Ht.
  assert (length (take (Z.to_nat size) b) = Z.to_nat size) as Hl by (rewrite length_take; lia).
  assert (take (Z.to_nat off) d = resized off l) as Hpre.
  { rewrite <- (take_resized off (off + size)) by lia. rewrite <- Ht, take_take. f_equal. lia. }
  eexists. rewrite put_bytes_ok by lia. split; [done|]. split.
  - rewrite !length_app, Hl, length_take, length_drop. lia.
  - rewrite Hpre, app_assoc. apply take_app_length'. rewrite length_app, Hl.
    pose proof (resized_length off l Ho). lia.
Qed.

Lemma tmpfs_now_bind {A} (k : timespec -> ST W A) (w : W) :
  exists t e, (tmpfs_now ≫= k) w = k t (set_env e w).
Proof.
  destruct (tmpfs_now_ok w) as (t & e & Ht & _). exists t, e. by rewrite (st_bind_ok _ _ _ _ _ Ht).
Qed.

Lemma upd_node_bind {A} a n g (w : W) (k : ST W A) : t_nodes (k_fs w) !! a = Some n ->
  (upd_node a g ;; k) w = k (set_fs (mk_tmpfs (<[a := g n]> (t_nodes (k_fs w))) (t_fss (k_fs w))) w).
Proof. intros Hn. by rewrite (st_bind_ok _ _ _ _ _ (upd_node_ok _ n _ _ Hn)). Qed.

Lemma unlock_bind {A} l ls (w : W) (k : ST W A) : k_locks w = l :: ls -> l ∉ ls ->
  (mutex_unlock l ;; k) w = k (set_locks ls w).
Proof. intros He Hl. by rewrite (st_bind_ok _ _ _ _ _ (mutex_unlock_ok _ _ _ He Hl)). Qed.

Lemma lock_bind {A} l (w : W) (k : ST W A) : l ∉ k_locks w ->
  (mutex_lock l ;; k) w = k (set_locks (l :: k_locks w) w).
Proof. intros Hl. by rewrite (st_bind_ok _ _ _ _ _ (mutex_lock_ok _ _ Hl)). Qed.

Lemma need_bind {A} a (w : W) (k : Z -> ST W A) : (need (Some a) ≫= k) w = k a w.
Proof. done. Qed.

Lemma get_vnode_bind {A} a v (w : W) (k : vnode -> ST W A) : k_vnodes w !! a = Some v ->
  (get_vnode a ≫= k) w = k v w.
Proof. intros Hv. unfold get_vnode, mbind, st_bind. by rewrite Hv. Qed.

Lemma from_vnode_bind {A} a v (w : W) (k : ptr -> ST W A) : k_vnodes w !! a = Some v ->
  (tmpfs_from_vnode a ≫= k) w = k (vn_private v) w.
Proof. intros Hv. unfold tmpfs_from_vnode. by rewrite bind_assoc, (get_vnode_bind _ _ _ _ Hv). Qed.

Definition write_at (n : tnode) (offset flags : Z) : Z :=
  if has_bits flags O_APPEND then n_size n else offset.

(** Writing a regular file, up to offset 2^63: the write either gives 0 and
    the size written, the file is then its old bytes up to the offset, zeros to
    fill a hole, and the new bytes, the byte count of the file system follows
    the size and nothing else changes but the times; or it gives -1, because
    the file had to grow and the heap refused, and changes nothing. The locks
    held are those held before. *)
Lemma tmpfs_write_ok a t fs n f b size offset flags (w : W) :
  is_file w a t fs n f -> 0 <= offset -> 0 <= size <= Z.of_nat (length b) ->
  write_at n offset flags + size <= 2 ^ 63 ->
  exists e,
    (exists n', data_ok n' /\ same_meta n n' /\
      contents n' = resized (write_at n offset flags) (contents n) ++ take (Z.to_nat size) b /\
      tmpfs_write a (Some b) size offset flags w = Ok ((0, Some size), with_files
        (<[t := n']> (t_nodes (k_fs w)))
        (<[fs := counted (n_size n' - n_size n) f]> (t_fss (k_fs w))) e w)) \/
    (n_capacity n < write_at n offset flags + size /\ (exists c, env_buffer c (k_env w) = (false, e)) /\
     tmpfs_write a (Some b) size offset flags w = Ok ((-1, None), set_env e w)).
Proof.
  intros ((v & Hv & Hp & Hvf & Hreg) & Hn & Hf & Hok & Hlk) Ho Hsize Hend.
  assert (0 <= write_at n offset flags) as Hoff.
  { unfold write_at. destruct Hok. destruct (has_bits _ _); lia. }
  unfold tmpfs_write. rewrite (from_vnode_bind _ _ _ _ Hv), (get_vnode_bind _ _ _ _ Hv), Hp.
  rewrite Hreg, Hvf. cbn [negb]. rewrite need_bind.
  erewrite (st_bind_ok _ _ w (write_at n offset flags) w).
  2:{ unfold write_at. destruct (has_bits flags O_APPEND); [|done].
      by rewrite (st_bind_ok _ _ _ _ _ (get_node_ok _ _ _ Hn)). }
  rewrite u64_small by lia. rewrite (lock_bind _ _ _ Hlk).
  set (w1 := set_locks _ w).
  destruct (resize_ok fs t (write_at n offset flags + size) n f w1 Hn Hf Hok) as (e & [(d & cap & Hok' & Hd & Hr)|(Hc & Hb & Hr)]);
    [lia| |].
  - destruct (put_resized (write_at n offset flags) size b (contents n) d) as (d' & Hd' & Hl' & Ht');
      [done|done|destruct Hok' as (? & _ & Hx); simpl in *; lia|done|].
    rewrite (st_bind_ok _ _ _ _ _ Hr). set (w2 := with_files _ _ e w1).
    set (n1 := set_contents d cap _ n) in *.
    assert (t_nodes (k_fs w2) !! t = Some n1) as Hn2 by apply lookup_insert_eq.
    erewrite (st_bind_ok _ _ w2 tt (with_files (<[t := set_data d' n1]> (t_nodes (k_fs w))) _ e w1)).
    2:{ change (0 =? 0) with true. cbn [andb]. destruct (Z.eqb_spec size 0) as [->|Hnz]; cbn [negb].
        - change (take (Z.to_nat 0) b) with (@nil Z) in Hd'. unfold put_bytes in Hd'. simpl in Hd'.
          by simplify_eq.
        - cbn [default]. rewrite (lift_bind _ _ _ _ (get_bytes_ok 0 size b (Z.le_refl 0) (proj1 Hsize) (proj2 Hsize))).
          change (drop (Z.to_nat 0) b) with b. rewrite (st_bind_ok _ _ _ _ _ (get_node_ok _ _ _ Hn2)).
          rewrite (lift_bind _ _ _ _ Hd'). rewrite (upd_node_ok _ n1) by done.
          unfold w2, with_files; cbn [t_nodes t_fss k_fs set_fs]. by rewrite insert_insert_eq. }
    change (0 =? 0) with true. cbn [negb]. rewrite bind_assoc.
    set (w3 := with_files _ _ e w1).
    destruct (tmpfs_now_bind (fun now => upd_node t (touch now) ;; mutex_unlock (LSize a) ;;
      mret (0, Some size)) w3) as (tm & e' & Hnow).
    exists e'. left. exists (touch tm (set_data d' n1)).
    assert (data_ok (touch tm (set_data d' n1))) as Hok2.
    { destruct Hok' as (? & ? & ?). split; [done|]. split; [done|]. simpl in *. lia. }
    split; [done|]. split; [done|]. split; [exact Ht'|].
    rewrite Hnow. rewrite (upd_node_bind _ (set_data d' n1)) by apply lookup_insert_eq.
    unfold w3, with_files; cbn [t_nodes t_fss k_fs set_fs set_env]. rewrite insert_insert_eq.
    by rewrite (unlock_bind _ (k_locks w)).
  - exists e. right. split; [done|]. split; [done|]. rewrite (st_bind_ok _ _ _ _ _ Hr).
    change (-1 =? 0) with false. cbn [andb].
    rewrite (st_bind_ok (mret tt) _ _ tt _ eq_refl), (st_bind_ok (mret tt) _ _ tt _ eq_refl).
    by rewrite (unlock_bind _ (k_locks w)).
Qed.

(** The number of bytes a read gives. *)
Definition read_count (size offset len : Z) : Z := Z.max 0 (Z.min size (len - offset)).

Lemma tmpfs_read_ok a t fs n f b size offset flags (w : W) :
  is_file w a t fs n f -> 0 <= offset -> 0 <= size <= Z.of_nat (length b) ->
  let count := read_count size offset (n_size n) in
  exists e tm, tmpfs_read a (Some b) size offset flags w =
    Ok ((0, (Some (take (Z.to_nat count) (drop (Z.to_nat offset) (contents n)) ++ drop (Z.to_nat count) b),
             Some count)),
        with_files (<[t := set_atime tm n]> (t_nodes (k_fs w))) (t_fss (k_fs w)) e w).
Proof.
  intros ((v & Hv & Hp & Hvf & Hreg) & Hn & Hf & Hok & Hlk) Ho Hsize count.
  destruct Hok as (Hs & Hc & Hl). unfold tmpfs_read.
  rewrite (from_vnode_bind _ _ _ _ Hv), (get_vnode_bind _ _ _ _ Hv), Hp, Hreg. cbn [negb].
  rewrite (lock_bind _ _ _ Hlk). set (w1 := set_locks _ w).
  assert (t_nodes (k_fs w1) !! t = Some n) as Hn1 by done.
  rewrite (st_bind_ok _ _ _ _ _ (get_node_ok _ _ _ Hn1)).
  erewrite (st_bind_ok _ _ w1 (count, take (Z.to_nat count) (drop (Z.to_nat offset) (contents n)) ++
    drop (Z.to_nat count) b) w1).
  2:{ destruct (Z.leb_spec (n_size n) offset) as [Hle|Hgt].
      - unfold count, read_count. replace (Z.max 0 _) with 0 by lia. done.
      - assert (tmpfs_min_size size (n_size n - offset) = count) as ->.
        { unfold tmpfs_min_size, count, read_count. destruct (Z.ltb_spec size (n_size n - offset)); lia. }
        assert (0 <= count /\ count <= size /\ offset + count <= n_size n) as (? & ? & ?).
        { unfold count, read_count. lia. }
        assert (offset + count <= Z.of_nat (length (n_data n))) as Hcl by lia.
        rewrite (lift_bind _ _ _ _ (get_bytes_ok offset count (n_data n) Ho H0 Hcl)).
        assert (take (Z.to_nat count) (drop (Z.to_nat offset) (n_data n)) =
          take (Z.to_nat count) (drop (Z.to_nat offset) (contents n))) as ->.
        { unfold contents. rewrite skipn_firstn_comm, take_take.
          f_equal. lia. }
        assert (length (take (Z.to_nat count) (drop (Z.to_nat offset) (contents n))) = Z.to_nat count) as Hlen.
        { rewrite length_take, length_drop. unfold contents. rewrite length_take. lia. }
        erewrite lift_bind by (apply put_bytes_ok; lia). rewrite Hlen. done. }
  match goal with |- context[(tmpfs_now ≫= ?k) w1] => destruct (tmpfs_now_bind k w1) as (tm & e & ->) end.
  exists e, tm. rewrite (upd_node_bind _ n) by done. by rewrite (unlock_bind _ (k_locks w)).
Qed.

Definition vnode_is_tmpfs (w : W) (a : Z) : Prop :=
  exists v, k_vnodes w !! a = Some v /\ vn_ops v = Some tmpfs_vops_addr.

Lemma vfs_write_tmpfs a buf size offset flags (w : W) : vnode_is_tmpfs w a ->
  vfs_write (Some a) buf size offset flags w = tmpfs_write a buf size offset flags w.
Proof.
  intros (v & Hv & Ho). unfold vfs_write. by rewrite (get_vnode_bind _ _ _ _ Hv), Ho.
Qed.

Lemma vfs_read_tmpfs a buf size offset flags (w : W) : vnode_is_tmpfs w a ->
  vfs_read (Some a) buf size offset flags w = tmpfs_read a buf size offset flags w.
Proof.
  intros (v & Hv & Ho). unfold vfs_read. by rewrite (get_vnode_bind _ _ _ _ Hv), Ho.
Qed.

(** C14: what was written is read back, through the virtual file system: after
    a successful [vfs_write] of a buffer at an offset, [vfs_read] of any range
    gives exactly the bytes of that range of the old file cut or padded at the
    offset followed by the buffer, the count is the length of the range inside
    the file, and the rest of the reader's buffer is untouched. *)
Theorem vfs_write_read a t fs n f b offset flags size roff rb rflags (w w1 : W) wc :
  is_file w a t fs n f -> vnode_is_tmpfs w a -> 0 <= offset ->
  has_bits flags O_APPEND = false -> offset + Z.of_nat (length b) <= 2 ^ 63 ->
  0 <= roff -> 0 <= size <= Z.of_nat (length rb) ->
  vfs_write (Some a) (Some b) (Z.of_nat (length b)) offset flags w = Ok ((0, wc), w1) ->
  let file := resized offset (contents n) ++ b in
  let count := read_count size roff (Z.of_nat (length file)) in
  wc = Some (Z.of_nat (length b)) /\
  exists w2, vfs_read (Some a) (Some rb) size roff rflags w1 =
    Ok ((0, (Some (take (Z.to_nat count) (drop (Z.to_nat roff) file) ++ drop (Z.to_nat count) rb),
             Some count)), w2).
Proof.
  intros Hfile Ht Ho Happ Hend Hro Hsize Hw file count.
  rewrite vfs_write_tmpfs in Hw by done.
  assert (write_at n offset flags = offset) as Hwa by (unfold write_at; by rewrite Happ).
  destruct (tmpfs_write_ok a t fs n f b (Z.of_nat (length b)) offset flags w Hfile Ho) as
    (e & [(n' & Hok & Hm & Hc & Hr)|(_ & _ & Hr)]); [lia|by rewrite Hwa| |];
    rewrite Hr in Hw; [|congruence].
  assert (w1 = with_files (<[t := n']> (t_nodes (k_fs w)))
    (<[fs := counted (n_size n' - n_size n) f]> (t_fss (k_fs w))) e w /\ wc = Some (Z.of_nat (length b)))
    as [Hw1 ->] by (split; congruence).
  assert (vnode_is_tmpfs w1 a) as Ht1 by (subst w1; exact Ht).
  split; [done|]. rewrite (vfs_read_tmpfs _ _ _ _ _ _ Ht1).
  rewrite Hwa, Nat2Z.id, firstn_all in Hc.
  destruct Hfile as (Hv & _ & _ & _ & Hlk).
  assert (is_file w1 a t fs n' (counted (n_size n' - n_size n) f)) as Hfile1.
  { subst w1. split; [exact Hv|]. split; [apply lookup_insert_eq|]. split; [apply lookup_insert_eq|]. by split. }
  destruct (tmpfs_read_ok a t fs n' _ rb size roff rflags w1 Hfile1 Hro Hsize) as (e' & tm & Hrd).
  eexists. rewrite Hrd. rewrite Hc.
  assert (n_size n' = Z.of_nat (length file)) as ->; [|done].
  rewrite <- contents_length by done. by rewrite Hc.
Qed.

(** a write that ends past 2^63 in a file that has never been larger than
    a power of two never returns: the loop that doubles the capacity reaches 0
    and stays there, whatever fuel it is given, with the size lock held. *)
Theorem tmpfs_write_past_63 fuel a t fs n f b size offset flags (w : W) :
  is_file w a t fs n f -> 0 <= offset -> has_bits flags O_APPEND = false ->
  0 <= size <= Z.of_nat (length b) -> 2 ^ 63 < offset + size < 2 ^ 64 ->
  (n_capacity n = 0 \/ exists k, (k <= 63)%nat /\ n_capacity n = 2 ^ Z.of_nat k) ->
  grow_loop fuel (if n_capacity n =? 0 then 64 else n_capacity n) (offset + size) = Timeout /\
  tmpfs_write a (Some b) size offset flags w = Timeout.
Proof.
  intros ((v & Hv & Hp & Hvf & Hreg) & Hn & Hf & Hok & Hlk) Ho Happ Hsize Hend Hcap.
  assert (forall fuel, grow_loop fuel (if n_capacity n =? 0 then 64 else n_capacity n) (offset + size) = Timeout)
    as Hdiv.
  { intros fl. destruct Hcap as [->|(k & Hk & ->)].
    - apply (grow_loop_diverges fl 6); lia.
    - destruct (Z.eqb_spec (2 ^ Z.of_nat k) 0) as [E0|_].
      + pose proof (Z.pow_pos_nonneg 2 (Z.of_nat k)). lia.
      + apply grow_loop_diverges; lia. }
  split; [apply Hdiv|].
  assert (n_capacity n <= 2 ^ 63) as Hc63.
  { destruct Hcap as [->|(k & Hk & ->)]; [lia|]. apply Z.pow_le_mono_r; lia. }
  unfold tmpfs_write. rewrite (from_vnode_bind _ _ _ _ Hv), (get_vnode_bind _ _ _ _ Hv), Hp.
  rewrite Hreg, Hvf. cbn [negb]. rewrite need_bind, Happ.
  rewrite (st_bind_ok (mret offset) _ w offset w eq_refl).
  rewrite u64_small by lia. rewrite (lock_bind _ _ _ Hlk). set (w1 := set_locks _ w).
  assert (tmpfs_resize_node fs t (offset + size) w1 = Timeout) as Hr.
  { unfold tmpfs_resize_node. assert (t_nodes (k_fs w1) !! t = Some n) as Hn1 by done.
    rewrite (st_bind_ok _ _ _ _ _ (get_node_ok _ _ _ Hn1)).
    rewrite (proj2 (Z.leb_gt _ _)) by lia. unfold mbind, st_bind. by rewrite Hdiv. }
  unfold mbind, st_bind. by rewrite Hr.
Qed.

(** A write whose end wraps past 2^64 to a small size is accepted by the
    resize and then copies outside the buffer: a memory fault, not an error
    code. *)
Theorem tmpfs_write_wraps a t fs n f b size offset flags (w : W) :
  is_file w a t fs n f -> 0 <= offset < 2 ^ 64 -> has_bits flags O_APPEND = false ->
  0 < size <= Z.of_nat (length b) -> 2 ^ 64 <= offset + size -> size <= 2 ^ 63 ->
  offset + size - 2 ^ 64 <= n_capacity n ->
  tmpfs_write a (Some b) size offset flags w = Fault.
Proof.
  intros ((v & Hv & Hp & Hvf & Hreg) & Hn & Hf & Hok & Hlk) Ho Happ Hsize Hend Hs63 Hcap.
  unfold tmpfs_write. rewrite (from_vnode_bind _ _ _ _ Hv), (get_vnode_bind _ _ _ _ Hv), Hp.
  rewrite Hreg, Hvf. cbn [negb]. rewrite need_bind, Happ.
  rewrite (st_bind_ok (mret offset) _ w offset w eq_refl).
  assert (u64 (offset + size) = offset + size - 2 ^ 64) as ->.
  { unfold u64. symmetry. apply (Z.mod_unique _ _ 1); lia. }
  rewrite (lock_bind _ _ _ Hlk). set (w1 := set_locks _ w).
  destruct (resize_ok fs t (offset + size - 2 ^ 64) n f w1 Hn Hf Hok) as (e & [(d & cap & Hok' & Hd & Hr)|(Hc & _)]);
    [lia| |lia].
  rewrite (st_bind_ok _ _ _ _ _ Hr). set (w2 := with_files _ _ e w1).
  change (0 =? 0) with true. rewrite (proj2 (Z.eqb_neq size 0)) by lia. cbn [negb andb default].
  assert (forall A (k : unit -> ST W A), ((l ← st_lift (get_bytes 0 size b); n ← get_node t;
    d ← st_lift (put_bytes offset l (n_data n)); upd_node t (set_data d)) ≫= k) w2 = Fault) as Hfault; [|apply Hfault].
  intros A k. rewrite bind_assoc.
  rewrite (lift_bind _ _ _ _ (get_bytes_ok 0 size b (Z.le_refl 0) (Z.lt_le_incl _ _ (proj1 Hsize)) (proj2 Hsize))).
  change (drop (Z.to_nat 0) b) with b. rewrite bind_assoc.
  assert (t_nodes (k_fs w2) !! t = Some (set_contents d cap (offset + size - 2 ^ 64) n)) as Hn2
    by apply lookup_insert_eq.
  rewrite (st_bind_ok _ _ _ _ _ (get_node_ok _ _ _ Hn2)). cbn [n_data set_contents].
  assert (length (take (Z.to_nat size) b) = Z.to_nat size) as Hlt by (rewrite length_take; lia).
  assert (put_bytes offset (take (Z.to_nat size) b) d = Fault) as Hput.
  { unfold put_bytes. rewrite Hlt. destruct (Nat.eqb_spec (Z.to_nat size) 0); [lia|].
    destruct Hok' as (? & ? & Hl). simpl in Hl, H0, H1.
    rewrite (proj2 (Z.leb_gt (offset + _) _)) by lia. by rewrite andb_false_r. }
  rewrite bind_assoc. unfold mbind, st_bind, st_lift. by rewrite Hput.
Qed.
End files.
