(* ===== verification/TmpfsDir.v ===== *)
(** Directories of the in-memory file system: the sibling lists as a map from
    names to nodes, the well-formedness of the tree and its preservation, the
    behaviour of lookup, creation and enumeration, and path resolution through
    the virtual file system. *)
From S2P Require Import Prelude Kenv Vfs Tmpfs.

(** ** Directories *)

Abbreviation entries := (list (Z * cstr)).

(** The sibling list from a pointer: the nodes and their names, in order. *)
Fixpoint siblings (m : gmap Z tnode) (p : ptr) (l : entries) : Prop :=
  match l with
  | [] => p = None
  | (a, nm) :: l => p = Some a /\ exists n, m !! a = Some n /\ n_name n = nm /\ siblings m (n_next_sibling n) l
  end.

(** The entry of a name. *)
Fixpoint dir_lookup (l : entries) (name : cstr) : ptr :=
  match l with
  | [] => None
  | (a, nm) :: l => if decide (nm = name) then Some a else dir_lookup l name
  end.

Lemma siblings_unique m p l l' : siblings m p l -> siblings m p l' -> l = l'.
Proof.
  revert p l'. induction l as [|[a nm] l IH]; intros p [|[a' nm'] l']; simpl; try (intros; naive_solver).
Qed.

(** Old nodes keep their name and their place in the list they are in. *)
Definition links_kept (m m' : gmap Z tnode) : Prop := forall a n, m !! a = Some n ->
  exists n', m' !! a = Some n' /\ n_name n' = n_name n /\ n_next_sibling n' = n_next_sibling n.

Lemma siblings_kept m m' p l : links_kept m m' -> siblings m p l -> siblings m' p l.
Proof.
  intros Hk. revert p. induction l as [|[a nm] l IH]; intros p; simpl; [done|].
  intros (-> & n & Hn & <- & Hs). split; [done|]. destruct (Hk _ _ Hn) as (n' & Hn' & ? & Hx).
  exists n'. split; [done|]. split; [done|]. rewrite Hx. by apply IH.
Qed.

Lemma siblings_in m p l a nm : siblings m p l -> (a, nm) ∈ l ->
  exists n, m !! a = Some n /\ n_name n = nm.
Proof.
  revert p. induction l as [|[b x] l IH]; intros p; simpl; [by rewrite elem_of_nil|].
  intros (-> & n & Hn & <- & Hs) [E1|Hin]%elem_of_cons; [simplify_eq; eauto|by eapply IH].
Qed.

Lemma siblings_nodup m p l : siblings m p l -> NoDup l.*2 -> NoDup l.*1.
Proof.
  revert p. induction l as [|[a nm] l IH]; intros p; simpl; [intros; constructor|].
  intros (-> & n & Hn & <- & Hs) [Hnin Hnd]%NoDup_cons. constructor; [|by eapply IH].
  intros ([a' nm'] & E1 & Hin)%list_elem_of_fmap. simpl in E1. subst a'.
  destruct (siblings_in _ _ _ _ _ Hs Hin) as (n' & Hn' & <-). assert (n' = n) as -> by congruence.
  apply Hnin. apply list_elem_of_fmap. by exists (a, n_name n).
Qed.

Lemma siblings_length m p l : siblings m p l -> NoDup l.*2 -> (length l <= size m)%nat.
Proof.
  intros Hs Hnd. pose proof (siblings_nodup _ _ _ Hs Hnd) as Hnd1.
  rewrite <- (length_fmap fst l), <- (size_list_to_set (C := gset Z)) by done. rewrite <- size_dom.
  apply subseteq_size. intros a Ha. apply elem_of_list_to_set, list_elem_of_fmap in Ha as ([b nm] & -> & Hin).
  destruct (siblings_in _ _ _ _ _ Hs Hin) as (n & Hn & _). by eapply elem_of_dom_2.
Qed.

Lemma dir_lookup_in l name a : dir_lookup l name = Some a -> (a, name) ∈ l.
Proof.
  induction l as [|[b x] l IH]; simpl; [done|]. destruct (decide (x = name)) as [->|].
  - intros [= ->]. by left.
  - intros Hl. right. by apply IH.
Qed.

Lemma dir_lookup_none l name : dir_lookup l name = None <-> name ∉ l.*2.
Proof.
  induction l as [|[b x] l IH]; cbn [dir_lookup fmap list_fmap snd].
  - split; [intros _; apply not_elem_of_nil|done].
  - rewrite not_elem_of_cons. destruct (decide (x = name)); [|rewrite IH]; naive_solver.
Qed.

Lemma dir_lookup_some l name a : NoDup l.*2 -> (a, name) ∈ l -> dir_lookup l name = Some a.
Proof.
  induction l as [|[b x] l IH]; cbn [dir_lookup fmap list_fmap snd]; [by intros _ ?%elem_of_nil|].
  intros [Hx Hnd]%NoDup_cons [E1|Hin]%elem_of_cons.
  - simplify_eq. by rewrite decide_True.
  - rewrite decide_False; [by apply IH|]. intros ->. apply Hx. apply list_elem_of_fmap. by exists (a, name).
Qed.

Lemma tmpfs_name_equal_eq a b : tmpfs_name_equal a b = bool_decide (a = b).
Proof. exact (vfs_string_equal_eq a b). Qed.

Section dirs.
Context {E : Type} `{Kenv E}.
Abbreviation W := (world E tmpfs).

Lemma find_child_loop_ok fuel p l name (w : W) : siblings (t_nodes (k_fs w)) p l -> (length l <= fuel)%nat ->
  find_child_loop fuel p name w = Ok (dir_lookup l name, w).
Proof.
  revert p fuel. induction l as [|[a nm] l IH]; intros p fuel; simpl.
  - intros -> _. by destruct fuel.
  - intros (-> & n & Hn & <- & Hs) Hf. destruct fuel as [|fuel]; [lia|].
    cbn [find_child_loop]. rewrite (st_bind_ok _ _ _ _ _ (get_node_ok _ _ _ Hn)).
    rewrite tmpfs_name_equal_eq. case_bool_decide as Hd; [by rewrite decide_True|].
    rewrite decide_False by done. apply IH; [done|lia].
Qed.

Lemma child_at_loop_ok fuel p l index (w : W) : siblings (t_nodes (k_fs w)) p l -> (length l <= fuel)%nat ->
  0 <= index -> child_at_loop fuel p index w = Ok (l.*1 !! Z.to_nat index, w).
Proof.
  revert p fuel index. induction l as [|[a nm] l IH]; intros p fuel index; cbn [siblings length].
  - intros -> _ _. by destruct fuel.
  - intros (-> & n & Hn & <- & Hs) Hf Hi. destruct fuel as [|fuel]; [lia|].
    cbn [child_at_loop]. destruct (Z.eqb_spec index 0) as [->|]; [done|].
    rewrite (st_bind_ok _ _ _ _ _ (get_node_ok _ _ _ Hn)), IH by (done || lia).
    replace (Z.to_nat index) with (S (Z.to_nat (index - 1))) by lia. done.
Qed.

(** The directory at a node lists these entries. *)
Definition dir (w : W) (p : Z) (l : entries) : Prop := exists n,
  t_nodes (k_fs w) !! p = Some n /\ siblings (t_nodes (k_fs w)) (n_first_child n) l.

Lemma find_child_ok p l name (w : W) : dir w p l -> NoDup l.*2 ->
  tmpfs_find_child p name w = Ok (dir_lookup l name, w).
Proof.
  intros (n & Hn & Hs) Hnd. unfold tmpfs_find_child. rewrite (st_bind_ok _ _ _ _ _ (get_node_ok _ _ _ Hn)).
  unfold node_fuel. rewrite gets_bind. apply find_child_loop_ok; [done|].
  pose proof (siblings_length _ _ _ Hs Hnd). lia.
Qed.

Lemma child_at_ok p l index (w : W) : dir w p l -> NoDup l.*2 -> 0 <= index ->
  tmpfs_child_at p index w = Ok (l.*1 !! Z.to_nat index, w).
Proof.
  intros (n & Hn & Hs) Hnd Hi. unfold tmpfs_child_at. rewrite (st_bind_ok _ _ _ _ _ (get_node_ok _ _ _ Hn)).
  unfold node_fuel. rewrite gets_bind. apply child_at_loop_ok; [done| |done].
  pose proof (siblings_length _ _ _ Hs Hnd). lia.
Qed.
End dirs.

(** ** Sums over the nodes *)

Definition measure (g : Z -> tnode -> Z) (m : gmap Z tnode) : Z := map_fold (fun a n acc => g a n + acc) 0 m.

Lemma measure_insert g m a n : m !! a = None -> measure g (<[a := n]> m) = g a n + measure g m.
Proof.
  intros Hm. unfold measure. apply (map_fold_insert_L (fun a n acc => g a n + acc) 0); [|done]. intros; lia.
Qed.

Lemma measure_update g m a n n' : m !! a = Some n ->
  measure g (<[a := n']> m) = measure g m - g a n + g a n'.
Proof.
  intros Hm. rewrite <- (insert_delete_id m a n) at 2 by done. rewrite <- insert_delete_eq.
  rewrite !measure_insert by apply lookup_delete_eq. lia.
Qed.

Lemma measure_ext g h m : (forall a n, m !! a = Some n -> g a n = h a n) -> measure g m = measure h m.
Proof.
  induction m as [|a n m Hm IH] using map_ind; intros He; [done|].
  rewrite !measure_insert by done. rewrite (He a n) by apply lookup_insert_eq. f_equal. apply IH.
  intros b x Hb. apply He. rewrite lookup_insert_ne by congruence. done.
Qed.

Lemma measure_zero m : measure (fun _ _ => 0) m = 0.
Proof.
  induction m as [|a n m Hm IH] using map_ind; [done|]. by rewrite measure_insert, IH by done.
Qed.

(** ** The well-formed tree *)

Section tree.
Context {E : Type} `{KenvLaws E}.
Abbreviation W := (world E tmpfs).

Definition owner (vn : gmap Z vnode) (a : Z) : ptr := vn !! a ≫= vn_vfs.
Definition if_owned (vn : gmap Z vnode) (fs a x : Z) : Z := if decide (owner vn a = Some fs) then x else 0.
(** Nodes and bytes of a file system. *)
Definition count_of (w : W) (fs : Z) : Z := measure (fun a _ => if_owned (k_vnodes w) fs a 1) (t_nodes (k_fs w)).
Definition total_of (w : W) (fs : Z) : Z :=
  measure (fun a n => if_owned (k_vnodes w) fs a (n_size n)) (t_nodes (k_fs w)).

(** The vnode part of a node: it points back to the node, its type is the
    node's, and its file system has handed out the inode number. *)
Definition vnode_part (w : W) (a : Z) (n : tnode) (fs : Z) (f : tfs) : Prop := exists v,
  k_vnodes w !! a = Some v /\ vn_ops v = Some tmpfs_vops_addr /\ vn_private v = Some a /\
  vn_vfs v = Some fs /\ vn_type v = Z.land (n_mode n) S_IFMT /\
  t_fss (k_fs w) !! fs = Some f /\ 0 <= n_inode n < fs_next_inode f.

(** The entries of a directory: distinct proper names of its children. *)
Definition entries_ok (m : gmap Z tnode) (p : Z) (l : entries) : Prop :=
  NoDup l.*2 /\ forall a nm, (a, nm) ∈ l -> nm <> [] /\ Z.of_nat (length nm) <= NAME_MAX /\
    exists n, m !! a = Some n /\ n_parent n = Some p.

Record tree_ok (w : W) : Prop := {
  ok_live : heap_ok w;
  ok_fss : dom (t_fss (k_fs w)) ⊆ env_live (k_env w);
  ok_vnode : forall a n, t_nodes (k_fs w) !! a = Some n -> exists fs f, vnode_part w a n fs f;
  ok_data : forall a n, t_nodes (k_fs w) !! a = Some n -> data_ok n;
  ok_dir : forall p n, t_nodes (k_fs w) !! p = Some n -> exists l,
    siblings (t_nodes (k_fs w)) (n_first_child n) l /\ entries_ok (t_nodes (k_fs w)) p l;
  ok_parent : forall a n q, t_nodes (k_fs w) !! a = Some n -> n_parent n = Some q ->
    is_Some (t_nodes (k_fs w) !! q);
  ok_inode : forall a b n m, t_nodes (k_fs w) !! a = Some n -> t_nodes (k_fs w) !! b = Some m ->
    a <> b -> owner (k_vnodes w) a = owner (k_vnodes w) b -> n_inode n <> n_inode m;
  ok_counts : forall fs f, t_fss (k_fs w) !! fs = Some f ->
    fs_node_count f = u64 (count_of w fs) /\ fs_byte_count f = u64 (total_of w fs) }.

Lemma ok_dir_entries w p l : tree_ok w -> dir w p l -> entries_ok (t_nodes (k_fs w)) p l.
Proof.
  intros Hw (n & Hn & Hs). destruct (ok_dir _ Hw _ _ Hn) as (l' & Hs' & Hl').
  by rewrite (siblings_unique _ _ _ _ Hs Hs').
Qed.

Lemma node_is_vnode w a n : tree_ok w -> t_nodes (k_fs w) !! a = Some n -> a ∈ env_live (k_env w).
Proof.
  intros Hw Hn. destruct (ok_vnode _ Hw _ _ Hn) as (fs & f & v & Hv & _).
  apply (ok_live _ Hw). by eapply elem_of_dom_2.
Qed.

Lemma links_kept_update (m : gmap Z tnode) a n n' : m !! a = Some n -> n_name n' = n_name n ->
  n_next_sibling n' = n_next_sibling n -> links_kept m (<[a := n']> m).
Proof.
  intros Hn H1 H2 b x Hb. destruct (decide (b = a)) as [->|Hne].
  - rewrite lookup_insert_eq. exists n'. by simplify_eq.
  - rewrite lookup_insert_ne by done. eauto.
Qed.

(** Rewriting a file, with its file system's byte count, keeps the tree. *)
Lemma tree_ok_file (w : W) t n n' fs f e : tree_ok w -> t_nodes (k_fs w) !! t = Some n ->
  vnode_part w t n fs f -> same_meta n n' -> data_ok n' -> env_live e = env_live (k_env w) ->
  tree_ok (with_files (<[t := n']> (t_nodes (k_fs w)))
    (<[fs := counted (n_size n' - n_size n) f]> (t_fss (k_fs w))) e w).
Proof.
  intros Hw Hn (v & Hv & Hvo & Hvp & Hvf & Hvt & Hf & Hi) (Mp & Mn & Mf & Mnm & Mm & Mi) Hok He.
  assert (forall a x, <[t := n']> (t_nodes (k_fs w)) !! a = Some x -> exists y, t_nodes (k_fs w) !! a = Some y /\
    n_parent x = n_parent y /\ n_first_child x = n_first_child y /\ n_mode x = n_mode y /\
    n_inode x = n_inode y /\ (x = y \/ x = n' /\ a = t)) as Hback.
  { intros a x. destruct (decide (a = t)) as [->|Hne].
    - rewrite lookup_insert_eq. intros [= <-]. exists n. split_and!; auto.
    - rewrite lookup_insert_ne by done. intros Hx. exists x. split_and!; auto. }
  assert (forall a, is_Some (t_nodes (k_fs w) !! a) -> is_Some (<[t := n']> (t_nodes (k_fs w)) !! a)) as Hfwd.
  { intros a [x Hx]. destruct (decide (a = t)) as [->|Hne].
    - rewrite lookup_insert_eq. eauto.
    - rewrite lookup_insert_ne by done. eauto. }
  split; unfold with_files; cbn [k_fs k_vnodes k_env set_fs set_env t_nodes t_fss].
  - unfold heap_ok; simpl. rewrite He. apply (ok_live _ Hw).
  - rewrite He, dom_insert_L. pose proof (ok_fss _ Hw). apply elem_of_dom_2 in Hf. set_solver.
  - intros a x Hx. destruct (Hback a x Hx) as (y & Hy & _ & _ & Ey & Ei & _).
    destruct (ok_vnode _ Hw _ _ Hy) as (fs0 & f0 & v0 & ? & ? & ? & ? & ? & Hf0 & ?).
    exists fs0, (if decide (fs0 = fs) then counted (n_size n' - n_size n) f else f0).
    exists v0. cbn [k_vnodes k_fs t_fss set_fs set_env]. rewrite Ey, Ei. split_and!; try done.
    + destruct (decide (fs0 = fs)) as [->|]; [by rewrite lookup_insert_eq|by rewrite lookup_insert_ne by done].
    + lia.
    + destruct (decide (fs0 = fs)) as [->|]; simpl; [|lia]. assert (f0 = f) as -> by congruence. lia.
  - intros a x Hx. destruct (Hback a x Hx) as (y & Hy & _ & _ & _ & _ & [->|[-> _]]); [by eapply ok_data|done].
  - intros p x Hx. destruct (Hback p x Hx) as (y & Hy & _ & -> & _).
    destruct (ok_dir _ Hw _ _ Hy) as (l & Hs & Hnd & Hl). exists l. split.
    + eapply siblings_kept; [|exact Hs]. by eapply links_kept_update.
    + split; [done|]. intros a nm Hin. destruct (Hl a nm Hin) as (? & ? & c & Hc & Hcp).
      split; [done|]. split; [done|]. destruct (decide (a = t)) as [->|].
      * exists n'. rewrite lookup_insert_eq. split; [done|]. congruence.
      * exists c. by rewrite lookup_insert_ne.
  - intros a x q Hx Hq. destruct (Hback a x Hx) as (y & Hy & Ep & _). rewrite Ep in Hq.
    apply Hfwd. by eapply ok_parent.
  - intros a b x y Hx Hy Hne Hown. destruct (Hback a x Hx) as (x0 & Hx0 & _ & _ & _ & -> & _).
    destruct (Hback b y Hy) as (y0 & Hy0 & _ & _ & _ & -> & _). by eapply ok_inode.
  - intros fs0 f0 Hf0. unfold count_of, total_of; cbn [k_fs k_vnodes t_nodes set_fs set_env].
    rewrite !(measure_update _ _ _ n) by done.
    destruct (decide (fs0 = fs)) as [->|Hne].
    + rewrite lookup_insert_eq in Hf0. simplify_eq.
      destruct (ok_counts _ Hw _ _ Hf) as [Hc Ht]. unfold count_of, total_of in *.
      assert (forall x, if_owned (k_vnodes w) fs t x = x) as Hown.
      { intros x. unfold if_owned, owner. rewrite Hv. simpl. by rewrite decide_True. }
      rewrite !Hown. cbn [fs_node_count fs_byte_count counted]. split.
      * rewrite Hc. f_equal. lia.
      * rewrite Ht, u64_add_l. f_equal. lia.
    + rewrite lookup_insert_ne in Hf0 by done.
      assert (forall x, if_owned (k_vnodes w) fs0 t x = 0) as Hown.
      { intros x. unfold if_owned, owner. rewrite Hv. simpl. apply decide_False. congruence. }
      rewrite !Hown, !Z.sub_0_r, !Z.add_0_r. by apply ok_counts.
Qed.

(** ** Creation *)

Lemma set_locks_id (w : W) L : set_locks (k_locks w) (set_locks L w) = w.
Proof. by destruct w. Qed.

Lemma uptime_live t (e : E) e' : env_uptime e = (t, e') -> env_live e' = env_live e.
Proof. apply env_uptime_live. Qed.

(** The arguments that [tmpfs_create] refuses. *)
Definition create_refused (v : vnode) (name : cstr) (type : Z) : bool :=
  bool_decide (name = []) ||
  (negb (Z.land type S_IFMT =? S_IFREG) && negb (Z.land type S_IFMT =? S_IFDIR)) ||
  negb (S_ISDIR (vn_type v)) || (NAME_MAX <? Z.of_nat (length name)).

(** The permission bits of the new node. *)
Definition create_mode (attr : option vattr) (type : Z) : Z :=
  match attr with
  | Some a => Z.land (va_mode a) ALLPERMS
  | None => if Z.land type S_IFMT =? S_IFDIR then 0x1FF else DEFFILEMODE
  end.

Definition new_node (parent next : ptr) (name : cstr) (type mode inode : Z) (t : timespec) : tnode :=
  mk_tnode parent next None name [] 0 0 (Z.lor (Z.ldiff mode S_IFMT) (Z.land type S_IFMT)) inode t t t.

Definition new_vnode (c type fs : Z) : vnode :=
  vn_set_private (Some c) (vnode_init (Some tmpfs_vops_addr) 0 (Z.land type S_IFMT) (Some fs)).

Definition one_more (f : tfs) : tfs :=
  mk_tfs (fs_root f) (u64 (fs_next_inode f + 1)) (u64 (fs_node_count f + 1)) (fs_byte_count f).

(** The world after a node [c] has been made under [p]. *)
Definition created (w : W) (e : E) (p fs c : Z) (np : tnode) (f : tfs) (name : cstr) (type mode : Z)
    (t t' : timespec) : W :=
  mk_world e (<[c := new_vnode c type fs]> (k_vnodes w)) (k_vfss w) (k_advlocks w) (k_registry w)
    (k_vfsroot w) (k_locks w)
    (mk_tmpfs (<[p := touch t' (set_first (Some c) np)]>
       (<[c := new_node (Some p) (n_first_child np) name type mode (fs_next_inode f) t]> (t_nodes (k_fs w))))
       (<[fs := one_more f]> (t_fss (k_fs w)))).

Lemma alloc_node_ok fs parent name type mode f (w : W) : t_fss (k_fs w) !! fs = Some f ->
  (exists e, tmpfs_alloc_node fs parent name type mode w = Ok (None, set_env e w) /\
     (env_alloc sizeof_tmpfs_node (k_env w) = (None, e) \/
      exists c e1 e2, env_alloc sizeof_tmpfs_node (k_env w) = (Some c, e1) /\
        env_buffer (Z.of_nat (length name) + 1) e1 = (false, e2) /\ e = env_free c e2)) \/
  (exists c e t, (c ∉ env_live (k_env w)) /\ env_live e = {[c]} ∪ env_live (k_env w) /\
     tmpfs_alloc_node fs parent name type mode w = Ok (Some c,
       mk_world e (<[c := new_vnode c type fs]> (k_vnodes w)) (k_vfss w) (k_advlocks w) (k_registry w)
         (k_vfsroot w) (k_locks w)
         (mk_tmpfs (<[c := new_node parent None name type mode (fs_next_inode f) t]> (t_nodes (k_fs w)))
            (<[fs := one_more f]> (t_fss (k_fs w)))))).
Proof.
  intros Hf. unfold tmpfs_alloc_node.
  destruct (env_alloc sizeof_tmpfs_node (k_env w)) as [[c|] e1] eqn:Ha; rewrite (alloc_bind _ _ _ _ _ Ha).
  2:{ left. exists e1. split; [done|by left]. }
  unfold tmpfs_strdup. rewrite bind_assoc.
  destruct (env_buffer (Z.of_nat (length name) + 1) e1) as [b e2] eqn:Hb.
  rewrite (buffer_bind _ _ (set_env e1 w) _ _ Hb).
  destruct b.
  2:{ left. exists (env_free c e2). split; [done|right]. exists c, e1, e2. by split_and!. }
  right. rewrite (st_bind_ok (mret (Some name)) _ _ (Some name) _ eq_refl). rewrite modify_bind.
  set (w1 := set_vnodes _ _). assert (get_fs fs w1 = Ok (f, w1)) as Hg.
  { unfold get_fs. cbn [w1 k_fs set_vnodes set_env]. by rewrite Hf. }
  rewrite (st_bind_ok _ _ _ _ _ Hg). unfold put_fs at 1. rewrite modify_bind. set (w2 := set_fs _ w1).
  match goal with |- context[(tmpfs_now ≫= ?k) w2] => destruct (tmpfs_now_ok w2) as (t & e3 & Ht & Hu) end.
  rewrite (st_bind_ok _ _ _ _ _ Ht). exists c, e3, t.
  destruct (env_alloc_some _ _ _ _ Ha) as [Hc Hl].
  split; [done|]. split.
  { rewrite (uptime_live _ _ _ Hu). cbn [w2 w1 k_env set_fs set_vnodes set_env].
    by rewrite (env_buffer_live _ _ _ _ Hb). }
  unfold put_node. rewrite modify_bind. set (w3 := set_fs _ _).
  erewrite (st_bind_ok (upd_fs _ _)); [|apply upd_fs_ok; apply lookup_insert_eq].
  cbn [mret st_ret]. unfold mret, st_ret. unfold w3, w2, w1, set_fs, set_vnodes, set_env. simpl.
  by rewrite insert_insert_eq.
Qed.

Lemma lock_unlock_none {A} l (w : W) (k : ST W A) e : l ∉ k_locks w ->
  (mutex_unlock l ;; k) (set_env e (set_locks (l :: k_locks w) w)) = k (set_env e w).
Proof.
  intros Hl. rewrite (unlock_bind l (k_locks w)) by done. by destruct w.
Qed.

Lemma tmpfs_create_ok p v np l fs f name attr type (w : W) :
  tree_ok w -> k_vnodes w !! p = Some v -> t_nodes (k_fs w) !! p = Some np -> vn_private v = Some p ->
  vn_vfs v = Some fs -> t_fss (k_fs w) !! fs = Some f -> dir w p l -> LNode p ∉ k_locks w ->
  (exists e, tmpfs_create p name attr type w = Ok ((-1, None), set_env e w) /\
     (create_refused v name type = true /\ e = k_env w \/ is_Some (dir_lookup l name) /\ e = k_env w \/
      env_alloc sizeof_tmpfs_node (k_env w) = (None, e) \/
      exists c e1 e2, env_alloc sizeof_tmpfs_node (k_env w) = (Some c, e1) /\
        env_buffer (Z.of_nat (length name) + 1) e1 = (false, e2) /\ e = env_free c e2)) \/
  (create_refused v name type = false /\ dir_lookup l name = None /\
   exists c e t t', (c ∉ env_live (k_env w)) /\ env_live e = {[c]} ∪ env_live (k_env w) /\
     tmpfs_create p name attr type w = Ok ((0, Some c),
       created w e p fs c np f name (Z.land type S_IFMT) (create_mode attr type) t t')).
Proof.
  intros Hw Hv Hnp Hp Hvf Hf Hdir Hlk.
  assert (set_env (k_env w) w = w) as Hid by by destruct w.
  unfold tmpfs_create, create_refused. destruct name as [|x nm].
  { left. exists (k_env w). rewrite Hid. split; [done|]. by left. }
  set (name := x :: nm). rewrite (bool_decide_eq_false_2 (name = [])) by done. cbn [orb].
  destruct (negb (Z.land type S_IFMT =? S_IFREG) && negb (Z.land type S_IFMT =? S_IFDIR)) eqn:Hty.
  { left. exists (k_env w). rewrite Hid. split; [done|]. by left. }
  rewrite (from_vnode_bind _ _ _ _ Hv), (get_vnode_bind _ _ _ _ Hv), Hp.
  destruct (S_ISDIR (vn_type v)) eqn:Hd; cbn [negb orb].
  2:{ left. exists (k_env w). rewrite Hid. split; [done|]. by left. }
  destruct (NAME_MAX <? Z.of_nat (length name)) eqn:Hlen.
  { left. exists (k_env w). rewrite Hid. split; [done|]. by left. }
  rewrite (lock_bind _ _ _ Hlk). set (w1 := set_locks _ w).
  assert (dir w1 p l) as Hdir1 by exact Hdir.
  pose proof (proj1 (ok_dir_entries _ _ _ Hw Hdir)) as Hnd.
  rewrite (st_bind_ok _ _ _ _ _ (find_child_ok _ _ name _ Hdir1 Hnd)).
  destruct (dir_lookup l name) as [old|] eqn:Hlook.
  { left. exists (k_env w). split; [|right; left; split; [by eexists|done]].
    exact (lock_unlock_none _ w (mret (-1, None)) (k_env w) Hlk). }
  rewrite Hvf, need_bind.
  match goal with |- context[tmpfs_alloc_node fs (Some p) name ?ty ?mo] =>
    assert (mo = create_mode attr type) as -> by (by destruct attr);
    destruct (alloc_node_ok fs (Some p) name ty (create_mode attr type) f w1 Hf)
      as [(e & Hr & Hwhy)|(c & e & t & Hc & He & Hr)] end; rewrite (st_bind_ok _ _ _ _ _ Hr).
  { left. exists e. split; [exact (lock_unlock_none (LNode p) w (mret (-1, None)) e Hlk)|]. do 2 right. exact Hwhy. }
  right. split; [done|]. split; [done|].
  assert (c <> p) as Hcp.
  { intros ->. apply Hc. exact (node_is_vnode w p np Hw Hnp). }
  set (w2 := mk_world e _ _ _ _ _ _ _).
  assert (t_nodes (k_fs w2) !! p = Some np) as Hp2 by (simpl; by rewrite lookup_insert_ne by done).
  unfold tmpfs_link_child. rewrite !bind_assoc, (st_bind_ok _ _ _ _ _ (get_node_ok _ _ _ Hp2)).
  rewrite !bind_assoc. erewrite (upd_node_bind c); [|simpl; apply lookup_insert_eq].
  rewrite !bind_assoc. erewrite (upd_node_bind p np); [|simpl; rewrite lookup_insert_ne by done; exact Hp2].
  rewrite !bind_assoc.
  match goal with |- context[(tmpfs_now ≫= ?k) ?w3] => destruct (tmpfs_now_ok w3) as (t' & e' & Ht & Hu) end.
  rewrite (st_bind_ok _ _ _ _ _ Ht). exists c, e', t, t'. split; [done|].
  split; [by rewrite (uptime_live _ _ _ Hu)|].
  erewrite (upd_node_bind p); [|simpl; apply lookup_insert_eq].
  rewrite (unlock_bind (LNode p) (k_locks w)) by done.
  unfold created, mret, st_ret, set_locks, set_fs, set_env; simpl. do 3 f_equal.
  by rewrite insert_insert_eq, insert_insert_eq.
Qed.

Lemma land_type mode type : Z.land (Z.lor (Z.ldiff mode S_IFMT) (Z.land type S_IFMT)) S_IFMT = Z.land type S_IFMT.
Proof.
  apply Z.bits_inj'. intros i Hi. rewrite !Z.land_spec, Z.lor_spec, Z.ldiff_spec, Z.land_spec.
  by destruct (Z.testbit mode i), (Z.testbit type i), (Z.testbit S_IFMT i).
Qed.

(** One node [c] more, under [p]. *)
Section created.
Context (w : W) (e : E) (p fs c : Z) (np : tnode) (f : tfs) (name : cstr) (type mode : Z)
  (t t' : timespec) (l : entries).
Hypothesis (Hw : tree_ok w) (Hnp : t_nodes (k_fs w) !! p = Some np) (Hpart : vnode_part w p np fs f)
  (Hc : c ∉ env_live (k_env w)) (He : env_live e = {[c]} ∪ env_live (k_env w))
  (Hnext : fs_next_inode f < 2 ^ 64 - 1) (Hdir : dir w p l)
  (Hname : name <> [] /\ Z.of_nat (length name) <= NAME_MAX) (Hnew : dir_lookup l name = None).

Local Abbreviation w' := (created w e p fs c np f name type mode t t').
Local Abbreviation nodes := (t_nodes (k_fs w)).
Local Abbreviation nodes' := (t_nodes (k_fs w')).

Lemma created_fresh a n : nodes !! a = Some n -> a <> c.
Proof. intros Hn ->. apply Hc. exact (node_is_vnode w c n Hw Hn). Qed.

Lemma created_ne : c <> p.
Proof. exact (not_eq_sym (created_fresh p np Hnp)). Qed.

Lemma created_at a : nodes' !! a =
  if decide (a = p) then Some (touch t' (set_first (Some c) np))
  else if decide (a = c) then Some (new_node (Some p) (n_first_child np) name type mode (fs_next_inode f) t)
  else nodes !! a.
Proof.
  simpl. destruct (decide (a = p)) as [->|]; [by rewrite lookup_insert_eq|].
  rewrite lookup_insert_ne by done.
  destruct (decide (a = c)) as [->|]; [by rewrite lookup_insert_eq|by rewrite lookup_insert_ne by done].
Qed.

Lemma created_old a n : nodes !! a = Some n -> exists n', nodes' !! a = Some n' /\
  n_name n' = n_name n /\ n_next_sibling n' = n_next_sibling n /\ n_parent n' = n_parent n /\
  n_mode n' = n_mode n /\ n_inode n' = n_inode n /\ n_data n' = n_data n /\
  n_capacity n' = n_capacity n /\ n_size n' = n_size n /\ (a <> p -> n' = n).
Proof.
  intros Hn. rewrite created_at. pose proof (created_fresh _ _ Hn).
  destruct (decide (a = p)) as [->|Hp].
  - assert (n = np) as -> by congruence. by eexists.
  - rewrite decide_False by done. by exists n.
Qed.

Lemma created_back a n' : nodes' !! a = Some n' ->
  (a = c /\ n' = new_node (Some p) (n_first_child np) name type mode (fs_next_inode f) t) \/
  (a <> c /\ exists n, nodes !! a = Some n /\ n_parent n' = n_parent n /\ n_mode n' = n_mode n /\
    n_inode n' = n_inode n /\ n_size n' = n_size n /\ (data_ok n -> data_ok n') /\ 
    (a = p \/ n_first_child n' = n_first_child n)).
Proof.
  intros Hn. rewrite created_at in Hn. destruct (decide (a = p)) as [->|].
  - right. split; [by eapply created_fresh|]. exists np. simplify_eq. split_and!; try done. by left.
  - destruct (decide (a = c)) as [->|]; [left; by simplify_eq|].
    right. split; [done|]. exists n'. split_and!; try done. by right.
Qed.

Lemma created_links : links_kept nodes nodes'.
Proof. intros a n Hn. destruct (created_old _ _ Hn) as (n' & ? & ? & ? & _). eauto. Qed.

Lemma created_dir : dir w' p ((c, name) :: l).
Proof.
  exists (touch t' (set_first (Some c) np)). rewrite created_at, decide_True by done. split; [done|].
  simpl. split; [done|]. exists (new_node (Some p) (n_first_child np) name type mode (fs_next_inode f) t).
  split.
  - pose proof (created_at c) as E1. simpl in E1. rewrite E1.
    rewrite decide_False by exact created_ne. by rewrite decide_True.
  - split; [done|]. destruct Hdir as (n & Hn & Hs). assert (n = np) as -> by congruence.
    eapply siblings_kept; [exact created_links|exact Hs].
Qed.

Lemma created_other_dir q l' : q <> p -> dir w q l' -> dir w' q l'.
Proof.
  intros Hq (n & Hn & Hs). destruct (created_old _ _ Hn) as (n' & Hn' & _ & _ & _ & _ & _ & _ & _ & _ & Heq).
  rewrite (Heq Hq) in Hn'. exists n. split; [done|]. eapply siblings_kept; [exact created_links|exact Hs].
Qed.

Lemma created_owner a : a <> c -> owner (k_vnodes w') a = owner (k_vnodes w) a.
Proof. intros Ha. unfold owner. simpl. by rewrite lookup_insert_ne by done. Qed.

Lemma created_owner_new : owner (k_vnodes w') c = Some fs.
Proof. unfold owner. simpl. by rewrite lookup_insert_eq. Qed.

Lemma created_fss fs0 f0 : t_fss (k_fs w) !! fs0 = Some f0 ->
  t_fss (k_fs w') !! fs0 = Some (if decide (fs0 = fs) then one_more f else f0).
Proof.
  intros Hf. simpl. destruct (decide (fs0 = fs)) as [->|]; [by rewrite lookup_insert_eq|by rewrite lookup_insert_ne by done].
Qed.

Lemma next_inode : u64 (fs_next_inode f + 1) = fs_next_inode f + 1.
Proof. destruct Hpart as (v & _ & _ & _ & _ & _ & _ & Hi). apply u64_small. lia. Qed.

Lemma created_vnode a n' : nodes' !! a = Some n' -> exists fs0 f0, vnode_part w' a n' fs0 f0.
Proof.
  destruct Hpart as (vp & _ & _ & _ & _ & _ & Hf & Hip).
  intros Hn. destruct (created_back _ _ Hn) as [[-> ->]|(Hac & n & Hold & _ & Hm & Hi & _)].
  - exists fs, (one_more f), (new_vnode c type fs). rewrite (created_fss _ _ Hf), decide_True by done.
    cbn [fs_next_inode one_more]. rewrite next_inode. simpl. rewrite lookup_insert_eq.
    split_and!; try done; [by rewrite land_type|lia|lia].
  - destruct (ok_vnode _ Hw _ _ Hold) as (fs0 & f0 & v & ? & ? & ? & ? & ? & Hf0 & ?).
    exists fs0, (if decide (fs0 = fs) then one_more f else f0), v. rewrite (created_fss _ _ Hf0), Hm, Hi.
    split_and!; try done; [simpl; by rewrite lookup_insert_ne by done|lia|].
    destruct (decide (fs0 = fs)) as [->|]; [|lia]. assert (f0 = f) as -> by congruence.
    cbn [fs_next_inode one_more]. rewrite next_inode. lia.
Qed.

Lemma created_entries q l' : entries_ok nodes q l' -> entries_ok nodes' q l'.
Proof.
  intros [Hnd Hl]. split; [done|]. intros a nm Hin. destruct (Hl _ _ Hin) as (? & ? & n & Hn & Hp).
  split; [done|]. split; [done|]. destruct (created_old _ _ Hn) as (n' & ? & _ & _ & Hp' & _).
  exists n'. split; [done|]. congruence.
Qed.

Lemma created_new_entries : entries_ok nodes' p ((c, name) :: l).
Proof.
  pose proof (created_entries p l (ok_dir_entries _ _ _ Hw Hdir)) as [Hnd Hl]. split.
  - cbn [fmap list_fmap snd]. apply NoDup_cons. split; [by apply dir_lookup_none|done].
  - intros a nm [E1|Hin]%elem_of_cons; [|by apply Hl]. simplify_eq. split; [tauto|]. split; [tauto|].
    eexists. rewrite created_at. rewrite decide_False by exact created_ne.
    by rewrite decide_True.
Qed.

Lemma created_measure g g' : (forall a n, nodes !! a = Some n -> g' a n = g a n) ->
  (forall a tm q, g' a (touch tm (set_first q np)) = g' a np) ->
  measure g' nodes' = g' c (new_node (Some p) (n_first_child np) name type mode (fs_next_inode f) t) + measure g nodes.
Proof.
  intros Hg Ht. cbn [created k_fs t_nodes]. 
  pose proof created_ne as Hcp.
  rewrite (measure_update _ _ p np) by (by rewrite lookup_insert_ne by done).
  rewrite measure_insert.
  2:{ destruct (nodes !! c) as [x|] eqn:Hx; [|done]. by destruct (created_fresh _ _ Hx). }
  rewrite (measure_ext g' g nodes) by done. rewrite Ht. lia.
Qed.

Lemma created_ok : tree_ok w'.
Proof.
  assert (forall a n x fs0, nodes !! a = Some n ->
    if_owned (k_vnodes w') fs0 a x = if_owned (k_vnodes w) fs0 a x) as Hown.
  { intros a n x fs0 Hn. unfold if_owned. by rewrite created_owner by (by eapply created_fresh). }
  split.
  - unfold heap_ok. cbn [created k_vnodes k_env]. rewrite He, dom_insert_L. pose proof (ok_live _ Hw) as Hl.
    unfold heap_ok in Hl. set_solver.
  - cbn [created k_fs t_fss k_env]. rewrite He, dom_insert_L. pose proof (ok_fss _ Hw).
    destruct Hpart as (_ & _ & _ & _ & _ & _ & Hf & _). apply elem_of_dom_2 in Hf. set_solver.
  - exact created_vnode.
  - intros a n' Hn. destruct (created_back _ _ Hn) as [[-> ->]|(_ & n & Hold & _ & _ & _ & _ & Hd & _)].
    + by split_and!.
    + apply Hd. by eapply ok_data.
  - intros q n' Hn. destruct (decide (q = p)) as [->|Hq].
    { exists ((c, name) :: l). split; [|exact created_new_entries].
      destruct created_dir as (x & Hx & Hs). by assert (x = n') as -> by congruence. }
    destruct (created_back _ _ Hn) as [[-> ->]|(_ & n & Hold & _ & _ & _ & _ & _ & [?|Hfst])]; [|done|].
    + exists []. split; [done|]. split; [constructor|]. by intros a nm ?%elem_of_nil.
    + destruct (ok_dir _ Hw _ _ Hold) as (l' & Hs & Hl). exists l'. split; [|by apply created_entries].
      rewrite Hfst. eapply siblings_kept; [exact created_links|exact Hs].
  - intros a n' q Hn Hq. assert (forall b, is_Some (nodes !! b) -> is_Some (nodes' !! b)) as Hfwd.
    { intros b [x Hx]. destruct (created_old _ _ Hx) as (x' & Hx' & _). by exists x'. }
    apply Hfwd. destruct (created_back _ _ Hn) as [[-> ->]|(_ & n & Hold & Hp & _)].
    + simpl in Hq. simplify_eq. by eexists.
    + rewrite Hp in Hq. by eapply ok_parent.
  - assert (forall b n, nodes !! b = Some n -> owner (k_vnodes w) b = Some fs -> n_inode n < fs_next_inode f) as Hlt.
    { intros b n Hn Hb. destruct (ok_vnode _ Hw _ _ Hn) as (fs0 & f0 & v & Hv & _ & _ & Hvf & _ & Hf0 & Hi).
      unfold owner in Hb. rewrite Hv in Hb. simpl in Hb. destruct Hpart as (_ & _ & _ & _ & _ & _ & Hf & _).
      assert (f0 = f) as -> by congruence. lia. }
    intros a b n m Hn Hm Hne Ho.
    destruct (created_back _ _ Hn) as [[-> ->]|(Ha & n0 & Hn0 & _ & _ & -> & _)];
      destruct (created_back _ _ Hm) as [[-> ->]|(Hb & m0 & Hm0 & _ & _ & -> & _)]; [done| | |].
    + rewrite created_owner_new, created_owner in Ho by done. pose proof (Hlt b m0 Hm0 (eq_sym Ho)). simpl. lia.
    + rewrite created_owner_new, created_owner in Ho by done. pose proof (Hlt a n0 Hn0 Ho). simpl. lia.
    + rewrite !created_owner in Ho by done. by eapply ok_inode.
  - intros fs0 f0 Hf0. unfold count_of, total_of.
    rewrite (created_measure (fun a _ => if_owned (k_vnodes w) fs0 a 1)) by (done || intros a n Hn; by eapply Hown).
    rewrite (created_measure (fun a n => if_owned (k_vnodes w) fs0 a (n_size n))) by (done || intros a n Hn; by eapply Hown).
    unfold if_owned at 1 3. rewrite created_owner_new. cbn [new_node n_size].
    simpl in Hf0. destruct Hpart as (_ & _ & _ & _ & _ & _ & Hf & _). destruct (decide (fs0 = fs)) as [->|Hne].
    + rewrite lookup_insert_eq in Hf0. simplify_eq. rewrite !decide_True by done.
      destruct (ok_counts _ Hw _ _ Hf) as [E1 E2]. simpl. split; [|done].
      rewrite E1, u64_add_l. f_equal. unfold count_of. lia.
    + rewrite lookup_insert_ne in Hf0 by done. rewrite !decide_False by congruence. by apply ok_counts.
Qed.
End created.
End tree.

(** ** Lookup, creation, enumeration *)

Section spec.
Context {E : Type} `{KenvLaws E}.
Abbreviation W := (world E tmpfs).

Lemma tree_ok_env (w : W) e : tree_ok w -> env_live e = env_live (k_env w) -> tree_ok (set_env e w).
Proof.
  intros [Hl Hfs Hv Hd Hdir Hp Hi Hc] He. split; try done.
  - unfold heap_ok in *. simpl. by rewrite He.
  - simpl. by rewrite He.
Qed.

(** The node [p] of the tree with its vnode and entries, its lock free. *)
Definition tree_node (w : W) (p : Z) (v : vnode) (np : tnode) (l : entries) : Prop :=
  k_vnodes w !! p = Some v /\ t_nodes (k_fs w) !! p = Some np /\
  siblings (t_nodes (k_fs w)) (n_first_child np) l /\ LNode p ∉ k_locks w.

Definition inodes_left (w : W) : Prop := forall fs f, t_fss (k_fs w) !! fs = Some f -> fs_next_inode f < 2 ^ 64 - 1.

Lemma freed_live n (e : E) c e1 m e2 : env_alloc n e = (Some c, e1) -> env_buffer m e1 = (false, e2) ->
  env_live (env_free c e2) = env_live e.
Proof.
  intros Ha Hb. destruct (env_alloc_some _ _ _ _ Ha) as [Hc Hl].
  rewrite env_free_live, (env_buffer_live _ _ _ _ Hb), Hl. set_solver.
Qed.

Lemma tmpfs_create_full p v np l name attr type (w : W) :
  tree_ok w -> tree_node w p v np l -> inodes_left w ->
  exists rc r w', tmpfs_create p name attr type w = Ok ((rc, r), w') /\ tree_ok w' /\ k_locks w' = k_locks w /\
  k_vfsroot w' = k_vfsroot w /\
  ((rc = 0 /\ exists c n vc, r = Some c /\ create_refused v name type = false /\ dir_lookup l name = None /\
      k_vnodes w !! c = None /\ dir w' p ((c, name) :: l) /\
      (forall q l', q <> p -> dir w q l' -> dir w' q l') /\
      (t_nodes (k_fs w') !! c = Some n /\ contents n = [] /\ n_parent n = Some p /\ n_name n = name /\
       n_mode n = Z.lor (Z.ldiff (create_mode attr type) S_IFMT) (Z.land type S_IFMT)) /\
      (k_vnodes w' = <[c := vc]> (k_vnodes w) /\ vn_refcount vc = 1 /\ vn_ops vc = Some tmpfs_vops_addr /\
       vn_private vc = Some c /\ vn_mounted vc = None /\ vn_type vc = Z.land type S_IFMT) /\
      (forall a n, t_nodes (k_fs w) !! a = Some n -> exists n', t_nodes (k_fs w') !! a = Some n' /\
         contents n' = contents n /\ n_parent n' = n_parent n /\ n_mode n' = n_mode n /\ n_inode n' = n_inode n)) \/
   (rc = -1 /\ r = None /\ k_fs w' = k_fs w /\ k_vnodes w' = k_vnodes w /\
     (create_refused v name type = true \/ is_Some (dir_lookup l name) \/
      (exists e, env_alloc sizeof_tmpfs_node (k_env w) = (None, e)) \/
      exists c e1 e2, env_alloc sizeof_tmpfs_node (k_env w) = (Some c, e1) /\
        env_buffer (Z.of_nat (length name) + 1) e1 = (false, e2)))).
Proof.
  intros Hw (Hv & Hnp & Hs & Hlk) Hleft.
  assert (dir w p l) as Hdir by by exists np.
  destruct (ok_vnode _ Hw _ _ Hnp) as (fs & f & Hpart). pose proof Hpart as (v' & Hv' & Hvo & Hvp & Hvf & Hvt & Hf & Hi).
  assert (v' = v) as -> by congruence.
  destruct (tmpfs_create_ok p v np l fs f name attr type w Hw Hv Hnp Hvp Hvf Hf Hdir Hlk)
    as [(e & Hr & Hwhy)|(Href & Hnone & c & e & t & t' & Hc & He & Hr)].
  - exists (-1), None, (set_env e w). split; [done|]. split.
    { apply tree_ok_env; [done|]. destruct Hwhy as [(_ & ->)|[(_ & ->)|[Ha|(c & e1 & e2 & Ha & Hb & ->)]]];
        [done|done|by eapply env_alloc_none|by eapply freed_live]. }
    split; [done|]. split; [done|]. right. split_and!; try done.
    destruct Hwhy as [(? & _)|[(? & _)|[Ha|(c & e1 & e2 & Ha & Hb & _)]]]; eauto 10.
  - assert (name <> [] /\ Z.of_nat (length name) <= NAME_MAX) as Hname.
    { unfold create_refused in Href. apply orb_false_iff in Href as [Href H4].
      apply orb_false_iff in Href as [Href _]. apply orb_false_iff in Href as [H1 _].
      apply bool_decide_eq_false in H1. apply Z.ltb_ge in H4. done. }
    set (ty := Z.land type S_IFMT) in *. set (mo := create_mode attr type) in *.
    exists 0, (Some c), (created w e p fs c np f name ty mo t t'). split; [done|].
    assert (Z.land ty S_IFMT = ty) as Hty.
    { unfold ty. rewrite <- Z.land_assoc. by rewrite Z.land_diag. }
    split; [by eapply created_ok; eauto|]. split; [done|]. split; [done|]. left. split; [done|].
    assert (c <> p) as Hcp by (eapply created_ne; eauto).
    exists c, (new_node (Some p) (n_first_child np) name ty mo (fs_next_inode f) t), (new_vnode c ty fs).
    split_and!; try done.
    + destruct (k_vnodes w !! c) as [x|] eqn:Hx; [|done]. exfalso. apply Hc, (ok_live _ Hw).
      by eapply elem_of_dom_2.
    + by eapply created_dir.
    + intros q l' Hq Hd. by eapply created_other_dir.
    + rewrite (created_at w e p fs c np f name ty mo t t'). rewrite decide_False by done. by rewrite decide_True.
    + simpl. by rewrite Hty.
    + intros a n Hn. destruct (created_old w e p fs c np f name ty mo t t' Hw Hnp Hc a n Hn)
        as (n' & Hn' & _ & _ & E1 & E2 & E3 & E4 & _ & E5 & _).
      exists n'. split_and!; try done. unfold contents. by rewrite E4, E5.
Qed.

(** C12: creating a node. On a tree that is well formed, with the lock of the
    parent free and inode numbers left, [tmpfs_create] returns with the tree
    well formed and the locks as before. It gives 0 exactly when the arguments
    are acceptable, the name is new and the heap serves both requests: the
    directory then lists one more entry, a fresh empty node of the type and
    permissions asked with one reference, and every other directory, file and
    node is as it was; otherwise it gives -1 and changes neither nodes nor
    vnodes. *)
Theorem tmpfs_create_spec p v np l name attr type (w : W) :
  tree_ok w -> tree_node w p v np l -> inodes_left w ->
  exists rc r w', tmpfs_create p name attr type w = Ok ((rc, r), w') /\ tree_ok w' /\ k_locks w' = k_locks w /\
  k_vfsroot w' = k_vfsroot w /\
  ((rc = 0 /\ exists c n vc, r = Some c /\ create_refused v name type = false /\ dir_lookup l name = None /\
      k_vnodes w !! c = None /\ dir w' p ((c, name) :: l) /\
      (forall q l', q <> p -> dir w q l' -> dir w' q l') /\
      (t_nodes (k_fs w') !! c = Some n /\ contents n = [] /\ n_parent n = Some p /\ n_name n = name /\
       n_mode n = Z.lor (Z.ldiff (create_mode attr type) S_IFMT) (Z.land type S_IFMT)) /\
      (k_vnodes w' = <[c := vc]> (k_vnodes w) /\ vn_refcount vc = 1 /\ vn_ops vc = Some tmpfs_vops_addr /\
       vn_private vc = Some c /\ vn_mounted vc = None /\ vn_type vc = Z.land type S_IFMT) /\
      (forall a n, t_nodes (k_fs w) !! a = Some n -> exists n', t_nodes (k_fs w') !! a = Some n' /\
         contents n' = contents n /\ n_parent n' = n_parent n /\ n_mode n' = n_mode n /\ n_inode n' = n_inode n)) \/
   (rc = -1 /\ r = None /\ k_fs w' = k_fs w /\ k_vnodes w' = k_vnodes w /\
     (create_refused v name type = true \/ is_Some (dir_lookup l name) \/
      (exists e, env_alloc sizeof_tmpfs_node (k_env w) = (None, e)) \/
      exists c e1 e2, env_alloc sizeof_tmpfs_node (k_env w) = (Some c, e1) /\
        env_buffer (Z.of_nat (length name) + 1) e1 = (false, e2)))).
Proof. apply tmpfs_create_full. Qed.

(** What a lookup gives, from the entries of the directory. *)
Definition lookup_result (v : vnode) (p : Z) (np : tnode) (l : entries) (name : cstr) : Z * ptr :=
  if decide (name = [dot]) then (0, Some p)
  else if decide (name = [dot; dot]) then (0, Some (default p (n_parent np)))
  else if S_ISDIR (vn_type v) then
    match dir_lookup l name with Some c => (0, Some c) | None => (-1, None) end
  else (-1, None).

Lemma tmpfs_lookup_ok p v np l name (w : W) : tree_ok w -> tree_node w p v np l ->
  tmpfs_lookup p name w = Ok (lookup_result v p np l name, w).
Proof.
  intros Hw (Hv & Hnp & Hs & Hlk). assert (dir w p l) as Hdir by by exists np.
  destruct (ok_vnode _ Hw _ _ Hnp) as (fs & f & v' & Hv' & Hvo & Hvp & Hvf & Hvt & Hf & Hi).
  assert (v' = v) as -> by congruence.
  unfold tmpfs_lookup, lookup_result. rewrite (from_vnode_bind _ _ _ _ Hv), !tmpfs_name_equal_eq, Hvp.
  case_bool_decide as H1; [by rewrite decide_True|]. rewrite decide_False by done.
  case_bool_decide as H2.
  { rewrite decide_True by done. rewrite (st_bind_ok _ _ _ _ _ (get_node_ok _ _ _ Hnp)). by destruct (n_parent np). }
  rewrite decide_False by done. rewrite (get_vnode_bind _ _ _ _ Hv).
  destruct (S_ISDIR (vn_type v)); cbn [negb]; [|done].
  rewrite (lock_bind _ _ _ Hlk). set (w1 := set_locks _ w).
  assert (dir w1 p l) as Hdir1 by exact Hdir.
  rewrite (st_bind_ok _ _ _ _ _ (find_child_ok _ _ name _ Hdir1 (proj1 (ok_dir_entries _ _ _ Hw Hdir)))).
  rewrite (unlock_bind (LNode p) (k_locks w)) by done. unfold w1. rewrite set_locks_id.
  by destruct (dir_lookup l name).
Qed.

(** Lookup reads back what creation wrote. After a successful
    [tmpfs_create] of a name other than [.] and [..] in a directory, looking it
    up in the parent gives the new node, looking up any other name gives what
    it gave before, and lookups change nothing. *)
Theorem tmpfs_create_lookup p v np l name attr type (w w' : W) c :
  tree_ok w -> tree_node w p v np l -> inodes_left w -> name <> [dot] -> name <> [dot; dot] ->
  tmpfs_create p name attr type w = Ok ((0, Some c), w') ->
  tmpfs_lookup p name w' = Ok ((0, Some c), w') /\
  (forall m, tmpfs_lookup p m w = Ok (lookup_result v p np l m, w)) /\
  (forall m, m <> name -> tmpfs_lookup p m w' = Ok (lookup_result v p np l m, w')).
Proof.
  intros Hw Hn Hleft Hd1 Hd2 Hr.
  destruct (tmpfs_create_full p v np l name attr type w Hw Hn Hleft) as
    (rc & r & w2 & Hr2 & Hw2 & Hlk2 & _ & [(-> & c' & n & vc & -> & Href & Hnone & Hfresh & Hdir & _ & _ & (Hvn & _) & Hkept)|(-> & _)]);
    [|congruence].
  assert (c' = c /\ w2 = w') as [-> ->] by (split; congruence).
  assert (S_ISDIR (vn_type v) = true) as Hisdir.
  { unfold create_refused in Href. apply orb_false_iff in Href as [Href _].
    apply orb_false_iff in Href as [_ Href]. by destruct (S_ISDIR (vn_type v)). }
  destruct Hn as (Hv & Hnp & Hs & Hlk).
  destruct (Hkept _ _ Hnp) as (np' & Hnp' & _ & Hpar & _).
  assert (tree_node w' p v np' ((c, name) :: l)) as Hn'.
  { split_and!.
    - rewrite Hvn, lookup_insert_ne; [done|]. intros ->. congruence.
    - done.
    - destruct Hdir as (x & Hx & Hsx). by assert (x = np') as -> by congruence.
    - by rewrite Hlk2. }
  split_and!.
  - rewrite (tmpfs_lookup_ok _ _ _ _ _ _ Hw2 Hn'). unfold lookup_result. rewrite !decide_False by done.
    rewrite Hisdir. cbn [dir_lookup]. by rewrite decide_True.
  - intros m. by apply tmpfs_lookup_ok.
  - intros m Hm. rewrite (tmpfs_lookup_ok _ _ _ _ _ _ Hw2 Hn'). unfold lookup_result. rewrite Hpar.
    cbn [dir_lookup]. by rewrite (decide_False (P := name = m)) by congruence.
Qed.

(** ** Enumeration *)

(** The whole listing of a directory. *)
Definition listing (m : gmap Z tnode) (p : Z) (np : tnode) (l : entries) : list dirent :=
  tmpfs_fill_dirent (Some np) [dot] 1 ::
  tmpfs_fill_dirent (m !! default p (n_parent np)) [dot; dot] 2 ::
  imap (fun i x => tmpfs_fill_dirent (m !! x.1) x.2 (Z.of_nat i + 3)) l.

Lemma listing_child m p np l k : listing m p np l !! S (S k) =
  (fun x => tmpfs_fill_dirent (m !! x.1) x.2 (Z.of_nat k + 3)) <$> l !! k.
Proof. exact (list_lookup_imap _ l k). Qed.

Lemma listing_offsets m p np l i d : listing m p np l !! i = Some d -> d_off d = Z.of_nat i + 1.
Proof.
  destruct i as [|[|i]]; [by intros [= <-]|by intros [= <-]|].
  intros Hx. rewrite listing_child in Hx.
  apply fmap_Some in Hx as (x & Hx & ->). simpl. lia.
Qed.

Lemma tree_ok_locks (w : W) L : tree_ok w -> tree_ok (set_locks L w).
Proof. intros [Hl Hfs Hv Hd Hdir Hp Hi Hc]. by split. Qed.

Lemma dirent_at_ok p np l i (w : W) : tree_ok w -> t_nodes (k_fs w) !! p = Some np ->
  siblings (t_nodes (k_fs w)) (n_first_child np) l -> 0 <= i ->
  dirent_at p i w = Ok (listing (t_nodes (k_fs w)) p np l !! Z.to_nat i, w).
Proof.
  intros Hw Hnp Hs Hi. assert (dir w p l) as Hdir by by exists np.
  unfold dirent_at. rewrite (st_bind_ok _ _ _ _ _ (get_node_ok _ _ _ Hnp)).
  destruct (Z.eqb_spec i 0) as [->|Hi0]; [done|]. destruct (Z.eqb_spec i 1) as [->|Hi1].
  { destruct (n_parent np) as [q|] eqn:Hq; simpl.
    - destruct (ok_parent _ Hw _ _ _ Hnp Hq) as [nq Hnq]. rewrite Hq. simpl.
      rewrite (st_bind_ok _ _ _ _ _ (get_node_ok _ _ _ Hnq)). by rewrite Hnq.
    - rewrite Hq. simpl. rewrite (st_bind_ok _ _ _ _ _ (get_node_ok _ _ _ Hnp)). by rewrite Hnp. }
  rewrite (st_bind_ok _ _ _ _ _ (child_at_ok p l (i - 2) w Hdir (proj1 (ok_dir_entries _ _ _ Hw Hdir)) ltac:(lia))).
  replace (Z.to_nat i) with (S (S (Z.to_nat (i - 2)))) by lia.
  rewrite listing_child, list_lookup_fmap.
  destruct (l !! Z.to_nat (i - 2)) as [[a nm]|] eqn:Hl; simpl; [|done].
  destruct (siblings_in _ _ _ a nm Hs) as (n & Hn & <-); [by eapply list_elem_of_lookup_2|].
  rewrite (st_bind_ok _ _ _ _ _ (get_node_ok _ _ _ Hn)), Hn. unfold mret, st_ret. cbn [fst snd].
  by replace (Z.of_nat (Z.to_nat (i - 2)) + 3) with (i + 1) by lia.
Qed.

Lemma getdents_loop_ok fuel p np l i (w : W) : tree_ok w -> t_nodes (k_fs w) !! p = Some np ->
  siblings (t_nodes (k_fs w)) (n_first_child np) l -> 0 <= i ->
  Z.of_nat (length l) + 3 < 2 ^ 64 ->
  getdents_loop fuel p i w = Ok (take fuel (drop (Z.to_nat i) (listing (t_nodes (k_fs w)) p np l)), w).
Proof.
  intros Hw Hnp Hs Hi Hl. revert i Hi. induction fuel as [|fuel IH]; intros i Hi; [done|].
  cbn [getdents_loop]. rewrite (st_bind_ok _ _ _ _ _ (dirent_at_ok _ _ _ _ _ Hw Hnp Hs Hi)).
  destruct (listing _ p np l !! Z.to_nat i) as [d|] eqn:Hd.
  - assert (u64 (i + 1) = i + 1) as ->.
    { apply u64_small. apply lookup_lt_Some in Hd. unfold listing in Hd. simpl in Hd.
      rewrite length_imap in Hd. lia. }
    rewrite (st_bind_ok _ _ _ _ _ (IH (i + 1) ltac:(lia))).
    rewrite (drop_S _ _ _ Hd). by replace (S (Z.to_nat i)) with (Z.to_nat (i + 1)) by lia.
  - apply lookup_ge_None in Hd. rewrite (drop_ge _ _ Hd). by destruct fuel.
Qed.

(** [tmpfs_getdents] enumerates the directory. For a directory of the tree
    and any offset it returns 0 with exactly the entries of the listing
    (itself, its parent, then each child once) that follow the offset, as many
    as whole entries fit the buffer, with the byte count, and changes nothing;
    the [d_off] of every entry is the offset at which the next call goes on. *)
Theorem tmpfs_getdents_spec p v np l size offset (w : W) :
  tree_ok w -> tree_node w p v np l -> S_ISDIR (vn_type v) = true -> 0 <= offset -> 0 <= size ->
  Z.of_nat (length l) + 3 < 2 ^ 64 ->
  let found := take (Z.to_nat (size / sizeof_dirent))
    (drop (Z.to_nat offset) (listing (t_nodes (k_fs w)) p np l)) in
  tmpfs_getdents p true size offset w = Ok ((0, (found, Some (Z.of_nat (length found) * sizeof_dirent))), w) /\
  forall i d, found !! i = Some d -> d_off d = offset + Z.of_nat i + 1.
Proof.
  intros Hw Hn Hd Ho Hsize Hl found. split.
  - pose proof Hn as (Hv & Hnp & Hs & Hlk).
    destruct (ok_vnode _ Hw _ _ Hnp) as (fs & f & v' & Hv' & Hvo & Hvp & _). assert (v' = v) as -> by congruence.
    unfold tmpfs_getdents. cbn [negb].
    rewrite (from_vnode_bind _ _ _ _ Hv), (get_vnode_bind _ _ _ _ Hv), Hvp, Hd. cbn [negb].
    destruct (Z.eqb_spec (size / sizeof_dirent) 0) as [E0|E0].
    { unfold found. by rewrite E0. }
    rewrite (lock_bind _ _ _ Hlk). set (w1 := set_locks _ w).
    assert (getdents_loop (Z.to_nat (size / sizeof_dirent)) p offset w1 = Ok (found, w1)) as Hloop.
    { apply (getdents_loop_ok _ p np l offset w1); try done. by apply tree_ok_locks. }
    rewrite (st_bind_ok _ _ _ _ _ Hloop). rewrite (unlock_bind (LNode p) (k_locks w)) by done.
    unfold w1. by rewrite set_locks_id.
  - intros i d Hi. unfold found in Hi. apply lookup_take_Some in Hi as [Hi _]. rewrite lookup_drop in Hi.
    apply listing_offsets in Hi. lia.
Qed.
End spec.

(** ** Every operation keeps the tree *)

Lemma grow_loop_inv fuel c0 size c : 0 <= c0 < 2 ^ 64 -> grow_loop fuel c0 size = Ok c -> size <= c < 2 ^ 64.
Proof.
  revert c0. induction fuel as [|fuel IH]; intros c0 Hc0; simpl; destruct (Z.ltb_spec c0 size); simpl; try done.
  - intros [= <-]. lia.
  - apply IH. apply u64_range.
  - intros [= <-]. lia.
Qed.

Section calm.
Context {E : Type} `{KenvLaws E}.
Abbreviation W := (world E tmpfs).

(** No node, vnode or live object changes: only locks, the clock and the like. *)
Definition calm (w w' : W) : Prop := k_vnodes w' = k_vnodes w /\ k_fs w' = k_fs w /\
  env_live (k_env w') = env_live (k_env w).
(** No vnode or live object changes. *)
Definition quiet (w w' : W) : Prop := k_vnodes w' = k_vnodes w /\
  env_live (k_env w') = env_live (k_env w).
(** The reference counts are kept, on a heap in order. *)
Definition counts_kept (w w' : W) : Prop := heap_ok w -> keeps w w'.

#[export] Instance calm_preorder : PreOrder calm.
Proof.
  split; [done|]. intros a b c (H1 & H2 & H3) (H4 & H5 & H6). unfold calm. split_and!; by etrans.
Qed.
#[export] Instance quiet_preorder : PreOrder quiet.
Proof. split; [done|]. intros a b c (H1 & H2) (H3 & H4). unfold quiet. split_and!; by etrans. Qed.
#[export] Instance counts_kept_preorder : PreOrder counts_kept.
Proof.
  split; [intros w _; apply keeps_refl|]. intros a b c H1 H2 Ho. specialize (H1 Ho).
  eapply keeps_trans; [exact H1|]. apply H2. by apply H1.
Qed.

Lemma calm_quiet {A} (m : ST W A) : preserves calm m -> preserves quiet m.
Proof. apply preserves_weaken. by intros w w' (? & _ & ?). Qed.

Lemma quiet_kept {A} (m : ST W A) : preserves quiet m -> preserves counts_kept m.
Proof.
  apply preserves_weaken. intros w w' [Hv He] Ho. split.
  - unfold heap_ok. by rewrite Hv, He.
  - intros a. left. unfold refs. by rewrite Hv.
Qed.

Lemma calm_tree_ok w w' : calm w w' -> tree_ok w -> tree_ok w'.
Proof.
  intros (Hv & Hf & He) [H1 H2 H3 H4 H5 H6 H7 H8].
  split; unfold heap_ok, count_of, total_of, vnode_part in *; rewrite ?Hv, ?Hf, ?He; done.
Qed.

Lemma lock_calm l : preserves calm (mutex_lock l).
Proof. intros w a w'. unfold mutex_lock. case_decide; intros; by simplify_eq. Qed.
Lemma unlock_calm l : preserves calm (mutex_unlock l).
Proof. intros w a w'. unfold mutex_unlock. intros; by simplify_eq. Qed.
Lemma get_vnode_calm a : preserves calm (get_vnode a).
Proof. intros w v w'. unfold get_vnode. case_match; intros; by simplify_eq. Qed.
Lemma get_node_calm a : preserves calm (get_node a).
Proof. intros w v w'. unfold get_node. case_match; intros; by simplify_eq. Qed.
Lemma get_fs_calm a : preserves calm (get_fs a).
Proof. intros w v w'. unfold get_fs. case_match; intros; by simplify_eq. Qed.
Lemma buffer_calm n : preserves calm (buffer n).
Proof.
  intros w v w'. unfold buffer. destruct (env_buffer n (k_env w)) as [b e] eqn:Hb. intros; simplify_eq.
  split; [done|]. split; [done|]. by eapply env_buffer_live.
Qed.
Lemma uptime_calm : preserves calm uptime_us.
Proof.
  intros w v w'. unfold uptime_us. destruct (env_uptime (k_env w)) as [b e] eqn:Hb. intros; simplify_eq.
  split; [done|]. split; [done|]. by eapply env_uptime_live.
Qed.
Lemma need_calm p : preserves calm (need p).
Proof. apply preserves_lift, _. Qed.
Lemma put_node_quiet a n : preserves quiet (put_node a n).
Proof. by apply preserves_modify. Qed.
Lemma put_fs_quiet a n : preserves quiet (put_fs a n).
Proof. by apply preserves_modify. Qed.
#[local] Hint Resolve lock_calm unlock_calm get_vnode_calm get_node_calm get_fs_calm buffer_calm
  uptime_calm need_calm calm_quiet put_node_quiet put_fs_quiet : preserves.

Lemma now_calm : preserves calm tmpfs_now.
Proof. unfold tmpfs_now. preserves. Qed.
Lemma from_vnode_calm a : preserves calm (tmpfs_from_vnode a).
Proof. unfold tmpfs_from_vnode. preserves. Qed.
Lemma node_fuel_calm : preserves calm node_fuel.
Proof. apply preserves_gets, _. Qed.
#[local] Hint Resolve now_calm from_vnode_calm node_fuel_calm : preserves.

Lemma find_child_calm p name : preserves calm (tmpfs_find_child p name).
Proof.
  assert (forall fuel c, preserves calm (find_child_loop fuel c name)) as Hl.
  { induction fuel as [|fuel IH]; intros [c|]; cbn [find_child_loop]; preserves. }
  unfold tmpfs_find_child. preserves.
Qed.
Lemma child_at_calm p i : preserves calm (tmpfs_child_at p i).
Proof.
  assert (forall fuel c i, preserves calm (child_at_loop fuel c i)) as Hl.
  { induction fuel as [|fuel IH]; intros [c|] j; cbn [child_at_loop]; preserves. }
  unfold tmpfs_child_at. preserves.
Qed.
#[local] Hint Resolve find_child_calm child_at_calm : preserves.

Lemma getdents_calm a buf size offset : preserves calm (tmpfs_getdents a buf size offset).
Proof.
  assert (forall d i, preserves calm (dirent_at d i)) as Hd by (intros d i; unfold dirent_at; preserves).
  assert (forall fuel d i, preserves calm (getdents_loop fuel d i)) as Hl.
  { induction fuel as [|fuel IH]; intros d i; cbn [getdents_loop]; preserves. }
  unfold tmpfs_getdents. preserves.
Qed.

Lemma lookup_calm a name : preserves calm (tmpfs_lookup a name).
Proof. unfold tmpfs_lookup. preserves. Qed.

Lemma upd_node_quiet a g : preserves quiet (upd_node a g).
Proof. unfold upd_node. preserves. Qed.
Lemma upd_fs_quiet a g : preserves quiet (upd_fs a g).
Proof. unfold upd_fs. preserves. Qed.
#[local] Hint Resolve upd_node_quiet upd_fs_quiet : preserves.

Lemma open_quiet a flags : preserves quiet (tmpfs_open a flags).
Proof. unfold tmpfs_open, account. preserves. Qed.

Lemma link_quiet p c : preserves quiet (tmpfs_link_child p c).
Proof. unfold tmpfs_link_child. preserves. Qed.

(** A new vnode is put at a fresh address, with one reference. *)
Lemma alloc_node_kept fs parent name type mode : preserves counts_kept (tmpfs_alloc_node fs parent name type mode).
Proof.
  intros w r w' Hr Ho. unfold tmpfs_alloc_node in Hr.
  destruct (env_alloc sizeof_tmpfs_node (k_env w)) as [[c|] e1] eqn:Ha; rewrite (alloc_bind _ _ _ _ _ Ha) in Hr.
  2:{ apply st_ret_inv in Hr as [_ ->]. split; [|by left]. intros _. unfold heap_ok. simpl.
      by rewrite (env_alloc_none _ _ _ Ha). }
  destruct (env_alloc_some _ _ _ _ Ha) as [Hc Hl].
  apply st_bind_inv in Hr as (dup & w2 & Hd & Hr).
  assert (calm (set_env e1 w) w2) as (Hv2 & _ & He2).
  { assert (preserves calm (tmpfs_strdup name)) as Hs by (unfold tmpfs_strdup; preserves). by eapply Hs. }
  simpl in Hv2, He2. assert (k_vnodes w !! c = None) as Hfresh.
  { destruct (k_vnodes w !! c) eqn:Hx; [|done]. exfalso. apply Hc, Ho. by eapply elem_of_dom_2. }
  destruct dup as [name'|].
  - rewrite modify_bind in Hr. set (w3 := set_vnodes _ w2) in Hr.
    assert (preserves quiet (f ← get_fs fs;
          put_fs fs (mk_tfs (fs_root f) (u64 (fs_next_inode f + 1)) (fs_node_count f) (fs_byte_count f)) ;;
          now ← tmpfs_now;
          put_node c (mk_tnode parent None None name' [] 0 0
            (Z.lor (Z.ldiff mode S_IFMT) (Z.land type S_IFMT)) (fs_next_inode f) now now now) ;;
          upd_fs fs (fun f => mk_tfs (fs_root f) (fs_next_inode f) (u64 (fs_node_count f + 1)) (fs_byte_count f)) ;;
          mret (Some c))) as Hq by preserves.
    destruct (Hq _ _ _ Hr) as [Hv' He']. split.
    + intros _. unfold heap_ok. rewrite He', Hv'. cbn [w3 k_vnodes k_env set_vnodes].
      rewrite He2, Hl, Hv2, dom_insert_L. unfold heap_ok in Ho. set_solver.
    + intros a. unfold refs. rewrite Hv'. cbn [w3 k_vnodes set_vnodes]. rewrite Hv2.
      destruct (decide (a = c)) as [->|Hne].
      * right. rewrite lookup_insert_eq, Hfresh. done.
      * left. by rewrite lookup_insert_ne by done.
  - unfold release in Hr. apply st_bind_inv in Hr as (u & w3 & Hrel & Hr).
    apply st_ret_inv in Hr as [_ ->]. simplify_eq. split.
    + intros _. unfold heap_ok; simpl. rewrite env_free_live, He2, Hl, Hv2.
      unfold heap_ok in Ho. apply not_elem_of_dom in Hfresh. set_solver.
    + intros a. left. unfold refs; simpl. by rewrite Hv2.
Qed.

Lemma create_kept p name attr type : preserves counts_kept (tmpfs_create p name attr type).
Proof.
  pose proof alloc_node_kept. pose proof link_quiet.
  assert (forall l, preserves counts_kept (mutex_lock l)) by (intros; apply quiet_kept; preserves).
  assert (forall l, preserves counts_kept (mutex_unlock l)) by (intros; apply quiet_kept; preserves).
  assert (forall a, preserves counts_kept (tmpfs_from_vnode a)) by (intros; apply quiet_kept; preserves).
  assert (forall a, preserves counts_kept (get_vnode a)) by (intros; apply quiet_kept; preserves).
  assert (forall p, preserves counts_kept (need p)) by (intros; apply quiet_kept; preserves).
  assert (forall a n, preserves counts_kept (tmpfs_find_child a n)) by (intros; apply quiet_kept; preserves).
  assert (forall a n, preserves counts_kept (tmpfs_link_child a n)) by (intros; by apply quiet_kept).
  unfold tmpfs_create. preserves.
Qed.
End calm.

Section preserve.
Context {E : Type} `{KenvLaws E}.
Abbreviation W := (world E tmpfs).

Lemma resize_any fs node size n f (w w' : W) rc : t_nodes (k_fs w) !! node = Some n ->
  t_fss (k_fs w) !! fs = Some f -> data_ok n -> 0 <= size -> tmpfs_resize_node fs node size w = Ok (rc, w') ->
  exists e, env_live e = env_live (k_env w) /\
    ((rc = 0 /\ exists d cap, data_ok (set_contents d cap size n) /\ w' = with_files
        (<[node := set_contents d cap size n]> (t_nodes (k_fs w)))
        (<[fs := counted (size - n_size n) f]> (t_fss (k_fs w))) e w) \/
     (rc = -1 /\ w' = set_env e w)).
Proof.
  intros Hn Hf Hok Hs Hr.
  assert (size <= n_capacity n \/ exists c, grow_loop 64 (if n_capacity n =? 0 then 64 else n_capacity n) size = Ok c
    /\ size <= c < 2 ^ 64 /\ n_capacity n <= c) as Hgrow.
  { destruct (Z.le_gt_cases size (n_capacity n)) as [|Hgt]; [by left|right].
    unfold tmpfs_resize_node in Hr. rewrite (st_bind_ok _ _ _ _ _ (get_node_ok _ _ _ Hn)) in Hr.
    rewrite (proj2 (Z.leb_gt _ _)) in Hr by lia. step Hr. unfold st_lift in Ha.
    destruct (grow_loop 64 _ size) as [c| | |] eqn:Hg; try done. exists c. split; [done|].
    apply grow_loop_inv in Hg; [lia|]. destruct Hok as (? & ? & ?). destruct (Z.eqb_spec (n_capacity n) 0); lia. }
  destruct (resize_grown fs node size n f w Hn Hf Hok Hs Hgrow) as (e & He & Hcase).
  exists e. split.
  { destruct He as [->|(c & b & Hb)]; [done|]. by eapply env_buffer_live. }
  destruct Hcase as [(d & cap & Hok' & _ & Hr')|(_ & _ & Hr')]; rewrite Hr' in Hr.
  - left. split; [congruence|]. exists d, cap. split; [done|]. congruence.
  - right. split; congruence.
Qed.

Lemma now_inv (w : W) t w' : tmpfs_now w = Ok (t, w') -> exists e, w' = set_env e w /\ env_live e = env_live (k_env w).
Proof.
  intros Hr. destruct (tmpfs_now_ok w) as (t' & e & Ht & Hu). rewrite Ht in Hr. exists e.
  split; [congruence|]. by eapply env_uptime_live.
Qed.

Lemma lock_inv l (w : W) u w' : mutex_lock l w = Ok (u, w') -> (l ∉ k_locks w) /\ w' = set_locks (l :: k_locks w) w.
Proof. unfold mutex_lock. destruct (decide (l ∈ k_locks w)); [done|]. intros. by simplify_eq. Qed.

Lemma from_vnode_inv a (w : W) p w' : tmpfs_from_vnode a w = Ok (p, w') ->
  exists v, k_vnodes w !! a = Some v /\ p = vn_private v /\ w' = w.
Proof.
  intros Hr. unfold tmpfs_from_vnode in Hr. step Hr. apply get_vnode_inv in Ha as [Hv ->].
  apply st_ret_inv in Hr as [-> ->]. eauto.
Qed.

Lemma upd_node_inv a g (w : W) n u w' : t_nodes (k_fs w) !! a = Some n -> upd_node a g w = Ok (u, w') ->
  w' = set_fs (mk_tmpfs (<[a := g n]> (t_nodes (k_fs w))) (t_fss (k_fs w))) w.
Proof. intros Hn Hr. rewrite (upd_node_ok _ _ _ _ Hn) in Hr. congruence. Qed.

(** The effect of a write that returns. *)
Lemma tmpfs_write_inv a n buf size offset flags (w w' : W) r : tree_ok w -> t_nodes (k_fs w) !! a = Some n ->
  tmpfs_write a buf size offset flags w = Ok (r, w') ->
  exists e, env_live e = env_live (k_env w) /\
   (w' = set_env e w \/
    exists n' fs f, vnode_part w a n fs f /\ same_meta n n' /\ data_ok n' /\
      w' = with_files (<[a := n']> (t_nodes (k_fs w)))
        (<[fs := counted (n_size n' - n_size n) f]> (t_fss (k_fs w))) e w).
Proof.
  intros Hw Hn Hr. pose proof (ok_data _ Hw _ _ Hn) as Hok.
  destruct (ok_vnode _ Hw _ _ Hn) as (fs & f & Hpart). pose proof Hpart as (v & Hv & _ & Hp & Hvf & _ & Hf & _).
  assert (set_env (k_env w) w = w) as Hid by by destruct w.
  unfold tmpfs_write in Hr. destruct (match buf with None => _ | Some _ => _ end).
  { apply st_ret_inv in Hr as [_ ->]. exists (k_env w). split; [done|]. by left. }
  rewrite (from_vnode_bind _ _ _ _ Hv), (get_vnode_bind _ _ _ _ Hv), Hp in Hr.
  destruct (negb (S_ISREG (vn_type v))).
  { apply st_ret_inv in Hr as [_ ->]. exists (k_env w). split; [done|]. by left. }
  rewrite Hvf, need_bind in Hr. step Hr. rename a0 into off.
  assert (w0 = w) as ->.
  { destruct (has_bits flags O_APPEND); [|by apply st_ret_inv in Ha as [_ ->]].
    rewrite (st_bind_ok _ _ _ _ _ (get_node_ok _ _ _ Hn)) in Ha. by apply st_ret_inv in Ha as [_ ->]. }
  step Hr. apply lock_inv in Ha0 as [Hlk ->]. set (w1 := set_locks _ w) in Hr.
  step Hr. destruct (resize_any fs a (u64 (off + size)) n f w1 _ _ Hn Hf Hok (proj1 (u64_range _)) Ha0)
    as (e & He & [(-> & d & cap & Hok' & ->)|(-> & ->)]).
  2:{ change (-1 =? 0) with false in Hr. cbn [andb negb] in Hr.
      rewrite (st_bind_ok (mret tt) _ _ tt _ eq_refl), (st_bind_ok (mret tt) _ _ tt _ eq_refl) in Hr.
      rewrite (unlock_bind (LSize a) (k_locks w)) in Hr by done. apply st_ret_inv in Hr as [_ ->].
      exists e. split; [done|left]. by destruct w. }
  set (n1 := set_contents d cap (u64 (off + size)) n) in *. set (w2 := with_files _ _ e w1) in Hr.
  apply st_bind_inv in Hr as (u1 & wa & Ha1 & Hr).
  assert (exists n2, same_meta n n2 /\ data_ok n2 /\ n_size n2 = n_size n1 /\
    wa = with_files (<[a := n2]> (t_nodes (k_fs w1))) (<[fs := counted (n_size n1 - n_size n) f]> (t_fss (k_fs w1))) e w1)
    as (n2 & Hm2 & Hok2 & Hs2 & ->).
  { assert (t_nodes (k_fs w2) !! a = Some n1) as Hn1 by apply lookup_insert_eq.
    destruct ((0 =? 0) && negb (size =? 0)).
    - apply st_bind_inv in Ha1 as (x & wb & Hx & Ha1). unfold st_lift in Hx.
      destruct (get_bytes 0 size (default [] buf)) as [y| | |]; try done.
      assert (wb = w2) as -> by congruence.
      rewrite (st_bind_ok _ _ _ _ _ (get_node_ok _ _ _ Hn1)) in Ha1.
      apply st_bind_inv in Ha1 as (d2 & wb & Hd2 & Ha1). unfold st_lift in Hd2.
      destruct (put_bytes off x (n_data n1)) as [d'| | |] eqn:Hput; try done.
      assert (wb = w2 /\ d' = d2) as [-> ->] by (split; congruence).
      apply (upd_node_inv _ _ _ n1) in Ha1; [|done]. exists (set_data d2 n1).
      split; [by split_and!|]. split.
      { apply put_bytes_length in Hput. destruct Hok' as (? & ? & Hl). split; [done|]. split; [done|].
        simpl in *. lia. }
      split; [done|]. rewrite Ha1. unfold w2, with_files, set_fs; simpl. by rewrite insert_insert_eq.
    - apply st_ret_inv in Ha1 as [_ ->]. exists n1. by split_and!. }
  change (0 =? 0) with true in Hr. cbn [negb] in Hr. set (w3 := with_files _ _ e w1) in Hr.
  apply st_bind_inv in Hr as (u2 & wb & Ha2 & Hr). apply st_bind_inv in Ha2 as (now & wc & Ha3 & Ha2).
  apply now_inv in Ha3 as (e' & -> & He').
  apply (upd_node_inv _ _ _ n2) in Ha2; [|apply lookup_insert_eq]. rewrite Ha2 in Hr.
  rewrite (unlock_bind (LSize a) (k_locks w)) in Hr by done. apply st_ret_inv in Hr as [_ ->].
  exists e'. split; [by rewrite He'|]. right. exists (touch now n2), fs, f. split; [done|].
  split; [exact Hm2|]. split; [exact Hok2|].
  unfold w3, w1, with_files, set_fs, set_env, set_locks; simpl. rewrite insert_insert_eq. by rewrite Hs2.
Qed.

Lemma tree_ok_touched (w : W) a n n' e : tree_ok w -> t_nodes (k_fs w) !! a = Some n -> same_meta n n' ->
  data_ok n' -> n_size n' = n_size n -> env_live e = env_live (k_env w) ->
  tree_ok (with_files (<[a := n']> (t_nodes (k_fs w))) (t_fss (k_fs w)) e w).
Proof.
  intros Hw Hn Hm Hok Hs He. destruct (ok_vnode _ Hw _ _ Hn) as (fs & f & Hpart).
  pose proof (tree_ok_file w a n n' fs f e Hw Hn Hpart Hm Hok He) as Hk.
  destruct Hpart as (v & _ & _ & _ & _ & _ & Hf & _).
  assert (counted (n_size n' - n_size n) f = f) as Hcf.
  { destruct f as [r ni nc bc]. unfold counted. simpl. f_equal. rewrite Hs, Z.sub_diag, Z.add_0_r.
    destruct (ok_counts _ Hw _ _ Hf) as [_ Hb]. simpl in Hb. rewrite Hb. apply u64_small, u64_range. }
  rewrite Hcf, (insert_id (t_fss (k_fs w)) fs f Hf) in Hk. exact Hk.
Qed.

Lemma tmpfs_read_keeps a n buf size offset flags (w w' : W) r : tree_ok w -> t_nodes (k_fs w) !! a = Some n ->
  tmpfs_read a buf size offset flags w = Ok (r, w') -> tree_ok w'.
Proof.
  intros Hw Hn Hr. unfold tmpfs_read in Hr. destruct buf as [b|]; [|by apply st_ret_inv in Hr as [_ ->]].
  destruct (ok_vnode _ Hw _ _ Hn) as (fs & f & v & Hv & _ & Hp & Hvf & _ & Hf & _).
  rewrite (from_vnode_bind _ _ _ _ Hv), (get_vnode_bind _ _ _ _ Hv), Hp in Hr.
  destruct (negb (S_ISREG (vn_type v))); [by apply st_ret_inv in Hr as [_ ->]|].
  apply st_bind_inv in Hr as (u & w1 & Hl & Hr). apply lock_inv in Hl as [Hlk ->].
  set (w1 := set_locks _ w) in Hr. assert (t_nodes (k_fs w1) !! a = Some n) as Hn1 by done.
  rewrite (st_bind_ok _ _ _ _ _ (get_node_ok _ _ _ Hn1)) in Hr.
  apply st_bind_inv in Hr as (x & w2 & Hx & Hr).
  assert (w2 = w1) as ->.
  { destruct (n_size n <=? offset); [by apply st_ret_inv in Hx as [_ ->]|].
    apply st_bind_inv in Hx as (y & w3 & Hy & Hx). apply st_bind_inv in Hx as (z & w4 & Hz & Hx).
    apply st_ret_inv in Hx as [_ ->]. unfold st_lift in Hy, Hz.
    destruct (get_bytes _ _ _); try done. destruct (put_bytes _ _ _); try done. congruence. }
  apply st_bind_inv in Hr as (now & w2 & Ht & Hr). apply now_inv in Ht as (e & -> & He).
  rewrite (upd_node_bind a n) in Hr by done. rewrite (unlock_bind (LSize a) (k_locks w)) in Hr by done.
  apply st_ret_inv in Hr as [_ ->].
  apply (tree_ok_touched w a n (set_atime now n) e Hw Hn); [by split_and!|exact (ok_data _ Hw _ _ Hn)|done|exact He].
Qed.

Lemma tmpfs_open_keeps a n flags (w w' : W) r : tree_ok w -> t_nodes (k_fs w) !! a = Some n ->
  tmpfs_open a flags w = Ok (r, w') -> tree_ok w'.
Proof.
  intros Hw Hn Hr. unfold tmpfs_open in Hr.
  destruct (negb (tmpfs_open_flags_valid flags)); [by apply st_ret_inv in Hr as [_ ->]|].
  destruct (ok_vnode _ Hw _ _ Hn) as (fs & f & Hpart). pose proof Hpart as (v & Hv & _ & Hp & Hvf & _ & Hf & _).
  rewrite (get_vnode_bind _ _ _ _ Hv) in Hr.
  destruct (has_bits flags O_DIRECTORY && _); [by apply st_ret_inv in Hr as [_ ->]|].
  destruct (S_ISDIR (vn_type v) && _); [by apply st_ret_inv in Hr as [_ ->]|].
  apply st_bind_inv in Hr as (u & w2 & Ht & Hr). apply st_ret_inv in Hr as [_ ->].
  destruct (has_bits flags O_TRUNC && _ && _); [|by apply st_ret_inv in Ht as [_ ->]].
  rewrite Hp, Hvf, !need_bind in Ht. apply st_bind_inv in Ht as (u1 & w1 & Hl & Ht).
  apply lock_inv in Hl as [Hlk ->]. set (w1 := set_locks _ w) in Ht.
  assert (t_nodes (k_fs w1) !! a = Some n) as Hn1 by done.
  rewrite (st_bind_ok _ _ _ _ _ (get_node_ok _ _ _ Hn1)), (account_upd_ok fs a f n) in Ht by done.
  apply st_bind_inv in Ht as (now & w3 & Hnow & Ht). apply now_inv in Hnow as (e & -> & He).
  rewrite (upd_node_bind a (set_size 0 n)) in Ht by apply lookup_insert_eq.
  rewrite (mutex_unlock_ok _ _ (k_locks w)) in Ht by done.
  pose proof (ok_data _ Hw _ _ Hn) as (? & ? & ?).
  assert (w2 = with_files (<[a := touch now (set_size 0 n)]> (t_nodes (k_fs w)))
    (<[fs := counted (n_size (touch now (set_size 0 n)) - n_size n) f]> (t_fss (k_fs w))) e w) as ->.
  { match type of Ht with Ok (_, ?x) = _ => assert (w2 = x) as -> by congruence end.
    unfold with_files, set_fs, set_env, set_locks, w1; simpl. by rewrite insert_insert_eq. }
  apply tree_ok_file; [done|done|done|by split_and!| |exact He].
  unfold data_ok. simpl. lia.
Qed.

End preserve.
