(* ===== verification/TmpfsVfs.v ===== *)
(** The in-memory file system under the virtual one: it keeps the promises of
    the vnode interface, mounting it starts a well-formed tree, and paths are
    resolved along its directories. *)
From S2P Require Import Prelude Kenv Vfs Tmpfs TmpfsDir.

Section laws.
Context {E : Type} `{KenvLaws E}.
Abbreviation W := (world E tmpfs).

Lemma tmpfs_open_same n flags (w w' : W) r : tmpfs_open n flags w = Ok (r, w') -> r.2 = Some n.
Proof.
  unfold tmpfs_open. intros Hr.
  destruct (negb (tmpfs_open_flags_valid flags)); [by apply st_ret_inv in Hr as [-> _]|].
  step Hr. destruct (has_bits flags O_DIRECTORY && _); [by apply st_ret_inv in Hr as [-> _]|].
  destruct (S_ISDIR (vn_type a) && _); [by apply st_ret_inv in Hr as [-> _]|].
  step Hr. by apply st_ret_inv in Hr as [-> _].
Qed.

Lemma tmpfs_table_only o : vops_of (E := E) o = tmpfs_vops \/ vops_of (E := E) o = no_vops.
Proof. cbn [vops_of tmpfs_table]. destruct (o =? tmpfs_vops_addr); auto. Qed.

(** The file system keeps the promises that the virtual file system needs. *)
#[export] Instance tmpfs_laws : FsLaws (E := E) (F := tmpfs).
Proof.
  split; intros o f; destruct (tmpfs_table_only o) as [->| ->]; intros; simplify_eq/=.
  - split; [by eapply tmpfs_open_same|]. eapply (quiet_kept _ (open_quiet _ _)); eauto.
  - apply st_ret_inv in H3 as [_ ->]. apply keeps_refl.
  - eapply (quiet_kept _ (calm_quiet _ (lookup_calm _ _))); eauto.
  - eapply create_kept; eauto.
Qed.
End laws.

(** ** Paths *)

Section paths.
Context {E : Type} `{KenvLaws E}.
Abbreviation W := (world E tmpfs).

(** [b] is the entry [c] of the directory [a]. *)
Definition child (w : W) (a : Z) (c : cstr) (b : Z) : Prop := exists v l,
  k_vnodes w !! a = Some v /\ S_ISDIR (vn_type v) = true /\ dir w a l /\ dir_lookup l c = Some b.

Inductive reaches (w : W) : Z -> list cstr -> Z -> Prop :=
| reach_nil a : reaches w a [] a
| reach_cons a c b cs d : child w a c b -> reaches w b cs d -> reaches w a (c :: cs) d.

(** No vnode is covered. *)
Definition no_mounts (w : W) : Prop := forall a v, k_vnodes w !! a = Some v -> vn_mounted v = None.

(** A component that fits the buffer and is not taken for a dot. *)
Definition proper (c : cstr) : Prop := Z.of_nat (length c) < 256 /\ starts_with_dot c = false.

Definition in_tree (w : W) (a : Z) : Prop := is_Some (t_nodes (k_fs w) !! a).

Record idle (w : W) : Prop := {
  idle_ok : tree_ok w;
  idle_mounts : no_mounts w;
  idle_locks : k_locks w = [] }.

Lemma child_unique w a c b b' : child w a c b -> child w a c b' -> b = b'.
Proof.
  intros (v & l & _ & _ & (n & Hn & Hs) & Hl) (v' & l' & _ & _ & (n' & Hn' & Hs') & Hl').
  assert (n' = n) as -> by congruence. rewrite (siblings_unique _ _ _ _ Hs Hs') in Hl. congruence.
Qed.

Lemma reaches_unique w a cs d d' : reaches w a cs d -> reaches w a cs d' -> d = d'.
Proof.
  intros Hr. revert d'. induction Hr as [a|a c b cs d Hc Hr IH]; intros d' Hr'; inversion Hr'; subst; [done|].
  apply IH. by erewrite (child_unique w a c b).
Qed.

Lemma child_in_tree w a c b : tree_ok w -> child w a c b -> in_tree w b.
Proof.
  intros Hw (v & l & _ & _ & Hd & Hl). apply dir_lookup_in in Hl.
  destruct (proj2 (ok_dir_entries _ _ _ Hw Hd) _ _ Hl) as (_ & _ & n & Hn & _). by exists n.
Qed.

Lemma reaches_in_tree w a cs d : tree_ok w -> in_tree w a -> reaches w a cs d -> in_tree w d.
Proof. intros Hw Ha Hr. induction Hr; [done|]. apply IHHr. by eapply child_in_tree. Qed.

(** What is known of a node of an idle tree. *)
Lemma in_tree_node w a : idle w -> in_tree w a -> exists v np l,
  tree_node w a v np l /\ vn_ops v = Some tmpfs_vops_addr /\ vn_mounted v = None.
Proof.
  intros [Hw Hm Hl] [n Hn]. destruct (ok_vnode _ Hw _ _ Hn) as (fs & f & v & Hv & Ho & _).
  destruct (ok_dir _ Hw _ _ Hn) as (l & Hs & _). exists v, n, l. split; [|split; [done|by eapply Hm]].
  split_and!; try done. rewrite Hl. apply not_elem_of_nil.
Qed.

Lemma follow_in_tree w a : idle w -> in_tree w a -> vfs_follow_mounts (Some a) w = Ok (Some a, w).
Proof.
  intros Hi Ha. destruct (in_tree_node w a Hi Ha) as (v & np & l & (Hv & _) & _ & Hm).
  unfold vfs_follow_mounts. destruct (size (k_vnodes w)); cbn [follow_loop];
    by rewrite (get_vnode_bind _ _ _ _ Hv), Hm.
Qed.

(** One component. *)
Lemma lookup_child w a c : idle w -> in_tree w a -> starts_with_dot c = false ->
  (exists b, child w a c b /\ tmpfs_lookup a c w = Ok ((0, Some b), w)) \/
  ((forall b, ~ child w a c b) /\ tmpfs_lookup a c w = Ok ((-1, None), w)).
Proof.
  intros Hi Ha Hc. destruct (in_tree_node w a Hi Ha) as (v & np & l & Hn & _ & _).
  rewrite (tmpfs_lookup_ok _ _ _ _ c _ (idle_ok _ Hi) Hn). unfold lookup_result.
  rewrite !decide_False by (intros ->; discriminate Hc).
  pose proof Hn as (Hv & Hnp & Hs & _). assert (dir w a l) as Hd by by exists np.
  assert (forall b, child w a c b -> S_ISDIR (vn_type v) = true /\ dir_lookup l c = Some b) as Hinv.
  { intros b (v' & l' & Hv' & Ht & (n' & Hn' & Hs') & Hl'). assert (n' = np /\ v' = v) as [-> ->] by (split; congruence).
    by rewrite (siblings_unique _ _ _ _ Hs Hs'). }
  destruct (S_ISDIR (vn_type v)) eqn:Ht.
  - destruct (dir_lookup l c) as [b|] eqn:Hl.
    + left. exists b. split; [|done]. by exists v, l.
    + right. split; [|done]. intros b Hb. destruct (Hinv b Hb). congruence.
  - right. split; [|done]. intros b Hb. destruct (Hinv b Hb). congruence.
Qed.

Lemma walk_child w a c cs lc parent : idle w -> in_tree w a -> proper c -> (parent = false \/ cs <> []) ->
  (exists b, child w a c b /\ walk (c :: cs) a lc parent w =
     match cs with
     | [] => (vnode_hold (Some b) ;; mret (0, (Some b, None))) w
     | _ => walk cs b lc parent w
     end) \/
  ((forall b, ~ child w a c b) /\ walk (c :: cs) a lc parent w = Ok (failed, w)).
Proof.
  intros Hi Ha [Hlen Hdot] Hp. cbn [walk]. rewrite (proj2 (Z.leb_gt _ _)) by lia.
  assert (parent && match cs with [] => true | _ => false end = false) as ->.
  { destruct Hp as [->|Hp]; [done|]. destruct cs; [done|]. apply andb_false_r. }
  rewrite Hdot. destruct (in_tree_node w a Hi Ha) as (v & np & l & (Hv & _) & Ho & _).
  rewrite (get_vnode_bind _ _ _ _ Hv), Ho.
  change (Some tmpfs_vops_addr ≫= fun o => op_lookup (vops_of (E := E) o)) with (Some (tmpfs_lookup (E := E))).
  destruct (lookup_child w a c Hi Ha Hdot) as [(b & Hb & Hr)|(Hb & Hr)]; rewrite (st_bind_ok _ _ _ _ _ Hr).
  - left. exists b. split; [done|]. cbn [fst snd negb]. change (0 =? 0) with true. cbn [negb].
    rewrite (st_bind_ok _ _ _ _ _ (follow_in_tree w b Hi (child_in_tree _ _ _ _ (idle_ok _ Hi) Hb))).
    by destruct cs.
  - right. by split.
Qed.

Lemma walk_tree w a cs lc : idle w -> in_tree w a -> Forall proper cs -> cs <> [] ->
  (exists d, reaches w a cs d /\ walk cs a lc false w = (vnode_hold (Some d) ;; mret (0, (Some d, None))) w) \/
  ((forall d, ~ reaches w a cs d) /\ walk cs a lc false w = Ok (failed, w)).
Proof.
  intros Hi. revert a. induction cs as [|c cs IH]; intros a Ha Hp Hne; [done|].
  apply Forall_cons in Hp as [Hc Hp].
  destruct (walk_child w a c cs lc false Hi Ha Hc (or_introl eq_refl)) as [(b & Hb & ->)|(Hb & ->)].
  - pose proof (child_in_tree _ _ _ _ (idle_ok _ Hi) Hb) as Hbt. destruct cs as [|c' cs].
    + left. exists b. split; [|done]. eapply reach_cons; [done|constructor].
    + destruct (IH b Hbt Hp) as [(d & Hd & ->)|(Hd & ->)]; [done| |].
      * left. exists d. split; [|done]. by eapply reach_cons.
      * right. split; [|done]. intros d Hr. inversion Hr; subst.
        apply (Hd d). by erewrite (child_unique w a c b).
  - right. split; [|done]. intros d Hr. inversion Hr; subst. by eapply Hb.
Qed.

Lemma walk_tree_parent w a cs c : idle w -> in_tree w a -> Forall proper cs -> Z.of_nat (length c) < 256 ->
  (exists d, reaches w a cs d /\
     walk (cs ++ [c]) a true true w = (vnode_hold (Some d) ;; mret (0, (Some d, Some c))) w) \/
  ((forall d, ~ reaches w a cs d) /\ walk (cs ++ [c]) a true true w = Ok (failed, w)).
Proof.
  intros Hi. revert a. induction cs as [|x cs IH]; intros a Ha Hp Hc.
  - left. exists a. split; [constructor|]. cbn [app walk]. by rewrite (proj2 (Z.leb_gt _ _)) by lia.
  - apply Forall_cons in Hp as [Hx Hp].
    destruct (walk_child w a x (cs ++ [c]) true true Hi Ha Hx) as [(b & Hb & Hw)|(Hb & Hw)].
    { right. by destruct cs. }
    + pose proof (child_in_tree _ _ _ _ (idle_ok _ Hi) Hb) as Hbt.
      assert (walk ((x :: cs) ++ [c]) a true true w = walk (cs ++ [c]) b true true w) as ->.
      { cbn [app]. rewrite Hw. by destruct cs. }
      destruct (IH b Hbt Hp Hc) as [(d & Hd & ->)|(Hd & ->)].
      * left. exists d. split; [|done]. by eapply reach_cons.
      * right. split; [|done]. intros d Hr. inversion Hr; subst.
        apply (Hd d). by erewrite (child_unique w a x b).
    + right. split; [|done]. intros d Hr. inversion Hr; subst. by eapply Hb.
Qed.

(** The vnode where the resolution of a path starts. *)
Definition start_of (w : W) (start : ptr) (path : cstr) : ptr :=
  if vfs_is_absolute_path path then k_vfsroot w else start.

Lemma resolve_tree w start path lc flags a : idle w -> in_tree w a -> start_of w start path = Some a ->
  path_components path <> [] ->
  resolve start path lc flags w = walk (path_components path) a lc (has_bits flags VFS_LOOKUP_PARENT) w.
Proof.
  intros Hi Ha Hs Hne. unfold resolve, start_of in *.
  assert ((if vfs_is_absolute_path path then gets k_vfsroot else mret start) w = Ok (Some a, w)) as Hc.
  { destruct (vfs_is_absolute_path path); [unfold gets; by rewrite Hs|by rewrite Hs]. }
  rewrite (st_bind_ok _ _ _ _ _ Hc), (st_bind_ok _ _ _ _ _ (follow_in_tree w a Hi Ha)).
  by destruct (path_components path).
Qed.

(** The world with one reference more or less to a vnode. *)
Definition with_refs (d r : Z) (v : vnode) (w : W) : W :=
  set_vnodes (<[d := vn_set_refcount r v]> (k_vnodes w)) w.

(** Paths resolve along the directories. In a well-formed tree with no
    mounts and no lock held, for a path of proper components (short enough, not
    starting with a dot), [vfs_lookup] returns the node that the entries of the
    directories lead to from the start, with one more reference and nothing else
    changed, and -1 with nothing changed exactly when they lead nowhere. *)
Theorem vfs_path_resolves w start path lc a : idle w -> in_tree w a -> start_of w start path = Some a ->
  path_components path <> [] -> Forall proper (path_components path) ->
  (exists d v, reaches w a (path_components path) d /\ k_vnodes w !! d = Some v /\
     vfs_lookup true start (Some path) lc 0 w =
       Ok ((0, (Some d, None)), with_refs d (i32 (vn_refcount v + 1)) v w)) \/
  ((forall d, ~ reaches w a (path_components path) d) /\
     vfs_lookup true start (Some path) lc 0 w = Ok (failed, w)).
Proof.
  intros Hi Ha Hs Hne Hp. rewrite vfs_lookup_walks, (resolve_tree w start path lc 0 a) by done.
  destruct (walk_tree w a _ lc Hi Ha Hp Hne) as [(d & Hd & Hr)|(Hd & Hr)]; [left|by right].
  destruct (in_tree_node w d Hi (reaches_in_tree _ _ _ _ (idle_ok _ Hi) Ha Hd)) as (v & np & l & (Hv & _) & _).
  exists d, v. split; [done|]. split; [done|]. change (has_bits 0 VFS_LOOKUP_PARENT) with false.
  rewrite Hr. unfold vnode_hold, upd_vnode, mbind, st_bind. by rewrite Hv.
Qed.

(** ** Creating by path *)

(** Only the count of the vnode [d] differs. *)
Lemma idle_with_refs w d r v : idle w -> k_vnodes w !! d = Some v -> idle (with_refs d r v w).
Proof.
  intros [[Hl Hfs Hvn Hd Hdir Hp Hino Hc] Hm Hlk] Hv.
  assert (forall a, owner (<[d := vn_set_refcount r v]> (k_vnodes w)) a = owner (k_vnodes w) a) as Ho.
  { intros a. unfold owner. destruct (decide (a = d)) as [->|]; [by rewrite lookup_insert_eq, Hv|].
    by rewrite lookup_insert_ne by done. }
  assert (forall a x, k_vnodes w !! a = Some x -> exists y, <[d := vn_set_refcount r v]> (k_vnodes w) !! a = Some y /\
    vn_ops y = vn_ops x /\ vn_private y = vn_private x /\ vn_vfs y = vn_vfs x /\ vn_type y = vn_type x) as Hfwd.
  { intros a x Hx. destruct (decide (a = d)) as [->|].
    - rewrite lookup_insert_eq. eexists. split; [done|]. by simplify_eq.
    - rewrite lookup_insert_ne by done. by exists x. }
  split; [split| |done]; cbn [with_refs k_vnodes k_fs k_env set_vnodes].
  - by eapply heap_ok_upd.
  - done.
  - intros a n Hn. destruct (Hvn _ _ Hn) as (fs & f & x & Hx & Hx'). destruct (Hfwd a x Hx) as (y & Hy & E1 & E2 & E3 & E4).
    exists fs, f, y. cbn [with_refs k_vnodes k_fs set_vnodes]. rewrite E1, E2, E3, E4. by split.
  - done.
  - done.
  - done.
  - intros a b n m Hn Hm'. rewrite !Ho. by apply Hino.
  - intros fs f Hf. destruct (Hc fs f Hf) as [E1 E2].
    assert (forall a x, if_owned (<[d := vn_set_refcount r v]> (k_vnodes w)) fs a x = if_owned (k_vnodes w) fs a x) as Hif
      by (intros; unfold if_owned; by rewrite Ho).
    split; [rewrite E1|rewrite E2]; f_equal; symmetry; apply measure_ext; intros; apply Hif.
  - intros a x Hx. cbn [with_refs k_vnodes k_fs set_vnodes] in Hx. destruct (decide (a = d)) as [->|].
    + rewrite lookup_insert_eq in Hx. simplify_eq. simpl. by eapply Hm.
    + rewrite lookup_insert_ne in Hx by done. by eapply Hm.
Qed.

Lemma child_with_refs w d r v a c b : k_vnodes w !! d = Some v ->
  child w a c b -> child (with_refs d r v w) a c b.
Proof.
  intros Hv (x & l & Hx & Ht & Hd & Hl). destruct (decide (a = d)) as [->|].
  - exists (vn_set_refcount r v), l. simpl. rewrite lookup_insert_eq. split_and!; try done. by simplify_eq.
  - exists x, l. simpl. by rewrite lookup_insert_ne by done.
Qed.

Lemma reaches_mono w w' a cs d : (forall x c y, child w x c y -> child w' x c y) ->
  reaches w a cs d -> reaches w' a cs d.
Proof. intros Hc Hr. induction Hr; econstructor; eauto. Qed.

Lemma reaches_snoc w a cs p c d : reaches w a cs p -> child w p c d -> reaches w a (cs ++ [c]) d.
Proof. intros Hr Hc. induction Hr; simpl; econstructor; eauto. constructor. Qed.

(** What creation does to the paths. *)
Lemma create_child w p c attr type w' n : idle w -> in_tree w p -> inodes_left w -> starts_with_dot c = false ->
  tmpfs_create p c attr type w = Ok ((0, Some n), w') ->
  idle w' /\ k_vnodes w !! n = None /\ k_vfsroot w' = k_vfsroot w /\
  (forall q, in_tree w q -> in_tree w' q) /\ child w' p c n /\
  (forall x e y, child w x e y -> child w' x e y) /\
  refs w' n = Some 1 /\ (forall q, q <> n -> k_vnodes w' !! q = k_vnodes w !! q).
Proof.
  intros Hi Hp Hleft Hdot Hr. destruct (in_tree_node w p Hi Hp) as (v & np & l & Hn & _).
  destruct (tmpfs_create_full p v np l c attr type w (idle_ok _ Hi) Hn Hleft) as
    (rc & r & w2 & Hr2 & Hw2 & Hlk2 & Hroot & [(-> & n' & nn & vc & -> & Href & Hnone & Hfresh & Hdir & Hother & Hnew & Hvc & Hkept)|(-> & _)]);
    [|congruence].
  assert (n' = n /\ w2 = w') as [-> ->] by (split; congruence).
  destruct Hvc as (Hvn & Hrc & _ & _ & Hmt & _). destruct Hnew as (Hnn & _).
  assert (forall q v, k_vnodes w !! q = Some v -> k_vnodes w' !! q = Some v) as Hvk.
  { intros q x Hq. rewrite Hvn, lookup_insert_ne; [done|]. intros ->. congruence. }
  assert (S_ISDIR (vn_type v) = true) as Hisdir.
  { unfold create_refused in Href. apply orb_false_iff in Href as [Href _].
    apply orb_false_iff in Href as [_ Href]. by destruct (S_ISDIR (vn_type v)). }
  pose proof Hn as (Hv & Hnp & Hs & _).
  split_and!.
  - split; [done| |by rewrite Hlk2; apply idle_locks].
    intros a y Hy. destruct (decide (a = n)) as [->|Hne].
    + rewrite Hvn, lookup_insert_eq in Hy. by simplify_eq.
    + rewrite Hvn, lookup_insert_ne in Hy by done. by eapply idle_mounts.
  - done.
  - done.
  - intros q [x Hx]. destruct (Hkept _ _ Hx) as (x' & Hx' & _). by exists x'.
  - exists v, ((n, c) :: l). split; [by apply Hvk|]. split; [done|]. split; [done|]. simpl. by rewrite decide_True.
  - intros x e y (vx & lx & Hvx & Ht & Hd & Hl). destruct (decide (x = p)) as [->|Hne].
    + exists vx, ((n, c) :: l). split; [by apply Hvk|]. split; [done|]. split; [done|].
      assert (lx = l) as ->.
      { destruct Hd as (np' & Hnp' & Hs'). assert (np' = np) as -> by congruence.
        by eapply siblings_unique. }
      simpl. rewrite decide_False; [done|]. intros ->. congruence.
    + exists vx, lx. split; [by apply Hvk|]. split; [done|]. split; [by apply Hother|done].
  - unfold refs. rewrite Hvn, lookup_insert_eq. simpl. by rewrite Hrc.
  - intros q Hq. by rewrite Hvn, lookup_insert_ne by done.
Qed.

Lemma parent_lookup w start path a cs c : idle w -> in_tree w a -> start_of w start path = Some a ->
  path_components path = cs ++ [c] -> Forall proper cs -> Z.of_nat (length c) < 256 ->
  vfs_lookup true start (Some path) true VFS_LOOKUP_PARENT w = Ok (failed, w) \/
  exists d vd, reaches w a cs d /\ k_vnodes w !! d = Some vd /\
    vfs_lookup true start (Some path) true VFS_LOOKUP_PARENT w =
      Ok ((0, (Some d, Some c)), with_refs d (i32 (vn_refcount vd + 1)) vd w).
Proof.
  intros Hi Ha Hs Hcs Hp Hclen.
  assert (has_bits VFS_LOOKUP_PARENT VFS_LOOKUP_PARENT = true) as Hpar by done.
  rewrite vfs_lookup_walks, (resolve_tree w start path true _ a), Hcs, Hpar by (done || rewrite Hcs; by destruct cs).
  destruct (walk_tree_parent w a cs c Hi Ha Hp Hclen) as [(d & Hd & Hwk)|(_ & Hwk)]; rewrite Hwk; [right|by left].
  destruct (in_tree_node w d Hi (reaches_in_tree _ _ _ _ (idle_ok _ Hi) Ha Hd)) as (v & np & l & (Hv & _) & _).
  exists d, v. split; [done|]. split; [done|]. unfold vnode_hold, upd_vnode, mbind, st_bind. by rewrite Hv.
Qed.

(** Giving back one of several references. *)
Lemma release_back w d v r w' u : k_vnodes w !! d = Some v -> vn_refcount v = r + 1 -> 1 <= r < 2 ^ 31 - 1 ->
  vnode_release (Some d) w = Ok (u, w') -> w' = with_refs d r v w.
Proof.
  intros Hv Hr Hb Hrel. unfold vnode_release in Hrel. apply st_bind_inv in Hrel as (u' & w4 & Hu & Hrel).
  apply upd_vnode_inv in Hu as (v2 & Hv2 & ->). assert (v2 = v) as -> by congruence.
  rewrite Hr, Z.add_simpl_r, i32_small in Hrel by lia.
  apply st_bind_inv in Hrel as (v3 & w5 & Hg & Hrel). apply get_vnode_inv in Hg as [Hg ->].
  simpl in Hg. rewrite lookup_insert_eq in Hg. assert (vn_refcount v3 = r) as E3 by (by simplify_eq).
  rewrite E3 in Hrel. destruct (Z.eqb_spec r 0); [lia|]. by apply st_ret_inv in Hrel as [_ ->].
Qed.

End paths.

(** ** Mounting *)

Section mount.
Context {E : Type} `{KenvLaws E}.
Abbreviation W := (world E tmpfs).

(** A world with a new file system [fs] and its root [c]. *)
Definition rooted (w : W) (e : E) (vfss : gmap Z vfs) (fs c next cnt : Z) (v : vnode) (n : tnode) : W :=
  mk_world e (<[c := v]> (k_vnodes w)) vfss (k_advlocks w) (k_registry w) (k_vfsroot w) (k_locks w)
    (mk_tmpfs (<[c := n]> (t_nodes (k_fs w))) (<[fs := mk_tfs (Some c) next cnt 0]> (t_fss (k_fs w)))).

Lemma fresh_node (w : W) a : tree_ok w -> a ∉ env_live (k_env w) ->
  k_vnodes w !! a = None /\ t_nodes (k_fs w) !! a = None /\ t_fss (k_fs w) !! a = None.
Proof.
  intros Hw Ha. split_and!.
  - destruct (k_vnodes w !! a) eqn:Hx; [|done]. exfalso. apply Ha, (ok_live _ Hw). by eapply elem_of_dom_2.
  - destruct (t_nodes (k_fs w) !! a) eqn:Hx; [|done]. exfalso. apply Ha. by eapply node_is_vnode.
  - destruct (t_fss (k_fs w) !! a) eqn:Hx; [|done]. exfalso. apply Ha, (ok_fss _ Hw). by eapply elem_of_dom_2.
Qed.

Lemma no_owner (w : W) fs a n : tree_ok w -> t_fss (k_fs w) !! fs = None -> t_nodes (k_fs w) !! a = Some n ->
  owner (k_vnodes w) a <> Some fs.
Proof.
  intros Hw Hfs Hn Ho. destruct (ok_vnode _ Hw _ _ Hn) as (fs' & f & v & Hv & _ & _ & Hvf & _ & Hf & _).
  unfold owner in Ho. rewrite Hv in Ho. simpl in Ho. congruence.
Qed.

Lemma rooted_ok (w : W) e vfss fs c t : tree_ok w -> fs ∉ env_live (k_env w) -> c ∉ env_live (k_env w) ->
  fs <> c -> env_live e = {[c]} ∪ ({[fs]} ∪ env_live (k_env w)) ->
  tree_ok (rooted w e vfss fs c 2 1 (new_vnode c S_IFDIR fs) (new_node None None [] S_IFDIR 0x1ED 1 t)).
Proof.
  intros Hw Hfs Hc Hne He.
  destruct (fresh_node w c Hw Hc) as (Hvc & Hnc & _). destruct (fresh_node w fs Hw Hfs) as (_ & _ & Hff).
  set (n0 := new_node None None [] S_IFDIR 0x1ED 1 t).
  assert (forall a n, <[c := n0]> (t_nodes (k_fs w)) !! a = Some n ->
    (a = c /\ n = n0) \/ (a <> c /\ t_nodes (k_fs w) !! a = Some n)) as Hback.
  { intros a n. destruct (decide (a = c)) as [->|]; [rewrite lookup_insert_eq; left; by simplify_eq|].
    rewrite lookup_insert_ne by done. by right. }
  assert (forall a n, t_nodes (k_fs w) !! a = Some n -> <[c := n0]> (t_nodes (k_fs w)) !! a = Some n) as Hfwd.
  { intros a n Hn. rewrite lookup_insert_ne; [done|]. congruence. }
  assert (links_kept (t_nodes (k_fs w)) (<[c := n0]> (t_nodes (k_fs w)))) as Hlinks.
  { intros a n Hn. exists n. split; [by apply Hfwd|done]. }
  assert (forall a, a <> c -> owner (<[c := new_vnode c S_IFDIR fs]> (k_vnodes w)) a = owner (k_vnodes w) a) as Hown.
  { intros a Ha. unfold owner. by rewrite lookup_insert_ne by done. }
  assert (owner (<[c := new_vnode c S_IFDIR fs]> (k_vnodes w)) c = Some fs) as Hownc.
  { unfold owner. by rewrite lookup_insert_eq. }
  split; cbn [rooted k_vnodes k_env k_fs t_nodes t_fss].
  - unfold heap_ok. cbn [rooted k_vnodes k_env]. rewrite He, dom_insert_L. pose proof (ok_live _ Hw) as Hl.
    unfold heap_ok in Hl. set_solver.
  - rewrite He, dom_insert_L. pose proof (ok_fss _ Hw). set_solver.
  - intros a n Hn. destruct (Hback a n Hn) as [[-> ->]|[Ha Hn']].
    + exists fs, (mk_tfs (Some c) 2 1 0), (new_vnode c S_IFDIR fs). cbn [rooted k_vnodes k_fs t_fss].
      rewrite !lookup_insert_eq. by split_and!.
    + destruct (ok_vnode _ Hw _ _ Hn') as (fs0 & f & v & Hv & ? & ? & ? & ? & Hf & ?).
      exists fs0, f, v. cbn [rooted k_vnodes k_fs t_fss]. rewrite !lookup_insert_ne by congruence.
      split_and!; try done; lia.
  - intros a n Hn. destruct (Hback a n Hn) as [[-> ->]|[Ha Hn']]; [by split_and!|by eapply ok_data].
  - intros p n Hn. destruct (Hback p n Hn) as [[-> ->]|[Ha Hn']].
    + exists []. split; [done|]. split; [constructor|]. by intros a nm ?%elem_of_nil.
    + destruct (ok_dir _ Hw _ _ Hn') as (l & Hs & Hnd & Hl). exists l.
      split; [by eapply siblings_kept|]. split; [done|]. intros a nm Hin.
      destruct (Hl a nm Hin) as (? & ? & x & Hx & Hxp). split; [done|]. split; [done|]. exists x. eauto.
  - intros a n q Hn Hq. destruct (Hback a n Hn) as [[-> ->]|[Ha Hn']]; [done|].
    destruct (ok_parent _ Hw _ _ _ Hn' Hq) as [x Hx]. exists x. by apply Hfwd.
  - intros a b n m Hn Hm Hab Ho. destruct (Hback a n Hn) as [[-> ->]|[Ha Hn']], (Hback b m Hm) as [[-> ->]|[Hb Hm']].
    + done.
    + rewrite Hownc, Hown in Ho by done. by destruct (no_owner w fs b m Hw Hff Hm').
    + rewrite Hownc, Hown in Ho by done. by destruct (no_owner w fs a n Hw Hff Hn').
    + rewrite !Hown in Ho by done. by eapply ok_inode.
  - intros fs0 f0 Hf0. unfold count_of, total_of. cbn [rooted k_vnodes k_fs t_nodes].
    rewrite !measure_insert by done. unfold if_owned at 1 3. rewrite Hownc.
    assert (forall a x y, t_nodes (k_fs w) !! a = Some x ->
      if_owned (<[c := new_vnode c S_IFDIR fs]> (k_vnodes w)) fs0 a y = if_owned (k_vnodes w) fs0 a y) as Hif.
    { intros a x y Hx. unfold if_owned. rewrite Hown; [done|]. congruence. }
    assert (forall h, measure (fun a n => if_owned (<[c := new_vnode c S_IFDIR fs]> (k_vnodes w)) fs0 a (h n)) (t_nodes (k_fs w)) =
      measure (fun a n => if_owned (k_vnodes w) fs0 a (h n)) (t_nodes (k_fs w))) as Hsum.
    { intros h. apply measure_ext. intros a x Hx. exact (Hif a x _ Hx). }
    rewrite (Hsum (fun _ => 1)), (Hsum n_size).
    destruct (decide (fs0 = fs)) as [->|Hfs0].
    + rewrite lookup_insert_eq in Hf0. simplify_eq. rewrite !decide_True by done.
      assert (forall h, measure (fun a n => if_owned (k_vnodes w) fs a (h n)) (t_nodes (k_fs w)) = 0) as Hz.
      { intros h. rewrite (measure_ext _ (fun _ _ => 0)).
        - apply measure_zero.
        - intros a n Hn. unfold if_owned. apply decide_False. by eapply no_owner. }
      rewrite (Hz (fun _ => 1)), (Hz n_size). done.
    + rewrite lookup_insert_ne in Hf0 by done. rewrite !decide_False by congruence. by apply ok_counts.
Qed.

(** mounting starts a tree. On a well-formed world, [tmpfs_mount] returns
    with a well-formed world and the directories that were there. Either it
    gives 0 and a file system whose root is a new, empty directory with one
    reference, counted as one node of no bytes; or it gives -1 and leaves nodes,
    vnodes and file system records as they were, the half-made one released. *)
Theorem tmpfs_mount_spec mp bk (w : W) : tree_ok w ->
  exists rc r w', tmpfs_mount mp bk w = Ok ((rc, r), w') /\ tree_ok w' /\ k_locks w' = k_locks w /\
  (forall q l, dir w q l -> dir w' q l) /\
  ((rc = 0 /\ exists fs c v vf, r = Some fs /\ k_vfss w' !! fs = Some vf /\ v_root vf = Some c /\
      k_vnodes w !! c = None /\ k_vnodes w' !! c = Some v /\ S_ISDIR (vn_type v) = true /\ vn_refcount v = 1 /\
      dir w' c [] /\ tmpfs_statfs fs w' = Ok ((0, Some (mk_fsattr 4096 4096 0 1 255)), w')) \/
   (rc = -1 /\ r = None /\ k_vnodes w' = k_vnodes w /\ k_fs w' = k_fs w)).
Proof.
  intros Hw. unfold tmpfs_mount.
  destruct (env_alloc sizeof_tmpfs_vfs (k_env w)) as [[fs|] e1] eqn:Ha; rewrite (alloc_bind _ _ _ _ _ Ha).
  2:{ exists (-1), None, (set_env e1 w). split; [done|].
      split; [apply tree_ok_env; [done|by eapply env_alloc_none]|]. split; [done|]. split; [done|]. right. done. }
  destruct (env_alloc_some _ _ _ _ Ha) as [Hfs Hl1]. destruct (fresh_node w fs Hw Hfs) as (_ & _ & Hff).
  rewrite modify_bind. unfold put_fs. rewrite modify_bind. set (w2 := set_fs _ _).
  assert (t_fss (k_fs w2) !! fs = Some (mk_tfs None 1 0 0)) as Hf2 by apply lookup_insert_eq.
  destruct (alloc_node_ok fs None [] S_IFDIR 0x1ED _ w2 Hf2) as [(e & Hr & Hwhy)|(c & e & t & Hc & He & Hr)];
    rewrite (st_bind_ok _ _ _ _ _ Hr).
  - unfold free_fs. rewrite then_assoc, modify_bind.
    eexists (-1), None, _. split; [reflexivity|].
    set (w3 := set_env _ _).
    assert (env_live e = {[fs]} ∪ env_live (k_env w)) as He.
    { rewrite <- Hl1. destruct Hwhy as [Hn|(c & e2 & e3 & Hn & Hb & ->)]; [by eapply env_alloc_none|by eapply freed_live]. }
    assert (k_vnodes w3 = k_vnodes w /\ k_fs w3 = k_fs w /\ env_live (k_env w3) = env_live (k_env w)) as Hcalm.
    { unfold w3; simpl. split; [done|]. split.
      - rewrite delete_insert_id by done. by destruct (k_fs w).
      - rewrite env_free_live, He. set_solver. }
    split; [by eapply calm_tree_ok|]. destruct Hcalm as (Hv & Hk & _). split; [done|].
    split; [|right; by split_and!]. intros q l. unfold dir. by rewrite Hk.
  - assert ((c ∉ env_live (k_env w)) /\ fs <> c) as [Hcw Hne].
    { simpl in Hc. rewrite Hl1 in Hc. set_solver. }
    set (w3 := mk_world e _ _ _ _ _ _ _).
    assert (t_fss (k_fs w3) !! fs = Some (one_more (mk_tfs None 1 0 0))) as Hf3 by apply lookup_insert_eq.
    rewrite (st_bind_ok _ _ _ _ _ (upd_fs_ok _ _ _ _ Hf3)).
    unfold upd_vfs. unfold mbind, st_bind. cbn [k_vfss set_fs w3]. cbn [w2 set_fs set_vfss k_vfss].
    rewrite lookup_insert_eq.
    eexists 0, (Some fs), (rooted w e _ fs c 2 1 (new_vnode c S_IFDIR fs) (new_node None None [] S_IFDIR 0x1ED 1 t)).
    split.
    { unfold rooted, w3, w2, set_vfss, set_fs, set_env; cbn. rewrite !insert_insert_eq. reflexivity. }
    split; [apply rooted_ok; try done; by rewrite He; simpl; rewrite Hl1|]. split; [done|].
    destruct (fresh_node w c Hw Hcw) as (Hvc & Hnc & _). split.
    { intros q l (n & Hn & Hs). exists n. cbn [rooted k_fs t_nodes]. split.
      - rewrite lookup_insert_ne; [done|]. congruence.
      - eapply siblings_kept; [|exact Hs]. intros a x Hx. exists x. rewrite lookup_insert_ne by congruence. done. }
    left. split; [done|]. exists fs, c, (new_vnode c S_IFDIR fs), (v_set_root (Some c) (vfs_struct_init (Some tmpfs_vfsops_addr) 0)).
    cbn [rooted k_vfss k_vnodes]. rewrite !lookup_insert_eq. split_and!; try done.
    + exists (new_node None None [] S_IFDIR 0x1ED 1 t). cbn [rooted k_fs t_nodes]. by rewrite lookup_insert_eq.
    + unfold tmpfs_statfs, get_fs, mbind, st_bind. cbn [rooted k_fs t_fss]. by rewrite lookup_insert_eq.
Qed.
End mount.

(** ** A concrete world *)

Definition empty_world : world bump tmpfs :=
  mk_world (mk_bump 100 50 ∅ 1000) ∅ ∅ ∅ [] None [] (mk_tmpfs ∅ ∅).

Lemma empty_ok : tree_ok empty_world.
Proof.
  split; cbn [empty_world k_fs t_nodes t_fss k_vnodes].
  - unfold heap_ok. simpl. set_solver.
  - set_solver.
  - intros a n Hn. by rewrite lookup_empty in Hn.
  - intros a n Hn. by rewrite lookup_empty in Hn.
  - intros a n Hn. by rewrite lookup_empty in Hn.
  - intros a n q Hn. by rewrite lookup_empty in Hn.
  - intros a b n m Hn. by rewrite lookup_empty in Hn.
  - intros fs f Hf. by rewrite lookup_empty in Hf.
Qed.

(** The state a run ends in. *)
Definition after {A} (m : ST (world bump tmpfs) A) (w : world bump tmpfs) : world bump tmpfs :=
  match m w with Ok (_, w') => w' | _ => w end.

(** Bytes of [tmp], [f] and [/tmp/f]. *)
Definition name_tmp : cstr := [116; 109; 112].
Definition name_f : cstr := [102].
Definition path_f : cstr := slash :: name_tmp ++ slash :: name_f.

(** The file system is registered and mounted as the root; then [/tmp] and
    [/tmp/f] are made. *)
Definition demo_mounted : world bump tmpfs := after (tmpfs_init ;; vfs_mount None None None (Some tmpfs_name)) empty_world.
Definition demo_root : Z := 102.
Definition demo_dir : world bump tmpfs :=
  after (vfs_create (Some demo_root) (Some (slash :: name_tmp)) None S_IFDIR true) demo_mounted.
Definition demo_file : world bump tmpfs :=
  after (vfs_create (Some demo_root) (Some path_f) None S_IFREG true) demo_dir.

(** Splits a lookup in a concrete map into its entries. *)
Ltac entries Hx :=
  apply elem_of_map_to_list in Hx;
  lazymatch type of Hx with
  | _ ∈ ?L => let L' := eval vm_compute in L in
      let He := fresh in assert (L = L') as He by (vm_compute; reflexivity); rewrite He in Hx; clear He
  end;
  repeat (apply elem_of_cons in Hx as [Hx|Hx]; [injection Hx as -> ->|]);
  try (apply elem_of_nil in Hx; case Hx).
Ltac concrete := vm_compute; first [reflexivity | exact I | discriminate | intros ?; discriminate].

(** Closes the facts on a concrete directory with the given entries. *)
Ltac concrete_dir :=
  split; [repeat (split; [concrete|]; eexists; split; [concrete|]; split; [concrete|]); try concrete|];
  split; [apply (bool_decide_unpack _); concrete|];
  intros a' nm' Hin'; repeat (apply elem_of_cons in Hin' as [[= -> ->]|Hin']);
  try (apply elem_of_nil in Hin'; case Hin');
  (split; [concrete|]; split; [concrete|]; eexists; split; concrete).

Lemma demo_file_ok : tree_ok demo_file.
Proof.
  split.
  - unfold heap_ok. apply (bool_decide_unpack _). concrete.
  - apply (bool_decide_unpack _). concrete.
  - intros a n Hn. entries Hn; eexists 101, _, _; split_and!; concrete.
  - intros a n Hn. entries Hn; split_and!; concrete.
  - intros p n Hn. entries Hn; [exists [(104, name_f)]|exists [(103, name_tmp)]|exists []]; concrete_dir.
  - intros a n q Hn Hq. entries Hn; first [discriminate Hq|injection Hq as <-; eexists; concrete].
  - intros a b n m Hn Hm Hne _. clear -Hn Hm Hne. entries Hn; entries Hm;
      first [exfalso; apply Hne; reflexivity | intros Hbad; vm_compute in Hbad; discriminate Hbad].
  - intros fs f Hf. entries Hf. split; concrete.
Qed.

Lemma demo_dir_ok : tree_ok demo_dir.
Proof.
  split.
  - unfold heap_ok. apply (bool_decide_unpack _). concrete.
  - apply (bool_decide_unpack _). concrete.
  - intros a n Hn. entries Hn; eexists 101, _, _; split_and!; concrete.
  - intros a n Hn. entries Hn; split_and!; concrete.
  - intros p n Hn. entries Hn; [exists []|exists [(103, name_tmp)]]; concrete_dir.
  - intros a n q Hn Hq. entries Hn; first [discriminate Hq|injection Hq as <-; eexists; concrete].
  - intros a b n m Hn Hm Hne _. clear -Hn Hm Hne. entries Hn; entries Hm;
      first [exfalso; apply Hne; reflexivity | intros Hbad; vm_compute in Hbad; discriminate Hbad].
  - intros fs f Hf. entries Hf. split; concrete.
Qed.

Lemma demo_dir_idle : idle demo_dir.
Proof. split; [apply demo_dir_ok| |reflexivity]. intros a v Hv. entries Hv; reflexivity. Qed.

Lemma demo_dir_left : inodes_left demo_dir.
Proof. intros fs f Hf. entries Hf. concrete. Qed.

Lemma demo_dir_refs : refs_ok demo_dir.
Proof.
  split; [apply (ok_live _ demo_dir_ok)|]. intros a r Hr. unfold refs in Hr.
  apply fmap_Some in Hr as (v & Hv & ->). entries Hv; split; concrete.
Qed.

(** A second file system mounted on [/tmp], and [/tmp/f] with three bytes at
    offset 2. *)
Definition demo_stacked : world bump tmpfs :=
  after (vfs_mount None (Some demo_root) (Some (slash :: name_tmp)) (Some tmpfs_name)) demo_dir.
Definition demo_written : world bump tmpfs :=
  after (vfs_write (Some 104) (Some [1; 2; 3]) 3 2 0) demo_file.

Definition no_node : tnode := new_node None None [] 0 0 0 (mk_ts 0 0).
Definition node_at (w : world bump tmpfs) (a : Z) : tnode := default no_node (t_nodes (k_fs w) !! a).
Definition vnode_at (w : world bump tmpfs) (a : Z) : vnode := default (new_vnode 0 0 0) (k_vnodes w !! a).
Definition fs_at (w : world bump tmpfs) (a : Z) : tfs := default (mk_tfs None 0 0 0) (t_fss (k_fs w) !! a).

Lemma demo_file_104 : is_file demo_file 104 104 101 (node_at demo_file 104) (fs_at demo_file 101).
Proof.
  split; [exists (vnode_at demo_file 104); split_and!; concrete|].
  split; [concrete|]. split; [concrete|]. split; [split_and!; concrete|].
  apply (bool_decide_unpack _). concrete.
Qed.

Lemma demo_written_104 : is_file demo_written 104 104 101 (node_at demo_written 104) (fs_at demo_written 101).
Proof.
  split; [exists (vnode_at demo_written 104); split_and!; concrete|].
  split; [concrete|]. split; [concrete|]. split; [split_and!; concrete|].
  apply (bool_decide_unpack _). concrete.
Qed.

Lemma demo_root_node : tree_node demo_dir 102 (vnode_at demo_dir 102) (node_at demo_dir 102) [(103, name_tmp)].
Proof.
  split; [concrete|]. split; [concrete|]. split.
  - split; [concrete|]. eexists. split; [concrete|]. split; concrete.
  - apply (bool_decide_unpack _). concrete.
Qed.

Lemma demo_file_refs : refs_ok demo_file.
Proof.
  split; [apply (ok_live _ demo_file_ok)|]. intros a r Hr. unfold refs in Hr.
  apply fmap_Some in Hr as (v & Hv & ->). entries Hv; split; concrete.
Qed.

(** The outcome of a run as a value to compare with. *)
Definition result {A} (m : ST (world bump tmpfs) A) (w : world bump tmpfs) : option A :=
  match m w with Ok (r, _) => Some r | _ => None end.

Lemma result_ok {A} (m : ST (world bump tmpfs) A) w r : result m w = Some r -> m w = Ok (r, after m w).
Proof. unfold result, after. destruct (m w) as [[]| | |]; intros; by simplify_eq. Qed.

(** ** Instances at concrete inputs *)

Lemma vfs_open_close_refs_witness :
  exists n, Some 104 = Some n /\
    taken n demo_file (after (vfs_open (Some 102) (Some path_f) 0 true) demo_file).
Proof.
  assert (result (vfs_open (Some 102) (Some path_f) 0 true) demo_file = Some (0, Some 104)) as Hr by (vm_compute; reflexivity).
  apply result_ok in Hr.
  destruct (vfs_open_close_refs _ _ _ _ _ _ _ demo_file_refs Hr) as [_ Hok].
  destruct (Hok eq_refl) as (n & Hn & Ht & _). exists n. exact (conj Hn Ht).
Defined.

Lemma vfs_register_spec_witness : exists rc w',
  vfs_register (Some tmpfs_vfsops_addr) (Some tmpfs_name) empty_world = Ok (rc, w') /\ NoDup (registered w').
Proof.
  assert (LRegistry ∉ k_locks empty_world) as Hl by (apply (bool_decide_unpack _); concrete).
  destruct (vfs_register_spec empty_world (Some tmpfs_vfsops_addr) (Some tmpfs_name) Hl (NoDup_nil_2))
    as (rc & w' & Hr & _ & Hnd & _). exists rc, w'. exact (conj Hr Hnd).
Defined.

Definition demo_rank (a : Z) : nat := if a =? 103 then 1 else 0.

Lemma vfs_follow_mounts_total_witness :
  exists b, vfs_follow_mounts (Some 103) demo_stacked = Ok (Some b, demo_stacked) /\ rtc (mounts_to demo_stacked) 103 b.
Proof.
  assert (forall a b, mounts_to demo_stacked a b -> a = 103 /\ b = 105) as Hm.
  { intros a b (va & m & fs & Hva & Hm & Hfs & Hr). clear -Hva Hm Hfs Hr.
    entries Hva; first [discriminate Hm | injection Hm as <-].
    vm_compute in Hfs. injection Hfs as <-. injection Hr as <-. exact (conj eq_refl eq_refl). }
  assert (mounts_valid demo_stacked) as Hv.
  { split.
    - intros a va m Hva Hmm. clear -Hva Hmm. entries Hva; first [discriminate Hmm | injection Hmm as <-]. eexists. concrete.
    - intros a b Hab. destruct (Hm a b Hab) as [_ ->]. eexists. concrete. }
  assert (forall a b, mounts_to demo_stacked a b -> (demo_rank b < demo_rank a)%nat) as Hr.
  { intros a b Hab. destruct (Hm a b Hab) as [-> ->]. unfold demo_rank. simpl. lia. }
  assert (is_Some (k_vnodes demo_stacked !! 103)) as H103 by (eexists; concrete).
  destruct (vfs_follow_mounts_total demo_rank demo_stacked 103 Hv Hr H103) as (b & Hb & Hc & _).
  exists b. exact (conj Hb Hc).
Defined.

(** Bytes of [/.f]. *)
Definition path_hidden : cstr := [slash; dot; 102].

Lemma vfs_lookup_dot_last_witness :
  (result (vfs_lookup true None (Some path_hidden) false 0) demo_file = Some failed) /\ failed.1 <> 0.
Proof.
  assert (result (vfs_lookup true None (Some path_hidden) false 0) demo_file = Some failed) as Hr by (vm_compute; reflexivity).
  split; [exact Hr|]. apply result_ok in Hr.
  exact (vfs_lookup_dot_last None path_hidden [] [dot; 102] false 0 _ _ _ eq_refl eq_refl eq_refl Hr).
Defined.

Lemma vfs_write_read_witness : exists w2,
  vfs_read (Some 104) (Some [9; 9; 9; 9; 9]) 4 1 0 demo_written = Ok ((0, (Some [0; 1; 2; 3; 9], Some 4)), w2).
Proof.
  assert (result (vfs_write (Some 104) (Some [1; 2; 3]) (Z.of_nat 3) 2 0) demo_file = Some (0, Some 3)) as Hr by (vm_compute; reflexivity).
  apply result_ok in Hr.
  assert (vnode_is_tmpfs demo_file 104) as Ht by (exists (vnode_at demo_file 104); split; concrete).
  destruct (vfs_write_read 104 104 101 _ _ [1; 2; 3] 2 0 4 1 [9; 9; 9; 9; 9] 0 demo_file _ (Some 3)
    demo_file_104 Ht ltac:(lia) eq_refl ltac:(simpl; lia) ltac:(lia) ltac:(simpl; lia) Hr) as (_ & w2 & Hrd).
  exists w2. exact Hrd.
Defined.

Lemma tmpfs_write_past_63_witness :
  tmpfs_write 104 (Some [1]) 1 (2 ^ 63) 0 demo_file = Timeout.
Proof.
  exact (proj2 (tmpfs_write_past_63 1000 104 104 101 _ _ [1] 1 (2 ^ 63) 0 demo_file demo_file_104
    ltac:(lia) eq_refl ltac:(simpl; lia) ltac:(lia) (or_introl eq_refl))).
Defined.

Lemma tmpfs_write_wraps_witness :
  tmpfs_write 104 (Some [1; 2]) 2 (2 ^ 64 - 1) 0 demo_written = Fault.
Proof.
  apply (tmpfs_write_wraps 104 104 101 _ _ [1; 2] 2 (2 ^ 64 - 1) 0 demo_written demo_written_104);
    [lia|reflexivity|simpl; lia|lia|lia|concrete].
Defined.

Lemma tmpfs_create_spec_witness : exists rc r w',
  tmpfs_create 102 name_f None S_IFREG demo_dir = Ok ((rc, r), w') /\ tree_ok w'.
Proof.
  destruct (tmpfs_create_spec 102 _ _ _ name_f None S_IFREG demo_dir demo_dir_ok demo_root_node demo_dir_left)
    as (rc & r & w' & Hr & Hw & _). exists rc, r, w'. exact (conj Hr Hw).
Defined.

Lemma tmpfs_getdents_spec_witness : exists l, length l = 2%nat /\
  tmpfs_getdents 102 true 600 1 demo_dir = Ok ((0, (l, Some 560)), demo_dir).
Proof.
  eexists. split; [|apply (tmpfs_getdents_spec 102 _ _ _ 600 1 demo_dir demo_dir_ok demo_root_node);
    [concrete|lia|lia|simpl; lia]]. reflexivity.
Defined.


Lemma tmpfs_mount_spec_witness : exists rc r w', tmpfs_mount None None empty_world = Ok ((rc, r), w') /\ tree_ok w'.
Proof.
  destruct (tmpfs_mount_spec None None empty_world empty_ok) as (rc & r & w' & Hr & Hw & _).
  exists rc, r, w'. exact (conj Hr Hw).
Defined.

Lemma demo_tmp_proper : Forall proper (path_components (slash :: name_tmp)).
Proof. change (path_components (slash :: name_tmp)) with [name_tmp]. constructor; [split; concrete|constructor]. Qed.

Lemma demo_f_proper : Forall proper (path_components path_f).
Proof.
  change (path_components path_f) with [name_tmp; name_f].
  constructor; [split; concrete|]. constructor; [split; concrete|constructor].
Qed.

Lemma vfs_path_resolves_witness : exists w',
  vfs_lookup true None (Some (slash :: name_tmp)) false 0 demo_dir = Ok ((0, (Some 103, None)), w').
Proof.
  assert (in_tree demo_dir 102) as Hin by (exists (node_at demo_dir 102); concrete).
  destruct (vfs_path_resolves demo_dir None (slash :: name_tmp) false 102 demo_dir_idle Hin eq_refl
    ltac:(discriminate) demo_tmp_proper) as [(d & v & Hd & _ & Hr)|(Hno & _)].
  - assert (d = 103) as Hd3.
    { apply (reaches_unique _ _ _ _ _ Hd). apply (reach_cons _ 102 name_tmp 103 [] 103); [|constructor].
      exists (vnode_at demo_dir 102), [(103, name_tmp)]. split; [concrete|]. split; [concrete|].
      split; [|concrete]. exists (node_at demo_dir 102). split; [concrete|]. exact (proj1 (proj2 (proj2 demo_root_node))). }
    rewrite Hd3 in Hr. eexists. exact Hr.
  - exfalso. apply (Hno 103). apply (reach_cons _ 102 name_tmp 103 [] 103); [|constructor].
    exists (vnode_at demo_dir 102), [(103, name_tmp)]. split; [concrete|]. split; [concrete|].
    split; [|concrete]. exists (node_at demo_dir 102). split; [concrete|]. exact (proj1 (proj2 (proj2 demo_root_node))).
Defined.

