(* ===== verification/Initrd.v ===== *)
(** The unpacker of the initial ramdisk, [kernel/src/fs/initrd.c]: a cpio "newc"
    archive in memory becomes directories and files of the root file system.

    The archive is the list of the bytes readable from [buffer] on, the cursor
    an index into it; a read past the end is a fault. *)
From S2P Require Import Prelude Kenv Vfs Tmpfs.

Definition ACCESSPERMS : Z := 0x1FF.
Definition PATH_MAX : Z := 4096.

(** The offsets of the fields of [cpio_newc_header_t] and its size. *)
Definition off_mode : Z := 14.
Definition off_filesize : Z := 54.
Definition off_namesize : Z := 94.
Definition sizeof_cpio_newc_header : Z := 110.

(** "070701" and "TRAILER!!!" *)
Definition cpio_magic : list Z := [48; 55; 48; 55; 48; 49].
Definition cpio_trailer : cstr := [84; 82; 65; 73; 76; 69; 82; 33; 33; 33].

Definition hex_digit (c : Z) : option Z :=
  if (48 <=? c) && (c <=? 57) then Some (c - 48)
  else if (97 <=? c) && (c <=? 102) then Some (c - 97 + 10)
  else if (65 <=? c) && (c <=? 70) then Some (c - 65 + 10)
  else None.

(** The value and [*ok]; [hex] are the bytes readable from the pointer on. *)
Fixpoint parse_hex_loop (n : nat) (hex : list Z) (value : Z) : outcome (Z * bool) :=
  match n with
  | O => Ok (value, true)
  | S n =>
      match hex with
      | [] => Fault
      | c :: hex =>
          match hex_digit c with
          | None => Ok (0, false)
          | Some digit => parse_hex_loop n hex (Z.lor (u32 (Z.shiftl value 4)) digit)
          end
      end
  end.
Definition initrd_parse_hex (hex : option (list Z)) (len : Z) : outcome (Z * bool) :=
  match hex with
  | None => Ok (0, false)
  | Some hex => parse_hex_loop (Z.to_nat len) hex 0
  end.

Definition initrd_align4 (value : Z) : Z := Z.land (u64 (value + 3)) (not64 3).

Definition initrd_string_equal (lhs rhs : option (list Z)) : outcome bool :=
  match lhs, rhs with
  | Some lhs, Some rhs =>
      l ← to_nul lhs;
      r ← to_nul rhs;
      Ok ((Z.of_nat (length l) =? Z.of_nat (length r)) && bytes_equal l r (Z.of_nat (length l)))
  | _, _ => Ok false
  end.

(** [while (name && name[src] == '.' && ...)]: what is left of the name, or
    [None] after [path[0] = 0]. *)
Fixpoint skip_dots (fuel : nat) (name : list Z) : outcome (option (list Z)) :=
  match fuel with
  | O => Timeout
  | S fuel =>
      c ← deref (head name);
      if negb (c =? dot) then Ok (Some name) else
      d ← deref (head (tail name));
      if d =? slash then skip_dots fuel (tail (tail name))
      else if d =? NUL then Ok None else Ok (Some name)
  end.

(** [while (name && name[src] != 0 && dst + 1 < path_size)] *)
Fixpoint copy_name (room : nat) (name : list Z) : outcome (list Z) :=
  c ← deref (head name);
  if c =? NUL then Ok [] else
  match room with
  | O => Ok []
  | S room => l ← copy_name room (tail name); Ok (c :: l)
  end.

Definition skip_name (name : option (list Z)) : outcome (option (option (list Z))) :=
  match name with
  | None => Ok (Some None)
  | Some name => r ← skip_dots (S (length name)) name; Ok (option_map Some r)
  end.
Definition copy_rest (room : Z) (name : option (list Z)) : outcome cstr :=
  match name with None => Ok [] | Some name => copy_name (Z.to_nat room) name end.

(** The string left in [path]; [None] when nothing is stored. *)
Definition initrd_normalize_path (name : option (list Z)) (path_size : Z) : outcome (option cstr) :=
  if path_size =? 0 then Ok None else
  rest ← skip_name name;
  match rest with
  | None => Ok (Some [])
  | Some name =>
      let lead := if 1 <? path_size then [slash] else [] in
      l ← copy_rest (path_size - 1 - Z.of_nat (length lead)) name;
      Ok (Some (lead ++ l))
  end.

Section unpack.
Context {E F : Type} `{Kenv E} `{FsTable E F}.
Abbreviation W := (world E F).

Definition initrd_ensure_dir (path : option cstr) (mode : Z) : ST W Z :=
  match path with
  | None | Some [] => mret 0
  | Some _ =>
      if vfs_string_equal path (Some [slash]) then mret 0 else
      root ← gets k_vfsroot;
      r ← vfs_lookup true root path false 0;
      if r.1 =? 0 then vnode_release r.2.1 ;; mret 0 else
      root ← gets k_vfsroot;
      let attr := mk_vattr (Z.lor S_IFDIR (Z.land mode ACCESSPERMS)) in
      r ← vfs_create root path (Some attr) S_IFDIR true;
      if negb (r.1 =? 0) then mret (-1) else
      vnode_release r.2 ;;
      mret 0
  end.

(** [for (i = 1; i < len; i++)]: [before] are the bytes before index [i]. *)
Fixpoint parents_loop (before rest : cstr) : ST W Z :=
  match rest with
  | [] => mret 0
  | c :: rest =>
      if negb (c =? slash) then parents_loop (before ++ [c]) rest else
      rc ← initrd_ensure_dir (Some before) 0x1ED;
      if negb (rc =? 0) then mret (-1) else parents_loop (before ++ [c]) rest
  end.
Definition initrd_ensure_parent_dirs (path : option cstr) : ST W Z :=
  match path with
  | None => mret (-1)
  | Some path =>
      if PATH_MAX <=? Z.of_nat (length path) then mret (-1) else
      match path with
      | [] => mret 0
      | c :: rest => parents_loop [c] rest
      end
  end.

Definition initrd_unpack_dir (path : option cstr) (mode : Z) : ST W Z :=
  rc ← initrd_ensure_parent_dirs path;
  if negb (rc =? 0) then mret (-1) else initrd_ensure_dir path mode.

Definition initrd_unpack_file (path : option cstr) (mode : Z) (data : list Z) (size : Z) : ST W Z :=
  rc ← initrd_ensure_parent_dirs path;
  if negb (rc =? 0) then mret (-1) else
  root ← gets k_vfsroot;
  let attr := mk_vattr (Z.lor S_IFREG (Z.land mode ACCESSPERMS)) in
  r ← vfs_create root path (Some attr) S_IFREG true;
  if negb (r.1 =? 0) then mret (-1) else
  let node := r.2 in
  ok ← (if size =? 0 then mret true
        else w ← vfs_write node (Some data) size 0 (Z.lor O_WRONLY O_TRUNC); mret (w.1 =? 0));
  vnode_release node ;;
  mret (if ok : bool then 0 else -1).

(** What the body of the loop does with an entry, once it is parsed. *)
Definition unpack_entry (name : list Z) (mode : Z) (data : list Z) (file_size : Z) : ST W Z :=
  path ← st_lift (initrd_normalize_path (Some name) PATH_MAX);
  match path with
  | None => st_fault
  | Some [] => mret 0
  | Some path =>
      if S_ISDIR mode then initrd_unpack_dir (Some path) mode
      else if S_ISREG mode then initrd_unpack_file (Some path) mode data file_size
      else mret 0
  end.

Fixpoint unpack_loop (fuel : nat) (bytes : list Z) (cursor end_ : Z) : ST W Z :=
  match fuel with
  | O => st_timeout
  | S fuel =>
      if negb (cursor + sizeof_cpio_newc_header <=? end_) then mret 0 else
      let field off := initrd_parse_hex (Some (drop (Z.to_nat (cursor + off)) bytes)) 8 in
      if negb (bool_decide (take 6 (drop (Z.to_nat cursor) bytes) = cpio_magic)) then mret (-1) else
      mode ← st_lift (field off_mode);
      if negb mode.2 then mret (-1) else
      name_size ← st_lift (field off_namesize);
      if negb name_size.2 || (name_size.1 =? 0) then mret (-1) else
      file_size ← st_lift (field off_filesize);
      if negb file_size.2 then mret (-1) else
      let name_at := cursor + sizeof_cpio_newc_header in
      if end_ <? name_at + name_size.1 then mret (-1) else
      let data_at := cursor + initrd_align4 (u64 (sizeof_cpio_newc_header + name_size.1)) in
      if end_ <? data_at + file_size.1 then mret (-1) else
      let name := drop (Z.to_nat name_at) bytes in
      trailer ← st_lift (initrd_string_equal (Some name) (Some (cpio_trailer ++ [NUL])));
      if trailer : bool then mret 0 else
      rc ← unpack_entry name mode.1 (drop (Z.to_nat data_at) bytes) file_size.1;
      if negb (rc =? 0) then mret (-1) else
      unpack_loop fuel bytes (data_at + initrd_align4 file_size.1) end_
  end.

(** Every round moves the cursor past a header. *)
Definition initrd_unpack (buffer : option (list Z)) (length_ : Z) : ST W Z :=
  match buffer with
  | None => mret (-1)
  | Some bytes =>
      if length_ =? 0 then mret (-1) else unpack_loop (S (Z.to_nat length_)) bytes 0 length_
  end.
End unpack.
