(* ===== verification/InitrdSpec.v ===== *)
(** The archive format of the initial ramdisk and the theorem that the unpacker
    decodes it: unpacking an encoded archive is unpacking its entries in
    order. *)
From S2P Require Import Prelude Kprintf Kformat Kenv Vfs Tmpfs TmpfsDir TmpfsVfs Initrd.

(** ** Header fields: eight hexadecimal digits, as ["%08x"] prints them *)

Definition hex8 (upper : bool) (v : Z) : list Z := unsigned_text 16 upper true false 8 v.

Lemma hex_digit_char upper d : 0 <= d < 16 -> hex_digit (digit_char upper d) = Some d.
Proof.
  intros Hd. unfold hex_digit, digit_char, ch_0, ch_A, ch_a. destruct (Z.ltb_spec d 10).
  - destruct (Z.leb_spec 48 (48 + d)), (Z.leb_spec (48 + d) 57); cbn; try lia. f_equal. lia.
  - destruct upper.
    + destruct (Z.leb_spec 48 (65 + (d - 10))), (Z.leb_spec (65 + (d - 10)) 57),
        (Z.leb_spec 97 (65 + (d - 10))), (Z.leb_spec (65 + (d - 10)) 102),
        (Z.leb_spec 65 (65 + (d - 10))), (Z.leb_spec (65 + (d - 10)) 70); cbn; try lia; f_equal; lia.
    + destruct (Z.leb_spec 48 (97 + (d - 10))), (Z.leb_spec (97 + (d - 10)) 57),
        (Z.leb_spec 97 (97 + (d - 10))), (Z.leb_spec (97 + (d - 10)) 102); cbn; try lia; f_equal; lia.
Qed.

Lemma land_low q d : 0 <= d < 16 -> Z.land (q * 16) d = 0.
Proof.
  intros Hd. apply Z.bits_inj'. intros n Hn. rewrite Z.land_spec, Z.bits_0. change 16 with (2 ^ 4).
  destruct (Z.lt_ge_cases n 4); [by rewrite Z.mul_pow2_bits_low|].
  assert (Z.testbit d n = false) as ->; [|by rewrite andb_false_r].
  rewrite <- (Z.mod_small d (2 ^ 4)) by lia. apply Z.mod_pow2_bits_high. lia.
Qed.

Lemma hex_step v d : 0 <= v -> 0 <= d < 16 -> Z.lor (u32 (Z.shiftl v 4)) d = u32 (16 * v + d).
Proof.
  intros Hv Hd. rewrite Z.shiftl_mul_pow2 by lia. change (2 ^ 4) with 16. unfold u32.
  replace (2 ^ 32) with (16 * 2 ^ 28) by done. rewrite (Z.mul_comm v), Z.mul_mod_distr_l by lia.
  rewrite Z.rem_mul_r by lia.
  assert ((16 * v + d) mod 16 = d) as -> by (rewrite Z.add_comm, (Z.mul_comm 16), Z.mod_add, Z.mod_small; lia).
  assert ((16 * v + d) / 16 = v) as -> by (rewrite (Z.mul_comm 16), Z.div_add_l, Z.div_small; lia).
  rewrite Z.mul_comm. pose proof (Z.add_lor_land (v mod 2 ^ 28 * 16) d) as E. rewrite (land_low _ _ Hd) in E. lia.
Qed.

Lemma parse_hex_digits upper ds rest : Forall (fun d => 0 <= d < 16) ds -> forall v, 0 <= v ->
  parse_hex_loop (length ds) ((digit_char upper <$> ds) ++ rest) v =
    Ok (foldl (fun v d => u32 (16 * v + d)) v ds, true).
Proof.
  induction 1 as [|d ds Hd _ IH]; intros v Hv; [done|]. cbn [length fmap list_fmap app parse_hex_loop foldl].
  rewrite hex_digit_char, hex_step by done. apply IH. apply u32_range.
Qed.

Lemma foldl_hex ds v : foldl (fun v d => u32 (16 * v + d)) (u32 v) ds = u32 (foldl (fun v d => 16 * v + d) v ds).
Proof.
  revert v. induction ds as [|d ds IH]; intros v; [done|]. cbn. rewrite <- IH. f_equal.
  unfold u32. rewrite <- Z.add_mod_idemp_l, Z.mul_mod_idemp_r, Z.add_mod_idemp_l by lia. done.
Qed.

Lemma foldl_of_digits ds : foldl (fun v d => 16 * v + d) 0 (rev ds) = of_digits 16 ds.
Proof.
  induction ds as [|d ds IH]; [done|]. cbn [rev]. rewrite foldl_app, IH. cbn. fold (of_digits 16 ds). lia.
Qed.

Lemma hex8_digits upper v : is_u32 v -> exists ds, hex8 upper v = digit_char upper <$> ds /\
  length ds = 8%nat /\ Forall (fun d => 0 <= d < 16) ds /\ foldl (fun v d => 16 * v + d) 0 ds = v.
Proof.
  intros Hv. set (ds := to_digits 64 16 v).
  assert (is_u64 v) as Hv' by (unfold is_u32, is_u64 in *; lia).
  assert (length ds <= 8)%nat as Hl.
  { apply to_digits_length; [lia|]. unfold is_u32 in Hv. change (Z.of_nat 8) with 8. lia. }
  assert (length (numeral 16 upper v) = length ds) as Hn by (unfold numeral; by rewrite length_fmap, length_rev).
  exists (replicate (8 - length ds) 0 ++ rev ds). split_and!.
  - unfold hex8, unsigned_text, field. rewrite fmap_app, fmap_replicate, Hn. f_equal.
    f_equal. lia.
  - rewrite length_app, length_replicate, length_rev. lia.
  - apply Forall_app. split; [apply Forall_replicate; lia|]. apply Forall_rev, to_digits_range; [lia|apply Hv].
  - rewrite foldl_app. assert (forall n, foldl (fun v d => 16 * v + d) 0 (replicate n 0) = 0) as ->.
    { induction n as [|n IH]; [done|]. exact IH. }
    rewrite foldl_of_digits. apply of_to_digits; [lia|]. split; [apply Hv|].
    apply (below_pow 16 v 4); [done|lia|lia|change (Z.of_nat 64) with 64; lia].
Qed.

Lemma hex8_length upper v : is_u32 v -> length (hex8 upper v) = 8%nat.
Proof. intros Hv. destruct (hex8_digits upper v Hv) as (ds & -> & Hl & _). by rewrite length_fmap. Qed.

Lemma parse_hex8 upper v rest : is_u32 v -> initrd_parse_hex (Some (hex8 upper v ++ rest)) 8 = Ok (v, true).
Proof.
  intros Hv. destruct (hex8_digits upper v Hv) as (ds & -> & Hl & Hr & Hval). unfold initrd_parse_hex.
  change (Z.to_nat 8) with 8%nat. rewrite <- Hl, parse_hex_digits by (done || lia).
  change 0 with (u32 0). rewrite foldl_hex, Hval. by rewrite u32_small.
Qed.

(** ** Alignment *)

Lemma align4_eq v : 0 <= v -> v + 3 < 2 ^ 64 -> initrd_align4 v = 4 * ((v + 3) / 4).
Proof.
  intros H0 Hv. unfold initrd_align4. rewrite u64_small by lia. rewrite not64_ldiff by lia.
  change 3 with (Z.ones 2) at 2.
  transitivity (Z.ldiff (v + 3) (Z.ones 2)).
  - apply Z.bits_inj'. intros n Hn. rewrite Z.land_spec, !Z.ldiff_spec.
    destruct (Z.lt_ge_cases n 64); [by rewrite (Z.ones_spec_low 64) by lia|].
    assert (Z.testbit (v + 3) n = false) as ->; [|done].
    rewrite <- (Z.mod_small (v + 3) (2 ^ 64)) by lia. apply Z.mod_pow2_bits_high. lia.
  - rewrite Z.ldiff_ones_r by lia. rewrite Z.shiftl_mul_pow2, Z.shiftr_div_pow2 by lia. change (2 ^ 2) with 4. lia.
Qed.

Lemma align4_pad v : 0 <= v -> v + 3 < 2 ^ 64 -> initrd_align4 v = v + (- v) mod 4.
Proof.
  intros H0 Hv. rewrite align4_eq by done.
  pose proof (Z.div_mod (v + 3) 4 ltac:(lia)). pose proof (Z.div_mod (- v) 4 ltac:(lia)).
  pose proof (Z.mod_pos_bound (v + 3) 4 ltac:(lia)). pose proof (Z.mod_pos_bound (- v) 4 ltac:(lia)). lia.
Qed.

(** ** Archives *)

(** An entry; the fields that the unpacker does not read are arbitrary. *)
Record entry := mk_entry {
  e_upper : bool; e_ino : list Z; e_mode : Z; e_mid : list Z; e_dev : list Z; e_check : list Z;
  e_name : cstr; e_data : list Z }.

Definition name_size (e : entry) : Z := Z.of_nat (length (e_name e)) + 1.
Definition file_size (e : entry) : Z := Z.of_nat (length (e_data e)).
Definition pad4 (n : Z) : list Z := replicate (Z.to_nat ((- n) mod 4)) NUL.

Definition encode_header (e : entry) : list Z :=
  cpio_magic ++ e_ino e ++ hex8 (e_upper e) (e_mode e) ++ e_mid e ++ hex8 (e_upper e) (file_size e) ++ e_dev e ++
  hex8 (e_upper e) (name_size e) ++ e_check e.
Definition encode_name (e : entry) : list Z :=
  e_name e ++ NUL :: pad4 (sizeof_cpio_newc_header + name_size e).
Definition encode (e : entry) : list Z :=
  encode_header e ++ encode_name e ++ e_data e ++ pad4 (file_size e).

Definition entry_ok (e : entry) : Prop :=
  length (e_ino e) = 8%nat /\ length (e_mid e) = 32%nat /\ length (e_dev e) = 32%nat /\ length (e_check e) = 8%nat /\
  is_u32 (e_mode e) /\ is_u32 (file_size e) /\ is_u32 (name_size e) /\ (NUL ∉ e_name e).

(** The path of an entry: leading ["./"] dropped, made absolute, cut to the
    size of the buffer; ["."] itself is no path. *)
Fixpoint strip_dots (fuel : nat) (name : cstr) : option cstr :=
  match fuel, name with
  | S fuel, [c] => if c =? dot then None else Some name
  | S fuel, c :: d :: r => if (c =? dot) && (d =? slash) then strip_dots fuel r else Some name
  | _, _ => Some name
  end.
Definition entry_path (name : cstr) : option cstr :=
  name ← strip_dots (S (length name)) name; Some (slash :: take (Z.to_nat (PATH_MAX - 2)) name).

(** Writing reads no more of the buffer than the size says. *)
Class ReadsBuffer (E F : Type) `{FsTable E F} : Prop :=
  write_reads o write a (b r : list Z) offset flags (w : world E F) : op_write (vops_of o) = Some write ->
    write a (Some (b ++ r)) (Z.of_nat (length b)) offset flags w = write a (Some b) (Z.of_nat (length b)) offset flags w.

Lemma drop_prefix {A} (l r : list A) n : length l = n -> drop n (l ++ r) = r.
Proof. intros <-. apply drop_app_length. Qed.

Lemma header_length e : entry_ok e -> length (encode_header e) = 110%nat.
Proof.
  intros (H1 & H2 & H3 & H4 & Hm & Hf & Hn & _). unfold encode_header.
  rewrite !length_app, !hex8_length, H1, H2, H3, H4 by done. done.
Qed.

(** The header fields, read at their offsets. *)
Lemma header_fields e rest : entry_ok e ->
  take 6 (encode_header e ++ rest) = cpio_magic /\
  initrd_parse_hex (Some (drop 14 (encode_header e ++ rest))) 8 = Ok (e_mode e, true) /\
  initrd_parse_hex (Some (drop 54 (encode_header e ++ rest))) 8 = Ok (file_size e, true) /\
  initrd_parse_hex (Some (drop 94 (encode_header e ++ rest))) 8 = Ok (name_size e, true).
Proof.
  intros (H1 & H2 & H3 & H4 & Hm & Hf & Hn & _). unfold encode_header. rewrite <- !app_assoc. split_and!; [done| | |].
  - rewrite (app_assoc cpio_magic), drop_prefix by (by rewrite length_app, H1). by apply parse_hex8.
  - rewrite (app_assoc cpio_magic), (app_assoc (_ ++ _)), (app_assoc (_ ++ _)), drop_prefix
      by (by rewrite !length_app, H1, H2, hex8_length). by apply parse_hex8.
  - rewrite (app_assoc cpio_magic), (app_assoc (_ ++ _)), (app_assoc (_ ++ _)), (app_assoc (_ ++ _)), (app_assoc (_ ++ _)), drop_prefix
      by (by rewrite !length_app, H1, H2, H3, !hex8_length). by apply parse_hex8.
Qed.

(** ** Names *)

Lemma skip_dots_ok f : forall g n rest, (length n < f)%nat -> (length n < g)%nat -> NUL ∉ n ->
  skip_dots f (n ++ NUL :: rest) = Ok ((fun l => l ++ NUL :: rest) <$> strip_dots g n).
Proof.
  induction f as [|f IH]; intros g n rest Hf Hg Hn; [lia|]. destruct g as [|g]; [lia|].
  destruct n as [|c n]; [done|].
  apply not_elem_of_cons in Hn as [Hc Hn]. cbn [app skip_dots]. unfold mbind, outcome_bind. cbn [head deref tail].
  destruct n as [|d n]; cbn [app head deref strip_dots tail].
  - destruct (Z.eqb_spec c dot); cbn [negb andb]; [|done].
    change (NUL =? slash) with false. change (NUL =? NUL) with true. done.
  - apply not_elem_of_cons in Hn as [Hd Hn]. destruct (Z.eqb_spec c dot); cbn [negb andb]; [|done].
    destruct (Z.eqb_spec d slash); cbn [andb]; [simpl in *; apply IH; [lia|lia|done]|].
    destruct (Z.eqb_spec d NUL); [congruence|]. done.
Qed.

Lemma strip_dots_suffix f n l : strip_dots f n = Some l -> exists p, n = p ++ l.
Proof.
  revert n. induction f as [|f IH]; intros n Hl; [exists []; cbn in Hl; by simplify_eq|].
  destruct n as [|c [|d n]]; cbn in Hl; [exists []; by simplify_eq| |].
  - destruct (c =? dot); simplify_eq. by exists [].
  - destruct ((c =? dot) && (d =? slash)); [|exists []; by simplify_eq].
    destruct (IH n Hl) as [p ->]. by exists (c :: d :: p).
Qed.

Lemma copy_name_ok room n rest : NUL ∉ n -> copy_name room (n ++ NUL :: rest) = Ok (take room n).
Proof.
  revert room. induction n as [|c n IH]; intros room Hn; [by destruct room|].
  apply not_elem_of_cons in Hn as [Hc Hn]. destruct room as [|room]; cbn.
  - by destruct (Z.eqb_spec c NUL); [congruence|].
  - destruct (Z.eqb_spec c NUL); [congruence|]. by rewrite IH.
Qed.

Lemma normalize_path_ok n rest : NUL ∉ n ->
  initrd_normalize_path (Some (n ++ NUL :: rest)) PATH_MAX = Ok (Some (default [] (entry_path n))).
Proof.
  intros Hn. unfold initrd_normalize_path, entry_path, skip_name. change (PATH_MAX =? 0) with false. cbn match.
  rewrite (skip_dots_ok _ (S (length n))) by (try done; rewrite ?length_app; simpl; lia).
  destruct (strip_dots (S (length n)) n) as [l|] eqn:Hl; [|done].
  destruct (strip_dots_suffix _ _ _ Hl) as [p ->]. apply not_elem_of_app in Hn as [_ Hn].
  unfold copy_rest, mbind, outcome_bind. cbn [fmap option_fmap option_map]. cbn -[copy_name PATH_MAX take].
  change (1 <? PATH_MAX) with true. cbn -[copy_name PATH_MAX take]. by rewrite copy_name_ok.
Qed.

Lemma trailer_test n rest : NUL ∉ n ->
  initrd_string_equal (Some (n ++ NUL :: rest)) (Some (cpio_trailer ++ [NUL])) = Ok (bool_decide (n = cpio_trailer)).
Proof.
  intros Hn. unfold initrd_string_equal. rewrite (to_nul_app n rest Hn).
  assert (NUL ∉ cpio_trailer) as Ht by by apply (bool_decide_unpack (NUL ∉ cpio_trailer)).
  rewrite (to_nul_app cpio_trailer [] Ht).
  unfold mbind, outcome_bind. f_equal. exact (vfs_string_equal_eq n cpio_trailer).
Qed.

(** ** Decoding *)

Section decode.
Context {E F : Type} `{Kenv E} `{FsTable E F} `{!ReadsBuffer E F}.
Abbreviation W := (world E F).

Definition apply_entry (e : entry) : ST W Z :=
  match entry_path (e_name e) with
  | None => mret 0
  | Some path =>
      if S_ISDIR (e_mode e) then initrd_unpack_dir (Some path) (e_mode e)
      else if S_ISREG (e_mode e) then initrd_unpack_file (Some path) (e_mode e) (e_data e) (file_size e)
      else mret 0
  end.
(** The entries in order, up to the first failure. *)
Fixpoint apply_entries (es : list entry) : ST W Z :=
  match es with
  | [] => mret 0
  | e :: es => rc ← apply_entry e; if negb (rc =? 0) then mret (-1) else apply_entries es
  end.

Lemma vfs_write_reads node (b r : list Z) offset flags (w : W) :
  vfs_write node (Some (b ++ r)) (Z.of_nat (length b)) offset flags w =
  vfs_write node (Some b) (Z.of_nat (length b)) offset flags w.
Proof.
  unfold vfs_write. destruct node as [a|]; [|done]. apply bind_ext; [done|]. intros v w'.
  destruct (vn_ops v) as [o|]; [|done]. cbn. destruct (op_write (vops_of o)) eqn:Hw; [|done]. by eapply write_reads.
Qed.

Lemma unpack_file_reads path mode (b r : list Z) (w : W) :
  initrd_unpack_file path mode (b ++ r) (Z.of_nat (length b)) w = initrd_unpack_file path mode b (Z.of_nat (length b)) w.
Proof.
  unfold initrd_unpack_file. apply bind_ext; [done|]. intros rc w1. destruct (rc =? 0); [|done]. cbn [negb].
  apply bind_ext; [done|]. intros root w2. apply bind_ext; [done|]. intros x w3.
  destruct (x.1 =? 0); [|done]. cbn [negb]. apply bind_ext; [|done].
  destruct (Z.of_nat (length b) =? 0); [done|]. apply bind_ext; [|done]. apply vfs_write_reads.
Qed.

Lemma unpack_entry_ok e rest1 rest2 (w : W) : NUL ∉ e_name e ->
  unpack_entry (e_name e ++ NUL :: rest1) (e_mode e) (e_data e ++ rest2) (file_size e) w = apply_entry e w.
Proof.
  intros Hn. unfold unpack_entry, apply_entry. rewrite (lift_bind _ _ _ _ (normalize_path_ok _ rest1 Hn)).
  unfold entry_path. destruct (strip_dots _ (e_name e)) as [l|]; [|done]. cbn [mbind option_bind default].
  destruct (S_ISDIR (e_mode e)); [done|]. destruct (S_ISREG (e_mode e)); [|done]. apply unpack_file_reads.
Qed.

Lemma pad4_length n : Z.of_nat (length (pad4 n)) = (- n) mod 4.
Proof. unfold pad4. rewrite length_replicate. pose proof (Z.mod_pos_bound (- n) 4). lia. Qed.

(** Where the parts of an entry are. *)
Lemma encode_lengths e : entry_ok e ->
  Z.of_nat (length (encode_header e ++ encode_name e)) = initrd_align4 (u64 (sizeof_cpio_newc_header + name_size e)) /\
  Z.of_nat (length (e_data e ++ pad4 (file_size e))) = initrd_align4 (file_size e).
Proof.
  intros Hok. pose proof (header_length e Hok) as Hh. destruct Hok as (_ & _ & _ & _ & _ & Hf & Hn & _).
  unfold is_u32 in *. rewrite !length_app, !Nat2Z.inj_add, Hh, u64_small by (unfold sizeof_cpio_newc_header; lia).
  rewrite !align4_pad by (unfold sizeof_cpio_newc_header; lia). unfold encode_name. rewrite length_app. cbn [length].
  pose proof (pad4_length (sizeof_cpio_newc_header + name_size e)). pose proof (pad4_length (file_size e)).
  unfold name_size, file_size, sizeof_cpio_newc_header in *. lia.
Qed.

(** One round of the loop, at a header: all checks on the sizes pass. *)
Lemma unpack_parsed fuel bytes cursor end_ e rest (w : W) : 0 <= cursor -> entry_ok e ->
  let data_at := cursor + initrd_align4 (u64 (sizeof_cpio_newc_header + name_size e)) in
  drop (Z.to_nat cursor) bytes = encode_header e ++ rest ->
  cursor + sizeof_cpio_newc_header + name_size e <= end_ -> data_at + file_size e <= end_ ->
  unpack_loop (S fuel) bytes cursor end_ w =
    (trailer ← st_lift (initrd_string_equal (Some rest) (Some (cpio_trailer ++ [NUL])));
     if trailer : bool then mret 0 else
     rc ← unpack_entry rest (e_mode e) (drop (Z.to_nat data_at) bytes) (file_size e);
     if negb (rc =? 0) then mret (-1) else unpack_loop fuel bytes (data_at + initrd_align4 (file_size e)) end_) w.
Proof.
  intros Hc Hok data_at Hd Hend1 Hend2. pose proof (header_length e Hok) as Hh.
  destruct (header_fields e rest Hok) as (F0 & F1 & F2 & F3).
  assert (forall off, 0 <= off -> drop (Z.to_nat (cursor + off)) bytes = drop (Z.to_nat off) (encode_header e ++ rest)) as Hat.
  { intros off Ho. rewrite <- Hd, drop_drop. f_equal. lia. }
  change 14%nat with (Z.to_nat off_mode) in F1. change 54%nat with (Z.to_nat off_filesize) in F2.
  change 94%nat with (Z.to_nat off_namesize) in F3. rewrite <- Hat in F1, F2, F3 by done.
  cbn [unpack_loop]. rewrite Hd, F0, bool_decide_true by done. subst data_at.
  assert (0 < name_size e) by (unfold name_size; lia).
  destruct (Z.leb_spec (cursor + sizeof_cpio_newc_header) end_); [|lia]. cbn [negb].
  rewrite (lift_bind _ _ _ _ F1). cbn [fst snd negb]. rewrite (lift_bind _ _ _ _ F3). cbn [fst snd negb].
  destruct (Z.eqb_spec (name_size e) 0); [lia|]. cbn [orb].
  rewrite (lift_bind _ _ _ _ F2). cbn [fst snd negb].
  destruct (Z.ltb_spec end_ (cursor + sizeof_cpio_newc_header + name_size e)); [lia|].
  destruct (Z.ltb_spec end_ (cursor + initrd_align4 (u64 (sizeof_cpio_newc_header + name_size e)) + file_size e)); [lia|].
  rewrite (Hat sizeof_cpio_newc_header) by done.
  replace (Z.to_nat sizeof_cpio_newc_header) with 110%nat by done. by rewrite drop_prefix.
Qed.

(** One round of the loop, at an encoded entry. *)
Lemma unpack_step fuel bytes cursor end_ e rest (w : W) : 0 <= cursor -> entry_ok e ->
  drop (Z.to_nat cursor) bytes = encode e ++ rest -> cursor + Z.of_nat (length (encode e)) <= end_ ->
  unpack_loop (S fuel) bytes cursor end_ w =
    (if bool_decide (e_name e = cpio_trailer) then mret 0 else
     rc ← apply_entry e; if negb (rc =? 0) then mret (-1) else
     unpack_loop fuel bytes (cursor + Z.of_nat (length (encode e))) end_) w.
Proof.
  intros Hc Hok Hd Hend. destruct (encode_lengths e Hok) as [L1 L2]. pose proof (header_length e Hok) as Hh.
  assert (Z.of_nat (length (encode e)) = Z.of_nat (length (encode_header e ++ encode_name e)) +
    Z.of_nat (length (e_data e ++ pad4 (file_size e)))) as L by (unfold encode; rewrite !length_app; lia).
  assert (file_size e <= Z.of_nat (length (e_data e ++ pad4 (file_size e)))) by (unfold file_size; rewrite length_app; lia).
  assert (sizeof_cpio_newc_header + name_size e <= Z.of_nat (length (encode_header e ++ encode_name e))).
  { rewrite length_app, Hh. unfold encode_name, name_size, sizeof_cpio_newc_header. rewrite length_app. cbn [length]. lia. }
  rewrite (unpack_parsed fuel bytes cursor end_ e (encode_name e ++ e_data e ++ pad4 (file_size e) ++ rest)) by
    (first [done|lia|rewrite Hd; unfold encode; by rewrite <- !app_assoc]).
  rewrite <- L1, <- L2. replace (Z.to_nat (cursor + _)) with (Z.to_nat cursor + length (encode_header e ++ encode_name e))%nat by lia.
  rewrite <- drop_drop, Hd. unfold encode at 1. rewrite <- !app_assoc, (app_assoc (encode_header e)), drop_prefix by done.
  unfold encode_name. rewrite <- app_assoc. cbn [app]. destruct Hok as (_ & _ & _ & _ & _ & _ & _ & Hnul).
  rewrite (lift_bind _ _ _ _ (trailer_test _ _ Hnul)). destruct (bool_decide (e_name e = cpio_trailer)); [done|].
  apply bind_ext; [by apply unpack_entry_ok|]. intros rc w'. destruct (rc =? 0); [|done]. cbn [negb]. f_equal.
  rewrite L. unfold encode_name. lia.
Qed.

Lemma unpack_loop_ok es : forall fuel pre t beyond end_ bytes (w : W),
  Forall (fun e => entry_ok e /\ e_name e <> cpio_trailer) es -> entry_ok t -> e_name t = cpio_trailer ->
  bytes = pre ++ concat (encode <$> es) ++ encode t ++ beyond ->
  end_ = Z.of_nat (length (pre ++ concat (encode <$> es) ++ encode t)) ->
  (length es < fuel)%nat ->
  unpack_loop fuel bytes (Z.of_nat (length pre)) end_ w = apply_entries es w.
Proof.
  induction es as [|e es IH]; intros fuel pre t beyond end_ bytes w Hes Ht Htn Hb Hend Hf;
    destruct fuel as [|fuel]; try lia.
  - rewrite (unpack_step fuel bytes _ end_ t beyond) by
      (first [done|lia|subst; rewrite Nat2Z.id; by apply drop_prefix|subst; rewrite !length_app; lia]).
    by rewrite bool_decide_true.
  - inversion Hes as [|? ? [Hok Hne] Hes']; subst. cbn [fmap list_fmap concat].
    rewrite (unpack_step fuel _ _ _ e (concat (encode <$> es) ++ encode t ++ beyond)) by
      (first [done|lia|rewrite Nat2Z.id, <- app_assoc; by apply drop_prefix|rewrite !length_app; lia]).
    rewrite bool_decide_false by done. cbn [apply_entries]. apply bind_ext; [done|]. intros rc w'.
    destruct (rc =? 0); [|done]. cbn [negb]. rewrite <- Nat2Z.inj_add, <- length_app.
    apply (IH fuel (pre ++ encode e) t beyond); [done|done|done| | |simpl in Hf; lia].
    + by rewrite <- !app_assoc.
    + f_equal. f_equal. by rewrite <- !app_assoc.
Qed.

Lemma encode_length e : entry_ok e -> (110 <= length (encode e))%nat.
Proof. intros Hok. unfold encode. rewrite length_app, (header_length e Hok). lia. Qed.

Lemma entries_length es : Forall (fun e => entry_ok e /\ e_name e <> cpio_trailer) es ->
  (length es <= length (concat (encode <$> es)))%nat.
Proof.
  induction 1 as [|e es [Hok _] _ IH]; [done|]. cbn [fmap list_fmap concat length]. rewrite length_app.
  pose proof (encode_length e Hok). fold (encode <$> es). unfold fmap in IH |- *. lia.
Qed.

(** C23: the unpacker decodes the cpio "newc" format. Unpacking an archive (the
    encodings of any well-formed entries, an entry named ["TRAILER!!!"], and
    anything after it) is unpacking the entries in order up to the first that
    fails: every path, mode and content is read back from the headers, names and
    padding, and nothing else is done. *)
Theorem initrd_unpack_decodes es t beyond (w : W) :
  Forall (fun e => entry_ok e /\ e_name e <> cpio_trailer) es -> entry_ok t -> e_name t = cpio_trailer ->
  let archive := concat (encode <$> es) ++ encode t in
  initrd_unpack (Some (archive ++ beyond)) (Z.of_nat (length archive)) w = apply_entries es w.
Proof.
  intros Hes Ht Htn archive. unfold initrd_unpack. pose proof (entries_length es Hes). pose proof (encode_length t Ht).
  assert (length archive = length (concat (encode <$> es)) + length (encode t))%nat as Hl by apply length_app.
  destruct (Z.eqb_spec (Z.of_nat (length archive)) 0); [lia|].
  change 0 with (Z.of_nat (length (@nil Z))). eapply unpack_loop_ok; [done|exact Ht|done| | |rewrite Nat2Z.id; lia].
  - subst archive. by rewrite <- app_assoc.
  - done.
Qed.

Lemma to_nul_none b : NUL ∉ b -> to_nul b = Fault.
Proof.
  induction b as [|c b IH]; intros Hb; [done|]. apply not_elem_of_cons in Hb as [Hc Hb]. cbn.
  destruct (Z.eqb_spec c NUL); [congruence|]. by rewrite IH.
Qed.

(** The size checks do not keep the unpacker inside the archive. An entry
    without data at the end of the archive whose name fills its [namesize] bytes
    without a terminator passes every check, and comparing the name with the
    trailer reads past the end of the memory that holds the archive. *)
Theorem initrd_unpack_overread e c (w : W) : entry_ok e -> e_data e = [] -> c <> NUL ->
  (sizeof_cpio_newc_header + name_size e) mod 4 = 0 ->
  let archive := encode_header e ++ e_name e ++ [c] in
  initrd_unpack (Some archive) (Z.of_nat (length archive)) w = Fault.
Proof.
  intros Hok Hdata Hc Hal archive. pose proof (header_length e Hok) as Hh.
  assert (Z.of_nat (length archive) = sizeof_cpio_newc_header + name_size e) as Hl.
  { subst archive. rewrite !length_app, Hh. unfold name_size, sizeof_cpio_newc_header. cbn [length]. lia. }
  assert (file_size e = 0) as Hf by (unfold file_size; by rewrite Hdata).
  assert (sizeof_cpio_newc_header = 110) as Hsz by done. assert (0 < name_size e < 2 ^ 32) as Hn.
  { destruct Hok as (_ & _ & _ & _ & _ & _ & Hn & _). unfold is_u32, name_size in *. lia. }
  unfold initrd_unpack. destruct (Z.eqb_spec (Z.of_nat (length archive)) 0); [lia|].
  rewrite (unpack_parsed _ archive 0 _ e (e_name e ++ [c])); [|lia|exact Hok|reflexivity|lia|].
  - unfold initrd_string_equal. rewrite (to_nul_none (e_name e ++ [c])); [reflexivity|]. intros [Hin|Hin]%elem_of_app.
    + by apply Hok in Hin.
    + apply list_elem_of_singleton in Hin. congruence.
  - rewrite u64_small, align4_pad, Hl, Hf by lia.
    assert ((- (sizeof_cpio_newc_header + name_size e)) mod 4 = 0) as -> by (apply Z.mod_opp_l_z; lia). lia.
Qed.
End decode.

(** ** The in-memory file system *)

Lemma get_bytes_prefix (b r : list Z) : get_bytes 0 (Z.of_nat (length b)) (b ++ r) = get_bytes 0 (Z.of_nat (length b)) b.
Proof.
  unfold get_bytes. destruct (Z.of_nat (length b) =? 0); [done|]. rewrite length_app.
  rewrite !(proj2 (Z.leb_le _ _)) by lia. cbn [andb]. change (Z.to_nat 0) with 0%nat. rewrite !drop_0, Nat2Z.id.
  by rewrite take_app_length, take_ge.
Qed.

#[export] Instance tmpfs_reads {E} `{Kenv E} : ReadsBuffer E tmpfs.
Proof.
  intros o write a b r offset flags w Hw. destruct (tmpfs_table_only (E := E) o) as [Ho|Ho]; rewrite Ho in Hw; [|done].
  injection Hw as <-. unfold tmpfs_write. cbn match. apply bind_ext; [done|]. intros t w1. apply bind_ext; [done|].
  intros v w2. destruct t as [t|]; [|done]. destruct (negb (S_ISREG (vn_type v))); [done|].
  apply bind_ext; [done|]. intros fs w3. apply bind_ext; [done|]. intros offset' w4.
  apply bind_ext; [done|]. intros _ w5. apply bind_ext; [done|]. intros rc w6. apply bind_ext; [|done].
  destruct ((rc =? 0) && _); [|done]. cbn [from_option]. unfold id. by rewrite get_bytes_prefix.
Qed.

(** A directory [./etc] and a file [./etc/motd] with five bytes, unpacked into
    an empty file system. *)
Definition zeros8 : list Z := replicate 8 48.
Definition zeros32 : list Z := replicate 32 48.
Definition plain_entry (mode : Z) (name : cstr) (data : list Z) : entry :=
  mk_entry false zeros8 mode zeros32 zeros32 zeros8 name data.
Definition name_etc : cstr := [101; 116; 99].
Definition name_motd : cstr := [109; 111; 116; 100].
Definition demo_entries : list entry :=
  [plain_entry 0x41ED [dot] []; plain_entry 0x41ED (dot :: slash :: name_etc) [];
   plain_entry 0x81A4 (name_etc ++ slash :: name_motd) [104; 101; 108; 108; 111]].
Definition demo_trailer : entry := plain_entry 0 cpio_trailer [].
Definition demo_archive : list Z := concat (encode <$> demo_entries) ++ encode demo_trailer.
Definition demo_unpacked : world bump tmpfs := after (initrd_unpack (Some (demo_archive ++ [1; 2; 3])) 480) demo_mounted.

Lemma plain_entry_ok mode name data : is_u32 mode -> Z.of_nat (length data) < 2 ^ 32 ->
  Z.of_nat (length name) + 1 < 2 ^ 32 -> NUL ∉ name -> entry_ok (plain_entry mode name data).
Proof. intros. unfold entry_ok, name_size, file_size, is_u32 in *. cbn. split_and!; try done; lia. Qed.

Lemma demo_entries_ok : Forall (fun e => entry_ok e /\ e_name e <> cpio_trailer) demo_entries.
Proof.
  unfold demo_entries. repeat constructor; try discriminate; (apply plain_entry_ok; [split; [discriminate|reflexivity]|reflexivity|reflexivity|]);
    apply (bool_decide_unpack _); vm_compute; exact I.
Qed.

Lemma initrd_unpack_decodes_witness :
  length demo_archive = 480%nat /\
  apply_entries demo_entries demo_mounted = Ok (0, demo_unpacked) /\
  exists n w, vfs_lookup true None (Some (slash :: name_etc ++ slash :: name_motd)) false 0 demo_unpacked = Ok ((0, (Some n, None)), w) /\
    (contents <$> t_nodes (k_fs w) !! n) = Some [104; 101; 108; 108; 111].
Proof.
  split; [vm_compute; reflexivity|]. split.
  - rewrite <- (initrd_unpack_decodes demo_entries demo_trailer [1; 2; 3] demo_mounted demo_entries_ok).
    + vm_compute. reflexivity.
    + apply plain_entry_ok; [split; [discriminate|reflexivity]|reflexivity|reflexivity|].
      apply (bool_decide_unpack _); vm_compute; exact I.
    + reflexivity.
  - eexists _, _. split; vm_compute; reflexivity.
Defined.

(** A name of two bytes and no terminator. *)
Lemma initrd_unpack_overread_witness :
  initrd_unpack (Some (encode_header (plain_entry 0x81A4 [97] []) ++ [97; 98])) 112 demo_mounted = Fault.
Proof.
  apply (initrd_unpack_overread (plain_entry 0x81A4 [97] []) 98 demo_mounted).
  - apply plain_entry_ok; [split; [discriminate|reflexivity]|reflexivity|reflexivity|].
    apply (bool_decide_unpack _); vm_compute; exact I.
  - reflexivity.
  - discriminate.
  - reflexivity.
Defined.
