(* ===== verification/Sdi.v ===== *)
(** The core of the driver interface, [kernel/src/sdi/sdi.c] and [sdi.h]: the
    registry of drivers, their lifecycle and the calls to the host.

    A driver descriptor is constant data at an address; [drivers] is the memory
    of descriptors. The functions in its operations table are code outside the
    kernel: they are arbitrary actions on the whole state of the interface, so
    that they may call back into it. The functions of the host are the interface
    [SdiHost] over a state of their own. A C string is the list of the bytes
    that can be read from the pointer on; a structure passed to the host is its
    bytes. *)
From S2P Require Import Prelude StringLib WordMem.

Definition SDI_VERSION_MAJOR : Z := 1.
Definition SDI_VERSION_MINOR : Z := 0.
Definition SDI_VERSION_PATCH : Z := 0.
Definition SDI_VERSION_ENCODE (major minor patch : Z) : Z :=
  Z.lor (Z.lor (Z.shiftl (Z.land major 0xff) 24) (Z.shiftl (Z.land minor 0xfff) 12)) (Z.land patch 0xfff).
Definition SDI_ABI_VERSION : Z := SDI_VERSION_ENCODE SDI_VERSION_MAJOR SDI_VERSION_MINOR SDI_VERSION_PATCH.
Definition SDI_NULL_HANDLE : Z := 0.
Definition SDI_MAX_HOST_NAME : Z := 64.
Definition SDI_MAX_REGISTERED_DRIVERS : Z := 64.
Definition SDI_REGISTRY_CAPACITY : Z := SDI_MAX_REGISTERED_DRIVERS.

Definition SDI_OK : Z := 0.
Definition SDI_ERR_NOMEM : Z := -2.
Definition SDI_ERR_INVAL : Z := -3.
Definition SDI_ERR_UNSUPPORTED : Z := -4.
Definition SDI_ERR_BUSY : Z := -5.
Definition SDI_ERR_RANGE : Z := -12.
Definition SDI_ERR_EXISTS : Z := -15.
Definition SDI_ERR_NOT_FOUND : Z := -16.
Definition SDI_ERR_SHORT : Z := -18.
Definition SDI_ERR_NOT_READY : Z := -19.

Definition SDI_CAP_CORE : Z := Z.shiftl 1 0.
Definition SDI_CAP_LOG : Z := Z.shiftl 1 1.
Definition SDI_CAP_ALLOC : Z := Z.shiftl 1 2.
Definition SDI_CAP_TIME : Z := Z.shiftl 1 3.
Definition SDI_CAP_CALL : Z := Z.shiftl 1 4.
Definition SDI_CAP_REGISTRY : Z := Z.shiftl 1 5.
Definition SDI_CAP_PIO : Z := Z.shiftl 1 8.
Definition SDI_CAP_IRQ : Z := Z.shiftl 1 9.
Definition SDI_CAP_REQUIRED_CORE : Z :=
  foldr Z.lor 0 [SDI_CAP_CORE; SDI_CAP_LOG; SDI_CAP_ALLOC; SDI_CAP_TIME; SDI_CAP_CALL; SDI_CAP_REGISTRY].

(** Opcodes of [sdi_call]. *)
Definition SDI_OP_NOP : Z := 0x0.
Definition SDI_OP_GET_RESOURCE : Z := 0x101.
Definition SDI_OP_MMIO_MAP : Z := 0x200.
Definition SDI_OP_MMIO_UNMAP : Z := 0x201.
Definition SDI_OP_MMIO_READ : Z := 0x202.
Definition SDI_OP_MMIO_WRITE : Z := 0x203.
Definition SDI_OP_MMIO_BARRIER : Z := 0x204.
Definition SDI_OP_PIO_READ : Z := 0x280.
Definition SDI_OP_PIO_WRITE : Z := 0x281.
Definition SDI_OP_IRQ_BIND : Z := 0x300.
Definition SDI_OP_IRQ_UNBIND : Z := 0x301.
Definition SDI_OP_IRQ_ACK : Z := 0x302.
Definition SDI_OP_IRQ_MASK : Z := 0x303.
Definition SDI_OP_IRQ_UNMASK : Z := 0x304.
Definition SDI_OP_DMA_ALLOC : Z := 0x400.
Definition SDI_OP_DMA_FREE : Z := 0x401.
Definition SDI_OP_CLASS_REGISTER : Z := 0x500.
Definition SDI_OP_CLASS_UNREGISTER : Z := 0x501.

(** ** Strings *)

Abbreviation cstr := (list Z).

Fixpoint strlen_loop (s : cstr) (n : Z) : outcome Z :=
  match s with
  | [] => Fault
  | c :: s => if c =? 0 then Ok n else strlen_loop s (n + 1)
  end.
Definition sdi_strlen_ (s : option cstr) : outcome Z :=
  match s with None => Ok 0 | Some s => strlen_loop s 0 end.

Fixpoint streq_loop (a b : cstr) : outcome bool :=
  match a, b with
  | x :: a, y :: b => if negb (x =? y) then Ok false else if x =? 0 then Ok true else streq_loop a b
  | _, _ => Fault
  end.
Definition sdi_streq_ (a b : option cstr) : outcome bool :=
  match a, b with Some a, Some b => streq_loop a b | _, _ => Ok false end.

(** Copies into the bytes [dst] from index [i] on, up to [cap] with the
    terminator. *)
Fixpoint copy_loop (cap i : Z) (src dst : cstr) : outcome cstr :=
  let finish := Ok (<[Z.to_nat i := 0]> dst) in
  if cap <=? i + 1 then finish else
  match src with
  | [] => Fault
  | c :: src => if c =? 0 then finish else copy_loop cap (i + 1) src (<[Z.to_nat i := c]> dst)
  end.
Definition sdi_copy_str_ (dst : cstr) (cap : Z) (src : option cstr) : outcome cstr :=
  if cap =? 0 then Ok dst else
  match src with
  | None => Ok (<[0%nat := 0]> dst)
  | Some src => copy_loop cap 0 src dst
  end.

(** ** Data *)

(** The host table of [sdi_init]; its functions are pointers here. *)
Record host_ops := mk_host_ops {
  ho_size : Z; ho_version : Z;
  ho_name : option cstr;
  ho_caps : Z;
  ho_max_drivers : Z;
  ho_log : ptr; ho_alloc : ptr; ho_free : ptr; ho_now_ns : ptr; ho_call : ptr;
}.
Definition sizeof_host_ops : Z := 80.
Record init_options := mk_options { io_max_drivers : Z; io_flags : Z }.

Record match_id := mk_match { mi_kind : Z; mi_flags : Z; mi_vendor : Z; mi_device : Z }.
Record probe_info := mk_probe { pi_match : match_id; pi_resources : Z; pi_properties : Z }.
Record probe_result := mk_result { pr_size : Z; pr_version : Z; pr_score : Z; pr_flags : Z }.
Definition sizeof_probe_result : Z := 24.
Record attach_args := mk_attach { aa_match : option match_id }.
Record info := mk_info {
  in_size : Z; in_version : Z; in_major : Z; in_minor : Z; in_patch : Z; in_pointer_bits : Z;
  in_caps : Z; in_max_drivers : Z; in_driver_count : Z; in_host_name : cstr;
}.
Definition sizeof_info : Z := 104.

Record entry := mk_entry { re_handle : Z; re_driver : ptr; re_used : bool }.
Definition free_entry : entry := mk_entry SDI_NULL_HANDLE None false.

(** The functions that the host table points to. [host_call] gets the input
    bytes with their size and the output buffer with its size, and returns the
    status with the buffer and the size as it leaves them. *)
Record reply := mk_reply { rp_status : Z; rp_out : option (list Z); rp_size : option Z }.
Class SdiHost (E : Type) := {
  host_log : Z -> option cstr -> cstr -> E -> E;
  host_alloc : Z -> Z -> E -> outcome (ptr * E);
  host_free : Z -> E -> outcome E;
  host_now_ns : E -> Z * E;
  host_call : Z -> Z -> option (list Z) -> Z -> option (list Z) -> option Z -> E -> outcome (reply * E);
}.

Record sdi (E : Type) := mk_sdi {
  s_host : host_ops;         (* g_sdi_host *)
  s_registry : list entry;   (* g_sdi_registry *)
  s_max : Z;                 (* g_sdi_max_drivers *)
  s_count : Z;               (* g_sdi_driver_count *)
  s_next : Z;                (* g_sdi_next_handle *)
  s_init : bool;             (* g_sdi_initialized *)
  s_env : E;                 (* the state of the host *)
}.
Arguments mk_sdi {E}.
Arguments s_host {E}.
Arguments s_registry {E}.
Arguments s_max {E}.
Arguments s_count {E}.
Arguments s_next {E}.
Arguments s_init {E}.
Arguments s_env {E}.

Record driver_ops (E : Type) := mk_ops {
  op_size : Z; op_version : Z;
  op_init : option (ST (sdi E) Z);
  op_fini : option (ST (sdi E) Z);
  op_probe : option (probe_info -> probe_result -> ST (sdi E) (Z * probe_result));
  op_attach : option (attach_args -> Z -> ST (sdi E) (Z * Z));
  op_start : option (Z -> ST (sdi E) Z);
  op_stop : option (Z -> ST (sdi E) Z);
  op_suspend : option (Z -> Z -> ST (sdi E) Z);
  op_resume : option (Z -> ST (sdi E) Z);
  op_detach : option (Z -> ST (sdi E) Z);
  op_remove : option (Z -> ST (sdi E) Z);
}.
Definition sizeof_driver_ops : Z := 88.
Arguments op_size {E}.
Arguments op_version {E}.
Arguments op_init {E}.
Arguments op_fini {E}.
Arguments op_probe {E}.
Arguments op_attach {E}.
Arguments op_start {E}.
Arguments op_stop {E}.
Arguments op_suspend {E}.
Arguments op_resume {E}.
Arguments op_detach {E}.
Arguments op_remove {E}.
Arguments mk_ops {E}.

Record driver_desc (E : Type) := mk_desc {
  dd_size : Z; dd_version : Z;
  dd_name : option cstr;
  dd_abi_major : Z;
  dd_required_caps : Z;
  dd_optional_caps : Z;
  dd_matches : option (list match_id);
  dd_match_count : Z;
  dd_ops : option (driver_ops E);
}.
Definition sizeof_driver_desc : Z := 96.
Arguments dd_size {E}.
Arguments dd_version {E}.
Arguments dd_name {E}.
Arguments dd_abi_major {E}.
Arguments dd_required_caps {E}.
Arguments dd_optional_caps {E}.
Arguments dd_matches {E}.
Arguments dd_match_count {E}.
Arguments dd_ops {E}.
Arguments mk_desc {E}.

(** Before [sdi_init], as the static initialisers leave it. *)
Definition sdi_cold {E} (e : E) : sdi E :=
  mk_sdi (mk_host_ops 0 0 None 0 0 None None None None None)
    (replicate (Z.to_nat SDI_REGISTRY_CAPACITY) free_entry) 0 0 1 false e.

Definition sdi_check_abi_ (size min_size version : Z) : Z :=
  if size <? min_size then SDI_ERR_SHORT
  else if negb (Z.land (Z.shiftr version 24) 0xff =? SDI_VERSION_MAJOR) then SDI_ERR_UNSUPPORTED
  else SDI_OK.

Section core.
Context {E : Type} `{!SdiHost E} (drivers : Z -> option (driver_desc E)).
Abbreviation S := (sdi E).

Definition set_registry (r : list entry) (s : S) : S :=
  mk_sdi (s_host s) r (s_max s) (s_count s) (s_next s) (s_init s) (s_env s).
Definition set_count (n : Z) (s : S) : S :=
  mk_sdi (s_host s) (s_registry s) (s_max s) n (s_next s) (s_init s) (s_env s).
Definition set_next (h : Z) (s : S) : S :=
  mk_sdi (s_host s) (s_registry s) (s_max s) (s_count s) h (s_init s) (s_env s).
Definition set_env (e : E) (s : S) : S :=
  mk_sdi (s_host s) (s_registry s) (s_max s) (s_count s) (s_next s) (s_init s) e.

Definition get_entry (i : nat) : ST S entry := fun s =>
  match s_registry s !! i with Some e => Ok (e, s) | None => Fault end.
Definition set_entry (i : nat) (e : entry) : ST S unit := fun s =>
  match s_registry s !! i with Some _ => Ok (tt, set_registry (<[i := e]> (s_registry s)) s) | None => Fault end.
Definition get_driver (d : Z) : ST S (driver_desc E) := fun s =>
  match drivers d with Some x => Ok (x, s) | None => Fault end.

(** The loops over the registry, from index [i] on. *)
Fixpoint handle_loop (l : list entry) (i : nat) (handle : Z) : option nat :=
  match l with
  | [] => None
  | e :: l => if re_used e && (re_handle e =? handle) then Some i else handle_loop l (i + 1)%nat handle
  end.
Definition in_range (s : S) : list entry := take (Z.to_nat (s_max s)) (s_registry s).

(** The result is the index of the entry, in place of its address. *)
Definition sdi_entry_from_handle_ (handle : Z) (s : S) : option nat :=
  if handle =? SDI_NULL_HANDLE then None else handle_loop (in_range s) 0 handle.

Definition sdi_require_init_ (s : S) : Z := if s_init s then SDI_OK else SDI_ERR_NOT_READY.

Definition is_null (p : ptr) : bool := match p with None => true | Some _ => false end.

Definition sdi_init (host : option host_ops) (options : option init_options) : ST S Z :=
  match host with
  | None => mret SDI_ERR_INVAL
  | Some host =>
      if negb (sdi_check_abi_ (ho_size host) sizeof_host_ops (ho_version host) =? SDI_OK) then mret SDI_ERR_INVAL else
      if is_null (ho_log host) || is_null (ho_alloc host) || is_null (ho_free host) ||
         is_null (ho_now_ns host) || is_null (ho_call host) then mret SDI_ERR_INVAL else
      if negb (Z.land (ho_caps host) SDI_CAP_REQUIRED_CORE =? SDI_CAP_REQUIRED_CORE) then mret SDI_ERR_UNSUPPORTED else
      let requested := match options with
                       | Some o => if negb (io_max_drivers o =? 0) then io_max_drivers o else ho_max_drivers host
                       | None => ho_max_drivers host
                       end in
      let requested := if (requested =? 0) || (SDI_REGISTRY_CAPACITY <? requested)
                       then SDI_REGISTRY_CAPACITY else requested in
      modify (fun s => mk_sdi host ((fun _ => free_entry) <$> s_registry s) requested 0 1 true (s_env s)) ;;
      mret SDI_OK
  end.

(** [driver != 0 && driver->ops != 0 && driver->ops->fini != 0], and the call. *)
Definition fini_of (driver : ptr) : ST S (option (ST S Z)) :=
  match driver with
  | None => mret None
  | Some d =>
      dd ← get_driver d;
      mret (match dd_ops dd with Some ops => op_fini ops | None => None end)
  end.

Fixpoint shutdown_loop (fuel : nat) (i : Z) : ST S unit :=
  max ← gets s_max;
  if negb (i <? max) then mret tt else
  match fuel with
  | O => st_timeout
  | Datatypes.S fuel =>
      e ← get_entry (Z.to_nat i);
      (if re_used e then
         fini ← fini_of (re_driver e);
         match fini with Some fini => fini ;; mret tt | None => mret tt end
       else mret tt) ;;
      set_entry (Z.to_nat i) free_entry ;;
      shutdown_loop fuel (i + 1)
  end.

Definition sdi_shutdown : ST S Z :=
  ready ← gets s_init;
  if negb ready then mret SDI_OK else
  shutdown_loop (Z.to_nat SDI_REGISTRY_CAPACITY) 0 ;;
  modify (fun s => mk_sdi (s_host s) (s_registry s) 0 0 (s_next s) false (s_env s)) ;;
  mret SDI_OK.

Definition sdi_is_initialized (s : S) : bool := s_init s.

Definition SDI_NAME : cstr := [83; 68; 73; 0].

(** [old] are the bytes of the caller's structure. *)
Definition sdi_get_info (old : option info) : ST S (Z * option info) :=
  match old with
  | None => mret (SDI_ERR_INVAL, None)
  | Some o => fun s =>
      match sdi_copy_str_ (in_host_name o) SDI_MAX_HOST_NAME
              (if s_init s then ho_name (s_host s) else Some SDI_NAME) with
      | Ok name =>
          Ok (SDI_OK, Some (mk_info sizeof_info SDI_ABI_VERSION SDI_VERSION_MAJOR SDI_VERSION_MINOR SDI_VERSION_PATCH 64
                (if s_init s then ho_caps (s_host s) else SDI_CAP_REQUIRED_CORE) (s_max s) (s_count s) name), s)
      | _ => Fault
      end
  end.

(** *** The registry *)

(** The loop that compares names. *)
Fixpoint name_loop (l : list entry) (i : nat) (name : option cstr) : outcome (option nat) :=
  match l with
  | [] => Ok None
  | e :: l =>
      if re_used e then
        dd ← deref (re_driver e ≫= drivers);
        same ← sdi_streq_ (dd_name dd) name;
        if same : bool then Ok (Some i) else name_loop l (i + 1)%nat name
      else name_loop l (i + 1)%nat name
  end.

(** The first entry that is not in use. *)
Fixpoint free_loop (l : list entry) (i : nat) : option nat :=
  match l with
  | [] => None
  | e :: l => if negb (re_used e) then Some i else free_loop l (i + 1)%nat
  end.

(** The checks of [sdi_register_driver] on the descriptor. *)
Definition register_checks (host_caps : Z) (dd : driver_desc E) (name : cstr) (ops : driver_ops E) : outcome Z :=
  if negb (sdi_check_abi_ (dd_size dd) sizeof_driver_desc (dd_version dd) =? SDI_OK) then Ok SDI_ERR_INVAL else
  if negb (sdi_check_abi_ (op_size ops) sizeof_driver_ops (op_version ops) =? SDI_OK) then Ok SDI_ERR_INVAL else
  if negb (dd_abi_major dd =? SDI_VERSION_MAJOR) then Ok SDI_ERR_UNSUPPORTED else
  if negb (Z.land (dd_required_caps dd) (not64 host_caps) =? 0) then Ok SDI_ERR_UNSUPPORTED else
  n ← sdi_strlen_ (Some name);
  Ok (if n =? 0 then SDI_ERR_INVAL else SDI_OK).

(** The entry is filled in after the driver's [init] has run. *)
Definition register_at (i : nat) (driver : Z) : ST S Z :=
  handle ← gets s_next;
  set_entry i (mk_entry handle (Some driver) true) ;;
  modify (fun s => set_next (let h := u64 (s_next s + 1) in if h =? SDI_NULL_HANDLE then 1 else h) s) ;;
  modify (fun s => set_count (u32 (s_count s + 1)) s) ;;
  mret handle.

(** Returns the status and the handle stored in [*out_handle], if it is;
    [out] is whether [out_handle] is not null. *)
Definition sdi_register_driver (driver : ptr) (out : bool) : ST S (Z * option Z) :=
  ready ← gets sdi_require_init_;
  if negb (ready =? SDI_OK) then mret (SDI_ERR_NOT_READY, None) else
  match driver with
  | None => mret (SDI_ERR_INVAL, None)
  | Some d =>
      if negb out then mret (SDI_ERR_INVAL, None) else
      dd ← get_driver d;
      match dd_name dd, dd_ops dd with
      | Some name, Some ops =>
          caps ← gets (fun s => ho_caps (s_host s));
          st ← st_lift (register_checks caps dd name ops);
          if negb (st =? SDI_OK) then mret (st, None) else
          l ← gets in_range;
          found ← st_lift (name_loop l 0 (Some name));
          match found with
          | Some _ => mret (SDI_ERR_EXISTS, None)
          | None =>
              match free_loop l 0 with
              | None => mret (SDI_ERR_NOMEM, None)
              | Some i =>
                  st ← match op_init ops with Some init => init | None => mret SDI_OK end;
                  if negb (st =? SDI_OK) then mret (st, None) else
                  handle ← register_at i d;
                  mret (SDI_OK, Some handle)
              end
          end
      | _, _ => mret (SDI_ERR_INVAL, None)
      end
  end.

Definition sdi_unregister_driver (handle : Z) : ST S Z :=
  ready ← gets sdi_require_init_;
  if negb (ready =? SDI_OK) then mret SDI_ERR_NOT_READY else
  found ← gets (sdi_entry_from_handle_ handle);
  match found with
  | None => mret SDI_ERR_NOT_FOUND
  | Some i =>
      e ← get_entry i;
      fini ← fini_of (re_driver e);
      st ← match fini with Some fini => fini | None => mret SDI_OK end;
      if negb (st =? SDI_OK) then mret st else
      set_entry i free_entry ;;
      modify (fun s => set_count (u32 (s_count s - 1)) s) ;;
      mret SDI_OK
  end.

Definition sdi_find_driver (name : option cstr) (out : bool) : ST S (Z * option Z) :=
  ready ← gets sdi_require_init_;
  if negb (ready =? SDI_OK) then mret (SDI_ERR_NOT_READY, None) else
  match name with
  | None => mret (SDI_ERR_INVAL, None)
  | Some _ =>
      if negb out then mret (SDI_ERR_INVAL, None) else
      l ← gets in_range;
      found ← st_lift (name_loop l 0 name);
      match found with
      | None => mret (SDI_ERR_NOT_FOUND, None)
      | Some i => e ← get_entry i; mret (SDI_OK, Some (re_handle e))
      end
  end.

Definition sdi_get_driver_count (out : bool) (s : S) : Z * option Z :=
  if negb out then (SDI_ERR_INVAL, None) else (SDI_OK, Some (s_count s)).

Fixpoint nth_used (l : list entry) (seen index : Z) : option entry :=
  match l with
  | [] => None
  | e :: l =>
      if re_used e then if seen =? index then Some e else nth_used l (u32 (seen + 1)) index
      else nth_used l seen index
  end.

(** [out_driver] and [out_handle] are whether the two pointers are not null. *)
Definition sdi_get_driver_at (index : Z) (out_driver out_handle : bool) : ST S (Z * option (ptr * Z)) :=
  ready ← gets sdi_require_init_;
  if negb (ready =? SDI_OK) then mret (SDI_ERR_NOT_READY, None) else
  if negb out_driver || negb out_handle then mret (SDI_ERR_INVAL, None) else
  l ← gets in_range;
  match nth_used l 0 index with
  | Some e => mret (SDI_OK, Some (re_driver e, re_handle e))
  | None => mret (SDI_ERR_NOT_FOUND, None)
  end.

(** *** Lifecycle *)

(** [sdi_entry_from_handle_] and the checks [entry->driver != 0] and
    [entry->driver->ops != 0] that each call below starts with. *)
Definition ops_of_handle (handle : Z) : ST S (option (driver_ops E)) :=
  found ← gets (sdi_entry_from_handle_ handle);
  match found with
  | None => mret None
  | Some i =>
      e ← get_entry i;
      match re_driver e with
      | None => mret None
      | Some d => dd ← get_driver d; mret (dd_ops dd)
      end
  end.

Definition sdi_probe_driver (handle : Z) (i : option probe_info) (out : option probe_result) :
    ST S (Z * option probe_result) :=
  found ← ops_of_handle handle;
  match found with
  | None => mret (SDI_ERR_NOT_FOUND, None)
  | Some ops =>
      match op_probe ops with
      | None => mret (SDI_ERR_UNSUPPORTED, None)
      | Some probe =>
          match i, out with
          | Some i, Some out =>
              r ← probe i (mk_result sizeof_probe_result SDI_ABI_VERSION 0 (pr_flags out));
              mret (r.1, Some r.2)
          | _, _ => mret (SDI_ERR_INVAL, None)
          end
      end
  end.

Definition sdi_attach_driver (handle : Z) (args : option attach_args) (out : option Z) : ST S (Z * option Z) :=
  found ← ops_of_handle handle;
  match found with
  | None => mret (SDI_ERR_NOT_FOUND, None)
  | Some ops =>
      match op_attach ops with
      | None => mret (SDI_ERR_UNSUPPORTED, None)
      | Some attach =>
          match args, out with
          | Some args, Some out => r ← attach args out; mret (r.1, Some r.2)
          | _, _ => mret (SDI_ERR_INVAL, None)
          end
      end
  end.

Definition SDI_LIFECYCLE_CALL (fn : driver_ops E -> option (Z -> ST S Z)) (unsupported_ok : bool)
    (handle instance : Z) : ST S Z :=
  found ← ops_of_handle handle;
  match found with
  | None => mret SDI_ERR_NOT_FOUND
  | Some ops =>
      match fn ops with
      | None => mret (if unsupported_ok then SDI_OK else SDI_ERR_UNSUPPORTED)
      | Some f => f instance
      end
  end.

Definition sdi_start_driver : Z -> Z -> ST S Z := SDI_LIFECYCLE_CALL op_start false.
Definition sdi_stop_driver : Z -> Z -> ST S Z := SDI_LIFECYCLE_CALL op_stop true.
Definition sdi_resume_driver : Z -> Z -> ST S Z := SDI_LIFECYCLE_CALL op_resume true.
Definition sdi_detach_driver : Z -> Z -> ST S Z := SDI_LIFECYCLE_CALL op_detach true.
Definition sdi_remove_driver : Z -> Z -> ST S Z := SDI_LIFECYCLE_CALL op_remove true.

Definition sdi_suspend_driver (handle instance state : Z) : ST S Z :=
  found ← ops_of_handle handle;
  match found with
  | None => mret SDI_ERR_NOT_FOUND
  | Some ops =>
      match op_suspend ops with
      | None => mret SDI_OK
      | Some f => f instance state
      end
  end.

(** *** Services of the host *)

Definition sdi_log (level : Z) (component : option cstr) (message : option cstr) : ST S Z :=
  ready ← gets sdi_require_init_;
  if negb (ready =? SDI_OK) then mret SDI_ERR_NOT_READY else
  match message with
  | None => mret SDI_ERR_INVAL
  | Some m => modify (fun s => set_env (host_log level component m (s_env s)) s) ;; mret SDI_OK
  end.

Definition sdi_alloc (size flags : Z) : ST S ptr := fun s =>
  if negb (s_init s) || (size =? 0) then Ok (None, s) else
  '(r, e) ← host_alloc size flags (s_env s); Ok (r, set_env e s).

Definition sdi_free (p : ptr) : ST S unit := fun s =>
  match p with
  | Some p => if s_init s then e ← host_free p (s_env s); Ok (tt, set_env e s) else Ok (tt, s)
  | None => Ok (tt, s)
  end.

Definition sdi_now_ns : ST S Z := fun s =>
  if negb (s_init s) then Ok (0, s) else let '(t, e) := host_now_ns (s_env s) in Ok (t, set_env e s).

Definition sdi_call (target opcode : Z) (in_data : option (list Z)) (in_size : Z)
    (out_data : option (list Z)) (inout_out_size : option Z) : ST S reply := fun s =>
  if negb (sdi_require_init_ s =? SDI_OK) then Ok (mk_reply SDI_ERR_NOT_READY out_data inout_out_size, s) else
  '(r, e) ← host_call target opcode in_data in_size out_data inout_out_size (s_env s); Ok (r, set_env e s).
End core.
