(* ===== verification/SdiCalls.v ===== *)
(** The convenience wrappers of [kernel/src/sdi/sdi.c] over [sdi_call]: each
    packs its arguments into the structure of the call, and unpacks the answer
    when the call succeeds. *)
From S2P Require Import Prelude StringLib WordMem Sdi.

(** A structure as its fields, with their widths in bytes. *)
Definition pack (fields : list (nat * Z)) : list Z := concat ((fun f => le_bytes f.1 f.2) <$> fields).

(** The field of [k] bytes at offset [off]. *)
Definition field (off k : nat) (b : list Z) : outcome Z :=
  if (off + k <=? length b)%nat then Ok (le_word (take k (drop off b))) else Fault.

Definition sizeof_get_resource_req : Z := 16.
Definition sizeof_resource : Z := 40.
Definition sizeof_mmio_map_req : Z := 16.
Definition sizeof_mmio_map_resp : Z := 24.
Definition sizeof_mmio_io : Z := 32.
Definition sizeof_pio_io : Z := 16.
Definition sizeof_irq_bind_req : Z := 32.
Definition sizeof_irq_bind_resp : Z := 16.
Definition sizeof_dma_alloc_req : Z := 24.
Definition sizeof_dma_alloc_resp : Z := 160.
Definition sizeof_class_desc : Z := 40.
Definition sizeof_class_register_resp : Z := 16.

(** [SDI_INIT_PTR]: the size and the version that every structure starts with. *)
Definition SDI_INIT_PTR (size : Z) : list (nat * Z) := [(4%nat, size); (4%nat, SDI_ABI_VERSION)].

Definition get_resource_req (index type : Z) : list Z :=
  pack (SDI_INIT_PTR sizeof_get_resource_req ++ [(4%nat, index); (4%nat, type)]).
Definition mmio_map_req (resource_index flags : Z) : list Z :=
  pack (SDI_INIT_PTR sizeof_mmio_map_req ++ [(4%nat, resource_index); (4%nat, flags)]).
Definition mmio_map_resp (mmio len : Z) : list Z :=
  pack (SDI_INIT_PTR sizeof_mmio_map_resp ++ [(8%nat, mmio); (8%nat, len)]).
Definition mmio_io (offset width reserved value : Z) : list Z :=
  pack (SDI_INIT_PTR sizeof_mmio_io ++ [(8%nat, offset); (4%nat, width); (4%nat, reserved); (8%nat, value)]).
Definition pio_io (port width reserved value : Z) : list Z :=
  pack (SDI_INIT_PTR sizeof_pio_io ++ [(2%nat, port); (1%nat, width); (1%nat, reserved); (4%nat, value)]).
Definition irq_bind_req (resource_index flags handler instance : Z) : list Z :=
  pack (SDI_INIT_PTR sizeof_irq_bind_req ++ [(4%nat, resource_index); (4%nat, flags); (8%nat, handler); (8%nat, instance)]).
Definition irq_bind_resp (irq : Z) : list Z := pack (SDI_INIT_PTR sizeof_irq_bind_resp ++ [(8%nat, irq)]).
Definition dma_alloc_req (byte_count flags direction : Z) : list Z :=
  pack (SDI_INIT_PTR sizeof_dma_alloc_req ++ [(8%nat, byte_count); (4%nat, flags); (4%nat, direction)]).
Definition class_register_resp (classdev : Z) : list Z :=
  pack (SDI_INIT_PTR sizeof_class_register_resp ++ [(8%nat, classdev)]).

Section calls.
Context {E : Type} `{!SdiHost E}.
Abbreviation S := (sdi E).

(** What the fields of a local structure that nothing has assigned hold. *)
Context (stack : Z).

(** A call without data. *)
Definition plain_call (target opcode : Z) : ST S Z :=
  r ← sdi_call target opcode None 0 None None; mret (rp_status r).

(** A field of the answer. *)
Definition answer (off k : nat) (r : reply) : ST S (option Z) :=
  match rp_out r with
  | Some b => v ← st_lift (field off k b); mret (Some v)
  | None => st_fault
  end.

(** The statuses, with what the call stores through its pointer arguments;
    [out] is whether such a pointer is not null. *)
Definition sdi_get_resource (device index type : Z) (out_resource : option (list Z)) :
    ST S (Z * option (list Z)) :=
  match out_resource with
  | None => mret (SDI_ERR_INVAL, None)
  | Some old =>
      r ← sdi_call device SDI_OP_GET_RESOURCE (Some (get_resource_req index type)) sizeof_get_resource_req
            (Some old) (Some sizeof_resource);
      mret (rp_status r, rp_out r)
  end.

Definition sdi_mmio_map (device resource_index flags : Z) (out out_length : bool) :
    ST S (Z * option Z * option Z) :=
  if negb out then mret (SDI_ERR_INVAL, None, None) else
  r ← sdi_call device SDI_OP_MMIO_MAP (Some (mmio_map_req resource_index flags)) sizeof_mmio_map_req
        (Some (mmio_map_resp stack stack)) (Some sizeof_mmio_map_resp);
  if negb (rp_status r =? SDI_OK) then mret (rp_status r, None, None) else
  mmio ← answer 8 8 r;
  len ← (if out_length then answer 16 8 r else mret None);
  mret (rp_status r, mmio, len).

Definition sdi_mmio_unmap (mmio : Z) : ST S Z := plain_call mmio SDI_OP_MMIO_UNMAP.

Definition sdi_mmio_read (mmio offset width : Z) (out : bool) : ST S (Z * option Z) :=
  if negb out then mret (SDI_ERR_INVAL, None) else
  let io := mmio_io offset width stack stack in
  r ← sdi_call mmio SDI_OP_MMIO_READ (Some io) sizeof_mmio_io (Some io) (Some sizeof_mmio_io);
  if negb (rp_status r =? SDI_OK) then mret (rp_status r, None) else
  v ← answer 24 8 r; mret (rp_status r, v).

Definition sdi_mmio_write (mmio offset width value : Z) : ST S Z :=
  r ← sdi_call mmio SDI_OP_MMIO_WRITE (Some (mmio_io offset width stack value)) sizeof_mmio_io None None;
  mret (rp_status r).

Definition sdi_mmio_barrier (mmio : Z) : ST S Z := plain_call mmio SDI_OP_MMIO_BARRIER.

Definition sdi_pio_read (port width : Z) (out : bool) : ST S (Z * option Z) :=
  if negb out then mret (SDI_ERR_INVAL, None) else
  let io := pio_io port width stack stack in
  r ← sdi_call SDI_NULL_HANDLE SDI_OP_PIO_READ (Some io) sizeof_pio_io (Some io) (Some sizeof_pio_io);
  if negb (rp_status r =? SDI_OK) then mret (rp_status r, None) else
  v ← answer 12 4 r; mret (rp_status r, v).

Definition sdi_pio_write (port width value : Z) : ST S Z :=
  r ← sdi_call SDI_NULL_HANDLE SDI_OP_PIO_WRITE (Some (pio_io port width stack value)) sizeof_pio_io None None;
  mret (rp_status r).

Definition sdi_irq_bind (device resource_index flags handler instance : Z) (out : bool) : ST S (Z * option Z) :=
  if (handler =? 0) || negb out then mret (SDI_ERR_INVAL, None) else
  r ← sdi_call device SDI_OP_IRQ_BIND (Some (irq_bind_req resource_index flags handler instance)) sizeof_irq_bind_req
        (Some (irq_bind_resp stack)) (Some sizeof_irq_bind_resp);
  if negb (rp_status r =? SDI_OK) then mret (rp_status r, None) else
  irq ← answer 8 8 r; mret (rp_status r, irq).

Definition sdi_irq_unbind (irq : Z) : ST S Z := plain_call irq SDI_OP_IRQ_UNBIND.
Definition sdi_irq_ack (irq : Z) : ST S Z := plain_call irq SDI_OP_IRQ_ACK.
Definition sdi_irq_mask (irq : Z) : ST S Z := plain_call irq SDI_OP_IRQ_MASK.
Definition sdi_irq_unmask (irq : Z) : ST S Z := plain_call irq SDI_OP_IRQ_UNMASK.

Definition sdi_dma_alloc (device size direction flags : Z) (out_dma : option (list Z)) : ST S (Z * option (list Z)) :=
  match out_dma with
  | None => mret (SDI_ERR_INVAL, None)
  | Some old =>
      if size =? 0 then mret (SDI_ERR_INVAL, Some old) else
      r ← sdi_call device SDI_OP_DMA_ALLOC (Some (dma_alloc_req size flags direction)) sizeof_dma_alloc_req
            (Some old) (Some sizeof_dma_alloc_resp);
      mret (rp_status r, rp_out r)
  end.

Definition sdi_dma_free (dma : Z) : ST S Z := plain_call dma SDI_OP_DMA_FREE.

(** [desc] are the bytes of the caller's descriptor. *)
Definition sdi_class_register (device : Z) (desc : option (list Z)) (out : bool) : ST S (Z * option Z) :=
  match desc with
  | None => mret (SDI_ERR_INVAL, None)
  | Some desc =>
      if negb out then mret (SDI_ERR_INVAL, None) else
      r ← sdi_call device SDI_OP_CLASS_REGISTER (Some desc) sizeof_class_desc
            (Some (class_register_resp stack)) (Some sizeof_class_register_resp);
      if negb (rp_status r =? SDI_OK) then mret (rp_status r, None) else
      classdev ← answer 8 8 r; mret (rp_status r, classdev)
  end.

Definition sdi_class_unregister (classdev : Z) : ST S Z := plain_call classdev SDI_OP_CLASS_UNREGISTER.
End calls.
