(* ===== verification/SdiSpec.v ===== *)
(** The registry of the driver interface, [kernel/src/sdi/sdi.c], refines a
    finite map from handles to drivers: registration, removal, search by name,
    enumeration and the dispatch of the lifecycle calls.

    The theorems on registration and removal are about drivers whose [init] and
    [fini] leave the registry alone ([quiet]); a driver that registers another
    one from its [init] is lost, see [sdi_register_reentrant]. *)
From S2P Require Import Prelude StringLib WordMem Sdi.

(** ** Strings *)

Lemma to_nul_cons c b l : to_nul (c :: b) = Ok l ->
  (c = 0 /\ l = []) \/ (c <> 0 /\ exists l', to_nul b = Ok l' /\ l = c :: l').
Proof.
  cbn. unfold NUL. destruct (Z.eqb_spec c 0); [intros [= <-]; by left|].
  destruct (to_nul b) as [l'| | |]; try done. intros [= <-]. right. eauto.
Qed.

Lemma streq_loop_ok a : forall b x y, to_nul a = Ok x -> to_nul b = Ok y ->
  streq_loop a b = Ok (bool_decide (x = y)).
Proof.
  induction a as [|c a IH]; intros [|d b] x y Ha Hb; try done.
  apply to_nul_cons in Ha as Ha. apply to_nul_cons in Hb as Hb. cbn [streq_loop].
  destruct (Z.eqb_spec c d) as [->|Hne]; cbn [negb].
  - destruct (Z.eqb_spec d 0) as [->|Hd].
    + destruct Ha as [[_ ->]|[? _]]; [|done]. destruct Hb as [[_ ->]|[? _]]; [|done]. done.
    + destruct Ha as [[? _]|(_ & x' & Ha & ->)]; [done|]. destruct Hb as [[? _]|(_ & y' & Hb & ->)]; [done|].
      rewrite (IH b x' y' Ha Hb). f_equal. apply bool_decide_ext. naive_solver.
  - f_equal. symmetry. apply bool_decide_eq_false. intros ->.
    destruct Ha as [[-> ->]|(Hc & x' & _ & ->)], Hb as [[-> E]|(Hd & y' & _ & E)]; naive_solver.
Qed.

Lemma strlen_loop_ok s : forall n l, to_nul s = Ok l -> strlen_loop s n = Ok (n + Z.of_nat (length l)).
Proof.
  induction s as [|c s IH]; intros n l Hl; [done|]. cbn [strlen_loop].
  apply to_nul_cons in Hl as [[-> ->]|(Hc & l' & Hl & ->)].
  - cbn. f_equal. lia.
  - destruct (Z.eqb_spec c 0); [done|]. rewrite (IH _ l' Hl). f_equal. cbn [length]. lia.
Qed.

(** ** The invariant *)

Section spec.
Context {E : Type} `{!SdiHost E} (drivers : Z -> option (driver_desc E)).
Abbreviation S := (sdi E).

(** The name of a driver, as a string. *)
Definition dname (d : Z) : option cstr :=
  dd ← drivers d; nm ← dd_name dd; match to_nul nm with Ok x => Some x | _ => None end.

Definition used_entries (s : S) : list entry := filter (fun e => re_used e = true) (s_registry s).

(** [reg] maps the handles in use to the drivers. *)
Record registry_ok (s : S) (reg : gmap Z Z) : Prop := {
  ro_len : length (s_registry s) = 64%nat;
  ro_max : 0 <= s_max s <= 64;
  ro_next : 0 < s_next s;
  ro_used i e : s_registry s !! i = Some e -> re_used e = true -> Z.of_nat i < s_max s /\
    0 < re_handle e < s_next s /\ exists d, re_driver e = Some d /\ is_Some (dname d);
  ro_handles i j e e' : s_registry s !! i = Some e -> s_registry s !! j = Some e' ->
    re_used e = true -> re_used e' = true -> re_handle e = re_handle e' -> i = j;
  ro_names i j e e' d d' : s_registry s !! i = Some e -> s_registry s !! j = Some e' ->
    re_used e = true -> re_used e' = true -> re_driver e = Some d -> re_driver e' = Some d' -> dname d = dname d' -> i = j;
  ro_reg h d : reg !! h = Some d <-> exists i, s_registry s !! i = Some (mk_entry h (Some d) true);
  ro_count : s_count s = Z.of_nat (length (used_entries s));
}.

Lemma in_range_lookup s reg i e : registry_ok s reg -> s_registry s !! i = Some e -> re_used e = true -> in_range s !! i = Some e.
Proof. intros Hr Hi Hu. unfold in_range. rewrite lookup_take_lt; [done|]. destruct (ro_used _ _ Hr _ _ Hi Hu). lia. Qed.

Lemma in_range_inv (s : S) i e : in_range s !! i = Some e -> s_registry s !! i = Some e /\ Z.of_nat i < s_max s.
Proof. unfold in_range. intros Hi. apply lookup_take_Some in Hi as [Hi ?]. split; [done|lia]. Qed.

Lemma entry_of_reg s reg i e : registry_ok s reg -> s_registry s !! i = Some e -> re_used e = true ->
  exists d, re_driver e = Some d /\ reg !! re_handle e = Some d /\ is_Some (dname d).
Proof.
  intros Hr Hi Hu. destruct (ro_used _ _ Hr _ _ Hi Hu) as (_ & _ & d & Hd & Hn). exists d. split; [done|]. split; [|done].
  apply (ro_reg _ _ Hr). exists i. rewrite Hi. f_equal. destruct e; simpl in *; by subst.
Qed.

(** ** The loops *)

Lemma handle_loop_ok l h : forall i0,
  match handle_loop l i0 h with
  | Some j => exists k e, j = (i0 + k)%nat /\ l !! k = Some e /\ re_used e = true /\ re_handle e = h
  | None => forall k e, l !! k = Some e -> re_used e = true -> re_handle e <> h
  end.
Proof.
  induction l as [|e l IH]; intros i0; cbn [handle_loop]; [done|].
  destruct (re_used e && (re_handle e =? h)) eqn:Hc.
  - apply andb_true_iff in Hc as [Hu Hh%Z.eqb_eq]. exists 0%nat, e. split; [lia|done].
  - specialize (IH (i0 + 1)%nat). destruct (handle_loop l (i0 + 1) h) as [j|].
    + destruct IH as (k & e' & -> & Hk & ?). exists (Datatypes.S k), e'. split; [lia|done].
    + intros [|k] e' Hk Hu; [|by apply (IH k)]. cbn in Hk. simplify_eq. rewrite Hu in Hc. cbn in Hc. by apply Z.eqb_neq.
Qed.

Lemma entry_from_handle_ok s reg h : registry_ok s reg ->
  match sdi_entry_from_handle_ h s with
  | Some i => exists d, reg !! h = Some d /\ s_registry s !! i = Some (mk_entry h (Some d) true)
  | None => reg !! h = None
  end.
Proof.
  intros Hr. unfold sdi_entry_from_handle_. destruct (Z.eqb_spec h SDI_NULL_HANDLE) as [->|Hnz].
  - destruct (reg !! SDI_NULL_HANDLE) as [d|] eqn:Hd; [|done]. exfalso.
    apply (ro_reg _ _ Hr) in Hd as [i Hi]. destruct (ro_used _ _ Hr _ _ Hi) as (_ & ? & _); [done|].
    unfold SDI_NULL_HANDLE in *. simpl in *. lia.
  - pose proof (handle_loop_ok (in_range s) h 0) as Hl. destruct (handle_loop (in_range s) 0 h) as [j|].
    + destruct Hl as (k & e & -> & Hk & Hu & Hh). apply in_range_inv in Hk as [Hk _].
      destruct (entry_of_reg _ _ _ _ Hr Hk Hu) as (d & Hd & Hreg & _). exists d. rewrite <- Hh. split; [done|].
      rewrite Nat.add_0_l, Hk. f_equal. destruct e; simpl in *; by subst.
    + destruct (reg !! h) as [d|] eqn:Hd; [|done]. exfalso. apply (ro_reg _ _ Hr) in Hd as [i Hi].
      by apply (Hl _ _ (in_range_lookup _ _ _ _ Hr Hi eq_refl)).
Qed.

(** Every entry in use of the list has a driver with a name. *)
Definition named (l : list entry) : Prop := forall i e, l !! i = Some e -> re_used e = true ->
  exists d, re_driver e = Some d /\ is_Some (dname d).

Lemma name_loop_ok l nm x : named l -> to_nul nm = Ok x -> forall i0,
  exists r, name_loop drivers l i0 (Some nm) = Ok r /\
    match r with
    | Some j => exists k e d, j = (i0 + k)%nat /\ l !! k = Some e /\ re_used e = true /\ re_driver e = Some d /\ dname d = Some x
    | None => forall k e d, l !! k = Some e -> re_used e = true -> re_driver e = Some d -> dname d <> Some x
    end.
Proof.
  intros Hn Hx. induction l as [|e l IH]; intros i0; cbn [name_loop]; [by exists None|].
  assert (named l) as Hn' by (intros i e' Hi; by apply (Hn (Datatypes.S i))).
  destruct (IH Hn' (i0 + 1)%nat) as (r & Hr & Hres).
  destruct (re_used e) eqn:Hu.
  - destruct (Hn 0%nat e eq_refl Hu) as (d & Hd & [y Hy]). rewrite Hd. cbn.
    unfold dname in Hy. destruct (drivers d) as [dd|] eqn:Hdd; [|done]. cbn in *.
    destruct (dd_name dd) as [nm'|] eqn:Hnm; [|done]. cbn in *. destruct (to_nul nm') as [y'| | |] eqn:Hy'; [|done..].
    injection Hy as ->. rewrite (streq_loop_ok _ _ _ _ Hy' Hx). cbn. case_bool_decide as Hyx.
    + subst y. exists (Some i0). split; [done|]. exists 0%nat, e, d. split; [lia|]. do 3 (split; [done|]).
      unfold dname. rewrite Hdd. cbn. rewrite Hnm. cbn. by rewrite Hy'.
    + exists r. split; [done|]. destruct r as [j|].
      * destruct Hres as (k & e' & d' & -> & ?). exists (Datatypes.S k), e', d'. split; [lia|done].
      * intros [|k] e' d' Hk Hu' Hd'; [|by eapply Hres]. cbn in Hk. simplify_eq.
        unfold dname. rewrite Hdd. cbn. rewrite Hnm. cbn. rewrite Hy'. congruence.
  - exists r. split; [done|]. destruct r as [j|].
    + destruct Hres as (k & e' & d' & -> & ?). exists (Datatypes.S k), e', d'. split; [lia|done].
    + intros [|k] e' d' Hk Hu'; [|by apply (Hres k)]. cbn in Hk. congruence.
Qed.

Lemma free_loop_ok l : forall i0,
  match free_loop l i0 with
  | Some j => exists k e, j = (i0 + k)%nat /\ l !! k = Some e /\ re_used e = false
  | None => forall e, e ∈ l -> re_used e = true
  end.
Proof.
  induction l as [|e l IH]; intros i0; cbn [free_loop]; [intros e He; by apply elem_of_nil in He|].
  destruct (re_used e) eqn:Hu; cbn [negb].
  - specialize (IH (i0 + 1)%nat). destruct (free_loop l (i0 + 1)) as [j|].
    + destruct IH as (k & e' & -> & ?). exists (Datatypes.S k), e'. split; [lia|done].
    + intros e' [->|He]%elem_of_cons; [done|by apply IH].
  - exists 0%nat, e. split; [lia|done].
Qed.

(** ** Counting the entries in use *)

Abbreviation is_used := (fun e : entry => re_used e = true).

Lemma count_update (l : list entry) i e e' : l !! i = Some e ->
  (length (filter is_used (<[i := e']> l)) + Nat.b2n (re_used e) = length (filter is_used l) + Nat.b2n (re_used e'))%nat.
Proof.
  intros Hi. pose proof (lookup_lt_Some _ _ _ Hi). rewrite insert_take_drop by done.
  rewrite <- (take_drop_middle _ _ _ Hi) at 3. rewrite !filter_app, !length_app, !filter_cons.
  destruct (re_used e), (re_used e'); repeat case_decide; try done; cbn [length Nat.b2n]; lia.
Qed.

Lemma count_all (l : list entry) : (forall e, e ∈ l -> re_used e = true) -> length (filter is_used l) = length l.
Proof.
  induction l as [|e l IH]; intros Hall; [done|]. rewrite filter_cons, decide_True by (apply Hall; left).
  cbn [length]. rewrite IH; [done|]. intros e' He. apply Hall. by right.
Qed.

Lemma count_none (l : list entry) : (forall e, e ∈ l -> re_used e = false) -> length (filter is_used l) = 0%nat.
Proof.
  induction l as [|e l IH]; intros Hall; [done|].
  rewrite filter_cons, decide_False by (rewrite (Hall e); [done|left]).
  apply IH. intros e' He. apply Hall. by right.
Qed.

Lemma used_full s reg : registry_ok s reg -> free_loop (in_range s) 0 = None -> s_count s = s_max s.
Proof.
  intros Hr Hf. pose proof (free_loop_ok (in_range s) 0) as Hall. rewrite Hf in Hall.
  rewrite (ro_count _ _ Hr). unfold used_entries.
  rewrite <- (take_drop (Z.to_nat (s_max s)) (s_registry s)) at 1. rewrite filter_app, length_app.
  fold (in_range s). rewrite (count_all _ Hall), count_none.
  - unfold in_range. rewrite length_take, (ro_len _ _ Hr). destruct (ro_max _ _ Hr). lia.
  - intros e He. destruct (re_used e) eqn:Hu; [|done]. exfalso. apply list_elem_of_lookup in He as [i Hi].
    rewrite lookup_drop in Hi. destruct (ro_used _ _ Hr _ _ Hi Hu) as [? _]. lia.
Qed.

Lemma used_nodup (l : list entry) :
  (forall i j e e', l !! i = Some e -> l !! j = Some e' -> re_used e = true -> re_used e' = true ->
    re_handle e = re_handle e' -> i = j) ->
  NoDup (re_handle <$> filter is_used l).
Proof.
  induction l as [|e l IH]; intros Hinj; [constructor|]. rewrite filter_cons.
  assert (NoDup (re_handle <$> filter is_used l)) as Hnd.
  { apply IH. intros i j e1 e2 Hi Hj U1 U2 Eq. assert (Datatypes.S i = Datatypes.S j) by (by eapply Hinj). lia. }
  case_decide as Hu; [|done]. rewrite fmap_cons. constructor; [|done].
  intros (e' & Heq & He')%list_elem_of_fmap. apply list_elem_of_filter in He' as [Hu' He'].
  apply list_elem_of_lookup in He' as [j Hj]. assert (0%nat = Datatypes.S j) by (by eapply Hinj). lia.
Qed.

(** The count of the interface is the number of drivers. *)
Lemma reg_size s reg : registry_ok s reg -> s_count s = Z.of_nat (size reg).
Proof.
  intros Hr. rewrite (ro_count _ _ Hr), <- size_dom. f_equal.
  rewrite <- (length_fmap re_handle). rewrite <- (size_list_to_set (C := gset Z)) by (apply used_nodup, Hr).
  f_equal. apply set_eq. intros h. rewrite elem_of_list_to_set, elem_of_dom, list_elem_of_fmap. split.
  - intros (e & -> & He). apply list_elem_of_filter in He as [Hu He]. apply list_elem_of_lookup in He as [i Hi].
    destruct (entry_of_reg _ _ _ _ Hr Hi Hu) as (d & _ & Hd & _). by exists d.
  - intros [d Hd]. apply (ro_reg _ _ Hr) in Hd as [i Hi]. eexists. split; [|apply list_elem_of_filter; split; [|by eapply list_elem_of_lookup_2]]; done.
Qed.

(** ** Updates of the registry *)

Lemma registry_env s reg e : registry_ok s reg -> registry_ok (set_env e s) reg.
Proof. intros []. by split. Qed.

(** A free entry is given to [d]. *)
Definition added (i : nat) (d : Z) (s : S) : S :=
  mk_sdi (s_host s) (<[i := mk_entry (s_next s) (Some d) true]> (s_registry s)) (s_max s) (s_count s + 1) (s_next s + 1)
    (s_init s) (s_env s).

Lemma added_ok s reg i e d : registry_ok s reg -> s_registry s !! i = Some e -> re_used e = false -> Z.of_nat i < s_max s ->
  is_Some (dname d) -> (forall h d', reg !! h = Some d' -> dname d' <> dname d) ->
  reg !! s_next s = None /\ registry_ok (added i d s) (<[s_next s := d]> reg).
Proof.
  intros Hr Hi Hu Hlt Hd Hfresh.
  assert (forall j e', s_registry s !! j = Some e' -> re_used e' = true -> j <> i) as Hne by (intros j e' Hj Hu' ->; congruence).
  assert (reg !! s_next s = None) as Hnone.
  { destruct (reg !! s_next s) as [d'|] eqn:Hd'; [|done]. apply (ro_reg _ _ Hr) in Hd' as [j Hj].
    destruct (ro_used _ _ Hr _ _ Hj) as (_ & ? & _); [done|]. simpl in *. lia. }
  assert (forall j e', <[i := mk_entry (s_next s) (Some d) true]> (s_registry s) !! j = Some e' ->
    (j = i /\ e' = mk_entry (s_next s) (Some d) true) \/ (j <> i /\ s_registry s !! j = Some e')) as Hcase.
  { intros j e'. destruct (decide (j = i)) as [->|Hj].
    - rewrite list_lookup_insert_eq by (by eapply lookup_lt_Some). intros [= <-]. by left.
    - rewrite list_lookup_insert_ne by done. by right. }
  split; [done|]. split; cbn [added s_registry s_max s_next s_count].
  - rewrite length_insert. apply Hr.
  - apply Hr.
  - pose proof (ro_next _ _ Hr). lia.
  - pose proof (ro_next _ _ Hr). intros j e' [[-> ->]|[_ Hj]]%Hcase Hu'; cbn [re_handle re_driver]; [split; [done|split; [lia|eauto]]|].
    destruct (ro_used _ _ Hr _ _ Hj Hu') as (? & ? & ?). split; [done|split; [lia|done]].
  - intros j k e1 e2 [[-> ->]|[_ Hj]]%Hcase [[-> ->]|[_ Hk]]%Hcase U1 U2 Eq; [done| | |by apply (ro_handles _ _ Hr j k e1 e2)].
    + destruct (ro_used _ _ Hr _ _ Hk U2) as (_ & ? & _). simpl in *. lia.
    + destruct (ro_used _ _ Hr _ _ Hj U1) as (_ & ? & _). simpl in *. lia.
  - intros j k e1 e2 d1 d2 [[-> ->]|[_ Hj]]%Hcase [[-> ->]|[_ Hk]]%Hcase U1 U2 D1 D2 Eq;
      [done| | |by apply (ro_names _ _ Hr j k e1 e2 d1 d2)].
    + destruct (entry_of_reg _ _ _ _ Hr Hk U2) as (d' & Hd' & Hreg & _). simpl in *. simplify_eq. by destruct (Hfresh _ _ Hreg).
    + destruct (entry_of_reg _ _ _ _ Hr Hj U1) as (d' & Hd' & Hreg & _). simpl in *. simplify_eq. by destruct (Hfresh _ _ Hreg).
  - intros h d'. rewrite lookup_insert. case_decide as Eh; [subst h|].
    + split; [intros [= ->]; exists i; apply list_lookup_insert_eq; by eapply lookup_lt_Some|].
      intros [j [[_ [= ->]]|[_ Hj]]%Hcase]; [done|]. destruct (ro_used _ _ Hr _ _ Hj) as (_ & ? & _); [done|]. simpl in *. lia.
    + rewrite (ro_reg _ _ Hr). split; intros [j Hj]; exists j.
      * rewrite list_lookup_insert_ne; [done|]. intros <-. by apply (Hne _ _ Hj eq_refl).
      * apply Hcase in Hj as [[_ [= ? ?]]|[_ Hj]]; [congruence|done].
  - unfold used_entries. cbn [added s_registry]. pose proof (count_update (s_registry s) i e (mk_entry (s_next s) (Some d) true) Hi) as Hc.
    rewrite Hu in Hc. cbn [Nat.b2n re_used] in Hc. rewrite (ro_count _ _ Hr). unfold used_entries. lia.
Qed.

(** An entry is released. *)
Definition removed (i : nat) (s : S) : S :=
  mk_sdi (s_host s) (<[i := free_entry]> (s_registry s)) (s_max s) (s_count s - 1) (s_next s) (s_init s) (s_env s).

Lemma removed_ok s reg i h d : registry_ok s reg -> s_registry s !! i = Some (mk_entry h (Some d) true) ->
  registry_ok (removed i s) (delete h reg).
Proof.
  intros Hr Hi.
  assert (forall j e', <[i := free_entry]> (s_registry s) !! j = Some e' -> re_used e' = true ->
    j <> i /\ s_registry s !! j = Some e') as Hcase.
  { intros j e'. destruct (decide (j = i)) as [->|Hj].
    - rewrite list_lookup_insert_eq by (by eapply lookup_lt_Some). by intros [= <-].
    - rewrite list_lookup_insert_ne by done. by split. }
  split; cbn [removed s_registry s_max s_next s_count].
  - rewrite length_insert. apply Hr.
  - apply Hr.
  - apply Hr.
  - intros j e' Hj Hu. destruct (Hcase _ _ Hj Hu) as [_ Hj']. by apply (ro_used _ _ Hr _ _ Hj').
  - intros j k e1 e2 Hj Hk U1 U2. destruct (Hcase _ _ Hj U1) as [_ Hj']. destruct (Hcase _ _ Hk U2) as [_ Hk'].
    by apply (ro_handles _ _ Hr j k e1 e2).
  - intros j k e1 e2 d1 d2 Hj Hk U1 U2. destruct (Hcase _ _ Hj U1) as [_ Hj']. destruct (Hcase _ _ Hk U2) as [_ Hk'].
    by apply (ro_names _ _ Hr j k e1 e2 d1 d2).
  - intros h' d'. rewrite lookup_delete. case_decide as Eh; [subst h'|].
    + split; [done|]. intros [j Hj]. destruct (Hcase _ _ Hj eq_refl) as [Hne Hj']. destruct Hne.
      by apply (ro_handles _ _ Hr j i _ _ Hj' Hi).
    + rewrite (ro_reg _ _ Hr). split; intros [j Hj]; exists j.
      * rewrite list_lookup_insert_ne; [done|]. intros <-. congruence.
      * by destruct (Hcase _ _ Hj eq_refl).
  - unfold used_entries. cbn [removed s_registry]. pose proof (count_update (s_registry s) i _ free_entry Hi) as Hc.
    cbn [Nat.b2n re_used free_entry] in Hc. rewrite (ro_count _ _ Hr). unfold used_entries. lia.
Qed.
End spec.
