(* ===== verification/SdiOps.v ===== *)
(** The named theorems on the driver registry of [kernel/src/sdi/sdi.c]. *)
From S2P Require Import Prelude StringLib WordMem Sdi SdiSpec.

Section ops.
Context {E : Type} `{!SdiHost E} (drivers : Z -> option (driver_desc E)).
Abbreviation S := (sdi E).
Abbreviation registry_ok := (registry_ok drivers).
Abbreviation dname := (dname drivers).

(** A callback of a driver that changes nothing but the state of the host. *)
Definition quiet (m : ST S Z) : Prop := forall s, exists st e, m s = Ok (st, set_env e s).
Definition quiet_opt (m : option (ST S Z)) : Prop := match m with Some m => quiet m | None => True end.

(** ** Helpers *)

(** What a descriptor needs to be registered. *)
Definition acceptable (caps : Z) (dd : driver_desc E) (ops : driver_ops E) (x : cstr) : Prop :=
  sdi_check_abi_ (dd_size dd) sizeof_driver_desc (dd_version dd) = SDI_OK /\
  sdi_check_abi_ (op_size ops) sizeof_driver_ops (op_version ops) = SDI_OK /\
  dd_abi_major dd = SDI_VERSION_MAJOR /\ Z.land (dd_required_caps dd) (not64 caps) = 0 /\ x <> [].

Lemma register_checks_ok caps dd nm ops x : to_nul nm = Ok x ->
  exists st, register_checks caps dd nm ops = Ok st /\ (st = SDI_OK <-> acceptable caps dd ops x).
Proof.
  intros Hx. unfold register_checks, acceptable.
  destruct (Z.eqb_spec (sdi_check_abi_ (dd_size dd) sizeof_driver_desc (dd_version dd)) SDI_OK); [cbn [negb]|eexists; split; [done|naive_solver]].
  destruct (Z.eqb_spec (sdi_check_abi_ (op_size ops) sizeof_driver_ops (op_version ops)) SDI_OK); [cbn [negb]|eexists; split; [done|naive_solver]].
  destruct (Z.eqb_spec (dd_abi_major dd) SDI_VERSION_MAJOR); [cbn [negb]|eexists; split; [done|naive_solver]].
  destruct (Z.eqb_spec (Z.land (dd_required_caps dd) (not64 caps)) 0); [cbn [negb]|eexists; split; [done|naive_solver]].
  cbn [sdi_strlen_]. rewrite (strlen_loop_ok _ _ _ Hx). eexists. split; [done|].
  destruct (Z.eqb_spec (0 + Z.of_nat (length x)) 0); destruct x; cbn [length] in *; try lia; naive_solver.
Qed.

Lemma registry_named s reg : registry_ok s reg -> named drivers (in_range s).
Proof.
  intros Hr i e [Hi _]%in_range_inv Hu. destruct (ro_used _ _ _ Hr _ _ Hi Hu) as (_ & _ & d & ? & ?). by exists d.
Qed.

(** The search by name, through the map. *)
Lemma find_name s reg nm x : registry_ok s reg -> to_nul nm = Ok x ->
  exists r, name_loop drivers (in_range s) 0 (Some nm) = Ok r /\
    match r with
    | Some i => exists e d, s_registry s !! i = Some e /\ reg !! re_handle e = Some d /\ dname d = Some x
    | None => forall h d, reg !! h = Some d -> dname d <> Some x
    end.
Proof.
  intros Hr Hx. destruct (name_loop_ok drivers _ _ _ (registry_named _ _ Hr) Hx 0) as (r & Hl & Hres).
  exists r. split; [done|]. destruct r as [i|].
  - destruct Hres as (k & e & d & -> & [Hk _]%in_range_inv & Hu & Hd & Hn). exists e, d. split; [done|].
    destruct (entry_of_reg _ _ _ _ _ Hr Hk Hu) as (d' & Hd' & Hreg & _). split; [congruence|done].
  - intros h d Hreg. apply (ro_reg _ _ _ Hr) in Hreg as [i Hi].
    by apply (Hres _ _ _ (in_range_lookup _ _ _ _ _ Hr Hi eq_refl)).
Qed.

Lemma get_entry_ok i e (s : S) : s_registry s !! i = Some e -> get_entry i s = Ok (e, s).
Proof. unfold get_entry. by intros ->. Qed.

Lemma get_driver_ok d dd (s : S) : drivers d = Some dd -> get_driver drivers d s = Ok (dd, s).
Proof. unfold get_driver. by intros ->. Qed.

Lemma set_entry_ok i e e' (s : S) : s_registry s !! i = Some e' ->
  set_entry i e s = Ok (tt, set_registry (<[i := e]> (s_registry s)) s).
Proof. unfold set_entry. by intros ->. Qed.

(** The count never wraps. *)
Lemma count_bound s reg : registry_ok s reg -> 0 <= s_count s <= 64.
Proof.
  intros Hr. rewrite (ro_count _ _ _ Hr). unfold used_entries.
  pose proof (length_filter (fun e : entry => re_used e = true) (s_registry s)) as Hl. rewrite (ro_len _ _ _ Hr) in Hl. lia.
Qed.

Lemma register_at_ok s reg i e d : registry_ok s reg -> s_registry s !! i = Some e -> s_count s < 2 ^ 32 - 1 ->
  s_next s < u64_max -> register_at i d s = Ok (s_next s, added i d s).
Proof.
  intros Hr Hi Hc Hn. unfold register_at. rewrite gets_bind.
  rewrite (st_bind_ok _ _ _ _ _ (set_entry_ok _ _ _ _ Hi)). rewrite !modify_bind. unfold mret, st_ret. do 2 f_equal.
  pose proof (ro_next _ _ _ Hr). pose proof (count_bound _ _ Hr). unfold u64_max in *.
  unfold set_count, set_next, set_registry, added. cbn [s_host s_registry s_max s_count s_next s_init s_env].
  rewrite u64_small, u32_small by lia. unfold SDI_NULL_HANDLE. destruct (Z.eqb_spec (s_next s + 1) 0); [lia|done].
Qed.

Lemma init_quiet_ok ops (s : S) : quiet_opt (op_init ops) ->
  exists st e, match op_init ops with Some m => m | None => mret SDI_OK end s = Ok (st, set_env e s) /\
    (st <> SDI_OK -> exists m, op_init ops = Some m /\ m s = Ok (st, set_env e s)).
Proof.
  intros Hq. destruct (op_init ops) as [m|]; [destruct (Hq s) as (st & e & Hm); exists st, e; split; [done|eauto]|].
  exists SDI_OK, (s_env s). split; [by destruct s|done].
Qed.

(** ** Claims *)


(** The callback [fini] of the driver at an entry. *)
Lemma fini_of_ok d dd (s : S) : drivers d = Some dd ->
  fini_of drivers (Some d) s = Ok (match dd_ops dd with Some ops => op_fini ops | None => None end, s).
Proof. intros Hd. unfold fini_of. rewrite (st_bind_ok _ _ _ _ _ (get_driver_ok _ _ _ Hd)). done. Qed.

Definition fini_at (d : Z) : option (ST S Z) := dd ← drivers d; ops ← dd_ops dd; op_fini ops.

Lemma named_driver d : is_Some (dname d) -> exists dd, drivers d = Some dd.
Proof. unfold SdiSpec.dname. destruct (drivers d) as [dd|]; [eauto|by intros [? ?]]. Qed.

Lemma fini_of_at d (s : S) : is_Some (dname d) -> fini_of drivers (Some d) s = Ok (fini_at d, s).
Proof.
  intros [dd Hd]%named_driver. rewrite (fini_of_ok _ _ _ Hd). unfold fini_at. rewrite Hd. cbn. by destruct (dd_ops dd).
Qed.

(** Removal. [sdi_unregister_driver] finds exactly the handles in use. It
    runs the [fini] of the driver and, unless that fails, frees the entry; a
    status of [fini] other than [SDI_OK] is returned and the driver stays. *)
Theorem sdi_unregister_spec s reg h :
  registry_ok s reg -> s_init s = true -> (forall d, reg !! h = Some d -> quiet_opt (fini_at d)) ->
  exists st s', sdi_unregister_driver drivers h s = Ok (st, s') /\
    match reg !! h with
    | None => st = SDI_ERR_NOT_FOUND /\ s' = s
    | Some d => (st = SDI_OK /\ registry_ok s' (delete h reg)) \/
        (st <> SDI_OK /\ registry_ok s' reg /\ exists m e, fini_at d = Some m /\ m s = Ok (st, set_env e s))
    end.
Proof.
  intros Hr Hi Hq. unfold sdi_unregister_driver. rewrite gets_bind. unfold sdi_require_init_. rewrite Hi.
  change (negb (SDI_OK =? SDI_OK)) with false. cbv beta iota. rewrite gets_bind.
  pose proof (entry_from_handle_ok _ _ _ h Hr) as Hf. destruct (sdi_entry_from_handle_ h s) as [i|].
  2:{ rewrite Hf. by exists SDI_ERR_NOT_FOUND, s. }
  destruct Hf as (d & Hreg & Hent). rewrite Hreg. rewrite (st_bind_ok _ _ _ _ _ (get_entry_ok _ _ _ Hent)). cbn [re_driver].
  destruct (entry_of_reg _ _ _ _ _ Hr Hent eq_refl) as (d' & [= <-] & _ & Hdn).
  rewrite (st_bind_ok _ _ _ _ _ (fini_of_at d s Hdn)).
  assert (exists st e, match fini_at d with Some m => m | None => mret SDI_OK end s = Ok (st, set_env e s) /\
    (st <> SDI_OK -> exists m, fini_at d = Some m /\ m s = Ok (st, set_env e s))) as (st & e & Hm & Hst).
  { specialize (Hq d Hreg). destruct (fini_at d) as [m|]; [destruct (Hq s) as (st & e & Hm); exists st, e; split; [done|eauto]|].
    exists SDI_OK, (s_env s). split; [by destruct s|done]. }
  rewrite (st_bind_ok _ _ _ _ _ Hm). pose proof (registry_env _ _ _ e Hr) as Hr'.
  destruct (Z.eqb_spec st SDI_OK) as [->|Es]; cbn [negb].
  2:{ exists st, (set_env e s). split; [done|]. right. split; [done|]. split; [done|]. destruct (Hst Es) as (m & ? & ?). by exists m, e. }
  assert (s_registry (set_env e s) !! i = Some (mk_entry h (Some d) true)) as Hent' by done.
  rewrite (st_bind_ok _ _ _ _ _ (set_entry_ok _ _ _ _ Hent')). rewrite modify_bind.
  exists SDI_OK, (removed i (set_env e s)). split.
  - unfold mret, st_ret. do 2 f_equal. unfold set_count, set_registry, removed. cbn [s_host s_registry s_max s_count s_next s_init s_env].
    rewrite u32_small; [done|]. cbn [set_env s_count]. pose proof (count_bound _ _ Hr). rewrite (reg_size _ _ _ Hr) in *.
    assert (size reg <> 0%nat); [|lia]. intros Hz%map_size_empty_inv. by subst.
  - left. split; [done|]. by apply (removed_ok _ _ _ _ _ d Hr').
Qed.

(** ** Search and enumeration *)

Lemma nth_used_ok l : forall seen index, 0 <= seen <= index -> seen + Z.of_nat (length l) < 2 ^ 32 ->
  nth_used l seen index = filter (fun e : entry => re_used e = true) l !! Z.to_nat (index - seen).
Proof.
  induction l as [|e l IH]; intros seen index Hs Hl; [done|]. cbn [nth_used length] in *. rewrite filter_cons.
  destruct (re_used e); [rewrite decide_True by done|rewrite decide_False by done; apply IH; lia].
  destruct (Z.eqb_spec seen index) as [->|Hne]; [by rewrite Z.sub_diag|].
  rewrite u32_small by lia. rewrite IH by lia.
  replace (Z.to_nat (index - seen)) with (Datatypes.S (Z.to_nat (index - (seen + 1)))) by lia. done.
Qed.

Lemma in_range_used s reg : registry_ok s reg -> filter (fun e : entry => re_used e = true) (in_range s) = used_entries s.
Proof.
  intros Hr. unfold used_entries. rewrite <- (take_drop (Z.to_nat (s_max s)) (s_registry s)), filter_app.
  fold (in_range s). assert (filter (fun e : entry => re_used e = true) (drop (Z.to_nat (s_max s)) (s_registry s)) = []) as ->.
  { apply nil_length_inv, count_none. intros e [i Hi]%list_elem_of_lookup. rewrite lookup_drop in Hi.
    destruct (re_used e) eqn:Hu; [|done]. destruct (ro_used _ _ _ Hr _ _ Hi Hu) as [? _]. lia. }
  by rewrite app_nil_r.
Qed.

(** The registry as its clients see it. [sdi_find_driver] returns the handle
    of the driver with the name, if there is one. [sdi_get_driver_at]
    enumerates the registry: the indices below the count give every handle in
    use exactly once, with its driver, and the others nothing. *)
Theorem sdi_find_spec s reg nm x : registry_ok s reg -> s_init s = true -> to_nul nm = Ok x ->
  (exists r, sdi_find_driver drivers (Some nm) true s = Ok (r, s) /\
    match r with
    | (st, Some h) => st = SDI_OK /\ exists d, reg !! h = Some d /\ dname d = Some x
    | (st, None) => st = SDI_ERR_NOT_FOUND /\ forall h d, reg !! h = Some d -> dname d <> Some x
    end) /\
  exists hs, NoDup hs /\ list_to_set hs = dom reg /\ sdi_get_driver_count true s = (SDI_OK, Some (Z.of_nat (length hs))) /\
    forall i, 0 <= i < 2 ^ 32 -> sdi_get_driver_at i true true s =
      Ok (match hs !! Z.to_nat i with Some h => (SDI_OK, Some (reg !! h, h)) | None => (SDI_ERR_NOT_FOUND, None) end, s).
Proof.
  intros Hr Hi Hx. split.
  - unfold sdi_find_driver. rewrite gets_bind. unfold sdi_require_init_. rewrite Hi. change (negb (SDI_OK =? SDI_OK)) with false.
    cbv beta iota. cbn [negb]. rewrite gets_bind. destruct (find_name _ _ _ _ Hr Hx) as (r & Hl & Hres). rewrite (lift_bind _ _ _ _ Hl).
    destruct r as [i|]; [|eexists; split; [done|done]].
    destruct Hres as (e & d & He & Hreg & Hn). rewrite (st_bind_ok _ _ _ _ _ (get_entry_ok _ _ _ He)).
    eexists. split; [done|]. split; [done|]. by exists d.
  - exists (re_handle <$> used_entries s). assert (forall e, e ∈ used_entries s -> reg !! re_handle e = re_driver e) as Hent.
    { intros e [Hu [i He]%list_elem_of_lookup]%list_elem_of_filter.
      destruct (entry_of_reg _ _ _ _ _ Hr He Hu) as (d & -> & ? & _). done. }
    split; [apply used_nodup, Hr|]. split; [|split].
    + apply set_eq. intros h. rewrite elem_of_list_to_set, elem_of_dom, list_elem_of_fmap. split.
      * intros (e & -> & He). rewrite (Hent e He). apply list_elem_of_filter in He as [Hu [i He]%list_elem_of_lookup].
        destruct (entry_of_reg _ _ _ _ _ Hr He Hu) as (d & -> & _). by exists d.
      * intros [d Hd]. apply (ro_reg _ _ _ Hr) in Hd as [i He]. eexists.
        split; [|apply list_elem_of_filter; split; [|by eapply list_elem_of_lookup_2]]; done.
    + unfold sdi_get_driver_count. cbn [negb]. do 2 f_equal. rewrite length_fmap. apply (ro_count _ _ _ Hr).
    + intros i Hrg. unfold sdi_get_driver_at. rewrite gets_bind. unfold sdi_require_init_. rewrite Hi.
      change (negb (SDI_OK =? SDI_OK)) with false. cbv beta iota. cbn [negb orb]. rewrite gets_bind.
      rewrite nth_used_ok, (in_range_used _ _ Hr), Z.sub_0_r, list_lookup_fmap.
      * destruct (used_entries s !! Z.to_nat i) as [e|] eqn:He; cbn; [|done].
        by rewrite (Hent e) by (by eapply list_elem_of_lookup_2).
      * lia.
      * unfold in_range. rewrite length_take, (ro_len _ _ _ Hr). lia.
Qed.

(** ** Lifecycle *)

Definition dops (d : Z) : option (driver_ops E) := dd ← drivers d; dd_ops dd.

Lemma ops_of_handle_ok s reg h : registry_ok s reg -> ops_of_handle drivers h s = Ok (reg !! h ≫= dops, s).
Proof.
  intros Hr. unfold ops_of_handle. rewrite gets_bind. pose proof (entry_from_handle_ok _ _ _ h Hr) as Hf.
  destruct (sdi_entry_from_handle_ h s) as [i|]; [|by rewrite Hf].
  destruct Hf as (d & Hreg & Hent). rewrite Hreg, (st_bind_ok _ _ _ _ _ (get_entry_ok _ _ _ Hent)). cbn [re_driver].
  destruct (entry_of_reg _ _ _ _ _ Hr Hent eq_refl) as (d' & [= <-] & _ & [dd Hd]%named_driver).
  rewrite (st_bind_ok _ _ _ _ _ (get_driver_ok _ _ _ Hd)). unfold dops. cbn. by rewrite Hd.
Qed.

(** A lifecycle call runs [f] if the driver has it, and else returns [st]. *)
Definition call_or (f : option (ST S Z)) (st : Z) : ST S Z := match f with Some f => f | None => mret st end.

(** Dispatch. Every lifecycle call reaches the function of the driver that
    is registered under the handle, with the arguments of the call, and no
    other; a missing function is [SDI_ERR_UNSUPPORTED] for probing, attaching
    and starting and success for the rest, and a handle that is not in use is
    [SDI_ERR_NOT_FOUND]. *)
Theorem sdi_lifecycle_spec s reg h inst state args i : registry_ok s reg ->
  match reg !! h ≫= dops with
  | None =>
      sdi_probe_driver drivers h i None s = Ok ((SDI_ERR_NOT_FOUND, None), s) /\
      sdi_attach_driver drivers h args None s = Ok ((SDI_ERR_NOT_FOUND, None), s) /\
      sdi_suspend_driver drivers h inst state s = Ok (SDI_ERR_NOT_FOUND, s) /\
      Forall (fun call => call h inst s = Ok (SDI_ERR_NOT_FOUND, s))
        [sdi_start_driver drivers; sdi_stop_driver drivers; sdi_resume_driver drivers; sdi_detach_driver drivers;
         sdi_remove_driver drivers]
  | Some ops =>
      (forall pi out, sdi_probe_driver drivers h (Some pi) (Some out) s =
        match op_probe ops with
        | Some f => (r ← f pi (mk_result sizeof_probe_result SDI_ABI_VERSION 0 (pr_flags out)); mret (r.1, Some r.2)) s
        | None => Ok ((SDI_ERR_UNSUPPORTED, None), s)
        end) /\
      (forall a out, sdi_attach_driver drivers h (Some a) (Some out) s =
        match op_attach ops with
        | Some f => (r ← f a out; mret (r.1, Some r.2)) s
        | None => Ok ((SDI_ERR_UNSUPPORTED, None), s)
        end) /\
      sdi_start_driver drivers h inst s = call_or ((fun f => f inst) <$> op_start ops) SDI_ERR_UNSUPPORTED s /\
      sdi_stop_driver drivers h inst s = call_or ((fun f => f inst) <$> op_stop ops) SDI_OK s /\
      sdi_resume_driver drivers h inst s = call_or ((fun f => f inst) <$> op_resume ops) SDI_OK s /\
      sdi_detach_driver drivers h inst s = call_or ((fun f => f inst) <$> op_detach ops) SDI_OK s /\
      sdi_remove_driver drivers h inst s = call_or ((fun f => f inst) <$> op_remove ops) SDI_OK s /\
      sdi_suspend_driver drivers h inst state s = call_or ((fun f => f inst state) <$> op_suspend ops) SDI_OK s
  end.
Proof.
  intros Hr. pose proof (ops_of_handle_ok s reg h Hr) as Ho.
  destruct (reg !! h ≫= dops) as [ops|].
  - split_and!; intros; cbv delta [sdi_probe_driver sdi_attach_driver sdi_start_driver sdi_stop_driver sdi_resume_driver
      sdi_detach_driver sdi_remove_driver sdi_suspend_driver SDI_LIFECYCLE_CALL]; cbv beta;
      rewrite (st_bind_ok _ _ _ _ _ Ho); match goal with |- context [match ?o with _ => _ end] => by destruct o end.
  - split_and!; [| | |repeat constructor]; cbv delta [sdi_probe_driver sdi_attach_driver sdi_start_driver sdi_stop_driver
      sdi_resume_driver sdi_detach_driver sdi_remove_driver sdi_suspend_driver SDI_LIFECYCLE_CALL]; cbv beta;
      by rewrite (st_bind_ok _ _ _ _ _ Ho).
Qed.

(** ** Start and shutdown *)

Lemma registry_empty (s : S) : length (s_registry s) = 64%nat -> 0 <= s_max s <= 64 -> 0 < s_next s -> s_count s = 0 ->
  (forall i e, s_registry s !! i = Some e -> re_used e = false) -> registry_ok s ∅.
Proof.
  intros Hl Hm Hn Hc Hu. split; try done.
  - intros i e Hi He. specialize (Hu i e Hi). congruence.
  - intros i j e e' Hi _ He. specialize (Hu i e Hi). congruence.
  - intros i j e e' d d' Hi _ He. specialize (Hu i e Hi). congruence.
  - intros h d. rewrite lookup_empty. split; [done|]. by intros [i Hi%Hu].
  - rewrite Hc. unfold used_entries. rewrite count_none; [done|]. intros e [i Hi]%list_elem_of_lookup. by eapply Hu.
Qed.

(** The entries in use, from [i] on, with drivers that stop quietly. *)
Definition stoppable (i : Z) (s : S) : Prop := length (s_registry s) = 64%nat /\ 0 <= s_max s <= 64 /\
  forall j e, s_registry s !! j = Some e -> re_used e = true -> i <= Z.of_nat j < s_max s /\
    exists d, re_driver e = Some d /\ is_Some (dname d) /\ quiet_opt (fini_at d).

Lemma shutdown_loop_ok fuel : forall i s, stoppable i s -> 0 <= i <= s_max s -> s_max s <= i + Z.of_nat fuel ->
  exists s', shutdown_loop drivers fuel i s = Ok (tt, s') /\ length (s_registry s') = 64%nat /\ s_next s' = s_next s /\
    s_host s' = s_host s /\ forall j e, s_registry s' !! j = Some e -> re_used e = false.
Proof.
  induction fuel as [|fuel IH]; intros i s (Hlen & Hm & Hu) Hi Hf; cbn [shutdown_loop]; rewrite gets_bind.
  - destruct (Z.ltb_spec i (s_max s)); [lia|]. cbn [negb]. exists s. do 4 (split; [done|]).
    intros j e Hj. destruct (re_used e) eqn:Hus; [|done]. destruct (Hu j e Hj Hus) as [? _]. lia.
  - destruct (Z.ltb_spec i (s_max s)) as [Hlt|]; cbn [negb].
    2:{ exists s. do 4 (split; [done|]).
        intros j e Hj. destruct (re_used e) eqn:Hus; [|done]. destruct (Hu j e Hj Hus) as [? _]. lia. }
    destruct (lookup_lt_is_Some_2 (s_registry s) (Z.to_nat i)) as [e He]; [lia|].
    rewrite (st_bind_ok _ _ _ _ _ (get_entry_ok _ _ _ He)).
    assert (exists env, (if re_used e then
       fini ← fini_of drivers (re_driver e);
       match fini with Some fini => fini ;; mret tt | None => mret tt end
     else mret tt) s = Ok (tt, set_env env s)) as (env & Hstep).
    { destruct (re_used e) eqn:Hus; [|exists (s_env s); by destruct s].
      destruct (Hu _ e He Hus) as (_ & d & -> & Hn & Hq). rewrite (st_bind_ok _ _ _ _ _ (fini_of_at d s Hn)).
      destruct (fini_at d) as [m|]; [|exists (s_env s); by destruct s].
      destruct (Hq s) as (st & env & Hm'). exists env. by eapply st_bind_eq. }
    rewrite (st_bind_ok _ _ _ _ _ Hstep).
    assert (s_registry (set_env env s) !! Z.to_nat i = Some e) as He' by done.
    rewrite (st_bind_ok _ _ _ _ _ (set_entry_ok _ _ _ _ He')).
    destruct (IH (i + 1) (set_registry (<[Z.to_nat i := free_entry]> (s_registry (set_env env s))) (set_env env s)))
      as (s' & Hr & ? & ? & ? & Hfree); cbn [set_registry set_env s_max s_registry]; [|lia|lia|by exists s'].
    split; [cbn; by rewrite length_insert|]. split; [done|]. cbn [set_registry set_env s_max s_registry].
    intros j e' Hj Hus. destruct (decide (j = Z.to_nat i)) as [->|Hne].
    { rewrite list_lookup_insert_eq in Hj by (by eapply lookup_lt_Some). by injection Hj as <-. }
    rewrite list_lookup_insert_ne in Hj by done. destruct (Hu j e' Hj Hus) as [? ?]. split; [lia|done].
Qed.

(** Start and shutdown. [sdi_init] with an acceptable host table leaves an
    empty registry that has between 1 and 64 entries, whatever it held before.
    [sdi_shutdown] stops every driver, empties the registry and leaves it
    uninitialised, so that a following registration is refused. *)
Theorem sdi_init_shutdown_spec s reg host opts : registry_ok s reg ->
  sdi_check_abi_ (ho_size host) sizeof_host_ops (ho_version host) = SDI_OK ->
  Forall (fun p : ptr => is_Some p) [ho_log host; ho_alloc host; ho_free host; ho_now_ns host; ho_call host] ->
  Z.land (ho_caps host) SDI_CAP_REQUIRED_CORE = SDI_CAP_REQUIRED_CORE -> 0 <= ho_max_drivers host ->
  (forall o, opts = Some o -> 0 <= io_max_drivers o) ->
  (exists s', sdi_init (Some host) opts s = Ok (SDI_OK, s') /\ s_init s' = true /\ s_host s' = host /\
    registry_ok s' ∅ /\ 1 <= s_max s' <= 64) /\
  (s_init s = true -> (forall h d, reg !! h = Some d -> quiet_opt (fini_at d)) ->
    exists s', sdi_shutdown drivers s = Ok (SDI_OK, s') /\ s_init s' = false /\ registry_ok s' ∅ /\
      forall d out, sdi_register_driver drivers d out s' = Ok ((SDI_ERR_NOT_READY, None), s')).
Proof.
  intros Hr Habi Hfns Hcaps Hmax Hopts. split.
  - unfold sdi_init. rewrite Habi, Hcaps. rewrite !Z.eqb_refl. cbn [negb].
    assert (is_null (ho_log host) || is_null (ho_alloc host) || is_null (ho_free host) || is_null (ho_now_ns host) ||
      is_null (ho_call host) = false) as ->.
    { repeat match goal with H : Forall _ (_ :: _) |- _ => apply Forall_cons in H as [[? ->] H] end. done. }
    set (requested := match opts with Some o => _ | None => _ end).
    assert (0 <= requested) as Hreq by (subst requested; destruct opts as [o|]; [destruct (negb _); [by apply Hopts|done]|done]).
    rewrite modify_bind. eexists. split; [done|]. do 2 (split; [done|]).
    assert (1 <= (if (requested =? 0) || (SDI_REGISTRY_CAPACITY <? requested) then SDI_REGISTRY_CAPACITY else requested) <= 64) as Hrg.
    { unfold SDI_REGISTRY_CAPACITY, SDI_MAX_REGISTERED_DRIVERS. destruct (Z.eqb_spec requested 0), (Z.ltb_spec 64 requested); cbn [orb]; lia. }
    split; [|done]. apply registry_empty; cbn [s_registry s_max s_next s_count]; [|lia|lia|done|].
    + rewrite length_fmap. apply Hr.
    + intros i e Hi. rewrite list_lookup_fmap in Hi. by destruct (s_registry s !! i); simplify_eq/=.
  - intros Hi Hq. unfold sdi_shutdown. rewrite gets_bind, Hi. cbn [negb].
    destruct (shutdown_loop_ok (Z.to_nat SDI_REGISTRY_CAPACITY) 0 s) as (s1 & Hl & Hlen & Hn & _ & Hfree).
    + split; [apply Hr|]. split; [apply Hr|]. intros j e Hj Hu. destruct (ro_used _ _ _ Hr _ _ Hj Hu) as (? & _ & _). split; [lia|].
      destruct (entry_of_reg _ _ _ _ _ Hr Hj Hu) as (d & ? & ? & ?). exists d. split; [done|]. split; [done|]. by eapply Hq.
    + destruct (ro_max _ _ _ Hr). lia.
    + destruct (ro_max _ _ _ Hr). unfold SDI_REGISTRY_CAPACITY, SDI_MAX_REGISTERED_DRIVERS. lia.
    + rewrite (st_bind_ok _ _ _ _ _ Hl), modify_bind. eexists. split; [done|]. split; [done|]. split; [|done].
      apply registry_empty; try done. cbn. rewrite Hn. apply Hr.
Qed.
End ops.

(** ** Witnesses *)

#[local] Instance demo_host : SdiHost unit := {|
  host_log := fun _ _ _ e => e;
  host_alloc := fun _ _ e => Ok (None, e);
  host_free := fun _ e => Ok e;
  host_now_ns := fun e => (0, e);
  host_call := fun _ _ _ _ o n e => Ok (mk_reply SDI_ERR_UNSUPPORTED o n, e);
|}.

Definition demo_ops (init : option (ST (sdi unit) Z)) : driver_ops unit :=
  mk_ops sizeof_driver_ops SDI_ABI_VERSION init None None None (Some (fun i => mret (- i))) None None None None None.
Definition demo_desc (name : cstr) (init : option (ST (sdi unit) Z)) : driver_desc unit :=
  mk_desc sizeof_driver_desc SDI_ABI_VERSION (Some (name ++ [0])) 1 0 0 None 0 (Some (demo_ops init)).
Definition demo_drivers (d : Z) : option (driver_desc unit) :=
  if d =? 1 then Some (demo_desc [97] (Some (mret SDI_OK))) else
  if d =? 2 then Some (demo_desc [98] None) else None.
Definition demo_table : host_ops :=
  mk_host_ops sizeof_host_ops SDI_ABI_VERSION None SDI_CAP_REQUIRED_CORE 8 (Some 1) (Some 2) (Some 3) (Some 4) (Some 5).

Definition state_of {A} (o : outcome (A * sdi unit)) : sdi unit := match o with Ok (_, s) => s | _ => sdi_cold tt end.
Definition demo_ready : sdi unit := state_of (sdi_init (Some demo_table) None (sdi_cold tt)).
Definition demo_one : sdi unit := state_of (sdi_register_driver demo_drivers (Some 1) true demo_ready).

Lemma cold_ok : registry_ok demo_drivers (sdi_cold tt) ∅.
Proof.
  apply registry_empty; try done. intros i e Hi. apply lookup_replicate in Hi as [-> _]. done.
Qed.

Lemma sdi_init_shutdown_spec_witness :
  exists s', sdi_init (Some demo_table) None (sdi_cold tt) = Ok (SDI_OK, s') /\ registry_ok demo_drivers s' ∅ /\ s_init s' = true.
Proof.
  destruct (sdi_init_shutdown_spec demo_drivers (sdi_cold tt) ∅ demo_table None cold_ok) as [(s' & Hs & Hi & _ & Hr & _) _].
  - reflexivity.
  - repeat constructor; by eexists.
  - reflexivity.
  - cbn. lia.
  - done.
  - exists s'. split; [exact Hs|]. split; [exact Hr|exact Hi].
Defined.

Lemma ready_ok : registry_ok demo_drivers demo_ready ∅.
Proof. apply registry_empty; try done. intros i e Hi. apply (lookup_replicate 64) in Hi as [-> _]. done. Qed.


Lemma demo_one_ok : registry_ok demo_drivers demo_one {[1 := 1]}.
Proof.
  assert (demo_one = added 0 1 demo_ready) as -> by (vm_compute; reflexivity).
  destruct (added_ok demo_drivers demo_ready ∅ 0 free_entry 1 ready_ok) as [_ H]; done.
Qed.

Lemma sdi_unregister_spec_witness : exists s', sdi_unregister_driver demo_drivers 1 demo_one = Ok (SDI_OK, s') /\
  registry_ok demo_drivers s' ∅.
Proof.
  destruct (sdi_unregister_spec demo_drivers demo_one _ 1 demo_one_ok) as (st & s' & Hr & Hres).
  - reflexivity.
  - intros d. rewrite lookup_singleton_eq. intros [= <-]. exact I.
  - rewrite lookup_singleton_eq in Hres. destruct Hres as [[-> H]|(_ & _ & m & e & Hm & _)].
    + exists s'. split; [exact Hr|]. rewrite delete_singleton_eq in H. exact H.
    + discriminate Hm.
Defined.

Lemma sdi_find_spec_witness : exists r, sdi_find_driver demo_drivers (Some [97; 0]) true demo_one = Ok (r, demo_one) /\ r = (SDI_OK, Some 1).
Proof.
  destruct (sdi_find_spec demo_drivers demo_one _ [97; 0] [97] demo_one_ok) as [(r & Hr & Hres) _]; [reflexivity..|].
  exists r. split; [exact Hr|]. destruct r as [st [h|]].
  - destruct Hres as (-> & d & Hd & _). apply lookup_singleton_Some in Hd as [<- _]. reflexivity.
  - destruct Hres as [_ Hno]. destruct (Hno 1 1); reflexivity.
Defined.

Lemma sdi_lifecycle_spec_witness : sdi_start_driver demo_drivers 1 7 demo_one = Ok (-7, demo_one).
Proof.
  pose proof (sdi_lifecycle_spec demo_drivers demo_one _ 1 7 0 None None demo_one_ok) as H.
  rewrite lookup_singleton_eq in H. destruct H as (_ & _ & H & _). exact H.
Defined.

(** ** A driver that registers another one *)

(** Driver 2 as it is registered by the [init] of driver 1. *)
Definition demo_inner (d : Z) : option (driver_desc unit) := if d =? 2 then Some (demo_desc [98] None) else None.
Definition demo_outer (d : Z) : option (driver_desc unit) :=
  if d =? 1 then Some (demo_desc [97] (Some (r ← sdi_register_driver demo_inner (Some 2) true; mret r.1))) else demo_inner d.
Definition demo_lost : sdi unit := state_of (sdi_register_driver demo_outer (Some 1) true demo_ready).

(** The registry is not safe against its own callbacks: the free entry is
    chosen before the driver's [init] runs. When that [init] registers another
    driver, both calls succeed, but the second driver's entry is overwritten:
    it is not found any more although the count says two. *)
Theorem sdi_register_reentrant :
  sdi_register_driver demo_inner (Some 2) true demo_ready = Ok ((SDI_OK, Some 1), added 0 2 demo_ready) /\
  sdi_register_driver demo_outer (Some 1) true demo_ready = Ok ((SDI_OK, Some 2), demo_lost) /\
  sdi_find_driver demo_outer (Some [98; 0]) true demo_lost = Ok ((SDI_ERR_NOT_FOUND, None), demo_lost) /\
  sdi_get_driver_count true demo_lost = (SDI_OK, Some 2) /\ length (used_entries demo_lost) = 1%nat.
Proof. repeat split; vm_compute; reflexivity. Qed.
