(* ===== verification/Irq.v ===== *)
(** Interrupts: the descriptor table and the handlers of
    [kernel/src/cpu/idt.c], the I/O APIC and the end of interrupt of
    [kernel/src/sys/apic.c].

    Memory-mapped devices are a parameter, the class [Mmio]; what the code relies
    on of the I/O APIC, its pair of an index and a window register, is
    [IoApicLaws]. A handler is the number of a C function; what it does is an
    argument of the dispatch. *)
From S2P Require Import Prelude.

(** ** Descriptors *)

Record idt_entry := mk_idt {
  base_low : Z; codeseg : Z; ist : Z; idt_flags : Z; base_mid : Z; base_high : Z; idt_reserved : Z;
}.

Definition idt_set_desc (offset type dpl : Z) : idt_entry := {|
  base_low := Z.land offset 0xFFFF;
  codeseg := 0x08;
  ist := 0;
  idt_flags := u8 (Z.lor (Z.lor (Z.shiftl 1 7) (Z.shiftl dpl 5)) type);
  base_mid := Z.land (Z.shiftr offset 16) 0xFFFF;
  base_high := Z.land (Z.shiftr offset 32) 0xFFFFFFFF;
  idt_reserved := 0;
|}.
Definition idt_desc_base (d : idt_entry) : Z :=
  Z.lor (Z.lor (base_low d) (Z.shiftl (base_mid d) 16)) (Z.shiftl (base_high d) 32).

Definition IDT_TRAP : Z := 0xF.
Definition IDT_INTERRUPT : Z := 0xE.

(** [isr_stubs] are the addresses of the entry points. *)
Fixpoint idt_fill (n : nat) (v type : Z) (isr_stubs : Z -> Z) (t : gmap Z idt_entry) : gmap Z idt_entry :=
  match n with
  | O => t
  | S n => idt_fill n (v + 1) type isr_stubs (<[v := idt_set_desc (isr_stubs v) type 0]> t)
  end.
Definition idt_init (isr_stubs : Z -> Z) (t : gmap Z idt_entry) : gmap Z idt_entry :=
  let t := idt_fill 32 0 IDT_TRAP isr_stubs t in
  let t := idt_fill 224 32 IDT_INTERRUPT isr_stubs t in
  <[0x80 := idt_set_desc (isr_stubs 0x80) IDT_TRAP 3]> t.

(** ** Devices *)

Class Mmio (D : Type) := {
  mmio_read32 : Z -> D -> Z * D;
  mmio_write32 : Z -> Z -> D -> D;
}.

Definition IOREGSEL : Z := 0x00.
Definition IOWIN : Z := 0x10.
Definition IOAPICVER : Z := 1.
Definition IOAPICREDTBLL (n : Z) : Z := 0x10 + 2 * n.
Definition IOAPICREDTBLH (n : Z) : Z := 0x10 + 2 * n + 1.
Definition APIC_EOI : Z := 0xB0.
Definition IOAPIC_FIXED : Z := 0.
Definition IOAPIC_PHYSICAL_DESTINATION : Z := 0.
Definition IOAPIC_ACTIVE_HI : Z := 0.
Definition IOAPIC_ACTIVE_LO : Z := 1.
Definition IOAPIC_TRIGGER_EDGE : Z := 0.
Definition IOAPIC_TRIGGER_LEVEL : Z := 1.
Definition IRQ_BASE : Z := 0x20.

(** The redirection entry, a union of bit fields and two words. *)
Record redirect := mk_red {
  red_vec : Z; red_delivery : Z; red_destination : Z; red_polarity : Z; red_trigger : Z; red_mask : Z; red_dest : Z;
}.
Definition red_low (r : redirect) : Z :=
  red_vec r + red_delivery r * 2 ^ 8 + red_destination r * 2 ^ 11 + red_polarity r * 2 ^ 13 +
  red_trigger r * 2 ^ 15 + red_mask r * 2 ^ 16.
Definition red_high (r : redirect) : Z := red_dest r * 2 ^ 24.

(** The tables of the MADT that are used here. *)
Record madt_ioapic := mk_ioapic { ia_addr : Z; ia_gsi_base : Z }.
Record madt_iso := mk_iso { iso_src : Z; iso_gsi : Z; iso_flags : Z }.

Record irq_handler := mk_handler { ih_ctx : ptr; ih_callback : ptr; ih_vector : Z; ih_lapic : Z }.

Record irqs (D : Type) := mk_irqs {
  iq_handlers : Z -> irq_handler;   (* vector_handlers *)
  iq_ioapics : list madt_ioapic;    (* ioapics, ioapic_count *)
  iq_isos : list madt_iso;          (* isos, iso_count *)
  iq_lapic : Z;                     (* lapic_base *)
  iq_dev : D;
}.
Arguments mk_irqs {D}.
Arguments iq_handlers {D}.
Arguments iq_ioapics {D}.
Arguments iq_isos {D}.
Arguments iq_lapic {D}.
Arguments iq_dev {D}.

Section irq.
Context {D : Type} `{!Mmio D} (hhdm_offset : Z).
Abbreviation S := (irqs D).

Definition set_handlers (h : Z -> irq_handler) (s : S) : S := mk_irqs h (iq_ioapics s) (iq_isos s) (iq_lapic s) (iq_dev s).
Definition set_dev (d : D) (s : S) : S := mk_irqs (iq_handlers s) (iq_ioapics s) (iq_isos s) (iq_lapic s) d.
Definition PHYS_TO_VIRT (p : Z) : Z := u64 (p + hhdm_offset).

Definition read32 (a : Z) : ST S Z := fun s => let '(v, d) := mmio_read32 a (iq_dev s) in Ok (v, set_dev d s).
Definition write32 (a v : Z) : ST S unit := modify (fun s => set_dev (mmio_write32 a v (iq_dev s)) s).

Definition ioapic_read (base regoff : Z) : ST S Z := write32 (base + IOREGSEL) regoff ;; read32 (base + IOWIN).
Definition ioapic_write (base regoff data : Z) : ST S unit :=
  write32 (base + IOREGSEL) regoff ;; write32 (base + IOWIN) data.
Definition lapic_write (reg val : Z) : ST S unit := lapic ← gets iq_lapic; write32 (lapic + reg) val.
Definition apic_send_eoi : ST S unit := lapic_write APIC_EOI 0.

(** The override of a source: the first in the table. *)
Fixpoint iso_of (l : list madt_iso) (src : Z) : option madt_iso :=
  match l with [] => None | i :: l => if src =? iso_src i then Some i else iso_of l src end.

(** The loop that searches the I/O APIC of an interrupt. *)
Fixpoint find_ioapic (l : list madt_ioapic) (gsi : Z) : ST S (option madt_ioapic) :=
  match l with
  | [] => mret None
  | a :: l =>
      v ← ioapic_read (PHYS_TO_VIRT (ia_addr a)) IOAPICVER;
      let maxreds := Z.land (Z.shiftr v 16) 0xFF in
      if (ia_gsi_base a <=? gsi) && (gsi <? u32 (ia_gsi_base a + maxreds)) then mret (Some a) else find_ioapic l gsi
  end.

Definition ioapic_write_red (gsi vec delivery_mode polarity trigger_mode dest : Z) : ST S unit :=
  isos ← gets iq_isos;
  let iso := iso_of isos (vec - IRQ_BASE) in
  let gsi := match iso with Some i => iso_gsi i | None => gsi end in
  let polarity := match iso with Some i => if has_bits (iso_flags i) 2 then IOAPIC_ACTIVE_LO else polarity | None => polarity end in
  let trigger := match iso with Some i => if has_bits (iso_flags i) 8 then IOAPIC_TRIGGER_LEVEL else trigger_mode | None => trigger_mode end in
  let redent := mk_red vec delivery_mode IOAPIC_PHYSICAL_DESTINATION polarity trigger 0 dest in
  l ← gets iq_ioapics;
  found ← find_ioapic l gsi;
  match found with
  | None => mret tt
  | Some a =>
      let base := PHYS_TO_VIRT (ia_addr a) in
      let pin := u32 (gsi - ia_gsi_base a) in
      ioapic_write base (u8 (IOAPICREDTBLL pin)) (red_low redent) ;;
      ioapic_write base (u8 (IOAPICREDTBLH pin)) (red_high redent)
  end.

Definition ioapic_gsi_for_irq (irq : Z) (s : S) : Z :=
  match iso_of (iq_isos s) irq with Some i => iso_gsi i | None => irq end.

Definition ioapic_set_irq_mask (irq : Z) (masked : bool) : ST S Z :=
  if 16 <=? irq then mret (-1) else
  gsi ← gets (ioapic_gsi_for_irq irq);
  l ← gets iq_ioapics;
  found ← find_ioapic l gsi;
  match found with
  | None => mret (-1)
  | Some a =>
      let base := PHYS_TO_VIRT (ia_addr a) in
      let pin := u32 (gsi - ia_gsi_base a) in
      low ← ioapic_read base (u8 (IOAPICREDTBLL pin));
      ioapic_write base (u8 (IOAPICREDTBLL pin))
        (if masked then Z.lor low 0x10000 else Z.land low (2 ^ 32 - 1 - 0x10000)) ;;
      mret 0
  end.

(** ** Handlers *)

Definition set_handler (v : Z) (h : irq_handler) : ST S unit :=
  modify (fun s => set_handlers (fun w => if w =? v then h else iq_handlers s w) s).
Definition irq_set_vector (vector : Z) (callback ctx : ptr) (lapic_id : Z) : ST S unit :=
  set_handler vector (mk_handler ctx callback vector lapic_id).

Definition irq_install (irq : Z) (callback ctx : ptr) (lapic_id : Z) : ST S unit :=
  if 16 <=? irq then mret tt else
  irq_set_vector (u8 (IRQ_BASE + irq)) callback ctx lapic_id ;;
  ioapic_write_red irq (u8 (IRQ_BASE + irq)) IOAPIC_FIXED IOAPIC_ACTIVE_HI IOAPIC_TRIGGER_EDGE lapic_id.

Definition irq_install_vector (vector : Z) (callback ctx : ptr) (lapic_id : Z) : ST S unit :=
  irq_set_vector vector callback ctx lapic_id.
Definition irq_uninstall_vector (vector : Z) : ST S unit := set_handler vector (mk_handler None None vector 0).
Definition irq_uninstall (irq : Z) : ST S unit :=
  if 16 <=? irq then mret tt else irq_uninstall_vector (u8 (IRQ_BASE + irq)).
End irq.

(** ** Dispatch

    The handlers act on the whole kernel: [X] is its state, [irqs_of] the part
    that is modelled above, [run] what the C function of a number does with the
    frame at an address. The vector that the processor saved in the frame is
    [vector]. *)
Section dispatch.
Context {D X : Type} (irqs_of : X -> irqs D) (run : Z -> Z -> ST X Z).

Definition irq_dispatch_vector (vector frame : Z) : ST X Z :=
  h ← gets (fun x => iq_handlers (irqs_of x) vector);
  match ih_callback h with
  | None => mret frame
  | Some f => run f (match ih_ctx h with Some c => c | None => frame end)
  end.

(** The table has 256 entries. *)
Definition irq_dispatch (irq frame : Z) : ST X Z :=
  if 256 <=? IRQ_BASE + irq then st_fault else irq_dispatch_vector (IRQ_BASE + irq) frame.

Definition isr_common_handler (vector frame : Z) : ST X Z :=
  let vector := u8 vector in
  if vector =? 0xFF then mret frame else
  if vector <? 32 then st_panic else
  if vector =? 0x80 then mret frame else
  irq_dispatch_vector vector frame.
End dispatch.
