(* ===== verification/IrqSpec.v ===== *)
(** Interrupt routing, [kernel/src/cpu/idt.c] and [sys/apic.c]: what installing,
    masking and removing a handler do to the redirection entries of the I/O
    APIC and to the dispatch, and the round trip of the descriptors. *)
From S2P Require Import Prelude Irq.

(** ** The device

    [reg d b r] is register [r] of the I/O APIC at [b]. An access goes through
    the index register, then the window. Bits 12 and 14 of a redirection entry
    cannot be written. *)
Record ioapic_laws {D : Type} `{!Mmio D} (reg : D -> Z -> Z -> Z) (bases : list Z) : Prop := {
  il_read b r d : b ∈ bases -> exists d', mmio_read32 (b + IOWIN) (mmio_write32 (b + IOREGSEL) r d) = (reg d b r, d') /\
    forall b' r', reg d' b' r' = reg d b' r';
  il_write b r v d n : b ∈ bases -> 0x10 <= r -> 0 <= n < 32 -> n <> 12 -> n <> 14 ->
    Z.testbit (reg (mmio_write32 (b + IOWIN) v (mmio_write32 (b + IOREGSEL) r d)) b r) n = Z.testbit v n;
  il_other b r v d b' r' : b ∈ bases -> 0x10 <= r -> b' <> b \/ r' <> r ->
    reg (mmio_write32 (b + IOWIN) v (mmio_write32 (b + IOREGSEL) r d)) b' r' = reg d b' r';
  il_range d b r : 0 <= reg d b r < 2 ^ 32;
  il_entries d b : b ∈ bases -> Z.land (Z.shiftr (reg d b IOAPICVER) 16) 0xFF <= 119;
}.
Arguments il_read {D _ reg bases}.
Arguments il_write {D _ reg bases}.
Arguments il_other {D _ reg bases}.
Arguments il_range {D _ reg bases}.
Arguments il_entries {D _ reg bases}.

Section spec.
Context {D : Type} `{!Mmio D} (hhdm_offset : Z) (reg : D -> Z -> Z -> Z) (tables : list madt_ioapic).
Abbreviation S := (irqs D).
Abbreviation base_of := (fun a => PHYS_TO_VIRT hhdm_offset (ia_addr a)).
Context (laws : ioapic_laws reg (base_of <$> tables)).

(** The registers of a state. *)
Definition rg (s : S) (b r : Z) : Z := reg (iq_dev s) b r.

(** Only the device differs, and its registers are the same. *)
Definition same_regs (s s' : S) : Prop :=
  (forall b r, rg s' b r = rg s b r) /\ exists d, s' = set_dev d s.

Lemma same_regs_refl s : same_regs s s.
Proof. split; [done|]. exists (iq_dev s). by destruct s. Qed.

Lemma same_regs_trans s1 s2 s3 : same_regs s1 s2 -> same_regs s2 s3 -> same_regs s1 s3.
Proof. intros [H1 [d1 ->]] [H2 [d2 ->]]. split; [intros; by rewrite H2, H1|]. by exists d2. Qed.

Lemma ioapic_read_ok s b r : b ∈ base_of <$> tables -> exists s', ioapic_read b r s = Ok (rg s b r, s') /\ same_regs s s'.
Proof.
  intros Hb. destruct (il_read laws b r (iq_dev s) Hb) as (d' & Hr & Hsame).
  exists (set_dev d' s). split; [|split; [done|by exists d']].
  unfold ioapic_read, write32, read32. rewrite modify_bind. unfold set_dev at 1. cbn [iq_dev]. by rewrite Hr.
Qed.

(** A redirection register gets a value. *)
Definition written (s : S) (b r v : Z) (s' : S) : Prop :=
  (forall n, 0 <= n < 32 -> n <> 12 -> n <> 14 -> Z.testbit (rg s' b r) n = Z.testbit v n) /\
  (forall b' r', b' <> b \/ r' <> r -> rg s' b' r' = rg s b' r') /\ exists d, s' = set_dev d s.

Lemma ioapic_write_ok s b r v : b ∈ base_of <$> tables -> 0x10 <= r ->
  exists s', ioapic_write b r v s = Ok (tt, s') /\ written s b r v s'.
Proof.
  intros Hb Hr. eexists. split; [unfold ioapic_write, write32; rewrite modify_bind; done|].
  split; [|split; [|by eexists]]; unfold rg; cbn [set_dev iq_dev].
  - intros n Hn H12 H14. by apply (il_write laws).
  - intros b' r' Hne. by apply (il_other laws).
Qed.

(** ** The search *)

(** How many entries the version register announces, less one. *)
Definition maxreds (s : S) (a : madt_ioapic) : Z := Z.land (Z.shiftr (rg s (base_of a) IOAPICVER) 16) 0xFF.
Definition covers (s : S) (gsi : Z) (a : madt_ioapic) : bool :=
  (ia_gsi_base a <=? gsi) && (gsi <? u32 (ia_gsi_base a + maxreds s a)).

(** The first I/O APIC of a list that covers an interrupt. *)
Fixpoint first_cover (s : S) (gsi : Z) (l : list madt_ioapic) : option madt_ioapic :=
  match l with [] => None | a :: l => if covers s gsi a then Some a else first_cover s gsi l end.

Lemma first_cover_same s s' gsi l : (forall b r, rg s' b r = rg s b r) -> first_cover s' gsi l = first_cover s gsi l.
Proof.
  intros Hr. induction l as [|a l IH]; cbn [first_cover]; [done|]. unfold covers, maxreds. rewrite Hr. by rewrite IH.
Qed.

Lemma find_ioapic_ok l gsi : (forall a, a ∈ l -> a ∈ tables) -> forall s,
  exists s', find_ioapic hhdm_offset l gsi s = Ok (first_cover s gsi l, s') /\ same_regs s s'.
Proof.
  induction l as [|a l IH]; intros Hin s; cbn [find_ioapic first_cover].
  - exists s. split; [done|apply same_regs_refl].
  - destruct (ioapic_read_ok s (base_of a) IOAPICVER) as (s1 & Hr & Hs1); [apply list_elem_of_fmap; exists a; split; [done|apply Hin; left]|].
    rewrite (st_bind_ok _ _ _ _ _ Hr). cbv zeta. fold (maxreds s a). fold (covers s gsi a).
    destruct (covers s gsi a); [by exists s1|].
    destruct (IH (fun x Hx => Hin x (list_elem_of_further _ _ _ Hx)) s1) as (s2 & Hr2 & Hs2).
    exists s2. rewrite <- (first_cover_same s s1) by apply Hs1. split; [done|by eapply same_regs_trans].
Qed.

Lemma first_cover_in s gsi l a : first_cover s gsi l = Some a -> a ∈ l /\ covers s gsi a = true.
Proof.
  induction l as [|b l IH]; cbn [first_cover]; [done|]. destruct (covers s gsi b) eqn:Hc.
  - intros [= ->]. split; [left|done].
  - intros [? ?]%IH. split; [by right|done].
Qed.

Lemma maxreds_bound s a : a ∈ tables -> 0 <= maxreds s a <= 119.
Proof.
  intros Ha. split; [apply Z.land_nonneg; by right|]. apply (il_entries laws).
  apply list_elem_of_fmap. by exists a.
Qed.

(** The pin of an interrupt at the I/O APIC that covers it. *)
Lemma covers_pin s gsi a : a ∈ tables -> 0 <= ia_gsi_base a < 2 ^ 32 -> covers s gsi a = true ->
  u32 (gsi - ia_gsi_base a) = gsi - ia_gsi_base a /\ 0 <= gsi - ia_gsi_base a < 119 /\
  u8 (IOAPICREDTBLL (gsi - ia_gsi_base a)) = IOAPICREDTBLL (gsi - ia_gsi_base a) /\
  u8 (IOAPICREDTBLH (gsi - ia_gsi_base a)) = IOAPICREDTBLH (gsi - ia_gsi_base a).
Proof.
  intros Ha Hg [H1%Z.leb_le H2%Z.ltb_lt]%andb_true_iff. pose proof (maxreds_bound s a Ha).
  assert (u32 (ia_gsi_base a + maxreds s a) <= ia_gsi_base a + maxreds s a) by (apply Z.mod_le; lia).
  assert (0 <= gsi - ia_gsi_base a < 119) as Hp by lia. unfold u32, u8, IOAPICREDTBLL, IOAPICREDTBLH.
  rewrite !Z.mod_small by lia. done.
Qed.

(** ** Masking *)

Lemma mask_bits low m n : 0 <= n < 32 ->
  Z.testbit (if m : bool then Z.lor low 0x10000 else Z.land low (2 ^ 32 - 1 - 0x10000)) n =
  if decide (n = 16) then m else Z.testbit low n.
Proof.
  intros Hn. assert (Z.testbit 0x10000 n = bool_decide (n = 16)) as Hb.
  { change 0x10000 with (2 ^ 16). rewrite Z.pow2_bits_eqb by lia.
    destruct (Z.eqb_spec 16 n); [by rewrite bool_decide_true|by rewrite bool_decide_false]. }
  destruct m.
  - rewrite Z.lor_spec, Hb. case_decide as E; [by rewrite bool_decide_true, orb_true_r|by rewrite bool_decide_false, orb_false_r].
  - rewrite Z.land_spec. assert (Z.testbit (2 ^ 32 - 1 - 0x10000) n = negb (bool_decide (n = 16))) as ->.
    { change (2 ^ 32 - 1 - 0x10000) with (Z.lxor (Z.ones 32) 0x10000). rewrite Z.lxor_spec, Hb, Z.ones_spec_low by lia. done. }
    case_decide as E; [by rewrite bool_decide_true, andb_false_r|by rewrite bool_decide_false, andb_true_r].
Qed.

(** The bits of a redirection entry that the code can set. *)
Definition low_bits (s : S) (a : madt_ioapic) (pin v : Z) : Prop :=
  forall n, 0 <= n < 32 -> n <> 12 -> n <> 14 -> Z.testbit (rg s (base_of a) (IOAPICREDTBLL pin)) n = Z.testbit v n.
Definition high_bits (s : S) (a : madt_ioapic) (pin v : Z) : Prop :=
  forall n, 0 <= n < 32 -> n <> 12 -> n <> 14 -> Z.testbit (rg s (base_of a) (IOAPICREDTBLH pin)) n = Z.testbit v n.

(** The registers other than the redirection entry of a pin are the same. *)
Definition only_pin (s s' : S) (a : madt_ioapic) (pin : Z) : Prop :=
  forall b r, (b <> base_of a \/ (r <> IOAPICREDTBLL pin /\ r <> IOAPICREDTBLH pin)) -> rg s' b r = rg s b r.

Definition gsi_bases : Prop := forall a, a ∈ tables -> 0 <= ia_gsi_base a < 2 ^ 32.
Context (Hbases : gsi_bases).

Lemma set_irq_mask_ok s irq m : iq_ioapics s = tables -> 0 <= irq < 16 ->
  exists r s', ioapic_set_irq_mask hhdm_offset irq m s = Ok (r, s') /\ (exists d, s' = set_dev d s) /\
    match first_cover s (ioapic_gsi_for_irq irq s) tables with
    | None => r = -1 /\ forall b r, rg s' b r = rg s b r
    | Some a => let pin := ioapic_gsi_for_irq irq s - ia_gsi_base a in
        r = 0 /\ only_pin s s' a pin /\
        rg s' (base_of a) (IOAPICREDTBLH pin) = rg s (base_of a) (IOAPICREDTBLH pin) /\
        forall n, 0 <= n < 32 -> n <> 12 -> n <> 14 -> Z.testbit (rg s' (base_of a) (IOAPICREDTBLL pin)) n =
          if decide (n = 16) then m else Z.testbit (rg s (base_of a) (IOAPICREDTBLL pin)) n
    end.
Proof.
  intros Ht Hirq. unfold ioapic_set_irq_mask. destruct (Z.leb_spec 16 irq); [lia|]. rewrite !gets_bind, Ht.
  set (gsi := ioapic_gsi_for_irq irq s).
  destruct (find_ioapic_ok tables gsi (fun a Ha => Ha) s) as (s1 & Hf & Hs1). rewrite (st_bind_ok _ _ _ _ _ Hf).
  destruct (first_cover s gsi tables) as [a|] eqn:Hc.
  2:{ exists (-1), s1. destruct Hs1 as [Hr Hd]. done. }
  apply first_cover_in in Hc as [Ha Hc]. destruct (covers_pin _ _ _ Ha (Hbases _ Ha) Hc) as (E1 & Hpin & E2 & E3).
  cbv zeta. rewrite E1, E2. assert (base_of a ∈ base_of <$> tables) as Hb by (apply list_elem_of_fmap; by exists a).
  destruct (ioapic_read_ok s1 (base_of a) (IOAPICREDTBLL (gsi - ia_gsi_base a)) Hb) as (s2 & Hr2 & Hs2).
  rewrite (st_bind_ok _ _ _ _ _ Hr2).
  set (v := if m then _ else _).
  destruct (ioapic_write_ok s2 (base_of a) (IOAPICREDTBLL (gsi - ia_gsi_base a)) v Hb) as (s3 & Hw & Hbits & Hoth & d & Hd);
    [unfold IOAPICREDTBLL; lia|]. rewrite (st_bind_ok _ _ _ _ _ Hw). exists 0, s3.
  pose proof (same_regs_trans _ _ _ Hs1 Hs2) as [Hsame [d' Hd']].
  split; [done|]. split; [exists d; by rewrite Hd, Hd'|]. split; [done|]. split; [|split].
  - intros b r Hne. rewrite Hoth by naive_solver. apply Hsame.
  - rewrite Hoth; [apply Hsame|]. right. unfold IOAPICREDTBLL, IOAPICREDTBLH. lia.
  - intros n Hn H12 H14. rewrite Hbits by done. unfold v. rewrite mask_bits by done. case_decide; [done|].
    by rewrite (proj1 Hs1).
Qed.

(** ** Installing a handler *)

(** The entry for an interrupt: fixed delivery to one CPU, edge triggered and
    active high unless an override says otherwise, not masked. *)
Definition entry_for (s : S) (irq lapic : Z) : redirect :=
  let iso := iso_of (iq_isos s) irq in
  mk_red (IRQ_BASE + irq) IOAPIC_FIXED IOAPIC_PHYSICAL_DESTINATION
    (match iso with Some i => if has_bits (iso_flags i) 2 then IOAPIC_ACTIVE_LO else IOAPIC_ACTIVE_HI | None => IOAPIC_ACTIVE_HI end)
    (match iso with Some i => if has_bits (iso_flags i) 8 then IOAPIC_TRIGGER_LEVEL else IOAPIC_TRIGGER_EDGE | None => IOAPIC_TRIGGER_EDGE end)
    0 lapic.

Definition handler_for (irq f lapic : Z) : irq_handler := mk_handler None (Some f) (IRQ_BASE + irq) lapic.
Definition only_vector (h h' : Z -> irq_handler) (v : Z) (x : irq_handler) : Prop := forall w, h' w = if w =? v then x else h w.

Lemma irq_install_ok s irq f lapic : iq_ioapics s = tables -> 0 <= irq < 16 ->
  exists s', irq_install hhdm_offset irq (Some f) None lapic s = Ok (tt, s') /\
    iq_ioapics s' = iq_ioapics s /\ iq_isos s' = iq_isos s /\
    only_vector (iq_handlers s) (iq_handlers s') (IRQ_BASE + irq) (handler_for irq f lapic) /\
    match first_cover s (ioapic_gsi_for_irq irq s) tables with
    | None => forall b r, rg s' b r = rg s b r
    | Some a => let pin := ioapic_gsi_for_irq irq s - ia_gsi_base a in
        only_pin s s' a pin /\ low_bits s' a pin (red_low (entry_for s irq lapic)) /\
        high_bits s' a pin (red_high (entry_for s irq lapic))
    end.
Proof.
  intros Ht Hirq. unfold irq_install. destruct (Z.leb_spec 16 irq); [lia|].
  assert (u8 (IRQ_BASE + irq) = IRQ_BASE + irq) as -> by (apply Z.mod_small; unfold IRQ_BASE; lia).
  unfold irq_set_vector, set_handler. rewrite modify_bind.
  set (s1 := set_handlers _ s). unfold ioapic_write_red. rewrite !gets_bind.
  replace (IRQ_BASE + irq - IRQ_BASE) with irq by lia. change (iq_isos s1) with (iq_isos s). change (iq_ioapics s1) with (iq_ioapics s).
  rewrite Ht. assert (match iso_of (iq_isos s) irq with Some i => iso_gsi i | None => irq end = ioapic_gsi_for_irq irq s) as -> by done.
  set (gsi := ioapic_gsi_for_irq irq s).
  destruct (find_ioapic_ok tables gsi (fun a Ha => Ha) s1) as (s2 & Hf & Hs2). rewrite (st_bind_ok _ _ _ _ _ Hf).
  rewrite (first_cover_same s s1) by done.
  destruct Hs2 as [Hsame [d2 Hd2]].
  destruct (first_cover s gsi tables) as [a|] eqn:Hc.
  2:{ exists s2. subst s2. done. }
  apply first_cover_in in Hc as [Ha Hc]. destruct (covers_pin _ _ _ Ha (Hbases _ Ha) Hc) as (E1 & Hpin & E2 & E3).
  cbv zeta. rewrite E1, E2, E3. assert (base_of a ∈ base_of <$> tables) as Hb by (apply list_elem_of_fmap; by exists a).
  fold (entry_for s irq lapic). set (pin := gsi - ia_gsi_base a) in *.
  destruct (ioapic_write_ok s2 (base_of a) (IOAPICREDTBLL pin) (red_low (entry_for s irq lapic)) Hb) as (s3 & Hw3 & B3 & O3 & d3 & Hd3);
    [unfold IOAPICREDTBLL; lia|]. rewrite (st_bind_ok _ _ _ _ _ Hw3).
  destruct (ioapic_write_ok s3 (base_of a) (IOAPICREDTBLH pin) (red_high (entry_for s irq lapic)) Hb) as (s4 & Hw4 & B4 & O4 & d4 & Hd4);
    [unfold IOAPICREDTBLH; lia|]. exists s4. split; [exact Hw4|].
  assert (IOAPICREDTBLL pin <> IOAPICREDTBLH pin) as Hne by (unfold IOAPICREDTBLL, IOAPICREDTBLH; lia).
  subst s4 s3 s2. do 3 (split; [done|]). split; [|split].
  - intros b r Hbr. rewrite O4 by naive_solver. rewrite O3 by naive_solver. by rewrite Hsame.
  - intros n Hn H12 H14. rewrite O4 by naive_solver. by apply B3.
  - intros n Hn H12 H14. by apply B4.
Qed.

(** ** Dispatch *)

Lemma dispatch_ok {X} (irqs_of : X -> S) run x irq frame : 0 <= irq < 16 ->
  isr_common_handler irqs_of run (IRQ_BASE + irq) frame x =
    match ih_callback (iq_handlers (irqs_of x) (IRQ_BASE + irq)) with
    | None => Ok (frame, x)
    | Some f => run f (match ih_ctx (iq_handlers (irqs_of x) (IRQ_BASE + irq)) with Some c => c | None => frame end) x
    end.
Proof.
  intros Hirq. unfold isr_common_handler. assert (u8 (IRQ_BASE + irq) = IRQ_BASE + irq) as -> by (apply Z.mod_small; unfold IRQ_BASE; lia).
  cbv zeta. unfold IRQ_BASE in *. destruct (Z.eqb_spec (0x20 + irq) 0xFF); [lia|].
  destruct (Z.ltb_spec (0x20 + irq) 32); [lia|]. destruct (Z.eqb_spec (0x20 + irq) 0x80); [lia|].
  unfold irq_dispatch_vector. rewrite gets_bind. by destruct (ih_callback _).
Qed.

(** Enabling an interrupt. [irq_install] and unmasking route the interrupt
    of a legacy line to its vector: the redirection entry of the pin that the
    overrides and the I/O APICs assign to it holds the vector, the delivery to
    the CPU asked for and the polarity and trigger of the override, unmasked;
    no other register and no other handler changes, and the dispatch of the
    vector runs the handler. Without an I/O APIC for the interrupt the status is
    [-1] and no register changes. *)
Theorem irq_install_spec s irq f lapic : iq_ioapics s = tables -> 0 <= irq < 16 ->
  exists r s', (irq_install hhdm_offset irq (Some f) None lapic ;; ioapic_set_irq_mask hhdm_offset irq false) s = Ok (r, s') /\
    only_vector (iq_handlers s) (iq_handlers s') (IRQ_BASE + irq) (handler_for irq f lapic) /\
    (forall X (irqs_of : X -> S) run x frame, irqs_of x = s' ->
      isr_common_handler irqs_of run (IRQ_BASE + irq) frame x = run f frame x) /\
    match first_cover s (ioapic_gsi_for_irq irq s) tables with
    | None => r = -1 /\ forall b r, rg s' b r = rg s b r
    | Some a => let pin := ioapic_gsi_for_irq irq s - ia_gsi_base a in
        r = 0 /\ only_pin s s' a pin /\ low_bits s' a pin (red_low (entry_for s irq lapic)) /\
        high_bits s' a pin (red_high (entry_for s irq lapic))
    end.
Proof.
  intros Ht Hirq. destruct (irq_install_ok s irq f lapic Ht Hirq) as (s1 & Hr1 & Et & Ei & Hh & Hres1).
  assert (iq_ioapics s1 = tables) as Ht1 by congruence.
  destruct (set_irq_mask_ok s1 irq false Ht1 Hirq) as (r & s2 & Hr2 & [d ->] & Hres2).
  exists r, (set_dev d s1). split; [by eapply st_bind_eq|]. split; [exact Hh|]. split.
  { intros X irqs_of run x frame Hx. rewrite dispatch_ok, Hx by done. cbn [set_dev iq_handlers]. by rewrite (Hh (IRQ_BASE + irq)), Z.eqb_refl. }
  assert (ioapic_gsi_for_irq irq s1 = ioapic_gsi_for_irq irq s) as Eg by (unfold ioapic_gsi_for_irq; by rewrite Ei).
  rewrite Eg in Hres2. set (gsi := ioapic_gsi_for_irq irq s) in *.
  assert (first_cover s1 gsi tables = first_cover s gsi tables) as Ec.
  { destruct (first_cover s gsi tables) as [a|] eqn:Hc; [|by rewrite (first_cover_same s s1) by exact Hres1].
    assert (forall x, maxreds s1 x = maxreds s x) as Hmax.
    { intros x. unfold maxreds. destruct Hres1 as [Ho _]. rewrite Ho; [done|]. right. unfold IOAPICREDTBLL, IOAPICREDTBLH, IOAPICVER.
      apply first_cover_in in Hc as [Ha Hc]. destruct (covers_pin _ _ _ Ha (Hbases _ Ha) Hc) as (_ & ? & _). lia. }
    rewrite <- Hc. clear - Hmax. induction tables as [|b l IH]; cbn [first_cover]; [done|]. unfold covers. by rewrite Hmax, IH. }
  rewrite Ec in Hres2. destruct (first_cover s gsi tables) as [a|].
  - cbv zeta in *. destruct Hres1 as (O1 & L1 & H1), Hres2 as (-> & O2 & HH2 & L2). split; [done|]. split; [|split].
    + intros b x Hb. rewrite O2 by done. by apply O1.
    + intros n Hn H12 H14. rewrite L2 by done. case_decide as E16; [|by apply L1]. subst n.
      assert (forall v p t, 0 <= v < 2 ^ 8 -> 0 <= p <= 1 -> 0 <= t <= 1 -> Z.testbit (v + 0 * 2 ^ 8 + 0 * 2 ^ 11 + p * 2 ^ 13 + t * 2 ^ 15 + 0 * 2 ^ 16) 16 = false) as Hb.
      { intros v p t Hv Hp Htt. apply Z.bits_above_log2; [lia|].
        destruct (Z.eq_dec (v + 0 * 2 ^ 8 + 0 * 2 ^ 11 + p * 2 ^ 13 + t * 2 ^ 15 + 0 * 2 ^ 16) 0) as [->|]; [done|]. apply Z.log2_lt_pow2; lia. }
      unfold entry_for, red_low. cbn [red_vec red_delivery red_destination red_polarity red_trigger red_mask]. symmetry.
      apply Hb; [unfold IRQ_BASE; lia| |]; unfold IOAPIC_ACTIVE_LO, IOAPIC_ACTIVE_HI, IOAPIC_TRIGGER_LEVEL, IOAPIC_TRIGGER_EDGE;
        destruct (iso_of _ _) as [i|]; try destruct (has_bits _ _); lia.
    + intros n Hn H12 H14. rewrite HH2. by apply H1.
  - destruct Hres2 as [-> Hs2]. split; [done|]. intros b x. by rewrite Hs2.
Qed.

(** Disabling an interrupt. Masking and [irq_uninstall] set the mask bit of
    the pin and nothing else in the registers, and leave the vector without a
    handler: an interrupt that is still delivered returns to the frame it
    interrupted. *)
Theorem irq_uninstall_spec s irq : iq_ioapics s = tables -> 0 <= irq < 16 ->
  exists r s', (r ← ioapic_set_irq_mask hhdm_offset irq true; irq_uninstall irq ;; mret r) s = Ok (r, s') /\
    only_vector (iq_handlers s) (iq_handlers s') (IRQ_BASE + irq) (mk_handler None None (IRQ_BASE + irq) 0) /\
    (forall X (irqs_of : X -> S) run x frame, irqs_of x = s' ->
      isr_common_handler irqs_of run (IRQ_BASE + irq) frame x = Ok (frame, x)) /\
    match first_cover s (ioapic_gsi_for_irq irq s) tables with
    | None => r = -1
    | Some a => let pin := ioapic_gsi_for_irq irq s - ia_gsi_base a in
        r = 0 /\ only_pin s s' a pin /\ Z.testbit (rg s' (base_of a) (IOAPICREDTBLL pin)) 16 = true
    end.
Proof.
  intros Ht Hirq. destruct (set_irq_mask_ok s irq true Ht Hirq) as (r & s1 & Hr & [d ->] & Hres).
  assert (u8 (IRQ_BASE + irq) = IRQ_BASE + irq) as Ev by (apply Z.mod_small; unfold IRQ_BASE; lia).
  eexists r, _. split.
  { eapply st_bind_eq; [exact Hr|]. unfold irq_uninstall. destruct (Z.leb_spec 16 irq); [lia|]. rewrite Ev.
    eapply st_bind_eq; [unfold irq_uninstall_vector, set_handler, modify; reflexivity|done]. }
  split; [done|]. split.
  { intros X irqs_of run x frame Hx. rewrite dispatch_ok, Hx by done. cbn [set_handlers iq_handlers]. by rewrite Z.eqb_refl. }
  destruct (first_cover s (ioapic_gsi_for_irq irq s) tables) as [a|]; [|apply Hres].
  cbv zeta in *. destruct Hres as (-> & Ho & _ & Hb). split; [done|]. split; [exact Ho|].
  assert (Z.testbit (rg (set_dev d s) (base_of a) (IOAPICREDTBLL (ioapic_gsi_for_irq irq s - ia_gsi_base a))) 16 = true) as Hm.
  { rewrite Hb by lia. by rewrite decide_True. }
  exact Hm.
Qed.

(** The last pin. The version register of an I/O APIC announces the index of
    its last redirection entry; the code takes it for their number. The
    interrupt of the last pin is found nowhere: installing a handler for it
    changes no register and unmasking it fails. *)
Theorem irq_last_pin s irq f lapic a : iq_ioapics s = tables -> tables = [a] -> 0 <= irq < 16 ->
  ioapic_gsi_for_irq irq s = ia_gsi_base a + maxreds s a ->
  exists s', (irq_install hhdm_offset irq (Some f) None lapic ;; ioapic_set_irq_mask hhdm_offset irq false) s = Ok (-1, s') /\
    forall b r, rg s' b r = rg s b r.
Proof.
  intros Ht Ha Hirq Hgsi. assert (forall x, (forall b r, rg x b r = rg s b r) -> first_cover x (ioapic_gsi_for_irq irq s) tables = None) as Hn.
  { intros x Hx. rewrite (first_cover_same s x) by done. rewrite Ha. cbn [first_cover]. unfold covers. rewrite Hgsi.
    assert (a ∈ tables) as Hin by (rewrite Ha; left). pose proof (Hbases a Hin) as Hb. pose proof (maxreds_bound s a Hin).
    assert (u32 (ia_gsi_base a + maxreds s a) <= ia_gsi_base a + maxreds s a) by (apply Z.mod_le; lia).
    destruct (Z.leb_spec (ia_gsi_base a) (ia_gsi_base a + maxreds s a)), (Z.ltb_spec (ia_gsi_base a + maxreds s a) (u32 (ia_gsi_base a + maxreds s a)));
      try lia; done. }
  destruct (irq_install_ok s irq f lapic Ht Hirq) as (s1 & Hr1 & Et & Ei & _ & Hres1). rewrite (Hn s) in Hres1 by done.
  destruct (set_irq_mask_ok s1 irq false ltac:(congruence) Hirq) as (r & s2 & Hr2 & _ & Hres2).
  assert (ioapic_gsi_for_irq irq s1 = ioapic_gsi_for_irq irq s) as Eg by (unfold ioapic_gsi_for_irq; by rewrite Ei).
  rewrite Eg, (Hn s1) in Hres2 by done. destruct Hres2 as [-> Hs2]. exists s2. split; [by eapply st_bind_eq|].
  intros b x. by rewrite Hs2.
Qed.
End spec.

(** ** Descriptors *)

Lemma idt_base_roundtrip offset type dpl : 0 <= offset < 2 ^ 64 -> idt_desc_base (idt_set_desc offset type dpl) = offset.
Proof.
  intros Ho. unfold idt_desc_base, idt_set_desc. cbn [base_low base_mid base_high].
  apply Z.bits_inj'. intros n Hn. rewrite !Z.lor_spec, !Z.shiftl_spec, !Z.land_spec by lia.
  change 0xFFFF with (Z.ones 16). change 0xFFFFFFFF with (Z.ones 32).
  destruct (Z.lt_ge_cases n 64) as [Hlt|Hge].
  2:{ assert (Z.testbit offset n = false) as -> by (rewrite <- (Z.mod_small offset (2 ^ 64)) by lia; by apply Z.mod_pow2_bits_high).
      rewrite (Z.ones_spec_high 16 n) by lia.
      rewrite (Z.ones_spec_high 16 (n - 16)), (Z.ones_spec_high 32 (n - 32)) by lia. by rewrite !andb_false_r. }
  destruct (Z.lt_ge_cases n 16) as [H16|H16].
  { rewrite (Z.ones_spec_low 16 n) by lia. rewrite !(Z.testbit_neg_r _ (n - 16)), !(Z.testbit_neg_r _ (n - 32)) by lia.
    by rewrite andb_true_r, !andb_false_l, !orb_false_r. }
  rewrite (Z.ones_spec_high 16 n) by lia. rewrite andb_false_r, orb_false_l.
  destruct (Z.lt_ge_cases n 32) as [H32|H32].
  { rewrite !(Z.testbit_neg_r _ (n - 32)) by lia. rewrite Z.shiftr_spec, (Z.ones_spec_low 16) by lia.
    rewrite andb_true_r, andb_false_l, orb_false_r. f_equal. lia. }
  rewrite (Z.ones_spec_high 16 (n - 16)) by lia. rewrite andb_false_r, orb_false_l.
  rewrite Z.shiftr_spec, Z.ones_spec_low by lia. rewrite andb_true_r. f_equal. lia.
Qed.

Lemma idt_fill_lookup type stubs n : forall v t w,
  idt_fill n v type stubs t !! w = if decide (v <= w < v + Z.of_nat n) then Some (idt_set_desc (stubs w) type 0) else t !! w.
Proof.
  induction n as [|n IH]; intros v t w; cbn [idt_fill]; [by rewrite decide_False by lia|]. rewrite IH.
  destruct (decide (v = w)) as [->|Hne].
  - rewrite decide_False by lia. rewrite lookup_insert_eq. by rewrite decide_True by lia.
  - destruct (decide (v + 1 <= w < v + 1 + Z.of_nat n)); [by rewrite decide_True by lia|].
    rewrite decide_False by lia. by rewrite lookup_insert_ne.
Qed.

(** The interrupt descriptor table. After [idt_init] every one of the 256
    vectors has a present descriptor whose three offset fields put together
    give the entry point of that vector; exceptions and the vector [0x80] are
    traps, the latter open to user mode, the other vectors are interrupt
    gates of the kernel. *)
Theorem idt_init_spec stubs t v : (forall w, 0 <= stubs w < 2 ^ 64) -> 0 <= v < 256 ->
  exists d, idt_init stubs t !! v = Some d /\ idt_desc_base d = stubs v /\ Z.testbit (idt_flags d) 7 = true /\
    Z.land (idt_flags d) 0xF = (if (v <? 32) || (v =? 0x80) then IDT_TRAP else IDT_INTERRUPT) /\
    Z.land (Z.shiftr (idt_flags d) 5) 3 = (if v =? 0x80 then 3 else 0).
Proof.
  intros Hs Hv. unfold idt_init. rewrite lookup_insert. case_decide as E.
  - subst v. eexists. split; [done|]. split; [by apply idt_base_roundtrip|]. by vm_compute.
  - rewrite !idt_fill_lookup. destruct (Z.ltb_spec v 32).
    + rewrite decide_False by lia. rewrite decide_True by lia. eexists. split; [done|]. split; [by apply idt_base_roundtrip|].
      destruct (Z.eqb_spec v 0x80); [lia|]. by vm_compute.
    + rewrite decide_True by lia. eexists. split; [done|]. split; [by apply idt_base_roundtrip|].
      destruct (Z.eqb_spec v 0x80); [lia|]. by vm_compute.
Qed.

(** ** Witnesses: one I/O APIC with 24 pins *)

Record demo_dev := mk_dev { dv_sel : Z; dv_regs : gmap Z Z }.
Definition demo_base : Z := 0xffff8000fec00000.
Definition demo_reg (d : demo_dev) (b r : Z) : Z :=
  if b =? demo_base then if r =? IOAPICVER then 0x170011 else default 0x10000 (dv_regs d !! r) mod 2 ^ 32 else 0.
#[local] Instance demo_mmio : Mmio demo_dev := {|
  mmio_read32 := fun a d => (if a =? demo_base + IOWIN then demo_reg d demo_base (dv_sel d) else 0, d);
  mmio_write32 := fun a v d =>
    if a =? demo_base + IOREGSEL then mk_dev v (dv_regs d)
    else if a =? demo_base + IOWIN then mk_dev (dv_sel d) (<[dv_sel d := v mod 2 ^ 32]> (dv_regs d)) else d;
|}.
Definition demo_tables : list madt_ioapic := [mk_ioapic 0xfec00000 0].
Definition demo_hhdm : Z := 0xffff800000000000.

Lemma demo_bases b : b ∈ ((fun a => PHYS_TO_VIRT demo_hhdm (ia_addr a)) <$> demo_tables) -> b = demo_base.
Proof. intros Hb. apply list_elem_of_singleton in Hb. subst b. by vm_compute. Qed.

Lemma demo_window r v d : mmio_write32 (demo_base + IOWIN) v (mmio_write32 (demo_base + IOREGSEL) r d) =
  mk_dev r (<[r := v mod 2 ^ 32]> (dv_regs d)).
Proof.
  unfold mmio_write32, demo_mmio, IOREGSEL. rewrite Z.add_0_r. rewrite Z.eqb_refl.
  destruct (Z.eqb_spec (demo_base + IOWIN) demo_base) as [E|_]; [unfold IOWIN in E; lia|]. rewrite Z.eqb_refl. done.
Qed.

Lemma demo_laws : ioapic_laws demo_reg ((fun a => PHYS_TO_VIRT demo_hhdm (ia_addr a)) <$> demo_tables).
Proof.
  split.
  - intros b r d ->%demo_bases. unfold mmio_read32, mmio_write32, demo_mmio, IOREGSEL. rewrite Z.add_0_r, !Z.eqb_refl.
    eexists. split; [done|]. done.
  - intros b r v d n ->%demo_bases Hr Hn _ _. rewrite demo_window. unfold demo_reg. rewrite Z.eqb_refl.
    destruct (Z.eqb_spec r IOAPICVER); [unfold IOAPICVER in *; lia|]. cbn [dv_regs]. rewrite lookup_insert_eq. cbn [default from_option id]. unfold id.
    rewrite Z.mod_mod by done. by rewrite Z.mod_pow2_bits_low by lia.
  - intros b r v d b' r' ->%demo_bases Hr Hne. rewrite demo_window. unfold demo_reg. cbn [dv_regs].
    destruct (Z.eqb_spec b' demo_base); [|done]. rewrite lookup_insert_ne; [done|]. naive_solver.
  - intros d b r. unfold demo_reg. destruct (b =? demo_base); [|lia]. destruct (r =? IOAPICVER); [lia|].
    apply Z.mod_pos_bound. lia.
  - intros d b ->%demo_bases. unfold demo_reg. rewrite !Z.eqb_refl. by vm_compute.
Qed.

Lemma demo_gsi_bases : gsi_bases demo_tables.
Proof. intros a ->%list_elem_of_singleton. by vm_compute. Qed.

(** IRQ 0 is overridden to the interrupt 2, level triggered. *)
Definition demo_irqs : irqs demo_dev :=
  mk_irqs (fun v => mk_handler None None v 0) demo_tables [mk_iso 0 2 8; mk_iso 9 23 0] 0xffff8000fee00000 (mk_dev 0 ∅).

Lemma irq_install_spec_witness : exists s',
  (irq_install demo_hhdm 0 (Some 7) None 1 ;; ioapic_set_irq_mask demo_hhdm 0 false) demo_irqs = Ok (0, s') /\
  Z.testbit (rg demo_reg s' demo_base (IOAPICREDTBLL 2)) 15 = true.
Proof.
  destruct (irq_install_spec demo_hhdm demo_reg demo_tables demo_laws demo_gsi_bases demo_irqs 0 7 1) as (r & s' & Hr & _ & _ & Hres);
    [reflexivity|lia|].
  change (first_cover demo_hhdm demo_reg demo_irqs (ioapic_gsi_for_irq 0 demo_irqs) demo_tables) with (Some (mk_ioapic 0xfec00000 0)) in Hres.
  destruct Hres as (-> & _ & Hl & _). exists s'. split; [exact Hr|]. pose proof (Hl 15 ltac:(lia) ltac:(lia) ltac:(lia)) as Hb.
  vm_compute (Z.testbit (red_low _) _) in Hb. exact Hb.
Defined.

Lemma irq_uninstall_spec_witness : exists s',
  (r ← ioapic_set_irq_mask demo_hhdm 1 true; irq_uninstall 1 ;; mret r) demo_irqs = Ok (0, s').
Proof.
  destruct (irq_uninstall_spec demo_hhdm demo_reg demo_tables demo_laws demo_gsi_bases demo_irqs 1) as (r & s' & Hr & _ & _ & Hres);
    [reflexivity|lia|].
  change (first_cover demo_hhdm demo_reg demo_irqs (ioapic_gsi_for_irq 1 demo_irqs) demo_tables) with (Some (mk_ioapic 0xfec00000 0)) in Hres.
  destruct Hres as (-> & _). exists s'. exact Hr.
Defined.

Lemma irq_last_pin_witness : exists s',
  (irq_install demo_hhdm 9 (Some 7) None 1 ;; ioapic_set_irq_mask demo_hhdm 9 false) demo_irqs = Ok (-1, s').
Proof.
  destruct (irq_last_pin demo_hhdm demo_reg demo_tables demo_laws demo_gsi_bases demo_irqs 9 7 1 (mk_ioapic 0xfec00000 0)) as (s' & Hr & _);
    [reflexivity|reflexivity|lia|reflexivity|].
  exists s'. exact Hr.
Defined.

Lemma idt_init_spec_witness : exists d, idt_init (fun v => 0xffffffff80001000 + 16 * v) ∅ !! 33 = Some d /\
  idt_desc_base d = 0xffffffff80001210.
Proof.
  destruct (idt_init_spec (fun v => 0xffffffff80001000 + 16 * (v mod 256)) ∅ 33) as (d & Hd & Hb & _); [|lia|].
  - intros w. pose proof (Z.mod_pos_bound w 256 ltac:(lia)). lia.
  - exists d. split; [vm_compute; vm_compute in Hd; exact Hd|exact Hb].
Defined.
