(* ===== verification/ApicInit.v ===== *)
(** The start of the interrupt controllers, [apic_cpu_init] and [apic_init] of
    [kernel/src/sys/apic.c], over the controllers of [Irq.v] and the page tables
    of [Paging.v].

    The state adds the page tables and the model-specific registers to that of
    [Irq.v]. What the code relies on of the local APIC is [apic_laws]. An access
    to a page that could not be mapped is not modelled as a fault; the theorem
    claims nothing then. *)
From S2P Require Import Prelude Dll Pfndb Pmm Paging Vmm PagingInit PagingInitSpec Irq IrqSpec.
Import Pte.

Definition APIC_BASE_MSR : Z := 0x1B.
Definition SPURIOUS_VECTOR : Z := 0xFF.
Definition APIC_LVT_DISABLE : Z := 0x10000.
Definition APIC_TPR : Z := 0x80.
Definition APIC_LOCAL_DEST : Z := 0xD0.
Definition APIC_DEST_FORMAT : Z := 0xE0.
Definition APIC_SPURIOUS_IVR : Z := 0xF0.
Definition APIC_ERROR_STATUS : Z := 0x280.
Definition APIC_LVT_TIMER : Z := 0x320.
Definition APIC_LVT_THERMAL : Z := 0x330.
Definition APIC_LVT_PERF : Z := 0x340.
Definition APIC_LVT_LINT0 : Z := 0x350.
Definition APIC_LVT_LINT1 : Z := 0x360.
Definition APIC_LVT_ERROR : Z := 0x370.
Definition APIC_LVT_REGS : list Z :=
  [APIC_LVT_TIMER; APIC_LVT_THERMAL; APIC_LVT_PERF; APIC_LVT_LINT0; APIC_LVT_LINT1; APIC_LVT_ERROR].

Record apic (S D : Type) := mk_apic { ap_irqs : irqs D; ap_mach : machine S; ap_msr : Z -> Z }.
Arguments mk_apic {S D}.
Arguments ap_irqs {S D}.
Arguments ap_mach {S D}.
Arguments ap_msr {S D}.

Section apic.
Context {S D : Type} `{PageSource S} `{!Mmio D} (hhdm_offset : Z) (kernel_vas : option vas).
Abbreviation A := (apic S D).

Definition on_irqs {T} (f : ST (irqs D) T) : ST A T := fun s =>
  match f (ap_irqs s) with
  | Ok (a, q) => Ok (a, mk_apic q (ap_mach s) (ap_msr s))
  | Panic => Panic | Fault => Fault | Timeout => Timeout
  end.
Definition on_tables {T} (f : ST (machine S) T) : ST A T := fun s =>
  match f (ap_mach s) with
  | Ok (a, m) => Ok (a, mk_apic (ap_irqs s) m (ap_msr s))
  | Panic => Panic | Fault => Fault | Timeout => Timeout
  end.
Definition rdmsr (r : Z) : ST A Z := gets (fun s => ap_msr s r).
Definition wrmsr (r v : Z) : ST A unit :=
  modify (fun s => mk_apic (ap_irqs s) (ap_mach s) (fun x => if x =? r then v else ap_msr s x)).
Definition set_lapic_base (a : Z) : ST (irqs D) unit :=
  modify (fun q => mk_irqs (iq_handlers q) (iq_ioapics q) (iq_isos q) a (iq_dev q)).

Definition lapic_read (reg : Z) : ST (irqs D) Z := lapic ← gets iq_lapic; read32 (lapic + reg).

Fixpoint disable_lvts (l : list Z) : ST (irqs D) unit :=
  match l with [] => mret tt | r :: l => lapic_write r APIC_LVT_DISABLE ;; disable_lvts l end.

Definition apic_cpu_init (cpu_index : Z) : ST A unit :=
  base_msr ← rdmsr APIC_BASE_MSR;
  wrmsr APIC_BASE_MSR (Z.land (Z.lor base_msr (2 ^ 11)) (2 ^ 64 - 1 - 2 ^ 10)) ;;
  on_irqs (
    lapic_write APIC_SPURIOUS_IVR (Z.lor (2 ^ 8) SPURIOUS_VECTOR) ;;
    lapic_write APIC_DEST_FORMAT 0xFFFFFFFF ;;
    lapic_write APIC_LOCAL_DEST (if cpu_index <? 8 then u32 (Z.shiftl (Z.shiftl 1 cpu_index) 24) else 0) ;;
    disable_lvts APIC_LVT_REGS ;;
    lapic_write APIC_TPR 0 ;;
    lapic_write APIC_ERROR_STATUS 0 ;;
    lapic_read APIC_ERROR_STATUS ;;
    mret tt).

(** [for (uint8_t n = 0; n < maxreds; n++)]. *)
Fixpoint mask_loop (fuel : nat) (base n maxreds : Z) : ST (irqs D) unit :=
  if negb (n <? maxreds) then mret tt else
  match fuel with
  | O => st_timeout
  | Datatypes.S fuel =>
      ioapic_write base (u8 (IOAPICREDTBLL n)) 0x10000 ;;
      ioapic_write base (u8 (IOAPICREDTBLH n)) 0 ;;
      mask_loop fuel base (u8 (n + 1)) maxreds
  end.

Fixpoint ioapics_loop (l : list madt_ioapic) : ST A unit :=
  match l with
  | [] => mret tt
  | a :: l =>
      let base := PHYS_TO_VIRT hhdm_offset (ia_addr a) in
      on_tables (paging_map_page kernel_vas base (ia_addr a) (Z.lor PAGE_PRESENT PAGE_WRITE)) ;;
      v ← on_irqs (ioapic_read base IOAPICVER);
      on_irqs (mask_loop 256 base 0 (Z.land (Z.shiftr v 16) 0xFF)) ;;
      ioapics_loop l
  end.

Definition apic_init : ST A unit :=
  lapic_base ← on_irqs (gets iq_lapic);
  let lapic_virt := PHYS_TO_VIRT hhdm_offset lapic_base in
  on_tables (paging_map_page kernel_vas lapic_virt lapic_base (Z.lor PAGE_PRESENT PAGE_WRITE)) ;;
  on_irqs (set_lapic_base lapic_virt) ;;
  apic_cpu_init 0 ;;
  l ← on_irqs (gets iq_ioapics);
  ioapics_loop l.
End apic.

(** ** The devices

    [lreg d r] is register [r] of the local APIC of the CPU, at [lapic]. Of a
    register the code writes only some bits can be set. Enabling the local APIC
    leaves the local vector table; disabling it would not. *)
Definition lapic_regs : list Z :=
  [APIC_SPURIOUS_IVR; APIC_DEST_FORMAT; APIC_LOCAL_DEST] ++ APIC_LVT_REGS ++ [APIC_TPR; APIC_ERROR_STATUS].
Definition writable (r : Z) : Z :=
  if r =? APIC_SPURIOUS_IVR then 0x1FF else
  if r =? APIC_DEST_FORMAT then 0xF0000000 else
  if r =? APIC_LOCAL_DEST then 0xFF000000 else
  if r =? APIC_TPR then 0xFF else
  if r =? APIC_ERROR_STATUS then 0 else APIC_LVT_DISABLE.
Definition takes (l v r : Z) : Prop := Z.land l (writable r) = Z.land v (writable r).

Record apic_laws {D : Type} `{!Mmio D} (reg : D -> Z -> Z -> Z) (lreg : D -> Z -> Z) (bases : list Z) (lapic : Z) : Prop := {
  al_ioapic : ioapic_laws reg bases;
  al_write r v d : r ∈ lapic_regs -> takes (lreg (mmio_write32 (lapic + r) v d) r) v r;
  al_other r v d x : r ∈ lapic_regs -> (r = APIC_SPURIOUS_IVR -> Z.testbit v 8 = true) -> x ∈ lapic_regs -> x <> r ->
    lreg (mmio_write32 (lapic + r) v d) x = lreg d x;
  al_read r d x : r ∈ lapic_regs -> lreg (mmio_read32 (lapic + r) d).2 x = lreg d x;
  al_apart r v d b x : r ∈ lapic_regs -> b ∈ bases ->
    reg (mmio_write32 (lapic + r) v d) b x = reg d b x /\ reg (mmio_read32 (lapic + r) d).2 b x = reg d b x;
  al_window b r v d x : b ∈ bases ->
    lreg (mmio_write32 (b + IOWIN) v (mmio_write32 (b + IOREGSEL) r d)) x = lreg d x /\
    lreg (mmio_read32 (b + IOWIN) (mmio_write32 (b + IOREGSEL) r d)).2 x = lreg d x;
}.
Arguments al_ioapic {D _ reg lreg bases lapic}.
Arguments al_write {D _ reg lreg bases lapic}.
Arguments al_other {D _ reg lreg bases lapic}.
Arguments al_read {D _ reg lreg bases lapic}.
Arguments al_apart {D _ reg lreg bases lapic}.
Arguments al_window {D _ reg lreg bases lapic}.

(** Enabled with the spurious vector 255, in the flat model, a logical number
    of its own for the first eight CPUs, every local source masked, and all
    priorities accepted. *)
Record lapic_ready (i : Z) (lreg : Z -> Z) : Prop := {
  lr_enabled : Z.land (lreg APIC_SPURIOUS_IVR) 0x1FF = 0x1FF;
  lr_flat : Z.land (lreg APIC_DEST_FORMAT) 0xF0000000 = 0xF0000000;
  lr_dest : Z.land (lreg APIC_LOCAL_DEST) 0xFF000000 = if i <? 8 then 2 ^ (24 + i) else 0;
  lr_masked r : r ∈ APIC_LVT_REGS -> Z.testbit (lreg r) 16 = true;
  lr_priority : Z.land (lreg APIC_TPR) 0xFF = 0;
}.

Section controllers.
Context {D : Type} `{!Mmio D} (reg : D -> Z -> Z -> Z) (lreg : D -> Z -> Z) (bases : list Z) (lapic : Z).
Context (laws : apic_laws reg lreg bases lapic).
Abbreviation Q := (irqs D).

(** ** The local APIC *)

(** The registers of [l] are written, in [s], after [s0]. *)
Record Config (s0 : Q) (l : list (Z * Z)) (s : Q) : Prop := {
  cf_dev : exists d, s = set_dev d s0;
  cf_io : forall b x, b ∈ bases -> rg reg s b x = rg reg s0 b x;
  cf_regs : forall r v, (r, v) ∈ l -> takes (lreg (iq_dev s) r) v r }.

Lemma config_start s : Config s [] s.
Proof. split; [exists (iq_dev s); by destruct s|done|]. intros r v Hr. by apply elem_of_nil in Hr. Qed.

Lemma write_then {B} r v (k : ST Q B) s0 l s : iq_lapic s0 = lapic -> Config s0 l s -> r ∈ lapic_regs -> r ∉ l.*1 ->
  (forall x, x ∈ l.*1 -> x ∈ lapic_regs) -> (r = APIC_SPURIOUS_IVR -> Z.testbit v 8 = true) ->
  exists s', (lapic_write r v ;; k) s = k s' /\ Config s0 (l ++ [(r, v)]) s'.
Proof.
  intros Hl [[d ->] Hio Hc] Hr Hn Hin Hv. eexists. split; [unfold lapic_write; rewrite bind_assoc, gets_bind; unfold write32; by rewrite modify_bind|].
  cbn [set_dev iq_lapic]. rewrite Hl. split; [by eexists| |].
  - intros b x Hb. unfold rg in *. cbn [set_dev iq_dev] in *. rewrite (proj1 (al_apart laws r v d b x Hr Hb)). by apply Hio.
  - intros x w [Hx|Hx]%elem_of_app; cbn [set_dev iq_dev] in *.
    + assert (x ∈ l.*1) by (apply list_elem_of_fmap; by exists (x, w)).
      rewrite (al_other laws); [by apply Hc|done|done|by apply Hin|by intros ->].
    + apply list_elem_of_singleton in Hx as [= -> ->]. by apply (al_write laws).
Qed.

(** Several writes, then [k]. *)
Definition write_seq {B} (l : list (Z * Z)) (k : ST Q B) : ST Q B := foldr (fun p k => lapic_write p.1 p.2 ;; k) k l.
Definition settable (l : list (Z * Z)) : Prop :=
  NoDup l.*1 /\ (forall x, x ∈ l.*1 -> x ∈ lapic_regs) /\ forall v, (APIC_SPURIOUS_IVR, v) ∈ l -> Z.testbit v 8 = true.

Lemma settable_front l l' : settable (l ++ l') -> settable l.
Proof.
  unfold settable. rewrite fmap_app. intros (H1%NoDup_app & H2 & H3). split; [tauto|]. split; intros x Hx.
  - apply H2, elem_of_app. by left.
  - apply H3, elem_of_app. by left.
Qed.

Lemma write_next {B} r v (k : ST Q B) s0 l l' s : iq_lapic s0 = lapic -> Config s0 l s -> settable (l ++ (r, v) :: l') ->
  exists s', (lapic_write r v ;; k) s = k s' /\ Config s0 (l ++ [(r, v)]) s'.
Proof.
  intros Hl Hc Hs. change (settable (l ++ [(r, v)] ++ l')) in Hs. rewrite (assoc_L (++)) in Hs. apply settable_front in Hs as (Hn & Hin & Hv).
  rewrite fmap_app in Hn, Hin. apply NoDup_app in Hn as (_ & Hn & _).
  apply write_then; [done|done|apply Hin; set_solver|intros Hx; apply (Hn r Hx); left|intros x Hx; apply Hin; set_solver|].
  intros ->. apply Hv. set_solver.
Qed.

Lemma write_seq_ok {B} l1 : forall (k : ST Q B) s0 l l2 s, iq_lapic s0 = lapic -> Config s0 l s -> settable (l ++ l1 ++ l2) ->
  exists s', write_seq l1 k s = k s' /\ Config s0 (l ++ l1) s'.
Proof.
  induction l1 as [|[r v] l1 IH]; intros k s0 l l2 s Hl Hc Hs; [exists s; by rewrite app_nil_r|]. cbn [write_seq foldr fst snd].
  destruct (write_next r v (write_seq l1 k) s0 l (l1 ++ l2) s Hl Hc Hs) as (s1 & H1 & C1).
  change (settable (l ++ [(r, v)] ++ l1 ++ l2)) in Hs. rewrite (assoc_L (++) l) in Hs. destruct (IH k s0 _ l2 s1 Hl C1 Hs) as (s2 & H2 & C2).
  exists s2. split; [by rewrite <- H2|]. by rewrite <- (assoc_L (++)) in C2.
Qed.

Lemma disable_then {B} rs : forall (k : ST Q B) s0 l l2 s, iq_lapic s0 = lapic -> Config s0 l s ->
  let l1 := (fun r => (r, APIC_LVT_DISABLE)) <$> rs in settable (l ++ l1 ++ l2) ->
  exists s', (disable_lvts rs ;; k) s = k s' /\ Config s0 (l ++ l1) s'.
Proof.
  induction rs as [|r rs IH]; intros k s0 l l2 s Hl Hc l1 Hs; [exists s; by rewrite app_nil_r|]. cbn [disable_lvts]. rewrite bind_assoc.
  destruct (write_next r _ (disable_lvts rs ;; k) s0 l _ s Hl Hc Hs) as (s1 & H1 & C1). unfold l1 in *. cbn [fmap list_fmap app] in *.
  change (settable (l ++ [(r, APIC_LVT_DISABLE)] ++ ((fun r => (r, APIC_LVT_DISABLE)) <$> rs) ++ l2)) in Hs. rewrite (assoc_L (++) l) in Hs. destruct (IH k s0 _ l2 s1 Hl C1 Hs) as (s2 & H2 & C2).
  exists s2. split; [by rewrite H1|]. by rewrite <- (assoc_L (++)) in C2.
Qed.

Definition dest_bits (i : Z) : Z := if i <? 8 then u32 (Z.shiftl (Z.shiftl 1 i) 24) else 0.
Definition config (i : Z) : list (Z * Z) :=
  [(APIC_SPURIOUS_IVR, 0x1FF); (APIC_DEST_FORMAT, 0xFFFFFFFF); (APIC_LOCAL_DEST, dest_bits i)] ++
  ((fun r => (r, APIC_LVT_DISABLE)) <$> APIC_LVT_REGS) ++ [(APIC_TPR, 0); (APIC_ERROR_STATUS, 0)].

Lemma config_ready i s0 s : 0 <= i -> Config s0 (config i) s -> lapic_ready i (lreg (iq_dev s)).
Proof.
  intros Hi [_ _ Hc]. split.
  - apply (Hc APIC_SPURIOUS_IVR 0x1FF). unfold config. set_solver.
  - apply (Hc APIC_DEST_FORMAT 0xFFFFFFFF). unfold config. set_solver.
  - assert (Hd : takes (lreg (iq_dev s) APIC_LOCAL_DEST) (dest_bits i) APIC_LOCAL_DEST) by (apply Hc; unfold config; set_solver).
    unfold takes in Hd. change (writable APIC_LOCAL_DEST) with 0xFF000000 in Hd. rewrite Hd. unfold dest_bits.
    destruct (Z.ltb_spec i 8); [|done]. assert (Hi8 : i ∈ seqZ 0 8) by (apply elem_of_seqZ; lia).
    cbv in Hi8. repeat (apply elem_of_cons in Hi8 as [->|Hi8]; [by vm_compute|]). by apply elem_of_nil in Hi8.
  - intros r Hr. assert (Ht : takes (lreg (iq_dev s) r) APIC_LVT_DISABLE r).
    { apply Hc. unfold config. apply elem_of_app. right. apply elem_of_app. left. apply list_elem_of_fmap. by exists r. }
    assert (Hw : writable r = 2 ^ 16).
    { cbv in Hr. repeat (apply elem_of_cons in Hr as [->|Hr]; [done|]). by apply elem_of_nil in Hr. }
    unfold takes in Ht. rewrite Hw in Ht. apply (f_equal (fun x => Z.testbit x 16)) in Ht. rewrite !Z.land_spec in Ht.
    change (Z.testbit (2 ^ 16) 16) with true in Ht. by rewrite !andb_true_r in Ht.
  - apply (Hc APIC_TPR 0). unfold config. set_solver.
Qed.

Lemma config_settable i : settable (config i).
Proof.
  split; [apply (bool_decide_unpack _); by vm_compute|]. split; [|unfold config; intros v Hv; set_solver].
  intros x Hx. change ((config i).*1) with lapic_regs in Hx. done.
Qed.

Lemma lapic_setup_ok i q : iq_lapic q = lapic -> exists q',
  (lapic_write APIC_SPURIOUS_IVR (Z.lor (2 ^ 8) SPURIOUS_VECTOR) ;;
   lapic_write APIC_DEST_FORMAT 0xFFFFFFFF ;;
   lapic_write APIC_LOCAL_DEST (dest_bits i) ;;
   disable_lvts APIC_LVT_REGS ;;
   lapic_write APIC_TPR 0 ;;
   lapic_write APIC_ERROR_STATUS 0 ;;
   lapic_read APIC_ERROR_STATUS ;;
   mret tt) q = Ok (tt, q') /\ Config q (config i) q'.
Proof.
  intros Hl. pose proof (config_settable i) as Hs.
  destruct (write_seq_ok _ (disable_lvts APIC_LVT_REGS ;; write_seq [(APIC_TPR, 0); (APIC_ERROR_STATUS, 0)] (lapic_read APIC_ERROR_STATUS ;; mret tt))
    q [] _ q Hl (config_start q) Hs) as (q1 & H1 & C1).
  destruct (disable_then APIC_LVT_REGS (write_seq [(APIC_TPR, 0); (APIC_ERROR_STATUS, 0)] (lapic_read APIC_ERROR_STATUS ;; mret tt))
    q _ [(APIC_TPR, 0); (APIC_ERROR_STATUS, 0)] q1 Hl C1 Hs) as (q2 & H2 & C2).
  destruct (write_seq_ok [(APIC_TPR, 0); (APIC_ERROR_STATUS, 0)] (lapic_read APIC_ERROR_STATUS ;; mret tt) q _ [] q2 Hl C2 Hs) as (q3 & H3 & C3).
  unfold write_seq at 1 in H1. cbn [foldr fst snd] in H1. change (Z.lor (2 ^ 8) SPURIOUS_VECTOR) with 0x1FF.
  unfold write_seq in H1, H2, H3. cbn [foldr fst snd] in H1, H2, H3. rewrite H1, H2, H3.
  rewrite <- !(assoc_L (++)) in C3. destruct C3 as [[d ->] Hio Hc].
  destruct (mmio_read32 (lapic + APIC_ERROR_STATUS) d) as [v d'] eqn:Er. exists (set_dev d' q).
  assert (Ed : d' = (mmio_read32 (lapic + APIC_ERROR_STATUS) d).2) by (by rewrite Er).
  assert (Hr : APIC_ERROR_STATUS ∈ lapic_regs) by (apply (bool_decide_unpack _); by vm_compute). split.
  - unfold lapic_read. rewrite bind_assoc, gets_bind. cbn [set_dev iq_lapic]. rewrite Hl. unfold read32, mbind, st_bind. cbn [set_dev iq_dev]. by rewrite Er.
  - split; [by exists d'| |].
    + intros b x Hb. unfold rg in *. cbn [set_dev iq_dev] in *. rewrite Ed, (proj2 (al_apart laws _ 0 d b x Hr Hb)). by apply Hio.
    + intros r w Hw. cbn [set_dev iq_dev] in *. rewrite Ed, (al_read laws) by done. by apply Hc.
Qed.

Lemma apic_cpu_init_ok {S} i (s : apic S D) : 0 <= i -> iq_lapic (ap_irqs s) = lapic -> exists d,
  let msr := fun x => if x =? APIC_BASE_MSR then Z.land (Z.lor (ap_msr s APIC_BASE_MSR) (2 ^ 11)) (2 ^ 64 - 1 - 2 ^ 10) else ap_msr s x in
  apic_cpu_init i s = Ok (tt, mk_apic (set_dev d (ap_irqs s)) (ap_mach s) msr) /\ lapic_ready i (lreg d) /\
  forall b x, b ∈ bases -> reg d b x = reg (iq_dev (ap_irqs s)) b x.
Proof.
  intros Hi Hl. destruct (lapic_setup_ok i (ap_irqs s) Hl) as (q & Hq & Hc). pose proof (config_ready _ _ _ Hi Hc) as Hr.
  destruct Hc as [[d ->] Hio _]. exists d. split; [|by split].
  unfold apic_cpu_init, rdmsr, wrmsr. rewrite gets_bind, modify_bind. unfold on_irqs. cbn [ap_irqs ap_mach ap_msr].
  unfold dest_bits in Hq. by rewrite Hq.
Qed.
End controllers.

Section devices.
Context {S D : Type} `{PageSourceLaws S} `{!Mmio D}.
Context (hhdm : Z) (kernel_vas : option vas) (root : Z) (Hvas : vas_root kernel_vas = Some root).
Context (reg : D -> Z -> Z -> Z) (lreg : D -> Z -> Z) (tables : list madt_ioapic) (lapic_phys : Z).
Abbreviation virt := (PHYS_TO_VIRT hhdm).
Abbreviation base_of := (fun a => PHYS_TO_VIRT hhdm (ia_addr a)).
Context (laws : apic_laws reg lreg (base_of <$> tables) (virt lapic_phys)).
Abbreviation Q := (irqs D).
Abbreviation rg := (rg reg).
Abbreviation maxreds := (maxreds hhdm reg).

(** ** The pages of the devices *)

Context (Hhdm : 2 ^ 64 - 2 ^ 47 <= hhdm /\ hhdm + 2 ^ 46 <= 2 ^ 64 /\ (4096 | hhdm)).
Definition dev_page (p : Z) : Prop := 0 <= p < 2 ^ 46 /\ (4096 | p).
Definition DEV_FLAGS : Z := Z.lor PAGE_PRESENT PAGE_WRITE.
Definition dev_entry (p : Z) : Z := Z.lor (Z.land p PAGE_ADDR_MASK) (flags_to_pte DEV_FLAGS).

Record Direct (m0 : machine S) (ps : list Z) (m : machine S) : Prop := {
  di_tree : exists lab held, tree m lab held /\ lab !! root = Some (root, []);
  di_page p w : p ∈ ps -> vpage w = vpage (virt p) -> leaf_entry (m_ram m) root w = dev_entry p;
  di_other w : (forall p, p ∈ ps -> vpage w <> vpage (virt p)) -> leaf_entry (m_ram m) root w = leaf_entry (m_ram m0) root w;
  di_frames k : supplies (3 * length ps + k) (m_src m0) = true -> supplies k (m_src m) = true }.

Lemma virt_page p : dev_page p -> virt p = p + hhdm /\ (4096 | virt p) /\ vpage (virt p) = (p + hhdm) / 4096 - (2 ^ 52 - 2 ^ 36).
Proof.
  destruct Hhdm as (H1 & H2 & [k Hk]). intros [Hp [j Hj]]. assert (Hv : virt p = p + hhdm) by (apply Z.mod_small; lia). rewrite Hv.
  split; [done|]. split; [exists (j + k); lia|]. apply vpage_upper. unfold upper. lia.
Qed.

Lemma virt_inj p q : dev_page p -> dev_page q -> vpage (virt p) = vpage (virt q) -> p = q.
Proof.
  intros Hp Hq. destruct (virt_page p Hp) as (_ & _ & ->), (virt_page q Hq) as (_ & _ & ->).
  destruct Hp as [_ [j ->]], Hq as [_ [i ->]], Hhdm as (_ & _ & [k ->]). rewrite <- !Z.mul_add_distr_r, !Z.div_mul by done. lia.
Qed.

Lemma direct_step m0 ps m p : Direct m0 ps m -> dev_page p -> (forall q, q ∈ ps -> dev_page q) ->
  supplies (3 * length (ps ++ [p])) (m_src m0) = false \/
  exists m', paging_map_page kernel_vas (virt p) p DEV_FLAGS m = Ok (0, m') /\ Direct m0 (ps ++ [p]) m'.
Proof.
  intros [(lab & held & Ht & Hroot) Hpg Hot Hdr] Hp Hps. destruct (virt_page p Hp) as (_ & Hal & _).
  unfold paging_map_page. rewrite Hvas, !low_bits_aligned by (apply Hp || done). cbn [orb].
  destruct (lookup_pt_ok m lab held root (virt p) DEV_FLAGS Ht Hroot) as (r & m1 & lab1 & held1 & Hr & Hx & Hres).
  pose proof (fun k => lookup_pt_needs root (virt p) DEV_FLAGS m r m1 k Hr) as Hn.
  assert (Hf : forall k, supplies (3 * length (ps ++ [p]) + k) (m_src m0) = true -> found r = true /\ supplies k (m_src m1) = true).
  { intros k Hk. apply Hn, Hdr. eapply supplies_le; [|exact Hk]. rewrite length_app. cbn. lia. }
  destruct r as [pt|].
  2:{ left. destruct (supplies _ (m_src m0)) eqn:Hk; [|done]. destruct (Hf 0%nat) as [? _]; [by rewrite Nat.add_0_r|done]. }
  right. destruct Hres as [Hw _]. assert (lab1 !! root = Some (root, [])) as Hroot1 by (eapply lookup_weaken; [done|apply Hx]).
  destruct (set_leaf_entry m1 lab1 held1 pt root (virt p) (dev_entry p) (ex_tree _ _ _ _ _ _ Hx) Hroot1 Hw) as (Ht2 & Hself & _).
  eexists. split; [eapply st_bind_eq; [unfold lookup_leaf; eapply st_bind_eq; [exact Hr|reflexivity]|reflexivity]|]. split.
  - by exists lab1, held1.
  - intros q w Hq Ew. cbn. rewrite Hself. case_decide as E.
    + rewrite Ew in E. f_equal. symmetry. apply virt_inj; [|done|done]. apply elem_of_app in Hq as [Hq|Hq%list_elem_of_singleton]; [by apply Hps|by subst q].
    + rewrite (ex_leaf _ _ _ _ _ _ Hx) by done. apply Hpg; [|done]. apply elem_of_app in Hq as [Hq|Hq%list_elem_of_singleton]; [done|by subst q].
  - intros w Hne. cbn. rewrite Hself, decide_False by (apply Hne; set_solver). rewrite (ex_leaf _ _ _ _ _ _ Hx) by done.
    apply Hot. intros q Hq. apply Hne. set_solver.
  - intros k Hk. by apply Hf.
Qed.

(** ** The redirection entries *)

(** An entry that is masked and names no CPU. *)
Definition idle (q : Q) (b n : Z) : Prop := forall k, 0 <= k < 32 -> k <> 12 -> k <> 14 ->
  Z.testbit (rg q b (IOAPICREDTBLL n)) k = bool_decide (k = 16) /\ Z.testbit (rg q b (IOAPICREDTBLH n)) k = false.

(** Only the registers in [P] may differ. *)
Definition touches (P : Z -> Z -> Prop) (q q' : Q) : Prop :=
  (exists d, q' = set_dev d q) /\ (forall b r, ~ P b r -> rg q' b r = rg q b r) /\
  forall x, lreg (iq_dev q') x = lreg (iq_dev q) x.

Lemma touches_refl P q : touches P q q.
Proof. split; [exists (iq_dev q); by destruct q|done]. Qed.
Lemma touches_trans (P1 P2 P : Z -> Z -> Prop) q1 q2 q3 : (forall b r, P1 b r \/ P2 b r -> P b r) ->
  touches P1 q1 q2 -> touches P2 q2 q3 -> touches P q1 q3.
Proof.
  intros HP ([d1 ->] & H1 & L1) ([d2 ->] & H2 & L2). split; [by exists d2|]. split.
  - intros b r Hn. rewrite H2 by auto. apply H1. auto.
  - intros x. by rewrite L2, L1.
Qed.

Lemma window_read q b r : b ∈ base_of <$> tables -> exists q', ioapic_read b r q = Ok (rg q b r, q') /\ touches (fun _ _ => False) q q'.
Proof.
  intros Hb. destruct (il_read (al_ioapic laws) b r (iq_dev q) Hb) as (d & Hr & Hs). exists (set_dev d q). split.
  - unfold ioapic_read, write32, read32. rewrite modify_bind. unfold set_dev at 1. cbn [iq_dev]. by rewrite Hr.
  - split; [by exists d|]. split; [intros b' r' _; apply Hs|]. intros x.
    pose proof (proj2 (al_window laws b r 0 (iq_dev q) x Hb)) as Hw. by rewrite Hr in Hw.
Qed.

Lemma window_write q b r v : b ∈ base_of <$> tables -> 0x10 <= r -> exists q', ioapic_write b r v q = Ok (tt, q') /\
  touches (fun b' r' => b' = b /\ r' = r) q q' /\
  forall k, 0 <= k < 32 -> k <> 12 -> k <> 14 -> Z.testbit (rg q' b r) k = Z.testbit v k.
Proof.
  intros Hb Hr. eexists. split; [unfold ioapic_write, write32; rewrite modify_bind; done|]. split; [split; [by eexists|split]|].
  - intros b' r' Hn. apply (il_other (al_ioapic laws)); [done|done|]. destruct (decide (b' = b)); [right|by left]. naive_solver.
  - intros x. by apply (al_window laws).
  - intros k Hk H12 H14. by apply (il_write (al_ioapic laws)).
Qed.

Definition entry_regs (b n max b' r : Z) : Prop := b' = b /\ IOAPICREDTBLL n <= r < IOAPICREDTBLL max.

Lemma mask_loop_ok b : b ∈ base_of <$> tables -> forall fuel n max q, 0 <= n <= max -> max <= 119 -> max - n <= Z.of_nat fuel ->
  exists q', mask_loop fuel b n max q = Ok (tt, q') /\ touches (entry_regs b n max) q q' /\ forall k, n <= k < max -> idle q' b k.
Proof.
  intros Hb. unfold entry_regs, idle, IOAPICREDTBLL, IOAPICREDTBLH. induction fuel as [|fuel IH]; intros n max q Hn Hm Hf; cbn [mask_loop].
  { rewrite (proj2 (Z.ltb_ge n max)) by lia. exists q. split; [done|]. split; [apply touches_refl|lia]. }
  destruct (Z.ltb_spec n max) as [Hlt|Hge]; cbn [negb]; [|exists q; split; [done|]; split; [apply touches_refl|lia]].
  unfold IOAPICREDTBLL, IOAPICREDTBLH, u8. rewrite !Z.mod_small by lia.
  destruct (window_write q b (0x10 + 2 * n) 0x10000 Hb) as (q1 & W1 & T1 & B1); [lia|]. rewrite (st_bind_ok _ _ _ _ _ W1).
  destruct (window_write q1 b (0x10 + 2 * n + 1) 0 Hb) as (q2 & W2 & T2 & B2); [lia|]. rewrite (st_bind_ok _ _ _ _ _ W2).
  destruct (IH (n + 1) max q2) as (q3 & W3 & T3 & B3); [lia..|]. exists q3. split; [exact W3|]. split.
  - eapply touches_trans; [|exact T1|eapply (touches_trans _ _ (fun b' r => b' = b /\ 0x10 + 2 * n + 1 <= r < 0x10 + 2 * max)); [|exact T2|exact T3]]; cbn; lia.
  - intros k Hk j Hj H12 H14. destruct (decide (k = n)) as [->|Hne]; [|by apply B3; try lia].
    destruct T3 as (_ & T3 & _), T2 as (_ & T2 & _). rewrite !T3 by lia. rewrite B2, Z.bits_0 by done. rewrite T2 by lia. rewrite B1 by done.
    split; [|done]. change 0x10000 with (2 ^ 16). rewrite Z.pow2_bits_eqb by lia. by case_bool_decide; destruct (Z.eqb_spec 16 j); subst.
Qed.

(** ** The whole start *)

#[local] Opaque mask_loop.

Definition all_entries (q0 : Q) (b r : Z) : Prop := exists a, a ∈ tables /\ entry_regs (base_of a) 0 (maxreds q0 a) b r.
(** The controllers in [l] are done. *)
Definition Masked (q0 : Q) (l : list madt_ioapic) (q : Q) : Prop :=
  touches (all_entries q0) q0 q /\ forall a k, a ∈ l -> 0 <= k < maxreds q0 a -> idle q (base_of a) k.

Lemma base_in a : a ∈ tables -> base_of a ∈ base_of <$> tables.
Proof. intros Ha. apply list_elem_of_fmap. by exists a. Qed.

Lemma version_kept q0 q a : touches (all_entries q0) q0 q -> rg q (base_of a) IOAPICVER = rg q0 (base_of a) IOAPICVER.
Proof.
  intros (_ & Hr & _). apply Hr. intros (x & _ & _ & Hx). unfold IOAPICREDTBLL, IOAPICVER in Hx. lia.
Qed.

Lemma mask_step q0 l q a : Masked q0 l q -> a ∈ tables -> exists q1 q2,
  ioapic_read (base_of a) IOAPICVER q = Ok (rg q0 (base_of a) IOAPICVER, q1) /\
  mask_loop 256 (base_of a) 0 (maxreds q0 a) q1 = Ok (tt, q2) /\ Masked q0 (l ++ [a]) q2.
Proof.
  intros [Ht Hi] Ha. destruct (window_read q (base_of a) IOAPICVER (base_in a Ha)) as (q1 & Hr & T1).
  rewrite (version_kept q0 q a Ht) in Hr. pose proof (maxreds_bound hhdm reg tables (al_ioapic laws) q0 a Ha) as Hm.
  destruct (mask_loop_ok (base_of a) (base_in a Ha) 256 0 (maxreds q0 a) q1) as (q2 & Hl & T2 & Hidle); [lia..|].
  assert (T3 : touches (entry_regs (base_of a) 0 (maxreds q0 a)) q q2) by (eapply touches_trans; [|exact T1|exact T2]; tauto).
  exists q1, q2. split; [exact Hr|]. split; [exact Hl|]. split.
  - eapply touches_trans; [|exact Ht|exact T3]. intros b r [?|He]; [done|by exists a].
  - intros x k [Hx| ->%list_elem_of_singleton]%elem_of_app Hk; [|by apply Hidle].
    destruct (decide (base_of x = base_of a)) as [E|Hne].
    + assert (maxreds q0 x = maxreds q0 a) as Em by (unfold IrqSpec.maxreds; by rewrite E). rewrite E. apply Hidle. lia.
    + intros j Hj H12 H14. destruct T3 as (_ & T3 & _). rewrite !T3 by (intros [? _]; done). by apply Hi.
Qed.

Lemma on_irqs_run {T} (f : ST Q T) (s : apic S D) r q : f (ap_irqs s) = Ok (r, q) -> on_irqs f s = Ok (r, mk_apic q (ap_mach s) (ap_msr s)).
Proof. intros Hf. unfold on_irqs. by rewrite Hf. Qed.
Lemma on_tables_run {T} (f : ST (machine S) T) (s : apic S D) r m : f (ap_mach s) = Ok (r, m) -> on_tables f s = Ok (r, mk_apic (ap_irqs s) m (ap_msr s)).
Proof. intros Hf. unfold on_tables. by rewrite Hf. Qed.

Lemma ioapics_loop_ok m0 ps q0 : (forall p, p ∈ ps -> dev_page p) -> (forall a, a ∈ tables -> dev_page (ia_addr a)) ->
  forall l done (s : apic S D), (forall a, a ∈ done ++ l -> a ∈ tables) -> Masked q0 done (ap_irqs s) ->
  Direct m0 (ps ++ (ia_addr <$> done)) (ap_mach s) ->
  supplies (3 * length (ps ++ (ia_addr <$> done ++ l))) (m_src m0) = false \/ exists s', ioapics_loop hhdm kernel_vas l s = Ok (tt, s') /\ ap_msr s' = ap_msr s /\
    Masked q0 (done ++ l) (ap_irqs s') /\ Direct m0 (ps ++ (ia_addr <$> done ++ l)) (ap_mach s').
Proof.
  intros Hps Htb. induction l as [|a l IH]; intros done s Hin Hm Hd; [right; exists s; by rewrite app_nil_r|]. cbn [ioapics_loop].
  assert (Ha : a ∈ tables) by (apply Hin; set_solver).
  destruct (direct_step m0 _ (ap_mach s) (ia_addr a) Hd (Htb a Ha)) as [Hsh|(m & Hmap & Hd')].
  { intros p [Hp|(x & -> & Hx)%list_elem_of_fmap]%elem_of_app; [by apply Hps|]. apply Htb, Hin. set_solver. }
  { left. eapply supplies_short; [|exact Hsh]. rewrite !length_app, !length_fmap, !length_app. cbn. lia. }
  rewrite (st_bind_ok _ _ _ _ _ (on_tables_run _ s 0 m Hmap)).
  destruct (mask_step q0 done (ap_irqs s) a Hm Ha) as (q1 & q2 & Hr & Hl & Hm').
  rewrite (st_bind_ok _ _ _ _ _ (on_irqs_run (ioapic_read (base_of a) IOAPICVER) (mk_apic (ap_irqs s) m (ap_msr s)) _ _ Hr)). cbn [ap_mach ap_msr].
  change (Z.land (Z.shiftr (rg q0 (base_of a) IOAPICVER) 16) 0xFF) with (maxreds q0 a).
  assert (Hl' : on_irqs (mask_loop 256 (base_of a) 0 (maxreds q0 a)) (mk_apic q1 m (ap_msr s)) = Ok (tt, mk_apic q2 m (ap_msr s))).
  { unfold on_irqs. cbn [ap_irqs ap_mach ap_msr]. by rewrite Hl. }
  rewrite (st_bind_ok _ _ _ _ _ Hl').
  change (a :: l) with ([a] ++ l). rewrite (assoc_L (++) done). apply (IH (done ++ [a]) (mk_apic q2 m (ap_msr s))).
  - intros x Hx. apply Hin. set_solver.
  - exact Hm'.
  - rewrite fmap_app, (assoc_L (++)). exact Hd'.
Qed.

Lemma ready_same i f g : (forall x, f x = g x) -> lapic_ready i g -> lapic_ready i f.
Proof. intros He [H1 H2 H3 H4 H5]. split; try (by rewrite He). intros r Hr. rewrite He. by apply H4. Qed.

(** The two bits of the base register. *)
Lemma base_enabled v : let w := Z.land (Z.lor v (2 ^ 11)) (2 ^ 64 - 1 - 2 ^ 10) in Z.testbit w 11 = true /\ Z.testbit w 10 = false.
Proof.
  cbv zeta. rewrite !Z.land_spec, !Z.lor_spec. assert (Z.testbit (2 ^ 11) 11 = true) as -> by (by vm_compute).
  assert (Z.testbit (2 ^ 64 - 1 - 2 ^ 10) 11 = true /\ Z.testbit (2 ^ 64 - 1 - 2 ^ 10) 10 = false) as [-> ->] by (by vm_compute).
  by rewrite orb_true_r, andb_false_r.
Qed.

(** The start of the interrupt controllers. When the allocator can give three
    frames for each page of registers, [apic_init] returns with the local APIC enabled, in its first mode
    and set up for CPU 0 with every local source masked, and with the registers
    of each I/O APIC mapped; every redirection entry below the number that the
    version register holds is masked and names no CPU, and no other register of
    an I/O APIC changes. The registers of the controllers are mapped to their
    frames for the kernel, and all other pages are as before. *)
Theorem apic_init_spec (s : apic S D) lab held : tree (ap_mach s) lab held -> lab !! root = Some (root, []) ->
  iq_lapic (ap_irqs s) = lapic_phys -> iq_ioapics (ap_irqs s) = tables ->
  dev_page lapic_phys -> (forall a, a ∈ tables -> dev_page (ia_addr a)) ->
  supplies (3 * length (lapic_phys :: (ia_addr <$> tables))) (m_src (ap_mach s)) = false \/
  exists s', apic_init hhdm kernel_vas s = Ok (tt, s') /\
  let q := ap_irqs s in let q' := ap_irqs s' in let pages := lapic_phys :: (ia_addr <$> tables) in
  iq_lapic q' = virt lapic_phys /\ iq_handlers q' = iq_handlers q /\
  Z.testbit (ap_msr s' APIC_BASE_MSR) 11 = true /\ Z.testbit (ap_msr s' APIC_BASE_MSR) 10 = false /\
  lapic_ready 0 (lreg (iq_dev q')) /\
  (forall a k, a ∈ tables -> 0 <= k < maxreds q a -> idle q' (base_of a) k) /\
  (forall b r, b ∈ base_of <$> tables -> ~ all_entries q b r -> rg q' b r = rg q b r) /\
  (forall p w, p ∈ pages -> vpage w = vpage (virt p) -> answers kernel_vas (ap_mach s') w (p + w mod 4096) (flags_to_pte DEV_FLAGS)) /\
  (forall w p f, (forall x, x ∈ pages -> vpage w <> vpage (virt x)) -> answers kernel_vas (ap_mach s) w p f -> answers kernel_vas (ap_mach s') w p f).
Proof.
  intros Ht Hroot Hl Htb Hlp Hio. assert (Hd0 : Direct (ap_mach s) [] (ap_mach s)).
  { split; [by exists lab, held| |done|done]. intros p w Hp. by apply elem_of_nil in Hp. }
  destruct (direct_step _ [] _ lapic_phys Hd0 Hlp) as [?|(m & Hmap & Hd1)]; [intros q Hq; by apply elem_of_nil in Hq|left; eapply supplies_short; [|eassumption]; cbn; lia|].
  set (q1 := mk_irqs (iq_handlers (ap_irqs s)) (iq_ioapics (ap_irqs s)) (iq_isos (ap_irqs s)) (virt lapic_phys) (iq_dev (ap_irqs s))).
  destruct (apic_cpu_init_ok reg lreg _ _ laws 0 (mk_apic q1 m (ap_msr s))) as (d & Hc & Hready & Hregs); [lia|done|].
  cbn [ap_irqs ap_mach ap_msr] in Hc. set (q2 := set_dev d q1) in *. set (msr := fun x => _) in Hc.
  assert (Hmax : forall a, a ∈ tables -> maxreds q2 a = maxreds (ap_irqs s) a).
  { intros a Ha. unfold IrqSpec.maxreds, IrqSpec.rg. cbn [q2 set_dev iq_dev]. by rewrite Hregs by (by apply base_in). }
  destruct (ioapics_loop_ok (ap_mach s) [lapic_phys] q2) with (l := tables) (done := @nil madt_ioapic) (s := mk_apic q2 m msr)
    as [?|(s' & Hloop & Hmsr & [([d' Hq'] & Hsame & Hlr) Hidle] & Hd)]; try done.
  { intros p ->%list_elem_of_singleton. done. }
  { split; [apply touches_refl|]. intros a k Ha. by apply elem_of_nil in Ha. }
  { by left. }
  right. exists s'. split.
  { unfold apic_init. rewrite (st_bind_ok _ _ _ _ _ (on_irqs_run (gets iq_lapic) s _ _ eq_refl)). cbv zeta. rewrite Hl.
    replace (mk_apic (ap_irqs s) (ap_mach s) (ap_msr s)) with s by (by destruct s).
    rewrite (st_bind_ok _ _ _ _ _ (on_tables_run _ _ 0 m Hmap)).
    rewrite (st_bind_ok _ _ _ _ _ (on_irqs_run (set_lapic_base (virt lapic_phys)) (mk_apic (ap_irqs s) m (ap_msr s)) tt q1 eq_refl)).
    rewrite (st_bind_ok _ _ _ _ _ Hc). rewrite (st_bind_ok _ _ _ _ _ (on_irqs_run (gets iq_ioapics) (mk_apic q2 m msr) tables q2 (f_equal (fun l => Ok (l, q2)) Htb))).
    exact Hloop. }
  cbv zeta. rewrite Hmsr, Hq'. do 2 (split; [done|]). cbn [ap_msr]. unfold msr. rewrite Z.eqb_refl. split; [apply base_enabled|]. split; [apply base_enabled|].
  rewrite <- Hq'. split; [eapply ready_same; [exact Hlr|exact Hready]|].
  split; [intros a k Ha Hk; apply Hidle; [done|by rewrite Hmax]|]. split; [|split].
  - intros b r Hb Hn. rewrite Hsame; [by apply Hregs|]. intros (a & Ha & He). apply Hn. exists a. split; [done|]. by rewrite <- Hmax.
  - intros p w Hp Hw. apply (answers_iff _ root); [done|]. rewrite (di_page _ _ _ Hd p w Hp Hw). unfold dev_entry.
    assert (Hpg : dev_page p) by (apply elem_of_cons in Hp as [->|(a & -> & Ha)%list_elem_of_fmap]; [done|by apply Hio]).
    destruct (mapped_entry p DEV_FLAGS w) as [-> ->]; [destruct Hpg; lia|apply Hpg|done].
  - intros w p f Hne. rewrite !(answers_iff _ root) by done. by rewrite (di_other _ _ _ Hd w Hne).
Qed.
End devices.

(** ** One I/O APIC with 24 pins, and a machine of sixteen frames *)

Section Witness.
Record apic_dev := mk_apic_dev { ad_io : demo_dev; ad_local : gmap Z Z }.
Definition local_base : Z := demo_hhdm + 0xfee00000.
Definition is_local (a : Z) : bool := (local_base <=? a) && (a <? local_base + 0x1000).
#[local] Instance apic_mmio : Mmio apic_dev := {|
  mmio_read32 := fun a d =>
    if is_local a then (default 0 (ad_local d !! (a - local_base)), d)
    else let '(v, io) := @mmio_read32 _ demo_mmio a (ad_io d) in (v, mk_apic_dev io (ad_local d));
  mmio_write32 := fun a v d =>
    if is_local a then mk_apic_dev (ad_io d) (<[a - local_base := v]> (ad_local d))
    else mk_apic_dev (@mmio_write32 _ demo_mmio a v (ad_io d)) (ad_local d);
|}.
Definition io_reg (d : apic_dev) : Z -> Z -> Z := demo_reg (ad_io d).
Definition local_reg (d : apic_dev) (r : Z) : Z := default 0 (ad_local d !! r).
Definition demo_bases_list : list Z := (fun a => PHYS_TO_VIRT demo_hhdm (ia_addr a)) <$> demo_tables.

Lemma local_at r : r ∈ lapic_regs -> is_local (local_base + r) = true /\ local_base + r - local_base = r.
Proof.
  intros Hr. split; [|lia]. assert (Hb : 0 <= r < 0x1000).
  { assert (Forall (fun x => 0 <= x < 0x1000) lapic_regs) as Hf by (apply (bool_decide_unpack _); by vm_compute).
    by eapply Forall_forall in Hf. }
  unfold is_local. apply andb_true_iff. split; [apply Z.leb_le|apply Z.ltb_lt]; lia.
Qed.

Lemma io_at b : b ∈ demo_bases_list -> is_local (b + IOREGSEL) = false /\ is_local (b + IOWIN) = false.
Proof. intros ->%demo_bases. by vm_compute. Qed.

Lemma apic_dev_laws : apic_laws io_reg local_reg demo_bases_list local_base.
Proof.
  split.
  - pose proof demo_laws as Hd. split.
    + intros b r d Hb. destruct (io_at b Hb) as [E1 E2]. destruct (il_read Hd b r (ad_io d) Hb) as (d' & Hr & Hs).
      exists (mk_apic_dev d' (ad_local d)). unfold mmio_read32, mmio_write32, apic_mmio. rewrite E1, E2. cbn [ad_io ad_local].
      by rewrite Hr.
    + intros b r v d n Hb Hr Hn H1 H2. destruct (io_at b Hb) as [E1 E2]. unfold mmio_write32, apic_mmio. rewrite E1, E2.
      by apply (il_write Hd).
    + intros b r v d b' r' Hb Hr Hn. destruct (io_at b Hb) as [E1 E2]. unfold mmio_write32, apic_mmio. rewrite E1, E2.
      by apply (il_other Hd).
    + intros d b r. apply (il_range Hd).
    + intros d b. apply (il_entries Hd (ad_io d)).
  - intros r v d Hr. destruct (local_at r Hr) as [E1 E2]. unfold mmio_write32, apic_mmio, local_reg. rewrite E1, E2. cbn [ad_local].
    by rewrite lookup_insert_eq.
  - intros r v d x Hr _ Hx Hn. destruct (local_at r Hr) as [E1 E2]. unfold mmio_write32, apic_mmio, local_reg. rewrite E1, E2. cbn [ad_local].
    by rewrite lookup_insert_ne.
  - intros r d x Hr. destruct (local_at r Hr) as [E1 E2]. unfold mmio_read32, apic_mmio. by rewrite E1.
  - intros r v d b x Hr Hb. destruct (local_at r Hr) as [E1 E2]. unfold mmio_read32, mmio_write32, apic_mmio. by rewrite E1.
  - intros b r v d x Hb. destruct (io_at b Hb) as [E1 E2]. unfold mmio_read32, mmio_write32, apic_mmio. rewrite E1, E2. cbn [ad_io ad_local].
    by destruct (@mmio_read32 _ demo_mmio _ _).
Qed.

Definition bare_machine : machine pmm := mk_mach ∅ 0 0 small_pmm.
Definition apic_space : machine pmm := match ptable_create None bare_machine with Ok (_, s) => s | _ => bare_machine end.
Definition apic_root : Z := match ptable_create None bare_machine with Ok (Some r, _) => r | _ => 0 end.

Lemma apic_space_tree : exists lab held, tree apic_space lab held /\ lab !! apic_root = Some (apic_root, []).
Proof.
  destruct small_ok as [blk Hok]. assert (Ht : tree bare_machine ∅ (fun _ => False)).
  { apply tree_empty. split; [by vm_compute|]. by exists blk. }
  destruct (ptable_create_ok bare_machine ∅ _ None Ht ltac:(done)) as (r & s' & lab' & held' & Hr & Ht' & _ & _ & Hres).
  unfold apic_space, apic_root. rewrite Hr. destruct r as [r|]; [exists lab', held'; split; [exact Ht'|apply Hres]|].
  exfalso. apply (f_equal (fun o => match o with Ok (Some _, _) => true | _ => false end)) in Hr. vm_compute in Hr. discriminate Hr.
Qed.

(** Pin 0 was not masked; nor was pin 23, the last. *)
Definition raw_apic : apic pmm apic_dev :=
  mk_apic (mk_irqs (fun v => mk_handler None None v 0) demo_tables [] 0xfee00000
    (mk_apic_dev (mk_dev 0 {[IOAPICREDTBLL 0 := 0x21; IOAPICREDTBLL 23 := 0x38]}) ∅)) apic_space (fun _ => 0xfee00900).

Lemma apic_init_spec_witness : exists s', apic_init demo_hhdm (Some (mk_vas (Some apic_root) [] 4096)) raw_apic = Ok (tt, s') /\
  Z.testbit (io_reg (iq_dev (ap_irqs s')) demo_base (IOAPICREDTBLL 0)) 16 = true /\
  io_reg (iq_dev (ap_irqs s')) demo_base (IOAPICREDTBLL 23) = 0x38 /\
  Z.testbit (local_reg (iq_dev (ap_irqs s')) APIC_LVT_LINT1) 16 = true /\
  paging_virt_to_phys (Some (mk_vas (Some apic_root) [] 4096)) (local_base + 0x20) (ap_mach s') = Ok (0xfee00020, ap_mach s').
Proof.
  destruct apic_space_tree as (lab & held & Ht & Hroot).
  assert (Hh : 2 ^ 64 - 2 ^ 47 <= demo_hhdm /\ demo_hhdm + 2 ^ 46 <= 2 ^ 64 /\ (4096 | demo_hhdm)).
  { unfold demo_hhdm. split; [lia|]. split; [lia|]. by exists (0xffff800000000000 / 4096). }
  assert (Hl : dev_page 0xfee00000) by (split; [lia|by exists 0xfee00]).
  assert (Hi : forall a, a ∈ demo_tables -> dev_page (ia_addr a)).
  { intros a ->%list_elem_of_singleton. split; [cbn; lia|]. by exists 0xfec00. }
  destruct (apic_init_spec demo_hhdm (Some (mk_vas (Some apic_root) [] 4096)) apic_root eq_refl io_reg local_reg demo_tables 0xfee00000
    apic_dev_laws Hh raw_apic lab held Ht Hroot eq_refl eq_refl Hl Hi)
    as [Hs|(s' & Hr & _ & _ & _ & _ & Hready & Hidle & Hsame & Hpg & _)].
  - exfalso. vm_compute in Hs. discriminate Hs.
  - exists s'. split; [exact Hr|]. assert (Ha : mk_ioapic 0xfec00000 0 ∈ demo_tables) by left. split; [|split; [|split]].
    + apply (Hidle (mk_ioapic 0xfec00000 0) 0 Ha ltac:(split; [lia|by vm_compute])); lia.
    + apply (Hsame demo_base (IOAPICREDTBLL 23)); [by left|]. intros (a & ->%list_elem_of_singleton & _ & Hx). vm_compute in Hx.
      destruct Hx as [_ Hx]. discriminate Hx.
    + apply (lr_masked _ _ Hready). apply (bool_decide_unpack _). by vm_compute.
    + apply (Hpg 0xfee00000 (local_base + 0x20)); [left|by vm_compute].
Defined.
End Witness.
