(* ===== verification/SdiHost.v ===== *)
(** The host of the driver interface, [kernel/src/sdi/host.c]: what the kernel
    supplies to [sdi_init]. It allocates for drivers from the heap of
    mm/kheap.c, binds interrupt lines to their handlers and reads and writes
    I/O ports. The interface [SdiHost] of the core is implemented here.

    The ports, the clock and the log of the machine are the parameter
    [Machine]. The capability texts and the log output of the host itself are
    left out. *)
From S2P Require Import Prelude StringLib WordMem Pfndb Pmm Kheap Sdi SdiCalls Irq.

Definition SDI_ALLOC_ZERO : Z := Z.shiftl 1 0.
Definition SDI_ALLOC_ATOMIC : Z := Z.shiftl 1 1.
Definition SDI_ALLOC_PAGE_ALIGNED : Z := Z.shiftl 1 2.
Definition SDI_ALLOC_SUPPORTED_FLAGS : Z := Z.lor (Z.lor SDI_ALLOC_ZERO SDI_ALLOC_ATOMIC) SDI_ALLOC_PAGE_ALIGNED.
Definition SDI_ALLOC_MAGIC : Z := 0x534449414c4c4f43.
Definition sizeof_alloc_header : Z := 32.
Definition SDI_IRQ_COUNT : Z := 16.
Definition SDI_MATCH_SOFT : Z := 7.

Record binding := mk_binding { b_used : bool; b_irq : Z; b_handler : Z; b_instance : Z }.
Definition no_binding : binding := mk_binding false 0 0 0.

(** The names that log lines start with. *)
Inductive level_name := l_trace | l_debug | l_info | l_warn | l_error | l_fatal | l_unknown.
Definition level_name_of (level : Z) : level_name :=
  match level with 0 => l_trace | 1 => l_debug | 2 => l_info | 3 => l_warn | 4 => l_error | 5 => l_fatal | _ => l_unknown end.

(** The ports, the clock and the log: a line of a level, a component and a
    message. *)
Class Machine (P : Type) := {
  port_in : Z -> Z -> P -> Z * P;        (* width in bits, port *)
  port_out : Z -> Z -> Z -> P -> P;      (* width in bits, port, value *)
  time_uptime_us : P -> Z * P;
  log_line : level_name -> cstr -> cstr -> P -> P;
}.

Record host (D P : Type) := mk_host {
  h_heap : kheap;
  h_bindings : list binding;     (* sdi_irq_bindings *)
  h_irqs : irqs D;
  h_machine : P;
  h_cpu : option Z;              (* the local APIC of the current CPU, if any *)
}.
Arguments mk_host {D P}.
Arguments h_heap {D P}.
Arguments h_bindings {D P}.
Arguments h_irqs {D P}.
Arguments h_machine {D P}.
Arguments h_cpu {D P}.

(** The capabilities that [sdi_kernel_init] announces. *)
Definition kernel_caps : Z := Z.lor (Z.lor SDI_CAP_REQUIRED_CORE SDI_CAP_IRQ) SDI_CAP_PIO.

Section host.
Context {D P : Type} `{!Mmio D, !Machine P}.
Context (hhdm_offset caches_at : Z).
(** The function [sdi_irq_dispatch], as a handler. *)
Context (irq_dispatch_fn : Z).
(** What the local structures hold before they are filled in. *)
Context (stack : Z).
Abbreviation H := (host D P).

Definition set_heap (k : kheap) (h : H) : H := mk_host k (h_bindings h) (h_irqs h) (h_machine h) (h_cpu h).
Definition set_bindings (b : list binding) (h : H) : H := mk_host (h_heap h) b (h_irqs h) (h_machine h) (h_cpu h).
Definition set_irqs (i : irqs D) (h : H) : H := mk_host (h_heap h) (h_bindings h) i (h_machine h) (h_cpu h).
Definition set_machine (m : P) (h : H) : H := mk_host (h_heap h) (h_bindings h) (h_irqs h) m (h_cpu h).

Definition on_heap {A} (f : ST kheap A) : ST H A := fun h =>
  match f (h_heap h) with
  | Ok (a, k) => Ok (a, set_heap k h)
  | Panic => Panic | Fault => Fault | Timeout => Timeout
  end.
Definition on_irqs {A} (f : ST (irqs D) A) : ST H A := fun h =>
  match f (h_irqs h) with
  | Ok (a, i) => Ok (a, set_irqs i h)
  | Panic => Panic | Fault => Fault | Timeout => Timeout
  end.
Definition on_machine {A} (f : P -> A * P) : ST H A := fun h =>
  let '(a, m) := f (h_machine h) in Ok (a, set_machine m h).
Definition get_binding (i : Z) : ST H binding := fun h =>
  match h_bindings h !! Z.to_nat i with Some b => Ok (b, h) | None => Fault end.
Definition put_binding (i : Z) (b : binding) : ST H unit := fun h =>
  match h_bindings h !! Z.to_nat i with
  | Some _ => Ok (tt, set_bindings (<[Z.to_nat i := b]> (h_bindings h)) h)
  | None => Fault
  end.

(** *** Memory *)

Definition sdi_align_up (value align : Z) : Z := Z.land (u64 (value + align - 1)) (not64 (align - 1)).

Definition alloc_align (flags : Z) : Z := if has_bits flags SDI_ALLOC_PAGE_ALIGNED then PAGE_SIZE else 16.

Definition write_alloc_header (a raw size flags : Z) : ST kheap unit :=
  on_mem (store_word a SDI_ALLOC_MAGIC) ;;
  on_mem (store_word (a + 8) raw) ;;
  on_mem (store_word (a + 16) size) ;;
  on_mem (store_le 4 (a + 24) flags).

Definition sdi_kernel_alloc (size flags : Z) : ST kheap ptr :=
  let align := alloc_align flags in
  if (size =? 0) || negb (Z.land flags (2 ^ 32 - 1 - SDI_ALLOC_SUPPORTED_FLAGS) =? 0) then mret None else
  let total := u64 (size + sizeof_alloc_header + align - 1) in
  if total <? size then mret None else
  raw ← kmalloc hhdm_offset caches_at total;
  match raw with
  | None => mret None
  | Some raw =>
      let user_ptr := sdi_align_up (u64 (raw + sizeof_alloc_header)) align in
      write_alloc_header (user_ptr - sizeof_alloc_header) raw size flags ;;
      (if has_bits flags SDI_ALLOC_ZERO then on_mem (memset user_ptr 0 size) else mret tt) ;;
      mret (Some user_ptr)
  end.

Definition sdi_kernel_free (p : ptr) : ST kheap unit :=
  match p with
  | None => mret tt
  | Some p =>
      let header := u64 (p - sizeof_alloc_header) in
      magic ← read_word header;
      if magic =? SDI_ALLOC_MAGIC then
        on_mem (store_word header 0) ;;
        raw ← read_word (header + 8);
        kfree hhdm_offset (if raw =? 0 then None else Some raw)
      else kfree hhdm_offset (Some p)
  end.

(** "driver", in place of a component that is null or empty. *)
Definition driver_component : cstr := [100; 114; 105; 118; 101; 114; 0].
Definition sdi_kernel_log (level : Z) (component : option cstr) (message : cstr) (h : H) : H :=
  let component := match component with Some (c :: l) => if c =? 0 then driver_component else c :: l | _ => driver_component end in
  set_machine (log_line (level_name_of level) component message (h_machine h)) h.

Definition sdi_kernel_now_ns : ST H Z := t ← on_machine time_uptime_us; mret (u64 (t * 1000)).

(** *** Calls *)

Definition sdi_check_payload (payload : option (list Z)) (size required : Z) : outcome Z :=
  match payload with
  | None => Ok SDI_ERR_SHORT
  | Some b =>
      if size <? required then Ok SDI_ERR_SHORT else
      n ← field 0 4 b;
      if n <? required then Ok SDI_ERR_SHORT else
      v ← field 4 4 b;
      Ok (if negb (Z.shiftr v 24 =? SDI_VERSION_MAJOR) then SDI_ERR_UNSUPPORTED else SDI_OK)
  end.

(** A failed call leaves the output as it was. *)
Abbreviation fails := (fun st out n => mret (M := ST H) (mk_reply st out n)).

(** [!resp || !inout_out_size || *inout_out_size < sizeof( *resp )]. *)
Definition short_output (out : option (list Z)) (out_size : option Z) (needed : Z) : bool :=
  match out, out_size with Some _, Some n => n <? needed | _, _ => true end.

(** A structure written to the start of the output. *)
Definition put_out (b : list Z) (out : option (list Z)) : outcome (option (list Z)) :=
  match out with
  | Some o => if (length b <=? length o)%nat then Ok (Some (b ++ drop (length b) o)) else Fault
  | None => Fault
  end.

Definition sdi_host_irq_bind (in_data : option (list Z)) (in_size : Z) (out : option (list Z)) (out_size : option Z) :
    ST H reply :=
  st ← st_lift (sdi_check_payload in_data in_size sizeof_irq_bind_req);
  if negb (st =? SDI_OK) then fails SDI_ERR_INVAL out out_size else
  if short_output out out_size sizeof_irq_bind_resp then fails SDI_ERR_SHORT out out_size else
  b ← st_lift (deref in_data);
  handler ← st_lift (field 16 8 b);
  if handler =? 0 then fails SDI_ERR_INVAL out out_size else
  resource_index ← st_lift (field 8 4 b);
  if SDI_IRQ_COUNT <=? resource_index then fails SDI_ERR_RANGE out out_size else
  let irq := u8 resource_index in
  old ← get_binding irq;
  if b_used old then fails SDI_ERR_BUSY out out_size else
  instance ← st_lift (field 24 8 b);
  put_binding irq (mk_binding true irq handler instance) ;;
  cpu ← gets h_cpu;
  on_irqs (irq_install hhdm_offset irq (Some irq_dispatch_fn) None (match cpu with Some l => u8 l | None => 0 end)) ;;
  on_irqs (ioapic_set_irq_mask hhdm_offset irq false) ;;
  out ← st_lift (put_out (irq_bind_resp (irq + 1)) out);
  mret (mk_reply SDI_OK out (Some sizeof_irq_bind_resp)).

(** The status, with the line in [*out_irq]. *)
Definition sdi_irq_from_handle (target : Z) : ST H (Z * Z) :=
  if (target =? SDI_NULL_HANDLE) || (SDI_IRQ_COUNT <? target) then mret (SDI_ERR_NOT_FOUND, 0) else
  b ← get_binding (target - 1);
  if negb (b_used b) then mret (SDI_ERR_NOT_FOUND, 0) else mret (SDI_OK, u8 (target - 1)).

Definition sdi_host_irq_unbind (target : Z) : ST H Z :=
  r ← sdi_irq_from_handle target;
  if negb (r.1 =? SDI_OK) then mret r.1 else
  on_irqs (ioapic_set_irq_mask hhdm_offset r.2 true) ;;
  on_irqs (irq_uninstall r.2) ;;
  put_binding r.2 no_binding ;;
  mret SDI_OK.

Definition sdi_host_irq_mask (target : Z) (masked : bool) : ST H Z :=
  r ← sdi_irq_from_handle target;
  if negb (r.1 =? SDI_OK) then mret r.1 else
  rc ← on_irqs (ioapic_set_irq_mask hhdm_offset r.2 masked);
  mret (if rc =? 0 then SDI_OK else SDI_ERR_NOT_FOUND).

(** [*resp = *req] and the value: the structure with its last field replaced. *)
Definition pio_resp (req : list Z) (value : Z) : list Z := take 12 req ++ le_bytes 4 value.

Definition sdi_host_pio_read (in_data : option (list Z)) (in_size : Z) (out : option (list Z)) (out_size : option Z) :
    ST H reply :=
  st ← st_lift (sdi_check_payload in_data in_size sizeof_pio_io);
  if negb (st =? SDI_OK) then fails SDI_ERR_INVAL out out_size else
  if short_output out out_size sizeof_pio_io then fails SDI_ERR_SHORT out out_size else
  b ← st_lift (deref in_data);
  old ← st_lift (field 12 4 b);
  width ← st_lift (field 10 1 b);
  port ← st_lift (field 8 2 b);
  if (width =? 8) || (width =? 16) || (width =? 32) then
    value ← on_machine (port_in width port);
    out ← st_lift (put_out (pio_resp b value) out);
    mret (mk_reply SDI_OK out (Some sizeof_pio_io))
  else
    out ← st_lift (put_out (pio_resp b old) out);
    mret (mk_reply SDI_ERR_INVAL out out_size).

Definition sdi_host_pio_write (in_data : option (list Z)) (in_size : Z) : ST H Z :=
  st ← st_lift (sdi_check_payload in_data in_size sizeof_pio_io);
  if negb (st =? SDI_OK) then mret SDI_ERR_INVAL else
  b ← st_lift (deref in_data);
  width ← st_lift (field 10 1 b);
  port ← st_lift (field 8 2 b);
  value ← st_lift (field 12 4 b);
  if (width =? 8) || (width =? 16) || (width =? 32) then
    on_machine (fun m => (tt, port_out width port (value mod 2 ^ width) m)) ;;
    mret SDI_OK
  else mret SDI_ERR_INVAL.

Definition sdi_kernel_call (target opcode : Z) (in_data : option (list Z)) (in_size : Z)
    (out : option (list Z)) (out_size : option Z) : ST H reply :=
  let plain (m : ST H Z) : ST H reply := st ← m; mret (mk_reply st out out_size) in
  if opcode =? SDI_OP_NOP then mret (mk_reply SDI_OK out (match out_size with Some _ => Some 0 | None => None end)) else
  if opcode =? SDI_OP_PIO_READ then sdi_host_pio_read in_data in_size out out_size else
  if opcode =? SDI_OP_PIO_WRITE then plain (sdi_host_pio_write in_data in_size) else
  if opcode =? SDI_OP_IRQ_BIND then sdi_host_irq_bind in_data in_size out out_size else
  if opcode =? SDI_OP_IRQ_UNBIND then plain (sdi_host_irq_unbind target) else
  if opcode =? SDI_OP_IRQ_ACK then
    plain (r ← sdi_irq_from_handle target;
           if negb (r.1 =? SDI_OK) then mret r.1 else on_irqs apic_send_eoi ;; mret SDI_OK) else
  if opcode =? SDI_OP_IRQ_MASK then plain (sdi_host_irq_mask target true) else
  if opcode =? SDI_OP_IRQ_UNMASK then plain (sdi_host_irq_mask target false) else
  mret (mk_reply SDI_ERR_UNSUPPORTED out out_size).

#[export] Instance kernel_host : SdiHost H := {|
  host_log := sdi_kernel_log;
  host_alloc := fun size flags => on_heap (sdi_kernel_alloc size flags);
  host_free := fun p h => '(_, h) ← on_heap (sdi_kernel_free (Some p)) h; Ok h;
  host_now_ns := fun h => let '(t, m) := time_uptime_us (h_machine h) in (u64 (t * 1000), set_machine m h);
  host_call := sdi_kernel_call;
|}.

(** *** Interrupts *)

(** An action of the host on the state of the interface. *)
Definition on_env {A} (f : ST H A) : ST (sdi H) A := fun s =>
  match f (s_env s) with
  | Ok (a, h) => Ok (a, set_env h s)
  | Panic => Panic | Fault => Fault | Timeout => Timeout
  end.

(** [run_handler f instance irq] is what the driver's handler at [f] does. *)
Definition sdi_irq_dispatch (run_handler : Z -> Z -> Z -> ST (sdi H) Z) (vector : option Z) (frame : Z) : ST (sdi H) Z :=
  let vector := match vector with Some v => u8 v | None => 0 end in
  let irq := if IRQ_BASE <=? vector then u8 (vector - IRQ_BASE) else 0xff in
  (if irq <? SDI_IRQ_COUNT then
     b ← gets (fun s => h_bindings (s_env s) !! Z.to_nat irq);
     match b with
     | None => st_fault
     | Some b =>
         if b_used b && negb (b_handler b =? 0) then run_handler (b_handler b) (b_instance b) (irq + 1) ;; mret tt
         else mret tt
     end
   else mret tt) ;;
  on_env (on_irqs apic_send_eoi) ;;
  mret frame.

(** *** Drivers *)

(** [fns] are the addresses of the five functions. *)
Definition kernel_table (log alloc free now_ns call : Z) : host_ops :=
  mk_host_ops sizeof_host_ops SDI_ABI_VERSION (Some [97; 108; 105; 120; 0]) kernel_caps SDI_MAX_REGISTERED_DRIVERS
    (Some log) (Some alloc) (Some free) (Some now_ns) (Some call).

Definition sdi_kernel_init (log alloc free now_ns call : Z) : ST (sdi H) Z :=
  st ← sdi_init (Some (kernel_table log alloc free now_ns call)) None;
  mret (if negb (st =? SDI_OK) then -1 else 0).

Context (drivers : Z -> option (driver_desc H)).

Fixpoint soft_loop (l : list match_id) (n : nat) : outcome (option match_id) :=
  match n with
  | O => Ok None
  | S n => match l with [] => Fault | m :: l => if mi_kind m =? SDI_MATCH_SOFT then Ok (Some m) else soft_loop l n end
  end.
Definition sdi_find_soft_match (dd : driver_desc H) : outcome (option match_id) :=
  match dd_matches dd with None => Ok None | Some l => soft_loop l (Z.to_nat (dd_match_count dd)) end.

(** The match that is probed when the driver has none of its own. *)
Definition no_match : match_id := mk_match 0 0 0 0.
Definition set_kind (k : Z) (m : match_id) : match_id := mk_match k (mi_flags m) (mi_vendor m) (mi_device m).

Definition sdi_kernel_register_loaded_driver (driver : ptr) : ST (sdi H) Z :=
  match driver with
  | None => mret (-1)
  | Some d =>
      dd ← get_driver drivers d;
      r ← sdi_register_driver drivers (Some d) true;
      match r with
      | (st, out) =>
          if negb (st =? SDI_OK) then mret (-1) else
          let handle := default SDI_NULL_HANDLE out in
          m ← st_lift (sdi_find_soft_match dd);
          let probe := mk_probe (set_kind (match m with Some m => mi_kind m | None => SDI_MATCH_SOFT end) (default no_match m)) 0 0 in
          p ← sdi_probe_driver drivers handle (Some probe) (Some (mk_result sizeof_probe_result SDI_ABI_VERSION 0 0));
          if p.1 =? SDI_ERR_UNSUPPORTED then mret 0 else
          if negb (p.1 =? SDI_OK) then mret (-1) else
          if match p.2 with Some r => pr_score r =? 0 | None => true end then mret 0 else
          a ← sdi_attach_driver drivers handle (Some (mk_attach m)) (Some SDI_NULL_HANDLE);
          if a.1 =? SDI_ERR_UNSUPPORTED then mret 0 else
          if negb (a.1 =? SDI_OK) then mret (-1) else
          st ← sdi_start_driver drivers handle (default SDI_NULL_HANDLE a.2);
          if st =? SDI_ERR_UNSUPPORTED then mret 0 else
          if negb (st =? SDI_OK) then mret (-1) else mret 0
      end
  end.
End host.
