(* ===== verification/SdiHostSpec.v ===== *)
(** What the host of the driver interface promises, [kernel/src/sdi/host.c]:
    memory for drivers, port accesses through the packed structures of
    [sdi_call], and the binding of interrupt lines. *)
From S2P Require Import Prelude StringLib WordMem Pfndb Pmm Kheap KheapInv KheapCreate KheapLarge KheapSpec KheapEnv Sdi SdiCalls Irq IrqSpec SdiHost.

(** ** Structures *)

Definition width_of (fs : list (nat * Z)) : nat := sum_list (fst <$> fs).

Lemma pack_length fs : length (pack fs) = width_of fs.
Proof.
  unfold pack, width_of. induction fs as [|[k v] fs IH]; [done|]. cbn. rewrite length_app, le_bytes_length.
  cbn in IH. by rewrite IH.
Qed.

Lemma field_pack fs1 k v fs2 off : off = width_of fs1 -> 0 <= v < 256 ^ Z.of_nat k ->
  field off k (pack (fs1 ++ (k, v) :: fs2)) = Ok v.
Proof.
  intros -> Hv. assert (pack (fs1 ++ (k, v) :: fs2) = pack fs1 ++ le_bytes k v ++ pack fs2) as ->.
  { unfold pack. by rewrite fmap_app, concat_app, fmap_cons. }
  rewrite <- pack_length. unfold field.
  rewrite !length_app, le_bytes_length. rewrite (proj2 (Nat.leb_le _ _)) by lia.
  rewrite drop_app_length. rewrite <- (le_bytes_length k v) at 1. rewrite take_app_length. by rewrite le_word_bytes.
Qed.

(** The check of the header that every structure starts with. *)
Lemma check_payload_ok fs n : 0 <= n < 2 ^ 32 -> sdi_check_payload (Some (pack (SDI_INIT_PTR n ++ fs))) n n = Ok SDI_OK.
Proof.
  intros Hn. unfold sdi_check_payload. rewrite Z.ltb_irrefl.
  assert (field 0 4 (pack (SDI_INIT_PTR n ++ fs)) = Ok n) as E1 by (by apply (field_pack [])).
  assert (field 4 4 (pack (SDI_INIT_PTR n ++ fs)) = Ok SDI_ABI_VERSION) as E2 by (by apply (field_pack [(4%nat, n)])).
  rewrite (obind_ok _ _ _ E1), Z.ltb_irrefl, (obind_ok _ _ _ E2). by vm_compute.
Qed.

Lemma pack_app fs gs : pack (fs ++ gs) = pack fs ++ pack gs.
Proof. unfold pack. by rewrite fmap_app, concat_app. Qed.

Section spec.
Context {D P : Type} `{!Mmio D, !Machine P}.
Context (hhdm_offset caches_at irq_dispatch_fn stack : Z).
Abbreviation H := (host D P).
Definition khost : SdiHost H := kernel_host hhdm_offset caches_at irq_dispatch_fn.
#[local] Existing Instance khost.

Lemma call_ok target opcode i n o on (s : sdi H) r h : s_init s = true ->
  sdi_kernel_call hhdm_offset irq_dispatch_fn target opcode i n o on (s_env s) = Ok (r, h) ->
  sdi_call target opcode i n o on s = Ok (r, set_env h s).
Proof. intros Hi Hc. unfold sdi_call, sdi_require_init_. rewrite Hi. cbn. by rewrite Hc. Qed.

(** ** Ports *)

Definition pio_width (w : Z) : Prop := w = 8 \/ w = 16 \/ w = 32.

Lemma pio_width_test w : pio_width w -> (w =? 8) || (w =? 16) || (w =? 32) = true.
Proof. by intros [->|[->| ->]]. Qed.

(** The fields of the structure of a port access. *)
Lemma pio_fields port width r v : 0 <= port < 2 ^ 16 -> 0 <= width < 2 ^ 8 ->
  field 8 2 (pio_io port width r v) = Ok port /\ field 10 1 (pio_io port width r v) = Ok width /\
  field 12 4 (pio_io port width r v) = Ok (u32 v) /\ length (pio_io port width r v) = 16%nat.
Proof.
  intros Hp Hw. unfold pio_io. split; [|split; [|split]].
  - by apply (field_pack [(4%nat, sizeof_pio_io); (4%nat, SDI_ABI_VERSION)]).
  - by apply (field_pack [(4%nat, sizeof_pio_io); (4%nat, SDI_ABI_VERSION); (2%nat, port)]).
  - assert (le_bytes 4 v = le_bytes 4 (u32 v)) as E.
    { unfold u32. change (2 ^ 32) with (256 ^ Z.of_nat 4). generalize 4%nat. intros k. revert v.
      induction k as [|k IH]; intros v; [done|]. rewrite Nat2Z.inj_succ, Z.pow_succ_r by lia. cbn [le_bytes].
      pose proof (Z.pow_pos_nonneg 256 (Z.of_nat k) ltac:(lia) ltac:(lia)).
      rewrite Z.rem_mul_r by lia. f_equal; [|rewrite IH; f_equal].
      - rewrite (Z.mul_comm 256), Z.mod_add, Z.mod_mod by lia. done.
      - rewrite (Z.mul_comm 256), Z.div_add by lia. rewrite (Z.div_small (v mod 256)) by (apply Z.mod_pos_bound; lia). done. }
    assert (pack (SDI_INIT_PTR sizeof_pio_io ++ [(2%nat, port); (1%nat, width); (1%nat, r); (4%nat, v)]) =
      pack (SDI_INIT_PTR sizeof_pio_io ++ [(2%nat, port); (1%nat, width); (1%nat, r); (4%nat, u32 v)])) as ->.
    { rewrite !pack_app. f_equal. unfold pack. cbn [fmap list_fmap fst snd]. by rewrite E. }
    apply (field_pack [(4%nat, sizeof_pio_io); (4%nat, SDI_ABI_VERSION); (2%nat, port); (1%nat, width); (1%nat, r)]); [done|].
    unfold u32. apply Z.mod_pos_bound. lia.
  - apply pack_length.
Qed.

Lemma pio_resp_value b v : length b = 16%nat -> 0 <= v < 2 ^ 32 -> field 12 4 (pio_resp b v) = Ok v.
Proof.
  intros Hb Hv. unfold pio_resp, field. rewrite length_app, length_take, le_bytes_length, Hb. cbn [Nat.leb Nat.add Nat.min].
  rewrite drop_app_length' by (rewrite length_take, Hb; done). rewrite <- (le_bytes_length 4 v) at 1.
  rewrite firstn_all. by rewrite le_word_bytes.
Qed.

Lemma pio_resp_length b v : length b = 16%nat -> length (pio_resp b v) = 16%nat.
Proof. intros Hb. unfold pio_resp. by rewrite length_app, length_take, le_bytes_length, Hb. Qed.

Lemma put_pio b v : length b = 16%nat -> put_out (pio_resp b v) (Some b) = Ok (Some (pio_resp b v)).
Proof.
  intros Hb. unfold put_out. rewrite (pio_resp_length _ _ Hb), Hb. cbn [Nat.leb]. rewrite drop_ge by lia. by rewrite app_nil_r.
Qed.

(** The structure of an access, as the host finds it. *)
Section access.
Context (port width v : Z) (Hp : 0 <= port < 2 ^ 16) (Hw : 0 <= width < 2 ^ 8).
Abbreviation io := (pio_io port width stack v).

Lemma pio_checked : sdi_check_payload (Some io) sizeof_pio_io sizeof_pio_io = Ok SDI_OK.
Proof. by apply check_payload_ok. Qed.

Lemma pio_write_ok (h : H) target : sdi_kernel_call hhdm_offset irq_dispatch_fn target SDI_OP_PIO_WRITE (Some io) sizeof_pio_io None None h =
  if (width =? 8) || (width =? 16) || (width =? 32)
  then Ok (mk_reply SDI_OK None None, set_machine (port_out width port (u32 v mod 2 ^ width) (h_machine h)) h)
  else Ok (mk_reply SDI_ERR_INVAL None None, h).
Proof.
  destruct (pio_fields port width stack v Hp Hw) as (F1 & F2 & F3 & _).
  change (sdi_kernel_call hhdm_offset irq_dispatch_fn target SDI_OP_PIO_WRITE (Some io) sizeof_pio_io None None h) with
    ((st ← sdi_host_pio_write (Some io) sizeof_pio_io; mret (mk_reply st None None)) h). unfold sdi_host_pio_write.
  rewrite !bind_assoc, (lift_bind _ _ _ _ pio_checked). cbn [negb Z.eqb SDI_OK].
  rewrite !bind_assoc, (lift_bind (deref (Some _)) _ _ _ eq_refl), !bind_assoc, (lift_bind _ _ _ _ F2).
  rewrite !bind_assoc, (lift_bind _ _ _ _ F1), !bind_assoc, (lift_bind _ _ _ _ F3).
  by destruct ((width =? 8) || (width =? 16) || (width =? 32)).
Qed.

Lemma pio_read_ok (h : H) target :
  sdi_kernel_call hhdm_offset irq_dispatch_fn target SDI_OP_PIO_READ (Some io) sizeof_pio_io (Some io) (Some sizeof_pio_io) h =
  if (width =? 8) || (width =? 16) || (width =? 32)
  then let '(x, m) := port_in width port (h_machine h) in
       Ok (mk_reply SDI_OK (Some (pio_resp io x)) (Some sizeof_pio_io), set_machine m h)
  else Ok (mk_reply SDI_ERR_INVAL (Some (pio_resp io (u32 v))) (Some sizeof_pio_io), h).
Proof.
  destruct (pio_fields port width stack v Hp Hw) as (F1 & F2 & F3 & F4).
  change (sdi_kernel_call hhdm_offset irq_dispatch_fn target SDI_OP_PIO_READ (Some io) sizeof_pio_io (Some io) (Some sizeof_pio_io) h)
    with (sdi_host_pio_read (Some io) sizeof_pio_io (Some io) (Some sizeof_pio_io) h). unfold sdi_host_pio_read.
  rewrite (lift_bind _ _ _ _ pio_checked). cbn [negb Z.eqb SDI_OK short_output]. rewrite Z.ltb_irrefl.
  rewrite (lift_bind (deref (Some _)) _ _ _ eq_refl), (lift_bind _ _ _ _ F3), (lift_bind _ _ _ _ F2), (lift_bind _ _ _ _ F1).
  destruct ((width =? 8) || (width =? 16) || (width =? 32)).
  - destruct (port_in width port (h_machine h)) as [x m] eqn:Ein. eapply st_bind_eq; [unfold on_machine; by rewrite Ein|].
    by rewrite (lift_bind _ _ _ _ (put_pio _ _ F4)).
  - by rewrite (lift_bind _ _ _ _ (put_pio _ _ F4)).
Qed.
End access.

(** A driver's port access. On an initialised interface [sdi_pio_read]
    packs the port and the width, the host unpacks them and reads the port
    once with that width, and the value read comes back to the driver;
    [sdi_pio_write] writes the low bits of the value to the port once. Any
    other width is [SDI_ERR_INVAL] and touches no port. *)
Theorem sdi_pio_spec (s : sdi H) port width value : s_init s = true -> 0 <= port < 2 ^ 16 -> 0 <= width < 2 ^ 8 ->
  0 <= value < 2 ^ 32 -> (forall w p m, pio_width w -> 0 <= (port_in w p m).1 < 2 ^ w) ->
  let m := h_machine (s_env s) in
  let with_machine m' := set_env (set_machine m' (s_env s)) s in
  (pio_width width -> sdi_pio_read stack port width true s =
    Ok ((SDI_OK, Some (port_in width port m).1), with_machine (port_in width port m).2)) /\
  (pio_width width -> sdi_pio_write stack port width value s =
    Ok (SDI_OK, with_machine (port_out width port (value mod 2 ^ width) m))) /\
  (~ pio_width width -> sdi_pio_read stack port width true s = Ok ((SDI_ERR_INVAL, None), s) /\
    sdi_pio_write stack port width value s = Ok (SDI_ERR_INVAL, s)).
Proof.
  intros Hi Hp Hw Hv Hin m with_machine.
  pose proof (pio_read_ok port width stack Hp Hw (s_env s) SDI_NULL_HANDLE) as Hrd.
  pose proof (pio_write_ok port width value Hp Hw (s_env s) SDI_NULL_HANDLE) as Hwr. rewrite u32_small in Hwr by done.
  split; [|split].
  - intros Hpw. rewrite (pio_width_test _ Hpw) in Hrd. specialize (Hin width port m Hpw). subst m.
    destruct (port_in width port (h_machine (s_env s))) as [v m'] eqn:Ein. cbn [fst snd] in *.
    assert (0 <= v < 2 ^ 32) as Hv32 by (destruct Hpw as [->|[->| ->]]; lia).
    unfold sdi_pio_read. cbn [negb]. cbv zeta. rewrite (st_bind_ok _ _ _ _ _ (call_ok _ _ _ _ _ _ _ _ _ Hi Hrd)).
    cbn [rp_status Z.eqb SDI_OK negb answer rp_out].
    destruct (pio_fields port width stack stack Hp Hw) as (_ & _ & _ & F4).
    by rewrite bind_assoc, (lift_bind _ _ _ _ (pio_resp_value _ v F4 Hv32)).
  - intros Hpw. rewrite (pio_width_test _ Hpw) in Hwr. unfold sdi_pio_write.
    by rewrite (st_bind_ok _ _ _ _ _ (call_ok _ _ _ _ _ _ _ _ _ Hi Hwr)).
  - intros Hpw. assert ((width =? 8) || (width =? 16) || (width =? 32) = false) as Ht.
    { unfold pio_width in Hpw. destruct (Z.eqb_spec width 8), (Z.eqb_spec width 16), (Z.eqb_spec width 32); naive_solver. }
    rewrite Ht in Hrd, Hwr. unfold sdi_pio_read, sdi_pio_write. cbn [negb]. cbv zeta.
    rewrite (st_bind_ok _ _ _ _ _ (call_ok _ _ _ _ _ _ _ _ _ Hi Hrd)), (st_bind_ok _ _ _ _ _ (call_ok _ _ _ _ _ _ _ _ _ Hi Hwr)).
    by destruct s.
Qed.

(** ** Interrupt lines *)

Context (reg : D -> Z -> Z -> Z) (tables : list madt_ioapic).
Context (laws : ioapic_laws reg ((fun a => Irq.PHYS_TO_VIRT hhdm_offset (ia_addr a)) <$> tables)) (Hbases : gsi_bases tables).

Record host_ok (h : H) : Prop := {
  ho_lines : length (h_bindings h) = 16%nat;
  ho_tables : iq_ioapics (h_irqs h) = tables;
  ho_handlers i b : h_bindings h !! i = Some b -> b_used b = true -> b_handler b <> 0;
}.

Lemma on_irqs_ok {A} (f : ST (irqs D) A) (h : H) a i : f (h_irqs h) = Ok (a, i) -> on_irqs f h = Ok (a, set_irqs i h).
Proof. unfold on_irqs. by intros ->. Qed.

Lemma get_binding_ok i b (h : H) : h_bindings h !! Z.to_nat i = Some b -> get_binding i h = Ok (b, h).
Proof. unfold get_binding. by intros ->. Qed.

Lemma put_binding_ok i b b' (h : H) : h_bindings h !! Z.to_nat i = Some b ->
  put_binding i b' h = Ok (tt, set_bindings (<[Z.to_nat i := b']> (h_bindings h)) h).
Proof. unfold put_binding. by intros ->. Qed.

Lemma line_binding h i : host_ok h -> 0 <= i < 16 -> exists b, h_bindings h !! Z.to_nat i = Some b.
Proof. intros Hok Hi. apply lookup_lt_is_Some_2. rewrite (ho_lines _ Hok). lia. Qed.

Lemma bind_fields index flags handler instance : 0 <= index < 2 ^ 32 -> 0 <= handler < 2 ^ 64 -> 0 <= instance < 2 ^ 64 ->
  let b := irq_bind_req index flags handler instance in
  sdi_check_payload (Some b) sizeof_irq_bind_req sizeof_irq_bind_req = Ok SDI_OK /\
  field 8 4 b = Ok index /\ field 16 8 b = Ok handler /\ field 24 8 b = Ok instance.
Proof.
  intros Hi Hh Hn b. split; [by apply check_payload_ok|]. split; [|split].
  - by apply (field_pack (SDI_INIT_PTR sizeof_irq_bind_req)).
  - by apply (field_pack (SDI_INIT_PTR sizeof_irq_bind_req ++ [(4%nat, index); (4%nat, flags)])).
  - by apply (field_pack (SDI_INIT_PTR sizeof_irq_bind_req ++ [(4%nat, index); (4%nat, flags); (8%nat, handler)])).
Qed.

Lemma put_bind_resp irq : put_out (irq_bind_resp irq) (Some (irq_bind_resp stack)) = Ok (Some (irq_bind_resp irq)).
Proof.
  unfold put_out, irq_bind_resp. rewrite !pack_length. cbn [Nat.leb width_of]. rewrite drop_ge by (rewrite pack_length; done).
  by rewrite app_nil_r.
Qed.

(** The local APIC that a line is routed to. *)
Definition target_cpu (h : H) : Z := match h_cpu h with Some l => u8 l | None => 0 end.

(** The host after a line has been bound. *)
Lemma host_bind_ok h index flags handler instance target b :
  host_ok h -> 0 <= index < 16 -> 0 < handler < 2 ^ 64 -> 0 <= instance < 2 ^ 64 -> h_bindings h !! Z.to_nat index = Some b -> b_used b = false ->
  exists r i, (irq_install hhdm_offset index (Some irq_dispatch_fn) None (target_cpu h) ;;
      ioapic_set_irq_mask hhdm_offset index false) (h_irqs h) = Ok (r, i) /\
    iq_ioapics i = tables /\ iq_handlers i (IRQ_BASE + index) = handler_for index irq_dispatch_fn (target_cpu h) /\
    sdi_kernel_call hhdm_offset irq_dispatch_fn target SDI_OP_IRQ_BIND (Some (irq_bind_req index flags handler instance))
      sizeof_irq_bind_req (Some (irq_bind_resp stack)) (Some sizeof_irq_bind_resp) h =
    Ok (mk_reply SDI_OK (Some (irq_bind_resp (index + 1))) (Some sizeof_irq_bind_resp),
        set_irqs i (set_bindings (<[Z.to_nat index := mk_binding true index handler instance]> (h_bindings h)) h)).
Proof.
  intros Hok Hi Hh Hn Hb Hu.
  destruct (irq_install_ok hhdm_offset reg tables laws Hbases (h_irqs h) index irq_dispatch_fn (target_cpu h) (ho_tables _ Hok) Hi)
    as (i1 & Hr1 & Et & _ & Hv & _). rewrite (ho_tables _ Hok) in Et.
  destruct (set_irq_mask_ok hhdm_offset reg tables laws Hbases i1 index false Et Hi) as (r & i2 & Hr2 & [d ->] & _).
  exists r, (set_dev d i1). split; [by eapply st_bind_eq|]. split; [done|].
  split; [cbn; by rewrite (Hv (IRQ_BASE + index)), Z.eqb_refl|].
  destruct (bind_fields index flags handler instance) as (Hck & F1 & F2 & F3); [lia|lia|done|].
  change (sdi_kernel_call hhdm_offset irq_dispatch_fn target SDI_OP_IRQ_BIND (Some (irq_bind_req index flags handler instance))
      sizeof_irq_bind_req (Some (irq_bind_resp stack)) (Some sizeof_irq_bind_resp) h)
    with (sdi_host_irq_bind hhdm_offset irq_dispatch_fn (Some (irq_bind_req index flags handler instance))
      sizeof_irq_bind_req (Some (irq_bind_resp stack)) (Some sizeof_irq_bind_resp) h). unfold sdi_host_irq_bind.
  rewrite (lift_bind _ _ _ _ Hck). cbn [negb Z.eqb SDI_OK short_output]. rewrite Z.ltb_irrefl.
  rewrite (lift_bind (deref (Some _)) _ _ _ eq_refl), (lift_bind _ _ _ _ F2). destruct (Z.eqb_spec handler 0); [lia|].
  rewrite (lift_bind _ _ _ _ F1). unfold SDI_IRQ_COUNT. destruct (Z.leb_spec 16 index); [lia|]. cbv zeta.
  assert (u8 index = index) as -> by (apply Z.mod_small; lia).
  rewrite (st_bind_ok _ _ _ _ _ (get_binding_ok _ _ _ Hb)), Hu, (lift_bind _ _ _ _ F3).
  rewrite (st_bind_ok _ _ _ _ _ (put_binding_ok _ _ _ _ Hb)). rewrite gets_bind.
  eapply st_bind_eq; [apply on_irqs_ok; exact Hr1|]. eapply st_bind_eq; [apply on_irqs_ok; exact Hr2|].
  by rewrite (lift_bind _ _ _ _ (put_bind_resp _)).
Qed.

Lemma bound_ok h index handler instance i : host_ok h -> 0 < handler -> iq_ioapics i = tables -> 0 <= index < 16 ->
  host_ok (set_irqs i (set_bindings (<[Z.to_nat index := mk_binding true index handler instance]> (h_bindings h)) h)).
Proof.
  intros Hok Hh Ht Hi. split; cbn [set_irqs set_bindings h_bindings h_irqs]; [by rewrite length_insert, (ho_lines _ Hok)|done|].
  intros j b Hj. destruct (decide (j = Z.to_nat index)) as [->|Hne].
  - rewrite list_lookup_insert_eq in Hj by (rewrite (ho_lines _ Hok); lia). injection Hj as <-. cbn. lia.
  - rewrite list_lookup_insert_ne in Hj by done. by apply (ho_handlers _ Hok j).
Qed.

(** What the kernel does on an interrupt when the handler of its vector is
    [sdi_irq_dispatch]. *)
Definition deliver (run_handler : Z -> Z -> Z -> ST (sdi H) Z) (irq frame : Z) : ST (sdi H) Z :=
  isr_common_handler (fun s => h_irqs (s_env s))
    (fun f fr => if f =? irq_dispatch_fn then sdi_irq_dispatch run_handler (Some (IRQ_BASE + irq)) fr else st_fault)
    (IRQ_BASE + irq) frame.

Lemma deliver_ok run_handler irq frame (s : sdi H) b l : 0 <= irq < 16 ->
  iq_handlers (h_irqs (s_env s)) (IRQ_BASE + irq) = handler_for irq irq_dispatch_fn l ->
  h_bindings (s_env s) !! Z.to_nat irq = Some b -> b_used b = true -> b_handler b <> 0 ->
  deliver run_handler irq frame s =
    (run_handler (b_handler b) (b_instance b) (irq + 1) ;; on_env (on_irqs apic_send_eoi) ;; mret frame) s.
Proof.
  intros Hi Hv Hb Hu Hh. unfold deliver. rewrite dispatch_ok, Hv by done. cbn [handler_for ih_callback ih_ctx].
  rewrite Z.eqb_refl. unfold sdi_irq_dispatch. cbv zeta.
  assert (u8 (IRQ_BASE + irq) = IRQ_BASE + irq) as -> by (apply Z.mod_small; unfold IRQ_BASE; lia).
  destruct (Z.leb_spec IRQ_BASE (IRQ_BASE + irq)); [|lia]. replace (IRQ_BASE + irq - IRQ_BASE) with irq by lia.
  assert (u8 irq = irq) as -> by (apply Z.mod_small; lia). unfold SDI_IRQ_COUNT. destruct (Z.ltb_spec irq 16); [|lia].
  rewrite bind_assoc, gets_bind, Hb, Hu. destruct (Z.eqb_spec (b_handler b) 0); [done|]. cbn [andb negb].
  by rewrite !bind_assoc.
Qed.

Lemma host_bind_fails h index flags handler instance target :
  host_ok h -> 0 <= index < 2 ^ 32 -> 0 < handler < 2 ^ 64 -> 0 <= instance < 2 ^ 64 ->
  let call := sdi_kernel_call hhdm_offset irq_dispatch_fn target SDI_OP_IRQ_BIND (Some (irq_bind_req index flags handler instance))
      sizeof_irq_bind_req (Some (irq_bind_resp stack)) (Some sizeof_irq_bind_resp) h in
  let reply st := Ok (mk_reply st (Some (irq_bind_resp stack)) (Some sizeof_irq_bind_resp), h) in
  (16 <= index -> call = reply SDI_ERR_RANGE) /\
  (forall b, index < 16 -> h_bindings h !! Z.to_nat index = Some b -> b_used b = true -> call = reply SDI_ERR_BUSY).
Proof.
  intros Hok Hi Hh Hn call reply.
  destruct (bind_fields index flags handler instance) as (Hck & F1 & F2 & F3); [lia|lia|done|].
  change call with (sdi_host_irq_bind hhdm_offset irq_dispatch_fn (Some (irq_bind_req index flags handler instance))
      sizeof_irq_bind_req (Some (irq_bind_resp stack)) (Some sizeof_irq_bind_resp) h). unfold sdi_host_irq_bind.
  rewrite (lift_bind _ _ _ _ Hck). cbn [negb Z.eqb SDI_OK short_output]. rewrite Z.ltb_irrefl.
  rewrite (lift_bind (deref (Some _)) _ _ _ eq_refl), (lift_bind _ _ _ _ F2). destruct (Z.eqb_spec handler 0); [lia|].
  rewrite (lift_bind _ _ _ _ F1). unfold SDI_IRQ_COUNT. split.
  - intros Hge. destruct (Z.leb_spec 16 index); [done|lia].
  - intros b Hlt Hb Hu. destruct (Z.leb_spec 16 index); [lia|]. cbv zeta.
    assert (u8 index = index) as -> by (apply Z.mod_small; lia).
    by rewrite (st_bind_ok _ _ _ _ _ (get_binding_ok _ _ _ Hb)), Hu.
Qed.

(** C26: binding an interrupt line. [sdi_irq_bind] packs the request, the host
    refuses a line past the last one ([SDI_ERR_RANGE]) and a line in use
    ([SDI_ERR_BUSY]) and changes nothing then. Otherwise the driver gets the
    handle of the line, the other lines keep their handlers, the line is routed
    as [irq_install] and unmasking do, and from then on an interrupt of the
    line runs the driver's handler with its instance and the handle, and ends
    with the end of interrupt. *)
Theorem sdi_irq_bind_spec (s : sdi H) device index flags handler instance :
  s_init s = true -> host_ok (s_env s) -> 0 <= index < 2 ^ 32 -> 0 < handler < 2 ^ 64 -> 0 <= instance < 2 ^ 64 ->
  exists st out s', sdi_irq_bind stack device index flags handler instance true s = Ok ((st, out), s') /\ host_ok (s_env s') /\
    ((16 <= index /\ st = SDI_ERR_RANGE /\ out = None /\ s' = s) \/
     (exists b, h_bindings (s_env s) !! Z.to_nat index = Some b /\ b_used b = true /\ st = SDI_ERR_BUSY /\ out = None /\ s' = s) \/
     (st = SDI_OK /\ out = Some (index + 1) /\
      h_bindings (s_env s') = <[Z.to_nat index := mk_binding true index handler instance]> (h_bindings (s_env s)) /\
      (exists r, (irq_install hhdm_offset index (Some irq_dispatch_fn) None (target_cpu (s_env s)) ;;
          ioapic_set_irq_mask hhdm_offset index false) (h_irqs (s_env s)) = Ok (r, h_irqs (s_env s'))) /\
      forall run_handler frame, deliver run_handler index frame s' =
        (run_handler handler instance (index + 1) ;; on_env (on_irqs apic_send_eoi) ;; mret frame) s')).
Proof.
  intros Hi Hok Hidx Hh Hn. destruct (host_bind_fails (s_env s) index flags handler instance device Hok Hidx Hh Hn) as [Hrange Hbusy].
  unfold sdi_irq_bind. destruct (Z.eqb_spec handler 0) as [|_]; [lia|]. cbn [orb negb].
  destruct (Z.le_gt_cases 16 index) as [Hge|Hlt].
  { exists SDI_ERR_RANGE, None, s. rewrite (st_bind_ok _ _ _ _ _ (call_ok _ _ _ _ _ _ _ _ _ Hi (Hrange Hge))).
    split; [by destruct s|]. split; [done|]. by left. }
  destruct (line_binding (s_env s) index Hok ltac:(lia)) as [b Hb]. destruct (b_used b) eqn:Hu.
  { exists SDI_ERR_BUSY, None, s. rewrite (st_bind_ok _ _ _ _ _ (call_ok _ _ _ _ _ _ _ _ _ Hi (Hbusy b Hlt Hb Hu))).
    split; [by destruct s|]. split; [done|]. right. left. by exists b. }
  destruct (host_bind_ok (s_env s) index flags handler instance device b Hok ltac:(lia) Hh Hn Hb Hu) as (r & i & Hroute & Ht & Hv & Hcall).
  rewrite (st_bind_ok _ _ _ _ _ (call_ok _ _ _ _ _ _ _ _ _ Hi Hcall)). cbn [rp_status negb Z.eqb SDI_OK answer rp_out].
  assert (field 8 8 (irq_bind_resp (index + 1)) = Ok (index + 1)) as F
    by (apply (field_pack (SDI_INIT_PTR sizeof_irq_bind_resp)); [done|lia]).
  rewrite bind_assoc, (lift_bind _ _ _ _ F).
  assert (host_ok (set_irqs i (set_bindings (<[Z.to_nat index := mk_binding true index handler instance]> (h_bindings (s_env s))) (s_env s)))) as Hok'
    by (apply bound_ok; [done|lia|done|lia]).
  eexists _, _, _. split; [done|]. split; [exact Hok'|]. right. right. do 3 (split; [done|]). split; [by exists r|].
  intros run_handler frame. eapply (deliver_ok _ _ _ _ (mk_binding true index handler instance)); [lia|exact Hv| |done|cbn; lia].
  cbn [set_env s_env set_irqs set_bindings h_bindings]. rewrite list_lookup_insert_eq; [done|]. rewrite (ho_lines _ Hok). lia.
Qed.

Lemma unbind_run (s : sdi H) handle st h' : s_init s = true ->
  sdi_host_irq_unbind hhdm_offset handle (s_env s) = Ok (st, h') -> sdi_irq_unbind handle s = Ok (st, set_env h' s).
Proof.
  intros Hi Hr. unfold sdi_irq_unbind, plain_call.
  apply (st_bind_eq _ _ _ (mk_reply st None None) (set_env h' s)); [|done]. apply call_ok; [done|].
  change ((st ← sdi_host_irq_unbind hhdm_offset handle; mret (mk_reply st None None)) (s_env s) = Ok (mk_reply st None None, h')).
  by eapply st_bind_eq.
Qed.

(** Releasing an interrupt line. [sdi_irq_unbind] takes the handle of a bound
    line only; it masks the line, and an interrupt that is still delivered runs
    no handler. Any other handle is [SDI_ERR_NOT_FOUND] and changes nothing. *)
Theorem sdi_irq_unbind_spec (s : sdi H) handle : s_init s = true -> host_ok (s_env s) -> 0 <= handle < 2 ^ 64 ->
  exists st s', sdi_irq_unbind handle s = Ok (st, s') /\ host_ok (s_env s') /\
    ((st = SDI_ERR_NOT_FOUND /\ s' = s /\
      forall b, 1 <= handle -> h_bindings (s_env s) !! Z.to_nat (handle - 1) = Some b -> b_used b = false) \/
     (st = SDI_OK /\ (exists b, h_bindings (s_env s) !! Z.to_nat (handle - 1) = Some b /\ b_used b = true) /\
      h_bindings (s_env s') = <[Z.to_nat (handle - 1) := no_binding]> (h_bindings (s_env s)) /\
      forall run_handler frame, deliver run_handler (handle - 1) frame s' = Ok (frame, s'))).
Proof.
  intros Hi Hok Hh. set (h := s_env s) in *.
  pose proof (fun st h' => unbind_run s handle st h' Hi) as Hrun. fold h in Hrun.
  unfold sdi_host_irq_unbind, sdi_irq_from_handle, SDI_NULL_HANDLE, SDI_IRQ_COUNT in Hrun.
  assert (handle = 0 \/ 16 < handle \/ 1 <= handle <= 16) as Hcase by lia.
  destruct (decide (1 <= handle <= 16)) as [Hin|Hout].
  2:{ exists SDI_ERR_NOT_FOUND, s. split; [|split; [done|left; split; [done|split; [done|]]]].
      - rewrite (Hrun SDI_ERR_NOT_FOUND h); [by destruct s|].
        destruct (Z.eqb_spec handle 0), (Z.ltb_spec 16 handle); try lia; cbn [orb]; done.
      - intros b Hge Hb. apply lookup_lt_Some in Hb. rewrite (ho_lines _ Hok) in Hb. lia. }
  destruct (line_binding h (handle - 1) Hok ltac:(lia)) as [b Hb].
  assert ((handle =? 0) || (16 <? handle) = false) as Et by (destruct (Z.eqb_spec handle 0), (Z.ltb_spec 16 handle); try lia; done).
  rewrite Et in Hrun. destruct (b_used b) eqn:Hu.
  2:{ exists SDI_ERR_NOT_FOUND, s. split; [|split; [done|left; split; [done|split; [done|]]]].
      - rewrite (Hrun SDI_ERR_NOT_FOUND h); [by destruct s|]. rewrite bind_assoc, (st_bind_ok _ _ _ _ _ (get_binding_ok _ _ _ Hb)), Hu. done.
      - intros b' _ Hb'. congruence. }
  assert (u8 (handle - 1) = handle - 1) as Eu by (apply Z.mod_small; lia).
  destruct (set_irq_mask_ok hhdm_offset reg tables laws Hbases (h_irqs h) (handle - 1) true (ho_tables _ Hok) ltac:(lia))
    as (r & i1 & Hr1 & [d ->] & _).
  assert (u8 (IRQ_BASE + (handle - 1)) = IRQ_BASE + (handle - 1)) as Ev by (apply Z.mod_small; unfold IRQ_BASE; lia).
  set (i2 := set_handlers (fun w => if w =? IRQ_BASE + (handle - 1) then mk_handler None None (IRQ_BASE + (handle - 1)) 0
    else iq_handlers (set_dev d (h_irqs h)) w) (set_dev d (h_irqs h))).
  exists SDI_OK, (set_env (set_bindings (<[Z.to_nat (handle - 1) := no_binding]> (h_bindings h)) (set_irqs i2 h)) s). split; [|split; [|right]].
  - apply Hrun. rewrite bind_assoc, (st_bind_ok _ _ _ _ _ (get_binding_ok _ _ _ Hb)), Hu. cbn [negb].
    unfold mret at 1, st_ret at 1. rewrite (st_bind_ok _ _ _ (SDI_OK, u8 (handle - 1)) h) by done. cbn [fst snd negb Z.eqb SDI_OK]. rewrite Eu.
    eapply st_bind_eq; [apply on_irqs_ok; exact Hr1|]. eapply st_bind_eq.
    { apply (on_irqs_ok _ (set_irqs (set_dev d (h_irqs h)) h) tt i2). unfold irq_uninstall.
      destruct (Z.leb_spec 16 (handle - 1)); [lia|]. by rewrite Ev. }
    eapply st_bind_eq; [by eapply put_binding_ok|done].
  - split; cbn [set_env s_env set_irqs set_bindings h_bindings h_irqs]; [by rewrite length_insert, (ho_lines _ Hok)|apply Hok|].
    intros j b' Hj. destruct (decide (j = Z.to_nat (handle - 1))) as [->|Hne].
    + rewrite list_lookup_insert_eq in Hj by (by eapply lookup_lt_Some). by injection Hj as <-.
    + rewrite list_lookup_insert_ne in Hj by done. by apply (ho_handlers _ Hok j).
  - split; [done|]. split; [by exists b|]. split; [done|]. intros run_handler frame. unfold deliver.
    rewrite dispatch_ok by lia. cbn [set_env s_env set_irqs set_bindings h_irqs i2 set_handlers iq_handlers]. by rewrite Z.eqb_refl.
Qed.
End spec.

(** ** Witnesses: a port that holds the last value written *)

#[local] Existing Instance demo_mmio.
#[local] Instance demo_machine : Machine Z := {|
  port_in := fun width _ m => (m mod 2 ^ width, m);
  port_out := fun _ _ v _ => v;
  time_uptime_us := fun m => (m, m);
  log_line := fun _ _ _ m => m;
|}.
Definition demo_fn : Z := 7.
Definition demo_host : host demo_dev Z := mk_host demo_cold (replicate 16 no_binding) demo_irqs 0x1234 (Some 1).
(** Line 3 is bound to the handler at 0x900. *)
Definition demo_sdi : sdi (host demo_dev Z) :=
  mk_sdi (kernel_table 1 2 3 4 5) [] 0 0 1 true (set_bindings (<[3%nat := mk_binding true 3 0x900 0x77]> (h_bindings demo_host)) demo_host).
Abbreviation demo_phys := IrqSpec.demo_hhdm.

Lemma demo_host_ok : host_ok demo_tables (s_env demo_sdi).
Proof.
  split; [reflexivity|reflexivity|]. intros i b Hb Hu.
  do 16 (destruct i as [|i]; [cbn in Hb; injection Hb as <-; done|]). cbn in Hb. done.
Qed.

Lemma sdi_pio_spec_witness : sdi_pio_read (SdiHost0 := kernel_host demo_phys 0 demo_fn) 0 0x60 8 true demo_sdi = Ok ((SDI_OK, Some 0x34), demo_sdi).
Proof.
  destruct (sdi_pio_spec demo_phys 0 demo_fn 0 demo_sdi 0x60 8 5 eq_refl ltac:(lia) ltac:(lia) ltac:(lia)) as (Hr & _).
  - intros w p m Hw. cbn [port_in demo_machine fst]. apply Z.mod_pos_bound. unfold pio_width in Hw. lia.
  - etransitivity; [apply Hr; by left|reflexivity].
Defined.

Lemma sdi_irq_bind_spec_witness : exists s',
  sdi_irq_bind (SdiHost0 := kernel_host demo_phys 0 demo_fn) 0 0 1 0 0x800 0x42 true demo_sdi = Ok ((SDI_OK, Some 2), s').
Proof.
  destruct (sdi_irq_bind_spec demo_phys 0 demo_fn 0 demo_reg demo_tables demo_laws demo_gsi_bases demo_sdi 0 1 0 0x800 0x42
    eq_refl demo_host_ok ltac:(lia) ltac:(lia) ltac:(lia)) as (st & out & s' & Hr & _ & [(? & _)|[(b & Hb & Hu & _)|(-> & -> & _)]]).
  - lia.
  - cbn in Hb. injection Hb as <-. discriminate.
  - by exists s'.
Defined.

Lemma sdi_irq_unbind_spec_witness : exists s', sdi_irq_unbind (SdiHost0 := kernel_host demo_phys 0 demo_fn) 4 demo_sdi = Ok (SDI_OK, s') /\
  host_ok demo_tables (s_env s').
Proof.
  destruct (sdi_irq_unbind_spec demo_phys 0 demo_fn demo_reg demo_tables demo_laws demo_gsi_bases demo_sdi 4
    eq_refl demo_host_ok ltac:(lia)) as (st & s' & Hr & Hok & [(_ & _ & Hno)|(-> & _)]).
  - specialize (Hno _ ltac:(lia) eq_refl). discriminate.
  - by exists s'.
Defined.
