(* ===== verification/SdiAlloc.v ===== *)
(** Memory for drivers, [sdi_kernel_alloc] and [sdi_kernel_free] of
    [kernel/src/sdi/host.c], over the heap of mm/kheap.c. *)
From S2P Require Import Prelude StringLib WordMem Pfndb Pmm Kheap KheapInv KheapSlab KheapCreate KheapLarge KheapSpec KheapEnv Sdi SdiHost.

(** The alignments are powers of two. *)
Lemma alloc_align_pow flags : exists k, alloc_align flags = 2 ^ k /\ 4 <= k <= 12.
Proof. unfold alloc_align, PAGE_SIZE. destruct (has_bits _ _); [by exists 12|by exists 4]. Qed.

Section spec.
Context (hhdm_offset caches_at : Z).
Abbreviation heap_inv := (heap_inv hhdm_offset caches_at).

(** Writing the header of a block. *)
Lemma write_alloc_header_ok s a raw size flags :
  mem_ok (kh_mem s) -> mapped (kh_mem s) a 32 -> 0 <= raw < 2 ^ 64 -> 0 <= size < 2 ^ 64 -> 0 <= flags < 2 ^ 32 ->
  exists m', write_alloc_header a raw size flags s = Ok (tt, set_mem m' s) /\ mem_ok m' /\
    (forall x, is_Some (m' !! x) <-> is_Some (kh_mem s !! x)) /\
    (forall x, ~ a <= x < a + 32 -> m' !! x = kh_mem s !! x) /\
    load_word m' a = Ok SDI_ALLOC_MAGIC /\ load_word m' (a + 8) = Ok raw.
Proof.
  intros Hok Hm Hr Hs Hf.
  destruct (store_le_wrote 8 (kh_mem s) a SDI_ALLOC_MAGIC Hok) as (m1 & S1 & W1); [eapply mapped_sub; [done|lia|lia]|done|].
  destruct (store_le_wrote 8 m1 (a + 8) raw) as (m2 & S2 & W2); [apply W1|eapply wrote_mapped; [done|]; eapply mapped_sub; [done|lia|lia]|done|].
  destruct (store_le_wrote 8 m2 (a + 16) size) as (m3 & S3 & W3);
    [apply W2|do 2 (eapply wrote_mapped; [done|]); eapply mapped_sub; [done|lia|lia]|done|].
  destruct (store_le_wrote 4 m3 (a + 24) flags) as (m4 & S4 & W4);
    [apply W3|do 3 (eapply wrote_mapped; [done|]); eapply mapped_sub; [done|lia|lia]|done|].
  exists m4. split; [|split; [apply W4|split; [|split; [|split]]]].
  - unfold write_alloc_header. eapply st_bind_eq; [by apply on_mem_ok|]. eapply st_bind_eq; [by apply on_mem_ok|].
    eapply st_bind_eq; [by apply on_mem_ok|]. exact (on_mem_ok (set_mem m3 s) _ m4 S4).
  - intros x. by rewrite (wr_dom _ _ _ _ _ W4), (wr_dom _ _ _ _ _ W3), (wr_dom _ _ _ _ _ W2), (wr_dom _ _ _ _ _ W1).
  - intros x Hx. rewrite (wr_frame _ _ _ _ _ W4), (wr_frame _ _ _ _ _ W3), (wr_frame _ _ _ _ _ W2), (wr_frame _ _ _ _ _ W1); [done|lia..].
  - rewrite <- (wr_load _ _ _ _ _ W1). apply load_le_frame. intros x Hx.
    rewrite (wr_frame _ _ _ _ _ W4), (wr_frame _ _ _ _ _ W3), (wr_frame _ _ _ _ _ W2); [done|lia..].
  - rewrite <- (wr_load _ _ _ _ _ W2). apply load_le_frame. intros x Hx.
    rewrite (wr_frame _ _ _ _ _ W4), (wr_frame _ _ _ _ _ W3); [done|lia..].
Qed.

(** A block of a driver inside a block of the heap. *)
Record drv_block (s : kheap) (raw n p size : Z) : Prop := {
  db_range : 0 < raw /\ 0 < size /\ raw + 32 <= p /\ p + size <= raw + n /\ raw + n <= 2 ^ 64;
  db_magic : load_word (kh_mem s) (p - 32) = Ok SDI_ALLOC_MAGIC;
  db_raw : load_word (kh_mem s) (p - 24) = Ok raw;
}.

(** Releasing it releases the heap's block. *)
Lemma drv_free_ok s blk live raw n p size : heap_inv s blk live -> live !! raw = Some n -> drv_block s raw n p size ->
  exists s' blk', sdi_kernel_free hhdm_offset (Some p) s = Ok (tt, s') /\ heap_inv s' blk' (delete raw live) /\
    keeps_bytes (delete raw live) s s'.
Proof.
  intros Hi Hl [(Hraw & Hsz & Hp1 & Hp2 & Hp3) Hmg Hrw]. unfold sdi_kernel_free, sizeof_alloc_header. cbv zeta.
  pose proof (inv_bytes _ _ _ _ _ Hi) as Hby. pose proof (live_mapped _ _ _ _ _ _ _ Hi Hl) as Hm.
  rewrite u64_small by lia. rewrite (st_bind_ok _ _ _ _ _ (read_word_ok _ _ _ Hmg)), Z.eqb_refl.
  destruct (store_le_wrote 8 (kh_mem s) (p - 32) 0 Hby) as (m1 & S1 & W1); [eapply mapped_sub; [done|lia|lia]|done|].
  rewrite (st_bind_ok _ _ _ _ _ (on_mem_ok s (store_word (p - 32) 0) m1 S1)).
  assert (load_word m1 (p - 32 + 8) = Ok raw) as Hrw1.
  { rewrite <- Hrw. replace (p - 32 + 8) with (p - 24) by lia. apply load_le_frame. intros x Hx. apply (wr_frame _ _ _ _ _ W1). lia. }
  rewrite (st_bind_ok _ _ _ _ _ (read_word_ok (set_mem m1 s) _ _ Hrw1)). destruct (Z.eqb_spec raw 0); [lia|].
  destruct (inv_client hhdm_offset caches_at s blk live raw n m1 Hi Hl) as [Hi1 Hk1];
    [apply W1|apply W1|intros x Hx; apply (wr_frame _ _ _ _ _ W1); lia|].
  destruct (kfree_ok _ _ _ _ _ _ _ Hi1 Hl) as (s' & blk' & Hr & Hi' & Hk). exists s', blk'.
  split; [exact Hr|]. split; [exact Hi'|]. intros b k x Hb Hx. rewrite (Hk b k x) by done. by apply (Hk1 b k x).
Qed.

Lemma live_bound s blk live a n : heap_inv s blk live -> live !! a = Some n -> 0 < a /\ a + n <= 2 ^ 64.
Proof.
  intros (gs & gl & ls & Hcore & _) Ha. destruct (live_extent _ _ _ _ _ _ _ _ Hcore Ha) as (q & o & Hq & L & U & _).
  destruct (alloc_frames _ _ _ _ _ _ Hcore _ _ _ Hq) as (_ & ? & ?). destruct (hc_map _ _ _ _ _ _ Hcore).
  unfold KheapInv.virt in *. lia.
Qed.

(** The address handed to the driver. *)
Lemma user_ptr_ok raw flags : 0 < raw -> raw + 32 + alloc_align flags <= 2 ^ 64 ->
  let p := sdi_align_up (u64 (raw + sizeof_alloc_header)) (alloc_align flags) in
  raw + 32 <= p < raw + 32 + alloc_align flags /\ (alloc_align flags | p).
Proof.
  intros Hr Hlt p. destruct (alloc_align_pow flags) as (k & E & Hk). subst p. unfold sdi_align_up, sizeof_alloc_header.
  rewrite E in *. assert (0 < 2 ^ k) by lia. rewrite (u64_small (raw + 32)) by lia. apply align_up_pow2; lia.
Qed.

(** The requests that are granted if there is memory. *)
Definition supported (flags : Z) : Prop := 0 <= flags < 2 ^ 32 /\ Z.land flags (2 ^ 32 - 1 - SDI_ALLOC_SUPPORTED_FLAGS) = 0.
Definition total_of (size flags : Z) : Z := size + 32 + alloc_align flags - 1.

(** The block is filled in: the header, and the zeroes if they were asked for. *)
Lemma drv_fill_ok s blk live raw n size flags : heap_inv s blk live -> live !! raw = Some n -> 0 < size ->
  total_of size flags <= n -> 0 <= flags < 2 ^ 32 ->
  let p := sdi_align_up (u64 (raw + sizeof_alloc_header)) (alloc_align flags) in
  exists m', (write_alloc_header (p - sizeof_alloc_header) raw size flags ;;
      (if has_bits flags SDI_ALLOC_ZERO then on_mem (memset p 0 size) else mret tt)) s = Ok (tt, set_mem m' s) /\
    heap_inv (set_mem m' s) blk live /\ keeps_bytes (delete raw live) s (set_mem m' s) /\
    drv_block (set_mem m' s) raw n p size /\ (alloc_align flags | p) /\
    (has_bits flags SDI_ALLOC_ZERO = true -> forall x, p <= x < p + size -> m' !! x = Some 0).
Proof.
  intros Hi Hl Hs Ht Hf p. unfold total_of in Ht. destruct (live_bound _ _ _ _ _ Hi Hl) as [Hraw Hend].
  destruct (user_ptr_ok raw flags Hraw ltac:(lia)) as [Hp Hdiv]. fold p in Hp, Hdiv. unfold sizeof_alloc_header.
  pose proof (inv_bytes _ _ _ _ _ Hi) as Hby. pose proof (live_mapped _ _ _ _ _ _ _ Hi Hl) as Hm.
  destruct (write_alloc_header_ok s (p - 32) raw size flags Hby) as (m1 & Hw & Hby1 & Hd1 & Hfr1 & L1 & L2);
    [eapply mapped_sub; [exact Hm|lia|lia]|lia|lia|done|].
  destruct (inv_client hhdm_offset caches_at s blk live raw n m1 Hi Hl Hby1 Hd1) as [Hi1 Hk1]; [intros x Hx; apply Hfr1; lia|].
  replace (p - 32 + 8) with (p - 24) in L2 by lia.
  destruct (has_bits flags SDI_ALLOC_ZERO).
  2:{ exists m1. split; [by eapply st_bind_eq|]. split; [exact Hi1|]. split; [exact Hk1|]. split; [|by split].
      split; [lia|exact L1|exact L2]. }
  destruct (memset_ok m1 p 0 size ltac:(lia)) as (m2 & Hset & Hfill).
  { intros x Hx. apply Hd1. apply Hm. lia. }
  unfold filled in Hfill. change (u8 0) with 0 in Hfill.
  destruct (inv_client hhdm_offset caches_at (set_mem m1 s) blk live raw n m2 Hi1 Hl) as [Hi2 Hk2].
  { intros x b. rewrite Hfill. case_decide; [intros [= <-]; by unfold is_byte|by apply Hby1]. }
  { intros x. rewrite Hfill. case_decide; [|done]. split; [|by eexists]. intros _. apply Hd1, Hm. lia. }
  { intros x Hx. rewrite Hfill, decide_False; [done|lia]. }
  exists m2. split; [eapply st_bind_eq; [exact Hw|]; exact (on_mem_ok (set_mem m1 s) _ m2 Hset)|].
  split; [exact Hi2|]. split; [intros b k x Hb Hx; etrans; [exact (Hk2 b k x Hb Hx)|exact (Hk1 b k x Hb Hx)]|]. split; [|split; [done|]].
  - assert (forall x, ~ p <= x < p + size -> m2 !! x = m1 !! x) as Hm2 by (intros x Hx; by rewrite Hfill, decide_False).
    split; [lia|rewrite <- L1|rewrite <- L2]; apply load_le_frame; intros x Hx; apply Hm2; lia.
  - intros _ x Hx. by rewrite Hfill, decide_True.
Qed.

(** C25: memory for drivers. A request with supported flags gets, if there is
    memory, an address with the alignment that its flags ask for, inside a new
    block of the heap, zeroed if asked, with no other block touched; a size of
    zero, an unsupported flag and a size that overflows get the null pointer
    and nothing happens. Whatever the driver writes to its bytes, releasing the
    address later gives exactly that block back to the heap. *)
Theorem sdi_alloc_free_spec s blk live size flags : heap_inv s blk live -> 0 <= size < 2 ^ 64 -> 0 <= flags < 2 ^ 32 ->
  ((size = 0 \/ ~ supported flags \/ 2 ^ 64 <= total_of size flags) -> sdi_kernel_alloc hhdm_offset caches_at size flags s = Ok (None, s)) /\
  (0 < size -> supported flags -> total_of size flags <= 2 ^ 31 - 24 ->
   exists r s1, sdi_kernel_alloc hhdm_offset caches_at size flags s = Ok (r, s1) /\
     match r with
     | None => s1 = s /\ no_memory blk (total_of size flags)
     | Some p => (alloc_align flags | p) /\ keeps_bytes live s s1 /\
         (has_bits flags SDI_ALLOC_ZERO = true -> forall x, p <= x < p + size -> kh_mem s1 !! x = Some 0) /\
         exists raw blk1, let live1 := <[raw := usable (total_of size flags)]> live in
           live !! raw = None /\ heap_inv s1 blk1 live1 /\ raw <= p /\ p + size <= raw + usable (total_of size flags) /\
           forall m', mem_ok m' -> (forall x, is_Some (m' !! x) <-> is_Some (kh_mem s1 !! x)) ->
             (forall x, ~ p <= x < p + size -> m' !! x = kh_mem s1 !! x) ->
             exists s2 blk2, sdi_kernel_free hhdm_offset (Some p) (set_mem m' s1) = Ok (tt, s2) /\
               heap_inv s2 blk2 live /\ keeps_bytes live s1 s2
     end).
Proof.
  intros Hi Hsz Hfl. destruct (alloc_align_pow flags) as (k & Ek & Hk).
  assert (16 <= alloc_align flags <= 4096) as Hal.
  { rewrite Ek. assert (2 ^ 4 <= 2 ^ k) by (apply Z.pow_le_mono_r; lia). assert (2 ^ k <= 2 ^ 12) by (apply Z.pow_le_mono_r; lia). lia. }
  assert (size + sizeof_alloc_header + alloc_align flags - 1 = total_of size flags) as Et by (unfold total_of, sizeof_alloc_header; lia).
  unfold sdi_kernel_alloc. cbv zeta. rewrite Et. split.
  - intros Hbad. destruct (Z.eqb_spec size 0); [done|]. cbn [orb].
    destruct (Z.eqb_spec (Z.land flags (2 ^ 32 - 1 - SDI_ALLOC_SUPPORTED_FLAGS)) 0) as [E|E]; [|done]. cbn [negb].
    destruct Hbad as [?|[Hns|Hov]]; [done|by destruct Hns|].
    assert (u64 (total_of size flags) = total_of size flags - 2 ^ 64) as ->.
    { unfold u64. symmetry. apply (Z.mod_unique _ _ 1); unfold total_of in *; lia. }
    destruct (Z.ltb_spec (total_of size flags - 2 ^ 64) size); [done|]. unfold total_of in *. lia.
  - intros Hpos [_ Hsup] Hmax. rewrite Hsup, Z.eqb_refl. destruct (Z.eqb_spec size 0); [lia|]. cbn [orb negb].
    rewrite u64_small by (unfold total_of in *; lia). destruct (Z.ltb_spec (total_of size flags) size); [unfold total_of in *; lia|].
    destruct (kmalloc_ok _ _ s blk live (total_of size flags) Hi ltac:(unfold total_of; lia) ltac:(lia)) as ([raw|] & s1 & Hr & Hres);
      rewrite (st_bind_ok _ _ _ _ _ Hr); [|by exists None, s1].
    destruct Hres as (_ & blk1 & Hi1 & Hnone & _ & Hof & _). pose proof (usable_fits caches_at (total_of size flags)) as Hu.
    assert (<[raw := usable (total_of size flags)]> live !! raw = Some (usable (total_of size flags))) as Hl by apply lookup_insert_eq.
    destruct (drv_fill_ok s1 blk1 _ raw _ size flags Hi1 Hl Hpos Hu Hfl) as (m1 & Hw & Hi2 & Hk2 & Hdb & Hdiv & Hz).
    rewrite delete_insert_id in Hk2 by done. set (p := sdi_align_up _ _) in *.
    exists (Some p), (set_mem m1 s1). split; [rewrite <- then_assoc; by eapply st_bind_eq|].
    split; [done|]. split; [intros b x y Hb Hy; rewrite (Hk2 b x y) by done; by eapply (inv_fresh _ _ s s1)|]. split; [exact Hz|].
    exists raw, blk1. destruct Hdb as [(_ & _ & Hp1 & Hp2 & Hp3) Hmg Hrw].
    split; [done|]. split; [exact Hi2|]. split; [lia|]. split; [lia|]. intros m' Hby' Hd' Hfr'.
    destruct (inv_client hhdm_offset caches_at (set_mem m1 s1) blk1 _ raw _ m' Hi2 Hl Hby' Hd') as [Hi3 Hk3]; [intros x Hx; apply Hfr'; lia|].
    destruct (live_bound _ _ _ _ _ Hi1 Hl) as [Hraw _].
    destruct (drv_free_ok (set_mem m' (set_mem m1 s1)) blk1 _ raw _ p size Hi3 Hl) as (s2 & blk2 & Hfree & Hi4 & Hk4).
    + split; [lia|rewrite <- Hmg|rewrite <- Hrw]; apply load_le_frame; intros x Hx; cbn; apply Hfr'; lia.
    + rewrite delete_insert_id in Hi4, Hk4, Hk3 by done. exists s2, blk2. split; [exact Hfree|]. split; [exact Hi4|].
      intros b x y Hb Hy. rewrite (Hk4 b x y) by done. by apply (Hk3 b x y).
Qed.
End spec.

Lemma sdi_alloc_free_spec_witness : exists r s1, sdi_kernel_alloc demo_hhdm demo_caches 100 5 demo_heap = Ok (r, s1) /\
  r = Some (demo_hhdm + 20480).
Proof.
  destruct demo_heap_inv as [blk Hi].
  destruct (sdi_alloc_free_spec demo_hhdm demo_caches demo_heap blk ∅ 100 5 Hi ltac:(lia) ltac:(lia)) as [_ H].
  destruct H as (r & s1 & Hr & _); [lia|split; [lia|reflexivity]|unfold total_of; vm_compute; discriminate|].
  exists r, s1. split; [exact Hr|]. apply (same_result _ _ _ _ Hr). vm_compute. reflexivity.
Defined.
