(* ===== verification/Ps2.v ===== *)
(** The PS/2 keyboard driver, [drivers/ps2/main.c], a client of the driver
    interface: it reaches ports, interrupts and memory only through the calls
    of [SdiCalls.v] and [Sdi.v].

    The host is any instance of [SdiHost]; the memory that [sdi_alloc] returns
    is accessed through the class [DriverMem], which the kernel's host
    implements here with the bytes of its heap. *)
From S2P Require Import Prelude StringLib Kheap Sdi SdiCalls Irq SdiHost.

Definition PS2_DATA_PORT : Z := 0x60.
Definition PS2_STATUS_PORT : Z := 0x64.
Definition PS2_COMMAND_PORT : Z := 0x64.
Definition PS2_STATUS_OUTPUT_FULL : Z := 0x01.
Definition PS2_STATUS_INPUT_FULL : Z := 0x02.
Definition PS2_CMD_READ_CONFIG : Z := 0x20.
Definition PS2_CMD_WRITE_CONFIG : Z := 0x60.
Definition PS2_CMD_ENABLE_FIRST_PORT : Z := 0xae.
Definition PS2_DEV_ENABLE_SCANNING : Z := 0xf4.
Definition PS2_CONFIG_FIRST_IRQ : Z := 0x01.
Definition PS2_CONFIG_FIRST_CLOCK_DISABLE : Z := 0x10.
Definition SDI_ERR_TIMEOUT : Z := -6.
Definition SDI_ERR_IO : Z := -7.
Definition SDI_LOG_INFO : Z := 2.

(** The offsets of [ps2_keyboard_t], with its size. *)
Definition kbd_irq : Z := 0.
Definition kbd_left_shift : Z := 8.
Definition kbd_right_shift : Z := 12.
Definition kbd_extended : Z := 16.
Definition sizeof_keyboard : Z := 24.

(** The elements that are not 0. *)
Definition ps2_keymap : list (Z * Z) :=
  [(0x02, 49); (0x03, 50); (0x04, 51); (0x05, 52); (0x06, 53); (0x07, 54); (0x08, 55); (0x09, 56); (0x0a, 57);
   (0x0b, 48); (0x0c, 45); (0x0d, 61); (0x0e, 8); (0x0f, 9); (0x10, 113); (0x11, 119); (0x12, 101); (0x13, 114);
   (0x14, 116); (0x15, 121); (0x16, 117); (0x17, 105); (0x18, 111); (0x19, 112); (0x1a, 91); (0x1b, 93); (0x1c,
   10); (0x1e, 97); (0x1f, 115); (0x20, 100); (0x21, 102); (0x22, 103); (0x23, 104); (0x24, 106); (0x25, 107);
   (0x26, 108); (0x27, 59); (0x28, 39); (0x29, 96); (0x2b, 92); (0x2c, 122); (0x2d, 120); (0x2e, 99); (0x2f,
   118); (0x30, 98); (0x31, 110); (0x32, 109); (0x33, 44); (0x34, 46); (0x35, 47); (0x39, 32)].
Definition ps2_shift_keymap : list (Z * Z) :=
  [(0x02, 33); (0x03, 64); (0x04, 35); (0x05, 36); (0x06, 37); (0x07, 94); (0x08, 38); (0x09, 42); (0x0a, 40);
   (0x0b, 41); (0x0c, 95); (0x0d, 43); (0x0e, 8); (0x0f, 9); (0x10, 81); (0x11, 87); (0x12, 69); (0x13, 82);
   (0x14, 84); (0x15, 89); (0x16, 85); (0x17, 73); (0x18, 79); (0x19, 80); (0x1a, 123); (0x1b, 125); (0x1c, 10);
   (0x1e, 65); (0x1f, 83); (0x20, 68); (0x21, 70); (0x22, 71); (0x23, 72); (0x24, 74); (0x25, 75); (0x26, 76);
   (0x27, 58); (0x28, 34); (0x29, 126); (0x2b, 124); (0x2c, 90); (0x2d, 88); (0x2e, 67); (0x2f, 86); (0x30, 66);
   (0x31, 78); (0x32, 77); (0x33, 60); (0x34, 62); (0x35, 63); (0x39, 32)].
Definition char_at (keymap : list (Z * Z)) (code : Z) : Z :=
  match list_find (fun e => e.1 = code) keymap with Some (_, e) => e.2 | None => 0 end.

(** The memory that the kernel shares with its drivers. *)
Class DriverMem (E : Type) := {
  dm_load : nat -> Z -> E -> outcome Z;       (* bytes, address *)
  dm_store : nat -> Z -> Z -> E -> outcome E; (* bytes, address, value *)
}.
#[export] Instance kernel_driver_mem {D P} : DriverMem (host D P) := {|
  dm_load := fun k a h => load_le k (kh_mem (h_heap h)) a;
  dm_store := fun k a v h => m ← store_le k a v (kh_mem (h_heap h)); Ok (set_heap (set_mem m (h_heap h)) h);
|}.

Section Ps2.
Context {E : Type} `{!SdiHost E, !DriverMem E}.
(** What the local structures hold before they are filled in, and the function
    [ps2_keyboard_irq] as a handler. *)
Context (stack irq_fn : Z).
Abbreviation S := (sdi E).

Definition load (k : nat) (a : Z) : ST S Z := fun s => v ← dm_load k a (s_env s); Ok (v, s).
Definition store (k : nat) (a v : Z) : ST S unit := fun s => e ← dm_store k a v (s_env s); Ok (tt, set_env e s).

(** The status, with what is stored in [*out]. *)
Definition ps2_read_u8 (port : Z) : ST S (Z * option Z) :=
  r ← sdi_pio_read stack port 8 true;
  if negb (r.1 =? SDI_OK) then mret (r.1, None) else
  value ← st_lift (deref r.2);
  mret (SDI_OK, Some (u8 value)).

(** A poll of the status port until [stop] holds of it, at most [n] times. *)
Fixpoint wait_loop (n : nat) (stop : Z -> bool) : ST S bool :=
  match n with
  | O => mret false
  | Datatypes.S n =>
      r ← ps2_read_u8 PS2_STATUS_PORT;
      if negb (r.1 =? SDI_OK) then mret false else
      status ← st_lift (deref r.2);
      if stop status : bool then mret true else wait_loop n stop
  end.
Definition POLL_LIMIT : nat := Z.to_nat 100000.
Definition ps2_wait_input_clear : ST S bool := wait_loop POLL_LIMIT (fun status => Z.land status PS2_STATUS_INPUT_FULL =? 0).
Definition ps2_wait_output_full : ST S bool := wait_loop POLL_LIMIT (fun status => negb (Z.land status PS2_STATUS_OUTPUT_FULL =? 0)).

Definition ps2_write_u8 (port value : Z) : ST S Z :=
  ok ← ps2_wait_input_clear;
  if negb ok then mret SDI_ERR_TIMEOUT else sdi_pio_write stack port 8 value.

Definition ps2_send_device_command (command : Z) : ST S (Z * option Z) :=
  st ← ps2_write_u8 PS2_DATA_PORT command;
  if negb (st =? SDI_OK) then mret (st, None) else
  ok ← ps2_wait_output_full;
  if negb ok then mret (SDI_ERR_TIMEOUT, None) else ps2_read_u8 PS2_DATA_PORT.

(** [config |= FIRST_IRQ; config &= (sdi_u8)~FIRST_CLOCK_DISABLE]. *)
Definition new_config (config : Z) : Z := Z.land (Z.lor config PS2_CONFIG_FIRST_IRQ) (255 - PS2_CONFIG_FIRST_CLOCK_DISABLE).

Definition ps2_configure_controller : ST S unit :=
  st ← ps2_write_u8 PS2_COMMAND_PORT PS2_CMD_READ_CONFIG;
  if negb (st =? SDI_OK) then mret tt else
  r ← ps2_read_u8 PS2_DATA_PORT;
  if negb (r.1 =? SDI_OK) then mret tt else
  config ← st_lift (deref r.2);
  st ← ps2_write_u8 PS2_COMMAND_PORT PS2_CMD_WRITE_CONFIG;
  if negb (st =? SDI_OK) then mret tt else
  ps2_write_u8 PS2_DATA_PORT (new_config config) ;; mret tt.

Fixpoint drain_loop (n : nat) : ST S unit :=
  match n with
  | O => mret tt
  | Datatypes.S n =>
      r ← ps2_read_u8 PS2_STATUS_PORT;
      if negb (r.1 =? SDI_OK) then mret tt else
      status ← st_lift (deref r.2);
      if Z.land status PS2_STATUS_OUTPUT_FULL =? 0 then mret tt else
      ps2_read_u8 PS2_DATA_PORT ;;
      drain_loop n
  end.
Definition ps2_drain_output : ST S unit := drain_loop 32.

(** "ps2kbd" *)
Definition ps2_component : cstr := [112; 115; 50; 107; 98; 100; 0].
Definition ps2_log_key (ch : Z) : ST S unit := sdi_log SDI_LOG_INFO (Some ps2_component) (Some [ch; 0]) ;; mret tt.

Definition bool_int (b : bool) : Z := if b then 1 else 0.

(** From the test of [code] on. *)
Definition ps2_take_code (kbd code : Z) : ST S Z :=
  if (code =? 0xfa) || (code =? 0xfe) then mret SDI_OK else
  if code =? 0xe0 then store 4 (kbd + kbd_extended) 1 ;; mret SDI_OK else
  let released := negb (Z.land code 0x80 =? 0) in
  let code := Z.land code 0x7f in
  extended ← load 4 (kbd + kbd_extended);
  (if (extended =? 0) && (code =? 0x2a) then store 4 (kbd + kbd_left_shift) (bool_int (negb released))
   else if (extended =? 0) && (code =? 0x36) then store 4 (kbd + kbd_right_shift) (bool_int (negb released))
   else if negb released && (extended =? 0) then
     left ← load 4 (kbd + kbd_left_shift);
     right ← (if negb (left =? 0) then mret 1 else load 4 (kbd + kbd_right_shift));
     let ch := if negb (left =? 0) || negb (right =? 0) then char_at ps2_shift_keymap code else char_at ps2_keymap code in
     if negb (ch =? 0) then ps2_log_key ch else mret tt
   else mret tt) ;;
  store 4 (kbd + kbd_extended) 0 ;;
  mret SDI_OK.

Definition ps2_keyboard_irq (instance irq : Z) : ST S Z :=
  if instance =? 0 then mret SDI_ERR_INVAL else
  r ← ps2_read_u8 PS2_STATUS_PORT;
  if negb (r.1 =? SDI_OK) then mret SDI_ERR_IO else
  status ← st_lift (deref r.2);
  if Z.land status PS2_STATUS_OUTPUT_FULL =? 0 then mret SDI_OK else
  r ← ps2_read_u8 PS2_DATA_PORT;
  if negb (r.1 =? SDI_OK) then mret SDI_ERR_IO else
  code ← st_lift (deref r.2);
  ps2_take_code instance code.

(** *** The operations of the driver *)

Definition ps2_keyboard_init : ST S Z := mret SDI_OK.

Definition ps2_keyboard_probe (info : option probe_info) (out_result : option probe_result) : ST S (Z * option probe_result) :=
  match info, out_result with
  | Some i, Some o =>
      mret (SDI_OK, Some (mk_result sizeof_probe_result SDI_ABI_VERSION (if mi_kind (pi_match i) =? SDI_MATCH_SOFT then 90 else 0) (pr_flags o)))
  | _, _ => mret (SDI_ERR_INVAL, out_result)
  end.

(** [old] is what [*out_instance] holds. *)
Definition ps2_keyboard_attach (old : option Z) : ST S (Z * option Z) :=
  match old with
  | None => mret (SDI_ERR_INVAL, None)
  | Some old =>
      kbd ← sdi_alloc sizeof_keyboard SDI_ALLOC_ZERO;
      match kbd with
      | None => mret (SDI_ERR_NOMEM, Some old)
      | Some kbd => mret (SDI_OK, Some kbd)
      end
  end.

Definition ps2_keyboard_start (instance : Z) : ST S Z :=
  if instance =? 0 then mret SDI_ERR_INVAL else
  ps2_drain_output ;;
  ps2_configure_controller ;;
  ps2_write_u8 PS2_COMMAND_PORT PS2_CMD_ENABLE_FIRST_PORT ;;
  ps2_send_device_command PS2_DEV_ENABLE_SCANNING ;;
  r ← sdi_irq_bind stack SDI_NULL_HANDLE 1 0 irq_fn instance true;
  (match r.2 with Some irq => store 8 (instance + kbd_irq) irq | None => mret tt end) ;;
  if negb (r.1 =? SDI_OK) then mret r.1 else
  irq ← load 8 (instance + kbd_irq);
  sdi_irq_unmask irq ;;
  mret SDI_OK.

Definition ps2_keyboard_stop (instance : Z) : ST S Z :=
  if instance =? 0 then mret SDI_ERR_INVAL else
  irq ← load 8 (instance + kbd_irq);
  (if negb (irq =? SDI_NULL_HANDLE) then sdi_irq_unbind irq ;; mret tt else mret tt) ;;
  store 8 (instance + kbd_irq) SDI_NULL_HANDLE ;;
  mret SDI_OK.

Definition ps2_keyboard_detach (instance : Z) : ST S Z :=
  if instance =? 0 then mret SDI_ERR_INVAL else sdi_free (Some instance) ;; mret SDI_OK.

(** The interface gives pointers that are not null. *)
Definition ps2_keyboard_ops : driver_ops E :=
  mk_ops sizeof_driver_ops SDI_ABI_VERSION
    (Some ps2_keyboard_init) None
    (Some (fun info o => r ← ps2_keyboard_probe (Some info) (Some o); mret (r.1, default o r.2)))
    (Some (fun _ old => r ← ps2_keyboard_attach (Some old); mret (r.1, default old r.2)))
    (Some ps2_keyboard_start) (Some ps2_keyboard_stop) None None (Some ps2_keyboard_detach) None.

Definition ps2_keyboard_matches : list match_id := [mk_match SDI_MATCH_SOFT 0 0 0].

(** "ps2-keyboard" *)
Definition ps2_name : cstr := [112; 115; 50; 45; 107; 101; 121; 98; 111; 97; 114; 100; 0].
Definition sdi_driver : driver_desc E :=
  mk_desc sizeof_driver_desc SDI_ABI_VERSION (Some ps2_name) SDI_VERSION_MAJOR
    (Z.lor (Z.lor SDI_CAP_REQUIRED_CORE SDI_CAP_IRQ) SDI_CAP_PIO) 0 (Some ps2_keyboard_matches) 1 (Some ps2_keyboard_ops).

End Ps2.
