(* ===== verification/Ps2Spec.v ===== *)
(** The PS/2 keyboard driver, [Ps2.v]: what it makes of the bytes of the
    keyboard.

    [DriverHost] is what the driver relies on of its host, its ports and its
    memory; the kernel's host promises it ([kernel_driver_host]). [Controller]
    adds the queue of bytes of the keyboard controller and what has been
    logged. [kbd_step] is the state machine of the handler; [text_of] is what
    a sequence of keys types, in terms of the keys that are held.
    [ps2_typing_spec]: one interrupt per byte logs that text. *)
From S2P Require Import Prelude StringLib WordMem Kheap Sdi SdiCalls Irq IrqSpec KheapEnv SdiHost SdiHostSpec Ps2.

(** *** The interfaces *)

Class DriverHost (E : Type) `{!SdiHost E, !DriverMem E} := {
  in8 : Z -> E -> Z * E;
  out8 : Z -> Z -> E -> E;
  mem_fine : E -> Prop;
  in8_range port e : 0 <= (in8 port e).1 < 256;
  in8_mem port e : mem_fine e -> mem_fine (in8 port e).2 /\ forall k a, dm_load k a (in8 port e).2 = dm_load k a e;
  log_mem l c m e : mem_fine e -> mem_fine (host_log l c m e) /\ forall k a, dm_load k a (host_log l c m e) = dm_load k a e;
  store_ok k a v w e : mem_fine e -> dm_load k a e = Ok w -> 0 <= v < 256 ^ Z.of_nat k -> exists e',
    dm_store k a v e = Ok e' /\ mem_fine e' /\ dm_load k a e' = Ok v /\
    forall j b, b + Z.of_nat j <= a \/ a + Z.of_nat k <= b -> dm_load j b e' = dm_load j b e;
  read8_ok stack port s : s_init s = true -> 0 <= port < 2 ^ 16 ->
    sdi_pio_read stack port 8 true s = Ok ((SDI_OK, Some (in8 port (s_env s)).1), set_env (in8 port (s_env s)).2 s);
  write8_ok stack port v s : s_init s = true -> 0 <= port < 2 ^ 16 -> 0 <= v < 256 ->
    sdi_pio_write stack port 8 v s = Ok (SDI_OK, set_env (out8 port v (s_env s)) s);
}.

(** The bytes that wait to be read, and the characters logged. *)
Class Controller (E : Type) `{DriverHost E} := {
  queue : E -> list Z;
  typed : E -> list Z;
  status_in e : (Z.land (in8 PS2_STATUS_PORT e).1 PS2_STATUS_OUTPUT_FULL = 0 <-> queue e = []) /\
    queue (in8 PS2_STATUS_PORT e).2 = queue e /\ typed (in8 PS2_STATUS_PORT e).2 = typed e;
  data_in e c q : queue e = c :: q -> (in8 PS2_DATA_PORT e).1 = c /\ queue (in8 PS2_DATA_PORT e).2 = q /\
    typed (in8 PS2_DATA_PORT e).2 = typed e;
  store_same k a v e e' : dm_store k a v e = Ok e' -> queue e' = queue e /\ typed e' = typed e;
  log_key c e : queue (host_log SDI_LOG_INFO (Some ps2_component) [c; 0] e) = queue e /\
    typed (host_log SDI_LOG_INFO (Some ps2_component) [c; 0] e) = typed e ++ [c];
}.

(** *** The state machine *)

Record kbd := mk_kbd { k_left : bool; k_right : bool; k_ext : bool }.

Definition kbd_step (k : kbd) (code : Z) : kbd * list Z :=
  if decide (code = 0xfa \/ code = 0xfe) then (k, []) else
  if decide (code = 0xe0) then (mk_kbd (k_left k) (k_right k) true, []) else
  let pressed := bool_decide (code < 128) in
  let key := code mod 128 in
  if k_ext k then (mk_kbd (k_left k) (k_right k) false, []) else
  if decide (key = 0x2a) then (mk_kbd pressed (k_right k) false, []) else
  if decide (key = 0x36) then (mk_kbd (k_left k) pressed false, []) else
  (k, if pressed then
        let ch := char_at (if k_left k || k_right k then ps2_shift_keymap else ps2_keymap) key in
        if decide (ch = 0) then [] else [ch]
      else []).

Fixpoint kbd_run (k : kbd) (codes : list Z) : kbd * list Z :=
  match codes with
  | [] => (k, [])
  | c :: codes => let r := kbd_step k c in let r' := kbd_run r.1 codes in (r'.1, r.2 ++ r'.2)
  end.

Lemma kbd_run_app k xs ys : kbd_run k (xs ++ ys) =
  ((kbd_run (kbd_run k xs).1 ys).1, (kbd_run k xs).2 ++ (kbd_run (kbd_run k xs).1 ys).2).
Proof. revert k. induction xs as [|x xs IH]; intros k; [cbn; by destruct (kbd_run k ys)|]. cbn. rewrite IH. cbn. by rewrite app_assoc. Qed.

(** *** Keys *)

(** A key of the main block or an extended one, pressed or released, and a
    byte that answers a command. *)
Inductive key_event := Press (key : Z) | Release (key : Z) | PressExt (key : Z) | ReleaseExt (key : Z) | Answer (resend : bool).

Definition codes_of (ev : key_event) : list Z :=
  match ev with
  | Press k => [k] | Release k => [128 + k] | PressExt k => [0xe0; k] | ReleaseExt k => [0xe0; 128 + k]
  | Answer false => [0xfa] | Answer true => [0xfe]
  end.
(** Released keys whose byte is not one of the three special ones. *)
Definition event_ok (ev : key_event) : Prop :=
  match ev with
  | Press k | PressExt k => 0 <= k < 128
  | Release k | ReleaseExt k => 0 <= k < 128 /\ k ∉ [0x60; 0x7a; 0x7e]
  | Answer _ => True
  end.

Definition shift_keys : gset Z := {[0x2a; 0x36]}.

(** The text of the keys, with the keys that are held. *)
Fixpoint text_of (held : gset Z) (evs : list key_event) : list Z :=
  match evs with
  | [] => []
  | Press k :: evs =>
      (if decide (k ∈ shift_keys) then [] else
       let ch := char_at (if decide (held ∩ shift_keys = ∅) then ps2_keymap else ps2_shift_keymap) k in
       if decide (ch = 0) then [] else [ch]) ++ text_of (held ∪ {[k]}) evs
  | Release k :: evs => text_of (held ∖ {[k]}) evs
  | _ :: evs => text_of held evs
  end.

Definition kbd_of (held : gset Z) : kbd := mk_kbd (bool_decide (0x2a ∈ held)) (bool_decide (0x36 ∈ held)) false.

Lemma shifted held : (if bool_decide (0x2a ∈ held) || bool_decide (0x36 ∈ held) then ps2_shift_keymap else ps2_keymap) =
  (if decide (held ∩ shift_keys = ∅) then ps2_keymap else ps2_shift_keymap).
Proof.
  unfold shift_keys. destruct (decide _) as [He|He].
  - rewrite (bool_decide_false (0x2a ∈ held)) by set_solver. rewrite (bool_decide_false (0x36 ∈ held)) by set_solver. done.
  - assert (0x2a ∈ held \/ 0x36 ∈ held) as [Hi|Hi].
    { destruct (decide (0x2a ∈ held)); [by left|]. destruct (decide (0x36 ∈ held)); [by right|]. destruct He. set_solver. }
    + by rewrite (bool_decide_true _ Hi).
    + rewrite (bool_decide_true (0x36 ∈ held) Hi). by rewrite orb_true_r.
Qed.


Lemma kbd_of_other held X : 0x2a ∉ X -> 0x36 ∉ X -> kbd_of (held ∪ X) = kbd_of held /\ kbd_of (held ∖ X) = kbd_of held.
Proof. intros H1 H2. unfold kbd_of. split; f_equal; apply bool_decide_ext; set_solver. Qed.

Lemma step_code k code : code <> 0xfa -> code <> 0xfe -> code <> 0xe0 -> k_ext k = false -> kbd_step k code =
  (if decide (code mod 128 = 0x2a) then (mk_kbd (bool_decide (code < 128)) (k_right k) false, []) else
   if decide (code mod 128 = 0x36) then (mk_kbd (k_left k) (bool_decide (code < 128)) false, []) else
   (k, if bool_decide (code < 128) then
        let ch := char_at (if k_left k || k_right k then ps2_shift_keymap else ps2_keymap) (code mod 128) in
        if decide (ch = 0) then [] else [ch]
      else [])).
Proof. intros H1 H2 H3 He. unfold kbd_step. rewrite !decide_False by lia. by rewrite He. Qed.

Lemma elem_shift k : k ∈ shift_keys <-> k = 0x2a \/ k = 0x36.
Proof. unfold shift_keys. set_solver. Qed.

Lemma kbd_press held k : 0 <= k < 128 -> kbd_step (kbd_of held) k = (kbd_of (held ∪ {[k]}), text_of held [Press k]).
Proof.
  intros Hk. rewrite step_code by (try lia; done). rewrite Z.mod_small, bool_decide_true by lia. cbn [text_of k_left k_right kbd_of].
  rewrite shifted, app_nil_r. destruct (decide (k ∈ shift_keys)) as [Hs|Hs]; rewrite elem_shift in Hs.
  - destruct (decide (k = 0x2a)) as [->|Ha]; [|destruct (decide (k = 0x36)) as [->|]; [|lia]]; f_equal; unfold kbd_of; f_equal.
    + by rewrite bool_decide_true by set_solver.
    + apply bool_decide_ext. set_solver.
    + apply bool_decide_ext. set_solver.
    + by rewrite bool_decide_true by set_solver.
  - rewrite (decide_False (P := k = 0x2a)), (decide_False (P := k = 0x36)) by lia. f_equal. symmetry. apply kbd_of_other; set_solver.
Qed.

Lemma kbd_release held k : 0 <= k < 128 -> k ∉ [0x60; 0x7a; 0x7e] -> kbd_step (kbd_of held) (128 + k) = (kbd_of (held ∖ {[k]}), []).
Proof.
  intros Hk Hn. rewrite !not_elem_of_cons in Hn. rewrite step_code by (try lia; done).
  replace ((128 + k) mod 128) with k by (rewrite <- (Z.mod_small k 128) at 1 by lia; rewrite <- Z.add_mod_idemp_l by lia; done).
  rewrite bool_decide_false by lia. cbn [k_left k_right kbd_of].
  destruct (decide (k = 0x2a)) as [->|Ha].
  { f_equal. unfold kbd_of. f_equal; [by rewrite bool_decide_false by set_solver|]. apply bool_decide_ext. set_solver. }
  destruct (decide (k = 0x36)) as [->|Hb].
  { f_equal. unfold kbd_of. f_equal; [|by rewrite bool_decide_false by set_solver]. apply bool_decide_ext. set_solver. }
  f_equal. symmetry. apply kbd_of_other; set_solver.
Qed.

Lemma kbd_extended_key held code : code <> 0xfa -> code <> 0xfe -> code <> 0xe0 -> kbd_run (kbd_of held) [0xe0; code] = (kbd_of held, []).
Proof. intros H1 H2 H3. cbn [kbd_run]. unfold kbd_step at 3 4. cbn. unfold kbd_step. rewrite !decide_False by lia. done. Qed.

Lemma step_answer k (b : bool) : kbd_step k (if b then 0xfe else 0xfa) = (k, []).
Proof. by destruct b. Qed.

Lemma kbd_events evs : forall held, Forall event_ok evs -> exists held',
  kbd_run (kbd_of held) (evs ≫= codes_of) = (kbd_of held', text_of held evs).
Proof.
  induction evs as [|ev evs IH]; intros held Hev; [by exists held|]. apply Forall_cons in Hev as [He Hev].
  rewrite bind_cons, kbd_run_app.
  destruct ev as [k|k|k|k|[]]; cbn [event_ok codes_of] in *; rewrite ?not_elem_of_cons in He.
  - destruct (IH (held ∪ {[k]}) Hev) as [held' Hr]. exists held'. cbn [kbd_run]. rewrite kbd_press by done. cbn [fst snd].
    rewrite Hr. cbn [fst snd text_of]. by rewrite !app_nil_r.
  - destruct (IH (held ∖ {[k]}) Hev) as [held' Hr]. exists held'. cbn [kbd_run].
    rewrite kbd_release by (rewrite ?not_elem_of_cons; tauto || lia). cbn [fst snd]. rewrite Hr. done.
  - destruct (IH held Hev) as [held' Hr]. exists held'. rewrite kbd_extended_key by lia. cbn [fst snd]. rewrite Hr. done.
  - destruct (IH held Hev) as [held' Hr]. exists held'. rewrite kbd_extended_key by lia. cbn [fst snd]. rewrite Hr. done.
  - destruct (IH held Hev) as [held' Hr]. exists held'. cbn [kbd_run]. rewrite (step_answer _ true). cbn [fst snd]. rewrite Hr. done.
  - destruct (IH held Hev) as [held' Hr]. exists held'. cbn [kbd_run]. rewrite (step_answer _ false). cbn [fst snd]. rewrite Hr. done.
Qed.

(** ** The handler *)

Section handler.
Context {E : Type} `{Controller E} (stack : Z).
Abbreviation S := (sdi E).

(** The keyboard structure at [a], a flag in each of three words. *)
Inductive flag := Left | Right | Extended.
Definition offset (f : flag) : Z := match f with Left => kbd_left_shift | Right => kbd_right_shift | Extended => kbd_extended end.
Definition get_flag (f : flag) (k : kbd) : bool := match f with Left => k_left k | Right => k_right k | Extended => k_ext k end.
Definition set_flag (f : flag) (b : bool) (k : kbd) : kbd :=
  match f with
  | Left => mk_kbd b (k_right k) (k_ext k) | Right => mk_kbd (k_left k) b (k_ext k) | Extended => mk_kbd (k_left k) (k_right k) b
  end.
Definition kbd_rep (a : Z) (k : kbd) (e : E) : Prop :=
  mem_fine e /\ forall f, dm_load 4 (a + offset f) e = Ok (bool_int (get_flag f k)).

Lemma rep_frame a k e e' : kbd_rep a k e -> mem_fine e' -> (forall j b, dm_load j b e' = dm_load j b e) -> kbd_rep a k e'.
Proof. intros [_ Hr] Hf He. split; [done|]. intros f. by rewrite He. Qed.

(** What changes nothing but the memory. *)
Definition kept (e e' : E) : Prop := queue e' = queue e /\ typed e' = typed e.

Lemma bool_int_range b : 0 <= bool_int b < 256 ^ Z.of_nat 4.
Proof. by destruct b. Qed.
Lemma bool_int_zero b : (bool_int b =? 0) = negb b.
Proof. by destruct b. Qed.

Lemma load_st k a s v : dm_load k a (s_env s) = Ok v -> load k a s = Ok (v, s).
Proof. intros Hl. unfold load. by rewrite Hl. Qed.

Lemma store_flag f a k s b : kbd_rep a k (s_env s) -> exists e', store 4 (a + offset f) (bool_int b) s = Ok (tt, set_env e' s) /\
  kbd_rep a (set_flag f b k) e' /\ kept (s_env s) e'.
Proof.
  intros [H1 Hr]. destruct (store_ok 4 _ (bool_int b) _ _ H1 (Hr f) (bool_int_range b)) as (e' & Hs & Hf & Hl & Hfr).
  exists e'. unfold store. rewrite Hs. split; [done|]. split; [|exact (store_same _ _ _ _ _ Hs)]. split; [done|]. intros g.
  assert (g = f \/ offset g + 4 <= offset f \/ offset f + 4 <= offset g) as [->|Hd] by (destruct g, f; cbn; unfold kbd_left_shift, kbd_right_shift, kbd_extended; auto; lia).
  - rewrite Hl. by destruct f.
  - rewrite Hfr by lia. rewrite Hr. by destruct f, g; try (exfalso; cbn in Hd; unfold kbd_left_shift, kbd_right_shift, kbd_extended in Hd; lia).
Qed.

Lemma log_key_ok a k s c : s_init s = true -> kbd_rep a k (s_env s) -> exists e', ps2_log_key c s = Ok (tt, set_env e' s) /\
  kbd_rep a k e' /\ queue e' = queue (s_env s) /\ typed e' = typed (s_env s) ++ [c].
Proof.
  intros Hi Hr. eexists. split.
  - unfold ps2_log_key, sdi_log, sdi_require_init_. unfold mbind, st_bind, gets. rewrite Hi. reflexivity.
  - destruct (log_key c (s_env s)) as [Hq Ht]. destruct (log_mem SDI_LOG_INFO (Some ps2_component) [c; 0] _ (proj1 Hr)) as [Hf Hm].
    split; [by eapply rep_frame|done].
Qed.

Lemma read_u8_ok port s : s_init s = true -> 0 <= port < 2 ^ 16 ->
  ps2_read_u8 stack port s = Ok ((SDI_OK, Some (in8 port (s_env s)).1), set_env (in8 port (s_env s)).2 s).
Proof.
  intros Hi Hp. unfold ps2_read_u8. rewrite (st_bind_ok _ _ _ _ _ (read8_ok stack port s Hi Hp)). cbn [fst snd negb Z.eqb SDI_OK].
  rewrite (lift_bind (deref (Some _)) _ _ _ eq_refl). unfold u8. rewrite Z.mod_small by apply in8_range. done.
Qed.

(** *** The body of the handler: the code without its top bit, and the bit *)

Lemma low_seven c : 0 <= c < 256 -> Z.land c 0x7f = c mod 128 /\ negb (Z.land c 0x80 =? 0) = negb (bool_decide (c < 128)).
Proof.
  intros Hc. split; [by apply (Z.land_ones c 7)|]. change 0x80 with (2 ^ 7). change (negb (Z.land c (2 ^ 7) =? 0)) with (has_bits c (2 ^ 7)).
  rewrite has_bits_pow2 by lia. rewrite Z.testbit_eqb by lia. case_bool_decide.
  - rewrite Z.div_small by lia. done.
  - assert (c / 2 ^ 7 = 1) as -> by (symmetry; apply (Z.div_unique c 128 1 (c - 128)); lia). done.
Qed.

(** The step of a key that is not shift, not extended. *)
Lemma plain_key a k s c pressed : s_init s = true -> kbd_rep a k (s_env s) -> k_ext k = false ->
  let ch := char_at (if k_left k || k_right k then ps2_shift_keymap else ps2_keymap) c in
  exists e', (if pressed && (bool_int (k_ext k) =? 0) then
     left ← load 4 (a + kbd_left_shift);
     right ← (if negb (left =? 0) then mret 1 else load 4 (a + kbd_right_shift));
     let ch := if negb (left =? 0) || negb (right =? 0) then char_at ps2_shift_keymap c else char_at ps2_keymap c in
     if negb (ch =? 0) then ps2_log_key ch else mret tt
   else mret tt) s = Ok (tt, set_env e' s) /\ kbd_rep a k e' /\ queue e' = queue (s_env s) /\
   typed e' = typed (s_env s) ++ (if pressed : bool then if decide (ch = 0) then [] else [ch] else []).
Proof.
  intros Hi Hr He ch. rewrite He. cbn [bool_int Z.eqb]. rewrite andb_true_r.
  assert (Hid : set_env (s_env s) s = s) by (by destruct s). destruct pressed; [|exists (s_env s); rewrite app_nil_r, Hid; done].
  rewrite (st_bind_ok _ _ _ _ _ (load_st _ _ s _ (proj2 Hr Left))), bool_int_zero, negb_involutive. cbn [get_flag].
  assert (Hrt : exists r, (if k_left k then mret 1 else load 4 (a + kbd_right_shift)) s = Ok (r, s) /\
    (if k_left k || negb (r =? 0) then char_at ps2_shift_keymap c else char_at ps2_keymap c) = ch).
  { destruct (k_left k) eqn:Hl; [by exists 1; subst ch|]. exists (bool_int (k_right k)).
    split; [apply load_st, (proj2 Hr Right)|]. subst ch. rewrite bool_int_zero, negb_involutive. by destruct (k_right k). }
  destruct Hrt as (r & Hr1 & Hch). rewrite (st_bind_ok _ _ _ _ _ Hr1). cbv zeta. rewrite Hch.
  destruct (Z.eqb_spec ch 0) as [Hz|Hz]; cbn [negb].
  - rewrite decide_True by done. exists (s_env s). rewrite app_nil_r, Hid. done.
  - rewrite decide_False by done. by apply log_key_ok.
Qed.

Lemma take_code_ok a k c s : s_init s = true -> kbd_rep a k (s_env s) -> 0 <= c < 256 ->
  exists e', ps2_take_code a c s = Ok (SDI_OK, set_env e' s) /\ kbd_rep a (kbd_step k c).1 e' /\
    queue e' = queue (s_env s) /\ typed e' = typed (s_env s) ++ (kbd_step k c).2.
Proof.
  intros Hi Hr Hc. unfold ps2_take_code, kbd_step. assert (Hid : set_env (s_env s) s = s) by (by destruct s).
  destruct (decide (c = 0xfa \/ c = 0xfe)) as [Ha|Ha].
  { exists (s_env s). rewrite Hid, app_nil_r. by destruct Ha as [-> | ->]. }
  rewrite (proj2 (Z.eqb_neq c 0xfa)), (proj2 (Z.eqb_neq c 0xfe)) by lia. cbn [orb].
  destruct (decide (c = 0xe0)) as [He0|He0].
  { subst c. cbn [Z.eqb Pos.eqb]. destruct (store_flag Extended a k s true Hr) as (e' & Hs & Hr' & Hq & Ht). exists e'.
    cbn [offset bool_int] in Hs. rewrite (st_bind_ok _ _ _ _ _ Hs), app_nil_r. done. }
  rewrite (proj2 (Z.eqb_neq c 0xe0)) by done. destruct (low_seven c Hc) as [-> ->]. cbv zeta. rewrite negb_involutive.
  rewrite (st_bind_ok _ _ _ _ _ (load_st _ _ s _ (proj2 Hr Extended))). cbn [get_flag]. set (pressed := bool_decide (c < 128)).
  match goal with |- exists e', (?body ;; _) s = _ /\ _ => enough (Hb : exists k1 out e1, body s = Ok (tt, set_env e1 s) /\ kbd_rep a k1 e1 /\
    queue e1 = queue (s_env s) /\ typed e1 = typed (s_env s) ++ out /\
    (set_flag Extended false k1, out) = (if k_ext k then (mk_kbd (k_left k) (k_right k) false, []) else
      if decide (c mod 128 = 0x2a) then (mk_kbd pressed (k_right k) false, []) else
      if decide (c mod 128 = 0x36) then (mk_kbd (k_left k) pressed false, []) else
      (k, if pressed then let ch := char_at (if k_left k || k_right k then ps2_shift_keymap else ps2_keymap) (c mod 128) in
            if decide (ch = 0) then [] else [ch] else []))) end.
  { destruct Hb as (k1 & out & e1 & H1 & Hr1 & Hq1 & Ht1 & Hk). rewrite (st_bind_ok _ _ _ _ _ H1).
    destruct (store_flag Extended a k1 (set_env e1 s) false Hr1) as (e2 & H2 & Hr2 & Hq2 & Ht2).
    cbn [offset bool_int] in H2. rewrite (st_bind_ok _ _ _ _ _ H2). exists e2. cbv zeta in Hk. cbn [s_env set_env] in *.
    rewrite <- Hk. cbn [fst snd]. split; [done|]. split; [done|]. split; congruence. }
  rewrite bool_int_zero. destruct (k_ext k) eqn:Hext; cbn [negb andb].
  { rewrite andb_false_r. exists k, [], (s_env s). rewrite Hid, app_nil_r. done. }
  destruct (decide (c mod 128 = 0x2a)) as [->|H2a].
  { cbn [Z.eqb Pos.eqb]. destruct (store_flag Left a k s pressed Hr) as (e1 & Hs & Hr1 & Hq & Ht).
    exists (set_flag Left pressed k), [], e1. rewrite app_nil_r. done. }
  rewrite (proj2 (Z.eqb_neq _ 0x2a)) by done. destruct (decide (c mod 128 = 0x36)) as [->|H36].
  { cbn [Z.eqb Pos.eqb]. destruct (store_flag Right a k s pressed Hr) as (e1 & Hs & Hr1 & Hq & Ht).
    exists (set_flag Right pressed k), [], e1. rewrite app_nil_r. done. }
  rewrite (proj2 (Z.eqb_neq _ 0x36)) by done.
  destruct (plain_key a k s (c mod 128) pressed Hi Hr Hext) as (e1 & H1 & Hr1 & Hq1 & Ht1).
  rewrite bool_int_zero, Hext in H1. eexists k, _, e1. split; [exact H1|]. split; [done|]. split; [done|]. split; [exact Ht1|].
  destruct k; cbn in Hext; subst; done.
Qed.

(** One interrupt: the next byte, if there is one, moves the state machine. *)
Lemma keyboard_irq_ok a k irq s : a <> 0 -> s_init s = true -> kbd_rep a k (s_env s) -> Forall (fun c => 0 <= c < 256) (queue (s_env s)) ->
  exists e', ps2_keyboard_irq stack a irq s = Ok (SDI_OK, set_env e' s) /\
  match queue (s_env s) with
  | [] => kbd_rep a k e' /\ queue e' = [] /\ typed e' = typed (s_env s)
  | c :: q => kbd_rep a (kbd_step k c).1 e' /\ queue e' = q /\ typed e' = typed (s_env s) ++ (kbd_step k c).2
  end.
Proof.
  intros Ha Hi Hr Hf. unfold ps2_keyboard_irq. rewrite (proj2 (Z.eqb_neq _ _)) by done.
  rewrite (st_bind_ok _ _ _ _ _ (read_u8_ok PS2_STATUS_PORT s Hi ltac:(unfold PS2_STATUS_PORT; lia))). cbn [fst snd negb Z.eqb SDI_OK].
  rewrite (lift_bind (deref (Some _)) _ _ _ eq_refl). destruct (status_in (s_env s)) as (Hst & Hq1 & Ht1).
  set (e1 := (in8 PS2_STATUS_PORT (s_env s)).2) in *.
  assert (Hr1 : kbd_rep a k e1) by (destruct (in8_mem PS2_STATUS_PORT _ (proj1 Hr)); by eapply rep_frame).
  destruct (queue (s_env s)) as [|c q] eqn:Hq.
  { rewrite (proj2 Hst) by done. cbn [Z.eqb]. exists e1. done. }
  rewrite (proj2 (Z.eqb_neq _ 0)) by (intros Hz; by apply Hst in Hz).
  rewrite (st_bind_ok _ _ _ _ _ (read_u8_ok PS2_DATA_PORT (set_env e1 s) Hi ltac:(unfold PS2_DATA_PORT; lia))). cbn [fst snd negb Z.eqb SDI_OK s_env set_env].
  destruct (data_in e1 c q Hq1) as (-> & Hq2 & Ht2). set (e2 := (in8 PS2_DATA_PORT e1).2) in *.
  rewrite (lift_bind (deref (Some _)) _ _ _ eq_refl).
  assert (Hr2 : kbd_rep a k e2) by (destruct (in8_mem PS2_DATA_PORT _ (proj1 Hr1)); by eapply rep_frame).
  apply Forall_cons in Hf as [Hc _].
  destruct (take_code_ok a k c (set_env e2 (set_env e1 s)) Hi Hr2 Hc) as (e3 & H3 & Hr3 & Hq3 & Ht3).
  exists e3. split; [exact H3|]. cbn [s_env set_env] in *. split; [done|]. split; congruence.
Qed.

Fixpoint irqs (n : nat) (a irq : Z) : ST S unit :=
  match n with O => mret tt | Datatypes.S n => ps2_keyboard_irq stack a irq ;; irqs n a irq end.

Lemma irqs_ok a irq codes : forall k s, a <> 0 -> s_init s = true -> kbd_rep a k (s_env s) -> queue (s_env s) = codes ->
  Forall (fun c => 0 <= c < 256) codes ->
  exists e', irqs (length codes) a irq s = Ok (tt, set_env e' s) /\ kbd_rep a (kbd_run k codes).1 e' /\ queue e' = [] /\
    typed e' = typed (s_env s) ++ (kbd_run k codes).2.
Proof.
  induction codes as [|c codes IH]; intros k s Ha Hi Hr Hq Hf.
  { exists (s_env s). rewrite app_nil_r. split; [by destruct s|done]. }
  destruct (keyboard_irq_ok a k irq s Ha Hi Hr ltac:(by rewrite Hq)) as (e1 & H1 & Hrest). rewrite Hq in Hrest.
  destruct Hrest as (Hr1 & Hq1 & Ht1). apply Forall_cons in Hf as [_ Hf]. cbn [length irqs]. rewrite (st_bind_ok _ _ _ _ _ H1).
  destruct (IH _ (set_env e1 s) Ha Hi Hr1 Hq1 Hf) as (e2 & H2 & Hr2 & Hq2 & Ht2). exists e2. split; [exact H2|].
  split; [exact Hr2|]. split; [exact Hq2|]. cbn [s_env set_env] in Ht2. rewrite Ht2, Ht1, <- app_assoc. done.
Qed.

Lemma codes_range evs : Forall event_ok evs -> Forall (fun c => 0 <= c < 256) (evs ≫= codes_of).
Proof.
  induction 1 as [|ev evs He _ IH]; [constructor|]. rewrite bind_cons. apply Forall_app. split; [|exact IH].
  destruct ev as [k|k|k|k|[]]; cbn in *; repeat constructor; lia.
Qed.

(** C36: typing. With no shift key held and no prefix pending, let the bytes of
    any sequence of keys wait in the controller: main and extended keys,
    pressed and released in any order, between them answers to commands. One
    interrupt per byte empties the queue, every one of them succeeds, and what
    is logged is exactly the text of the keys: a character for each main key
    that has one, taken from the shifted map when either shift key is held. An
    interrupt without a byte, before or after, changes nothing. *)
Theorem ps2_typing_spec a irq evs s : a <> 0 -> s_init s = true -> kbd_rep a (mk_kbd false false false) (s_env s) ->
  queue (s_env s) = evs ≫= codes_of -> Forall event_ok evs ->
  exists k e', irqs (length (evs ≫= codes_of)) a irq s = Ok (tt, set_env e' s) /\
    queue e' = [] /\ typed e' = typed (s_env s) ++ text_of ∅ evs /\ kbd_rep a k e' /\ k_ext k = false /\
    exists e'', ps2_keyboard_irq stack a irq (set_env e' s) = Ok (SDI_OK, set_env e'' s) /\ kbd_rep a k e'' /\ typed e'' = typed e'.
Proof.
  intros Ha Hi Hr Hq Hev. destruct (irqs_ok a irq _ _ s Ha Hi Hr Hq (codes_range _ Hev)) as (e' & H1 & Hr' & Hq' & Ht').
  destruct (kbd_events evs ∅ Hev) as [held Hrun].
  change (kbd_of ∅) with (mk_kbd false false false) in Hrun. rewrite Hrun in Hr', Ht'. cbn [fst snd] in *.
  exists (kbd_of held), e'. split; [exact H1|]. split; [done|]. split; [done|]. split; [done|]. split; [done|].
  destruct (keyboard_irq_ok a _ irq (set_env e' s) Ha Hi Hr') as (e2 & H2 & Hrest); [cbn; by rewrite Hq'|].
  cbn [s_env set_env] in Hrest. rewrite Hq' in Hrest. exists e2. split; [exact H2|]. split; apply Hrest.
Qed.
End handler.

(** ** Polling *)

Section polling.
Context {E : Type} `{DriverHost E} (stack : Z).
Abbreviation S := (sdi E).

(** The host after [n] reads of the status port, and what the next one gives. *)
Fixpoint polled (n : nat) (e : E) : E :=
  match n with O => e | Datatypes.S n => polled n (in8 PS2_STATUS_PORT e).2 end.
Definition status_after (n : nat) (e : E) : Z := (in8 PS2_STATUS_PORT (polled n e)).1.

Lemma read_status_ok s : s_init s = true ->
  ps2_read_u8 stack PS2_STATUS_PORT s = Ok ((SDI_OK, Some (in8 PS2_STATUS_PORT (s_env s)).1), set_env (in8 PS2_STATUS_PORT (s_env s)).2 s).
Proof.
  intros Hi. unfold ps2_read_u8. rewrite (st_bind_ok _ _ _ _ _ (read8_ok stack PS2_STATUS_PORT s Hi ltac:(unfold PS2_STATUS_PORT; lia))).
  cbn [fst snd negb Z.eqb SDI_OK]. rewrite (lift_bind (deref (Some _)) _ _ _ eq_refl). unfold u8. rewrite Z.mod_small by apply in8_range. done.
Qed.

Lemma wait_loop_ok stop n : forall s, s_init s = true ->
  (exists i, (i < n)%nat /\ (forall j, (j < i)%nat -> stop (status_after j (s_env s)) = false) /\ stop (status_after i (s_env s)) = true /\
    wait_loop stack n stop s = Ok (true, set_env (polled (Datatypes.S i) (s_env s)) s)) \/
  ((forall j, (j < n)%nat -> stop (status_after j (s_env s)) = false) /\
    wait_loop stack n stop s = Ok (false, set_env (polled n (s_env s)) s)).
Proof.
  induction n as [|n IH]; intros s Hi.
  { right. split; [lia|]. by destruct s. }
  cbn [wait_loop]. rewrite (st_bind_ok _ _ _ _ _ (read_status_ok s Hi)). cbn [fst snd negb Z.eqb SDI_OK].
  rewrite (lift_bind (deref (Some _)) _ _ _ eq_refl). set (e1 := (in8 PS2_STATUS_PORT (s_env s)).2).
  destruct (stop (in8 PS2_STATUS_PORT (s_env s)).1) eqn:Hs.
  { left. exists 0%nat. split; [lia|]. split; [lia|]. done. }
  destruct (IH (set_env e1 s) Hi) as [(i & Hlt & Hf & Ht & Hr)|(Hf & Hr)]; [left; exists (Datatypes.S i); split; [lia|]|right].
  - split; [|split; [exact Ht|exact Hr]]. intros [|j] Hj; [exact Hs|]. apply (Hf j). lia.
  - split; [|exact Hr]. intros [|j] Hj; [exact Hs|]. apply (Hf j). lia.
Qed.

Definition input_full (status : Z) : bool := has_bits status PS2_STATUS_INPUT_FULL.

(** A write to the controller. The driver polls the status port until the
    input buffer is empty, writes the byte once, right after the first such
    poll, and succeeds; a controller that stays busy for the hundred thousand
    polls gets nothing written and the driver [SDI_ERR_TIMEOUT]. One of the two
    happens whatever the controller does. *)
Theorem ps2_write_u8_spec port v s : s_init s = true -> 0 <= port < 2 ^ 16 -> 0 <= v < 256 ->
  let e := s_env s in
  (exists i, Z.of_nat i < 100000 /\ (forall j, (j < i)%nat -> input_full (status_after j e) = true) /\
    input_full (status_after i e) = false /\
    ps2_write_u8 stack port v s = Ok (SDI_OK, set_env (out8 port v (polled (Datatypes.S i) e)) s)) \/
  ((forall j, Z.of_nat j < 100000 -> input_full (status_after j e) = true) /\
    ps2_write_u8 stack port v s = Ok (SDI_ERR_TIMEOUT, set_env (polled (Z.to_nat 100000) e) s)).
Proof.
  intros Hi Hp Hv e. unfold ps2_write_u8, ps2_wait_input_clear, input_full, has_bits.
  destruct (wait_loop_ok (fun st => Z.land st PS2_STATUS_INPUT_FULL =? 0) POLL_LIMIT s Hi) as [(i & Hlt & Hf & Ht & Hr)|(Hf & Hr)]; cbn beta in *; subst e; [left; exists i|right].
  - split; [unfold POLL_LIMIT in Hlt; lia|]. split; [intros j Hj; by rewrite (Hf j Hj)|]. split; [by rewrite Ht|].
    rewrite (st_bind_ok _ _ _ _ _ Hr). cbn [negb]. by rewrite write8_ok.
  - split; [intros j Hj; rewrite Hf; [done|unfold POLL_LIMIT; lia]|]. by rewrite (st_bind_ok _ _ _ _ _ Hr).
Qed.
End polling.

(** ** The kernel's host *)

Lemma load_le_mapped k m : forall a w, load_le k m a = Ok w -> mapped m a (Z.of_nat k).
Proof.
  induction k as [|k IH]; intros a w Hl x Hx; [lia|]. cbn [load_le] in Hl. unfold load8 in Hl.
  destruct (m !! a) as [b|] eqn:Hb; [|done]. cbn in Hl. destruct (load_le k m (a + 1)) as [r| | |] eqn:Hr; [|done..].
  destruct (decide (x = a)) as [->|Hne]; [by exists b|]. apply (IH _ _ Hr). lia.
Qed.

Section kernel.
Context {D P : Type} `{!Mmio D, !Machine P}.
Context (hhdm_offset caches_at irq_dispatch_fn : Z).
(** Documented of [in]: a value of the width. *)
Context (ports_ok : forall w p m, pio_width w -> 0 <= (port_in w p m).1 < 2 ^ w).
Abbreviation H := (host D P).
#[local] Existing Instance khost.

(** The host of the kernel keeps what the driver relies on. *)
Lemma kernel_driver_host : @DriverHost H (khost hhdm_offset caches_at irq_dispatch_fn) kernel_driver_mem.
Proof.
  refine {| in8 := fun port h => ((port_in 8 port (h_machine h)).1, set_machine (port_in 8 port (h_machine h)).2 h);
            out8 := fun port v h => set_machine (port_out 8 port v (h_machine h)) h;
            mem_fine := fun h => mem_ok (kh_mem (h_heap h)) |}.
  - intros port h. apply (ports_ok 8). by left.
  - done.
  - done.
  - intros k a v w h Hok Hl Hv. cbn in *.
    destruct (store_le_wrote k (kh_mem (h_heap h)) a v Hok (load_le_mapped _ _ _ _ Hl) Hv) as (m' & Hs & Hw).
    eexists. rewrite Hs. split; [reflexivity|]. cbn. split; [apply Hw|]. split; [apply Hw|].
    intros j b Hd. apply load_le_frame. intros x Hx. apply Hw. lia.
  - intros stack port s Hi Hp. destruct (sdi_pio_spec hhdm_offset caches_at irq_dispatch_fn stack s port 8 0 Hi Hp) as [Hr _]; [lia..|done|].
    apply Hr. by left.
  - intros stack port v s Hi Hp Hv. destruct (sdi_pio_spec hhdm_offset caches_at irq_dispatch_fn stack s port 8 v Hi Hp) as (_ & Hw & _); [lia..|done|].
    rewrite Hw by (by left). by rewrite Z.mod_small by lia.
Defined.

(** A machine with the controller of the keyboard: the status port shows
    whether a byte waits, the data port gives the next one. *)
Class KeyboardMachine := {
  pm_queue : P -> list Z;
  pm_typed : P -> list Z;
  pm_status m : (Z.land (port_in 8 PS2_STATUS_PORT m).1 PS2_STATUS_OUTPUT_FULL = 0 <-> pm_queue m = []) /\
    pm_queue (port_in 8 PS2_STATUS_PORT m).2 = pm_queue m /\ pm_typed (port_in 8 PS2_STATUS_PORT m).2 = pm_typed m;
  pm_data m c q : pm_queue m = c :: q -> (port_in 8 PS2_DATA_PORT m).1 = c /\ pm_queue (port_in 8 PS2_DATA_PORT m).2 = q /\
    pm_typed (port_in 8 PS2_DATA_PORT m).2 = pm_typed m;
  pm_log c m : pm_queue (log_line l_info ps2_component [c; 0] m) = pm_queue m /\
    pm_typed (log_line l_info ps2_component [c; 0] m) = pm_typed m ++ [c];
}.

Lemma kernel_controller `{!KeyboardMachine} :
  @Controller H (khost hhdm_offset caches_at irq_dispatch_fn) kernel_driver_mem kernel_driver_host.
Proof.
  refine (Build_Controller H _ _ kernel_driver_host (fun h => pm_queue (h_machine h)) (fun h => pm_typed (h_machine h)) _ _ _ _).
  - intros h. apply pm_status.
  - intros h c q Hq. by apply pm_data.
  - intros k a v h h' Hs. cbn in Hs. destruct (store_le k a v _); [|done..]. cbn in Hs. by injection Hs as <-.
  - intros c h. apply (pm_log c (h_machine h)).
Defined.
End kernel.

(** ** A machine *)

#[local] Existing Instance demo_mmio.
Record ps2_machine := mk_machine { waiting : list Z; logged : list Z }.
#[local] Instance demo_ps2 : Machine ps2_machine := {|
  port_in := fun width port m =>
    if port =? PS2_STATUS_PORT then (match waiting m with [] => 0 | _ => 1 end, m)
    else match waiting m with [] => (0, m) | c :: q => (c mod 2 ^ 8 mod 2 ^ width, mk_machine q (logged m)) end;
  port_out := fun _ _ _ m => m;
  time_uptime_us := fun m => (0, m);
  log_line := fun _ _ msg m => mk_machine (waiting m) (logged m ++ take 1 msg);
|}.

Lemma demo_ports w p m : pio_width w -> 0 <= (port_in w p m).1 < 2 ^ w.
Proof.
  intros Hw. assert (0 < w) as H0 by (destruct Hw as [->|[->| ->]]; lia). assert (2 ^ 1 <= 2 ^ w) by (apply Z.pow_le_mono_r; lia).
  cbn. destruct (p =? PS2_STATUS_PORT), (waiting m); cbn [fst]; try lia. apply Z.mod_pos_bound. lia.
Qed.

#[local] Instance demo_keyboard : KeyboardMachine (P := ps2_machine).
Proof.
  refine {| pm_queue := fun m => (fun c => c mod 2 ^ 8) <$> waiting m; pm_typed := logged |}.
  - intros m. cbn. split; [|done]. destruct (waiting m); cbn; [done|]. split; discriminate.
  - intros m c q Hq. cbn. destruct (waiting m) as [|x l]; [discriminate Hq|]. cbn in Hq. injection Hq as <- <-.
    split; [by rewrite Z.mod_mod|done].
  - done.
Defined.

Definition demo_struct : Z := 0x5000.
Definition demo_ps2_sdi (codes : list Z) : sdi (host demo_dev ps2_machine) :=
  mk_sdi (kernel_table 1 2 3 4 5) [] 0 0 1 true
    (mk_host (set_mem (list_to_map (zip (seqZ demo_struct 24) (replicate 24 0))) demo_cold) (replicate 16 no_binding) demo_irqs (mk_machine codes []) None).

Lemma demo_struct_ok : mem_ok (list_to_map (zip (seqZ demo_struct 24) (replicate 24 0))).
Proof. intros x b Hb. apply elem_of_list_to_map_2, elem_of_zip_r, elem_of_replicate in Hb as [-> _]. unfold is_byte. lia. Qed.

(** "Hi" with the left shift key, then an arrow key. *)
Definition demo_keys : list key_event :=
  [Press 0x2a; Press 0x23; Release 0x23; Release 0x2a; Answer false; Press 0x17; Release 0x17; PressExt 0x4b; ReleaseExt 0x4b].

Lemma demo_text : text_of ∅ demo_keys = [72; 105].
Proof. vm_compute. reflexivity. Qed.

Lemma ps2_typing_spec_witness :
  let E := khost (D := demo_dev) (P := ps2_machine) 0 0 7 in
  exists e', irqs (SdiHost0 := E) 0 (length (demo_keys ≫= codes_of)) demo_struct 2 (demo_ps2_sdi (demo_keys ≫= codes_of)) =
    Ok (tt, set_env e' (demo_ps2_sdi (demo_keys ≫= codes_of))) /\ logged (h_machine e') = [72; 105].
Proof.
  intros E. pose (C := kernel_controller (D := demo_dev) (P := ps2_machine) 0 0 7 demo_ports).
  destruct (@ps2_typing_spec _ _ _ _ C 0 demo_struct 2 demo_keys (demo_ps2_sdi (demo_keys ≫= codes_of))) as (k & e' & H1 & _ & H2 & _).
  - unfold demo_struct. lia.
  - reflexivity.
  - split; [|intros []; vm_compute; reflexivity].
    exact demo_struct_ok.
  - vm_compute. reflexivity.
  - unfold demo_keys. repeat constructor; cbn; rewrite ?not_elem_of_cons; repeat split; try lia; apply not_elem_of_nil.
  - exists e'. split; [exact H1|]. rewrite demo_text in H2. exact H2.
Defined.

(** The demo controller is never busy: the first poll is enough. *)
Lemma ps2_write_u8_spec_witness :
  let E := khost (D := demo_dev) (P := ps2_machine) 0 0 7 in
  exists s', ps2_write_u8 (SdiHost0 := E) 0 PS2_DATA_PORT PS2_DEV_ENABLE_SCANNING (demo_ps2_sdi []) = Ok (SDI_OK, s').
Proof.
  intros E. pose (C := kernel_driver_host (D := demo_dev) (P := ps2_machine) 0 0 7 demo_ports).
  destruct (@ps2_write_u8_spec _ _ _ C 0 PS2_DATA_PORT PS2_DEV_ENABLE_SCANNING (demo_ps2_sdi [])) as [(i & _ & _ & _ & Hr)|(Hf & _)].
  - reflexivity.
  - unfold PS2_DATA_PORT. lia.
  - unfold PS2_DEV_ENABLE_SCANNING. lia.
  - eexists. exact Hr.
  - specialize (Hf 0%nat ltac:(lia)). discriminate Hf.
Defined.
