(* ===== verification/Elf.v ===== *)
(** The driver loader, [kernel/src/sdi/elf.c], up to the symbols: a relocatable
    ELF file in memory is checked, its sections are laid out in a block of the
    heap and copied there, and its relocations are applied.

    The file, the arrays of the loader and the loaded module are bytes of the
    heap's memory; the module's pages are mapped through the page tables. A
    structure of the file is read field by field at its offsets (the structures
    have no padding). Where the strings and the functions of the export table
    are in the kernel image is a parameter. *)
From S2P Require Import Prelude StringLib WordMem Dll Pfndb Pmm Kheap Paging KheapPages.

(** ** Constants *)

Definition ELFMAG0 : Z := 0x7f.
Definition ELFMAG1 : Z := 69.
Definition ELFMAG2 : Z := 76.
Definition ELFMAG3 : Z := 70.
Definition ELFCLASS64 : Z := 2.
Definition ELFDATA2LSB : Z := 1.
Definition EV_CURRENT : Z := 1.
Definition ET_REL : Z := 1.
Definition EM_X86_64 : Z := 62.
Definition SHT_SYMTAB : Z := 2.
Definition SHT_STRTAB : Z := 3.
Definition SHT_RELA : Z := 4.
Definition SHT_NOBITS : Z := 8.
Definition SHF_ALLOC : Z := 0x2.
Definition SHN_UNDEF : Z := 0.
Definition SHN_ABS : Z := 0xfff1.
Definition R_X86_64_NONE : Z := 0.
Definition R_X86_64_64 : Z := 1.
Definition R_X86_64_PC32 : Z := 2.
Definition R_X86_64_PLT32 : Z := 4.
Definition R_X86_64_32 : Z := 10.
Definition R_X86_64_32S : Z := 11.
Definition sizeof_ehdr : Z := 64.
Definition sizeof_shdr : Z := 64.
Definition sizeof_sym : Z := 24.
Definition sizeof_rela : Z := 24.

Definition ELF64_R_SYM (info : Z) : Z := u32 (Z.shiftr info 32).
Definition ELF64_R_TYPE (info : Z) : Z := u32 info.

(** ** Data: the fields that the loader uses *)

Record shdr := mk_shdr {
  sh_type : Z; sh_flags : Z; sh_offset : Z; sh_size : Z; sh_link : Z; sh_info : Z; sh_addralign : Z; sh_entsize : Z;
}.
Record sym := mk_sym { st_name : Z; st_shndx : Z; st_value : Z }.
(** The addend is kept as the 64 bits of the file. *)
Record rela := mk_rela { r_offset : Z; r_info : Z; r_addend : Z }.

Record context := mk_ctx {
  cx_image : Z;
  cx_size : Z;
  cx_sections : Z;
  cx_bases : Z;      (* section_bases *)
  cx_offsets : Z;    (* section_offsets *)
  cx_module : Z;     (* module_base *)
  cx_msize : Z;      (* module_size *)
}.
Definition set_arrays (bases offsets : Z) (c : context) : context :=
  mk_ctx (cx_image c) (cx_size c) (cx_sections c) bases offsets (cx_module c) (cx_msize c).
Definition set_module (base size : Z) (c : context) : context :=
  mk_ctx (cx_image c) (cx_size c) (cx_sections c) (cx_bases c) (cx_offsets c) base size.

Definition sdi_elf_export_names : list string :=
  ["sdi_alloc"; "sdi_attach_driver"; "sdi_call"; "sdi_class_register"; "sdi_class_unregister"; "sdi_detach_driver";
   "sdi_dma_alloc"; "sdi_dma_free"; "sdi_find_driver"; "sdi_free"; "sdi_get_driver_at"; "sdi_get_driver_count";
   "sdi_get_info"; "sdi_get_resource"; "sdi_irq_ack"; "sdi_irq_bind"; "sdi_irq_mask"; "sdi_irq_unbind"; "sdi_irq_unmask";
   "sdi_is_initialized"; "sdi_log"; "sdi_mmio_barrier"; "sdi_mmio_map"; "sdi_mmio_read"; "sdi_mmio_unmap";
   "sdi_mmio_write"; "sdi_now_ns"; "sdi_pio_read"; "sdi_pio_write"; "sdi_probe_driver"; "sdi_register_driver";
   "sdi_remove_driver"; "sdi_resume_driver"; "sdi_start_driver"; "sdi_stop_driver"; "sdi_suspend_driver";
   "sdi_unregister_driver"]%string.

(** ** Arithmetic *)

Definition sdi_elf_range_ok (image_size offset size : Z) : bool :=
  (offset <=? image_size) && (size <=? image_size - offset).

(** The result with the sum in [*out]. *)
Definition sdi_elf_u64_add_ok (a b : Z) : bool * Z := let out := u64 (a + b) in (a <=? out, out).

Definition sdi_elf_align_up (value align : Z) : Z :=
  if align <=? 1 then value else Z.land (u64 (u64 (value + align) - 1)) (not64 (align - 1)).

Definition sdi_elf_is_power_of_two (value : Z) : bool := negb (value =? 0) && (Z.land value (value - 1) =? 0).

Definition sdi_elf_fits_i32 (value : Z) : bool := (- 2 ^ 31 <=? value) && (value <=? 2 ^ 31 - 1).

Section elf.
Context (hhdm_offset caches_at : Z) (kernel_vas : option vas).
(** The addresses of the strings and of the functions of the kernel image. *)
Context (str_at fn_at : string -> Z).
Abbreviation M := (machine kheap).

(** *** Access to memory *)

Definition memory (s : M) : mem := kh_mem (m_src s).
Definition rd (k : nat) (a : Z) : ST M Z := fun s =>
  match load_le k (memory s) a with Ok v => Ok (v, s) | _ => Fault end.
Fixpoint rd_bytes (n : nat) (a : Z) : ST M (list Z) :=
  match n with O => mret [] | S n => b ← rd 1 a; l ← rd_bytes n (a + 1); mret (b :: l) end.
Definition wr (k : nat) (a v : Z) : ST M unit := on_src (on_mem (store_le k a v)).

Definition read_shdr (a : Z) : ST M shdr :=
  type ← rd 4 (a + 4); flags ← rd 8 (a + 8); offset ← rd 8 (a + 24); size ← rd 8 (a + 32);
  link ← rd 4 (a + 40); info ← rd 4 (a + 44); align ← rd 8 (a + 48); entsize ← rd 8 (a + 56);
  mret (mk_shdr type flags offset size link info align entsize).
Definition read_sym (a : Z) : ST M sym :=
  name ← rd 4 a; shndx ← rd 2 (a + 6); value ← rd 8 (a + 8); mret (mk_sym name shndx value).
Definition read_rela (a : Z) : ST M rela :=
  offset ← rd 8 a; info ← rd 8 (a + 8); addend ← rd 8 (a + 16); mret (mk_rela offset info addend).

Definition e_shnum (c : context) : ST M Z := rd 2 (cx_image c + 60).
Definition section_at (c : context) (i : Z) : ST M shdr := read_shdr (cx_sections c + sizeof_shdr * i).

(** The string routines, on a memory of so many bytes. *)
Definition c_strlen (s : Z) : ST M Z := fun st => st_lift (strlen (size (memory st)) (memory st) s) st.
Definition c_memcmp (a b n : Z) : ST M Z := fun st => st_lift (memcmp a b n (memory st)) st.

Definition sdi_elf_string_equal (lhs rhs : ptr) : ST M bool :=
  match lhs, rhs with
  | Some lhs, Some rhs =>
      lhs_len ← c_strlen lhs;
      rhs_len ← c_strlen rhs;
      if negb (lhs_len =? rhs_len) then mret false else
      r ← c_memcmp lhs rhs lhs_len;
      mret (r =? 0)
  | _, _ => mret false
  end.

Definition sdi_elf_string_ends_with (str suffix : ptr) : ST M bool :=
  match str, suffix with
  | Some a, Some b =>
      str_len ← c_strlen a;
      suffix_len ← c_strlen b;
      if str_len <? suffix_len then mret false else
      sdi_elf_string_equal (Some (a + str_len - suffix_len)) suffix
  | _, _ => mret false
  end.

Definition sdi_elf_exports : list (Z * Z) := (fun n => (str_at n, fn_at n)) <$> sdi_elf_export_names.

Fixpoint export_loop (l : list (Z * Z)) (name : ptr) : ST M (option Z) :=
  match l with
  | [] => mret None
  | (s, v) :: l =>
      eq ← sdi_elf_string_equal name (Some s);
      if eq : bool then mret (Some v) else export_loop l name
  end.
Definition sdi_elf_resolve_export (name : ptr) : ST M (option Z) := export_loop sdi_elf_exports name.

(** *** The header *)

Definition sdi_elf_validate_header (image image_size : Z) : ST M bool :=
  if negb (sdi_elf_range_ok image_size 0 sizeof_ehdr) then mret false else
  magic ← rd_bytes 4 image;
  if negb (bool_decide (magic = [ELFMAG0; ELFMAG1; ELFMAG2; ELFMAG3])) then mret false else
  ident ← rd_bytes 3 (image + 4);
  if negb (bool_decide (ident = [ELFCLASS64; ELFDATA2LSB; EV_CURRENT])) then mret false else
  e_type ← rd 2 (image + 16);
  e_machine ← rd 2 (image + 18);
  e_version ← rd 4 (image + 20);
  if negb (e_type =? ET_REL) || negb (e_machine =? EM_X86_64) || negb (e_version =? EV_CURRENT) then mret false else
  e_ehsize ← rd 2 (image + 52);
  e_shentsize ← rd 2 (image + 58);
  e_shnum ← rd 2 (image + 60);
  if (e_ehsize <? sizeof_ehdr) || negb (e_shentsize =? sizeof_shdr) || (e_shnum =? 0) then mret false else
  let '(ok, section_bytes) := sdi_elf_u64_add_ok 0 (u64 (e_shnum * e_shentsize)) in
  if negb ok then mret false else
  e_shoff ← rd 8 (image + 40);
  mret (sdi_elf_range_ok image_size e_shoff section_bytes).

(** *** The sections *)

(** The loop that gives every loaded section its offset; returns the total size
    and the largest alignment, [None] for the early return. *)
Fixpoint layout_loop (fuel : nat) (c : context) (i total max_align : Z) : ST M (option (Z * Z)) :=
  match fuel with
  | O => st_timeout
  | S fuel =>
      n ← e_shnum c;
      if negb (i <? n) then mret (Some (total, max_align)) else
      sec ← section_at c i;
      let align := if sh_addralign sec =? 0 then 1 else sh_addralign sec in
      if negb (has_bits (sh_flags sec) SHF_ALLOC) then layout_loop fuel c (u16 (i + 1)) total max_align else
      if negb (sdi_elf_is_power_of_two align) || (PAGE_SIZE <? align) then mret None else
      if negb (sh_type sec =? SHT_NOBITS) && negb (sdi_elf_range_ok (cx_size c) (sh_offset sec) (sh_size sec))
      then mret None else
      let total := sdi_elf_align_up total align in
      wr 8 (cx_offsets c + 8 * i) total ;;
      let '(ok, total) := sdi_elf_u64_add_ok total (sh_size sec) in
      if negb ok then mret None else
      layout_loop fuel c (u16 (i + 1)) total (if max_align <? align then align else max_align)
  end.

(** The loop that copies the sections. *)
Fixpoint copy_sections (fuel : nat) (c : context) (i : Z) : ST M unit :=
  match fuel with
  | O => st_timeout
  | S fuel =>
      n ← e_shnum c;
      if negb (i <? n) then mret tt else
      sec ← section_at c i;
      if negb (has_bits (sh_flags sec) SHF_ALLOC) then copy_sections fuel c (u16 (i + 1)) else
      off ← rd 8 (cx_offsets c + 8 * i);
      let base := u64 (cx_module c + off) in
      wr 8 (cx_bases c + 8 * i) base ;;
      (if negb (sh_type sec =? SHT_NOBITS) && negb (sh_size sec =? 0)
       then on_src (on_mem (memcpy base (cx_image c + sh_offset sec) (sh_size sec)))
       else mret tt) ;;
      copy_sections fuel c (u16 (i + 1))
  end.

(** The index is a [uint16_t]. *)
Definition section_fuel : nat := Z.to_nat 65536.

(** [None] is the return value -1. *)
Definition sdi_elf_prepare_sections (c : context) : ST M (option context) :=
  n ← e_shnum c;
  bases ← on_src (kzalloc hhdm_offset caches_at (8 * n));
  n ← e_shnum c;
  offsets ← on_src (kzalloc hhdm_offset caches_at (8 * n));
  match bases, offsets with
  | Some bases, Some offsets =>
      let c := set_arrays bases offsets c in
      l ← layout_loop section_fuel c 0 0 1;
      match l with
      | None => mret None
      | Some (total, max_align) =>
          if total =? 0 then mret None else
          raw ← on_src (kmalloc hhdm_offset caches_at (u64 (u64 (total + max_align) - 1)));
          match raw with
          | None => mret None
          | Some raw =>
              let base := sdi_elf_align_up raw max_align in
              let c := set_module base total c in
              on_src (on_mem (memset base 0 total)) ;;
              let first := PAGE_ALIGN_DOWN base in
              rc ← paging_map_range kernel_vas first (VIRT_TO_PHYS hhdm_offset first)
                     (u64 (PAGE_ALIGN_UP (u64 (base + total)) - first))
                     (Z.lor (Z.lor Pte.PAGE_PRESENT Pte.PAGE_WRITE) Pte.PAGE_GLOBAL);
              if negb (rc =? 0) then mret None else
              copy_sections section_fuel c 0 ;;
              mret (Some c)
          end
      end
  | _, _ => mret None
  end.

(** *** Symbols *)

Definition sdi_elf_symbol_name (c : context) (symtab : shdr) (symbol : sym) : ST M ptr :=
  n ← e_shnum c;
  if n <=? sh_link symtab then mret None else
  strtab ← section_at c (sh_link symtab);
  if negb (sh_type strtab =? SHT_STRTAB) || (sh_size strtab <=? st_name symbol) ||
     negb (sdi_elf_range_ok (cx_size c) (sh_offset strtab) (sh_size strtab))
  then mret None else mret (Some (cx_image c + sh_offset strtab + st_name symbol)).

(** [None] is the return value -1. *)
Definition sdi_elf_symbol_value (c : context) (symtab : shdr) (symbol : sym) : ST M (option Z) :=
  if st_shndx symbol =? SHN_ABS then mret (Some (st_value symbol)) else
  if st_shndx symbol =? SHN_UNDEF then
    name ← sdi_elf_symbol_name c symtab symbol;
    match name with
    | Some _ => sdi_elf_resolve_export name
    | None => mret None
    end
  else
    n ← e_shnum c;
    if n <=? st_shndx symbol then mret None else
    base ← rd 8 (cx_bases c + 8 * st_shndx symbol);
    if base =? 0 then mret None else mret (Some (u64 (base + st_value symbol))).

(** *** Relocations *)

Definition sdi_elf_apply_relocation (target type symbol_value addend place : Z) : ST M Z :=
  if type =? R_X86_64_NONE then mret 0 else
  if type =? R_X86_64_64 then wr 8 target (u64 (symbol_value + addend)) ;; mret 0 else
  if (type =? R_X86_64_PC32) || (type =? R_X86_64_PLT32) then
    let relative := i64 (u64 (symbol_value + addend) - place) in
    if negb (sdi_elf_fits_i32 relative) then mret (-1) else wr 4 target (u32 relative) ;; mret 0
  else
  if type =? R_X86_64_32 then
    let value64 := u64 (symbol_value + addend) in
    if 2 ^ 32 - 1 <? value64 then mret (-1) else wr 4 target (u32 value64) ;; mret 0
  else
  if type =? R_X86_64_32S then
    let relative := i64 (symbol_value + addend) in
    if negb (sdi_elf_fits_i32 relative) then mret (-1) else wr 4 target (u32 relative) ;; mret 0
  else mret (-1).

(** The relocations of the section [relsec] from number [r] on. *)
Fixpoint reloc_loop (n : nat) (c : context) (relsec symtab : shdr) (r : Z) : ST M Z :=
  match n with
  | O => mret 0
  | S n =>
      reloc ← read_rela (cx_image c + sh_offset relsec + sizeof_rela * r);
      let sym_index := ELF64_R_SYM (r_info reloc) in
      let type := ELF64_R_TYPE (r_info reloc) in
      if sh_size symtab / sizeof_sym <=? sym_index then mret (-1) else
      info ← section_at c (sh_info relsec);
      if sh_size info <=? r_offset reloc then mret (-1) else
      base ← rd 8 (cx_bases c + 8 * sh_info relsec);
      let target := u64 (base + r_offset reloc) in
      symbol ← read_sym (cx_image c + sh_offset symtab + sizeof_sym * sym_index);
      value ← sdi_elf_symbol_value c symtab symbol;
      match value with
      | None => mret (-1)
      | Some value =>
          st ← sdi_elf_apply_relocation target type value (r_addend reloc) target;
          if negb (st =? 0) then mret (-1) else reloc_loop n c relsec symtab (r + 1)
      end
  end.

(** One section of relocations; [None] goes on with the next section, the
    [continue] of the loop and the end of its body. *)
Definition reloc_section (c : context) (relsec : shdr) : ST M (option Z) :=
  if negb (sh_type relsec =? SHT_RELA) then mret None else
  n ← e_shnum c;
  if (n <=? sh_link relsec) || (n <=? sh_info relsec) then mret (Some (-1)) else
  if negb (sh_entsize relsec =? sizeof_rela) || negb (sh_size relsec mod sizeof_rela =? 0) then mret (Some (-1)) else
  base ← rd 8 (cx_bases c + 8 * sh_info relsec);
  if base =? 0 then mret None else
  if negb (sdi_elf_range_ok (cx_size c) (sh_offset relsec) (sh_size relsec)) then mret (Some (-1)) else
  symtab ← section_at c (sh_link relsec);
  if negb (sh_type symtab =? SHT_SYMTAB) || negb (sh_entsize symtab =? sizeof_sym) ||
     negb (sdi_elf_range_ok (cx_size c) (sh_offset symtab) (sh_size symtab)) then mret (Some (-1)) else
  st ← reloc_loop (Z.to_nat (sh_size relsec / sizeof_rela)) c relsec symtab 0;
  mret (if negb (st =? 0) then Some (-1) else None).

Fixpoint relocations_loop (fuel : nat) (c : context) (i : Z) : ST M Z :=
  match fuel with
  | O => st_timeout
  | S fuel =>
      n ← e_shnum c;
      if negb (i <? n) then mret 0 else
      relsec ← section_at c i;
      r ← reloc_section c relsec;
      match r with Some st => mret st | None => relocations_loop fuel c (u16 (i + 1)) end
  end.
Definition sdi_elf_apply_relocations (c : context) : ST M Z := relocations_loop section_fuel c 0.

(** *** The symbol of the driver *)

(** The symbols of a table from number [s] on; [None] is the end of the loop,
    [Some v] a return with the value or without one. *)
Fixpoint find_in_table (n : nat) (c : context) (symtab : shdr) (s : Z) (name : Z) : ST M (option (option Z)) :=
  match n with
  | O => mret None
  | S n =>
      symbol ← read_sym (cx_image c + sh_offset symtab + sizeof_sym * s);
      symbol_name ← sdi_elf_symbol_name c symtab symbol;
      eq ← sdi_elf_string_equal symbol_name (Some name);
      if eq : bool then v ← sdi_elf_symbol_value c symtab symbol; mret (Some v)
      else find_in_table n c symtab (s + 1) name
  end.

Fixpoint find_symbol_loop (fuel : nat) (c : context) (i name : Z) : ST M (option Z) :=
  match fuel with
  | O => st_timeout
  | S fuel =>
      n ← e_shnum c;
      if negb (i <? n) then mret None else
      symtab ← section_at c i;
      if negb (sh_type symtab =? SHT_SYMTAB) then find_symbol_loop fuel c (u16 (i + 1)) name else
      if negb (sh_entsize symtab =? sizeof_sym) ||
         negb (sdi_elf_range_ok (cx_size c) (sh_offset symtab) (sh_size symtab)) then mret None else
      r ← find_in_table (Z.to_nat (sh_size symtab / sizeof_sym)) c symtab 0 name;
      match r with Some v => mret v | None => find_symbol_loop fuel c (u16 (i + 1)) name end
  end.
Definition sdi_elf_find_loaded_symbol (c : context) (name : Z) : ST M (option Z) :=
  find_symbol_loop section_fuel c 0 name.

(** *** The whole image, up to the driver's descriptor *)

Definition load_image (image image_size : Z) : ST M (option Z) :=
  ok ← sdi_elf_validate_header image image_size;
  if negb (ok : bool) then mret None else
  e_shoff ← rd 8 (image + 40);
  c ← sdi_elf_prepare_sections (mk_ctx image image_size (image + e_shoff) 0 0 0 0);
  match c with
  | None => mret None
  | Some c =>
      st ← sdi_elf_apply_relocations c;
      if negb (st =? 0) then mret None else sdi_elf_find_loaded_symbol c (str_at "sdi_driver")
  end.
End elf.
