(* ===== verification/ElfSpec.v ===== *)
(** What the driver loader of [kernel/src/sdi/elf.c] reads and writes: the file
    as a list of bytes, the check of its header, single relocations, and the
    places of the sections. *)
From S2P Require Import Prelude StringLib WordMem Dll Pfndb Pmm Kheap Paging KheapPages Elf.

(** ** The file as bytes *)

(** The bytes [img] are in memory at [a]. *)
Definition holds (m : mem) (a : Z) (img : list Z) : Prop :=
  forall i b, img !! i = Some b -> m !! (a + Z.of_nat i) = Some b.

(** The little-endian field of [k] bytes at an offset. *)
Definition fld (k : nat) (off : Z) (img : list Z) : Z := le_word (take k (drop (Z.to_nat off) img)).

Definition shdr_of (img : list Z) (off : Z) : shdr :=
  mk_shdr (fld 4 (off + 4) img) (fld 8 (off + 8) img) (fld 8 (off + 24) img) (fld 8 (off + 32) img)
    (fld 4 (off + 40) img) (fld 4 (off + 44) img) (fld 8 (off + 48) img) (fld 8 (off + 56) img).

Definition shnum (img : list Z) : Z := fld 2 60 img.
Definition shoff (img : list Z) : Z := fld 8 40 img.
Definition section_of (img : list Z) (i : Z) : shdr := shdr_of img (shoff img + 64 * i).

(** A relocatable file for this machine whose section headers are all in it. *)
Definition header_ok (img : list Z) : Prop :=
  64 <= Z.of_nat (length img) /\ take 7 img = [0x7f; 69; 76; 70; 2; 1; 1] /\
  fld 2 16 img = 1 /\ fld 2 18 img = 62 /\ fld 4 20 img = 1 /\
  64 <= fld 2 52 img /\ fld 2 58 img = 64 /\ 1 <= shnum img /\ shoff img + 64 * shnum img <= Z.of_nat (length img).
#[export] Instance header_ok_dec img : Decision (header_ok img).
Proof. unfold header_ok. apply _. Defined.

Lemma image_frame m m' a img : (forall x, a <= x < a + Z.of_nat (length img) -> m' !! x = m !! x) ->
  holds m a img -> holds m' a img.
Proof. intros He Hh i b Hi. rewrite He; [by apply Hh|]. apply lookup_lt_Some in Hi. lia. Qed.

Lemma le_word_lt l : Forall is_byte l -> 0 <= le_word l < 256 ^ Z.of_nat (length l).
Proof.
  induction 1 as [|b l Hb _ IH]; [done|]. cbn [length le_word foldr]. change (foldr _ 0 l) with (le_word l).
  rewrite Nat2Z.inj_succ, Z.pow_succ_r by lia. unfold is_byte in Hb. lia.
Qed.

Section file.
Context (img : list Z) (Hb : Forall is_byte img).

Lemma fld_range k off : 0 <= fld k off img < 256 ^ Z.of_nat k.
Proof.
  pose proof (le_word_lt (take k (drop (Z.to_nat off) img))) as Hr. rewrite length_take in Hr.
  destruct Hr as [? Hlt]; [by apply Forall_take, Forall_drop|]. split; [done|].
  eapply Z.lt_le_trans; [exact Hlt|]. apply Z.pow_le_mono_r; lia.
Qed.

Lemma shnum_range : 0 <= shnum img < 65536.
Proof. apply (fld_range 2). Qed.

Lemma shoff_range : 0 <= shoff img < 2 ^ 64.
Proof. apply (fld_range 8). Qed.
End file.

Section reads.
Abbreviation M := (machine kheap).
Context (img : list Z) (a : Z) (s : M) (Hh : holds (memory s) a img).

Lemma rd_ok k off : 0 <= off -> off + Z.of_nat k <= Z.of_nat (length img) -> rd k (a + off) s = Ok (fld k off img, s).
Proof.
  intros Ho Hk. unfold rd, fld.
  assert (length (take k (drop (Z.to_nat off) img)) = k) as Hl by (rewrite length_take, length_drop; lia).
  rewrite <- Hl at 1. rewrite (load_le_bytes (take k (drop (Z.to_nat off) img))); [done|].
  intros i b Hi. apply lookup_take_Some in Hi as [Hi _]. rewrite lookup_drop in Hi.
  replace (a + off + Z.of_nat i) with (a + Z.of_nat (Z.to_nat off + i)) by lia. by apply Hh.
Qed.

Lemma rd_at k x off : x = a + off -> 0 <= off -> off + Z.of_nat k <= Z.of_nat (length img) -> rd k x s = Ok (fld k off img, s).
Proof. intros ->. apply rd_ok. Qed.

Lemma rd_bytes_ok n : forall off, (off + n <= length img)%nat -> rd_bytes n (a + Z.of_nat off) s = Ok (take n (drop off img), s).
Proof.
  induction n as [|n IH]; intros off Hn; [done|]. cbn [rd_bytes].
  destruct (lookup_lt_is_Some_2 img off) as [b Hb]; [lia|].
  rewrite (st_bind_ok _ _ _ b s).
  - replace (a + Z.of_nat off + 1) with (a + Z.of_nat (off + 1)) by lia.
    rewrite (st_bind_ok _ _ _ _ _ (IH (off + 1)%nat ltac:(lia))). rewrite (drop_S _ b off Hb). by rewrite Nat.add_1_r.
  - unfold rd. cbn [load_le]. rewrite (load8_ok _ _ b) by by apply Hh. cbn. do 2 f_equal. lia.
Qed.

Lemma read_shdr_ok off : 0 <= off -> off + 64 <= Z.of_nat (length img) ->
  read_shdr (a + off) s = Ok (shdr_of img off, s).
Proof.
  intros Ho Hl. unfold read_shdr.
  rewrite (st_bind_ok _ _ _ _ _ (rd_at 4 (a + off + 4) (off + 4) ltac:(lia) ltac:(lia) ltac:(lia))).
  rewrite (st_bind_ok _ _ _ _ _ (rd_at 8 (a + off + 8) (off + 8) ltac:(lia) ltac:(lia) ltac:(lia))).
  rewrite (st_bind_ok _ _ _ _ _ (rd_at 8 (a + off + 24) (off + 24) ltac:(lia) ltac:(lia) ltac:(lia))).
  rewrite (st_bind_ok _ _ _ _ _ (rd_at 8 (a + off + 32) (off + 32) ltac:(lia) ltac:(lia) ltac:(lia))).
  rewrite (st_bind_ok _ _ _ _ _ (rd_at 4 (a + off + 40) (off + 40) ltac:(lia) ltac:(lia) ltac:(lia))).
  rewrite (st_bind_ok _ _ _ _ _ (rd_at 4 (a + off + 44) (off + 44) ltac:(lia) ltac:(lia) ltac:(lia))).
  rewrite (st_bind_ok _ _ _ _ _ (rd_at 8 (a + off + 48) (off + 48) ltac:(lia) ltac:(lia) ltac:(lia))).
  by rewrite (st_bind_ok _ _ _ _ _ (rd_at 8 (a + off + 56) (off + 56) ltac:(lia) ltac:(lia) ltac:(lia))).
Qed.

Lemma e_shnum_ok c : cx_image c = a -> 64 <= Z.of_nat (length img) -> e_shnum c s = Ok (shnum img, s).
Proof. intros Ha Hl. unfold e_shnum. rewrite Ha. apply rd_ok; lia. Qed.

Lemma section_at_ok c i : cx_image c = a -> cx_sections c = a + shoff img -> Forall is_byte img -> header_ok img ->
  0 <= i < shnum img -> section_at c i s = Ok (section_of img i, s).
Proof.
  intros Ha Hs Hb Hok Hi. unfold section_at, sizeof_shdr. rewrite Hs. rewrite <- Z.add_assoc.
  pose proof (shoff_range _ Hb). destruct Hok as (_ & _ & _ & _ & _ & _ & _ & _ & Hend).
  apply read_shdr_ok; lia.
Qed.

Lemma range_ok_iff n off size : 0 <= off -> 0 <= size -> sdi_elf_range_ok n off size = bool_decide (off + size <= n).
Proof.
  intros Ho Hs. unfold sdi_elf_range_ok. apply eq_bool_prop_intro. rewrite bool_decide_spec, andb_True, !Is_true_true, !Z.leb_le. lia.
Qed.

(** *** The header *)

Lemma validate_ok : Forall is_byte img -> Z.of_nat (length img) < 2 ^ 64 ->
  sdi_elf_validate_header a (Z.of_nat (length img)) s = Ok (bool_decide (header_ok img), s).
Proof.
  intros Hb Hlen. unfold sdi_elf_validate_header, sizeof_ehdr, sizeof_shdr. rewrite range_ok_iff by lia.
  case_bool_decide as H0; cbn [negb]; [|rewrite bool_decide_false; [done|]; unfold header_ok; intros []; lia].
  assert (64 <= length img)%nat as Hl by lia.
  pose proof (rd_bytes_ok 4 0 ltac:(lia)) as R4. rewrite Z.add_0_r, drop_0 in R4. rewrite (st_bind_ok _ _ _ _ _ R4).
  assert (take 7 img = take 4 img ++ take 3 (drop 4 img)) as Esplit by exact (eq_sym (take_take_drop img 4 3)).
  unfold ELFMAG0, ELFMAG1, ELFMAG2, ELFMAG3, ELFCLASS64, ELFDATA2LSB, EV_CURRENT, ET_REL, EM_X86_64.
  case_bool_decide as H1; cbn [negb]; [|rewrite bool_decide_false; [done|]; unfold header_ok; intros (_ & E & _); apply H1].
  2:{ change 4%nat with (Nat.min 4 7). rewrite <- take_take, E. done. }
  rewrite (st_bind_ok _ _ _ _ _ (rd_bytes_ok 3 4 ltac:(lia))).
  case_bool_decide as H2; cbn [negb]; [|rewrite bool_decide_false; [done|]; unfold header_ok; intros (_ & E & _); apply H2].
  2:{ rewrite take_drop_commute. exact (f_equal (drop 4) E). }
  rewrite H1, H2 in Esplit. cbn [app] in Esplit.
  rewrite (st_bind_ok _ _ _ _ _ (rd_ok 2 16 ltac:(lia) ltac:(lia))), (st_bind_ok _ _ _ _ _ (rd_ok 2 18 ltac:(lia) ltac:(lia))).
  rewrite (st_bind_ok _ _ _ _ _ (rd_ok 4 20 ltac:(lia) ltac:(lia))).
  destruct (Z.eqb_spec (fld 2 16 img) 1); cbn [negb orb]; [|rewrite bool_decide_false; [done|]; unfold header_ok; naive_solver].
  destruct (Z.eqb_spec (fld 2 18 img) 62); cbn [negb orb]; [|rewrite bool_decide_false; [done|]; unfold header_ok; naive_solver].
  destruct (Z.eqb_spec (fld 4 20 img) 1); cbn [negb orb]; [|rewrite bool_decide_false; [done|]; unfold header_ok; naive_solver].
  rewrite (st_bind_ok _ _ _ _ _ (rd_ok 2 52 ltac:(lia) ltac:(lia))), (st_bind_ok _ _ _ _ _ (rd_ok 2 58 ltac:(lia) ltac:(lia))).
  rewrite (st_bind_ok _ _ _ _ _ (rd_ok 2 60 ltac:(lia) ltac:(lia))). fold (shnum img).
  pose proof (shnum_range _ Hb). pose proof (shoff_range _ Hb).
  destruct (Z.ltb_spec (fld 2 52 img) 64); cbn [negb orb]; [rewrite bool_decide_false; [done|]; unfold header_ok; intuition lia|].
  destruct (Z.eqb_spec (fld 2 58 img) 64) as [E58|]; cbn [negb orb]; [|rewrite bool_decide_false; [done|]; unfold header_ok; naive_solver].
  destruct (Z.eqb_spec (shnum img) 0); cbn [negb orb]; [rewrite bool_decide_false; [done|]; unfold header_ok; intuition lia|].
  rewrite E58. rewrite (u64_small (shnum img * 64)) by lia. unfold sdi_elf_u64_add_ok. rewrite u64_small by lia.
  destruct (Z.leb_spec 0 (0 + shnum img * 64)); [|lia]. cbn [negb].
  rewrite (st_bind_ok _ _ _ _ _ (rd_ok 8 40 ltac:(lia) ltac:(lia))). fold (shoff img). rewrite range_ok_iff by lia.
  unfold mret, st_ret. do 2 f_equal. apply bool_decide_ext. unfold header_ok. intuition lia.
Qed.
End reads.

(** The check of a file. For any bytes of any length, [sdi_elf_validate_header]
    reads nothing outside the file, changes nothing, and accepts exactly the
    64-bit little-endian relocatable files for x86-64 that have sections and
    whose table of section headers lies inside the file. *)
Theorem sdi_elf_header_spec (s : machine kheap) a img : holds (memory s) a img -> Forall is_byte img ->
  Z.of_nat (length img) < 2 ^ 64 ->
  sdi_elf_validate_header a (Z.of_nat (length img)) s = Ok (bool_decide (header_ok img), s).
Proof. intros Hh. by apply validate_ok. Qed.

(** ** Relocations *)

(** What the value [d], stored at the place [p] as the relocation's type says, is
    for: the address [s] plus the addend [ad]. *)
Definition relocated (type s ad p d : Z) : Prop :=
  (type = R_X86_64_64 /\ 0 <= d < 2 ^ 64 /\ d = u64 (s + ad)) \/
  ((type = R_X86_64_PC32 \/ type = R_X86_64_PLT32) /\ - 2 ^ 31 <= d < 2 ^ 31 /\ u64 (p + d) = u64 (s + ad)) \/
  (type = R_X86_64_32 /\ 0 <= d < 2 ^ 32 /\ d = u64 (s + ad)) \/
  (type = R_X86_64_32S /\ - 2 ^ 31 <= d < 2 ^ 31 /\ u64 d = u64 (s + ad)).

Definition reloc_width (type : Z) : nat :=
  if type =? R_X86_64_NONE then 0 else if type =? R_X86_64_64 then 8 else 4.

(** The stored bytes as a value: the 32-bit types but one are sign-extended. *)
Definition as_stored (type w : Z) : Z :=
  if (type =? R_X86_64_64) || (type =? R_X86_64_32) then w else i32 w.

Lemma i64_of x d k : x = d + k * 2 ^ 64 -> - 2 ^ 63 <= d < 2 ^ 63 -> i64 x = d.
Proof.
  intros -> Hd. unfold i64. replace (d + k * 2 ^ 64 + 2 ^ 63) with (d + 2 ^ 63 + k * 2 ^ 64) by lia.
  rewrite Z.mod_add, Z.mod_small by lia. lia.
Qed.

Lemma i64_eq x : exists k, i64 x = x + k * 2 ^ 64.
Proof.
  exists (- ((x + 2 ^ 63) / 2 ^ 64)). unfold i64. pose proof (Z.div_mod (x + 2 ^ 63) (2 ^ 64) ltac:(done)). lia.
Qed.

Lemma u64_eq x y : u64 x = u64 y <-> exists k, x = y + k * 2 ^ 64.
Proof.
  unfold u64. split.
  - intros E. exists (x / 2 ^ 64 - y / 2 ^ 64).
    pose proof (Z.div_mod x (2 ^ 64) ltac:(done)). pose proof (Z.div_mod y (2 ^ 64) ltac:(done)). lia.
  - intros [k ->]. by rewrite Z.mod_add.
Qed.

Lemma i32_u32 d : - 2 ^ 31 <= d < 2 ^ 31 -> i32 (u32 d) = d.
Proof.
  intros Hd. unfold i32, u32. rewrite Zplus_mod_idemp_l, Z.mod_small by lia. lia.
Qed.

Lemma fits_iff v : sdi_elf_fits_i32 v = bool_decide (- 2 ^ 31 <= v < 2 ^ 31).
Proof.
  unfold sdi_elf_fits_i32. apply eq_bool_prop_intro. rewrite bool_decide_spec, andb_True, !Is_true_true, !Z.leb_le. lia.
Qed.

(** A difference that fits reaches its target, and only it does. *)
Lemma pc_reach x p d : - 2 ^ 31 <= d < 2 ^ 31 -> i64 (u64 x - p) = d <-> u64 (p + d) = u64 x.
Proof.
  intros Hd. rewrite u64_eq. destruct (proj1 (u64_eq (u64 x) x)) as [j Ej].
  { unfold u64. by rewrite Z.mod_mod. }
  split.
  - intros <-. destruct (i64_eq (u64 x - p)) as [k ->]. exists (j + k). lia.
  - intros [k Ek]. apply (i64_of _ _ (j - k)); lia.
Qed.

Definition set_memory (m : mem) (s : machine kheap) : machine kheap :=
  mk_mach (m_ram s) (m_tables s) (m_cr3 s) (set_mem m (m_src s)).

Lemma set_memory_id s : set_memory (memory s) s = s.
Proof. destruct s as [r t c [? ? ? ? ? ?]]. done. Qed.

Lemma wr_ok (s : machine kheap) k a v : mem_ok (memory s) -> mapped (memory s) a (Z.of_nat k) -> 0 <= v < 256 ^ Z.of_nat k ->
  exists m', wr k a v s = Ok (tt, set_memory m' s) /\ wrote (memory s) a k v m'.
Proof.
  intros Hok Hm Hv. destruct (store_le_wrote k (memory s) a v Hok Hm Hv) as (m' & Hr & Hw).
  exists m'. split; [|done]. unfold wr, on_src, on_mem. fold (memory s). by rewrite Hr.
Qed.

(** What a relocation leaves behind. *)
Definition patched (m : mem) (a type sym ad p : Z) (rc : Z) (m' : mem) : Prop :=
  (rc = -1 /\ m' = m /\ type <> R_X86_64_NONE /\ forall d, ~ relocated type sym ad p d) \/
  (rc = 0 /\ mem_ok m' /\ (forall x, is_Some (m' !! x) <-> is_Some (m !! x)) /\
   (forall x, ~ a <= x < a + Z.of_nat (reloc_width type) -> m' !! x = m !! x) /\
   (type = R_X86_64_NONE \/
    exists w, load_le (reloc_width type) m' a = Ok w /\ relocated type sym ad p (as_stored type w))).

Lemma relocation_writes (s : machine kheap) a type sym ad p d v :
  mem_ok (memory s) -> mapped (memory s) a (Z.of_nat (reloc_width type)) ->
  0 <= v < 256 ^ Z.of_nat (reloc_width type) -> as_stored type v = d -> relocated type sym ad p d ->
  exists m', (wr (reloc_width type) a v ;; mret 0) s = Ok (0, set_memory m' s) /\ patched (memory s) a type sym ad p 0 m'.
Proof.
  intros Hok Hm Hv Hd Hr. destruct (wr_ok s _ a v Hok Hm Hv) as (m' & Hw & [Hl Hf Hok' Hdom]).
  exists m'. split; [by eapply st_bind_eq|]. right. do 4 (split; [done|]). right. exists v. by rewrite Hd.
Qed.

Lemma relocation_fails (s : machine kheap) a type sym ad p : type <> R_X86_64_NONE -> (forall d, ~ relocated type sym ad p d) ->
  exists m', mret (M := ST (machine kheap)) (-1) s = Ok (-1, set_memory m' s) /\ patched (memory s) a type sym ad p (-1) m'.
Proof. intros Ht Hd. exists (memory s). rewrite set_memory_id. split; [done|]. by left. Qed.

Lemma relocation_ok (s : machine kheap) a type sym ad p :
  mem_ok (memory s) -> mapped (memory s) a (Z.of_nat (reloc_width type)) ->
  exists rc m', sdi_elf_apply_relocation a type sym ad p s = Ok (rc, set_memory m' s) /\
    patched (memory s) a type sym ad p rc m'.
Proof.
  intros Hok Hm. unfold sdi_elf_apply_relocation.
  assert (forall d, relocated type sym ad p d -> type = R_X86_64_64 \/ type = R_X86_64_PC32 \/ type = R_X86_64_PLT32 \/
    type = R_X86_64_32 \/ type = R_X86_64_32S) as Hkinds by (unfold relocated; naive_solver).
  pose proof (u64_range (sym + ad)) as Hx.
  destruct (Z.eqb_spec type R_X86_64_NONE) as [->|Hn].
  { exists 0, (memory s). rewrite set_memory_id. split; [done|]. right. do 4 (split; [done|]). by left. }
  destruct (Z.eqb_spec type R_X86_64_64) as [->|H64].
  { exists 0. eapply (relocation_writes s a R_X86_64_64); [done|done|done|done|]. left. done. }
  destruct (Z.eqb_spec type R_X86_64_PC32) as [Epc|Hpc]; [|destruct (Z.eqb_spec type R_X86_64_PLT32) as [Epl|Hpl]]; cbn [orb].
  1,2: rewrite fits_iff; case_bool_decide as Hf; cbn [negb];
    [exists 0; assert (reloc_width type = 4%nat) as Ew by (by subst type); rewrite <- Ew;
     eapply relocation_writes; [done|done|rewrite Ew; apply u32_range|reflexivity|];
     right; left; assert (as_stored type (u32 (i64 (u64 (sym + ad) - p))) = i64 (u64 (sym + ad) - p)) as ->
       by (subst type; by apply i32_u32); split; [auto|]; split; [done|]; by apply pc_reach
    |exists (-1); apply relocation_fails; [done|]; intros d [[? _]|[(_ & Hd & E)|[[? _]|[? _]]]]; try (subst type; discriminate);
     apply Hf; apply pc_reach in E; [|done]; by rewrite E].
  destruct (Z.eqb_spec type R_X86_64_32) as [->|H32].
  { destruct (Z.ltb_spec (2 ^ 32 - 1) (u64 (sym + ad))).
    - exists (-1). apply relocation_fails; [done|].
      intros d [[? _]|[([?|?] & _)|[(_ & Hd & E)|[? _]]]]; try discriminate. lia.
    - exists 0. rewrite u32_small by lia. eapply (relocation_writes s a R_X86_64_32 sym ad p (u64 (sym + ad))); [done|done|change (256 ^ Z.of_nat (reloc_width R_X86_64_32)) with (2 ^ 32); lia|done|].
      right. right. left. split; [done|]. split; [lia|done]. }
  destruct (Z.eqb_spec type R_X86_64_32S) as [->|H32S].
  { assert (forall d, - 2 ^ 31 <= d < 2 ^ 31 -> i64 (sym + ad) = d <-> u64 d = u64 (sym + ad)) as Hreach.
    { intros d Hd. rewrite u64_eq. split.
      - intros <-. destruct (i64_eq (sym + ad)) as [k ->]. by exists k.
      - intros [k Ek]. apply (i64_of _ _ (- k)); lia. }
    rewrite fits_iff. case_bool_decide as Hf; cbn [negb].
    - exists 0. eapply (relocation_writes s a R_X86_64_32S); [done|done|apply u32_range|by apply i32_u32|].
      right. right. right. split; [done|]. split; [done|]. by apply Hreach.
    - exists (-1). apply relocation_fails; [done|].
      intros d [[? _]|[([?|?] & _)|[(? & _)|(_ & Hd & E)]]]; try discriminate. apply Hreach in E; [|done]. by rewrite E in Hf. }
  exists (-1). apply relocation_fails; [done|]. intros d Hd. apply Hkinds in Hd. intuition.
Qed.

(** One relocation. Whatever the symbol, the addend and the place,
    [sdi_elf_apply_relocation] returns. On success the bytes written (8, 4 or
    none, as the type says) read back as a value that is the symbol plus the
    addend, relative to the place for the two relative types, and no other byte
    changes. It fails exactly when the type is unknown or no value of the
    type's width reaches the address, and then nothing is written. *)
Theorem sdi_elf_relocation_spec (s : machine kheap) a type sym ad p :
  mem_ok (memory s) -> mapped (memory s) a (Z.of_nat (reloc_width type)) ->
  exists rc m', sdi_elf_apply_relocation a type sym ad p s = Ok (rc, set_memory m' s) /\
    patched (memory s) a type sym ad p rc m'.
Proof. apply relocation_ok. Qed.

(** ** The places of the sections *)

(** ** Powers of two *)

Definition pow2 (a : Z) : Prop := exists k, 0 <= k /\ a = 2 ^ k.

Lemma power_of_two_ok a : 0 <= a -> sdi_elf_is_power_of_two a = true -> pow2 a.
Proof.
  intros Ha. unfold sdi_elf_is_power_of_two. rewrite andb_true_iff, negb_true_iff, Z.eqb_neq, Z.eqb_eq. intros [Hn Hl].
  pose proof (Z.log2_spec a ltac:(lia)) as Hk. pose proof (Z.log2_nonneg a). set (k := Z.log2 a) in *.
  exists k. split; [done|]. destruct (Z.eq_dec a (2 ^ k)) as [|Hne]; [done|]. exfalso.
  rewrite Z.pow_succ_r in Hk by done.
  assert (forall x, 2 ^ k <= x < 2 * 2 ^ k -> Z.testbit x k = true) as Hbit.
  { intros x Hx. rewrite Z.testbit_true by done. rewrite <- (Z.div_unique x (2 ^ k) 1 (x - 2 ^ k)); [done|left; lia|lia]. }
  pose proof (f_equal (fun x => Z.testbit x k) Hl) as Hb. cbn beta in Hb.
  rewrite Z.land_spec, !Hbit, Z.bits_0 in Hb by lia. done.
Qed.

Lemma pow2_divide a b : pow2 a -> pow2 b -> a <= b -> (a | b).
Proof.
  intros (j & Hj & ->) (k & Hk & ->) Hle. apply Z.pow_le_mono_r_iff in Hle; [|lia|lia].
  exists (2 ^ (k - j)). rewrite <- Z.pow_add_r by lia. f_equal. lia.
Qed.

Lemma align_up_ok x a : pow2 a -> a <= 4096 -> 0 <= x -> x + a - 1 < 2 ^ 64 ->
  x <= sdi_elf_align_up x a < x + a /\ (a | sdi_elf_align_up x a).
Proof.
  intros (k & Hk & ->) Ha Hx Hlt. unfold sdi_elf_align_up. pose proof (Z.pow_pos_nonneg 2 k ltac:(lia) Hk).
  destruct (Z.leb_spec (2 ^ k) 1).
  - assert (2 ^ k = 1) as -> by lia. split; [lia|apply Z.divide_1_l].
  - rewrite u64_sub_l. apply align_up_pow2; [|lia|lia]. split; [done|].
    destruct (Z.le_gt_cases k 64); [done|]. assert (2 ^ 64 <= 2 ^ k) by (apply Z.pow_le_mono_r; lia). lia.
Qed.

(** ** The packing *)

Definition loaded (sec : shdr) : bool := has_bits (sh_flags sec) SHF_ALLOC.
Definition align_of (sec : shdr) : Z := if sh_addralign sec =? 0 then 1 else sh_addralign sec.
(** A section that the loader accepts, in a file of [n] bytes. *)
Definition section_ok (n : Z) (sec : shdr) : bool :=
  sdi_elf_is_power_of_two (align_of sec) && (align_of sec <=? PAGE_SIZE) &&
  ((sh_type sec =? SHT_NOBITS) || sdi_elf_range_ok n (sh_offset sec) (sh_size sec)).

(** The total size, the largest alignment and the offset of every section. *)
Fixpoint place (n : Z) (l : list shdr) (total max_align : Z) : option (Z * Z * list Z) :=
  match l with
  | [] => Some (total, max_align, [])
  | sec :: l =>
      if loaded sec then
        if negb (section_ok n sec) then None else
        let off := sdi_elf_align_up total (align_of sec) in
        let '(ok, total) := sdi_elf_u64_add_ok off (sh_size sec) in
        if negb ok then None else
        '(t, a, os) ← place n l total (if max_align <? align_of sec then align_of sec else max_align);
        Some (t, a, off :: os)
      else '(t, a, os) ← place n l total max_align; Some (t, a, 0 :: os)
  end.

Fixpoint need (l : list shdr) : Z :=
  match l with [] => 0 | sec :: l => (if loaded sec then sh_size sec + PAGE_SIZE else 0) + need l end.

(** The loaded sections are between [lo] and [hi], aligned, in order and apart. *)
Definition packed (l : list shdr) (os : list Z) (lo hi a : Z) : Prop :=
  forall j sec off, l !! j = Some sec -> os !! j = Some off -> loaded sec = true ->
    lo <= off /\ off + sh_size sec <= hi /\ (align_of sec | off) /\ (align_of sec | a) /\
    forall j' sec' off', (j < j')%nat -> l !! j' = Some sec' -> os !! j' = Some off' -> loaded sec' = true ->
      off + sh_size sec <= off'.

Definition sane (l : list shdr) : Prop := Forall (fun sec => 0 <= sh_size sec /\ 0 <= sh_addralign sec) l.

Lemma need_pos l : sane l -> 0 <= need l.
Proof. induction 1 as [|sec l [H1 _] _ IH]; cbn [need]; [done|]. unfold PAGE_SIZE. destruct (loaded sec); lia. Qed.

Lemma packed_cons sec l off os lo mid hi a : packed l os mid hi a -> lo <= mid ->
  (loaded sec = true -> lo <= off /\ off + sh_size sec <= mid /\ mid <= hi /\ (align_of sec | off) /\ (align_of sec | a)) ->
  packed (sec :: l) (off :: os) lo hi a.
Proof.
  intros Hp Hlo Hsec [|j] x o Hl Ho Hx; cbn in Hl, Ho.
  - injection Hl as <-. injection Ho as <-. destruct (Hsec Hx) as (? & ? & ? & ? & ?). split; [done|]. split; [lia|].
    do 2 (split; [done|]). intros [|j'] x' o' Hj Hl' Ho' Hx'; [lia|]. cbn in Hl', Ho'. destruct (Hp _ _ _ Hl' Ho' Hx') as (? & _). lia.
  - destruct (Hp _ _ _ Hl Ho Hx) as (? & ? & ? & ? & Hn). split; [lia|]. do 3 (split; [done|]).
    intros [|j'] x' o' Hj Hl' Ho' Hx'; [lia|]. apply (Hn j' x'); [lia|done|done|done].
Qed.

Lemma section_ok_align n sec : 0 <= sh_addralign sec -> section_ok n sec = true -> pow2 (align_of sec) /\ align_of sec <= 4096.
Proof.
  intros Ha. unfold section_ok. rewrite !andb_true_iff, Z.leb_le. intros [[Hp Hle] _]. split; [|done].
  apply power_of_two_ok; [|done]. unfold align_of. destruct (sh_addralign sec =? 0); lia.
Qed.

(** One loaded section. *)
Lemma place_step n sec total : section_ok n sec = true -> 0 <= sh_addralign sec -> 0 <= sh_size sec -> 0 <= total ->
  total + sh_size sec + PAGE_SIZE < 2 ^ 64 ->
  let off := sdi_elf_align_up total (align_of sec) in
  total <= off /\ (align_of sec | off) /\ off + sh_size sec <= total + sh_size sec + PAGE_SIZE /\
  sdi_elf_u64_add_ok off (sh_size sec) = (true, off + sh_size sec).
Proof.
  intros Hok Ha Hs Ht Hlt. destruct (section_ok_align _ _ Ha Hok) as [Hp Hle]. unfold PAGE_SIZE in *.
  destruct (align_up_ok total (align_of sec) Hp Hle Ht ltac:(lia)) as [Hoff Hdiv]. cbv zeta. split; [lia|]. split; [done|].
  split; [lia|]. unfold sdi_elf_u64_add_ok. rewrite u64_small by lia. f_equal. apply Z.leb_le. lia.
Qed.

Lemma place_ok n l : forall total ma t a os, place n l total ma = Some (t, a, os) -> sane l ->
  0 <= total -> total + need l < 2 ^ 64 -> pow2 ma -> ma <= 4096 ->
  packed l os total t a /\ length os = length l /\ total <= t <= total + need l /\ pow2 a /\ (ma | a) /\ a <= 4096 /\
  Forall (fun sec => loaded sec = true -> section_ok n sec = true) l.
Proof.
  induction l as [|sec l IH]; intros total ma t a os Hp Hs Ht Hn Hma Hle; cbn [place need] in *.
  { injection Hp as <- <- <-. split; [done|]. split; [done|]. split; [lia|]. do 2 (split; [done|]). by split. }
  apply Forall_cons in Hs as [[Hsz Hal] Hs]. pose proof (need_pos _ Hs). destruct (loaded sec) eqn:Hld.
  - destruct (section_ok n sec) eqn:Hok; [|done]. cbn [negb] in Hp.
    destruct (place_step n sec total Hok Hal Hsz Ht) as (H1 & H2 & H3 & H4); [lia|]. rewrite H4 in Hp. cbn [negb] in Hp.
    destruct (section_ok_align _ _ Hal Hok) as [Hpa Hla]. set (off := sdi_elf_align_up total (align_of sec)) in *.
    set (ma' := if ma <? align_of sec then align_of sec else ma) in *.
    assert (pow2 ma' /\ ma' <= 4096 /\ (ma | ma') /\ (align_of sec | ma')) as (Hp' & Hl' & Hd & Hds).
    { unfold ma'. destruct (Z.ltb_spec ma (align_of sec)); (split; [done|]; split; [done|]; split); try done;
        apply pow2_divide; done || lia. }
    destruct (place n l (off + sh_size sec) ma') as [[[t' a'] os']|] eqn:E; [|done]. injection Hp as <- <- <-.
    destruct (IH _ _ _ _ _ E Hs) as (Hpk & Hlen & Hb & Hpw & Hdv & Ha4 & Hall); [lia|lia|done|done|].
    split; [|split; [cbn; lia|split; [lia|split; [done|split; [by etrans|split; [done|by constructor]]]]]].
    eapply packed_cons; [done|lia|]. intros _. split; [lia|]. split; [lia|]. split; [lia|]. split; [done|]. by etrans.
  - destruct (place n l total ma) as [[[t' a'] os']|] eqn:E; [|done]. injection Hp as <- <- <-.
    destruct (IH _ _ _ _ _ E Hs) as (Hpk & Hlen & Hb & Hpw & Hdv & Ha4 & Hall); [done|lia|done|done|].
    split; [|split; [cbn; lia|split; [lia|split; [done|split; [done|split; [done|constructor; [congruence|done]]]]]]].
    eapply packed_cons; [done|lia|congruence].
Qed.

(** Without wrap-around it fails only for a section that is not acceptable. *)
Lemma place_none n l : forall total ma, place n l total ma = None -> sane l -> 0 <= total -> total + need l < 2 ^ 64 ->
  exists sec, sec ∈ l /\ loaded sec = true /\ section_ok n sec = false.
Proof.
  induction l as [|sec l IH]; intros total ma Hp Hs Ht Hn; cbn [place need] in *; [done|].
  apply Forall_cons in Hs as [[Hsz Hal] Hs]. pose proof (need_pos _ Hs). destruct (loaded sec) eqn:Hld.
  - destruct (section_ok n sec) eqn:Hok; [|exists sec; split; [left|done]]. cbn [negb] in Hp.
    destruct (place_step n sec total Hok Hal Hsz Ht) as (H1 & H2 & H3 & H4); [lia|]. rewrite H4 in Hp. cbn [negb] in Hp.
    destruct (place n l _ _) as [[[t' a'] os']|] eqn:E; [done|].
    destruct (IH _ _ E Hs ltac:(lia) ltac:(lia)) as (x & Hx & ?). exists x. split; [by right|done].
  - destruct (place n l _ _) as [[[t' a'] os']|] eqn:E; [done|].
    destruct (IH _ _ E Hs ltac:(lia) ltac:(lia)) as (x & Hx & ?). exists x. split; [by right|done].
Qed.

(** With it the check of the sum is not enough: aligning the running size may
    wrap around to 0, and two sections of together more than 2^64 bytes get a
    module of eight bytes, at the same offset. *)
Lemma place_wraps : let big := mk_shdr SHT_NOBITS SHF_ALLOC 0 (2 ^ 64 - 1) 0 0 1 0 in
  let small := mk_shdr SHT_NOBITS SHF_ALLOC 0 8 0 0 16 0 in
  place 64 [big; small] 0 1 = Some (8, 16, [0; 0]).
Proof. vm_compute. reflexivity. Qed.
