(* ===== verification/ElfLoops.v ===== *)
(** The two loops of [sdi_elf_prepare_sections] of [kernel/src/sdi/elf.c] over
    the byte memory: the first stores the packing of [ElfSpec] in the array of
    offsets, the second stores the addresses of the sections and copies them. *)
From S2P Require Import Prelude StringLib WordMem Dll Pfndb Pmm Kheap KheapSpec Paging KheapPages Elf ElfSpec.

Definition sections_of (img : list Z) : list shdr := (fun i => section_of img (Z.of_nat i)) <$> seq 0 (Z.to_nat (shnum img)).

Lemma sections_of_length img : length (sections_of img) = Z.to_nat (shnum img).
Proof. unfold sections_of. by rewrite length_fmap, length_seq. Qed.

Lemma sections_of_lookup img i : (i < Z.to_nat (shnum img))%nat -> sections_of img !! i = Some (section_of img (Z.of_nat i)).
Proof. intros Hi. unfold sections_of. by rewrite list_lookup_fmap, lookup_seq_lt. Qed.

Lemma sections_of_sane img : Forall is_byte img -> sane (sections_of img).
Proof.
  intros Hb. apply Forall_forall. intros sec (i & -> & _)%list_elem_of_fmap.
  split; [apply (fld_range _ Hb 8)|apply (fld_range _ Hb 8)].
Qed.

Lemma sane_at l i sec : sane l -> l !! i = Some sec -> 0 <= sh_size sec /\ 0 <= sh_addralign sec.
Proof. intros Hs Hl. exact (Forall_lookup_1 _ _ _ _ Hs Hl). Qed.

(** The ranges [a, a+n) and [b, b+k) have no byte in common. *)
Definition apart_from (a n b k : Z) : Prop := a + n <= b \/ b + k <= a.

Section loops.
Abbreviation M := (machine kheap).
Context (img : list Z) (a : Z) (Hb : Forall is_byte img) (Hok : header_ok img).
Context (c : context) (Himg : cx_image c = a) (Hsec : cx_sections c = a + shoff img) (Hsize : cx_size c = Z.of_nat (length img)).
Abbreviation len := (Z.of_nat (length img)).
Abbreviation secs := (sections_of img).
Abbreviation n := (shnum img).
Abbreviation N := (Z.to_nat n).

Lemma len64 : 64 <= len.
Proof. apply Hok. Qed.

Lemma count_range : 1 <= n < 65536.
Proof. split; [apply Hok|by apply shnum_range]. Qed.

Lemma drop_section i : (i < N)%nat -> drop i secs = section_of img (Z.of_nat i) :: drop (S i) secs.
Proof. intros Hi. apply drop_S. by apply sections_of_lookup. Qed.

Lemma next_index i : (i < N)%nat -> u16 (Z.of_nat i + 1) = Z.of_nat (S i).
Proof. intros Hi. pose proof count_range. unfold u16. rewrite Z.mod_small; lia. Qed.

Lemma index_test i : (Z.of_nat i <? n) = bool_decide (i < N)%nat.
Proof. pose proof count_range. case_bool_decide; [apply Z.ltb_lt|apply Z.ltb_ge]; lia. Qed.

(** *** The offsets *)

Abbreviation o := (cx_offsets c).

(** The words of the loaded sections from number [i] on. *)
Definition words_at (m : mem) (base i : Z) (l : list shdr) (os : list Z) (f : Z -> Z) : Prop :=
  forall j sec off, l !! j = Some sec -> os !! j = Some off -> loaded sec = true ->
    load_word m (base + 8 * (i + Z.of_nat j)) = Ok (f off).

Lemma layout_loop_ok fuel : forall i total ma (s : M), (N - i < fuel)%nat -> (i <= N)%nat ->
  holds (memory s) a img -> mem_ok (memory s) -> mapped (memory s) o (8 * n) -> apart_from a len o (8 * n) ->
  0 <= total -> total + need (drop i secs) < 2 ^ 64 ->
  exists r m', layout_loop fuel c (Z.of_nat i) total ma s = Ok (r, set_memory m' s) /\ mem_ok m' /\
    (forall x, is_Some (m' !! x) <-> is_Some (memory s !! x)) /\
    (forall x, ~ o + 8 * Z.of_nat i <= x < o + 8 * n -> m' !! x = memory s !! x) /\
    match place len (drop i secs) total ma with
    | None => r = None
    | Some (t, al, os) => r = Some (t, al) /\ words_at m' o (Z.of_nat i) (drop i secs) os (fun off => off)
    end.
Proof.
  induction fuel as [|fuel IH]; intros i total ma s Hf Hi Hh Hmo Hma Hap Ht Hn; [lia|]. cbn [layout_loop].
  rewrite (st_bind_ok _ _ _ _ _ (e_shnum_ok img a s Hh c Himg len64)), index_test.
  case_bool_decide as Hlt; cbn [negb].
  2:{ exists (Some (total, ma)), (memory s). rewrite set_memory_id, drop_ge by (rewrite sections_of_length; lia).
      split; [done|]. split; [done|]. split; [done|]. split; [done|]. cbn [place]. by split. }
  pose proof count_range as Hc.
  rewrite (st_bind_ok _ _ _ _ _ (section_at_ok img a s Hh c (Z.of_nat i) Himg Hsec Hb Hok ltac:(lia))), next_index by done.
  rewrite (drop_section i Hlt) in Hn |- *. cbn [place need] in Hn |- *. set (sec := section_of img (Z.of_nat i)) in *.
  pose proof (sections_of_sane img Hb) as Hsane.
  assert (sane (drop (S i) secs)) as Hsane' by by apply Forall_drop. pose proof (need_pos _ Hsane') as Hnp.
  destruct (sane_at _ _ _ Hsane (sections_of_lookup img i Hlt)) as [Hsz Hal]. fold sec in Hsz, Hal.
  unfold loaded in *. fold (align_of sec). destruct (has_bits (sh_flags sec) SHF_ALLOC) eqn:Hld; cbn [negb].
  2:{ destruct (IH (S i) total ma s) as (r & m' & Hr & H1 & H2 & H3 & H4); [lia|lia|done..|lia|]. exists r, m'.
      split; [exact Hr|]. split; [done|]. split; [done|]. split; [intros x Hx; apply H3; lia|].
      destruct (place len (drop (S i) secs) total ma) as [[[t al] os]|]; [|done]. destruct H4 as [-> Hw]. split; [done|].
      intros [|j] x off Hl Ho Hx; cbn in Hl, Ho; [injection Hl as <-; unfold loaded in Hx; congruence|].
      rewrite <- (Hw j x off Hl Ho Hx). do 2 f_equal. lia. }
  assert (section_ok len sec = negb (negb (sdi_elf_is_power_of_two (align_of sec)) || (PAGE_SIZE <? align_of sec)) &&
    negb (negb (sh_type sec =? SHT_NOBITS) && negb (sdi_elf_range_ok (cx_size c) (sh_offset sec) (sh_size sec)))) as Eok.
  { unfold section_ok. rewrite Hsize, (Z.ltb_antisym (align_of sec)), negb_orb, negb_andb, !negb_involutive. done. }
  destruct (negb (sdi_elf_is_power_of_two (align_of sec)) || (PAGE_SIZE <? align_of sec)); cbn [negb andb] in Eok;
    [|destruct (negb (sh_type sec =? SHT_NOBITS) && negb (sdi_elf_range_ok (cx_size c) (sh_offset sec) (sh_size sec))); cbn [negb] in Eok];
    rewrite Eok; cbn [negb].
  1,2: exists None, (memory s); rewrite set_memory_id; done.
  destruct (place_step len sec total Eok Hal Hsz Ht ltac:(lia)) as (P1 & P2 & P3 & P4). rewrite P4. cbn [negb].
  set (off := sdi_elf_align_up total (align_of sec)) in *. unfold PAGE_SIZE in *.
  destruct (wr_ok s 8 (o + 8 * Z.of_nat i) off Hmo) as (m1 & Hw & [W1 W2 W3 W4]).
  { eapply mapped_sub; [exact Hma|lia|lia]. }
  { change (256 ^ Z.of_nat 8) with (2 ^ 64). lia. }
  rewrite (st_bind_ok _ _ _ _ _ Hw). change (Z.of_nat 8) with 8 in *.
  destruct (IH (S i) (off + sh_size sec) (if ma <? align_of sec then align_of sec else ma) (set_memory m1 s))
    as (r & m' & Hr & H1 & H2 & H3 & H4); [lia|lia| |done| |done|lia|lia|].
  { eapply image_frame; [|exact Hh]. intros x Hx. apply W2. unfold apart_from in Hap. lia. }
  { intros x Hx. apply W4. by apply Hma. }
  exists r, m'. split; [exact Hr|]. split; [done|]. split; [intros x; etrans; [apply H2|apply W4]|].
  split; [intros x Hx; rewrite H3 by lia; apply W2; lia|].
  destruct (place len (drop (S i) secs) _ _) as [[[t al] os]|]; [|done]. destruct H4 as [-> Hwd]. split; [done|].
  intros [|j] x y Hl Ho Hx; cbn in Hl, Ho.
  - injection Ho as <-. rewrite <- W1. replace (o + 8 * (Z.of_nat i + Z.of_nat 0)) with (o + 8 * Z.of_nat i) by lia.
    apply load_le_frame. intros z Hz. apply H3. lia.
  - rewrite <- (Hwd j x y Hl Ho Hx). do 2 f_equal. lia.
Qed.

(** *** The copies *)

Abbreviation b := (cx_bases c).
Abbreviation mb := (cx_module c).
Context (t al : Z) (os : list Z) (Hpk : packed secs os 0 t al) (Hlen : length os = length secs)
  (Hall : Forall (fun sec => loaded sec = true -> section_ok len sec = true) secs).
Context (Hmb : 0 <= mb) (Hmt : mb + t < 2 ^ 64).
Context (Hap_bi : apart_from a len b (8 * n)) (Hap_mi : apart_from a len mb t) (Hap_bo : apart_from o (8 * n) b (8 * n))
  (Hap_mo : apart_from o (8 * n) mb t) (Hap_bm : apart_from b (8 * n) mb t).

Definition copied_section (sec : shdr) : bool := loaded sec && negb (sh_type sec =? SHT_NOBITS).

(** The bytes that the sections from number [i] on are copied to. *)
Definition copied_to (i : nat) (x : Z) : Prop := exists j sec off, (i <= j)%nat /\ secs !! j = Some sec /\ os !! j = Some off /\
  copied_section sec = true /\ mb + off <= x < mb + off + sh_size sec.

Definition section_bytes (m : mem) (sec : shdr) (off : Z) : Prop :=
  forall k, 0 <= k < sh_size sec -> m !! (mb + off + k) = img !! Z.to_nat (sh_offset sec + k).

(** One copy. *)
Lemma copy_section_ok i sec off (s : M) : secs !! i = Some sec -> os !! i = Some off -> loaded sec = true ->
  holds (memory s) a img -> mem_ok (memory s) -> mapped (memory s) mb t ->
  exists m', (if negb (sh_type sec =? SHT_NOBITS) && negb (sh_size sec =? 0)
      then on_src (on_mem (memcpy (mb + off) (cx_image c + sh_offset sec) (sh_size sec))) else mret tt) s =
      Ok (tt, set_memory m' s) /\ mem_ok m' /\ (forall x, is_Some (m' !! x) <-> is_Some (memory s !! x)) /\
    (forall x, (copied_section sec = true -> ~ mb + off <= x < mb + off + sh_size sec) -> m' !! x = memory s !! x) /\
    (copied_section sec = true -> section_bytes m' sec off).
Proof.
  intros Hl Ho Hld Hh Hmo Hm. destruct (Hpk i sec off Hl Ho Hld) as (P1 & P2 & _).
  destruct (sane_at _ _ _ (sections_of_sane img Hb) Hl) as [Hsz _].
  pose proof (Forall_lookup_1 _ _ _ _ Hall Hl Hld) as Hsok. unfold copied_section. rewrite Hld. cbn [andb].
  destruct (Z.eqb_spec (sh_type sec) SHT_NOBITS) as [Et|Et]; cbn [negb andb];
    [|destruct (Z.eqb_spec (sh_size sec) 0) as [Ez|Ez]; cbn [negb]].
  1,2: exists (memory s); rewrite set_memory_id; split; [done|]; split; [done|]; split; [done|]; split; [done|];
    try done; intros _ k Hk; lia.
  assert (0 <= sh_offset sec /\ sh_offset sec + sh_size sec <= len) as [Hof Hfit].
  { unfold section_ok in Hsok. rewrite andb_true_iff, orb_true_iff, Z.eqb_eq in Hsok. destruct Hsok as [_ [?|Hr]]; [done|].
    assert (0 <= sh_offset sec) as H0.
    { unfold sections_of in Hl. rewrite list_lookup_fmap in Hl. destruct (seq 0 N !! i); [|done]. injection Hl as <-.
      apply (fld_range _ Hb 8). }
    rewrite range_ok_iff in Hr by done. by apply bool_decide_eq_true in Hr. }
  assert (mapped (memory s) (a + sh_offset sec) (sh_size sec)) as Hma.
  { intros x Hx. destruct (lookup_lt_is_Some_2 img (Z.to_nat (x - a))) as [v Hv]; [lia|]. exists v.
    replace x with (a + Z.of_nat (Z.to_nat (x - a))) by lia. by apply Hh. }
  assert (mapped (memory s) (mb + off) (sh_size sec)) as Hmd by (eapply mapped_sub; [exact Hm|lia|lia]).
  destruct (memcpy_ok (memory s) (mb + off) (a + sh_offset sec) (sh_size sec) Hmo ltac:(lia) Hma Hmd) as (m' & Hcp & Hco).
  { unfold apart_from in Hap_mi. lia. }
  destruct (copied_client _ _ _ _ _ Hmo Hsz Hma Hmd Hco) as (C1 & C2 & C3 & C4).
  exists m'. split; [|split; [done|split; [done|split; [intros x Hx; apply C3; auto|]]]].
  - unfold on_src, on_mem. rewrite Himg. fold (memory s). by rewrite Hcp.
  - intros _ k Hk. rewrite C4 by lia. destruct (lookup_lt_is_Some_2 img (Z.to_nat (sh_offset sec + k))) as [v Hv]; [lia|].
    rewrite Hv. rewrite <- (Hh _ _ Hv). f_equal. lia.
Qed.

Lemma copy_sections_ok fuel : forall i (s : M), (N - i < fuel)%nat -> (i <= N)%nat ->
  holds (memory s) a img -> mem_ok (memory s) -> mapped (memory s) b (8 * n) -> mapped (memory s) mb t ->
  words_at (memory s) o 0 secs os (fun off => off) ->
  exists m', copy_sections fuel c (Z.of_nat i) s = Ok (tt, set_memory m' s) /\ mem_ok m' /\
    (forall x, is_Some (m' !! x) <-> is_Some (memory s !! x)) /\
    (forall x, ~ b + 8 * Z.of_nat i <= x < b + 8 * n -> ~ copied_to i x -> m' !! x = memory s !! x) /\
    (forall j sec, (i <= j)%nat -> secs !! j = Some sec -> loaded sec = false ->
      load_word m' (b + 8 * Z.of_nat j) = load_word (memory s) (b + 8 * Z.of_nat j)) /\
    forall j sec off, (i <= j)%nat -> secs !! j = Some sec -> os !! j = Some off -> loaded sec = true ->
      load_word m' (b + 8 * Z.of_nat j) = Ok (mb + off) /\ (copied_section sec = true -> section_bytes m' sec off).
Proof.
  pose proof count_range as Hc.
  induction fuel as [|fuel IH]; intros i s Hf Hi Hh Hmo Hma Hmm Hw; [lia|]. cbn [copy_sections].
  rewrite (st_bind_ok _ _ _ _ _ (e_shnum_ok img a s Hh c Himg len64)), index_test.
  case_bool_decide as Hlt; cbn [negb].
  2:{ exists (memory s). rewrite set_memory_id. do 4 (split; [done|]). split; [done|].
      intros j sec off Hj Hl. apply lookup_lt_Some in Hl. rewrite sections_of_length in Hl. lia. }
  rewrite (st_bind_ok _ _ _ _ _ (section_at_ok img a s Hh c (Z.of_nat i) Himg Hsec Hb Hok ltac:(lia))), next_index by done.
  pose proof (sections_of_lookup img i Hlt) as Hli. set (sec := section_of img (Z.of_nat i)) in *.
  destruct (lookup_lt_is_Some_2 os i) as [off Hoi]; [rewrite Hlen, sections_of_length; lia|].
  destruct (loaded sec) eqn:Hld; unfold loaded in Hld; rewrite Hld; cbn [negb].
  2:{ destruct (IH (S i) s) as (m' & Hr & H1 & H2 & H3 & H4 & H5); [lia|lia|done..|]. exists m'.
      assert (forall x, b + 8 * Z.of_nat i <= x < b + 8 * Z.of_nat i + 8 -> m' !! x = memory s !! x) as Hkeep.
      { intros x Hx. apply H3; [lia|]. intros (j & x' & off' & Hj & Hl' & Ho' & Hcs & Hx').
        unfold copied_section in Hcs. apply andb_true_iff in Hcs as [Hld' _]. destruct (Hpk _ _ _ Hl' Ho' Hld') as (? & ? & _).
        unfold apart_from in Hap_bm. lia. }
      split; [exact Hr|]. do 2 (split; [done|]). split; [|split].
      - intros x Hx Hn. apply H3; [lia|]. intros (j & ? & ? & ? & ?). apply Hn. exists j. eexists _, _. split; [lia|done].
      - intros j x Hj Hl Hx. destruct (decide (j = i)) as [->|]; [|apply (H4 j x); [lia|done|done]].
        apply load_le_frame. intros y Hy. apply Hkeep. lia.
      - intros j x y Hj Hl Ho Hx. destruct (decide (j = i)) as [->|]; [|apply H5; [lia|done..]].
        assert (x = sec) as -> by congruence. unfold loaded in Hx. congruence. }
  change (has_bits (sh_flags sec) SHF_ALLOC) with (loaded sec) in Hld.
  destruct (Hpk i sec off Hli Hoi Hld) as (P1 & P2 & _ & _ & P5).
  destruct (sane_at _ _ _ (sections_of_sane img Hb) Hli) as [Hsz _].
  pose proof (Hw i sec off Hli Hoi Hld) as Hwi. rewrite Z.add_0_l in Hwi.
  rewrite (st_bind_ok (rd 8 (o + 8 * Z.of_nat i)) _ s off s) by (unfold rd; unfold load_word in Hwi; by rewrite Hwi).
  cbv zeta. rewrite u64_small by lia.
  destruct (wr_ok s 8 (b + 8 * Z.of_nat i) (mb + off) Hmo) as (m1 & Hwr & [W1 W2 W3 W4]).
  { eapply mapped_sub; [exact Hma|lia|lia]. }
  { change (256 ^ Z.of_nat 8) with (2 ^ 64). lia. }
  rewrite (st_bind_ok _ _ _ _ _ Hwr). change (Z.of_nat 8) with 8 in *. unfold apart_from in Hap_bi, Hap_mi, Hap_bo, Hap_mo, Hap_bm.
  assert (holds m1 a img) as Hh1 by (eapply image_frame; [|exact Hh]; intros x Hx; apply W2; lia).
  destruct (copy_section_ok i sec off (set_memory m1 s) Hli Hoi Hld Hh1 W3) as (m2 & Hcp & C1 & C2 & C3 & C4).
  { intros x Hx. apply W4. by apply Hmm. }
  rewrite (st_bind_ok _ _ _ _ _ Hcp).
  assert (forall x, ~ mb + off <= x < mb + off + sh_size sec -> m2 !! x = m1 !! x) as C3' by (intros x Hx; by apply C3).
  destruct (IH (S i) (set_memory m2 (set_memory m1 s))) as (m' & Hr & H1 & H2 & H3 & H4 & H5).
  { lia. }
  { lia. }
  { eapply image_frame; [|exact Hh1]. intros x Hx. apply C3'. lia. }
  { done. }
  { intros x Hx. apply C2, W4. by apply Hma. }
  { intros x Hx. apply C2, W4. by apply Hmm. }
  { intros j x y Hl Ho Hx. rewrite <- (Hw j x y Hl Ho Hx). apply load_le_frame. intros z Hz.
    assert (j < N)%nat by (apply lookup_lt_Some in Hl; by rewrite sections_of_length in Hl).
    etrans; [apply C3'|apply W2]; lia. }
  assert (forall x, ~ copied_to (S i) x -> ~ b + 8 * Z.of_nat (S i) <= x < b + 8 * n -> m' !! x = m2 !! x) as H3' by (intros x ? ?; by apply H3).
  assert (forall x, mb + off <= x < mb + off + sh_size sec -> ~ copied_to (S i) x) as Hdis.
  { intros x Hx (j & x' & off' & Hj & Hl' & Ho' & Hcs & Hx'). unfold copied_section in Hcs. apply andb_true_iff in Hcs as [Hld' _].
    pose proof (P5 j x' off' ltac:(lia) Hl' Ho' Hld'). lia. }
  assert (forall i' x, b <= x < b + 8 * n -> ~ copied_to i' x) as Hbc.
  { intros i' x Hx (j & x' & off' & Hj & Hl' & Ho' & Hcs & Hx'). unfold copied_section in Hcs. apply andb_true_iff in Hcs as [Hld' _].
    destruct (Hpk _ _ _ Hl' Ho' Hld') as (? & ? & _). lia. }
  exists m'. split; [exact Hr|]. split; [done|]. split; [intros x; etrans; [apply H2|etrans; [apply C2|apply W4]]|].
  split; [|split].
  - intros x Hx Hn. etrans; [apply H3'|etrans; [apply C3|apply W2]]; [| |intros Hcs Hin|lia].
    + intros (j & ? & ? & ? & ?). apply Hn. exists j. eexists _, _. split; [lia|done].
    + lia.
    + apply Hn. exists i, sec, off. done.
  - intros j x Hj Hl Hx. assert (j <> i) by (intros ->; congruence). rewrite (H4 j x) by (done || lia).
    assert (j < N)%nat by (apply lookup_lt_Some in Hl; by rewrite sections_of_length in Hl).
    apply load_le_frame. intros y Hy. etrans; [apply C3'|apply W2]; lia.
  - intros j x y Hj Hl Ho Hx. destruct (decide (j = i)) as [->|]; [|apply H5; [lia|done..]].
    assert (x = sec) as -> by congruence. assert (y = off) as -> by congruence. split.
    + rewrite <- W1. apply load_le_frame. intros z Hz. etrans; [apply H3'; [apply Hbc|]; lia|apply C3'; lia].
    + intros Hcs k Hk. rewrite H3'; [by apply C4|apply Hdis; lia|lia].
Qed.
End loops.
