(* ===== verification/ElfWorld.v ===== *)
(** The machine that the driver loader of [kernel/src/sdi/elf.c] runs on: the
    heap of mm/kheap.c and the page tables of mm/paging.c over one allocator of
    frames. What one allocation, one [memset] or copy inside a block and one
    mapping do to it, for the clients of both. *)
From S2P Require Import Prelude StringLib WordMem Dll Pfndb Pmm Kheap KheapInv KheapCreate KheapLarge KheapSpec Paging KheapPages Elf ElfSpec ElfLoops.

Definition with_heap (h : kheap) (s : machine kheap) : machine kheap := mk_mach (m_ram s) (m_tables s) (m_cr3 s) h.

Lemma with_heap_id s : with_heap (m_src s) s = s.
Proof. by destruct s. Qed.

Lemma on_src_ok {A} (f : ST kheap A) (s : machine kheap) r h : f (m_src s) = Ok (r, h) -> on_src f s = Ok (r, with_heap h s).
Proof. intros E. unfold on_src. by rewrite E. Qed.

Lemma zero_word m x : (forall y, x <= y < x + 8 -> m !! y = Some 0) -> load_word m x = Ok 0.
Proof.
  intros Hz. unfold load_word. rewrite (load_le_bytes (replicate 8 0)); [done|].
  intros i v Hi. apply lookup_replicate in Hi as [-> Hi]. apply Hz. lia.
Qed.

Section load.
Context (hhdm_offset caches_at : Z) (max : Z) (Hmax : max < 2 ^ 39) (Htop : hhdm_offset + (max + 1) * 4096 <= 2 ^ 64 - 8192).
Abbreviation M := (machine kheap).
Abbreviation heap_inv := (heap_inv hhdm_offset caches_at).

Lemma max_40 : max < 2 ^ 40.
Proof. lia. Qed.

(** The state of the machine: the heap with its blocks [live], and the tree of
    the page tables, whose frames are in use. *)
Definition world (s : M) (live : gmap Z Z) (lab : labels) (held : Z -> Prop) : Prop :=
  @tree kheap heap_source (heap_source_laws hhdm_offset caches_at live (memory s) max max_40) s lab held.

Lemma world_src s live lab held : world s live lab held -> pm_max (kh_pmm (m_src s)) = max /\
  exists blk, heap_inv (m_src s) blk live /\ forall x, held x -> owned blk (x / 4096).
Proof. intros Hw. destruct (tr_src _ _ _ Hw) as (_ & H1 & H2). done. Qed.

Lemma world_heap s live lab held h blk live' : world s live lab held -> pm_max (kh_pmm h) = max -> heap_inv h blk live' ->
  (forall x, held x -> owned blk (x / 4096)) -> world (with_heap h s) live' lab held.
Proof.
  intros [_ H1 H2 H3 H4] Hm Hi Ho. split; try done. split; [done|]. split; [done|]. by exists blk.
Qed.

(** A block of the heap is in the direct map. *)
Lemma world_block s live lab held p k : world s live lab held -> live !! p = Some k ->
  hhdm_offset < p /\ p + k <= hhdm_offset + (max + 1) * 4096 /\ mapped (memory s) p k /\ 0 < hhdm_offset /\ (4096 | hhdm_offset) /\ 0 < k.
Proof.
  intros Hw Hp. destruct (world_src _ _ _ _ Hw) as (Em & blk & Hi & _). pose proof (live_mapped _ _ _ _ _ _ _ Hi Hp) as Hma.
  destruct Hi as (gs & gl & ls & Hcore & _). destruct (live_extent _ _ _ _ _ _ _ _ Hcore Hp) as (q & o & Hq & L & U & K).
  destruct (KheapSlab.alloc_frames _ _ _ _ _ _ Hcore _ _ _ Hq) as (_ & ? & ?). destruct (hc_map _ _ _ _ _ _ Hcore) as [D1 D2 _].
  unfold KheapInv.virt in *. rewrite Em in *. split; [lia|]. split; [lia|]. done.
Qed.

Lemma world_bytes s live lab held : world s live lab held -> mem_ok (memory s).
Proof. intros Hw. destruct (world_src _ _ _ _ Hw) as (_ & blk & Hi & _). by eapply inv_bytes. Qed.

Lemma world_disjoint s live lab held p q k l : world s live lab held -> live !! p = Some k -> live !! q = Some l -> p <> q ->
  apart_from p k q l.
Proof. intros Hw. destruct (world_src _ _ _ _ Hw) as (_ & blk & Hi & _). by apply (inv_disjoint _ _ _ _ _ _ _ _ _ Hi). Qed.

(** The heap has no memory for [n] bytes. *)
Definition starved (s : M) (n : Z) : Prop := exists blk live, heap_inv (m_src s) blk live /\ no_memory blk n.

(** The bytes of the blocks are the same. *)
Definition keeps (live : gmap Z Z) (s s' : M) : Prop := keeps_bytes live (m_src s) (m_src s').

Lemma keeps_then live live' s1 s2 s3 : keeps live s1 s2 -> live ⊆ live' -> keeps live' s2 s3 -> keeps live s1 s3.
Proof. intros H1 Hs H2 p k x Hp Hx. rewrite (H2 p k x), (H1 p k x); try done. by eapply lookup_weaken. Qed.

(** Writing inside a block. *)
Lemma world_client s live lab held p k m' : world s live lab held -> live !! p = Some k -> mem_ok m' ->
  (forall x, is_Some (m' !! x) <-> is_Some (memory s !! x)) -> (forall x, ~ p <= x < p + k -> m' !! x = memory s !! x) ->
  world (set_memory m' s) live lab held /\ keeps (delete p live) s (set_memory m' s).
Proof.
  intros Hw Hp Hok Hdom Hfr. destruct (world_src _ _ _ _ Hw) as (Em & blk & Hi & Ho).
  destruct (inv_client _ _ _ _ _ _ _ _ Hi Hp Hok Hdom Hfr) as [Hi' Hk]. split; [|done].
  by apply (world_heap s live lab held (set_mem m' (m_src s)) blk live).
Qed.

Lemma splice (m m' : mem) p k : exists m1 : mem, forall x, m1 !! x = if decide (p <= x < p + k) then m' !! x else m !! x.
Proof.
  exists (filter (fun y => p <= y.1 < p + k) m' ∪ filter (fun y => ~ p <= y.1 < p + k) m). intros x.
  rewrite lookup_union, !map_lookup_filter. case_decide as Hx.
  - destruct (m' !! x); cbn; rewrite ?option_guard_True by done; destruct (m !! x); cbn; by rewrite ?option_guard_False by tauto.
  - destruct (m' !! x); cbn; rewrite ?option_guard_False by done; destruct (m !! x); cbn; by rewrite ?option_guard_True by done.
Qed.

(** Writing inside two blocks. *)
Lemma world_client2 s live lab held p k q l m' : world s live lab held -> live !! p = Some k -> live !! q = Some l -> p <> q ->
  mem_ok m' -> (forall x, is_Some (m' !! x) <-> is_Some (memory s !! x)) ->
  (forall x, ~ p <= x < p + k -> ~ q <= x < q + l -> m' !! x = memory s !! x) ->
  world (set_memory m' s) live lab held /\ keeps (delete q (delete p live)) s (set_memory m' s).
Proof.
  intros Hw Hp Hq Hne Hmo Hdom Hfr. destruct (splice (memory s) m' p k) as [m1 Hm1].
  destruct (world_client s live lab held p k m1 Hw Hp) as [Hw1 Hk1].
  - intros x v. rewrite Hm1. case_decide; [apply Hmo|apply (world_bytes _ _ _ _ Hw)].
  - intros x. rewrite Hm1. case_decide; [apply Hdom|done].
  - intros x Hx. by rewrite Hm1, decide_False.
  - destruct (world_client (set_memory m1 s) live lab held q l m' Hw1 Hq Hmo) as [Hw2 Hk2].
    + intros x. cbn. rewrite Hdom, Hm1. case_decide; [by rewrite Hdom|done].
    + intros x Hx. cbn. rewrite Hm1. case_decide; [done|by apply Hfr].
    + split; [exact Hw2|]. intros b kb x Hbk Hx. apply lookup_delete_Some in Hbk as [Hb1 Hbk].
      etrans; [apply (Hk2 b kb x); [|done]|by apply (Hk1 b kb x)].
      apply lookup_delete_Some in Hbk as [_ Hbk]. by apply lookup_delete_Some.
Qed.

Lemma kmalloc_step s live lab held n : world s live lab held -> 0 <= n <= 2 ^ 31 - 24 ->
  exists r s', on_src (kmalloc hhdm_offset caches_at n) s = Ok (r, s') /\
    match r with
    | None => s' = s /\ starved s n
    | Some p => 0 < n /\ live !! p = None /\ world s' (<[p := usable n]> live) lab held /\ keeps live s s'
    end.
Proof.
  intros Hw Hn. destruct (world_src _ _ _ _ Hw) as (Em & blk & Hi & Ho).
  destruct (kmalloc_ok _ _ _ _ _ n Hi ltac:(lia) ltac:(lia)) as (r & h & Hr & Hres).
  exists r, (with_heap h s). split; [by apply on_src_ok|]. destruct r as [p|].
  - destruct Hres as (Hpos & blk' & Hi' & Hnone & _ & Hof & Hkb). split; [done|]. split; [done|]. split.
    + eapply world_heap; [exact Hw| |exact Hi'|intros x Hx; eapply owned_keeps; [exact Hkb|by apply Ho]].
      rewrite <- Em. exact (kmalloc_max _ _ _ _ _ _ Hr).
    + by eapply inv_fresh.
  - destruct Hres as [-> Hno]. rewrite with_heap_id. split; [done|]. by exists blk, live.
Qed.

(** [memset] to zero inside a block. *)
Lemma zero_step s live lab held p k q n : world s live lab held -> live !! p = Some k -> p <= q -> q + n <= p + k -> 0 <= n ->
  exists s', on_src (on_mem (memset q 0 n)) s = Ok (tt, s') /\ world s' live lab held /\ keeps (delete p live) s s' /\
    (forall x, q <= x < q + n -> memory s' !! x = Some 0).
Proof.
  intros Hw Hp Hq Hqn Hn. destruct (world_block _ _ _ _ _ _ Hw Hp) as (_ & _ & Hm & _).
  destruct (memset_ok (memory s) q 0 n Hn) as (m' & Hset & Hf); [eapply mapped_sub; [exact Hm|lia|lia]|].
  unfold filled in Hf. change (u8 0) with 0 in Hf.
  destruct (world_client s live lab held p k m' Hw Hp) as [Hw' Hk'].
  - intros x v. rewrite Hf. case_decide; [intros [= <-]; by unfold is_byte|]. by apply (world_bytes _ _ _ _ Hw).
  - intros x. rewrite Hf. case_decide; [|done]. split; [|by eexists]. intros _. apply Hm. lia.
  - intros x Hx. rewrite Hf, decide_False; [done|lia].
  - exists (set_memory m' s). split; [|split; [done|split; [done|]]].
    + unfold on_src, on_mem. fold (memory s). by rewrite Hset.
    + intros x Hx. cbn. by rewrite Hf, decide_True.
Qed.

Lemma keeps_delete live p k s s' : live !! p = None -> keeps (delete p (<[p := k]> live)) s s' -> keeps live s s'.
Proof. intros Hn. by rewrite delete_insert_id. Qed.

Lemma kzalloc_step s live lab held n : world s live lab held -> 0 <= n <= 2 ^ 31 - 24 ->
  exists r s', on_src (kzalloc hhdm_offset caches_at n) s = Ok (r, s') /\
    match r with
    | None => s' = s /\ starved s n
    | Some p => 0 < n /\ live !! p = None /\ world s' (<[p := usable n]> live) lab held /\ keeps live s s' /\
        forall x, p <= x < p + n -> memory s' !! x = Some 0
    end.
Proof.
  intros Hw Hn. destruct (kmalloc_step s live lab held n Hw Hn) as (r & s1 & Hr & Hres).
  assert (forall r' (f : ptr -> ST kheap ptr), on_src (r ← kmalloc hhdm_offset caches_at n; f r) s = r' <->
    on_src (f r) s1 = r') as Hbind.
  { intros r' f. unfold on_src in Hr |- *. unfold mbind, st_bind at 1.
    destruct (kmalloc hhdm_offset caches_at n (m_src s)) as [[x h]| | |]; try done. injection Hr as <- <-. done. }
  exists r. destruct r as [p|].
  - destruct Hres as (Hpos & Hnone & Hw1 & Hk1).
    destruct (zero_step s1 _ lab held p (usable n) p n Hw1) as (s2 & Hz & Hw2 & Hk2 & Hz2);
      [apply lookup_insert_eq|lia|pose proof (usable_fits caches_at n); lia|lia|].
    exists s2. split.
    + apply Hbind. revert Hz. unfold on_src, on_mem. destruct (memset p 0 n (kh_mem (m_src s1))) eqn:E; try done.
      intros [= <-]. unfold mbind, st_bind, on_mem. by rewrite E.
    + split; [done|]. split; [done|]. split; [done|]. split; [|done].
      eapply keeps_then; [exact Hk1|reflexivity|]. by eapply keeps_delete.
  - destruct Hres as [-> Hst]. exists s. split; [apply Hbind; by destruct s|]. by split.
Qed.

(** *** Mapping the module *)

Context (kernel_vas : option vas) (root : Z) (Hroot : vas_root kernel_vas = Some root).

Definition load_flags : Z := Z.lor (Z.lor Pte.PAGE_PRESENT Pte.PAGE_WRITE) Pte.PAGE_GLOBAL.

Lemma same_page w : vpage w = vpage (w / 4096 * 4096).
Proof. unfold vpage. rewrite !Z.shiftr_div_pow2 by lia. change (2 ^ 12) with 4096. by rewrite Z.div_mul. Qed.

Lemma map_step s live lab held raw k base t : world s live lab held -> lab !! root = Some (root, []) ->
  live !! raw = Some k -> raw <= base -> base + t <= raw + k -> 0 < t <= 2 ^ 32 ->
  let first := PAGE_ALIGN_DOWN base in
  exists rc s' lab' held', paging_map_range kernel_vas first (VIRT_TO_PHYS hhdm_offset first)
      (u64 (PAGE_ALIGN_UP (u64 (base + t)) - first)) load_flags s = Ok (rc, s') /\
    world s' live lab' held' /\ memory s' = memory s /\ lab ⊆ lab' /\
    (rc = 0 /\ (forall w, base <= w < base + t -> answers kernel_vas s' w (w - hhdm_offset) (flags_to_pte load_flags)) \/ rc = -1).
Proof.
  intros Hw Hrt Hr Hb Hbt Ht. destruct (world_block _ _ _ _ _ _ Hw Hr) as (H1 & H2 & _ & H3 & [h Hh] & _).
  set (q := base / 4096). set (e := (base + t + 4095) / 4096).
  pose proof (Z.div_mod base 4096 ltac:(lia)) as Dq. pose proof (Z.mod_pos_bound base 4096 ltac:(lia)).
  pose proof (Z.div_mod (base + t + 4095) 4096 ltac:(lia)) as De. pose proof (Z.mod_pos_bound (base + t + 4095) 4096 ltac:(lia)).
  fold q in Dq. fold e in De. assert (h <= q) by (apply Z.div_le_lower_bound; lia).
  assert (e <= h + max + 1) by lia. assert (q < e) by lia.
  assert (PAGE_ALIGN_DOWN base = q * 4096) as -> by (rewrite align_down by lia; done).
  rewrite (u64_small (base + t)) by lia. assert (PAGE_ALIGN_UP (base + t) = e * 4096) as -> by (rewrite align_up by lia; done).
  cbv zeta. rewrite (u64_small (e * 4096 - q * 4096)) by lia.
  assert (VIRT_TO_PHYS hhdm_offset (q * 4096) = (q - h) * 4096) as -> by (unfold VIRT_TO_PHYS; rewrite u64_small by lia; lia).
  destruct (@paging_map_range_ok kheap heap_source (heap_source_laws hhdm_offset caches_at live (memory s) max max_40)
    kernel_vas root s lab held (q * 4096) ((q - h) * 4096) (e * 4096 - q * 4096) load_flags Hw Hroot Hrt)
    as (rc & s' & lab' & held' & m & Hrun & Ht' & Hlab & Hres & Hans & _);
    [by exists q|by exists (q - h)|lia|lia|lia|lia|lia|].
  destruct (tr_src _ _ _ Ht') as (Em & _). change (memory s' = memory s) in Em.
  exists rc, s', lab', held'. split; [exact Hrun|]. split; [unfold world; by rewrite Em|]. split; [done|]. split; [done|].
  destruct Hres as [[-> ->]|[-> _]]; [left; split; [done|]|by right]. intros w Hw'.
  pose proof (Z.div_mod w 4096 ltac:(lia)) as Dw. pose proof (Z.mod_pos_bound w 4096 ltac:(lia)).
  assert (q <= w / 4096) by (apply Z.div_le_lower_bound; lia). assert (w / 4096 < e) by (apply Z.div_lt_upper_bound; lia).
  replace (w - hhdm_offset) with ((q - h) * 4096 + 4096 * (w / 4096 - q) + w mod 4096) by lia. apply Hans.
  - assert ((e * 4096 - q * 4096 + 4095) / 4096 = e - q) as -> by (symmetry; apply (Z.div_unique _ _ _ 4095); lia). lia.
  - rewrite (same_page w). f_equal. lia.
Qed.

Lemma answers_memory s w p f m : answers kernel_vas s w p f -> answers kernel_vas (set_memory m s) w p f.
Proof. rewrite !(answers_iff _ root) by done. done. Qed.
End load.
