(* ===== verification/ElfLoad.v ===== *)
(** Loading the sections of a driver, [sdi_elf_prepare_sections] of
    [kernel/src/sdi/elf.c], over the heap of mm/kheap.c and the page tables of
    mm/paging.c, with a concrete file at the end. *)
From S2P Require Import Prelude StringLib WordMem Dll Pfndb Pmm Kheap KheapInv KheapCreate KheapLarge KheapSpec KheapEnv Paging KheapPages Elf ElfSpec ElfLoops ElfWorld.

Section load.
Context (hhdm_offset caches_at : Z) (max : Z) (Hmax : max < 2 ^ 39) (Htop : hhdm_offset + (max + 1) * 4096 <= 2 ^ 64 - 8192).
Context (kernel_vas : option vas) (root : Z) (Hroot : vas_root kernel_vas = Some root).
Abbreviation M := (machine kheap).
Abbreviation world := (world hhdm_offset caches_at max Hmax).
Abbreviation starved := (starved hhdm_offset caches_at).
Abbreviation world_block := (world_block hhdm_offset caches_at max Hmax).
Abbreviation world_bytes := (world_bytes hhdm_offset caches_at max Hmax).
Abbreviation world_disjoint := (world_disjoint hhdm_offset caches_at max Hmax).
Abbreviation world_client := (world_client hhdm_offset caches_at max Hmax).
Abbreviation world_client2 := (world_client2 hhdm_offset caches_at max Hmax).
Abbreviation kmalloc_step := (kmalloc_step hhdm_offset caches_at max Hmax).
Abbreviation zero_step := (zero_step hhdm_offset caches_at max Hmax).
Abbreviation kzalloc_step := (kzalloc_step hhdm_offset caches_at max Hmax).
Abbreviation map_step := (map_step hhdm_offset caches_at max Hmax Htop kernel_vas root Hroot).
Abbreviation answers_memory := (answers_memory kernel_vas root Hroot).

(** ** The loaded module *)

Section image.
Context (img : list Z) (a : Z) (Hb : Forall is_byte img) (Hok : header_ok img).
Abbreviation len := (Z.of_nat (length img)).
Abbreviation secs := (sections_of img).

Record module_ok (s : M) (c : context) : Prop := {
  mo_image : cx_image c = a /\ cx_size c = len /\ cx_sections c = a + shoff img;
  mo_sections : exists al os, packed secs os 0 (cx_msize c) al /\ length os = length secs /\ (al | cx_module c) /\
    forall j sec off, secs !! j = Some sec -> os !! j = Some off -> loaded sec = true ->
      load_word (memory s) (cx_bases c + 8 * Z.of_nat j) = Ok (cx_module c + off) /\
      forall k, 0 <= k < sh_size sec -> memory s !! (cx_module c + off + k) =
        if sh_type sec =? SHT_NOBITS then Some 0 else img !! Z.to_nat (sh_offset sec + k);
  mo_unloaded j sec : secs !! j = Some sec -> loaded sec = false ->
    load_word (memory s) (cx_bases c + 8 * Z.of_nat j) = Ok 0;
  mo_mapped w : cx_module c <= w < cx_module c + cx_msize c ->
    answers kernel_vas s w (w - hhdm_offset) (flags_to_pte load_flags);
}.

(** From the block for the module on. *)
Definition finish (c : context) (raw total max_align : Z) : ST M (option context) :=
  let base := sdi_elf_align_up raw max_align in
  let c := set_module base total c in
  on_src (on_mem (memset base 0 total)) ;;
  let first := PAGE_ALIGN_DOWN base in
  rc ← paging_map_range kernel_vas first (VIRT_TO_PHYS hhdm_offset first)
         (u64 (PAGE_ALIGN_UP (u64 (base + total)) - first)) load_flags;
  if negb (rc =? 0) then mret None else
  copy_sections section_fuel c 0 ;;
  mret (Some c).

(** Why it may fail there. *)
Definition not_mapped (s' : M) : Prop := exists virt phys size s1,
  paging_map_range kernel_vas virt phys size load_flags s1 = Ok (-1, s').

Lemma count_pos : 1 <= shnum img < 65536.
Proof. split; [apply Hok|by apply shnum_range]. Qed.

(** What the two arrays and the block of the module are when it is reached. *)
Record ready (s : M) (live : gmap Z Z) (c : context) (raw t al : Z) (os : list Z) : Prop := {
  rd_ctx : cx_image c = a /\ cx_size c = len /\ cx_sections c = a + shoff img;
  rd_image : exists k, live !! a = Some k /\ len <= k;
  rd_bases : exists k, live !! cx_bases c = Some k /\ 8 * shnum img <= k;
  rd_offsets : exists k, live !! cx_offsets c = Some k /\ 8 * shnum img <= k;
  rd_raw : exists k, live !! raw = Some k /\ t + al - 1 <= k;
  rd_apart : a <> cx_bases c /\ a <> cx_offsets c /\ a <> raw /\ cx_bases c <> cx_offsets c /\ cx_bases c <> raw /\ cx_offsets c <> raw;
  rd_holds : holds (memory s) a img;
  rd_zero x : cx_bases c <= x < cx_bases c + 8 * shnum img -> memory s !! x = Some 0;
  rd_words : words_at (memory s) (cx_offsets c) 0 secs os (fun off => off);
  rd_packed : packed secs os 0 t al /\ length os = length secs /\ pow2 al /\ al <= 4096 /\ 0 < t <= 2 ^ 31 /\
    Forall (fun sec => loaded sec = true -> section_ok len sec = true) secs;
}.

Lemma loaded_once t al os j j' sec sec' off off' : packed secs os 0 t al -> secs !! j = Some sec -> os !! j = Some off ->
  loaded sec = true -> secs !! j' = Some sec' -> os !! j' = Some off' -> loaded sec' = true -> j <> j' ->
  off + sh_size sec <= off' \/ off' + sh_size sec' <= off.
Proof.
  intros Hpk Hl Ho Hld Hl' Ho' Hld' Hne. destruct (Hpk _ _ _ Hl Ho Hld) as (_ & _ & _ & _ & H1).
  destruct (Hpk _ _ _ Hl' Ho' Hld') as (_ & _ & _ & _ & H2).
  assert (j < j' \/ j' < j)%nat as [Hlt|Hlt] by lia; [left; by eapply H1|right; by eapply H2].
Qed.

(** The copies, once the module is mapped in [s2]: outside the module's block
    the memory is still that of [s]. *)
Lemma fill_ok s s2 live lab held c raw t al os base : world s live lab held -> ready s live c raw t al os ->
  (exists lab2 held2, world s2 live lab2 held2) -> cx_module c = base -> (al | base) -> cx_msize c = t ->
  raw <= base -> base < raw + al ->
  (forall x p k, live !! p = Some k -> p <> raw -> p <= x < p + k -> memory s2 !! x = memory s !! x) ->
  (forall x, base <= x < base + t -> memory s2 !! x = Some 0) ->
  (forall w, base <= w < base + t -> answers kernel_vas s2 w (w - hhdm_offset) (flags_to_pte load_flags)) ->
  exists m', copy_sections section_fuel c 0 s2 = Ok (tt, set_memory m' s2) /\
    (forall lab2 held2, world s2 live lab2 held2 -> world (set_memory m' s2) live lab2 held2) /\
    keeps (delete raw (delete (cx_bases c) live)) s2 (set_memory m' s2) /\ module_ok (set_memory m' s2) c.
Proof.
  intros Hw [(C1 & C2 & C3) (ka & La & Ka) (kb & Lb & Kb) (ko & Lo & Ko) (kr & Lr & Kr) (N1 & N2 & N3 & N4 & N5 & N6)
    Hh Hz Hwd (Hpk & Hlen & Hal & Hal4 & Ht & Hall)] (lab2 & held2 & Hw2) Eb Hdiv Et Hge Hlt Hsame Hz2 Hans.
  destruct (world_block _ _ _ _ _ _ Hw Lr) as (B1 & B2 & _ & B3 & _).
  pose proof count_pos as Hcnt. pose proof (world_disjoint _ _ _ _ _ _ _ _ Hw La Lb N1) as A1.
  pose proof (world_disjoint _ _ _ _ _ _ _ _ Hw La Lr N3) as A2. pose proof (world_disjoint _ _ _ _ _ _ _ _ Hw Lb Lo N4) as A3.
  pose proof (world_disjoint _ _ _ _ _ _ _ _ Hw Lb Lr N5) as A4. pose proof (world_disjoint _ _ _ _ _ _ _ _ Hw Lo Lr N6) as A5.
  unfold apart_from in A1, A2, A3, A4, A5.
  assert (forall j (sec : shdr), secs !! j = Some sec -> Z.of_nat j < shnum img) as Hj.
  { intros j sec Hl. apply lookup_lt_Some in Hl. rewrite sections_of_length in Hl. lia. }
  destruct (copy_sections_ok img a Hb Hok c C1 C3 t al os Hpk Hlen Hall) with (fuel := section_fuel) (i := 0%nat) (s := s2)
    as (m' & Hr3 & M1 & M2 & M3 & M4 & M5); rewrite ?Eb; try (unfold apart_from; lia).
  { unfold section_fuel. lia. }
  { eapply image_frame; [|exact Hh]. intros x Hx. apply (Hsame x a ka); [done|done|lia]. }
  { by eapply world_bytes. }
  { destruct (world_block _ _ _ _ _ _ Hw2 Lb) as (_ & _ & Hm & _). eapply mapped_sub; [exact Hm|lia|lia]. }
  { destruct (world_block _ _ _ _ _ _ Hw2 Lr) as (_ & _ & Hm & _). eapply mapped_sub; [exact Hm|lia|lia]. }
  { intros j sec off Hl Ho Hx. rewrite <- (Hwd j sec off Hl Ho Hx). apply load_le_frame. intros x Hin.
    specialize (Hj _ _ Hl). apply (Hsame x (cx_offsets c) ko); [done|done|lia]. }
  change (Z.of_nat 0) with 0 in Hr3. rewrite Eb in M5.
  assert (forall x, ~ base <= x < base + t -> ~ copied_to img c os 0 x) as Hnc.
  { intros x Hx (j & sec & off & _ & Hl & Ho & Hcs & Hin). unfold copied_section in Hcs. apply andb_true_iff in Hcs as [Hld _].
    destruct (Hpk _ _ _ Hl Ho Hld) as (? & ? & _). lia. }
  assert (forall lb hd, world s2 live lb hd -> world (set_memory m' s2) live lb hd /\
    keeps (delete raw (delete (cx_bases c) live)) s2 (set_memory m' s2)) as Hcl.
  { intros lb hd Hw'. apply (world_client2 s2 live lb hd (cx_bases c) kb raw kr m' Hw' Lb Lr N5 M1 M2).
    intros x H1 H2. apply M3; [lia|]. apply Hnc. lia. }
  exists m'. split; [exact Hr3|]. split; [by apply Hcl|]. split; [by eapply Hcl|]. split; rewrite ?Eb, ?Et.
  - done.
  - exists al, os. split; [done|]. split; [done|]. split; [done|]. intros j sec off Hl Ho Hld.
    destruct (M5 j sec off ltac:(lia) Hl Ho Hld) as [Hwb Hcp]. split; [exact Hwb|]. intros k Hk.
    destruct (Hpk _ _ _ Hl Ho Hld) as (P1 & P2 & _). unfold copied_section, section_bytes in Hcp. rewrite Hld, Eb in Hcp. cbn [andb] in Hcp.
    destruct (Z.eqb_spec (sh_type sec) SHT_NOBITS) as [En|En]; [|by apply Hcp].
    change (m' !! (base + off + k) = Some 0). rewrite M3; [apply Hz2; lia|lia|].
    intros (j' & sec' & off' & _ & Hl' & Ho' & Hcs & Hin). unfold copied_section in Hcs.
    apply andb_true_iff in Hcs as [Hld' Hty]. assert (j <> j') as Hne by (intros <-; simplify_eq; by rewrite En in Hty).
    pose proof (loaded_once _ _ _ _ _ _ _ _ _ Hpk Hl Ho Hld Hl' Ho' Hld' Hne). lia.
  - intros j sec Hl Hld. etrans; [exact (M4 j sec ltac:(lia) Hl Hld)|]. apply zero_word. intros y Hy.
    specialize (Hj _ _ Hl). rewrite (Hsame y (cx_bases c) kb); [apply Hz; lia|done|done|lia].
  - intros w Hin. apply answers_memory. by apply Hans.
Qed.

Lemma ready_module s live c raw t al os b n : ready s live c raw t al os -> ready s live (set_module b n c) raw t al os.
Proof. by intros []. Qed.

Lemma finish_ok s live lab held c raw t al os : world s live lab held -> lab !! root = Some (root, []) ->
  ready s live c raw t al os ->
  exists r s' lab' held', finish c raw t al s = Ok (r, s') /\ world s' live lab' held' /\ lab ⊆ lab' /\
    keeps (delete raw (delete (cx_bases c) live)) s s' /\
    match r with
    | Some c' => c' = set_module (cx_module c') t c /\ raw <= cx_module c' /\ cx_module c' + t < raw + t + al /\ module_ok s' c'
    | None => not_mapped s'
    end.
Proof.
  intros Hw Hrt Hrd. pose proof Hrd as [_ _ _ _ (kr & Lr & Kr) _ _ _ _ (_ & _ & Hal & Hal4 & Ht & _)].
  destruct (world_block _ _ _ _ _ _ Hw Lr) as (B1 & B2 & Hmr & B3 & _).
  assert (0 < al) by (destruct Hal as (e & ? & ->); lia).
  destruct (align_up_ok raw al Hal Hal4 ltac:(lia) ltac:(lia)) as [Hbase Hdiv]. unfold finish.
  set (base := sdi_elf_align_up raw al) in *. cbv zeta.
  destruct (zero_step s live lab held raw kr base t Hw Lr) as (s1 & Hr1 & Hw1 & Hk1 & Hz1); [lia|lia|lia|].
  rewrite (st_bind_ok _ _ _ _ _ Hr1).
  destruct (map_step s1 live lab held raw kr base t Hw1 Hrt Lr) as (rc & s2 & lab2 & held2 & Hr2 & Hw2 & Em & Hl2 & Hres); [lia|lia|lia|].
  rewrite (st_bind_ok _ _ _ _ _ Hr2).
  assert (forall x p k, live !! p = Some k -> p <> raw -> p <= x < p + k -> memory s2 !! x = memory s !! x) as Hsame.
  { intros x p k Hp Hne Hx. rewrite Em. apply (Hk1 p k x); [|done]. by apply lookup_delete_Some. }
  assert (keeps (delete raw (delete (cx_bases c) live)) s s2) as Hk2.
  { intros p k x Hp Hx. apply lookup_delete_Some in Hp as [? [_ Hp]%lookup_delete_Some]. by apply (Hsame x p k). }
  destruct Hres as [[-> Hans]| ->]; cbn [negb Z.eqb];
    [|exists None, s2, lab2, held2; split; [done|]; split; [done|]; split; [done|]; split; [done|]; by eexists _, _, _, s1].
  destruct (fill_ok s s2 live lab held (set_module base t c) raw t al os base Hw) as (m' & Hr3 & Hw3 & Hk3 & Hmod);
    [by apply ready_module|by exists lab2, held2|done|done|done|lia|lia|done| |done|].
  { intros x Hx. rewrite Em. by apply Hz1. }
  rewrite (st_bind_ok _ _ _ _ _ Hr3). exists (Some (set_module base t c)), (set_memory m' s2), lab2, held2.
  split; [done|]. split; [by apply Hw3|]. split; [done|]. split; [eapply keeps_then; [exact Hk2|done|exact Hk3]|].
  cbn [set_module cx_module]. split; [done|]. split; [lia|]. split; [lia|done].
Qed.

(** Why the whole function may return -1. *)
Inductive refused (s' : M) : Prop :=
| bad_section sec : sec ∈ secs -> loaded sec = true -> section_ok len sec = false -> refused s'
| nothing_loaded : Forall (fun sec => loaded sec = true -> sh_size sec = 0) secs -> refused s'
| no_heap n : 0 < n <= need secs + 2 ^ 20 -> starved s' n -> refused s'
| no_tables : not_mapped s' -> refused s'.

(** The two arrays. *)
Definition with_arrays (live : gmap Z Z) (bs os : Z) : gmap Z Z :=
  <[os := usable (8 * shnum img)]> (<[bs := usable (8 * shnum img)]> live).

Lemma arrays_step s live lab held : world s live lab held ->
  exists bs os s1 s2, on_src (kzalloc hhdm_offset caches_at (8 * shnum img)) s = Ok (bs, s1) /\
    on_src (kzalloc hhdm_offset caches_at (8 * shnum img)) s1 = Ok (os, s2) /\ keeps live s s1 /\
    match bs, os with
    | Some bs, Some os => live !! bs = None /\ live !! os = None /\ bs <> os /\ world s2 (with_arrays live bs os) lab held /\
        keeps live s s2 /\ (forall x, bs <= x < bs + 8 * shnum img -> memory s2 !! x = Some 0)
    | Some bs, None => live !! bs = None /\ world s2 (<[bs := usable (8 * shnum img)]> live) lab held /\ keeps live s s2 /\
        starved s2 (8 * shnum img)
    | None, _ => os = None /\ s2 = s /\ starved s (8 * shnum img)
    end.
Proof.
  intros Hw. pose proof count_pos as Hc. destruct (kzalloc_step s live lab held (8 * shnum img) Hw) as (bs & s1 & Hr1 & H1); [lia|].
  destruct bs as [bs|].
  2:{ destruct H1 as [-> Hst]. exists None, None, s, s. do 3 (split; [done|]). done. }
  destruct H1 as (_ & Hn1 & Hw1 & Hk1 & Hz1). pose proof (usable_fits caches_at (8 * shnum img)) as Hfit.
  destruct (kzalloc_step s1 _ lab held (8 * shnum img) Hw1) as (os & s2 & Hr2 & H2); [lia|].
  exists (Some bs), os, s1, s2. do 3 (split; [done|]). destruct os as [os|].
  2:{ destruct H2 as [-> Hst]. done. }
  destruct H2 as (_ & Hn2 & Hw2 & Hk2 & _). apply lookup_insert_None in Hn2 as [Hn2 Hne].
  split; [done|]. split; [done|]. split; [done|]. split; [done|]. split.
  - eapply keeps_then; [exact Hk1| |exact Hk2]. by apply insert_subseteq.
  - intros x Hx. etrans; [apply (Hk2 bs (usable (8 * shnum img)) x); [by rewrite lookup_insert_eq|lia]|by apply Hz1].
Qed.

(** The layout, written to the block [cx_offsets c]. *)
Lemma layout_step s live lab held c k : world s live lab held -> cx_image c = a -> cx_sections c = a + shoff img -> cx_size c = len ->
  (exists ka, live !! a = Some ka /\ len <= ka) -> live !! cx_offsets c = Some k -> 8 * shnum img <= k -> a <> cx_offsets c ->
  holds (memory s) a img -> need secs < 2 ^ 31 ->
  exists r s', layout_loop section_fuel c 0 0 1 s = Ok (r, s') /\ world s' live lab held /\
    keeps (delete (cx_offsets c) live) s s' /\
    match r with
    | None => exists sec, sec ∈ secs /\ loaded sec = true /\ section_ok len sec = false
    | Some (t, al) => exists os, words_at (memory s') (cx_offsets c) 0 secs os (fun off => off) /\ packed secs os 0 t al /\
        length os = length secs /\ 0 <= t <= need secs /\ pow2 al /\ al <= 4096 /\
        Forall (fun sec => loaded sec = true -> section_ok len sec = true) secs
    end.
Proof.
  intros Hw Hi Hs Hz (ka & Hla & Hka) Hlo Hk Hne Hh Hn. pose proof count_pos as Hc. pose proof (sections_of_sane img Hb) as Hsn.
  pose proof (world_disjoint _ _ _ _ _ _ _ _ Hw Hla Hlo Hne) as Hap. unfold apart_from in Hap.
  destruct (world_block _ _ _ _ _ _ Hw Hlo) as (_ & _ & Hm & _).
  destruct (layout_loop_ok img a Hb Hok c Hi Hs Hz section_fuel 0 0 1 s) as (r & m' & Hr & M1 & M2 & M3 & Hpl);
    [unfold section_fuel; lia|lia|done|by eapply world_bytes|eapply mapped_sub; [exact Hm|lia|lia]|unfold apart_from; lia|lia| |].
  { rewrite drop_0. lia. }
  destruct (world_client s live lab held _ k m' Hw Hlo M1 M2) as [Hw' Hk']; [intros x Hx; apply M3; lia|].
  exists r, (set_memory m' s). split; [exact Hr|]. split; [done|]. split; [done|]. rewrite drop_0 in Hpl.
  destruct (place len secs 0 1) as [[[t al] os]|] eqn:E.
  - destruct Hpl as [-> Hwd]. exists os. split; [exact Hwd|].
    destruct (place_ok _ _ _ _ _ _ _ E Hsn) as (P1 & P2 & P3 & P4 & _ & P6 & P7); [lia|lia|by exists 0|lia|]. done.
  - rewrite Hpl. eapply place_none; [exact E|done|lia|lia].
Qed.

Lemma nothing_packed t al os : packed secs os 0 t al -> length os = length secs -> t = 0 ->
  Forall (fun sec => loaded sec = true -> sh_size sec = 0) secs.
Proof.
  intros Hp Hl ->. apply Forall_lookup. intros j sec Hj Hld. destruct (lookup_lt_is_Some_2 os j) as [off Ho].
  { rewrite Hl. by apply lookup_lt_Some in Hj. }
  destruct (Hp _ _ _ Hj Ho Hld) as (? & ? & _). destruct (sane_at _ _ _ (sections_of_sane img Hb) Hj). lia.
Qed.

(** The state when the block of the module is allocated. *)
Lemma ready_after_alloc s1 s2 live lab held c bs os ofs raw kr t al : let live2 := with_arrays live bs os in
  live !! bs = None -> live !! os = None -> bs <> os -> live2 !! raw = None -> t + al - 1 <= kr ->
  cx_image c = a /\ cx_size c = len /\ cx_sections c = a + shoff img -> cx_bases c = bs -> cx_offsets c = os ->
  (exists ka, live !! a = Some ka /\ len <= ka) -> holds (memory s1) a img ->
  (forall x, bs <= x < bs + 8 * shnum img -> memory s1 !! x = Some 0) ->
  words_at (memory s1) os 0 secs ofs (fun off => off) ->
  packed secs ofs 0 t al /\ length ofs = length secs /\ pow2 al /\ al <= 4096 /\ 0 < t <= 2 ^ 31 /\
    Forall (fun sec => loaded sec = true -> section_ok len sec = true) secs ->
  world s2 (<[raw := kr]> live2) lab held -> keeps live2 s1 s2 ->
  ready s2 (<[raw := kr]> live2) c raw t al ofs.
Proof.
  intros live2 Nb No Hne Nr Hkr Hc Eb Eo (ka & La & Hka) Hh Hz Hwd Hpk Hw Hk. pose proof count_pos as Hcnt.
  pose proof (usable_fits caches_at (8 * shnum img)) as Hfit. set (ku := usable (8 * shnum img)) in *.
  assert (a <> bs /\ a <> os) as [Ab Ao] by (split; intros <-; congruence).
  assert (live2 !! os = Some ku) as Lo by apply lookup_insert_eq.
  assert (live2 !! bs = Some ku) as Lb by (unfold live2, with_arrays; rewrite lookup_insert_ne, lookup_insert_eq; done).
  assert (live2 !! a = Some ka) as La2 by (unfold live2, with_arrays; by rewrite !lookup_insert_ne).
  assert (forall p k, live2 !! p = Some k -> p <> raw /\ <[raw := kr]> live2 !! p = Some k) as Hin.
  { intros p k Hp. assert (p <> raw) by congruence. by rewrite lookup_insert_ne. }
  destruct (Hin _ _ Lo) as [Nor Lo']. destruct (Hin _ _ Lb) as [Nbr Lb']. destruct (Hin _ _ La2) as [Nar La'].
  split; rewrite ?Eb, ?Eo.
  - done.
  - by exists ka.
  - exists ku. split; [exact Lb'|lia].
  - exists ku. split; [exact Lo'|lia].
  - exists kr. split; [apply lookup_insert_eq|lia].
  - done.
  - eapply image_frame; [|exact Hh]. intros x Hx. apply (Hk a ka x); [done|lia].
  - intros x Hx. etrans; [apply (Hk bs ku x); [done|lia]|]. by apply Hz.
  - intros j sec off Hl Ho Hx. rewrite <- (Hwd j sec off Hl Ho Hx). apply load_le_frame. intros x Hin'.
    apply lookup_lt_Some in Hl. rewrite sections_of_length in Hl. apply (Hk os ku x); [done|lia].
  - exact Hpk.
Qed.

(** From the layout on. *)
Lemma after_arrays s live lab held c bs os : let live2 := with_arrays live bs os in
  world s live2 lab held -> lab !! root = Some (root, []) -> live !! bs = None -> live !! os = None -> bs <> os ->
  cx_image c = a /\ cx_size c = len /\ cx_sections c = a + shoff img -> cx_bases c = bs -> cx_offsets c = os ->
  (exists ka, live !! a = Some ka /\ len <= ka) -> holds (memory s) a img -> need secs + 2 ^ 20 <= 2 ^ 31 ->
  (forall x, bs <= x < bs + 8 * shnum img -> memory s !! x = Some 0) ->
  exists r s' live' lab' held', (l ← layout_loop section_fuel c 0 0 1;
      match l with
      | None => mret None
      | Some (total, max_align) =>
          if total =? 0 then mret None else
          raw ← on_src (kmalloc hhdm_offset caches_at (u64 (u64 (total + max_align) - 1)));
          match raw with None => mret None | Some raw => finish c raw total max_align end
      end) s = Ok (r, s') /\ world s' live' lab' held' /\ lab ⊆ lab' /\ live2 ⊆ live' /\ keeps live s s' /\
    match r with
    | Some c' => module_ok s' c' /\ cx_bases c' = bs /\ cx_offsets c' = os /\
        exists raw k, live' = <[raw := k]> live2 /\ live2 !! raw = None /\
        raw <= cx_module c' /\ cx_module c' + cx_msize c' <= raw + k
    | None => refused s'
    end.
Proof.
  intros live2 Hw Hrt Nb No Hne (C1 & C2 & C3) Eb Eo (ka & La & Hka) Hh Hn Hz. pose proof count_pos as Hc.
  assert (a <> bs /\ a <> os) as [Ab Ao] by (split; intros <-; congruence).
  pose proof (usable_fits caches_at (8 * shnum img)) as Hfit.
  assert (live2 !! os = Some (usable (8 * shnum img))) as Lo by apply lookup_insert_eq.
  assert (live2 !! bs = Some (usable (8 * shnum img))) as Lb by (unfold live2, with_arrays; rewrite lookup_insert_ne, lookup_insert_eq; done).
  assert (live2 !! a = Some ka) as La2 by (unfold live2, with_arrays; by rewrite !lookup_insert_ne).
  destruct (layout_step s live2 lab held c (usable (8 * shnum img)) Hw C1 C3 C2) as (l & s1 & Hr1 & Hw1 & Hk1 & Hl);
    rewrite ?Eo; [by exists ka|done|lia|done|done|lia|]. rewrite Eo in Hk1.
  assert (live ⊆ delete os live2) as Hsub1.
  { unfold live2, with_arrays. rewrite delete_insert_id; [by apply insert_subseteq|by rewrite lookup_insert_ne]. }
  assert (keeps live s s1) as Hkl by (intros p k x Hp Hx; apply (Hk1 p k x); [by eapply lookup_weaken|done]).
  rewrite (st_bind_ok _ _ _ _ _ Hr1). destruct l as [[t al]|].
  2:{ destruct Hl as (sec & ? & ? & ?). exists None, s1, live2, lab, held. do 5 (split; [done|]). by eapply bad_section. }
  destruct Hl as (ofs & Hwd & Hpk & Hlen & Ht & Hal & Hal4 & Hall). rewrite Eo in Hwd. destruct (Z.eqb_spec t 0) as [Et|Et].
  { exists None, s1, live2, lab, held. do 5 (split; [done|]). apply nothing_loaded. by eapply nothing_packed. }
  assert (0 < al) by (destruct Hal as (e & ? & ->); lia). rewrite (u64_small (t + al)), u64_small by lia.
  destruct (kmalloc_step s1 live2 lab held (t + al - 1) Hw1) as (raw & s2 & Hr2 & Hres); [lia|].
  rewrite (st_bind_ok _ _ _ _ _ Hr2). destruct raw as [raw|].
  2:{ destruct Hres as [-> Hst]. exists None, s1, live2, lab, held. do 5 (split; [done|]). apply (no_heap _ (t + al - 1)); [lia|done]. }
  destruct Hres as (_ & Nr & Hw2 & Hk2). set (kr := usable (t + al - 1)) in *.
  pose proof (usable_fits caches_at (t + al - 1)) as Hfr. fold kr in Hfr.
  assert (ready s2 (<[raw := kr]> live2) c raw t al ofs) as Hrd.
  { eapply (ready_after_alloc s1); try done; [by exists ka| | |].
    - eapply image_frame; [|exact Hh]. intros x Hx. apply (Hkl a ka x); [done|lia].
    - intros x Hx. etrans; [|by apply Hz]. apply (Hk1 bs (usable (8 * shnum img)) x); [by apply lookup_delete_Some|lia].
    - do 4 (split; [done|]). split; [lia|done]. }
  destruct (finish_ok s2 _ lab held c raw t al ofs Hw2 Hrt Hrd) as (r & s3 & lab' & held' & Hr3 & Hw3 & Hl3 & Hk3 & Hfin).
  exists r, s3, (<[raw := kr]> live2), lab', held'. split; [exact Hr3|]. split; [done|]. split; [done|].
  split; [by apply insert_subseteq|]. split.
  { intros p k x Hp Hx. assert (live2 !! p = Some k) as Hp2 by (eapply lookup_weaken; [exact Hp|]; etrans; [exact Hsub1|apply delete_subseteq]).
    etrans; [apply (Hk3 p k x); [|done]|etrans; [apply (Hk2 p k x); done|by apply (Hkl p k x)]].
    rewrite !lookup_delete_Some, Eb, lookup_insert_ne by congruence. split; [congruence|]. split; [intros ->; congruence|done]. }
  destruct r as [c'|]; [|by apply no_tables]. destruct Hfin as (Ec & G1 & G2 & Hmod). split; [done|].
  split; [by rewrite Ec|]. split; [by rewrite Ec|].
  exists raw, kr. split; [done|]. split; [done|]. split; [done|]. rewrite Ec. cbn [set_module cx_module cx_msize]. lia.
Qed.

Lemma arrays_sub live bs os : live !! bs = None -> live !! os = None -> bs <> os -> live ⊆ with_arrays live bs os.
Proof.
  intros Hb' Ho Hne. unfold with_arrays. etrans; [by apply (insert_subseteq live bs)|]. apply insert_subseteq. by rewrite lookup_insert_ne.
Qed.


End image.
End load.

(** ** A concrete file *)

(** ** The file: an empty section, eight bytes of text and eight bytes of zeroes *)

Definition demo_shdr (type flags offset size align : Z) : list Z :=
  le_bytes 4 0 ++ le_bytes 4 type ++ le_bytes 8 flags ++ le_bytes 8 0 ++ le_bytes 8 offset ++ le_bytes 8 size ++
  le_bytes 4 0 ++ le_bytes 4 0 ++ le_bytes 8 align ++ le_bytes 8 0.

Definition demo_image : list Z :=
  [0x7f; 69; 76; 70; 2; 1; 1; 0] ++ le_bytes 8 0 ++ le_bytes 2 1 ++ le_bytes 2 62 ++ le_bytes 4 1 ++ le_bytes 8 0 ++
  le_bytes 8 0 ++ le_bytes 8 72 ++ le_bytes 4 0 ++ le_bytes 2 64 ++ le_bytes 4 0 ++ le_bytes 2 64 ++ le_bytes 2 3 ++ le_bytes 2 0 ++
  [10; 20; 30; 40; 50; 60; 70; 80] ++
  demo_shdr 0 0 0 0 0 ++ demo_shdr 1 SHF_ALLOC 64 8 16 ++ demo_shdr SHT_NOBITS SHF_ALLOC 0 8 8.

Lemma bytes_dec l : forallb (fun b => (0 <=? b) && (b <? 256)) l = true -> Forall is_byte l.
Proof.
  rewrite forallb_forall. intros H. apply Forall_forall. intros b Hb. apply list_elem_of_In, H in Hb.
  apply andb_true_iff in Hb. unfold is_byte. lia.
Qed.

Lemma demo_image_bytes : Forall is_byte demo_image.
Proof. apply bytes_dec. by vm_compute. Qed.

Lemma demo_image_ok : header_ok demo_image.
Proof. apply (bool_decide_eq_true_1 (header_ok demo_image)). by vm_compute. Qed.

Lemma demo_image_length : Z.of_nat (length demo_image) = 264.
Proof. vm_compute. reflexivity. Qed.

#[local] Opaque demo_image.

(** The file alone in a memory, at 4096. *)
Fixpoint place_bytes (a : Z) (l : list Z) (m : mem) : mem :=
  match l with [] => m | b :: l => <[a := b]> (place_bytes (a + 1) l m) end.

Lemma place_bytes_at l : forall a m x, place_bytes a l m !! x =
  if decide (a <= x < a + Z.of_nat (length l)) then l !! Z.to_nat (x - a) else m !! x.
Proof.
  induction l as [|b l IH]; intros a m x; cbn [place_bytes length]; [by rewrite decide_False by lia|].
  destruct (decide (x = a)) as [->|Hne].
  - rewrite lookup_insert_eq, decide_True, Z.sub_diag by lia. done.
  - rewrite lookup_insert_ne, IH by done. destruct (decide (a + 1 <= _ < _)); [rewrite decide_True by lia|rewrite decide_False by lia; done].
    by replace (Z.to_nat (x - a)) with (S (Z.to_nat (x - (a + 1)))) by lia.
Qed.

Lemma place_bytes_holds l a m : holds (place_bytes a l m) a l.
Proof.
  intros i b Hi. rewrite place_bytes_at, decide_True by (apply lookup_lt_Some in Hi; lia).
  by replace (Z.to_nat (a + Z.of_nat i - a)) with i by lia.
Qed.

Definition alone : machine kheap := mk_mach ∅ 0 0 (set_mem (place_bytes 4096 demo_image ∅) demo_cold).

Lemma sdi_elf_header_spec_witness : sdi_elf_validate_header 4096 264 alone = Ok (true, alone).
Proof.
  pose proof (sdi_elf_header_spec alone 4096 demo_image (place_bytes_holds demo_image 4096 ∅) demo_image_bytes) as H.
  rewrite demo_image_length, (bool_decide_true _ demo_image_ok) in H. apply H. reflexivity.
Defined.

(** The text is a place for an address: the call at distance 96. *)
Lemma sdi_elf_relocation_spec_witness : exists m', sdi_elf_apply_relocation 4160 R_X86_64_PC32 4256 (-4) 4160 alone = Ok (0, set_memory m' alone) /\
  patched (memory alone) 4160 R_X86_64_PC32 4256 (-4) 4160 0 m'.
Proof.
  destruct (sdi_elf_relocation_spec alone 4160 R_X86_64_PC32 4256 (-4) 4160) as (rc & m' & Hr & Hp).
  - intros x b. change (memory alone) with (place_bytes 4096 demo_image ∅). rewrite place_bytes_at.
    case_decide; [apply Forall_lookup_1, demo_image_bytes|done].
  - intros x Hx. change (memory alone) with (place_bytes 4096 demo_image ∅). rewrite place_bytes_at.
    rewrite demo_image_length. change (Z.of_nat (reloc_width R_X86_64_PC32)) with 4 in Hx.
    rewrite decide_True by lia. apply lookup_lt_is_Some. pose proof demo_image_length. lia.
  - destruct Hp as [(-> & _ & _ & Hno)|Hp].
    + exfalso. apply (Hno 92). right. left. split; [by left|]. split; [lia|reflexivity].
    + destruct Hp as [Erc Hp]. subst rc. exists m'. split; [exact Hr|]. right. split; [exact (eq_refl 0)|exact Hp].
Defined.

(** ** The machine of twenty frames *)

Definition load_memmap : list memmap_entry := [mk_entry 0 4096 1; mk_entry 4096 73728 0].
Definition load_db : pfndb := match pfndb_init load_memmap with Ok (d, _) => d | _ => mk_pfndb ∅ 0 0 end.
Definition load_boot : pmm := mk_pmm (mem_map load_db) (max_pfn load_db) ∅ 0 0.
Definition load_pmm : pmm := match pmm_init load_boot with Ok (_, s) => s | _ => load_boot end.

Lemma load_valid : Forall valid_entry load_memmap.
Proof. unfold load_memmap, valid_entry. repeat constructor; simpl; lia. Qed.

Lemma load_pmm_ok : exists blk, pmm_ok load_pmm blk.
Proof.
  destruct (pfndb_init_ok load_memmap load_valid) as (d & m & Hr & Hb).
  { right. left. split; [done|by vm_compute]. }
  assert (load_db = d) as Hd by (unfold load_db; by rewrite Hr).
  destruct (pmm_init_ok load_boot) as (s' & blk & Hi & Hok & _).
  { unfold load_boot. rewrite Hd. apply (booted_map load_memmap d m); [apply load_valid| |done].
    by rewrite (bo_max _ _ _ Hb). }
  exists blk. unfold load_pmm. by rewrite Hi.
Qed.

Definition load_bytes : mem := zeros (Z.to_nat 81920) demo_hhdm.
Definition load_cold : kheap := mk_kheap load_pmm load_bytes ∅ ∅ 0 0.
Definition load_heap : kheap := match kheap_init demo_caches load_cold with Ok (_, s) => s | _ => load_cold end.

Lemma load_bytes_at x b : load_bytes !! x = Some b <-> demo_hhdm <= x < demo_hhdm + 81920 /\ b = 0.
Proof. apply zeros_at. Qed.

#[local] Opaque load_bytes.

Lemma load_max : pm_max load_pmm = 19.
Proof. vm_compute. reflexivity. Qed.

Lemma load_heap_inv : exists blk, heap_inv demo_hhdm demo_caches load_heap blk ∅.
Proof.
  destruct load_pmm_ok as [blk Hok]. exists blk.
  destruct (kheap_init_ok demo_hhdm demo_caches ltac:(done) ltac:(done) load_cold blk) as (s' & Hr & Hi).
  - done.
  - cbn [kh_pmm load_cold]. split; rewrite ?load_max; [done|by exists (demo_hhdm / 4096)|done].
  - cbn [kh_mem load_cold]. intros x b Hx. apply load_bytes_at in Hx as [_ ->]. unfold is_byte. lia.
  - cbn [kh_pmm kh_mem load_cold]. rewrite load_max. intros x Hx. exists 0. apply load_bytes_at. lia.
  - done.
  - done.
  - assert (load_heap = s') as -> by (unfold load_heap; by rewrite Hr). done.
Qed.

Definition after {A} (o : outcome (A * machine kheap)) : machine kheap := match o with Ok (_, s) => s | _ => mk_mach ∅ 0 0 load_heap end.
Definition result {A} (o : outcome (A * machine kheap)) : option A := match o with Ok (r, _) => Some r | _ => None end.

Lemma machine_result {A} (o : outcome (A * machine kheap)) r r' s : o = Ok (r, s) -> result o = Some r' -> r = r'.
Proof. intros ->. simpl. congruence. Qed.

Lemma machine_after {A} (o : outcome (A * machine kheap)) r s : o = Ok (r, s) -> after o = s.
Proof. by intros ->. Qed.

Definition load_root : machine kheap := after (ptable_create None (mk_mach ∅ 0 0 load_heap)).
Definition load_block : machine kheap := after (on_src (kmalloc demo_hhdm demo_caches 264) load_root).
Definition load_at : Z := 18446603336221261872.
Definition load_vas : option vas := Some (mk_vas (Some 73728) [] 4096).
(** The file in its block. *)
Definition load_demo : machine kheap := set_memory (place_bytes load_at demo_image (memory load_block)) load_block.
Definition load_ctx : context := mk_ctx load_at 264 (load_at + 72) 0 0 0 0.

Lemma load_small : 19 < 2 ^ 39.
Proof. lia. Qed.

Abbreviation load_world := (world demo_hhdm demo_caches 19 load_small).

Lemma load_root_world : exists lab held, load_world load_root ∅ lab held /\ lab !! 73728 = Some (73728, []).
Proof.
  destruct load_heap_inv as [blk Hi].
  destruct (@ptable_create_ok kheap heap_source (heap_source_laws demo_hhdm demo_caches ∅ (kh_mem load_heap) 19 (max_40 19 load_small))
    (mk_mach ∅ 0 0 load_heap) ∅ (fun _ => False) None) as (r & s' & lab' & held' & Hr & Ht & _ & _ & Hres).
  - apply tree_empty. split; [done|]. split; [vm_compute; reflexivity|]. exists blk. split; [exact Hi|done].
  - done.
  - assert (r = Some 73728) as -> by (apply (machine_result _ _ _ _ Hr); vm_compute; reflexivity).
    exists lab', held'. unfold load_root. rewrite (machine_after _ _ _ Hr). split; [|apply Hres].
    unfold world. destruct (tr_src _ _ _ Ht) as (Em & _). change (kh_mem (m_src s')) with (memory s') in Em. by rewrite Em.
Qed.

Lemma load_block_world : exists lab held, load_world load_block {[load_at := usable 264]} lab held /\ lab !! 73728 = Some (73728, []).
Proof.
  destruct load_root_world as (lab & held & Hw & Hl). exists lab, held. split; [|exact Hl].
  destruct (kmalloc_step _ _ _ _ _ _ _ _ 264 Hw ltac:(lia)) as (r & s' & Hr & Hres).
  assert (r = Some load_at) as -> by (apply (machine_result _ _ _ _ Hr); vm_compute; reflexivity).
  unfold load_block. rewrite (machine_after _ _ _ Hr). apply Hres.
Qed.

(** Writing a file into a block. *)
Lemma file_world s live lab held p k l : load_world s live lab held -> live !! p = Some k -> Forall is_byte l ->
  Z.of_nat (length l) <= k -> load_world (set_memory (place_bytes p l (memory s)) s) live lab held.
Proof.
  intros Hw Hp Hb Hl. destruct (world_block _ _ _ _ _ _ _ _ _ _ Hw Hp) as (_ & _ & Hm & _).
  refine (proj1 (world_client _ _ _ _ _ _ _ _ p k _ Hw Hp _ _ _)).
  - intros x b. rewrite place_bytes_at. case_decide; [by apply Forall_lookup_1|apply (world_bytes _ _ _ _ _ _ _ _ Hw)].
  - intros x. rewrite place_bytes_at. case_decide as Hx; [|done]. split; intros _; [apply Hm; lia|].
    apply lookup_lt_is_Some. lia.
  - intros x Hx. rewrite place_bytes_at, decide_False; [done|lia].
Qed.

Lemma load_demo_world : exists lab held, load_world load_demo {[load_at := usable 264]} lab held /\ lab !! 73728 = Some (73728, []).
Proof.
  destruct load_block_world as (lab & held & Hw & Hl). exists lab, held. split; [|exact Hl].
  apply (file_world load_block _ _ _ load_at (usable 264) demo_image Hw); [apply lookup_insert_eq|apply demo_image_bytes|].
  rewrite demo_image_length. apply (usable_fits demo_caches 264).
Qed.

Lemma demo_need : need (sections_of demo_image) = 8208.
Proof. vm_compute. reflexivity. Qed.

Lemma demo_run : option_map (option_map cx_msize) (result (sdi_elf_prepare_sections demo_hhdm demo_caches load_vas load_ctx load_demo)) =
  Some (Some 16).
Proof. vm_compute. reflexivity. Qed.

