(* ===== verification/ElfFile.v ===== *)
(** Drivers from the file system, the end of [kernel/src/sdi/elf.c]: reading a
    file into a buffer of the heap that grows, and loading every driver of a
    directory.

    The state puts the file system of [Vfs.v] beside the machine of [Elf.v] and
    whatever else the registration of a driver touches. The arrays on the stack
    (the chunk, the path, the directory entries) are values. The registration,
    [sdi_kernel_register_loaded_driver] of [SdiHost.v], is an argument. *)
From S2P Require Import Prelude Kenv Vfs Tmpfs StringLib WordMem Dll Pfndb Pmm Kheap Paging KheapPages Initrd Elf.

Definition DT_REG : Z := 8.
Definition CHUNK : Z := 1024.
Definition ENTRIES : Z := 8.

Record loader (E F X : Type) := mk_loader {
  ld_vfs : Vfs.world E F;
  ld_mach : machine kheap;
  ld_rest : X }.
Arguments mk_loader {E F X}.
Arguments ld_vfs {E F X}.
Arguments ld_mach {E F X}.
Arguments ld_rest {E F X}.

Section loader.
Context {E F X : Type} `{Kenv E} `{FsTable E F}.
Context (hhdm_offset caches_at : Z) (kernel_vas : option vas) (str_at fn_at : string -> Z).
Context (register : Z -> cstr -> ST (loader E F X) Z).
Abbreviation L := (loader E F X).

Definition on_vfs {A} (f : ST (Vfs.world E F) A) : ST L A := fun s =>
  match f (ld_vfs s) with
  | Ok (a, w) => Ok (a, mk_loader w (ld_mach s) (ld_rest s))
  | Panic => Panic | Fault => Fault | Timeout => Timeout
  end.
Definition on_machine {A} (f : ST (machine kheap) A) : ST L A := fun s =>
  match f (ld_mach s) with
  | Ok (a, m) => Ok (a, mk_loader (ld_vfs s) m (ld_rest s))
  | Panic => Panic | Fault => Fault | Timeout => Timeout
  end.
Definition l_krealloc (p : ptr) (n : Z) : ST L ptr := on_machine (on_src (krealloc hhdm_offset caches_at p n)).
Definition l_kfree (p : ptr) : ST L unit := on_machine (on_src (kfree hhdm_offset p)).

(** [memcpy] from an array of the stack. *)
Fixpoint put_bytes (a : Z) (l : list Z) : ST (machine kheap) unit :=
  match l with [] => mret tt | b :: l => wr 1 a b ;; put_bytes (a + 1) l end.

(** [while (new_capacity < size + got) new_capacity *= 2;] *)
Fixpoint grow (fuel : nat) (new_capacity need : Z) : outcome Z :=
  if negb (new_capacity <? need) then Ok new_capacity else
  match fuel with O => Timeout | S fuel => grow fuel (u64 (new_capacity * 2)) need end.

(** The buffer and its capacity when the next [got] bytes fit; none when there
    is no memory. *)
Definition make_room (buffer : ptr) (capacity size got : Z) : ST L (option (ptr * Z)) :=
  if capacity <? u64 (size + got) then
    new_capacity ← st_lift (grow 64 (if capacity =? 0 then 4096 else u64 (capacity * 2)) (u64 (size + got)));
    new_buffer ← l_krealloc buffer new_capacity;
    match new_buffer with None => mret None | Some _ => mret (Some (new_buffer, new_capacity)) end
  else mret (Some (buffer, capacity)).

(** The result code, and on success the buffer and the size. *)
Fixpoint read_loop (fuel : nat) (node : ptr) (chunk : list Z) (buffer : ptr) (capacity size offset : Z) : ST L (Z * (ptr * Z)) :=
  match fuel with
  | O => st_timeout
  | S fuel =>
      r ← on_vfs (vfs_read node (Some chunk) CHUNK offset O_RDONLY);
      let '(rc, (chunk', got)) := r in
      let chunk := default chunk chunk' in
      let got := default 0 got in
      let fail := (on_vfs (vfs_close node O_RDONLY) ;; l_kfree buffer ;; mret (-1, (None, 0))) in
      if negb (rc =? 0) then fail else
      if got =? 0 then on_vfs (vfs_close node O_RDONLY) ;; mret (0, (buffer, size)) else
      room ← make_room buffer capacity size got;
      match room with
      | None => fail
      | Some (buffer, capacity) =>
          b ← st_lift (deref buffer);
          on_machine (put_bytes (b + size) (take (Z.to_nat got) chunk)) ;;
          read_loop fuel node chunk buffer capacity (u64 (size + got)) (u64 (offset + got))
      end
  end.

(** [chunk] is what the array on the stack holds. *)
Definition sdi_read_file (fuel : nat) (chunk : list Z) (path : option cstr) : ST L (Z * (ptr * Z)) :=
  match path with
  | None => mret (-1, (None, 0))
  | Some _ =>
      root ← on_vfs (gets k_vfsroot);
      r ← on_vfs (vfs_open root path O_RDONLY true);
      if negb (r.1 =? 0) then mret (-1, (None, 0)) else read_loop fuel r.2 chunk None 0 0 0
  end.

(** The text in a buffer of [n] bytes after [strlcpy]. *)
Definition strlcpy_text (n : Z) (s : cstr) : cstr := take (Z.to_nat (n - 1)) s.

Definition sdi_join_path (buffer_size : Z) (directory name : option cstr) : cstr :=
  if buffer_size =? 0 then [] else
  let buffer := strlcpy_text buffer_size (default [] directory) in
  let used := Z.of_nat (length buffer) in
  let slashed := negb (used =? 0) && (used + 1 <? buffer_size) && negb (bool_decide (last buffer = Some slash)) in
  let buffer := if slashed then buffer ++ [slash] else buffer in
  let used := Z.of_nat (length buffer) in
  if used <? buffer_size then buffer ++ strlcpy_text (buffer_size - used) (default [] name) else buffer.

Definition sdi_load_driver_image (image image_size : Z) (path : cstr) : ST L Z :=
  symbol ← on_machine (load_image hhdm_offset caches_at kernel_vas str_at fn_at image image_size);
  match symbol with None => mret (-1) | Some driver_symbol => register driver_symbol path end.

(** [sdi_elf_string_ends_with] on a name and [".drv"]. *)
Definition drv_suffix : cstr := [46; 100; 114; 118].
Definition ends_with_drv (name : cstr) : bool :=
  (4 <=? length name)%nat && bool_decide (drop (length name - 4) name = drv_suffix).

(** One entry: the count of the loaded drivers. *)
Definition load_entry (fuel : nat) (chunk : list Z) (directory : cstr) (d : dirent) (loaded : Z) : ST L Z :=
  if negb (d_type d =? DT_REG) || negb (ends_with_drv (d_name d)) then mret loaded else
  let path := sdi_join_path PATH_MAX (Some directory) (Some (d_name d)) in
  r ← sdi_read_file fuel chunk (Some path);
  let '(rc, (image, image_size)) := r in
  if negb (rc =? 0) then mret loaded else
  if image_size =? 0 then l_kfree image ;; mret loaded else
  a ← st_lift (deref image);
  st ← sdi_load_driver_image a image_size path;
  l_kfree image ;;
  mret (if st =? 0 then u64 (loaded + 1) else loaded).

Fixpoint entries_loop (l : list dirent) (fuel : nat) (chunk : list Z) (directory : cstr) (offset loaded : Z) : ST L (Z * Z) :=
  match l with
  | [] => mret (offset, loaded)
  | d :: l => loaded ← load_entry fuel chunk directory d loaded; entries_loop l fuel chunk directory (u64 (offset + 1)) loaded
  end.

Fixpoint directory_loop (n : nat) (fuel : nat) (chunk : list Z) (directory : cstr) (dir : ptr) (offset loaded : Z) : ST L Z :=
  match n with
  | O => st_timeout
  | S n =>
      r ← on_vfs (vfs_getdents dir true (ENTRIES * sizeof_dirent) offset);
      let '(rc, (entries, bytes)) := r in
      let bytes := default 0 bytes in
      if negb (rc =? 0) then on_vfs (vfs_close dir (Z.lor O_RDONLY O_DIRECTORY)) ;; mret (-1) else
      if bytes =? 0 then on_vfs (vfs_close dir (Z.lor O_RDONLY O_DIRECTORY)) ;; mret 0 else
      r ← entries_loop (take (Z.to_nat (bytes / sizeof_dirent)) entries) fuel chunk directory offset loaded;
      directory_loop n fuel chunk directory dir r.1 r.2
  end.

Definition sdi_load_drivers (n fuel : nat) (chunk : list Z) (directory : option cstr) : ST L Z :=
  match directory with
  | None => mret (-1)
  | Some dir_path =>
      root ← on_vfs (gets k_vfsroot);
      r ← on_vfs (vfs_open root directory (Z.lor O_RDONLY O_DIRECTORY) true);
      if negb (r.1 =? 0) then mret 0 else directory_loop n fuel chunk dir_path r.2 0 0
  end.
End loader.
