(* ===== verification/ElfFileSpec.v ===== *)
(** Reading a driver from the file system, [ElfFile.v].

    [serves] is what the file system promises of an open file; [tmpfs_serves]
    shows that a regular file of tmpfs keeps the promise. [Buf] relates the
    buffer to the bytes read so far. [sdi_read_file_spec]: the whole file is
    read into a block of its own, or nothing is kept. *)
From S2P Require Import Prelude Kenv Vfs Tmpfs TmpfsDir TmpfsVfs StringLib WordMem Dll Pfndb Pmm Kheap KheapInv KheapCreate KheapLarge KheapSpec KheapEnv Paging KheapPages Initrd Elf ElfSpec ElfWorld ElfFile.

Section files.
Context {E F : Type} `{Kenv E} `{FsTable E F}.

(** [I] holds of the file system while the file is open. *)
Record serves (node : Z) (data : list Z) (I : Vfs.world E F -> Prop) : Prop := {
  sv_read w off chunk : I w -> 0 <= off -> length chunk = 1024%nat -> exists w',
    let c := read_count CHUNK off (Z.of_nat (length data)) in
    vfs_read (Some node) (Some chunk) CHUNK off O_RDONLY w =
      Ok ((0, (Some (take (Z.to_nat c) (drop (Z.to_nat off) data) ++ drop (Z.to_nat c) chunk), Some c)), w') /\ I w';
  sv_close w : I w -> exists rc w', vfs_close (Some node) O_RDONLY w = Ok (rc, w') }.

Section reading.
Context {X : Type} (hhdm_offset caches_at : Z).
Abbreviation L := (loader E F X).
Abbreviation heap_inv := (heap_inv hhdm_offset caches_at).

Definition heap_of (s : L) : kheap := m_src (ld_mach s).
Definition bytes_of (s : L) : mem := kh_mem (heap_of s).
Definition heap_has (live : gmap Z Z) (s : L) : Prop := exists blk, heap_inv (heap_of s) blk live.
Definition same_blocks (live : gmap Z Z) (s s' : L) : Prop := keeps_bytes live (heap_of s) (heap_of s').
(** The heap has no block of a size that a file may need. *)
Definition no_room (h : kheap) : Prop := exists blk live n, heap_inv h blk live /\ 0 < n <= 2 ^ 30 /\ no_memory blk n.
(** The heap had no room, and then the buffer was given back. *)
Definition starved (s : L) : Prop := exists h buffer, no_room h /\ kfree hhdm_offset buffer h = Ok (tt, heap_of s).
Definition with_kheap (h : kheap) (s : L) : L := mk_loader (ld_vfs s) (with_heap h (ld_mach s)) (ld_rest s).

Lemma on_heap_ok {A} (f : ST kheap A) (s : L) r h : f (heap_of s) = Ok (r, h) -> on_machine (on_src f) s = Ok (r, with_kheap h s).
Proof. intros Hf. unfold on_machine. rewrite (on_src_ok f (ld_mach s) r h Hf). done. Qed.

Lemma same_then live s1 s2 s3 : same_blocks live s1 s2 -> same_blocks live s2 s3 -> same_blocks live s1 s3.
Proof. intros H1 H2 b k x Hb Hx. rewrite (H2 b k x Hb Hx). by apply (H1 b k x). Qed.

(** *** Copying to the buffer *)

Lemma put_bytes_mem l : forall a (m : machine kheap), Forall is_byte l -> mapped (memory m) a (Z.of_nat (length l)) ->
  exists m', put_bytes a l m = Ok (tt, set_memory m' m) /\
  forall x, m' !! x = if decide (a <= x < a + Z.of_nat (length l)) then l !! Z.to_nat (x - a) else memory m !! x.
Proof.
  induction l as [|b l IH]; intros a m Hl Hm.
  { exists (memory m). split; [by destruct m as [? ? ? []]|]. intros x. rewrite decide_False; [done|cbn; lia]. }
  apply Forall_cons in Hl as [Hb Hl]. cbn [length] in Hm.
  destruct (store_le_ok [b] a (memory m)) as (m1 & Hs & Hm1); [by constructor|intros x Hx; apply Hm; cbn in Hx; lia|].
  assert (Hw : wr 1 a b m = Ok (tt, set_memory m1 m)).
  { unfold wr, on_src, on_mem. fold (memory m). change (store_le (length [b]) a (le_word [b]) (memory m)) with (store_le 1 a (b + 256 * 0) (memory m)) in Hs.
    replace (b + 256 * 0) with b in Hs by lia. by rewrite Hs. }
  destruct (IH (a + 1) (set_memory m1 m) Hl) as (m2 & H2 & Hm2).
  { intros x Hx. cbn. rewrite Hm1. case_decide; [|apply Hm; lia]. cbn in *. lia. }
  exists m2. cbn [put_bytes]. rewrite (st_bind_ok _ _ _ _ _ Hw). split; [exact H2|]. intros x. rewrite Hm2. cbn [length].
  destruct (decide (x = a)) as [->|Hne].
  - rewrite decide_False, decide_True by lia. cbn. rewrite Hm1, decide_True by (cbn; lia). by rewrite Z.sub_diag.
  - destruct (decide (a <= x < a + Z.of_nat (S (length l)))) as [Hx|Hx].
    + rewrite decide_True by lia. replace (Z.to_nat (x - a)) with (S (Z.to_nat (x - (a + 1)))) by lia. done.
    + rewrite decide_False by lia. cbn. rewrite Hm1, decide_False by (cbn; lia). done.
Qed.

(** *** The buffer *)

Definition Buf (live : gmap Z Z) (s0 : L) (data : list Z) (buffer : ptr) (capacity size : Z) (s : L) : Prop :=
  same_blocks live s0 s /\
  match buffer with
  | None => capacity = 0 /\ size = 0 /\ heap_has live s
  | Some p => exists k, live !! p = None /\ heap_has (<[p := k]> live) s /\ 4096 <= capacity <= k /\ capacity <= 2 ^ 30 /\ 0 <= size <= capacity /\
      forall i, 0 <= i < size -> bytes_of s !! (p + i) = data !! Z.to_nat i
  end.

Lemma usable_le n : n <= usable n.
Proof. apply (usable_fits caches_at). Qed.

Lemma same_new live p k s s' : live !! p = None -> same_blocks (delete p (<[p := k]> live)) s s' -> same_blocks live s s'.
Proof. intros Hn. by rewrite delete_insert_id. Qed.

Lemma first_buffer live s0 data n s : Buf live s0 data None 0 0 s -> n = 4096 -> exists r h,
  krealloc hhdm_offset caches_at None n (heap_of s) = Ok (r, h) /\
  match r with None => h = heap_of s /\ no_room (heap_of s) | Some p => Buf live s0 data (Some p) n 0 (with_kheap h s) end.
Proof.
  intros (Hk & _ & _ & blk & Hi) ->. cbn [krealloc].
  destruct (kmalloc_ok _ _ _ _ _ 4096 Hi ltac:(lia) ltac:(lia)) as (r & h & Hr & Hres). exists r, h. split; [exact Hr|].
  destruct r as [p|].
  - destruct Hres as (_ & blk' & Hi' & Hn & _ & Hof & _). pose proof (usable_le 4096). split.
    + eapply same_then; [exact Hk|]. exact (inv_fresh _ _ _ _ _ _ Hi Hof).
    + exists (usable 4096). split; [done|]. split; [by exists blk'|]. split; [lia|]. split; [lia|]. split; [lia|]. intros i Hi0. lia.
  - destruct Hres as [-> Hno]. split; [done|]. by exists blk, live, 4096.
Qed.

Lemma next_buffer live s0 data p c size s : Buf live s0 data (Some p) c size s -> 2 * c <= 2 ^ 30 -> exists r h,
  krealloc hhdm_offset caches_at (Some p) (2 * c) (heap_of s) = Ok (r, h) /\
  match r with None => h = heap_of s /\ no_room (heap_of s) | Some q => Buf live s0 data (Some q) (2 * c) size (with_kheap h s) end.
Proof.
  intros (Hk & k & Hn & (blk & Hi) & Hc & _ & Hs & Hb) H2.
  destruct (krealloc_ok _ _ _ _ _ p k (2 * c) Hi (lookup_insert_eq _ _ _) ltac:(lia) ltac:(lia)) as (r & h & Hr & Hres).
  exists r, h. split; [exact Hr|]. destruct r as [q|].
  - destruct Hres as (blk' & Hi' & Hq & _ & Hkb & Hcp). pose proof (usable_le (2 * c)).
    rewrite delete_insert_id in Hi', Hkb by done. apply lookup_insert_None in Hq as [Hq Hne]. split.
    + eapply same_then; [exact Hk|exact Hkb].
    + exists (usable (2 * c)). split; [done|]. split; [by exists blk'|]. split; [lia|]. split; [lia|]. split; [lia|].
      intros i Hi0. change (bytes_of (with_kheap h s)) with (kh_mem h). rewrite Hcp by lia. by apply Hb.
  - destruct Hres as [-> Hno]. split; [done|]. exists blk, (<[p := k]> live), (2 * c). split; [done|]. split; [lia|done].
Qed.

Lemma with_kheap_id s : with_kheap (heap_of s) s = s.
Proof. destruct s as [w m x]. unfold with_kheap, heap_of. cbn. by rewrite with_heap_id. Qed.

(** The capacity doubles at most once: a chunk is smaller than the first one. *)
Lemma make_room_ok live s0 data buffer c size got s : Buf live s0 data buffer c size s -> 0 < got <= 1024 -> size + got <= 2 ^ 29 ->
  exists r s', make_room hhdm_offset caches_at buffer c size got s = Ok (r, s') /\ ld_vfs s' = ld_vfs s /\
  match r with
  | None => s' = s /\ no_room (heap_of s)
  | Some (b, c') => exists p, b = Some p /\ Buf live s0 data (Some p) c' size s' /\ size + got <= c'
  end.
Proof.
  intros Hbuf Hg Hsz. unfold make_room.
  assert (Hr : 0 <= size /\ (buffer = None /\ c = 0 /\ size = 0 \/ exists p, buffer = Some p /\ 4096 <= c <= 2 ^ 30 /\ size <= c)).
  { destruct Hbuf as [_ Hb]. destruct buffer as [p|]; [|split; [lia|left; tauto]].
    destruct Hb as (k & _ & _ & ? & ? & ? & _). split; [lia|]. right. exists p. split; [done|lia]. }
  destruct Hr as [Hs0 Hr]. rewrite !(u64_small (size + got)) by lia. destruct (Z.ltb_spec c (size + got)) as [Hlt|Hge].
  - set (n := if c =? 0 then 4096 else u64 (c * 2)).
    assert (Hn : size + got <= n /\ (buffer = None /\ c = 0 /\ size = 0 /\ n = 4096 \/ exists p, buffer = Some p /\ n = 2 * c /\ 2 * c <= 2 ^ 30)).
    { unfold n. destruct Hr as [(-> & -> & ->)|(p & -> & Hc & Hs)]; [cbn; split; [lia|by left]|].
      destruct (Z.eqb_spec c 0); [lia|]. rewrite u64_small by lia. split; [lia|]. right. exists p. split; [done|lia]. }
    destruct Hn as [Hfit Hn]. assert (Hgrow : grow 64 n (size + got) = Ok n) by (cbn [grow]; by rewrite (proj2 (Z.ltb_ge _ _))).
    rewrite (lift_bind _ _ _ _ Hgrow). unfold l_krealloc.
    assert (Hk : exists r h, krealloc hhdm_offset caches_at buffer n (heap_of s) = Ok (r, h) /\
      match r with None => h = heap_of s /\ no_room (heap_of s) | Some p => Buf live s0 data (Some p) n size (with_kheap h s) end).
    { destruct Hn as [(-> & -> & -> & En)|(p & -> & -> & H2)]; [by apply first_buffer|by apply next_buffer]. }
    destruct Hk as (r & h & Hr' & Hres). rewrite (st_bind_ok _ _ _ _ _ (on_heap_ok _ s r h Hr')).
    destruct r as [p|]; [exists (Some (Some p, n)), (with_kheap h s)|exists None, (with_kheap h s)]; (split; [done|]); (split; [done|]).
    + by exists p.
    + destruct Hres as [-> Hst]. by rewrite with_kheap_id.
  - exists (Some (buffer, c)), s. do 2 (split; [done|]). destruct Hr as [(-> & -> & ->)|(p & -> & _)]; [lia|]. by exists p.
Qed.

Lemma put_chunk live s0 data p c size l s : Buf live s0 data (Some p) c size s -> Forall is_byte l -> size + Z.of_nat (length l) <= c ->
  (forall i, 0 <= i < Z.of_nat (length l) -> l !! Z.to_nat i = data !! Z.to_nat (size + i)) ->
  exists s', on_machine (put_bytes (p + size) l) s = Ok (tt, s') /\ ld_vfs s' = ld_vfs s /\
  Buf live s0 data (Some p) c (size + Z.of_nat (length l)) s'.
Proof.
  intros (Hk & k & Hn & (blk & Hi) & Hc & Hc2 & Hs & Hb) Hl Hfit Hdata.
  pose proof (live_mapped _ _ _ _ _ _ _ Hi (lookup_insert_eq _ _ _)) as Hm.
  destruct (put_bytes_mem l (p + size) (ld_mach s) Hl) as (m' & Hp & Hm'); [eapply mapped_sub; [exact Hm|lia|lia]|].
  exists (mk_loader (ld_vfs s) (set_memory m' (ld_mach s)) (ld_rest s)). split; [unfold on_machine; by rewrite Hp|]. split; [done|].
  destruct (inv_client _ _ _ _ _ _ _ m' Hi (lookup_insert_eq _ _ _)) as [Hi' Hk'].
  - intros x b. rewrite Hm'. case_decide; [|apply (inv_bytes _ _ _ _ _ Hi)]. intros Hx. by eapply Forall_lookup in Hx.
  - intros x. rewrite Hm'. case_decide as Hx; [|done]. split; intros _; [apply Hm; lia|]. apply lookup_lt_is_Some. lia.
  - intros x Hx. rewrite Hm', decide_False; [done|lia].
  - split.
    + eapply same_then; [exact Hk|]. eapply same_new; [exact Hn|exact Hk'].
    + exists k. split; [done|]. split; [by exists blk|]. split; [lia|]. split; [lia|]. split; [lia|]. intros i Hi0.
      change (m' !! (p + i) = data !! Z.to_nat i). rewrite Hm'. destruct (decide (i < size)) as [Hlt|Hge].
      * rewrite decide_False by lia. apply Hb. lia.
      * rewrite decide_True by lia. replace (p + i - (p + size)) with (i - size) by lia. rewrite Hdata by lia. f_equal. lia.
Qed.

(** The buffer is given back. *)
Lemma free_buffer live s0 data buffer c size s : Buf live s0 data buffer c size s ->
  exists s', l_kfree hhdm_offset buffer s = Ok (tt, s') /\ ld_vfs s' = ld_vfs s /\ heap_has live s' /\ same_blocks live s0 s' /\
    kfree hhdm_offset buffer (heap_of s) = Ok (tt, heap_of s').
Proof.
  intros [Hk Hb]. unfold l_kfree. destruct buffer as [p|].
  - destruct Hb as (k & Hn & (blk & Hi) & _). destruct (kfree_ok _ _ _ _ _ p k Hi (lookup_insert_eq _ _ _)) as (h & blk' & Hf & Hi' & Hk').
    exists (with_kheap h s). split; [by apply on_heap_ok|]. split; [done|]. rewrite delete_insert_id in Hi', Hk' by done. split; [by exists blk'|].
    split; [by eapply same_then|exact Hf].
  - destruct Hb as (_ & _ & Hh). exists s. rewrite <- (with_kheap_id s) at 2. split; [by apply on_heap_ok|]. by split.
Qed.

(** *** The loop *)

Definition got_file (live : gmap Z Z) (data : list Z) (buffer : ptr) (s : L) : Prop :=
  match buffer with
  | None => data = [] /\ heap_has live s
  | Some p => exists k, live !! p = None /\ heap_has (<[p := k]> live) s /\ Z.of_nat (length data) <= k /\
      forall i, 0 <= i < Z.of_nat (length data) -> bytes_of s !! (p + i) = data !! Z.to_nat i
  end.
(** The file was closed. *)
Definition closed (node : Z) (I : Vfs.world E F -> Prop) (s : L) : Prop :=
  exists w rc, I w /\ vfs_close (Some node) O_RDONLY w = Ok (rc, ld_vfs s).

Lemma close_ok node data I (s : L) : serves node data I -> I (ld_vfs s) -> exists rc w,
  on_vfs (vfs_close (Some node) O_RDONLY) s = Ok (rc, mk_loader w (ld_mach s) (ld_rest s)) /\ vfs_close (Some node) O_RDONLY (ld_vfs s) = Ok (rc, w).
Proof. intros Hs Hi. destruct (sv_close _ _ _ Hs _ Hi) as (rc & w & Hc). exists rc, w. split; [|done]. unfold on_vfs. by rewrite Hc. Qed.

Lemma take_drop_lookup {A} (l : list A) n m i : (i < n)%nat -> (take n (drop m l)) !! i = l !! (m + i)%nat.
Proof. intros Hi. rewrite lookup_take_lt by done. by rewrite lookup_drop. Qed.

Lemma read_loop_ok live s0 node data I : serves node data I -> Forall is_byte data -> Z.of_nat (length data) <= 2 ^ 29 ->
  forall fuel chunk buffer c size s, I (ld_vfs s) -> length chunk = 1024%nat -> Buf live s0 data buffer c size s ->
  0 <= size <= Z.of_nat (length data) -> (Z.of_nat (length data) - size + 1023) / 1024 < Z.of_nat fuel ->
  exists rc b n s', read_loop hhdm_offset caches_at fuel (Some node) chunk buffer c size size s = Ok ((rc, (b, n)), s') /\
  closed node I s' /\ same_blocks live s0 s' /\
  (rc = 0 /\ n = Z.of_nat (length data) /\ got_file live data b s' \/ rc = -1 /\ b = None /\ heap_has live s' /\ starved s').
Proof.
  intros Hsv Hbytes Hlen. induction fuel as [|fuel IH]; intros chunk buffer c size s Hi Hch Hbuf Hsz Hfuel.
  { exfalso. pose proof (Z.div_pos (Z.of_nat (length data) - size + 1023) 1024). lia. }
  cbn [read_loop]. destruct (sv_read _ _ _ Hsv (ld_vfs s) size chunk Hi ltac:(lia) Hch) as (w1 & Hr & Hi1).
  set (n := read_count CHUNK size (Z.of_nat (length data))) in *.
  assert (Hn : 0 <= n <= 1024 /\ size + n <= Z.of_nat (length data) /\ (n = 0 -> size = Z.of_nat (length data))) by (unfold n, read_count, CHUNK; lia).
  set (s1 := mk_loader w1 (ld_mach s) (ld_rest s)).
  rewrite (st_bind_ok _ _ s _ s1) by (unfold on_vfs; rewrite Hr; reflexivity).
  cbn [from_option id Z.eqb negb]. set (chunk' := take _ _ ++ _). assert (Hbuf1 : Buf live s0 data buffer c size s1) by exact Hbuf.
  destruct (Z.eqb_spec n 0) as [Hz|Hz].
  - destruct (close_ok node data I s1 Hsv Hi1) as (rc & w & Hc & Hcv). rewrite (st_bind_ok _ _ _ _ _ Hc).
    exists 0, buffer, size, (mk_loader w (ld_mach s) (ld_rest s)). split; [done|]. split; [by exists w1, rc|].
    destruct Hbuf1 as [Hk Hb]. split; [exact Hk|]. left. split; [done|]. assert (Hend : size = Z.of_nat (length data)) by tauto. split; [done|].
    destruct buffer as [p|]; [|destruct Hb as (_ & -> & Hh); split; [by apply nil_length_inv; lia|exact Hh]].
    destruct Hb as (k & Hnone & Hh & ? & ? & ? & Hb). exists k. split; [done|]. split; [exact Hh|]. split; [lia|]. rewrite <- Hend. exact Hb.
  - destruct (make_room_ok live s0 data buffer c size n s1 Hbuf1 ltac:(lia) ltac:(lia)) as (room & s2 & Hroom & Hv2 & Hres).
    rewrite (st_bind_ok _ _ _ _ _ Hroom). destruct room as [[b c']|].
    + destruct Hres as (p & -> & Hbuf2 & Hfit). rewrite (lift_bind _ _ _ p) by done.
      assert (Etake : take (Z.to_nat n) chunk' = take (Z.to_nat n) (drop (Z.to_nat size) data)).
      { unfold chunk'. rewrite take_app_le by (rewrite length_take, length_drop; lia). by rewrite take_take, Nat.min_id. }
      assert (Elen : length (take (Z.to_nat n) chunk') = Z.to_nat n) by (rewrite Etake, length_take, length_drop; lia).
      destruct (put_chunk live s0 data p c' size (take (Z.to_nat n) chunk') s2 Hbuf2) as (s3 & Hp & Hv3 & Hbuf3).
      { rewrite Etake. by apply Forall_take, Forall_drop. } { rewrite Elen. lia. }
      { intros i Hi0. rewrite Elen in Hi0. rewrite Etake, take_drop_lookup by lia. f_equal. lia. }
      rewrite (st_bind_ok _ _ _ _ _ Hp). rewrite Elen, Z2Nat.id in Hbuf3 by lia. rewrite !u64_small by lia.
      apply IH; [by rewrite Hv3, Hv2|unfold chunk'; rewrite length_app, length_drop, length_take, length_drop, Hch; unfold n, read_count, CHUNK in *; lia|exact Hbuf3|lia|].
      clear -Hn Hz Hfuel Hsz. assert (Hn2 : n = 1024 \/ n = Z.of_nat (length data) - size) by (unfold n, read_count, CHUNK; lia).
      clearbody n. destruct Hn2; Z.to_euclidean_division_equations; lia.
    + destruct Hres as [-> Hst]. destruct (close_ok node data I s1 Hsv Hi1) as (rc & w & Hc & Hcv). rewrite (st_bind_ok _ _ _ _ _ Hc).
      destruct (free_buffer live s0 data buffer c size (mk_loader w (ld_mach s) (ld_rest s)) Hbuf) as (s3 & Hf & Hv3 & Hh & Hk & Hkf).
      rewrite (st_bind_ok _ _ _ _ _ Hf). exists (-1), None, 0, s3. split; [done|]. split; [exists w1, rc; by rewrite Hv3|]. split; [done|].
      right. do 3 (split; [done|]). exists (heap_of s1), buffer. by split.
Qed.

(** C0: a file is read whole. When the file opens, [sdi_read_file] returns:
    with 0, its bytes in a new block of the heap, of at least their number, and
    their count, or the null pointer for an empty file; or with -1, when the heap
    had no block to grow into, and then the buffer is given back and nothing
    stays allocated. In both cases
    the file is closed once and all other blocks are as they were. *)
Theorem sdi_read_file_spec live node data I path chunk fuel (s : L) w : serves node data I ->
  vfs_open (k_vfsroot (ld_vfs s)) (Some path) O_RDONLY true (ld_vfs s) = Ok ((0, Some node), w) -> I w ->
  Forall is_byte data -> Z.of_nat (length data) <= 2 ^ 29 -> length chunk = 1024%nat -> heap_has live s ->
  (Z.of_nat (length data) + 1023) / 1024 < Z.of_nat fuel ->
  exists rc b n s', sdi_read_file hhdm_offset caches_at fuel chunk (Some path) s = Ok ((rc, (b, n)), s') /\
  closed node I s' /\ same_blocks live s s' /\
  (rc = 0 /\ n = Z.of_nat (length data) /\ got_file live data b s' \/ rc = -1 /\ b = None /\ heap_has live s' /\ starved s').
Proof.
  intros Hsv Ho Hi Hb Hl Hch Hh Hf. unfold sdi_read_file.
  set (s1 := mk_loader w (ld_mach s) (ld_rest s)).
  rewrite (st_bind_ok (on_vfs (gets k_vfsroot)) _ s (k_vfsroot (ld_vfs s)) s) by (by destruct s).
  rewrite (st_bind_ok _ _ s (0, Some node) s1) by (unfold on_vfs; by rewrite Ho). cbn [fst snd Z.eqb negb].
  assert (Hbuf : Buf live s data None 0 0 s1) by (split; [intros ? ? ? _ _; done|done]).
  apply (read_loop_ok live s node data I Hsv Hb Hl fuel chunk None 0 0 s1 Hi Hch Hbuf); [lia|]. by rewrite Z.sub_0_r.
Qed.
End reading.
End files.

(** ** The drivers of a directory *)

Section directory.
Context {E F X : Type} `{Kenv E} `{FsTable E F}.
Context (hhdm_offset caches_at : Z) (kernel_vas : option vas) (str_at fn_at : string -> Z).
Context (register : Z -> cstr -> ST (loader E F X) Z) (fuel : nat) (chunk : list Z) (directory : cstr).
Abbreviation load := (load_entry hhdm_offset caches_at kernel_vas str_at fn_at register fuel chunk directory).
Abbreviation each := (fun l => entries_loop hhdm_offset caches_at kernel_vas str_at fn_at register l fuel chunk directory).
Abbreviation visit := (fun n => directory_loop hhdm_offset caches_at kernel_vas str_at fn_at register n fuel chunk directory).

(** The directory is open and has these entries, of which a call gives as many
    as fit from the offset on. *)
Definition lists (dir : Z) (listing : list dirent) (w : Vfs.world E F) : Prop := forall off, 0 <= off ->
  let found := take 8 (drop (Z.to_nat off) listing) in
  vfs_getdents (Some dir) true (ENTRIES * sizeof_dirent) off w = Ok ((0, (found, Some (Z.of_nat (length found) * sizeof_dirent))), w).

Context (dir : Z) (listing : list dirent) (Hlen : Z.of_nat (length listing) < 2 ^ 63).
(** Loading a driver leaves the directory as it is. *)
Context (Hload : forall d loaded s r s', lists dir listing (ld_vfs s) -> load d loaded s = Ok (r, s') -> lists dir listing (ld_vfs s')).

Lemma each_app l1 : forall l2 off loaded s, 0 <= off -> off + Z.of_nat (length l1) < 2 ^ 64 ->
  each (l1 ++ l2) off loaded s = (r ← each l1 off loaded; each l2 (fst r) (snd r)) s.
Proof.
  induction l1 as [|d l1 IH]; intros l2 off loaded s H1 H2; [done|]. cbn [app entries_loop length] in *. rewrite bind_assoc.
  unfold mbind, st_bind. destruct (load d loaded s) as [[k s1]| | |]; try done. rewrite IH; rewrite ?u64_small by lia; [done|lia|lia].
Qed.

Lemma each_lists l : forall off loaded s r s', 0 <= off -> off + Z.of_nat (length l) < 2 ^ 64 -> lists dir listing (ld_vfs s) ->
  each l off loaded s = Ok (r, s') -> lists dir listing (ld_vfs s') /\ fst r = off + Z.of_nat (length l).
Proof.
  induction l as [|d l IH]; intros off loaded s r s' H1 H2 Hs Hr; cbn [entries_loop length] in *.
  - injection Hr as <- <-. split; [done|cbn; lia].
  - apply st_bind_inv in Hr as (k & s1 & Hd & Hr). rewrite u64_small in Hr by lia.
    destruct (IH (off + 1) k s1 r s' ltac:(lia) ltac:(lia) (Hload _ _ _ _ _ Hs Hd) Hr) as [? ->]. split; [done|lia].
Qed.

(** Every entry is visited once, in the order of the listing. *)
Lemma visit_ok n : forall off loaded s, 0 <= off <= Z.of_nat (length listing) -> (Z.of_nat (length listing) - off + 7) / 8 < Z.of_nat n ->
  lists dir listing (ld_vfs s) ->
  visit n (Some dir) off loaded s =
  (each (drop (Z.to_nat off) listing) off loaded ;; on_vfs (vfs_close (Some dir) (Z.lor O_RDONLY O_DIRECTORY)) ;; mret 0) s.
Proof.
  induction n as [|n IH]; intros off loaded s Ho Hn Hs.
  { exfalso. pose proof (Z.div_pos (Z.of_nat (length listing) - off + 7) 8). lia. }
  cbn [directory_loop]. pose proof (Hs off ltac:(lia)) as Hg. cbv zeta in Hg. set (found := take 8 (drop (Z.to_nat off) listing)) in *.
  assert (Hs1 : mk_loader (ld_vfs s) (ld_mach s) (ld_rest s) = s) by (by destruct s).
  rewrite (st_bind_ok _ _ s (0, (found, Some (Z.of_nat (length found) * sizeof_dirent))) s) by (unfold on_vfs; by rewrite Hg, Hs1).
  cbn [from_option id Z.eqb negb]. unfold sizeof_dirent in *. rewrite Z.div_mul, Nat2Z.id, firstn_all by done.
  assert (Hfl : length found = Nat.min 8 (length listing - Z.to_nat off)) by (unfold found; by rewrite length_take, length_drop).
  destruct (Z.eqb_spec (Z.of_nat (length found) * 280) 0) as [Hz|Hz].
  - assert (Hnil : drop (Z.to_nat off) listing = []) by (apply drop_ge; lia). rewrite Hnil. done.
  - rewrite <- (take_drop 8 (drop (Z.to_nat off) listing)). fold found. rewrite drop_drop.
    unfold mbind at 1 2, st_bind at 1 2. rewrite each_app by lia. unfold mbind at 1, st_bind at 1.
    match goal with |- context [entries_loop ?a ?b ?c ?d ?e ?f found ?g ?h ?i off loaded s] =>
      destruct (entries_loop a b c d e f found g h i off loaded s) as [[r s1]| | |] eqn:He end; try done.
    destruct (each_lists found off loaded s r s1 ltac:(lia) ltac:(lia) Hs He) as [Hs' Hr].
    rewrite IH; [|lia|rewrite Hr, Hfl; clear -Hn Hz Hfl Ho; Z.to_euclidean_division_equations; lia|exact Hs'].
    assert (Hd : drop (Z.to_nat (fst r)) listing = drop (Z.to_nat off + 8) listing).
    { rewrite Hr. destruct (decide (length found = 8%nat)) as [E8|]; [f_equal; lia|]. rewrite !drop_ge by lia. done. }
    cbn [fst snd]. rewrite Hd. done.
Qed.

(** [sdi_load_drivers] on a directory that opens: every entry once, in order. *)
Theorem sdi_load_drivers_spec n (s : loader E F X) w :
  vfs_open (k_vfsroot (ld_vfs s)) (Some directory) (Z.lor O_RDONLY O_DIRECTORY) true (ld_vfs s) = Ok ((0, Some dir), w) ->
  lists dir listing w -> (Z.of_nat (length listing) + 7) / 8 < Z.of_nat n ->
  sdi_load_drivers hhdm_offset caches_at kernel_vas str_at fn_at register n fuel chunk (Some directory) s =
  (each listing 0 0 ;; on_vfs (vfs_close (Some dir) (Z.lor O_RDONLY O_DIRECTORY)) ;; mret 0) (mk_loader w (ld_mach s) (ld_rest s)).
Proof.
  intros Ho Hl Hn. unfold sdi_load_drivers.
  rewrite (st_bind_ok (on_vfs (gets k_vfsroot)) _ s (k_vfsroot (ld_vfs s)) s) by (by destruct s).
  rewrite (st_bind_ok _ _ s (0, Some dir) (mk_loader w (ld_mach s) (ld_rest s))) by (unfold on_vfs; by rewrite Ho).
  cbn [fst snd Z.eqb negb]. rewrite visit_ok; [done|lia|by rewrite Z.sub_0_r|exact Hl].
Qed.
End directory.

(** The path of an entry. *)
Lemma sdi_join_path_ok n d name : d <> [] -> last d <> Some slash -> Z.of_nat (length d + length name) + 1 < n ->
  sdi_join_path n (Some d) (Some name) = d ++ slash :: name.
Proof.
  intros Hd Hs Hn. unfold sdi_join_path, strlcpy_text. cbn [from_option id]. rewrite (proj2 (Z.eqb_neq n 0)) by lia.
  rewrite (take_ge d) by lia. assert (length d <> 0%nat) by (by destruct d).
  rewrite (proj2 (Z.eqb_neq (Z.of_nat (length d)) 0)), (proj2 (Z.ltb_lt (Z.of_nat (length d) + 1) n)), bool_decide_eq_false_2 by (done || lia).
  cbn [negb andb]. rewrite length_app. cbn [length]. rewrite (proj2 (Z.ltb_lt _ n)) by lia. rewrite take_ge by lia. by rewrite <- (assoc_L (++)).
Qed.

(** ** Files of tmpfs *)

Section tmpfs.
Context {E : Type} `{Kenv E} `{!KenvLaws E}.

(** A regular file with these bytes, which somebody else holds too. *)
Definition open_file (a t fs : Z) (data : list Z) (w : Vfs.world E tmpfs) : Prop := exists n f v,
  is_file w a t fs n f /\ vnode_is_tmpfs w a /\ contents n = data /\ k_vnodes w !! a = Some v /\ 1 < vn_refcount v < 2 ^ 31.

Lemma tmpfs_serves a t fs data : serves a data (open_file a t fs data).
Proof.
  split.
  - intros w off chunk (n & f & v & Hf & Ht & Hc & Hv & Hr) Ho Hch. rewrite vfs_read_tmpfs by done.
    destruct (tmpfs_read_ok a t fs n f chunk CHUNK off O_RDONLY w Hf Ho) as (e & tm & Hread); [unfold CHUNK; lia|].
    destruct (Hf) as (Hvn & Hn & Hfs & Hok & Hlk).
    assert (Hsz : n_size n = Z.of_nat (length data)).
    { destruct Hok as (H1 & H2 & H3). rewrite <- Hc. unfold contents. rewrite length_take. lia. }
    rewrite Hsz, Hc in Hread. eexists. split; [exact Hread|]. exists (set_atime tm n), f, v.
    split; [|done]. split; [exact Hvn|]. split; [cbn; apply lookup_insert_eq|]. split; [exact Hfs|]. split; [exact Hok|exact Hlk].
  - intros w (n & f & v & Hf & (v' & Hv' & Hops) & Hc & Hv & Hr). assert (v' = v) as -> by congruence. unfold vfs_close.
    set (w' := set_vnodes (<[a := vn_set_refcount (i32 (vn_refcount v - 1)) v]> (k_vnodes w)) w).
    assert (Hrel : vnode_release (Some a) w = Ok (tt, w')).
    { unfold vnode_release. rewrite (st_bind_ok _ _ w tt w') by (unfold upd_vnode; by rewrite Hv).
      rewrite (get_vnode_bind a (vn_set_refcount (i32 (vn_refcount v - 1)) v)) by (cbn; apply lookup_insert_eq).
      cbn [vn_refcount vn_set_refcount]. rewrite i32_small, (proj2 (Z.eqb_neq _ _)) by lia. done. }
    exists 0, w'. rewrite (get_vnode_bind _ _ _ _ Hv), Hops. change ((vnode_release (Some a) ;; mret 0) w = Ok (0, w')). by rewrite (st_bind_ok _ _ _ _ _ Hrel).
Qed.
End tmpfs.

(** The five bytes of [/tmp/f], read into a heap with nothing in use. *)
Section Witness.
Definition file_loader : loader bump tmpfs unit := mk_loader demo_written (mk_mach ∅ 0 0 demo_heap) tt.
Definition file_data : list Z := contents (node_at demo_written 104).
Definition file_chunk : list Z := replicate 1024 0.
Definition file_opened : Vfs.world bump tmpfs :=
  TmpfsVfs.after (vfs_open (k_vfsroot demo_written) (Some path_f) O_RDONLY true) demo_written.

Lemma file_open : vfs_open (k_vfsroot demo_written) (Some path_f) O_RDONLY true demo_written = Ok ((0, Some 104), file_opened).
Proof. unfold file_opened. apply result_ok. vm_compute. reflexivity. Qed.

Lemma file_is_open : open_file 104 104 101 file_data file_opened.
Proof.
  exists (node_at file_opened 104), (fs_at file_opened 101), (vnode_at file_opened 104). split; [|split; [|split; [|split]]].
  - split; [exists (vnode_at file_opened 104); split_and!; concrete|]. split; [concrete|]. split; [concrete|]. split; [split_and!; concrete|].
    apply (bool_decide_unpack _). concrete.
  - exists (vnode_at file_opened 104). split; concrete.
  - concrete.
  - concrete.
  - split; concrete.
Qed.

Lemma sdi_read_file_spec_witness : exists p s',
  sdi_read_file demo_hhdm demo_caches 2 file_chunk (Some path_f) file_loader = Ok ((0, (Some p, 5)), s') /\
  bytes_of s' !! (p + 3) = Some 2 /\ closed 104 (open_file 104 104 101 file_data) s'.
Proof.
  assert (Hh : heap_has demo_hhdm demo_caches ∅ file_loader) by exact demo_heap_inv.
  destruct (sdi_read_file_spec demo_hhdm demo_caches ∅ 104 file_data (open_file 104 104 101 file_data) path_f file_chunk 2 file_loader file_opened
    (tmpfs_serves 104 104 101 file_data) file_open file_is_open) as (rc & b & n & s' & Hr & Hc & _ & Hres).
  - apply (bool_decide_unpack _). vm_compute. reflexivity.
  - vm_compute. discriminate.
  - reflexivity.
  - exact Hh.
  - vm_compute. reflexivity.
  - destruct Hres as [(-> & -> & Hg)|(-> & _)].
    + destruct b as [p|]; [|destruct Hg as [Hg _]; vm_compute in Hg; discriminate Hg]. destruct Hg as (k & _ & _ & _ & Hb).
      exists p, s'. split; [exact Hr|]. split; [|exact Hc]. rewrite (Hb 3); [vm_compute; reflexivity|vm_compute; split; [discriminate|reflexivity]].
    + exfalso. apply (f_equal (fun o => match o with Ok (r, _) => fst r | _ => 0 end)) in Hr. vm_compute in Hr. discriminate Hr.
Defined.
End Witness.
