(* ===== verification/Sched.v ===== *)
(** The scheduler, [kernel/src/sys/sched.c] and [sys/sched.h], with the
    scheduling part of [struct cpu_info] ([cpu/smp.h]). Threads and processes
    are stores by address; the run-queue node of a thread is the node of the
    shared queue store at the thread's address. A CPU is its index. Address
    spaces are opaque, made and destroyed by two operations of the memory
    manager. *)
From S2P Require Import Prelude Kenv Rq Context.

Inductive thread_status := THREAD_RUNNABLE | THREAD_RUNNING | THREAD_BLOCKED | THREAD_ZOMBIE.
Inductive proc_type := PROC_KERNEL | PROC_USER | PROC_IDLE.
#[export] Instance thread_status_eq : EqDecision thread_status.
Proof. solve_decision. Defined.
#[export] Instance proc_type_eq : EqDecision proc_type.
Proof. solve_decision. Defined.

Definition sched_thread_status_name (s : thread_status) : string :=
  match s with
  | THREAD_RUNNABLE => "runnable" | THREAD_RUNNING => "running"
  | THREAD_BLOCKED => "blocked" | THREAD_ZOMBIE => "zombie"
  end.
Definition sched_proc_type_name (t : proc_type) : string :=
  match t with PROC_KERNEL => "kernel" | PROC_USER => "user" | PROC_IDLE => "idle" end.

Definition SCHED_QUANTUM_TICKS : Z := 2.
Definition SCHED_NAME_MAX : Z := 32.
Definition SCHED_INVALID_PID : Z := u64_max.
Definition SCHED_IDLE_PID : Z := 0.
Definition SCHED_PID_MIN : Z := 1.
Definition SCHED_PID_MAX : Z := 65535.
Definition SCHED_STACK_SIZE : Z := 0x4000.
Definition SCHED_STACK_QWORDS : Z := SCHED_STACK_SIZE / 8.
Definition SCHED_KERNEL_RFLAGS : Z := 0x202.
Definition GDT_KERNEL_CODE_SELECTOR : Z := 0x08.
Definition GDT_KERNEL_DATA_SELECTOR : Z := 0x10.
Definition sizeof_pcb : Z := 88.
Definition sizeof_tcb : Z := 200.

Record tcb := mk_tcb {
  t_tid : Z; t_name : list Z; t_status : thread_status; t_ticks_left : Z; t_total_ticks : Z;
  t_rsp : Z; t_rip : Z; t_next : ptr; t_parent : ptr; t_entry : Z; t_arg : Z;
  t_stack : ptr; t_stack_size : Z; t_cs : Z; t_ss : Z; t_rflags : Z; t_cpu : Z }.
Record pcb := mk_pcb {
  p_pid : Z; p_ppid : Z; p_name : list Z; p_type : proc_type;
  p_thread : ptr; p_next : ptr; p_vas : ptr; p_thread_count : Z }.
(** The fields of [struct cpu_info] that the scheduler owns, and the CPU's
    [zombie_rq]. *)
Record cpu := mk_cpu {
  c_lock : bool; c_rq : rq; c_zombies : rq; c_idle : ptr; c_current : ptr; c_count : Z }.

Definition set_status (s : thread_status) (t : tcb) : tcb := mk_tcb (t_tid t) (t_name t) s
  (t_ticks_left t) (t_total_ticks t) (t_rsp t) (t_rip t) (t_next t) (t_parent t) (t_entry t) (t_arg t)
  (t_stack t) (t_stack_size t) (t_cs t) (t_ss t) (t_rflags t) (t_cpu t).
Definition set_ticks (n total : Z) (t : tcb) : tcb := mk_tcb (t_tid t) (t_name t) (t_status t)
  n total (t_rsp t) (t_rip t) (t_next t) (t_parent t) (t_entry t) (t_arg t)
  (t_stack t) (t_stack_size t) (t_cs t) (t_ss t) (t_rflags t) (t_cpu t).
Definition set_rsp (r : Z) (t : tcb) : tcb := mk_tcb (t_tid t) (t_name t) (t_status t)
  (t_ticks_left t) (t_total_ticks t) r (t_rip t) (t_next t) (t_parent t) (t_entry t) (t_arg t)
  (t_stack t) (t_stack_size t) (t_cs t) (t_ss t) (t_rflags t) (t_cpu t).
Definition set_tnext (n : ptr) (t : tcb) : tcb := mk_tcb (t_tid t) (t_name t) (t_status t)
  (t_ticks_left t) (t_total_ticks t) (t_rsp t) (t_rip t) n (t_parent t) (t_entry t) (t_arg t)
  (t_stack t) (t_stack_size t) (t_cs t) (t_ss t) (t_rflags t) (t_cpu t).
Definition SCHED_TICK_RESET (t : tcb) : tcb := set_ticks SCHED_QUANTUM_TICKS (t_total_ticks t) t.
Definition SCHED_TICK_EXPIRED (t : tcb) : bool := t_ticks_left t =? 0.
Definition has_status (s : thread_status) (t : tcb) : bool := bool_decide (t_status t = s).

Definition set_lock (b : bool) (c : cpu) : cpu := mk_cpu b (c_rq c) (c_zombies c) (c_idle c) (c_current c) (c_count c).
Definition set_current (t : ptr) (c : cpu) : cpu := mk_cpu (c_lock c) (c_rq c) (c_zombies c) (c_idle c) t (c_count c).
Definition set_count (n : Z) (c : cpu) : cpu := mk_cpu (c_lock c) (c_rq c) (c_zombies c) (c_idle c) (c_current c) n.

Definition set_pid (pid : Z) (p : pcb) : pcb := mk_pcb pid (p_ppid p) (p_name p) (p_type p)
  (p_thread p) (p_next p) (p_vas p) (p_thread_count p).
Definition set_pnext (n : ptr) (p : pcb) : pcb := mk_pcb (p_pid p) (p_ppid p) (p_name p) (p_type p)
  (p_thread p) n (p_vas p) (p_thread_count p).
Definition set_threads (t : ptr) (n : Z) (p : pcb) : pcb := mk_pcb (p_pid p) (p_ppid p) (p_name p) (p_type p)
  t (p_next p) (p_vas p) n.
Definition set_pvas (v : ptr) (p : pcb) : pcb := mk_pcb (p_pid p) (p_ppid p) (p_name p) (p_type p)
  (p_thread p) (p_next p) v (p_thread_count p).
(** What [spawn_proc] stores after the pid. *)
Definition fill_proc (ppid : Z) (name : list Z) (type : proc_type) (v : ptr) (p : pcb) : pcb :=
  mk_pcb (p_pid p) ppid (take (Z.to_nat (SCHED_NAME_MAX - 1)) name) type None
    (if decide (type = PROC_IDLE) then None else p_next p) v 0.

(** The two queues of a CPU. *)
Inductive which := Ready | Zombies.
#[export] Instance which_eq : EqDecision which.
Proof. solve_decision. Defined.
Definition queue_of (x : which) (c : cpu) : rq := match x with Ready => c_rq c | Zombies => c_zombies c end.
Definition set_queue (x : which) (q : rq) (c : cpu) : cpu :=
  match x with
  | Ready => mk_cpu (c_lock c) q (c_zombies c) (c_idle c) (c_current c) (c_count c)
  | Zombies => mk_cpu (c_lock c) (c_rq c) q (c_idle c) (c_current c) (c_count c)
  end.

Record sched (E V : Type) := mk_sched {
  s_env : E; s_vas : V; s_mem : words;
  s_threads : gmap Z tcb; s_nodes : store; s_procs : gmap Z pcb; s_cpus : gmap Z cpu;
  s_proc_list : ptr; s_proc_lock : bool; s_next_pid : Z; s_next_tid : Z }.
Arguments mk_sched {E V}. Arguments s_env {E V}. Arguments s_vas {E V}. Arguments s_mem {E V}.
Arguments s_threads {E V}. Arguments s_nodes {E V}. Arguments s_procs {E V}. Arguments s_cpus {E V}.
Arguments s_proc_list {E V}. Arguments s_proc_lock {E V}. Arguments s_next_pid {E V}.
Arguments s_next_tid {E V}.

(** Address spaces, as the memory manager offers them. *)
Class VasOps (V : Type) := {
  vas_create : V -> ptr * V;
  vas_destroy : Z -> V -> V }.

(** Addresses of the kernel image: static arrays and functions. *)
Record layout := mk_layout {
  idle_procs : Z -> Z; idle_threads : Z -> Z; idle_stacks : Z -> Z;
  a_trampoline : Z; a_sched_idle : Z; kernel_vas : ptr }.

Section fields.
Context {E V : Type}.
Abbreviation S := (sched E V).
Abbreviation M := (ST (sched E V)).

Definition set_senv (e : E) (s : S) : S := mk_sched e (s_vas s) (s_mem s) (s_threads s) (s_nodes s)
  (s_procs s) (s_cpus s) (s_proc_list s) (s_proc_lock s) (s_next_pid s) (s_next_tid s).
Definition set_svas (v : V) (s : S) : S := mk_sched (s_env s) v (s_mem s) (s_threads s) (s_nodes s)
  (s_procs s) (s_cpus s) (s_proc_list s) (s_proc_lock s) (s_next_pid s) (s_next_tid s).
Definition set_smem (m : words) (s : S) : S := mk_sched (s_env s) (s_vas s) m (s_threads s) (s_nodes s)
  (s_procs s) (s_cpus s) (s_proc_list s) (s_proc_lock s) (s_next_pid s) (s_next_tid s).
Definition set_sthreads (x : gmap Z tcb) (s : S) : S := mk_sched (s_env s) (s_vas s) (s_mem s) x (s_nodes s)
  (s_procs s) (s_cpus s) (s_proc_list s) (s_proc_lock s) (s_next_pid s) (s_next_tid s).
Definition set_snodes (x : store) (s : S) : S := mk_sched (s_env s) (s_vas s) (s_mem s) (s_threads s) x
  (s_procs s) (s_cpus s) (s_proc_list s) (s_proc_lock s) (s_next_pid s) (s_next_tid s).
Definition set_sprocs (x : gmap Z pcb) (s : S) : S := mk_sched (s_env s) (s_vas s) (s_mem s) (s_threads s)
  (s_nodes s) x (s_cpus s) (s_proc_list s) (s_proc_lock s) (s_next_pid s) (s_next_tid s).
Definition set_scpus (x : gmap Z cpu) (s : S) : S := mk_sched (s_env s) (s_vas s) (s_mem s) (s_threads s)
  (s_nodes s) (s_procs s) x (s_proc_list s) (s_proc_lock s) (s_next_pid s) (s_next_tid s).
Definition set_proc_list (p : ptr) (s : S) : S := mk_sched (s_env s) (s_vas s) (s_mem s) (s_threads s)
  (s_nodes s) (s_procs s) (s_cpus s) p (s_proc_lock s) (s_next_pid s) (s_next_tid s).
Definition set_proc_lock (b : bool) (s : S) : S := mk_sched (s_env s) (s_vas s) (s_mem s) (s_threads s)
  (s_nodes s) (s_procs s) (s_cpus s) (s_proc_list s) b (s_next_pid s) (s_next_tid s).
Definition set_next_pid (n : Z) (s : S) : S := mk_sched (s_env s) (s_vas s) (s_mem s) (s_threads s)
  (s_nodes s) (s_procs s) (s_cpus s) (s_proc_list s) (s_proc_lock s) n (s_next_tid s).
Definition set_next_tid (n : Z) (s : S) : S := mk_sched (s_env s) (s_vas s) (s_mem s) (s_threads s)
  (s_nodes s) (s_procs s) (s_cpus s) (s_proc_list s) (s_proc_lock s) (s_next_pid s) n.

Definition get_thread (a : Z) : M tcb := fun s =>
  match s_threads s !! a with Some t => Ok (t, s) | None => Fault end.
Definition upd_thread (a : Z) (f : tcb -> tcb) : M unit := fun s =>
  match s_threads s !! a with
  | Some t => Ok (tt, set_sthreads (<[a := f t]> (s_threads s)) s)
  | None => Fault
  end.
Definition get_proc (a : Z) : M pcb := fun s =>
  match s_procs s !! a with Some p => Ok (p, s) | None => Fault end.
Definition upd_proc (a : Z) (f : pcb -> pcb) : M unit := fun s =>
  match s_procs s !! a with
  | Some p => Ok (tt, set_sprocs (<[a := f p]> (s_procs s)) s)
  | None => Fault
  end.
Definition get_cpu (i : Z) : M cpu := fun s =>
  match s_cpus s !! i with Some c => Ok (c, s) | None => Fault end.
Definition upd_cpu (i : Z) (f : cpu -> cpu) : M unit := fun s =>
  match s_cpus s !! i with
  | Some c => Ok (tt, set_scpus (<[i := f c]> (s_cpus s)) s)
  | None => Fault
  end.
(** [cpu_get] and [cpu_current]: null outside the table. *)
Definition find_cpu (i : Z) : M (option cpu) := gets (fun s => s_cpus s !! i).

(** Spinning on a lock that is held never ends. *)
Definition sched_cpu_lock (i : Z) : M unit :=
  c ← get_cpu i;
  if c_lock c then st_timeout else upd_cpu i (set_lock true).
Definition sched_cpu_unlock (i : Z) : M unit := upd_cpu i (set_lock false).
Definition spinlock_lock : M unit :=
  b ← gets s_proc_lock;
  if b : bool then st_timeout else modify (set_proc_lock true).
Definition spinlock_unlock : M unit := modify (set_proc_lock false).

(** Queue operations on the queue [x] of CPU [i]. *)
Definition on_queue {A} (i : Z) (x : which) (f : rq -> store -> outcome (A * rq * store)) : M A :=
  c ← get_cpu i;
  h ← gets s_nodes;
  r ← st_lift (f (queue_of x c) h);
  upd_cpu i (set_queue x r.1.2) ;;
  modify (set_snodes r.2) ;;
  mret r.1.1.
Definition queue_push (i : Z) (x : which) (t : Z) : M unit :=
  on_queue i x (fun q h => r ← rq_push_back q h t (Some t); Ok (tt, r.1, r.2)).
Definition queue_pop (i : Z) (x : which) : M ptr := on_queue i x rq_pop_front.
Definition queue_fuel : M nat := gets (fun s => Datatypes.S (size (s_nodes s))).
(** [if (rq_contains(q, t)) rq_remove(q, t);] *)
Definition queue_drop (i : Z) (x : which) (t : Z) : M unit :=
  fuel ← queue_fuel;
  b ← on_queue i x (fun q h => b ← rq_contains fuel q h (Some t); Ok (b, q, h));
  if b : bool then on_queue i x (fun q h => rq_remove fuel q h (Some t)) ;; mret tt else mret tt.
Definition queue_has (i : Z) (x : which) (t : Z) : M bool :=
  fuel ← queue_fuel;
  on_queue i x (fun q h => b ← rq_contains fuel q h (Some t); Ok (b, q, h)).

(** [context_switch(prev, next)] with the registers [c] of the caller. *)
Definition context_switch (c : cpu_state) (prev next : Z) : M resumed :=
  m ← gets s_mem;
  let '(rsp, m) := context_save c m in
  modify (set_smem m) ;;
  upd_thread prev (set_rsp rsp) ;;
  n ← get_thread next;
  mret (context_load c (t_rsp n) m).

(** A pointer that the code dereferences. *)
Definition the (p : ptr) : M Z := st_lift (deref p).

Definition sched_cpu_load (i : Z) : M Z :=
  oc ← find_cpu i;
  match oc with
  | None => mret u64_max
  | Some c =>
      if decide (c_idle c = None) then mret u64_max else
      sched_cpu_lock i ;;
      c ← get_cpu i;
      running ← match c_current c with
                | None => mret false
                | Some t =>
                    if decide (c_current c = c_idle c) then mret false else
                    d ← get_thread t; mret (has_status THREAD_RUNNING d)
                end;
      sched_cpu_unlock i ;;
      mret (if running : bool then u64 (c_count c + 1) else c_count c)
  end.

Definition cpu_count : M Z := gets (fun s => Z.of_nat (size (s_cpus s))).

(** [for (i = ...; i < cpu_count(); i++)], [n] rounds left. *)
Fixpoint select_loop (n : nat) (i : Z) (best : ptr) (best_load : Z) : M ptr :=
  match n with
  | O => mret best
  | Datatypes.S n =>
      load ← sched_cpu_load i;
      if load <? best_load then select_loop n (i + 1) (Some i) load
      else select_loop n (i + 1) best best_load
  end.
(** [None]: no CPU at all, when the current one is unknown too. *)
Definition sched_select_cpu (me : Z) : M ptr :=
  n ← cpu_count;
  best ← select_loop (Z.to_nat n) 0 None u64_max;
  match best with
  | Some i => mret (Some i)
  | None => c ← find_cpu me; mret (match c with Some _ => Some me | None => None end)
  end.

Definition sched_current (me : Z) : M ptr :=
  c ← find_cpu me; mret (match c with Some c => c_current c | None => None end).

Definition sched_parent_pid (me : Z) : M Z :=
  current ← sched_current me;
  match current with
  | None => mret SCHED_IDLE_PID
  | Some t =>
      d ← get_thread t;
      match t_parent d with
      | None => mret SCHED_IDLE_PID
      | Some p => r ← get_proc p; mret (p_pid r)
      end
  end.

Definition proc_fuel : M nat := gets (fun s => Datatypes.S (size (s_procs s))).
Definition thread_fuel : M nat := gets (fun s => Datatypes.S (size (s_threads s))).

Fixpoint pid_in_use_loop (fuel : nat) (pid : Z) (proc : ptr) : M bool :=
  match proc with
  | None => mret false
  | Some a =>
      match fuel with
      | O => st_timeout
      | Datatypes.S fuel =>
          p ← get_proc a;
          if p_pid p =? pid then mret true else pid_in_use_loop fuel pid (p_next p)
      end
  end.
Definition sched_pid_in_use (pid : Z) : M bool :=
  fuel ← proc_fuel; head ← gets s_proc_list; pid_in_use_loop fuel pid head.

Fixpoint alloc_pid_loop (fuel : nat) (start : Z) : M Z :=
  match fuel with
  | O => st_timeout
  | Datatypes.S fuel =>
      pid ← gets s_next_pid;
      modify (set_next_pid (u64 (pid + 1))) ;;
      next ← gets s_next_pid;
      (if SCHED_PID_MAX <? next then modify (set_next_pid SCHED_PID_MIN) else mret tt) ;;
      used ← sched_pid_in_use pid;
      if negb used then mret pid else
      next ← gets s_next_pid;
      if next =? start then mret SCHED_INVALID_PID else alloc_pid_loop fuel start
  end.
Definition sched_alloc_pid : M Z :=
  start ← gets s_next_pid; alloc_pid_loop (Z.to_nat SCHED_PID_MAX) start.

Definition sched_proc_link_locked (proc : Z) : M unit :=
  head ← gets s_proc_list;
  upd_proc proc (set_pnext head) ;;
  modify (set_proc_list (Some proc)).

(** [*cur], where [cur] is the address of [proc_list] or of a [next] field. *)
Definition proc_at (cur : ptr) : M ptr :=
  match cur with
  | None => gets s_proc_list
  | Some a => p ← get_proc a; mret (p_next p)
  end.
Definition set_proc_at (cur : ptr) (n : ptr) : M unit :=
  match cur with
  | None => modify (set_proc_list n)
  | Some a => upd_proc a (set_pnext n)
  end.
Fixpoint unlink_proc_loop (fuel : nat) (proc : Z) (cur : ptr) : M unit :=
  v ← proc_at cur;
  match v with
  | None => mret tt
  | Some a =>
      match fuel with
      | O => st_timeout
      | Datatypes.S fuel =>
          if decide (a = proc) then
            p ← get_proc proc;
            set_proc_at cur (p_next p) ;;
            upd_proc proc (set_pnext None)
          else unlink_proc_loop fuel proc (Some a)
      end
  end.
Definition sched_proc_unlink_locked (proc : Z) : M unit :=
  fuel ← proc_fuel; unlink_proc_loop fuel proc None.

Definition sched_proc_release_pid (proc : Z) : M unit :=
  p ← get_proc proc;
  if decide (p_type p = PROC_IDLE) then mret tt else
  spinlock_lock ;;
  sched_proc_unlink_locked proc ;;
  spinlock_unlock.

(** [cur] is the address of [proc->thread] or of a thread's [next]. *)
Definition thread_at (proc : Z) (cur : ptr) : M ptr :=
  match cur with
  | None => p ← get_proc proc; mret (p_thread p)
  | Some a => t ← get_thread a; mret (t_next t)
  end.
Definition set_thread_at (proc : Z) (cur : ptr) (n : ptr) : M unit :=
  match cur with
  | None => upd_proc proc (fun p => set_threads n (p_thread_count p) p)
  | Some a => upd_thread a (set_tnext n)
  end.
Definition drop_count (p : pcb) : pcb :=
  if 0 <? p_thread_count p then set_threads (p_thread p) (p_thread_count p - 1) p else p.
Fixpoint unlink_thread_loop (fuel : nat) (proc thread : Z) (cur : ptr) : M unit :=
  v ← thread_at proc cur;
  match v with
  | None => mret tt
  | Some a =>
      match fuel with
      | O => st_timeout
      | Datatypes.S fuel =>
          if decide (a = thread) then
            t ← get_thread thread;
            set_thread_at proc cur (t_next t) ;;
            upd_proc proc drop_count
          else unlink_thread_loop fuel proc thread (Some a)
      end
  end.
Definition sched_proc_unlink_thread (proc : ptr) (thread : Z) : M unit :=
  match proc with
  | None => mret tt
  | Some p => fuel ← thread_fuel; unlink_thread_loop fuel p thread None
  end.
End fields.

Definition zero_pcb : pcb := mk_pcb 0 0 [] PROC_KERNEL None None None 0.
Definition zero_tcb : tcb := mk_tcb 0 [] THREAD_RUNNABLE 0 0 0 0 None None 0 0 None 0 0 0 0 0.

(** What [spawn_thread] and [sched_init] store in a control block, with the
    stack pointer of [sched_make_stack]. *)
Definition make_tcb (tid : Z) (name : list Z) (st : thread_status) (entry arg : Z) (next parent stack : ptr)
    (size index rsp : Z) : tcb :=
  mk_tcb tid (take (Z.to_nat (SCHED_NAME_MAX - 1)) name) st SCHED_QUANTUM_TICKS 0 rsp entry next parent
    entry arg stack size GDT_KERNEL_CODE_SELECTOR GDT_KERNEL_DATA_SELECTOR SCHED_KERNEL_RFLAGS index.

Section ops.
Context {E V : Type} `{!Heap E} `{!VasOps V} (L : layout).
Abbreviation S := (sched E V).
Abbreviation M := (ST (sched E V)).

Definition kmalloc (n : Z) : M ptr := fun s =>
  let '(r, e) := env_alloc n (s_env s) in Ok (r, set_senv e s).
Definition kfree (a : Z) : M unit := modify (fun s => set_senv (env_free a (s_env s)) s).
(** [kzalloc(sizeof(pcb_t))] and [kzalloc(sizeof(tcb_t))]: a zeroed object. *)
Definition kzalloc_pcb : M ptr :=
  r ← kmalloc sizeof_pcb;
  match r with
  | None => mret None
  | Some a => modify (fun s => set_sprocs (<[a := zero_pcb]> (s_procs s)) s) ;; mret (Some a)
  end.
Definition kzalloc_tcb : M ptr :=
  r ← kmalloc sizeof_tcb;
  match r with
  | None => mret None
  | Some a =>
      modify (fun s => set_sthreads (<[a := zero_tcb]> (s_threads s)) s) ;;
      modify (fun s => set_snodes (<[a := mk_node None None None]> (s_nodes s)) s) ;;
      mret (Some a)
  end.
Definition kfree_pcb (a : Z) : M unit :=
  modify (fun s => set_sprocs (delete a (s_procs s)) s) ;; kfree a.
Definition kfree_tcb (a : Z) : M unit :=
  modify (fun s => set_sthreads (delete a (s_threads s)) s) ;;
  modify (fun s => set_snodes (delete a (s_nodes s)) s) ;;
  kfree a.

Definition run_vas_create : M ptr := fun s =>
  let '(r, v) := vas_create (s_vas s) in Ok (r, set_svas v s).
Definition run_vas_destroy (a : Z) : M unit := modify (fun s => set_svas (vas_destroy a (s_vas s)) s).

(** The address space of a new process: the caller's, or a new one for a user
    process, or the kernel's. *)
Definition choose_vas (type : proc_type) (vas : ptr) : M ptr :=
  match vas with
  | Some v => mret (Some v)
  | None => if decide (type = PROC_USER) then run_vas_create else mret (kernel_vas L)
  end.

Definition spawn_pid (type : proc_type) (proc : Z) : M Z :=
  if decide (type = PROC_IDLE) then
    upd_proc proc (set_pid SCHED_IDLE_PID) ;; mret SCHED_IDLE_PID
  else
    spinlock_lock ;;
    pid ← sched_alloc_pid;
    upd_proc proc (set_pid pid) ;;
    (if pid =? SCHED_INVALID_PID then mret tt else sched_proc_link_locked proc) ;;
    spinlock_unlock ;;
    mret pid.

Definition spawn_proc (me : Z) (name : list Z) (type : proc_type) (vas : ptr) : M ptr :=
  r ← kzalloc_pcb;
  match r with
  | None => mret None
  | Some proc =>
      pid ← spawn_pid type proc;
      if pid =? SCHED_INVALID_PID then kfree_pcb proc ;; mret None else
      ppid ← sched_parent_pid me;
      upd_proc proc (fill_proc ppid name type vas) ;;
      v ← choose_vas type vas;
      match v with
      | None =>
          sched_proc_release_pid proc ;;
          kfree_pcb proc ;;
          mret None
      | Some _ =>
          upd_proc proc (set_pvas v) ;;
          mret (Some proc)
      end
  end.

Definition make_stack (entry thread stack qwords : Z) : M Z := fun s =>
  let '(rsp, m) := sched_make_stack entry thread stack qwords (s_mem s) in Ok (rsp, set_smem m s).

Definition spawn_thread (me : Z) (name : list Z) (pcb : ptr) (entry arg : Z) : M ptr :=
  match pcb with
  | None => mret None
  | Some proc =>
      if entry =? 0 then mret None else
      p ← get_proc proc;
      if decide (p_type p = PROC_USER) then mret None else
      oi ← sched_select_cpu me;
      match oi with
      | None => mret None
      | Some i =>
          c ← get_cpu i;
          if decide (c_idle c = None) then mret None else
          r ← kzalloc_tcb;
          match r with
          | None => mret None
          | Some thread =>
              k ← kmalloc SCHED_STACK_SIZE;
              match k with
              | None => kfree_tcb thread ;; mret None
              | Some stack =>
                  tid ← gets s_next_tid;
                  modify (set_next_tid (u64 (tid + 1))) ;;
                  h ← gets s_nodes;
                  h ← st_lift (rq_node_init h thread (Some thread));
                  modify (set_snodes h) ;;
                  rsp ← make_stack (a_trampoline L) thread stack SCHED_STACK_QWORDS;
                  upd_thread thread (fun _ => make_tcb tid name THREAD_RUNNABLE entry arg (p_thread p)
                    (Some proc) (Some stack) SCHED_STACK_SIZE i rsp) ;;
                  upd_proc proc (fun p => set_threads (Some thread) (u32 (p_thread_count p + 1)) p) ;;
                  sched_cpu_lock i ;;
                  queue_push i Ready thread ;;
                  upd_cpu i (fun c => set_count (u32 (c_count c + 1)) c) ;;
                  sched_cpu_unlock i ;;
                  mret (Some thread)
              end
          end
      end
  end.

Definition sched_free_proc (proc : Z) : M unit :=
  sched_proc_release_pid proc ;;
  p ← get_proc proc;
  match p_type p, p_vas p with
  | PROC_USER, Some v => run_vas_destroy v
  | _, _ => mret tt
  end ;;
  kfree_pcb proc.

Definition drop_cpu_count (i : Z) : M unit :=
  oc ← find_cpu i;
  match oc with
  | None => mret tt
  | Some _ =>
      sched_cpu_lock i ;;
      upd_cpu i (fun c => if 0 <? c_count c then set_count (c_count c - 1) c else c) ;;
      sched_cpu_unlock i
  end.

Definition free_if_empty (proc : ptr) : M unit :=
  match proc with
  | None => mret tt
  | Some a => p ← get_proc a; if p_thread_count p =? 0 then sched_free_proc a else mret tt
  end.

Definition sched_free_thread (me : Z) (thread : Z) : M unit :=
  c ← get_cpu me;
  if decide (c_idle c = Some thread) then mret tt else
  t ← get_thread thread;
  drop_cpu_count (t_cpu t) ;;
  sched_proc_unlink_thread (t_parent t) thread ;;
  match t_stack t with Some k => kfree k | None => mret tt end ;;
  kfree_tcb thread ;;
  free_if_empty (t_parent t).

Definition sched_queue_zombie_locked (i thread : Z) : M unit :=
  c ← get_cpu i;
  if decide (c_idle c = Some thread) then mret tt else
  upd_thread thread (set_status THREAD_ZOMBIE) ;;
  queue_push i Zombies thread.

Fixpoint reap_loop (fuel : nat) (me i : Z) : M unit :=
  sched_cpu_lock i ;;
  thread ← queue_pop i Zombies;
  sched_cpu_unlock i ;;
  match thread with
  | None => mret tt
  | Some t =>
      match fuel with
      | O => st_timeout
      | Datatypes.S fuel => sched_free_thread me t ;; reap_loop fuel me i
      end
  end.
Definition queue_length (i : Z) (x : which) : M nat :=
  c ← get_cpu i; mret (Z.to_nat (rq_length (queue_of x c))).
Definition sched_reap_cpu (me i : Z) : M unit :=
  n ← queue_length i Zombies; reap_loop n me i.
Definition sched_reap (me : Z) : M unit :=
  oc ← find_cpu me; if oc is Some _ then sched_reap_cpu me me else mret tt.

Fixpoint next_loop (fuel : nat) (i : Z) : M ptr :=
  next ← queue_pop i Ready;
  match next with
  | None => c ← get_cpu i; mret (c_idle c)
  | Some t =>
      match fuel with
      | O => st_timeout
      | Datatypes.S fuel =>
          d ← get_thread t;
          if has_status THREAD_RUNNABLE d && negb (t_rsp d =? 0) then mret (Some t) else
          (if has_status THREAD_ZOMBIE d then sched_queue_zombie_locked i t else mret tt) ;;
          next_loop fuel i
      end
  end.
Definition sched_next_thread (i : Z) : M ptr :=
  n ← queue_length i Ready; next_loop n i.

(** [next->status = THREAD_RUNNING; SCHED_TICK_RESET(next);] *)
Definition start_running (t : tcb) : tcb := SCHED_TICK_RESET (set_status THREAD_RUNNING t).
(** [current->status = THREAD_RUNNABLE; SCHED_TICK_RESET(current);] *)
Definition make_runnable (t : tcb) : tcb := SCHED_TICK_RESET (set_status THREAD_RUNNABLE t).

(** The machine state that a scheduling function leaves: [None] when it returns
    to its caller, [Some r] when it switches to another thread, that resumes
    at [r]. *)
Definition sched_run_next_locked (r : cpu_state) (i current : Z) : M (option resumed) :=
  next ← sched_next_thread i;
  c ← get_cpu i;
  next ← the (match next with Some t => Some t | None => c_idle c end);
  if decide (next = current) then
    upd_thread current start_running ;;
    sched_cpu_unlock i ;;
    mret None
  else
    upd_thread next start_running ;;
    upd_cpu i (set_current (Some next)) ;;
    sched_cpu_unlock i ;;
    r ← context_switch r current next;
    mret (Some r).

(** [cpu->current_thread ? cpu->current_thread : cpu->idle_thread] *)
Definition current_or_idle (c : cpu) : M Z :=
  the (match c_current c with Some t => Some t | None => c_idle c end).

(** [current->total_ticks++] and [if (current->ticks_left > 0) current->ticks_left--]. *)
Definition count_tick (t : tcb) : tcb := set_ticks (t_ticks_left t) (u64 (t_total_ticks t + 1)) t.
Definition spend_tick (t : tcb) : tcb :=
  if 0 <? t_ticks_left t then set_ticks (t_ticks_left t - 1) (t_total_ticks t) t else t.

(** The body of [sched_tick] after the reaping. *)
Definition tick_locked (r : cpu_state) (me : Z) : M (option resumed) :=
  sched_cpu_lock me ;;
  c ← get_cpu me;
  current ← current_or_idle c;
  upd_thread current count_tick ;;
  t ← get_thread current;
  if has_status THREAD_RUNNING t then
    upd_thread current spend_tick ;;
    t ← get_thread current;
    if negb (SCHED_TICK_EXPIRED t) && (bool_decide (c_idle c <> Some current) || rq_empty (c_rq c))
    then sched_cpu_unlock me ;; mret None
    else
      (if decide (c_idle c = Some current) then mret tt
       else upd_thread current make_runnable ;; queue_push me Ready current) ;;
      sched_run_next_locked r me current
  else sched_run_next_locked r me current.

Definition sched_tick (r : cpu_state) (me : Z) : M (option resumed) :=
  oc ← find_cpu me;
  match oc with
  | None => mret None
  | Some c =>
      if decide (c_idle c = None) then mret None else
      sched_reap_cpu me me ;; tick_locked r me
  end.

Definition sched_yield (r : cpu_state) (me : Z) : M (option resumed) :=
  oc ← find_cpu me;
  match oc with
  | None => mret None
  | Some c =>
      if decide (c_idle c = None) then mret None else
      sched_cpu_lock me ;;
      c ← get_cpu me;
      current ← current_or_idle c;
      t ← get_thread current;
      (if bool_decide (c_idle c <> Some current) && negb (has_status THREAD_ZOMBIE t)
       then upd_thread current make_runnable ;; queue_push me Ready current
       else mret tt) ;;
      sched_run_next_locked r me current
  end.

(** [release(arg)] is code of the caller; [None] is a null [release]. *)
Definition thread_block_current (release : option (M unit)) (r : cpu_state) (me : Z) : M (option resumed) :=
  oc ← find_cpu me;
  match oc with
  | None => mret None
  | Some c =>
      match c_idle c, c_current c with
      | Some idle, Some current =>
          if decide (current = idle) then mret None else
          sched_cpu_lock me ;;
          upd_thread current (set_status THREAD_BLOCKED) ;;
          queue_drop me Ready current ;;
          match release with Some f => f | None => mret tt end ;;
          sched_run_next_locked r me current
      | _, _ => mret None
      end
  end.

Definition thread_block (r : cpu_state) (me : Z) (thread : ptr) : M (option resumed) :=
  match thread with
  | None => mret None
  | Some thread =>
      t ← get_thread thread;
      let i := t_cpu t in
      oc ← find_cpu i;
      match oc with
      | None => mret None
      | Some c =>
          if decide (c_idle c = Some thread) then mret None else
          sched_cpu_lock i ;;
          upd_thread thread (set_status THREAD_BLOCKED) ;;
          queue_drop i Ready thread ;;
          c ← get_cpu i;
          if decide (i = me /\ c_current c = Some thread) then sched_run_next_locked r i thread
          else sched_cpu_unlock i ;; mret None
      end
  end.

Definition thread_wake (thread : ptr) : M unit :=
  match thread with
  | None => mret tt
  | Some thread =>
      t ← get_thread thread;
      let i := t_cpu t in
      oc ← find_cpu i;
      match oc with
      | None => mret tt
      | Some c =>
          if decide (c_idle c = Some thread) then mret tt else
          sched_cpu_lock i ;;
          t ← get_thread thread;
          (if has_status THREAD_BLOCKED t then
             upd_thread thread make_runnable ;;
             queued ← queue_has i Ready thread;
             if negb queued then queue_push i Ready thread else mret tt
           else mret tt) ;;
          sched_cpu_unlock i
      end
  end.

(** Never returns to the caller: the code after the switch panics. *)
Definition sched_exit (r : cpu_state) (me : Z) : M resumed :=
  oc ← find_cpu me;
  match oc with
  | None => st_panic
  | Some c =>
      match c_current c with
      | None => st_panic
      | Some current =>
          if decide (c_idle c = Some current) then st_panic else
          sched_cpu_lock me ;;
          sched_queue_zombie_locked me current ;;
          next ← sched_next_thread me;
          c ← get_cpu me;
          next ← the (if decide (next = Some current \/ next = None) then c_idle c else next);
          upd_thread next start_running ;;
          upd_cpu me (set_current (Some next)) ;;
          sched_cpu_unlock me ;;
          context_switch r current next
      end
  end.

(** The segment registers and flags that [sched_load_thread_state] loads. *)
Record segments := mk_segments { sg_cs : Z; sg_ds : Z; sg_es : Z; sg_ss : Z; sg_rflags : Z }.
Definition sched_load_thread_state (thread : Z) : M segments :=
  t ← get_thread thread;
  let data := u16 (t_ss t) in
  mret (mk_segments (t_cs t) data data data (t_rflags t)).
(** [run entry arg] is the code of the thread, which ends with the registers of
    its last instruction. *)
Definition sched_thread_trampoline (run : segments -> Z -> Z -> M cpu_state) (me thread : Z) : M resumed :=
  sg ← sched_load_thread_state thread;
  t ← get_thread thread;
  r ← run sg (t_entry t) (t_arg t);
  sched_exit r me.

Definition idle_name : list Z := [105; 100; 108; 101].
Definition sched_init (me : Z) : M unit :=
  oc ← find_cpu me;
  match oc with
  | None => st_panic
  | Some c =>
      if decide (c_idle c <> None) then mret tt else
      let proc := idle_procs L me in
      let thread := idle_threads L me in
      let stack := idle_stacks L me in
      upd_cpu me (fun c => mk_cpu false rq_init rq_init (c_idle c) (c_current c) 0) ;;
      modify (fun s => set_sprocs (<[proc := mk_pcb SCHED_IDLE_PID SCHED_IDLE_PID idle_name PROC_IDLE
        (Some thread) None (kernel_vas L) 1]> (s_procs s)) s) ;;
      modify (fun s => set_snodes (<[thread := mk_node (Some thread) None None]> (s_nodes s)) s) ;;
      rsp ← make_stack (a_trampoline L) thread stack SCHED_IDLE_STACK_QWORDS;
      modify (fun s => set_sthreads (<[thread := make_tcb SCHED_IDLE_PID idle_name THREAD_RUNNING
        (a_sched_idle L) 0 None (Some proc) (Some stack) (8 * SCHED_IDLE_STACK_QWORDS) me rsp]>
        (s_threads s)) s) ;;
      upd_cpu me (fun c => mk_cpu (c_lock c) (c_rq c) (c_zombies c) (Some thread) (Some thread) (c_count c))
  end.
End ops.
