(* ===== verification/SchedRep.v ===== *)
(** What the scheduler's data structures represent: per initialised CPU two
    lists of threads, the current thread and the idle thread. The primitive
    operations of the scheduler, queue operations and updates of control
    blocks, are related to this view once and for all. *)
From S2P Require Import Prelude Kenv Dll Rq Context Sched.

(** A CPU whose scheduler runs. *)
Record vcpu := mk_vcpu {
  v_lock : bool; v_ready : list Z; v_zombies : list Z; v_idle : Z; v_current : Z }.

Definition vlist (x : which) (v : vcpu) : list Z :=
  match x with Ready => v_ready v | Zombies => v_zombies v end.
Definition vset (x : which) (l : list Z) (v : vcpu) : vcpu :=
  match x with
  | Ready => mk_vcpu (v_lock v) l (v_zombies v) (v_idle v) (v_current v)
  | Zombies => mk_vcpu (v_lock v) (v_ready v) l (v_idle v) (v_current v)
  end.
Definition vlocked (b : bool) (v : vcpu) : vcpu :=
  mk_vcpu b (v_ready v) (v_zombies v) (v_idle v) (v_current v).
Definition vcurrent (t : Z) (v : vcpu) : vcpu :=
  mk_vcpu (v_lock v) (v_ready v) (v_zombies v) (v_idle v) t.

(** The entries of a queue: a node's data is the thread itself. *)
Definition ents (l : list Z) : list (Z * ptr) := (fun t => (t, Some t)) <$> l.

Lemma ents_fst l : (ents l).*1 = l.
Proof. unfold ents. induction l; csimpl; [done|by f_equal]. Qed.
Lemma ents_snd l : (ents l).*2 = Some <$> l.
Proof. unfold ents. induction l; csimpl; [done|by f_equal]. Qed.

Abbreviation vcpus := (gmap Z vcpu).

Lemma vlist_vset_eq x l v : vlist x (vset x l v) = l.
Proof. by destruct x. Qed.
Lemma vlist_vset_ne x y l v : y <> x -> vlist y (vset x l v) = vlist y v.
Proof. by destruct x, y. Qed.
Lemma queue_of_set_eq x q c : queue_of x (set_queue x q c) = q.
Proof. by destruct x. Qed.
Lemma queue_of_set_ne x y q c : y <> x -> queue_of y (set_queue x q c) = queue_of y c.
Proof. by destruct x, y. Qed.

Lemma holds_frame q h h' e : (forall k, k ∈ e.*1 -> h' !! k = h !! k) -> holds q h e -> holds q h' e.
Proof.
  intros Hf [Hr Hd]. split; [by eapply rq_rep_frame|].
  eapply Forall_data_frame; [|done]. intros k Hk. by rewrite Hf.
Qed.

(** Every thread is in at most one queue, of one CPU. *)
Definition queues_disjoint (cp : vcpus) : Prop :=
  forall i j v w x y t, cp !! i = Some v -> cp !! j = Some w ->
    t ∈ vlist x v -> t ∈ vlist y w -> i = j /\ x = y.
Definition in_no_queue (cp : vcpus) (t : Z) : Prop :=
  forall i v x, cp !! i = Some v -> t ∉ vlist x v.

(** Replacing one queue by one with no new thread but an unqueued one. *)
Lemma queues_disjoint_set cp i v x l' (new : ptr) :
  queues_disjoint cp -> cp !! i = Some v -> (forall t, new = Some t -> in_no_queue cp t) ->
  (forall t, t ∈ l' -> t ∈ vlist x v \/ new = Some t) ->
  queues_disjoint (<[i := vset x l' v]> cp).
Proof.
  intros Hd Hv Hn Hl j k w u y z t Hw Hu Ht Ht'.
  assert (forall j w y, <[i := vset x l' v]> cp !! j = Some w -> t ∈ vlist y w ->
    exists w0, cp !! j = Some w0 /\ (t ∈ vlist y w0 \/ (new = Some t /\ j = i /\ y = x))) as Hback.
  { clear -Hl Hv. intros j w y Hw Ht. destruct (decide (j = i)) as [->|Hj].
    - rewrite lookup_insert_eq in Hw. simplify_eq. exists v. split; [done|].
      destruct (decide (y = x)) as [->|Hy].
      + rewrite vlist_vset_eq in Ht. destruct (Hl t Ht); auto.
      + rewrite vlist_vset_ne in Ht by done. by left.
    - rewrite lookup_insert_ne in Hw by done. eauto. }
  destruct (Hback j w y Hw Ht) as (w0 & Hw0 & [H1|(Ho & -> & ->)]),
    (Hback k u z Hu Ht') as (u0 & Hu0 & [H2|(Ho' & -> & ->)]).
  - by eapply Hd.
  - by destruct (Hn t Ho' j w0 y Hw0).
  - by destruct (Hn t Ho k u0 z Hu0).
  - done.
Qed.

Definition cpu_rep (h : store) (oc : option cpu) (ov : option vcpu) : Prop :=
  match oc, ov with
  | Some c, Some v =>
      c_lock c = v_lock v /\ c_idle c = Some (v_idle v) /\ c_current c = Some (v_current v) /\
      forall x, holds (queue_of x c) h (ents (vlist x v))
  | Some c, None => c_idle c = None /\ c_current c = None
  | None, None => True
  | None, Some _ => False
  end.

Section rep.
Context {E V : Type}.
Abbreviation S := (sched E V).

Record rep (s : S) (th : gmap Z tcb) (cp : vcpus) : Prop := {
  rep_threads : s_threads s = th;
  rep_nodes : forall t, is_Some (th !! t) -> is_Some (s_nodes s !! t);
  rep_cpus : forall i, cpu_rep (s_nodes s) (s_cpus s !! i) (cp !! i);
  rep_disjoint : queues_disjoint cp;
  rep_queued : forall i v x t, cp !! i = Some v -> t ∈ vlist x v -> is_Some (th !! t);
  rep_size : Z.of_nat (size th) < 2 ^ 32 }.

(** What scheduling leaves alone: the heap, the address spaces and the table
    of processes. *)
Definition rest_kept (s s' : S) : Prop :=
  s_env s' = s_env s /\ s_vas s' = s_vas s /\ s_procs s' = s_procs s /\
  s_proc_list s' = s_proc_list s /\ s_proc_lock s' = s_proc_lock s /\
  s_next_pid s' = s_next_pid s /\ s_next_tid s' = s_next_tid s.

#[export] Instance rest_kept_preorder : PreOrder rest_kept.
Proof.
  split.
  - by intros s; split_and!.
  - intros s s1 s2 (? & ? & ? & ? & ? & ? & ?) (? & ? & ? & ? & ? & ? & ?). split_and!; congruence.
Qed.

Lemma rep_cpu s th cp i v : rep s th cp -> cp !! i = Some v ->
  exists c, s_cpus s !! i = Some c /\ c_lock c = v_lock v /\ c_idle c = Some (v_idle v) /\
    c_current c = Some (v_current v) /\ forall x, holds (queue_of x c) (s_nodes s) (ents (vlist x v)).
Proof.
  intros Hr Hv. pose proof (rep_cpus _ _ _ Hr i) as Hc. rewrite Hv in Hc.
  destruct (s_cpus s !! i) as [c|] eqn:Ec; [|done]. exists c. by destruct Hc as (? & ? & ? & ?).
Qed.

Lemma rep_cpu_none s th cp i c : rep s th cp -> cp !! i = None -> s_cpus s !! i = Some c -> c_idle c = None.
Proof. intros Hr Hv Hc. pose proof (rep_cpus _ _ _ Hr i) as H. rewrite Hv, Hc in H. by destruct H. Qed.

Lemma rep_nodup s th cp i v x : rep s th cp -> cp !! i = Some v -> NoDup (vlist x v).
Proof.
  intros Hr Hv. destruct (rep_cpu _ _ _ _ _ Hr Hv) as (c & _ & _ & _ & _ & Hh).
  destruct (Hh x) as [[[Hn _] _] _]. by rewrite ents_fst in Hn.
Qed.

Lemma nodup_size (l : list Z) (th : gmap Z tcb) :
  NoDup l -> (forall t, t ∈ l -> is_Some (th !! t)) -> (length l <= size th)%nat.
Proof.
  intros Hn Hl. pose proof (size_list_to_set (C := gset Z) l Hn) as <-.
  rewrite <- (size_dom (D := gset Z)).
  apply subseteq_size. intros t Ht. apply elem_of_list_to_set in Ht. apply elem_of_dom. auto.
Qed.

Lemma rep_length s th cp i v x : rep s th cp -> cp !! i = Some v -> (length (vlist x v) <= size th)%nat.
Proof. intros Hr Hv. apply nodup_size; [by eapply rep_nodup|]. intros t. by eapply rep_queued. Qed.

(** A change of one CPU, with its queues over new nodes that agree outside. *)
Lemma rep_set_cpu s th cp i v c' v' h' :
  rep s th cp -> cp !! i = Some v -> cpu_rep h' (Some c') (Some v') ->
  (forall t, is_Some (s_nodes s !! t) -> is_Some (h' !! t)) ->
  (forall j w x t, cp !! j = Some w -> j <> i -> t ∈ vlist x w -> h' !! t = s_nodes s !! t) ->
  queues_disjoint (<[i := v']> cp) -> (forall x t, t ∈ vlist x v' -> is_Some (th !! t)) ->
  rep (set_snodes h' (set_scpus (<[i := c']> (s_cpus s)) s)) th (<[i := v']> cp).
Proof.
  intros Hr Hv Hc Hd Hf Hq Hin. split; cbn [s_threads s_nodes s_cpus set_snodes set_scpus].
  - apply (rep_threads _ _ _ Hr).
  - intros t Ht. apply Hd. by apply (rep_nodes _ _ _ Hr).
  - intros j. destruct (decide (j = i)) as [->|Hj]; [by rewrite !lookup_insert_eq|].
    rewrite !lookup_insert_ne by done. pose proof (rep_cpus _ _ _ Hr j) as Hj'.
    destruct (s_cpus s !! j) as [c|] eqn:Ej, (cp !! j) as [w|] eqn:Ew; try done.
    destruct Hj' as (? & ? & ? & Hh). split_and!; try done. intros x.
    eapply holds_frame; [|apply Hh]. rewrite ents_fst. intros t Ht. by eapply Hf.
  - done.
  - intros j w x t Hw Ht. destruct (decide (j = i)) as [->|Hj].
    + rewrite lookup_insert_eq in Hw. simplify_eq. by eapply Hin.
    + rewrite lookup_insert_ne in Hw by done. by eapply rep_queued.
  - apply (rep_size _ _ _ Hr).
Qed.

(** Running a queue operation: the queue [x] of CPU [i] refines the abstract one. *)
Lemma on_queue_rep {A} (f : rq -> store -> outcome (A * rq * store)) s th cp i v x op l' r :
  rep s th cp -> cp !! i = Some v ->
  (forall q h, holds q h (ents (vlist x v)) -> h = s_nodes s ->
    exists q' h', f q h = Ok (r, q', h') /\ dom h' = dom h /\ holds q' h' (ents l') /\
      forall t, t ∉ vlist x v -> op_node op <> Some t -> h' !! t = h !! t) ->
  (forall t, op_node op = Some t -> in_no_queue cp t) ->
  (forall t, t ∈ l' -> t ∈ vlist x v \/ (op_node op = Some t /\ is_Some (th !! t))) ->
  exists s', on_queue i x f s = Ok (r, s') /\ rep s' th (<[i := vset x l' v]> cp) /\ rest_kept s s' /\
    s_mem s' = s_mem s.
Proof.
  intros Hr Hv Hf Hop Hl. destruct (rep_cpu _ _ _ _ _ Hr Hv) as (c & Hc & Hlk & Hid & Hcu & Hh).
  destruct (Hf (queue_of x c) (s_nodes s) (Hh x) eq_refl) as (q' & h' & Hq & Hdom & Hh' & Hfr).
  exists (set_snodes h' (set_scpus (<[i := set_queue x q' c]> (s_cpus s)) s)).
  assert (forall y t, y <> x -> t ∈ vlist y v -> h' !! t = s_nodes s !! t) as Hother.
  { intros y t Hy Ht. apply Hfr.
    - intros Ht'. by destruct (rep_disjoint _ _ _ Hr i i v v y x t Hv Hv Ht Ht').
    - intros He. by apply (Hop t He i v y Hv). }
  split; [|split; [|split; [|done]]].
  - unfold on_queue, get_cpu, upd_cpu. erewrite st_bind_ok; [|by rewrite Hc].
    rewrite gets_bind. erewrite lift_bind; [|exact Hq].
    erewrite st_bind_ok; [|cbn [s_cpus]; by rewrite Hc]. by rewrite modify_bind.
  - eapply rep_set_cpu; [exact Hr|exact Hv| | | | |].
    + cbn [cpu_rep]. split_and!; [by destruct x|by destruct x|by destruct x|].
      intros y. destruct (decide (y = x)) as [->|Hy].
      * by rewrite queue_of_set_eq, vlist_vset_eq.
      * rewrite queue_of_set_ne, vlist_vset_ne by done. eapply holds_frame; [|apply Hh].
        rewrite ents_fst. intros t. by apply Hother.
    + intros t Ht. apply elem_of_dom. rewrite Hdom. by apply elem_of_dom.
    + intros j w y t Hw Hj Ht. apply Hfr.
      * intros Ht'. by destruct (rep_disjoint _ _ _ Hr j i w v y x t Hw Hv Ht Ht').
      * intros He. by apply (Hop t He j w y Hw).
    + eapply queues_disjoint_set; [apply Hr|done|exact Hop|]. intros t Ht. destruct (Hl t Ht) as [?|[? _]]; auto.
    + intros y t Ht. destruct (decide (y = x)) as [->|Hy].
      * rewrite vlist_vset_eq in Ht.
        destruct (Hl t Ht) as [?|[_ ?]]; [by eapply (rep_queued _ _ _ Hr)|done].
      * rewrite vlist_vset_ne in Ht by done. by eapply (rep_queued _ _ _ Hr i v y).
  - by split_and!.
Qed.

(** ** Primitive operations *)

Lemma push_room s th cp i v x t :
  rep s th cp -> cp !! i = Some v -> in_no_queue cp t -> is_Some (th !! t) ->
  Z.of_nat (length (vlist x v)) + 1 < 2 ^ 64.
Proof.
  intros Hr Hv Hno Ht. pose proof (rep_size _ _ _ Hr).
  assert (length (t :: vlist x v) <= size th)%nat; [|simpl in *; lia].
  apply nodup_size.
  - apply NoDup_cons. split; [by apply (Hno i v)|by eapply rep_nodup].
  - intros k [->|Hk]%elem_of_cons; [done|]. by eapply (rep_queued _ _ _ Hr).
Qed.

Lemma queue_push_rep s th cp i v x t :
  rep s th cp -> cp !! i = Some v -> in_no_queue cp t -> is_Some (th !! t) ->
  exists s', queue_push i x t s = Ok (tt, s') /\ rep s' th (<[i := vset x (vlist x v ++ [t]) v]> cp) /\
    rest_kept s s' /\ s_mem s' = s_mem s.
Proof.
  intros Hr Hv Hno Ht. apply (on_queue_rep _ _ _ _ _ _ _ (PushBack t (Some t))); try done.
  - intros q h Hh ->.
    destruct (push_back_refines 0 q (s_nodes s) (ents (vlist x v)) t (Some t) Hh) as (q' & h' & Hx & Hh' & Hfr).
    { split; [by apply (rep_nodes _ _ _ Hr)|]. rewrite ents_fst. unfold ents. rewrite length_fmap.
      split; [by eapply Hno|by eapply push_room]. }
    pose proof (rq_exec_dom _ _ _ _ _ Hx) as Hdom. cbn [rq_exec spec_exec fst snd] in *.
    exists q', h'. destruct (rq_push_back q (s_nodes s) t (Some t)) as [[q1 h1]| | |]; cbn in Hx; try done.
    assert (q1 = q' /\ h1 = h') as [-> ->] by (split; congruence).
    split_and!; [done|done| |].
    + unfold ents. rewrite fmap_app. exact Hh'.
    + intros k Hk He. apply Hfr; [by rewrite ents_fst|done].
  - by intros k [= ->].
  - intros k [?|Hk]%elem_of_app; [by left|]. apply list_elem_of_singleton in Hk as ->. by right.
Qed.

Lemma queue_pop_rep s th cp i v x :
  rep s th cp -> cp !! i = Some v ->
  exists s', queue_pop i x s = Ok (head (vlist x v), s') /\
    rep s' th (<[i := vset x (tail (vlist x v)) v]> cp) /\ rest_kept s s' /\ s_mem s' = s_mem s.
Proof.
  intros Hr Hv. apply (on_queue_rep _ _ _ _ _ _ _ PopFront); try done.
  - intros q h Hh ->.
    destruct (pop_front_refines 0 q (s_nodes s) (ents (vlist x v)) Hh) as (q' & h' & Hx & Hh' & Hfr).
    pose proof (rq_exec_dom _ _ _ _ _ Hx) as Hdom. cbn [rq_exec spec_exec fst snd] in *.
    exists q', h'. destruct (rq_pop_front q (s_nodes s)) as [[[d q1] h1]| | |]; cbn in Hx; try done.
    assert (q1 = q' /\ h1 = h') as [-> ->] by (split; congruence).
    split_and!; [|done| |].
    + assert (d = head (ents (vlist x v)) ≫= snd) as -> by congruence. by destruct (vlist x v).
    + by destruct (vlist x v).
    + intros k Hk He. apply Hfr; [by rewrite ents_fst|done].
  - intros k Hk. left. destruct (vlist x v); [done|by right].
Qed.

Lemma in_ents t l : Some t ∈ (ents l).*2 <-> t ∈ l.
Proof.
  rewrite ents_snd, list_elem_of_fmap. split; [|by exists t]. by intros (k & [= ->] & ?).
Qed.

Lemma fuel_enough s th cp i v x :
  rep s th cp -> cp !! i = Some v -> (length (ents (vlist x v)) < Datatypes.S (size (s_nodes s)))%nat.
Proof.
  intros Hr Hv. unfold ents. rewrite length_fmap. pose proof (rep_length _ _ _ _ _ x Hr Hv).
  assert (size th <= size (s_nodes s))%nat; [|lia].
  rewrite <- !(size_dom (D := gset Z)). apply subseteq_size. intros t Ht.
  apply elem_of_dom. apply elem_of_dom in Ht. by apply (rep_nodes _ _ _ Hr).
Qed.

Lemma on_contains_rep s th cp i v x t :
  rep s th cp -> cp !! i = Some v ->
  exists s', on_queue i x (fun q h =>
      b ← rq_contains (Datatypes.S (size (s_nodes s))) q h (Some t); Ok (b, q, h)) s =
    Ok (bool_decide (t ∈ vlist x v), s') /\ rep s' th cp /\ rest_kept s s' /\ s_mem s' = s_mem s.
Proof.
  intros Hr Hv.
  destruct (on_queue_rep (fun q h => b ← rq_contains (Datatypes.S (size (s_nodes s))) q h (Some t); Ok (b, q, h))
    s th cp i v x PopFront (vlist x v) (bool_decide (t ∈ vlist x v)) Hr Hv) as (s' & Hs & Hr' & ?); try done.
  - intros q h Hh ->.
    destruct (contains_refines (Datatypes.S (size (s_nodes s))) q (s_nodes s) (ents (vlist x v)) (Some t) Hh)
      as (q' & h' & Hx & Hh' & _); [by eapply fuel_enough|].
    cbn [rq_exec spec_exec fst snd] in *. exists q, (s_nodes s).
    destruct (rq_contains _ q (s_nodes s) (Some t)) as [b| | |]; cbn in Hx; try done.
    injection Hx as -> _ _. split_and!; try done. cbn. do 3 f_equal. apply bool_decide_ext, in_ents.
  - auto.
  - exists s'. split; [done|]. split; [|done]. assert (<[i:=vset x (vlist x v) v]> cp = cp) as <-; [|done].
    apply insert_id. rewrite Hv. f_equal. by destruct x, v.
Qed.

Lemma queue_has_rep s th cp i v x t :
  rep s th cp -> cp !! i = Some v ->
  exists s', queue_has i x t s = Ok (bool_decide (t ∈ vlist x v), s') /\
    rep s' th cp /\ rest_kept s s' /\ s_mem s' = s_mem s.
Proof. intros Hr Hv. unfold queue_has, queue_fuel. rewrite gets_bind. by apply on_contains_rep. Qed.

(** A list without one element that occurs once. *)
Definition without (t : Z) (l : list Z) : list Z := filter (fun k => k <> t) l.

Lemma without_notin t l : t ∉ l -> without t l = l.
Proof.
  induction l as [|k l IH]; intros Ht; [done|]. apply not_elem_of_cons in Ht as [Hk Ht].
  unfold without. rewrite filter_cons_True by done. f_equal. by apply IH.
Qed.

Lemma delete_without l i t : NoDup l -> l !! i = Some t -> delete i l = without t l.
Proof.
  revert i. induction l as [|k l IH]; intros i Hn Hi; [done|]. apply NoDup_cons in Hn as [Hk Hn].
  unfold without. destruct i as [|i]; cbn in Hi; cbn [delete list_delete].
  - simplify_eq. rewrite filter_cons_False by auto. symmetry. by apply without_notin.
  - rewrite filter_cons_True; [f_equal; by apply IH|]. intros ->.
    apply Hk, list_elem_of_lookup. eauto.
Qed.

Lemma queue_drop_rep s th cp i v x t :
  rep s th cp -> cp !! i = Some v ->
  exists s', queue_drop i x t s = Ok (tt, s') /\
    rep s' th (<[i := vset x (without t (vlist x v)) v]> cp) /\ rest_kept s s' /\ s_mem s' = s_mem s.
Proof.
  intros Hr Hv. unfold queue_drop, queue_fuel. rewrite gets_bind.
  destruct (on_contains_rep s th cp i v x t Hr Hv) as (s1 & Hs1 & Hr1 & Hk1 & Hm1).
  erewrite st_bind_ok; [|exact Hs1]. destruct (bool_decide (t ∈ vlist x v)) eqn:Hb.
  - apply bool_decide_eq_true in Hb.
    destruct (on_queue_rep (fun q h => rq_remove (Datatypes.S (size (s_nodes s))) q h (Some t))
      s1 th cp i v x PopFront (without t (vlist x v)) true Hr1 Hv) as (s2 & Hs2 & Hr2 & Hk2 & Hm2); try done.
    + intros q h Hh ->.
      destruct (remove_refines (Datatypes.S (size (s_nodes s))) q (s_nodes s1) (ents (vlist x v)) (Some t) Hh)
        as (q' & h' & Hx & Hh' & Hfr); [by eapply fuel_enough|].
      pose proof (rq_exec_dom _ _ _ _ _ Hx) as Hdom. cbn [rq_exec spec_exec fst snd] in *.
      destruct (list_find (fun y : Z * ptr => y.2 = Some t) (ents (vlist x v))) as [[k [k' d]]|] eqn:Hf.
      2:{ apply list_find_None in Hf. rewrite Forall_forall in Hf. exfalso. apply in_ents in Hb.
          apply list_elem_of_fmap in Hb as (y & Hy & Hin). by apply (Hf y Hin). }
      apply list_find_Some in Hf as (Hk & Hd & _). cbn [snd] in Hd. subst d.
      exists q', h'. destruct (rq_remove _ q (s_nodes s1) (Some t)) as [[[b q1] h1]| | |]; cbn in Hx; try done.
      injection Hx as -> -> ->.
      split_and!; [done|done| |].
      * assert (vlist x v !! k = Some t) as Hk2.
        { unfold ents in Hk. rewrite list_lookup_fmap in Hk. destruct (vlist x v !! k); cbn in Hk; by simplify_eq. }
        rewrite <- (delete_without _ k t) by (done || by eapply rep_nodup).
        unfold ents. by rewrite fmap_delete.
      * intros j Hj _. apply Hfr; [by rewrite ents_fst|done].
    + intros k Hk. left. by apply list_elem_of_filter in Hk as [_ ?].
    + exists s2. split; [by erewrite st_bind_ok|]. split; [done|]. split; [by etrans|congruence].
  - apply bool_decide_eq_false in Hb. exists s1. split; [done|]. rewrite without_notin by done.
    split; [|done]. assert (<[i:=vset x (vlist x v) v]> cp = cp) as ->; [|done].
    apply insert_id. rewrite Hv. f_equal. by destruct x, v.
Qed.

(** ** Triples over the view

    [view s0 m th cp] holds of the states with memory [m], threads [th] and
    CPUs [cp] that agree with [s0] on everything scheduling leaves alone. *)
Definition view (s0 : S) (m : words) (th : gmap Z tcb) (cp : vcpus) (s : S) : Prop :=
  rep s th cp /\ rest_kept s0 s /\ s_mem s = m.

Lemma view_self s th cp : rep s th cp -> view s (s_mem s) th cp s.
Proof. intros Hr. by split_and!. Qed.

Lemma view_step {A} (o : ST S A) s0 m th cp th' cp' a :
  (forall s, rep s th cp -> exists s', o s = Ok (a, s') /\ rep s' th' cp' /\ rest_kept s s' /\ s_mem s' = s_mem s) ->
  hoare (view s0 m th cp) o (gives a (view s0 m th' cp')).
Proof.
  intros Ho s (Hr & Hk & Hm). destruct (Ho s Hr) as (s' & Hs & Hr' & Hk' & Hm').
  exists a, s'. split; [done|]. split; [done|]. split; [done|]. split; [by etrans|congruence].
Qed.

Section primitives.
Context (s0 : S) (m : words) (th : gmap Z tcb) (cp : vcpus).

Lemma push_triple i v x t :
  cp !! i = Some v -> in_no_queue cp t -> is_Some (th !! t) ->
  hoare (view s0 m th cp) (queue_push i x t)
    (gives tt (view s0 m th (<[i := vset x (vlist x v ++ [t]) v]> cp))).
Proof. intros. apply view_step. intros. by apply queue_push_rep. Qed.

Lemma pop_triple i v x :
  cp !! i = Some v ->
  hoare (view s0 m th cp) (queue_pop i x)
    (gives (head (vlist x v)) (view s0 m th (<[i := vset x (tail (vlist x v)) v]> cp))).
Proof. intros. apply view_step. intros. by apply queue_pop_rep. Qed.

Lemma drop_triple i v x t :
  cp !! i = Some v ->
  hoare (view s0 m th cp) (queue_drop i x t)
    (gives tt (view s0 m th (<[i := vset x (without t (vlist x v)) v]> cp))).
Proof. intros. apply view_step. intros. by apply queue_drop_rep. Qed.

Lemma has_triple i v x t :
  cp !! i = Some v ->
  hoare (view s0 m th cp) (queue_has i x t) (gives (bool_decide (t ∈ vlist x v)) (view s0 m th cp)).
Proof. intros. apply view_step. intros. by apply queue_has_rep. Qed.

Lemma get_thread_triple t d :
  th !! t = Some d -> hoare (view s0 m th cp) (get_thread t) (gives d (view s0 m th cp)).
Proof.
  intros Ht. apply view_step. intros s Hr. exists s. split_and!; try done.
  unfold get_thread. by rewrite (rep_threads _ _ _ Hr), Ht.
Qed.

Lemma upd_thread_triple t d f :
  th !! t = Some d -> hoare (view s0 m th cp) (upd_thread t f) (gives tt (view s0 m (<[t := f d]> th) cp)).
Proof.
  intros Ht. apply view_step. intros s Hr. exists (set_sthreads (<[t := f d]> (s_threads s)) s).
  split; [unfold upd_thread; by rewrite (rep_threads _ _ _ Hr), Ht|]. split; [|by split_and!].
  split; cbn [s_threads s_nodes s_cpus set_sthreads].
  - by rewrite (rep_threads _ _ _ Hr).
  - intros k Hk. apply (rep_nodes _ _ _ Hr). apply lookup_insert_is_Some in Hk as [<-|[_ ?]]; by eauto.
  - apply (rep_cpus _ _ _ Hr).
  - apply (rep_disjoint _ _ _ Hr).
  - intros i v x k Hv Hk. apply lookup_insert_is_Some. destruct (decide (t = k)); [by left|right].
    split; [done|]. by eapply (rep_queued _ _ _ Hr).
  - rewrite map_size_insert_Some by eauto. apply (rep_size _ _ _ Hr).
Qed.

(** A change of the lock or of the current thread. *)
Lemma upd_cpu_rep s i v v' (f : cpu -> cpu) :
  rep s th cp -> cp !! i = Some v -> (forall x, vlist x v' = vlist x v) -> v_idle v' = v_idle v ->
  (forall c, c_lock c = v_lock v -> c_current c = Some (v_current v) ->
    c_lock (f c) = v_lock v' /\ c_idle (f c) = c_idle c /\ c_current (f c) = Some (v_current v') /\
    forall x, queue_of x (f c) = queue_of x c) ->
  exists s', upd_cpu i f s = Ok (tt, s') /\ rep s' th (<[i := v']> cp) /\ rest_kept s s' /\ s_mem s' = s_mem s.
Proof.
  intros Hr Hv Hl Hi Hf. destruct (rep_cpu _ _ _ _ _ Hr Hv) as (c & Hc & Hlk & Hid & Hcu & Hh).
  destruct (Hf c Hlk Hcu) as (H1 & H2 & H3 & H4).
  exists (set_scpus (<[i := f c]> (s_cpus s)) s).
  split; [unfold upd_cpu; by rewrite Hc|]. split; [|by split_and!].
  assert (set_scpus (<[i := f c]> (s_cpus s)) s =
    set_snodes (s_nodes s) (set_scpus (<[i := f c]> (s_cpus s)) s)) as -> by (by destruct s).
  eapply rep_set_cpu; [done|done| |done|done| |].
  - cbn [cpu_rep]. rewrite H2, Hi. split_and!; try done. intros x. by rewrite H4, Hl.
  - assert (<[i := v']> cp = <[i := vset Ready (vlist Ready v') (vset Zombies (vlist Zombies v') v')]> cp) as -> by
      (by destruct v').
    intros j k w u y z t Hw Hu Ht Ht'.
    assert (forall j w y, <[i := vset Ready (vlist Ready v') (vset Zombies (vlist Zombies v') v')]> cp !! j = Some w ->
      t ∈ vlist y w -> exists w0, cp !! j = Some w0 /\ t ∈ vlist y w0) as Hb.
    { intros j' w' y' Hw' Hy'. destruct (decide (j' = i)) as [->|]; [|rewrite lookup_insert_ne in Hw' by done; eauto].
      rewrite lookup_insert_eq in Hw'. simplify_eq. exists v. split; [done|]. rewrite <- Hl.
      by destruct v', y'. }
    destruct (Hb _ _ _ Hw Ht) as (? & ? & ?), (Hb _ _ _ Hu Ht') as (? & ? & ?).
    by eapply (rep_disjoint _ _ _ Hr).
  - intros x t Ht. rewrite Hl in Ht. by eapply (rep_queued _ _ _ Hr).
Qed.

Lemma find_cpu_triple i v {B} (f : option cpu -> ST S B) Q :
  cp !! i = Some v ->
  (forall c, c_lock c = v_lock v -> c_idle c = Some (v_idle v) -> c_current c = Some (v_current v) ->
    (forall x, rq_length (queue_of x c) = Z.of_nat (length (vlist x v))) ->
    hoare (view s0 m th cp) (f (Some c)) Q) ->
  hoare (view s0 m th cp) (find_cpu i ≫= f) Q.
Proof.
  intros Hv Hf s Hs. pose proof Hs as (Hr & _). destruct (rep_cpu _ _ _ _ _ Hr Hv) as (c & Hc & ? & ? & ? & Hh).
  unfold find_cpu. rewrite gets_bind, Hc. apply (Hf c); try done.
  intros x. destruct (Hh x) as [(_ & _ & _ & -> & _) _]. unfold ents. by rewrite !length_fmap.
Qed.

Lemma get_cpu_triple i v {B} (f : cpu -> ST S B) Q :
  cp !! i = Some v ->
  (forall c, c_lock c = v_lock v -> c_idle c = Some (v_idle v) -> c_current c = Some (v_current v) ->
    (forall x, rq_length (queue_of x c) = Z.of_nat (length (vlist x v))) ->
    hoare (view s0 m th cp) (f c) Q) ->
  hoare (view s0 m th cp) (get_cpu i ≫= f) Q.
Proof.
  intros Hv Hf s Hs. pose proof Hs as (Hr & _). destruct (rep_cpu _ _ _ _ _ Hr Hv) as (c & Hc & ? & ? & ? & Hh).
  erewrite st_bind_ok; [|unfold get_cpu; by rewrite Hc]. apply (Hf c); try done.
  intros x. destruct (Hh x) as [(_ & _ & _ & -> & _) _]. unfold ents. by rewrite !length_fmap.
Qed.

Lemma lock_triple i v :
  cp !! i = Some v -> v_lock v = false ->
  hoare (view s0 m th cp) (sched_cpu_lock i) (gives tt (view s0 m th (<[i := vlocked true v]> cp))).
Proof.
  intros Hv Hl. apply (get_cpu_triple i v _ _ Hv). intros c Hc _ _ _. rewrite Hc, Hl.
  apply view_step. intros s Hr. by apply (upd_cpu_rep s i v).
Qed.

Lemma unlock_triple i v :
  cp !! i = Some v ->
  hoare (view s0 m th cp) (sched_cpu_unlock i) (gives tt (view s0 m th (<[i := vlocked false v]> cp))).
Proof.
  intros Hv. apply view_step. intros s Hr. by apply (upd_cpu_rep s i v).
Qed.

Lemma set_current_triple i v t :
  cp !! i = Some v ->
  hoare (view s0 m th cp) (upd_cpu i (set_current (Some t))) (gives tt (view s0 m th (<[i := vcurrent t v]> cp))).
Proof.
  intros Hv. apply view_step. intros s Hr. by apply (upd_cpu_rep s i v).
Qed.
End primitives.

Lemma context_switch_triple s0 m th cp r prev next d n rsp m' :
  th !! prev = Some d -> th !! next = Some n -> prev <> next -> context_save r m = (rsp, m') ->
  hoare (view s0 m th cp) (context_switch r prev next)
    (gives (context_load r (t_rsp n) m') (view s0 m' (<[prev := set_rsp rsp d]> th) cp)).
Proof.
  intros Hp Hn Hne Hs s (Hr & Hk & Hm). unfold context_switch. rewrite gets_bind, Hm, Hs, modify_bind.
  destruct (upd_thread_triple s0 m' th cp prev d (set_rsp rsp) Hp (set_smem m' s)) as (? & s1 & H1 & _ & Hv1).
  { split_and!; [by destruct Hr|by destruct Hk as (? & ? & ? & ? & ? & ? & ?)|done]. }
  rewrite (st_bind_ok _ _ _ _ _ H1).
  destruct (get_thread_triple s0 m' (<[prev := set_rsp rsp d]> th) cp next n) with s1 as (? & s2 & H2 & -> & Hv2);
    [by rewrite lookup_insert_ne|done|]. rewrite (st_bind_ok _ _ _ _ _ H2). by eexists _, s2.
Qed.
End rep.
