(* ===== verification/SchedInv.v ===== *)
(** The scheduling operations of [kernel/src/sys/sched.c] against a list
    specification: the invariant that ties the status of every thread to the
    queue it is in, and what dispatching the next thread does. *)
From S2P Require Import Prelude Kenv Dll Rq Context Sched SchedRep.

(** ** The invariant

    [o] is the CPU that is being rescheduled: it is locked, and its current
    thread has already left the running state. [None]: no operation is under
    way. *)
Record wf (o : ptr) (th : gmap Z tcb) (cp : vcpus) : Prop := {
  wf_lock : forall i v, cp !! i = Some v -> v_lock v = bool_decide (o = Some i);
  wf_ready : forall i v t, cp !! i = Some v ->
    t ∈ v_ready v <-> exists d, th !! t = Some d /\ t_cpu d = i /\ t_status d = THREAD_RUNNABLE;
  wf_zombies : forall i v t, cp !! i = Some v ->
    t ∈ v_zombies v <-> exists d, th !! t = Some d /\ t_cpu d = i /\ t_status d = THREAD_ZOMBIE;
  wf_running : forall i v t d, cp !! i = Some v -> th !! t = Some d -> t_cpu d = i ->
    t_status d = THREAD_RUNNING <-> t = v_idle v \/ (t = v_current v /\ o <> Some i);
  wf_idle : forall i v, cp !! i = Some v -> exists d, th !! v_idle v = Some d /\ t_cpu d = i;
  wf_current : forall i v, cp !! i = Some v -> exists d, th !! v_current v = Some d /\ t_cpu d = i;
  wf_rsp : forall t d, th !! t = Some d -> t_rsp d <> 0;
  wf_cpu : forall t d, th !! t = Some d -> is_Some (cp !! t_cpu d) }.

Section wf.
Context (o : ptr) (th : gmap Z tcb) (cp : vcpus) (W : wf o th cp).

Lemma wf_idle_running i v d : cp !! i = Some v -> th !! v_idle v = Some d -> t_status d = THREAD_RUNNING.
Proof.
  intros Hv Hd. destruct (wf_idle _ _ _ W i v Hv) as (d' & Hd' & Hc). simplify_eq.
  apply (wf_running _ _ _ W (t_cpu d) v (v_idle v) d); auto.
Qed.

Lemma wf_unqueued t d : th !! t = Some d -> t_status d <> THREAD_RUNNABLE -> t_status d <> THREAD_ZOMBIE ->
  in_no_queue cp t.
Proof.
  intros Hd Hr Hz i v [] Hv Hin; cbn [vlist] in Hin.
  - apply (wf_ready _ _ _ W _ _ _ Hv) in Hin as (d' & ? & ? & ?). by simplify_eq.
  - apply (wf_zombies _ _ _ W _ _ _ Hv) in Hin as (d' & ? & ? & ?). by simplify_eq.
Qed.

(** A queue [l] of CPU [i] that differs from [l0] only in the thread [t], which
    it holds when the new state [b] says so. *)
Definition requeued (l0 l : list Z) (t : Z) (b : Prop) : Prop :=
  forall k, k ∈ l <-> (k ∈ l0 /\ k <> t) \/ (k = t /\ b).

(** One thread of CPU [i] changes its status, with the queues and the current
    thread of the CPU to match. *)
Lemma wf_status o' i v v' t d d' :
  cp !! i = Some v -> th !! t = Some d -> t_cpu d = i -> t_cpu d' = i -> t_rsp d' <> 0 ->
  requeued (v_ready v) (v_ready v') t (t_status d' = THREAD_RUNNABLE) ->
  requeued (v_zombies v) (v_zombies v') t (t_status d' = THREAD_ZOMBIE) ->
  (t_status d' = THREAD_RUNNING <-> t = v_idle v' \/ (t = v_current v' /\ o' <> Some i)) ->
  (forall k, k <> t -> (k = v_current v /\ o <> Some i) <-> (k = v_current v' /\ o' <> Some i)) ->
  v_idle v' = v_idle v -> (v_current v' = v_current v \/ v_current v' = t) ->
  v_lock v' = bool_decide (o' = Some i) -> (forall j, j <> i -> o = Some j <-> o' = Some j) ->
  wf o' (<[t := d']> th) (<[i := v']> cp).
Proof.
  intros Hv Hd Hi Hi' Hrsp Hq Hz Hrun Hcur Hidle Hcu Hlock Ho.
  assert (forall k d0, th !! k = Some d0 -> exists d1, (<[t := d']> th) !! k = Some d1 /\ t_cpu d1 = t_cpu d0) as Hkeep.
  { intros k d0 Hk. destruct (decide (k = t)) as [->|].
    - exists d'. rewrite lookup_insert_eq. split; [done|congruence].
    - exists d0. by rewrite lookup_insert_ne. }
  assert (forall st l0 l, requeued l0 l t (t_status d' = st) ->
    (forall k, k ∈ l0 <-> exists d0, th !! k = Some d0 /\ t_cpu d0 = i /\ t_status d0 = st) ->
    forall k, k ∈ l <-> exists d0, <[t := d']> th !! k = Some d0 /\ t_cpu d0 = i /\ t_status d0 = st) as Hqueue.
  { intros st l0 l Hl Hl0 k. rewrite (Hl k), Hl0. destruct (decide (k = t)) as [->|].
    - rewrite lookup_insert_eq. naive_solver.
    - rewrite lookup_insert_ne by done. naive_solver. }
  assert (forall st j k, j <> i -> (exists d0, th !! k = Some d0 /\ t_cpu d0 = j /\ t_status d0 = st) <->
    exists d0, <[t := d']> th !! k = Some d0 /\ t_cpu d0 = j /\ t_status d0 = st) as Hother.
  { intros st j k Hj. destruct (decide (k = t)) as [->|]; [|by rewrite lookup_insert_ne].
    rewrite lookup_insert_eq. naive_solver. }
  split.
  - intros j w. destruct (decide (j = i)) as [->|Hj]; [rewrite lookup_insert_eq; by intros [= <-]|].
    rewrite lookup_insert_ne by done. intros Hw. rewrite (wf_lock _ _ _ W j w Hw). by apply bool_decide_ext, Ho.
  - intros j w k. destruct (decide (j = i)) as [->|Hj].
    + rewrite lookup_insert_eq. intros [= <-]. eapply Hqueue; [done|]. intros k'. by apply (wf_ready _ _ _ W).
    + rewrite lookup_insert_ne by done. intros Hw. rewrite <- Hother by done. by apply (wf_ready _ _ _ W).
  - intros j w k. destruct (decide (j = i)) as [->|Hj].
    + rewrite lookup_insert_eq. intros [= <-]. eapply Hqueue; [done|]. intros k'. by apply (wf_zombies _ _ _ W).
    + rewrite lookup_insert_ne by done. intros Hw. rewrite <- Hother by done. by apply (wf_zombies _ _ _ W).
  - intros j w k dk. destruct (decide (k = t)) as [->|Hk].
    + rewrite lookup_insert_eq. intros Hw [= <-] <-. rewrite Hi', lookup_insert_eq in Hw. simplify_eq. by rewrite Hi'.
    + rewrite (lookup_insert_ne th) by done. destruct (decide (j = i)) as [->|Hj].
      * rewrite lookup_insert_eq. intros [= <-] Hdk Hci. rewrite Hidle, <- (Hcur k Hk).
        by apply (wf_running _ _ _ W).
      * rewrite lookup_insert_ne by done. intros Hw Hdk Hci.
        rewrite (wf_running _ _ _ W j w k dk Hw Hdk Hci). by rewrite (Ho j Hj).
  - intros j w. destruct (decide (j = i)) as [->|Hj].
    + rewrite lookup_insert_eq. intros [= <-]. rewrite Hidle.
      destruct (wf_idle _ _ _ W i v Hv) as (d0 & Hd0 & <-). by apply Hkeep.
    + rewrite lookup_insert_ne by done. intros Hw.
      destruct (wf_idle _ _ _ W j w Hw) as (d0 & Hd0 & <-). by apply Hkeep.
  - intros j w. destruct (decide (j = i)) as [->|Hj].
    + rewrite lookup_insert_eq. intros [= <-]. destruct Hcu as [->| ->].
      * destruct (wf_current _ _ _ W i v Hv) as (d0 & Hd0 & <-). by apply Hkeep.
      * rewrite lookup_insert_eq. eauto.
    + rewrite lookup_insert_ne by done. intros Hw.
      destruct (wf_current _ _ _ W j w Hw) as (d0 & Hd0 & <-). by apply Hkeep.
  - intros k dk. destruct (decide (k = t)) as [->|]; [rewrite lookup_insert_eq; by intros [= <-]|].
    rewrite lookup_insert_ne by done. apply (wf_rsp _ _ _ W).
  - intros k dk. destruct (decide (k = t)) as [->|].
    + rewrite lookup_insert_eq. intros [= <-]. rewrite Hi', lookup_insert_eq. eauto.
    + rewrite lookup_insert_ne by done. intros Hk. apply lookup_insert_is_Some.
      destruct (decide (i = t_cpu dk)); [by left|right]. split; [done|]. by eapply (wf_cpu _ _ _ W).
Qed.

Lemma requeued_same l t b : (t ∈ l <-> b) -> requeued l l t b.
Proof. intros Hb k. destruct (decide (k = t)) as [->|]; naive_solver. Qed.
Lemma requeued_without l t (b : Prop) : ~ b -> requeued l (without t l) t b.
Proof. intros Hb k. unfold without. rewrite list_elem_of_filter. naive_solver. Qed.
Lemma requeued_snoc l t (b : Prop) : b -> (t ∉ l) -> requeued l (l ++ [t]) t b.
Proof. intros Hb Ht k. rewrite elem_of_app, list_elem_of_singleton. naive_solver. Qed.
Lemma requeued_tail l t (b : Prop) : NoDup (t :: l) -> ~ b -> requeued (t :: l) l t b.
Proof. intros [Ht _]%NoDup_cons Hb k. rewrite elem_of_cons. naive_solver. Qed.

(** A change of a thread that keeps what the invariant speaks of. *)
Lemma wf_touch t d d' :
  th !! t = Some d -> t_cpu d' = t_cpu d -> t_status d' = t_status d -> t_rsp d' <> 0 ->
  wf o (<[t := d']> th) cp.
Proof.
  intros Hd Hc Hs Hr. destruct (wf_cpu _ _ _ W t d Hd) as [v Hv].
  rewrite <- (insert_id cp (t_cpu d) v Hv). eapply wf_status; try done.
  - apply requeued_same. rewrite (wf_ready _ _ _ W _ _ _ Hv), Hs. naive_solver.
  - apply requeued_same. rewrite (wf_zombies _ _ _ W _ _ _ Hv), Hs. naive_solver.
  - rewrite Hs. by apply (wf_running _ _ _ W).
  - by left.
  - by apply (wf_lock _ _ _ W).
Qed.
End wf.

(** ** Dispatching

    The next thread of a CPU: the head of its ready queue, or the idle thread. *)
Definition next_of (v : vcpu) : Z := default (v_idle v) (head (v_ready v)).
Definition dispatched (v : vcpu) : vcpu :=
  vlocked false (vcurrent (next_of v) (vset Ready (tail (v_ready v)) v)).
(** The switch from [cur] to [next], with the registers [r]: what is resumed,
    the memory and the threads. *)
Definition switched (r : cpu_state) (cur next : Z) (m : words) (th : gmap Z tcb)
    : option resumed * words * gmap Z tcb :=
  if decide (next = cur) then (None, m, alter start_running cur th)
  else
    let '(rsp, m') := context_save r m in
    (Some (context_load r (from_option t_rsp 0 (th !! next)) m'), m',
     alter (set_rsp rsp) cur (alter start_running next th)).

(** The stack has room for the frame of a context switch. *)
Definition stack_room (r : cpu_state) : Prop := 120 < cs_sp r < 2 ^ 64.

Lemma context_save_rsp r m rsp m' : stack_room r -> context_save r m = (rsp, m') -> rsp = cs_sp r - 120.
Proof.
  intros [? ?] Hs. unfold context_save in Hs.
  destruct (push_all_spec push_order r m) as (m1 & Hp & _); [simpl; lia|].
  rewrite Hp in Hs. injection Hs as <- _. simpl. lia.
Qed.

Lemma alter_lookup_insert {A} (f : A -> A) t d (th : gmap Z A) :
  th !! t = Some d -> alter f t th = <[t := f d]> th.
Proof.
  intros Hd. apply map_eq. intros k. destruct (decide (k = t)) as [->|].
  - by rewrite lookup_alter_eq, lookup_insert_eq, Hd.
  - by rewrite lookup_alter_ne, lookup_insert_ne.
Qed.

Lemma vlocked_vlocked b b' v : vlocked b (vlocked b' v) = vlocked b v.
Proof. done. Qed.

Lemma next_of_thread o th cp i v : wf o th cp -> cp !! i = Some v ->
  exists d, th !! next_of v = Some d /\ t_cpu d = i.
Proof.
  intros W Hv. unfold next_of. destruct (v_ready v) as [|t l] eqn:Hl; cbn.
  - by apply (wf_idle _ _ _ W i v Hv).
  - assert (t ∈ v_ready v) as Ht by (rewrite Hl; left).
    apply (wf_ready _ _ _ W i v t Hv) in Ht as (d & ? & ? & _). eauto.
Qed.

Section dispatch.
Context {E V : Type}.
Abbreviation S := (sched E V).
Implicit Types s : S.

(** A ready thread is taken as it is; the others are skipped only when the
    queue holds one that cannot run, which the invariant excludes. *)
Lemma next_thread_triple (s0 : S) m th cp i v :
  cp !! i = Some v ->
  (forall t, t ∈ v_ready v -> exists d, th !! t = Some d /\ t_status d = THREAD_RUNNABLE /\ t_rsp d <> 0) ->
  hoare (view s0 m th cp) (sched_next_thread i)
    (gives (Some (next_of v)) (view s0 m th (<[i := vset Ready (tail (v_ready v)) v]> cp))).
Proof.
  intros Hv Hrun. unfold sched_next_thread, queue_length.
  eapply hoare_gives with (v := length (v_ready v)) (Q := view s0 m th cp).
  { eapply get_cpu_triple; [done|]. intros c _ _ _ Hlen. rewrite (Hlen Ready), Nat2Z.id. apply hoare_ret_gives. }
  destruct (v_ready v) as [|t l] eqn:Hl; cbn [next_loop length].
  - eapply hoare_gives; [by apply (pop_triple _ _ _ _ i v Ready)|]. unfold next_of. cbn [vlist]. rewrite Hl. cbn.
    eapply get_cpu_triple; [by rewrite lookup_insert_eq|]. intros c _ -> _ _. apply hoare_ret_gives.
  - eapply hoare_gives; [by apply (pop_triple _ _ _ _ i v Ready)|]. unfold next_of. cbn [vlist]. rewrite Hl. cbn.
    destruct (Hrun t) as (d & Hd & Hst & Hr); [by left|].
    eapply hoare_gives; [by apply get_thread_triple|]. unfold has_status.
    rewrite bool_decide_eq_true_2 by done. rewrite (proj2 (Z.eqb_neq _ _) Hr). cbn. apply hoare_ret_gives.
Qed.

Lemma run_next_triple (s0 : S) r m th cp i v cur :
  wf (Some i) th cp -> cp !! i = Some v -> v_current v = cur ->
  let '(res, m', th') := switched r cur (next_of v) m th in
  hoare (view s0 m th cp) (sched_run_next_locked r i cur)
    (gives res (view s0 m' th' (<[i := dispatched v]> cp))).
Proof.
  intros W Hv Hcur. destruct (switched r cur (next_of v) m th) as [[res m'] th'] eqn:Hsw.
  unfold sched_run_next_locked. eapply hoare_gives; [apply next_thread_triple; [exact Hv|]|].
  { intros t Ht. apply (wf_ready _ _ _ W i v t Hv) in Ht as (d & Hd & _ & Hst). exists d.
    split; [done|]. split; [done|]. by apply (wf_rsp _ _ _ W t). }
  set (v1 := vset Ready (tail (v_ready v)) v).
  eapply get_cpu_triple; [by rewrite lookup_insert_eq|]. intros c _ _ _ _.
  eapply hoare_gives with (v := next_of v); [by apply (hoare_ret_gives _ (next_of v))|].
  destruct (wf_current _ _ _ W i v Hv) as (dc & Hdc & _). rewrite Hcur in Hdc.
  destruct (next_of_thread _ _ _ _ _ W Hv) as (dn & Hdn & _).
  unfold switched in Hsw. case_decide as Hn.
  - assert (res = None /\ m' = m /\ th' = <[cur := start_running dc]> th) as (-> & -> & ->).
    { rewrite (alter_lookup_insert _ _ dc) in Hsw by done. split_and!; congruence. }
    eapply hoare_gives; [by apply upd_thread_triple|].
    eapply hoare_gives; [by apply unlock_triple; rewrite lookup_insert_eq|].
    rewrite insert_insert_eq. replace (vlocked false v1) with (dispatched v); [apply hoare_ret_gives|].
    unfold dispatched, v1. rewrite Hn, <- Hcur. by destruct v.
  - destruct (context_save r m) as [rsp m1] eqn:Hs. rewrite Hdn in Hsw.
    rewrite (alter_lookup_insert _ (next_of v) dn) in Hsw by done.
    rewrite (alter_lookup_insert _ cur dc) in Hsw by by rewrite lookup_insert_ne.
    injection Hsw as <- <- <-.
    eapply hoare_gives; [by apply upd_thread_triple|].
    eapply hoare_gives; [by apply set_current_triple; rewrite lookup_insert_eq|].
    eapply hoare_gives; [by apply unlock_triple; rewrite lookup_insert_eq|].
    eapply hoare_gives; [apply (context_switch_triple _ _ _ _ _ _ _ dc (start_running dn) rsp m1); try done|].
    + by rewrite lookup_insert_ne.
    + by rewrite lookup_insert_eq.
    + rewrite !insert_insert_eq. apply hoare_ret_gives.
Qed.

(** Dispatching ends the rescheduling. *)
Lemma dispatched_wf th cp i v dn :
  wf (Some i) th cp -> cp !! i = Some v -> NoDup (v_ready v) -> th !! next_of v = Some dn ->
  wf None (<[next_of v := start_running dn]> th) (<[i := dispatched v]> cp).
Proof.
  intros W Hv Hnd Hdn. unfold dispatched. destruct (next_of_thread _ _ _ _ _ W Hv) as (d & Hd & Hi).
  assert (d = dn) as -> by congruence.
  assert (t_rsp (start_running dn) <> 0) by (apply (wf_rsp _ _ _ W (next_of v) dn Hdn)).
  assert (t_status dn <> THREAD_ZOMBIE -> requeued (v_zombies v) (v_zombies v) (next_of v)
    (THREAD_RUNNING = THREAD_ZOMBIE)) as Hz.
  { intros Hz. apply requeued_same. rewrite (wf_zombies _ _ _ W _ _ _ Hv). split; [|done].
    intros (d & Hd' & _ & ?). congruence. }
  unfold next_of in *. destruct (v_ready v) as [|t l] eqn:Hl; cbn in Hdn, Hz |- *.
  - pose proof (wf_idle_running _ _ _ W _ _ _ Hv Hdn) as Hrun.
    eapply wf_status; try done; cbn.
    + rewrite Hl. by intros k; set_solver.
    + apply Hz. congruence.
    + split; [by left|done].
    + naive_solver.
    + by right.
    + naive_solver.
  - assert (t ∈ v_ready v) as Ht by (rewrite Hl; left).
    apply (wf_ready _ _ _ W i v t Hv) in Ht as (d & Hd' & _ & Hst).
    assert (d = dn) as -> by congruence. eapply wf_status; try done; cbn.
    + rewrite Hl. by apply requeued_tail.
    + apply Hz. congruence.
    + split; [by right|done].
    + naive_solver.
    + by right.
    + naive_solver.
Qed.

Lemma switched_wf r m th cp i v cur res m' th' :
  wf (Some i) th cp -> cp !! i = Some v -> NoDup (v_ready v) -> v_current v = cur -> stack_room r ->
  switched r cur (next_of v) m th = (res, m', th') -> wf None th' (<[i := dispatched v]> cp).
Proof.
  intros W Hv Hnd Hcur Hroom Hsw.
  destruct (wf_current _ _ _ W i v Hv) as (dc & Hdc & _). rewrite Hcur in Hdc.
  destruct (next_of_thread _ _ _ _ _ W Hv) as (dn & Hdn & _).
  pose proof (dispatched_wf _ _ _ _ _ W Hv Hnd Hdn) as Hw.
  unfold switched in Hsw. case_decide as Hn.
  - rewrite <- Hn, (alter_lookup_insert _ _ dn) in Hsw by done. by injection Hsw as _ _ <-.
  - destruct (context_save r m) as [rsp m1] eqn:Hs.
    rewrite (alter_lookup_insert _ (next_of v) dn) in Hsw by done.
    rewrite (alter_lookup_insert _ cur dc) in Hsw by by rewrite lookup_insert_ne.
    injection Hsw as _ _ <-. eapply wf_touch; [exact Hw|by rewrite lookup_insert_ne|done|done|].
    cbn. rewrite (context_save_rsp _ _ _ _ Hroom Hs). unfold stack_room in Hroom. lia.
Qed.

(** ** Leaving the running state *)

(** The queue a thread that leaves the CPU with status [st] is put into. *)
Definition departed (st : thread_status) (t : Z) (v : vcpu) : vcpu :=
  match st with
  | THREAD_RUNNABLE => vset Ready (v_ready v ++ [t]) v
  | THREAD_ZOMBIE => vset Zombies (v_zombies v ++ [t]) v
  | _ => v
  end.

Lemma departed_wf th cp i v d d' :
  wf None th cp -> cp !! i = Some v -> v_current v <> v_idle v -> th !! v_current v = Some d ->
  t_cpu d' = t_cpu d -> t_rsp d' = t_rsp d -> t_status d' <> THREAD_RUNNING ->
  wf (Some i) (<[v_current v := d']> th) (<[i := departed (t_status d') (v_current v) (vlocked true v)]> cp).
Proof.
  intros W Hv Hne Hd Hc Hr Hst. destruct (wf_current _ _ _ W i v Hv) as (d0 & Hd0 & Hi).
  assert (d0 = d) as -> by congruence.
  assert (t_status d = THREAD_RUNNING) as Hrun by (apply (wf_running _ _ _ W i v (v_current v) d Hv); auto).
  assert ((v_current v ∉ v_ready v) /\ (v_current v ∉ v_zombies v)) as [Hnr Hnz].
  { split; intros Hin; [apply (wf_ready _ _ _ W i v _ Hv) in Hin|apply (wf_zombies _ _ _ W i v _ Hv) in Hin];
      destruct Hin as (? & ? & ? & ?); congruence. }
  assert (forall x (l : list Z) (b : Prop), (x ∉ l) -> ~ b -> requeued l l x b) as Hsame.
  { intros x l b Hx Hb. by apply requeued_same. }
  eapply (wf_status _ _ _ W (Some i) i v); try done.
  - congruence.
  - rewrite Hr. by apply (wf_rsp _ _ _ W (v_current v)).
  - destruct (t_status d'); cbn; try (by apply Hsame). by apply requeued_snoc.
  - destruct (t_status d'); cbn; try (by apply Hsame). by apply requeued_snoc.
  - destruct (t_status d'); cbn; naive_solver.
  - destruct (t_status d'); cbn; naive_solver.
  - by destruct (t_status d').
  - left. by destruct (t_status d').
  - rewrite bool_decide_eq_true_2 by done. by destruct (t_status d').
  - naive_solver.
Qed.

(** The idle thread stays running when it gives up the CPU. *)
Lemma idle_wf th cp i v : wf None th cp -> cp !! i = Some v -> v_current v = v_idle v ->
  wf (Some i) th (<[i := vlocked true v]> cp).
Proof.
  intros W Hv Hc. destruct (wf_current _ _ _ W i v Hv) as (d & Hd & Hi).
  rewrite <- (insert_id th _ _ Hd).
  assert (t_status d = THREAD_RUNNING) as Hrun by (apply (wf_running _ _ _ W i v (v_current v) d Hv); auto).
  eapply (wf_status _ _ _ W (Some i) i v); try done.
  - by apply (wf_rsp _ _ _ W (v_current v)).
  - apply requeued_same. cbn. rewrite (wf_ready _ _ _ W i v _ Hv). naive_solver.
  - apply requeued_same. cbn. rewrite (wf_zombies _ _ _ W i v _ Hv). naive_solver.
  - cbn. naive_solver.
  - cbn. naive_solver.
  - by left.
  - by rewrite bool_decide_eq_true_2.
  - naive_solver.
Qed.
End dispatch.
