(* ===== verification/SchedOps.v ===== *)
(** Yielding, blocking, waking and exiting: each operation of
    [kernel/src/sys/sched.c] returns, keeps the scheduler's invariant, and does
    to the lists of its CPU exactly what its specification says. *)
From S2P Require Import Prelude Kenv Dll Rq Context Sched SchedRep SchedInv.

(** The invariant between operations. *)
Definition sched_inv {E V} (s : sched E V) (cp : vcpus) : Prop :=
  rep s (s_threads s) cp /\ wf None (s_threads s) cp.

(** What the operation that takes the running thread off CPU [i], with the
    change [f] of its control block, leaves: the thread is queued by its new
    status [st], the next one is dispatched, and [res] is what is resumed. *)
Definition reschedules {E V} (r : cpu_state) (i : Z) (v : vcpu) (f : tcb -> tcb) (v1 : vcpu)
    (cp : vcpus) (s : sched E V) (res : option resumed) (s' : sched E V) : Prop :=
  switched r (v_current v) (next_of v1) (s_mem s) (alter f (v_current v) (s_threads s)) =
    (res, s_mem s', s_threads s') /\
  sched_inv s' (<[i := dispatched v1]> cp) /\ rest_kept s s'.

Section ops.
Context {E V : Type}.
Abbreviation S := (sched E V).
Implicit Types s : S.

Lemma sched_inv_view s cp m th : view s m th cp s -> sched_inv s cp -> th = s_threads s.
Proof. intros (Hr & _) _. by destruct Hr. Qed.

Lemma view_inv s0 m th cp s : view s0 m th cp s -> wf None th cp -> sched_inv s cp.
Proof.
  intros (Hr & _ & _) W. pose proof (rep_threads _ _ _ Hr) as <-. done.
Qed.

(** The common end of every rescheduling operation. *)
Lemma run_next_ok (s0 : S) r m th cp i v :
  wf (Some i) th cp -> cp !! i = Some v -> stack_room r ->
  hoare (view s0 m th cp) (sched_run_next_locked r i (v_current v)) (fun res s' =>
    switched r (v_current v) (next_of v) m th = (res, s_mem s', s_threads s') /\
    sched_inv s' (<[i := dispatched v]> cp) /\ rest_kept s0 s').
Proof.
  intros W Hv Hroom s Hs. pose proof Hs as (Hr & _). pose proof (rep_nodup _ _ _ _ _ Ready Hr Hv) as Hnd.
  pose proof (run_next_triple s0 r m th cp i v _ W Hv eq_refl) as Ht.
  destruct (switched r (v_current v) (next_of v) m th) as [[res m'] th'] eqn:Hsw.
  destruct (Ht s Hs) as (a & s' & Hrun & -> & Hview). exists res, s'. split; [done|].
  pose proof (switched_wf _ _ _ _ _ _ _ _ _ _ W Hv Hnd eq_refl Hroom Hsw) as W'.
  split; [|split; [by eapply view_inv|apply Hview]].
  pose proof Hview as (Hr' & _ & ->). by rewrite (rep_threads _ _ _ Hr').
Qed.

(** The operations that keep the invariant from an already known state. *)
Lemma enter {A} s cp (op : ST S A) Q :
  sched_inv s cp -> hoare (view s (s_mem s) (s_threads s) cp) op Q -> exists a s', op s = Ok (a, s') /\ Q a s'.
Proof. intros [Hr W] Ho. apply Ho. by apply view_self. Qed.

Lemma insert_twice (cp : vcpus) i (v v' : vcpu) : <[i := v']> (<[i := v]> cp) = <[i := v']> cp.
Proof. apply insert_insert_eq. Qed.

Lemma current_or_idle_triple (P : S -> Prop) v c :
  c_current c = Some (v_current v) -> hoare P (current_or_idle c) (gives (v_current v) P).
Proof. intros Hc. unfold current_or_idle. rewrite Hc. by apply (hoare_ret_gives P (v_current v)). Qed.

(** Queueing the running thread, as runnable. *)
Lemma requeue_triple s0 m th cp i v d :
  wf None th cp -> cp !! i = Some v -> v_current v <> v_idle v -> th !! v_current v = Some d ->
  hoare (view s0 m th (<[i := vlocked true v]> cp))
    (upd_thread (v_current v) make_runnable ;; queue_push i Ready (v_current v))
    (gives tt (view s0 m (<[v_current v := make_runnable d]> th)
      (<[i := departed THREAD_RUNNABLE (v_current v) (vlocked true v)]> cp))).
Proof.
  intros W Hv Hne Hd. destruct (wf_current _ _ _ W i v Hv) as (d0 & Hd0 & Hi).
  assert (d0 = d) as -> by congruence.
  assert (t_status d = THREAD_RUNNING) as Hrun by (apply (wf_running _ _ _ W i v (v_current v) d Hv); auto).
  assert (in_no_queue (<[i := vlocked true v]> cp) (v_current v)) as Hno.
  { assert (in_no_queue cp (v_current v)) as Hno by (eapply wf_unqueued; [done..| |]; congruence).
    intros j w x Hw. destruct (decide (j = i)) as [->|]; [|rewrite lookup_insert_ne in Hw by done; by eapply Hno].
    rewrite lookup_insert_eq in Hw. simplify_eq. destruct x; [by apply (Hno _ v Ready Hv)|by apply (Hno _ v Zombies Hv)]. }
  eapply hoare_gives; [by apply upd_thread_triple|].
  rewrite <- (insert_twice cp i (vlocked true v) (departed THREAD_RUNNABLE (v_current v) (vlocked true v))).
  apply (push_triple _ _ _ _ i (vlocked true v) Ready); [by rewrite lookup_insert_eq|done|].
  rewrite lookup_insert_eq. eauto.
Qed.

(** A CPU whose running thread gives up the processor but can go on: the idle
    thread is never queued. *)
Definition gave_up (v : vcpu) : vcpu :=
  if decide (v_current v = v_idle v) then vlocked true v
  else departed THREAD_RUNNABLE (v_current v) (vlocked true v).
Definition resting (v : vcpu) : tcb -> tcb :=
  if decide (v_current v = v_idle v) then id else make_runnable.

Section yielding.
Context (s0 : S) (m : words) (th : gmap Z tcb) (cp : vcpus) (r : cpu_state) (me : Z) (v : vcpu) (d : tcb).
Context (W : wf None th cp) (Hv : cp !! me = Some v) (Hd : th !! v_current v = Some d) (Hroom : stack_room r).

Definition given_up (res : option resumed) (s' : S) : Prop :=
  switched r (v_current v) (next_of (gave_up v)) m (alter (resting v) (v_current v) th) =
    (res, s_mem s', s_threads s') /\
  sched_inv s' (<[me := dispatched (gave_up v)]> cp) /\ rest_kept s0 s'.

Lemma yielding_idle : v_current v = v_idle v ->
  hoare (view s0 m th (<[me := vlocked true v]> cp)) (sched_run_next_locked r me (v_current v)) given_up.
Proof using All.
  intros He. unfold given_up, gave_up, resting. rewrite !decide_True by done.
  rewrite (alter_lookup_insert _ _ d _ Hd), (insert_id _ _ _ Hd), <- (insert_twice cp me (vlocked true v) (dispatched _)).
  apply (run_next_ok _ _ _ _ _ me (vlocked true v)); [by apply idle_wf|by rewrite lookup_insert_eq|done].
Qed.

Lemma yielding_busy : v_current v <> v_idle v ->
  hoare (view s0 m th (<[me := vlocked true v]> cp))
    ((upd_thread (v_current v) make_runnable ;; queue_push me Ready (v_current v)) ;;
     sched_run_next_locked r me (v_current v)) given_up.
Proof using All.
  intros Hne. unfold given_up, gave_up, resting. rewrite !decide_False by done.
  eapply hoare_gives; [by apply requeue_triple|]. rewrite (alter_lookup_insert _ _ d _ Hd).
  rewrite <- (insert_twice cp me (departed THREAD_RUNNABLE (v_current v) (vlocked true v)) (dispatched _)).
  apply (run_next_ok _ _ _ _ _ me (departed THREAD_RUNNABLE (v_current v) (vlocked true v)));
    [|by rewrite lookup_insert_eq|done].
  by apply (departed_wf th cp me v d (make_runnable d)).
Qed.
End yielding.

Lemma sched_yield_ok s cp r me v :
  sched_inv s cp -> cp !! me = Some v -> stack_room r ->
  exists res s', sched_yield r me s = Ok (res, s') /\ reschedules r me v (resting v) (gave_up v) cp s res s'.
Proof.
  intros HI Hv Hroom. apply (enter _ _ _ _ HI). destruct HI as [Hr W].
  destruct (wf_current _ _ _ W me v Hv) as (d & Hd & Hi).
  assert (t_status d = THREAD_RUNNING) as Hrun by (apply (wf_running _ _ _ W me v (v_current v) d Hv); auto).
  unfold sched_yield. eapply find_cpu_triple; [done|]. intros c _ Hid _ _. rewrite Hid. cbn [decide].
  eapply hoare_gives; [apply lock_triple; [done|by apply (wf_lock _ _ _ W me v Hv)]|].
  eapply get_cpu_triple; [by rewrite lookup_insert_eq|]. intros c' _ Hid' Hcu' _.
  cbn [v_current v_idle vlocked] in Hid', Hcu'.
  eapply hoare_gives; [by apply (current_or_idle_triple _ v)|].
  eapply hoare_gives; [by apply get_thread_triple|].
  unfold has_status. rewrite Hrun, Hid'. rewrite (bool_decide_eq_false_2 (THREAD_RUNNING = THREAD_ZOMBIE)) by done.
  rewrite andb_true_r. destruct (decide (v_current v = v_idle v)) as [He|Hne].
  - rewrite bool_decide_eq_false_2 by (rewrite He; auto).
    eapply hoare_gives; [apply hoare_ret_gives|]. by eapply yielding_idle.
  - rewrite bool_decide_eq_true_2 by congruence. by eapply yielding_busy.
Qed.

(** ** The timer tick *)

Definition ticked (d : tcb) : tcb := spend_tick (count_tick d).
Definition idling (v : vcpu) : bool := bool_decide (v_current v = v_idle v).
(** The running thread goes on: its quantum lasts, and an idle CPU has no
    other thread to run. *)
Definition keeps_running (v : vcpu) (d : tcb) : bool :=
  negb (SCHED_TICK_EXPIRED (ticked d)) && (negb (idling v) || bool_decide (v_ready v = [])).

Lemma ticked_same d : t_cpu (ticked d) = t_cpu d /\ t_status (ticked d) = t_status d /\ t_rsp (ticked d) = t_rsp d.
Proof. unfold ticked, spend_tick. by case_match. Qed.

Lemma rq_empty_ready c (l : list Z) : rq_length (queue_of Ready c) = Z.of_nat (length l) ->
  rq_empty (c_rq c) = bool_decide (l = []).
Proof.
  intros Hl. unfold rq_empty. change (c_rq c) with (queue_of Ready c). rewrite Hl. destruct l; [done|].
  rewrite bool_decide_eq_false_2 by done. by apply Z.eqb_neq.
Qed.

Lemma tick_locked_ok s cp r me v d :
  sched_inv s cp -> cp !! me = Some v -> s_threads s !! v_current v = Some d -> stack_room r ->
  exists res s', tick_locked r me s = Ok (res, s') /\
    if keeps_running v d then
      res = None /\ s_threads s' = <[v_current v := ticked d]> (s_threads s) /\ s_mem s' = s_mem s /\
      sched_inv s' cp /\ rest_kept s s'
    else
      reschedules r me v (resting v ∘ ticked) (gave_up v) cp s res s'.
Proof.
  intros HI Hv Hd Hroom. apply (enter _ _ _ _ HI). destruct HI as [Hr W].
  destruct (wf_current _ _ _ W me v Hv) as (d0 & Hd0 & Hi). assert (d0 = d) as -> by congruence.
  assert (t_status d = THREAD_RUNNING) as Hrun by (apply (wf_running _ _ _ W me v (v_current v) d Hv); auto).
  destruct (ticked_same d) as (Htc & Hts & Htr).
  set (th1 := <[v_current v := ticked d]> (s_threads s)).
  assert (wf None th1 cp) as W1.
  { eapply wf_touch; [done..|]. rewrite Htr. by apply (wf_rsp _ _ _ W (v_current v)). }
  unfold tick_locked.
  eapply hoare_gives; [apply lock_triple; [done|by apply (wf_lock _ _ _ W me v Hv)]|].
  eapply get_cpu_triple; [by rewrite lookup_insert_eq|]. intros c' _ Hid' Hcu' Hlen.
  cbn [v_current v_idle vlocked] in Hid', Hcu'.
  eapply hoare_gives; [by apply (current_or_idle_triple _ v)|].
  eapply hoare_gives; [by apply upd_thread_triple|].
  eapply hoare_gives; [by apply get_thread_triple; rewrite lookup_insert_eq|].
  unfold has_status. rewrite bool_decide_eq_true_2 by done.
  eapply hoare_gives; [by apply upd_thread_triple; rewrite lookup_insert_eq|].
  rewrite insert_insert_eq. fold (ticked d). fold th1.
  eapply hoare_gives; [by apply get_thread_triple; unfold th1; rewrite lookup_insert_eq|].
  rewrite Hid'.
  match goal with |- context [negb ?a && ?b] => assert (negb a && b = keeps_running v d) as -> end.
  { unfold keeps_running, idling. f_equal. f_equal; [|apply rq_empty_ready, (Hlen Ready)].
    rewrite bool_decide_not. f_equal. apply bool_decide_ext. split; congruence. }
  assert (th1 !! v_current v = Some (ticked d)) as Hd1 by (unfold th1; by rewrite lookup_insert_eq).
  destruct (keeps_running v d).
  - eapply hoare_gives; [by apply unlock_triple; rewrite lookup_insert_eq|].
    rewrite insert_insert_eq, (insert_id cp me).
    2:{ rewrite Hv. destruct v. f_equal. unfold vlocked. cbn. f_equal. exact (wf_lock _ _ _ W _ _ Hv). }
    apply hoare_ret. intros s' Hs'. pose proof Hs' as (Hr' & Hk & Hm). split_and!; try done.
    + by rewrite (rep_threads _ _ _ Hr').
    + by eapply view_inv.
  - unfold reschedules.
    assert (alter (resting v ∘ ticked) (v_current v) (s_threads s) = alter (resting v) (v_current v) th1) as ->.
    { rewrite (alter_lookup_insert _ _ d _ Hd), (alter_lookup_insert (resting v) _ _ _ Hd1). symmetry. apply insert_insert_eq. }
    case_decide as He.
    + eapply hoare_gives; [apply hoare_ret_gives|]. eapply yielding_idle; try done. congruence.
    + eapply yielding_busy; try done. congruence.
Qed.

(** ** Blocking and waking *)

Lemma running_unqueued th cp i v d : wf None th cp -> cp !! i = Some v -> v_current v <> v_idle v ->
  th !! v_current v = Some d -> t_status d = THREAD_RUNNING /\ t_cpu d = i /\ in_no_queue cp (v_current v).
Proof.
  intros W Hv Hne Hd. destruct (wf_current _ _ _ W i v Hv) as (d0 & Hd0 & Hi).
  assert (d0 = d) as -> by congruence.
  assert (t_status d = THREAD_RUNNING) as Hrun by (apply (wf_running _ _ _ W i v (v_current v) d Hv); auto).
  split_and!; [done..|]. eapply wf_unqueued; [done..| |]; congruence.
Qed.

(** The running thread is marked blocked; it is in no queue to be taken out of. *)
Lemma park_triple s0 m th cp i v d :
  wf None th cp -> cp !! i = Some v -> v_current v <> v_idle v -> th !! v_current v = Some d ->
  hoare (view s0 m th (<[i := vlocked true v]> cp))
    (upd_thread (v_current v) (set_status THREAD_BLOCKED) ;; queue_drop i Ready (v_current v))
    (gives tt (view s0 m (<[v_current v := set_status THREAD_BLOCKED d]> th) (<[i := vlocked true v]> cp))).
Proof.
  intros W Hv Hne Hd. destruct (running_unqueued _ _ _ _ _ W Hv Hne Hd) as (_ & _ & Hno).
  eapply hoare_gives; [by apply upd_thread_triple|].
  assert (<[i := vlocked true v]> cp = <[i := vset Ready (without (v_current v) (vlist Ready (vlocked true v)))
    (vlocked true v)]> (<[i := vlocked true v]> cp)) as E2.
  { rewrite insert_insert_eq, without_notin; [by destruct v|]. by apply (Hno i v Ready). }
  rewrite E2 at 2. apply drop_triple. by rewrite lookup_insert_eq.
Qed.

Lemma parked_ok (s0 : S) r m th cp i v d :
  wf None th cp -> cp !! i = Some v -> v_current v <> v_idle v -> th !! v_current v = Some d -> stack_room r ->
  hoare (view s0 m (<[v_current v := set_status THREAD_BLOCKED d]> th) (<[i := vlocked true v]> cp))
    (sched_run_next_locked r i (v_current v))
    (fun res s' => switched r (v_current v) (next_of v) m (alter (set_status THREAD_BLOCKED) (v_current v) th) =
       (res, s_mem s', s_threads s') /\
     sched_inv s' (<[i := dispatched v]> cp) /\ rest_kept s0 s').
Proof.
  intros W Hv Hne Hd Hroom. rewrite (alter_lookup_insert _ _ d _ Hd).
  rewrite <- (insert_twice cp i (vlocked true v) (dispatched v)).
  apply (run_next_ok _ _ _ _ _ i (vlocked true v)); [|by rewrite lookup_insert_eq|done].
  by apply (departed_wf th cp i v d (set_status THREAD_BLOCKED d)).
Qed.

(** The [release] callback of a wait queue: it returns, and does not touch the
    scheduler's data. *)
Definition release_ok (release : option (ST S unit)) : Prop :=
  forall f, release = Some f -> forall s, f s = Ok (tt, s).

Lemma release_triple (P : S -> Prop) release : release_ok release ->
  hoare P (match release with Some f => f | None => mret tt end) (gives tt P).
Proof.
  intros Hf. destruct release as [f|]; [|apply hoare_ret_gives].
  intros s Hs. exists tt, s. by rewrite (Hf f eq_refl).
Qed.

Lemma block_current_ok s cp r me v release :
  sched_inv s cp -> cp !! me = Some v -> v_current v <> v_idle v -> stack_room r -> release_ok release ->
  exists res s', thread_block_current release r me s = Ok (res, s') /\
    reschedules r me v (set_status THREAD_BLOCKED) v cp s res s'.
Proof.
  intros HI Hv Hne Hroom Hrel. apply (enter _ _ _ _ HI). destruct HI as [Hr W].
  destruct (wf_current _ _ _ W me v Hv) as (d & Hd & Hi).
  unfold thread_block_current. eapply find_cpu_triple; [done|]. intros c _ -> -> _.
  rewrite decide_False by done.
  eapply hoare_gives; [apply lock_triple; [done|by apply (wf_lock _ _ _ W me v Hv)]|].
  eapply hoare_assoc. eapply hoare_gives; [by apply park_triple|].
  eapply hoare_gives; [by apply release_triple|]. by apply parked_ok.
Qed.

Lemma thread_block_ok s cp r me t d v :
  sched_inv s cp -> s_threads s !! t = Some d -> cp !! t_cpu d = Some v -> t <> v_idle v ->
  t_status d <> THREAD_ZOMBIE -> (t_status d = THREAD_RUNNING -> t_cpu d = me) -> stack_room r ->
  exists res s', thread_block r me (Some t) s = Ok (res, s') /\
    if decide (t_status d = THREAD_RUNNING) then reschedules r me v (set_status THREAD_BLOCKED) v cp s res s'
    else res = None /\ s_threads s' = <[t := set_status THREAD_BLOCKED d]> (s_threads s) /\ s_mem s' = s_mem s /\
      sched_inv s' (<[t_cpu d := vset Ready (without t (v_ready v)) v]> cp) /\ rest_kept s s'.
Proof.
  intros HI Hd Hv Hidle Hz Hme Hroom. apply (enter _ _ _ _ HI). destruct HI as [Hr W].
  unfold thread_block. eapply hoare_gives; [by apply get_thread_triple|].
  eapply find_cpu_triple; [done|]. intros c _ Hid Hcu _. rewrite decide_False by congruence.
  eapply hoare_gives; [apply lock_triple; [done|by apply (wf_lock _ _ _ W _ v Hv)]|].
  pose proof (wf_running _ _ _ W _ v t d Hv Hd eq_refl) as Hrun.
  case_decide as Hst.
  - assert (t = v_current v) as -> by (destruct (proj1 Hrun Hst) as [?|[? _]]; done).
    pose proof (Hme Hst) as <-.
    assert (v_current v <> v_idle v) as Hne by done.
    eapply hoare_assoc. eapply hoare_gives; [by apply park_triple|].
    eapply get_cpu_triple; [by rewrite lookup_insert_eq|]. intros c' _ _ Hcu' _.
    rewrite decide_True by done. by apply parked_ok.
  - assert (t <> v_current v) as Hne by (intros ->; apply Hst, Hrun; auto).
    eapply hoare_gives; [by apply upd_thread_triple|].
    eapply hoare_gives; [apply (drop_triple _ _ _ _ _ (vlocked true v)); by rewrite lookup_insert_eq|].
    eapply get_cpu_triple; [by rewrite lookup_insert_eq|]. intros c' _ _ Hcu' _.
    cbn [v_current vset vlocked] in Hcu'. rewrite decide_False by (intros [_ ?]; congruence).
    eapply hoare_gives; [by apply unlock_triple; rewrite lookup_insert_eq|].
    rewrite !insert_insert_eq. apply hoare_ret. intros s' Hs'. pose proof Hs' as (Hr' & Hk & Hm).
    split_and!; try done; [by rewrite (rep_threads _ _ _ Hr')|].
    eapply view_inv; [|eapply (wf_status _ _ _ W None _ v _ t d (set_status THREAD_BLOCKED d)); try done].
    + assert (vlocked false (vset Ready (without t (vlist Ready (vlocked true v))) (vlocked true v)) =
        vset Ready (without t (v_ready v)) v) as <-; [|exact Hs'].
      pose proof (wf_lock _ _ _ W _ v Hv) as Hl. destruct v. cbn in *. by rewrite Hl.
    + exact (wf_rsp _ _ _ W t d Hd).
    + by apply requeued_without.
    + apply requeued_same. cbn. rewrite (wf_zombies _ _ _ W _ v t Hv). naive_solver.
    + cbn. naive_solver.
    + by left.
    + exact (wf_lock _ _ _ W _ v Hv).
Qed.

Lemma relock th cp i v l : wf None th cp -> cp !! i = Some v ->
  vlocked false (vset Ready l (vlocked true v)) = vset Ready l v.
Proof. intros W Hv. pose proof (wf_lock _ _ _ W _ v Hv) as Hl. destruct v. cbn in *. by rewrite Hl. Qed.

Lemma relock_same th cp i v : wf None th cp -> cp !! i = Some v -> <[i := vlocked false (vlocked true v)]> cp = cp.
Proof.
  intros W Hv. apply insert_id. rewrite Hv. pose proof (wf_lock _ _ _ W _ v Hv) as Hl.
  destruct v. cbn in *. by rewrite Hl.
Qed.

Lemma unqueued_locked cp i v t : in_no_queue cp t -> cp !! i = Some v ->
  in_no_queue (<[i := vlocked true v]> cp) t.
Proof.
  intros Hno Hv j w x Hw. destruct (decide (j = i)) as [->|]; [|rewrite lookup_insert_ne in Hw by done; by eapply Hno].
  rewrite lookup_insert_eq in Hw. simplify_eq. destruct x; [by apply (Hno _ v Ready Hv)|by apply (Hno _ v Zombies Hv)].
Qed.

Lemma woken_wf th cp t d v : wf None th cp -> th !! t = Some d -> cp !! t_cpu d = Some v ->
  t_status d = THREAD_BLOCKED ->
  wf None (<[t := make_runnable d]> th) (<[t_cpu d := vset Ready (v_ready v ++ [t]) v]> cp).
Proof.
  intros W Hd Hv Hb. pose proof (wf_running _ _ _ W _ v t d Hv Hd eq_refl) as Hrun.
  eapply (wf_status _ _ _ W None _ v _ t d (make_runnable d)); try done.
  - exact (wf_rsp _ _ _ W t d Hd).
  - apply requeued_snoc; [done|]. rewrite (wf_ready _ _ _ W _ v t Hv). naive_solver congruence.
  - apply requeued_same. cbn. rewrite (wf_zombies _ _ _ W _ v t Hv). naive_solver congruence.
  - cbn. rewrite <- Hrun. naive_solver congruence.
  - by left.
  - exact (wf_lock _ _ _ W _ v Hv).
Qed.

Lemma thread_wake_ok s cp t d v :
  sched_inv s cp -> s_threads s !! t = Some d -> cp !! t_cpu d = Some v ->
  exists s', thread_wake (Some t) s = Ok (tt, s') /\ s_mem s' = s_mem s /\ rest_kept s s' /\
    if decide (t_status d = THREAD_BLOCKED) then
      s_threads s' = <[t := make_runnable d]> (s_threads s) /\
      sched_inv s' (<[t_cpu d := vset Ready (v_ready v ++ [t]) v]> cp)
    else s_threads s' = s_threads s /\ sched_inv s' cp.
Proof.
  intros HI Hd Hv. pose proof HI as [Hr W].
  destruct (enter s cp (thread_wake (Some t)) (gives tt (fun s' => s_mem s' = s_mem s /\ rest_kept s s' /\
    if decide (t_status d = THREAD_BLOCKED) then
      s_threads s' = <[t := make_runnable d]> (s_threads s) /\
      sched_inv s' (<[t_cpu d := vset Ready (v_ready v ++ [t]) v]> cp)
    else s_threads s' = s_threads s /\ sched_inv s' cp)) HI) as (? & s' & Hs' & -> & Hq); [|by exists s'].
  unfold thread_wake. eapply hoare_gives; [by apply get_thread_triple|].
  eapply find_cpu_triple; [done|]. intros c _ -> _ _.
  pose proof (wf_running _ _ _ W _ v t d Hv Hd eq_refl) as Hrun.
  case_decide as Hid.
  { destruct (decide (t_status d = THREAD_BLOCKED)) as [Hb|_].
    { rewrite (proj2 Hrun) in Hb; [done|left; congruence]. }
    apply hoare_ret. intros s1 Hs1. pose proof Hs1 as (Hr1 & Hk & Hm). split; [done|]. split_and!; try done.
    - by rewrite (rep_threads _ _ _ Hr1).
    - by eapply view_inv. }
  eapply hoare_gives; [apply lock_triple; [done|by apply (wf_lock _ _ _ W _ v Hv)]|].
  eapply hoare_gives; [by apply get_thread_triple|]. unfold has_status. case_decide as Hb.
  - rewrite bool_decide_eq_true_2 by done.
    assert (in_no_queue (<[t_cpu d := vlocked true v]> cp) t) as Hno.
    { apply unqueued_locked; [|done]. eapply wf_unqueued; [done..| |]; congruence. }
    eapply hoare_gives with (v := tt).
    + eapply hoare_gives; [by apply upd_thread_triple|].
      eapply hoare_gives; [by apply (has_triple _ _ _ _ _ (vlocked true v)); rewrite lookup_insert_eq|].
      rewrite bool_decide_eq_false_2 by (apply (Hno (t_cpu d) (vlocked true v) Ready); by rewrite lookup_insert_eq).
      apply (push_triple _ _ _ _ _ (vlocked true v) Ready); [by rewrite lookup_insert_eq|done|].
      rewrite lookup_insert_eq. eauto.
    + eapply hoare_conseq; [by apply unlock_triple; rewrite lookup_insert_eq|by intros ? ?|].
      rewrite !insert_insert_eq, (relock _ _ _ _ _ W Hv). intros [] s1 [_ Hs1]. pose proof Hs1 as (Hr1 & Hk & Hm).
      split; [done|]. split_and!; try done; [by rewrite (rep_threads _ _ _ Hr1)|].
      eapply view_inv; [exact Hs1|]. by apply woken_wf.
  - rewrite bool_decide_eq_false_2 by done. eapply hoare_gives; [apply hoare_ret_gives|].
    eapply hoare_conseq; [by apply unlock_triple; rewrite lookup_insert_eq|by intros ? ?|].
    rewrite insert_insert_eq, (relock_same _ _ _ _ W Hv). intros [] s1 [_ Hs1]. pose proof Hs1 as (Hr1 & Hk & Hm).
    split; [done|]. split_and!; try done; [by rewrite (rep_threads _ _ _ Hr1)|by eapply view_inv].
Qed.

(** ** Exiting *)

Lemma sched_exit_ok s cp r me v :
  sched_inv s cp -> cp !! me = Some v -> v_current v <> v_idle v -> stack_room r ->
  exists res s', sched_exit r me s = Ok (res, s') /\
    reschedules r me v (set_status THREAD_ZOMBIE) (vset Zombies (v_zombies v ++ [v_current v]) v) cp s (Some res) s'.
Proof.
  intros HI Hv Hne Hroom. pose proof HI as [Hr W]. destruct (wf_current _ _ _ W me v Hv) as (d & Hd & Hi).
  destruct (running_unqueued _ _ _ _ _ W Hv Hne Hd) as (Hrun & _ & Hno).
  set (v1 := vset Zombies (v_zombies v ++ [v_current v]) (vlocked true v)).
  set (th1 := <[v_current v := set_status THREAD_ZOMBIE d]> (s_threads s)).
  assert (wf (Some me) th1 (<[me := v1]> cp)) as W1.
  { by apply (departed_wf (s_threads s) cp me v d (set_status THREAD_ZOMBIE d)). }
  assert (next_of v1 <> v_current v) as Hnext.
  { unfold next_of. cbn. destruct (v_ready v) as [|k l] eqn:Hl; cbn; [auto|]. intros ->.
    apply (Hno me v Ready Hv). cbn. rewrite Hl. left. }
  destruct (next_of_thread _ _ _ me v1 W1) as (dn & Hdn & _); [by rewrite lookup_insert_eq|].
  destruct (context_save r (s_mem s)) as [rsp m'] eqn:Hs.
  assert (switched r (v_current v) (next_of v1) (s_mem s) th1 =
    (Some (context_load r (t_rsp dn) m'), m', <[v_current v := set_rsp rsp (set_status THREAD_ZOMBIE d)]>
      (<[next_of v1 := start_running dn]> th1))) as Hsw.
  { unfold switched. rewrite decide_False, Hs, Hdn by done. do 2 f_equal.
    rewrite (alter_lookup_insert _ (next_of v1) dn) by done. apply alter_lookup_insert.
    rewrite lookup_insert_ne by done. apply lookup_insert_eq. }
  assert (wf None (<[v_current v := set_rsp rsp (set_status THREAD_ZOMBIE d)]> (<[next_of v1 := start_running dn]> th1))
    (<[me := dispatched v1]> cp)) as W2.
  { rewrite <- (insert_twice cp me v1 (dispatched v1)).
    eapply switched_wf; [exact W1|by rewrite lookup_insert_eq| |done|exact Hroom|exact Hsw].
    by apply (rep_nodup _ _ _ _ _ Ready Hr Hv). }
  destruct (enter s cp (sched_exit r me) (fun res s' =>
    reschedules r me v (set_status THREAD_ZOMBIE) (vset Zombies (v_zombies v ++ [v_current v]) v) cp s (Some res) s')
    HI) as (res & s' & Hx & Hq); [|by exists res, s'].
  unfold sched_exit. eapply find_cpu_triple; [done|]. intros c _ Hid Hcu _. rewrite Hcu.
  rewrite decide_False by congruence.
  eapply hoare_gives; [apply lock_triple; [done|by apply (wf_lock _ _ _ W me v Hv)]|].
  eapply hoare_gives.
  { unfold sched_queue_zombie_locked. eapply get_cpu_triple; [by rewrite lookup_insert_eq|]. intros c1 _ Hid1 _ _.
    cbn in Hid1. rewrite decide_False by congruence. eapply hoare_gives; [by apply upd_thread_triple|].
    apply (push_triple _ _ _ _ me (vlocked true v) Zombies); [by rewrite lookup_insert_eq|by apply unqueued_locked|].
    rewrite lookup_insert_eq. eauto. }
  rewrite insert_insert_eq. fold v1 th1.
  eapply hoare_gives; [apply (next_thread_triple _ _ _ _ me v1); [by rewrite lookup_insert_eq|]|].
  { intros k Hk. apply (wf_ready _ _ _ W1 me v1 k) in Hk as (dk & Hdk & _ & Hst); [|by rewrite lookup_insert_eq].
    exists dk. split_and!; try done. exact (wf_rsp _ _ _ W1 k dk Hdk). }
  rewrite insert_insert_eq.
  eapply get_cpu_triple; [by rewrite lookup_insert_eq|]. intros c2 _ _ _ _.
  rewrite decide_False by (intros [?|?]; congruence).
  eapply hoare_gives; [by apply (hoare_ret_gives _ (next_of v1))|].
  eapply hoare_gives; [by apply upd_thread_triple|].
  eapply hoare_gives; [by apply set_current_triple; rewrite lookup_insert_eq|].
  eapply hoare_gives; [by apply unlock_triple; rewrite lookup_insert_eq|].
  rewrite !insert_insert_eq.
  eapply hoare_conseq; [apply (context_switch_triple s (s_mem s) (<[next_of v1 := start_running dn]> th1)
    (<[me := dispatched v1]> cp) r (v_current v) (next_of v1) (set_status THREAD_ZOMBIE d) (start_running dn) rsp m'); [| |by auto|exact Hs]|intros ? Hv1; exact Hv1|].
  - rewrite lookup_insert_ne by done. apply lookup_insert_eq.
  - apply lookup_insert_eq.
  - intros res s1 [-> Hs1]. pose proof Hs1 as (Hr1 & Hk & Hm). unfold reschedules.
    rewrite (alter_lookup_insert _ _ d _ Hd). fold th1. change (next_of (vset Zombies _ v)) with (next_of v1).
    rewrite Hsw, Hm, (rep_threads _ _ _ Hr1). split; [done|]. split; [|done].
    by eapply view_inv.
Qed.
End ops.
