(* ===== verification/SchedProc.v ===== *)
(** The process table of [kernel/src/sys/sched.c]: singly linked lists, the
    allocation of process ids and the unlinking of processes and threads. *)
From S2P Require Import Prelude Kenv Dll Rq Context Sched SchedRep SchedInv.

(** ** Singly linked lists by address *)

Definition slist (nx : Z -> option ptr) (p : ptr) (l : list Z) : Prop :=
  p = head l /\ NoDup l /\ forall i a, l !! i = Some a -> nx a = Some (l !! S i).

Lemma slist_nil nx : slist nx None [].
Proof. split; [done|]. split; [constructor|done]. Qed.

Lemma slist_frame nx nx' p l : (forall a, a ∈ l -> nx' a = nx a) -> slist nx p l -> slist nx' p l.
Proof.
  intros Hf (Hp & Hn & Hl). split; [done|]. split; [done|]. intros i a Ha.
  rewrite Hf; [by apply Hl|]. apply list_elem_of_lookup. eauto.
Qed.

Lemma slist_cons nx nx' p l x : slist nx p l -> (x ∉ l) -> nx' x = Some p ->
  (forall a, a <> x -> nx' a = nx a) -> slist nx' (Some x) (x :: l).
Proof.
  intros (Hp & Hn & Hl) Hx Hxp Hf. split; [done|]. split; [by apply NoDup_cons|].
  intros [|i] a Ha; cbn in *; [simplify_eq; rewrite Hxp; by destruct l|].
  rewrite Hf; [by apply Hl|]. intros ->. apply Hx, list_elem_of_lookup. eauto.
Qed.

(** Unlinking the element at [i]: its predecessor, or the head, skips it. *)
Lemma slist_delete nx nx' p p' l i x :
  slist nx p l -> l !! i = Some x ->
  (match prev_at l i with None => p' = l !! S i | Some k => p' = p /\ nx' k = Some (l !! S i) end) ->
  (forall a, a ∈ l -> a <> x -> Some a <> prev_at l i -> nx' a = nx a) ->
  slist nx' p' (delete i l).
Proof.
  intros (Hp & Hn & Hl) Hi Hprev Hf. split; [|split].
  - destruct i as [|i]; cbn in Hprev.
    + rewrite Hprev. destruct l as [|? [|]]; by cbn in *.
    + destruct (l !! i) as [k|] eqn:Hk; [|apply lookup_ge_None in Hk; apply lookup_lt_Some in Hi; lia].
      destruct Hprev as [-> _]. rewrite Hp. by destruct l.
  - eapply sublist_NoDup; [exact Hn|]. apply sublist_delete.
  - intros j a Ha. rewrite list_lookup_delete in Ha. rewrite list_lookup_delete.
    assert (forall k, l !! k = Some a -> k <> i -> a <> x) as Hax.
    { intros k Hk Hki ->. apply Hki. by eapply NoDup_lookup. }
    case_decide as Hji.
    + destruct (decide (S j < i)%nat) as [Hlt|Hge].
      * rewrite Hf; [rewrite (Hl _ _ Ha); f_equal; by rewrite ?decide_True by lia| |eapply Hax; [done|lia]|].
        { apply list_elem_of_lookup. eauto. }
        intros Hpa. destruct i as [|i]; [lia|]. cbn in Hpa. symmetry in Hpa.
        pose proof (NoDup_lookup _ _ _ _ Hn Ha Hpa). lia.
      * assert (i = S j) as -> by lia. cbn in Hprev. rewrite Ha in Hprev. destruct Hprev as [_ ->].
        done.
    + rewrite ?decide_False by lia. rewrite Hf; [by rewrite (Hl _ _ Ha)| |eapply Hax; [done|lia]|].
      { apply list_elem_of_lookup. eauto. }
      intros Hpa. destruct i as [|i]; [done|]. cbn in Hpa. symmetry in Hpa.
      pose proof (NoDup_lookup _ _ _ _ Hn Ha Hpa). lia.
Qed.

Definition proc_next (pr : gmap Z pcb) (a : Z) : option ptr := p_next <$> pr !! a.
Definition thread_next (th : gmap Z tcb) (t : Z) : option ptr := t_next <$> th !! t.

Section pids.
Context {E V : Type}.
Abbreviation S := (sched E V).
Implicit Types s : S.

Definition has_pid (pr : gmap Z pcb) (pid a : Z) : Prop := exists p, pr !! a = Some p /\ p_pid p = pid.
#[export] Instance has_pid_dec pr pid a : Decision (has_pid pr pid a).
Proof.
  unfold has_pid. destruct (pr !! a) as [p|]; [|right; by intros (? & ? & _)].
  destruct (decide (p_pid p = pid)); [left; eauto|right; intros (? & ? & ?); congruence].
Defined.
(** Some process of the list has the id. *)
Definition pid_used (pr : gmap Z pcb) (l : list Z) (pid : Z) : bool := existsb (fun a => bool_decide (has_pid pr pid a)) l.

Lemma slist_size (pr : gmap Z pcb) (l : list Z) :
  NoDup l -> (forall a, a ∈ l -> is_Some (pr !! a)) -> (length l <= size pr)%nat.
Proof.
  intros Hn Hl. pose proof (size_list_to_set (C := gset Z) l Hn) as <-.
  rewrite <- (size_dom (D := gset Z)). apply subseteq_size. intros a Ha.
  apply elem_of_list_to_set in Ha. apply elem_of_dom. auto.
Qed.

Lemma slist_is_Some (pr : gmap Z pcb) p l a : slist (proc_next pr) p l -> a ∈ l -> is_Some (pr !! a).
Proof.
  intros (_ & _ & Hl) [i Hi]%list_elem_of_lookup. pose proof (Hl i a Hi) as Hn. unfold proc_next in Hn.
  destruct (pr !! a); [eauto|done].
Qed.

Lemma pid_in_use_loop_ok s l : forall fuel i pid p,
  slist (proc_next (s_procs s)) p l -> (length l <= fuel + i)%nat ->
  pid_in_use_loop fuel pid (l !! i) s = Ok (pid_used (s_procs s) (drop i l) pid, s).
Proof.
  induction fuel as [|fuel IH]; intros i pid p Hl Hf.
  - rewrite lookup_ge_None_2 by lia. by rewrite drop_ge by lia.
  - destruct (l !! i) as [a|] eqn:Ha; cbn [pid_in_use_loop].
    2:{ apply lookup_ge_None in Ha. by rewrite drop_ge by lia. }
    assert (is_Some (s_procs s !! a)) as [q Hq].
    { eapply slist_is_Some; [done|]. apply list_elem_of_lookup. eauto. }
    erewrite st_bind_ok; [|unfold get_proc; by rewrite Hq].
    rewrite (drop_S _ _ _ Ha). unfold pid_used. cbn [existsb]. fold (pid_used (s_procs s) (drop (Datatypes.S i) l) pid).
    destruct (Z.eqb_spec (p_pid q) pid) as [He|He].
    + rewrite bool_decide_eq_true_2 by (exists q; done). done.
    + rewrite bool_decide_eq_false_2 by (intros (? & ? & ?); congruence). cbn [orb].
      pose proof Hl as (_ & _ & Hnx). pose proof (Hnx _ _ Ha) as Hqn. unfold proc_next in Hqn. rewrite Hq in Hqn.
      cbn in Hqn. injection Hqn as ->. eapply IH; [done|lia].
Qed.

Lemma pid_in_use_ok s l pid :
  slist (proc_next (s_procs s)) (s_proc_list s) l ->
  sched_pid_in_use pid s = Ok (pid_used (s_procs s) l pid, s).
Proof.
  intros Hl. unfold sched_pid_in_use, proc_fuel. rewrite !gets_bind. pose proof Hl as (Hp & Hn & _).
  rewrite Hp, head_lookup. erewrite pid_in_use_loop_ok; [done|exact Hl|].
  assert (length l <= size (s_procs s))%nat; [|lia]. apply slist_size; [done|]. intros a Ha. by eapply slist_is_Some.
Qed.

(** The [k]-th id after [start], in the cyclic order of the ids. *)
Definition cyclic (start k : Z) : Z := (start - 1 + k) mod SCHED_PID_MAX + 1.

Lemma cyclic_range start k : 1 <= cyclic start k <= SCHED_PID_MAX.
Proof. unfold cyclic, SCHED_PID_MAX. pose proof (Z.mod_pos_bound (start - 1 + k) 65535). lia. Qed.
Lemma cyclic_0 start : 1 <= start <= SCHED_PID_MAX -> cyclic start 0 = start.
Proof. unfold cyclic, SCHED_PID_MAX. intros. rewrite Z.add_0_r, Z.mod_small; lia. Qed.
Lemma cyclic_period start : 1 <= start <= SCHED_PID_MAX -> cyclic start SCHED_PID_MAX = start.
Proof.
  intros H. rewrite <- (cyclic_0 start H) at 2. unfold cyclic, SCHED_PID_MAX in *.
  rewrite Z.add_0_r. replace (start - 1 + 65535) with (start - 1 + 1 * 65535) by lia. by rewrite Z_mod_plus_full.
Qed.
Lemma cyclic_succ start k : cyclic start (k + 1) =
  if SCHED_PID_MAX <? cyclic start k + 1 then SCHED_PID_MIN else cyclic start k + 1.
Proof.
  unfold cyclic, SCHED_PID_MAX, SCHED_PID_MIN. pose proof (Z.mod_pos_bound (start - 1 + k) 65535).
  pose proof (Z.div_mod (start - 1 + k) 65535).
  case (Z.ltb_spec 65535 ((start - 1 + k) mod 65535 + 1 + 1)) as [H1|H1].
  - rewrite <- (Z.mod_unique (start - 1 + (k + 1)) 65535 ((start - 1 + k) / 65535 + 1) 0); lia.
  - rewrite <- (Z.mod_unique (start - 1 + (k + 1)) 65535 ((start - 1 + k) / 65535) ((start - 1 + k) mod 65535 + 1)); lia.
Qed.
Lemma cyclic_inj start j k : 0 <= j < SCHED_PID_MAX -> 0 <= k < SCHED_PID_MAX ->
  cyclic start j = cyclic start k -> j = k.
Proof.
  unfold cyclic, SCHED_PID_MAX. intros Hj Hk He.
  pose proof (Z.div_mod (start - 1 + j) 65535). pose proof (Z.div_mod (start - 1 + k) 65535).
  assert ((start - 1 + j) / 65535 = (start - 1 + k) / 65535); lia.
Qed.
Lemma cyclic_onto start x : 1 <= start <= SCHED_PID_MAX -> 1 <= x <= SCHED_PID_MAX ->
  exists k, 0 <= k < SCHED_PID_MAX /\ cyclic start k = x.
Proof.
  unfold cyclic, SCHED_PID_MAX. intros Hs Hx. exists ((x - start) mod 65535).
  split; [apply Z.mod_pos_bound; lia|]. rewrite Zplus_mod_idemp_r.
  replace (start - 1 + (x - start)) with (x - 1) by lia. rewrite Z.mod_small; lia.
Qed.

(** The result of [sched_alloc_pid] from the counter [start]: the first id in
    cyclic order that no listed process has, with the counter past it; or the
    invalid id when all are used. *)
Definition alloc_pid_spec (used : Z -> bool) (start pid next : Z) : Prop :=
  (exists k, 0 <= k < SCHED_PID_MAX /\ pid = cyclic start k /\ used pid = false /\
    (forall i, 0 <= i < k -> used (cyclic start i) = true) /\ next = cyclic start (k + 1)) \/
  (pid = SCHED_INVALID_PID /\ (forall x, 1 <= x <= SCHED_PID_MAX -> used x = true) /\ next = start).

Lemma set_next_twice n n' s : set_next_pid n (set_next_pid n' s) = set_next_pid n s.
Proof. done. Qed.

(** One round of the loop: the counter steps, and wraps past the last id. *)
Lemma alloc_pid_round fuel start s j l :
  slist (proc_next (s_procs s)) (s_proc_list s) l -> s_next_pid s = cyclic start j ->
  alloc_pid_loop (Datatypes.S fuel) start s =
    let s1 := set_next_pid (cyclic start (j + 1)) s in
    if negb (pid_used (s_procs s) l (cyclic start j)) then Ok (cyclic start j, s1) else
    if cyclic start (j + 1) =? start then Ok (SCHED_INVALID_PID, s1) else alloc_pid_loop fuel start s1.
Proof.
  intros Hl Hnx. cbn [alloc_pid_loop]. rewrite gets_bind, modify_bind, gets_bind, Hnx.
  cbn [s_next_pid set_next_pid]. pose proof (cyclic_range start j) as Hr.
  assert (u64 (cyclic start j + 1) = cyclic start j + 1) as ->
    by (apply u64_small; unfold SCHED_PID_MAX in Hr; lia).
  set (s1 := set_next_pid (cyclic start (j + 1)) s). rewrite (st_bind_ok _ _ _ tt s1).
  2:{ unfold s1. rewrite cyclic_succ. by destruct (SCHED_PID_MAX <? cyclic start j + 1). }
  rewrite (st_bind_ok _ _ _ _ _ (pid_in_use_ok s1 l (cyclic start j) Hl)).
  change (s_procs s1) with (s_procs s). destruct (pid_used (s_procs s) l (cyclic start j)); [|done].
  cbn [negb]. rewrite gets_bind. change (s_next_pid s1) with (cyclic start (j + 1)).
  by destruct (cyclic start (j + 1) =? start).
Qed.

Lemma alloc_pid_loop_ok start l : 1 <= start <= SCHED_PID_MAX -> forall fuel s j,
  slist (proc_next (s_procs s)) (s_proc_list s) l -> s_next_pid s = cyclic start j ->
  Z.of_nat fuel + j = SCHED_PID_MAX -> 0 <= j < SCHED_PID_MAX ->
  (forall i, 0 <= i < j -> pid_used (s_procs s) l (cyclic start i) = true) ->
  exists pid next, alloc_pid_loop fuel start s = Ok (pid, set_next_pid next s) /\
    alloc_pid_spec (pid_used (s_procs s) l) start pid next.
Proof.
  intros Hst. induction fuel as [|fuel IH]; intros s j Hl Hnx Hf Hj Hused; [lia|].
  rewrite (alloc_pid_round _ _ _ j l Hl Hnx). cbv zeta.
  destruct (pid_used (s_procs s) l (cyclic start j)) eqn:Hu; cbn [negb].
  2:{ exists (cyclic start j), (cyclic start (j + 1)). split; [done|]. left. exists j. done. }
  assert (forall i, 0 <= i < j + 1 -> pid_used (s_procs s) l (cyclic start i) = true) as Hused'.
  { intros i Hi. destruct (decide (i = j)) as [->|]; [done|]. apply Hused. lia. }
  destruct (Z.eqb_spec (cyclic start (j + 1)) start) as [He|He].
  - exists SCHED_INVALID_PID, start. split; [by rewrite He|]. right. split; [done|]. split; [|done].
    assert (j + 1 = SCHED_PID_MAX) as Hend.
    { destruct (decide (j + 1 = SCHED_PID_MAX)); [done|]. rewrite <- (cyclic_0 start Hst) in He at 2.
      apply cyclic_inj in He; unfold SCHED_PID_MAX in *; lia. }
    intros x Hx. destruct (cyclic_onto start x Hst Hx) as (k & Hk & <-). apply Hused'. lia.
  - assert (j + 1 <> SCHED_PID_MAX) by (intros E1; apply He; rewrite E1; by apply cyclic_period).
    destruct (IH (set_next_pid (cyclic start (j + 1)) s) (j + 1)) as (pid & next & Hr & Hs); try done; try lia.
    exists pid, next. by rewrite Hr, set_next_twice.
Qed.

Lemma alloc_pid_ok s l :
  slist (proc_next (s_procs s)) (s_proc_list s) l -> 1 <= s_next_pid s <= SCHED_PID_MAX ->
  exists pid next, sched_alloc_pid s = Ok (pid, set_next_pid next s) /\
    alloc_pid_spec (pid_used (s_procs s) l) (s_next_pid s) pid next.
Proof.
  intros Hl Hst. unfold sched_alloc_pid. rewrite gets_bind.
  apply (alloc_pid_loop_ok _ _ Hst _ _ 0); try done.
  - by rewrite cyclic_0.
  - intros; lia.
Qed.

(** ** Unlinking *)

Lemma upd_proc_eq s a p f : s_procs s !! a = Some p ->
  upd_proc a f s = Ok (tt, set_sprocs (<[a := f p]> (s_procs s)) s).
Proof. intros Hp. unfold upd_proc. by rewrite Hp. Qed.
Lemma get_proc_eq s a p : s_procs s !! a = Some p -> get_proc a s = Ok (p, s).
Proof. intros Hp. unfold get_proc. by rewrite Hp. Qed.
Lemma get_thread_eq s t d : s_threads s !! t = Some d -> get_thread t s = Ok (d, s).
Proof. intros Hd. unfold get_thread. by rewrite Hd. Qed.
Lemma upd_thread_eq s t d f : s_threads s !! t = Some d ->
  upd_thread t f s = Ok (tt, set_sthreads (<[t := f d]> (s_threads s)) s).
Proof. intros Hd. unfold upd_thread. by rewrite Hd. Qed.

Lemma prev_at_is (l : list Z) i k : prev_at l i = Some k -> exists j, i = Datatypes.S j /\ l !! j = Some k.
Proof. destruct i as [|i]; cbn; [done|eauto]. Qed.

(** The table after [proc], the [j]-th element of the list [ls], is taken out:
    the head of the list and the processes. *)
Definition unlinked_head (ls : list Z) (j : nat) (pl : ptr) : ptr :=
  match prev_at ls j with None => ls !! Datatypes.S j | Some _ => pl end.
Definition unlinked_procs (ls : list Z) (j : nat) (proc : Z) (pr : gmap Z pcb) : gmap Z pcb :=
  alter (set_pnext None) proc
    (match prev_at ls j with None => pr | Some k => alter (set_pnext (ls !! Datatypes.S j)) k pr end).

Lemma prev_lt (l : list Z) i j : (i <= j)%nat -> is_Some (l !! j) -> prev_at l i = None -> i = 0%nat.
Proof.
  destruct i as [|i]; [done|]. cbn. intros Hij Hj Hi. apply lookup_ge_None in Hi.
  apply lookup_lt_is_Some in Hj. lia.
Qed.

Lemma proc_at_ok s ls i j a :
  slist (proc_next (s_procs s)) (s_proc_list s) ls -> ls !! j = Some a -> (i <= j)%nat ->
  proc_at (prev_at ls i) s = Ok (ls !! i, s).
Proof.
  intros (Hp & _ & Hl) Ha Hij. unfold proc_at. destruct (prev_at ls i) as [k|] eqn:Hk.
  - apply prev_at_is in Hk as (i' & -> & Hk). pose proof (Hl _ _ Hk) as Hn. unfold proc_next in Hn.
    destruct (s_procs s !! k) as [q|] eqn:Hq; [|done]. cbn in Hn. injection Hn as Hn.
    rewrite (st_bind_ok _ _ _ _ _ (get_proc_eq s k q Hq)). by rewrite Hn.
  - apply (prev_lt _ _ j) in Hk as ->; [|done|eauto]. unfold gets. by rewrite Hp, head_lookup.
Qed.

Lemma unlink_proc_loop_ok s ls j a :
  slist (proc_next (s_procs s)) (s_proc_list s) ls -> ls !! j = Some a -> forall fuel i,
  (i <= j)%nat -> (length ls <= fuel + i)%nat ->
  unlink_proc_loop fuel a (prev_at ls i) s =
    Ok (tt, set_proc_list (unlinked_head ls j (s_proc_list s))
      (set_sprocs (unlinked_procs ls j a (s_procs s)) s)).
Proof.
  intros Hs Ha. pose proof Hs as (Hp & Hn & Hl). pose proof (lookup_lt_Some _ _ _ Ha) as Hj.
  induction fuel as [|fuel IH]; intros i Hij Hf; [lia|].
  destruct (lookup_lt_is_Some_2 ls i) as [x Hx]; [lia|].
  cbn [unlink_proc_loop]. rewrite (st_bind_ok _ _ _ _ _ (proc_at_ok _ _ _ _ _ Hs Ha Hij)), Hx.
  destruct (decide (x = a)) as [->|Hxa].
  2:{ assert (i <> j) by (intros ->; congruence).
      assert (Some x = prev_at ls (Datatypes.S i)) as -> by (by cbn). apply IH; lia. }
  assert (i = j) as -> by (by eapply NoDup_lookup).
  destruct (slist_is_Some (s_procs s) _ ls a Hs) as [p Hpa]; [apply list_elem_of_lookup; eauto|].
  rewrite (st_bind_ok _ _ _ _ _ (get_proc_eq s a p Hpa)).
  assert (p_next p = ls !! Datatypes.S j) as ->.
  { pose proof (Hl _ _ Ha) as Hna. unfold proc_next in Hna. rewrite Hpa in Hna. by injection Hna. }
  unfold set_proc_at, unlinked_head, unlinked_procs. destruct (prev_at ls j) as [k|] eqn:Hk.
  - apply prev_at_is in Hk as (i & -> & Hk).
    destruct (slist_is_Some (s_procs s) _ ls k Hs) as [q Hq]; [apply list_elem_of_lookup; eauto|].
    assert (k <> a) by (intros ->; pose proof (NoDup_lookup _ _ _ _ Hn Hk Ha); lia).
    rewrite (st_bind_ok _ _ _ _ _ (upd_proc_eq s k q _ Hq)).
    rewrite (upd_proc_eq _ a p) by (cbn; by rewrite lookup_insert_ne).
    rewrite (alter_lookup_insert _ k q _ Hq), (alter_lookup_insert _ a p) by (by rewrite lookup_insert_ne).
    by destruct s.
  - rewrite modify_bind, (upd_proc_eq _ a p) by done. by rewrite (alter_lookup_insert _ a p _ Hpa).
Qed.

Lemma proc_unlink_ok s ls j a :
  slist (proc_next (s_procs s)) (s_proc_list s) ls -> ls !! j = Some a ->
  sched_proc_unlink_locked a s =
    Ok (tt, set_proc_list (unlinked_head ls j (s_proc_list s))
      (set_sprocs (unlinked_procs ls j a (s_procs s)) s)).
Proof.
  intros Hs Ha. unfold sched_proc_unlink_locked, proc_fuel. rewrite gets_bind.
  apply (unlink_proc_loop_ok s ls j a Hs Ha _ 0); [lia|].
  assert (length ls <= size (s_procs s))%nat; [|lia]. apply slist_size; [by destruct Hs as (_ & ? & _)|].
  intros x Hx. by eapply slist_is_Some.
Qed.

(** The same for the thread [t], the [j]-th of the threads [ts] of a process. *)
Definition unlinked_threads (ts : list Z) (j : nat) (th : gmap Z tcb) : gmap Z tcb :=
  match prev_at ts j with None => th | Some k => alter (set_tnext (ts !! Datatypes.S j)) k th end.
Definition unlinked_pcb (ts : list Z) (j : nat) (p : pcb) : pcb :=
  set_threads (match prev_at ts j with None => ts !! Datatypes.S j | Some _ => p_thread p end)
    (p_thread_count p - 1) p.

Lemma thread_at_ok s a p ts i j t :
  s_procs s !! a = Some p -> slist (thread_next (s_threads s)) (p_thread p) ts -> ts !! j = Some t -> (i <= j)%nat ->
  thread_at a (prev_at ts i) s = Ok (ts !! i, s).
Proof.
  intros Hpa (Hp & _ & Hl) Ha Hij. unfold thread_at. destruct (prev_at ts i) as [k|] eqn:Hk.
  - apply prev_at_is in Hk as (i' & -> & Hk). pose proof (Hl _ _ Hk) as Hn. unfold thread_next in Hn.
    destruct (s_threads s !! k) as [q|] eqn:Hq; [|done]. cbn in Hn. injection Hn as Hn.
    rewrite (st_bind_ok _ _ _ _ _ (get_thread_eq s k q Hq)). by rewrite Hn.
  - apply (prev_lt _ _ j) in Hk as ->; [|done|eauto].
    rewrite (st_bind_ok _ _ _ _ _ (get_proc_eq s a p Hpa)). by rewrite Hp, head_lookup.
Qed.

Lemma thread_next_is_Some (th : gmap Z tcb) p ts k : slist (thread_next th) p ts -> k ∈ ts -> is_Some (th !! k).
Proof.
  intros (_ & _ & Hl) [i Hi]%list_elem_of_lookup. pose proof (Hl i k Hi) as Hn. unfold thread_next in Hn.
  destruct (th !! k); [eauto|done].
Qed.

Lemma unlink_thread_loop_ok s a p ts j t :
  s_procs s !! a = Some p -> slist (thread_next (s_threads s)) (p_thread p) ts -> ts !! j = Some t ->
  0 < p_thread_count p -> forall fuel i, (i <= j)%nat -> (length ts <= fuel + i)%nat ->
  unlink_thread_loop fuel a t (prev_at ts i) s =
    Ok (tt, set_sprocs (<[a := unlinked_pcb ts j p]> (s_procs s))
      (set_sthreads (unlinked_threads ts j (s_threads s)) s)).
Proof.
  intros Hpa Hs Ha Hc. pose proof Hs as (Hp & Hn & Hl). pose proof (lookup_lt_Some _ _ _ Ha) as Hj.
  induction fuel as [|fuel IH]; intros i Hij Hf; [lia|].
  destruct (lookup_lt_is_Some_2 ts i) as [x Hx]; [lia|].
  cbn [unlink_thread_loop]. rewrite (st_bind_ok _ _ _ _ _ (thread_at_ok _ _ _ _ _ _ _ Hpa Hs Ha Hij)), Hx.
  destruct (decide (x = t)) as [->|Hxa].
  2:{ assert (i <> j) by (intros ->; congruence).
      assert (Some x = prev_at ts (Datatypes.S i)) as -> by (by cbn). apply IH; lia. }
  assert (i = j) as -> by (by eapply NoDup_lookup).
  destruct (thread_next_is_Some _ _ ts t Hs) as [d Hd]; [apply list_elem_of_lookup; eauto|].
  rewrite (st_bind_ok _ _ _ _ _ (get_thread_eq s t d Hd)).
  assert (t_next d = ts !! Datatypes.S j) as ->.
  { pose proof (Hl _ _ Ha) as Hna. unfold thread_next in Hna. rewrite Hd in Hna. by injection Hna. }
  assert (forall q, p_thread_count q = p_thread_count p -> drop_count q = set_threads (p_thread q) (p_thread_count p - 1) q)
    as Hdrop.
  { intros q Hq. unfold drop_count. by rewrite Hq, (proj2 (Z.ltb_lt _ _) Hc). }
  unfold set_thread_at, unlinked_threads, unlinked_pcb. destruct (prev_at ts j) as [k|] eqn:Hk.
  - apply prev_at_is in Hk as (i & -> & Hk).
    destruct (thread_next_is_Some _ _ ts k Hs) as [q Hq]; [apply list_elem_of_lookup; eauto|].
    rewrite (st_bind_ok _ _ _ _ _ (upd_thread_eq s k q _ Hq)).
    rewrite (upd_proc_eq _ a p) by done. by rewrite (alter_lookup_insert _ k q _ Hq), (Hdrop p eq_refl).
  - rewrite (st_bind_ok _ _ _ _ _ (upd_proc_eq s a p _ Hpa)).
    rewrite (upd_proc_eq _ a (set_threads (ts !! Datatypes.S j) (p_thread_count p) p)) by (cbn; by rewrite lookup_insert_eq).
    rewrite Hdrop by done. cbn [set_sprocs s_procs]. rewrite insert_insert_eq. by destruct s.
Qed.

Lemma thread_unlink_ok s a p ts j t :
  s_procs s !! a = Some p -> slist (thread_next (s_threads s)) (p_thread p) ts -> ts !! j = Some t ->
  0 < p_thread_count p ->
  sched_proc_unlink_thread (Some a) t s =
    Ok (tt, set_sprocs (<[a := unlinked_pcb ts j p]> (s_procs s))
      (set_sthreads (unlinked_threads ts j (s_threads s)) s)).
Proof.
  intros Hpa Hs Ht Hc. unfold sched_proc_unlink_thread, thread_fuel. rewrite gets_bind.
  apply (unlink_thread_loop_ok s a p ts j t Hpa Hs Ht Hc _ 0); [lia|].
  assert (length ts <= size (s_threads s))%nat; [|lia].
  pose proof Hs as (_ & Hn & _). apply nodup_size; [done|]. intros x Hx. by eapply thread_next_is_Some.
Qed.
End pids.
