(* ===== verification/SchedTable.v ===== *)
(** The invariant of the process table of [kernel/src/sys/sched.c] and of the
    heap objects of the scheduler: which threads and processes are allocated,
    and who owns whom. *)
From S2P Require Import Prelude Kenv Dll Rq Context Sched SchedRep SchedInv SchedOps SchedProc.

(** The threads of the process at [a], linked from [head], are [n]. *)
Definition threads_of (th : gmap Z tcb) (a : Z) (head : ptr) (n : Z) : Prop :=
  exists ts, slist (thread_next th) head ts /\ n = Z.of_nat (length ts) /\
    forall t, t ∈ ts <-> exists d, th !! t = Some d /\ t_parent d = Some a.

Definition listed (p : pcb) : Prop := p_type p <> PROC_IDLE.

Record procs_ok (th : gmap Z tcb) (pr : gmap Z pcb) (pl : ptr) : Prop := {
  po_list : exists ls, slist (proc_next pr) pl ls /\ forall a, a ∈ ls <-> exists p, pr !! a = Some p /\ listed p;
  po_pids : forall a b p q, pr !! a = Some p -> pr !! b = Some q -> listed p -> listed q ->
    p_pid p = p_pid q -> a = b;
  po_range : forall a p, pr !! a = Some p -> listed p -> SCHED_PID_MIN <= p_pid p <= SCHED_PID_MAX;
  po_threads : forall a p, pr !! a = Some p -> threads_of th a (p_thread p) (p_thread_count p);
  po_parent : forall t d, th !! t = Some d -> exists a, t_parent d = Some a /\ is_Some (pr !! a) }.

(** Threads, processes and stacks are live objects, all distinct. *)
Record heap_ok (live : gset Z) (th : gmap Z tcb) (pr : gmap Z pcb) : Prop := {
  ho_thread : forall t d, th !! t = Some d -> t ∈ live /\ pr !! t = None;
  ho_proc : forall a p, pr !! a = Some p -> a ∈ live;
  ho_stack : forall t d, th !! t = Some d ->
    exists k, t_stack d = Some k /\ k ∈ live /\ th !! k = None /\ pr !! k = None;
  ho_stacks : forall t u d e, th !! t = Some d -> th !! u = Some e -> t_stack d = t_stack e -> t = u }.

(** Two thread tables that differ only in what scheduling changes. *)
Definition same_tree (th th' : gmap Z tcb) : Prop :=
  forall t, (fun d => (t_next d, t_parent d, t_stack d)) <$> th' !! t =
            (fun d => (t_next d, t_parent d, t_stack d)) <$> th !! t.

Lemma same_tree_back th th' t d' : same_tree th th' -> th' !! t = Some d' ->
  exists d, th !! t = Some d /\ t_next d = t_next d' /\ t_parent d = t_parent d' /\ t_stack d = t_stack d'.
Proof.
  intros Hs Hd. pose proof (Hs t) as H. rewrite Hd in H. destruct (th !! t) as [d|]; cbn in H; [|done].
  exists d. injection H as ? ? ?. split_and!; congruence.
Qed.

#[export] Instance same_tree_equiv : Equivalence same_tree.
Proof.
  split.
  - by intros th t.
  - intros th th' H t. by rewrite (H t).
  - intros t1 t2 t3 H1 H2 t. by rewrite (H2 t), (H1 t).
Qed.

Lemma same_tree_alter th t f :
  (forall d, t_next (f d) = t_next d /\ t_parent (f d) = t_parent d /\ t_stack (f d) = t_stack d) ->
  same_tree th (alter f t th).
Proof.
  intros Hf k. destruct (decide (k = t)) as [->|]; [|by rewrite lookup_alter_ne].
  rewrite lookup_alter_eq. destruct (th !! t) as [d|]; cbn; [|done].
  destruct (Hf d) as (-> & -> & ->). done.
Qed.

Lemma threads_of_tree th th' a p n : same_tree th th' -> threads_of th a p n -> threads_of th' a p n.
Proof.
  intros Hs (ts & Hl & Hn & Hin). exists ts. split; [|split; [done|]].
  - eapply slist_frame; [|exact Hl]. intros t _. unfold thread_next. pose proof (Hs t) as H.
    destruct (th !! t), (th' !! t); cbn in *; congruence.
  - intros t. rewrite Hin. symmetry in Hs. split; intros (d & Hd & Hp).
    + destruct (same_tree_back _ _ _ _ Hs Hd) as (d' & ? & _ & ? & _). exists d'. split; congruence.
    + symmetry in Hs. destruct (same_tree_back _ _ _ _ Hs Hd) as (d' & ? & _ & ? & _). exists d'. split; congruence.
Qed.

Lemma procs_ok_tree th th' pr pl : same_tree th th' -> procs_ok th pr pl -> procs_ok th' pr pl.
Proof.
  intros Hs [H1 H2 H3 H4 H5]. split; [done..| |].
  - intros a p Hp. eapply threads_of_tree; [exact Hs|by apply H4].
  - intros t d' Hd. destruct (same_tree_back _ _ _ _ Hs Hd) as (d & Hd0 & _ & <- & _). by eapply H5.
Qed.

Lemma heap_ok_tree live th th' pr : same_tree th th' -> heap_ok live th pr -> heap_ok live th' pr.
Proof.
  intros Hs [H1 H2 H3 H4]. split.
  - intros t d' Hd. destruct (same_tree_back _ _ _ _ Hs Hd) as (d & Hd0 & _). by eapply H1.
  - done.
  - intros t d' Hd. destruct (same_tree_back _ _ _ _ Hs Hd) as (d & Hd0 & _ & _ & <-).
    destruct (H3 t d Hd0) as (k & ? & ? & Hk & ?). exists k. split_and!; try done.
    pose proof (Hs k) as Hk'. rewrite Hk in Hk'. by destruct (th' !! k).
  - intros t u d' e' Hd He Heq. destruct (same_tree_back _ _ _ _ Hs Hd) as (d & Hd0 & _ & _ & Hd1).
    destruct (same_tree_back _ _ _ _ Hs He) as (e & He0 & _ & _ & He1). eapply H4; [done..|congruence].
Qed.

(** What dispatching changes is not part of the process table. *)
Lemma switched_tree r cur next m th res m' th' : switched r cur next m th = (res, m', th') -> same_tree th th'.
Proof.
  unfold switched. case_decide.
  - intros [= _ _ <-]. by apply same_tree_alter.
  - destruct (context_save r m) as [rsp m1]. intros [= _ _ <-].
    etrans; [|by apply same_tree_alter]. by apply same_tree_alter.
Qed.

(** ** The invariant of the whole scheduler *)

Record table_ok {E V} `{!Heap E} (s : sched E V) : Prop := {
  tb_procs : procs_ok (s_threads s) (s_procs s) (s_proc_list s);
  tb_heap : heap_ok (env_live (s_env s)) (s_threads s) (s_procs s);
  tb_lock : s_proc_lock s = false;
  tb_next : SCHED_PID_MIN <= s_next_pid s <= SCHED_PID_MAX }.

Definition kernel_inv {E V} `{!Heap E} (s : sched E V) (cp : vcpus) : Prop := sched_inv s cp /\ table_ok s.

Lemma table_ok_kept {E V} `{!Heap E} (s s' : sched E V) :
  table_ok s -> rest_kept s s' -> same_tree (s_threads s) (s_threads s') -> table_ok s'.
Proof.
  intros [H1 H2 H3 H4] (He & Hv & Hp & Hl & Hk & Hn & Ht) Hs. split; rewrite ?He, ?Hp, ?Hl, ?Hk, ?Hn; try done.
  - by eapply procs_ok_tree.
  - by eapply heap_ok_tree.
Qed.
