(* ===== verification/SchedReap.v ===== *)
(** Reaping, from [kernel/src/sys/sched.c]: a dead thread is freed with its
    stack, taken out of its process, and the process is freed with its last
    thread; the scheduler's invariants survive. *)
From S2P Require Import Prelude Kenv Dll Rq Context Sched SchedRep SchedInv SchedOps SchedProc SchedTable.

(** ** Removing a thread or a process from the tables *)

(** Addresses that the tables hold on to. *)
Definition owned (th : gmap Z tcb) (pr : gmap Z pcb) (x : Z) : Prop :=
  is_Some (th !! x) \/ is_Some (pr !! x) \/ exists t d, th !! t = Some d /\ t_stack d = Some x.

Lemma heap_shrink live live' th th' pr pr' :
  heap_ok live th pr ->
  (forall t d', th' !! t = Some d' -> exists d, th !! t = Some d /\ t_stack d = t_stack d') ->
  (forall a, is_Some (pr' !! a) -> is_Some (pr !! a)) ->
  (forall x, x ∈ live -> owned th' pr' x -> x ∈ live') ->
  heap_ok live' th' pr'.
Proof.
  intros [H1 H2 H3 H4] Ht Hp Hl.
  assert (forall a, pr !! a = None -> pr' !! a = None) as Hpn.
  { intros a Ha. destruct (pr' !! a) eqn:E; [|done]. destruct (Hp a) as [q Hq]; [eauto|congruence]. }
  split.
  - intros t d' Hd. destruct (Ht t d' Hd) as (d & Hd0 & _). destruct (H1 t d Hd0) as [? ?].
    split; [|by apply Hpn]. apply Hl; [done|]. left. eauto.
  - intros a p Ha. destruct (Hp a) as [q Hq]; [eauto|]. apply Hl; [by eapply H2|]. right. left. eauto.
  - intros t d' Hd. destruct (Ht t d' Hd) as (d & Hd0 & Hst). destruct (H3 t d Hd0) as (k & Hk & ? & Hkt & ?).
    rewrite Hst in Hk. exists k. split_and!; [done| | |by apply Hpn].
    + apply Hl; [done|]. right. right. eauto.
    + destruct (th' !! k) as [dk|] eqn:E; [|done]. destruct (Ht k dk E) as (? & ? & _). congruence.
  - intros t u d' e' Hd He Heq. destruct (Ht t d' Hd) as (d & Hd0 & Hd1), (Ht u e' He) as (e & He0 & He1).
    eapply H4; [done..|congruence].
Qed.

Section remove_thread.
Context (th : gmap Z tcb) (pr : gmap Z pcb) (pl : ptr) (t a : Z) (d : tcb) (p : pcb) (ts : list Z) (j : nat).
Context (Hok : procs_ok th pr pl) (Hd : th !! t = Some d) (Hpar : t_parent d = Some a) (Hp : pr !! a = Some p).
Context (Hs : slist (thread_next th) (p_thread p) ts) (Hn : p_thread_count p = Z.of_nat (length ts)).
Context (Hin : forall k, k ∈ ts <-> exists e, th !! k = Some e /\ t_parent e = Some a) (Hj : ts !! j = Some t).

(** Only the [next] field of the predecessor changes. *)
Lemma unlinked_threads_lookup k :
  unlinked_threads ts j th !! k =
    if decide (prev_at ts j = Some k) then set_tnext (ts !! S j) <$> th !! k else th !! k.
Proof using.
  unfold unlinked_threads. destruct (prev_at ts j) as [x|]; [|by rewrite decide_False].
  case_decide as Hk; [injection Hk as ->; by rewrite lookup_alter_eq|]. rewrite lookup_alter_ne; [done|congruence].
Qed.

Lemma unlinked_threads_same k : set_tnext None <$> unlinked_threads ts j th !! k = set_tnext None <$> th !! k.
Proof using. rewrite unlinked_threads_lookup. case_decide; [|done]. by destruct (th !! k). Qed.

Lemma unlinked_threads_back k e' : unlinked_threads ts j th !! k = Some e' ->
  exists e, th !! k = Some e /\ set_tnext None e = set_tnext None e'.
Proof using.
  intros He. pose proof (unlinked_threads_same k) as H. rewrite He in H.
  destruct (th !! k) as [e|]; [|done]. exists e. cbn in H. split; congruence.
Qed.

Lemma prev_ne : prev_at ts j <> Some t.
Proof using Hs Hj.
  intros (i & -> & Hi)%prev_at_is. destruct Hs as (_ & Hnd & _).
  pose proof (NoDup_lookup _ _ _ _ Hnd Hi Hj). lia.
Qed.

(** The remaining threads of the process. *)
Lemma own_threads_removed :
  threads_of (delete t (unlinked_threads ts j th)) a (p_thread (unlinked_pcb ts j p))
    (p_thread_count (unlinked_pcb ts j p)).
Proof using Hs Hn Hin Hj.
  exists (delete j ts). split; [|split].
  - eapply (slist_delete (thread_next th) _ (p_thread p)); [exact Hs|exact Hj| |].
    + unfold unlinked_pcb. cbn [p_thread set_threads]. destruct (prev_at ts j) as [k|] eqn:Hk; [|done].
      split; [done|]. unfold thread_next.
      rewrite lookup_delete_ne by (intros <-; by apply prev_ne).
      rewrite unlinked_threads_lookup, decide_True by done. apply prev_at_is in Hk as (i & -> & Hk).
      destruct (thread_next_is_Some _ _ _ k Hs) as [e ->]; [apply list_elem_of_lookup; eauto|done].
    + intros k Hk Hkt Hkp. unfold thread_next. rewrite lookup_delete_ne by done.
      rewrite unlinked_threads_lookup, decide_False by done. done.
  - cbn. rewrite Hn, length_delete by eauto. apply lookup_lt_Some in Hj. lia.
  - intros k. destruct Hs as (_ & Hnd & _). rewrite (delete_without ts j t Hnd Hj).
    unfold without. rewrite list_elem_of_filter, Hin. split.
    + intros (Hk & e & He & Hpe). pose proof (unlinked_threads_same k) as H. rewrite He in H.
      destruct (unlinked_threads ts j th !! k) as [e'|] eqn:He'; [|done]. exists e'.
      rewrite lookup_delete_ne by done. split; [done|]. cbn in H. injection H as H. congruence.
    + intros (e' & [Hk He']%lookup_delete_Some & Hpe). split; [done|].
      destruct (unlinked_threads_back k e' He') as (e & He & Hsame). exists e. split; [done|].
      injection Hsame as Hsame. congruence.
Qed.

(** The threads of the other processes are linked as before. *)
Lemma other_threads_kept b q : b <> a -> threads_of th b (p_thread q) (p_thread_count q) ->
  threads_of (delete t (unlinked_threads ts j th)) b (p_thread q) (p_thread_count q).
Proof using Hd Hpar Hin Hj.
  intros Hb (ts' & Hs' & Hn' & Hin').
  assert (forall k, k ∈ ts' -> k <> t /\ prev_at ts j <> Some k) as Hother.
  { intros k Hk. apply Hin' in Hk as (e & He & Hpe). split; [intros ->; congruence|].
    intros (i & _ & Hi)%prev_at_is. assert (k ∈ ts) as Hkt by (apply list_elem_of_lookup; eauto).
    apply Hin in Hkt as (e' & He' & Hpe'). congruence. }
  exists ts'. split; [|split; [done|]].
  - eapply slist_frame; [|exact Hs']. intros k Hk. destruct (Hother k Hk) as [Hkt Hkp]. unfold thread_next.
    rewrite lookup_delete_ne by done. by rewrite unlinked_threads_lookup, decide_False.
  - intros k. rewrite Hin'. split.
    + intros (e & He & Hpe). assert (k ∈ ts') as Hk by (apply Hin'; eauto). destruct (Hother k Hk) as [Hkt Hkp].
      exists e. rewrite lookup_delete_ne by done. by rewrite unlinked_threads_lookup, decide_False.
    + intros (e' & [Hk He']%lookup_delete_Some & Hpe).
      destruct (unlinked_threads_back k e' He') as (e & He & Hsame). exists e. split; [done|].
      injection Hsame as Hsame. congruence.
Qed.

Lemma procs_remove_thread :
  procs_ok (delete t (unlinked_threads ts j th)) (<[a := unlinked_pcb ts j p]> pr) pl.
Proof using All.
  assert (forall b q, <[a := unlinked_pcb ts j p]> pr !! b = Some q -> exists q0, pr !! b = Some q0 /\
    p_pid q = p_pid q0 /\ p_type q = p_type q0 /\ p_next q = p_next q0) as Hback.
  { intros b q Hq. destruct (decide (b = a)) as [->|Hb].
    - rewrite lookup_insert_eq in Hq. injection Hq as <-. by exists p.
    - rewrite lookup_insert_ne in Hq by done. by exists q. }
  destruct Hok as [[ls [Hls Hin']] H2 H3 H4 H5]. split.
  - exists ls. split.
    + eapply slist_frame; [|exact Hls]. intros b _. unfold proc_next.
      destruct (decide (b = a)) as [->|]; [by rewrite lookup_insert_eq, Hp|by rewrite lookup_insert_ne].
    + intros b. rewrite Hin'. destruct (decide (b = a)) as [->|]; [|by rewrite lookup_insert_ne].
      rewrite lookup_insert_eq, Hp. unfold listed. split; intros (q & [= <-] & Hq); eauto.
  - intros b c q r (q0 & Hq & Ei & Et & _)%Hback (r0 & Hr & Ei' & Et' & _)%Hback. unfold listed.
    rewrite Et, Et', Ei, Ei'. by apply H2.
  - intros b q (q0 & Hq & Ei & Et & _)%Hback. unfold listed. rewrite Et, Ei. by apply (H3 b q0 Hq).
  - intros b q Hq. destruct (decide (b = a)) as [->|Hb].
    + rewrite lookup_insert_eq in Hq. injection Hq as <-. by apply own_threads_removed.
    + rewrite lookup_insert_ne in Hq by done. apply other_threads_kept; [done|by apply H4].
  - intros k e' [Hk He']%lookup_delete_Some.
    destruct (unlinked_threads_back k e' He') as (e & He & Hsame). destruct (H5 k e He) as (b & Hb & Hpb).
    exists b. split; [injection Hsame as Hsame; congruence|]. apply lookup_insert_is_Some.
    destruct (decide (a = b)); [by left|by right].
Qed.
End remove_thread.

(** A process without threads leaves the table. *)
Lemma unlinked_procs_lookup ls j a pr b : b <> a ->
  unlinked_procs ls j a pr !! b =
    if decide (prev_at ls j = Some b) then set_pnext (ls !! S j) <$> pr !! b else pr !! b.
Proof.
  intros Hb. unfold unlinked_procs. rewrite lookup_alter_ne by done.
  destruct (prev_at ls j) as [x|]; [|by rewrite decide_False].
  case_decide as Hk; [injection Hk as ->; by rewrite lookup_alter_eq|]. rewrite lookup_alter_ne; [done|congruence].
Qed.

Lemma unlinked_procs_back ls j a pr b q : b <> a -> unlinked_procs ls j a pr !! b = Some q ->
  exists q0, pr !! b = Some q0 /\ set_pnext None q0 = set_pnext None q.
Proof.
  intros Hb. rewrite unlinked_procs_lookup by done. case_decide; [|by exists q].
  destruct (pr !! b) as [q0|]; cbn; [|done]. intros [= <-]. by exists q0.
Qed.

Lemma procs_remove_any th pr pl pr' pl' a p :
  procs_ok th pr pl -> pr !! a = Some p -> p_thread_count p = 0 -> pr' !! a = None ->
  (forall b q, pr' !! b = Some q -> exists q0, pr !! b = Some q0 /\ set_pnext None q0 = set_pnext None q) ->
  (forall b, b <> a -> is_Some (pr !! b) -> is_Some (pr' !! b)) ->
  (exists ls, slist (proc_next pr') pl' ls /\ forall b, b ∈ ls <-> exists q, pr' !! b = Some q /\ listed q) ->
  procs_ok th pr' pl'.
Proof.
  intros [_ H2 H3 H4 H5] Hp Hz Ha Hback Hkeep Hls. split; [done|..].
  - intros b c q r (q0 & Hq & Eq)%Hback (r0 & Hr & Er)%Hback. unfold listed. intros Hlq Hlr Hpid.
    injection Eq as ? ? ? ? ? ? ?. injection Er as ? ? ? ? ? ? ?.
    eapply (H2 b c q0 r0); unfold listed; congruence.
  - intros b q (q0 & Hq & Eq)%Hback Hlq. injection Eq as Epid ? ? Ety ? ? ?.
    rewrite <- Epid. apply (H3 b q0 Hq). unfold listed in *. congruence.
  - intros b q (q0 & Hq & Eq)%Hback. injection Eq as ? ? ? ? Eth ? Ec. rewrite <- Eth, <- Ec. by apply H4.
  - intros t d Hd. destruct (H5 t d Hd) as (b & Hb & Hpb). exists b. split; [done|]. apply Hkeep; [|done].
    intros ->. destruct (H4 a p Hp) as (ts & _ & Hn & Hin). rewrite Hz in Hn. destruct ts; [|done].
    assert (t ∈ @nil Z) as Ht%elem_of_nil by (apply Hin; eauto). done.
Qed.

Lemma procs_remove_listed th pr pl a p ls j :
  procs_ok th pr pl -> pr !! a = Some p -> p_thread_count p = 0 ->
  slist (proc_next pr) pl ls -> (forall b, b ∈ ls <-> exists q, pr !! b = Some q /\ listed q) -> ls !! j = Some a ->
  procs_ok th (delete a (unlinked_procs ls j a pr)) (unlinked_head ls j pl).
Proof.
  intros Hok Hp Hz Hs Hin Hj. pose proof Hs as (Hpl & Hnd & Hl).
  assert (prev_at ls j <> Some a) as Hprev.
  { intros (i & -> & Hi)%prev_at_is. pose proof (NoDup_lookup _ _ _ _ Hnd Hi Hj). lia. }
  eapply (procs_remove_any _ _ _ _ _ a p Hok Hp Hz).
  - apply lookup_delete_eq.
  - intros b q [Hb Hq]%lookup_delete_Some. eapply unlinked_procs_back; [|exact Hq]. congruence.
  - intros b Hb [q Hq]. rewrite lookup_delete_ne by done. rewrite unlinked_procs_lookup by done.
    rewrite Hq. case_decide; cbn; eauto.
  - exists (delete j ls). split.
    + eapply (slist_delete (proc_next pr)); [exact Hs|exact Hj| |].
      * unfold unlinked_head. destruct (prev_at ls j) as [k|] eqn:Hk; [|done]. split; [done|]. unfold proc_next.
        rewrite lookup_delete_ne by congruence. rewrite unlinked_procs_lookup, decide_True by congruence.
        apply prev_at_is in Hk as (i & -> & Hk).
        destruct (slist_is_Some pr pl ls k Hs) as [q ->]; [apply list_elem_of_lookup; eauto|done].
      * intros b _ Hb Hbp. unfold proc_next. rewrite lookup_delete_ne by done.
        by rewrite unlinked_procs_lookup, decide_False.
    + intros b. rewrite (delete_without ls j a Hnd Hj). unfold without. rewrite list_elem_of_filter, Hin. split.
      * intros (Hb & q & Hq & Hlq). rewrite lookup_delete_ne by done. rewrite unlinked_procs_lookup by done.
        rewrite Hq. case_decide; cbn; eauto.
      * intros (q & [Hb Hq]%lookup_delete_Some & Hlq).
        destruct (unlinked_procs_back _ _ _ _ _ _ (not_eq_sym Hb) Hq) as (q0 & Hq0 & Eq).
        injection Eq as ? ? ? Ety ? ? ?. split; [done|]. exists q0. split; [done|]. unfold listed in *. congruence.
Qed.

(** ** The operations *)

(** The part of the state that scheduling owns. *)
Definition queues_kept {E V} (s s' : sched E V) : Prop :=
  s_threads s' = s_threads s /\ s_nodes s' = s_nodes s /\ s_cpus s' = s_cpus s /\ s_mem s' = s_mem s.

Lemma queues_kept_rep {E V} (s s' : sched E V) th cp : queues_kept s s' -> rep s th cp -> rep s' th cp.
Proof. intros (H1 & H2 & H3 & _) [R1 R2 R3 R4 R5 R6]. split; rewrite ?H1, ?H2, ?H3; done. Qed.

(** Fewer threads, the remaining ones with the same nodes. *)
Lemma rep_change {E V} (s s' : sched E V) th th' cp :
  rep s th cp -> s_threads s' = th' -> s_cpus s' = s_cpus s ->
  (forall k, is_Some (th' !! k) -> is_Some (th !! k) /\ s_nodes s' !! k = s_nodes s !! k) ->
  (forall i v x k, cp !! i = Some v -> k ∈ vlist x v -> is_Some (th' !! k)) ->
  rep s' th' cp.
Proof.
  intros [R1 R2 R3 R4 R5 R6] Hth Hcp Hk Hq. split; try done.
  - intros k Hs. destruct (Hk k Hs) as [Hs' ->]. by apply R2.
  - intros i. rewrite Hcp. pose proof (R3 i) as Hi. destruct (s_cpus s !! i) as [c|], (cp !! i) as [v|] eqn:Hv; try done.
    destruct Hi as (? & ? & ? & Hh). split_and!; try done. intros x. eapply holds_frame; [|apply Hh].
    rewrite ents_fst. intros k Hkx. by apply Hk, (Hq i v x).
  - assert (size th' <= size th)%nat; [|lia]. rewrite <- !(size_dom (D := gset Z)). apply subseteq_size.
    intros k Hd. apply elem_of_dom. apply elem_of_dom in Hd. by apply Hk.
Qed.

(** The invariant without a dead thread. *)
Lemma wf_remove th cp i v t l d : wf None th cp -> cp !! i = Some v -> v_zombies v = t :: l -> NoDup (t :: l) ->
  th !! t = Some d -> wf None (delete t th) (<[i := vset Zombies l v]> cp).
Proof.
  intros W Hv Hz Hnd Hd. assert (t ∈ v_zombies v) as Ht by (rewrite Hz; left).
  apply (wf_zombies _ _ _ W i v t Hv) in Ht as (d' & Hd' & Hi & Hst). assert (d' = d) as -> by congruence.
  assert (t <> v_idle v /\ t <> v_current v) as [Hni Hnc].
  { pose proof (wf_running _ _ _ W i v t d Hv Hd Hi) as Hr. rewrite Hst in Hr.
    split; intros ->; (assert (THREAD_ZOMBIE = THREAD_RUNNING) by (apply Hr; auto)); done. }
  assert (forall j w, cp !! j = Some w -> j <> i -> t <> v_idle w /\ t <> v_current w) as Hother.
  { intros j w Hw Hj. split; intros ->; [destruct (wf_idle _ _ _ W j w Hw) as (e & ? & ?)|
      destruct (wf_current _ _ _ W j w Hw) as (e & ? & ?)]; congruence. }
  assert (forall j w', <[i := vset Zombies l v]> cp !! j = Some w' -> exists w, cp !! j = Some w /\
    v_lock w' = v_lock w /\ v_ready w' = v_ready w /\ v_idle w' = v_idle w /\ v_current w' = v_current w /\
    (forall k, k ∈ v_zombies w' <-> k ∈ v_zombies w /\ k <> t) /\ t <> v_idle w /\ t <> v_current w) as Hback.
  { intros j w' Hw. destruct (decide (j = i)) as [->|Hj].
    - rewrite lookup_insert_eq in Hw. injection Hw as <-. exists v. split_and!; try done.
      intros k. cbn. rewrite Hz, elem_of_cons. apply NoDup_cons in Hnd as [Hnd _]. naive_solver.
    - rewrite lookup_insert_ne in Hw by done. exists w'. destruct (Hother j w' Hw Hj). split_and!; try done.
      intros k. split; [|by intros [? _]]. intros Hk. split; [done|]. intros ->.
      apply (wf_zombies _ _ _ W j w' t Hw) in Hk as (e & ? & ? & _). congruence. }
  split.
  - intros j w' (w & Hw & -> & _)%Hback. by apply (wf_lock _ _ _ W).
  - intros j w' k (w & Hw & _ & -> & _)%Hback. rewrite (wf_ready _ _ _ W j w k Hw).
    setoid_rewrite lookup_delete_Some. naive_solver congruence.
  - intros j w' k (w & Hw & _ & _ & _ & _ & -> & _)%Hback. rewrite (wf_zombies _ _ _ W j w k Hw).
    setoid_rewrite lookup_delete_Some. naive_solver congruence.
  - intros j w' k e (w & Hw & _ & _ & -> & -> & _)%Hback [_ He]%lookup_delete_Some. by apply (wf_running _ _ _ W).
  - intros j w' (w & Hw & _ & _ & -> & _ & _ & ? & _)%Hback. destruct (wf_idle _ _ _ W j w Hw) as (e & ? & ?).
    exists e. by rewrite lookup_delete_ne.
  - intros j w' (w & Hw & _ & _ & _ & -> & _ & _ & ?)%Hback. destruct (wf_current _ _ _ W j w Hw) as (e & ? & ?).
    exists e. by rewrite lookup_delete_ne.
  - intros k e [_ He]%lookup_delete_Some. by apply (wf_rsp _ _ _ W k).
  - intros k e [_ He]%lookup_delete_Some. apply lookup_insert_is_Some.
    destruct (decide (i = t_cpu e)); [by left|right]. split; [done|]. by apply (wf_cpu _ _ _ W k).
Qed.

(** The invariant does not speak of the links of the process lists. *)
Lemma wf_ext o th th' cp :
  (forall k, set_tnext None <$> th' !! k = set_tnext None <$> th !! k) -> wf o th cp -> wf o th' cp.
Proof.
  intros Hs W.
  assert (forall k d', th' !! k = Some d' -> exists d, th !! k = Some d /\ t_cpu d = t_cpu d' /\
    t_status d = t_status d' /\ t_rsp d = t_rsp d') as Hback.
  { intros k d' Hd. pose proof (Hs k) as H. rewrite Hd in H. destruct (th !! k) as [d|]; [|done].
    exists d. cbn in H. injection H as ? ? ? ? ? ? ? ? ? ? ? ? ? ? ? ?. by split_and!. }
  assert (forall k d, th !! k = Some d -> exists d', th' !! k = Some d' /\ t_cpu d = t_cpu d' /\
    t_status d = t_status d') as Hfw.
  { intros k d Hd. pose proof (Hs k) as H. rewrite Hd in H. destruct (th' !! k) as [d'|] eqn:E; [|done].
    exists d'. destruct (Hback k d' E) as (d0 & ? & ? & ? & _). split; [done|]. by simplify_eq. }
  assert (forall k i st, (exists d, th !! k = Some d /\ t_cpu d = i /\ t_status d = st) <->
    exists d, th' !! k = Some d /\ t_cpu d = i /\ t_status d = st) as Hq.
  { intros k i st. split.
    - intros (d & Hd & <- & <-). destruct (Hfw k d Hd) as (d' & ? & -> & ->). eauto.
    - intros (d' & Hd' & <- & <-). destruct (Hback k d' Hd') as (d & ? & <- & <- & _). eauto. }
  destruct W as [W1 W2 W3 W4 W5 W6 W7 W8]. split; [done|..].
  - intros i v t Hv. rewrite <- Hq. by apply W2.
  - intros i v t Hv. rewrite <- Hq. by apply W3.
  - intros i v t d' Hv Hd' Hi. destruct (Hback t d' Hd') as (d & Hd & Hc & <- & _). apply W4; congruence.
  - intros i v Hv. destruct (W5 i v Hv) as (d & Hd & <-). destruct (Hfw _ d Hd) as (d' & ? & ? & _). eauto.
  - intros i v Hv. destruct (W6 i v Hv) as (d & Hd & <-). destruct (Hfw _ d Hd) as (d' & ? & ? & _). eauto.
  - intros t d' Hd'. destruct (Hback t d' Hd') as (d & Hd & _ & _ & <-). by eapply W7.
  - intros t d' Hd'. destruct (Hback t d' Hd') as (d & Hd & <- & _). by eapply W8.
Qed.

Section reap.
Context {E V : Type} `{!Heap E} `{!HeapLaws E} `{!VasOps V}.
Abbreviation S := (sched E V).
Implicit Types s : S.

Lemma release_pid_ok s a p :
  procs_ok (s_threads s) (s_procs s) (s_proc_list s) -> s_procs s !! a = Some p -> s_proc_lock s = false ->
  exists pr' pl', sched_proc_release_pid a s = Ok (tt, set_proc_list pl' (set_sprocs pr' s)) /\
    pr' !! a <> None /\ (forall b, is_Some (pr' !! b) -> is_Some (s_procs s !! b)) /\
    (forall q, pr' !! a = Some q -> p_type q = p_type p /\ p_vas q = p_vas p) /\
    (p_thread_count p = 0 -> procs_ok (s_threads s) (delete a pr') pl').
Proof.
  intros Hok Hp Hlock. unfold sched_proc_release_pid. rewrite (st_bind_ok _ _ _ _ _ (get_proc_eq s a p Hp)).
  destruct (po_list _ _ _ Hok) as (ls & Hs & Hin). case_decide as Hty.
  - exists (s_procs s), (s_proc_list s). split; [by destruct s|]. rewrite Hp. split_and!; [done|done|naive_solver|].
    intros Hz. eapply (procs_remove_any _ _ _ _ _ a p Hok Hp Hz); [apply lookup_delete_eq| | |].
    + intros b q [_ Hq]%lookup_delete_Some. by exists q.
    + intros b Hb Hq. by rewrite lookup_delete_ne.
    + exists ls. assert (a ∉ ls) as Ha by (rewrite Hin; intros (q & ? & Hq); unfold listed in Hq; congruence).
      split.
      * eapply slist_frame; [|exact Hs]. intros b Hb. unfold proc_next. rewrite lookup_delete_ne; [done|congruence].
      * intros b. rewrite Hin. setoid_rewrite lookup_delete_Some. split.
        -- intros (q & Hq & Hlq). exists q. split; [|done]. split; [|done]. intros ->. apply Ha, Hin. eauto.
        -- intros (q & [_ Hq] & Hlq). eauto.
  - assert (a ∈ ls) as [j Hj]%list_elem_of_lookup by (apply Hin; exists p; done).
    unfold spinlock_lock. rewrite bind_assoc, gets_bind, Hlock, modify_bind.
    erewrite st_bind_ok; [|apply (proc_unlink_ok (set_proc_lock true s) ls j a Hs Hj)].
    exists (unlinked_procs ls j a (s_procs s)), (unlinked_head ls j (s_proc_list s)).
    split; [unfold spinlock_unlock, modify; by destruct s; cbn in Hlock; subst|].
    pose proof Hs as (_ & Hnd & _).
    assert (unlinked_procs ls j a (s_procs s) !! a = Some (set_pnext None p)) as Ha.
    { unfold unlinked_procs. rewrite lookup_alter_eq. destruct (prev_at ls j) as [k|] eqn:Hk; [|by rewrite Hp].
      apply prev_at_is in Hk as (i & -> & Hk). rewrite lookup_alter_ne, Hp; [done|].
      intros ->. pose proof (NoDup_lookup _ _ _ _ Hnd Hk Hj). lia. }
    rewrite Ha. split_and!; [done| | |].
    + intros b [q Hq]. destruct (decide (b = a)) as [->|Hb]; [eauto|].
      destruct (unlinked_procs_back _ _ _ _ _ _ Hb Hq) as (q0 & ? & _). eauto.
    + intros q [= <-]. done.
    + intros Hz. by eapply procs_remove_listed.
Qed.

Lemma free_proc_ok s a p :
  table_ok s -> s_procs s !! a = Some p -> p_thread_count p = 0 ->
  exists s', sched_free_proc a s = Ok (tt, s') /\ queues_kept s s' /\ table_ok s'.
Proof.
  intros [Hok Hheap Hlock Hnext] Hp Hz. unfold sched_free_proc.
  destruct (release_pid_ok s a p Hok Hp Hlock) as (pr' & pl' & Hr & Ha & Hdom & Hsame & Hok').
  rewrite (st_bind_ok _ _ _ _ _ Hr). destruct (pr' !! a) as [q|] eqn:Hq; [|done]. clear Ha.
  erewrite st_bind_ok; [|apply get_proc_eq; cbn; exact Hq].
  destruct (Hsame q eq_refl) as [Hty Hvas]. rewrite Hty, Hvas.
  set (s1 := set_proc_list pl' (set_sprocs pr' s)).
  assert (forall s2 : S, queues_kept s s2 -> s_procs s2 = pr' -> s_proc_list s2 = pl' -> s_env s2 = s_env s ->
    s_proc_lock s2 = false -> s_next_pid s2 = s_next_pid s ->
    exists s', kfree_pcb a s2 = Ok (tt, s') /\ queues_kept s s' /\ table_ok s') as Hfree.
  { intros s2 Hk H1 H2 H3 H4 H5. eexists. split; [done|]. split; [done|]. destruct Hk as (Hth & _).
    split; cbn; rewrite ?H1, ?H2, ?H3, ?H4, ?H5, ?Hth; try done; [by apply Hok'|].
    eapply heap_shrink; [exact Hheap|by intros t d Hd; exists d| |].
    - intros b [r [_ Hr']%lookup_delete_Some]. apply Hdom. eauto.
    - intros x Hx Hown. rewrite env_free_live. apply elem_of_difference. split; [done|].
      rewrite elem_of_singleton. intros ->. destruct Hown as [[d Hd]|[[r Hr']|(t & d & Hd & Hst)]].
      + destruct (ho_thread _ _ _ Hheap a d Hd). congruence.
      + by rewrite lookup_delete_eq in Hr'.
      + destruct (ho_stack _ _ _ Hheap t d Hd) as (k & ? & _ & _ & ?). congruence. }
  assert (exists s2, (match p_type p, p_vas p with PROC_USER, Some v => run_vas_destroy v | _, _ => mret tt end : ST S unit) s1 = Ok (tt, s2) /\
    queues_kept s s2 /\ s_procs s2 = pr' /\ s_proc_list s2 = pl' /\ s_env s2 = s_env s /\
    s_proc_lock s2 = false /\ s_next_pid s2 = s_next_pid s) as (s2 & H2 & Hrest).
  { destruct (p_type p), (p_vas p); eexists; (split; [done|]); by split_and!. }
  rewrite (st_bind_ok _ _ _ _ _ H2). destruct Hrest as (? & ? & ? & ? & ? & ?). by apply Hfree.
Qed.

Lemma upd_cpu_same_rep (s : S) th cp i v (f : cpu -> cpu) :
  rep s th cp -> cp !! i = Some v ->
  (forall c, c_lock (f c) = c_lock c /\ c_idle (f c) = c_idle c /\ c_current (f c) = c_current c /\
    forall x, queue_of x (f c) = queue_of x c) ->
  exists s', upd_cpu i f s = Ok (tt, s') /\ rep s' th cp /\ rest_kept s s' /\ s_mem s' = s_mem s.
Proof.
  intros Hr Hv Hf. destruct (upd_cpu_rep th cp s i v v f Hr Hv) as (s' & Hs & Hr' & ?); try done.
  - intros c Hl Hc. destruct (Hf c) as (-> & -> & -> & ?). done.
  - exists s'. rewrite (insert_id cp i v Hv) in Hr'. done.
Qed.

Lemma drop_cpu_count_ok (s : S) th cp i v :
  rep s th cp -> cp !! i = Some v -> v_lock v = false ->
  exists s', drop_cpu_count i s = Ok (tt, s') /\ rep s' th cp /\ rest_kept s s' /\ s_mem s' = s_mem s.
Proof.
  intros Hr Hv Hl.
  assert (hoare (view s (s_mem s) th cp) (drop_cpu_count i) (gives tt (view s (s_mem s) th cp))) as Ht.
  { unfold drop_cpu_count. eapply find_cpu_triple; [done|]. intros c _ _ _ _.
    eapply hoare_gives; [by apply lock_triple|].
    eapply hoare_gives; [apply view_step; intros s1 H1; apply (upd_cpu_same_rep s1 th _ i (vlocked true v) _ H1)|].
    - by rewrite lookup_insert_eq.
    - intros c1. by destruct (0 <? c_count c1).
    - eapply hoare_conseq; [by apply unlock_triple; rewrite lookup_insert_eq|by intros ? ?|].
      rewrite insert_insert_eq, insert_id; [by intros ? ?|]. rewrite Hv. destruct v. cbn in *. by rewrite Hl. }
  destruct (Ht s) as (a & s' & Hs' & -> & ? & ? & ?); [by apply view_self|]. by exists s'.
Qed.

(** What reaping the threads [zs] does to the table of threads: they are gone,
    of the others only the links of the process lists may change. *)
Definition reaped (zs : list Z) (th th' : gmap Z tcb) : Prop :=
  forall k, if decide (k ∈ zs) then th' !! k = None else set_tnext None <$> th' !! k = set_tnext None <$> th !! k.

Definition freed (t : Z) (s s' : S) (cp : vcpus) : Prop :=
  rep s' (s_threads s') cp /\ table_ok s' /\ s_mem s' = s_mem s /\ reaped [t] (s_threads s) (s_threads s').

Lemma free_thread_tables (s : S) t d a p ts j k :
  table_ok s -> s_threads s !! t = Some d -> t_parent d = Some a -> t_stack d = Some k -> s_procs s !! a = Some p ->
  slist (thread_next (s_threads s)) (p_thread p) ts -> p_thread_count p = Z.of_nat (length ts) ->
  (forall u, u ∈ ts <-> exists e, s_threads s !! u = Some e /\ t_parent e = Some a) -> ts !! j = Some t ->
  heap_ok (env_live (env_free t (env_free k (s_env s)))) (delete t (unlinked_threads ts j (s_threads s)))
    (<[a := unlinked_pcb ts j p]> (s_procs s)).
Proof.
  intros [Hok Hheap _ _] Hd Hpa Hst Hp Hs Hn Hin Hj.
  eapply heap_shrink; [exact Hheap| | |].
  - intros u e' [_ He']%lookup_delete_Some. destruct (unlinked_threads_back _ _ _ _ _ He') as (e & He & Heq).
    exists e. split; [done|]. by injection Heq.
  - intros b Hb. apply lookup_insert_is_Some in Hb as [<-|[_ ?]]; eauto.
  - intros x Hx Hown. rewrite !env_free_live, !elem_of_difference, !elem_of_singleton.
    assert (x <> t) as Hxt.
    { intros ->. destruct (ho_thread _ _ _ Hheap t d Hd) as [_ Hnp]. destruct Hown as [[e He]|[He|(u & e & He & Hk)]].
      - by rewrite lookup_delete_eq in He.
      - apply lookup_insert_is_Some in He as [->|[_ [? ?]]]; congruence.
      - apply lookup_delete_Some in He as [_ He]. destruct (unlinked_threads_back _ _ _ _ _ He) as (e0 & He0 & Heq).
        assert (t_stack e0 = Some t) as Hk0 by (injection Heq as ? ? ? ? ? ? ? ? ? ? Hk0; congruence).
        destruct (ho_stack _ _ _ Hheap u e0 He0) as (k' & ? & _ & Hk' & _). congruence. }
    split; [split; [done|]|done]. intros ->. destruct (ho_stack _ _ _ Hheap t d Hd) as (k' & Hk' & _ & Hkt & Hkp).
    assert (k' = k) as -> by congruence. destruct Hown as [[e He]|[He|(u & e & He & Hk)]].
    + apply lookup_delete_Some in He as [_ He]. destruct (unlinked_threads_back _ _ _ _ _ He) as (e0 & ? & _). congruence.
    + apply lookup_insert_is_Some in He as [->|[_ [? ?]]]; congruence.
    + apply lookup_delete_Some in He as [Hu He]. destruct (unlinked_threads_back _ _ _ _ _ He) as (e0 & He0 & Heq).
      apply Hu. eapply (ho_stacks _ _ _ Hheap); [done..|]. injection Heq as ? ? ? ? ? ? ? ? ? ? Hk0. congruence.
Qed.

(** The state after a thread is unlinked from its process and freed. *)
Definition thread_gone (s : S) (t a k : Z) (ts : list Z) (j : nat) (p : pcb) : S :=
  mk_sched (env_free t (env_free k (s_env s))) (s_vas s) (s_mem s)
    (delete t (unlinked_threads ts j (s_threads s))) (delete t (s_nodes s))
    (<[a := unlinked_pcb ts j p]> (s_procs s)) (s_cpus s) (s_proc_list s) (s_proc_lock s)
    (s_next_pid s) (s_next_tid s).

Lemma thread_gone_rep (s : S) cp t a k ts j p d :
  rep s (s_threads s) cp -> in_no_queue cp t -> s_threads s !! t = Some d ->
  rep (thread_gone s t a k ts j p) (delete t (unlinked_threads ts j (s_threads s))) cp.
Proof.
  intros Hr Hno Hd. eapply (rep_change s); [exact Hr|done|done| |]; cbn.
  - intros u [e [Hu He]%lookup_delete_Some]. rewrite lookup_delete_ne by done. split; [|done].
    destruct (unlinked_threads_back _ _ _ _ _ He) as (e0 & ? & _). eauto.
  - intros i v x u Hv Hu. rewrite lookup_delete_ne by (intros <-; by eapply Hno).
    destruct (rep_queued _ _ _ Hr i v x u Hv Hu) as [e He].
    pose proof (unlinked_threads_same (s_threads s) ts j u) as H. rewrite He in H.
    destruct (unlinked_threads ts j (s_threads s) !! u); [eauto|done].
Qed.

Lemma thread_gone_reaped (s : S) t a k ts j p :
  reaped [t] (s_threads s) (s_threads (thread_gone s t a k ts j p)).
Proof.
  intros u. cbn. destruct (decide (u ∈ [t])) as [Hu|Hu]; rewrite list_elem_of_singleton in Hu.
  - subst. apply lookup_delete_eq.
  - rewrite lookup_delete_ne by done. apply unlinked_threads_same.
Qed.

Lemma free_empty_ok (s : S) cp t a k ts j p th :
  table_ok (thread_gone s t a k ts j p) -> rep (thread_gone s t a k ts j p) th cp ->
  reaped [t] (s_threads s) th ->
  exists s', free_if_empty (Some a) (thread_gone s t a k ts j p) = Ok (tt, s') /\ freed t s s' cp.
Proof.
  intros Ht Hr Hre. set (s2 := thread_gone s t a k ts j p) in *. assert (s_threads s2 = th) as <- by apply Hr.
  assert (s_procs s2 !! a = Some (unlinked_pcb ts j p)) as Hp2 by apply lookup_insert_eq.
  unfold free_if_empty. rewrite (st_bind_ok _ _ _ _ _ (get_proc_eq s2 a _ Hp2)).
  destruct (Z.eqb_spec (p_thread_count (unlinked_pcb ts j p)) 0) as [Hz|Hz].
  - destruct (free_proc_ok s2 a _ Ht Hp2 Hz) as (s' & Hf & Hk & Ht'). exists s'. split; [done|].
    pose proof (queues_kept_rep _ _ _ _ Hk Hr). destruct Hk as (E1 & _ & _ & E2). unfold freed. by rewrite E1, E2.
  - by exists s2.
Qed.

Lemma free_thread_ok (s : S) cp me v t d :
  rep s (s_threads s) cp -> table_ok s -> cp !! me = Some v -> t <> v_idle v -> in_no_queue cp t ->
  s_threads s !! t = Some d -> (exists w, cp !! t_cpu d = Some w /\ v_lock w = false) ->
  exists s', sched_free_thread me t s = Ok (tt, s') /\ freed t s s' cp.
Proof.
  intros Hr Ht Hv Hidle Hno Hd (w & Hw & Hlock). unfold sched_free_thread.
  destruct (rep_cpu _ _ _ _ _ Hr Hv) as (c & Hc & _ & Hid & _).
  erewrite st_bind_ok; [|unfold get_cpu; by rewrite Hc]. rewrite decide_False by congruence.
  rewrite (st_bind_ok _ _ _ _ _ (get_thread_eq s t d Hd)).
  destruct (drop_cpu_count_ok s _ cp _ w Hr Hw Hlock) as (s1 & Hs1 & Hr1 & Hk1 & Hm1).
  rewrite (st_bind_ok _ _ _ _ _ Hs1).
  assert (s_threads s1 = s_threads s) as Hth1 by apply Hr1.
  assert (table_ok s1) as Ht1 by (eapply table_ok_kept; [done..|by rewrite Hth1]).
  rewrite <- Hth1 in Hd, Hr1. unfold freed. rewrite <- Hm1, <- Hth1.
  clear s Hr Ht Hc Hs1 Hk1 Hm1 Hth1. rename s1 into s, Ht1 into Ht, Hr1 into Hr.
  pose proof Ht as [Hok Hheap Hlk Hnx].
  destruct (po_parent _ _ _ Hok t d Hd) as (a & Hpa & [p Hp]). rewrite Hpa.
  destruct (po_threads _ _ _ Hok a p Hp) as (ts & Hs & Hn & Hin).
  assert (t ∈ ts) as [j Hj]%list_elem_of_lookup by (apply Hin; eauto).
  assert (0 < p_thread_count p) as Hpos by (rewrite Hn; apply lookup_lt_Some in Hj; lia).
  rewrite (st_bind_ok _ _ _ _ _ (thread_unlink_ok s a p ts j t Hp Hs Hj Hpos)).
  destruct (ho_stack _ _ _ Hheap t d Hd) as (k & Hst & _). rewrite Hst.
  unfold kfree. rewrite modify_bind. unfold kfree_tcb, kfree.
  rewrite then_assoc, modify_bind, then_assoc, modify_bind, modify_bind.
  match goal with |- context [free_if_empty _ ?x] => change x with (thread_gone s t a k ts j p) end.
  eapply free_empty_ok; [|by eapply thread_gone_rep|apply (thread_gone_reaped s t a k ts j p)].
  split; cbn; try done.
  - by eapply procs_remove_thread.
  - by eapply free_thread_tables.
Qed.

(** Reaping a CPU frees all its zombies, in order, and nothing else. *)
Lemma reaped_app zs1 zs2 th th1 th2 : reaped zs1 th th1 -> reaped zs2 th1 th2 ->
  (forall k, k ∈ zs1 -> k ∉ zs2) -> reaped (zs1 ++ zs2) th th2.
Proof.
  intros H1 H2 Hd k. specialize (H1 k). specialize (H2 k). specialize (Hd k).
  destruct (decide (k ∈ zs1)) as [Hk1|Hk1], (decide (k ∈ zs2)) as [Hk2|Hk2].
  - by destruct (Hd Hk1).
  - rewrite decide_True by (apply elem_of_app; by left). rewrite H1 in H2. by destruct (th2 !! k).
  - by rewrite decide_True by (apply elem_of_app; by right).
  - rewrite decide_False by (rewrite elem_of_app; naive_solver). by rewrite H2.
Qed.

Lemma pop_zombie_ok me (s : S) cp v :
  sched_inv s cp -> cp !! me = Some v ->
  exists s2, (forall B (k : ptr -> ST S B),
      (sched_cpu_lock me ;; t ← queue_pop me Zombies; sched_cpu_unlock me ;; k t) s = k (head (v_zombies v)) s2) /\
    rep s2 (s_threads s) (<[me := vset Zombies (tail (v_zombies v)) v]> cp) /\ rest_kept s s2 /\ s_mem s2 = s_mem s.
Proof.
  intros [Hr W] Hv. pose proof (wf_lock _ _ _ W me v Hv) as Hlk. change (bool_decide _) with false in Hlk.
  destruct (lock_triple s (s_mem s) (s_threads s) cp me v Hv Hlk s) as (? & s1 & H1 & -> & Hv1); [by apply view_self|].
  destruct (pop_triple s (s_mem s) (s_threads s) (<[me := vlocked true v]> cp) me (vlocked true v) Zombies) with s1
    as (? & s2 & H2 & -> & Hv2); [by rewrite lookup_insert_eq|done|].
  rewrite insert_insert_eq in Hv2. cbn [vlist vlocked v_zombies] in *.
  destruct (unlock_triple s (s_mem s) (s_threads s) (<[me := vset Zombies (tail (v_zombies v)) (vlocked true v)]> cp) me
    (vset Zombies (tail (v_zombies v)) (vlocked true v))) with s2 as (? & s3 & H3 & -> & Hv3);
    [by rewrite lookup_insert_eq|done|].
  exists s3. split; [|rewrite insert_insert_eq in Hv3].
  - intros B k. by rewrite (st_bind_ok _ _ _ _ _ H1), (st_bind_ok _ _ _ _ _ H2), (st_bind_ok _ _ _ _ _ H3).
  - assert (vlocked false (vset Zombies (tail (v_zombies v)) (vlocked true v)) = vset Zombies (tail (v_zombies v)) v) as E1
      by (destruct v; cbn in *; by rewrite Hlk).
    rewrite E1 in Hv3. exact Hv3.
Qed.

Lemma reap_loop_ok me zs : forall fuel (s : S) cp v,
  kernel_inv s cp -> cp !! me = Some v -> v_zombies v = zs -> (length zs <= fuel)%nat ->
  exists s', reap_loop fuel me me s = Ok (tt, s') /\ kernel_inv s' (<[me := vset Zombies [] v]> cp) /\
    s_mem s' = s_mem s /\ reaped zs (s_threads s) (s_threads s').
Proof.
  induction zs as [|t zs IH]; intros fuel s cp v [[Hr W] Ht] Hv Hz Hf.
  all: destruct (pop_zombie_ok me s cp v) as (s2 & Hpop & Hr2 & Hk2 & Hm2); [by split|done|]; rewrite Hz in *.
  all: assert (s_threads s2 = s_threads s) as Eth by apply Hr2.
  all: assert (table_ok s2) as Ht2 by (eapply table_ok_kept; [done..|by rewrite Eth]).
  - exists s2. destruct fuel; cbn [reap_loop]; rewrite Hpop; cbn [head tail] in *.
    all: split; [done|]; rewrite Eth; split; [split; [split; rewrite Eth|done]|split; [done|]].
    all: try done; try (by intros k; rewrite decide_False by (by intros ?%elem_of_nil)).
    all: assert (vset Zombies [] v = v) as -> by (destruct v; cbn in *; by rewrite Hz); by rewrite insert_id.
  - destruct fuel as [|fuel]; [cbn in Hf; lia|]. cbn [reap_loop]. rewrite Hpop. cbn [head tail] in *.
    pose proof (rep_nodup _ _ _ _ _ Zombies Hr Hv) as Hnd. cbn [vlist] in Hnd. rewrite Hz in Hnd.
    assert (t ∈ v_zombies v) as Htz by (rewrite Hz; left).
    pose proof Htz as (d & Hd & Hi & Hst)%(wf_zombies _ _ _ W me v t Hv).
    pose proof (wf_running _ _ _ W me v t d Hv Hd Hi) as Hrun. rewrite Hst in Hrun.
    set (v2 := vset Zombies zs v). assert (<[me := v2]> cp !! me = Some v2) as Hv2 by by rewrite lookup_insert_eq.
    assert (in_no_queue (<[me := v2]> cp) t) as Hno.
    { intros i w x Hw Hin. destruct (decide (i = me)) as [->|Hne].
      - rewrite Hv2 in Hw. injection Hw as <-. destruct x; cbn in Hin.
        + apply (wf_ready _ _ _ W me v t Hv) in Hin as (? & ? & _ & ?). congruence.
        + by apply NoDup_cons in Hnd as [? _].
      - rewrite lookup_insert_ne in Hw by done. by destruct (rep_disjoint _ _ _ Hr i me w v x Zombies t Hw Hv Hin Htz). }
    destruct (free_thread_ok s2 (<[me := v2]> cp) me v2 t d) as (s3 & H3 & Hr3 & Ht3 & Hm3 & Hre3); rewrite ?Eth; try done.
    { intros ->. assert (THREAD_ZOMBIE = THREAD_RUNNING) by (apply Hrun; by left). done. }
    { exists v2. rewrite Hi. split; [done|]. by apply (wf_lock _ _ _ W me v Hv). }
    rewrite (st_bind_ok _ _ _ _ _ H3).
    assert (wf None (s_threads s3) (<[me := v2]> cp)) as W3.
    { eapply (wf_ext None (delete t (s_threads s))); [|by eapply wf_remove].
      intros k. specialize (Hre3 k). rewrite Eth in Hre3. case_decide as Hk; rewrite list_elem_of_singleton in Hk.
      - subst. by rewrite Hre3, lookup_delete_eq.
      - by rewrite lookup_delete_ne. }
    destruct (IH fuel s3 (<[me := v2]> cp) v2) as (s4 & H4 & Hi4 & Hm4 & Hre4); [by split; [split|]|done|done|cbn in Hf; lia|].
    exists s4. split; [done|]. rewrite insert_insert_eq in Hi4. split; [exact Hi4|]. split; [congruence|].
    rewrite Eth in Hre3. apply (reaped_app [t] zs _ _ _ Hre3 Hre4).
    intros k Hk%list_elem_of_singleton. subst. by apply NoDup_cons in Hnd as [? _].
Qed.

Lemma sched_reap_cpu_ok me (s : S) cp v :
  kernel_inv s cp -> cp !! me = Some v ->
  exists s', sched_reap_cpu me me s = Ok (tt, s') /\ kernel_inv s' (<[me := vset Zombies [] v]> cp) /\
    s_mem s' = s_mem s /\ reaped (v_zombies v) (s_threads s) (s_threads s').
Proof.
  intros HI Hv. pose proof HI as [[Hr W] Ht]. destruct (rep_cpu _ _ _ _ _ Hr Hv) as (c & Hc & _ & _ & _ & Hh).
  unfold sched_reap_cpu, queue_length. rewrite bind_assoc. erewrite st_bind_ok; [|unfold get_cpu; by rewrite Hc].
  destruct (Hh Zombies) as [(_ & _ & _ & Hlen & _) _]. rewrite ents_fst in Hlen.
  apply (reap_loop_ok me _ _ s cp v HI Hv eq_refl). cbn [vlist] in Hlen. rewrite Hlen. lia.
Qed.
End reap.
