(* ===== verification/SchedSpawn.v ===== *)
(** Creation of processes, from [kernel/src/sys/sched.c]: [spawn_proc] with
    every failure keeps the invariant of the whole scheduler. *)
From S2P Require Import Prelude Kenv Dll Rq Context Sched SchedRep SchedInv SchedOps SchedProc SchedTable SchedReap.

Section spawn.
Context {E V : Type} `{!Heap E} `{!HeapLaws E} `{!VasOps V} (L : layout).
Abbreviation S := (sched E V).
Implicit Types s : S.

(** ** Processes *)

(** The ids the table uses. *)
Definition pid_taken (pr : gmap Z pcb) (pid : Z) : Prop := exists a p, pr !! a = Some p /\ listed p /\ p_pid p = pid.

Lemma pid_used_taken pr ls pid :
  (forall a, a ∈ ls <-> exists p, pr !! a = Some p /\ listed p) -> pid_used pr ls pid = true <-> pid_taken pr pid.
Proof.
  intros Hin. unfold pid_used. rewrite existsb_exists. split.
  - intros (a & Ha & Hb%bool_decide_eq_true). destruct Hb as (p & Hp & Hpid).
    apply list_elem_of_In, Hin in Ha as (q & Hq & Hlq). exists a, p. split; [done|]. split; [congruence|done].
  - intros (a & p & Hp & Hlp & Hpid). exists a. split; [apply list_elem_of_In, Hin; eauto|].
    apply bool_decide_eq_true. by exists p.
Qed.

Lemma pid_used_insert pr ls pid a p : (a ∉ ls) -> pid_used (<[a := p]> pr) ls pid = pid_used pr ls pid.
Proof.
  intros Ha. unfold pid_used. induction ls as [|b ls IH]; [done|]. apply not_elem_of_cons in Ha as [Hab Ha].
  cbn [existsb]. rewrite (IH Ha). f_equal. apply bool_decide_ext. unfold has_pid. by rewrite lookup_insert_ne.
Qed.

(** What [spawn_pid] does for the new process at [a]: the id, its control
    block, the list and the counter. *)
Definition pid_given (type : proc_type) (a : Z) (pr : gmap Z pcb) (pl : ptr) (start pid : Z) (p : pcb)
    (pl' : ptr) (next : Z) : Prop :=
  if decide (type = PROC_IDLE) then pid = SCHED_IDLE_PID /\ p = zero_pcb /\ pl' = pl /\ next = start
  else if decide (pid = SCHED_INVALID_PID) then
    p = set_pid pid zero_pcb /\ pl' = pl /\ next = start /\
    (forall x, SCHED_PID_MIN <= x <= SCHED_PID_MAX -> pid_taken pr x)
  else
    SCHED_PID_MIN <= pid <= SCHED_PID_MAX /\ SCHED_PID_MIN <= next <= SCHED_PID_MAX /\ ~ pid_taken pr pid /\
    p = set_pnext pl (set_pid pid zero_pcb) /\ pl' = Some a.

Lemma spawn_pid_ok (s : S) type a pr :
  procs_ok (s_threads s) pr (s_proc_list s) -> s_proc_lock s = false ->
  SCHED_PID_MIN <= s_next_pid s <= SCHED_PID_MAX -> pr !! a = None -> s_procs s = <[a := zero_pcb]> pr ->
  exists pid p pl' next, spawn_pid type a s =
      Ok (pid, set_next_pid next (set_proc_list pl' (set_sprocs (<[a := p]> pr) s))) /\
    pid_given type a pr (s_proc_list s) (s_next_pid s) pid p pl' next.
Proof.
  intros Hok Hlk Hnx Ha Hpr. unfold spawn_pid, pid_given.
  assert (s_procs s !! a = Some zero_pcb) as Hza by (by rewrite Hpr, lookup_insert_eq).
  destruct (decide (type = PROC_IDLE)) as [->|Hty].
  { exists SCHED_IDLE_PID, zero_pcb, (s_proc_list s), (s_next_pid s).
    rewrite (st_bind_ok _ _ _ _ _ (upd_proc_eq s a _ (set_pid SCHED_IDLE_PID) Hza)), Hpr, insert_insert_eq.
    split; [by destruct s|done]. }
  destruct (po_list _ _ _ Hok) as (ls & Hs & Hin).
  assert (a ∉ ls) as Hals by (rewrite Hin; intros (q & ? & _); congruence).
  set (sl := set_proc_lock true s).
  assert (slist (proc_next (s_procs sl)) (s_proc_list sl) ls) as Hs'.
  { eapply slist_frame; [|exact Hs]. intros b Hb. unfold proc_next. cbn. rewrite Hpr, lookup_insert_ne; [done|congruence]. }
  destruct (alloc_pid_ok sl ls Hs' Hnx) as (pid & next & Halloc & Hspec).
  unfold spinlock_lock. rewrite bind_assoc, gets_bind, Hlk, modify_bind. fold sl.
  rewrite (st_bind_ok _ _ _ _ _ Halloc).
  erewrite st_bind_ok; [|apply (upd_proc_eq _ a zero_pcb); exact Hza].
  cbn [s_procs set_next_pid]. change (s_procs sl) with (s_procs s). rewrite Hpr, insert_insert_eq.
  assert (forall x, pid_used (s_procs sl) ls x = true <-> pid_taken pr x) as Hused.
  { intros x. rewrite <- (pid_used_taken pr ls x Hin). cbn. by rewrite Hpr, pid_used_insert. }
  destruct Hspec as [(k & Hk & -> & Hfree & _ & ->)|(-> & Hall & ->)].
  - pose proof (cyclic_range (s_next_pid sl) k) as Hr. set (pid := cyclic (s_next_pid sl) k) in *.
    assert (pid <> SCHED_INVALID_PID) as Hni.
    { intros E1. rewrite E1 in Hr. vm_compute in Hr. destruct Hr as [_ Hr]. by apply Hr. }
    rewrite (proj2 (Z.eqb_neq _ _) Hni).
    exists pid, (set_pnext (s_proc_list s) (set_pid pid zero_pcb)), (Some a), (cyclic (s_next_pid sl) (k + 1)).
    unfold sched_proc_link_locked. rewrite bind_assoc, gets_bind, bind_assoc.
    erewrite st_bind_ok; [|apply (upd_proc_eq _ a (set_pid pid zero_pcb)); cbn; by rewrite lookup_insert_eq].
    rewrite modify_bind. unfold spinlock_unlock. rewrite modify_bind. cbn [s_procs set_sprocs]. rewrite insert_insert_eq.
    split; [unfold mret, st_ret; do 2 f_equal; destruct s; cbn in Hlk; by subst|].
    rewrite decide_False by done. split; [done|]. split; [apply cyclic_range|]. split; [|done].
    rewrite <- Hused, Hfree. done.
  - rewrite Z.eqb_refl. exists SCHED_INVALID_PID, (set_pid SCHED_INVALID_PID zero_pcb), (s_proc_list s), (s_next_pid s).
    split; [unfold mret, st_ret, spinlock_unlock; destruct s; cbn in Hlk; by subst|].
    rewrite decide_True by done. split_and!; try done. intros x Hx. apply Hused. by apply Hall.
Qed.

(** The id of the process that the current thread belongs to. *)
Definition parent_pid (me : Z) (th : gmap Z tcb) (pr : gmap Z pcb) (cp : vcpus) : Z :=
  match cp !! me with
  | None => SCHED_IDLE_PID
  | Some v =>
      match th !! v_current v ≫= t_parent with
      | None => SCHED_IDLE_PID
      | Some a => from_option p_pid 0 (pr !! a)
      end
  end.

Lemma parent_pid_ok (s : S) me cp pr :
  rep s (s_threads s) cp -> wf None (s_threads s) cp -> (forall t d, s_threads s !! t = Some d ->
    exists a, t_parent d = Some a /\ exists p q, pr !! a = Some p /\ s_procs s !! a = Some q /\ p_pid q = p_pid p) ->
  sched_parent_pid me s = Ok (parent_pid me (s_threads s) pr cp, s).
Proof.
  intros Hr W Hpar. unfold sched_parent_pid, sched_current, find_cpu, parent_pid. rewrite bind_assoc, gets_bind.
  pose proof (rep_cpus _ _ _ Hr me) as Hc.
  destruct (s_cpus s !! me) as [c|], (cp !! me) as [v|] eqn:Hv; try done.
  - destruct Hc as (_ & _ & Hcu & _). cbn. rewrite Hcu. unfold mbind, st_bind, mret, st_ret. cbn.
    destruct (wf_current _ _ _ W me v Hv) as (d & Hd & _). rewrite Hd. cbn.
    unfold get_thread. rewrite Hd. destruct (Hpar _ d Hd) as (a & -> & p & q & -> & Hq & Hpid).
    unfold get_proc. rewrite Hq. cbn. by rewrite Hpid.
  - destruct Hc as (_ & Hcu). by rewrite Hcu.
Qed.

(** ** The new process in the table *)

Lemma procs_add th pr pl a p pl' :
  procs_ok th pr pl -> pr !! a = None -> p_thread p = None -> p_thread_count p = 0 ->
  (if decide (p_type p = PROC_IDLE) then pl' = pl
   else SCHED_PID_MIN <= p_pid p <= SCHED_PID_MAX /\ ~ pid_taken pr (p_pid p) /\ p_next p = pl /\ pl' = Some a) ->
  procs_ok th (<[a := p]> pr) pl'.
Proof.
  intros [(ls & Hs & Hin) H2 H3 H4 H5] Ha Hth Hn Hty.
  assert (a ∉ ls) as Hals by (rewrite Hin; intros (q & ? & _); congruence).
  assert (forall b, (b ∈ ls <-> exists q, pr !! b = Some q /\ listed q)) as Hin' by done.
  assert (forall b q, <[a := p]> pr !! b = Some q -> (b = a /\ q = p) \/ (b <> a /\ pr !! b = Some q)) as Hcase.
  { intros b q Hb. destruct (decide (b = a)) as [->|]; [rewrite lookup_insert_eq in Hb; left; split; congruence|].
    rewrite lookup_insert_ne in Hb by done. by right. }
  split.
  - case_decide as Hi.
    + subst pl'. exists ls. split.
      * eapply slist_frame; [|exact Hs]. intros b Hb. unfold proc_next. rewrite lookup_insert_ne; [done|congruence].
      * intros b. rewrite Hin. destruct (decide (b = a)) as [->|]; [|by rewrite lookup_insert_ne].
        rewrite lookup_insert_eq, Ha. unfold listed. split; intros (q & ? & ?); congruence.
    + destruct Hty as (_ & _ & Hnx & ->). exists (a :: ls). split.
      * eapply slist_cons; [exact Hs|done| |].
        -- unfold proc_next. rewrite lookup_insert_eq. cbn. by rewrite Hnx.
        -- intros b Hb. unfold proc_next. by rewrite lookup_insert_ne.
      * intros b. rewrite elem_of_cons, Hin. destruct (decide (b = a)) as [->|].
        -- rewrite lookup_insert_eq. split; [intros _; exists p; by split|by left].
        -- rewrite lookup_insert_ne by done. naive_solver.
  - intros b c q r [[-> ->]|[Hb Hq]]%Hcase [[-> ->]|[Hc Hr]]%Hcase Hlq Hlr Hpid; [done|..|by eapply H2].
    + unfold listed in Hlq. rewrite decide_False in Hty by done. destruct Hty as (_ & Hnt & _).
      exfalso. apply Hnt. exists c, r. done.
    + unfold listed in Hlr. rewrite decide_False in Hty by done. destruct Hty as (_ & Hnt & _).
      exfalso. apply Hnt. exists b, q. done.
  - intros b q [[-> ->]|[Hb Hq]]%Hcase Hlq; [|by apply (H3 b)].
    unfold listed in Hlq. rewrite decide_False in Hty by done. by destruct Hty.
  - intros b q [[-> ->]|[Hb Hq]]%Hcase; [|by apply H4]. rewrite Hth, Hn. exists [].
    split; [apply slist_nil|]. split; [done|]. intros t. split; [by intros ?%elem_of_nil|].
    intros (d & Hd & Hpa). destruct (H5 t d Hd) as (b & Hb & [q Hq]). congruence.
  - intros t d Hd. destruct (H5 t d Hd) as (b & Hb & Hpb). exists b. split; [done|].
    apply lookup_insert_is_Some. destruct (decide (a = b)); [by left|by right].
Qed.

Lemma heap_add_proc live th pr a p : heap_ok live th pr -> (a ∉ live) -> heap_ok ({[a]} ∪ live) th (<[a := p]> pr).
Proof.
  intros [H1 H2 H3 H4] Ha.
  assert (forall x, x ∈ live -> pr !! x = None -> <[a := p]> pr !! x = None) as Hn.
  { intros x Hx Hpx. rewrite lookup_insert_ne; [done|congruence]. }
  split.
  - intros t d Hd. destruct (H1 t d Hd). split; [set_solver|auto].
  - intros b q Hb. destruct (decide (b = a)) as [->|]; [set_solver|]. rewrite lookup_insert_ne in Hb by done.
    pose proof (H2 b q Hb). set_solver.
  - intros t d Hd. destruct (H3 t d Hd) as (k & ? & ? & ? & ?). exists k. split_and!; [done|set_solver|done|auto].
  - done.
Qed.

Lemma heap_same_live live live' th pr : live' = live -> heap_ok live th pr -> heap_ok live' th pr.
Proof. by intros ->. Qed.

(** What [spawn_proc] promises of its result. *)
Definition proc_spawned (me : Z) (name : list Z) (type : proc_type) (vas : ptr) (cp : vcpus) (s : S) (res : ptr) (s' : S)
    : Prop :=
  match res with
  | None =>
      s_procs s' = s_procs s /\ s_proc_list s' = s_proc_list s /\ env_live (s_env s') = env_live (s_env s)
  | Some a =>
      (a ∉ env_live (s_env s)) /\ env_live (s_env s') = {[a]} ∪ env_live (s_env s) /\
      exists p, s_procs s' = <[a := p]> (s_procs s) /\ p_type p = type /\ p_thread p = None /\
        p_name p = take (Z.to_nat (SCHED_NAME_MAX - 1)) name /\
        p_ppid p = parent_pid me (s_threads s) (s_procs s) cp /\
        p_vas p <> None /\ (vas <> None -> p_vas p = vas) /\ p_thread_count p = 0 /\
        if decide (type = PROC_IDLE) then p_pid p = SCHED_IDLE_PID
        else SCHED_PID_MIN <= p_pid p <= SCHED_PID_MAX /\ ~ pid_taken (s_procs s) (p_pid p)
  end.

(** What scheduling owns, and the counter of thread ids. *)
Definition threads_kept (s s' : S) : Prop := queues_kept s s' /\ s_next_tid s' = s_next_tid s.

Lemma threads_kept_inv (s s' : S) cp : sched_inv s cp -> threads_kept s s' -> sched_inv s' cp.
Proof.
  intros [Hr W] [Hk _]. pose proof Hk as (E1 & _). unfold sched_inv. rewrite E1. split; [by eapply queues_kept_rep|done].
Qed.

Lemma choose_vas_ok type vas (s : S) : exists v vs, choose_vas L type vas s = Ok (v, set_svas vs s) /\
  (vas <> None -> v = vas).
Proof.
  unfold choose_vas. destruct vas as [w|]; [exists (Some w), (s_vas s); split; [by destruct s|done]|].
  case_decide.
  - unfold run_vas_create. destruct (vas_create (s_vas s)) as [r v] eqn:E1. exists r, v. done.
  - exists (kernel_vas L), (s_vas s). split; [by destruct s|done].
Qed.

(** A linked process that is released again leaves the table as it was. *)
Lemma release_new_ok (s : S) type a p pr pl :
  procs_ok (s_threads s) pr pl -> pr !! a = None -> s_proc_lock s = false -> s_procs s = <[a := p]> pr ->
  p_type p = type -> (if decide (type = PROC_IDLE) then s_proc_list s = pl
    else p_next p = pl /\ s_proc_list s = Some a) ->
  exists q, sched_proc_release_pid a s = Ok (tt, set_proc_list pl (set_sprocs (<[a := q]> pr) s)).
Proof.
  intros Hok Ha Hlk Hpr Hty Hpl. destruct (po_list _ _ _ Hok) as (ls & Hs & Hin).
  assert (a ∉ ls) as Hals by (rewrite Hin; intros (q & ? & _); congruence).
  assert (s_procs s !! a = Some p) as Hp by (by rewrite Hpr, lookup_insert_eq).
  unfold sched_proc_release_pid. rewrite (st_bind_ok _ _ _ _ _ (get_proc_eq s a p Hp)), Hty.
  case_decide as Hi.
  - exists p. rewrite <- Hpr, <- Hpl. by destruct s.
  - destruct Hpl as [Hnx Hpl]. exists (set_pnext None p).
    unfold spinlock_lock. rewrite bind_assoc, gets_bind, Hlk, modify_bind.
    assert (slist (proc_next (s_procs s)) (s_proc_list s) (a :: ls)) as Hs'.
    { rewrite Hpl, Hpr. eapply slist_cons; [exact Hs|done| |].
      - unfold proc_next. rewrite lookup_insert_eq. cbn. by rewrite Hnx.
      - intros b Hb. unfold proc_next. by rewrite lookup_insert_ne. }
    erewrite st_bind_ok; [|apply (proc_unlink_ok (set_proc_lock true s) (a :: ls) 0 a Hs' eq_refl)].
    unfold spinlock_unlock, modify, unlinked_head, unlinked_procs. cbn.
    rewrite Hpr, (alter_lookup_insert _ a p) by (by rewrite lookup_insert_eq). rewrite insert_insert_eq.
    destruct Hs as (-> & _ & _). destruct s; cbn in Hlk; subst. by destruct ls.
Qed.

Lemma spawn_parents th pr pl a p1 (pr' : gmap Z pcb) : procs_ok th pr pl -> pr !! a = None ->
  pr' = <[a := p1]> pr -> forall t d, th !! t = Some d ->
  exists b, t_parent d = Some b /\ exists p q, pr !! b = Some p /\ pr' !! b = Some q /\ p_pid q = p_pid p.
Proof.
  intros Hok Ha -> t d Hd. destruct (po_parent _ _ _ Hok t d Hd) as (b & Hb & [p Hp]).
  exists b. split; [done|]. exists p, p. rewrite lookup_insert_ne by congruence. done.
Qed.

(** Freeing the process that was just added gives the old table back. *)
Lemma kfree_new_ok (s s2 : S) a q next cp :
  kernel_inv s cp -> (a ∉ env_live (s_env s)) -> threads_kept s s2 ->
  env_live (s_env s2) = {[a]} ∪ env_live (s_env s) -> s_procs s2 = <[a := q]> (s_procs s) ->
  s_proc_list s2 = s_proc_list s -> s_proc_lock s2 = false -> s_next_pid s2 = next ->
  SCHED_PID_MIN <= next <= SCHED_PID_MAX ->
  exists s', kfree_pcb a s2 = Ok (tt, s') /\ kernel_inv s' cp /\ threads_kept s s' /\
    s_procs s' = s_procs s /\ s_proc_list s' = s_proc_list s /\ env_live (s_env s') = env_live (s_env s).
Proof.
  intros [HI Ht] Ha Hk Hl Hp Hpl Hlk Hn Hr. pose proof Ht as [Hok Hheap _ _].
  assert (s_procs s !! a = None) as Hpa.
  { destruct (s_procs s !! a) eqn:E1; [|done]. by destruct (Ha (ho_proc _ _ _ Hheap _ _ E1)). }
  eexists. split; [done|]. cbn [s_env s_procs s_proc_list set_senv set_sprocs].
  rewrite Hp, Hpl, delete_insert_id by done.
  assert (env_live (env_free a (s_env s2)) = env_live (s_env s)) as El.
  { rewrite env_free_live, Hl. apply set_eq. intros x. rewrite elem_of_difference, elem_of_union, elem_of_singleton.
    split; [tauto|]. intros Hx. split; [by right|]. by intros ->. }
  pose proof Hk as ((Eth & Hrest) & Htid). split; [|by split_and!].
  split; [eapply threads_kept_inv; [exact HI|by split]|].
  split; cbn; rewrite ?Eth, ?Hp, ?Hpl, ?El, ?Hn, ?delete_insert_id by done; done.
Qed.

(** After the id is known: the rest of the control block, the address space,
    and the way back when there is none. *)
Lemma spawn_tail_ok (s s2 : S) cp me name type vas a p1 :
  kernel_inv s cp -> (a ∉ env_live (s_env s)) -> s_procs s !! a = None -> threads_kept s s2 ->
  env_live (s_env s2) = {[a]} ∪ env_live (s_env s) -> s_proc_lock s2 = false ->
  SCHED_PID_MIN <= s_next_pid s2 <= SCHED_PID_MAX -> p_thread p1 = None ->
  (if decide (type = PROC_IDLE) then p_pid p1 = SCHED_IDLE_PID /\ s_proc_list s2 = s_proc_list s
   else SCHED_PID_MIN <= p_pid p1 <= SCHED_PID_MAX /\ ~ pid_taken (s_procs s) (p_pid p1) /\
     p_next p1 = s_proc_list s /\ s_proc_list s2 = Some a) ->
  exists res s',
    (v ← choose_vas L type vas;
     match v with
     | None => sched_proc_release_pid a ;; kfree_pcb a ;; mret None
     | Some _ => upd_proc a (set_pvas v) ;; mret (Some a)
     end) (set_sprocs (<[a := fill_proc (parent_pid me (s_threads s) (s_procs s) cp) name type vas p1]> (s_procs s)) s2)
    = Ok (res, s') /\ kernel_inv s' cp /\ threads_kept s s' /\ proc_spawned me name type vas cp s res s'.
Proof.
  intros HK Ha Hpa Hk2 El Hlk2 Hnext Hth Hpid. pose proof HK as [HI Ht]. pose proof Ht as [Hok Hheap Hlk Hnx].
  set (p2 := fill_proc _ name type vas p1).
  destruct (choose_vas_ok type vas (set_sprocs (<[a := p2]> (s_procs s)) s2)) as (v & vs & Hv & Hvas).
  rewrite (st_bind_ok _ _ _ _ _ Hv). set (s3 := set_svas vs (set_sprocs (<[a := p2]> (s_procs s)) s2)).
  pose proof Hk2 as ((Eth & En & Ec & Em) & Et).
  assert (p_next p2 = if decide (type = PROC_IDLE) then None else p_next p1) as Hnp by done.
  destruct v as [w|].
  - set (p3 := set_pvas (Some w) p2).
    erewrite st_bind_ok; [|apply (upd_proc_eq s3 a p2); cbn; by rewrite lookup_insert_eq].
    cbn [s_procs s3 set_svas set_sprocs]. rewrite insert_insert_eq. eexists (Some a), _. split; [done|].
    split; [|split].
    + split; [eapply threads_kept_inv; [exact HI|done]|]. split; cbn; rewrite ?Eth; try done.
      * eapply procs_add; [exact Hok|done..|]. cbn. destruct (decide (type = PROC_IDLE)) as [Hi|Hi]; [by destruct Hpid|exact Hpid].
      * rewrite El. by apply heap_add_proc.
    + by split_and!.
    + split; [done|]. split; [done|]. exists p3. split_and!; try done.
      * cbn. destruct (decide (type = PROC_IDLE)) as [Hi|Hi]; [by destruct Hpid|]. by destruct Hpid as (? & ? & _).
  - destruct (release_new_ok s3 type a p2 (s_procs s) (s_proc_list s)) as (q & Hq); try done.
    { cbn. by rewrite Eth. }
    { rewrite Hnp. destruct (decide (type = PROC_IDLE)) as [Hi|Hi]; [by destruct Hpid|]. by destruct Hpid as (_ & _ & ? & ?). }
    rewrite (st_bind_ok _ _ _ _ _ Hq).
    destruct (kfree_new_ok s (set_proc_list (s_proc_list s) (set_sprocs (<[a := q]> (s_procs s)) s3)) a q (s_next_pid s2) cp HK Ha)
      as (s' & Hf & Hk' & Htk & Hrest); try done.
    exists None, s'. by rewrite (st_bind_ok _ _ _ _ _ Hf).
Qed.

Lemma spawn_proc_ok (s : S) cp me name type vas :
  kernel_inv s cp ->
  exists res s', spawn_proc L me name type vas s = Ok (res, s') /\ kernel_inv s' cp /\ threads_kept s s' /\
    proc_spawned me name type vas cp s res s'.
Proof.
  intros HK. pose proof HK as [[Hr W] Ht]. pose proof Ht as [Hok Hheap Hlk Hnx].
  unfold spawn_proc, kzalloc_pcb, kmalloc. rewrite bind_assoc.
  destruct (env_alloc sizeof_pcb (s_env s)) as [r e] eqn:Halloc.
  erewrite st_bind_ok; [|by rewrite Halloc]. destruct r as [a|].
  2:{ exists None, (set_senv e s). split; [done|]. pose proof (env_alloc_none _ _ _ Halloc) as El.
      split; [|by split]. split; [eapply threads_kept_inv; [by split|by split]|].
      split; cbn; rewrite ?El; done. }
  destruct (env_alloc_some _ _ _ _ Halloc) as [Ha El].
  assert (s_procs s !! a = None) as Hpa.
  { destruct (s_procs s !! a) eqn:E1; [|done]. by destruct (Ha (ho_proc _ _ _ Hheap _ _ E1)). }
  rewrite bind_assoc, modify_bind. erewrite st_bind_ok; [|done]. cbn [s_procs set_senv].
  set (s1 := set_sprocs (<[a := zero_pcb]> (s_procs s)) (set_senv e s)).
  destruct (spawn_pid_ok s1 type a (s_procs s)) as (pid & p1 & pl' & next & Hpid & Hgiven); try done.
  rewrite (st_bind_ok _ _ _ _ _ Hpid). change (<[a := p1]> (s_procs s)) with (<[a := p1]> (s_procs s)).
  set (s2 := set_next_pid next (set_proc_list pl' (set_sprocs (<[a := p1]> (s_procs s)) s1))).
  unfold pid_given in Hgiven. destruct (Z.eqb_spec pid SCHED_INVALID_PID) as [Hinv|Hinv].
  - assert (pl' = s_proc_list s /\ next = s_next_pid s) as [-> ->].
    { destruct (decide (type = PROC_IDLE)); [by destruct Hgiven as (? & _ & ? & ?)|].
      rewrite decide_True in Hgiven by done. by destruct Hgiven as (_ & ? & ? & _). }
    destruct (kfree_new_ok s s2 a p1 (s_next_pid s) cp HK Ha) as (s' & Hf & Hk' & Htk & Hrest); try done.
    exists None, s'. by rewrite (st_bind_ok _ _ _ _ _ Hf).
  - assert (SCHED_PID_MIN <= next <= SCHED_PID_MAX) as Hnext.
    { destruct (decide (type = PROC_IDLE)); [by destruct Hgiven as (_ & _ & _ & ->)|].
      rewrite decide_False in Hgiven by done. by destruct Hgiven as (_ & ? & _). }
    assert (threads_kept s s2) as Hk2 by done.
    rewrite (st_bind_ok _ _ _ _ _ (parent_pid_ok s2 me cp (s_procs s)
      (queues_kept_rep _ _ _ _ (proj1 Hk2) Hr) W (spawn_parents _ _ _ a p1 _ Hok Hpa eq_refl))).
    cbn [s_threads s2 s1 set_next_pid set_proc_list set_sprocs set_senv].
    set (ppid := parent_pid me (s_threads s) (s_procs s) cp).
    erewrite st_bind_ok; [|apply (upd_proc_eq _ a p1); cbn; by rewrite lookup_insert_eq].
    cbn [s_procs s2 s1 set_next_pid set_proc_list set_sprocs]. rewrite insert_insert_eq.
    apply (spawn_tail_ok s s2 cp me name type vas a p1 HK Ha Hpa Hk2); try done.
    all: destruct (decide (type = PROC_IDLE)) as [Hi|Hi]; [by destruct Hgiven as (-> & -> & -> & _)|].
    all: rewrite decide_False in Hgiven by done; by destruct Hgiven as (? & _ & ? & -> & ->).
Qed.
End spawn.
