(* ===== verification/SchedThread.v ===== *)
(** The creation of threads, from [kernel/src/sys/sched.c]: the choice of the
    least loaded CPU and [spawn_thread] with every failure. *)
From S2P Require Import Prelude Kenv Dll Rq Context Sched SchedRep SchedInv SchedOps SchedProc SchedTable SchedReap.

Section select.
Context {E V : Type}.
Abbreviation S := (sched E V).
Implicit Types s : S.

(** ** The choice of a CPU *)

(** The load [sched_cpu_load] reads. *)
Definition load_of (s : S) (i : Z) : Z :=
  match s_cpus s !! i with
  | None => u64_max
  | Some c =>
      if decide (c_idle c = None) then u64_max else
      let busy := match c_current c with
        | Some t => bool_decide (c_current c <> c_idle c) && from_option (has_status THREAD_RUNNING) false (s_threads s !! t)
        | None => false
        end in
      if busy then u64 (c_count c + 1) else c_count c
  end.

(** No CPU is locked, and the current threads exist. *)
Definition cpus_idle_locks (s : S) : Prop := forall i c, s_cpus s !! i = Some c -> c_idle c <> None ->
  c_lock c = false /\ forall t, c_current c = Some t -> is_Some (s_threads s !! t).

Lemma sched_cpu_load_eq (s : S) i : cpus_idle_locks s -> sched_cpu_load i s = Ok (load_of s i, s).
Proof.
  intros Hl. unfold sched_cpu_load, load_of, find_cpu. rewrite gets_bind.
  destruct (s_cpus s !! i) as [c|] eqn:Hc; [|done]. destruct (decide (c_idle c = None)) as [|Hid]; [done|].
  destruct (Hl i c Hc Hid) as [Hlk Hcur].
  assert (sched_cpu_lock i s = Ok (tt, set_scpus (<[i := set_lock true c]> (s_cpus s)) s)) as Hlock.
  { unfold sched_cpu_lock, get_cpu, upd_cpu. erewrite st_bind_ok; [|by rewrite Hc]. by rewrite Hlk, Hc. }
  rewrite (st_bind_ok _ _ _ _ _ Hlock). unfold get_cpu.
  erewrite st_bind_ok; [|cbn; by rewrite lookup_insert_eq]. cbn [c_current set_lock c_idle c_count].
  assert (forall b : bool, (sched_cpu_unlock i ;; mret (if b then u64 (c_count c + 1) else c_count c))
    (set_scpus (<[i := set_lock true c]> (s_cpus s)) s) = Ok (if b then u64 (c_count c + 1) else c_count c, s)) as Hend.
  { intros b. unfold sched_cpu_unlock, upd_cpu. erewrite st_bind_ok; [|cbn; by rewrite lookup_insert_eq].
    unfold mret, st_ret. cbn. do 2 f_equal. rewrite insert_insert_eq.
    rewrite insert_id; [by destruct s|]. rewrite Hc. destruct c; cbn in Hlk; by subst. }
  destruct (c_current c) as [t|] eqn:Ht; [|exact (Hend false)].
  destruct (decide (Some t = c_idle c)) as [He|Hne].
  - rewrite decide_True, bool_decide_eq_false_2 by (done || by intros []). exact (Hend false).
  - rewrite decide_False, bool_decide_eq_true_2 by done. destruct (Hcur t eq_refl) as [d Hd]. rewrite Hd. cbn [andb from_option].
    unfold get_thread. rewrite bind_assoc. erewrite st_bind_ok; [|cbn; by rewrite Hd].
    exact (Hend (has_status THREAD_RUNNING d)).
Qed.

(** [r] is the first of the CPUs [0..n-1] with the least load, if any has one
    below the maximum. *)
Definition least_loaded (load : Z -> Z) (n : Z) (r : ptr) (b : Z) : Prop :=
  match r with
  | None => b = u64_max /\ forall j, 0 <= j < n -> u64_max <= load j
  | Some i => 0 <= i < n /\ b = load i /\ load i < u64_max /\ (forall j, 0 <= j < n -> load i <= load j) /\
      forall j, 0 <= j < i -> load i < load j
  end.

Lemma select_loop_ok (s : S) : cpus_idle_locks s -> forall k n r b,
  least_loaded (load_of s) n r b -> 0 <= n ->
  exists r' b', select_loop k n r b s = Ok (r', s) /\ least_loaded (load_of s) (n + Z.of_nat k) r' b'.
Proof.
  intros Hl. induction k as [|k IH]; intros n r b Hb Hn; cbn [select_loop].
  - exists r, b. by replace (n + Z.of_nat 0) with n by lia.
  - rewrite (st_bind_ok _ _ _ _ _ (sched_cpu_load_eq s n Hl)).
    replace (n + Z.of_nat (Datatypes.S k)) with (n + 1 + Z.of_nat k) by lia.
    destruct (Z.ltb_spec (load_of s n) b) as [Hlt|Hge]; apply IH; try lia.
    + unfold least_loaded in *. destruct r as [i|].
      * destruct Hb as (? & -> & ? & Hmin & _). split_and!; try done; try lia; intros j Hj;
          (destruct (decide (j = n)) as [->|]; [lia|]); (assert (0 <= j < n) as Hj' by lia); specialize (Hmin j Hj'); lia.
      * destruct Hb as (-> & Hmin). split_and!; try done; try lia; intros j Hj;
          (destruct (decide (j = n)) as [->|]; [lia|]); (assert (0 <= j < n) as Hj' by lia); specialize (Hmin j Hj'); lia.
    + unfold least_loaded in *. destruct r as [i|].
      * destruct Hb as (? & -> & ? & Hmin & ?). split_and!; try done; try lia. intros j Hj.
        destruct (decide (j = n)) as [->|]; [lia|]. apply Hmin. lia.
      * destruct Hb as (-> & Hmin). split; [done|]. intros j Hj.
        destruct (decide (j = n)) as [->|]; [lia|]. apply Hmin. lia.
Qed.

(** The CPU [spawn_thread] uses: the least loaded, or else the current one. *)
Lemma select_cpu_ok (s : S) me : cpus_idle_locks s ->
  exists r b, least_loaded (load_of s) (Z.of_nat (size (s_cpus s))) r b /\
    sched_select_cpu me s = Ok (match r with Some i => Some i | None => if s_cpus s !! me is Some _ then Some me else None end, s).
Proof.
  intros Hl. unfold sched_select_cpu, cpu_count. rewrite gets_bind. rewrite Nat2Z.id.
  destruct (select_loop_ok s Hl (size (s_cpus s)) 0 None u64_max) as (r & b & Hr & Hb); [split; [done|lia]|lia|].
  exists r, b. split; [done|]. rewrite (st_bind_ok _ _ _ _ _ Hr). destruct r as [i|]; [done|].
  unfold find_cpu. rewrite gets_bind. by destruct (s_cpus s !! me).
Qed.
End select.

(** ** A new thread in the tables *)

Lemma wf_add th cp i v t d :
  wf None th cp -> th !! t = None -> cp !! i = Some v -> t_status d = THREAD_RUNNABLE -> t_cpu d = i -> t_rsp d <> 0 ->
  wf None (<[t := d]> th) (<[i := vset Ready (v_ready v ++ [t]) v]> cp).
Proof.
  intros W Ht Hv Hst Hi Hrsp.
  assert (forall k e, th !! k = Some e -> k <> t) as Hne by (intros k e ? ->; congruence).
  assert (forall j w', <[i := vset Ready (v_ready v ++ [t]) v]> cp !! j = Some w' -> exists w, cp !! j = Some w /\
    v_lock w' = v_lock w /\ v_zombies w' = v_zombies w /\ v_idle w' = v_idle w /\ v_current w' = v_current w /\
    (forall k, k ∈ v_ready w' <-> k ∈ v_ready w \/ (k = t /\ j = i))) as Hback.
  { intros j w' Hw. destruct (decide (j = i)) as [->|Hj].
    - rewrite lookup_insert_eq in Hw. injection Hw as <-. exists v. split_and!; try done.
      intros k. cbn. rewrite elem_of_app, list_elem_of_singleton. naive_solver.
    - rewrite lookup_insert_ne in Hw by done. exists w'. split_and!; try done. naive_solver. }
  assert (forall k j st, (exists e, <[t := d]> th !! k = Some e /\ t_cpu e = j /\ t_status e = st) <->
    (exists e, th !! k = Some e /\ t_cpu e = j /\ t_status e = st) \/ (k = t /\ j = i /\ st = THREAD_RUNNABLE)) as Hq.
  { intros k j st. destruct (decide (k = t)) as [->|].
    - rewrite lookup_insert_eq, Ht. naive_solver.
    - rewrite lookup_insert_ne by done. naive_solver. }
  assert (forall k e, th !! k = Some e -> <[t := d]> th !! k = Some e) as Hold.
  { intros k e He. rewrite lookup_insert_ne; [done|]. by intros ->; eapply Hne. }
  split.
  - intros j w' (w & Hw & -> & _)%Hback. by apply (wf_lock _ _ _ W).
  - intros j w' k (w & Hw & _ & _ & _ & _ & ->)%Hback. rewrite Hq, (wf_ready _ _ _ W j w k Hw). naive_solver.
  - intros j w' k (w & Hw & _ & -> & _)%Hback. rewrite Hq, (wf_zombies _ _ _ W j w k Hw). naive_solver.
  - intros j w' k e (w & Hw & _ & _ & -> & -> & _)%Hback He Hc. destruct (decide (k = t)) as [->|Hk].
    + rewrite lookup_insert_eq in He. injection He as <-. rewrite Hst. split; [done|].
      destruct (wf_idle _ _ _ W j w Hw) as (? & ? & _), (wf_current _ _ _ W j w Hw) as (? & ? & _).
      intros [?|[? _]]; congruence.
    + rewrite lookup_insert_ne in He by done. by apply (wf_running _ _ _ W).
  - intros j w' (w & Hw & _ & _ & -> & _)%Hback. destruct (wf_idle _ _ _ W j w Hw) as (e & ? & ?). eauto.
  - intros j w' (w & Hw & _ & _ & _ & -> & _)%Hback. destruct (wf_current _ _ _ W j w Hw) as (e & ? & ?). eauto.
  - intros k e He. apply lookup_insert_Some in He as [[_ <-]|[_ He]]; [done|by eapply (wf_rsp _ _ _ W)].
  - intros k e He. apply lookup_insert_is_Some. destruct (decide (i = t_cpu e)); [by left|right]. split; [done|].
    apply lookup_insert_Some in He as [[_ <-]|[_ He]]; [done|by eapply (wf_cpu _ _ _ W)].
Qed.

Lemma procs_add_thread th pr pl t d a p :
  procs_ok th pr pl -> th !! t = None -> pr !! a = Some p -> t_parent d = Some a -> t_next d = p_thread p ->
  procs_ok (<[t := d]> th) (<[a := set_threads (Some t) (p_thread_count p + 1) p]> pr) pl.
Proof.
  intros [(ls & Hs & Hin) H2 H3 H4 H5] Ht Hp Hpa Hnx.
  assert (forall b q, <[a := set_threads (Some t) (p_thread_count p + 1) p]> pr !! b = Some q -> exists q0,
    pr !! b = Some q0 /\ p_pid q = p_pid q0 /\ p_type q = p_type q0) as Hback.
  { intros b q Hb. destruct (decide (b = a)) as [->|].
    - rewrite lookup_insert_eq in Hb. injection Hb as <-. by exists p.
    - rewrite lookup_insert_ne in Hb by done. by exists q. }
  assert (forall b hd n, b <> a -> threads_of th b hd n -> threads_of (<[t := d]> th) b hd n) as Hkeep.
  { intros b hd n Hb (ts & Hts & Hn & Hm). exists ts.
    assert (t ∉ ts) as Htn by (rewrite Hm; intros (? & ? & _); congruence). split; [|split; [done|]].
    - eapply slist_frame; [|exact Hts]. intros k Hk. unfold thread_next. rewrite lookup_insert_ne; [done|congruence].
    - intros k. rewrite Hm. destruct (decide (k = t)) as [->|]; [|by rewrite lookup_insert_ne].
      rewrite lookup_insert_eq, Ht. naive_solver congruence. }
  split.
  - exists ls. split.
    + eapply slist_frame; [|exact Hs]. intros b _. unfold proc_next.
      destruct (decide (b = a)) as [->|]; [by rewrite lookup_insert_eq, Hp|by rewrite lookup_insert_ne].
    + intros b. rewrite Hin. destruct (decide (b = a)) as [->|]; [|by rewrite lookup_insert_ne].
      rewrite lookup_insert_eq, Hp. unfold listed. split; intros (q & [= <-] & Hq); eauto.
  - intros b c q r (q0 & Hq & Ei & Et)%Hback (r0 & Hr & Ei' & Et')%Hback. unfold listed. rewrite Ei, Et, Ei', Et'. by apply H2.
  - intros b q (q0 & Hq & Ei & Et)%Hback. unfold listed. rewrite Ei, Et. by apply (H3 b q0).
  - intros b q Hb. destruct (decide (b = a)) as [->|Hne].
    + rewrite lookup_insert_eq in Hb. injection Hb as <-. cbn [p_thread p_thread_count set_threads].
      destruct (H4 a p Hp) as (ts & Hts & Hn & Hm). exists (t :: ts).
      assert (t ∉ ts) as Htn by (rewrite Hm; intros (? & ? & _); congruence). split; [|split].
      * eapply slist_cons; [exact Hts|done| |].
        -- unfold thread_next. rewrite lookup_insert_eq. cbn. by rewrite Hnx.
        -- intros k Hk. unfold thread_next. by rewrite lookup_insert_ne.
      * cbn [length]. lia.
      * intros k. rewrite elem_of_cons, Hm. destruct (decide (k = t)) as [->|].
        -- rewrite lookup_insert_eq. split; [eauto|by left].
        -- rewrite lookup_insert_ne by done. naive_solver.
    + rewrite lookup_insert_ne in Hb by done. apply Hkeep; [done|by apply H4].
  - intros k e He. assert (exists b, t_parent e = Some b /\ is_Some (pr !! b)) as (b & Hb & Hpb).
    { apply lookup_insert_Some in He as [[_ <-]|[_ He]]; [eauto|by eapply H5]. }
    exists b. split; [done|]. apply lookup_insert_is_Some. destruct (decide (a = b)); [by left|by right].
Qed.

Lemma heap_add_thread live th pr t d k a p :
  heap_ok live th pr -> (t ∉ live) -> (k ∉ {[t]} ∪ live) -> t_stack d = Some k -> is_Some (pr !! a) ->
  heap_ok ({[k]} ∪ ({[t]} ∪ live)) (<[t := d]> th) (<[a := p]> pr).
Proof.
  intros [H1 H2 H3 H4] Ht Hk Hst Ha.
  assert (k <> t /\ (k ∉ live)) as [Hkt Hkl] by (split; [intros ->; set_solver|set_solver]).
  assert (forall x, pr !! x = None -> <[a := p]> pr !! x = None) as Hn.
  { intros x Hx. rewrite lookup_insert_ne; [done|]. intros ->. destruct Ha. congruence. }
  assert (forall x, (x ∉ live) -> pr !! x = None) as Hpn.
  { intros x Hx. destruct (pr !! x) eqn:E1; [|done]. by destruct (Hx (H2 _ _ E1)). }
  split.
  - intros u e He. apply lookup_insert_Some in He as [[<- <-]|[_ He]]; [split; [set_solver|auto]|].
    destruct (H1 u e He). split; [set_solver|auto].
  - intros b q Hb. apply lookup_insert_Some in Hb as [[<- _]|[_ Hb]]; [|pose proof (H2 b q Hb); set_solver].
    destruct Ha as [q0 Hq0]. pose proof (H2 a q0 Hq0). set_solver.
  - intros u e He. apply lookup_insert_Some in He as [[<- <-]|[_ He]].
    + exists k. split_and!; [done|set_solver| |auto]. rewrite lookup_insert_ne by done.
      destruct (th !! k) as [e|] eqn:E1; [|done]. by destruct (H1 k e E1).
    + destruct (H3 u e He) as (x & ? & Hx & Hxt & ?). exists x. split_and!; [done|set_solver| |auto].
      rewrite lookup_insert_ne; [done|]. by intros ->.
  - assert (forall u e, th !! u = Some e -> t_stack e <> Some k) as Hfresh.
    { intros u e He Hs. destruct (H3 u e He) as (x & Hx & Hxl & _). assert (x = k) by congruence. by subst. }
    intros u w e f He Hf Heq. apply lookup_insert_Some in He, Hf.
    destruct He as [[<- <-]|[_ He]], Hf as [[<- <-]|[_ Hf]]; [done| | |by eapply H4].
    + destruct (Hfresh w f Hf). congruence.
    + destruct (Hfresh u e He). congruence.
Qed.

Lemma rep_add {E V} (s s' : sched E V) th cp t d n :
  rep s th cp -> th !! t = None -> s_threads s' = <[t := d]> th -> s_nodes s' = <[t := n]> (s_nodes s) ->
  s_cpus s' = s_cpus s -> Z.of_nat (size th) + 1 < 2 ^ 32 -> rep s' (<[t := d]> th) cp.
Proof.
  intros [R1 R2 R3 R4 R5 R6] Ht Eth En Ec Hsz. split; rewrite ?En, ?Ec; try done.
  - intros k Hk. apply lookup_insert_is_Some. destruct (decide (t = k)); [by left|right]. split; [done|].
    apply R2. apply lookup_insert_is_Some in Hk as [?|[_ ?]]; done.
  - intros i. pose proof (R3 i) as Hi. destruct (s_cpus s !! i) as [c|], (cp !! i) as [v|] eqn:Hv; try done.
    destruct Hi as (? & ? & ? & Hh). split_and!; try done. intros x. eapply holds_frame; [|apply Hh].
    rewrite ents_fst. intros k Hk. rewrite lookup_insert_ne; [done|]. intros ->.
    destruct (R5 i v x k Hv Hk) as [e He]. congruence.
  - intros i v x k Hv Hk. apply lookup_insert_is_Some. right. split; [|by eapply R5]. intros ->.
    destruct (R5 i v x k Hv Hk) as [e He]. congruence.
  - rewrite map_size_insert_None by done. lia.
Qed.

Section spawn.
Context {E V : Type} `{!Heap E} `{!HeapLaws E} `{!VasOps V} (L : layout).
Abbreviation S := (sched E V).
Implicit Types s : S.

Lemma inv_idle_locks (s : S) cp : sched_inv s cp -> cpus_idle_locks s.
Proof.
  intros [Hr W] i c Hc Hid. pose proof (rep_cpus _ _ _ Hr i) as Hi. rewrite Hc in Hi.
  destruct (cp !! i) as [v|] eqn:Hv; [|by destruct Hi]. destruct Hi as (-> & _ & -> & _).
  split; [by apply (wf_lock _ _ _ W i v Hv)|]. intros t [= <-].
  destruct (wf_current _ _ _ W i v Hv) as (d & ? & _). eauto.
Qed.

(** The queueing of a new thread, at the end of [spawn_thread]. *)
Lemma enqueue_new_ok (s : S) th cp i v t :
  rep s th cp -> cp !! i = Some v -> v_lock v = false -> in_no_queue cp t -> is_Some (th !! t) ->
  exists s', (forall B (k : ST S B),
      (sched_cpu_lock i ;; queue_push i Ready t ;; upd_cpu i (fun c => set_count (u32 (c_count c + 1)) c) ;;
       sched_cpu_unlock i ;; k) s = k s') /\
    rep s' th (<[i := vset Ready (v_ready v ++ [t]) v]> cp) /\ rest_kept s s' /\ s_mem s' = s_mem s.
Proof.
  intros Hr Hv Hlk Hno Ht. set (v1 := vset Ready (v_ready v ++ [t]) (vlocked true v)).
  assert (hoare (view s (s_mem s) th cp)
    (sched_cpu_lock i ;; queue_push i Ready t ;; upd_cpu i (fun c => set_count (u32 (c_count c + 1)) c) ;; sched_cpu_unlock i)
    (gives tt (view s (s_mem s) th (<[i := vset Ready (v_ready v ++ [t]) v]> cp)))) as Hh.
  { eapply hoare_gives; [by apply lock_triple|].
    eapply hoare_gives; [apply (push_triple _ _ _ _ i (vlocked true v) Ready); [by rewrite lookup_insert_eq|by apply unqueued_locked|done]|].
    rewrite insert_insert_eq. fold v1.
    eapply hoare_gives; [apply view_step; intros s1 H1; apply (upd_cpu_same_rep s1 th _ i v1 _ H1); [by rewrite lookup_insert_eq|done]|].
    eapply hoare_conseq; [by apply unlock_triple; rewrite lookup_insert_eq|by intros ? ?|].
    rewrite insert_insert_eq. intros a s1 [-> Hs1]. split; [done|].
    assert (vlocked false v1 = vset Ready (v_ready v ++ [t]) v) as <-; [|done].
    unfold v1. destruct v. cbn in *. by rewrite Hlk. }
  destruct (Hh s) as (a & s' & Hs' & -> & ? & ? & ?); [by apply view_self|]. exists s'. split; [|done].
  intros B k. revert Hs'. unfold mbind, st_bind. repeat (case_match; try done). by intros [= _ ->].
Qed.

(** The CPU that [spawn_thread] picks. *)
Definition picked (s : S) (me i : Z) : Prop :=
  exists r b, least_loaded (load_of s) (Z.of_nat (size (s_cpus s))) r b /\ i = default me r.

(** Reasons to refuse. *)
Definition spawn_refused (s : S) (me : Z) (p : pcb) (entry : Z) (cp : vcpus) : Prop :=
  entry = 0 \/ p_type p = PROC_USER \/ (exists i, picked s me i /\ cp !! i = None) \/
  (env_alloc sizeof_tcb (s_env s)).1 = None \/
  exists t e, env_alloc sizeof_tcb (s_env s) = (Some t, e) /\ (env_alloc SCHED_STACK_SIZE e).1 = None.

Definition thread_spawned (me : Z) (name : list Z) (a : Z) (p : pcb) (entry arg : Z) (cp : vcpus) (s : S) (res : ptr) (s' : S)
    : Prop :=
  match res with
  | None =>
      spawn_refused s me p entry cp /\ kernel_inv s' cp /\ s_threads s' = s_threads s /\ s_procs s' = s_procs s /\
      s_mem s' = s_mem s /\ env_live (s_env s') = env_live (s_env s)
  | Some t =>
      exists i v k rsp, cp !! i = Some v /\ picked s me i /\ (t ∉ env_live (s_env s)) /\
        sched_make_stack (a_trampoline L) t k SCHED_STACK_QWORDS (s_mem s) = (rsp, s_mem s') /\
        s_threads s' = <[t := make_tcb (s_next_tid s) name THREAD_RUNNABLE entry arg (p_thread p) (Some a) (Some k)
          SCHED_STACK_SIZE i rsp]> (s_threads s) /\
        s_procs s' = <[a := set_threads (Some t) (p_thread_count p + 1) p]> (s_procs s) /\
        kernel_inv s' (<[i := vset Ready (v_ready v ++ [t]) v]> cp)
  end.

(** The addresses of the new objects leave room for the stack. *)
Definition stack_fits (s : S) : Prop := forall t e1 k e2,
  env_alloc sizeof_tcb (s_env s) = (Some t, e1) -> env_alloc SCHED_STACK_SIZE e1 = (Some k, e2) ->
  0 < k /\ k + SCHED_STACK_SIZE < 2 ^ 64 - 8.

(** The choice of a CPU reads the state only, and gives an initialised one or
    is refused. *)
Lemma pick_ok (s : S) me cp : sched_inv s cp ->
  exists oi, sched_select_cpu me s = Ok (oi, s) /\
    match oi with None => exists i, picked s me i /\ cp !! i = None
    | Some i => picked s me i /\ is_Some (s_cpus s !! i) end.
Proof.
  intros HI. destruct (select_cpu_ok s me (inv_idle_locks _ _ HI)) as (r & b & Hb & Hs).
  eexists. split; [exact Hs|]. destruct r as [i|].
  { split; [by exists (Some i), b|]. destruct Hb as (_ & _ & Hlt & _). unfold load_of in Hlt.
    destruct (s_cpus s !! i); [eauto|lia]. }
  destruct (s_cpus s !! me) as [c|] eqn:Hc; [split; [by exists None, b|eauto]|]. exists me. split; [by exists None, b|].
  pose proof (rep_cpus _ _ _ (proj1 HI) me) as Hr. rewrite Hc in Hr. by destruct (cp !! me).
Qed.

(** A state that differs from [s] in the heap only, with the same live objects. *)
Lemma env_change_ok (s : S) cp e : kernel_inv s cp -> env_live e = env_live (s_env s) -> kernel_inv (set_senv e s) cp.
Proof.
  intros [[Hr W] [Hok Hheap Hlk Hnx]] He. split; [|split; cbn; by rewrite ?He].
  split; [|done]. eapply queues_kept_rep; [|exact Hr]. done.
Qed.

(** From the two allocations on. *)
Definition thread_built (s : S) (t k i a : Z) (p : pcb) (name : list Z) (entry arg : Z) (e : E) (rsp : Z) (m : words) : S :=
  mk_sched e (s_vas s) m
    (<[t := make_tcb (s_next_tid s) name THREAD_RUNNABLE entry arg (p_thread p) (Some a) (Some k) SCHED_STACK_SIZE i rsp]> (s_threads s))
    (<[t := mk_node (Some t) None None]> (s_nodes s))
    (<[a := set_threads (Some t) (u32 (p_thread_count p + 1)) p]> (s_procs s)) (s_cpus s) (s_proc_list s) (s_proc_lock s)
    (s_next_pid s) (u64 (s_next_tid s + 1)).

Lemma threads_count_bound (s : S) cp a p : kernel_inv s cp -> s_procs s !! a = Some p ->
  0 <= p_thread_count p <= Z.of_nat (size (s_threads s)).
Proof.
  intros [_ [Hok _ _ _]] Hp. destruct (po_threads _ _ _ Hok a p Hp) as (ts & Hs & -> & Hin).
  pose proof Hs as (_ & Hn & _). assert (length ts <= size (s_threads s))%nat; [|lia].
  apply nodup_size; [done|]. intros k Hk. by eapply thread_next_is_Some.
Qed.

Lemma thread_built_ok (s : S) cp t k i v a p name entry arg e1 e2 rsp m :
  kernel_inv s cp -> cp !! i = Some v -> s_procs s !! a = Some p -> Z.of_nat (size (s_threads s)) + 1 < 2 ^ 32 ->
  env_alloc sizeof_tcb (s_env s) = (Some t, e1) -> env_alloc SCHED_STACK_SIZE e1 = (Some k, e2) -> stack_fits s ->
  sched_make_stack (a_trampoline L) t k SCHED_STACK_QWORDS (s_mem s) = (rsp, m) ->
  let s1 := thread_built s t k i a p name entry arg e2 rsp m in
  rep s1 (s_threads s1) cp /\ wf None (s_threads s1) (<[i := vset Ready (v_ready v ++ [t]) v]> cp) /\ table_ok s1 /\
  in_no_queue cp t /\ s_procs s1 = <[a := set_threads (Some t) (p_thread_count p + 1) p]> (s_procs s) /\ (t ∉ env_live (s_env s)).
Proof.
  intros HK Hv Hp Hsz Ht Hk Hfit Hstk s1. pose proof HK as [[Hr W] [Hok Hheap Hlk Hnx]].
  destruct (env_alloc_some _ _ _ _ Ht) as [Htl El1]. destruct (env_alloc_some _ _ _ _ Hk) as [Hkl El2].
  assert (s_threads s !! t = None) as Htn.
  { destruct (s_threads s !! t) as [d|] eqn:E1; [|done]. by destruct (Htl (proj1 (ho_thread _ _ _ Hheap t d E1))). }
  pose proof (threads_count_bound s cp a p HK Hp) as Hc.
  assert (u32 (p_thread_count p + 1) = p_thread_count p + 1) as Hu by (apply u32_small; lia).
  destruct (Hfit t e1 k e2 Ht Hk) as [Hk0 Hk1].
  assert (rsp = k + 8 * SCHED_STACK_QWORDS - 128) as Hrsp.
  { rewrite <- (sched_make_stack_sp (a_trampoline L) t k SCHED_STACK_QWORDS (s_mem s)); [by rewrite Hstk|lia|done|].
    change SCHED_STACK_SIZE with (8 * SCHED_STACK_QWORDS) in Hk1. lia. }
  split_and!.
  - eapply (rep_add s); [exact Hr|exact Htn|done|done|done|exact Hsz].
  - apply wf_add; try done. cbn [t_rsp make_tcb]. rewrite Hrsp. change SCHED_STACK_QWORDS with 2048. lia.
  - split; cbn; try done.
    + rewrite Hu. by apply procs_add_thread.
    + rewrite El2. rewrite El1 in Hkl |- *. by apply heap_add_thread.
  - intros j w x Hw Hin. destruct (rep_queued _ _ _ Hr j w x t Hw Hin). congruence.
  - cbn. by rewrite Hu.
  - done.
Qed.

(** Giving the control block back leaves the tables as they were. *)
Lemma untouched_ok (s : S) cp t e1 e2 : kernel_inv s cp -> env_alloc sizeof_tcb (s_env s) = (Some t, e1) ->
  env_live e2 = env_live e1 ->
  exists s', kfree_tcb t (set_senv e2 (set_snodes (<[t := mk_node None None None]> (s_nodes s))
      (set_sthreads (<[t := zero_tcb]> (s_threads s)) (set_senv e1 s)))) = Ok (tt, s') /\
    kernel_inv s' cp /\ s_threads s' = s_threads s /\ s_procs s' = s_procs s /\ s_mem s' = s_mem s /\
    env_live (s_env s') = env_live (s_env s).
Proof.
  intros HK Ht He. pose proof HK as [[Hr W] [Hok Hheap Hlk Hnx]].
  destruct (env_alloc_some _ _ _ _ Ht) as [Htl El].
  assert (s_threads s !! t = None) as Htn.
  { destruct (s_threads s !! t) as [d|] eqn:E1; [|done]. by destruct (Htl (proj1 (ho_thread _ _ _ Hheap t d E1))). }
  assert (env_live (env_free t e2) = env_live (s_env s)) as Elive.
  { rewrite env_free_live, He, El. apply set_eq. intros x. rewrite elem_of_difference, elem_of_union, elem_of_singleton.
    split; [tauto|]. intros Hx. split; [by right|]. by intros ->. }
  eexists. split; [done|]. cbn [s_threads s_procs s_mem s_env set_senv set_snodes set_sthreads].
  rewrite delete_insert_id by done. split; [|done]. split.
  - unfold sched_inv. cbn [s_threads set_senv set_snodes set_sthreads]. rewrite ?delete_insert_id by done. split; [|done].
    eapply (rep_change s); [exact Hr|done|done| |by apply Hr].
    intros x [d Hd]. cbn. split; [eauto|]. assert (x <> t) by (intros ->; congruence).
    by rewrite lookup_delete_ne, lookup_insert_ne.
  - split; cbn; rewrite ?delete_insert_id, ?Elive by done; done.
Qed.

Lemma spawn_thread_ok (s : S) cp me name a p entry arg :
  kernel_inv s cp -> s_procs s !! a = Some p -> Z.of_nat (size (s_threads s)) + 1 < 2 ^ 32 -> stack_fits s ->
  exists res s', spawn_thread L me name (Some a) entry arg s = Ok (res, s') /\
    thread_spawned me name a p entry arg cp s res s'.
Proof.
  intros HK Hp Hsz Hfit. pose proof HK as [HI Ht0]. pose proof HI as [Hr W]. unfold spawn_thread.
  assert (spawn_refused s me p entry cp -> exists res s', mret (M := ST S) None s = Ok (res, s') /\
    thread_spawned me name a p entry arg cp s res s') as Hno by (intros Hre; by exists None, s).
  destruct (Z.eqb_spec entry 0) as [He|He]; [apply Hno; by left|].
  rewrite (st_bind_ok _ _ _ _ _ (get_proc_eq s a p Hp)). destruct (decide (p_type p = PROC_USER)) as [Hu|Hu];
    [apply Hno; right; by left|].
  destruct (pick_ok s me cp HI) as (oi & Hsel & Hpick). rewrite (st_bind_ok _ _ _ _ _ Hsel).
  destruct oi as [i|]; [|apply Hno; right; right; by left]. destruct Hpick as [Hpick [c Hc]].
  pose proof (rep_cpus _ _ _ Hr i) as Hci. rewrite Hc in Hci. erewrite st_bind_ok; [|unfold get_cpu; by rewrite Hc].
  destruct (cp !! i) as [v|] eqn:Hv; [|destruct Hci as [-> _]; apply Hno; right; right; left; by exists i].
  destruct Hci as (_ & -> & _). cbn [decide]. rewrite decide_False by done.
  unfold kzalloc_tcb, kmalloc. rewrite bind_assoc. destruct (env_alloc sizeof_tcb (s_env s)) as [r e1] eqn:Ht.
  erewrite st_bind_ok; [|by rewrite Ht]. destruct r as [t|].
  2:{ exists None, (set_senv e1 s). split; [done|]. pose proof (env_alloc_none _ _ _ Ht) as El.
      split; [right; right; right; left; by rewrite Ht|]. split; [by apply env_change_ok|]. by cbn. }
  rewrite bind_assoc, modify_bind, bind_assoc, modify_bind. erewrite st_bind_ok; [|done].
  destruct (env_alloc SCHED_STACK_SIZE e1) as [r e2] eqn:Hk.
  erewrite st_bind_ok; [|cbn; by rewrite Hk]. destruct r as [k|].
  - destruct (sched_make_stack (a_trampoline L) t k SCHED_STACK_QWORDS (s_mem s)) as [rsp m] eqn:Hstk.
    destruct (thread_built_ok s cp t k i v a p name entry arg e1 e2 rsp m HK Hv Hp Hsz Ht Hk Hfit Hstk)
      as (Hr1 & W1 & T1 & Hno1 & Hp1 & Htl).
    set (s1 := thread_built s t k i a p name entry arg e2 rsp m) in *.
    destruct (enqueue_new_ok s1 _ cp i v t Hr1 Hv) as (s2 & Hgo & Hr2 & Hk2 & Hm2);
      [by apply (wf_lock _ _ _ W i v Hv)|done|unfold s1; cbn; rewrite lookup_insert_eq; eauto|].
    exists (Some t), s2. split.
    + rewrite gets_bind, modify_bind, gets_bind. erewrite lift_bind; [|apply store_node_init; cbn; rewrite lookup_insert_eq; eauto].
      rewrite modify_bind. unfold make_stack. erewrite st_bind_ok; [|cbn; by rewrite Hstk].
      erewrite st_bind_ok; [|apply (upd_thread_eq _ t zero_tcb); cbn; by rewrite lookup_insert_eq].
      erewrite st_bind_ok; [|apply (upd_proc_eq _ a p); exact Hp].
      etransitivity; [|exact (Hgo _ (mret (Some t)))]. f_equal. unfold s1, thread_built. cbn. by rewrite !insert_insert_eq.
    + assert (s_threads s2 = s_threads s1) as Eth by apply Hr2.
      exists i, v, k, rsp. split_and!; try done.
      * by rewrite Hm2.
      * destruct Hk2 as (_ & _ & -> & _). exact Hp1.
      * split; [by split; rewrite Eth|]. eapply table_ok_kept; [exact T1|done|by rewrite Eth].
  - destruct (untouched_ok s cp t e1 e2 HK Ht) as (s' & Hf & Hk' & Hrest); [by eapply env_alloc_none|].
    exists None, s'. split; [by rewrite (st_bind_ok _ _ _ _ _ Hf)|].
    split; [|done]. right. right. right. right. exists t, e1. by rewrite Hk.
Qed.
End spawn.
