(* ===== verification/SchedBoot.v ===== *)
(** The start of the scheduler on a CPU, [sched_init] of
    [kernel/src/sys/sched.c]: the CPU gets its idle thread, and the invariant
    of the whole scheduler covers it. *)
From S2P Require Import Prelude Kenv Dll Rq Context Sched SchedRep SchedInv SchedOps SchedProc SchedTable SchedReap SchedSpawn SchedThread.

(** A CPU whose idle thread runs, with nothing to schedule. *)
Definition fresh_vcpu (t : Z) : vcpu := mk_vcpu false [] [] t t.

Lemma wf_boot th cp i t d :
  wf None th cp -> cp !! i = None -> th !! t = None -> t_status d = THREAD_RUNNING -> t_cpu d = i -> t_rsp d <> 0 ->
  wf None (<[t := d]> th) (<[i := fresh_vcpu t]> cp).
Proof.
  intros W Hi Ht Hst Hc Hr.
  assert (forall k e, th !! k = Some e -> t_cpu e <> i /\ k <> t) as Hne.
  { intros k e He. split; [|intros ->; congruence]. intros Hk. destruct (wf_cpu _ _ _ W k e He). congruence. }
  assert (forall k j st, j <> i -> (exists e, th !! k = Some e /\ t_cpu e = j /\ t_status e = st) <->
    exists e, <[t := d]> th !! k = Some e /\ t_cpu e = j /\ t_status e = st) as Hq.
  { intros k j st Hj. destruct (decide (k = t)) as [->|]; [|by rewrite lookup_insert_ne].
    rewrite lookup_insert_eq, Ht. naive_solver. }
  assert (forall k st, st <> THREAD_RUNNING -> ~ exists e, <[t := d]> th !! k = Some e /\ t_cpu e = i /\ t_status e = st) as Hnone.
  { intros k st Hs (e & He & He1 & He2). apply lookup_insert_Some in He as [[_ <-]|[_ He]]; [congruence|].
    by destruct (Hne k e He). }
  assert (forall k e, th !! k = Some e -> <[t := d]> th !! k = Some e) as Hold.
  { intros k e He. rewrite lookup_insert_ne; [done|]. destruct (Hne k e He). congruence. }
  split; intros j.
  - intros w Hw. apply lookup_insert_Some in Hw as [[_ <-]|[_ Hw]]; [done|]. exact (wf_lock _ _ _ W j w Hw).
  - intros w k Hw. apply lookup_insert_Some in Hw as [[<- <-]|[Hj Hw]].
    + split; [by intros ?%elem_of_nil|]. intros Hx. by destruct (Hnone k THREAD_RUNNABLE).
    + rewrite <- Hq by congruence. by apply (wf_ready _ _ _ W).
  - intros w k Hw. apply lookup_insert_Some in Hw as [[<- <-]|[Hj Hw]].
    + split; [by intros ?%elem_of_nil|]. intros Hx. by destruct (Hnone k THREAD_ZOMBIE).
    + rewrite <- Hq by congruence. by apply (wf_zombies _ _ _ W).
  - intros w k e Hw He Hce. apply lookup_insert_Some in Hw as [[<- <-]|[Hj Hw]];
      apply lookup_insert_Some in He as [[<- <-]|[Hk He]].
    + rewrite Hst. cbn. naive_solver.
    + by destruct (Hne k e He).
    + congruence.
    + by apply (wf_running _ _ _ W j).
  - intros w Hw. apply lookup_insert_Some in Hw as [[<- <-]|[Hj Hw]].
    + exists d. cbn. by rewrite lookup_insert_eq.
    + destruct (wf_idle _ _ _ W j w Hw) as (e & ? & ?). eauto.
  - intros w Hw. apply lookup_insert_Some in Hw as [[<- <-]|[Hj Hw]].
    + exists d. cbn. by rewrite lookup_insert_eq.
    + destruct (wf_current _ _ _ W j w Hw) as (e & ? & ?). eauto.
  - intros e He. apply lookup_insert_Some in He as [[_ <-]|[_ He]]; [done|by eapply (wf_rsp _ _ _ W)].
  - intros e He. apply lookup_insert_is_Some. destruct (decide (i = t_cpu e)); [by left|right]. split; [done|].
    apply lookup_insert_Some in He as [[_ <-]|[_ He]]; [done|by eapply (wf_cpu _ _ _ W)].
Qed.

Lemma heap_static live th pr t a k d p : heap_ok live th pr -> t ∈ live -> a ∈ live -> k ∈ live ->
  (forall x, x ∈ [t; a; k] -> ~ owned th pr x) -> NoDup [t; a; k] -> t_stack d = Some k ->
  heap_ok live (<[t := d]> th) (<[a := p]> pr).
Proof.
  intros [H1 H2 H3 H4] Ht Ha Hk Hno Hnd Hst.
  assert (forall x, x ∈ [t; a; k] -> th !! x = None /\ pr !! x = None /\ forall u e, th !! u = Some e -> t_stack e <> Some x) as Hfree.
  { intros x Hx. split_and!.
    - destruct (th !! x) eqn:E1; [|done]. destruct (Hno x Hx). left. eauto.
    - destruct (pr !! x) eqn:E1; [|done]. destruct (Hno x Hx). right. left. eauto.
    - intros u e He Hs. destruct (Hno x Hx). right. right. eauto. }
  destruct (Hfree t) as (Ht1 & Ht2 & Ht3); [set_solver|]. destruct (Hfree a) as (Ha1 & Ha2 & Ha3); [set_solver|].
  destruct (Hfree k) as (Hk1 & Hk2 & Hk3); [set_solver|].
  apply NoDup_cons in Hnd as [Hta Hnd]. apply NoDup_cons in Hnd as [Hak _].
  assert (t <> a /\ t <> k /\ a <> k) as (Hd1 & Hd2 & Hd3) by set_solver. split.
  - intros u e He. apply lookup_insert_Some in He as [[<- <-]|[_ He]]; [by rewrite lookup_insert_ne|].
    destruct (H1 u e He). split; [done|]. rewrite lookup_insert_ne; [done|]. intros ->. congruence.
  - intros b q Hb. apply lookup_insert_Some in Hb as [[<- _]|[_ Hb]]; [done|by eapply H2].
  - intros u e He. apply lookup_insert_Some in He as [[<- <-]|[_ He]].
    + exists k. rewrite !lookup_insert_ne by done. done.
    + destruct (H3 u e He) as (x & Hx & ? & ? & ?). exists x. split_and!; try done.
      * rewrite lookup_insert_ne; [done|]. intros ->. by apply (Ht3 u e He).
      * rewrite lookup_insert_ne; [done|]. intros ->. by apply (Ha3 u e He).
  - intros u w e f He Hf Heq. apply lookup_insert_Some in He, Hf.
    destruct He as [[<- <-]|[_ He]], Hf as [[<- <-]|[_ Hf]]; [done| | |by eapply H4].
    + destruct (Hk3 w f Hf). congruence.
    + destruct (Hk3 u e He). congruence.
Qed.

Section boot.
Context {E V : Type} `{!Heap E} (L : layout).
Abbreviation S := (sched E V).
Implicit Types s : S.

(** The static objects of CPU [i]: allocated, and not in use yet. *)
Record static_objects (s : S) (i : Z) : Prop := {
  so_live : forall x, x ∈ [idle_threads L i; idle_procs L i; idle_stacks L i] -> x ∈ env_live (s_env s);
  so_free : forall x, x ∈ [idle_threads L i; idle_procs L i; idle_stacks L i] -> ~ owned (s_threads s) (s_procs s) x;
  so_distinct : NoDup [idle_threads L i; idle_procs L i; idle_stacks L i];
  so_stack : 0 < idle_stacks L i /\ idle_stacks L i + 8 * SCHED_IDLE_STACK_QWORDS < 2 ^ 64 - 8 }.

Lemma rep_boot (s : S) th cp i c t n :
  rep s th cp -> cp !! i = None -> s_cpus s !! i = Some c ->
  rep (set_scpus (<[i := mk_cpu false rq_init rq_init (Some t) (Some t) n]> (s_cpus s)) s) th (<[i := fresh_vcpu t]> cp).
Proof.
  intros [R1 R2 R3 R4 R5 R6] Hi Hc. split; cbn [s_threads s_nodes s_cpus set_scpus]; try done.
  - intros j. destruct (decide (j = i)) as [->|]; [|by rewrite !lookup_insert_ne].
    rewrite !lookup_insert_eq. split_and!; try done. intros x. destruct x; (split; [apply rq_rep_init|constructor]).
  - intros j k v w x y t' Hv Hw Ht Ht'. apply lookup_insert_Some in Hv as [[<- <-]|[_ Hv]]; [destruct x; by apply elem_of_nil in Ht|].
    apply lookup_insert_Some in Hw as [[<- <-]|[_ Hw]]; [destruct y; by apply elem_of_nil in Ht'|]. by eapply R4.
  - intros j v x t' Hv Ht. apply lookup_insert_Some in Hv as [[<- <-]|[_ Hv]]; [destruct x; by apply elem_of_nil in Ht|].
    by eapply R5.
Qed.

Lemma sched_init_ok (s : S) cp me c :
  kernel_inv s cp -> s_cpus s !! me = Some c -> c_idle c = None -> static_objects s me ->
  Z.of_nat (size (s_threads s)) + 1 < 2 ^ 32 ->
  exists s', sched_init L me s = Ok (tt, s') /\ kernel_inv s' (<[me := fresh_vcpu (idle_threads L me)]> cp).
Proof.
  intros [[Hr W] [Hok Hheap Hlk Hnx]] Hc Hid [Hlive Hfree Hdist [Hk0 Hk1]] Hsz.
  set (t := idle_threads L me) in *. set (a := idle_procs L me) in *. set (k := idle_stacks L me) in *.
  assert (cp !! me = None) as Hv.
  { pose proof (rep_cpus _ _ _ Hr me) as Hm. rewrite Hc in Hm. destruct (cp !! me); [|done].
    destruct Hm as (_ & Hm & _). congruence. }
  assert (s_threads s !! t = None /\ s_procs s !! a = None) as [Htn Han].
  { split.
    - destruct (s_threads s !! t) eqn:E1; [|done]. destruct (Hfree t); [set_solver|]. left. eauto.
    - destruct (s_procs s !! a) eqn:E1; [|done]. destruct (Hfree a); [set_solver|]. right. left. eauto. }
  unfold sched_init, find_cpu. rewrite gets_bind, Hc. rewrite decide_False by (intros Hx; by apply Hx).
  fold t a k. erewrite st_bind_ok; [|unfold upd_cpu; by rewrite Hc].
  rewrite modify_bind, modify_bind. unfold make_stack.
  destruct (sched_make_stack (a_trampoline L) t k SCHED_IDLE_STACK_QWORDS (s_mem s)) as [rsp m] eqn:Hstk.
  erewrite st_bind_ok; [|cbn; by rewrite Hstk]. rewrite modify_bind. unfold upd_cpu.
  cbn [s_cpus set_sthreads set_smem set_snodes set_sprocs set_scpus]. rewrite lookup_insert_eq.
  eexists. split; [done|]. cbn. rewrite insert_insert_eq, Hid.
  pose proof (sched_make_stack_sp (a_trampoline L) t k SCHED_IDLE_STACK_QWORDS (s_mem s) Hk0) as Hrsp.
  rewrite Hstk in Hrsp. cbn in Hrsp.
  set (T := make_tcb SCHED_IDLE_PID idle_name THREAD_RUNNING _ _ _ _ _ _ _ _).
  set (P := mk_pcb SCHED_IDLE_PID _ _ _ _ _ _ _).
  set (s1 := mk_sched (s_env s) (s_vas s) m (<[t := T]> (s_threads s)) (<[t := mk_node (Some t) None None]> (s_nodes s))
    (<[a := P]> (s_procs s)) (s_cpus s) (s_proc_list s) (s_proc_lock s) (s_next_pid s) (s_next_tid s)).
  match goal with |- kernel_inv ?x _ => change x with
    (set_scpus (<[me := mk_cpu false rq_init rq_init (Some t) (Some t) 0]> (s_cpus s1)) s1) end.
  assert (t_rsp T <> 0) as HrT.
  { cbn. rewrite Hrsp by done. change SCHED_IDLE_STACK_QWORDS with 512 in *. lia. }
  split; [split|split]; cbn [s_threads s_procs s_env s_proc_list s_proc_lock s_next_pid set_scpus s1]; try done.
  - apply (rep_boot s1 _ cp me c); [|done|done]. by apply (rep_add s _ (s_threads s) cp t T (mk_node (Some t) None None)).
  - by apply wf_boot.
  - pose (P0 := mk_pcb SCHED_IDLE_PID SCHED_IDLE_PID idle_name PROC_IDLE None None (kernel_vas L) 0).
    assert (procs_ok (s_threads s) (<[a := P0]> (s_procs s)) (s_proc_list s)) as Hok0 by (by apply procs_add with (pl := s_proc_list s)).
    pose proof (procs_add_thread _ _ _ t T a P0 Hok0 Htn (lookup_insert_eq _ _ _) eq_refl eq_refl) as Hok1.
    by rewrite insert_insert_eq in Hok1.
  - apply (heap_static _ _ _ t a k); try done; [apply Hlive|apply Hlive|apply Hlive]; set_solver.
Qed.
End boot.
