(* ===== verification/SchedRun.v ===== *)
(** The scheduler as a whole: the timer tick with its reaping, and runs of any
    sequence of calls of [kernel/src/sys/sched.c] on any CPUs. *)
From S2P Require Import Prelude Kenv Dll Rq Context Sched SchedRep SchedInv SchedOps SchedProc SchedTable SchedReap SchedSpawn SchedThread SchedBoot.

Section run.
Context {E V : Type} `{!Heap E} `{!HeapLaws E} `{!VasOps V} (L : layout).
Abbreviation S := (sched E V).
Implicit Types s : S.

(** ** Every operation keeps the whole invariant *)

Lemma reschedules_kernel r i v f v1 cp (s : S) res s' :
  table_ok s -> reschedules r i v f v1 cp s res s' ->
  (forall d, t_next (f d) = t_next d /\ t_parent (f d) = t_parent d /\ t_stack (f d) = t_stack d) ->
  kernel_inv s' (<[i := dispatched v1]> cp).
Proof.
  intros Ht (Hsw & HI & Hk) Hf. split; [done|]. eapply table_ok_kept; [exact Ht|exact Hk|].
  etrans; [by apply same_tree_alter|by eapply switched_tree].
Qed.

Lemma resting_tree v d : t_next (resting v d) = t_next d /\ t_parent (resting v d) = t_parent d /\ t_stack (resting v d) = t_stack d.
Proof. unfold resting. by case_decide. Qed.
Lemma ticked_tree d : t_next (ticked d) = t_next d /\ t_parent (ticked d) = t_parent d /\ t_stack (ticked d) = t_stack d.
Proof. unfold ticked, spend_tick. by case_match. Qed.

(** The view of a CPU after a tick, when its current thread is [d]. *)
Definition after_tick (v : vcpu) (d : tcb) : vcpu :=
  if keeps_running v d then vset Zombies [] v else dispatched (gave_up (vset Zombies [] v)).

(** What a tick does after the reaping left the state [s1]. *)
Definition tick_effect (r : cpu_state) (me : Z) (v : vcpu) (d : tcb) (cp : vcpus) (s1 : S) (res : option resumed) (s' : S)
    : Prop :=
  let v0 := vset Zombies [] v in
  if keeps_running v d then
    res = None /\ s_threads s' = alter ticked (v_current v) (s_threads s1) /\ s_mem s' = s_mem s1
  else
    switched r (v_current v) (next_of (gave_up v0)) (s_mem s1)
      (alter (resting v ∘ ticked) (v_current v) (s_threads s1)) = (res, s_mem s', s_threads s').

Lemma keeps_running_links v d d0 :
  set_tnext None d = set_tnext None d0 -> keeps_running (vset Zombies [] v) d = keeps_running v d0.
Proof.
  intros Hd. unfold keeps_running, SCHED_TICK_EXPIRED, ticked, spend_tick, count_tick.
  injection Hd as ? ? ? E1 ? ? ? ? ? ? ? ? ? ? ? ?. cbn. rewrite E1. by destruct (0 <? t_ticks_left d0).
Qed.

Lemma sched_tick_ok (s : S) cp r me v d :
  kernel_inv s cp -> cp !! me = Some v -> s_threads s !! v_current v = Some d -> stack_room r ->
  exists res s1 s', sched_tick r me s = Ok (res, s') /\
    reaped (v_zombies v) (s_threads s) (s_threads s1) /\ s_mem s1 = s_mem s /\
    tick_effect r me v d cp s1 res s' /\ kernel_inv s' (<[me := after_tick v d]> cp).
Proof.
  intros HK Hv Hd Hroom. pose proof HK as [[Hr W] Ht].
  destruct (sched_reap_cpu_ok me s cp v HK Hv) as (s1 & Hs1 & HK1 & Hm1 & Hre).
  destruct (rep_cpu _ _ _ _ _ Hr Hv) as (c & Hc & _ & Hid & _).
  unfold sched_tick, find_cpu. rewrite gets_bind, Hc, Hid. rewrite decide_False by done.
  rewrite (st_bind_ok _ _ _ _ _ Hs1). pose proof HK1 as [HI1 Ht1].
  assert (v_current v ∉ v_zombies v) as Hcz.
  { intros Hin. destruct (wf_current _ _ _ W me v Hv) as (e & He & Hi).
    apply (wf_zombies _ _ _ W me v _ Hv) in Hin as (e' & He' & _ & Hst).
    assert (t_status e = THREAD_RUNNING) by (apply (wf_running _ _ _ W me v (v_current v) e Hv He Hi); auto). congruence. }
  pose proof (Hre (v_current v)) as Hd1. rewrite decide_False in Hd1 by done. rewrite Hd in Hd1.
  destruct (s_threads s1 !! v_current v) as [d1|] eqn:E1; [|done].
  assert (set_tnext None d1 = set_tnext None d) as Hsame by exact (inj Some _ _ Hd1).
  set (v0 := vset Zombies [] v) in *.
  destruct (tick_locked_ok s1 (<[me := v0]> cp) r me v0 d1) as (res & s' & Ho & Heff); try done; [by rewrite lookup_insert_eq|].
  exists res, s1, s'. split; [done|]. split; [done|]. split; [done|].
  assert (keeps_running v0 d1 = keeps_running v d) as Ek by (apply keeps_running_links; exact Hsame).
  unfold tick_effect, after_tick. rewrite Ek in Heff. destruct (keeps_running v d).
  - destruct Heff as (-> & Hth & Hm & HI' & Hk). split; [split; [done|]|].
    + rewrite (alter_lookup_insert _ _ d1) by exact E1. done.
    + split; [done|]. eapply table_ok_kept; [exact Ht1|exact Hk|]. rewrite Hth.
      change (v_current v0) with (v_current v). rewrite <- (alter_lookup_insert ticked _ d1) by exact E1.
      apply same_tree_alter, ticked_tree.
  - fold v0. split; [by destruct Heff as (Hsw & _)|]. rewrite <- (insert_twice cp me v0 (dispatched (gave_up v0))).
    eapply reschedules_kernel; [exact Ht1|exact Heff|]. intros e.
    destruct (resting_tree v0 (ticked e)) as (H1 & H2 & H3), (ticked_tree e) as (H4 & H5 & H6).
    split_and!; (etrans; [eassumption|done]).
Qed.

(** ** Runs of scheduler calls *)

(** A call into the scheduler, made on some CPU with some registers. *)
Inductive call :=
| CTick | CYield | CReap
| CBlockCurrent
| CBlock (t : Z)
| CWake (t : Z)
| CExit
| CInit
| CSpawnProc (name : list Z) (type : proc_type) (vas : ptr)
| CSpawnThread (name : list Z) (proc : Z) (entry arg : Z).

Definition do_call (me : Z) (r : cpu_state) (k : call) : ST S unit :=
  match k with
  | CTick => sched_tick r me ;; mret tt
  | CYield => sched_yield r me ;; mret tt
  | CReap => sched_reap me
  | CBlockCurrent => thread_block_current None r me ;; mret tt
  | CBlock t => thread_block r me (Some t) ;; mret tt
  | CWake t => thread_wake (Some t)
  | CExit => sched_exit r me ;; mret tt
  | CInit => sched_init L me
  | CSpawnProc name type vas => spawn_proc L me name type vas ;; mret tt
  | CSpawnThread name proc entry arg => spawn_thread L me name (Some proc) entry arg ;; mret tt
  end.

(** What a caller must know: threads and processes it names exist; a thread is
    blocked from outside only while it is neither dead nor running on another
    CPU; the idle thread does not exit; zombies are reaped on a started CPU. *)
Definition call_ok (s : S) (me : Z) (k : call) : Prop :=
  match k with
  | CTick | CYield | CBlockCurrent | CSpawnProc _ _ _ => True
  | CReap => forall c, s_cpus s !! me = Some c -> c_idle c <> None
  | CBlock t => exists d, s_threads s !! t = Some d /\ t_status d <> THREAD_ZOMBIE /\
      (t_status d = THREAD_RUNNING -> t_cpu d = me)
  | CWake t => is_Some (s_threads s !! t)
  | CExit => exists c, s_cpus s !! me = Some c /\ c_current c <> None /\ c_current c <> c_idle c
  | CInit => exists c, s_cpus s !! me = Some c /\ (c_idle c = None -> static_objects L s me) /\
      Z.of_nat (size (s_threads s)) + 1 < 2 ^ 32
  | CSpawnThread _ proc _ _ => is_Some (s_procs s !! proc) /\ Z.of_nat (size (s_threads s)) + 1 < 2 ^ 32 /\ stack_fits s
  end.

Definition returns (me : Z) (r : cpu_state) (k : call) (s : S) : Prop :=
  exists s' cp', do_call me r k s = Ok (tt, s') /\ kernel_inv s' cp'.

Lemma returns_of {A} (o : ST S A) (s s' : S) res : o s = Ok (res, s') -> (o ;; mret tt) s = Ok (tt, s').
Proof. intros Ho. by rewrite (st_bind_ok _ _ _ _ _ Ho). Qed.

Lemma resume_state (s : S) cp me : kernel_inv s cp ->
  match cp !! me with
  | None => forall c, s_cpus s !! me = Some c -> c_idle c = None /\ c_current c = None
  | Some v => exists c d, s_cpus s !! me = Some c /\ c_idle c = Some (v_idle v) /\ c_current c = Some (v_current v) /\
      s_threads s !! v_current v = Some d
  end.
Proof.
  intros [[Hr W] _]. pose proof (rep_cpus _ _ _ Hr me) as Hm. destruct (cp !! me) as [v|] eqn:Hv.
  - destruct (s_cpus s !! me) as [c|]; [|done]. destruct Hm as (_ & ? & ? & _).
    destruct (wf_current _ _ _ W me v Hv) as (d & ? & _). by exists c, d.
  - intros c Hc. rewrite Hc in Hm. done.
Qed.

Lemma tick_returns (s : S) cp me r : kernel_inv s cp -> stack_room r -> returns me r CTick s.
Proof.
  intros HK Hroom. pose proof (resume_state s cp me HK) as Hst. destruct (cp !! me) as [v|] eqn:Hv.
  - destruct Hst as (c & d & _ & _ & _ & Hd).
    destruct (sched_tick_ok s cp r me v d HK Hv Hd Hroom) as (res & s1 & s' & Ho & _ & _ & _ & HK').
    exists s', (<[me := after_tick v d]> cp). split; [by eapply returns_of|done].
  - exists s, cp. split; [|done]. eapply returns_of. unfold sched_tick, find_cpu. rewrite gets_bind.
    destruct (s_cpus s !! me) as [c|] eqn:Hc; [|done]. destruct (Hst c eq_refl) as [-> _]. done.
Qed.

Lemma yield_returns (s : S) cp me r : kernel_inv s cp -> stack_room r -> returns me r CYield s.
Proof.
  intros HK Hroom. pose proof (resume_state s cp me HK) as Hst. pose proof HK as [HI Ht]. destruct (cp !! me) as [v|] eqn:Hv.
  - destruct (sched_yield_ok s cp r me v HI Hv Hroom) as (res & s' & Ho & Heff).
    eexists s', _. split; [by eapply returns_of|]. eapply reschedules_kernel; [done..|]. apply resting_tree.
  - exists s, cp. split; [|done]. eapply returns_of. unfold sched_yield, find_cpu. rewrite gets_bind.
    destruct (s_cpus s !! me) as [c|] eqn:Hc; [|done]. destruct (Hst c eq_refl) as [-> _]. done.
Qed.

Lemma reap_returns (s : S) cp me r : kernel_inv s cp -> call_ok s me CReap -> returns me r CReap s.
Proof.
  intros HK Hok. unfold returns, do_call, sched_reap, find_cpu. rewrite gets_bind.
  pose proof (resume_state s cp me HK) as Hst. cbn in Hok. destruct (cp !! me) as [v|] eqn:Hv.
  - destruct Hst as (c & d & -> & _). destruct (sched_reap_cpu_ok me s cp v HK Hv) as (s' & Ho & HK' & _). eauto.
  - destruct (s_cpus s !! me) as [c|] eqn:Hc; [|eauto]. destruct (Hst c eq_refl) as [Hn _]. by destruct (Hok c eq_refl).
Qed.

Lemma block_current_returns (s : S) cp me r : kernel_inv s cp -> stack_room r -> returns me r CBlockCurrent s.
Proof.
  intros HK Hroom. pose proof (resume_state s cp me HK) as Hst. pose proof HK as [HI Ht].
  assert (thread_block_current None r me s = Ok (None, s) -> returns me r CBlockCurrent s) as Hnone.
  { intros Ho. exists s, cp. split; [by eapply returns_of|done]. }
  destruct (cp !! me) as [v|] eqn:Hv.
  - destruct (decide (v_current v = v_idle v)) as [He|Hne].
    + apply Hnone. destruct Hst as (c & d & Hc & Hid & Hcu & _). unfold thread_block_current, find_cpu.
      rewrite gets_bind, Hc, Hid, Hcu. by rewrite decide_True.
    + destruct (block_current_ok s cp r me v None HI Hv Hne Hroom) as (res & s' & Ho & Heff); [done|].
      eexists s', _. split; [by eapply returns_of|]. by eapply reschedules_kernel.
  - apply Hnone. unfold thread_block_current, find_cpu. rewrite gets_bind.
    destruct (s_cpus s !! me) as [c|] eqn:Hc; [|done]. by destruct (Hst c eq_refl) as [-> _].
Qed.

Lemma block_returns (s : S) cp me r t : kernel_inv s cp -> stack_room r -> call_ok s me (CBlock t) -> returns me r (CBlock t) s.
Proof.
  intros HK Hroom (d & Hd & Hz & Hme). pose proof HK as [HI Ht]. pose proof HI as [Hr W].
  destruct (wf_cpu _ _ _ W t d Hd) as [v Hv]. destruct (decide (t = v_idle v)) as [Hi|Hi].
  - exists s, cp. split; [|done]. eapply returns_of. unfold thread_block. rewrite (st_bind_ok _ _ _ _ _ (get_thread_eq s t d Hd)).
    destruct (rep_cpu _ _ _ _ _ Hr Hv) as (c & Hc & _ & Hid & _). unfold find_cpu. rewrite gets_bind, Hc, Hid.
    by rewrite decide_True by congruence.
  - destruct (thread_block_ok s cp r me t d v HI Hd Hv Hi Hz Hme Hroom) as (res & s' & Ho & Heff).
    exists s'. case_decide.
    + eexists. split; [by eapply returns_of|]. by eapply reschedules_kernel.
    + destruct Heff as (_ & Hth & _ & HI' & Hk). eexists. split; [by eapply returns_of|]. split; [exact HI'|].
      eapply table_ok_kept; [exact Ht|exact Hk|]. rewrite Hth, <- (alter_lookup_insert _ _ _ _ Hd). by apply same_tree_alter.
Qed.

Lemma wake_returns (s : S) cp me r t : kernel_inv s cp -> call_ok s me (CWake t) -> returns me r (CWake t) s.
Proof.
  intros HK [d Hd]. pose proof HK as [HI Ht]. destruct (wf_cpu _ _ _ (proj2 HI) t d Hd) as [v Hv].
  destruct (thread_wake_ok s cp t d v HI Hd Hv) as (s' & Ho & _ & Hk & Heff). exists s'. case_decide.
  - destruct Heff as [Hth HI']. eexists. split; [done|]. split; [exact HI'|].
    eapply table_ok_kept; [exact Ht|exact Hk|]. rewrite Hth, <- (alter_lookup_insert _ _ _ _ Hd). by apply same_tree_alter.
  - destruct Heff as [Hth HI']. eexists. split; [done|]. split; [exact HI'|].
    eapply table_ok_kept; [exact Ht|exact Hk|]. by rewrite Hth.
Qed.

Lemma exit_returns (s : S) cp me r : kernel_inv s cp -> stack_room r -> call_ok s me CExit -> returns me r CExit s.
Proof.
  intros HK Hroom (c & Hc & Hcu & Hne). pose proof (resume_state s cp me HK) as Hst. pose proof HK as [HI Ht].
  destruct (cp !! me) as [v|] eqn:Hv.
  - destruct Hst as (c' & d & Hc' & Hid & Hcu' & _). assert (c' = c) as -> by congruence.
    destruct (sched_exit_ok s cp r me v HI Hv) as (res & s' & Ho & Heff); [congruence|done|].
    eexists s', _. split; [by eapply returns_of|]. by eapply reschedules_kernel.
  - by destruct (Hst c Hc).
Qed.

Lemma init_returns (s : S) cp me r : kernel_inv s cp -> call_ok s me CInit -> returns me r CInit s.
Proof.
  intros HK (c & Hc & Hst & Hsz). destruct (decide (c_idle c = None)) as [Hi|Hi].
  - destruct (sched_init_ok L s cp me c HK Hc Hi (Hst Hi) Hsz) as (s' & Ho & HK'). by exists s', (<[me := fresh_vcpu (idle_threads L me)]> cp).
  - exists s, cp. split; [|done]. cbn. unfold sched_init, find_cpu. rewrite gets_bind, Hc. by rewrite decide_True.
Qed.

(** Every permitted call returns, with the invariant intact. *)
Lemma call_returns (s : S) cp me r k : kernel_inv s cp -> stack_room r -> call_ok s me k -> returns me r k s.
Proof.
  intros HK Hroom Hok. destruct k.
  - by eapply tick_returns.
  - by eapply yield_returns.
  - by eapply reap_returns.
  - by eapply block_current_returns.
  - by eapply block_returns.
  - by eapply wake_returns.
  - by eapply exit_returns.
  - by eapply init_returns.
  - destruct (spawn_proc_ok L s cp me name type vas HK) as (res & s' & Ho & HK' & _).
    exists s', cp. split; [by eapply returns_of|done].
  - destruct Hok as ([p Hp] & Hsz & Hfit).
    destruct (spawn_thread_ok L s cp me name proc p entry arg HK Hp Hsz Hfit) as ([t|] & s' & Ho & Heff).
    + destruct Heff as (i & v & k & rsp & _ & _ & _ & _ & _ & _ & HK'). eexists s', _. split; [by eapply returns_of|exact HK'].
    + destruct Heff as (_ & HK' & _). eexists s', _. split; [by eapply returns_of|exact HK'].
Qed.

(** A sequence of calls, and that each is permitted when it is made. *)
Fixpoint do_calls (ks : list (Z * cpu_state * call)) : ST S unit :=
  match ks with
  | [] => mret tt
  | (me, r, k) :: ks => do_call me r k ;; do_calls ks
  end.
Fixpoint calls_ok (ks : list (Z * cpu_state * call)) (s : S) : Prop :=
  match ks with
  | [] => True
  | (me, r, k) :: ks => stack_room r /\ call_ok s me k /\ forall s', do_call me r k s = Ok (tt, s') -> calls_ok ks s'
  end.

(** What the scheduler promises about the threads in memory. *)
Definition well_scheduled (s : S) : Prop :=
  (forall t d, s_threads s !! t = Some d -> exists c l, s_cpus s !! t_cpu d = Some c /\
     holds (c_rq c) (s_nodes s) (ents l) /\ NoDup l /\ (t ∈ l <-> t_status d = THREAD_RUNNABLE)) /\
  (forall i c l, s_cpus s !! i = Some c -> c_idle c <> None -> holds (c_rq c) (s_nodes s) (ents l) -> forall t, t ∈ l ->
     exists d, s_threads s !! t = Some d /\ t_cpu d = i /\ t_status d = THREAD_RUNNABLE) /\
  (forall i c t, s_cpus s !! i = Some c -> c_current c = Some t -> c_lock c = false /\
     exists d, s_threads s !! t = Some d /\ t_status d = THREAD_RUNNING /\ t_cpu d = i).

Lemma holds_same_list q h l l' : holds q h (ents l) -> holds q h (ents l') -> l = l'.
Proof.
  intros [(Hd & Hh & _) _] [(Hd' & Hh' & _) _]. rewrite ents_fst in *. apply list_eq.
  induction i as [|i IH]; [by rewrite <- !head_lookup, <- Hh, <- Hh'|].
  destruct (l !! i) as [k|] eqn:Hk.
  - symmetry in IH. destruct (linked_at h l i k Hd Hk) as [d Hn], (linked_at h l' i k Hd' IH) as [d' Hn'].
    congruence.
  - symmetry in IH. apply lookup_ge_None in Hk, IH. rewrite !lookup_ge_None_2 by lia. done.
Qed.

Lemma inv_well_scheduled (s : S) cp : kernel_inv s cp -> well_scheduled s.
Proof.
  intros [[Hr W] _]. split_and!.
  - intros t d Hd. destruct (wf_cpu _ _ _ W t d Hd) as [v Hv].
    destruct (rep_cpu _ _ _ _ _ Hr Hv) as (c & Hc & _ & _ & _ & Hh). exists c, (v_ready v).
    split; [done|]. split; [apply (Hh Ready)|]. split; [by apply (rep_nodup _ _ _ _ _ Ready Hr Hv)|].
    rewrite (wf_ready _ _ _ W _ v t Hv). naive_solver.
  - intros i c l Hc Hid Hl t Ht. pose proof (rep_cpus _ _ _ Hr i) as Hi. rewrite Hc in Hi.
    destruct (cp !! i) as [v|] eqn:Hv; [|by destruct Hi]. destruct Hi as (_ & _ & _ & Hh).
    rewrite (holds_same_list _ _ _ _ Hl (Hh Ready)) in Ht. by apply (wf_ready _ _ _ W i v t Hv).
  - intros i c t Hc Hcu. pose proof (rep_cpus _ _ _ Hr i) as Hi. rewrite Hc in Hi.
    destruct (cp !! i) as [v|] eqn:Hv; [|destruct Hi; congruence]. destruct Hi as (-> & _ & Hcu' & _).
    split; [by apply (wf_lock _ _ _ W i v Hv)|]. assert (v_current v = t) as <- by congruence.
    destruct (wf_current _ _ _ W i v Hv) as (d & Hd & Hi). exists d. split; [done|]. split; [|done].
    apply (wf_running _ _ _ W i v (v_current v) d Hv Hd Hi). by right.
Qed.
End run.
