(* ===== verification/SchedFair.v ===== *)
(** How long a ready thread waits, and the named theorems on the scheduler of
    [kernel/src/sys/sched.c]. *)
From S2P Require Import Prelude Kenv Dll Rq Context Sched SchedRep SchedInv SchedOps SchedProc SchedTable SchedReap SchedSpawn SchedThread SchedBoot SchedRun.

Section fair.
Context {E V : Type} `{!Heap E} `{!HeapLaws E} `{!VasOps V}.
Abbreviation S := (sched E V).
Implicit Types s : S.

(** Timer ticks of CPU [me], each with the registers it interrupts. *)
Fixpoint do_ticks (me : Z) (rs : list cpu_state) : ST S unit :=
  match rs with
  | [] => mret tt
  | r :: rs => sched_tick r me ;; do_ticks me rs
  end.

(** Ticks until the CPU leaves its current thread [d], when others are ready. *)
Definition quantum_left (v : vcpu) (d : tcb) : nat :=
  if idling v then 1%nat else Z.to_nat (Z.max 1 (t_ticks_left d)).

Lemma spent_ticks d : 0 <= t_ticks_left d -> t_ticks_left (ticked d) = Z.max 0 (t_ticks_left d - 1).
Proof.
  intros Hd. unfold ticked, spend_tick, count_tick. cbn.
  destruct (Z.ltb_spec 0 (t_ticks_left d)); cbn; lia.
Qed.

Lemma switched_ticks r cur next m th res m' th' d' :
  switched r cur next m th = (res, m', th') -> th' !! next = Some d' -> t_ticks_left d' = SCHED_QUANTUM_TICKS.
Proof.
  unfold switched. intros Hsw Hn. case_decide as He.
  - injection Hsw as _ _ <-. subst. rewrite lookup_alter_eq in Hn.
    destruct (th !! cur); cbn in Hn; [|done]. injection Hn as <-. done.
  - destruct (context_save r m) as [rsp m1]. injection Hsw as _ _ <-.
    rewrite lookup_alter_ne in Hn by congruence. rewrite lookup_alter_eq in Hn.
    destruct (th !! next); cbn in Hn; [|done]. injection Hn as <-. done.
Qed.

Lemma current_not_zombie (s : S) cp me v : sched_inv s cp -> cp !! me = Some v -> v_current v ∉ v_zombies v.
Proof.
  intros [_ W] Hv Hin. destruct (wf_current _ _ _ W me v Hv) as (e & He & Hi).
  apply (wf_zombies _ _ _ W me v _ Hv) in Hin as (e' & He' & _ & Hst).
  assert (t_status e = THREAD_RUNNING) by (apply (wf_running _ _ _ W me v (v_current v) e Hv He Hi); auto). congruence.
Qed.

Lemma keeps_running_ready v d x l : v_ready v = x :: l -> 0 <= t_ticks_left d ->
  keeps_running v d = negb (idling v) && (1 <? t_ticks_left d).
Proof.
  intros Hl Hd. unfold keeps_running, SCHED_TICK_EXPIRED. rewrite (spent_ticks d Hd), Hl.
  rewrite bool_decide_eq_false_2, orb_false_r by done. rewrite andb_comm. f_equal.
  destruct (Z.eqb_spec (Z.max 0 (t_ticks_left d - 1)) 0), (Z.ltb_spec 1 (t_ticks_left d)); cbn; lia.
Qed.

(** One tick of a CPU with ready threads: the current thread stays with one
    tick less, or the head of the queue runs with a full quantum. *)
Lemma tick_step (s : S) cp r me v d x l :
  kernel_inv s cp -> cp !! me = Some v -> s_threads s !! v_current v = Some d -> 0 <= t_ticks_left d ->
  v_ready v = x :: l -> stack_room r ->
  exists res s' v' d', sched_tick r me s = Ok (res, s') /\ kernel_inv s' (<[me := v']> cp) /\
    s_threads s' !! v_current v' = Some d' /\ v_idle v' = v_idle v /\
    if (negb (idling v) && (1 <? t_ticks_left d))
    then v_current v' = v_current v /\ v_ready v' = x :: l /\ t_ticks_left d' = t_ticks_left d - 1
    else v_current v' = x /\ t_ticks_left d' = SCHED_QUANTUM_TICKS /\
      v_ready v' = l ++ (if idling v then [] else [v_current v]).
Proof.
  intros HK Hv Hd Htk Hl Hroom. destruct (sched_tick_ok s cp r me v d HK Hv Hd Hroom) as (res & s1 & s' & Ho & Hre & Hm & Heff & HK').
  pose proof HK as [[Hr W] _]. exists res, s', (after_tick v d).
  pose proof HK' as [[_ W'] _].
  assert (exists d', s_threads s' !! v_current (after_tick v d) = Some d') as [d' Hd'].
  { destruct (wf_current _ _ _ W' me (after_tick v d)) as (d' & Hd' & _); [by rewrite lookup_insert_eq|eauto]. }
  exists d'. split; [done|]. split; [done|]. split; [done|].
  unfold tick_effect in Heff. unfold after_tick in *. rewrite (keeps_running_ready v d x l Hl Htk) in *.
  destruct (negb (idling v) && (1 <? t_ticks_left d)) eqn:Ek; (split; [done||by unfold gave_up; case_decide|]).
  - split; [done|]. split; [done|]. destruct Heff as (_ & Hth & _). cbn in Hd'. rewrite Hth, lookup_alter_eq in Hd'.
    pose proof (Hre (v_current v)) as H1. rewrite decide_False in H1 by (by eapply current_not_zombie; [apply HK|]).
    rewrite Hd in H1. destruct (s_threads s1 !! v_current v) as [d1|]; cbn in Hd', H1; [|done].
    injection Hd' as <-. injection H1 as ? ? ? E1 ? ? ? ? ? ? ? ? ? ? ? ?.
    apply andb_true_iff in Ek as [_ Ek%Z.ltb_lt]. rewrite spent_ticks; lia.
  - pose proof (switched_ticks _ _ _ _ _ _ _ _ d' Heff Hd') as Hq. split; [|split; [exact Hq|]].
    + unfold gave_up. case_decide; cbn; unfold next_of; cbn; by rewrite Hl.
    + unfold gave_up, idling. case_decide as He; cbn; rewrite Hl; cbn.
      * rewrite bool_decide_eq_true_2 by done. by rewrite app_nil_r.
      * by rewrite bool_decide_eq_false_2.
Qed.

Lemma ready_not_idle (s : S) cp me v t : sched_inv s cp -> cp !! me = Some v -> t ∈ v_ready v -> t <> v_idle v.
Proof.
  intros [_ W] Hv (d & Hd & Hi & Hst)%(wf_ready _ _ _ W me v t Hv) ->.
  pose proof (wf_idle_running _ _ _ W me v d Hv Hd). congruence.
Qed.

Lemma ticks_ok me t l2 : forall rs (s : S) cp v d l1,
  kernel_inv s cp -> cp !! me = Some v -> s_threads s !! v_current v = Some d -> 0 <= t_ticks_left d ->
  v_ready v = l1 ++ t :: l2 -> Forall stack_room rs -> length rs = (quantum_left v d + 2 * length l1)%nat ->
  exists s' cp' v', do_ticks me rs s = Ok (tt, s') /\ kernel_inv s' cp' /\ cp' !! me = Some v' /\ v_current v' = t.
Proof.
  intros rs. revert l2. induction rs as [|r rs IH]; intros l2 s cp v d l1 HK Hv Hd Htk Hl Hroom Hlen.
  { exfalso. unfold quantum_left in Hlen. cbn in Hlen. destruct (idling v); lia. }
  apply Forall_cons in Hroom as [Hr Hroom]. cbn [length] in Hlen.
  destruct l1 as [|x l1]; cbn [app] in Hl.
  - destruct (tick_step s cp r me v d t l2 HK Hv Hd Htk Hl Hr) as (res & s' & v' & d' & Ho & HK' & Hd' & Hidle & Hcase).
    cbn [do_ticks]. rewrite (st_bind_ok _ _ _ _ _ Ho).
    destruct (negb (idling v) && (1 <? t_ticks_left d)) eqn:Ek.
    + destruct Hcase as (Hc & Hrd & Hq). apply andb_true_iff in Ek as [Eid%negb_true_iff Ek%Z.ltb_lt].
      assert (idling v' = idling v) as Eid' by (unfold idling; by rewrite Hc, Hidle).
      apply (IH l2 s' (<[me := v']> cp) v' d' []); try done; try lia; [by rewrite lookup_insert_eq|].
      unfold quantum_left in *. rewrite Eid' , Eid in *. cbn in *. lia.
    + destruct Hcase as (Hc & _). assert (rs = []) as ->.
      { destruct rs; [done|]. exfalso. unfold quantum_left in Hlen. cbn in Hlen.
        destruct (idling v); cbn in Ek; [lia|]. apply Z.ltb_ge in Ek. lia. }
      exists s', (<[me := v']> cp), v'. by rewrite lookup_insert_eq.
  - destruct (tick_step s cp r me v d x (l1 ++ t :: l2) HK Hv Hd Htk Hl Hr)
      as (res & s' & v' & d' & Ho & HK' & Hd' & Hidle & Hcase).
    cbn [do_ticks]. rewrite (st_bind_ok _ _ _ _ _ Ho).
    destruct (negb (idling v) && (1 <? t_ticks_left d)) eqn:Ek.
    + destruct Hcase as (Hc & Hrd & Hq). apply andb_true_iff in Ek as [Eid%negb_true_iff Ek%Z.ltb_lt].
      assert (idling v' = idling v) as Eid' by (unfold idling; by rewrite Hc, Hidle).
      apply (IH l2 s' (<[me := v']> cp) v' d' (x :: l1)); try done; try lia; [by rewrite lookup_insert_eq|].
      unfold quantum_left in *. rewrite Eid', Eid in *. cbn in *. lia.
    + destruct Hcase as (Hc & Hq & Hrd). rewrite <- app_assoc in Hrd.
      assert (idling v' = false) as Eid.
      { apply bool_decide_eq_false_2. rewrite Hc, Hidle. eapply ready_not_idle; [apply HK|done|]. rewrite Hl. left. }
      eapply (IH _ s' (<[me := v']> cp) v' d' l1); try done; [by rewrite lookup_insert_eq|by rewrite Hq|].
      unfold quantum_left in *. rewrite Eid, Hq. unfold SCHED_QUANTUM_TICKS. cbn in *.
      destruct (idling v); cbn in Ek; [lia|]. apply Z.ltb_ge in Ek. lia.
Qed.
End fair.

(** ** The theorems on the scheduler *)

Section theorems.
Context {E V : Type} `{!Heap E} `{!HeapLaws E} `{!VasOps V} (L : layout).
Abbreviation S := (sched E V).

Lemma calls_safe ks : forall (s : S) cp, kernel_inv s cp -> calls_ok L ks s ->
  exists s' cp', do_calls L ks s = Ok (tt, s') /\ kernel_inv s' cp'.
Proof.
  induction ks as [|[[me r] k] ks IH]; intros s cp HK Hok; [by exists s, cp|].
  destruct Hok as (Hroom & Hok & Hrest). destruct (call_returns L s cp me r k HK Hroom Hok) as (s1 & cp1 & Ho & HK1).
  destruct (IH s1 cp1 HK1 (Hrest s1 Ho)) as (s' & cp' & Ho' & HK').
  exists s', cp'. split; [|done]. cbn [do_calls]. by rewrite (st_bind_ok _ _ _ _ _ Ho).
Qed.


(** C17: preemption is fair. A thread at position [length l1] of the ready queue
    of a CPU is the current thread after exactly the ticks that are left to the
    current one (a single tick when the CPU idles) and one quantum for each
    thread before it, whatever the threads do with their registers. *)
Theorem sched_tick_fair me (s : S) cp v d l1 t l2 rs :
  kernel_inv s cp -> cp !! me = Some v -> s_threads s !! v_current v = Some d -> 0 <= t_ticks_left d ->
  v_ready v = l1 ++ t :: l2 -> Forall stack_room rs ->
  Z.of_nat (length rs) = Z.of_nat (quantum_left v d) + SCHED_QUANTUM_TICKS * Z.of_nat (length l1) ->
  exists s' c, do_ticks me rs s = Ok (tt, s') /\ s_cpus s' !! me = Some c /\ c_current c = Some t.
Proof.
  intros HK Hv Hd Htk Hl Hroom Hlen.
  destruct (ticks_ok me t l2 rs s cp v d l1 HK Hv Hd Htk Hl Hroom) as (s' & cp' & v' & Ho & HK' & Hv' & Hc).
  { unfold SCHED_QUANTUM_TICKS in Hlen. lia. }
  destruct HK' as [[Hr _] _]. destruct (rep_cpu _ _ _ _ _ Hr Hv') as (c & Hcpu & _ & _ & Hcu & _).
  exists s', c. split; [done|]. split; [done|]. congruence.
Qed.

(** C18: yielding is round robin. [sched_yield] puts the current thread, unless
    it is the idle thread, at the end of the ready queue and runs the head of
    the queue, which may be the same thread; it returns to its caller exactly
    then, and otherwise saves the caller's registers on its stack and resumes
    the next thread from the stack pointer that was saved for it. *)
Theorem sched_yield_round_robin (s : S) cp r me v :
  sched_inv s cp -> cp !! me = Some v -> stack_room r ->
  let queue := if decide (v_current v = v_idle v) then v_ready v else v_ready v ++ [v_current v] in
  let next := default (v_idle v) (head queue) in
  exists res s', sched_yield r me s = Ok (res, s') /\ rest_kept s s' /\
    sched_inv s' (<[me := mk_vcpu false (tail queue) (v_zombies v) (v_idle v) next]> cp) /\
    if decide (next = v_current v) then res = None /\ s_mem s' = s_mem s
    else exists n, s_threads s !! next = Some n /\ s_mem s' = (context_save r (s_mem s)).2 /\
      t_rsp <$> s_threads s' !! v_current v = Some (context_save r (s_mem s)).1 /\
      res = Some (context_load r (t_rsp n) (s_mem s')).
Proof.
  intros HI Hv Hroom queue next. pose proof HI as [Hr W].
  destruct (sched_yield_ok s cp r me v HI Hv Hroom) as (res & s' & Ho & Hsw & HI' & Hk).
  exists res, s'. split; [done|]. split; [done|].
  assert (next_of (gave_up v) = next /\ dispatched (gave_up v) = mk_vcpu false (tail queue) (v_zombies v) (v_idle v) next)
    as [En Ed] by (unfold gave_up, dispatched, next, queue, next_of; by case_decide).
  rewrite Ed in HI'. split; [exact HI'|]. rewrite En in Hsw. unfold switched in Hsw. case_decide as Hnc.
  { split; congruence. }
  destruct (context_save r (s_mem s)) as [rsp m'] eqn:Hs. injection Hsw as <- <- Hth.
  assert (exists d, s_threads s !! v_current v = Some d) as [d Hd].
  { destruct (wf_current _ _ _ W me v Hv) as (d & Hd & _). eauto. }
  assert (exists n, s_threads s !! next = Some n) as [n Hn].
  { destruct HI' as [_ W']. destruct (wf_current _ _ _ W' me (mk_vcpu false (tail queue) (v_zombies v) (v_idle v) next))
      as (n' & Hn' & _); [by rewrite lookup_insert_eq|]. cbn in Hn'. rewrite <- Hth in Hn'.
    rewrite lookup_alter_ne, lookup_alter_eq, lookup_alter_ne in Hn' by congruence.
    destruct (s_threads s !! next); [eauto|done]. }
  exists n. split; [done|]. split; [done|]. split.
  - rewrite <- Hth, lookup_alter_eq, lookup_alter_ne, lookup_alter_eq, Hd by done. done.
  - rewrite lookup_alter_ne, Hn by congruence. done.
Qed.

(** Blocking and waking. Blocking a ready thread takes it out of the queue
    of its CPU wherever it stands; waking it later puts it back at the end, as
    runnable with a full quantum; no other thread changes, and waking a thread
    that is not blocked does nothing. *)
Theorem thread_block_wake (s : S) cp r me t d v :
  sched_inv s cp -> s_threads s !! t = Some d -> t_status d = THREAD_RUNNABLE -> cp !! t_cpu d = Some v -> stack_room r ->
  exists s1 s2, thread_block r me (Some t) s = Ok (None, s1) /\
    s_threads s1 = <[t := set_status THREAD_BLOCKED d]> (s_threads s) /\
    sched_inv s1 (<[t_cpu d := vset Ready (without t (v_ready v)) v]> cp) /\
    thread_wake (Some t) s1 = Ok (tt, s2) /\
    s_threads s2 = <[t := make_runnable d]> (s_threads s) /\
    sched_inv s2 (<[t_cpu d := vset Ready (without t (v_ready v) ++ [t]) v]> cp) /\ rest_kept s s2 /\ s_mem s2 = s_mem s /\
    exists s3, thread_wake (Some t) s2 = Ok (tt, s3) /\ s_threads s3 = s_threads s2 /\
      sched_inv s3 (<[t_cpu d := vset Ready (without t (v_ready v) ++ [t]) v]> cp).
Proof.
  intros HI Hd Hst Hv Hroom. pose proof HI as [Hr W].
  assert (t <> v_idle v) as Hid.
  { eapply ready_not_idle; [exact HI|exact Hv|]. apply (wf_ready _ _ _ W _ v t Hv). eauto. }
  destruct (thread_block_ok s cp r me t d v HI Hd Hv Hid) as (res & s1 & Ho1 & Heff); [congruence|congruence|done|].
  rewrite decide_False in Heff by congruence. destruct Heff as (-> & Hth1 & Hm1 & HI1 & Hk1).
  set (v1 := vset Ready (without t (v_ready v)) v) in *.
  destruct (thread_wake_ok s1 (<[t_cpu d := v1]> cp) t (set_status THREAD_BLOCKED d) v1 HI1) as (s2 & Ho2 & Hm2 & Hk2 & Heff2);
    [by rewrite Hth1, lookup_insert_eq|by cbn; rewrite lookup_insert_eq|].
  cbn [t_status set_status t_cpu] in Heff2. rewrite decide_True in Heff2 by done. destruct Heff2 as [Hth2 HI2].
  rewrite Hth1, insert_insert_eq in Hth2. rewrite insert_insert_eq in HI2.
  destruct (thread_wake_ok s2 _ t (make_runnable d) (vset Ready (without t (v_ready v) ++ [t]) v) HI2) as (s3 & Ho3 & _ & _ & Heff3);
    [by rewrite Hth2, lookup_insert_eq|by cbn; rewrite lookup_insert_eq|].
  rewrite decide_False in Heff3 by done. destruct Heff3 as [Hth3 HI3].
  exists s1, s2. split_and!; try done; [by etrans|congruence|by exists s3].
Qed.

(** C19: the allocation of process ids ends, after at most 65535 rounds, and
    only moves the counter. It gives the first id, counting on cyclically from
    the counter, that no process of the table has, and leaves the counter past
    it; it gives the invalid id exactly when all 65535 are taken. *)
Theorem sched_alloc_pid_spec (s : S) :
  table_ok s ->
  exists pid next, sched_alloc_pid s = Ok (pid, set_next_pid next s) /\
    ((exists k, 0 <= k < SCHED_PID_MAX /\ pid = cyclic (s_next_pid s) k /\ ~ pid_taken (s_procs s) pid /\
        (forall i, 0 <= i < k -> pid_taken (s_procs s) (cyclic (s_next_pid s) i)) /\
        next = cyclic (s_next_pid s) (k + 1)) \/
     (pid = SCHED_INVALID_PID /\ next = s_next_pid s /\
        forall x, SCHED_PID_MIN <= x <= SCHED_PID_MAX -> pid_taken (s_procs s) x)).
Proof.
  intros [Hok _ _ Hnx]. destruct (po_list _ _ _ Hok) as (ls & Hs & Hin).
  destruct (alloc_pid_ok s ls Hs Hnx) as (pid & next & Ho & Hspec). exists pid, next. split; [done|].
  destruct Hspec as [(k & Hk & -> & Hu & Hall & ->)|(-> & Hall & ->)].
  - left. exists k. split; [done|]. split; [done|]. split; [|split; [|done]].
    + rewrite <- (pid_used_taken _ ls _ Hin). by rewrite Hu.
    + intros i Hi. apply (pid_used_taken _ ls _ Hin). by apply Hall.
  - right. split; [done|]. split; [done|]. intros x Hx. apply (pid_used_taken _ ls _ Hin). by apply Hall.
Qed.

(** C20: [spawn_proc] returns on every path with the scheduler's invariant
    intact. It either adds one process, under an id that no other has (the idle
    id for an idle process), with the parent's id, the truncated name and an
    address space; or, when memory, ids or the address space run out, it gives
    null, and the table, its list and the heap are as before, with the lock
    free. *)
Theorem spawn_proc_spec (s : S) cp me name type vas :
  kernel_inv s cp ->
  exists res s', spawn_proc L me name type vas s = Ok (res, s') /\ kernel_inv s' cp /\ threads_kept s s' /\
    proc_spawned me name type vas cp s res s'.
Proof. by apply spawn_proc_ok. Qed.

(** [spawn_thread] either adds one thread to the process, with a stack that
    starts it in the trampoline, and queues it last on a CPU with the least
    load; or it refuses, for one of the listed reasons, and leaves the threads,
    the processes and the heap as they were. *)
Theorem spawn_thread_spec (s : S) cp me name a p entry arg :
  kernel_inv s cp -> s_procs s !! a = Some p -> Z.of_nat (size (s_threads s)) + 1 < 2 ^ 32 -> stack_fits s ->
  exists res s', spawn_thread L me name (Some a) entry arg s = Ok (res, s') /\
    thread_spawned L me name a p entry arg cp s res s'.
Proof. by apply spawn_thread_ok. Qed.
End theorems.
