(* ===== verification/SchedDemo.v ===== *)
(** A concrete run of the scheduler of [kernel/src/sys/sched.c]: two CPUs are
    started, three threads share them. The named theorems are applied to states
    of this run, and one call outside the permitted ones is shown to break a
    run queue. *)
From S2P Require Import Prelude Kenv Dll Rq Context Sched SchedRep SchedInv SchedOps SchedProc SchedTable SchedReap SchedSpawn SchedThread SchedBoot SchedRun SchedFair.

#[local] Instance demo_vas : VasOps unit := {| vas_create := fun v => (Some 4096, v); vas_destroy := fun _ v => v |}.
Definition demo_layout : layout :=
  mk_layout (fun i => 100 + i) (fun i => 200 + i) (fun i => 10000 + 8192 * i) 77 78 (Some 5).
Definition off_cpu : cpu := mk_cpu false rq_init rq_init None None 0.
Definition boot_state : sched bump unit :=
  mk_sched (mk_bump 50000 20 {[200; 201; 100; 101; 10000; 18192]} 0) tt ∅
    ∅ ∅ ∅ {[0 := off_cpu; 1 := off_cpu]} None false 1 1.

(** Two idle CPUs, a process, three threads; ticks and a yield; a thread blocks
    and is woken from the other CPU; one exits and is reaped. *)
Definition demo_calls : list (Z * cpu_state * call) :=
  [(0, demo_cpu, CInit); (1, demo_cpu, CInit); (0, demo_cpu, CSpawnProc [112] PROC_KERNEL None);
   (0, demo_cpu, CSpawnThread [97] 50000 5 0); (0, demo_cpu, CSpawnThread [98] 50000 5 1);
   (0, demo_cpu, CSpawnThread [99] 50000 6 2); (0, demo_cpu, CTick); (1, demo_cpu, CTick); (0, demo_cpu, CYield);
   (0, demo_cpu, CBlockCurrent); (1, demo_cpu, CWake 50005); (0, demo_cpu, CTick); (0, demo_cpu, CTick);
   (0, demo_cpu, CExit); (0, demo_cpu, CTick); (0, demo_cpu, CReap)].

Definition demo_after (n : nat) : sched bump unit :=
  match do_calls demo_layout (take n demo_calls) boot_state with Ok (_, s) => s | _ => boot_state end.

(** ** The invariant at the start *)

Ltac empty H := exact (False_ind _ (lookup_empty_Some _ _ H)).

Lemma boot_inv : kernel_inv boot_state ∅.
Proof.
  split; [split; split|split].
  - reflexivity.
  - intros t [d Hd]. empty Hd.
  - intros i. rewrite lookup_empty. cbn. destruct (decide (i = 0)) as [->|]; [done|].
    rewrite lookup_insert_ne by done. destruct (decide (i = 1)) as [->|]; [done|]. by rewrite lookup_singleton_ne.
  - intros i j v w x y t Hv. empty Hv.
  - intros i v x t Hv. empty Hv.
  - vm_compute. reflexivity.
  - intros i v Hv. empty Hv.
  - intros i v t Hv. empty Hv.
  - intros i v t Hv. empty Hv.
  - intros i v t d Hv. empty Hv.
  - intros i v Hv. empty Hv.
  - intros i v Hv. empty Hv.
  - intros t d Hd. empty Hd.
  - intros t d Hd. empty Hd.
  - split.
    + exists []. split; [apply slist_nil|]. intros a. split; [by intros ?%elem_of_nil|].
      intros (p & Hp & _). empty Hp.
    + intros a b p q Hp. empty Hp.
    + intros a p Hp. empty Hp.
    + intros a p Hp. empty Hp.
    + intros t d Hd. empty Hd.
  - split.
    + intros t d Hd. empty Hd.
    + intros a p Hp. empty Hp.
    + intros t d Hd. empty Hd.
    + intros t u d e Hd. empty Hd.
  - reflexivity.
  - vm_compute. split; discriminate.
Qed.

Lemma calls_ok_step me r k ks (s s1 : sched bump unit) :
  stack_room r -> call_ok demo_layout s me k -> do_call demo_layout me r k s = Ok (tt, s1) ->
  calls_ok demo_layout ks s1 -> calls_ok demo_layout ((me, r, k) :: ks) s.
Proof.
  intros Hr Hk Ho Hks. split; [done|]. split; [done|]. intros s' Hs'.
  rewrite Ho in Hs'. by apply (f_equal (fun o => match o with Ok (_, x) => x | _ => s1 end)) in Hs' as <-.
Qed.

Lemma demo_room : stack_room demo_cpu.
Proof. vm_compute. split; reflexivity. Qed.

(** A step of the run from [demo_after n], with its condition decided. *)
Ltac demo_step n tac :=
  eapply (calls_ok_step _ _ _ _ _ (demo_after n)); [exact demo_room|tac|vm_compute; reflexivity|].

(** No thread and no process has one of the addresses. *)
Definition unowned (s : sched bump unit) (x : Z) : bool :=
  bool_decide (s_threads s !! x = None) && bool_decide (s_procs s !! x = None) &&
  forallb (fun e : Z * tcb => bool_decide (t_stack e.2 <> Some x)) (map_to_list (s_threads s)).

Lemma unowned_ok s x : unowned s x = true -> ~ owned (s_threads s) (s_procs s) x.
Proof.
  unfold unowned. rewrite !andb_true_iff. intros [[H1%bool_decide_eq_true H2%bool_decide_eq_true] H3].
  intros [[d Hd]|[[p Hp]|(t & d & Hd & Hst)]]; [congruence|congruence|].
  rewrite forallb_forall in H3. specialize (H3 (t, d)). rewrite <- list_elem_of_In in H3.
  apply elem_of_map_to_list in Hd. specialize (H3 Hd). by apply bool_decide_eq_true in H3.
Qed.

Lemma static_ok s me :
  let xs := [idle_threads demo_layout me; idle_procs demo_layout me; idle_stacks demo_layout me] in
  forallb (fun x => bool_decide (x ∈ env_live (s_env s)) && unowned s x) xs = true -> bool_decide (NoDup xs) = true ->
  (0 <? idle_stacks demo_layout me) && (idle_stacks demo_layout me + 8 * SCHED_IDLE_STACK_QWORDS <? 2 ^ 64 - 8) = true ->
  static_objects demo_layout s me.
Proof.
  intros xs Hxs Hnd Hst. rewrite forallb_forall in Hxs. setoid_rewrite <- list_elem_of_In in Hxs.
  split.
  - intros x Hx. specialize (Hxs x Hx). apply andb_true_iff in Hxs as [Hxs _]. by apply bool_decide_eq_true in Hxs.
  - intros x Hx. specialize (Hxs x Hx). apply andb_true_iff in Hxs as [_ Hxs]. by apply unowned_ok.
  - by apply bool_decide_eq_true in Hnd.
  - apply andb_true_iff in Hst as [H1%Z.ltb_lt H2%Z.ltb_lt]. done.
Qed.

Ltac start := eexists; split; [vm_compute; reflexivity|]; split;
  [intros _; apply static_ok; vm_compute; reflexivity|vm_compute; reflexivity].
Ltac fits := intros t1 e1 k1 e2 H1 H2; vm_compute in H1;
  apply (f_equal snd) in H1 as H3; cbn [snd] in H3; subst e1; vm_compute in H2;
  apply (f_equal fst) in H2; cbn [fst] in H2; apply (inj Some) in H2; subst k1; vm_compute; split; reflexivity.
Ltac thread := split; [eexists; vm_compute; reflexivity|split; [vm_compute; reflexivity|fits]].

Lemma demo_calls_ok : calls_ok demo_layout demo_calls boot_state.
Proof.
  unfold demo_calls.
  demo_step 1%nat start. demo_step 2%nat start. demo_step 3%nat ltac:(exact I).
  demo_step 4%nat thread. demo_step 5%nat thread. demo_step 6%nat thread.
  demo_step 7%nat ltac:(exact I). demo_step 8%nat ltac:(exact I). demo_step 9%nat ltac:(exact I).
  demo_step 10%nat ltac:(exact I).
  demo_step 11%nat ltac:(eexists; vm_compute; reflexivity).
  demo_step 12%nat ltac:(exact I). demo_step 13%nat ltac:(exact I).
  demo_step 14%nat ltac:(eexists; split; [vm_compute; reflexivity|split; discriminate]).
  demo_step 15%nat ltac:(exact I).
  demo_step 16%nat ltac:(intros c Hc; vm_compute in Hc; apply (inj Some) in Hc; subst c; discriminate).
  exact I.
Qed.

(** ** The theorems at states of the run *)

Lemma calls_ok_take ks : forall n (s : sched bump unit), calls_ok demo_layout ks s -> calls_ok demo_layout (take n ks) s.
Proof.
  induction ks as [|[[me r] k] ks IH]; intros [|n] s Hok; cbn [take calls_ok] in *; [done..|].
  destruct Hok as (? & ? & Hrest). split; [done|]. split; [done|]. intros s' Hs'. by apply IH, Hrest.
Qed.

Lemma demo_inv n : exists cp, kernel_inv (demo_after n) cp.
Proof.
  destruct (calls_safe demo_layout (take n demo_calls) boot_state ∅ boot_inv) as (s & cp & Ho & HK);
    [apply calls_ok_take, demo_calls_ok|].
  exists cp. unfold demo_after. by rewrite Ho.
Qed.

(** The list a run queue holds, read from memory. *)
Fixpoint walk (fuel : nat) (h : store) (p : ptr) : list Z :=
  match fuel, p with
  | Datatypes.S fuel, Some k => k :: walk fuel h (h !! k ≫= nd_next)
  | _, _ => []
  end.

Lemma walk_from q h l : rq_rep q h l -> forall fuel i, (length l < fuel + i)%nat -> walk fuel h (l !! i) = drop i l.
Proof.
  intros (Hd & _). induction fuel as [|fuel IH]; intros i Hf.
  - rewrite drop_ge by lia. done.
  - cbn [walk]. destruct (l !! i) as [k|] eqn:Hk; [|apply lookup_ge_None in Hk; by rewrite drop_ge].
    destruct (linked_at h l i k Hd Hk) as [d ->]. cbn. rewrite (drop_S _ _ _ Hk), IH by lia. done.
Qed.

Definition queue_list (x : which) (s : sched bump unit) (i : Z) : list Z :=
  match s_cpus s !! i with
  | Some c => walk (Datatypes.S (size (s_nodes s))) (s_nodes s) (rq_head (queue_of x c))
  | None => []
  end.

Lemma demo_view n i c idle : s_cpus (demo_after n) !! i = Some c -> c_idle c = Some idle ->
  exists cp v, kernel_inv (demo_after n) cp /\ cp !! i = Some v /\ v_idle v = idle /\
    c_current c = Some (v_current v) /\ forall x, vlist x v = queue_list x (demo_after n) i.
Proof.
  intros Hc Hid. destruct (demo_inv n) as [cp HK]. pose proof HK as [[Hr W] _]. exists cp.
  pose proof (rep_cpus _ _ _ Hr i) as Hi. rewrite Hc in Hi. destruct (cp !! i) as [v|] eqn:Hv; [|destruct Hi; congruence].
  destruct Hi as (_ & Hid' & Hcu & Hh). exists v. split; [done|]. split; [done|]. split; [congruence|]. split; [done|].
  intros x. unfold queue_list. rewrite Hc. destruct (Hh x) as [Hrep _]. rewrite ents_fst in Hrep.
  pose proof Hrep as (_ & -> & _). rewrite head_lookup. rewrite (walk_from _ _ _ Hrep); [done|].
  pose proof (fuel_enough _ _ _ _ _ x Hr Hv) as Hf. unfold ents in Hf. rewrite length_fmap in Hf. lia.
Qed.


(** After six calls CPU 0 idles with two ready threads: the second one runs
    after one tick and one quantum. *)
Lemma sched_tick_fair_witness :
  exists s' c, do_ticks 0 [demo_cpu; demo_cpu; demo_cpu] (demo_after 6) = Ok (tt, s') /\
    s_cpus s' !! 0 = Some c /\ c_current c = Some 50005.
Proof.
  destruct (s_cpus (demo_after 6) !! 0) as [c|] eqn:Hc; [|vm_compute in Hc; discriminate].
  destruct (demo_view 6 0 c 200 Hc) as (cp & v & HK & Hv & Hid & Hcu & Hq).
  { vm_compute in Hc. apply (inj Some) in Hc. subst c. reflexivity. }
  assert (v_current v = 200) as E1.
  { vm_compute in Hc. apply (inj Some) in Hc. subst c. symmetry. exact (inj Some _ _ Hcu). }
  assert (v_ready v = [50001; 50005]) as E2 by (exact (eq_trans (Hq Ready) eq_refl)).
  destruct (s_threads (demo_after 6) !! 200) as [d|] eqn:Hd; [|vm_compute in Hd; discriminate].
  eapply (sched_tick_fair 0 (demo_after 6) cp v d [50001] 50005 [] [demo_cpu; demo_cpu; demo_cpu] HK Hv).
  - rewrite E1. exact Hd.
  - vm_compute in Hd. apply (inj Some) in Hd. subst d. discriminate.
  - exact E2.
  - repeat constructor; vm_compute; reflexivity.
  - unfold quantum_left, idling. rewrite E1, Hid. reflexivity.
Defined.

(** After eight calls thread 50001 runs on CPU 0 and 50005 is ready. *)
Lemma sched_yield_round_robin_witness :
  exists s' c, (exists res, sched_yield demo_cpu 0 (demo_after 8) = Ok (res, s') /\ res <> None) /\
    s_cpus s' !! 0 = Some c /\ c_current c = Some 50005.
Proof.
  destruct (s_cpus (demo_after 8) !! 0) as [c|] eqn:Hc; [|vm_compute in Hc; discriminate].
  destruct (demo_view 8 0 c 200 Hc) as (cp & v & [HI _] & Hv & Hid & Hcu & Hq).
  { vm_compute in Hc. apply (inj Some) in Hc. subst c. reflexivity. }
  assert (v_current v = 50001) as E1.
  { vm_compute in Hc. apply (inj Some) in Hc. subst c. symmetry. exact (inj Some _ _ Hcu). }
  assert (v_ready v = [50005]) as E2 by (exact (eq_trans (Hq Ready) eq_refl)).
  destruct (sched_yield_round_robin (demo_after 8) cp demo_cpu 0 v HI Hv demo_room) as (res & s' & Ho & _ & HI' & Hres).
  rewrite E1, Hid, E2 in HI', Hres. cbn in HI', Hres. destruct Hres as (n & _ & _ & _ & Hres).
  destruct HI' as [Hr _]. destruct (rep_cpu _ _ _ 0 _ Hr (lookup_insert_eq _ _ _)) as (c' & Hc' & _ & _ & Hcu' & _).
  exists s', c'. split; [exists res; split; [exact Ho|rewrite Hres; discriminate]|]. split; [exact Hc'|exact Hcu'].
Defined.

(** Thread 50005, ready on CPU 0, is blocked and woken from CPU 1. *)
Lemma thread_block_wake_witness :
  exists s1 s2, thread_block demo_cpu 1 (Some 50005) (demo_after 8) = Ok (None, s1) /\
    thread_wake (Some 50005) s1 = Ok (tt, s2) /\ t_status <$> s_threads s1 !! 50005 = Some THREAD_BLOCKED /\
    t_status <$> s_threads s2 !! 50005 = Some THREAD_RUNNABLE.
Proof.
  destruct (s_cpus (demo_after 8) !! 0) as [c|] eqn:Hc; [|vm_compute in Hc; discriminate].
  destruct (demo_view 8 0 c 200 Hc) as (cp & v & [HI _] & Hv & Hid & Hcu & Hq).
  { vm_compute in Hc. apply (inj Some) in Hc. subst c. reflexivity. }
  destruct (s_threads (demo_after 8) !! 50005) as [d|] eqn:Hd; [|vm_compute in Hd; discriminate].
  assert (t_status d = THREAD_RUNNABLE /\ t_cpu d = 0) as [Hst Hcpu].
  { vm_compute in Hd. apply (inj Some) in Hd. subst d. split; reflexivity. }
  destruct (thread_block_wake (demo_after 8) cp demo_cpu 1 50005 d v HI Hd Hst) as (s1 & s2 & Ho1 & E1 & _ & Ho2 & E2 & _);
    [rewrite Hcpu; exact Hv|exact demo_room|].
  exists s1, s2. split; [exact Ho1|]. split; [exact Ho2|]. rewrite E1, E2, !lookup_insert_eq. split; reflexivity.
Defined.

Lemma sched_alloc_pid_spec_witness :
  exists next, sched_alloc_pid (demo_after 3) = Ok (2, set_next_pid next (demo_after 3)).
Proof.
  destruct (demo_inv 3) as (cp & _ & Ht).
  destruct (sched_alloc_pid_spec (demo_after 3) Ht) as (pid & next & Ho & _). exists next.
  assert (pid = 2) as <-; [|exact Ho]. vm_compute in Ho.
  apply (f_equal (fun o => match o with Ok (x, _) => x | _ => 0 end)) in Ho. symmetry. exact Ho.
Defined.

Lemma spawn_proc_spec_witness :
  exists a s' p, spawn_proc demo_layout 0 [113] PROC_USER None (demo_after 9) = Ok (Some a, s') /\
    s_procs s' = <[a := p]> (s_procs (demo_after 9)) /\ p_type p = PROC_USER /\ ~ pid_taken (s_procs (demo_after 9)) (p_pid p).
Proof.
  destruct (demo_inv 9) as (cp & HK).
  destruct (spawn_proc_spec demo_layout (demo_after 9) cp 0 [113] PROC_USER None HK) as (res & s' & Ho & _ & _ & Hp).
  destruct res as [a|]; [|vm_compute in Ho; discriminate].
  destruct Hp as (_ & _ & p & Hp & Hty & _ & _ & _ & _ & _ & _ & _ & Hpid). exists a, s', p.
  split; [exact Ho|]. split; [exact Hp|]. split; [exact Hty|exact Hpid].
Defined.

Lemma spawn_thread_spec_witness :
  exists t s', spawn_thread demo_layout 0 [100] (Some 50000) 5 9 (demo_after 9) = Ok (Some t, s') /\
    exists i, picked (demo_after 9) 0 i /\ t_cpu <$> s_threads s' !! t = Some i.
Proof.
  destruct (demo_inv 9) as (cp & HK).
  destruct (s_procs (demo_after 9) !! 50000) as [p|] eqn:Hp; [|vm_compute in Hp; discriminate].
  destruct (spawn_thread_spec demo_layout (demo_after 9) cp 0 [100] 50000 p 5 9 HK Hp) as (res & s' & Ho & Heff);
    [vm_compute; reflexivity|fits|].
  destruct res as [t|]; [|vm_compute in Ho; discriminate]. exists t, s'. split; [exact Ho|].
  destruct Heff as (i & v & k & rsp & _ & Hpick & _ & _ & Hth & _). exists i. split; [exact Hpick|].
  rewrite Hth, lookup_insert_eq. reflexivity.
Defined.

(** ** A call outside the permitted ones *)

(** Thread 50003 runs on CPU 1; CPU 0 blocks and wakes it, and CPU 1 yields. *)
Definition remote_block_run : ST (sched bump unit) unit :=
  do_call demo_layout 0 demo_cpu (CBlock 50003) ;; do_call demo_layout 0 demo_cpu (CWake 50003) ;;
  do_call demo_layout 1 demo_cpu CYield.

Definition remote_broken : sched bump unit :=
  match remote_block_run (demo_after 8) with Ok (_, s) => s | _ => boot_state end.

(** The head of a queue that represents a list is the list's first element. *)
Lemma queue_head_listed q h l t : holds q h (ents l) -> rq_head q = Some t -> t ∈ l.
Proof.
  intros [(_ & Hh & _) _] Hq. rewrite ents_fst, Hq in Hh. apply list_elem_of_lookup. exists 0%nat.
  by rewrite <- head_lookup.
Qed.

Lemma remote_broken_queue :
  remote_block_run (demo_after 8) = Ok (tt, remote_broken) /\
  ((fun c => rq_head (c_rq c)) <$> s_cpus remote_broken !! 1 = Some (Some 50003)) /\
  (c_current <$> s_cpus remote_broken !! 1 = Some (Some 50003)) /\
  queue_list Ready remote_broken 1 = [50003] /\
  (t_status <$> s_threads remote_broken !! 50003 = Some THREAD_RUNNING) /\
  (t_cpu <$> s_threads remote_broken !! 50003 = Some 1).
Proof. split_and!; vm_compute; reflexivity. Qed.

(** [thread_block] of a thread that runs on another CPU breaks the run
    queue of that CPU. The thread goes on running as blocked; waking it queues
    the running thread, and when it yields it is pushed while it is queued
    already: the current thread of the CPU stays in the ready queue. *)
Theorem thread_block_remote_breaks :
  exists s', remote_block_run (demo_after 8) = Ok (tt, s') /\ ~ well_scheduled s' /\
    c_current <$> s_cpus s' !! 1 = Some (Some 50003) /\ queue_list Ready s' 1 = [50003] /\
    t_status <$> s_threads s' !! 50003 = Some THREAD_RUNNING.
Proof.
  destruct remote_broken_queue as (Hrun & Hhead & Hcur & Hlist & Hst & Hcpu). exists remote_broken.
  split; [exact Hrun|]. split; [|split; [exact Hcur|split; [exact Hlist|exact Hst]]].
  revert Hhead Hst Hcpu. generalize remote_broken as s. intros s Hhead Hst Hcpu (Hready & _).
  destruct (s_threads s !! 50003) as [d|] eqn:Hd; [|discriminate]. injection Hst as Hst. injection Hcpu as Hcpu.
  destruct (Hready 50003 d Hd) as (c & l & Hc & Hl & _ & Hin). rewrite Hcpu in Hc. rewrite Hc in Hhead.
  injection Hhead as Hhead. pose proof (queue_head_listed _ _ _ _ Hl Hhead) as Ht. apply Hin in Ht. congruence.
Qed.
