(* ===== verification/Mutex.v ===== *)
(** Sleeping locks, [kernel/src/lib/mutex.c] and [lib/mutex.h], over the
    scheduler. Mutexes are a store by address; the wait node of a thread is the
    node of the store [m_wait] at the thread's address. Both are kept beside the
    heap in the part of the scheduler's state that it does not look into.

    A call that puts the thread to sleep ends, for its CPU, with the switch to
    another thread; the code after it is [mutex_lock_resumed], which runs when
    the thread is dispatched again. Spinning on a guard that is held is
    [Timeout]. *)
From S2P Require Import Prelude Kenv Rq Context Sched.

Record mutex := mk_mutex { guard : bool; owner : ptr; waiters : rq }.
Record menv (E : Type) := mk_menv { m_heap : E; m_mutexes : gmap Z mutex; m_wait : store }.
Arguments mk_menv {E}. Arguments m_heap {E}. Arguments m_mutexes {E}. Arguments m_wait {E}.

Definition MUTEX_INIT : mutex := mk_mutex false None rq_init.
Definition set_guard (b : bool) (x : mutex) : mutex := mk_mutex b (owner x) (waiters x).
Definition set_owner (o : ptr) (x : mutex) : mutex := mk_mutex (guard x) o (waiters x).
Definition set_waiters (q : rq) (x : mutex) : mutex := mk_mutex (guard x) (owner x) q.

(** The heap of the scheduler is the heap part. *)
#[export] Instance menv_heap {E} `{!Heap E} : Heap (menv E) := {|
  env_live := fun e => env_live (m_heap e);
  env_alloc := fun n e => let '(r, h) := env_alloc n (m_heap e) in (r, mk_menv h (m_mutexes e) (m_wait e));
  env_free := fun a e => mk_menv (env_free a (m_heap e)) (m_mutexes e) (m_wait e) |}.
#[export] Instance menv_laws {E} `{!Heap E} `{!HeapLaws E} : HeapLaws (menv E).
Proof.
  split; cbn.
  - intros n e a e'. destruct (env_alloc n (m_heap e)) as [r h] eqn:Ha. intros [= -> <-]. cbn. by eapply env_alloc_some.
  - intros n e e'. destruct (env_alloc n (m_heap e)) as [r h] eqn:Ha. intros [= -> <-]. cbn. by eapply env_alloc_none.
  - intros a e. apply env_free_live.
Qed.

Section mutex.
Context {E V : Type}.
Abbreviation S := (sched (menv E) V).
Abbreviation M := (ST (sched (menv E) V)).

Definition set_mutexes (x : gmap Z mutex) (e : menv E) : menv E := mk_menv (m_heap e) x (m_wait e).
Definition set_wait (h : store) (e : menv E) : menv E := mk_menv (m_heap e) (m_mutexes e) h.
Definition on_env (f : menv E -> menv E) : M unit := modify (fun s => set_senv (f (s_env s)) s).

Definition get_mutex (m : Z) : M mutex := fun s =>
  match m_mutexes (s_env s) !! m with Some x => Ok (x, s) | None => Fault end.
Definition upd_mutex (m : Z) (f : mutex -> mutex) : M unit :=
  x ← get_mutex m; on_env (fun e => set_mutexes (<[m := f x]> (m_mutexes e)) e).

(** [spinlock_lock(&mutex->guard)] and [spinlock_unlock(&mutex->guard)] *)
Definition guard_lock (m : Z) : M unit :=
  x ← get_mutex m; if guard x then st_timeout else upd_mutex m (set_guard true).
Definition guard_unlock (m : Z) : M unit := upd_mutex m (set_guard false).
Definition mutex_release_guard : Z -> M unit := guard_unlock.

Definition on_waiters {A} (m : Z) (f : rq -> store -> outcome (A * rq * store)) : M A :=
  x ← get_mutex m;
  h ← gets (fun s => m_wait (s_env s));
  r ← st_lift (f (waiters x) h);
  upd_mutex m (set_waiters r.1.2) ;;
  on_env (set_wait r.2) ;;
  mret r.1.1.
Definition wait_fuel : M nat := gets (fun s => Datatypes.S (size (m_wait (s_env s)))).

(** [mutex] is never null below: the code returns at once when it is. *)
Definition unless_null {A} (mutex : ptr) (a : A) (f : Z -> M A) : M A :=
  match mutex with None => mret a | Some m => f m end.

Definition mutex_init (mutex : ptr) : M unit :=
  unless_null mutex tt (fun m =>
    on_env (fun e => set_mutexes (<[m := MUTEX_INIT]> (m_mutexes e)) e)).

Definition mutex_try_lock (me : Z) (mutex : ptr) : M bool :=
  unless_null mutex false (fun m =>
    current ← sched_current me;
    match current with
    | None => st_panic
    | Some _ =>
        guard_lock m ;;
        x ← get_mutex m;
        acquired ← (if decide (owner x = None) then upd_mutex m (set_owner current) ;; mret true else mret false);
        guard_unlock m ;;
        mret acquired
    end).

(** One round of the loop, to the acquisition or to the call that sleeps:
    [Slept None] when that call came back at once. *)
Inductive round := Acquired | Slept (r : option resumed).
Definition mutex_lock_round (r : cpu_state) (me m current : Z) : M round :=
  guard_lock m ;;
  x ← get_mutex m;
  if decide (owner x = None) then
    upd_mutex m (set_owner (Some current)) ;;
    guard_unlock m ;;
    mret Acquired
  else if decide (owner x = Some current) then
    guard_unlock m ;;
    st_panic
  else
    fuel ← wait_fuel;
    queued ← on_waiters m (fun q h => b ← rq_contains fuel q h (Some current); Ok (b, q, h));
    (if negb queued then
       on_waiters m (fun q h => p ← rq_push_back q h current (Some current); Ok (tt, p.1, p.2))
     else mret tt) ;;
    res ← thread_block_current (Some (mutex_release_guard m)) r me;
    mret (Slept res).

(** [Some r]: the CPU went to another thread, that resumes at [r]. *)
Fixpoint mutex_lock_loop (fuel : nat) (r : cpu_state) (me m current : Z) : M (option resumed) :=
  match fuel with
  | O => st_timeout
  | Datatypes.S fuel =>
      a ← mutex_lock_round r me m current;
      match a with
      | Acquired => mret None
      | Slept (Some res) => mret (Some res)
      | Slept None =>
          x ← get_mutex m;
          if decide (owner x = Some current) then mret None else mutex_lock_loop fuel r me m current
      end
  end.
(** After the switch back. *)
Definition mutex_lock_resumed (fuel : nat) (r : cpu_state) (me m current : Z) : M (option resumed) :=
  x ← get_mutex m;
  if decide (owner x = Some current) then mret None else mutex_lock_loop fuel r me m current.

Definition mutex_lock (fuel : nat) (r : cpu_state) (me : Z) (mutex : ptr) : M (option resumed) :=
  unless_null mutex None (fun m =>
    current ← sched_current me;
    match current with
    | None => st_panic
    | Some current => mutex_lock_loop fuel r me m current
    end).

(** The part of [mutex_unlock] under the guard: the thread to wake. *)
Definition mutex_hand_over (m : Z) (current : ptr) : M ptr :=
  guard_lock m ;;
  x ← get_mutex m;
  if negb (bool_decide (owner x = current)) then guard_unlock m ;; st_panic else
  next ← on_waiters m rq_pop_front;
  (match next with
   | Some _ => upd_mutex m (set_owner next)
   | None => upd_mutex m (set_owner None)
   end) ;;
  guard_unlock m ;;
  mret next.
Definition mutex_unlock (me : Z) (mutex : ptr) : M unit :=
  unless_null mutex tt (fun m =>
    current ← sched_current me;
    match current with
    | None => st_panic
    | Some _ =>
        next ← mutex_hand_over m current;
        match next with Some _ => thread_wake next | None => mret tt end
    end).

Definition mutex_is_locked (mutex : ptr) : M bool :=
  unless_null mutex false (fun m =>
    guard_lock m ;;
    x ← get_mutex m;
    guard_unlock m ;;
    mret (bool_decide (owner x <> None))).
End mutex.
