(* ===== verification/MutexSpec.v ===== *)
(** What the operations of a mutex do. A mutex is its guard, its owner and the
    threads that wait, in order; each operation is stated on these, and the part
    that sleeps on the CPUs of the scheduler as well. *)
From S2P Require Import Prelude Kenv Dll Rq Context Sched SchedRep SchedInv SchedOps Mutex.

Record mview := mk_mview { w_guard : bool; w_owner : ptr; w_queue : list Z }.
Abbreviation mviews := (gmap Z mview).

Definition queue_at (ws : mviews) (m : Z) : list Z := from_option w_queue [] (ws !! m).

(** The mutexes in memory are these; a thread waits for at most one. *)
Record mrep {E} (e : menv E) (ws : mviews) : Prop := {
  mr_view m : match m_mutexes e !! m, ws !! m with
    | Some x, Some w => guard x = w_guard w /\ owner x = w_owner w /\ holds (waiters x) (m_wait e) (ents (w_queue w))
    | None, None => True
    | _, _ => False
    end;
  mr_once m n t : t ∈ queue_at ws m -> t ∈ queue_at ws n -> m = n;
  mr_size : Z.of_nat (size (m_wait e)) < 2 ^ 64 }.

Definition env_kept {E} (e e' : menv E) : Prop := m_heap e' = m_heap e /\ dom (m_wait e') = dom (m_wait e).
#[export] Instance env_kept_preorder {E} : PreOrder (@env_kept E).
Proof. split; [by intros e|]. intros e1 e2 e3 [H1 H2] [H3 H4]. split; congruence. Qed.

Section ops.
Context {E V : Type}.
Abbreviation S := (sched (menv E) V).
Implicit Types s : S.

(** An operation that returns [a], takes the mutexes from [ws] to [ws'] and
    touches nothing else. *)
Definition mstep {A} (o : ST S A) (ws : mviews) (a : A) (ws' : mviews) : Prop :=
  forall s, mrep (s_env s) ws -> exists e', o s = Ok (a, set_senv e' s) /\ mrep e' ws' /\ env_kept (s_env s) e'.

Lemma set_senv_id s : set_senv (s_env s) s = s.
Proof. by destruct s. Qed.

Lemma mstep_ret {A} ws (a : A) : mstep (mret a) ws a ws.
Proof. intros s Hr. exists (s_env s). by rewrite set_senv_id. Qed.
Lemma mstep_bind {A B} (o : ST S A) (f : A -> ST S B) ws a ws1 b ws2 :
  mstep o ws a ws1 -> mstep (f a) ws1 b ws2 -> mstep (o ≫= f) ws b ws2.
Proof.
  intros Ho Hf s Hr. destruct (Ho s Hr) as (e1 & E1 & R1 & K1). destruct (Hf (set_senv e1 s) R1) as (e2 & E2 & R2 & K2).
  exists e2. rewrite (st_bind_ok _ _ _ _ _ E1). split; [exact E2|]. split; [done|]. by etrans.
Qed.

Lemma view_of e ws m w : mrep (E := E) e ws -> ws !! m = Some w ->
  exists x, m_mutexes e !! m = Some x /\ guard x = w_guard w /\ owner x = w_owner w /\
    holds (waiters x) (m_wait e) (ents (w_queue w)).
Proof. intros Hr Hw. pose proof (mr_view _ _ Hr m) as Hm. rewrite Hw in Hm. destruct (m_mutexes e !! m) as [x|]; [by exists x|done]. Qed.

Lemma mstep_get {B} (f : mutex -> ST S B) ws m w b ws' : ws !! m = Some w ->
  (forall x, guard x = w_guard w -> owner x = w_owner w -> mstep (f x) ws b ws') -> mstep (get_mutex m ≫= f) ws b ws'.
Proof.
  intros Hw Hf s Hr. destruct (view_of _ _ _ _ Hr Hw) as (x & Hx & Hg & Ho & _).
  destruct (Hf x Hg Ho s Hr) as (e' & E' & R' & K'). exists e'. erewrite st_bind_ok; [done|]. unfold get_mutex. by rewrite Hx.
Qed.

(** Replacing the record of one mutex and the nodes of its queue. *)
Lemma mrep_set e ws m x' w' h' :
  mrep (E := E) e ws -> is_Some (ws !! m) -> dom h' = dom (m_wait e) ->
  guard x' = w_guard w' -> owner x' = w_owner w' -> holds (waiters x') h' (ents (w_queue w')) ->
  (forall n k, n <> m -> k ∈ queue_at ws n -> h' !! k = m_wait e !! k) ->
  (forall n k, n <> m -> k ∈ w_queue w' -> k ∉ queue_at ws n) ->
  mrep (mk_menv (m_heap e) (<[m := x']> (m_mutexes e)) h') (<[m := w']> ws).
Proof.
  intros Hr Hm Hdom Hg Ho Hh Hfr Hnew.
  assert (forall n, queue_at (<[m := w']> ws) n = if decide (n = m) then w_queue w' else queue_at ws n) as Hq.
  { intros n. unfold queue_at. destruct (decide (n = m)) as [->|]; [by rewrite lookup_insert_eq|by rewrite lookup_insert_ne]. }
  split; cbn [m_mutexes m_wait].
  - intros n. destruct (decide (n = m)) as [->|Hn]; [by rewrite !lookup_insert_eq|].
    rewrite !lookup_insert_ne by done. pose proof (mr_view _ _ Hr n) as Hv.
    destruct (m_mutexes e !! n) as [x|], (ws !! n) as [w|] eqn:Ew; try done. destruct Hv as (? & ? & Hv). split_and!; try done.
    eapply holds_frame; [|exact Hv]. rewrite ents_fst. intros k Hk. apply (Hfr n); [done|]. unfold queue_at. by rewrite Ew.
  - intros n1 n2 t. rewrite !Hq. repeat case_decide; subst; try done.
    + intros H1 H2. by destruct (Hnew n2 t).
    + intros H1 H2. by destruct (Hnew n1 t).
    + by apply (mr_once _ _ Hr).
  - rewrite <- (size_dom (D := gset Z)), Hdom, size_dom. apply (mr_size _ _ Hr).
Qed.

Lemma upd_step ws m w f w' : ws !! m = Some w ->
  (forall x, guard x = w_guard w -> owner x = w_owner w -> guard (f x) = w_guard w' /\ owner (f x) = w_owner w') ->
  (forall x, waiters (f x) = waiters x) -> w_queue w' = w_queue w ->
  mstep (upd_mutex m f) ws tt (<[m := w']> ws).
Proof.
  intros Hw Hf Hq Hl s Hr. destruct (view_of _ _ _ _ Hr Hw) as (x & Hx & Hg & Ho & Hh).
  exists (set_mutexes (<[m := f x]> (m_mutexes (s_env s))) (s_env s)). split; [|split; [|done]].
  - unfold upd_mutex. erewrite st_bind_ok; [done|]. unfold get_mutex. by rewrite Hx.
  - destruct (Hf x Hg Ho) as [Hg' Ho']. unfold set_mutexes. eapply mrep_set; [done|by exists w|done..| | |].
    + by rewrite Hq, Hl.
    + done.
    + intros n k Hn Hk Hk'. rewrite Hl in Hk. apply Hn. apply (mr_once _ _ Hr n m k Hk'). unfold queue_at. by rewrite Hw.
Qed.

Lemma guard_lock_step ws m o l : ws !! m = Some (mk_mview false o l) ->
  mstep (guard_lock m) ws tt (<[m := mk_mview true o l]> ws).
Proof.
  intros Hw. eapply mstep_get; [exact Hw|]. intros x Hg Ho. cbn in Hg. rewrite Hg. by eapply upd_step; [exact Hw|..].
Qed.
Lemma guard_unlock_step ws m b o l : ws !! m = Some (mk_mview b o l) ->
  mstep (guard_unlock m) ws tt (<[m := mk_mview false o l]> ws).
Proof. intros Hw. by eapply upd_step; [exact Hw|..]. Qed.
Lemma set_owner_step ws m b o l o' : ws !! m = Some (mk_mview b o l) ->
  mstep (upd_mutex m (set_owner o')) ws tt (<[m := mk_mview b o' l]> ws).
Proof. intros Hw. by eapply upd_step; [exact Hw|..]. Qed.

(** The same from one state. *)
Definition step_at {A} (o : ST S A) s (a : A) (ws' : mviews) : Prop :=
  exists e', o s = Ok (a, set_senv e' s) /\ mrep e' ws' /\ env_kept (s_env s) e'.
Lemma bind_at {A B} (o : ST S A) (f : A -> ST S B) s a ws1 b ws2 :
  step_at o s a ws1 -> (forall e1, mrep e1 ws1 -> env_kept (s_env s) e1 -> step_at (f a) (set_senv e1 s) b ws2) ->
  step_at (o ≫= f) s b ws2.
Proof.
  intros (e1 & E1 & R1 & K1) Hf. destruct (Hf e1 R1 K1) as (e2 & E2 & R2 & K2).
  exists e2. rewrite (st_bind_ok _ _ _ _ _ E1). split; [exact E2|]. split; [done|]. by etrans.
Qed.

(** A run from one state with any result. *)
Definition ends {A} (o : ST S A) s (Q : A -> S -> Prop) : Prop := exists a s', o s = Ok (a, s') /\ Q a s'.
Lemma ends_bind {A B} (o : ST S A) (f : A -> ST S B) s a ws1 Q :
  step_at o s a ws1 -> (forall e1, mrep e1 ws1 -> env_kept (s_env s) e1 -> ends (f a) (set_senv e1 s) Q) -> ends (o ≫= f) s Q.
Proof.
  intros (e1 & E1 & R1 & K1) Hf. destruct (Hf e1 R1 K1) as (b & s' & E2 & HQ).
  exists b, s'. by rewrite (st_bind_ok _ _ _ _ _ E1).
Qed.
Lemma step_of {A} (o : ST S A) s ws a ws' : mstep o ws a ws' -> mrep (s_env s) ws -> step_at o s a ws'.
Proof. intros Ho Hr. by apply Ho. Qed.
Lemma ends_get {B} (f : mutex -> ST S B) s ws m w Q : mrep (s_env s) ws -> ws !! m = Some w ->
  (forall x, guard x = w_guard w -> owner x = w_owner w -> ends (f x) s Q) -> ends (get_mutex m ≫= f) s Q.
Proof.
  intros Hr Hw Hf. destruct (view_of _ _ _ _ Hr Hw) as (x & Hx & Hg & Ho & _). destruct (Hf x Hg Ho) as (b & s' & E' & HQ).
  exists b, s'. split; [|done]. erewrite st_bind_ok; [done|]. unfold get_mutex. by rewrite Hx.
Qed.

(** Running a queue operation. *)
Lemma on_waiters_at {A} (f : rq -> store -> outcome (A * rq * store)) s ws m b o l l' a (new : ptr) :
  mrep (s_env s) ws -> ws !! m = Some (mk_mview b o l) ->
  (forall q, holds q (m_wait (s_env s)) (ents l) -> exists q' h', f q (m_wait (s_env s)) = Ok (a, q', h') /\
     dom h' = dom (m_wait (s_env s)) /\ holds q' h' (ents l') /\
     forall k, k ∉ l -> new <> Some k -> h' !! k = m_wait (s_env s) !! k) ->
  (forall k, k ∈ l' -> k ∈ l \/ new = Some k) -> (forall t n, new = Some t -> n <> m -> t ∉ queue_at ws n) ->
  step_at (on_waiters m f) s a (<[m := mk_mview b o l']> ws).
Proof.
  intros Hr Hw Hf Hl Hnew. destruct (view_of _ _ _ _ Hr Hw) as (x & Hx & Hg & Ho & Hh).
  destruct (Hf (waiters x) Hh) as (q' & h' & Hq & Hdom & Hh' & Hfr).
  assert (forall n k, n <> m -> k ∈ queue_at ws n -> k ∉ l) as Hno.
  { intros n k Hn Hk Hk'. apply Hn. apply (mr_once _ _ Hr n m k Hk). unfold queue_at. by rewrite Hw. }
  exists (mk_menv (m_heap (s_env s)) (<[m := set_waiters q' x]> (m_mutexes (s_env s))) h'). split; [|split; [|by split]].
  - unfold on_waiters. erewrite st_bind_ok; [|unfold get_mutex; by rewrite Hx]. rewrite gets_bind.
    rewrite (lift_bind _ _ _ _ Hq). unfold upd_mutex. rewrite bind_assoc.
    erewrite st_bind_ok; [|unfold get_mutex; by rewrite Hx]. done.
  - eapply mrep_set; try done.
    + intros n k Hn Hk. apply Hfr; [by eapply Hno|]. intros He. exact (Hnew k n He Hn Hk).
    + intros n k Hn Hk Hk'. destruct (Hl k Hk) as [Hin|He]; [exact (Hno n k Hn Hk' Hin)|exact (Hnew k n He Hn Hk')].
Qed.

Lemma ents_length l : length (ents l) = length l.
Proof. unfold ents. apply length_fmap. Qed.

Lemma holds_queue_nodes q h l t : holds q h (ents l) -> t ∈ l -> is_Some (h !! t).
Proof.
  intros [_ Hf] Ht. rewrite Forall_forall in Hf. specialize (Hf (t, Some t)). cbn in Hf.
  destruct (h !! t); [done|]. discriminate Hf. apply list_elem_of_fmap. by exists t.
Qed.
Lemma holds_nodup q h l : holds q h (ents l) -> NoDup l.
Proof. intros [[[Hn _] _] _]. by rewrite ents_fst in Hn. Qed.

Lemma queue_size h (l : list Z) : NoDup l -> (forall t : Z, t ∈ l -> is_Some (h !! t)) -> (length l <= size (h : store))%nat.
Proof.
  intros Hn Hl. pose proof (size_list_to_set (C := gset Z) l Hn) as <-. rewrite <- (size_dom (D := gset Z) h).
  apply subseteq_size. intros t Ht%elem_of_list_to_set. apply elem_of_dom. auto.
Qed.


Lemma queue_fits s ws m b o l : mrep (s_env s) ws -> ws !! m = Some (mk_mview b o l) ->
  NoDup l /\ (forall t, t ∈ l -> is_Some (m_wait (s_env s) !! t)) /\ (length l <= size (m_wait (s_env s)))%nat.
Proof.
  intros Hr Hw. destruct (view_of _ _ _ _ Hr Hw) as (x & _ & _ & _ & Hh). cbn in Hh.
  pose proof (holds_nodup _ _ _ Hh) as Hn. pose proof (fun t => holds_queue_nodes _ _ _ t Hh) as Hin.
  split; [done|]. split; [done|]. by apply queue_size.
Qed.

Lemma queued_ends {B} (f : bool -> ST S B) s ws m b o l t Q : mrep (s_env s) ws -> ws !! m = Some (mk_mview b o l) ->
  (forall e1, mrep e1 ws -> env_kept (s_env s) e1 -> ends (f (bool_decide (t ∈ l))) (set_senv e1 s) Q) ->
  ends (fuel ← wait_fuel;
    queued ← on_waiters m (fun q h => b ← rq_contains fuel q h (Some t); Ok (b, q, h)); f queued) s Q.
Proof.
  intros Hr Hw Hf. destruct (queue_fits _ _ _ _ _ _ Hr Hw) as (_ & _ & Hl).
  unfold ends, wait_fuel. rewrite gets_bind. apply (ends_bind _ f s (bool_decide (t ∈ l)) ws Q); [|done].
  rewrite <- (insert_id ws m _ Hw). apply (on_waiters_at _ _ _ _ _ _ l l _ None); try done; [|by left].
  intros q Hh. exists q, (m_wait (s_env s)). split_and!; try done.
  destruct (contains_refines (Datatypes.S (size (m_wait (s_env s)))) q (m_wait (s_env s)) (ents l) (Some t) Hh)
    as (q' & h' & Hx & _); [rewrite ents_length; lia|]. cbn [rq_exec spec_exec fst] in Hx.
  destruct (rq_contains _ q (m_wait (s_env s)) (Some t)) as [b'| | |]; cbn in Hx; try done.
  injection Hx as -> _ _. cbn. do 3 f_equal. apply bool_decide_ext, in_ents.
Qed.

Lemma push_at s ws m b o l t : mrep (s_env s) ws -> ws !! m = Some (mk_mview b o l) -> is_Some (m_wait (s_env s) !! t) ->
  (forall n, t ∉ queue_at ws n) ->
  step_at (on_waiters m (fun q h => p ← rq_push_back q h t (Some t); Ok (tt, p.1, p.2))) s tt
    (<[m := mk_mview b o (l ++ [t])]> ws).
Proof.
  intros Hr Hw Ht Hno. destruct (queue_fits _ _ _ _ _ _ Hr Hw) as (Hn & Hin & _).
  assert (t ∉ l) as Htl by (specialize (Hno m); unfold queue_at in Hno; by rewrite Hw in Hno).
  apply (on_waiters_at _ _ _ _ _ _ l (l ++ [t]) _ (Some t)); try done.
  - intros q Hh.
    destruct (push_back_refines 0 q (m_wait (s_env s)) (ents l) t (Some t) Hh) as (q' & h' & Hx & Hh' & Hfr).
    { split; [done|]. rewrite ents_fst, ents_length. split; [done|].
      assert (length (t :: l) <= size (m_wait (s_env s)))%nat as Hs.
      { apply queue_size; [by constructor|]. intros k [->|Hk]%elem_of_cons; auto. }
      pose proof (mr_size _ _ Hr). cbn in Hs. lia. }
    pose proof (rq_exec_dom _ _ _ _ _ Hx) as Hdom. cbn [rq_exec spec_exec fst snd] in *.
    exists q', h'. destruct (rq_push_back q (m_wait (s_env s)) t (Some t)) as [[q1 h1]| | |]; cbn in Hx; try done.
    injection Hx as -> ->. split_and!; try done.
    + unfold ents. rewrite fmap_app. exact Hh'.
    + intros k Hk He. apply Hfr; [by rewrite ents_fst|done].
  - intros k [?|Hk]%elem_of_app; [by left|]. apply list_elem_of_singleton in Hk as ->. by right.
  - intros k n [= ->] _. apply Hno.
Qed.

Lemma pop_at s ws m b o l : mrep (s_env s) ws -> ws !! m = Some (mk_mview b o l) ->
  step_at (on_waiters m rq_pop_front) s (head l) (<[m := mk_mview b o (tail l)]> ws).
Proof.
  intros Hr Hw. apply (on_waiters_at _ _ _ _ _ _ l (tail l) _ None); try done.
  - intros q Hh. destruct (pop_front_refines 0 q (m_wait (s_env s)) (ents l) Hh) as (q' & h' & Hx & Hh' & Hfr).
    pose proof (rq_exec_dom _ _ _ _ _ Hx) as Hdom. cbn [rq_exec spec_exec fst snd] in *.
    exists q', h'. destruct (rq_pop_front q (m_wait (s_env s))) as [[[d q1] h1]| | |]; cbn in Hx; try done.
    injection Hx as Hd -> ->. cbn [fst snd] in *. split_and!; try done.
    + assert (d = head (ents l) ≫= snd) as -> by done. by destruct l.
    + by destruct l.
    + intros k Hk _. apply Hfr; [by rewrite ents_fst|done].
  - intros k Hk. left. destruct l; [done|by right].
Qed.

(** ** The operations *)

(** Between operations no guard is held, and the threads that wait are not the
    owner, who exists when there are any. *)
Definition at_rest (ws : mviews) : Prop := forall m w, ws !! m = Some w ->
  w_guard w = false /\ (w_owner w = None -> w_queue w = []) /\ (forall t, w_owner w = Some t -> t ∉ w_queue w).
Definition enqueue (t : Z) (l : list Z) : list Z := if decide (t ∈ l) then l else l ++ [t].

Lemma hand_over_step ws m t l : ws !! m = Some (mk_mview false (Some t) l) ->
  forall s, mrep (s_env s) ws -> step_at (mutex_hand_over m (Some t)) s (head l) (<[m := mk_mview false (head l) (tail l)]> ws).
Proof.
  intros Hw s Hr. unfold mutex_hand_over. eapply bind_at; [by apply (step_of _ _ ws); [eapply guard_lock_step|]|].
  intros e1 R1 _. set (ws1 := <[m := mk_mview true (Some t) l]> ws) in *.
  assert (ws1 !! m = Some (mk_mview true (Some t) l)) as H1 by apply lookup_insert_eq.
  destruct (view_of _ _ _ _ R1 H1) as (x & Hx & Hg & Ho & _). cbn in Ho.
  unfold step_at. erewrite st_bind_ok; [|unfold get_mutex; cbn [s_env set_senv]; by rewrite Hx].
  rewrite bool_decide_eq_true_2 by done. cbn [negb].
  apply (bind_at _ _ _ (head l) (<[m := mk_mview true (Some t) (tail l)]> ws1)); [by apply pop_at|].
  intros e2 R2 _. set (ws2 := <[m := _]> ws1) in *.
  apply (bind_at _ _ _ tt (<[m := mk_mview true (head l) (tail l)]> ws2)).
  { assert (mstep (upd_mutex (E := E) (V := V) m (set_owner (head l))) ws2 tt (<[m := mk_mview true (head l) (tail l)]> ws2)) as Hs
      by (eapply set_owner_step; apply lookup_insert_eq).
    destruct l as [|u l]; cbn [head] in *; apply (Hs (set_senv e2 _) R2). }
  intros e3 R3 _. eapply bind_at; [eapply step_of; [eapply guard_unlock_step; apply lookup_insert_eq|exact R3]|].
  intros e4 R4 _. unfold ws2, ws1 in R4. rewrite !insert_insert_eq in R4. by apply mstep_ret.
Qed.

Lemma try_lock_step ws m o l s me t : ws !! m = Some (mk_mview false o l) -> mrep (s_env s) ws ->
  sched_current me s = Ok (Some t, s) ->
  step_at (mutex_try_lock me (Some m)) s (bool_decide (o = None))
    (if decide (o = None) then <[m := mk_mview false (Some t) l]> ws else ws).
Proof.
  intros Hw Hr Hc. unfold mutex_try_lock, unless_null, step_at. rewrite (st_bind_ok _ _ _ _ _ Hc).
  eapply bind_at; [by apply (step_of _ _ ws); [eapply guard_lock_step|]|]. intros e1 R1 _.
  set (ws1 := <[m := mk_mview true o l]> ws) in *.
  assert (ws1 !! m = Some (mk_mview true o l)) as H1 by apply lookup_insert_eq.
  apply (step_of _ _ ws1); [|done]. eapply mstep_get; [exact H1|]. intros x _ Ho. cbn in Ho. rewrite Ho.
  destruct (decide (o = None)) as [->|Hne].
  - rewrite bool_decide_eq_true_2 by done. eapply mstep_bind; [eapply mstep_bind; [by eapply set_owner_step|apply mstep_ret]|].
    eapply mstep_bind; [eapply guard_unlock_step; apply lookup_insert_eq|]. unfold ws1. rewrite !insert_insert_eq. apply mstep_ret.
  - rewrite bool_decide_eq_false_2 by done. eapply mstep_bind; [apply mstep_ret|].
    eapply mstep_bind; [by eapply guard_unlock_step|]. unfold ws1. rewrite insert_insert_eq, insert_id by done. apply mstep_ret.
Qed.

Lemma is_locked_step ws m o l : ws !! m = Some (mk_mview false o l) ->
  mstep (mutex_is_locked (Some m)) ws (bool_decide (o <> None)) ws.
Proof.
  intros Hw. unfold mutex_is_locked, unless_null. eapply mstep_bind; [by eapply guard_lock_step|].
  eapply mstep_get; [apply lookup_insert_eq|]. intros x _ Ho. cbn in Ho. rewrite Ho.
  eapply mstep_bind; [eapply guard_unlock_step; apply lookup_insert_eq|].
  rewrite insert_insert_eq, insert_id by done. apply mstep_ret.
Qed.

Lemma round_free ws m l r me t : ws !! m = Some (mk_mview false None l) ->
  mstep (mutex_lock_round r me m t) ws Acquired (<[m := mk_mview false (Some t) l]> ws).
Proof.
  intros Hw. unfold mutex_lock_round. eapply mstep_bind; [by eapply guard_lock_step|].
  eapply mstep_get; [apply lookup_insert_eq|]. intros x _ Ho. cbn in Ho. rewrite Ho. cbn [decide].
  rewrite decide_True by done. eapply mstep_bind; [eapply set_owner_step; apply lookup_insert_eq|].
  eapply mstep_bind; [eapply guard_unlock_step; apply lookup_insert_eq|]. rewrite !insert_insert_eq. apply mstep_ret.
Qed.

(** ** Going to sleep *)

Lemma rep_senv e s th cp : rep s th cp -> rep (set_senv e s) th cp.
Proof. intros [H1 H2 H3 H4 H5 H6]. by split. Qed.
Lemma rest_kept_senv e s s' : rest_kept s s' -> rest_kept (set_senv e s) (set_senv e s').
Proof. intros (H1 & H2 & H3 & H4 & H5 & H6 & H7). by split_and!. Qed.
Lemma sched_inv_senv e s cp : sched_inv s cp -> sched_inv (set_senv e s) cp.
Proof. intros [Hr W]. split; [by apply rep_senv|exact W]. Qed.

(** [thread_block_current] with a callback that changes only the mutexes. *)
Lemma block_current_release s cp r me v f e' :
  sched_inv s cp -> cp !! me = Some v -> v_current v <> v_idle v -> stack_room r ->
  (forall s1, s_env s1 = s_env s -> f s1 = Ok (tt, set_senv e' s1)) ->
  exists res s', thread_block_current (Some f) r me s = Ok (res, s') /\
    reschedules r me v (set_status THREAD_BLOCKED) v cp (set_senv e' s) res s'.
Proof.
  intros HI Hv Hne Hroom Hf. apply (enter _ _ _ _ HI). destruct HI as [Hr W].
  destruct (wf_current _ _ _ W me v Hv) as (d & Hd & Hi).
  unfold thread_block_current. eapply find_cpu_triple; [done|]. intros c _ -> -> _.
  rewrite decide_False by done.
  eapply hoare_gives; [apply lock_triple; [done|by apply (wf_lock _ _ _ W me v Hv)]|].
  eapply hoare_assoc. eapply hoare_gives; [by apply park_triple|].
  eapply hoare_gives with (v := tt); [|by apply (parked_ok (set_senv e' s))].
  intros s1 (R1 & K1 & M1). exists tt, (set_senv e' s1). split; [apply Hf, K1|]. split; [done|].
  split; [by apply rep_senv|]. split; [|exact M1]. by apply rest_kept_senv.
Qed.

Lemma round_sleeps s cp ws m o l r me v :
  sched_inv s cp -> cp !! me = Some v -> v_current v <> v_idle v -> stack_room r ->
  mrep (s_env s) ws -> ws !! m = Some (mk_mview false (Some o) l) -> o <> v_current v ->
  is_Some (m_wait (s_env s) !! v_current v) -> (forall n, n <> m -> v_current v ∉ queue_at ws n) ->
  exists res s' e', mutex_lock_round r me m (v_current v) s = Ok (Slept res, s') /\
    reschedules r me v (set_status THREAD_BLOCKED) v cp (set_senv e' s) res s' /\
    mrep e' (<[m := mk_mview false (Some o) (enqueue (v_current v) l)]> ws) /\ env_kept (s_env s) e'.
Proof.
  intros HI Hv Hne Hroom Hr Hw Ho Hnode Hno. set (t := v_current v) in *.
  set (Q := fun (a : round) s' => exists res e', a = Slept res /\
    reschedules r me v (set_status THREAD_BLOCKED) v cp (set_senv e' s) res s' /\
    mrep e' (<[m := mk_mview false (Some o) (enqueue t l)]> ws) /\ env_kept (s_env s) e').
  assert (ends (mutex_lock_round r me m t) s Q) as (a & s' & Hrun & res & e' & -> & Hq); [|by exists res, s', e'].
  unfold mutex_lock_round. eapply ends_bind; [by apply (step_of _ _ ws); [eapply guard_lock_step|]|]. intros e1 R1 K1.
  set (ws1 := <[m := mk_mview true (Some o) l]> ws) in *.
  assert (ws1 !! m = Some (mk_mview true (Some o) l)) as H1 by apply lookup_insert_eq.
  eapply (ends_get _ _ ws1); [done|done|]. intros x _ Hx. cbn in Hx. rewrite Hx. rewrite decide_False by done.
  rewrite decide_False by congruence. eapply (queued_ends _ _ ws1); [done|done|]. intros e2 R2 K2.
  set (ws2 := <[m := mk_mview true (Some o) (enqueue t l)]> ws1).
  assert (forall n, t ∈ queue_at ws1 n -> n = m) as Hno1.
  { intros n Hn. destruct (decide (n = m)) as [|Hnm]; [done|]. unfold queue_at, ws1 in Hn.
    rewrite lookup_insert_ne in Hn by done. by destruct (Hno n Hnm). }
  assert (is_Some (m_wait e2 !! t)) as Hnode2.
  { apply elem_of_dom. destruct K1 as [_ D1], K2 as [_ D2]. cbn [s_env set_senv] in D2. rewrite D2, D1. by apply elem_of_dom. }
  apply (ends_bind _ _ _ tt ws2).
  { unfold ws2, enqueue. destruct (decide (t ∈ l)) as [Hin|Hin].
    - rewrite bool_decide_eq_true_2 by done. rewrite (insert_id ws1) by done. by apply (mstep_ret ws1 tt (set_senv e2 _)).
    - rewrite bool_decide_eq_false_2 by done. apply push_at; [done|done|done|]. intros n Hn.
      apply Hin. rewrite (Hno1 n Hn) in Hn. unfold queue_at in Hn. by rewrite H1 in Hn. }
  intros e3 R3 K3.
  destruct (guard_unlock_step ws2 m true (Some o) (enqueue t l) (lookup_insert_eq _ _ _) (set_senv e3 s) R3) as (e4 & E4 & R4 & K4).
  destruct (block_current_release (set_senv e3 s) cp r me v (mutex_release_guard m) e4) as (res & s' & Hb & Hre); try done.
  { by apply sched_inv_senv. }
  { intros s1 Hs1. unfold mutex_release_guard. revert E4. unfold guard_unlock, upd_mutex, get_mutex, mbind, st_bind.
    cbn [s_env set_senv] in *. rewrite Hs1. destruct (m_mutexes e3 !! m) as [x'|]; [|done]. unfold on_env, modify.
    intros [= E4]. rewrite Hs1. cbn [s_env set_senv] in *. do 2 f_equal. unfold set_senv. f_equal. congruence. }
  exists (Slept res), s'. split; [by rewrite (st_bind_ok _ _ _ _ _ Hb)|]. exists res, e4. split; [done|]. split; [exact Hre|].
  unfold ws2, ws1 in R4. rewrite !insert_insert_eq in R4. split; [done|]. by do 3 (etrans; [eassumption|]).
Qed.

Lemma round_recursive s ws m l r me t : mrep (s_env s) ws -> ws !! m = Some (mk_mview false (Some t) l) ->
  mutex_lock_round r me m t s = Panic.
Proof.
  intros Hr Hw. unfold mutex_lock_round.
  destruct (guard_lock_step ws m (Some t) l Hw s Hr) as (e1 & E1 & R1 & _). rewrite (st_bind_ok _ _ _ _ _ E1).
  destruct (view_of e1 _ m _ R1 (lookup_insert_eq _ _ _)) as (x & Hx & _ & Ho & _). cbn in Ho.
  erewrite st_bind_ok; [|unfold get_mutex; cbn [s_env set_senv]; by rewrite Hx]. rewrite Ho, decide_False, decide_True by done.
  destruct (guard_unlock_step _ m true (Some t) l (lookup_insert_eq _ _ _) (set_senv e1 s) R1) as (e2 & E2 & _).
  by rewrite (st_bind_ok _ _ _ _ _ E2).
Qed.

(** ** [mutex_lock] and [mutex_unlock] *)

Lemma sched_current_ok s cp me v : sched_inv s cp -> cp !! me = Some v -> sched_current me s = Ok (Some (v_current v), s).
Proof.
  intros [Hr _] Hv. destruct (rep_cpu _ _ _ _ _ Hr Hv) as (c & Hc & _ & _ & Hcu & _).
  unfold sched_current, find_cpu. by rewrite gets_bind, Hc, Hcu.
Qed.

Lemma next_not_current th cp me v : wf None th cp -> cp !! me = Some v -> v_current v <> v_idle v -> next_of v <> v_current v.
Proof.
  intros W Hv Hne. unfold next_of. destruct (v_ready v) as [|t l] eqn:Hl; cbn; [congruence|]. intros ->.
  assert (v_current v ∈ v_ready v) as Ht by (rewrite Hl; left). apply (wf_ready _ _ _ W me v _ Hv) in Ht as (d & Hd & Hi & Hs).
  assert (t_status d = THREAD_RUNNING) by (apply (wf_running _ _ _ W me v (v_current v) d Hv Hd Hi); auto). congruence.
Qed.

Lemma sleeps_away r me v cp s res s' : wf None (s_threads s) cp -> cp !! me = Some v -> v_current v <> v_idle v ->
  reschedules r me v (set_status THREAD_BLOCKED) v cp s res s' -> exists x, res = Some x.
Proof.
  intros W Hv Hne (Hsw & _). unfold switched in Hsw. rewrite decide_False in Hsw by (by eapply next_not_current).
  destruct (context_save r (s_mem s)) as [rsp m]. injection Hsw as <- _ _. eauto.
Qed.

(** What [mutex_lock] does, by the state of the mutex. *)
Definition lock_effect (s : S) (cp : vcpus) (ws : mviews) (m : Z) (r : cpu_state) (me : Z) (v : vcpu)
    (result : outcome (option resumed * S)) : Prop :=
  match ws !! m with
  | None => result = Fault
  | Some (mk_mview _ None l) => exists e', result = Ok (None, set_senv e' s) /\
      mrep e' (<[m := mk_mview false (Some (v_current v)) l]> ws) /\ env_kept (s_env s) e'
  | Some (mk_mview _ (Some o) l) =>
      if decide (o = v_current v) then result = Panic else
      exists res s' e', result = Ok (Some res, s') /\
        reschedules r me v (set_status THREAD_BLOCKED) v cp (set_senv e' s) (Some res) s' /\
        mrep e' (<[m := mk_mview false (Some o) (enqueue (v_current v) l)]> ws) /\ env_kept (s_env s) e'
  end.

Lemma lock_loop_ok fuel s cp ws m r me v :
  sched_inv s cp -> cp !! me = Some v -> v_current v <> v_idle v -> stack_room r ->
  mrep (s_env s) ws -> at_rest ws -> is_Some (m_wait (s_env s) !! v_current v) ->
  (forall n, n <> m -> v_current v ∉ queue_at ws n) ->
  lock_effect s cp ws m r me v (mutex_lock_loop (Datatypes.S fuel) r me m (v_current v) s).
Proof.
  intros HI Hv Hne Hroom Hr Hrest Hnode Hno. unfold lock_effect. cbn [mutex_lock_loop].
  destruct (ws !! m) as [[b o l]|] eqn:Hw.
  - destruct (Hrest m _ Hw) as (Hb & _ & _). cbn in Hb. subst b. destruct o as [o|].
    + case_decide as Ho.
      * subst o. pose proof (round_recursive s ws m l r me (v_current v) Hr Hw) as Hp.
        unfold mbind, st_bind. by rewrite Hp.
      * destruct (round_sleeps s cp ws m o l r me v HI Hv Hne Hroom Hr Hw Ho Hnode Hno) as (res & s' & e' & Hrun & Hre & Hr' & Hk).
        destruct (sleeps_away r me v cp (set_senv e' s) res s' (proj2 HI) Hv Hne Hre) as [x ->].
        exists x, s', e'. by rewrite (st_bind_ok _ _ _ _ _ Hrun).
    + destruct (round_free ws m l r me (v_current v) Hw s Hr) as (e' & He & Hr' & Hk). exists e'. by rewrite (st_bind_ok _ _ _ _ _ He).
  - pose proof (mr_view _ _ Hr m) as Hm. rewrite Hw in Hm. unfold mutex_lock_round, guard_lock.
    destruct (m_mutexes (s_env s) !! m) as [x|] eqn:Hx; [done|].
    unfold get_mutex, mbind, st_bind. by rewrite Hx.
Qed.

Lemma lock_ok fuel s cp ws m r me v :
  sched_inv s cp -> cp !! me = Some v -> v_current v <> v_idle v -> stack_room r ->
  mrep (s_env s) ws -> at_rest ws -> is_Some (m_wait (s_env s) !! v_current v) ->
  (forall n, n <> m -> v_current v ∉ queue_at ws n) ->
  lock_effect s cp ws m r me v (mutex_lock (Datatypes.S fuel) r me (Some m) s).
Proof.
  intros HI Hv. intros. unfold mutex_lock, unless_null. rewrite (st_bind_ok _ _ _ _ _ (sched_current_ok s cp me v HI Hv)).
  by apply lock_loop_ok.
Qed.

(** On the idle thread a mutex that is taken is never acquired: the call that
    sleeps comes back with the guard held. *)
Lemma idle_hangs s cp ws m o l r me v fuel : sched_inv s cp -> cp !! me = Some v -> v_current v = v_idle v ->
  mrep (s_env s) ws -> ws !! m = Some (mk_mview false (Some o) l) -> o <> v_current v ->
  is_Some (m_wait (s_env s) !! v_current v) -> (forall n, v_current v ∉ queue_at ws n) ->
  mutex_lock fuel r me (Some m) s = Timeout.
Proof.
  intros HI Hv He Hr Hw Ho Hnode Hno. unfold mutex_lock, unless_null.
  rewrite (st_bind_ok _ _ _ _ _ (sched_current_ok s cp me v HI Hv)). set (t := v_current v) in *.
  destruct fuel as [|fuel]; [done|]. cbn [mutex_lock_loop].
  set (ws3 := <[m := mk_mview true (Some o) (l ++ [t])]> (<[m := mk_mview true (Some o) l]> ws)).
  assert (ends (mutex_lock_round r me m t) s (fun a s' => a = Slept None /\ mrep (s_env s') ws3)) as (a & s' & Hrun & -> & R').
  { unfold mutex_lock_round. eapply ends_bind; [by apply (step_of _ _ ws); [eapply guard_lock_step|]|]. intros e1 R1 K1.
    set (ws1 := <[m := mk_mview true (Some o) l]> ws) in *.
    assert (ws1 !! m = Some (mk_mview true (Some o) l)) as H1 by apply lookup_insert_eq.
    eapply (ends_get _ _ ws1); [done|done|]. intros x _ Hx. cbn in Hx. rewrite Hx. rewrite decide_False by done.
    rewrite decide_False by congruence. eapply (queued_ends _ _ ws1); [done|done|]. intros e2 R2 K2.
    assert (t ∉ l) as Hl by (specialize (Hno m); unfold queue_at in Hno; by rewrite Hw in Hno).
    rewrite bool_decide_eq_false_2 by done. apply (ends_bind _ _ _ tt ws3).
    { apply push_at; [done|done| |].
      - apply elem_of_dom. destruct K1 as [_ D1], K2 as [_ D2]. cbn [s_env set_senv] in *. rewrite D2, D1. by apply elem_of_dom.
      - intros n. unfold queue_at, ws1. destruct (decide (n = m)) as [->|Hn]; [by rewrite lookup_insert_eq|].
        rewrite lookup_insert_ne by done. apply Hno. }
    intros e3 R3 _. exists (Slept None), (set_senv e3 s). split; [|done].
    destruct HI as [Hrep W]. destruct (rep_cpu _ _ _ _ _ Hrep Hv) as (c & Hc & _ & Hid & Hcu & _).
    unfold thread_block_current, find_cpu. rewrite bind_assoc, gets_bind. cbn [s_cpus set_senv]. rewrite Hc, Hid, Hcu.
    by rewrite decide_True by done. }
  rewrite (st_bind_ok _ _ _ _ _ Hrun).
  destruct (view_of _ _ m _ R' (lookup_insert_eq _ _ _)) as (x & Hx & Hg & Hox & _). cbn in Hg, Hox.
  assert (get_mutex m s' = Ok (x, s')) as Hget by (unfold get_mutex; by rewrite Hx).
  rewrite (st_bind_ok _ _ _ _ _ Hget). rewrite Hox, decide_False by congruence.
  destruct fuel as [|fuel]; [done|]. cbn [mutex_lock_loop]. unfold mutex_lock_round, guard_lock.
  unfold mbind, st_bind. rewrite Hget, Hg. done.
Qed.
End ops.

(** What [mutex_lock] does, under the scheduler. A thread that runs, on any
    CPU, takes a free mutex and goes on. If the mutex is its own it panics. If
    another thread has it, the caller is put at the end of the queue (unless it
    is queued), marked blocked while the guard is held and the guard is released
    only then; the CPU goes to its next thread, with the caller's context saved
    where a wake-up will find it. The call returns in every case, with the
    invariant of the scheduler intact and no other mutex touched. *)
Theorem mutex_lock_spec {E V} fuel (s : sched (menv E) V) cp ws m o l r me v :
  sched_inv s cp -> cp !! me = Some v -> v_current v <> v_idle v -> stack_room r ->
  mrep (s_env s) ws -> at_rest ws -> is_Some (m_wait (s_env s) !! v_current v) ->
  (forall n, n <> m -> v_current v ∉ queue_at ws n) -> ws !! m = Some (mk_mview false o l) ->
  let result := mutex_lock (Datatypes.S fuel) r me (Some m) s in
  match o with
  | None => exists e', result = Ok (None, set_senv e' s) /\
      mrep e' (<[m := mk_mview false (Some (v_current v)) l]> ws) /\ env_kept (s_env s) e'
  | Some u =>
      if decide (u = v_current v) then result = Panic else
      exists res s' e', result = Ok (Some res, s') /\
        reschedules r me v (set_status THREAD_BLOCKED) v cp (set_senv e' s) (Some res) s' /\
        mrep e' (<[m := mk_mview false (Some u) (enqueue (v_current v) l)]> ws) /\ env_kept (s_env s) e'
  end.
Proof.
  intros HI Hv Hne Hroom Hr Hrest Hnode Hno Hw result.
  pose proof (lock_ok fuel s cp ws m r me v HI Hv Hne Hroom Hr Hrest Hnode Hno) as Heff.
  unfold lock_effect in Heff. rewrite Hw in Heff. by destruct o.
Qed.
