(* ===== verification/MutexRun.v ===== *)
(** Mutexes under the scheduler: any interleaving, on any CPUs, of the steps of
    [mutex_lock] and [mutex_unlock] of the running threads with ticks, yields,
    wake-ups, exits and reaping. A step is what happens between two points where
    other CPUs can interfere: [mutex_lock] to its return or to the switch, the
    check after the switch back, the part of [mutex_unlock] under the guard, and
    its wake-up. *)
From S2P Require Import Prelude Kenv Dll Rq Context Sched SchedRep SchedInv SchedOps SchedProc SchedTable SchedReap SchedSpawn SchedThread SchedBoot SchedRun Mutex MutexSpec SchedFair SchedDemo.

(** ** What a call of the scheduler does to the other threads *)

Definition status_of {E V} (s : sched E V) (t : Z) : option thread_status := t_status <$> s_threads s !! t.
Definition alive {E V} (s : sched E V) (t : Z) : Prop := exists st, status_of s t = Some st /\ st <> THREAD_ZOMBIE.
Definition asleep {E V} (s : sched E V) (t : Z) : Prop := status_of s t = Some THREAD_BLOCKED.

(** Only the threads in [X] can fall asleep, be woken or die. *)
Definition calm {E V} (X : Z -> Prop) (s s' : sched E V) : Prop :=
  forall t, ~ X t -> (asleep s t <-> asleep s' t) /\ (alive s t -> alive s' t).

Section calm.
Context {E V : Type} `{!Heap E} `{!HeapLaws E} `{!VasOps V} (L : layout).
Abbreviation S := (sched E V).
Implicit Types s : S.

Lemma calm_refl X s : calm X s s.
Proof. by intros t _. Qed.
Lemma calm_trans X s1 s2 s3 : calm X s1 s2 -> calm X s2 s3 -> calm X s1 s3.
Proof. intros H1 H2 t Ht. destruct (H1 t Ht), (H2 t Ht). split; [by etrans|auto]. Qed.

Lemma calm_threads X s s' : (forall t, ~ X t -> status_of s' t = status_of s t) -> calm X s s'.
Proof. intros Hs t Ht. unfold asleep, alive. rewrite (Hs t Ht). done. Qed.

(** Two awake statuses are as good as each other. *)
Definition awake (st : option thread_status) : Prop := st = Some THREAD_RUNNABLE \/ st = Some THREAD_RUNNING.
Lemma awake_both s s' t : awake (status_of s t) -> awake (status_of s' t) ->
  (asleep s t <-> asleep s' t) /\ (alive s t -> alive s' t).
Proof.
  unfold asleep, alive. intros [-> | ->] [-> | ->]; (split; [split; discriminate|]); intros _; eexists; (split; [reflexivity|discriminate]).
Qed.

Lemma next_awake s cp i v o th : wf o th cp -> s_threads s = th -> cp !! i = Some v -> awake (status_of s (next_of v)).
Proof.
  intros W Hth Hv. unfold next_of, status_of, awake. rewrite Hth. destruct (v_ready v) as [|t l] eqn:Hl; cbn [head from_option default id].
  - destruct (wf_idle _ _ _ W i v Hv) as (d & Hd & _). rewrite Hd. right. cbn. f_equal. by eapply wf_idle_running.
  - assert (t ∈ v_ready v) as Ht by (rewrite Hl; left).
    apply (wf_ready _ _ _ W i v t Hv) in Ht as (d & Hd & _ & Hs). rewrite Hd. left. cbn. by rewrite Hs.
Qed.

Lemma switched_status r cur next m th res m' th' t : switched r cur next m th = (res, m', th') ->
  t_status <$> th' !! t = if decide (t = next) then (fun _ => THREAD_RUNNING) <$> th !! t else t_status <$> th !! t.
Proof.
  unfold switched. intros Hsw. destruct (decide (next = cur)) as [->|Hne].
  - injection Hsw as _ _ <-. destruct (decide (t = cur)) as [->|Ht].
    + rewrite lookup_alter_eq. by destruct (th !! cur).
    + by rewrite lookup_alter_ne by done.
  - destruct (context_save r m) as [rsp m1]. injection Hsw as _ _ <-.
    destruct (decide (t = next)) as [->|Ht].
    + rewrite lookup_alter_ne by done. rewrite lookup_alter_eq. by destruct (th !! next).
    + destruct (decide (t = cur)) as [->|Hc].
      * rewrite lookup_alter_eq, lookup_alter_ne by done. by destruct (th !! cur).
      * by rewrite !lookup_alter_ne by done.
Qed.

(** Taking the running thread off the CPU. *)
Lemma reschedules_calm r me v f v1 cp s res s' (X : Z -> Prop) :
  sched_inv s cp -> cp !! me = Some v -> reschedules r me v f v1 cp s res s' ->
  (next_of v1 = v_current v \/ awake (status_of s (next_of v1))) ->
  (X (v_current v) \/ forall d, s_threads s !! v_current v = Some d -> awake (Some (t_status (f d)))) -> calm X s s'.
Proof.
  intros [Hr W] Hv (Hsw & _ & _) Hn Hf t Ht. pose proof (fun t => switched_status _ _ _ _ _ _ _ _ t Hsw) as Hst.
  destruct (wf_current _ _ _ W me v Hv) as (d & Hd & Hi).
  assert (awake (status_of s (v_current v))) as Hcur.
  { unfold status_of. rewrite Hd. right. cbn. f_equal. apply (wf_running _ _ _ W me v (v_current v) d Hv Hd Hi); auto. }
  destruct (decide (t = v_current v)) as [->|Hc].
  - destruct Hf as [?|Hf]; [done|]. apply awake_both; [done|]. unfold status_of. rewrite Hst, lookup_alter_eq, Hd.
    cbn [fmap option_fmap option_map]. case_decide; [by right|by apply Hf].
  - specialize (Hst t). rewrite lookup_alter_ne in Hst by done. destruct (decide (t = next_of v1)) as [->|Hne].
    + destruct Hn as [?|Hn]; [done|]. apply awake_both; [done|]. unfold status_of in *. rewrite Hst.
      destruct (s_threads s !! next_of v1); [by right|by destruct Hn].
    + unfold asleep, alive, status_of in *. by rewrite Hst.
Qed.

Definition nobody : Z -> Prop := fun _ => False.
Definition current_of s (me t : Z) : Prop := exists c, s_cpus s !! me = Some c /\ c_current c = Some t /\ c_idle c <> Some t.

Lemma current_of_view s cp me t : sched_inv s cp -> current_of s me t ->
  exists v, cp !! me = Some v /\ v_current v = t /\ v_current v <> v_idle v.
Proof.
  intros [Hr W] (c & Hc & Hcu & Hid). pose proof (rep_cpus _ _ _ Hr me) as Hm. rewrite Hc in Hm.
  destruct (cp !! me) as [v|]; [|destruct Hm; congruence]. destruct Hm as (_ & H1 & H2 & _). exists v. split_and!; congruence.
Qed.
Lemma view_current_of s cp me v : sched_inv s cp -> cp !! me = Some v -> v_current v <> v_idle v -> current_of s me (v_current v).
Proof.
  intros [Hr W] Hv Hne. destruct (rep_cpu _ _ _ _ _ Hr Hv) as (c & Hc & _ & Hid & Hcu & _). exists c. split_and!; congruence.
Qed.

Lemma resting_awake v d : t_status d = THREAD_RUNNING -> awake (Some (t_status (resting v d))).
Proof. intros Hd. unfold resting. case_decide; [right; by cbn; rewrite Hd|by left]. Qed.

Lemma gave_up_next s cp me v : wf None (s_threads s) cp -> cp !! me = Some v ->
  next_of (gave_up v) = v_current v \/ awake (status_of s (next_of (gave_up v))).
Proof.
  intros W Hv. unfold gave_up. case_decide as He; [right; by apply (next_awake s cp me v None (s_threads s))|].
  pose proof (next_awake s cp me v None (s_threads s) W eq_refl Hv) as Hn. unfold next_of in *. cbn.
  destruct (v_ready v) as [|t l]; [by left|by right].
Qed.

Lemma running_status s cp me v d : sched_inv s cp -> cp !! me = Some v -> s_threads s !! v_current v = Some d ->
  t_status d = THREAD_RUNNING.
Proof.
  intros [Hr W] Hv Hd. destruct (wf_current _ _ _ W me v Hv) as (d' & Hd' & Hi). assert (d' = d) as -> by congruence.
  apply (wf_running _ _ _ W me v (v_current v) d Hv Hd Hi); auto.
Qed.

Lemma yield_calm s cp me v v1 r res s' f : sched_inv s cp -> cp !! me = Some v ->
  (forall d, t_status (f d) = t_status (resting v d)) -> next_of v1 = next_of (gave_up v) ->
  reschedules r me v f v1 cp s res s' -> calm nobody s s'.
Proof.
  intros HI Hv Hf Hn Hre. eapply reschedules_calm; [exact HI|exact Hv|exact Hre| |].
  - rewrite Hn. apply (gave_up_next s cp me v); [apply HI|done].
  - right. intros d Hd. rewrite Hf. apply resting_awake. by eapply running_status.
Qed.

Lemma reaped_calm s cp me v s' : sched_inv s cp -> cp !! me = Some v ->
  reaped (v_zombies v) (s_threads s) (s_threads s') -> calm nobody s s'.
Proof.
  intros [Hr W] Hv Hre t _. specialize (Hre t). case_decide as Hz.
  - apply (wf_zombies _ _ _ W me v t Hv) in Hz as (d & Hd & _ & Hst). unfold asleep, alive, status_of. rewrite Hre, Hd.
    cbn. rewrite Hst. split; [by split|]. by intros (st & [= <-] & ?).
  - assert (status_of s' t = status_of s t) as Hst.
    { unfold status_of. destruct (s_threads s' !! t) as [d'|], (s_threads s !! t) as [d|]; cbn in Hre; try done.
      injection Hre as ? ? Hst. cbn. by f_equal. }
    unfold asleep, alive. by rewrite Hst.
Qed.

Lemma wake_calm s cp t s' : sched_inv s cp -> is_Some (s_threads s !! t) -> thread_wake (Some t) s = Ok (tt, s') ->
  calm (fun u => u = t) s s' /\ rest_kept s s' /\ ~ asleep s' t /\ (alive s t -> alive s' t).
Proof.
  intros HI [d Hd] Hw. pose proof HI as [Hr W]. destruct (wf_cpu _ _ _ W t d Hd) as [v Hv].
  destruct (thread_wake_ok s cp t d v HI Hd Hv) as (s1 & Hw1 & _ & Hk & Heff). assert (s1 = s') as -> by congruence.
  assert (forall u, u <> t -> status_of s' u = status_of s u) as Hother.
  { intros u Hu. unfold status_of. case_decide; destruct Heff as [-> _]; [by rewrite lookup_insert_ne|done]. }
  split; [by apply calm_threads|]. split; [done|]. unfold asleep, alive, status_of. case_decide as Hb; destruct Heff as [-> _].
  - rewrite lookup_insert_eq. split; [discriminate|]. intros _. by exists THREAD_RUNNABLE.
  - rewrite Hd. split; [cbn; congruence|done].
Qed.
End calm.

(** ** The scheduler does not look into the mutexes *)

Section keeps.
Context {E V : Type} `{!Heap E} `{!HeapLaws E} `{!VasOps V}.
Abbreviation S := (sched (menv E) V).

Definition same_mutexes (s s' : S) : Prop :=
  m_mutexes (s_env s') = m_mutexes (s_env s) /\ m_wait (s_env s') = m_wait (s_env s).
#[local] Instance same_mutexes_preorder : PreOrder same_mutexes.
Proof. split; [by intros s|]. intros s1 s2 s3 [H1 H2] [H3 H4]. split; congruence. Qed.
Abbreviation keeps := (preserves same_mutexes).

Lemma rest_same (s s' : S) : rest_kept s s' -> same_mutexes s s'.
Proof. intros (He & _). by split; rewrite He. Qed.

Lemma keeps_modify (g : S -> S) : (forall s, s_env (g s) = s_env s) -> keeps (modify g).
Proof. intros Hg. apply preserves_modify. intros s. split; by rewrite Hg. Qed.
Lemma keeps_get_thread t : keeps (get_thread t).
Proof. intros s a s'. unfold get_thread. case_match; by intros [= <- <-]. Qed.
Lemma keeps_upd_thread t f : keeps (upd_thread t f).
Proof. intros s a s'. unfold upd_thread. case_match; by intros [= <- <-]. Qed.
Lemma keeps_get_proc t : keeps (get_proc t).
Proof. intros s a s'. unfold get_proc. case_match; by intros [= <- <-]. Qed.
Lemma keeps_upd_proc t f : keeps (upd_proc t f).
Proof. intros s a s'. unfold upd_proc. case_match; by intros [= <- <-]. Qed.
Lemma keeps_get_cpu i : keeps (get_cpu i).
Proof. intros s a s'. unfold get_cpu. case_match; by intros [= <- <-]. Qed.
Lemma keeps_upd_cpu i f : keeps (upd_cpu i f).
Proof. intros s a s'. unfold upd_cpu. case_match; by intros [= <- <-]. Qed.
Lemma keeps_kfree a : keeps (kfree a).
Proof. apply preserves_modify. by intros s. Qed.
Hint Resolve keeps_modify keeps_get_thread keeps_upd_thread keeps_get_proc keeps_upd_proc keeps_get_cpu keeps_upd_cpu
  keeps_kfree : preserves.

Lemma keeps_on_queue {A} i x (f : rq -> store -> outcome (A * rq * store)) : keeps (on_queue i x f).
Proof. unfold on_queue. preserves. Qed.
Hint Resolve keeps_on_queue : preserves.
Lemma keeps_lock i : keeps (sched_cpu_lock i).
Proof. unfold sched_cpu_lock. preserves. Qed.
Lemma keeps_unlock i : keeps (sched_cpu_unlock i).
Proof. unfold sched_cpu_unlock. preserves. Qed.
Lemma keeps_push i x t : keeps (queue_push i x t).
Proof. apply keeps_on_queue. Qed.
Lemma keeps_pop i x : keeps (queue_pop i x).
Proof. apply keeps_on_queue. Qed.
Lemma keeps_switch c p n : keeps (context_switch c p n).
Proof. unfold context_switch. eapply preserves_bind; [apply _|preserves|intros m]. case_match. preserves. Qed.
Lemma keeps_unlink_proc fuel proc cur : keeps (unlink_proc_loop fuel proc cur).
Proof. revert cur. induction fuel as [|fuel IH]; intros cur; cbn [unlink_proc_loop]; unfold proc_at, set_proc_at; preserves. Qed.
Lemma keeps_unlink_thread fuel proc t cur : keeps (unlink_thread_loop fuel proc t cur).
Proof. revert cur. induction fuel as [|fuel IH]; intros cur; cbn [unlink_thread_loop]; unfold thread_at, set_thread_at; preserves. Qed.
Hint Resolve keeps_lock keeps_unlock keeps_push keeps_pop keeps_switch keeps_unlink_proc keeps_unlink_thread : preserves.

Lemma keeps_release_pid proc : keeps (sched_proc_release_pid proc).
Proof.
  unfold sched_proc_release_pid, spinlock_lock, spinlock_unlock, sched_proc_unlink_locked, proc_fuel. preserves.
Qed.
Hint Resolve keeps_release_pid : preserves.
Lemma keeps_free_thread me t : keeps (sched_free_thread me t).
Proof.
  unfold sched_free_thread, drop_cpu_count, sched_proc_unlink_thread, kfree_tcb, free_if_empty, sched_free_proc, run_vas_destroy,
    kfree_pcb, find_cpu, thread_fuel. preserves.
Qed.
Hint Resolve keeps_free_thread : preserves.
Lemma keeps_reap me i : keeps (sched_reap_cpu me i).
Proof.
  unfold sched_reap_cpu, queue_length. eapply preserves_bind; [apply _|preserves|intros n].
  induction n as [|n IH]; cbn [reap_loop]; preserves.
Qed.
Lemma keeps_next fuel i : keeps (next_loop fuel i).
Proof. induction fuel as [|fuel IH]; cbn [next_loop]; unfold sched_queue_zombie_locked; preserves. Qed.
Hint Resolve keeps_reap keeps_next : preserves.
Lemma keeps_tick r me : keeps (sched_tick r me).
Proof.
  unfold sched_tick, tick_locked, current_or_idle, the, sched_run_next_locked, sched_next_thread, queue_length, find_cpu. preserves.
Qed.
End keeps.

Section ticks.
Context {E V : Type} `{!Heap E} `{!HeapLaws E} `{!VasOps V}.
Abbreviation S := (sched E V).
Implicit Types s : S.

Lemma reaped_new zs s s1 t : reaped zs (s_threads s) (s_threads s1) -> is_Some (s_threads s1 !! t) -> is_Some (s_threads s !! t).
Proof.
  intros Hre [d Hd]. specialize (Hre t). rewrite Hd in Hre. case_decide; [done|]. by destruct (s_threads s !! t).
Qed.

Lemma tick_calm s s1 s' cp me v d r res : sched_inv s cp -> cp !! me = Some v -> s_threads s !! v_current v = Some d ->
  reaped (v_zombies v) (s_threads s) (s_threads s1) -> tick_effect r me v d cp s1 res s' ->
  calm nobody s s' /\ forall t, is_Some (s_threads s' !! t) -> is_Some (s_threads s !! t).
Proof.
  intros HI Hv Hd Hre Heff. pose proof HI as [Hr W]. pose proof (reaped_calm s cp me v s1 HI Hv Hre) as Hc1.
  assert (calm nobody s1 s' /\ forall t, is_Some (s_threads s' !! t) -> is_Some (s_threads s1 !! t)) as [Hc2 Hn2].
  2:{ split; [by eapply calm_trans|]. intros t Ht. by eapply reaped_new, Hn2. }
  unfold tick_effect in Heff. destruct (keeps_running v d).
  - destruct Heff as (_ & Hth & _). split.
    + apply calm_threads. intros t _. unfold status_of. rewrite Hth. destruct (decide (t = v_current v)) as [->|Hne].
      * rewrite lookup_alter_eq. destruct (s_threads s1 !! v_current v) as [e|]; [|done]. cbn. f_equal. apply ticked_same.
      * by rewrite lookup_alter_ne.
    + intros t. rewrite Hth. by rewrite lookup_alter_is_Some.
  - pose proof (fun t => switched_status _ _ _ _ _ _ _ _ t Heff) as Hst.
    set (next := next_of (gave_up (vset Zombies [] v))) in *. set (f := resting v ∘ ticked) in *.
    assert (forall t, status_of s' t = if decide (t = next) then (fun _ => THREAD_RUNNING) <$> s_threads s1 !! t
      else t_status <$> alter f (v_current v) (s_threads s1) !! t) as Hs'.
    { intros t. unfold status_of. rewrite Hst. case_decide; [|done]. destruct (decide (t = v_current v)) as [->|Hne].
      - rewrite lookup_alter_eq. by destruct (s_threads s1 !! v_current v).
      - by rewrite lookup_alter_ne. }
    split.
    2:{ intros t [e He]. specialize (Hs' t). unfold status_of in Hs'. rewrite He in Hs'. destruct (s_threads s1 !! t) eqn:E1; [done|].
        destruct (decide (t = v_current v)) as [->|Hne]; [rewrite lookup_alter_eq in Hs'|rewrite lookup_alter_ne in Hs' by done];
          rewrite E1 in Hs'; by case_decide. }
    assert (awake (status_of s1 (v_current v)) /\ (next = v_current v \/ awake (status_of s1 next))) as [Hcur Hnext].
    { assert (forall t, awake (status_of s t) -> awake (status_of s1 t)) as Hkeep.
      { intros t Ht. assert (t ∉ v_zombies v) as Hz.
        { intros (e & He & _ & Hst')%(wf_zombies _ _ _ W me v t Hv). unfold status_of in Ht. rewrite He in Ht.
          destruct Ht; cbn in *; congruence. }
        specialize (Hre t). rewrite decide_False in Hre by done. unfold status_of in *.
        destruct (s_threads s1 !! t) as [e1|], (s_threads s !! t) as [e|]; cbn in Hre; try done. injection Hre as ? ? Hst'.
        cbn in *. by rewrite Hst'. }
      split; [apply Hkeep; right; unfold status_of; rewrite Hd; cbn; f_equal; by eapply running_status|].
      assert (next = next_of (gave_up v)) as Hnx by (unfold next, gave_up; cbn; by case_decide).
      destruct (gave_up_next s cp me v W Hv) as [Hn|Hn]; [left; congruence|right; apply Hkeep]. by rewrite Hnx. }
    clearbody next.
    intros t _. destruct (decide (t = next)) as [->|Hne].
    + assert (awake (status_of s1 next)) as Hn by (destruct Hnext as [->|Hn]; done).
      apply awake_both; [done|]. rewrite Hs', decide_True by done. unfold status_of in Hn.
      destruct (s_threads s1 !! next); [by right|by destruct Hn].
    + specialize (Hs' t). rewrite decide_False in Hs' by done. destruct (decide (t = v_current v)) as [->|Hc].
      * apply awake_both; [done|]. rewrite Hs', lookup_alter_eq. unfold status_of in Hcur.
        destruct (s_threads s1 !! v_current v) as [e|]; [|by destruct Hcur]. cbn in *. unfold f, compose, resting.
        case_decide; [|by left]. cbn. destruct (ticked_same e) as (_ & -> & _). done.
      * rewrite lookup_alter_ne in Hs' by done. unfold asleep, alive. rewrite Hs'. done.
Qed.
End ticks.

(** ** Runs *)

(** Where a thread is: in [mutex_lock], having slept, or in [mutex_unlock] with
    a thread still to wake; a thread without a phase is in neither. *)
Inductive phase := Waiting (m : Z) | Waking (m t : Z).
(** Who is between the return of [mutex_lock] and [mutex_unlock], and the
    threads that went to sleep at a mutex and that were given it, in order. *)
Record ghost := mk_ghost { pc : gmap Z phase; held : gset (Z * Z); ins : gmap Z (list Z); outs : gmap Z (list Z) }.
Definition hist (g : gmap Z (list Z)) (m : Z) : list Z := default [] (g !! m).
Definition acquire (t m : Z) (g : ghost) : ghost := mk_ghost (delete t (pc g)) ({[(t, m)]} ∪ held g) (ins g) (outs g).
Definition fall_asleep (t m : Z) (g : ghost) : ghost :=
  mk_ghost (<[t := Waiting m]> (pc g)) (held g) (<[m := hist (ins g) m ++ [t]]> (ins g)) (outs g).
Definition release (t m : Z) (next : ptr) (g : ghost) : ghost :=
  match next with
  | None => mk_ghost (pc g) (held g ∖ {[(t, m)]}) (ins g) (outs g)
  | Some n => mk_ghost (<[t := Waking m n]> (pc g)) (held g ∖ {[(t, m)]}) (ins g) (<[m := hist (outs g) m ++ [n]]> (outs g))
  end.
Definition woke (t : Z) (g : ghost) : ghost := mk_ghost (delete t (pc g)) (held g) (ins g) (outs g).

Section wakes.
Context {E V : Type} `{!Heap E} `{!HeapLaws E} `{!VasOps V}.

Lemma wake_kernel (s s' : sched E V) cp t : kernel_inv s cp -> is_Some (s_threads s !! t) -> thread_wake (Some t) s = Ok (tt, s') ->
  exists cp', kernel_inv s' cp' /\ forall u, is_Some (s_threads s' !! u) -> is_Some (s_threads s !! u).
Proof.
  intros [HI Ht] [d Hd] Hw. destruct (wf_cpu _ _ _ (proj2 HI) t d Hd) as [v Hv].
  destruct (thread_wake_ok s cp t d v HI Hd Hv) as (s1 & Hw1 & _ & Hk & Heff). assert (s1 = s') as -> by congruence.
  case_decide; destruct Heff as [Hth HI']; eexists; (split; [split; [exact HI'|]|]).
  - eapply table_ok_kept; [exact Ht|exact Hk|]. rewrite Hth, <- (alter_lookup_insert _ _ _ _ Hd). by apply same_tree_alter.
  - intros u. rewrite Hth. destruct (decide (u = t)) as [->|Hu]; [by rewrite Hd|by rewrite lookup_insert_ne].
  - eapply table_ok_kept; [exact Ht|exact Hk|]. by rewrite Hth.
  - intros u. by rewrite Hth.
Qed.
End wakes.

Section runs.
Context {E V : Type} `{!Heap E} `{!HeapLaws E} `{!VasOps V} (L : layout).
Abbreviation S := (sched (menv E) V).

(** What else may happen: a thread in [mutex_lock] is woken by [mutex_unlock]
    only, and no thread blocks or exits inside these functions or with a mutex. *)
Definition allowed (s : S) (g : ghost) (me : Z) (k : call) : Prop :=
  match k with
  | CTick | CYield | CReap => True
  | CBlockCurrent => forall t, current_of s me t -> pc g !! t = None
  | CWake u => forall m, pc g !! u <> Some (Waiting m)
  | CExit => forall t, current_of s me t -> pc g !! t = None /\ forall m, (t, m) ∉ held g
  | _ => False
  end.

Inductive step : S * ghost -> S * ghost -> Prop :=
| step_lock s g me r t m res s' : current_of s me t -> stack_room r -> pc g !! t = None ->
    mutex_lock 1 r me (Some m) s = Ok (res, s') ->
    step (s, g) (s', match res with None => acquire t m g | Some _ => fall_asleep t m g end)
| step_resume s g me r t m res s' : current_of s me t -> stack_room r -> pc g !! t = Some (Waiting m) ->
    mutex_lock_resumed 1 r me m t s = Ok (res, s') ->
    step (s, g) (s', match res with None => acquire t m g | Some _ => g end)
| step_try s g me t m b s' : current_of s me t -> pc g !! t = None ->
    mutex_try_lock me (Some m) s = Ok (b, s') ->
    step (s, g) (s', if b then acquire t m g else g)
| step_unlock s g me t m next s' : current_of s me t -> pc g !! t = None ->
    mutex_hand_over m (Some t) s = Ok (next, s') ->
    step (s, g) (s', release t m next g)
| step_wake s g me t m n s' : current_of s me t -> pc g !! t = Some (Waking m n) ->
    thread_wake (Some n) s = Ok (tt, s') -> step (s, g) (s', woke t g)
| step_call s g me r k s' : stack_room r -> call_ok L s me k -> allowed s g me k ->
    do_call L me r k s = Ok (tt, s') -> step (s, g) (s', g).

Definition owner_at (ws : mviews) (m : Z) : ptr := ws !! m ≫= w_owner.

Record inv (s : S) (g : ghost) (ws : mviews) : Prop := {
  i_kernel : exists cp, kernel_inv s cp;
  i_rep : mrep (s_env s) ws;
  i_rest : at_rest ws;
  i_nodes t : is_Some (s_threads s !! t) -> is_Some (m_wait (s_env s) !! t);
  i_queue m t : t ∈ queue_at ws m -> pc g !! t = Some (Waiting m) /\ asleep s t;
  i_wait m t : pc g !! t = Some (Waiting m) ->
    t ∈ queue_at ws m \/ (owner_at ws m = Some t /\ (asleep s t -> exists u, pc g !! u = Some (Waking m t)));
  i_waking u m t : pc g !! u = Some (Waking m t) -> pc g !! t = Some (Waiting m) /\ owner_at ws m = Some t /\ asleep s t;
  i_once u u' m m' t : pc g !! u = Some (Waking m t) -> pc g !! u' = Some (Waking m' t) -> u = u';
  i_held t m : (t, m) ∈ held g <-> owner_at ws m = Some t /\ pc g !! t <> Some (Waiting m);
  i_alive t : is_Some (pc g !! t) \/ (exists m, owner_at ws m = Some t) -> alive s t;
  i_fifo m : hist (ins g) m = hist (outs g) m ++ queue_at ws m }.

Definition no_new (s s' : S) : Prop := forall t, is_Some (s_threads s' !! t) -> is_Some (s_threads s !! t).

(** A call that leaves the mutexes and the threads inside them alone. *)
Definition one (o : ptr) : Z -> Prop := fun t => o = Some t.
Lemma calm_nobody o (s s' : S) : calm nobody s s' -> calm (one o) s s'.
Proof. intros Hc t _. apply Hc. intros []. Qed.

Lemma call_inv o s s' g ws cp' : inv s g ws -> kernel_inv s' cp' -> same_mutexes s s' -> no_new s s' -> calm (one o) s s' ->
  (forall t m, o = Some t -> pc g !! t <> Some (Waiting m)) ->
  (forall t, o = Some t -> is_Some (pc g !! t) \/ (exists m, owner_at ws m = Some t) -> alive s t -> alive s' t) -> inv s' g ws.
Proof.
  intros I HK [Hm Hw] Hnew Hc HX Hal.
  assert (forall t m, pc g !! t = Some (Waiting m) -> asleep s t <-> asleep s' t) as Hsl.
  { intros t m Ht. apply Hc. intros Hx. by apply (HX t m Hx). }
  split.
  - by exists cp'.
  - destruct (i_rep _ _ _ I) as [H1 H2 H3]. split; rewrite ?Hm, ?Hw; done.
  - apply (i_rest _ _ _ I).
  - intros t Ht. rewrite Hw. by apply (i_nodes _ _ _ I), Hnew.
  - intros m t Ht. destruct (i_queue _ _ _ I m t Ht) as [Hp Hs]. split; [done|]. by apply (Hsl t m).
  - intros m t Ht. destruct (i_wait _ _ _ I m t Ht) as [?|[Ho Ha]]; [by left|right]. split; [done|].
    intros Hs. apply Ha. by apply (Hsl t m).
  - intros u m t Hu. destruct (i_waking _ _ _ I u m t Hu) as (Hp & Ho & Hs). split_and!; try done. by apply (Hsl t m).
  - apply (i_once _ _ _ I).
  - apply (i_held _ _ _ I).
  - intros t Ht. pose proof (i_alive _ _ _ I t Ht) as Ha. destruct (decide (o = Some t)) as [Hx|Hx]; [by apply Hal|by apply Hc].
  - apply (i_fifo _ _ _ I).
Qed.

(** *** The calls *)

Lemma reschedules_new r me v f v1 cp (s : S) res s' : reschedules r me v f v1 cp s res s' -> no_new s s'.
Proof.
  intros (Hsw & _) t [d' Hd']. pose proof (switched_status _ _ _ _ _ _ _ _ t Hsw) as Hst. rewrite Hd' in Hst.
  destruct (s_threads s !! t) as [d|] eqn:Hd; [done|]. destruct (decide (t = v_current v)) as [->|Ht].
  - rewrite lookup_alter_eq, Hd in Hst. by case_decide.
  - rewrite lookup_alter_ne, Hd in Hst by done. by case_decide.
Qed.

Lemma resting_fields v d : t_status (resting v d) = t_status (resting v d) /\ forall d', t_status d' = t_status d -> t_status (resting v d') = t_status (resting v d).
Proof. split; [done|]. intros d' Hd. unfold resting. by case_decide. Qed.

Lemma yield_inv (s s' : S) g ws r me : inv s g ws -> stack_room r -> do_call L me r CYield s = Ok (tt, s') -> inv s' g ws.
Proof.
  intros I Hroom Hrun. destruct (i_kernel _ _ _ I) as [cp HK]. pose proof HK as [HI Ht].
  destruct (cp !! me) as [v|] eqn:Hv.
  - destruct (sched_yield_ok s cp r me v HI Hv Hroom) as (res & s1 & Ho & Hre).
    assert (s1 = s') as -> by (pose proof (returns_of _ s s1 res Ho) as Hr; cbn in Hrun; congruence).
    eapply (call_inv None); [exact I| |by apply rest_same, Hre|by eapply reschedules_new| |done|done].
    + eapply reschedules_kernel; [exact Ht|exact Hre|apply resting_tree].
    + apply calm_nobody. eapply (yield_calm s cp me v (gave_up v)); [done|done| |done|exact Hre]. done.
  - assert (s' = s) as ->; [|done]. pose proof (resume_state s cp me HK) as Hst. rewrite Hv in Hst.
    cbn in Hrun. unfold sched_yield, find_cpu in Hrun. rewrite bind_assoc, gets_bind in Hrun.
    destruct (s_cpus s !! me) as [c|] eqn:Hc; [|by injection Hrun as <-].
    destruct (Hst c eq_refl) as [Hid _]. rewrite Hid in Hrun. by injection Hrun as <-.
Qed.

Lemma tick_inv (s s' : S) g ws r me : inv s g ws -> stack_room r -> do_call L me r CTick s = Ok (tt, s') -> inv s' g ws.
Proof.
  intros I Hroom Hrun. destruct (i_kernel _ _ _ I) as [cp HK]. pose proof HK as [HI Ht].
  assert (same_mutexes s s') as Hsame.
  { cbn in Hrun. apply st_bind_inv in Hrun as (res & s1 & Hr & [= <-]). by apply (keeps_tick r me s res). }
  destruct (cp !! me) as [v|] eqn:Hv.
  - destruct (wf_current _ _ _ (proj2 HI) me v Hv) as (d & Hd & _).
    destruct (sched_tick_ok s cp r me v d HK Hv Hd Hroom) as (res & s1 & s2 & Ho & Hreap & Hm & Heff & HK').
    assert (s2 = s') as -> by (pose proof (returns_of _ s s2 res Ho) as Hr; cbn in Hrun; congruence).
    destruct (tick_calm s s1 s' cp me v d r res HI Hv Hd Hreap Heff) as [Hc Hnew].
    eapply (call_inv None); [exact I|exact HK'|exact Hsame|exact Hnew|by apply calm_nobody|done|done].
  - assert (s' = s) as ->; [|done]. pose proof (resume_state s cp me HK) as Hst. rewrite Hv in Hst.
    cbn in Hrun. unfold sched_tick, find_cpu in Hrun. rewrite bind_assoc, gets_bind in Hrun.
    destruct (s_cpus s !! me) as [c|] eqn:Hc; [|by injection Hrun as <-].
    destruct (Hst c eq_refl) as [Hid _]. rewrite Hid in Hrun. by injection Hrun as <-.
Qed.

Lemma reap_inv (s s' : S) g ws r me : inv s g ws -> call_ok L s me CReap -> do_call L me r CReap s = Ok (tt, s') -> inv s' g ws.
Proof.
  intros I Hok Hrun. destruct (i_kernel _ _ _ I) as [cp HK]. pose proof HK as [HI Ht]. cbn in Hrun, Hok.
  unfold sched_reap, find_cpu in Hrun. rewrite gets_bind in Hrun. pose proof (resume_state s cp me HK) as Hst.
  destruct (s_cpus s !! me) as [c|] eqn:Hc; [|by injection Hrun as <-].
  destruct (cp !! me) as [v|] eqn:Hv; [|by destruct (Hst c eq_refl) as [Hid _]; destruct (Hok c eq_refl)].
  destruct (sched_reap_cpu_ok me s cp v HK Hv) as (s1 & Hs1 & HK1 & Hm1 & Hre). assert (s1 = s') as -> by congruence.
  eapply (call_inv None); [exact I|exact HK1|by eapply keeps_reap| | |done|done].
  - intros t. by eapply reaped_new.
  - apply calm_nobody. by eapply reaped_calm.
Qed.

Lemma wake_inv (s s' : S) g ws t : inv s g ws -> is_Some (s_threads s !! t) -> (forall m, pc g !! t <> Some (Waiting m)) ->
  thread_wake (Some t) s = Ok (tt, s') -> inv s' g ws.
Proof.
  intros I Hd Hp Hrun. destruct (i_kernel _ _ _ I) as [cp HK]. pose proof HK as [HI Ht].
  destruct (wake_calm s cp t s' HI Hd Hrun) as (Hc & Hk & Hns & Hal).
  destruct (wake_kernel s s' cp t HK Hd Hrun) as (cp' & HK' & Hnew).
  eapply (call_inv (Some t)); [exact I|exact HK'|by apply rest_same|exact Hnew| | |].
  - intros u Hu. apply Hc. intros ->. by apply Hu.
  - intros u m [= <-]. apply Hp.
  - by intros u [= <-] _.
Qed.

Lemma leave_inv (s s' : S) g ws cp r me v f v1 res : inv s g ws -> kernel_inv s cp -> cp !! me = Some v ->
  reschedules r me v f v1 cp s res s' -> next_of v1 = next_of v ->
  (forall d, t_next (f d) = t_next d /\ t_parent (f d) = t_parent d /\ t_stack (f d) = t_stack d) ->
  (forall m, pc g !! v_current v <> Some (Waiting m)) ->
  (is_Some (pc g !! v_current v) \/ (exists m, owner_at ws m = Some (v_current v)) -> alive s' (v_current v)) -> inv s' g ws.
Proof.
  intros I HK Hv Hre Hn Htree Hp Hal. pose proof HK as [HI Ht].
  eapply (call_inv (Some (v_current v))); [exact I|by eapply reschedules_kernel|by apply rest_same, Hre|by eapply reschedules_new| | |].
  - eapply (reschedules_calm r me v f v1 cp); [exact HI|exact Hv|exact Hre| |by left].
    right. rewrite Hn. by apply (next_awake s cp me v None (s_threads s)); [apply HI| |].
  - intros t m [= <-]. apply Hp.
  - intros t [= <-] Hi _. by apply Hal.
Qed.

Lemma slept_status r me v cp (s : S) res s' : sched_inv s cp -> cp !! me = Some v -> v_current v <> v_idle v ->
  reschedules r me v (set_status THREAD_BLOCKED) v cp s res s' -> asleep s' (v_current v).
Proof.
  intros [Hr W] Hv Hne (Hsw & _). pose proof (switched_status _ _ _ _ _ _ _ _ (v_current v) Hsw) as Hst.
  unfold asleep, status_of. rewrite Hst, decide_False by (apply not_eq_sym; by eapply next_not_current).
  destruct (wf_current _ _ _ W me v Hv) as (d & Hd & _). by rewrite lookup_alter_eq, Hd.
Qed.

Lemma block_inv (s s' : S) g ws r me : inv s g ws -> stack_room r -> (forall t, current_of s me t -> pc g !! t = None) ->
  do_call L me r CBlockCurrent s = Ok (tt, s') -> inv s' g ws.
Proof.
  intros I Hroom Hall Hrun. destruct (i_kernel _ _ _ I) as [cp HK]. pose proof HK as [HI Ht].
  pose proof (resume_state s cp me HK) as Hst. cbn in Hrun.
  assert (thread_block_current None r me s = Ok (None, s) -> inv s' g ws) as Hnone.
  { intros Ho. rewrite (st_bind_ok _ _ _ _ _ Ho) in Hrun. by injection Hrun as <-. }
  destruct (cp !! me) as [v|] eqn:Hv.
  - destruct (decide (v_current v = v_idle v)) as [He|Hne].
    + apply Hnone. destruct Hst as (c & d & Hc & Hid & Hcu & _). unfold thread_block_current, find_cpu.
      rewrite gets_bind, Hc, Hid, Hcu. by rewrite decide_True.
    + destruct (block_current_ok s cp r me v None HI Hv Hne Hroom) as (res & s1 & Ho & Hre); [done|].
      assert (s1 = s') as -> by (rewrite (st_bind_ok _ _ _ _ _ Ho) in Hrun; by injection Hrun).
      pose proof (Hall _ (view_current_of s cp me v HI Hv Hne)) as Hp.
      eapply (leave_inv s s' g ws cp); try done; [intros m; by rewrite Hp|].
      intros _. exists THREAD_BLOCKED. split; [|done]. by eapply slept_status.
  - apply Hnone. unfold thread_block_current, find_cpu. rewrite gets_bind.
    destruct (s_cpus s !! me) as [c|] eqn:Hc; [|done]. by destruct (Hst c eq_refl) as [-> _].
Qed.

Lemma exit_inv (s s' : S) g ws r me : inv s g ws -> stack_room r -> call_ok L s me CExit ->
  (forall t, current_of s me t -> pc g !! t = None /\ forall m, (t, m) ∉ held g) ->
  do_call L me r CExit s = Ok (tt, s') -> inv s' g ws.
Proof.
  intros I Hroom (c & Hc & Hcu & Hne) Hall Hrun. destruct (i_kernel _ _ _ I) as [cp HK]. pose proof HK as [HI Ht].
  pose proof (resume_state s cp me HK) as Hst. cbn in Hrun. destruct (cp !! me) as [v|] eqn:Hv; [|by destruct (Hst c Hc)].
  destruct Hst as (c' & d & Hc' & Hid & Hcu' & _). assert (c' = c) as -> by congruence.
  assert (v_current v <> v_idle v) as Hnv by congruence.
  destruct (sched_exit_ok s cp r me v HI Hv Hnv Hroom) as (res & s1 & Ho & Hre).
  assert (s1 = s') as -> by (rewrite (st_bind_ok _ _ _ _ _ Ho) in Hrun; by injection Hrun).
  destruct (Hall _ (view_current_of s cp me v HI Hv Hnv)) as [Hp Hh].
  eapply (leave_inv s s' g ws cp); try done; [intros m; by rewrite Hp|].
  intros [[x Hx]|[m Hm]]; [congruence|]. exfalso. apply (Hh m), (i_held _ _ _ I). split; [done|by rewrite Hp].
Qed.

Lemma call_step_inv (s s' : S) g ws r me k : inv s g ws -> stack_room r -> call_ok L s me k -> allowed s g me k ->
  do_call L me r k s = Ok (tt, s') -> inv s' g ws.
Proof.
  intros I Hroom Hok Hall Hrun. destruct k; try done.
  - by eapply tick_inv.
  - by eapply yield_inv.
  - by eapply reap_inv.
  - by eapply block_inv.
  - by eapply wake_inv.
  - by eapply exit_inv.
Qed.

(** *** The steps of the mutexes *)

Lemma owner_insert ws m w n : owner_at (<[m := w]> ws) n = if decide (n = m) then w_owner w else owner_at ws n.
Proof. unfold owner_at. case_decide; [subst; by rewrite lookup_insert_eq|by rewrite lookup_insert_ne]. Qed.
Lemma queue_insert ws m w n : queue_at (<[m := w]> ws) n = if decide (n = m) then w_queue w else queue_at ws n.
Proof. unfold queue_at. case_decide; [subst; by rewrite lookup_insert_eq|by rewrite lookup_insert_ne]. Qed.
Lemma owner_of ws m b o l : ws !! m = Some (mk_mview b o l) -> owner_at ws m = o /\ queue_at ws m = l.
Proof. intros Hw. unfold owner_at, queue_at. by rewrite Hw. Qed.
Lemma hist_insert g m l n : hist (<[m := l]> g) n = if decide (n = m) then l else hist g n.
Proof. unfold hist. case_decide; [subst; by rewrite lookup_insert_eq|by rewrite lookup_insert_ne]. Qed.

Lemma kernel_senv e' (s : S) cp : kernel_inv s cp -> env_kept (s_env s) e' -> kernel_inv (set_senv e' s) cp.
Proof.
  intros [HI [H1 H2 H3 H4]] [He _]. split; [by apply sched_inv_senv|]. split; try done.
  cbn [s_env set_senv] in *. cbn in *. by rewrite He.
Qed.

Lemma at_rest_insert ws m o l : at_rest ws -> (o = None -> l = []) -> (forall t, o = Some t -> t ∉ l) ->
  at_rest (<[m := mk_mview false o l]> ws).
Proof.
  intros Hr Ho Hl n w. destruct (decide (n = m)) as [->|Hn]; [rewrite lookup_insert_eq; by intros [= <-]|].
  rewrite lookup_insert_ne by done. apply Hr.
Qed.

Lemma running_not_asleep (s : S) g ws me t : inv s g ws -> current_of s me t -> ~ asleep s t /\ alive s t.
Proof.
  intros I Hc. destruct (i_kernel _ _ _ I) as [cp [HI _]]. destruct (current_of_view s cp me t HI Hc) as (v & Hv & <- & _).
  destruct (wf_current _ _ _ (proj2 HI) me v Hv) as (d & Hd & _). pose proof (running_status s cp me v d HI Hv Hd) as Hst.
  unfold asleep, alive, status_of. rewrite Hd. cbn. rewrite Hst. split; [discriminate|by exists THREAD_RUNNING].
Qed.

(** Guards taken and released. *)
Lemma env_inv (s : S) g ws e' : inv s g ws -> mrep e' ws -> env_kept (s_env s) e' -> inv (set_senv e' s) g ws.
Proof.
  intros I R' K'. split; try apply I; [|done|].
  - destruct (i_kernel _ _ _ I) as [cp HK]. exists cp. by apply kernel_senv.
  - intros u Hu. destruct K' as [_ Hd]. apply elem_of_dom. cbn [s_env set_senv]. rewrite Hd. apply elem_of_dom. by apply (i_nodes _ _ _ I).
Qed.

(** A free mutex is taken. *)
Lemma take_inv (s : S) g ws me t m l e' : inv s g ws -> current_of s me t -> pc g !! t = None ->
  ws !! m = Some (mk_mview false None l) -> mrep e' (<[m := mk_mview false (Some t) l]> ws) -> env_kept (s_env s) e' ->
  inv (set_senv e' s) (acquire t m g) (<[m := mk_mview false (Some t) l]> ws).
Proof.
  intros I Hcu Hp Hw R' K'. destruct (running_not_asleep s g ws me t I Hcu) as [Hns Hal].
  destruct (owner_of _ _ _ _ _ Hw) as [Ho Hq]. destruct (i_rest _ _ _ I m _ Hw) as (_ & Hl & _). cbn in Hl.
  rewrite (Hl eq_refl) in *. clear Hl.
  split; cbn [pc held ins outs acquire]; try (setoid_rewrite owner_insert); try (setoid_rewrite queue_insert); cbn [w_owner w_queue].
  - destruct (i_kernel _ _ _ I) as [cp HK]. exists cp. by apply kernel_senv.
  - done.
  - apply at_rest_insert; [apply I|done|]. intros u _. apply not_elem_of_nil.
  - intros u Hu. destruct K' as [_ Hd]. apply elem_of_dom. cbn [s_env set_senv]. rewrite Hd. apply elem_of_dom. by apply (i_nodes _ _ _ I).
  - intros n u Hu. case_decide; [by apply not_elem_of_nil in Hu|]. destruct (i_queue _ _ _ I n u Hu) as [Hpu Hs].
    split; [|done]. rewrite lookup_delete_ne; congruence.
  - intros n u [Hne Hu]%lookup_delete_Some. destruct (i_wait _ _ _ I n u Hu) as [Hin|[Hon Ha]].
    + left. case_decide; [subst; by rewrite Hq in Hin|done].
    + right. case_decide; [subst; congruence|]. split; [done|]. intros Hs. destruct (Ha Hs) as [x Hx].
      exists x. rewrite lookup_delete_ne; [done|]. congruence.
  - intros u n x [Hne Hu]%lookup_delete_Some. destruct (i_waking _ _ _ I u n x Hu) as (Hx & Hon & Hs).
    case_decide; [subst; congruence|]. split; [rewrite lookup_delete_ne; [done|congruence]|done].
  - intros u u' n n' x [_ Hu]%lookup_delete_Some [_ Hu']%lookup_delete_Some. by eapply (i_once _ _ _ I).
  - intros u n. pose proof (i_held _ _ _ I u n) as Hh. rewrite elem_of_union, elem_of_singleton. destruct (decide (u = t)) as [->|Hu].
    + rewrite lookup_delete_eq. rewrite Hp in Hh. case_decide; [subst; naive_solver|].
      split; [intros [[= ?]|?%Hh]; naive_solver|]. intros [? _]. right. by apply Hh.
    + rewrite lookup_delete_ne by done. case_decide; [subst n|naive_solver]. rewrite Ho in Hh. naive_solver congruence.
  - intros u Hu. destruct (decide (u = t)) as [->|Hne]; [done|]. apply (i_alive _ _ _ I). destruct Hu as [[x Hx]|[n Hn]].
    + left. apply lookup_delete_Some in Hx as [_ Hx]. by exists x.
    + right. exists n. case_decide; congruence.
  - intros n. rewrite (i_fifo _ _ _ I n). case_decide; [subst; by rewrite Hq|done].
Qed.

(** The thread that was given the mutex takes it up. *)
Lemma taken_up_inv (s : S) g ws me t m : inv s g ws -> current_of s me t -> pc g !! t = Some (Waiting m) ->
  owner_at ws m = Some t /\ inv s (acquire t m g) ws.
Proof.
  intros I Hcu Hp. destruct (running_not_asleep s g ws me t I Hcu) as [Hns Hal].
  destruct (i_wait _ _ _ I m t Hp) as [Hin|[Ho Ha]]; [by destruct Hns; apply (i_queue _ _ _ I m t Hin)|].
  split; [done|]. split; cbn [pc held ins outs acquire]; try apply I.
  - intros n u Hu. destruct (i_queue _ _ _ I n u Hu) as [Hpu Hs]. split; [|done]. rewrite lookup_delete_ne; [done|congruence].
  - intros n u [Hne Hu]%lookup_delete_Some. destruct (i_wait _ _ _ I n u Hu) as [Hin|[Hon Ha']]; [by left|right].
    split; [done|]. intros Hs. destruct (Ha' Hs) as [x Hx]. exists x. rewrite lookup_delete_ne; [done|congruence].
  - intros u n x [Hne Hu]%lookup_delete_Some. destruct (i_waking _ _ _ I u n x Hu) as (Hx & Hon & Hs).
    split; [rewrite lookup_delete_ne; congruence|done].
  - intros u u' n n' x [_ Hu]%lookup_delete_Some [_ Hu']%lookup_delete_Some. by eapply (i_once _ _ _ I).
  - intros u n. pose proof (i_held _ _ _ I u n) as Hh. rewrite elem_of_union, elem_of_singleton. destruct (decide (u = t)) as [->|Hu].
    + rewrite lookup_delete_eq. rewrite Hp in Hh. split; [|intros [Hn _]; destruct (decide (n = m)) as [->|]; [by left|right]].
      * intros [[= ->]|?%Hh]; naive_solver.
      * apply Hh. split; [done|congruence].
    + rewrite lookup_delete_ne by done. naive_solver.
  - intros u Hu. destruct (decide (u = t)) as [->|Hne]; [done|]. apply (i_alive _ _ _ I). destruct Hu as [[x Hx]|?]; [left|by right].
    apply lookup_delete_Some in Hx as [_ Hx]. by exists x.
Qed.

(** A thread goes to sleep at the end of the queue. *)
Lemma sleep_inv (s s' : S) g ws cp r me v m o l e' res : inv s g ws -> kernel_inv s cp -> cp !! me = Some v ->
  v_current v <> v_idle v -> pc g !! v_current v = None -> ws !! m = Some (mk_mview false (Some o) l) -> o <> v_current v ->
  reschedules r me v (set_status THREAD_BLOCKED) v cp (set_senv e' s) res s' ->
  mrep e' (<[m := mk_mview false (Some o) (enqueue (v_current v) l)]> ws) -> env_kept (s_env s) e' ->
  inv s' (fall_asleep (v_current v) m g) (<[m := mk_mview false (Some o) (enqueue (v_current v) l)]> ws).
Proof.
  intros I HK Hv Hne Hp Hw Ho Hre R' K'. set (t := v_current v) in *. pose proof (kernel_senv e' s cp HK K') as HK1.
  destruct (owner_of _ _ _ _ _ Hw) as [Hom Hq].
  assert (t ∉ l) as Htl by (intros Hin; rewrite <- Hq in Hin; apply (i_queue _ _ _ I) in Hin as [? _]; congruence).
  unfold enqueue in *. rewrite decide_False in * by done.
  assert (s_env s' = e') as He by (destruct Hre as (_ & _ & He & _); done).
  assert (calm (one (Some t)) s s') as Hc.
  { intros u Hu. apply (reschedules_calm r me v (set_status THREAD_BLOCKED) v cp (set_senv e' s) res s' (one (Some t)) (proj1 HK1) Hv Hre); [|by left|done].
    right. by apply (next_awake (set_senv e' s) cp me v None (s_threads s)); [apply HK| |]. }
  pose proof (slept_status r me v cp (set_senv e' s) res s' (proj1 HK1) Hv Hne Hre) as Hst.
  assert (forall u n, pc g !! u = Some n -> u <> t) as Hpt by congruence.
  assert (forall u n, pc g !! u = Some n -> asleep s u -> asleep s' u) as Hkeep.
  { intros u n Hu. apply Hc. intros [= ->]. by destruct (Hpt _ _ Hu). }
  assert (forall u n, pc g !! u = Some n -> asleep s' u -> asleep s u) as Hkeep'.
  { intros u n Hu. apply Hc. intros [= ->]. by destruct (Hpt _ _ Hu). }
  split; cbn [pc held ins outs fall_asleep]; try (setoid_rewrite owner_insert); try (setoid_rewrite queue_insert); cbn [w_owner w_queue].
  - eexists. by eapply reschedules_kernel; [apply HK1|exact Hre|].
  - by rewrite He.
  - apply at_rest_insert; [apply I|done|]. intros u [= <-] [Hin|Hin]%elem_of_app.
    + by destruct (i_rest _ _ _ I m _ Hw) as (_ & _ & Hn); apply (Hn o eq_refl).
    + by apply list_elem_of_singleton in Hin.
  - intros u Hu. rewrite He. destruct K' as [_ Hd]. apply elem_of_dom. rewrite Hd. apply elem_of_dom, (i_nodes _ _ _ I).
    by apply (reschedules_new _ _ _ _ _ _ _ _ _ Hre).
  - intros n u Hu. assert (u = t /\ n = m \/ u ∈ queue_at ws n) as [[-> ->]|Hin].
    { case_decide; [subst n|by right]. apply elem_of_app in Hu as [Hu|Hu]; [right; by rewrite Hq|left].
      by apply list_elem_of_singleton in Hu. }
    + rewrite lookup_insert_eq. done.
    + destruct (i_queue _ _ _ I n u Hin) as [Hpu Hs]. rewrite lookup_insert_ne by (apply not_eq_sym; by eapply Hpt).
      split; [done|]. by eapply Hkeep.
  - intros n u Hu. destruct (decide (u = t)) as [->|Hut].
    + rewrite lookup_insert_eq in Hu. injection Hu as <-. left. rewrite decide_True by done. apply elem_of_app. right. by apply list_elem_of_singleton.
    + rewrite lookup_insert_ne in Hu by done. destruct (i_wait _ _ _ I n u Hu) as [Hin|[Hon Ha]].
      * left. case_decide; [subst n; apply elem_of_app; left; by rewrite Hq in Hin|done].
      * right. split; [case_decide; [subst n; congruence|done]|]. intros Hs. destruct (Ha (Hkeep' _ _ Hu Hs)) as [x Hx].
        exists x. by rewrite lookup_insert_ne by (apply not_eq_sym; by eapply Hpt).
  - intros u n x Hu. apply lookup_insert_Some in Hu as [[_ [=]]|[_ Hu]]. destruct (i_waking _ _ _ I u n x Hu) as (Hx & Hon & Hs).
    rewrite lookup_insert_ne by (apply not_eq_sym; by eapply Hpt). split; [done|]. split; [case_decide; [subst n; congruence|done]|].
    by eapply Hkeep.
  - intros u u' n n' x Hu Hu'. apply lookup_insert_Some in Hu as [[_ [=]]|[_ Hu]], Hu' as [[_ [=]]|[_ Hu']]. by eapply (i_once _ _ _ I).
  - intros u n. pose proof (i_held _ _ _ I u n) as Hh.
    destruct (decide (u = t)) as [->|Hut].
    + rewrite lookup_insert_eq, Hh, Hp. case_decide; [subst n; rewrite Hom; naive_solver|].
      split; intros [Hon _]; (split; [done|]); [by intros [= ->]|done].
    + rewrite lookup_insert_ne by done. case_decide; [subst n; by rewrite Hh, Hom|exact Hh].
  - intros u Hu. destruct (decide (u = t)) as [->|Hut]; [by exists THREAD_BLOCKED|]. apply Hc; [by intros [= ?]|].
    apply (i_alive _ _ _ I). destruct Hu as [Hu|[n Hn]]; [left; by rewrite lookup_insert_ne in Hu|right; exists n].
    case_decide; congruence.
  - intros n. rewrite hist_insert. case_decide; [subst n|by apply (i_fifo _ _ _ I)]. by rewrite (i_fifo _ _ _ I m), Hq, app_assoc.
Qed.

Lemma nodes_kept (s : S) g ws e' t : inv s g ws -> env_kept (s_env s) e' ->
  is_Some (s_threads (set_senv e' s) !! t) -> is_Some (m_wait (s_env (set_senv e' s)) !! t).
Proof.
  intros I [_ Hd] Hu. apply elem_of_dom. cbn [s_env set_senv]. rewrite Hd. apply elem_of_dom. by apply (i_nodes _ _ _ I).
Qed.

(** The mutex is released when nobody waits. *)
Lemma set_free_inv (s : S) g ws t m e' : inv s g ws -> pc g !! t = None -> ws !! m = Some (mk_mview false (Some t) []) ->
  mrep e' (<[m := mk_mview false None []]> ws) -> env_kept (s_env s) e' ->
  inv (set_senv e' s) (release t m None g) (<[m := mk_mview false None []]> ws).
Proof.
  intros I Hp Hw R' K'. destruct (owner_of _ _ _ _ _ Hw) as [Ho Hq].
  split; cbn [pc held ins outs release]; try (setoid_rewrite owner_insert); try (setoid_rewrite queue_insert); cbn [w_owner w_queue];
    try apply I.
  - destruct (i_kernel _ _ _ I) as [cp HK]. exists cp. by apply kernel_senv.
  - done.
  - by apply at_rest_insert; [apply I| |].
  - intros u. by eapply nodes_kept.
  - intros n u Hu. case_decide; [by apply not_elem_of_nil in Hu|]. by apply (i_queue _ _ _ I).
  - intros n u Hu. destruct (i_wait _ _ _ I n u Hu) as [Hin|[Hon Ha]].
    + left. case_decide; [subst n; by rewrite Hq in Hin|done].
    + right. case_decide; [subst n; congruence|done].
  - intros u n x Hu. destruct (i_waking _ _ _ I u n x Hu) as (Hx & Hon & Hs). case_decide; [subst n; congruence|done].
  - intros u n. pose proof (i_held _ _ _ I u n) as Hh. rewrite elem_of_difference, elem_of_singleton, Hh.
    case_decide; [subst n; rewrite Ho; naive_solver|]. split; [tauto|]. intros [? ?]. split; [done|]. intros [= _ ?]. congruence.
  - intros u [Hu|[n Hn]]; apply (i_alive _ _ _ I); [by left|]. right. exists n. by case_decide.
  - intros n. rewrite (i_fifo _ _ _ I n). case_decide; [subst n; by rewrite Hq|done].
Qed.

(** The mutex is handed to the thread that waits longest. *)
Lemma hand_inv (s : S) g ws t m n l e' : inv s g ws -> pc g !! t = None -> ws !! m = Some (mk_mview false (Some t) (n :: l)) ->
  mrep e' (<[m := mk_mview false (Some n) l]> ws) -> env_kept (s_env s) e' ->
  inv (set_senv e' s) (release t m (Some n) g) (<[m := mk_mview false (Some n) l]> ws).
Proof.
  intros I Hp Hw R' K'. destruct (owner_of _ _ _ _ _ Hw) as [Ho Hq].
  assert (pc g !! n = Some (Waiting m) /\ asleep s n) as [Hpn Hsn] by (apply (i_queue _ _ _ I); rewrite Hq; left).
  assert (n <> t) as Hnt by congruence.
  destruct (queue_fits s ws m _ _ _ (i_rep _ _ _ I) Hw) as ([Hnl _]%NoDup_cons & _).
  assert (forall u x, pc g !! u = Some x -> u <> t) as Hpt by congruence.
  split; cbn [pc held ins outs release]; try (setoid_rewrite owner_insert); try (setoid_rewrite queue_insert); cbn [w_owner w_queue].
  - destruct (i_kernel _ _ _ I) as [cp HK]. exists cp. by apply kernel_senv.
  - done.
  - apply at_rest_insert; [apply I|done|]. by intros u [= <-].
  - intros u. by eapply nodes_kept.
  - intros k u Hu. assert (u ∈ queue_at ws k) as Hin by (case_decide; [subst k; rewrite Hq; by right|done]).
    destruct (i_queue _ _ _ I k u Hin) as [Hpu Hs]. rewrite lookup_insert_ne by (apply not_eq_sym; by eapply Hpt). done.
  - intros k u Hu. apply lookup_insert_Some in Hu as [[_ [=]]|[Hut Hu]]. destruct (i_wait _ _ _ I k u Hu) as [Hin|[Hon Ha]].
    + case_decide; [subst k|by left]. rewrite Hq in Hin. apply elem_of_cons in Hin as [->|Hin]; [right|by left].
      split; [done|]. intros _. exists t. apply lookup_insert_eq.
    + case_decide; [subst k; congruence|]. right. split; [done|]. intros Hs. destruct (Ha Hs) as [x Hx]. exists x.
      by rewrite lookup_insert_ne by (apply not_eq_sym; by eapply Hpt).
  - intros u k x Hu. apply lookup_insert_Some in Hu as [[_ [= <- <-]]|[Hut Hu]].
    + rewrite lookup_insert_ne by done. by rewrite decide_True by done.
    + destruct (i_waking _ _ _ I u k x Hu) as (Hx & Hon & Hs). rewrite lookup_insert_ne by (apply not_eq_sym; by eapply Hpt).
      case_decide; [subst k; congruence|done].
  - assert (forall u k, pc g !! u <> Some (Waking k n)) as Hno.
    { intros u k Hu. destruct (i_waking _ _ _ I u k n Hu) as (Hx & Hon & _). rewrite Hpn in Hx. injection Hx as ->. congruence. }
    intros u u' k k' x Hu Hu'. apply lookup_insert_Some in Hu as [[<- Eu]|[Hut Hu]], Hu' as [[<- Eu']|[Hut' Hu']]; try done.
    + injection Eu as <- <-. by destruct (Hno _ _ Hu').
    + injection Eu' as <- <-. by destruct (Hno _ _ Hu).
    + by eapply (i_once _ _ _ I).
  - intros u k. pose proof (i_held _ _ _ I u k) as Hh. rewrite elem_of_difference, elem_of_singleton, Hh.
    destruct (decide (u = t)) as [->|Hut].
    + rewrite lookup_insert_eq. case_decide; [subst k; naive_solver|]. rewrite Hp. naive_solver.
    + rewrite lookup_insert_ne by done. case_decide; [subst k; rewrite Ho; naive_solver congruence|]. naive_solver.
  - intros u Hu. apply (i_alive _ _ _ I). destruct Hu as [[x Hx]|[k Hk]].
    + apply lookup_insert_Some in Hx as [[-> _]|[_ Hx]]; [right; by exists m|left; by exists x].
    + case_decide; [subst k; injection Hk as <-; left; by eexists|right; by exists k].
  - intros k. rewrite hist_insert. case_decide; [subst k|by apply (i_fifo _ _ _ I)].
    by rewrite (i_fifo _ _ _ I m), Hq, <- app_assoc.
Qed.

(** The wake-up at the end of [mutex_unlock]. *)
Lemma wake_step_inv (s s' : S) g ws me t m n : inv s g ws -> current_of s me t -> pc g !! t = Some (Waking m n) ->
  thread_wake (Some n) s = Ok (tt, s') -> inv s' (woke t g) ws.
Proof.
  intros I Hcu Hp Hrun. destruct (i_kernel _ _ _ I) as [cp HK]. destruct (i_waking _ _ _ I t m n Hp) as (Hn & Ho & Hs).
  assert (is_Some (s_threads s !! n)) as Hd by (unfold asleep, status_of in Hs; by destruct (s_threads s !! n)).
  destruct (wake_calm s cp n s' (proj1 HK) Hd Hrun) as (Hc & Hk & Hns & Hal).
  destruct (wake_kernel s s' cp n HK Hd Hrun) as (cp' & HK' & Hnew).
  destruct (rest_same s s' Hk) as [Hm Hw].
  assert (forall m', n ∉ queue_at ws m') as Hnq.
  { intros m' Hin. destruct (i_queue _ _ _ I m' n Hin) as [Hn' _]. rewrite Hn in Hn'. injection Hn' as ->.
    unfold queue_at, owner_at in *. destruct (ws !! m') as [w|] eqn:Ew; [|done]. by destruct (i_rest _ _ _ I m' w Ew) as (_ & _ & Hx); apply (Hx n). }
  assert (forall u x, pc g !! u = Some (Waiting x) -> u <> t) as Hut by congruence.
  split; cbn [pc held ins outs woke]; try apply I.
  - by exists cp'.
  - destruct (i_rep _ _ _ I) as [H1 H2 H3]. split; rewrite ?Hm, ?Hw; done.
  - intros u Hu. rewrite Hw. by apply (i_nodes _ _ _ I), Hnew.
  - intros k u Hu. destruct (i_queue _ _ _ I k u Hu) as [Hpu Hsu]. rewrite lookup_delete_ne by (apply not_eq_sym; by eapply Hut).
    split; [done|]. apply Hc; [|done]. intros ->. by apply (Hnq k).
  - intros k u [_ Hu]%lookup_delete_Some. destruct (i_wait _ _ _ I k u Hu) as [?|[Hon Ha]]; [by left|right]. split; [done|].
    intros Hsu. destruct (decide (u = n)) as [->|Hun]; [done|]. destruct (Ha (proj2 (proj1 (Hc u Hun)) Hsu)) as [x Hx].
    exists x. rewrite lookup_delete_ne; [done|]. congruence.
  - intros u k x [Hu0 Hu]%lookup_delete_Some. destruct (i_waking _ _ _ I u k x Hu) as (Hx & Hon & Hsx).
    rewrite lookup_delete_ne by (apply not_eq_sym; by eapply Hut). split_and!; try done. apply Hc; [|done].
    intros ->. apply Hu0. by eapply (i_once _ _ _ I).
  - intros u u' k k' x [_ Hu]%lookup_delete_Some [_ Hu']%lookup_delete_Some. by eapply (i_once _ _ _ I).
  - intros u k. rewrite (i_held _ _ _ I u k). destruct (decide (u = t)) as [->|Hne]; [rewrite lookup_delete_eq, Hp; naive_solver|].
    by rewrite lookup_delete_ne.
  - intros u Hu. assert (alive s u) as Ha.
    { apply (i_alive _ _ _ I). destruct Hu as [[x [_ Hx]%lookup_delete_Some]|?]; [left; by exists x|by right]. }
    destruct (decide (u = n)) as [->|Hun]; [by apply Hal|]. by apply Hc.
Qed.

(** *** Every step *)

Lemma lock_step_inv (s s' : S) g ws me r t m res : inv s g ws -> current_of s me t -> stack_room r -> pc g !! t = None ->
  mutex_lock 1 r me (Some m) s = Ok (res, s') ->
  exists ws', inv s' (match res with None => acquire t m g | Some _ => fall_asleep t m g end) ws'.
Proof.
  intros I Hcu Hroom Hp Hrun. destruct (i_kernel _ _ _ I) as [cp HK]. pose proof HK as [HI _].
  destruct (current_of_view s cp me t HI Hcu) as (v & Hv & <- & Hne).
  destruct (wf_current _ _ _ (proj2 HI) me v Hv) as (d & Hd & _).
  assert (forall n, v_current v ∉ queue_at ws n) as Hno by (intros n [Hn _]%(i_queue _ _ _ I); congruence).
  pose proof (lock_ok 0 s cp ws m r me v HI Hv Hne Hroom (i_rep _ _ _ I) (i_rest _ _ _ I)
    (i_nodes _ _ _ I _ ltac:(by eexists)) ltac:(intros; apply Hno)) as Heff.
  unfold lock_effect in Heff. rewrite Hrun in Heff. destruct (ws !! m) as [[b o l]|] eqn:Hw; [|done].
  destruct (i_rest _ _ _ I m _ Hw) as (Hb & _ & _). cbn in Hb. subst b. destruct o as [o|].
  - case_decide as Ho; [done|]. destruct Heff as (x & s1 & e' & [= -> ->] & Hre & R' & K').
    eexists. by eapply sleep_inv.
  - destruct Heff as (e' & [= -> ->] & R' & K'). eexists. by eapply take_inv.
Qed.

Lemma resume_ok (s : S) g ws me r t m : inv s g ws -> current_of s me t -> pc g !! t = Some (Waiting m) ->
  mutex_lock_resumed 1 r me m t s = Ok (None, s).
Proof.
  intros I Hcu Hp. destruct (taken_up_inv s g ws me t m I Hcu Hp) as [Ho _]. unfold owner_at in Ho.
  destruct (ws !! m) as [w|] eqn:Hw; [|done]. destruct (view_of _ _ _ _ (i_rep _ _ _ I) Hw) as (x & Hx & _ & Hox & _).
  unfold mutex_lock_resumed. erewrite st_bind_ok; [|unfold get_mutex; by rewrite Hx]. cbn in Ho. by rewrite decide_True by congruence.
Qed.

Lemma hand_over_not (s s' : S) ws m t o l next : mrep (s_env s) ws -> ws !! m = Some (mk_mview false o l) -> o <> Some t ->
  mutex_hand_over m (Some t) s <> Ok (next, s').
Proof.
  intros Hr Hw Ho Hrun. destruct (guard_lock_step ws m o l Hw s Hr) as (e1 & E1 & R1 & _).
  unfold mutex_hand_over in Hrun. rewrite (st_bind_ok _ _ _ _ _ E1) in Hrun.
  destruct (view_of e1 _ m _ R1 (lookup_insert_eq _ _ _)) as (x & Hx & _ & Hox & _). cbn in Hox.
  assert (get_mutex m (set_senv e1 s) = Ok (x, set_senv e1 s)) as Hg by (unfold get_mutex; cbn [s_env set_senv]; by rewrite Hx).
  rewrite (st_bind_ok _ _ _ _ _ Hg) in Hrun. rewrite bool_decide_eq_false_2 in Hrun by congruence. cbn [negb] in Hrun.
  apply st_bind_inv in Hrun as (? & ? & _ & ?). done.
Qed.

Lemma unlock_step_inv (s s' : S) g ws t m next : inv s g ws -> pc g !! t = None ->
  mutex_hand_over m (Some t) s = Ok (next, s') -> exists ws', inv s' (release t m next g) ws'.
Proof.
  intros I Hp Hrun. destruct (ws !! m) as [[b o l]|] eqn:Hw.
  - destruct (i_rest _ _ _ I m _ Hw) as (Hb & _ & _). cbn in Hb. subst b.
    destruct (decide (o = Some t)) as [->|Ho]; [|by destruct (hand_over_not s s' ws m t o l next (i_rep _ _ _ I) Hw Ho)].
    destruct (hand_over_step ws m t l Hw s (i_rep _ _ _ I)) as (e' & He & R' & K'). rewrite He in Hrun.
    injection Hrun as <- <-. destruct l as [|n l]; eexists; [by eapply set_free_inv|by eapply hand_inv].
  - pose proof (mr_view _ _ (i_rep _ _ _ I) m) as Hm. rewrite Hw in Hm. unfold mutex_hand_over, guard_lock, get_mutex, mbind, st_bind in Hrun.
    by destruct (m_mutexes (s_env s) !! m).
Qed.

Lemma try_step_inv (s s' : S) g ws me t m b : inv s g ws -> current_of s me t -> pc g !! t = None ->
  mutex_try_lock me (Some m) s = Ok (b, s') -> exists ws', inv s' (if b then acquire t m g else g) ws'.
Proof.
  intros I Hcu Hp Hrun. destruct (i_kernel _ _ _ I) as [cp HK]. destruct (current_of_view s cp me t (proj1 HK) Hcu) as (v & Hv & Ht & Hne).
  pose proof (sched_current_ok s cp me v (proj1 HK) Hv) as Hc. rewrite Ht in Hc.
  destruct (ws !! m) as [[gd o l]|] eqn:Hw.
  - destruct (i_rest _ _ _ I m _ Hw) as (Hb & _ & _). cbn in Hb. subst gd.
    destruct (try_lock_step ws m o l s me t Hw (i_rep _ _ _ I) Hc) as (e' & He & R' & K'). rewrite He in Hrun.
    injection Hrun as <- <-. destruct (decide (o = None)) as [->|Ho].
    + eexists. by eapply take_inv.
    + rewrite bool_decide_eq_false_2 by done. exists ws.
      eapply (env_inv s g ws e'); done.
  - pose proof (mr_view _ _ (i_rep _ _ _ I) m) as Hm. rewrite Hw in Hm. unfold mutex_try_lock, unless_null in Hrun.
    rewrite (st_bind_ok _ _ _ _ _ Hc) in Hrun. unfold guard_lock, get_mutex, mbind, st_bind in Hrun.
    by destruct (m_mutexes (s_env s) !! m).
Qed.

Lemma step_inv c c' ws : step c c' -> inv c.1 c.2 ws -> exists ws', inv c'.1 c'.2 ws'.
Proof.
  intros [] I; cbn [fst snd] in *.
  - by eapply lock_step_inv.
  - pose proof (resume_ok s g ws me r t m I ltac:(done) ltac:(done)) as Hr. assert (res = None /\ s' = s) as [-> ->] by (split; congruence).
    exists ws. by eapply taken_up_inv.
  - by eapply try_step_inv.
  - by eapply unlock_step_inv.
  - exists ws. by eapply wake_step_inv.
  - exists ws. by eapply call_step_inv.
Qed.

Lemma run_inv c c' : rtc step c c' -> (exists ws, inv c.1 c.2 ws) -> exists ws, inv c'.1 c'.2 ws.
Proof. induction 1 as [|c1 c2 c3 Hs _ IH]; [done|]. intros [ws I]. apply IH. by eapply step_inv. Qed.

(** *** The start: every mutex is free *)

Definition no_ghost : ghost := mk_ghost ∅ ∅ ∅ ∅.
Definition all_free (s : S) (ws : mviews) : Prop :=
  mrep (s_env s) ws /\ (forall m w, ws !! m = Some w -> w = mk_mview false None []) /\
  forall t, is_Some (s_threads s !! t) -> is_Some (m_wait (s_env s) !! t).

Lemma start_inv (s : S) cp ws : kernel_inv s cp -> all_free s ws -> inv s no_ghost ws.
Proof.
  intros HK (Hr & Hf & Hn).
  assert (forall m, owner_at ws m = None /\ queue_at ws m = []) as Hm.
  { intros m. unfold owner_at, queue_at. destruct (ws !! m) as [w|] eqn:Hw; [|done]. by rewrite (Hf m w Hw). }
  split; cbn [pc held ins outs no_ghost]; try done.
  - by exists cp.
  - intros m w Hw. rewrite (Hf m w Hw). by split_and!.
  - intros m t. destruct (Hm m) as [_ ->]. by intros ?%not_elem_of_nil.
  - intros t m. destruct (Hm m) as [-> _]. split; [by intros ?%not_elem_of_empty|intros [[=] _]].
  - intros t [[x Hx]|[m Ho]]; [done|]. destruct (Hm m) as [Hx _]. congruence.
  - intros m. destruct (Hm m) as [_ ->]. done.
Qed.


End runs.

(** ** A concrete run *)

(** A state of the scheduler with mutexes beside the heap. *)
Definition with_mutexes {E V} (x : gmap Z mutex) (h : store) (s : sched E V) : sched (menv E) V :=
  mk_sched (mk_menv (s_env s) x h) (s_vas s) (s_mem s) (s_threads s) (s_nodes s) (s_procs s) (s_cpus s)
    (s_proc_list s) (s_proc_lock s) (s_next_pid s) (s_next_tid s).

Lemma with_mutexes_inv {E V} `{!Heap E} x h (s : sched E V) cp : kernel_inv s cp -> kernel_inv (with_mutexes x h s) cp.
Proof. intros [[[H1 H2 H3 H4 H5 H6] W] [T1 T2 T3 T4]]. split; [split; [by split|done]|by split]. Qed.

Definition lock_at : Z := 9000.
Definition wait_of {E V} (s : sched E V) : store := (fun _ => mk_node None None None) <$> s_threads s.
Definition m0 : sched (menv bump) unit := with_mutexes {[lock_at := MUTEX_INIT]} (wait_of (demo_after 8)) (demo_after 8).
Definition free_view : mviews := {[lock_at := mk_mview false None []]}.

#[local] Instance demo_vas : VasOps unit := {| vas_create := fun v => (Some 4096, v); vas_destroy := fun _ v => v |}.

Lemma fresh_mutex {E} (e : E) a h : Z.of_nat (size h) < 2 ^ 64 ->
  mrep (mk_menv e {[a := MUTEX_INIT]} h) {[a := mk_mview false None []]}.
Proof.
  intros Hh. assert (forall m, queue_at {[a := mk_mview false None []]} m = []) as Hq.
  { intros m. unfold queue_at. destruct (decide (m = a)) as [->|Hm]; [by rewrite lookup_singleton_eq|by rewrite lookup_singleton_ne]. }
  split; [|intros m n t; rewrite Hq; by intros ?%not_elem_of_nil|done].
  intros m. cbn [m_mutexes m_wait]. destruct (decide (m = a)) as [->|Hm]; [|by rewrite !lookup_singleton_ne].
  rewrite !lookup_singleton_eq. split; [done|]. split; [done|]. split; [apply rq_rep_init|constructor].
Qed.

Lemma wait_nodes (th : gmap Z tcb) (t : Z) : is_Some (th !! t) ->
  is_Some (((fun _ => mk_node None None None) <$> th) !! t).
Proof. rewrite lookup_fmap. apply fmap_is_Some. Qed.

Lemma free_with {E V} (s : sched E V) a : Z.of_nat (size (wait_of s)) < 2 ^ 64 ->
  all_free (with_mutexes {[a := MUTEX_INIT]} (wait_of s) s) {[a := mk_mview false None []]}.
Proof.
  intros Hs. split; [by apply fresh_mutex|]. split.
  - intros m w Hw. apply lookup_singleton_Some in Hw as [_ <-]. done.
  - intros t Ht. by apply wait_nodes.
Qed.

Lemma demo_free : all_free m0 free_view.
Proof. apply (free_with (demo_after 8) lock_at). vm_compute. reflexivity. Qed.

Definition is_ok {A} (o : outcome A) : bool := match o with Ok _ => true | _ => false end.
Definition result {A} (o : outcome A) (d : A) : A := match o with Ok a => a | _ => d end.
Lemma result_parts {A S} (o : outcome (A * S)) d a : is_ok o = true -> (result o d).1 = a -> o = Ok (a, (result o d).2).
Proof. destruct o as [[x s]| | |]; try done. cbn. by intros _ <-. Qed.

Definition lock0 := mutex_lock 1 demo_cpu 0 (Some lock_at) m0.
Definition m1 := (result lock0 (None, m0)).2.
Definition lock1 := mutex_lock 1 demo_cpu 1 (Some lock_at) m1.
Definition m2 := (result lock1 (None, m1)).2.
Definition unlock := mutex_hand_over lock_at (Some 50001) m2.
Definition m3 := (result unlock (None, m2)).2.
Definition wake := thread_wake (Some 50003) m3.
Definition m4 := (result wake (tt, m3)).2.
Definition tick := do_call demo_layout 1 demo_cpu CTick m4.
Definition m5 := (result tick (tt, m4)).2.

Definition g1 : ghost := acquire 50001 lock_at no_ghost.
Definition g2 : ghost := fall_asleep 50003 lock_at g1.
Definition g3 : ghost := release 50001 lock_at (Some 50003) g2.
Definition g4 : ghost := woke 50001 g3.
Definition g5 : ghost := acquire 50003 lock_at g4.

Lemma lock0_ok : mutex_lock 1 demo_cpu 0 (Some lock_at) m0 = Ok (None, m1).
Proof. apply (result_parts lock0 (None, m0)); vm_compute; reflexivity. Qed.
Lemma lock1_ok : exists x, mutex_lock 1 demo_cpu 1 (Some lock_at) m1 = Ok (Some x, m2).
Proof.
  destruct (result lock1 (None, m1)).1 as [x|] eqn:E; [|vm_compute in E; discriminate E]. exists x.
  apply (result_parts lock1 (None, m1)); [vm_compute; reflexivity|exact E].
Qed.
Lemma unlock_ok : mutex_hand_over lock_at (Some 50001) m2 = Ok (Some 50003, m3).
Proof. apply (result_parts unlock (None, m2)); vm_compute; reflexivity. Qed.
Lemma wake_ok : thread_wake (Some 50003) m3 = Ok (tt, m4).
Proof. apply (result_parts wake (tt, m3)); vm_compute; reflexivity. Qed.
Lemma tick_ok : do_call demo_layout 1 demo_cpu CTick m4 = Ok (tt, m5).
Proof. apply (result_parts tick (tt, m4)); vm_compute; reflexivity. Qed.
Lemma resumed_ok : mutex_lock_resumed 1 demo_cpu 1 lock_at 50003 m5 = Ok (None, m5).
Proof.
  unfold mutex_lock_resumed. assert (from_option (fun x => bool_decide (owner x = Some 50003)) false (m_mutexes (s_env m5) !! lock_at) = true) as H
    by (vm_compute; reflexivity).
  unfold get_mutex, mbind, st_bind. destruct (m_mutexes (s_env m5) !! lock_at) as [x|]; [|discriminate H].
  cbn in H. apply bool_decide_eq_true in H. by rewrite decide_True.
Qed.

Lemma is_current {E V} (s : sched E V) me t :
  from_option (fun c => bool_decide (c_current c = Some t) && bool_decide (c_idle c <> Some t)) false (s_cpus s !! me) = true ->
  current_of s me t.
Proof.
  unfold current_of. destruct (s_cpus s !! me) as [c|]; [|done]. cbn.
  intros [H1%bool_decide_eq_true H2%bool_decide_eq_true]%andb_true_iff. by exists c.
Qed.
#[local] Opaque m0 m1 m2 m3 m4 m5.

Ltac running := apply is_current; vm_compute; reflexivity.

Lemma mutex_run : rtc (step (E := bump) (V := unit) demo_layout) (m0, no_ghost) (m5, g5).
Proof.
  eapply rtc_l; [eapply (step_lock _ m0 no_ghost 0 demo_cpu 50001 lock_at None m1);
    [running|exact demo_room|reflexivity|exact lock0_ok]|]. fold g1.
  destruct lock1_ok as [x Hx].
  eapply rtc_l; [eapply (step_lock _ m1 g1 1 demo_cpu 50003 lock_at (Some x) m2);
    [running|exact demo_room|reflexivity|exact Hx]|]. fold g2.
  eapply rtc_l; [eapply (step_unlock _ m2 g2 0 50001 lock_at (Some 50003) m3); [running|reflexivity|exact unlock_ok]|]. fold g3.
  eapply rtc_l; [eapply (step_wake _ m3 g3 0 50001 lock_at 50003 m4); [running|reflexivity|exact wake_ok]|]. fold g4.
  eapply rtc_l; [eapply (step_call _ m4 g4 1 demo_cpu CTick m5); [exact demo_room|exact I|exact I|exact tick_ok]|].
  eapply rtc_l; [eapply (step_resume _ m5 g4 1 demo_cpu 50003 lock_at None m5);
    [running|exact demo_room|reflexivity|exact resumed_ok]|]. fold g5.
  apply rtc_refl.
Qed.



(** The lock of the second thread, stated on the view of its CPU. *)
Lemma mutex_lock_spec_witness : exists e',
  mutex_lock 1 demo_cpu 0 (Some lock_at) m0 = Ok (None, set_senv e' m0) /\
  mrep e' (<[lock_at := mk_mview false (Some 50001) []]> free_view).
Proof.
  destruct (s_cpus (demo_after 8) !! 0) as [c|] eqn:Hc; [|vm_compute in Hc; discriminate].
  destruct (demo_view 8 0 c 200 Hc) as (cp & v & HK & Hv & Hid & Hcu & _).
  { vm_compute in Hc. apply (inj Some) in Hc. subst c. reflexivity. }
  assert (v_current v = 50001) as E1.
  { vm_compute in Hc. apply (inj Some) in Hc. subst c. symmetry. exact (inj Some _ _ Hcu). }
  assert (at_rest free_view) as Hrest.
  { intros m w Hw. unfold free_view in Hw. apply lookup_singleton_Some in Hw as [_ <-]. split; [done|]. split; [done|]. intros t [=]. }
  destruct demo_free as (Hr & _ & Hn).
  assert (forall n, queue_at free_view n = []) as Hq.
  { intros n. unfold queue_at, free_view. destruct (decide (n = lock_at)) as [->|Hne];
      [by rewrite lookup_singleton_eq|by rewrite lookup_singleton_ne]. }
  destruct (mutex_lock_spec 0 m0 cp free_view lock_at None [] demo_cpu 0 v (proj1 (with_mutexes_inv _ _ _ _ HK)) Hv)
    as (e' & Hrun & Hr' & _).
  - rewrite E1, Hid. discriminate.
  - exact demo_room.
  - exact Hr.
  - exact Hrest.
  - apply Hn. rewrite E1. eexists. vm_compute. reflexivity.
  - intros n _. rewrite Hq. apply not_elem_of_nil.
  - reflexivity.
  - exists e'. rewrite E1 in Hr'. split; [exact Hrun|exact Hr'].
Defined.
